(* ===== verification/_CoqProject ===== *)
-Q . S2P
Prelude.v
PyStr.v
Regex.v
PyValue.v
PyFloat.v
PyDate.v
PiiScrubber.v
Histogram.v
IngestUtils.v
FunctionNames.v
EventTypes.v
IngestEvent.v
IssueStore.v
IssueIngest.v
IssueTheorems.v
Releases.v
Statistics.v
Transactions.v
Compaction.v
Promotion.v
PartitionManager.v
ColdStorage.v
UrlValidation.v
Webhooks.v
JsEvents.v
Uptime.v
Billing.v
EventAuth.v
Alerts.v
Logs.v
EventViews.v
Assemble.v
BitField.v
Membership.v
AlertApi.v
MonitorApi.v
ReleaseApi.v
ProjectApi.v
Comments.v
Reconcile.v
IssueAdmin.v
Cursor.v
LogQuery.v
Usage.v
PyHash.v
OAuth.v
Stripe.v
StripeSync.v
StripeApi.v
StripeFacts.v
