(* ===== verification/Prelude.v ===== *)
(** * GlitchTip backend: verification development

    GlitchTip collects errors, transactions and logs that client SDKs send, groups errors to
    issues, keeps statistics, moves old rows to files, checks whether sites are up, and bills
    organizations for what they use. This library models the Python code that does this, under
    [src/apps], [src/glitchtip] and [src/sentry], and proves what makes it correct.

    ** The program and its model

    A request comes to an ingest endpoint with the key of a project. [EventAuth] is its
    authentication ([event_ingest/authentication.py]): the key is looked for in the request and
    in a cache of blocked keys, then in the database, and the project's rates may throttle it.
    [EventViews] holds the endpoints ([event_ingest/views.py], [api.py], [otlp_views.py]): an
    envelope's items are validated, scrubbed by [PiiScrubber] ([pii_scrubber.py]), checked for
    a repeated event id and put on the queue. Workers take batches from the queue.

    - [IngestEvent] and [EventTypes], [FunctionNames], [IngestUtils] prepare single events
      ([process_event.py], [event_ingest/utils.py], [sentry/eventtypes], [sentry/culprit.py],
      [sentry/stacktraces]): title, culprit, hash, tags, search text.
    - [IssueStore] holds the tables of issues, hashes and events, [IssueIngest] the batch
      operation on them ([process_issue_events]) and [IssueTheorems] what it guarantees.
      [Releases] finds the releases and environments a batch names, [Statistics] counts
      it per hour, project, issue and tag.
    - [Transactions] stages spans and sums up transaction groups with [Histogram];
      [Promotion] and [Compaction] move staged span files to hourly and daily ones
      ([performance/promotion.py], [performance/cold_storage.py]).
    - [PartitionManager] creates and drops the partitions of the time-ordered tables and
      makes their UUIDv7 keys; [ColdStorage] archives partitions to Parquet files, reads
      them back and removes rows of deleted projects ([glitchtip/cold_storage.py],
      [issue_events/cold_storage.py]).
    - [Logs] is the way of log items from the SDKs' and OpenTelemetry's formats to rows and
      statistics ([event_ingest/schema.py], [otlp.py], [logs/process_logs.py]).
    - [Alerts] is the periodic task that notifies of issues ([alerts/tasks.py]) and [Webhooks]
      what the receivers of a notification are sent ([alerts/webhooks.py],
      [uptime/webhooks.py]); [AlertApi] the endpoints that manage alerts ([alerts/api.py]).
    - [UrlValidation] and [Uptime] are the monitors with the guard against requests to
      internal addresses ([glitchtip/url_validation.py], [uptime/]).
    - [Billing] holds quotas, throttles and the reports of metered overage
      ([organizations_ext/tasks.py], [stripe/overage.py]).
    - [MonitorApi] holds the endpoints of monitors and status pages ([uptime/api.py]).
    - [JsEvents] replaces minified JavaScript frames by those of their source
      ([javascript_event_processor.py]) with the files that [Assemble] unpacked from uploads
      ([files/], [sentry/utils/zip.py]).
    - [BitField] are the bit fields and the API tokens whose scopes they hold ([bitfield/],
      [api_tokens/], [glitchtip/api/permissions.py]); [OAuth] issues tokens to registered
      clients after a user's consent ([oauth/], [mcp/auth.py]), with the hashes of [PyHash].
    - [Membership] are organizations, members, roles, invitations and teams
      ([organizations_ext/api.py], [teams/api.py]).
    - [IssueAdmin] is the search language and every request that changes issues
      ([issue_events/services.py], [api/issues.py], [tasks.py], [maintenance.py]).
    - [Comments], [ProjectApi] and [ReleaseApi] are the endpoints of comments and hashes, of
      projects, keys and environments, and of releases, with the removal of old releases
      ([api/comments.py], [api/hashes.py], [projects/api.py], [environments/api.py],
      [releases/api.py], [releases/maintenance.py]).
    - [LogQuery] searches logs in table and files ([logs/api.py]) with the cursors of [Cursor].
    - [Usage] counts what an organization uses per billing cycle; [Stripe] are the tables of
      products, prices, customers and subscriptions with the webhooks that change them,
      [StripeSync] their synchronisation, [StripeApi] the endpoints of billing and
      [StripeFacts] what holds of all of them ([stripe/]).
    - [Reconcile] is the governed organization of Creator Signal ([creativesignal/]).

    Each file has the component's data as records and inductive types, one definition per
    function or step under the function's name, lemmas, the theorems and then witnesses and
    examples. Files below the components: [Prelude] (tactics, hints, association lists),
    [PyStr] (texts as lists of code points), [Regex] (a backtracking matcher for [re]),
    [PyValue] (plain Python values, exceptions and [res]), [PyFloat] (rounding to doubles),
    [PyDate] (calendar dates; times are microseconds since 1970 in [Z], or seconds where a file
    says so) and [PyHash] (SHA-256 and HMAC).

    ** How state and effects are modelled

    A handler is a function from its arguments and an explicit state to a result and the new
    state; an exception is [Raise e] of [res] or a value of a type of the component, so that
    partial effects before it stay in the state. Tables are [gmap]s by key or lists of rows in
    the order of insertion, with the constraints of the schema as conditions of the inserts. A
    dictionary whose order matters is an association list ([adict], [pydict]). Tasks that
    interleave are step relations ([Uptime.step], [EventAuth.request],
    [EventViews.ingest_step], [Alerts.do_step], [OAuth.step]) and their invariants are proved over all
    reachable states. A failing outside call is a parameter that says which calls fail.

    Recursion is structural almost everywhere. Fuel occurs in the regular expression matcher,
    the trimming of function names, the loops of partition names, the batches of cold storage,
    of the removal of blobs ([Assemble]), of issues ([IssueAdmin]) and of releases
    ([ReleaseApi]), the walk through pages of logs ([LogQuery]) and of Stripe ([StripeSync])
    and the digits of a short id ([Webhooks]); each comes with a lemma that the fuel handed over is enough, or, for two
    loops of [IssueAdmin] that can go on for ever, that no fuel is. The 120 rounds of
    [Usage.cycle_loop] and bounds of nesting such as [PiiScrubber.MAX_SCRUB_DEPTH] are the
    code's own. Integers have their width where it matters: UUIDs and their fields, columns of
    16, 32 and 64 bits, span ids, the words of SHA-256.

    ** What the theorems show

    - Attribution and counting: every event of a batch goes to the one issue of its hash, is
      counted once, reopens the issue it should by what the replica shows ([IssueTheorems]);
      hourly statistics, tag counts and the counts of transaction groups are exact, averages
      so up to rounding ([Statistics], [Transactions], [Logs]).
    - Conservation: archiving, compaction and promotion lose and duplicate no row that is
      there when they begin, whatever fails ([ColdStorage], [Compaction], [Promotion]);
      partitions cover every key exactly once.
    - Isolation: a job on the queue belongs to the project of the key its request carries, and
      events, transactions and logs on it are scrubbed; an event id is enqueued once; a key
      cannot be locked out by others ([EventAuth], [EventViews]); the guards of addresses
      admit no internal one ([UrlValidation]).
    - State machines: the state of a monitor is that of its history of checks ([Uptime]), an
      alert notifies once between reopenings ([Alerts]), the spend cap holds under failures
      as long as Stripe remembers a report that is repeated ([Billing]).
    - Errors: which inputs fail a batch, and that none ends in an unintended error.
    - Uploads: no archive writes outside its directory, an assembled file has the announced
      checksum, and the removal of blobs spares those in use whatever runs beside it
      ([Assemble]); the memo of the source maps does not show ([JsEvents]).
    - Tenants: no request, nor a task it leaves, changes another organization's issues,
      comments, alerts, monitors, projects or releases ([IssueAdmin], [Comments], [AlertApi], [MonitorApi], [ProjectApi],
      [ReleaseApi]); roles are not exceeded and an organization keeps an owner ([Membership]);
      a token has the scopes its user consented to, however requests interleave ([OAuth],
      [BitField]).
    - Search: the SQL of a log search selects what its filters mean in the table and in the
      files, pages together are complete, a cursor is read back ([LogQuery], [Cursor]).
    - Billing: webhooks are authentic, can be repeated and keep the tables' references whole,
      synchronisation reads every page, cycles cover the present ([Stripe], [StripeSync],
      [StripeFacts], [Usage]).
    - Delivery: a notification is addressed to what the guard lets pass (a redirect may lead
      elsewhere), and to every receiver though another fails ([Webhooks]); the prescribed
      state is reached and kept by a second run ([Reconcile]).
    Where the code does not do what it says, an Example or theorem runs the model on the case;
    those are the findings of the manifest.

    ** Parameters

    Code outside the repository is an argument of the definitions that use it: the framing and
    decompression of [gt_rust], Pydantic's checks of field types, JSON parsing and printing,
    hash functions, DNS and HTTP answers, Stripe, Parquet files as lists of rows, random bits,
    clocks, and which database or storage calls fail. What is assumed of them (UUIDs in range,
    a replica that agrees with the primary, increasing ids) is a hypothesis of the theorem, and
    its witness has a concrete instance.

    ** Not modelled

    Left out because they hold no logic of the program: settings, start of the processes
    (ASGI, WSGI, memory trimming), the bindings to the Rust server ([rust_ingest.py],
    [internal_transport.py]), migrations, admin pages, templates and the text of e-mails,
    management commands that make sample data, import legacy events or print a report,
    benchmarks, generated constants.

    Left out because they only connect a library with the tables: DuckDB's and Parquet's
    own work, debug information files and their symbolication ([difs/], [symbolic]), reading of
    minidumps, sign-in and social accounts (django-allauth), the tools of the MCP server beyond
    their tokens and scopes ([mcp/server.py], [mcp/data.py], which call the queries of the
    other parts), Pydantic schemas that only name fields.

    Left out though they have logic of their own: the endpoints of users, repositories,
    performance and statistics, pagination by Link headers, the importer of another instance's
    organizations, the report dialog for users of a site. *)
From stdpp Require Export prelude strings gmap list sorting.
From Stdlib Require Export ZArith Lia ZifyBool.

(** Every file of the development works in [Z] and in stdpp's notations. *)
#[global] Open Scope Z_scope.
Declare Scope gt_scope.
Delimit Scope gt_scope with gt.

(** The lemmas that automate the common cases of the components. *)
Create HintDb gt discriminated.
Create Rewrite HintDb gtrw.

(** ** Tactics *)

(** Case analysis on the first [match] or [if] of the goal or a hypothesis. *)
Ltac case_goal :=
  match goal with
  | |- context [match ?x with _ => _ end] => destruct x eqn:?
  end.

Ltac case_hyp :=
  match goal with
  | H : context [match ?x with _ => _ end] |- _ => destruct x eqn:?
  end.

(** Split boolean conjunctions and disjunctions in the context. *)
Ltac bool_split :=
  repeat match goal with
  | H : _ && _ = true |- _ => apply andb_true_iff in H as [? ?]
  | H : _ || _ = false |- _ => apply orb_false_iff in H as [? ?]
  | H : _ || _ = true |- _ => apply orb_true_iff in H as [?|?]
  | H : negb _ = true |- _ => apply negb_true_iff in H
  | H : negb _ = false |- _ => apply negb_false_iff in H
  | H : (_ =? _) = true |- _ => apply Z.eqb_eq in H
  | H : (_ =? _) = false |- _ => apply Z.eqb_neq in H
  | H : (_ <=? _) = true |- _ => apply Z.leb_le in H
  | H : (_ <=? _) = false |- _ => apply Z.leb_gt in H
  | H : (_ <? _) = true |- _ => apply Z.ltb_lt in H
  | H : (_ <? _) = false |- _ => apply Z.ltb_ge in H
  | H : bool_decide _ = true |- _ => apply bool_decide_eq_true in H
  | H : bool_decide _ = false |- _ => apply bool_decide_eq_false in H
  end.

(** [lia] with divisions by constants. *)
Ltac dlia := Z.to_euclidean_division_equations; lia.

(** Evaluate a closed goal. *)
Ltac by_compute := vm_compute; reflexivity.

(** Evaluate the decision procedure of a closed proposition. *)
Ltac by_decide := apply (bool_decide_unpack _); vm_compute; exact I.

(** ** Generic lemmas on lists and options *)

Section lists.
Context {A B : Type}.

(** The value of the first element on which [f] answers: Python's
    [next((f(x) for x in l if ...), None)]. *)
Fixpoint first_some (f : A -> option B) (l : list A) : option B :=
  match l with
  | [] => None
  | x :: r => match f x with Some y => Some y | None => first_some f r end
  end.

Lemma first_some_Some f l y :
  first_some f l = Some y -> exists x, x ∈ l /\ f x = Some y.
Proof.
  induction l as [|x r IH]; simpl; [done|].
  destruct (f x) eqn:E; intros H; simplify_eq.
  - exists x. split; [left|done].
  - destruct (IH H) as (z & Hz & ?). exists z. split; [by right|done].
Qed.

Lemma first_some_None f l :
  first_some f l = None <-> Forall (fun x => f x = None) l.
Proof.
  induction l as [|x r IH]; simpl; [done|].
  rewrite Forall_cons, <- IH. destruct (f x); split; try done; by intros [? ?].
Qed.
End lists.

(** [next((x for x in l if p x), None)]. *)
Definition find_first {A} (p : A -> bool) (l : list A) : option A :=
  first_some (fun x => if p x then Some x else None) l.

Lemma find_first_Some {A} (p : A -> bool) l x :
  find_first p l = Some x -> x ∈ l /\ p x = true.
Proof.
  intros (y & Hy & Hp)%first_some_Some. destruct (p y) eqn:E; by simplify_eq.
Qed.

Lemma find_first_None {A} (p : A -> bool) l :
  find_first p l = None <-> forall x, x ∈ l -> p x = false.
Proof.
  unfold find_first. rewrite first_some_None, Forall_forall.
  split; intros H x Hx; specialize (H x Hx); destruct (p x); done.
Qed.

#[export] Hint Resolve find_first_Some : gt.

(** Sum of a list of integers. *)
Definition zsum (l : list Z) : Z := foldr Z.add 0 l.

Lemma zsum_app l1 l2 : zsum (l1 ++ l2) = zsum l1 + zsum l2.
Proof. induction l1; simpl; lia. Qed.

Lemma zsum_cons x l : zsum (x :: l) = x + zsum l.
Proof. done. Qed.

Lemma zsum_nonneg l : Forall (fun x => 0 <= x) l -> 0 <= zsum l.
Proof. induction 1; simpl; lia. Qed.

#[export] Hint Rewrite zsum_app zsum_cons : gtrw.

Lemma filter_all {A} (P : A -> Prop) `{!forall x, Decision (P x)} (l : list A) :
  Forall P l -> filter P l = l.
Proof. induction 1 as [|x l Hx _ IH]; [done|]. rewrite filter_cons, decide_True by done. by f_equal. Qed.

Lemma filter_none {A} (P : A -> Prop) `{!forall x, Decision (P x)} (l : list A) :
  Forall (fun x => ~ P x) l -> filter P l = [].
Proof. induction 1 as [|x l Hx _ IH]; [done|]. by rewrite filter_cons, decide_False. Qed.

#[export] Hint Resolve filter_all filter_none : gt.

(** ** Association lists: dictionaries in insertion order *)

Abbreviation adict K V := (list (K * V)).

Section adict.
Context {K V : Type} `{EqDecision K}.

(** [d.get(k)] *)
Definition aget (k : K) (d : adict K V) : option V :=
  first_some (fun kv => if decide (kv.1 = k) then Some kv.2 else None) d.

(** [d[k] = v]: an existing key keeps its place. *)
Fixpoint aset (k : K) (v : V) (d : adict K V) : adict K V :=
  match d with
  | [] => [(k, v)]
  | kv :: r => if decide (kv.1 = k) then (k, v) :: r else kv :: aset k v r
  end.

Lemma aget_aset_eq k v d : aget k (aset k v d) = Some v.
Proof.
  unfold aget. induction d as [|[k' v'] d IH]; simpl; [by rewrite decide_True|].
  destruct (decide (k' = k)); simpl; [by rewrite decide_True|by rewrite decide_False].
Qed.

Lemma aget_aset_ne k k' v d : k <> k' -> aget k' (aset k v d) = aget k' d.
Proof.
  intros Hne. unfold aget. induction d as [|[k1 v1] d IH]; simpl; [by rewrite decide_False|].
  destruct (decide (k1 = k)); simpl; repeat case_decide; by simplify_eq.
Qed.

Lemma aget_elem k d v : aget k d = Some v -> (k, v) ∈ d.
Proof.
  intros ([k' v'] & Hin & H)%first_some_Some. simpl in H. case_decide; by simplify_eq.
Qed.

Lemma aget_None k d : aget k d = None <-> k ∉ d.*1.
Proof.
  unfold aget. rewrite first_some_None, Forall_forall. split.
  - intros H ([k' v] & -> & Hin)%list_elem_of_fmap. specialize (H _ Hin). simpl in H.
    by rewrite decide_True in H.
  - intros H [k' v] Hin. simpl. case_decide as Hk; [|done]. destruct H.
    apply list_elem_of_fmap. exists (k', v). by subst.
Qed.

Lemma aget_filter (P : K * V -> Prop) `{!forall x, Decision (P x)} k d v :
  NoDup d.*1 -> aget k (filter P d) = Some v <-> aget k d = Some v /\ P (k, v).
Proof.
  unfold aget. induction d as [|[k' v'] d IH]; simpl; [by intros _; split; [|intros [? _]]|].
  intros [Hk Hd]%NoDup_cons. specialize (IH Hd). rewrite filter_cons.
  destruct (decide (P (k', v'))) as [Hp|Hp]; simpl; destruct (decide (k' = k)) as [->|Hne].
  - split; [by intros [= ->]|by intros [[= ->] _]].
  - done.
  - rewrite IH. split; intros [H1 H2].
    + exfalso. apply Hk. apply list_elem_of_fmap. exists (k, v). split; [done|]. by apply aget_elem.
    + by simplify_eq.
  - done.
Qed.

Lemma aset_keys k v d : (aset k v d).*1 = if decide (k ∈ d.*1) then d.*1 else d.*1 ++ [k].
Proof.
  induction d as [|[k' v'] d IH]; [done|]. cbn [aset].
  destruct (decide ((k', v').1 = k)) as [Hk|Hne]; rewrite !fmap_cons; cbn [fst] in *.
  - rewrite Hk. clear IH. case_decide as Hin; [done|]. destruct Hin. left.
  - rewrite IH. clear IH.
    destruct (decide (k ∈ d.*1)), (decide (k ∈ k' :: d.*1)) as [Hin|Hin]; try done.
    + destruct Hin. by right.
    + apply elem_of_cons in Hin as [?|?]; congruence.
Qed.

Lemma NoDup_aset k v d : NoDup d.*1 -> NoDup (aset k v d).*1.
Proof.
  intros H. rewrite aset_keys. case_decide as Hin; [done|].
  apply NoDup_app. split_and!; [done| |by apply NoDup_singleton].
  intros x Hx ->%list_elem_of_singleton. done.
Qed.
End adict.

#[export] Hint Resolve NoDup_aset : gt.
#[export] Hint Rewrite @aget_aset_eq : gtrw.

(** Rows of a table with distinct keys are told apart by their key. *)
Lemma nodup_map_inj {A B} (f : A -> B) (l : list A) x y :
  NoDup (map f l) -> x ∈ l -> y ∈ l -> f x = f y -> x = y.
Proof.
  induction l as [|a l IH]; intros Hnd Hx Hy E; [by apply elem_of_nil in Hx|]. simpl in Hnd.
  apply NoDup_cons in Hnd as [Ha Hnd].
  assert (forall z, z ∈ l -> f z <> f a) as Hne.
  { intros z Hz Hfa. apply Ha. rewrite <- Hfa. apply list_elem_of_fmap. eauto. }
  apply elem_of_cons in Hx. apply elem_of_cons in Hy. destruct Hx as [->|Hx], Hy as [->|Hy]; [done| | |auto].
  - exfalso. by apply (Hne y).
  - exfalso. by apply (Hne x).
Qed.

(** Filters that agree on the members of a list. *)
Lemma list_filter_iff_elem {A} (P Q : A -> Prop) `{!forall x, Decision (P x), !forall x, Decision (Q x)} (l : list A) :
  (forall x, x ∈ l -> P x <-> Q x) -> filter P l = filter Q l.
Proof.
  induction l as [|x l IH]; intros HPQ; [done|]. rewrite !filter_cons, IH by (intros; apply HPQ; by right).
  specialize (HPQ x ltac:(left)). destruct (decide (P x)), (decide (Q x)); tauto.
Qed.
