(* ===== verification/PyStr.v ===== *)
(** * Python strings

    A Python [str] is the sequence of its Unicode code points, a [list Z].
    The methods below are the ones the modelled code calls.  Case mapping,
    [\d] and [\w] are those of the ASCII range (the code points above 127 have
    no case and are not word characters here), so the model is exact on ASCII
    text; white space is Python's full table. *)
From S2P Require Import Prelude.

Abbreviation ustr := (list Z).

(** ** Literals: [u "..."] decodes the UTF-8 bytes of a Rocq string *)

Fixpoint utf8_decode (bs : list Z) (need : nat) (acc : Z) : ustr :=
  match bs with
  | [] => []
  | b :: r =>
      match need with
      | O =>
          if b <? 128 then b :: utf8_decode r 0 0
          else if b <? 224 then utf8_decode r 1 (b - 192)
          else if b <? 240 then utf8_decode r 2 (b - 224)
          else utf8_decode r 3 (b - 240)
      | S O => (acc * 64 + (b - 128)) :: utf8_decode r 0 0
      | S n => utf8_decode r n (acc * 64 + (b - 128))
      end
  end.

Definition u (s : string) : ustr :=
  utf8_decode (map (fun c => Z.of_N (Ascii.N_of_ascii c)) (String.list_ascii_of_string s)) 0 0.
Arguments u _%_string.

(** The code point of a one-character literal. *)
Definition ch (s : string) : Z := default 0 (head (u s)).
Arguments ch _%_string.

Definition ustr_eqb (a b : ustr) : bool := bool_decide (a = b).

Lemma ustr_eqb_eq a b : ustr_eqb a b = true <-> a = b.
Proof. apply bool_decide_eq_true. Qed.

Lemma ustr_eqb_refl a : ustr_eqb a a = true.
Proof. by apply ustr_eqb_eq. Qed.

(** Truthiness of a string. *)
Definition truthy (s : ustr) : bool := match s with [] => false | _ => true end.

(** [x or y] on strings, and on optional strings. *)
Definition str_or (a b : ustr) : ustr := if truthy a then a else b.
Definition otruthy (o : option ustr) : bool :=
  match o with Some s => truthy s | None => false end.

(** ** Character classes *)

Definition in_range (lo hi c : Z) : bool := (lo <=? c) && (c <=? hi).
Definition is_digit (c : Z) : bool := in_range 48 57 c.
Definition is_upper (c : Z) : bool := in_range 65 90 c.
Definition is_lower (c : Z) : bool := in_range 97 122 c.
Definition is_alpha (c : Z) : bool := is_upper c || is_lower c.
Definition is_alnum (c : Z) : bool := is_alpha c || is_digit c.
(** [\w] *)
Definition is_word (c : Z) : bool := is_alnum c || (c =? 95).
(** [str.isspace] and [\s] *)
Definition is_space (c : Z) : bool :=
  in_range 9 13 c || in_range 28 32 c || (c =? 133) || (c =? 160) || (c =? 5760)
  || in_range 8192 8202 c || (c =? 8232) || (c =? 8233) || (c =? 8239)
  || (c =? 8287) || (c =? 12288).
Definition one_of (s : string) (c : Z) : bool := bool_decide (c ∈ u s).
Arguments one_of _%_string.

(** ** Methods *)

Definition lower_char (c : Z) : Z := if is_upper c then c + 32 else c.
Definition upper_char (c : Z) : Z := if is_lower c then c - 32 else c.
Definition lower (s : ustr) : ustr := map lower_char s.
Definition upper (s : ustr) : ustr := map upper_char s.

Fixpoint lstrip_by (p : Z -> bool) (s : ustr) : ustr :=
  match s with
  | c :: r => if p c then lstrip_by p r else s
  | [] => []
  end.
Definition rstrip_by (p : Z -> bool) (s : ustr) : ustr := rev (lstrip_by p (rev s)).
Definition strip (s : ustr) : ustr := rstrip_by is_space (lstrip_by is_space s).
Definition rstrip (s : ustr) : ustr := rstrip_by is_space s.

Fixpoint startswith (pre s : ustr) : bool :=
  match pre, s with
  | [], _ => true
  | a :: pre', c :: s' => (a =? c) && startswith pre' s'
  | _, [] => false
  end.
Definition endswith (suf s : ustr) : bool := startswith (rev suf) (rev s).

(** [sub in s] *)
Fixpoint contains (sub s : ustr) : bool :=
  startswith sub s || match s with [] => false | _ :: r => contains sub r end.

(** [s.find(sub)], [None] for -1. *)
Fixpoint find_str (sub s : ustr) : option nat :=
  if startswith sub s then Some 0%nat
  else match s with
       | [] => None
       | _ :: r => S <$> find_str sub r
       end.

(** [s.replace(old, new)] for a non-empty [old]: leftmost, not overlapping.
    [skip] counts the characters of the current occurrence still to drop. *)
Fixpoint replace_go (old new s : ustr) (skip : nat) : ustr :=
  match s with
  | [] => []
  | c :: r =>
      match skip with
      | S k => replace_go old new r k
      | O => if startswith old s
             then new ++ replace_go old new r (length old - 1)
             else c :: replace_go old new r 0
      end
  end.
Definition replace (old new s : ustr) : ustr := replace_go old new s 0.

(** [s.split(sep)] for a one-character separator. *)
Fixpoint split_on (sep : Z) (s : ustr) : list ustr :=
  match s with
  | [] => [[]]
  | c :: r =>
      if c =? sep then [] :: split_on sep r
      else match split_on sep r with
           | w :: ws => (c :: w) :: ws
           | [] => [[c]]
           end
  end.

(** [sep.join(l)] *)
Fixpoint join (sep : ustr) (l : list ustr) : ustr :=
  match l with
  | [] => []
  | [x] => x
  | x :: r => x ++ sep ++ join sep r
  end.

(** [len(s)] *)
Definition len {A} (s : list A) : Z := Z.of_nat (length s).

(** [s[:n]]: a negative bound counts from the end. *)
Definition slice_to {A} (n : Z) (s : list A) : list A :=
  take (Z.to_nat (if n <? 0 then len s + n else n)) s.

(** [sentry.utils.strings.truncatechars]: cut and append the ellipsis. *)
Definition truncatechars (value : ustr) (chars : Z) : ustr :=
  if chars <? len value then slice_to (chars - 1) value ++ u "…" else value.

(** Lexicographic order on code points, Python's [<] on strings. *)
Fixpoint ustr_ltb (a b : ustr) : bool :=
  match a, b with
  | _, [] => false
  | [], _ :: _ => true
  | x :: a', y :: b' => (x <? y) || ((x =? y) && ustr_ltb a' b')
  end.

(** Decimal rendering, [str(n)]. *)
Fixpoint digits_go (fuel : nat) (n : Z) (acc : ustr) : ustr :=
  match fuel with
  | O => acc
  | S f => let acc' := (48 + n mod 10) :: acc in
           if n <? 10 then acc' else digits_go f (n / 10) acc'
  end.
Definition str_of_nonneg (n : Z) : ustr := digits_go (S (Z.to_nat (Z.log2 n))) n [].
Definition str_of_Z (n : Z) : ustr :=
  if n <? 0 then 45 :: str_of_nonneg (- n) else str_of_nonneg n.

(** [int(s)] of a string of ASCII digits. *)
Definition digits_value (s : ustr) : Z := fold_left (fun a c => a * 10 + (c - 48)) s 0.

(** ** Lemmas *)

Lemma log2_div10 n : 10 <= n -> Z.log2 (n / 10) < Z.log2 n.
Proof.
  intros Hn. apply Z.log2_lt_pow2; [apply Z.div_str_pos; lia|].
  destruct (Z.log2_spec n ltac:(lia)) as [_ Hlt]. rewrite Z.pow_succ_r in Hlt by apply Z.log2_nonneg.
  apply Z.div_lt_upper_bound; lia.
Qed.

Lemma digits_go_value fuel n acc v :
  0 <= n -> (Z.to_nat (Z.log2 n) < fuel)%nat ->
  fold_left (fun a c => a * 10 + (c - 48)) (digits_go fuel n acc) v
  = fold_left (fun a c => a * 10 + (c - 48)) acc (fold_left (fun a c => a * 10 + (c - 48)) (digits_go fuel n []) v).
Proof.
  revert n acc v. induction fuel as [|fuel IH]; intros n acc v Hn Hf; [lia|]. simpl. destruct (n <? 10) eqn:E; [done|].
  assert (Z.to_nat (Z.log2 (n / 10)) < fuel)%nat as Hf'
    by (pose proof (log2_div10 n ltac:(lia)); pose proof (Z.log2_nonneg (n / 10)); lia).
  pose proof (Z.div_pos n 10 Hn ltac:(lia)) as Hp. rewrite (IH (n / 10) _ _ Hp Hf'), (IH (n / 10) [_] _ Hp Hf'). done.
Qed.

Lemma digits_value_str n : 0 <= n -> digits_value (str_of_Z n) = n.
Proof.
  intros Hn. unfold str_of_Z. destruct (n <? 0) eqn:E; [lia|]. clear E. unfold str_of_nonneg, digits_value.
  generalize (Nat.lt_succ_diag_r (Z.to_nat (Z.log2 n))). generalize (S (Z.to_nat (Z.log2 n))). intros fuel. revert n Hn.
  induction fuel as [|fuel IH]; intros n Hn Hf; [lia|]. simpl.
  pose proof (Z.div_mod n 10 ltac:(lia)). pose proof (Z.mod_pos_bound n 10 ltac:(lia)).
  destruct (n <? 10) eqn:E; simpl; [rewrite Z.mod_small; lia|].
  assert (Z.to_nat (Z.log2 (n / 10)) < fuel)%nat as Hf'
    by (pose proof (log2_div10 n ltac:(lia)); pose proof (Z.log2_nonneg (n / 10)); lia).
  pose proof (Z.div_pos n 10 Hn ltac:(lia)).
  rewrite digits_go_value by (lia || done). rewrite IH by (lia || done). simpl. lia.
Qed.

(** Numbers print differently. *)
Lemma str_of_Z_inj a b : 0 <= a -> 0 <= b -> str_of_Z a = str_of_Z b -> a = b.
Proof. intros Ha Hb E. by rewrite <- (digits_value_str a Ha), <- (digits_value_str b Hb), E. Qed.

Lemma lower_idem s : lower (lower s) = lower s.
Proof.
  unfold lower. rewrite map_map. apply map_ext. intros c.
  unfold lower_char, is_upper, in_range. repeat case_goal; bool_split; lia.
Qed.

Lemma length_lower s : length (lower s) = length s.
Proof. apply length_map. Qed.

Lemma startswith_spec pre s : startswith pre s = true <-> exists t, s = pre ++ t.
Proof.
  revert s; induction pre as [|a pre IH]; intros s; simpl.
  { split; [by exists s|done]. }
  destruct s as [|c s]; [split; [done|by intros [? ?]]|].
  rewrite andb_true_iff, Z.eqb_eq, IH. split.
  - intros [-> [t ->]]. by exists t.
  - intros [t [= -> ->]]. eauto.
Qed.

Lemma contains_spec sub s : contains sub s = true <-> exists a b, s = a ++ sub ++ b.
Proof.
  induction s as [|c s IH]; simpl; rewrite orb_true_iff, startswith_spec.
  - split; [intros [[t Ht]|?]; [by exists [], t|done]|].
    intros (a & b & E). left. destruct a; [by exists b|done].
  - rewrite IH. split.
    + intros [[t Ht]|(a & b & ->)]; [by exists [], t|by exists (c :: a), b].
    + intros ([|x a] & b & E); [left; by exists b|]. right. simplify_eq/=. eauto.
Qed.

Lemma length_slice_to {A} n (s : list A) : 0 <= n -> len (slice_to n s) <= n.
Proof.
  intros Hn. unfold slice_to, len. destruct (Z.ltb_spec n 0); [lia|].
  rewrite length_take. lia.
Qed.

Lemma slice_to_prefix {A} n (s : list A) : slice_to n s `prefix_of` s.
Proof. exists (drop (Z.to_nat (if n <? 0 then len s + n else n)) s). unfold slice_to. by rewrite take_drop. Qed.

Lemma truncatechars_length s n : 0 < n -> len (truncatechars s n) <= n.
Proof.
  intros Hn. unfold truncatechars. destruct (Z.ltb_spec n (len s)); [|lia].
  pose proof (length_slice_to (n - 1) s). unfold len in *. rewrite length_app.
  change (length (u "…")) with 1%nat. lia.
Qed.

Lemma truncatechars_id s n : len s <= n -> truncatechars s n = s.
Proof. intros ?. unfold truncatechars. destruct (Z.ltb_spec n (len s)); [lia|done]. Qed.

Lemma split_on_nonempty sep s : split_on sep s <> [].
Proof.
  destruct s as [|c s]; simpl; [done|]. destruct (c =? sep); [done|].
  by destruct (split_on sep s).
Qed.

Lemma join_split sep s : join [sep] (split_on sep s) = s.
Proof.
  induction s as [|c s IH]; [done|]. simpl.
  destruct (c =? sep) eqn:E; bool_split.
  - subst. destruct (split_on sep s) eqn:Es; [by apply split_on_nonempty in Es|].
    simpl in *. by f_equal.
  - destruct (split_on sep s) as [|w ws] eqn:Es; [by apply split_on_nonempty in Es|].
    destruct ws; simpl in *; by f_equal.
Qed.

(** Removing every occurrence of one character. *)
Lemma replace_char_nil c s : replace [c] [] s = filter (fun x => x <> c) s.
Proof.
  unfold replace. induction s as [|x s IH]; [done|]. simpl. rewrite andb_true_r.
  rewrite filter_cons. destruct (Z.eqb_spec c x); case_decide; try done; simpl; by f_equal.
Qed.

#[export] Hint Rewrite length_lower lower_idem : gtrw.
