(* ===== verification/Regex.v ===== *)
(** * Python regular expressions

    The matcher of Python's [re] module (backtracking, leftmost, priority
    order) for the constructs the modelled patterns use, with a declarative
    semantics it is proved sound and complete for, and the scanning loops of
    [re.sub], [re.split], [re.search] and [re.match]. *)
From S2P Require Import Prelude PyStr.

Inductive regex :=
| REps
| RClass (p : Z -> bool)
| RSeq (r1 r2 : regex)
| RAlt (r1 r2 : regex)
| RStar (greedy : bool) (r : regex)
| RWordB                                (** [\b] *)
| RBegin                                (** [^] *)
| REnd                                  (** [$] *)
| RAhead (r : regex)                    (** [(?=r)] *)
| RBehind (p : Z -> bool)               (** [(?<=[p])] *)
| RGroup (n : nat) (r : regex).

(** A position in the text: what is before it (reversed), what is after it,
    and the groups captured so far. *)
Record rstate := RState { before : ustr; after : ustr; caps : list (nat * ustr) }.

Definition step_char (st : rstate) (c : Z) (rest : ustr) : rstate :=
  RState (c :: before st) rest (caps st).

Definition opt_word (o : option Z) : bool :=
  match o with Some c => is_word c | None => false end.

Definition at_word_boundary (st : rstate) : bool :=
  xorb (opt_word (head (before st))) (opt_word (head (after st))).

Definition at_begin (st : rstate) : bool :=
  match before st with [] => true | _ => false end.

(** [$] also matches before a final newline. *)
Definition at_end (st : rstate) : bool :=
  match after st with [] => true | [c] => c =? 10 | _ => false end.

Definition behind (p : Z -> bool) (st : rstate) : bool :=
  match before st with c :: _ => p c | [] => false end.

(** Whether [st'] is further in the text than [st]. *)
Definition progress (st st' : rstate) : bool :=
  (length (after st') <? length (after st))%nat.

(** The text between two positions. *)
Definition between (st st' : rstate) : ustr :=
  rev (take (length (before st') - length (before st)) (before st')).

Definition capture (n : nat) (st st' : rstate) : rstate :=
  RState (before st') (after st') ((n, between st st') :: caps st').

(** The loop of [r*] ([r*?] when not greedy). *)
Fixpoint star_loop (m : (rstate -> option rstate) -> rstate -> option rstate)
    (greedy : bool) (fuel : nat) (k : rstate -> option rstate) (st : rstate)
    : option rstate :=
  match fuel with
  | O => k st
  | S f =>
      let more := m (fun st' => if progress st st' then star_loop m greedy f k st' else None) in
      if greedy
      then match more st with Some o => Some o | None => k st end
      else match k st with Some o => Some o | None => more st end
  end.

Fixpoint rmatch (r : regex) (k : rstate -> option rstate) (st : rstate) : option rstate :=
  match r with
  | REps => k st
  | RClass p =>
      match after st with
      | c :: rest => if p c then k (step_char st c rest) else None
      | [] => None
      end
  | RSeq r1 r2 => rmatch r1 (rmatch r2 k) st
  | RAlt r1 r2 => match rmatch r1 k st with Some o => Some o | None => rmatch r2 k st end
  | RStar g r1 => star_loop (rmatch r1) g (length (after st)) k st
  | RWordB => if at_word_boundary st then k st else None
  | RBegin => if at_begin st then k st else None
  | REnd => if at_end st then k st else None
  | RAhead r1 => match rmatch r1 Some st with Some _ => k st | None => None end
  | RBehind p => if behind p st then k st else None
  | RGroup n r1 => rmatch r1 (fun st' => k (capture n st st')) st
  end.

(** ** Derived constructs *)

Definition RLit (s : string) : regex :=
  foldr (fun c r => RSeq (RClass (Z.eqb c)) r) REps (u s).
Arguments RLit _%_string.
Definition RPlus (r : regex) : regex := RSeq r (RStar true r).
Definition ROpt (r : regex) : regex := RAlt r REps.
Definition RLitCI (s : string) : regex :=
  foldr (fun c r => RSeq (RClass (fun x => lower_char x =? lower_char c)) r) REps (u s).
Arguments RLitCI _%_string.
Fixpoint RUpTo (n : nat) (r : regex) : regex :=
  match n with O => REps | S n => ROpt (RSeq r (RUpTo n r)) end.
(** [r{m,m+n}], greedy. *)
Fixpoint RRange (m n : nat) (r : regex) : regex :=
  match m with O => RUpTo n r | S m => RSeq r (RRange m n r) end.
Definition RAny : regex := RClass (fun c => negb (c =? 10)).
Definition RAnyAll : regex := RClass (fun _ => true).

(** ** Scanning *)

(** One attempt at a position; with [advance], an empty match is refused. *)
Definition match_at (r : regex) (advance : bool) (bef aft : ustr) : option rstate :=
  let st := RState bef aft [] in
  rmatch r (fun st' => if advance && negb (progress st st') then None else Some st') st.

Inductive piece :=
| PLit (c : Z)
| PMatch (text : ustr) (groups : list (nat * ustr)).

Definition piece_text (p : piece) : ustr :=
  match p with PLit c => [c] | PMatch t _ => t end.

(** The loop [re.sub] and [re.split] share: a match at the current position, or
    one character kept; an empty match may not be followed by another at the
    same place. *)
Fixpoint scan (r : regex) (fuel : nat) (advance : bool) (bef aft : ustr) : list piece :=
  match fuel with
  | O => map PLit aft
  | S f =>
      match match_at r advance bef aft with
      | Some st' =>
          let t := between (RState bef aft []) st' in
          PMatch t (caps st') :: scan r f (negb (truthy t)) (before st') (after st')
      | None =>
          match aft with
          | [] => []
          | c :: rest => PLit c :: scan r f false (c :: bef) rest
          end
      end
  end.

Definition pieces (r : regex) (s : ustr) : list piece :=
  scan r (S (2 * length s)) false [] s.

(** [r.sub(f, s)] *)
Definition re_sub (r : regex) (f : ustr -> list (nat * ustr) -> ustr) (s : ustr) : ustr :=
  concat (map (fun p => match p with PLit c => [c] | PMatch t g => f t g end) (pieces r s)).

Definition re_sub_str (r : regex) (rep : ustr) (s : ustr) : ustr := re_sub r (fun _ _ => rep) s.

(** [r.split(s)] for a pattern without groups. *)
Fixpoint split_pieces (cur : ustr) (l : list piece) : list ustr :=
  match l with
  | [] => [rev cur]
  | PLit c :: r => split_pieces (c :: cur) r
  | PMatch _ _ :: r => rev cur :: split_pieces [] r
  end.
Definition re_split (r : regex) (s : ustr) : list ustr := split_pieces [] (pieces r s).

(** [r.match(s)] *)
Definition re_match (r : regex) (s : ustr) : option rstate := match_at r false [] s.

(** [r.search(s)]: the leftmost match, with the position it starts at. *)
Fixpoint search_go (r : regex) (bef aft : ustr) : option (nat * rstate) :=
  match match_at r false bef aft with
  | Some st => Some (length bef, st)
  | None => match aft with [] => None | c :: rest => search_go r (c :: bef) rest end
  end.
Definition re_search (r : regex) (s : ustr) : option (nat * rstate) := search_go r [] s.

(** [m.group(n)]; a group matched several times keeps its last text. *)
Definition group (n : nat) (g : list (nat * ustr)) : option ustr :=
  snd <$> find_first (fun p => (p.1 =? n)%nat) g.

(** ** Declarative semantics *)

(** [denotes r st st']: [r] can take the position [st] to [st']. *)
Inductive denotes : regex -> rstate -> rstate -> Prop :=
| D_eps st : denotes REps st st
| D_class p st c rest :
    after st = c :: rest -> p c = true -> denotes (RClass p) st (step_char st c rest)
| D_seq r1 r2 a b c : denotes r1 a b -> denotes r2 b c -> denotes (RSeq r1 r2) a c
| D_alt_l r1 r2 a b : denotes r1 a b -> denotes (RAlt r1 r2) a b
| D_alt_r r1 r2 a b : denotes r2 a b -> denotes (RAlt r1 r2) a b
| D_star_nil g r a : denotes (RStar g r) a a
| D_star_cons g r a b c :
    denotes r a b -> progress a b = true -> denotes (RStar g r) b c ->
    denotes (RStar g r) a c
| D_wordb st : at_word_boundary st = true -> denotes RWordB st st
| D_begin st : at_begin st = true -> denotes RBegin st st
| D_end st : at_end st = true -> denotes REnd st st
| D_ahead r st st' : denotes r st st' -> denotes (RAhead r) st st
| D_behind p st : behind p st = true -> denotes (RBehind p) st st
| D_group n r st st' : denotes r st st' -> denotes (RGroup n r) st (capture n st st').

#[export] Hint Constructors denotes : gt.

Lemma star_loop_sound m g r :
  (forall k st o, m k st = Some o -> exists st', denotes r st st' /\ k st' = Some o) ->
  forall fuel k st o, star_loop m g fuel k st = Some o ->
  exists st', denotes (RStar g r) st st' /\ k st' = Some o.
Proof.
  intros Hm fuel. induction fuel as [|f IH]; intros k st o; simpl; [by eauto with gt|].
  set (more := m _ st). intros H.
  assert (more = Some o \/ k st = Some o) as [Hmore|?]; [|clear H|by eauto with gt].
  { destruct g, more, (k st); naive_solver. }
  apply Hm in Hmore as (b & Hb & Hk). destruct (progress st b) eqn:Hp; [|done].
  apply IH in Hk as (c & Hc & ?). exists c. eauto with gt.
Qed.

Lemma rmatch_sound r : forall k st o,
  rmatch r k st = Some o -> exists st', denotes r st st' /\ k st' = Some o.
Proof.
  induction r; intros k st o H; simpl in H.
  - eauto with gt.
  - destruct (after st) as [|c rest] eqn:E; [done|]. destruct (p c) eqn:Hp; [|done].
    eexists; split; [by econstructor|done].
  - apply IHr1 in H as (b & Hb & H). apply IHr2 in H as (c & Hc & H). eauto with gt.
  - destruct (rmatch r1 k st) eqn:E; simplify_eq.
    + apply IHr1 in E as (b & ? & ?). eauto with gt.
    + apply IHr2 in H as (b & ? & ?). eauto with gt.
  - eapply star_loop_sound in H; [done|apply IHr].
  - destruct (at_word_boundary st) eqn:E; [|done]. eauto with gt.
  - destruct (at_begin st) eqn:E; [|done]. eauto with gt.
  - destruct (at_end st) eqn:E; [|done]. eauto with gt.
  - destruct (rmatch r Some st) eqn:E; [|done]. apply IHr in E as (b & ? & ?). eauto with gt.
  - destruct (behind p st) eqn:E; [|done]. eauto with gt.
  - apply IHr in H as (b & Hb & H). eauto with gt.
Qed.

Lemma star_loop_complete m g r :
  (forall st st' k, denotes r st st' -> k st' <> None -> m k st <> None) ->
  forall st st', denotes (RStar g r) st st' ->
  forall fuel k, (length (after st) <= fuel)%nat -> k st' <> None ->
  star_loop m g fuel k st <> None.
Proof.
  intros Hm st st' H. remember (RStar g r) as rs eqn:E.
  induction H; simplify_eq; intros fuel k Hf Hk.
  - destruct fuel as [|f]; simpl; [done|].
    destruct g; [by case_match|by destruct (k a)].
  - unfold progress in *. destruct fuel as [|f].
    { apply Nat.ltb_lt in H0. lia. }
    assert (m (fun st' => if progress a st' then star_loop m g f k st' else None) a <> None).
    { eapply Hm; [done|]. simpl. unfold progress. rewrite H0.
      apply IHdenotes2; [done|..]; [|done]. apply Nat.ltb_lt in H0. lia. }
    simpl. destruct g; [by case_match|]. by destruct (k a).
Qed.

Lemma rmatch_complete r : forall st st' k,
  denotes r st st' -> k st' <> None -> rmatch r k st <> None.
Proof.
  induction r; intros st st' k H Hk; simpl.
  5: { eapply star_loop_complete; eauto. }
  all: inversion H; subst; clear H; simpl;
    repeat match goal with
    | E : ?x = true |- context [?x] => rewrite E
    | E : after ?s = _ |- context [after ?s] => rewrite E
    end; try done.
  - eapply IHr1; [done|]. by eapply IHr2.
  - assert (rmatch r1 k st <> None) by (by eapply IHr1). by case_match.
  - assert (rmatch r2 k st <> None) by (by eapply IHr2). by case_match.
  - destruct (rmatch r Some st') eqn:E; [done|]. by eapply IHr in E.
  - by eapply IHr.
Qed.

(** The text is never changed by matching: only the position moves. *)
Definition text_of (st : rstate) : ustr := rev (before st) ++ after st.

Lemma denotes_text r st st' :
  denotes r st st' -> exists t, before st' = rev t ++ before st /\ after st = t ++ after st'.
Proof.
  induction 1; try (by exists []).
  - exists [c]. done.
  - destruct IHdenotes1 as (t1 & ? & ?), IHdenotes2 as (t2 & ? & ?).
    exists (t1 ++ t2). rewrite rev_app_distr, <- !app_assoc. split; congruence.
  - done.
  - done.
  - destruct IHdenotes1 as (t1 & ? & ?), IHdenotes2 as (t2 & ? & ?).
    exists (t1 ++ t2). rewrite rev_app_distr, <- !app_assoc. split; congruence.
  - done.
Qed.

Lemma between_text st st' t :
  before st' = rev t ++ before st -> between st st' = t.
Proof.
  intros E. unfold between. rewrite E, length_app, length_rev, Nat.add_sub, take_app_le
    by (rewrite length_rev; lia).
  rewrite take_ge by (rewrite length_rev; lia). apply rev_involutive.
Qed.

(** ** The scanning loop *)

Definition texts (l : list piece) : ustr := concat (map piece_text l).

(** What a scan must be: at a kept character no non-empty match begins, and
    every match piece is one the pattern denotes at its place in the text. *)
Fixpoint pieces_ok (r : regex) (bef : ustr) (l : list piece) : Prop :=
  match l with
  | [] => True
  | PLit c :: l' =>
      (forall st', denotes r (RState bef (c :: texts l') []) st' ->
                   progress (RState bef (c :: texts l') []) st' = false)
      /\ pieces_ok r (c :: bef) l'
  | PMatch t g :: l' =>
      denotes r (RState bef (t ++ texts l') []) (RState (rev t ++ bef) (texts l') g)
      /\ pieces_ok r (rev t ++ bef) l'
  end.

Lemma match_at_Some r adv bef aft st' :
  match_at r adv bef aft = Some st' ->
  exists t, before st' = rev t ++ bef /\ aft = t ++ after st'
    /\ between (RState bef aft []) st' = t
    /\ denotes r (RState bef aft []) st' /\ (adv = true -> t <> []).
Proof.
  intros (st & Hd & Hk)%rmatch_sound.
  destruct (denotes_text _ _ _ Hd) as (t & Hb & Ha). simpl in *.
  destruct (adv && negb _) eqn:E in Hk; simplify_eq.
  exists t. split_and!; eauto using between_text.
  intros -> ->. simpl in *. unfold progress in E. simpl in E.
  by rewrite Nat.ltb_irrefl in E.
Qed.

Lemma match_at_None r adv bef aft st' :
  match_at r adv bef aft = None -> denotes r (RState bef aft []) st' ->
  progress (RState bef aft []) st' = false /\ adv = true.
Proof.
  intros H Hd.
  destruct (adv && negb (progress (RState bef aft []) st')) eqn:E.
  { bool_split. by destruct adv. }
  exfalso. eapply rmatch_complete; [exact Hd| |exact H]. cbv beta. by rewrite E.
Qed.

Definition scan_measure (adv : bool) (aft : ustr) : nat :=
  (2 * length aft + if adv then 0 else 1)%nat.

Lemma scan_ok r fuel : forall adv bef aft, (scan_measure adv aft <= fuel)%nat ->
  texts (scan r fuel adv bef aft) = aft /\ pieces_ok r bef (scan r fuel adv bef aft).
Proof.
  unfold scan_measure. induction fuel as [|f IH]; intros adv bef aft Hf.
  { destruct aft; simpl in *; [done|lia]. }
  simpl. destruct (match_at r adv bef aft) as [st'|] eqn:Hm.
  - apply match_at_Some in Hm as (t & Hb & Ha & Hbt & Hd & Hadv). rewrite Hbt.
    subst aft.
    destruct (IH (negb (truthy t)) (before st') (after st')) as [H1 H2].
    { rewrite length_app in Hf. destruct t, adv; simpl in *; try lia. by destruct Hadv. }
    simpl. unfold texts in *. simpl. rewrite H1. split; [done|].
    rewrite <- Hb. split; [by destruct st'|done].
  - destruct aft as [|c rest]; [done|].
    destruct (IH false (c :: bef) rest) as [H1 H2]; [simpl in *; destruct adv; lia|].
    simpl. unfold texts in *. simpl. rewrite H1. split; [done|]. split; [|done].
    intros st' Hd. by destruct (match_at_None _ _ _ _ _ Hm Hd).
Qed.

Lemma pieces_spec r s : texts (pieces r s) = s /\ pieces_ok r [] (pieces r s).
Proof. apply scan_ok. unfold scan_measure. lia. Qed.

Lemma pieces_texts r s : texts (pieces r s) = s.
Proof. apply pieces_spec. Qed.

(** A text without a match is left alone. *)
Lemma pieces_lits l : Forall (fun p => exists c, p = PLit c) l ->
  concat (map (fun p => match p with PLit c => [c] | PMatch t g => [] end) l) = texts l.
Proof. unfold texts. induction 1 as [|p l [c ->] _ IH]; [done|]. simpl. by f_equal. Qed.

Lemma re_sub_keep r f s :
  (forall t g, PMatch t g ∈ pieces r s -> f t g = t) -> re_sub r f s = s.
Proof.
  intros H. rewrite <- (pieces_texts r s) at 2. unfold re_sub, texts. f_equal.
  apply map_ext_in. intros [c|t g] Hp; [done|]. by apply H, list_elem_of_In.
Qed.

(** The pieces of a split joined with the matched texts give the text back. *)
Lemma split_pieces_nonempty cur l : split_pieces cur l <> [].
Proof. revert cur. by induction l as [|[c|t g] l IH]; intros cur; simpl. Qed.

Lemma split_pieces_chars cur l c :
  (exists w, w ∈ split_pieces cur l /\ c ∈ w) -> c ∈ cur \/ c ∈ texts l.
Proof.
  revert cur. induction l as [|[x|t g] l IH]; intros cur; simpl.
  - intros (w & ->%list_elem_of_singleton & Hc). left.
    rewrite list_elem_of_In in *. by apply in_rev.
  - intros H%IH. unfold texts in *. simpl. rewrite elem_of_cons in *. tauto.
  - intros (w & Hw & Hc). unfold texts. simpl. rewrite elem_of_app.
    apply elem_of_cons in Hw as [->|Hw].
    + left. rewrite list_elem_of_In in *. by apply in_rev.
    + destruct (IH []) as [H|H]; [eauto|by apply elem_of_nil in H|]. tauto.
Qed.

(** ** Inversion of the semantics, one lemma per construct *)

Lemma denotes_class_inv p st st' :
  denotes (RClass p) st st' ->
  exists c rest, after st = c :: rest /\ p c = true /\ st' = step_char st c rest.
Proof. inversion 1; eauto. Qed.

Lemma denotes_seq_inv r1 r2 a c :
  denotes (RSeq r1 r2) a c -> exists b, denotes r1 a b /\ denotes r2 b c.
Proof. inversion 1; eauto. Qed.

Lemma denotes_alt_inv r1 r2 a c :
  denotes (RAlt r1 r2) a c -> denotes r1 a c \/ denotes r2 a c.
Proof. inversion 1; eauto. Qed.

Lemma denotes_wordb_inv a c :
  denotes RWordB a c -> a = c /\ at_word_boundary a = true.
Proof. inversion 1; eauto. Qed.

Lemma denotes_behind_inv p a c : denotes (RBehind p) a c -> a = c /\ behind p a = true.
Proof. inversion 1; eauto. Qed.

Lemma denotes_ahead_inv r a c : denotes (RAhead r) a c -> a = c /\ exists b, denotes r a b.
Proof. inversion 1; eauto. Qed.

Lemma denotes_eps_inv a c : denotes REps a c -> a = c.
Proof. by inversion 1. Qed.

(** The characters a starred class takes are of that class. *)
Lemma denotes_star_class g p st st' :
  denotes (RStar g (RClass p)) st st' ->
  exists t, Forall (fun c => p c = true) t /\ before st' = rev t ++ before st
    /\ after st = t ++ after st' /\ caps st' = caps st.
Proof.
  intros H. remember (RStar g (RClass p)) as rs eqn:E. induction H; simplify_eq.
  - exists []. done.
  - apply denotes_class_inv in H as (x & rest & Ha & Hp & ->).
    destruct IHdenotes2 as (t & Hall & Hb & Ht & Hc); [done|]. simpl in *.
    exists (x :: t). rewrite Hb, Ha, Ht. simpl. rewrite <- app_assoc. by repeat constructor.
Qed.

Lemma star_class_denotes g p t bef aft cs :
  Forall (fun c => p c = true) t ->
  denotes (RStar g (RClass p)) (RState bef (t ++ aft) cs) (RState (rev t ++ bef) aft cs).
Proof.
  intros H. revert bef. induction H as [|c t Hc _ IH]; intros bef; [constructor|].
  eapply D_star_cons with (RState (c :: bef) (t ++ aft) cs).
  - by apply (D_class p (RState bef ((c :: t) ++ aft) cs)).
  - apply Nat.ltb_lt. simpl. lia.
  - simpl. rewrite <- app_assoc. apply IH.
Qed.

(** A match piece: what the pattern denotes, over that very text. *)
Lemma match_text_of st st' t :
  before st' = rev t ++ before st -> after st = t ++ after st' ->
  forall t2, before st' = rev t2 ++ before st -> t2 = t.
Proof.
  intros H1 _ t2 H2. rewrite H1 in H2. apply app_inv_tail in H2.
  rewrite <- (rev_involutive t), H2. by rewrite rev_involutive.
Qed.

(** ** Computing a scan by parts *)

Lemma match_at_None_intro r adv bef aft :
  (forall st', denotes r (RState bef aft []) st' -> False) -> match_at r adv bef aft = None.
Proof.
  intros H. destruct (match_at r adv bef aft) eqn:E; [|done].
  apply match_at_Some in E as (? & _ & _ & _ & Hd & _). by destruct (H _ Hd).
Qed.

(** Characters at which the pattern denotes nothing are kept. *)
Lemma scan_skip r a rest : forall fuel bef,
  (forall c x bef', c ∈ a -> match_at r false bef' (c :: x) = None) ->
  scan r (length a + fuel) false bef (a ++ rest)
  = map PLit a ++ scan r fuel false (rev a ++ bef) rest.
Proof.
  induction a as [|c a IH]; intros fuel bef H; [done|]. simpl.
  rewrite H by left. f_equal. rewrite IH, <- app_assoc; [done|].
  intros c' x bef' ?. apply H. by right.
Qed.

(** More fuel than the text needs changes nothing. *)
Lemma scan_fuel r f1 : forall f2 adv bef aft,
  (scan_measure adv aft <= f1)%nat -> (scan_measure adv aft <= f2)%nat ->
  scan r f1 adv bef aft = scan r f2 adv bef aft.
Proof.
  unfold scan_measure. induction f1 as [|f1 IH]; intros f2 adv bef aft H1 H2.
  { assert (aft = [] /\ adv = true) as [-> ->] by (destruct aft, adv; simpl in *; try done; lia).
    destruct f2 as [|f2]; [done|]. simpl.
    destruct (match_at r true bef []) eqn:E; [|done].
    apply match_at_Some in E as (t & _ & Ha & _ & _ & Ht). by destruct t; [destruct Ht|]. }
  destruct f2 as [|f2].
  { assert (aft = [] /\ adv = true) as [-> ->] by (destruct aft, adv; simpl in *; try done; lia).
    simpl. destruct (match_at r true bef []) eqn:E; [|done].
    apply match_at_Some in E as (t & _ & Ha & _ & _ & Ht). by destruct t; [destruct Ht|]. }
  simpl. destruct (match_at r adv bef aft) as [st'|] eqn:Hm.
  - apply match_at_Some in Hm as (t & Hb & Ha & Hbt & Hd & Hadv). rewrite Hbt. f_equal.
    assert (2 * length (after st') + (if negb (truthy t) then 0 else 1)
            < 2 * length aft + (if adv then 0 else 1))%nat.
    { rewrite Ha, length_app. destruct t, adv; simpl in *; try lia. by destruct Hadv. }
    apply IH; lia.
  - destruct aft; [done|]. f_equal. apply IH; simpl in *; destruct adv; lia.
Qed.

(** ** Literals, searches and the length of a substitution *)

Lemma denotes_lit_inv s st st' : denotes (RLit s) st st' -> after st = u s ++ after st'.
Proof.
  unfold RLit. revert st. induction (u s) as [|c l IH]; intros st; simpl.
  - by intros <-%denotes_eps_inv.
  - intros (m & H1 & H2)%denotes_seq_inv.
    apply denotes_class_inv in H1 as (c' & rest & Ha & Hc & ->). apply IH in H2. simpl in *.
    apply Z.eqb_eq in Hc. by rewrite Ha, H2, Hc.
Qed.

Lemma search_go_spec r bef aft i st :
  search_go r bef aft = Some (i, st) ->
  exists a b, aft = a ++ b /\ i = (length bef + length a)%nat
    /\ denotes r (RState (rev a ++ bef) b []) st.
Proof.
  revert bef. induction aft as [|c aft IH]; intros bef; cbn [search_go];
    destruct (match_at r false bef _) eqn:E; try done; try intros [= <- <-].

  - exists [], []. apply match_at_Some in E as (? & _ & _ & _ & ? & _).
    split_and!; [done|simpl; lia|done].
  - exists [], (c :: aft). apply match_at_Some in E as (? & _ & _ & _ & ? & _).
    split_and!; [done|simpl; lia|done].
  - intros (a & b & -> & -> & Hd)%IH. exists (c :: a), b. simpl in *.
    rewrite <- app_assoc. split_and!; [done|lia|done].
Qed.

Lemma length_concat_le {A} (f g : A -> ustr) l :
  (forall x, x ∈ l -> (length (f x) <= length (g x))%nat) ->
  (length (concat (map f l)) <= length (concat (map g l)))%nat.
Proof.
  intros H. induction l as [|x l IH]; simpl; [done|]. rewrite !length_app.
  pose proof (H x ltac:(left)). assert (forall y, y ∈ l -> (length (f y) <= length (g y))%nat)
    by (intros y Hy; apply H; by right). specialize (IH H1). lia.
Qed.

(** Deleting matches does not lengthen a text. *)
Lemma re_sub_delete_length r s : (length (re_sub_str r [] s) <= length s)%nat.
Proof.
  rewrite <- (pieces_texts r s) at 2. unfold re_sub_str, re_sub, texts.
  apply length_concat_le. intros [c|t g] _; simpl; lia.
Qed.

(** ** A text with a single match *)

Lemma scan_skip_at r a rest : forall fuel bef,
  (forall a1 c a2, a = a1 ++ c :: a2 -> match_at r false (rev a1 ++ bef) (c :: a2 ++ rest) = None) ->
  scan r (length a + fuel) false bef (a ++ rest)
  = map PLit a ++ scan r fuel false (rev a ++ bef) rest.
Proof.
  induction a as [|c a IH]; intros fuel bef H; [done|]. simpl.
  pose proof (H [] c a eq_refl) as H0. simpl in H0. rewrite H0. f_equal.
  rewrite IH, <- app_assoc; [done|].
  intros a1 c' a2 ->. specialize (H (c :: a1) c' a2 eq_refl). simpl in H.
  by rewrite <- app_assoc in H.
Qed.

Lemma scan_none r b fuel bef :
  (forall bef' b1 b2, b = b1 ++ b2 -> match_at r false bef' b2 = None) ->
  (length b < fuel)%nat -> scan r fuel false bef b = map PLit b.
Proof.
  revert fuel bef. induction b as [|c b IH]; intros [|fuel] bef H Hf; simpl in *; try lia.
  - by rewrite (H bef [] []).
  - rewrite (H bef [] (c :: b)) by done. f_equal. apply IH; [|lia].
    intros bef' b1 b2 ->. by apply (H bef' (c :: b1)).
Qed.

Lemma concat_lits (f : ustr -> list (nat * ustr) -> ustr) a :
  concat (map (fun p => match p with PLit c => [c] | PMatch t g => f t g end) (map PLit a)) = a.
Proof. induction a as [|c a IH]; simpl; [done|]. by f_equal. Qed.

(** A text [a m b] in which the pattern matches exactly [m]. *)
Lemma re_sub_single r f a m b g :
  (forall a1 c a2, a = a1 ++ c :: a2 -> match_at r false (rev a1) (c :: a2 ++ m ++ b) = None) ->
  match_at r false (rev a) (m ++ b) = Some (RState (rev m ++ rev a) b g) -> m <> [] ->
  (forall bef' b1 b2, b = b1 ++ b2 -> match_at r false bef' b2 = None) ->
  re_sub r f (a ++ m ++ b) = a ++ f m g ++ b.
Proof.
  intros Ha Hm Hne Hb. unfold re_sub, pieces.
  assert (S (2 * length (a ++ m ++ b))
          = length a + S (length a + 2 * length m + 2 * length b))%nat as ->
    by (rewrite !length_app; lia).
  rewrite scan_skip_at by (intros a1 c a2 E; rewrite app_nil_r; by apply Ha).
  rewrite app_nil_r. cbn [scan]. rewrite Hm. cbn [before after caps].
  assert (between (RState (rev a) (m ++ b) []) (RState (rev m ++ rev a) b g) = m) as ->.
  { unfold between. simpl. rewrite length_app, Nat.add_sub, take_app_length.
    apply rev_involutive. }
  destruct m as [|c m]; [done|]. cbn [truthy negb].
  rewrite scan_none; [|done|simpl; lia].
  rewrite map_app, concat_app, concat_lits. simpl. by rewrite concat_lits.
Qed.
