(* ===== verification/PyValue.v ===== *)
(** * Python values

    The plain data the ingest code works on (the output of [json.loads] and of
    Pydantic's [model_dump]): [None], booleans, integers, floats, strings,
    lists, tuples and dictionaries.  A dictionary is the association list of its
    items in insertion order. *)
From S2P Require Import Prelude PyStr.

Inductive dkey := KStr (s : ustr) | KInt (n : Z).

#[export] Instance dkey_eq_dec : EqDecision dkey.
Proof. solve_decision. Defined.

(** [VFloat m e] is the float [m * 2^e]. *)
#[warnings="-register-all"]
Inductive value :=
| VNone
| VBool (b : bool)
| VInt (n : Z)
| VFloat (m e : Z)
| VStr (s : ustr)
| VList (l : list value)
| VTuple (l : list value)
| VDict (d : list (dkey * value)).

(** Induction that reaches the members of containers. *)
Section value_ind.
Context (P : value -> Prop).
Context (Hnone : P VNone) (Hbool : forall b, P (VBool b)) (Hint : forall n, P (VInt n)).
Context (Hfloat : forall m e, P (VFloat m e)) (Hstr : forall s, P (VStr s)).
Context (Hlist : forall l, Forall P l -> P (VList l)).
Context (Htuple : forall l, Forall P l -> P (VTuple l)).
Context (Hdict : forall d, Forall (fun kv => P kv.2) d -> P (VDict d)).

Fixpoint value_rect' (v : value) : P v :=
  let all := fix all (l : list value) : Forall P l :=
    match l with [] => Forall_nil_2 _ | x :: r => Forall_cons_2 _ _ _ (value_rect' x) (all r) end in
  match v with
  | VNone => Hnone
  | VBool b => Hbool b
  | VInt n => Hint n
  | VFloat m e => Hfloat m e
  | VStr s => Hstr s
  | VList l => Hlist l (all l)
  | VTuple l => Htuple l (all l)
  | VDict d => Hdict d ((fix alld (d : list (dkey * value)) : Forall (fun kv => P kv.2) d :=
      match d with
      | [] => Forall_nil_2 _
      | kv :: r => Forall_cons_2 _ _ _ (value_rect' kv.2) (alld r)
      end) d)
  end.
End value_ind.

(** ** Truth value *)
Definition vtruthy (v : value) : bool :=
  match v with
  | VNone => false
  | VBool b => b
  | VInt n => negb (n =? 0)
  | VFloat m _ => negb (m =? 0)
  | VStr s => truthy s
  | VList l | VTuple l => match l with [] => false | _ => true end
  | VDict d => match d with [] => false | _ => true end
  end.

(** [x or y] *)
Definition vor (x y : value) : value := if vtruthy x then x else y.

(** ** Dictionaries *)
Abbreviation pydict := (list (dkey * value)).

(** [d.get(k)] *)
Definition dlookup (k : dkey) (d : pydict) : option value :=
  first_some (fun kv => if decide (kv.1 = k) then Some kv.2 else None) d.
(** [d.get("k", default)] *)
Definition dget (k : string) (dflt : value) (d : pydict) : value :=
  default dflt (dlookup (KStr (u k)) d).
Arguments dget _%_string.
(** [d.get("k")] *)
Definition dget_none (k : string) (d : pydict) : value := dget k VNone d.
Arguments dget_none _%_string.

(** [d[k] = v]: the place of an existing key is kept, a new key goes last. *)
Fixpoint dset (k : dkey) (v : value) (d : pydict) : pydict :=
  match d with
  | [] => [(k, v)]
  | kv :: r => if decide (kv.1 = k) then (k, v) :: r else kv :: dset k v r
  end.

(** Keys are unique. *)
Definition dict_wf (d : pydict) : Prop := NoDup d.*1.

Lemma dlookup_dset_eq k v d : dlookup k (dset k v d) = Some v.
Proof.
  unfold dlookup. induction d as [|[k' v'] d IH]; simpl.
  - by rewrite decide_True.
  - destruct (decide (k' = k)); simpl; [by rewrite decide_True|by rewrite decide_False].
Qed.

Lemma dlookup_dset_ne k k' v d : k <> k' -> dlookup k' (dset k v d) = dlookup k' d.
Proof.
  intros Hne. unfold dlookup. induction d as [|[k1 v1] d IH]; simpl.
  - by rewrite decide_False.
  - destruct (decide (k1 = k)); simpl; repeat case_decide; by simplify_eq.
Qed.

Lemma dlookup_elem k v d : dlookup k d = Some v -> (k, v) ∈ d.
Proof.
  intros ([k' v'] & Hin & H)%first_some_Some. simpl in *. case_decide; by simplify_eq.
Qed.

Lemma dset_keys_elem k v d k' : k' ∈ (dset k v d).*1 <-> k' = k \/ k' ∈ d.*1.
Proof.
  induction d as [|[k1 v1] d IH]; simpl; [set_solver|].
  destruct (decide (k1 = k)); simpl; set_solver.
Qed.

Lemma dset_wf k v d : dict_wf d -> dict_wf (dset k v d).
Proof.
  unfold dict_wf. induction d as [|[k1 v1] d IH]; simpl; intros H.
  - apply NoDup_singleton.
  - apply NoDup_cons in H as [Hn H]. destruct (decide (k1 = k)) as [->|]; simpl.
    + by apply NoDup_cons.
    + apply NoDup_cons. split; [|auto]. rewrite dset_keys_elem. naive_solver.
Qed.

Lemma dset_keys_present k v d : k ∈ d.*1 -> (dset k v d).*1 = d.*1.
Proof.
  induction d as [|[k1 v1] d IH]; simpl; [by intros ?%elem_of_nil|].
  destruct (decide (k1 = k)) as [->|]; [done|].
  intros [->|?]%elem_of_cons; [done|]. simpl. f_equal. auto.
Qed.

#[export] Hint Resolve dset_wf dlookup_elem : gt.
#[export] Hint Rewrite dlookup_dset_eq : gtrw.

(** ** Exceptions *)

(** The exceptions the code raises or catches; [DataError] and [OSError] come from the
    database driver and the storage. *)
Inductive exn := TypeError | ValueError | KeyError | IndexError | AttributeError | OverflowError | DataError | OperationalError | OSError | IntegrityError.

Inductive res (A : Type) := Ok (a : A) | Raise (e : exn).
Arguments Ok {A} _.
Arguments Raise {A} _.

Definition res_bind {A B} (m : res A) (k : A -> res B) : res B :=
  match m with Ok a => k a | Raise e => Raise e end.

Notation "'let*' x ':=' m 'in' k" := (res_bind m (fun x => k))
  (at level 200, x pattern, right associativity) : gt_scope.
Open Scope gt_scope.

Definition is_ok {A} (m : res A) : Prop := exists a, m = Ok a.

Lemma is_ok_bind {A B} (m : res A) (k : A -> res B) :
  is_ok m -> (forall a, m = Ok a -> is_ok (k a)) -> is_ok (res_bind m k).
Proof. intros [a ->] H. by apply H. Qed.

Lemma is_ok_Ok {A} (a : A) : is_ok (Ok a).
Proof. by exists a. Qed.

#[export] Hint Resolve is_ok_bind is_ok_Ok : gt.

(** [x.get(k)] raises [AttributeError] when [x] is not a dictionary. *)
Definition vget (k : string) (x : value) : res value :=
  match x with VDict d => Ok (dget_none k d) | _ => Raise AttributeError end.
Arguments vget _%_string.

(** [l[i]] with Python's negative indices. *)
Definition list_index {A} (l : list A) (i : Z) : option A :=
  if (- len l <=? i) && (i <? len l)
  then l !! Z.to_nat (if i <? 0 then len l + i else i) else None.

Lemma list_index_elem {A} (l : list A) i x : list_index l i = Some x -> x ∈ l.
Proof.
  unfold list_index. case_match; [|done]. intros H2. by eapply list_elem_of_lookup_2.
Qed.
