(* ===== verification/PyFloat.v ===== *)
(** * Python floats

    The double nearest to a rational number, as an integer number of ticks.  A tick is
    2^-80 of the unit at hand, so every double of at least 2^-28 units is an integer.
    Numbers that are no whole number of ticks are rationals, rounded by [fl].  The
    accumulated error of [sum] and of a chain of operations is bounded by a power of
    1 + 2^-53 ([close]). *)
From S2P Require Import Prelude PyStr.
From Stdlib Require Import QArith Qabs Qpower Lqa.
Open Scope Z_scope.

(** [n / d] to the nearest integer, ties to even. *)
Definition round_even (n d : Z) : Z :=
  let q := n / d in
  let r := n mod d in
  if 2 * r <? d then q else if d <? 2 * r then q + 1 else if Z.even q then q else q + 1.

(** The spacing of doubles (53 significant bits) at [n / d] ticks. *)
Definition spacing (n d : Z) : Z := 2 ^ Z.max 0 (Z.log2 (n / d) - 52).

(** The double nearest to [n / d] ticks, for [n / d] at least 2^52 ticks. *)
Definition to_double (n d : Z) : Z := round_even n (d * spacing n d) * spacing n d.

Lemma spacing_pos n d : 0 < spacing n d.
Proof. unfold spacing. apply Z.pow_pos_nonneg; lia. Qed.

(** Rounding errs by at most half a unit. *)
Lemma round_even_error n d : 0 < d -> 2 * Z.abs (round_even n d * d - n) <= d.
Proof.
  intros Hd. unfold round_even. pose proof (Z.div_mod n d ltac:(lia)) as E. pose proof (Z.mod_pos_bound n d Hd).
  set (q := n / d) in *. set (r := n mod d) in *.
  assert (forall x, x * d - n = (x - q) * d - r) as Hx by (intros; rewrite E; ring).
  destruct (2 * r <? d) eqn:E1; [rewrite Hx; nia|]. destruct (d <? 2 * r) eqn:E2; [rewrite Hx; nia|].
  destruct (Z.even q); rewrite Hx; nia.
Qed.

Lemma to_double_error n d : 0 < d -> 2 * Z.abs (to_double n d * d - n) <= d * spacing n d.
Proof.
  intros Hd. pose proof (spacing_pos n d) as Hs. unfold to_double. set (e := spacing n d) in *.
  pose proof (round_even_error n (d * e) ltac:(nia)) as H.
  replace (round_even n (d * e) * e * d - n) with (round_even n (d * e) * (d * e) - n) by ring. done.
Qed.

(** A bound on the spacing from a bound on the number. *)
Lemma spacing_le n d k : 0 <= n -> 0 < d -> 52 <= k -> n < d * 2 ^ (k + 1) -> spacing n d <= 2 ^ (k - 52).
Proof.
  intros Hn Hd Hk Hb. unfold spacing. apply Z.pow_le_mono_r; [lia|]. apply Z.max_lub; [lia|].
  assert (Z.log2 (n / d) <= k); [|lia].
  destruct (decide (n / d = 0)) as [->|]; [simpl; lia|].
  assert (0 < n / d) by (pose proof (Z.div_pos n d); lia).
  assert (Z.log2 (n / d) < k + 1); [|lia]. apply Z.log2_lt_pow2; [done|]. apply Z.div_lt_upper_bound; lia.
Qed.

(** Integers below 2^53 units are doubles. *)
Lemma to_double_exact m e : 0 <= e -> 0 <= m < 2 ^ 53 -> to_double (m * 2 ^ e) 1 = m * 2 ^ e.
Proof.
  intros He Hm. unfold to_double. set (s := spacing (m * 2 ^ e) 1).
  assert (exists q, m * 2 ^ e = q * s) as [q Hq].
  { unfold s, spacing. rewrite Z.div_1_r. destruct (decide (m = 0)) as [->|Hm0]; [exists 0; lia|].
    rewrite Z.log2_mul_pow2 by lia. assert (Z.log2 m <= 52) by (assert (Z.log2 m < 53); [apply Z.log2_lt_pow2|]; lia).
    exists (m * 2 ^ (e - Z.max 0 (e + Z.log2 m - 52))). rewrite <- Z.mul_assoc, <- Z.pow_add_r by lia. do 2 f_equal. lia. }
  pose proof (spacing_pos (m * 2 ^ e) 1) as Hs. fold s in Hs. rewrite Hq, Z.mul_1_l. f_equal. unfold round_even.
  rewrite Z.div_mul, Z.mod_mul by lia. destruct (2 * 0 <? s) eqn:E; [done|lia].
Qed.

(** [delta.total_seconds()], an int divided by an int. *)
Definition total_seconds (delta_us : Z) : Z := to_double (delta_us * 2 ^ 80) 1000000.

(** A number within half a unit of an integer rounds to it. *)
Lemma round_even_near n d m : 0 < d -> 2 * Z.abs (n - m * d) < d -> round_even n d = m.
Proof.
  intros Hd Hn. pose proof (round_even_error n d Hd). assert (Z.abs (round_even n d - m) < 1); [|lia].
  assert (Z.abs ((round_even n d - m) * d) < d); [|nia].
  replace ((round_even n d - m) * d) with ((round_even n d * d - n) + (n - m * d)) by ring. lia.
Qed.

Lemma to_double_nonneg n d : 0 <= n -> 0 < d -> 0 <= to_double n d.
Proof.
  intros Hn Hd. unfold to_double. pose proof (spacing_pos n d). apply Z.mul_nonneg_nonneg; [|lia].
  unfold round_even. pose proof (Z.div_pos n (d * spacing n d) Hn ltac:(nia)). repeat case_match; lia.
Qed.

(** ** Signed sums *)

(** The double nearest to an integer number of ticks. *)
Definition round_ticks (n : Z) : Z := Z.sgn n * to_double (Z.abs n) 1.

(** [sum] of a list of floats: Neumaier's compensated summation, as CPython does from
    3.12 on; the high part and the accumulated error. *)
Definition cs_step (total : Z * Z) (x : Z) : Z * Z :=
  let '(hi, lo) := total in
  let t := round_ticks (hi + x) in
  let e := if Z.abs x <=? Z.abs hi then round_ticks (round_ticks (hi - t) + x)
           else round_ticks (round_ticks (x - t) + hi) in
  (t, round_ticks (lo + e)).
Definition py_sum (xs : list Z) : Z :=
  let '(hi, lo) := foldl cs_step (0, 0) xs in round_ticks (hi + lo).

Example py_sum_compensates : py_sum [2 ^ 60; 1; 1] = 2 ^ 60 /\ py_sum [2 ^ 60; 64; 64; 64] = 2 ^ 60 + 256.
Proof. split; by_compute. Qed.

(** A tick is exact up to 53 bits, so the error is relative. *)
Lemma round_ticks_error n : 2 ^ 53 * Z.abs (round_ticks n - n) <= Z.abs n.
Proof.
  unfold round_ticks. assert (Z.sgn n * to_double (Z.abs n) 1 - n = Z.sgn n * (to_double (Z.abs n) 1 - Z.abs n)) as ->.
  { pose proof (Z.abs_sgn n). nia. }
  rewrite Z.abs_mul. pose proof (to_double_error (Z.abs n) 1 ltac:(lia)) as He. rewrite Z.mul_1_l, Z.mul_1_r in He.
  set (err := Z.abs (to_double _ _ - _)) in *. assert (2 ^ 53 * err <= Z.abs n); [|destruct (decide (n = 0)) as [->|]; [simpl; lia|]].
  2:{ assert (Z.abs (Z.sgn n) = 1) as ->; [|lia]. destruct n; done. }
  assert (err = 0 \/ 2 ^ 52 * spacing (Z.abs n) 1 <= Z.abs n) as [->|Hs]; [|lia|].
  - unfold spacing in *. rewrite Z.div_1_r in *. destruct (decide (Z.log2 (Z.abs n) <= 52)) as [Hl|Hl].
    { left. rewrite Z.max_l in He by lia. subst err. change (2 ^ 0) with 1 in He. lia. }
    right. rewrite Z.max_r, <- Z.pow_add_r by lia. replace (52 + _) with (Z.log2 (Z.abs n)) by lia.
    apply Z.log2_spec. destruct (decide (Z.abs n = 0)) as [E|]; [|lia]. rewrite E in Hl. by contradict Hl.
  - subst err. nia.
Qed.

(** ** Doubles that are no whole number of ticks *)

(** [n / d] is at least [2 ^ e]. *)
Definition at_least_pow (n d e : Z) : bool := d * 2 ^ Z.max 0 e <=? n * 2 ^ Z.max 0 (- e).

(** The binary exponent of [n / d], both positive. *)
Definition exponent (n d : Z) : Z :=
  let l := Z.log2 n - Z.log2 d in if at_least_pow n d l then l else l - 1.

(** The double nearest to a fraction: 53 significant bits, ties to even, the exponent
    unbounded. *)
Definition fl (q : Q) : Q :=
  let n := Z.abs (Qnum q) in
  let d := Zpos (Qden q) in
  if n =? 0 then 0%Q
  else
    let e := exponent n d - 52 in
    let m := round_even (n * 2 ^ Z.max 0 (- e)) (d * 2 ^ Z.max 0 e) in
    (Z.sgn (Qnum q) * m * 2 ^ Z.max 0 e) # Z.to_pos (2 ^ Z.max 0 (- e)).

Example fl_third : (fl (1 # 3) == 6004799503160661 # 2 ^ 54)%Q /\ (fl (3 # 4) == 3 # 4)%Q.
Proof. split; by_compute. Qed.

Lemma pow_shift n d x y x' y' k :
  0 <= x -> 0 <= y -> 0 <= x' -> 0 <= y' -> 0 <= k -> x' + y = x + k + y' ->
  d * 2 ^ y <= n * 2 ^ x -> 2 ^ k * (d * 2 ^ y') <= n * 2 ^ x'.
Proof.
  intros Hx Hy Hx' Hy' Hk E H. apply (Zmult_le_reg_r _ _ (2 ^ y)); [apply Z.lt_gt, Z.pow_pos_nonneg; lia|].
  rewrite <- (Z.mul_assoc n), <- Z.pow_add_r, E by lia. rewrite !Z.pow_add_r by lia.
  pose proof (Z.pow_pos_nonneg 2 k ltac:(lia) Hk). pose proof (Z.pow_pos_nonneg 2 y' ltac:(lia) Hy').
  replace (2 ^ k * (d * 2 ^ y') * 2 ^ y) with (d * 2 ^ y * (2 ^ k * 2 ^ y')) by ring.
  replace (n * (2 ^ x * 2 ^ k * 2 ^ y')) with (n * 2 ^ x * (2 ^ k * 2 ^ y')) by ring.
  apply Z.mul_le_mono_nonneg_r; [nia|done].
Qed.

Lemma exponent_spec n d e :
  0 < n -> 0 < d -> e = exponent n d - 52 ->
  2 ^ 52 * (d * 2 ^ Z.max 0 e) <= n * 2 ^ Z.max 0 (- e).
Proof.
  intros Hn Hd ->. unfold exponent. set (l := Z.log2 n - Z.log2 d). destruct (at_least_pow n d l) eqn:E.
  - apply Z.leb_le in E. revert E. apply pow_shift; lia.
  - clear E. pose proof (Z.log2_spec n Hn) as [Hln _]. pose proof (Z.log2_spec d Hd) as [_ Hld].
    pose proof (Z.log2_nonneg n). pose proof (Z.log2_nonneg d).
    apply (pow_shift n d (Z.log2 d + 1) (Z.log2 n)); try lia. rewrite (Z.mul_comm d), <- Z.add_1_r in *.
    pose proof (Z.pow_pos_nonneg 2 (Z.log2 n)). nia.
Qed.

(** Rounding errs by at most 2^-53 of the number. *)
Definition ulp : Q := 1 # 2 ^ 53.

Lemma fl_error q : (Qabs (fl q - q) <= ulp * Qabs q)%Q.
Proof.
  destruct q as [n d]. unfold fl. cbn [Qnum Qden]. destruct (Z.eqb_spec (Z.abs n) 0) as [Hn|Hn].
  { assert (n = 0) as -> by lia. unfold Qle. simpl. lia. }
  set (e := exponent (Z.abs n) (Zpos d) - 52).
  pose proof (exponent_spec (Z.abs n) (Zpos d) e ltac:(lia) ltac:(lia) eq_refl) as Hs.
  set (a := 2 ^ Z.max 0 e) in *. set (b := 2 ^ Z.max 0 (- e)) in *.
  assert (0 < a /\ 0 < b) as [Ha Hb] by (split; apply Z.pow_pos_nonneg; lia).
  pose proof (round_even_error (Z.abs n * b) (Zpos d * a) ltac:(nia)) as Hr. set (m := round_even _ _) in *.
  clearbody a b m e. unfold Qle, Qabs, Qminus, Qplus, Qopp, Qmult, ulp. cbn [Qnum Qden].
  rewrite !Pos2Z.inj_mul, Z2Pos.id by done. change (Z.pos (2 ^ 53)) with (2 ^ 53).
  replace (Z.sgn n * m * a * Z.pos d + - n * b) with (Z.sgn n * (m * (Z.pos d * a) - Z.abs n * b))
    by (pose proof (Z.abs_sgn n); nia).
  rewrite Z.abs_mul. assert (Z.abs (Z.sgn n) = 1) as -> by (destruct n; done).
  set (er := Z.abs (m * _ - _)) in *. assert (2 ^ 53 * er <= Z.abs n * b) by lia. nia.
Qed.

(** ** Accumulated error *)

(** A relative error of at most [k] roundings. *)
Definition growth (k : Z) : Q := ((1 + ulp) ^ k)%Q.
Definition close (k : Z) (x y : Q) : Prop := (Qabs (x - y) <= (growth k - 1) * y)%Q.

Lemma growth_add k j : (growth (k + j) == growth k * growth j)%Q.
Proof. apply Qpower_plus. by vm_compute. Qed.

Lemma growth_bernoulli k : 0 <= k -> (1 + inject_Z k * ulp <= growth k)%Q.
Proof.
  intros Hk. pattern k. apply natlike_ind; [done| |done]. intros j Hj IH.
  rewrite <- Z.add_1_r, growth_add, inject_Z_plus. assert (growth 1 == 1 + ulp)%Q as -> by reflexivity.
  assert (0 <= inject_Z j)%Q by (rewrite <- (Zle_Qle 0); done). assert (0 <= ulp)%Q by done.
  change (inject_Z 1) with 1%Q. set (x := inject_Z j) in *. set (g := growth j) in *. clearbody x g.
  set (w := ulp) in *. clearbody w. nra.
Qed.

Lemma growth_ge_1 k : 0 <= k -> (1 <= growth k)%Q.
Proof.
  intros Hk. pose proof (growth_bernoulli k Hk). assert (0 <= inject_Z k * ulp)%Q; [|lra].
  apply Qmult_le_0_compat; [rewrite <- (Zle_Qle 0)|]; done.
Qed.

Lemma growth_mono k j : 0 <= k <= j -> (growth k <= growth j)%Q.
Proof.
  intros H. replace j with (k + (j - k)) by lia. rewrite growth_add.
  pose proof (growth_ge_1 k ltac:(lia)). pose proof (growth_ge_1 (j - k) ltac:(lia)). nra.
Qed.

#[global] Instance close_proper k : Proper (Qeq ==> Qeq ==> iff) (close k).
Proof. intros x x' Hx y y' Hy. unfold close. by rewrite Hx, Hy. Qed.

Lemma close_refl k x : 0 <= k -> (0 <= x)%Q -> close k x x.
Proof.
  intros Hk Hx. unfold close. setoid_replace (x - x)%Q with 0%Q using relation Qeq by ring. pose proof (growth_ge_1 k Hk).
  change (Qabs 0) with 0%Q. nra.
Qed.

Lemma close_mono k j x y : 0 <= k <= j -> (0 <= y)%Q -> close k x y -> close j x y.
Proof. unfold close. intros Hk Hy Hc. pose proof (growth_mono k j Hk). nra. Qed.

Lemma close_add k x1 y1 x2 y2 : close k x1 y1 -> close k x2 y2 -> close k (x1 + x2) (y1 + y2).
Proof.
  unfold close. intros H1 H2. setoid_replace (x1 + x2 - (y1 + y2))%Q with ((x1 - y1) + (x2 - y2))%Q using relation Qeq by ring.
  pose proof (Qabs_triangle (x1 - y1) (x2 - y2)). nra.
Qed.

Lemma close_mult k x y c : (0 <= c)%Q -> close k x y -> close k (x * c) (y * c).
Proof.
  unfold close. intros Hc H. setoid_replace (x * c - y * c)%Q with ((x - y) * c)%Q using relation Qeq by ring.
  rewrite Qabs_Qmult, (Qabs_pos c Hc). nra.
Qed.

(** One more rounding. *)
Lemma close_round k x x' y :
  0 <= k -> (0 <= y)%Q -> (Qabs (x' - x) <= ulp * Qabs x)%Q -> close k x y -> close (k + 1) x' y.
Proof.
  unfold close. intros Hk Hy Hr Hc. rewrite growth_add. assert (growth 1 == 1 + ulp)%Q as -> by reflexivity.
  setoid_replace (x' - y)%Q with ((x' - x) + (x - y))%Q using relation Qeq by ring.
  pose proof (Qabs_triangle (x' - x) (x - y)) as Ht.
  assert (Qabs x <= Qabs (x - y) + y)%Q as Hx.
  { pose proof (Qabs_triangle (x - y) y) as Hxy. rewrite (Qabs_pos y Hy) in Hxy.
    setoid_replace (x - y + y)%Q with x using relation Qeq in Hxy by ring. done. }
  assert (0 <= ulp)%Q by done. set (w := ulp) in *. set (g := growth k) in *. clearbody w g. nra.
Qed.

Lemma close_fl k x y : 0 <= k -> (0 <= y)%Q -> close k x y -> close (k + 1) (fl x) y.
Proof. intros Hk Hy. apply close_round; [done..|apply fl_error]. Qed.

(** ** The error of a sum *)

Definition cs_step_ok (hi lo x hi' lo' : Z) : Prop :=
  0 <= hi' /\ 2 ^ 53 * Z.abs (hi' - (hi + x)) <= hi + x
  /\ 2 ^ 53 * (2 ^ 53 * Z.abs lo') <= (2 ^ 53 + 1) * (2 ^ 53 * Z.abs lo + 3 * (hi + x)).

Lemma cs_step_spec hi lo x :
  0 <= hi -> 0 <= x -> let '(hi', lo') := cs_step (hi, lo) x in cs_step_ok hi lo x hi' lo'.
Proof.
  intros Hh Hx. unfold cs_step, cs_step_ok. set (t := round_ticks (hi + x)).
  pose proof (round_ticks_error (hi + x)) as Ht. fold t in Ht.
  assert (forall a b, 0 <= a -> 0 <= b -> a + b = hi + x ->
    2 ^ 53 * Z.abs (round_ticks (round_ticks (a - t) + b)) <= 3 * (hi + x)) as He.
  { intros a b Ha Hb E. pose proof (round_ticks_error (a - t)). pose proof (round_ticks_error (round_ticks (a - t) + b)).
    set (p := round_ticks (a - t)) in *. set (q := round_ticks (p + b)) in *. clearbody p q t. lia. }
  set (e := if _ <=? _ then _ else _). assert (2 ^ 53 * Z.abs e <= 3 * (hi + x)) as Hee.
  { subst e. destruct (_ <=? _); apply He; lia. }
  clearbody e. pose proof (round_ticks_error (lo + e)). set (lo' := round_ticks _) in *. clearbody lo' t. lia.
Qed.

(** What the two parts of a running sum satisfy after [k] summands of exact sum [s]. *)
Definition cs_ok (k s : Z) (total : Z * Z) : Prop :=
  0 <= total.1 /\ close k (inject_Z total.1) (inject_Z s)
  /\ (Qabs (inject_Z total.2) <= 3 * inject_Z k * ulp * growth k * inject_Z s)%Q.

Lemma inject_nonneg n : 0 <= n -> (0 <= inject_Z n)%Q.
Proof. intros. by rewrite <- (Zle_Qle 0). Qed.

Lemma inject_sub a b : (inject_Z (a - b) == inject_Z a - inject_Z b)%Q.
Proof. unfold Z.sub. by rewrite inject_Z_plus, inject_Z_opp. Qed.

Lemma inject_abs n : (Qabs (inject_Z n) == inject_Z (Z.abs n))%Q.
Proof. reflexivity. Qed.

Lemma scaled_error c n m : 2 ^ 53 * n <= c * m -> (inject_Z n <= inject_Z c * ulp * inject_Z m)%Q.
Proof. intros H. unfold Qle, Qmult, inject_Z, ulp. cbn [Qnum Qden]. rewrite !Pos.mul_1_r, Pos.mul_1_l. change (Z.pos (2 ^ 53)) with (2 ^ 53). lia. Qed.

Lemma cs_step_grows k s total x :
  0 <= k -> 0 <= s -> 0 <= x -> cs_ok k s total -> cs_ok (k + 1) (s + x) (cs_step total x).
Proof.
  intros Hk Hs Hx. destruct total as [hi lo]. intros (Hh & Hc & Hl). cbn [fst snd] in *.
  pose proof (cs_step_spec hi lo x Hh Hx) as H. destruct (cs_step (hi, lo) x) as [hi' lo'].
  destruct H as (Hh' & He & Hlo'). unfold cs_ok. cbn [fst snd].
  pose proof (inject_nonneg s Hs) as Hsq. pose proof (inject_nonneg x Hx) as Hxq. pose proof (inject_nonneg k Hk) as Hkq.
  assert (close k (inject_Z (hi + x)) (inject_Z (s + x))) as Hy.
  { rewrite !inject_Z_plus. apply close_add; [done|]. by apply close_refl. }
  assert (0 <= inject_Z (s + x))%Q as Hsx by (apply inject_nonneg; lia). split_and!; [done| |].
  - apply (close_round k (inject_Z (hi + x))); [done..| |done]. rewrite <- inject_sub, !inject_abs.
    rewrite (Z.abs_eq (hi + x)) by lia. rewrite <- (Qmult_1_l ulp). apply (scaled_error 1). lia.
  - assert (Qabs (inject_Z lo') <= (1 + ulp) * (Qabs (inject_Z lo) + 3 * ulp * inject_Z (hi + x)))%Q as Hb.
    { rewrite !inject_abs. unfold Qle, Qplus, Qmult, inject_Z, ulp. cbn [Qnum Qden].
      change (Z.pos (2 ^ 53)) with (2 ^ 53). lia. }
    unfold close in Hy. assert (inject_Z (hi + x) <= growth k * inject_Z (s + x))%Q as Hyb.
    { pose proof (Qle_Qabs (inject_Z (hi + x) - inject_Z (s + x))). lra. }
    rewrite growth_add. assert (growth 1 == 1 + ulp)%Q as -> by reflexivity.
    rewrite (inject_Z_plus k 1). change (inject_Z 1) with 1%Q.
    assert (inject_Z s <= inject_Z (s + x))%Q as Hle by (rewrite inject_Z_plus; lra).
    pose proof (growth_ge_1 k Hk) as Hg. assert (0 <= ulp)%Q as Hw by done.
    set (sx := inject_Z (s + x)) in *. set (y := inject_Z (hi + x)) in *. set (al := Qabs (inject_Z lo)) in *.
    set (al' := Qabs (inject_Z lo')) in *. set (sq := inject_Z s) in *. set (kq := inject_Z k) in *.
    set (g := growth k) in *. set (w := ulp) in *. clearbody sx y al al' sq kq g w.
    assert (al <= 3 * kq * w * g * sx)%Q as Hal.
    { eapply Qle_trans; [exact Hl|]. rewrite (Qmult_comm _ sq), (Qmult_comm _ sx). apply Qmult_le_compat_r; [done|].
      repeat apply Qmult_le_0_compat; try done; lra. }
    assert (al + 3 * w * y <= 3 * (kq + 1) * w * g * sx)%Q as Hsum.
    { assert (w * y <= w * (g * sx))%Q by (rewrite !(Qmult_comm w); by apply Qmult_le_compat_r).
      setoid_replace (3 * (kq + 1) * w * g * sx)%Q with (3 * kq * w * g * sx + 3 * (w * (g * sx)))%Q using relation Qeq by ring.
      setoid_replace (3 * w * y)%Q with (3 * (w * y))%Q using relation Qeq by ring. lra. }
    eapply Qle_trans; [exact Hb|].
    setoid_replace (3 * (kq + 1) * w * (g * (1 + w)) * sx)%Q with ((3 * (kq + 1) * w * g * sx) * (1 + w))%Q using relation Qeq by ring.
    rewrite Qmult_comm. apply Qmult_le_compat_r; [done|lra].
Qed.

(** The float sum of [n] numbers of one sign is within [4 n + 1] roundings of the exact sum. *)
Lemma py_sum_close xs :
  Forall (fun x => 0 <= x) xs -> close (4 * len xs + 1) (inject_Z (py_sum xs)) (inject_Z (zsum xs)).
Proof.
  intros Hall. assert (cs_ok (len xs) (zsum xs) (foldl cs_step (0, 0) xs) /\ 0 <= zsum xs) as [Hok Hs].
  { induction xs as [|x xs IH] using rev_ind.
    { split; [|done]. split_and!; [done| |done]. by apply close_refl. }
    apply Forall_app in Hall as [Hall Hx]. inversion Hx as [|x0 l0 Hx0 _]; subst. destruct (IH Hall) as [H Hs].
    rewrite foldl_app, zsum_app. cbn [foldl]. replace (len (xs ++ [x])) with (len xs + 1)
      by (unfold len; rewrite length_app; simpl; lia).
    replace (zsum [x]) with x by (unfold zsum; simpl; lia). split; [|lia]. apply cs_step_grows; [unfold len; lia|done..]. }
  unfold py_sum. destruct (foldl _ _ _) as [hi lo]. destruct Hok as (Hh & Hc & Hl). cbn [fst snd] in *.
  set (k := len xs) in *. assert (0 <= k) as Hk by (unfold k, len; lia). pose proof (inject_nonneg _ Hs) as Hsq.
  apply (close_round (4 * k) (inject_Z (hi + lo))); [lia|done| |].
  { rewrite <- inject_sub, !inject_abs, <- (Qmult_1_l ulp). apply (scaled_error 1).
    pose proof (round_ticks_error (hi + lo)). lia. }
  unfold close in *. rewrite inject_Z_plus. replace (4 * k) with (k + 3 * k) by lia. rewrite growth_add.
  pose proof (growth_bernoulli (3 * k) ltac:(lia)) as Hb. rewrite inject_Z_mult in Hb. change (inject_Z 3) with 3%Q in Hb.
  pose proof (growth_ge_1 k Hk) as Hg.
  setoid_replace (inject_Z hi + inject_Z lo - inject_Z (zsum xs))%Q
    with ((inject_Z hi - inject_Z (zsum xs)) + inject_Z lo)%Q using relation Qeq by ring.
  pose proof (Qabs_triangle (inject_Z hi - inject_Z (zsum xs)) (inject_Z lo)) as Ht.
  set (d := (inject_Z hi - inject_Z (zsum xs))%Q) in *. set (sq := inject_Z (zsum xs)) in *.
  set (g := growth k) in *. set (g3 := growth (3 * k)) in *. set (kw := inject_Z k) in *.
  assert (3 * kw * ulp * g * sq <= (g3 - 1) * (g * sq))%Q.
  { rewrite <- !(Qmult_assoc _ g). apply Qmult_le_compat_r; [|apply Qmult_le_0_compat; [lra|done]]. lra. }
  setoid_replace ((g * g3 - 1) * sq)%Q with ((g - 1) * sq + (g3 - 1) * (g * sq))%Q using relation Qeq by ring. lra.
Qed.
