(* ===== verification/PyDate.v ===== *)
(** * Dates

    Times are UTC microseconds since 1970-01-01; dates go through the proleptic
    Gregorian calendar, as [strftime] and [strptime] do. *)
From S2P Require Import Prelude PyStr.

(** ** Units *)

Definition MINUTE : Z := 60 * 1000000.
Definition ONE_HOUR : Z := 60 * MINUTE.
Definition ONE_DAY : Z := 24 * ONE_HOUR.

(** ** Digits *)

(** [int(s)] of a string of digits. *)
Definition int_of_digits (s : ustr) : Z := foldl (fun a c => 10 * a + (c - 48)) 0 s.

(** [n] in decimal with [w] digits, zeros in front. *)
Fixpoint digits (w : nat) (n : Z) : ustr :=
  match w with
  | O => []
  | S w => digits w (n / 10) ++ [48 + n mod 10]
  end.


(** [p] on the [n] numbers from [z]. *)
Fixpoint all_from (p : Z -> bool) (n : nat) (z : Z) : bool :=
  match n with O => true | S n => p z && all_from p n (z + 1) end.

Lemma all_from_spec p n z k : all_from p n z = true -> z <= k < z + Z.of_nat n -> p k = true.
Proof.
  revert z. induction n as [|n IH]; intros z H Hk; [lia|]. simpl in H. bool_split.
  destruct (decide (k = z)) as [->|]; [done|]. apply (IH (z + 1)); [done|lia].
Qed.

(** ** The calendar *)

(** Year, month and day of a number of days since 1970-01-01. *)
Definition civil_from_days (days : Z) : Z * Z * Z :=
  let z := days + 719468 in
  let era := z / 146097 in
  let doe := z - era * 146097 in
  let yoe := (doe - doe / 1460 + doe / 36524 - doe / 146096) / 365 in
  let doy := doe - (365 * yoe + yoe / 4 - yoe / 100) in
  let mp := (5 * doy + 2) / 153 in
  let d := doy - (153 * mp + 2) / 5 + 1 in
  let m := if mp <? 10 then mp + 3 else mp - 9 in
  (yoe + era * 400 + (if m <=? 2 then 1 else 0), m, d).

(** Days from 1970-01-01 of a date of the proleptic Gregorian calendar. *)
Definition days_from_civil (y m d : Z) : Z :=
  let y := if m <=? 2 then y - 1 else y in
  let era := y / 400 in
  let yoe := y - era * 400 in
  let doy := (153 * (if m <=? 2 then m + 9 else m - 3) + 2) / 5 + d - 1 in
  era * 146097 + (yoe * 365 + yoe / 4 - yoe / 100 + doy) - 719468.

Definition days_in_month (y m : Z) : Z :=
  if m =? 2 then (if (y mod 4 =? 0) && (negb (y mod 100 =? 0) || (y mod 400 =? 0)) then 29 else 28)
  else if (m =? 4) || (m =? 6) || (m =? 9) || (m =? 11) then 30 else 31.

(** [datetime.strptime(s, "%Y%m%d")] in UTC microseconds, [None] for a [ValueError], of
    names with eight digits; shorter names are not dates here. *)
Definition parse_date (s : ustr) : option Z :=
  if (len s =? 8) && forallb is_digit s then
    let y := int_of_digits (take 4 s) in
    let m := int_of_digits (take 2 (drop 4 s)) in
    let d := int_of_digits (drop 6 s) in
    if (1 <=? y) && (1 <=? m) && (m <=? 12) && (1 <=? d) && (d <=? days_in_month y m)
    then Some (days_from_civil y m d * ONE_DAY) else None
  else None.


(** [d.strftime("%Y%m%d")] *)
Definition date_name (days : Z) : ustr :=
  let '(y, m, d) := civil_from_days days in digits 4 y ++ digits 2 m ++ digits 2 d.

(** ** The calendar is right

    A year of an era of 400 years starts in March; [year_of_era] is the count of whole
    years before a day of the era. *)

Definition year_days (doe : Z) : Z := doe - doe / 1460 + doe / 36524 - doe / 146096.
Definition year_of_era (doe : Z) : Z := year_days doe / 365.
Definition year_start (yoe : Z) : Z := 365 * yoe + yoe / 4 - yoe / 100.
Definition year_end (yoe : Z) : Z := if yoe =? 399 then 146097 else year_start (yoe + 1).

Lemma year_days_step a : 0 <= a < 146096 -> year_days a <= year_days (a + 1).
Proof.
  intros H. unfold year_days.
  assert ((a + 1) / 146096 = 0 \/ a = 146095) as [E|E] by dlia; [|by subst a].
  assert (a / 146096 = 0) as E' by dlia. rewrite E, E'.
  assert ((a + 1) / 1460 <= a / 1460 + 1) by dlia. assert (a / 36524 <= (a + 1) / 36524) by dlia. lia.
Qed.

Lemma year_days_mono a k : 0 <= a -> a + Z.of_nat k < 146097 -> year_days a <= year_days (a + Z.of_nat k).
Proof.
  intros Ha. induction k as [|k IH]; intros Hk; [by rewrite Z.add_0_r|].
  etrans; [apply IH; lia|]. replace (a + Z.of_nat (S k)) with (a + Z.of_nat k + 1) by lia. apply year_days_step. lia.
Qed.

Lemma year_of_era_mono a b : 0 <= a <= b -> b < 146097 -> year_of_era a <= year_of_era b.
Proof.
  intros H Hb. unfold year_of_era. apply Z.div_le_mono; [lia|]. replace b with (a + Z.of_nat (Z.to_nat (b - a))) by lia.
  apply year_days_mono; lia.
Qed.

(** The first and last day of each year, and its length against the leap years. *)
Lemma years_of_era :
  all_from (fun y => (year_of_era (year_start y) =? y) && (year_of_era (year_end y - 1) =? y)
                     && (year_end y - year_start y =? 337 + days_in_month (y + 1) 2)) 400 0 = true.
Proof. by_compute. Qed.

Lemma year_of_era_spec doe :
  0 <= doe < 146097 ->
  let yoe := year_of_era doe in 0 <= yoe < 400 /\ year_start yoe <= doe < year_end yoe.
Proof.
  intros H yoe. assert (0 <= yoe < 400) as Hy.
  { pose proof (year_of_era_mono 0 doe ltac:(lia) ltac:(lia)) as H0. pose proof (year_of_era_mono doe 146096 ltac:(lia) ltac:(lia)) as H1.
    change (year_of_era 0) with 0 in H0. change (year_of_era 146096) with 399 in H1. subst yoe. lia. }
  split; [done|]. split.
  - destruct (decide (year_start yoe <= doe)); [done|]. destruct (decide (yoe = 0)) as [E0|Hne]; [assert (year_start yoe = 0) by (by rewrite E0); lia|].
    pose proof (all_from_spec _ _ _ (yoe - 1) years_of_era ltac:(lia)) as Hc. cbv beta in Hc. bool_split.
    assert (year_end (yoe - 1) = year_start yoe) as Ee.
    { unfold year_end. destruct (yoe - 1 =? 399) eqn:E; [lia|]. f_equal. lia. }
    pose proof (year_of_era_mono doe (year_end (yoe - 1) - 1) ltac:(lia)) as Hm.
    assert (year_start yoe <= 146097) by (unfold year_start; dlia). subst yoe. lia.
  - destruct (decide (doe < year_end yoe)); [done|]. destruct (decide (yoe = 399)) as [E9|Hne]; [assert (year_end yoe = 146097) by (by rewrite E9); lia|].
    pose proof (all_from_spec _ _ _ (yoe + 1) years_of_era ltac:(lia)) as Hc. cbv beta in Hc. bool_split.
    assert (year_end yoe = year_start (yoe + 1)) as Ee by (unfold year_end; by destruct (yoe =? 399) eqn:E; [lia|]).
    assert (0 <= year_start (yoe + 1)) by (unfold year_start; dlia).
    pose proof (year_of_era_mono (year_start (yoe + 1)) doe ltac:(lia) ltac:(lia)). subst yoe. lia.
Qed.

(** Month and day of a day of a year that starts in March. *)
Definition month_day (doy : Z) : Z * Z :=
  let mp := (5 * doy + 2) / 153 in (if mp <? 10 then mp + 3 else mp - 9, doy - (153 * mp + 2) / 5 + 1).

Lemma month_days :
  all_from (fun doy => let '(m, d) := month_day doy in
      (1 <=? m) && (m <=? 12) && (1 <=? d) && (d <=? if m =? 2 then doy - 336 else days_in_month 1970 m)
      && ((153 * (if m <=? 2 then m + 9 else m - 3) + 2) / 5 + d - 1 =? doy)) 366 0 = true.
Proof. by_compute. Qed.

Lemma days_in_month_not_feb y y' m : m <> 2 -> days_in_month y m = days_in_month y' m.
Proof. intros H. unfold days_in_month. by destruct (m =? 2) eqn:E; [lia|]. Qed.

Lemma days_in_feb_era y era : days_in_month (y + era * 400) 2 = days_in_month y 2.
Proof.
  unfold days_in_month. simpl. replace (y + era * 400) with (y + era * 100 * 4) by ring. rewrite Z.mod_add by lia.
  replace (y + era * 100 * 4) with (y + era * 4 * 100) by ring. rewrite Z.mod_add by lia.
  replace (y + era * 4 * 100) with (y + era * 400) by ring. by rewrite Z.mod_add by lia.
Qed.

(** The date of a number of days is a date of the calendar and has that number. *)
Lemma civil_spec days :
  let '(y, m, d) := civil_from_days days in
  1 <= m <= 12 /\ 1 <= d <= days_in_month y m /\ days_from_civil y m d = days
  /\ (days + 719468) / 146097 * 400 <= y <= (days + 719468) / 146097 * 400 + 400.
Proof.
  unfold civil_from_days. set (z := days + 719468). set (era := z / 146097). set (doe := z - era * 146097).
  assert (0 <= doe < 146097) as Hdoe by (subst doe era; dlia).
  change ((doe - doe / 1460 + doe / 36524 - doe / 146096) / 365) with (year_of_era doe).
  destruct (year_of_era_spec doe Hdoe) as [Hy Hd]. set (yoe := year_of_era doe) in *.
  pose proof (all_from_spec _ _ _ yoe years_of_era ltac:(lia)) as Hc. cbv beta in Hc. apply andb_true_iff in Hc as [_ Hlen%Z.eqb_eq].
  change (365 * yoe + yoe / 4 - yoe / 100) with (year_start yoe). set (doy := doe - year_start yoe).
  assert (0 <= doy < 366) as Hdoy.
  { assert (days_in_month (yoe + 1) 2 <= 29) by (unfold days_in_month; simpl; by destruct (_ && _)). subst doy. lia. }
  pose proof (all_from_spec _ _ _ doy month_days ltac:(lia)) as Hm. cbv beta in Hm. unfold month_day in Hm.
  set (mp := (5 * doy + 2) / 153) in *. set (d := doy - (153 * mp + 2) / 5 + 1) in *.
  set (m := if mp <? 10 then mp + 3 else mp - 9) in *. bool_split.
  assert (days_from_civil (yoe + era * 400 + (if m <=? 2 then 1 else 0)) m d = days) as Hdays.
  { unfold days_from_civil. replace (if m <=? 2 then yoe + era * 400 + (if m <=? 2 then 1 else 0) - 1
      else yoe + era * 400 + (if m <=? 2 then 1 else 0)) with (yoe + era * 400) by (destruct (m <=? 2); lia).
    rewrite Z.div_add, (Z.div_small yoe 400), Z.add_0_l by lia.
    replace (yoe + era * 400 - era * 400) with yoe by ring. replace (yoe * 365) with (365 * yoe) by ring.
    change (365 * yoe + yoe / 4 - yoe / 100) with (year_start yoe). subst doy doe z. lia. }
  split_and!; [lia|lia|lia| |exact Hdays|destruct (m <=? 2); lia|destruct (m <=? 2); lia].
  destruct (m =? 2) eqn:E2; [|rewrite (days_in_month_not_feb _ 1970) by lia; lia].
  assert (days_in_month (yoe + era * 400 + (if m <=? 2 then 1 else 0)) m = days_in_month (yoe + 1) 2) as ->.
  { apply Z.eqb_eq in E2. rewrite E2, <- (days_in_feb_era (yoe + 1) era). f_equal. change (2 <=? 2) with true. cbn iota. ring. }
  subst doy. lia.
Qed.

(** ** Digits *)

Lemma length_digits w n : length (digits w n) = w.
Proof. revert n. induction w as [|w IH]; intros n; simpl; [done|]. rewrite length_app, IH. simpl. lia. Qed.

Lemma digits_are_digits w n : forallb is_digit (digits w n) = true.
Proof.
  revert n. induction w as [|w IH]; intros n; simpl; [done|]. rewrite forallb_app, IH. simpl.
  unfold is_digit, in_range. pose proof (Z.mod_pos_bound n 10). lia.
Qed.

Lemma int_of_digits_digits w n : 0 <= n < 10 ^ Z.of_nat w -> int_of_digits (digits w n) = n.
Proof.
  revert n. induction w as [|w IH]; intros n Hn; [simpl in *; unfold int_of_digits; simpl; lia|].
  rewrite Nat2Z.inj_succ, Z.pow_succ_r in Hn by lia. cbn [digits]. unfold int_of_digits in *. rewrite foldl_app, IH by dlia.
  simpl. dlia.
Qed.

(** ** Formatting and parsing agree *)

(** From 1970-01-01 to the end of the era, 9600-02-29. *)
Definition last_day : Z := 2786860.

Lemma dates_parse day : 0 <= day < last_day -> parse_date (date_name day) = Some (day * ONE_DAY).
Proof.
  unfold last_day. intros Hday. unfold date_name. pose proof (civil_spec day) as H.
  destruct (civil_from_days day) as [[y m] d]. destruct H as (Hm & Hd & Hdays & Hy).
  assert (4 <= (day + 719468) / 146097 <= 23) as Hera by dlia.
  assert (days_in_month y m <= 31) as Hmax by (unfold days_in_month; repeat case_match; lia).
  unfold parse_date, len. rewrite !length_app, !length_digits, !forallb_app, !digits_are_digits. cbn [andb Nat.add].
  rewrite (take_app_length' (digits 4 y)), (drop_app_length' (digits 4 y)) by (by rewrite length_digits).
  rewrite (take_app_length' (digits 2 m)) by (by rewrite length_digits).
  assert (drop 6 (digits 4 y ++ digits 2 m ++ digits 2 d) = digits 2 d) as ->.
  { rewrite (app_assoc (digits 4 y)). apply drop_app_length'. rewrite length_app, !length_digits. done. }
  rewrite !int_of_digits_digits by (simpl; lia). rewrite Hdays.
  change (Z.of_nat 8 =? 8) with true. cbn [andb].
  destruct ((1 <=? y) && (1 <=? m) && (m <=? 12) && (1 <=? d) && (d <=? days_in_month y m)) eqn:E; [done|]. lia.
Qed.

Lemma date_name_digits day : length (date_name day) = 8%nat /\ forallb is_digit (date_name day) = true.
Proof.
  unfold date_name. destruct (civil_from_days day) as [[y m] d].
  by rewrite !length_app, !length_digits, !forallb_app, !digits_are_digits.
Qed.
