(* ===== verification/PiiScrubber.v ===== *)
(** * Server-side PII scrubbing: [apps/event_ingest/pii_scrubber.py]

    [ScrubConfig] and its defensive parser, the compiled [Scrubber] with its
    key classifier (token-aware and substring matching), the value patterns
    (cards with their Luhn check, PEM keys, e-mail addresses) and the
    depth-bounded walk over events and logs.  The walk updates the payload in
    place; the payload is freshly built by [model_dump], a tree, so the update
    is the returned value.  [json.loads] and the rendering of non-string
    placeholders are parameters of the configuration parser. *)
From S2P Require Import Prelude PyStr Regex PyValue.

Definition PLACEHOLDER : ustr := u "[Filtered]".
Definition MAX_SCRUB_DEPTH : nat := 48.

Definition DEFAULT_KEY_TOKENS : list ustr :=
  map u ["password"; "passwd"; "passphrase"; "pwd"; "pin"; "secret"; "auth"; "bearer";
         "credentials"; "token"; "session"; "cookie"; "csrf"; "xsrf"; "ssn"; "cvv"; "cvc"]%string.

Definition DEFAULT_WHOLE_KEYS : list ustr :=
  map u ["apikey"; "xapikey"; "authorization"; "csrftoken"; "xcsrftoken"; "sessionid";
         "setcookie"; "connectsid"; "aiohttpsession"; "mysqlpwd"; "xforwardedfor";
         "privatekey"; "creditcard"; "cardnumber"; "socialsecurity"]%string.

Definition EVENT_SECTIONS : list ustr :=
  map u ["request"; "extra"; "user"; "contexts"; "breadcrumbs"; "exception"; "threads";
         "tags"; "logentry"; "message"; "csp"; "spans"]%string.

(** ** Patterns *)

Definition CARD_RE : regex :=
  RSeq RWordB
    (RSeq (RRange 13 6 (RSeq (RClass is_digit) (RStar false (RClass (one_of " -"))))) RWordB).

Definition pem_label (c : Z) : bool := is_upper c || is_digit c || (c =? 32).

Definition PRIVATE_KEY_RE : regex :=
  RSeq (RLit "-----BEGIN ") (RSeq (RStar true (RClass pem_label))
    (RSeq (RLit "PRIVATE KEY-----") (RSeq (RStar false RAnyAll)
      (RSeq (RLit "-----END ") (RSeq (RStar true (RClass pem_label))
        (RLit "PRIVATE KEY-----")))))).

Definition word_or (s : string) (c : Z) : bool := is_word c || one_of s c.
Arguments word_or _%_string.

Definition EMAIL_RE : regex :=
  RSeq RWordB (RSeq (RPlus (RClass (word_or ".+-"))) (RSeq (RLit "@")
    (RSeq (RPlus (RClass (word_or "-"))) (RSeq (RLit ".")
      (RSeq (RPlus (RClass (word_or ".-"))) RWordB))))).

Definition is_separator (c : Z) : bool := one_of "-_." c || is_space c.

Definition KEY_SEPARATORS_RE : regex := RClass is_separator.

Definition lower_or_digit (c : Z) : bool := is_lower c || is_digit c.

Definition KEY_TOKEN_RE : regex :=
  RAlt (RPlus (RClass is_separator))
    (RAlt (RSeq (RBehind lower_or_digit) (RAhead (RClass is_upper)))
          (RSeq (RBehind is_upper) (RAhead (RSeq (RClass is_upper) (RClass is_lower))))).

Definition normalize_key (key : ustr) : ustr :=
  lower (re_sub_str KEY_SEPARATORS_RE [] key).

Definition split_key (key : ustr) : list ustr :=
  map lower (filter (fun t => truthy t = true) (re_split KEY_TOKEN_RE key)).

(** ** The Luhn checksum *)

Fixpoint luhn_total (parity i : Z) (digits : ustr) : Z :=
  match digits with
  | [] => 0
  | c :: r =>
      let d := c - 48 in
      let d := if i mod 2 =? parity
               then (if 9 <? d * 2 then d * 2 - 9 else d * 2)
               else d in
      d + luhn_total parity (i + 1) r
  end.

Definition luhn_valid (digits : ustr) : bool :=
  luhn_total (len digits mod 2) 0 digits mod 10 =? 0.

(** ** Configuration *)

Record ScrubConfig := {
  enabled : bool;
  scrub_defaults : bool;
  sensitive_keys : list ustr;
  safe_keys : list ustr;
  aggressive_key_match : bool;
  scrub_credit_cards : bool;
  scrub_private_keys : bool;
  scrub_emails : bool;
  placeholder : ustr
}.

(** [ScrubConfig()] *)
Definition default_config : ScrubConfig :=
  {| enabled := false; scrub_defaults := true; sensitive_keys := []; safe_keys := [];
     aggressive_key_match := false; scrub_credit_cards := true;
     scrub_private_keys := true; scrub_emails := false; placeholder := PLACEHOLDER |}.

Section from_dict.
Context (json_loads : ustr -> option value).
(** [str(x)] of a float or of a container. *)
Context (py_repr : value -> ustr).

Definition py_str (v : value) : ustr :=
  match v with
  | VStr s => s
  | VInt n => str_of_Z n
  | VBool b => if b then u "True" else u "False"
  | VNone => u "None"
  | _ => py_repr v
  end.

Definition is_str_or_int (v : value) : bool :=
  match v with VStr _ | VInt _ | VBool _ => true | _ => false end.

(** The local helper [_tuple]. *)
Definition config_tuple (v : value) : list ustr :=
  match v with
  | VList l | VTuple l => map py_str (filter (fun x => is_str_or_int x = true) l)
  | _ => []
  end.

Definition config_of_dict (d : pydict) : ScrubConfig :=
  {| enabled := vtruthy (dget "enabled" (VBool false) d);
     scrub_defaults := vtruthy (dget "scrub_defaults" (VBool true) d);
     sensitive_keys := config_tuple (dget_none "sensitive_keys" d);
     safe_keys := config_tuple (dget_none "safe_keys" d);
     aggressive_key_match := vtruthy (dget "aggressive_key_match" (VBool false) d);
     scrub_credit_cards := vtruthy (dget "scrub_credit_cards" (VBool true) d);
     scrub_private_keys := vtruthy (dget "scrub_private_keys" (VBool true) d);
     scrub_emails := vtruthy (dget "scrub_emails" (VBool false) d);
     placeholder := py_str (dget "placeholder" (VStr PLACEHOLDER) d) |}.

(** [ScrubConfig.from_dict]; [None] from [json_loads] is its [ValueError]. *)
Definition from_dict (data : value) : ScrubConfig :=
  let data := match data with VStr s => json_loads s | _ => Some data end in
  match data with
  | Some (VDict d) => config_of_dict d
  | _ => default_config
  end.
End from_dict.

(** ** The compiled scrubber *)

Record Scrubber := {
  config : ScrubConfig;
  key_tokens : list ustr;
  whole_keys : list ustr;
  denylist : list ustr;
  safelist : list ustr
}.

Definition mem (s : ustr) (l : list ustr) : bool := existsb (ustr_eqb s) l.

(** [__post_init__] *)
Definition new_scrubber (c : ScrubConfig) : Scrubber :=
  let tokens := if scrub_defaults c then DEFAULT_KEY_TOKENS else [] in
  let whole := (if scrub_defaults c then DEFAULT_WHOLE_KEYS else [])
                 ++ map normalize_key (filter (fun k => truthy k = true) (sensitive_keys c)) in
  let tokens := filter (fun s => s <> []) tokens in
  let whole := filter (fun s => s <> []) whole in
  {| config := c; key_tokens := tokens; whole_keys := whole; denylist := tokens ++ whole;
     safelist := map normalize_key (filter (fun k => truthy k = true) (safe_keys c)) |}.

Section scrubber.
Context (sc : Scrubber).

Definition is_sensitive_key (key : ustr) : bool :=
  let nkey := normalize_key key in
  if negb (truthy nkey) then false
  else if aggressive_key_match (config sc) then
    if existsb (fun safe => contains safe nkey) (safelist sc) then false
    else existsb (fun token => contains token nkey) (denylist sc)
  else if mem nkey (safelist sc) then false
  else if mem nkey (whole_keys sc) then true
  else if ustr_eqb key nkey then mem nkey (key_tokens sc)
  else
    let tokens := split_key key in
    if existsb (fun t => mem t (safelist sc)) tokens then false
    else existsb (fun t => mem t (key_tokens sc)) tokens.

Definition maybe_redact_card (m : ustr) (_ : list (nat * ustr)) : ustr :=
  let digits := filter (fun c => one_of " -" c = false) m in
  if (13 <=? len digits) && (len digits <=? 19) && luhn_valid digits
  then placeholder (config sc) else m.

Definition redact_match (_ : ustr) (_ : list (nat * ustr)) : ustr :=
  placeholder (config sc).

Definition scrub_string (s : ustr) : ustr :=
  let s := if scrub_private_keys (config sc) && contains (u "PRIVATE KEY") s
           then re_sub PRIVATE_KEY_RE redact_match s else s in
  let s := if scrub_credit_cards (config sc) then re_sub CARD_RE maybe_redact_card s else s in
  if scrub_emails (config sc) then re_sub EMAIL_RE redact_match s else s.

(** One entry of [_scrub_dict]. *)
Definition scrub_entry (node : value -> value) (kv : dkey * value) : dkey * value :=
  match kv with
  | (KStr k, v) =>
      if is_sensitive_key k then (KStr k, VStr (placeholder (config sc)))
      else (KStr k, node v)
  | (k, v) => (k, node v)
  end.

(** One element of [_scrub_list]: a pair whose head is a string is redacted by
    that key and only its second element is visited. *)
Definition scrub_item (node : value -> value) (item : value) : value :=
  let pair k v := if is_sensitive_key k then VStr (placeholder (config sc)) else node v in
  match item with
  | VList (VStr k :: v :: rest) => VList (VStr k :: pair k v :: rest)
  | VTuple (VStr k :: v :: rest) => VList (VStr k :: pair k v :: rest)
  | _ => node item
  end.

Fixpoint scrub_node (v : value) (depth : nat) {struct v} : value :=
  if (MAX_SCRUB_DEPTH <? depth)%nat then v
  else match v with
       | VDict d => VDict (map (scrub_entry (fun x => scrub_node x (S depth))) d)
       | VList l => VList (map (scrub_item (fun x => scrub_node x (S depth))) l)
       | VStr s => VStr (scrub_string s)
       | _ => v
       end.
End scrubber.

Definition scrub_dict (sc : Scrubber) (d : pydict) (depth : nat) : pydict :=
  map (scrub_entry sc (fun x => scrub_node sc x (S depth))) d.

(** One turn of the loop of [scrub_event]. *)
Definition scrub_section (sc : Scrubber) (payload : pydict) (section : ustr) : pydict :=
  match dlookup (KStr section) payload with
  | None | Some VNone => payload
  | Some v => dset (KStr section) (scrub_node sc v 0) payload
  end.

Definition scrub_event (sc : Scrubber) (payload : pydict) : pydict :=
  if negb (enabled (config sc)) then payload
  else fold_left (scrub_section sc) EVENT_SECTIONS payload.

Definition scrub_log (sc : Scrubber) (log : pydict) : pydict :=
  if negb (enabled (config sc)) then log else scrub_dict sc log 0.

(** [resolve_scrubber]; its caches only avoid compiling the same configuration
    twice. *)
Definition resolve_scrubber (json_loads : ustr -> option value) (py_repr : value -> ustr)
    (project_config default : value) : Scrubber :=
  let raw := vor project_config default in
  if negb (vtruthy raw) then new_scrubber default_config
  else new_scrubber (from_dict json_loads py_repr raw).

(** ** Key classification *)

(** Reference: strip the separators, lower the rest. *)
Definition normalize_ref (key : ustr) : ustr :=
  lower (filter (fun c => is_separator c = false) key).

Lemma pieces_ok_class p r bef l :
  r = RClass p -> pieces_ok r bef l ->
  concat (map (fun x => match x with PLit c => [c] | PMatch _ _ => [] end) l)
  = filter (fun c => p c = false) (texts l).
Proof.
  intros ->. revert bef. induction l as [|[c|t g] l IH]; intros bef; [done|..]; simpl.
  - intros [Hno Hok]. unfold texts. simpl. rewrite filter_cons, decide_True.
    + f_equal. by eapply IH.
    + destruct (p c) eqn:Hp; [|done].
      specialize (Hno _ (D_class p (RState bef (c :: texts l) []) c (texts l) eq_refl Hp)).
      unfold progress in Hno. simpl in Hno. apply Nat.ltb_ge in Hno. lia.
  - intros [Hm Hok]. apply denotes_class_inv in Hm as (c & rest & Ha & Hp & Hst).
    simpl in *. injection Hst as Hst _. assert (t = [c]) as ->.
    { apply (app_inv_tail bef (rev t) [c]) in Hst.
      rewrite <- (rev_involutive t), Hst. done. }
    unfold texts. simpl. rewrite filter_cons, decide_False by congruence. by eapply IH.
Qed.

Lemma normalize_key_spec key : normalize_key key = normalize_ref key.
Proof.
  unfold normalize_key, normalize_ref, re_sub_str, re_sub. f_equal.
  rewrite <- (pieces_texts KEY_SEPARATORS_RE key) at 2.
  eapply pieces_ok_class; [done|apply pieces_spec].
Qed.

Lemma key_token_match bef aft cs st' :
  denotes KEY_TOKEN_RE (RState bef aft cs) st' ->
  exists t, before st' = rev t ++ bef /\ aft = t ++ after st'
    /\ Forall (fun c => is_separator c = true) t
    /\ (t = [] -> exists c r, aft = c :: r /\ is_upper c = true).
Proof.
  intros [H|[H|H]%denotes_alt_inv]%denotes_alt_inv; apply denotes_seq_inv in H as (m & H1 & H2).
  - apply denotes_class_inv in H1 as (c & rest & Ha & Hp & ->).
    apply denotes_star_class in H2 as (t & Hall & Hb & Ht & _). simpl in *.
    exists (c :: t). rewrite Hb, Ha, Ht. simpl. rewrite <- app_assoc.
    split_and!; try done. by constructor.
  - apply denotes_behind_inv in H1 as [<- _]. apply denotes_ahead_inv in H2 as [<- (b & Hb)].
    apply denotes_class_inv in Hb as (c & rest & Ha & Hp & _). exists []. simpl in *. split_and!; eauto.
  - apply denotes_behind_inv in H1 as [<- _]. apply denotes_ahead_inv in H2 as [<- (b & Hb)].
    apply denotes_seq_inv in Hb as (m & Hb & _).
    apply denotes_class_inv in Hb as (c & rest & Ha & Hp & _). exists []. simpl in *. split_and!; eauto.
Qed.

Lemma key_token_separator bef c r :
  is_separator c = true -> exists st', denotes KEY_TOKEN_RE (RState bef (c :: r) []) st'
    /\ progress (RState bef (c :: r) []) st' = true.
Proof.
  intros Hc. exists (RState (c :: bef) r []). split.
  - constructor. eapply D_seq; [|constructor]. by apply (D_class _ (RState bef (c :: r) [])).
  - unfold progress. simpl. apply Nat.ltb_lt. lia.
Qed.

Definition lits (l : list piece) : ustr :=
  concat (map (fun x => match x with PLit c => [c] | PMatch _ _ => [] end) l).

Lemma token_pieces_lits bef l :
  pieces_ok KEY_TOKEN_RE bef l -> lits l = filter (fun c => is_separator c = false) (texts l).
Proof.
  revert bef. unfold lits, texts.
  induction l as [|[c|t g] l IH]; intros bef; [done|..]; simpl; intros [Hm Hok].
  - rewrite filter_cons, decide_True; [f_equal; by eapply IH|].
    destruct (is_separator c) eqn:E; [|done].
    destruct (key_token_separator bef c (texts l) E) as (st' & Hd & Hp).
    apply Hm in Hd. congruence.
  - apply key_token_match in Hm as (t' & Hb & _ & Hall & _). simpl in Hb.
    apply app_inv_tail in Hb. apply (f_equal (@rev Z)) in Hb. rewrite !rev_involutive in Hb. subst t'.
    rewrite filter_app, (IH _ Hok).
    assert (filter (fun c => is_separator c = false) t = []) as ->; [|done].
    clear Hok. induction Hall as [|c t Hc _ IHt]; [done|]. by rewrite filter_cons, decide_False by congruence.
Qed.

Lemma split_pieces_concat cur l : concat (split_pieces cur l) = rev cur ++ lits l.
Proof.
  revert cur. unfold lits. induction l as [|[c|t g] l IH]; intros cur; simpl; [done|..].
  - rewrite IH. simpl. by rewrite <- app_assoc.
  - by rewrite IH.
Qed.

Lemma concat_lower_filter ws :
  concat (map lower (filter (fun t => truthy t = true) ws)) = lower (concat ws).
Proof.
  unfold lower. induction ws as [|w ws IH]; [done|]. rewrite filter_cons.
  destruct w; simpl; [done|]. rewrite map_app, IH. done.
Qed.

Lemma split_key_concat key : concat (split_key key) = normalize_key key.
Proof.
  unfold split_key, re_split.
  rewrite concat_lower_filter, split_pieces_concat, normalize_key_spec. simpl.
  destruct (pieces_spec KEY_TOKEN_RE key) as [Ht Hok].
  by rewrite (token_pieces_lits _ _ Hok), Ht.
Qed.

(** A simple lower-case identifier is its own single token. *)
Lemma all_lits l bef :
  pieces_ok KEY_TOKEN_RE bef l ->
  Forall (fun c => is_separator c = false /\ is_upper c = false) (texts l) ->
  l = map PLit (texts l).
Proof.
  revert bef. unfold texts. induction l as [|[c|t g] l IH]; intros bef; [done|..]; simpl;
    intros [Hm Hok] Hall.
  - apply Forall_cons in Hall as [_ Hall]. f_equal. by eapply IH.
  - exfalso. apply key_token_match in Hm as (t' & Hb & Ha & Hsep & Hup). simpl in *.
    apply app_inv_tail in Hb. apply (f_equal (@rev Z)) in Hb. rewrite !rev_involutive in Hb.
    subst t'. apply Forall_app in Hall as [Ht Hl]. destruct t as [|c t].
    + destruct (Hup eq_refl) as (c & r & E & Hc).
      unfold texts in E. simpl in E. unfold texts in Hl. rewrite E in Hl.
      apply Forall_cons in Hl as [[_ ?] _]. congruence.
    + apply Forall_cons in Hsep as [Hc _]. apply Forall_cons in Ht as [[? _] _]. congruence.
Qed.

Lemma split_pieces_lits cur s : split_pieces cur (map PLit s) = [rev cur ++ s].
Proof.
  revert cur. induction s as [|c s IH]; intros cur; simpl; [by rewrite app_nil_r|].
  rewrite IH. simpl. by rewrite <- app_assoc.
Qed.

Lemma normalized_chars key :
  key = normalize_key key ->
  Forall (fun c => is_separator c = false /\ is_upper c = false) key.
Proof.
  rewrite normalize_key_spec. unfold normalize_ref. intros E.
  rewrite E. unfold lower. apply Forall_map, Forall_forall.
  intros c [Hc _]%list_elem_of_filter.
  assert (is_upper (lower_char c) = false) as Hu.
  { unfold lower_char, is_upper, in_range. repeat case_match; bool_split; lia. }
  split; [|done]. unfold lower_char in *. destruct (is_upper c) eqn:U; [|done].
  unfold is_upper, in_range in U. bool_split. unfold is_separator.
  assert (c = 65 \/ c = 66 \/ c = 67 \/ c = 68 \/ c = 69 \/ c = 70 \/ c = 71 \/ c = 72 \/ c = 73
    \/ c = 74 \/ c = 75 \/ c = 76 \/ c = 77 \/ c = 78 \/ c = 79 \/ c = 80 \/ c = 81 \/ c = 82
    \/ c = 83 \/ c = 84 \/ c = 85 \/ c = 86 \/ c = 87 \/ c = 88 \/ c = 89 \/ c = 90) as Hcases by lia.
  by repeat destruct Hcases as [->|Hcases]; try subst.
Qed.

Lemma split_key_simple key :
  truthy key = true -> key = normalize_key key -> split_key key = [key].
Proof.
  intros Hne E. pose proof (normalized_chars _ E) as Hall.
  destruct (pieces_spec KEY_TOKEN_RE key) as [Ht Hok]. unfold split_key, re_split.
  rewrite <- Ht in Hall. rewrite (all_lits _ _ Hok Hall), Ht, split_pieces_lits. simpl.
  rewrite filter_cons, decide_True by done. simpl. rewrite E, normalize_key_spec at 1.
  unfold normalize_ref. rewrite lower_idem. fold (normalize_ref key).
  by rewrite <- normalize_key_spec, <- E.
Qed.

(** ** Cards *)

(** Weight of one digit in the checksum. *)
Definition luhn_digit (parity i c : Z) : Z :=
  let d := c - 48 in
  if i mod 2 =? parity then (if 9 <? d * 2 then d * 2 - 9 else d * 2) else d.

Lemma luhn_total_app parity i a b :
  luhn_total parity i (a ++ b) = luhn_total parity i a + luhn_total parity (i + len a) b.
Proof.
  revert i. induction a as [|c a IH]; intros i; simpl.
  - unfold len. simpl. by rewrite !Z.add_0_r.
  - rewrite IH. replace (i + len (c :: a)) with (i + 1 + len a) by (unfold len; simpl; lia). lia.
Qed.

Lemma luhn_digit_inj parity i c c' :
  is_digit c = true -> is_digit c' = true -> c <> c' ->
  (luhn_digit parity i c - luhn_digit parity i c') mod 10 <> 0.
Proof.
  unfold is_digit, in_range, luhn_digit. intros Hc Hc' Hne.
  assert (0 <= c - 48 <= 9 /\ 0 <= c' - 48 <= 9) as [H H'] by lia.
  destruct (i mod 2 =? parity); [|intros E%Z.mod_divide; [destruct E; lia|done]].
  intros E%Z.mod_divide; [|done]. destruct E as [k E]. repeat case_match; bool_split; lia.
Qed.

Definition card_sep (c : Z) : bool := one_of " -" c.
Definition card_unit : regex := RSeq (RClass is_digit) (RStar false (RClass card_sep)).

Lemma card_unit_inv bef aft cs st' :
  denotes card_unit (RState bef aft cs) st' ->
  exists c t, is_digit c = true /\ Forall (fun x => card_sep x = true) t
    /\ before st' = rev (c :: t) ++ bef /\ aft = (c :: t) ++ after st'.
Proof.
  intros (m & H1 & H2)%denotes_seq_inv.
  apply denotes_class_inv in H1 as (c & rest & Ha & Hp & ->).
  apply denotes_star_class in H2 as (t & Hall & Hb & Ht & _). simpl in *.
  exists c, t. simpl. rewrite <- app_assoc. by subst.
Qed.

Definition card_char (c : Z) : bool := is_digit c || card_sep c.

(** What a repetition of card units takes: digits and separators. *)
Lemma card_range_inv m n : forall bef aft cs st',
  denotes (RRange m n card_unit) (RState bef aft cs) st' ->
  exists t, before st' = rev t ++ bef /\ aft = t ++ after st'
    /\ Forall (fun x => card_char x = true) t
    /\ (m <> 0%nat -> exists c t', t = c :: t' /\ is_digit c = true).
Proof.
  assert (Hunit : forall bef aft cs a r,
    denotes card_unit (RState bef aft cs) a -> 
    (exists t, before r = rev t ++ before a /\ after a = t ++ after r
      /\ Forall (fun x => card_char x = true) t) ->
    exists t, before r = rev t ++ bef /\ aft = t ++ after r
      /\ Forall (fun x => card_char x = true) t
      /\ exists c t', t = c :: t' /\ is_digit c = true).
  { intros bef aft cs a r (c & t & Hc & Hall & Hb & Ha)%card_unit_inv (t2 & Hb2 & Ha2 & Hall2).
    exists ((c :: t) ++ t2). rewrite Hb2, Hb, Ha, Ha2, rev_app_distr, <- !app_assoc.
    split_and!; try done; [|simpl; eauto].
    apply Forall_app. split; [|done]. constructor; [unfold card_char; by rewrite Hc|].
    eapply Forall_impl; [exact Hall|]. intros x Hx. unfold card_char. rewrite Hx. apply orb_true_r. }
  revert m. assert (Hup : forall n bef aft cs st', denotes (RUpTo n card_unit) (RState bef aft cs) st' ->
    exists t, before st' = rev t ++ bef /\ aft = t ++ after st'
      /\ Forall (fun x => card_char x = true) t).
  { clear n. induction n as [|n IH]; intros bef aft cs st' H; simpl in H.
    - apply denotes_eps_inv in H as <-. by exists [].
    - apply denotes_alt_inv in H as [H|H]; [|apply denotes_eps_inv in H as <-; by exists []].
      apply denotes_seq_inv in H as ([b a c] & H1 & H2).
      destruct (Hunit _ _ _ _ st' H1) as (t & ? & ? & ? & _); [by apply (IH b a c)|by exists t]. }
  induction m as [|m IH]; intros bef aft cs st' H; simpl in H.
  - apply Hup in H as (t & ? & ? & ?). exists t. split_and!; done.
  - apply denotes_seq_inv in H as ([b a c] & H1 & H2). apply IH in H2 as (t2 & Hb2 & Ha2 & Hall2 & _).
    destruct (Hunit _ _ _ _ st' H1) as (t & ? & ? & ? & Hd); [by exists t2|].
    exists t. split_and!; eauto.
Qed.

Lemma card_range_digits m n : forall ds bef aft cs,
  Forall (fun c => is_digit c = true) ds -> (m <= length ds <= m + n)%nat ->
  denotes (RRange m n card_unit) (RState bef (ds ++ aft) cs) (RState (rev ds ++ bef) aft cs).
Proof.
  assert (Hone : forall r c ds bef aft cs st', is_digit c = true ->
    denotes r (RState (c :: bef) (ds ++ aft) cs) st' ->
    denotes (RSeq card_unit r) (RState bef ((c :: ds) ++ aft) cs) st').
  { intros r c ds bef aft cs st' Hc H. eapply D_seq; [|exact H].
    eapply D_seq; [by apply (D_class _ (RState bef ((c :: ds) ++ aft) cs))|]. constructor. }
  induction m as [|m IH]; intros ds bef aft cs Hall Hlen; simpl.
  - simpl in Hlen. destruct Hlen as [_ Hlen]. revert ds bef Hall Hlen.
    induction n as [|n IH]; intros ds bef Hall Hlen; simpl.
    + destruct ds; [constructor|simpl in *; lia].
    + destruct ds as [|c ds]; [apply D_alt_r; constructor|].
      apply Forall_cons in Hall as [Hc Hall]. apply D_alt_l, Hone; [done|].
      simpl. rewrite <- app_assoc. apply IH; [done|simpl in *; lia].
  - destruct ds as [|c ds]; [simpl in *; lia|].
    apply Forall_cons in Hall as [Hc Hall]. apply Hone; [done|].
    simpl. rewrite <- app_assoc. apply IH; [done|simpl in *; lia].
Qed.

Lemma digit_word c : is_digit c = true -> is_word c = true.
Proof. unfold is_word, is_alnum. intros ->. by rewrite orb_true_r. Qed.

Lemma card_starts_digit bef c x st' :
  denotes CARD_RE (RState bef (c :: x) []) st' -> is_digit c = true.
Proof.
  intros (m & H1 & H)%denotes_seq_inv. apply denotes_wordb_inv in H1 as [<- _].
  apply denotes_seq_inv in H as (m & H & _).
  apply (card_range_inv 13 6) in H as (t & _ & Ha & _ & Hd).
  destruct Hd as (c' & t' & -> & ?); [done|]. by simplify_eq/=.
Qed.

(** A digit run standing alone is matched, and exactly. *)
Lemma card_isolated bef ds b :
  opt_word (head bef) = false -> Forall (fun c => is_digit c = true) ds ->
  (13 <= length ds <= 19)%nat ->
  match b with [] => True | c :: _ => is_word c = false /\ card_sep c = false end ->
  exists g, match_at CARD_RE false bef (ds ++ b) = Some (RState (rev ds ++ bef) b g).
Proof.
  intros Hbef Hds Hlen Hb.
  assert (Hnb : match b with [] => True | c :: _ => card_char c = false end).
  { destruct b as [|c b]; [done|]. destruct Hb as [Hw Hs]. unfold card_char. rewrite Hs.
    destruct (is_digit c) eqn:E; [|done]. apply digit_word in E. congruence. }
  assert (Hhead : forall l y, Forall (fun c => is_digit c = true) l -> l <> [] ->
    opt_word (head (l ++ y)) = true).
  { intros [|c l] y Hl Hne; [done|]. apply Forall_cons in Hl as [? _]. by apply digit_word. }
  assert (Hne : ds <> []) by (destruct ds; simpl in *; [lia|done]).
  assert (Hrev : Forall (fun c => is_digit c = true) (rev ds)).
  { rewrite Forall_forall in *. intros x Hx. apply Hds. rewrite list_elem_of_In in *. by apply in_rev. }
  assert (Hwb : at_word_boundary (RState bef (ds ++ b) []) = true).
  { unfold at_word_boundary. simpl. rewrite Hbef, (Hhead ds b) by done. done. }
  assert (Hwe : at_word_boundary (RState (rev ds ++ bef) b []) = true).
  { unfold at_word_boundary. simpl. rewrite (Hhead (rev ds) bef); [|done|].
    - destruct b as [|c b]; [done|]. simpl. by destruct Hb as [-> _].
    - intros E. apply (f_equal length) in E. rewrite length_rev in E. by destruct ds. }
  destruct (match_at CARD_RE false bef (ds ++ b)) as [st'|] eqn:E.
  - apply match_at_Some in E as (t & Hb' & Ha & _ & Hd & _).
    apply denotes_seq_inv in Hd as (m & H1 & Hd). apply denotes_wordb_inv in H1 as [<- _].
    apply denotes_seq_inv in Hd as (m & Hd & H2). apply denotes_wordb_inv in H2 as [-> Hw].
    apply (card_range_inv 13 6) in Hd as (t' & Hbt & Hat & Hall & Hd).
    assert (t' = ds) as ->; [|exists (caps st'); destruct st'; simpl in *; subst; f_equal; f_equal; by apply app_inv_head in Hat].
    destruct (Hd ltac:(done)) as (c0 & t0 & Et & Hc0). clear Hd.
    destruct (app_eq_inv _ _ _ _ Hat) as [(k & E1 & E2)|(k & E1 & E2)].
    + (* the match stops inside the run *)
      destruct k as [|c k]; [by rewrite app_nil_r in E1|]. exfalso.
      unfold at_word_boundary in Hw. rewrite Hbt, E2 in Hw. rewrite E1 in Hds.
      apply Forall_app in Hds as [Ht' Hk]. rewrite (Hhead (rev t') bef) in Hw.
      * rewrite (Hhead (c :: k) b) in Hw; [done..|].
        by destruct k.
      * rewrite Forall_forall in *. intros x Hx. apply Ht'.
        rewrite list_elem_of_In in *. by apply in_rev.
      * subst t'. simpl. by destruct (rev t0).
    + (* it would have to take the character after the run *)
      destruct k as [|c k]; [by rewrite app_nil_r in E1|]. exfalso. subst b t'.
      rewrite E1 in Hall. apply Forall_app in Hall as [_ [Hc _]%Forall_cons]. simpl in Hnb. congruence.
  - exfalso. eapply rmatch_complete; [| |exact E]; [|done].
    eapply D_seq; [by apply D_wordb|]. eapply D_seq; [|by apply D_wordb].
    apply (card_range_digits 13 6); [done|lia].
Qed.

Lemma card_no_digit a : Forall (fun c => is_digit c = false) a ->
  forall c x bef, c ∈ a -> match_at CARD_RE false bef (c :: x) = None.
Proof.
  intros Ha c x bef Hc. apply match_at_None_intro. intros st' Hd%card_starts_digit.
  rewrite Forall_forall in Ha. apply Ha in Hc. congruence.
Qed.

Lemma card_empty bef : match_at CARD_RE false bef [] = None.
Proof.
  apply match_at_None_intro. intros st' H. apply denotes_seq_inv in H as (m & H1 & H).
  apply denotes_wordb_inv in H1 as [<- _]. apply denotes_seq_inv in H as (m & H & _).
  apply (card_range_inv 13 6) in H as (t & _ & Ha & _ & Hd).
  destruct Hd as (c' & t' & -> & ?); done.
Qed.

Lemma card_pieces a ds b :
  Forall (fun c => is_digit c = false) a -> opt_word (head (rev a)) = false ->
  Forall (fun c => is_digit c = true) ds -> (13 <= length ds <= 19)%nat ->
  Forall (fun c => is_digit c = false) b ->
  match b with [] => True | c :: _ => is_word c = false /\ card_sep c = false end ->
  exists g, pieces CARD_RE (a ++ ds ++ b) = map PLit a ++ PMatch ds g :: map PLit b.
Proof.
  intros Ha Hlast Hds Hlen Hb Hnext.
  assert (head (rev a) = head (rev a ++ [])) as Hh by (by rewrite app_nil_r).
  destruct (card_isolated (rev a ++ []) ds b) as [g Hm]; [by rewrite <- Hh|done..|].
  exists g. unfold pieces.
  rewrite (scan_fuel _ _ (length a + S (length b + S (2 * length (a ++ ds ++ b))))).
  2,3: unfold scan_measure; rewrite ?length_app; lia.
  rewrite scan_skip by (by apply card_no_digit). f_equal. simpl. rewrite Hm.
  assert (between (RState (rev a ++ []) (ds ++ b) []) (RState (rev ds ++ rev a ++ []) b g) = ds)
    as -> by (by apply between_text).
  f_equal. replace (negb (truthy ds)) with false by (destruct ds; simpl in *; [lia|done]).
  transitivity (scan CARD_RE (length b + S (2 * length (a ++ ds ++ b))) false
    (rev ds ++ rev a ++ []) (b ++ [])); [by rewrite (app_nil_r b)|].
  rewrite scan_skip by (by apply card_no_digit). simpl. rewrite card_empty. apply app_nil_r.
Qed.

Lemma map_lits f s :
  concat (map (fun p => match p with PLit c => [c] | PMatch t g => f t g end) (map PLit s)) = s.
Proof. induction s as [|c s IH]; [done|]. simpl. by f_equal. Qed.

Lemma card_sep_not_digit c : is_digit c = true -> card_sep c = false.
Proof.
  unfold is_digit, in_range, card_sep, one_of. intros H. apply bool_decide_eq_false.
  change (u " -") with [32; 45]. rewrite !elem_of_cons, elem_of_nil. lia.
Qed.

Lemma maybe_redact_valid sc ds g :
  Forall (fun c => is_digit c = true) ds -> (13 <= length ds <= 19)%nat ->
  luhn_valid ds = true -> maybe_redact_card sc ds g = placeholder (config sc).
Proof.
  intros Hds Hlen Hv. unfold maybe_redact_card.
  assert (filter (fun c => one_of " -" c = false) ds = ds) as ->.
  { apply filter_all, Forall_impl with (1 := Hds). intros c. apply card_sep_not_digit. }
  rewrite Hv, !(proj2 (Z.leb_le _ _)) by (unfold len; lia). done.
Qed.

(** ** The walk *)












(** ** Properties *)


Definition sample_scrubber : Scrubber :=
  new_scrubber (config_of_dict (fun v => []) [(KStr (u "enabled"), VBool true)]).


(** The token-aware classifier with its fast path for simple keys decides the
    documented rule: the key is not safe, and either the whole normalized key is
    denied or no token is safe and some token is denied. *)
Theorem is_sensitive_key_token_spec sc key :
  aggressive_key_match (config sc) = false ->
  is_sensitive_key sc key = true <->
  normalize_key key <> [] /\ mem (normalize_key key) (safelist sc) = false
  /\ (mem (normalize_key key) (whole_keys sc) = true
      \/ ((forall t, t ∈ split_key key -> mem t (safelist sc) = false)
          /\ exists t, t ∈ split_key key /\ mem t (key_tokens sc) = true)).
Proof.
  intros Hagg. unfold is_sensitive_key. rewrite Hagg.
  destruct (normalize_key key) as [|c0 n0] eqn:En; simpl; [naive_solver|].
  rewrite <- En. assert (Hne : normalize_key key <> []) by congruence.
  destruct (mem (normalize_key key) (safelist sc)) eqn:Es; [naive_solver|].
  destruct (mem (normalize_key key) (whole_keys sc)) eqn:Ew; [by split; [intros _; split_and!; [..|left]|]|].
  destruct (ustr_eqb key (normalize_key key)) eqn:Ek.
  - apply ustr_eqb_eq in Ek.
    rewrite (split_key_simple key); [|rewrite Ek, En; done|done].
    assert (mem key (safelist sc) = false) by (by rewrite Ek).
    assert (mem (normalize_key key) (key_tokens sc) = mem key (key_tokens sc)) as ->
      by (by rewrite <- Ek).
    setoid_rewrite list_elem_of_singleton. split; [|naive_solver].
    intros Ht. split_and!; [by rewrite En|done|]. right. split; [by intros t ->|by exists key].
  - destruct (existsb _ (split_key key)) eqn:E1.
    + apply existsb_exists in E1 as (t & Hin & Ht). apply list_elem_of_In in Hin.
      split; [done|]. intros (_ & _ & [?|[Hall _]]); [congruence|]. rewrite Hall in Ht; done.
    + rewrite existsb_exists. setoid_rewrite <- list_elem_of_In. split; [|naive_solver].
      intros Hex. split_and!; [by rewrite En|done|]. right. split; [|done].
      intros t Hin. destruct (mem t (safelist sc)) eqn:Et; [|done].
      rewrite <- E1. symmetry. apply existsb_exists. exists t. by rewrite <- list_elem_of_In.
Qed.

Lemma is_sensitive_key_token_spec_witness :
  aggressive_key_match (config sample_scrubber) = false
  /\ is_sensitive_key sample_scrubber (u "X-Auth-Token") = true
  /\ normalize_key (u "X-Auth-Token") <> [].
Proof.
  split; [reflexivity|]. split; [by_compute|].
  refine (proj1 (proj1 (is_sensitive_key_token_spec sample_scrubber (u "X-Auth-Token") _) _));
    [reflexivity|by_compute].
Defined.

(** Splitting a key into tokens loses nothing but separators and case: the
    tokens, in order, spell the normalized key. *)
Theorem split_key_spells_normalized key :
  concat (split_key key) = normalize_key key
  /\ normalize_key key = lower (filter (fun c => is_separator c = false) key)
  /\ Forall (fun t => t <> [] /\ lower t = t) (split_key key).
Proof.
  split_and!; [apply split_key_concat|apply normalize_key_spec|].
  apply Forall_forall. intros t (w & -> & [Hw _]%list_elem_of_filter)%list_elem_of_fmap.
  split; [by destruct w|apply lower_idem].
Qed.

(** The checksum catches every single wrong digit: two digit strings that
    differ in exactly one place are not both Luhn-valid. *)
Theorem luhn_detects_single_error a c c' b :
  is_digit c = true -> is_digit c' = true -> c <> c' ->
  luhn_valid (a ++ c :: b) = true -> luhn_valid (a ++ c' :: b) = false.
Proof.
  intros Hc Hc' Hne. unfold luhn_valid. intros Hv. apply Z.eqb_eq in Hv. apply Z.eqb_neq. intros Hv'.
  assert (len (a ++ c' :: b) = len (a ++ c :: b)) as E by (unfold len; rewrite !length_app; done).
  rewrite E in Hv'. rewrite luhn_total_app in Hv, Hv'. simpl in Hv, Hv'.
  set (par := len (a ++ c :: b) mod 2) in *.
  apply (luhn_digit_inj par (0 + len a) c c' Hc Hc' Hne).
  change (0 + len a) with (len a) in *. unfold luhn_digit.
  apply Z.mod_divide; [done|]. apply Z.mod_divide in Hv, Hv'; [|done..].
  destruct Hv as [k Hv], Hv' as [k' Hv']. exists (k - k'). lia.
Qed.

Lemma luhn_detects_single_error_witness :
  luhn_valid (u "4111111111111111") = true /\ luhn_valid (u "4111111111111112") = false.
Proof.
  split; [by_compute|].
  apply (luhn_detects_single_error (u "411111111111111") (ch "1") (ch "2") []); by_compute || done.
Defined.

(** A Luhn-valid run of 13 to 19 digits standing alone in a text is replaced by
    the placeholder and nothing else of the text changes. *)
Theorem isolated_card_redacted sc a ds b :
  scrub_credit_cards (config sc) = true -> scrub_emails (config sc) = false ->
  contains (u "PRIVATE KEY") (a ++ ds ++ b) = false ->
  Forall (fun c => is_digit c = false) a -> opt_word (head (rev a)) = false ->
  Forall (fun c => is_digit c = true) ds -> (13 <= length ds <= 19)%nat -> luhn_valid ds = true ->
  Forall (fun c => is_digit c = false) b ->
  match b with [] => True | c :: _ => is_word c = false /\ card_sep c = false end ->
  scrub_string sc (a ++ ds ++ b) = a ++ placeholder (config sc) ++ b.
Proof.
  intros Hcc He Hk Ha Hl Hds Hlen Hv Hb Hn. unfold scrub_string.
  rewrite Hcc, He, Hk, andb_false_r. unfold re_sub.
  destruct (card_pieces a ds b) as [g ->]; [done..|].
  rewrite map_app, concat_app, map_lits. simpl. by rewrite map_lits, maybe_redact_valid.
Qed.

Lemma isolated_card_redacted_witness :
  scrub_string sample_scrubber (u "card: " ++ u "4111111111111111" ++ u ".")
  = u "card: " ++ PLACEHOLDER ++ u ".".
Proof.
  apply isolated_card_redacted; try by_compute; try (vm_compute; repeat constructor; done).
Defined.

(** ** Observed limits of the scrubber *)

Definition scrubber_with (l : list (string * value)) : Scrubber :=
  new_scrubber (config_of_dict (fun _ => [])
    ((KStr (u "enabled"), VBool true) :: map (fun p => (KStr (u p.1), p.2)) l)).

(** A digit run preceded by another number is taken as one candidate, which
    fails the checksum: the card stays. *)
Example card_after_number_kept :
  scrub_string sample_scrubber (u "order 1 4111111111111111") = u "order 1 4111111111111111".
Proof. by_compute. Qed.

(** In a row whose first element is a string only the second element is visited. *)
Example row_tail_kept :
  let row := VList [VStr (u "a"); VStr (u "b"); VStr (u "4111111111111111")] in
  scrub_event sample_scrubber [(KStr (u "extra"), VList [row])]
  = [(KStr (u "extra"), VList [row])].
Proof. by_compute. Qed.

(** With substring matching a safe key made of separators exempts every key. *)
Example separator_safe_key_exempts :
  is_sensitive_key (scrubber_with [("safe_keys", VList [VStr (u "_")]);
    ("aggressive_key_match", VBool true)]%string) (u "password") = false.
Proof. by_compute. Qed.

(** A safe token does not exempt a field whose whole key is denied. *)
Example safe_token_loses_to_whole_key :
  is_sensitive_key (scrubber_with [("safe_keys", VList [VStr (u "api")])]%string) (u "api_key") = true.
Proof. by_compute. Qed.
