(* ===== verification/Histogram.v ===== *)
(** * Duration histograms

    [apps/performance/histogram.py]: the fixed-bucket histogram behind the p50 and
    p95 columns of transaction groups.  A duration is a double; the model counts it
    in units of 2^-52 ms, in which every double of at least one millisecond, the
    bucket boundaries included, is an integer (shorter ones all fall in bucket 0). *)
From S2P Require Import Prelude PyValue.

Definition ms (n : Z) : Z := n * 2 ^ 52.
Definition MIN_MS : Z := ms 1.
Definition MAX_MS : Z := ms 60000.
Definition NUM_BUCKETS : nat := 50.

(** [_MIN_MS * (_MAX_MS / _MIN_MS) ** (i / _NUM_BUCKETS) for i in range(_NUM_BUCKETS + 1)]:
    the 51 doubles this evaluates to, times 2^52. *)
Definition BUCKET_BOUNDARIES : list Z :=
  [
    4503599627370496; 5612066383564012; 6993359023772349; 8714627927176996; 10859551132864220;
    13532402277270210; 16863119769257744; 21013623636504416; 26185687131373160;
    32630745767759716; 40662120646987704; 50670250299452448; 63141671525175664;
    78682671970859856; 98048764293569456; 122181414772700144; 152253811900795872;
    189727899954735840; 236425450186354656; 294616624698613504; 367130338465623040;
    457491784653241152; 570093808917962176; 710410463901403392; 885263125692410240;
    1103152109284617344; 1374669904235833600; 1713016119633055488; 2134639171979189248;
    2660035911118033408; 3314748057338909184; 4130603890612107776; 5147265555632370688;
    6414157203602803712; 7992867705749307392; 9960144744460840960; 12411625837276499968;
    15466487674310246400; 19273239792739467264; 24016944242966392832; 29928212224446623744;
    37294415055063867392; 46473654485891817472; 57912171516437094400; 72166040025265496064;
    89928199833606012928; 112062143391568543744; 139643893736874065920; 174014314449232560128;
    216844294604773425152; 270215977642229760000 ].

Definition new_histogram : list Z := replicate NUM_BUCKETS 0.

(** [bisect.bisect_right] on a sorted list: the position after the elements that
    are not greater than [x]. *)
Fixpoint bisect_right (l : list Z) (x : Z) : Z :=
  match l with
  | [] => 0
  | b :: r => if x <? b then 0 else 1 + bisect_right r x
  end.

Definition get_bucket_index (duration_ms : Z) : Z :=
  if duration_ms <=? MIN_MS then 0
  else if MAX_MS <=? duration_ms then Z.of_nat NUM_BUCKETS - 1
  else
    let idx := bisect_right BUCKET_BOUNDARIES duration_ms - 1 in
    Z.max 0 (Z.min idx (Z.of_nat NUM_BUCKETS - 1)).

(** [histogram[get_bucket_index(d)] += 1] for every duration. *)
Fixpoint merge_durations (histogram : list Z) (durations : list Z) : res (list Z) :=
  match durations with
  | [] => Ok histogram
  | d :: r =>
      let i := Z.to_nat (get_bucket_index d) in
      match histogram !! i with
      | Some c => merge_durations (<[i := c + 1]> histogram) r
      | None => Raise IndexError
      end
  end.

(** The midpoint of bucket [i], in units of 2^-53 ms: [(low + high) / 2.0]. *)
Definition midpoint (i : nat) : Z :=
  let low := nth i BUCKET_BOUNDARIES 0 in
  let high := if (i + 1 <=? NUM_BUCKETS)%nat then nth (i + 1) BUCKET_BOUNDARIES 0 else MAX_MS in
  low + high.

(** The loop over the buckets: [n] buckets left, starting at bucket [i]. *)
Fixpoint percentile_loop (histogram : list Z) (target : Z) (n i : nat) (cumulative : Z)
  : res (option Z) :=
  match n with
  | O => Ok None
  | S n =>
      match histogram !! i with
      | None => Raise IndexError
      | Some count =>
          if count <=? 0 then percentile_loop histogram target n (S i) cumulative
          else
            let cumulative := cumulative + count in
            if target <=? cumulative then Ok (Some (midpoint i))
            else percentile_loop histogram target n (S i) cumulative
      end
  end.

(** [math.ceil(total_count * pct / 100.0)] for an integer percentage. *)
Definition rank (total_count pct : Z) : Z := - ((- (total_count * pct)) / 100).

Definition percentile_from_histogram (histogram : list Z) (total_count pct : Z) : res (option Z) :=
  if (total_count <=? 0) || bool_decide (histogram = []) then Ok None
  else percentile_loop histogram (rank total_count pct) NUM_BUCKETS 0 0.

(** ** Buckets *)

Lemma bisect_right_bounds l x : 0 <= bisect_right l x <= Z.of_nat (length l).
Proof. induction l as [|b r IH]; simpl; [lia|]. destruct (x <? b); lia. Qed.

Lemma bisect_right_mono l x y : x <= y -> bisect_right l x <= bisect_right l y.
Proof.
  intros Hxy. induction l as [|b r IH]; simpl; [lia|].
  pose proof (bisect_right_bounds r y). destruct (x <? b) eqn:E1, (y <? b) eqn:E2; lia.
Qed.

(** The element before the position is at most [x], the one at it is greater. *)
Lemma bisect_right_spec l x i :
  bisect_right l x = Z.of_nat i ->
  (forall j b, (j < i)%nat -> l !! j = Some b -> b <= x)
  /\ (forall b, l !! i = Some b -> x < b).
Proof.
  revert i. induction l as [|b r IH]; intros i Hi; simpl in Hi; [done|].
  destruct (x <? b) eqn:E.
  - assert (i = 0%nat) as -> by lia. split; [lia|]. intros b' [= <-]. lia.
  - destruct i as [|i]; [pose proof (bisect_right_bounds r x); lia|].
    destruct (IH i) as [H1 H2]; [lia|]. split; [|done].
    intros [|j] b' Hj; simpl; [intros [= <-]; lia|]. apply H1. lia.
Qed.

Lemma get_bucket_index_bounds d : 0 <= get_bucket_index d < Z.of_nat NUM_BUCKETS.
Proof.
  unfold get_bucket_index, NUM_BUCKETS. destruct (_ <=? _); [lia|]. destruct (_ <=? _); lia.
Qed.

Lemma get_bucket_index_mono x y : x <= y -> get_bucket_index x <= get_bucket_index y.
Proof.
  intros Hxy. pose proof (get_bucket_index_bounds x). pose proof (get_bucket_index_bounds y).
  unfold get_bucket_index, NUM_BUCKETS in *.
  pose proof (bisect_right_mono BUCKET_BOUNDARIES x y Hxy).
  destruct (x <=? MIN_MS) eqn:?, (y <=? MIN_MS) eqn:?; try lia.
  destruct (MAX_MS <=? x) eqn:?, (MAX_MS <=? y) eqn:?; lia.
Qed.

Definition bucket (d : Z) : nat := Z.to_nat (get_bucket_index d).

Lemma bucket_lt d : (bucket d < NUM_BUCKETS)%nat.
Proof. pose proof (get_bucket_index_bounds d). unfold bucket. lia. Qed.

Lemma bucket_mono x y : x <= y -> (bucket x <= bucket y)%nat.
Proof. intros ?%get_bucket_index_mono. unfold bucket. lia. Qed.

(** ** Counting *)

Definition count (P : Z -> bool) (ds : list Z) : Z := zsum (map (fun d => if P d then 1 else 0) ds).

Lemma count_app P l1 l2 : count P (l1 ++ l2) = count P l1 + count P l2.
Proof. unfold count. by rewrite map_app, zsum_app. Qed.

Lemma count_bounds P l : 0 <= count P l <= Z.of_nat (length l).
Proof. unfold count. induction l as [|x l IH]; simpl; [lia|]. destruct (P x); lia. Qed.

Lemma count_all P l : (forall x, x ∈ l -> P x = true) -> count P l = Z.of_nat (length l).
Proof.
  unfold count. induction l as [|x l IH]; intros H; simpl; [done|].
  rewrite IH by (intros; apply H; by right). rewrite H by left. lia.
Qed.

Lemma count_none P l : (forall x, x ∈ l -> P x = false) -> count P l = 0.
Proof.
  unfold count. induction l as [|x l IH]; intros H; simpl; [done|].
  rewrite IH by (intros; apply H; by right). by rewrite H by left.
Qed.

Lemma count_Permutation P l1 l2 : l1 ≡ₚ l2 -> count P l1 = count P l2.
Proof. unfold count. induction 1; simpl; lia. Qed.

(** ** Merging *)

Lemma merge_durations_ok h ds :
  length h = NUM_BUCKETS ->
  exists h', merge_durations h ds = Ok h' /\ length h' = NUM_BUCKETS
    /\ forall i c, h !! i = Some c ->
         h' !! i = Some (c + count (fun d => Nat.eqb (bucket d) i) ds).
Proof.
  revert h. induction ds as [|d ds IH]; intros h Hl; simpl.
  - exists h. split_and!; [done..|]. intros i c ->. f_equal. unfold count. simpl. lia.
  - pose proof (bucket_lt d) as Hb.
    change (Z.to_nat (get_bucket_index d)) with (bucket d).
    destruct (lookup_lt_is_Some_2 h (bucket d)) as [c0 Hc0]; [lia|]. rewrite Hc0.
    destruct (IH (<[bucket d := c0 + 1]> h)) as (h' & -> & Hl' & Hh').
    { by rewrite length_insert. }
    exists h'. split_and!; [done..|]. intros i c Hi.
    unfold count in *. simpl. destruct (Nat.eqb_spec (bucket d) i) as [<-|Hne].
    + rewrite (Hh' (bucket d) (c0 + 1)) by (apply list_lookup_insert_eq; lia).
      simplify_eq. f_equal. lia.
    + rewrite (Hh' i c) by (by rewrite list_lookup_insert_ne). f_equal.
Qed.

Lemma zsum_take_S h i c : h !! i = Some c -> zsum (take (S i) h) = zsum (take i h) + c.
Proof. intros Hi. rewrite (take_S_r _ _ c Hi), zsum_app. simpl. lia. Qed.

Lemma count_split (f : Z -> nat) i ds :
  count (fun d => (f d <? S i)%nat) ds = count (fun d => (f d <? i)%nat) ds + count (fun d => Nat.eqb (f d) i) ds.
Proof.
  unfold count. induction ds as [|d ds IH]; simpl; [done|]. rewrite IH.
  destruct (Nat.ltb_spec (f d) (S i)), (Nat.ltb_spec (f d) i), (Nat.eqb_spec (f d) i); lia.
Qed.

(** The prefix sums of the histogram of [ds] count the durations below a bucket. *)
Lemma histogram_prefix ds h :
  merge_durations new_histogram ds = Ok h ->
  length h = NUM_BUCKETS /\ Forall (fun c => 0 <= c) h
  /\ forall i, (i <= NUM_BUCKETS)%nat -> zsum (take i h) = count (fun d => (bucket d <? i)%nat) ds.
Proof.
  intros Hm. destruct (merge_durations_ok new_histogram ds) as (h' & Hm' & Hl & Hh); [done|].
  rewrite Hm in Hm'. injection Hm' as <-.
  assert (forall i, (i < NUM_BUCKETS)%nat -> h !! i = Some (count (fun d => Nat.eqb (bucket d) i) ds)) as Hc.
  { intros i Hi. rewrite (Hh i 0); [done|]. by apply lookup_replicate. }
  split_and!; [done| |].
  - apply Forall_lookup. intros i c Hi. pose proof (lookup_lt_Some _ _ _ Hi) as Hlt.
    rewrite Hc in Hi by lia. simplify_eq. apply count_bounds.
  - induction i as [|i IH]; intros Hi.
    + simpl. symmetry. by apply count_none.
    + rewrite (zsum_take_S h i _ (Hc i ltac:(lia))), IH by lia. symmetry. apply count_split.
Qed.

(** ** Percentiles *)

Lemma zsum_take_mono h i j :
  Forall (fun c => 0 <= c) h -> (i <= j)%nat -> zsum (take i h) <= zsum (take j h).
Proof.
  intros Hp Hij. replace j with (i + (j - i))%nat by lia.
  rewrite <- (take_take_drop h), zsum_app.
  assert (0 <= zsum (take (j - i) (drop i h))); [|lia].
  apply zsum_nonneg. by apply Forall_take, Forall_drop.
Qed.

Lemma percentile_loop_spec h target b :
  length h = NUM_BUCKETS -> Forall (fun c => 0 <= c) h ->
  (b < NUM_BUCKETS)%nat -> zsum (take b h) < target <= zsum (take (S b) h) ->
  forall n i, (n + i = NUM_BUCKETS)%nat -> (i <= b)%nat ->
  percentile_loop h target n i (zsum (take i h)) = Ok (Some (midpoint b)).
Proof.
  intros Hl Hp Hb [Hlo Hhi]. induction n as [|n IH]; intros i Hn Hi; [lia|]. simpl.
  destruct (lookup_lt_is_Some_2 h i) as [c Hc]; [lia|]. rewrite Hc.
  pose proof (zsum_take_S h i c Hc) as Hs.
  destruct (decide (i = b)) as [->|Hne].
  - destruct (c <=? 0) eqn:E; [lia|]. by destruct (target <=? _) eqn:E2; [|lia].
  - pose proof (zsum_take_mono h (S i) b Hp ltac:(lia)).
    specialize (IH (S i) ltac:(lia) ltac:(lia)). rewrite Hs in IH.
    destruct (c <=? 0) eqn:E.
    + rewrite <- IH. f_equal. rewrite Forall_lookup in Hp. specialize (Hp _ _ Hc). simpl in Hp. lia.
    + by destruct (target <=? _) eqn:E2; [lia|].
Qed.

(** The durations in increasing order. *)
Definition sorted_durations (ds : list Z) : list Z := merge_sort Z.le ds.

Lemma sorted_lookup_le l i j x y :
  StronglySorted Z.le l -> l !! i = Some x -> l !! j = Some y -> (i <= j)%nat -> x <= y.
Proof.
  intros Hs. revert i j. induction Hs as [|a l _ IH Hf]; intros i j Hi Hj Hij; [done|].
  destruct i as [|i], j as [|j]; simpl in *; simplify_eq; [lia| |lia|].
  - rewrite Forall_lookup in Hf. by apply Hf in Hj.
  - apply (IH i j); [done..|lia].
Qed.

(** In a sorted list at most [j] elements lie in lower buckets than the element at
    [j], and at least [j + 1] in its bucket or lower ones. *)
Lemma sorted_rank l j d :
  StronglySorted Z.le l -> l !! j = Some d ->
  count (fun x => (bucket x <? bucket d)%nat) l <= Z.of_nat j
  /\ Z.of_nat j + 1 <= count (fun x => (bucket x <? S (bucket d))%nat) l.
Proof.
  intros Hs Hj. pose proof (lookup_lt_Some _ _ _ Hj) as Hlt.
  rewrite <- (take_drop_middle l j d Hj), !count_app.
  assert (forall x, x ∈ take j l -> x <= d) as Hlow.
  { intros x (i & Hi)%list_elem_of_lookup. apply lookup_take_Some in Hi as [Hi ?].
    apply (sorted_lookup_le l i j); [done..|lia]. }
  assert (forall x, x ∈ d :: drop (S j) l -> d <= x) as Hhigh.
  { intros x [->|(i & Hi)%list_elem_of_lookup]%elem_of_cons; [lia|].
    rewrite lookup_drop in Hi. apply (sorted_lookup_le l j (S j + i)); [done..|lia]. }
  split.
  - rewrite (count_none _ (d :: _)).
    + pose proof (count_bounds (fun x => (bucket x <? bucket d)%nat) (take j l)).
      rewrite length_take in *. lia.
    + intros x Hx. apply Nat.ltb_ge. by apply bucket_mono, Hhigh.
  - rewrite (count_all _ (take j l)).
    + rewrite length_take. unfold count. simpl.
      pose proof (count_bounds (fun x => (bucket x <? S (bucket d))%nat) (drop (S j) l)) as Hc.
      unfold count in Hc. destruct (Nat.ltb_spec (bucket d) (S (bucket d))); lia.
    + intros x Hx. apply Nat.ltb_lt. pose proof (bucket_mono x d (Hlow x Hx)). lia.
Qed.

Lemma rank_bounds n pct : 0 < n -> 0 < pct <= 100 -> 0 < rank n pct <= n.
Proof.
  intros Hn Hp. unfold rank. assert (0 < n * pct <= n * 100) as H by nia. set (m := n * pct) in *.
  pose proof (Z.div_mod (- m) 100 ltac:(lia)). pose proof (Z.mod_pos_bound (- m) 100). lia.
Qed.

(** The percentile read off the histogram of a list of durations. *)
Lemma percentile_of_merged ds pct h :
  ds <> [] -> 0 < pct <= 100 -> merge_durations new_histogram ds = Ok h ->
  exists d, sorted_durations ds !! Z.to_nat (rank (Z.of_nat (length ds)) pct - 1) = Some d
    /\ percentile_from_histogram h (Z.of_nat (length ds)) pct
       = Ok (Some (midpoint (Z.to_nat (get_bucket_index d)))).
Proof.
  intros Hne Hp Hm. destruct (histogram_prefix ds h Hm) as (Hl & Hpos & Hpre).
  assert (0 < Z.of_nat (length ds)) as Hlen by (destruct ds; simpl in *; [done|lia]).
  pose proof (rank_bounds _ pct Hlen Hp) as Hr. set (k := rank _ pct) in *.
  assert (length (sorted_durations ds) = length ds) as Hsl.
  { apply Permutation_length, merge_sort_Permutation. }
  destruct (lookup_lt_is_Some_2 (sorted_durations ds) (Z.to_nat (k - 1))) as [d Hd]; [lia|].
  exists d. split; [done|].
  destruct (sorted_rank _ _ _ (StronglySorted_merge_sort Z.le ds) Hd) as [H1 H2].
  rewrite (count_Permutation _ _ ds) in H1 by apply merge_sort_Permutation.
  rewrite (count_Permutation _ _ ds) in H2 by apply merge_sort_Permutation.
  unfold percentile_from_histogram.
  destruct h as [|c h]; [done|]. rewrite bool_decide_false, orb_false_r by done.
  destruct (_ <=? 0) eqn:E; [lia|].
  pose proof (bucket_lt d). apply (percentile_loop_spec (c :: h) k (bucket d)); [done..| |done|lia].
  rewrite !Hpre by lia. lia.
Qed.

Lemma merge_durations_app h ds1 ds2 :
  merge_durations h (ds1 ++ ds2) = (let* h := merge_durations h ds1 in merge_durations h ds2).
Proof.
  revert h. induction ds1 as [|d ds1 IH]; intros h; [done|]. simpl. destruct (h !! _); [apply IH|done].
Qed.

(** ** Properties *)

(** The percentile read off a histogram is the midpoint of the bucket that holds
    the exact (nearest-rank) percentile of the recorded durations. *)
Theorem percentile_nearest_rank ds pct :
  ds <> [] -> 0 < pct <= 100 ->
  exists h d,
    merge_durations new_histogram ds = Ok h
    /\ sorted_durations ds !! Z.to_nat (rank (Z.of_nat (length ds)) pct - 1) = Some d
    /\ percentile_from_histogram h (Z.of_nat (length ds)) pct
       = Ok (Some (midpoint (Z.to_nat (get_bucket_index d)))).
Proof.
  intros Hne Hp. destruct (merge_durations_ok new_histogram ds) as (h & Hm & _); [done|].
  destruct (percentile_of_merged ds pct h Hne Hp Hm) as (d & ? & ?). eauto.
Qed.

Lemma percentile_nearest_rank_witness :
  exists h d, merge_durations new_histogram [ms 3; ms 70000; ms 12] = Ok h
    /\ sorted_durations [ms 3; ms 70000; ms 12] !! 1%nat = Some d
    /\ percentile_from_histogram h 3 50 = Ok (Some (midpoint (Z.to_nat (get_bucket_index d)))).
Proof. apply (percentile_nearest_rank [ms 3; ms 70000; ms 12] 50); [done|lia]. Defined.

(** The bucket of a duration between the extremes is the one whose boundaries
    enclose it, and every duration has one of the 50 buckets. *)
Theorem get_bucket_index_encloses d :
  0 <= get_bucket_index d < 50
  /\ (MIN_MS < d < MAX_MS ->
      exists lo hi, BUCKET_BOUNDARIES !! Z.to_nat (get_bucket_index d) = Some lo
        /\ BUCKET_BOUNDARIES !! Z.to_nat (get_bucket_index d + 1) = Some hi /\ lo <= d < hi).
Proof.
  split; [apply get_bucket_index_bounds|]. intros [Hlo Hhi].
  unfold get_bucket_index. destruct (d <=? MIN_MS) eqn:?, (MAX_MS <=? d) eqn:?; try lia.
  pose proof (bisect_right_bounds BUCKET_BOUNDARIES d) as Hb.
  set (p := bisect_right BUCKET_BOUNDARIES d) in *.
  destruct (bisect_right_spec BUCKET_BOUNDARIES d (Z.to_nat p)) as [H1 H2]; [lia|].
  assert (0 < p) as Hp0.
  { destruct (decide (p = 0)) as [E|]; [|lia]. exfalso. rewrite E in H2.
    specialize (H2 MIN_MS eq_refl). lia. }
  assert (p < 51) as Hp1.
  { destruct (decide (p < 51)); [done|]. exfalso.
    specialize (H1 50%nat MAX_MS ltac:(lia) eq_refl). lia. }
  rewrite Z.max_r, Z.min_l by (unfold NUM_BUCKETS; lia).
  destruct (lookup_lt_is_Some_2 BUCKET_BOUNDARIES (Z.to_nat (p - 1))) as [lo El]; [simpl; lia|].
  destruct (lookup_lt_is_Some_2 BUCKET_BOUNDARIES (Z.to_nat p)) as [hi Eh]; [simpl; lia|].
  exists lo, hi. replace (p - 1 + 1) with p by lia. split_and!; [done..| |by apply H2].
  apply (H1 (Z.to_nat (p - 1))); [lia|done].
Qed.

Lemma get_bucket_index_encloses_witness :
  exists lo hi, BUCKET_BOUNDARIES !! 4%nat = Some lo /\ BUCKET_BOUNDARIES !! 5%nat = Some hi
    /\ lo <= ms 3 < hi.
Proof.
  refine (proj2 (get_bucket_index_encloses (ms 3)) _). vm_compute. done.
Defined.
