(* ===== verification/IngestUtils.v ===== *)
(** * Grouping and cleaning helpers of the ingest pipeline

    [apps/event_ingest/utils.py] and [apps/performance/parameterize.py]: the
    grouping hash, best-effort message formatting, the removal of characters
    PostgreSQL rejects, and the parameterization of span descriptions.  MD5 and the
    two formatting operators of Python strings are parameters. *)
From S2P Require Import Prelude PyStr Regex PyValue.

(** ** Grouping hash *)

(** [IssueEventType]; [str(type)] is its number. *)
Inductive IssueEventType := ETDefault | ETError | ETCsp.

#[global] Instance IssueEventType_eq_dec : EqDecision IssueEventType.
Proof. solve_decision. Defined.

Definition type_str (t : IssueEventType) : ustr :=
  match t with ETDefault => u "0" | ETError => u "1" | ETCsp => u "2" end.

Definition default_hash_input (title culprit : ustr) (type : IssueEventType) : ustr :=
  title ++ culprit ++ type_str type.

(** The text [generate_hash] hashes. *)
Definition hash_input (title culprit : ustr) (type : IssueEventType)
    (extra : option (list (option ustr))) : ustr :=
  match extra with
  | Some ((_ :: _) as parts) =>
      concat (map (fun part =>
        match part with
        | Some p => if ustr_eqb p (u "{{ default }}")
                    then default_hash_input title culprit type else p
        | None => []
        end) parts)
  | _ => default_hash_input title culprit type
  end.

Definition generate_hash (md5_hexdigest : ustr -> ustr) (title culprit : ustr)
    (type : IssueEventType) (extra : option (list (option ustr))) : ustr :=
  md5_hexdigest (hash_input title culprit type extra).

Example hash_input_fingerprint :
  hash_input (u "Boom") (u "f") ETError (Some [Some (u "{{ default }}"); None; Some (u "db")])
  = u "Boomf1db".
Proof. by_compute. Qed.

(** ** Parameterized messages *)

Inductive message_params :=
| PNone
| PList (l : list (option ustr))
| PDict (d : list (ustr * option ustr)).

Record EventMessage := {
  formatted : ustr;
  template : option ustr;          (* the field [message] *)
  params : message_params;
}.

Section transform.
(** [s % tuple(l)] and [s.format( **d )]. *)
Context (percent_format : ustr -> list (option ustr) -> res ustr)
        (str_format : ustr -> list (ustr * option ustr) -> res ustr).

(** The exceptions [transform_parameterized_message] catches. *)
Definition caught (e : exn) : bool :=
  match e with TypeError | ValueError | KeyError | IndexError => true | _ => false end.

Definition or_template (r : res ustr) (raw : ustr) : res ustr :=
  match r with
  | Ok s => Ok s
  | Raise e => if caught e then Ok raw else Raise e
  end.

Definition transform_parameterized_message (message : ustr + EventMessage) : res ustr :=
  match message with
  | inl s => Ok s
  | inr m =>
      let raw := default [] (template m) in
      if negb (truthy (formatted m)) && truthy raw then
        match params m with
        | PList ((_ :: _) as l) => or_template (percent_format raw l) raw
        | PDict d => or_template (str_format raw d) raw
        | _ => Ok raw
        end
      else Ok (formatted m)
  end.
End transform.

(** ** Characters PostgreSQL cannot store *)

Definition KNOWN_BADS : list Z := [0].

Definition clean_string (s : ustr) : ustr :=
  fold_left (fun s char => replace [char] [] s) KNOWN_BADS s.

(** Keys of event data come from JSON, so they are strings. *)
Definition clean_key (key : dkey) : dkey :=
  match key with KStr s => KStr (clean_string s) | KInt n => KInt n end.

Fixpoint remove_bad_chars (obj : value) : value :=
  match obj with
  | VDict d =>
      VDict (fold_left (fun acc kv => dset kv.1 kv.2 acc)
               ((fix go d := match d with
                             | [] => []
                             | (key, v) :: r => (clean_key key, remove_bad_chars v) :: go r
                             end) d) [])
  | VList l | VTuple l => VList (map remove_bad_chars l)
  | VStr s => VStr (clean_string s)
  | _ => obj
  end.

(** ** Span descriptions *)

Definition MAX_DESCRIPTION_LENGTH : Z := 500.

Definition quote : regex := RClass (Z.eqb 39).
Definition backslash : regex := RClass (Z.eqb 92).
Definition STRING_LITERAL_RE : regex :=
  RSeq quote
    (RSeq (RStar true (RAlt (RClass (fun c => negb (c =? 39) && negb (c =? 92)))
                            (RSeq backslash RAny)))
          quote).

Definition digit : regex := RClass is_digit.
Definition NUMERIC_LITERAL_RE : regex :=
  RSeq RWordB (RSeq (RPlus digit) (RSeq (ROpt (RSeq (RLit ".") (RPlus digit))) RWordB)).

Definition spaces : regex := RStar true (RClass is_space).
Definition IN_COLLAPSE_RE : regex :=
  RSeq (RLitCI "IN") (RSeq spaces (RSeq (RLit "(") (RSeq spaces
    (RSeq (RGroup 1 (RSeq (RLitCI "%s")
                          (RStar true (RSeq spaces (RSeq (RLit ",") (RSeq spaces (RLitCI "%s")))))))
      (RSeq spaces (RLit ")")))))).

(** [(?=/|$)] *)
Definition segment_end : regex := RAhead (RAlt (RLit "/") REnd).
Definition slash : regex := RClass (Z.eqb 47).
Definition NUMERIC_PATH_RE : regex := RSeq slash (RSeq (RPlus digit) segment_end).

Definition hex_ci : regex :=
  RClass (fun c => in_range 97 102 (lower_char c) || is_digit c).
Definition hexes (n : nat) : regex := RRange n 0 hex_ci.
Definition UUID_PATH_RE : regex :=
  RSeq slash (RSeq (hexes 8) (RSeq (RLit "-") (RSeq (hexes 4) (RSeq (RLit "-")
    (RSeq (hexes 4) (RSeq (RLit "-") (RSeq (hexes 4) (RSeq (RLit "-")
      (RSeq (hexes 12) segment_end))))))))).
Definition HEX_PATH_RE : regex :=
  RSeq slash (RSeq (RSeq (hexes 32) (RStar true hex_ci)) segment_end).

Definition parameterize_sql (desc : ustr) : ustr :=
  let result := re_sub_str STRING_LITERAL_RE (u "%s") desc in
  let result := re_sub_str NUMERIC_LITERAL_RE (u "%s") result in
  re_sub_str IN_COLLAPSE_RE (u "IN (%s)") result.

(** [desc.split(c)[0]] *)
Definition first_part (c : Z) (s : ustr) : ustr := hd [] (split_on c s).

Definition parameterize_url (desc : ustr) : ustr :=
  let base := first_part (ch "#") (first_part (ch "?") desc) in
  let result := re_sub_str UUID_PATH_RE (u "/%s") base in
  let result := re_sub_str HEX_PATH_RE (u "/%s") result in
  re_sub_str NUMERIC_PATH_RE (u "/%s") result.

Definition parameterize_description (op : ustr) (desc : option ustr) : ustr :=
  match desc with
  | None | Some [] => []
  | Some d =>
      let result :=
        if startswith (u "db") op then parameterize_sql d
        else if startswith (u "http") op then parameterize_url d
        else re_sub_str NUMERIC_PATH_RE (u "/%s") d in
      slice_to MAX_DESCRIPTION_LENGTH result
  end.

Example parameterize_in_list :
  parameterize_sql (u "SELECT * FROM t1 WHERE a = 'it\'s' AND id IN (1, 2.5,3)")
  = u "SELECT * FROM t1 WHERE a = %s AND id IN (%s)".
Proof. by_compute. Qed.

Example parameterize_api_url :
  parameterize_url (u "/api/0123abcd-0000-1111-2222-0123456789AB/items/42?page=3")
  = u "/api/%s/items/%s".
Proof. by_compute. Qed.

(** ** Cleaning removes every bad character *)

(** A value PostgreSQL stores: no NUL in any string or key; the values the walk
    builds have lists only and unique keys. *)
Definition clean_ustr (s : ustr) : Prop := 0 ∉ s.
Definition clean_dkey (key : dkey) : Prop := match key with KStr s => clean_ustr s | KInt _ => True end.

Inductive storable : value -> Prop :=
| St_none : storable VNone
| St_bool b : storable (VBool b)
| St_int n : storable (VInt n)
| St_float m e : storable (VFloat m e)
| St_str s : clean_ustr s -> storable (VStr s)
| St_list l : Forall storable l -> storable (VList l)
| St_dict d : dict_wf d -> Forall (fun kv => clean_dkey kv.1 /\ storable kv.2) d ->
    storable (VDict d).

Lemma clean_string_spec s : clean_string s = filter (fun c => c <> 0) s.
Proof. unfold clean_string. simpl. apply replace_char_nil. Qed.

Lemma clean_string_clean s : clean_ustr (clean_string s).
Proof. unfold clean_ustr. rewrite clean_string_spec. by intros [? _]%list_elem_of_filter. Qed.

Lemma clean_string_id s : clean_ustr s -> clean_string s = s.
Proof.
  intros H. rewrite clean_string_spec. apply filter_all, Forall_forall.
  intros x Hx ->. by apply H.
Qed.

Lemma clean_key_clean key : clean_dkey (clean_key key).
Proof. destruct key; [apply clean_string_clean|done]. Qed.

Lemma clean_key_id key : clean_dkey key -> clean_key key = key.
Proof. destruct key; [|done]. intros H. simpl. by rewrite clean_string_id. Qed.

Definition clean_entries (d : pydict) : Prop :=
  Forall (fun kv => clean_dkey kv.1 /\ storable kv.2) d.

Lemma clean_entries_dset key v d :
  clean_dkey key -> storable v -> clean_entries d -> clean_entries (dset key v d).
Proof.
  intros Hk Hv. unfold clean_entries. induction 1 as [|[k' v'] d [??] Hd IH]; simpl.
  - by repeat constructor.
  - destruct (decide (k' = key)) as [->|]; repeat constructor; done.
Qed.

(** The dictionary built entry by entry. *)
Definition build_dict (l : pydict) : pydict :=
  fold_left (fun acc (kv : dkey * value) => dset kv.1 kv.2 acc) l [].

Lemma build_dict_snoc l kv : build_dict (l ++ [kv]) = dset kv.1 kv.2 (build_dict l).
Proof. unfold build_dict. by rewrite fold_left_app. Qed.

Lemma dset_keys key v d : (dset key v d).*1 = if decide (key ∈ d.*1) then d.*1 else d.*1 ++ [key].
Proof.
  induction d as [|[k' v'] d IH]; [done|]. cbn [dset].
  destruct (decide ((k', v').1 = key)) as [Hk|Hne]; rewrite !fmap_cons; cbn [fst] in *.
  - rewrite Hk. clear IH. case_decide as Hin; [done|]. destruct Hin. left.
  - rewrite IH. clear IH. destruct (decide (key ∈ d.*1)), (decide (key ∈ k' :: d.*1)) as [Hin|Hin]; try done.
    + destruct Hin. by right.
    + apply elem_of_cons in Hin as [?|?]; congruence.
Qed.

Lemma dict_wf_dset key v d : dict_wf d -> dict_wf (dset key v d).
Proof.
  unfold dict_wf. intros H. rewrite dset_keys. case_decide as Hin; [done|].
  apply NoDup_app. split_and!; [done| |by apply NoDup_singleton].
  intros x Hx ->%list_elem_of_singleton. done.
Qed.

Lemma build_dict_wf l : dict_wf (build_dict l).
Proof.
  induction l as [|kv l IH] using rev_ind; [by apply NoDup_nil_2|].
  rewrite build_dict_snoc. by apply dict_wf_dset.
Qed.

Lemma build_dict_clean l : clean_entries l -> clean_entries (build_dict l).
Proof.
  induction l as [|kv l IH] using rev_ind; [done|]. intros [Hl [[??] _]%Forall_cons]%Forall_app.
  rewrite build_dict_snoc. by apply clean_entries_dset; [..|apply IH].
Qed.

Lemma dset_fresh key v d : key ∉ d.*1 -> dset key v d = d ++ [(key, v)].
Proof.
  induction d as [|[k' v'] d IH]; simpl; intros H; [done|].
  rewrite decide_False by (intros ->; apply H; left). rewrite IH; [done|].
  intros ?. apply H. by right.
Qed.

Lemma build_dict_id l : dict_wf l -> build_dict l = l.
Proof.
  unfold dict_wf. induction l as [|[key v] l IH] using rev_ind; [done|].
  rewrite fmap_app. intros (Hl & Hd & _)%NoDup_app. rewrite build_dict_snoc, IH by done.
  apply dset_fresh. intros Hin. by apply (Hd key Hin), list_elem_of_singleton.
Qed.

Definition clean_entry (kv : dkey * value) : dkey * value := (clean_key kv.1, remove_bad_chars kv.2).

Lemma remove_bad_chars_dict d :
  remove_bad_chars (VDict d) = VDict (build_dict (map clean_entry d)).
Proof.
  simpl. unfold build_dict. do 2 f_equal. induction d as [|[key v] d IH]; simpl; [done|]. by rewrite IH.
Qed.

Lemma remove_bad_chars_storable v : storable (remove_bad_chars v).
Proof.
  induction v as [| | | |s|l IH|l IH|d IH] using value_rect'; simpl; try by constructor.
  - constructor. apply clean_string_clean.
  - constructor. by apply Forall_map.
  - constructor. by apply Forall_map.
  - change (storable (remove_bad_chars (VDict d))). rewrite remove_bad_chars_dict.
    constructor; [apply build_dict_wf|]. apply build_dict_clean, Forall_map.
    eapply Forall_impl; [exact IH|]. intros [key v] Hv. split; [apply clean_key_clean|done].
Qed.

Lemma map_id_Forall {A} (f : A -> A) l : Forall (fun x => f x = x) l -> map f l = l.
Proof. induction 1; simpl; congruence. Qed.

Lemma storable_remove_id v : storable v -> remove_bad_chars v = v.
Proof.
  induction v as [| | | |s|l IH|l IH|d IH] using value_rect'; intros Hs; try done.
  - inversion_clear Hs. simpl. by rewrite clean_string_id.
  - inversion_clear Hs as [| | | | |? Hl|]. simpl. f_equal. apply map_id_Forall.
    rewrite Forall_forall in *. eauto.
  - inversion Hs.
  - inversion_clear Hs as [| | | | | |? Hd Hl]. rewrite remove_bad_chars_dict.
    rewrite map_id_Forall; [by rewrite build_dict_id|].
    rewrite Forall_forall in *. intros [key v] Hin. unfold clean_entry. simpl.
    destruct (Hl _ Hin). specialize (IH _ Hin). simpl in *. by rewrite clean_key_id, IH.
Qed.

(** ** A numeric path segment *)

Lemma segment_end_inv a c :
  denotes segment_end a c -> a = c /\ (at_end a = true \/ exists r, after a = 47 :: r).
Proof.
  intros (-> & b & Hb)%denotes_ahead_inv. split; [done|].
  apply denotes_alt_inv in Hb as [Hl|He].
  - apply denotes_lit_inv in Hl. right. exists (after b). exact Hl.
  - left. by inversion He.
Qed.

Lemma digits_inv st st' :
  denotes (RPlus digit) st st' ->
  exists c t, Forall (fun c => is_digit c = true) (c :: t) /\ before st' = rev (c :: t) ++ before st
    /\ after st = (c :: t) ++ after st' /\ caps st' = caps st.
Proof.
  intros (m & H1 & H2)%denotes_seq_inv. apply denotes_class_inv in H1 as (c & rest & Ha & Hc & ->).
  apply denotes_star_class in H2 as (t & Hall & Hb & Hat & Hcaps). simpl in *.
  exists c, t. rewrite Hb, Ha, Hat. simpl. rewrite <- app_assoc. split_and!; try done. by constructor.
Qed.

Lemma digits_denote ds bef aft cs :
  ds <> [] -> Forall (fun c => is_digit c = true) ds ->
  denotes (RPlus digit) (RState bef (ds ++ aft) cs) (RState (rev ds ++ bef) aft cs).
Proof.
  intros Hne Hall. destruct ds as [|c ds]; [done|]. apply Forall_cons in Hall as [Hc Hall].
  eapply D_seq; [by apply (D_class is_digit (RState bef ((c :: ds) ++ aft) cs))|].
  unfold step_char. simpl. rewrite <- app_assoc. by apply star_class_denotes.
Qed.

(** The segment ends the text or is followed by a slash. *)
Definition ends_segment (b : ustr) : Prop := b = [] \/ exists r, b = 47 :: r.

Lemma numeric_path_inv bef aft st' :
  denotes NUMERIC_PATH_RE (RState bef aft []) st' ->
  exists c t, Forall (fun c => is_digit c = true) (c :: t)
    /\ aft = 47 :: (c :: t) ++ after st' /\ before st' = rev (c :: t) ++ 47 :: bef /\ caps st' = []
    /\ (at_end st' = true \/ exists r, after st' = 47 :: r).
Proof.
  intros (m & H1 & H)%denotes_seq_inv. apply denotes_class_inv in H1 as (s & rest & Ha & Hs & ->).
  apply Z.eqb_eq in Hs. subst s. apply denotes_seq_inv in H as (m & H2 & H3).
  apply digits_inv in H2 as (c & t & Hall & Hb & Hat & Hcaps). simpl in *.
  apply segment_end_inv in H3 as [-> Hend]. exists c, t. rewrite Ha, Hat. eauto 6.
Qed.

Lemma numeric_path_match bef ds b :
  ds <> [] -> Forall (fun c => is_digit c = true) ds -> ends_segment b ->
  match_at NUMERIC_PATH_RE false bef (47 :: ds ++ b) = Some (RState (rev ds ++ 47 :: bef) b []).
Proof.
  intros Hne Hds Hb.
  destruct (match_at NUMERIC_PATH_RE false bef (47 :: ds ++ b)) as [st'|] eqn:E.
  - apply match_at_Some in E as (_ & _ & _ & _ & Hd & _).
    apply numeric_path_inv in Hd as (c & t & Hall & Ha & Hbf & Hc & Hend).
    injection Ha as Ha. change (ds ++ b = (c :: t) ++ after st') in Ha.
    assert (c :: t = ds) as Hct.
    { destruct (app_eq_inv _ _ _ _ Ha) as [(l & E1 & E2)|(l & E1 & E2)].
      - destruct l as [|x l]; [by rewrite app_nil_r in E1|]. exfalso.
        rewrite E1 in Hds. apply Forall_app in Hds as [_ [Hx _]%Forall_cons].
        destruct Hend as [He|[r He]].
        + unfold at_end in He. rewrite E2 in He. simpl in He. destruct (l ++ b); [|done].
          apply Z.eqb_eq in He. by subst x.
        + rewrite E2 in He. injection He as ->. done.
      - destruct l as [|x l]; [by rewrite app_nil_r in E1|]. exfalso.
        rewrite E1 in Hall. apply Forall_app in Hall as [_ [Hx _]%Forall_cons].
        destruct Hb as [->|[r ->]]; [done|]. by injection E2 as <-. }
    destruct st' as [bf af cs]. simpl in *. subst. by simplify_list_eq.
  - exfalso. eapply rmatch_complete; [| |exact E]; [|done].
    eapply D_seq; [by apply (D_class (Z.eqb 47) (RState bef (47 :: ds ++ b) []))|].
    eapply D_seq; [by apply digits_denote|].
    destruct Hb as [->|[r ->]].
    + eapply D_ahead, D_alt_r. by apply D_end.
    + eapply D_ahead, D_alt_l. eapply D_seq; [|apply D_eps].
      by apply (D_class (Z.eqb 47) (RState _ (47 :: r) [])).
Qed.

Lemma numeric_path_no_digit bef aft :
  Forall (fun c => is_digit c = false) (tail aft) \/ hd 0 aft <> 47
  \/ (exists c r, tail aft = c :: r /\ is_digit c = false) ->
  match_at NUMERIC_PATH_RE false bef aft = None.
Proof.
  intros H. apply match_at_None_intro.
  intros st' (c & t & [Hc _]%Forall_cons & -> & _)%numeric_path_inv.
  destruct H as [[H _]%Forall_cons|[H|(c' & r & [= -> _] & H)]]; simpl in *; congruence.
Qed.

(** ** Properties *)

(** After cleaning, no string or key of a value holds a NUL, lists and
    dictionaries are of the stored shape, and a value that can be stored already is
    left as it is (so cleaning twice is cleaning once). *)
Theorem remove_bad_chars_spec v :
  storable (remove_bad_chars v)
  /\ (storable v -> remove_bad_chars v = v)
  /\ remove_bad_chars (remove_bad_chars v) = remove_bad_chars v.
Proof.
  split_and!; [apply remove_bad_chars_storable|apply storable_remove_id|].
  apply storable_remove_id, remove_bad_chars_storable.
Qed.

Lemma remove_bad_chars_spec_witness :
  remove_bad_chars (VList [VStr [97]; VNone]) = VList [VStr [97]; VNone].
Proof.
  refine (proj1 (proj2 (remove_bad_chars_spec (VList [VStr [97]; VNone]))) _).
  repeat constructor. by intros ?%list_elem_of_singleton.
Defined.

(** In a description outside databases and HTTP, a numeric path segment is
    replaced by the placeholder, whatever the number: descriptions that differ in it
    alone fall in one group. *)
Theorem numeric_segment_grouped op a ds b :
  startswith (u "db") op = false -> startswith (u "http") op = false ->
  Forall (fun c => is_digit c = false) a -> Forall (fun c => is_digit c = false) b ->
  ds <> [] -> Forall (fun c => is_digit c = true) ds -> ends_segment b ->
  parameterize_description op (Some (a ++ (u "/" ++ ds) ++ b))
  = slice_to MAX_DESCRIPTION_LENGTH (a ++ u "/%s" ++ b).
Proof.
  intros Hdb Hhttp Ha Hb Hne Hds Hend. unfold parameterize_description. rewrite Hdb, Hhttp.
  change (u "/" ++ ds) with (47 :: ds). unfold re_sub_str.
  rewrite (re_sub_single NUMERIC_PATH_RE _ a (47 :: ds) b []).
  - by destruct a.
  - intros a1 c a2 ->. apply numeric_path_no_digit. right; right. simpl.
    apply Forall_app in Ha as [_ [_ Ha]%Forall_cons].
    destruct a2 as [|c' a2]; simpl; [by eexists _, _|]. apply Forall_cons in Ha as [? _]. eauto.
  - simpl. rewrite <- app_assoc. by apply numeric_path_match.
  - done.
  - intros bef b1 b2 ->. apply numeric_path_no_digit. left.
    apply Forall_app in Hb as [_ Hb]. by destruct Hb.
Qed.

Lemma numeric_segment_grouped_witness :
  parameterize_description (u "template.render") (Some (u "GET /user/" ++ u "" ++ u "x"))
    = u "GET /user/x"
  /\ parameterize_description (u "template.render") (Some (u "GET /user" ++ (u "/" ++ u "123") ++ u "/edit"))
    = slice_to MAX_DESCRIPTION_LENGTH (u "GET /user" ++ u "/%s" ++ u "/edit").
Proof.
  split; [by_compute|]. apply numeric_segment_grouped; [by_compute|by_compute|by_decide|by_decide|done|by_decide|].
  right. by eexists.
Defined.

(** Formatting a message raises exactly when [%] or [str.format] raises an
    exception the handler does not list (an attribute error of a field such as [{a.b}]);
    otherwise the text is the formatted one, or the raw template when formatting fails. *)
Theorem transform_raises_only_uncaught pf sf message e :
  transform_parameterized_message pf sf message = Raise e <->
  exists m raw, message = inr m /\ template m = Some raw /\ raw <> [] /\ formatted m = []
    /\ caught e = false
    /\ ((exists p l, params m = PList (p :: l) /\ pf raw (p :: l) = Raise e)
        \/ (exists d, params m = PDict d /\ sf raw d = Raise e)).
Proof.
  split.
  - destruct message as [s|m]; [done|]. simpl.
    destruct (formatted m) eqn:Ef; [|done]. simpl.
    destruct (template m) as [raw|] eqn:Et; simpl; [|done].
    destruct raw as [|c raw]; simpl; [done|].
    destruct (params m) as [|[|p l]|d] eqn:Ep; try done; intros H;
      exists m, (c :: raw); unfold or_template in H.
    + destruct (pf _ _) as [|e'] eqn:E; [done|]. destruct (caught e') eqn:Ec; simplify_eq.
      split_and!; [done..|left; eauto].
    + destruct (sf _ _) as [|e'] eqn:E; [done|]. destruct (caught e') eqn:Ec; simplify_eq.
      split_and!; [done..|right; eauto].
  - intros (m & raw & -> & Et & Hne & Ef & Hc & H). simpl. rewrite Ef, Et. simpl.
    destruct raw; [done|]. simpl.
    destruct H as [(p & l & -> & ->)|(d & -> & ->)]; simpl; by rewrite Hc.
Qed.

(** With a template that reads an attribute of a parameter the handler fails: a
    formatter that raises as Python's does on ["{a.b}"]. *)
Example attribute_template_raises :
  transform_parameterized_message (fun _ _ => Raise TypeError) (fun _ _ => Raise AttributeError)
    (inr {| formatted := []; template := Some (u "{a.b}"); params := PDict [(u "a", Some (u "x"))] |})
  = Raise AttributeError.
Proof. reflexivity. Qed.
