(* ===== verification/FunctionNames.v ===== *)
(** * Trimming of native function names: [sentry/stacktraces/functions.py]

    [replace_enclosed_string], [split_func_tokens] and [trim_function_name], with
    the regular expressions as the source writes them.  The loop over C++ trailers
    and the recursion of [process_generics] run on fuel, the length of the text:
    each turn works on a strictly shorter string. *)
From S2P Require Import Prelude PyStr Regex PyValue.

(** ** [platform.py] *)

Definition NATIVE_PLATFORMS : list ustr := map u ["objc"; "cocoa"; "swift"; "native"; "c"]%string.
Definition JAVASCRIPT_PLATFORMS : list ustr := map u ["javascript"; "node"]%string.

Inductive family := FNative | FJavascript | FOther.

Definition value_in (v : value) (l : list ustr) : bool :=
  match v with VStr s => bool_decide (s ∈ l) | _ => false end.

Definition get_behavior_family_for_platform (platform : value) : family :=
  if value_in platform NATIVE_PLATFORMS then FNative
  else if value_in platform JAVASCRIPT_PLATFORMS then FJavascript else FOther.

(** ** Patterns *)

Definition hex_lower (c : Z) : bool := in_range 97 102 c || is_digit c.

Definition windecl_hash : regex :=
  RSeq RBegin (RSeq (ROpt (RLit "@")) (RSeq (RGroup 1 (RStar false RAny))
    (RSeq (RLit "@") (RSeq (RPlus (RClass is_digit)) REnd)))).
Definition rust_hash : regex :=
  RSeq (RLit "::h") (RSeq (RRange 16 0 (RClass (fun c => is_lower c || is_digit c))) REnd).
Definition cpp_trailer_re : regex :=
  RSeq (RGroup 1 (RAlt (RSeq RWordB (RSeq (RLit "const") RWordB)) (RLit "&"))) REnd.
Definition rust_blanket_re : regex :=
  RSeq RBegin (RGroup 1 (RSeq (RClass is_upper) (RLit " as "))).
Definition lambda_re : regex :=
  RAlt (RSeq (RLit "{lambda(") (RSeq (RStar false RAny)
          (RSeq (RLit ")#") (RSeq (RPlus (RClass is_digit)) (RLit "}")))))
    (RAlt (RSeq RWordB (RSeq (RLit "lambda_") (RSeq (RRange 32 0 (RClass hex_lower)) RWordB)))
          (RSeq (RLit "$_") (RSeq (RPlus (RClass is_digit)) RWordB))).
Definition anon_namespace_re : regex :=
  RSeq (RLit "?A0x") (RSeq (RRange 8 0 (RClass hex_lower)) (RLit "::")).

(** ** [replace_enclosed_string] *)

(** The loop: [idx] is the index of the next character of [rest] in [s]. *)
Fixpoint enclosed_loop (s : ustr) (op cl : Z) (repl : ustr -> nat -> ustr)
    (rest : ustr) (idx : nat) (depth : Z) (pair_start : nat) : ustr :=
  match rest with
  | [] => []
  | c :: rest' =>
      if c =? op then
        enclosed_loop s op cl repl rest' (S idx) (depth + 1)
          (if depth =? 0 then idx else pair_start)
      else if c =? cl then
        (if depth - 1 =? 0
         then repl (drop (pair_start + 1) (take idx s)) pair_start else [])
        ++ enclosed_loop s op cl repl rest' (S idx) (depth - 1) pair_start
      else
        (if depth =? 0 then [c] else [])
        ++ enclosed_loop s op cl repl rest' (S idx) depth pair_start
  end.

Definition replace_enclosed_string (s : ustr) (op cl : Z) (repl : ustr -> nat -> ustr) : ustr :=
  if contains [op] s then enclosed_loop s op cl repl s 0 0 0 else s.

(** ** [split_func_tokens] *)

Definition PAIRS (c : Z) : option Z :=
  if c =? ch "(" then Some (ch ")") else if c =? ch "{" then Some (ch "}")
  else if c =? ch "[" then Some (ch "]") else if c =? ch "<" then Some (ch ">") else None.

(** [pend] is [s[end:idx]], [buf] the pieces of the current token. *)
Fixpoint tokens_loop (s : ustr) (stack : list Z) (pend : ustr) (buf : list ustr) : list (list ustr) :=
  match s with
  | [] => match buf with [] => [] | _ => [buf] end
  | c :: r =>
      match PAIRS c with
      | Some closing => tokens_loop r (closing :: stack) (pend ++ [c]) buf
      | None =>
          match stack with
          | top :: stack' =>
              if c =? top then
                match stack' with
                | [] => tokens_loop r [] [] (buf ++ [pend ++ [c]])
                | _ => tokens_loop r stack' (pend ++ [c]) buf
                end
              else tokens_loop r stack (pend ++ [c]) buf
          | [] =>
              if is_space c then
                match buf with
                | [] => tokens_loop r [] [] []
                | _ => buf :: tokens_loop r [] [] []
                end
              else tokens_loop r [] [] (buf ++ [pend ++ [c]])
          end
      end
  end.

Definition split_func_tokens (s : ustr) : list ustr := map (@concat Z) (tokens_loop s [] [] []).

(** ** [trim_function_name] *)

(** [while True: match = _cpp_trailer_re.search(function) ...] *)
Fixpoint chop_trailers (fuel : nat) (f : ustr) : ustr :=
  match fuel with
  | O => f
  | S n => match re_search cpp_trailer_re f with
           | None => f
           | Some (start, _) => chop_trailers n (rstrip (take start f))
           end
  end.

Definition process_args (value : ustr) (_ : nat) : ustr :=
  let value := strip value in
  if bool_decide (value ∈ map u ["anonymous namespace"; "operator"]%string)
  then u "(" ++ value ++ u ")" else [].

(** [s.split(sep, 1)[0]] *)
Definition before_first (sep s : ustr) : ustr :=
  match find_str sep s with Some i => take i s | None => s end.

Fixpoint process_generics (fuel : nat) (value : ustr) (start : nat) : ustr :=
  match fuel with
  | O => value
  | S f =>
      if ustr_eqb value (u "lambda") || bool_decide (is_Some (re_match lambda_re value))
      then u "<" ++ value ++ u ">"
      else if (0 <? start)%nat then u "<T>"
      else
        let value := re_sub_str rust_blanket_re [] value in
        let value := replace_enclosed_string value (ch "<") (ch ">") (process_generics f) in
        before_first (u " as ") value
  end.

Definition hide_operators (f : ustr) : ustr :=
  replace (u "`anonymous namespace'") (u "〔anonymousnamespace〕")
    (replace (u " -> ") (u " ⟿ ")
      (replace (u "operator()") (u "operator◯")
        (replace (u "operator<") (u "operator⟨")
          (replace (u "operator<<") (u "operator⟨⟨") f)))).

Definition show_operators (f : ustr) : ustr :=
  replace (u "〔anonymousnamespace〕") (u "`anonymous namespace'")
    (replace (u " ⟿ ") (u " -> ") (replace (u "◯") (u "()") (replace (u "⟨") (u "<") f))).

(** The generics of an MSVC operator rejoin its name. *)
Definition rejoin_operator (tokens : list ustr) : list ustr :=
  match rev tokens with
  | t :: t2 :: front =>
      if ustr_eqb t (u "<T>") then rev ((t2 ++ u " <T>") :: front) else tokens
  | _ => tokens
  end.

(** [tokens[tokens.index("⟿") - 1]], or the last token. *)
Fixpoint index_of (x : ustr) (l : list ustr) : option Z :=
  match l with
  | [] => None
  | y :: r => if ustr_eqb x y then Some 0 else (fun i => i + 1) <$> index_of x r
  end.

Definition function_token (tokens : list ustr) : option ustr :=
  match index_of (u "⟿") tokens with
  | Some i => list_index tokens (i - 1)
  | None => last tokens
  end.

Definition trim_function_name (function : ustr) (platform : value) : ustr :=
  match get_behavior_family_for_platform platform with
  | FNative =>
      if bool_decide (function ∈ map u ["<redacted>"; "<unknown>"]%string) then function
      else
        let original_function := function in
        let f := strip function in
        if startswith (u "[") f || startswith (u "+[") f || startswith (u "-[") f then f
        else
          let f := chop_trailers (length f) f in
          let f := hide_operators f in
          let f := re_sub_str lambda_re (u "lambda") f in
          let f := re_sub_str anon_namespace_re (u "〔anonymousnamespace〕::") f in
          let f := replace_enclosed_string f (ch "(") (ch ")") process_args in
          let f := replace_enclosed_string f (ch "<") (ch ">") (process_generics (length f)) in
          let tokens := rejoin_operator (split_func_tokens f) in
          let f := match function_token tokens with
                   | Some t => if truthy t then show_operators t else original_function
                   | None => original_function
                   end in
          let f := re_sub_str rust_hash [] f in
          re_sub windecl_hash (fun _ g => default [] (group 1 g)) f
  | _ => function
  end.

(** [get_function_name_for_frame], on a frame dictionary. *)
Definition get_function_name_for_frame (frame platform : value) : res value :=
  let* raw := vget "raw_function" frame in
  let* function := vget "function" frame in
  if vtruthy raw then Ok function
  else if negb (vtruthy function) then Ok VNone
  else match function with
       | VStr f =>
           let* p := vget "platform" frame in
           Ok (VStr (trim_function_name f (vor p platform)))
       | _ => match get_behavior_family_for_platform
                      (match vget "platform" frame with Ok p => vor p platform | Raise _ => platform end) with
              | FNative => Raise AttributeError
              | _ => Ok function
              end
       end.

(** ** The fuel is enough *)

Lemma chop_search_shorter f i st :
  re_search cpp_trailer_re f = Some (i, st) -> (i < length f)%nat.
Proof.
  intros (a & b & -> & -> & Hd)%search_go_spec. simpl. rewrite length_app.
  apply denotes_seq_inv in Hd as (m & Hd & _). inversion Hd; subst.
  assert (b <> []); [|destruct b; simpl; [done|lia]].
  apply denotes_alt_inv in H3 as [H|H].
  - apply denotes_seq_inv in H as (m1 & H1 & H). apply denotes_wordb_inv in H1 as [<- _].
    apply denotes_seq_inv in H as (m2 & H & _). apply denotes_lit_inv in H. simpl in H. by rewrite H.
  - apply denotes_lit_inv in H. simpl in H. by rewrite H.
Qed.

Lemma length_lstrip_by p s : (length (lstrip_by p s) <= length s)%nat.
Proof. induction s as [|c s IH]; simpl; [done|]. destruct (p c); simpl; lia. Qed.

Lemma length_rstrip s : (length (rstrip s) <= length s)%nat.
Proof.
  unfold rstrip, rstrip_by. rewrite length_rev.
  pose proof (length_lstrip_by is_space (rev s)). by rewrite length_rev in *.
Qed.

Lemma chop_trailers_done fuel f :
  (length f <= fuel)%nat -> re_search cpp_trailer_re (chop_trailers fuel f) = None.
Proof.
  revert f. induction fuel as [|n IH]; intros f Hf; simpl.
  - destruct f; [by_compute|simpl in *; lia].
  - destruct (re_search cpp_trailer_re f) as [[i st]|] eqn:E; [|done].
    apply chop_search_shorter in E. apply IH.
    pose proof (length_rstrip (take i f)). rewrite length_take in *. lia.
Qed.

Lemma enclosed_loop_ext s op cl r1 r2 :
  (forall v i, (length v < length s)%nat -> r1 v i = r2 v i) ->
  forall rest idx depth ps, (idx + length rest <= length s)%nat ->
  enclosed_loop s op cl r1 rest idx depth ps = enclosed_loop s op cl r2 rest idx depth ps.
Proof.
  intros Hr. induction rest as [|c rest IH]; intros idx depth ps Hlen; simpl; [done|].
  simpl in Hlen. destruct (c =? op); [apply IH; lia|].
  destruct (c =? cl); f_equal; try (apply IH; lia).
  destruct (depth - 1 =? 0); [|done]. apply Hr. rewrite length_drop, length_take. lia.
Qed.

Lemma process_generics_fuel n : forall m value start,
  (length value < n)%nat -> (length value < m)%nat ->
  process_generics n value start = process_generics m value start.
Proof.
  induction n as [|n IH]; intros m value start Hn Hm; [lia|].
  destruct m as [|m]; [lia|]. simpl.
  destruct (_ || _); [done|]. destruct (0 <? start)%nat; [done|].
  pose proof (re_sub_delete_length rust_blanket_re value) as Hl.
  set (v := re_sub_str rust_blanket_re [] value) in *. f_equal.
  unfold replace_enclosed_string. destruct (contains _ v); [|done].
  apply enclosed_loop_ext; [|simpl; lia]. intros w i Hw. apply IH; lia.
Qed.

(** The opening character only reaches the output through the replacement. *)
Lemma enclosed_loop_no_open s op cl repl :
  (forall v i, op ∉ repl v i) ->
  forall rest idx depth ps, op ∉ enclosed_loop s op cl repl rest idx depth ps.
Proof.
  intros Hr. induction rest as [|c rest IH]; intros idx depth ps; simpl; [apply not_elem_of_nil|].
  destruct (c =? op) eqn:E; [apply IH|]. destruct (c =? cl); rewrite elem_of_app; intros [H|H].
  - destruct (depth - 1 =? 0); [by eapply Hr|by apply elem_of_nil in H].
  - by eapply IH.
  - destruct (depth =? 0); [|by apply elem_of_nil in H].
    apply list_elem_of_singleton in H. bool_split. congruence.
  - by eapply IH.
Qed.

(** ** Properties *)

(** Trimming terminates: the trailer loop stops with no C++ trailer left, and the
    recursion on generics never depends on its fuel once that exceeds the length
    of the text it works on. *)
Theorem trim_function_name_terminates f value start n :
  re_search cpp_trailer_re (chop_trailers (length f) f) = None
  /\ ((length value < n)%nat ->
      process_generics n value start = process_generics (S (length value)) value start).
Proof.
  split; [by apply chop_trailers_done|]. intros H. apply process_generics_fuel; lia.
Qed.

Lemma trim_function_name_terminates_witness :
  process_generics 40 (u "Foo<Bar<u8>> as Baz") 0 = process_generics 20 (u "Foo<Bar<u8>> as Baz") 0.
Proof.
  refine (proj2 (trim_function_name_terminates [] (u "Foo<Bar<u8>> as Baz") 0 40) _).
  vm_compute. lia.
Defined.

Example trim_cpp :
  trim_function_name (u "void foo::bar<Baz<int>>::operator()(x) const&") (VStr (u "native"))
  = u "foo::bar<T>::operator()".
Proof. by_compute. Qed.

Example trim_rust :
  trim_function_name (u "<Foo as Bar>::baz::h1234567890abcdef") (VStr (u "native")) = u "Foo::baz".
Proof. by_compute. Qed.
