(* ===== verification/EventTypes.v ===== *)
(** * Titles, culprits and locations of error events

    [sentry/utils/safe.py], [sentry/culprit.py], [sentry/eventtypes/error.py],
    [sentry/stacktraces/processing.py] and [platform.py]: the functions that turn
    the dictionary of an event into its metadata, title and location.  They read
    client data, so every dictionary access can raise: results are in [res].
    [json.dumps] and [str] of a value that is not a string are parameters. *)
From S2P Require Import Prelude PyStr Regex PyValue FunctionNames.

Definition MAX_CULPRIT_LENGTH : Z := 200.
Definition SENTRY_MAX_VARIABLE_SIZE : Z := 512.

(** ** [get_path] *)

(** One step of the loop of [get_path]: [Ok None] is [return default]; comparing
    a string with the bounds of a list is a [TypeError]. *)
Definition path_step (p : dkey) (data : value) : res (option value) :=
  match data with
  | VDict d => Ok (dlookup p d)
  | VList l | VTuple l =>
      match p with KInt i => Ok (list_index l i) | KStr _ => Raise TypeError end
  | _ => Ok None
  end.

Fixpoint get_path_opt (path : list dkey) (data : value) : res (option value) :=
  match path with
  | [] => Ok (Some data)
  | p :: rest =>
      let* next := path_step p data in
      match next with
      | Some data' => get_path_opt rest data'
      | None => Ok None
      end
  end.

Definition is_none (v : value) : bool := match v with VNone => true | _ => false end.

(** [get_path(data, *path, default=default)] *)
Definition get_path (path : list dkey) (default : value) (data : value) : res value :=
  let* found := get_path_opt path data in
  Ok (match found with
      | None => default
      | Some v => if is_none v then default else v
      end).

(** [get_path(data, *path, filter=True)] *)
Definition get_path_filter (path : list dkey) (data : value) : res value :=
  let* found := get_path_opt path data in
  Ok (match found with
      | None => VNone
      | Some (VList l) | Some (VTuple l) =>
          match l with
          | [] => default VNone found
          | _ => VList (filter (fun v => is_none v = false) l)
          end
      | Some v => v
      end).

Notation "'k' s" := (KStr (u s%string)) (at level 0, s at level 0, only parsing) : gt_scope.
Definition last_ix : dkey := KInt (-1).

(** ** [trim] *)

Section trim.
Context (json_dumps : value -> ustr) (force_str : value -> ustr).
Context (max_size : Z) (max_depth : nat).

(** The truncation of a string, [trim(value, _size=_size, max_size=max_size)]. *)
Definition trim_str (s : ustr) (size : Z) : value := VStr (truncatechars s (max_size - size)).

(** The loops over the members: stop once the budget is used up. *)
Fixpoint trim_items (trim1 : value -> Z -> value) (l : list value) (size : Z) : list value :=
  match l with
  | [] => []
  | v :: r =>
      let v' := trim1 v size in
      let size := size + len (force_str v') in
      v' :: if max_size <=? size then [] else trim_items trim1 r size
  end.

Fixpoint trim_entries (trim1 : value -> Z -> value) (d : pydict) (size : Z) : pydict :=
  match d with
  | [] => []
  | (key, v) :: r =>
      let v' := trim1 v size in
      let size := size + len (force_str v') + 1 in
      (key, v') :: if max_size <=? size then [] else trim_entries trim1 r size
  end.

(** [trim] at depth [depth]; [fuel] bounds the depth, see [trim]. *)
Fixpoint trim_at (sort_keys : pydict -> pydict) (fuel depth : nat) (v : value) (size : Z) : value :=
  match fuel with
  | O => v
  | S f =>
      if (max_depth <? depth)%nat then
        match v with
        | VStr s => trim_str s size
        | _ => trim_str (json_dumps v) size
        end
      else
        match v with
        | VDict d => VDict (trim_entries (trim_at sort_keys f (S depth)) (sort_keys d) (size + 2))
        | VList l => VList (trim_items (trim_at sort_keys f (S depth)) l (size + 2))
        | VTuple l => VTuple (trim_items (trim_at sort_keys f (S depth)) l (size + 2))
        | VStr s => trim_str s size
        | _ => v
        end
  end.

(** [sorted(value.keys())], for string keys. *)
Definition key_leb (a b : dkey * value) : Prop :=
  match a.1, b.1 with
  | KStr s, KStr t => ustr_ltb t s = false
  | KInt m, KInt n => m <= n
  | KInt _, KStr _ => True
  | KStr _, KInt _ => False
  end.
#[global] Instance key_leb_dec : RelDecision key_leb.
Proof. intros [[] ?] [[] ?]; unfold key_leb; simpl; apply _. Defined.
Definition sort_keys (d : pydict) : pydict := merge_sort key_leb d.

(** [trim(value, max_size)]; the depth check of the code ends the recursion
    after [max_depth + 2] nested calls. *)
Definition trim (v : value) : value := trim_at sort_keys (max_depth + 2) 0 v 0.
End trim.

(** ** Frames and culprits *)

Section culprit.
(** [str(v)] of a value that is not a string. *)
Context (py_repr : value -> ustr).

Definition str_of (v : value) : ustr := match v with VStr s => s | _ => py_repr v end.

(** [truncatechars] on a value that may not be a string. *)
Definition truncate_value (v : value) (chars : Z) : res value :=
  match v with
  | VStr s => Ok (VStr (truncatechars s chars))
  | VList l | VTuple l => if chars <? len l then Raise TypeError else Ok v
  | VDict d => if chars <? len d then Raise TypeError else Ok v
  | _ => Raise TypeError
  end.

Definition get_frame_culprit (frame platform : value) : res value :=
  let* fp := vget "platform" frame in
  let platform := vor fp platform in
  let* function := vget "function" frame in
  if value_in platform (map u ["objc"; "cocoa"; "native"]%string)
  then Ok (vor function (VStr (u "?")))
  else
    let* module_ := vget "module" frame in
    let* filename := vget "filename" frame in
    let fileloc := vor module_ filename in
    let function := str_of (vor function (VStr (u "?"))) in
    if negb (vtruthy fileloc) then Ok (VStr [])
    else if value_in platform (map u ["javascript"; "node"]%string)
    then Ok (VStr (function ++ u "(" ++ str_of fileloc ++ u ")"))
    else Ok (VStr (str_of fileloc ++ u " in " ++ function)).

(** The loop of [get_stacktrace_culprit] over [reversed(frames)]. *)
Fixpoint stacktrace_loop (platform : value) (frames : list value) (dflt : value) : res value :=
  match frames with
  | [] => Ok dflt
  | frame :: rest =>
      if negb (vtruthy frame) then stacktrace_loop platform rest dflt
      else
        let* in_app := vget "in_app" frame in
        if vtruthy in_app then
          let* culprit := get_frame_culprit frame platform in
          if vtruthy culprit then Ok culprit else stacktrace_loop platform rest dflt
        else if is_none dflt then
          let* culprit := get_frame_culprit frame platform in
          stacktrace_loop platform rest culprit
        else stacktrace_loop platform rest dflt
  end.

(** [reversed(x)] of a list, a [TypeError] otherwise. *)
Definition vreversed (x : value) : res (list value) :=
  match x with VList l | VTuple l => Ok (rev l) | _ => Raise TypeError end.

Definition get_stacktrace_culprit (stacktrace platform : value) : res value :=
  match stacktrace with
  | VDict d =>
      match dlookup (k "frames") d with
      | Some frames =>
          let* fs := vreversed frames in stacktrace_loop platform fs VNone
      | None => Raise KeyError
      end
  | _ => Raise TypeError
  end.

(** [for e in exceptions]: only lists hold exceptions; a string iterates over
    characters, on which [get_path] answers its default. *)
Definition viter (x : value) : res (list value) :=
  match x with
  | VList l | VTuple l => Ok l
  | VStr s => Ok (map (fun c => VStr [c]) s)
  | VDict d => Ok (map (fun kv => match kv.1 with KStr s => VStr s | KInt n => VInt n end) d)
  | _ => Raise TypeError
  end.

(** [[e["stacktrace"] for e in exceptions if get_path(e, "stacktrace", "frames")]] *)
Fixpoint exception_stacktraces (es : list value) : res (list value) :=
  match es with
  | [] => Ok []
  | e :: r =>
      let* frames := get_path [k "stacktrace"; k "frames"] VNone e in
      let* rest := exception_stacktraces r in
      if vtruthy frames then
        let* st := get_path [k "stacktrace"] VNone e in Ok (st :: rest)
      else Ok rest
  end.

(** The stack traces of [generate_culprit]; [None] when the last exception is
    synthetic. *)
Definition culprit_stacktraces (data : pydict) : res (option (list value)) :=
  let* exceptions := get_path_filter [k "exception"] (VDict data) in
  if vtruthy exceptions then
    let* exceptions := (match exceptions with
                        | VDict _ => get_path_filter [k "values"] exceptions
                        | _ => Ok exceptions
                        end) in
    let* last_exception := get_path [last_ix] VNone exceptions in
    let* synthetic := get_path [k "mechanism"; k "synthetic"] VNone last_exception in
    if vtruthy synthetic then Ok None
    else
      let* es := viter exceptions in
      let* sts := exception_stacktraces es in Ok (Some sts)
  else
    let stacktrace := dget_none "stacktrace" data in
    if vtruthy stacktrace then
      let* frames := vget "frames" stacktrace in
      Ok (Some (if vtruthy frames then [stacktrace] else []))
    else Ok (Some []).

Definition generate_culprit (data : pydict) : res value :=
  let platform := dget_none "platform" data in
  let* sts := culprit_stacktraces data in
  match sts with
  | None => Ok (VStr [])
  | Some stacktraces =>
      let* culprit := (match last stacktraces with
                       | Some st => get_stacktrace_culprit st platform
                       | None => Ok VNone
                       end) in
      let* culprit := (if negb (vtruthy culprit) && vtruthy (dget_none "request" data)
                       then get_path [k "request"; k "url"] VNone (VDict data)
                       else Ok culprit) in
      truncate_value (vor culprit (VStr [])) MAX_CULPRIT_LENGTH
  end.

(** [ErrorEvent.get_location] *)
Definition get_location (data : pydict) : res ustr :=
  let known := vor (dget_none "culprit" data) (dget_none "transaction" data) in
  let* loc := (if vtruthy known then Ok known else generate_culprit data) in
  Ok (truncatechars (str_of (vor loc (VStr []))) MAX_CULPRIT_LENGTH).

(** ** Metadata *)

(** The frame filter of [get_crash_location]. *)
Definition crash_frame_filter (frame : value) : res bool :=
  let* function := vget "function" frame in
  Ok (negb (is_none function || value_in function (map u ["<redacted>"; "<unknown>"]%string))).

(** The loop of [get_crash_frame_from_event_data]. *)
Fixpoint crash_frame_loop (frames : list value) (dflt : value) : res value :=
  match frames with
  | [] => Ok (if vtruthy dflt then dflt else VNone)
  | frame :: rest =>
      if is_none frame then crash_frame_loop rest dflt
      else
        let* keep := crash_frame_filter frame in
        if negb keep then crash_frame_loop rest dflt
        else
          let* in_app := vget "in_app" frame in
          if vtruthy in_app then Ok frame
          else crash_frame_loop rest (if is_none dflt then frame else dflt)
  end.

Definition get_crash_frame_from_event_data (data : pydict) : res value :=
  let* f1 := get_path [k "exception"; k "values"; last_ix; k "stacktrace"; k "frames"] VNone (VDict data) in
  let* frames := (if vtruthy f1 then Ok f1
                  else get_path [k "stacktrace"; k "frames"] VNone (VDict data)) in
  let* frames := (if vtruthy frames then Ok frames
                  else
                    let* threads := get_path [k "threads"; k "values"] VNone (VDict data) in
                    match threads with
                    | VList [t] | VTuple [t] =>
                        get_path [k "stacktrace"; k "frames"] VNone t
                    | _ => Ok frames
                    end) in
  let* fs := (if vtruthy frames then vreversed frames else Ok []) in
  crash_frame_loop fs VNone.

(** [get_crash_location]: file name and function of the crash frame. *)
Definition get_crash_location (data : pydict) : res (option (value * value)) :=
  let* frame := get_crash_frame_from_event_data data in
  if is_none frame then Ok None
  else
    let* func := get_function_name_for_frame frame (dget_none "platform" data) in
    let* filename := vget "filename" frame in
    let* abs_path := vget "abs_path" frame in
    Ok (Some (vor filename abs_path, func)).

Context (json_dumps : value -> ustr).

(** [data["exception"] = {"values": data["exception"]}] for the list form. *)
Definition documented_interface (data : pydict) : pydict :=
  match dget_none "exception" data with
  | VList l => dset (k "exception") (VDict [(k "values", VList l)]) data
  | _ => data
  end.

Definition is_empty_list (v : value) : bool := match v with VList [] => true | _ => false end.

(** [ErrorEvent.get_metadata] *)
Definition get_metadata (data : pydict) : res pydict :=
  if is_empty_list (dget_none "exception" data) then Ok []
  else
    let data := documented_interface data in
    let* exception := get_path [k "exception"; k "values"; last_ix] VNone (VDict data) in
    if negb (vtruthy exception) then Ok []
    else
      let* loc := get_crash_location data in
      let* val := get_path [k "value"] (VStr []) exception in
      let rv := [(k "value", trim json_dumps str_of 1024 6 val)] in
      let* synthetic := get_path [k "mechanism"; k "synthetic"] VNone exception in
      let* ty := get_path [k "type"] (VStr (u "Error")) exception in
      let rv := if vtruthy synthetic then rv
                else dset (k "type") (trim json_dumps str_of 128 6 ty) rv in
      Ok (match loc with
          | None => rv
          | Some (fn, func) =>
              let rv := if vtruthy fn then dset (k "filename") fn rv else rv in
              if vtruthy func then dset (k "function") func rv else rv
          end).

(** ** Title *)

Definition is_line_break (c : Z) : bool :=
  in_range 10 13 c || in_range 28 30 c || (c =? 133) || (c =? 8232) || (c =? 8233).

(** [s.splitlines()[0]] of a non-empty string. *)
Fixpoint first_line (s : ustr) : ustr :=
  match s with
  | c :: r => if is_line_break c then [] else c :: first_line r
  | [] => []
  end.

(** [ErrorEvent.get_title] *)
Definition get_title (metadata : pydict) : value :=
  let ty := dget_none "type" metadata in
  let val := dget_none "value" metadata in
  if is_none ty then vor (dget_none "function" metadata) (VStr (u "<unknown>"))
  else if negb (vtruthy val) then ty
  else match val with
       | VStr s => VStr (str_of ty ++ u ": " ++ truncatechars (first_line s) 100)
       | _ => VStr (str_of ty ++ u ": " ++ str_of val)
       end.
End culprit.

(** ** The shape of an event dictionary

    What [event.dict()] of the ingest schema guarantees about the fields these
    functions read. *)

Definition opt_str (v : value) : Prop := v = VNone \/ exists s, v = VStr s.
Definition opt_dict (P : pydict -> Prop) (v : value) : Prop :=
  v = VNone \/ exists d, v = VDict d /\ P d.
Definition frame_wf : value -> Prop := opt_dict (fun d => opt_str (dget_none "function" d)).
Definition stacktrace_wf : value -> Prop :=
  opt_dict (fun d => exists l, dlookup (k "frames") d = Some (VList l) /\ Forall frame_wf l).
Definition exception_wf (v : value) : Prop :=
  exists d, v = VDict d /\ stacktrace_wf (dget_none "stacktrace" d)
    /\ opt_dict (fun _ => True) (dget_none "mechanism" d).
Definition thread_wf (v : value) : Prop :=
  exists d, v = VDict d /\ stacktrace_wf (dget_none "stacktrace" d).
Definition values_wf (P : value -> Prop) : value -> Prop :=
  opt_dict (fun d => exists l, dlookup (k "values") d = Some (VList l) /\ Forall P l).

Record event_wf (data : pydict) : Prop := {
  wf_exception : values_wf exception_wf (dget_none "exception" data)
    \/ exists l, dget_none "exception" data = VList l /\ Forall exception_wf l;
  wf_threads : values_wf thread_wf (dget_none "threads" data);
  wf_stacktrace : dget_none "stacktrace" data = VNone;
  wf_request : opt_dict (fun d => opt_str (dget_none "url" d)) (dget_none "request" data);
}.

(** ** [get_path] on such dictionaries *)

Lemma get_path_None path : get_path path VNone VNone = Ok VNone.
Proof. by destruct path. Qed.

Lemma get_path_field s path d :
  get_path (KStr (u s) :: path) VNone (VDict d) = get_path path VNone (dget_none s d).
Proof.
  unfold get_path at 1, dget_none, dget. simpl. destruct (dlookup _ d); simpl; [done|].
  by rewrite get_path_None.
Qed.

Lemma get_path_nil v : get_path [] VNone v = Ok v.
Proof. by destruct v. Qed.

Lemma dget_present s d v : dlookup (KStr (u s)) d = Some v -> dget_none s d = v.
Proof. unfold dget_none, dget. by intros ->. Qed.

Lemma get_path_last_nil path : get_path (last_ix :: path) VNone (VList []) = Ok VNone.
Proof. done. Qed.

Lemma get_path_last l : l <> [] -> exists x, x ∈ l /\
  forall path, get_path (last_ix :: path) VNone (VList l) = get_path path VNone x.
Proof.
  intros Hl. destruct (list_index l (-1)) as [x|] eqn:E.
  - exists x. split; [by eapply list_index_elem|]. intros path.
    unfold get_path, last_ix. simpl. by rewrite E.
  - exfalso. unfold list_index in E. destruct l as [|a l]; [done|].
    assert ((- len (a :: l) <=? -1) && (-1 <? len (a :: l)) = true) as Hb by (unfold len; simpl; lia).
    rewrite Hb in E. simpl in E. apply lookup_ge_None in E. unfold len in E. simpl in E. lia.
Qed.

(** Whatever is under a key of a possibly absent dictionary. *)
Lemma get_path_opt_dict P s path v :
  opt_dict P v -> get_path (KStr (u s) :: path) VNone v = Ok VNone
  \/ exists d, P d /\ get_path (KStr (u s) :: path) VNone v = get_path path VNone (dget_none s d).
Proof.
  intros [->|(d & -> & HP)]; [by left|]. right. exists d. by rewrite get_path_field.
Qed.

Lemma frames_of_stacktrace v path :
  stacktrace_wf v -> path = [k "frames"] ->
  get_path path VNone v = Ok VNone
  \/ exists l, get_path path VNone v = Ok (VList l) /\ Forall frame_wf l.
Proof.
  intros [->|(d & -> & l & Hl & Hf)] ->; [by left|]. right. exists l.
  by rewrite get_path_field, get_path_nil, (dget_present _ _ _ Hl).
Qed.

Lemma frames_of_exception v :
  exception_wf v \/ thread_wf v ->
  get_path [k "stacktrace"; k "frames"] VNone v = Ok VNone
  \/ exists l, get_path [k "stacktrace"; k "frames"] VNone v = Ok (VList l) /\ Forall frame_wf l.
Proof.
  intros [(d & -> & Hs & _)|(d & -> & Hs)]; rewrite get_path_field; by eapply frames_of_stacktrace.
Qed.

Lemma synthetic_of_exception v :
  exception_wf v -> is_ok (get_path [k "mechanism"; k "synthetic"] VNone v).
Proof.
  intros (d & -> & _ & Hm). rewrite get_path_field.
  destruct Hm as [->|(d' & -> & _)]; rewrite ?get_path_None, ?get_path_field, ?get_path_nil; eauto with gt.
Qed.

(** ** The frame loops do not raise *)

Lemma frame_culprit_str repr frame platform :
  frame_wf frame -> frame <> VNone ->
  exists s, get_frame_culprit repr frame platform = Ok (VStr s).
Proof.
  intros [?|(d & -> & Hf)] Hne; [done|]. unfold get_frame_culprit. simpl.
  destruct (value_in _ _).
  - destruct Hf as [->|[s ->]]; simpl; [by eexists|]. destruct s; by eexists.
  - destruct (negb _); [by eexists|]. destruct (value_in _ _); by eexists.
Qed.

Lemma stacktrace_loop_ok repr platform frames dflt :
  Forall frame_wf frames -> opt_str dflt ->
  exists v, stacktrace_loop repr platform frames dflt = Ok v /\ opt_str v.
Proof.
  intros Hf. revert dflt. induction Hf as [|frame rest Hfr _ IH]; intros dflt Hd; simpl; [eauto|].
  destruct (vtruthy frame) eqn:Ht; simpl; [|by apply IH].
  destruct (frame_culprit_str repr frame platform Hfr) as [s Hs]; [by intros ->|].
  destruct Hfr as [->|(d & -> & _)]; [done|]. simpl. rewrite Hs. simpl.
  destruct (vtruthy (dget_none "in_app" d)).
  - destruct (truthy s); [eexists; split; [done|right; eauto]|by apply IH].
  - destruct (is_none dflt); apply IH; [right; eauto|done].
Qed.

Lemma stacktrace_culprit_ok repr st platform d l :
  st = VDict d -> dlookup (k "frames") d = Some (VList l) -> Forall frame_wf l ->
  exists v, get_stacktrace_culprit repr st platform = Ok v /\ opt_str v.
Proof.
  intros -> Hl Hf. unfold get_stacktrace_culprit. rewrite Hl. simpl.
  apply stacktrace_loop_ok; [|by left]. by apply Forall_rev.
Qed.

Definition has_frames (st : value) : Prop :=
  exists d l, st = VDict d /\ dlookup (k "frames") d = Some (VList l) /\ Forall frame_wf l.

Lemma exception_stacktraces_ok es :
  Forall exception_wf es -> exists sts, exception_stacktraces es = Ok sts /\ Forall has_frames sts.
Proof.
  induction 1 as [|e es He _ (sts & IH & Hs)]; simpl; [eexists; split; [done|constructor]|].
  destruct He as (d & -> & Hst & _). rewrite get_path_field.
  destruct Hst as [E|(d' & E & l & Hl & Hf)]; rewrite E.
  - rewrite get_path_None. simpl. rewrite IH. simpl. eauto.
  - rewrite get_path_field, get_path_nil, (dget_present _ _ _ Hl). simpl. rewrite IH. simpl.
    destruct l; simpl; [eauto|]. rewrite get_path_field, get_path_nil, E. simpl.
    eexists. split; [done|]. constructor; [by exists d', (v :: l)|done].
Qed.

Lemma get_path_filter_field s d :
  get_path_filter [KStr (u s)] (VDict d)
  = Ok (match dget_none s d with
        | VList [] => VList [] | VTuple [] => VTuple []
        | VList l | VTuple l => VList (filter (fun v => is_none v = false) l)
        | v => v
        end).
Proof.
  unfold get_path_filter, dget_none, dget. simpl.
  destruct (dlookup _ d) as [[| | | | |[]|[]|]|]; done.
Qed.

Lemma exceptions_not_none l :
  Forall exception_wf l -> filter (fun v => is_none v = false) l = l.
Proof.
  intros H. apply filter_all. eapply Forall_impl; [exact H|]. by intros v (d & -> & _).
Qed.

(** The list of exceptions, in either form of the field. *)
Lemma exceptions_cases data :
  event_wf data ->
  dget_none "exception" data = VNone
  \/ (exists d, dget_none "exception" data = VDict d
       /\ exists l, dlookup (k "values") d = Some (VList l) /\ Forall exception_wf l)
  \/ exists l, dget_none "exception" data = VList l /\ Forall exception_wf l.
Proof. intros [[[?|(d & ? & ?)]|(l & ? & ?)] _ _ _]; eauto 7. Qed.

Lemma exception_list_culprit l :
  Forall exception_wf l ->
  exists o, (let* last_exception := get_path [last_ix] VNone (VList l) in
    let* synthetic := get_path [k "mechanism"; k "synthetic"] VNone last_exception in
    if vtruthy synthetic then Ok None
    else let* es := viter (VList l) in
         let* sts := exception_stacktraces es in Ok (Some sts)) = Ok o
  /\ forall sts, o = Some sts -> Forall has_frames sts.
Proof.
  intros Hl. destruct (exception_stacktraces_ok l Hl) as (sts & Hs & Hf).
  destruct (decide (l = [])) as [->|Hne].
  { exists (Some sts). rewrite get_path_last_nil. injection Hs as <-. simpl.
    split; [done|by intros ? [= <-]]. }
  destruct (get_path_last l Hne) as (x & Hx & Hp).
  rewrite Forall_forall in Hl. pose proof (Hl x Hx) as Hxw.
  rewrite Hp. destruct (synthetic_of_exception x Hxw) as [sy Hsy].
  destruct Hxw as (d & -> & _). rewrite get_path_nil. cbn [res_bind]. rewrite Hsy. cbn [res_bind].
  destruct (vtruthy sy); [by exists None|]. exists (Some sts). simpl. rewrite Hs. simpl.
  split; [done|by intros ? [= <-]].
Qed.

Lemma culprit_stacktraces_ok data :
  event_wf data ->
  exists o, culprit_stacktraces data = Ok o /\ forall sts, o = Some sts -> Forall has_frames sts.
Proof.
  intros Hwf. pose proof (wf_stacktrace _ Hwf) as Hst. unfold culprit_stacktraces.
  rewrite get_path_filter_field. rewrite Hst. cbn [res_bind].
  destruct (exceptions_cases _ Hwf) as [->|[(d & -> & l & Hl & Hf)|(l & -> & Hf)]].
  - exists (Some []). split; [done|]. intros ? [= <-]. constructor.
  - destruct d as [|kv d]; [done|]. cbn [vtruthy].
    rewrite get_path_filter_field, (dget_present _ _ _ Hl). cbn [res_bind].
    destruct l as [|e l]; [|rewrite exceptions_not_none by done]; by apply exception_list_culprit.
  - destruct l as [|e l]; [exists (Some []); split; [done|by intros ? [= <-]; constructor]|].
    rewrite exceptions_not_none by done. cbn [vtruthy res_bind]. by apply exception_list_culprit.
Qed.

Lemma generate_culprit_ok repr data :
  event_wf data -> exists s, generate_culprit repr data = Ok (VStr s) /\ len s <= MAX_CULPRIT_LENGTH.
Proof.
  intros Hwf. unfold generate_culprit.
  destruct (culprit_stacktraces_ok data Hwf) as (o & -> & Ho). simpl.
  destruct o as [sts|]; [|by exists []].
  assert (exists c, match last sts with
    | Some st => get_stacktrace_culprit repr st (dget_none "platform" data)
    | None => Ok VNone end = Ok c /\ opt_str c) as (c & -> & Hc).
  { destruct (last sts) as [st|] eqn:El; [|by exists VNone; split; [|left]].
    apply last_Some in El as [pre ->]. specialize (Ho _ eq_refl).
    apply Forall_app in Ho as [_ [(d & l & ? & ? & ?) _]%Forall_cons].
    by eapply stacktrace_culprit_ok. }
  simpl. assert (exists c2, (if negb (vtruthy c) && vtruthy (dget_none "request" data)
    then get_path [k "request"; k "url"] VNone (VDict data) else Ok c) = Ok c2 /\ opt_str c2)
    as (c2 & -> & Hc2).
  { destruct (_ && _); [|eauto]. rewrite get_path_field.
    destruct (wf_request _ Hwf) as [->|(d & -> & Hu)]; [by exists VNone; split; [|left]|].
    rewrite get_path_field, get_path_nil. eauto. }
  simpl. assert (exists s, vor c2 (VStr []) = VStr s) as [s ->].
  { destruct Hc2 as [->|[s ->]]; [by exists []|]. by destruct s; eexists. }
  simpl. eexists. split; [done|]. by apply truncatechars_length.
Qed.

Lemma crash_loop_ok frames dflt :
  Forall frame_wf frames -> (dflt = VNone \/ (frame_wf dflt /\ dflt <> VNone)) ->
  exists v, crash_frame_loop frames dflt = Ok v /\ frame_wf v.
Proof.
  intros Hf. revert dflt. induction Hf as [|frame rest Hfr _ IH]; intros dflt Hd; simpl.
  - eexists. split; [done|]. destruct (vtruthy dflt) eqn:E; [|by left].
    destruct Hd as [->|[? _]]; done.
  - destruct Hfr as [->|(d & -> & Hfn)]; [by apply IH|]. simpl. unfold crash_frame_filter. simpl.
    destruct (negb (negb _)); [by apply IH|].
    destruct (vtruthy (dget_none "in_app" d)); [eexists; split; [done|right; eauto]|].
    apply IH. destruct (is_none dflt) eqn:E; [|done]. right. split; [right; eauto|done].
Qed.

Lemma crash_frames_ok data exs :
  dget_none "exception" data = VDict exs ->
  (exists l, dlookup (k "values") exs = Some (VList l) /\ Forall exception_wf l) ->
  values_wf thread_wf (dget_none "threads" data) -> dget_none "stacktrace" data = VNone ->
  exists v, get_crash_frame_from_event_data data = Ok v /\ frame_wf v.
Proof.
  intros Hx (l & Hl & Hf) Ht Hs. unfold get_crash_frame_from_event_data.
  assert (exists f1, get_path [k "exception"; k "values"; last_ix; k "stacktrace"; k "frames"]
      VNone (VDict data) = Ok f1 /\ (f1 = VNone \/ exists fl, f1 = VList fl /\ Forall frame_wf fl))
    as (f1 & -> & Hf1).
  { rewrite get_path_field, Hx, get_path_field, (dget_present _ _ _ Hl).
    destruct (decide (l = [])) as [->|Hne]; [rewrite get_path_last_nil; eauto|].
    destruct (get_path_last l Hne) as (x & Hin & ->). rewrite Forall_forall in Hf.
    destruct (frames_of_exception x (or_introl (Hf x Hin))) as [->|(fl & -> & ?)]; eauto 9. }
  simpl. assert (exists f2, (if vtruthy f1 then Ok f1 else
      get_path [k "stacktrace"; k "frames"] VNone (VDict data)) = Ok f2
      /\ (f2 = VNone \/ exists fl, f2 = VList fl /\ Forall frame_wf fl)) as (f2 & -> & Hf2).
  { destruct (vtruthy f1); [eauto|]. rewrite get_path_field, Hs, get_path_None. eauto 9. }
  simpl. assert (exists f3, (if vtruthy f2 then Ok f2 else
      let* threads := get_path [k "threads"; k "values"] VNone (VDict data) in
      match threads with
      | VList [t] | VTuple [t] => get_path [k "stacktrace"; k "frames"] VNone t
      | _ => Ok f2
      end) = Ok f3 /\ (f3 = VNone \/ exists fl, f3 = VList fl /\ Forall frame_wf fl))
    as (f3 & -> & Hf3).
  { destruct (vtruthy f2); [eauto|]. rewrite get_path_field.
    destruct Ht as [->|(td & -> & tl & Htl & Hth)]; [rewrite get_path_None; simpl; eauto|].
    rewrite get_path_field, get_path_nil, (dget_present _ _ _ Htl). simpl.
    destruct Hth as [|t tl Hth Hr]; [eauto|]. destruct tl; [|eauto 9].
    destruct (frames_of_exception t (or_intror Hth)) as [->|(fl & -> & ?)]; eauto 9. }
  simpl. destruct Hf3 as [->|(fl & -> & Hfl)]; simpl; [exists VNone; by split; [|left]|].
  destruct fl as [|f fl]; simpl; [exists VNone; by split; [|left]|].
  apply crash_loop_ok; [|by left]. change (Forall frame_wf (rev (f :: fl))). by apply Forall_rev.
Qed.

Lemma function_name_ok frame platform :
  frame_wf frame -> frame <> VNone -> is_ok (get_function_name_for_frame frame platform).
Proof.
  intros [?|(d & -> & Hf)] Hne; [done|]. unfold get_function_name_for_frame. simpl.
  destruct (vtruthy (dget_none "raw_function" d)); [eauto with gt|].
  destruct Hf as [->|[s ->]]; simpl; [eauto with gt|]. destruct s; simpl; eauto with gt.
Qed.

Lemma dget_none_dset s v d : dget_none s (dset (k s) v d) = v.
Proof. unfold dget_none, dget. by rewrite dlookup_dset_eq. Qed.

Lemma dget_none_dset_ne s t v d :
  ustr_eqb (u t) (u s) = false -> dget_none s (dset (k t) v d) = dget_none s d.
Proof.
  intros H. unfold dget_none, dget. rewrite dlookup_dset_ne; [done|].
  intros [= E]. by rewrite E, ustr_eqb_refl in H.
Qed.

Lemma dlookup_cons key v d : dlookup key ((key, v) :: d) = Some v.
Proof. unfold dlookup. simpl. by rewrite decide_True. Qed.

Lemma documented_interface_cases data :
  event_wf data -> dget_none "exception" data <> VNone ->
  exists exs, dget_none "exception" (documented_interface data) = VDict exs
    /\ (exists l, dlookup (k "values") exs = Some (VList l) /\ Forall exception_wf l)
    /\ dget_none "threads" (documented_interface data) = dget_none "threads" data
    /\ dget_none "stacktrace" (documented_interface data) = dget_none "stacktrace" data.
Proof.
  intros Hwf Hne. unfold documented_interface.
  destruct (exceptions_cases _ Hwf) as [?|[(d & E & l & Hl & Hf)|(l & E & Hf)]]; [done|..]; rewrite E.
  - exists d. eauto 6.
  - eexists. split_and!; [apply dget_none_dset|by eexists; split; [apply dlookup_cons|]|..];
      by apply dget_none_dset_ne; vm_compute.
Qed.

Lemma get_metadata_ok json repr data : event_wf data -> is_ok (get_metadata repr json data).
Proof.
  intros Hwf. unfold get_metadata. destruct (is_empty_list _); [eauto with gt|].
  assert (dget_none "exception" data = VNone \/ dget_none "exception" data <> VNone) as [E|E]
    by (destruct (dget_none "exception" data); auto; by right).
  { assert (documented_interface data = data) as -> by (unfold documented_interface; by rewrite E).
    rewrite get_path_field, E, get_path_None. simpl. eauto with gt. }
  destruct (documented_interface_cases _ Hwf E) as (exs & Hx & Hl & Ht & Hs).
  set (data' := documented_interface data) in *.
  destruct (crash_frames_ok data' exs Hx Hl) as (frame & Hfr & Hfw);
    [rewrite Ht; apply wf_threads, Hwf|rewrite Hs; apply wf_stacktrace, Hwf|].
  destruct Hl as (l & Hl & Hf).
  rewrite get_path_field, Hx, get_path_field, (dget_present _ _ _ Hl).
  destruct (decide (l = [])) as [->|Hne]; [rewrite get_path_last_nil; simpl; eauto with gt|].
  destruct (get_path_last l Hne) as (x & Hin & ->). rewrite Forall_forall in Hf.
  pose proof (Hf x Hin) as Hxw. rewrite get_path_nil. cbn [res_bind].
  destruct (vtruthy x); cbn [negb]; [|eauto with gt].
  assert (is_ok (get_crash_location data')) as [loc ->].
  { unfold get_crash_location. rewrite Hfr. simpl.
    destruct (is_none frame) eqn:En; [eauto with gt|].
    destruct (function_name_ok frame (dget_none "platform" data') Hfw) as [f ->]; [by intros ->|].
    destruct Hfw as [->|(d & -> & _)]; [done|]. simpl. eauto with gt. }
  destruct (synthetic_of_exception x Hxw) as [sy Hsy]. destruct Hxw as (d & -> & _).
  cbn [res_bind]. assert (forall p dflt, is_ok (get_path [p] dflt (VDict d))) as Hget.
  { intros p dflt. unfold get_path. simpl. destruct (dlookup p d); simpl; eauto with gt. }
  destruct (Hget (k "value") (VStr [])) as [val ->], (Hget (k "type") (VStr (u "Error"))) as [ty ->].
  cbn [res_bind]. rewrite Hsy. simpl. eauto with gt.
Qed.

(** ** Properties *)

(** On an event dictionary of the ingest schema's shape, the metadata, the
    culprit and the location are computed without raising, and the culprit and the
    location fit the 200-character column. *)
Theorem event_summary_total json repr data :
  event_wf data ->
  (exists md, get_metadata repr json data = Ok md)
  /\ (exists c, generate_culprit repr data = Ok (VStr c) /\ len c <= MAX_CULPRIT_LENGTH)
  /\ (exists loc, get_location repr data = Ok loc /\ len loc <= MAX_CULPRIT_LENGTH).
Proof.
  intros Hwf. destruct (generate_culprit_ok repr data Hwf) as (c & Hc & Hlen).
  split_and!; [by apply get_metadata_ok|eauto|].
  unfold get_location. destruct (vtruthy _); [|rewrite Hc]; simpl; eexists;
    (split; [done|by apply truncatechars_length]).
Qed.

Definition sample_event : pydict :=
  let frame := VDict [(k "function", VStr (u "handle")); (k "module", VStr (u "app.views"));
                      (k "in_app", VBool true)] in
  let exc := VDict [(k "type", VStr (u "ValueError")); (k "value", VStr (u "bad input"));
                    (k "stacktrace", VDict [(k "frames", VList [frame])])] in
  [(k "platform", VStr (u "python")); (k "exception", VDict [(k "values", VList [exc])])].

Lemma event_summary_total_witness :
  get_location (fun _ => []) sample_event = Ok (u "app.views in handle")
  /\ exists md, get_metadata (fun _ => []) (fun _ => []) sample_event = Ok md.
Proof.
  split; [by_compute|]. apply (event_summary_total (fun _ => []) (fun _ => []) sample_event).
  assert (Hfr : frame_wf (VDict [(k "function", VStr (u "handle"));
    (k "module", VStr (u "app.views")); (k "in_app", VBool true)])).
  { right. eexists. split; [done|]. right. by eexists. }
  split; [|by left|done|by left]. left. right. eexists. split; [done|].
  eexists. split; [done|]. repeat constructor. eexists. split; [done|]. split; [|by left].
  right. eexists. split; [done|]. eexists. split; [done|]. constructor; [done|constructor].
Defined.

Example title_of_sample :
  (let* md := get_metadata (fun _ => []) (fun _ => []) sample_event in
   Ok (get_title (fun _ => []) md)) = Ok (VStr (u "ValueError: bad input")).
Proof. by_compute. Qed.

(** The budget of [trim] is not enforced in a container entered when fewer than
    two characters are left: its strings lose only their last characters. *)
Example trim_budget_overrun :
  let long := repeat 120 100 in
  trim (fun _ => []) (fun v => match v with VStr s => s | _ => [] end) 16 6
    (VDict [(k "a", VStr (repeat 120 12)); (k "b", VDict [(k "c", VStr long)])])
  = VDict [(k "a", VStr (repeat 120 12)); (k "b", VDict [(k "c", VStr (repeat 120 98 ++ u "…"))])].
Proof. by_compute. Qed.
