(* ===== verification/IngestEvent.v ===== *)
(** * Events inside an ingest batch

    The fields of the validated event that [apps/event_ingest/process_event.py]
    reads, the [ProcessingEvent] of [interfaces.py], and the functions of
    process_event.py that work on one event: stack traces taken from threads,
    contexts from the user agent, tags, the full-text document and the grouping
    data.  The user-agent parser, [urlparse] and pydantic's dump of a model are
    parameters. *)
From S2P Require Import Prelude PyStr PyValue IngestUtils FunctionNames EventTypes.

Abbreviation sdict V := (adict ustr V).

(** ** Data *)

Record Frame := { filename : option ustr; frame_rest : pydict }.
Record StackTrace := { frames : list Frame }.

(** [Thread.id] is an integer, a string or missing. *)
Inductive thread_ident := TidInt (n : Z) | TidStr (s : ustr) | TidNone.
Record Thread := {
  id : thread_ident;
  current : bool;
  thread_stacktrace : option StackTrace;
}.
Record EventException := {
  thread_id : option ustr;
  exc_stacktrace : option StackTrace;
  exc_rest : pydict;
}.

Inductive Context :=
| BrowserContext (name version : option ustr)
| OSContext (name version : option ustr)
| DeviceContext (family model brand : option ustr)
| OtherContext (v : value).

Inductive Headers :=
| HList (l : list (option ustr * option ustr))
| HDict (d : sdict (option ustr)).
Record Request := { req_url : option ustr; req_headers : option Headers }.
Record User := { user_id : option ustr; user_email : option ustr; user_username : option ustr }.
Record CSP := { effective_directive : ustr; blocked_uri : ustr; csp_dict : pydict }.

(** The event payload: [IssueEventSchema], [ErrorIssueEventSchema] or
    [CSPIssueEventSchema], told apart by [type]. *)
Record Payload := {
  type : IssueEventType;
  event_id : ustr;
  timestamp : Z;
  level : option ustr;
  platform : option ustr;
  environment : option ustr;
  release : option ustr;
  server_name : option ustr;
  transaction : option ustr;
  tags : option (sdict (option ustr));
  contexts : option (sdict Context);
  request : option Request;
  user : option User;
  exception : option (list EventException);
  threads : option (list Thread);
  message : option (ustr + EventMessage);
  logentry : option EventMessage;
  fingerprint : option (list (option ustr));
  csp : option CSP;
}.

(** [InterchangeEvent]: the message a worker receives. *)
Record IssueTaskMessage := {
  msg_project_id : Z;
  msg_organization_id : Z;
  msg_received : Z;
  msg_update_first_event : bool;
  msg_uuid : option ustr;
  msg_payload : Payload;
}.

Record ProcessingEvent := {
  project_id : Z;
  organization_id : Z;
  received : Z;
  payload : Payload;
  issue_hash : ustr;
  title : ustr;
  pe_transaction : ustr;
  metadata : pydict;
  event_data : pydict;
  event_tags : sdict ustr;
  pe_level : option Z;
  issue_id : option Z;
  issue_created : bool;
  release_id : option Z;
  pe_uuid : option ustr;
}.

Definition set_exceptions (l : list EventException) (e : Payload) : Payload :=
  {| type := type e; event_id := event_id e; timestamp := timestamp e; level := level e;
     platform := platform e; environment := environment e; release := release e;
     server_name := server_name e; transaction := transaction e; tags := tags e;
     contexts := contexts e; request := request e; user := user e; exception := Some l;
     threads := threads e; message := message e; logentry := logentry e;
     fingerprint := fingerprint e; csp := csp e |}.

Definition set_contexts (c : sdict Context) (e : Payload) : Payload :=
  {| type := type e; event_id := event_id e; timestamp := timestamp e; level := level e;
     platform := platform e; environment := environment e; release := release e;
     server_name := server_name e; transaction := transaction e; tags := tags e;
     contexts := Some c; request := request e; user := user e; exception := exception e;
     threads := threads e; message := message e; logentry := logentry e;
     fingerprint := fingerprint e; csp := csp e |}.

(** [x.f] for an optional string that counts as missing when empty. *)
Definition nonempty (o : option ustr) : option ustr :=
  match o with Some (_ :: _) => o | _ => None end.

(** ** Stack traces from threads *)

(** [str(t.id)] *)
Definition ident_str (i : thread_ident) : ustr :=
  match i with TidInt n => str_of_Z n | TidStr s => s | TidNone => u "None" end.

(** The thread an exception without a stack trace is matched with. *)
Definition match_thread (threads : list Thread) (exc : EventException) : option Thread :=
  let by_id := match thread_id exc with
               | Some tid => find_first (fun t => ustr_eqb (ident_str (id t)) tid) threads
               | None => None
               end in
  match by_id with
  | Some t => Some t
  | None => find_first current threads
  end.

Definition hydrate_exception (threads : list Thread) (exc : EventException) : EventException :=
  match exc_stacktrace exc with
  | Some _ => exc
  | None =>
      match match_thread threads exc with
      | Some t =>
          match thread_stacktrace t with
          | Some st => {| thread_id := thread_id exc; exc_stacktrace := Some st; exc_rest := exc_rest exc |}
          | None => exc
          end
      | None => exc
      end
  end.

Definition hydrate_stacktrace (event : Payload) : Payload :=
  match exception event, threads event with
  | Some ((_ :: _) as excs), Some ((_ :: _) as ths) =>
      set_exceptions (map (hydrate_exception ths) excs) event
  | _, _ => event
  end.

(** ** Contexts *)

(** What the [user_agents] library reads off a user agent. *)
Record UserAgent := {
  browser_family : option ustr; browser_version : option ustr;
  os_family : option ustr; os_version : option ustr;
  device_family : option ustr; device_model : option ustr; device_brand : option ustr;
}.

(** [if name not in contexts: contexts[name] = c] *)
Definition set_missing (name : string) (c : Context) (d : sdict Context) : sdict Context :=
  match aget (u name) d with Some _ => d | None => aset (u name) c d end.

Definition user_agent_header (h : Headers) : option ustr :=
  match h with
  | HList l =>
      match find_first (fun x => match x.1 with
                                 | Some s => ustr_eqb s (u "User-Agent")
                                 | None => false
                                 end) l with
      | Some x => x.2
      | None => None
      end
  | HDict d => match aget (u "User-Agent") d with Some o => o | None => None end
  end.

Section contexts.
Context (parse : ustr -> UserAgent).

Definition generate_contexts (event : Payload) : sdict Context :=
  let contexts := default [] (contexts event) in
  let ua_string := match request event with
                   | Some r => match req_headers r with
                               | Some h => nonempty (user_agent_header h)
                               | None => None
                               end
                   | None => None
                   end in
  match ua_string with
  | None => contexts
  | Some s =>
      let ua := parse s in
      let contexts := set_missing "browser" (BrowserContext (browser_family ua) (browser_version ua)) contexts in
      let contexts := set_missing "os" (OSContext (os_family ua) (os_version ua)) contexts in
      set_missing "device" (DeviceContext (device_family ua) (device_model ua) (device_brand ua)) contexts
  end.
End contexts.

(** ** Tags *)

(** An optional string inside an f-string. *)
Definition fmt (o : option ustr) : ustr := default (u "None") o.

(** [if v := ...: tags[k] = v] *)
Definition set_truthy (key : string) (v : option ustr) (d : sdict (option ustr)) : sdict (option ustr) :=
  match nonempty v with Some s => aset (u key) (Some s) d | None => d end.

Definition context_tags (contexts : sdict Context) (t : sdict (option ustr)) : sdict (option ustr) :=
  let t := match aget (u "browser") contexts with
           | Some (BrowserContext n v) =>
               aset (u "browser") (Some (fmt n ++ u " " ++ fmt v)) (aset (u "browser.name") n t)
           | _ => t
           end in
  let t := match aget (u "os") contexts with
           | Some (OSContext n _) => aset (u "os.name") n t
           | _ => t
           end in
  match aget (u "device") contexts with
  | Some (DeviceContext _ m _) => set_truthy "device" m t
  | _ => t
  end.

Definition user_tags (o : option User) (t : sdict (option ustr)) : sdict (option ustr) :=
  match o with
  | Some us =>
      set_truthy "user.username" (user_username us)
        (set_truthy "user.email" (user_email us) (set_truthy "user.id" (user_id us) t))
  | None => t
  end.

(** [{key: value for key, value in tags.items() if value}] *)
Fixpoint drop_empty (t : sdict (option ustr)) : sdict ustr :=
  match t with
  | [] => []
  | (key, v) :: r =>
      match nonempty v with Some s => (key, s) :: drop_empty r | None => drop_empty r end
  end.

Definition generate_tags (event : Payload) : sdict ustr :=
  let t := default [] (tags event) in
  let t := context_tags (default [] (contexts event)) t in
  let t := user_tags (user event) t in
  let t := set_truthy "environment" (environment event) t in
  let t := set_truthy "release" (release event) t in
  let t := set_truthy "server_name" (server_name event) t in
  drop_empty t.

(** ** The full-text document *)

Definition MAX_SEARCH_PART_LENGTH : Z := 250.
Definition MAX_FILENAME_LEN : Z := 100.
Definition MAX_TOTAL_FILENAMES : Z := 5.
Definition MAX_FRAMES_PER_STACKTRACE : nat := 3.
Definition MAX_STACKTRACES_TO_PROCESS : nat := 2.
Definition MAX_VECTOR_STRING_SEGMENT_LEN : Z := 2048.

Definition truncate_string (s : ustr) (max_len : Z) : ustr := slice_to max_len s.

(** [os.path.basename] *)
Definition basename (s : ustr) : ustr := default [] (last (split_on (ch "/") s)).

(** The file names of the frames of one stack trace, at most [budget]. *)
Fixpoint frame_names (budget : nat) (frames : list Frame) : list ustr :=
  match budget, frames with
  | O, _ => []
  | _, [] => []
  | S b, f :: rest =>
      match nonempty (filename f) with
      | None => frame_names budget rest
      | Some name =>
          let base := truncate_string (basename name) MAX_FILENAME_LEN in
          if truthy base then base :: frame_names b rest else frame_names budget rest
      end
  end.

(** The names of the first [budget] exceptions that have any. *)
Fixpoint exception_names (budget : nat) (excs : list EventException) : list ustr :=
  match budget, excs with
  | O, _ => []
  | _, [] => []
  | S b, e :: rest =>
      match exc_stacktrace e with
      | None => exception_names budget rest
      | Some st =>
          match frame_names MAX_FRAMES_PER_STACKTRACE (rev (frames st)) with
          | [] => exception_names budget rest
          | names => names ++ exception_names b rest
          end
      end
  end.

(** [s.rfind(" ", 0, n)]: the last space before position [n]. *)
Fixpoint rfind_space (s : ustr) (n : nat) : option nat :=
  match n with
  | O => None
  | S m => if bool_decide (s !! m = Some 32) then Some m else rfind_space s m
  end.

Record ParseResult := { scheme : ustr; netloc : ustr; path : ustr }.

Section search.
Context (urlparse : ustr -> res ParseResult).

(** The URL without its query; [None] when nothing of it is kept. *)
Definition simplified_url (url : ustr) : option ustr :=
  match urlparse url with
  | Raise _ => Some (truncate_string url MAX_SEARCH_PART_LENGTH)
  | Ok p =>
      let truncated_path := truncate_string (path p) MAX_SEARCH_PART_LENGTH in
      let scheme_netloc :=
        if truthy (scheme p) && truthy (netloc p) then scheme p ++ u "://" ++ netloc p
        else netloc p in
      if truthy scheme_netloc || truthy truncated_path
      then Some (truncate_string (scheme_netloc ++ truncated_path) MAX_SEARCH_PART_LENGTH)
      else None
  end.

(** [sorted] of a set of strings. *)
Definition ustr_le (a b : ustr) : Prop := ustr_ltb b a = false.
#[global] Instance ustr_le_dec : RelDecision ustr_le.
Proof. intros a b. unfold ustr_le. apply _. Defined.
Definition sorted_set (l : list ustr) : list ustr := merge_sort ustr_le (remove_dups l).

Definition search_parts (event : ProcessingEvent) : list ustr :=
  let p := payload event in
  let url_part := match request p with
                  | Some r => match nonempty (req_url r) with
                              | Some url => option_list (simplified_url url)
                              | None => []
                              end
                  | None => []
                  end in
  let names := match type p, exception p with
               | ETError, Some excs => exception_names MAX_STACKTRACES_TO_PROCESS excs
               | _, _ => []
               end in
  (if truthy (title event) then [truncate_string (title event) MAX_SEARCH_PART_LENGTH] else [])
  ++ (if truthy (pe_transaction event)
      then [truncate_string (pe_transaction event) MAX_SEARCH_PART_LENGTH] else [])
  ++ url_part
  ++ slice_to MAX_TOTAL_FILENAMES names.

Definition limit_document (doc : ustr) : ustr :=
  if MAX_VECTOR_STRING_SEGMENT_LEN <? len doc then
    match rfind_space doc (Z.to_nat MAX_VECTOR_STRING_SEGMENT_LEN) with
    | None => slice_to MAX_VECTOR_STRING_SEGMENT_LEN doc
    | Some i => take i doc
    end
  else doc.

Definition get_search_vector (event : ProcessingEvent) : ustr :=
  let parts := sorted_set (filter (fun p => truthy p = true) (search_parts event)) in
  clean_string (limit_document (join (u " ") parts)).
End search.

(** ** The document fits *)

(** Characters of a part and the separator after it. *)
Definition weight (l : list ustr) : Z := zsum (map (fun p => len p + 1) l).

Lemma weight_cons p l : weight (p :: l) = len p + 1 + weight l.
Proof. done. Qed.

Lemma weight_app l1 l2 : weight (l1 ++ l2) = weight l1 + weight l2.
Proof. unfold weight. by rewrite map_app, zsum_app. Qed.

Lemma weight_nonneg l : 0 <= weight l.
Proof. apply zsum_nonneg, Forall_map, Forall_true. intros p. simpl. unfold len. lia. Qed.

Lemma weight_perm l1 l2 : l1 ≡ₚ l2 -> weight l1 = weight l2.
Proof. unfold weight. induction 1; simpl; lia. Qed.

Lemma weight_filter (P : ustr -> Prop) `{!forall x, Decision (P x)} l : weight (filter P l) <= weight l.
Proof.
  induction l as [|p l IH]; [done|]. rewrite filter_cons. pose proof (weight_nonneg [p]).
  case_decide; rewrite !weight_cons in *; unfold len in *; lia.
Qed.

Lemma weight_remove_dups l : weight (remove_dups l) <= weight l.
Proof.
  induction l as [|p l IH]; simpl; [done|]. pose proof (weight_nonneg [p]).
  case_decide; rewrite !weight_cons in *; unfold len in *; lia.
Qed.

Lemma weight_sorted_set l : weight (sorted_set l) <= weight l.
Proof.
  unfold sorted_set. rewrite (weight_perm _ (remove_dups l)) by apply merge_sort_Permutation.
  apply weight_remove_dups.
Qed.

Lemma weight_bound n m l :
  Forall (fun p => len p <= n) l -> len l <= m -> 0 <= n -> weight l <= m * (n + 1).
Proof.
  intros Hf. revert m. induction Hf as [|p l Hp _ IH]; intros m Hm Hn; unfold len in *; simpl in *;
    [unfold weight; simpl; nia|].
  rewrite weight_cons. specialize (IH (m - 1) ltac:(lia) Hn). unfold len in *. nia.
Qed.

Lemma join_length (sep : ustr) l : len sep = 1 -> len (join sep l) <= Z.max 0 (weight l - 1).
Proof.
  intros Hs. induction l as [|p l IH]; simpl; [done|]. rewrite weight_cons. pose proof (weight_nonneg l).
  destruct l as [|q l]; [unfold weight; simpl; lia|].
  unfold len in *. rewrite !length_app. pose proof (weight_nonneg [q]). rewrite weight_cons in *.
  unfold len in *. pose proof (weight_nonneg l). lia.
Qed.

Lemma truncated_length s n : 0 <= n -> len (truncate_string s n) <= n.
Proof. apply length_slice_to. Qed.

Lemma frame_names_short b fs : Forall (fun p => len p <= MAX_FILENAME_LEN) (frame_names b fs).
Proof.
  revert b. induction fs as [|f fs IH]; intros [|b]; simpl; try by constructor.
  destruct (nonempty _); [|apply IH]. case_match; [|apply IH].
  constructor; [by apply truncated_length|apply IH].
Qed.

Lemma exception_names_short b es : Forall (fun p => len p <= MAX_FILENAME_LEN) (exception_names b es).
Proof.
  revert b. induction es as [|e es IH]; intros [|b]; cbn [exception_names]; try by constructor.
  destruct (exc_stacktrace e) as [st|]; [|apply IH].
  pose proof (frame_names_short MAX_FRAMES_PER_STACKTRACE (rev (frames st))) as Hn.
  destruct (frame_names _ _); [apply IH|]. apply Forall_app. split; [done|apply IH].
Qed.

Lemma simplified_url_short up url s : simplified_url up url = Some s -> len s <= MAX_SEARCH_PART_LENGTH.
Proof.
  unfold simplified_url. destruct (up url); [destruct (_ || _); [|done]|]; intros [= <-];
    by apply truncated_length.
Qed.

Lemma search_parts_weight up e : weight (search_parts up e) <= 1258.
Proof.
  unfold search_parts. rewrite !weight_app.
  assert (Hpart : forall s, weight (if truthy s then [truncate_string s MAX_SEARCH_PART_LENGTH] else []) <= 251).
  { intros s. destruct (truthy s); [|done]. unfold weight. simpl.
    pose proof (truncated_length s MAX_SEARCH_PART_LENGTH ltac:(done)). unfold MAX_SEARCH_PART_LENGTH in *. lia. }
  pose proof (Hpart (title e)). pose proof (Hpart (pe_transaction e)).
  set (names := match type (payload e) with ETError => _ | _ => _ end).
  assert (Forall (fun p => len p <= MAX_FILENAME_LEN) names) as Hnames.
  { subst names. repeat case_match; try apply exception_names_short; constructor. }
  assert (weight (slice_to MAX_TOTAL_FILENAMES names) <= 5 * (100 + 1)).
  { apply weight_bound; [|by apply length_slice_to|done].
    destruct (slice_to_prefix MAX_TOTAL_FILENAMES names) as [k Hk]. rewrite Hk in Hnames.
    by apply Forall_app in Hnames as [? _]. }
  assert (weight (match request (payload e) with
                  | Some r => match nonempty (req_url r) with
                              | Some url => option_list (simplified_url up url)
                              | None => []
                              end
                  | None => []
                  end) <= 251).
  { destruct (request _) as [r|]; [|done]. destruct (nonempty _) as [url|]; [|done].
    destruct (simplified_url up url) as [s|] eqn:E; [|done]. apply simplified_url_short in E.
    unfold weight. simpl. unfold MAX_SEARCH_PART_LENGTH in *. lia. }
  lia.
Qed.

(** ** Tags *)

Lemma drop_empty_keys t : (drop_empty t).*1 ⊆ t.*1.
Proof.
  induction t as [|[key v] t IH]; [done|]. simpl. destruct (nonempty v); csimpl; set_solver.
Qed.

Lemma aget_drop_empty key t :
  NoDup t.*1 ->
  aget key (drop_empty t) = match aget key t with Some v => nonempty v | None => None end.
Proof.
  induction t as [|[k' v] t IH]; [done|]. csimpl. intros [Hk Ht]%NoDup_cons.
  specialize (IH Ht). unfold aget in *. simpl. destruct (decide (k' = key)) as [->|Hne].
  - destruct (nonempty v) as [s|] eqn:E; simpl; [by rewrite decide_True|].
    change (aget key (drop_empty t) = None). apply aget_None. intros Hin. by apply Hk, drop_empty_keys.
  - destruct (nonempty v); simpl; [by rewrite decide_False|done].
Qed.

Lemma NoDup_drop_empty t : NoDup t.*1 -> NoDup (drop_empty t).*1.
Proof.
  induction t as [|[key v] t IH]; [done|]. csimpl. intros [Hk Ht]%NoDup_cons.
  destruct (nonempty v); csimpl; [|by apply IH].
  apply NoDup_cons. split; [|by apply IH]. intros Hin. by apply Hk, drop_empty_keys.
Qed.

Lemma nonempty_Some o s : nonempty o = Some s -> o = Some s /\ s <> [].
Proof. destruct o as [[|]|]; simpl; intros [= <-]; done. Qed.

Lemma drop_empty_truthy t : Forall (fun kv => kv.2 <> []) (drop_empty t).
Proof.
  induction t as [|[key v] t IH]; simpl; [constructor|].
  destruct (nonempty v) eqn:E; [|done]. apply nonempty_Some in E as [_ ?]. by constructor.
Qed.

(** What a write does to the key it names and to the others. *)
Lemma set_truthy_keys key v t : NoDup t.*1 -> NoDup (set_truthy key v t).*1.
Proof. unfold set_truthy. intros. destruct (nonempty v); auto with gt. Qed.

Lemma aget_set_truthy_eq key v s t :
  nonempty v = Some s -> aget (u key) (set_truthy key v t) = Some (Some s).
Proof. unfold set_truthy. intros ->. apply aget_aset_eq. Qed.

Lemma aget_set_truthy_ne key k' v t :
  u key <> k' -> aget k' (set_truthy key v t) = aget k' t.
Proof. unfold set_truthy. intros. destruct (nonempty v); [by apply aget_aset_ne|done]. Qed.

#[local] Hint Resolve set_truthy_keys : gt.

Lemma NoDup_context_tags c t : NoDup t.*1 -> NoDup (context_tags c t).*1.
Proof. unfold context_tags. intros. repeat case_match; auto 10 with gt. Qed.

Lemma NoDup_user_tags us t : NoDup t.*1 -> NoDup (user_tags us t).*1.
Proof. unfold user_tags. intros. destruct us; auto 10 with gt. Qed.

#[local] Hint Resolve NoDup_context_tags NoDup_user_tags : gt.

(** The tags GlitchTip writes itself. *)
Definition own_tags : list ustr :=
  map u ["browser.name"; "browser"; "os.name"; "device"; "user.id"; "user.email";
         "user.username"; "environment"; "release"; "server_name"]%string.

Lemma not_own key s : key ∉ own_tags -> u s ∈ own_tags -> u s <> key.
Proof. by intros H1 H2 <-. Qed.

Lemma aget_context_tags key c t : key ∉ own_tags -> aget key (context_tags c t) = aget key t.
Proof.
  intros H. unfold context_tags.
  repeat case_match; rewrite ?aget_set_truthy_ne, ?aget_aset_ne; try done;
    apply (not_own _ _ H); by_decide.
Qed.

Lemma aget_user_tags key us t : key ∉ own_tags -> aget key (user_tags us t) = aget key t.
Proof.
  intros H. destruct us; simpl; [|done]. rewrite !aget_set_truthy_ne; [done|..];
    apply (not_own _ _ H); by_decide.
Qed.

(** ** Properties *)

(** The full-text document of an event holds at most 1257 characters and no NUL,
    so the final cut at 2048 characters never applies. *)
Theorem search_document_bounded up e :
  let doc := join (u " ") (sorted_set (filter (fun p => truthy p = true) (search_parts up e))) in
  get_search_vector up e = clean_string doc
  /\ len (get_search_vector up e) <= 1257 /\ clean_ustr (get_search_vector up e).
Proof.
  cbv zeta. set (doc := join _ _).
  assert (len doc <= 1257) as Hd.
  { pose proof (search_parts_weight up e). pose proof (weight_nonneg (search_parts up e)).
    pose proof (weight_filter (fun p => truthy p = true) (search_parts up e)).
    pose proof (weight_sorted_set (filter (fun p => truthy p = true) (search_parts up e))).
    pose proof (join_length (u " ") (sorted_set (filter (fun p => truthy p = true) (search_parts up e))) eq_refl).
    subst doc. lia. }
  assert (get_search_vector up e = clean_string doc) as E.
  { unfold get_search_vector, limit_document. fold doc.
    destruct (Z.ltb_spec MAX_VECTOR_STRING_SEGMENT_LEN (len doc)); [|done].
    unfold MAX_VECTOR_STRING_SEGMENT_LEN in *. lia. }
  split_and!; [done| |rewrite E; apply clean_string_clean].
  rewrite E, clean_string_spec. unfold len in *.
  pose proof (length_filter (fun c => c <> 0) doc). lia.
Qed.

(** The tags of an event have distinct keys and non-empty values; a non-empty
    environment, release or server name of the event is its tag of that name whatever
    the client sent, and a client tag GlitchTip does not set itself keeps its value. *)
Theorem generate_tags_spec e :
  NoDup (default [] (tags e)).*1 ->
  NoDup (generate_tags e).*1
  /\ Forall (fun kv => kv.2 <> []) (generate_tags e)
  /\ (forall s, nonempty (environment e) = Some s -> aget (u "environment") (generate_tags e) = Some s)
  /\ (forall s, nonempty (release e) = Some s -> aget (u "release") (generate_tags e) = Some s)
  /\ (forall s, nonempty (server_name e) = Some s -> aget (u "server_name") (generate_tags e) = Some s)
  /\ (forall key, key ∉ own_tags -> aget key (generate_tags e)
        = match aget key (default [] (tags e)) with Some v => nonempty v | None => None end).
Proof.
  intros Hnd. unfold generate_tags.
  assert (forall o s, nonempty o = Some s -> nonempty (Some s) = Some s) as Hs.
  { intros o s [_ ?]%nonempty_Some. by destruct s. }
  split_and!; [auto 10 using NoDup_drop_empty with gt|apply drop_empty_truthy|..].
  - intros s E. rewrite aget_drop_empty by auto 10 with gt.
    rewrite 2!aget_set_truthy_ne by done. rewrite (aget_set_truthy_eq _ _ s) by done. eauto.
  - intros s E. rewrite aget_drop_empty by auto 10 with gt.
    rewrite aget_set_truthy_ne by done. rewrite (aget_set_truthy_eq _ _ s) by done. eauto.
  - intros s E. rewrite aget_drop_empty by auto 10 with gt.
    rewrite (aget_set_truthy_eq _ _ s) by done. eauto.
  - intros key Hk. rewrite aget_drop_empty by auto 10 with gt.
    rewrite !aget_set_truthy_ne by (apply (not_own _ _ Hk); by_decide).
    by rewrite aget_user_tags, aget_context_tags.
Qed.

Definition sample_payload : Payload :=
  {| type := ETError; event_id := u "0"; timestamp := 0; level := Some (u "error");
     platform := Some (u "python"); environment := Some (u "prod"); release := Some (u "1.0");
     server_name := None; transaction := None;
     tags := Some [(u "release", Some (u "spoofed")); (u "tier", Some (u "gold")); (u "empty", None)];
     contexts := Some [(u "browser", BrowserContext (Some (u "Firefox")) None)];
     request := None; user := Some {| user_id := Some (u "7"); user_email := None; user_username := None |};
     exception := None; threads := None; message := None; logentry := None; fingerprint := None;
     csp := None |}.

Lemma generate_tags_spec_witness :
  generate_tags sample_payload
    = [(u "release", u "1.0"); (u "tier", u "gold"); (u "browser.name", u "Firefox");
       (u "browser", u "Firefox None"); (u "user.id", u "7"); (u "environment", u "prod")]
  /\ aget (u "tier") (generate_tags sample_payload) = Some (u "gold").
Proof.
  split; [by_compute|].
  refine (eq_trans (proj2 (proj2 (proj2 (proj2 (proj2 (generate_tags_spec sample_payload _))))) _ _) _);
    [by_decide|by_decide|by_compute].
Defined.

(** Hydrating twice is hydrating once, and an exception that has a stack trace keeps it. *)
Lemma hydrate_exception_idem ths exc :
  hydrate_exception ths (hydrate_exception ths exc) = hydrate_exception ths exc.
Proof.
  unfold hydrate_exception at 2 3. destruct (exc_stacktrace exc) eqn:E.
  - unfold hydrate_exception. by rewrite E.
  - destruct (match_thread ths exc) as [t|] eqn:Et.
    + destruct (thread_stacktrace t) eqn:Es; [done|]. unfold hydrate_exception. by rewrite E, Et, Es.
    + unfold hydrate_exception. by rewrite E, Et.
Qed.

(** Filling in missing stack traces from the threads is idempotent, and changes
    an exception only when it has no stack trace: it then takes the trace of the
    thread with its id, or of the current thread when no thread has it. *)
Theorem hydrate_stacktrace_spec event excs ths :
  exception event = Some excs -> threads event = Some ths -> excs <> [] -> ths <> [] ->
  hydrate_stacktrace (hydrate_stacktrace event) = hydrate_stacktrace event
  /\ exception (hydrate_stacktrace event) = Some (map (hydrate_exception ths) excs)
  /\ forall exc, exc ∈ excs ->
       (exc_stacktrace exc <> None -> hydrate_exception ths exc = exc)
       /\ (exc_stacktrace exc = None -> forall t tid,
             thread_id exc = Some tid -> t ∈ ths -> ident_str (id t) = tid ->
             exists t', t' ∈ ths /\ ident_str (id t') = tid
               /\ exc_stacktrace (hydrate_exception ths exc) = thread_stacktrace t').
Proof.
  intros He Ht Hne Hnt. unfold hydrate_stacktrace. rewrite He, Ht.
  destruct excs as [|e excs]; [done|]. destruct ths as [|t0 ths]; [done|].
  cbn [set_exceptions exception threads map]. rewrite Ht. split_and!; [|done|].
  - unfold set_exceptions. simpl. do 3 f_equal; [apply hydrate_exception_idem|].
    rewrite map_map. apply map_ext. intros. apply hydrate_exception_idem.
  - intros exc Hin. unfold hydrate_exception. split; [by destruct (exc_stacktrace exc)|].
    intros Hn t tid Hid Hin' Ht'. unfold match_thread. rewrite Hn, Hid.
    destruct (find_first _ _) as [t'|] eqn:E.
    + apply find_first_Some in E as [Hi Hq]. apply ustr_eqb_eq in Hq. exists t'.
      split_and!; [done..|]. by destruct (thread_stacktrace t').
    + rewrite find_first_None in E. specialize (E t Hin'). by rewrite Ht', ustr_eqb_refl in E.
Qed.

Definition sample_exc : EventException :=
  {| thread_id := Some (u "3"); exc_stacktrace := None; exc_rest := [] |}.
Definition sample_thread (n : Z) : Thread :=
  {| id := TidInt n; current := true;
     thread_stacktrace := Some {| frames := [{| filename := Some (str_of_Z n); frame_rest := [] |}] |} |}.
Definition threaded_payload : Payload :=
  {| type := ETError; event_id := []; timestamp := 0; level := None; platform := None;
     environment := None; release := None; server_name := None; transaction := None; tags := None;
     contexts := None; request := None; user := None; exception := Some [sample_exc];
     threads := Some [sample_thread 2; sample_thread 3]; message := None; logentry := None;
     fingerprint := None; csp := None |}.

Lemma hydrate_stacktrace_spec_witness :
  exception (hydrate_stacktrace threaded_payload)
  = Some [{| thread_id := Some (u "3"); exc_stacktrace := thread_stacktrace (sample_thread 3);
             exc_rest := [] |}].
Proof.
  refine (eq_trans (proj1 (proj2 (hydrate_stacktrace_spec threaded_payload [sample_exc]
    [sample_thread 2; sample_thread 3] eq_refl eq_refl _ _))) _); [done|done|by_compute].
Defined.
