(* ===== verification/IssueStore.v ===== *)
(** * The issue tables

    The tables [apps/event_ingest/process_event.py] writes for issue events, one
    finite map per table, and its SQL statements on them: the issue, its hashes, its
    hot row (IssueIndex), the project counter, the notifications and the events.
    [to_tsvector] and [append_and_limit_tsvector] belong to PostgreSQL and are
    parameters.  A row of a project that is deleted while a batch runs (a foreign
    key violation) is not modelled. *)
From S2P Require Import Prelude PyStr PyValue IngestUtils IngestEvent.

(** ** Constants ([apps/issue_events/constants.py]) *)

Definition UNRESOLVED : Z := 0.
Definition RESOLVED : Z := 1.
Definition IGNORED : Z := 2.

Definition LEVEL_ERROR : Z := 4.
Definition LogLevel_labels : adict ustr Z :=
  [(u "sample", 0); (u "debug", 1); (u "info", 2); (u "warning", 3); (u "error", 4); (u "fatal", 5)].

(** [LogLevel.from_string] *)
Definition level_from_string (s : ustr) : option Z := aget s LogLevel_labels.

(** [if level := ...]: the level 0 counts as missing. *)
Definition truthy_level (o : option Z) : option Z :=
  match o with Some n => if n =? 0 then None else Some n | None => None end.

(** ** Tables *)

Record IssueRow := {
  i_project : Z;
  i_type : IssueEventType;
  i_title : ustr;
  i_metadata : value;
  i_first_seen : Z;
  i_first_release : option Z;
  i_short_id : Z;
  i_resolved_in : option Z;
}.

Record EventRow := {
  ev_event_id : ustr;
  ev_timestamp : Z;
  ev_issue_id : option Z;
  ev_organization_id : Z;
  ev_release_id : option Z;
  ev_type : IssueEventType;
  ev_level : Z;
  ev_title : value;
  ev_transaction : value;
  ev_data : value;
  ev_tags : value;
  ev_hash : ustr;
}.

Section store.
Context {tsvector : Type}.
Context (to_tsvector : ustr -> tsvector) (append_and_limit_tsvector : tsvector -> ustr -> tsvector).

Record IndexRow := {
  x_last_release : option Z;
  x_last_seen : Z;
  x_count : Z;
  x_status : Z;
  x_level : Z;
  x_fts : tsvector;
}.

Record Store := {
  counters : gmap Z Z;                 (* projects_projectcounter *)
  next_issue : Z;                      (* the sequence of issue ids *)
  issues : gmap Z IssueRow;            (* issue_events_issue *)
  hashes : gmap (Z * ustr) Z;          (* issue_events_issuehash: (project, value) to issue *)
  index : gmap Z (gmap Z IndexRow);    (* issue_events_issueindex: issue, organization *)
  notifications : gmap Z (gset Z);     (* alerts_notification and its issues *)
  events : gmap (ustr * Z) EventRow;   (* issue_events_issueevent: id, organization *)
}.

Definition leaf (i org : Z) (s : Store) : option IndexRow := index s !! i ≫= lookup org.

Definition set_leaf (i org : Z) (r : IndexRow) (s : Store) : Store :=
  {| counters := counters s; next_issue := next_issue s; issues := issues s; hashes := hashes s;
     index := <[i := <[org := r]> (default ∅ (index s !! i))]> (index s);
     notifications := notifications s; events := events s |}.

(** ** Creating an issue *)

(** [issue_defaults] of the batch loop. *)
Record IssueDefaults := {
  d_type : IssueEventType;
  d_title : ustr;
  d_metadata : value;
  d_first_seen : Z;
  d_last_seen : Z;
  d_first_release_id : option Z;
  d_last_release_id : option Z;
  d_level : option Z;
}.

(** The upsert of the project counter, [RETURNING value]: it is not undone when the
    creation fails. *)
Definition next_short_id (project : Z) (s : Store) : Z * Store :=
  let v := default 0 (counters s !! project) + 1 in
  (v, {| counters := <[project := v]> (counters s); next_issue := next_issue s; issues := issues s;
         hashes := hashes s; index := index s; notifications := notifications s; events := events s |}).

(** The unique constraint on (project, short_id). *)
Definition short_id_taken (project short_id : Z) (s : Store) : bool :=
  existsb (fun kv => (i_project kv.2 =? project) && (i_short_id kv.2 =? short_id)) (map_to_list (issues s)).

(** The three inserts of the transaction. *)
Definition insert_issue (project org : Z) (hash : ustr) (d : IssueDefaults) (document : ustr)
    (short_id : Z) (s : Store) : Store :=
  let i := next_issue s in
  {| counters := counters s;
     next_issue := i + 1;
     issues := <[i := {| i_project := project; i_type := d_type d; i_title := d_title d;
                         i_metadata := d_metadata d; i_first_seen := d_first_seen d;
                         i_first_release := d_first_release_id d; i_short_id := short_id;
                         i_resolved_in := None |}]> (issues s);
     hashes := <[(project, hash) := i]> (hashes s);
     index := <[i := {[org := {| x_last_release := d_last_release_id d; x_last_seen := d_last_seen d;
                                 x_count := 1; x_status := UNRESOLVED;
                                 x_level := default LEVEL_ERROR (d_level d);
                                 x_fts := to_tsvector document |}]}]> (index s);
     notifications := notifications s;
     events := events s |}.

(** A failed transaction has still drawn an id from the sequence. *)
Definition skip_issue_id (s : Store) : Store :=
  {| counters := counters s; next_issue := next_issue s + 1; issues := issues s; hashes := hashes s;
     index := index s; notifications := notifications s; events := events s |}.

(** [_create_issue_and_hash_sync]: the new issue, or the one a concurrent worker
    created for the same hash; [TypeError] when the failed insert left no row to read. *)
Definition create_issue (project org : Z) (hash : ustr) (d : IssueDefaults) (document : ustr)
    (s : Store) : res (Z * bool * Store) :=
  let (short_id, s) := next_short_id project s in
  let conflict := short_id_taken project short_id s || bool_decide (is_Some (hashes s !! (project, hash))) in
  if conflict then
    match hashes s !! (project, hash) with
    | Some winner => Ok (winner, false, skip_issue_id s)
    | None => Raise TypeError
    end
  else Ok (next_issue s, true, insert_issue project org hash d document short_id s).

(** ** Looking hashes up *)

Record HashObj := { h_issue_id : Z; h_status : Z; h_resolved_in : option Z }.

(** The join of a hash with its issue and its hot row; with several hot rows the
    database may return any of them. *)
Definition fetch_hash (s : Store) (key : Z * ustr) : option HashObj :=
  i ← hashes s !! key;
  row ← issues s !! i;
  leaves ← index s !! i;
  x ← head (map_to_list leaves).*2;
  Some {| h_issue_id := i; h_status := x_status x; h_resolved_in := i_resolved_in row |}.

Definition fetch_issue_hashes_raw (pairs : list (Z * ustr)) (s : Store) : gmap (Z * ustr) HashObj :=
  foldr (fun key acc => match fetch_hash s key with Some h => <[key := h]> acc | None => acc end) ∅ pairs.

(** ** Statistics of existing issues *)

(** [IssueUpdate] *)
Record IssueUpdate := {
  u_organization_id : Z;
  u_last_seen : Z;
  u_search_vector : ustr;
  u_added_count : Z;
  u_last_release_id : option Z;
}.

(** One row of the UPDATE ... INSERT ... ON CONFLICT DO NOTHING. *)
Definition apply_update (s : Store) (upd : Z * IssueUpdate) : Store :=
  let '(i, v) := upd in
  match leaf i (u_organization_id v) s with
  | Some t =>
      set_leaf i (u_organization_id v)
        {| x_last_release := match u_last_release_id v with Some r => Some r | None => x_last_release t end;
           x_last_seen := Z.max (x_last_seen t) (u_last_seen v);
           x_count := x_count t + u_added_count v;
           x_status := x_status t; x_level := x_level t;
           x_fts := append_and_limit_tsvector (x_fts t) (u_search_vector v) |} s
  | None =>
      set_leaf i (u_organization_id v)
        {| x_last_release := u_last_release_id v; x_last_seen := u_last_seen v;
           x_count := u_added_count v; x_status := UNRESOLVED; x_level := LEVEL_ERROR;
           x_fts := to_tsvector (u_search_vector v) |} s
  end.

(** ** Reopening *)

Definition reopen_leaf (s : Store) (p : Z * Z) : Store :=
  match leaf p.1 p.2 s with
  | Some t => set_leaf p.1 p.2
      {| x_last_release := x_last_release t; x_last_seen := x_last_seen t; x_count := x_count t;
         x_status := UNRESOLVED; x_level := x_level t; x_fts := x_fts t |} s
  | None => s
  end.

Definition clear_resolved_in (ids : list Z) (s : Store) : Store :=
  {| counters := counters s; next_issue := next_issue s;
     issues := map_imap (fun i r => Some (if bool_decide (i ∈ ids) then
        {| i_project := i_project r; i_type := i_type r; i_title := i_title r; i_metadata := i_metadata r;
           i_first_seen := i_first_seen r; i_first_release := i_first_release r;
           i_short_id := i_short_id r; i_resolved_in := None |} else r)) (issues s);
     hashes := hashes s; index := index s; notifications := notifications s; events := events s |}.

(** The notifications that mention one of the issues go. *)
Definition delete_notifications (ids : list Z) (s : Store) : Store :=
  {| counters := counters s; next_issue := next_issue s; issues := issues s; hashes := hashes s;
     index := index s;
     notifications := filter (fun kv => kv.2 ## list_to_set ids) (notifications s);
     events := events s |}.

Definition reopen_issues (l : list (Z * Z)) (s : Store) : Store :=
  match l with
  | [] => s
  | _ => delete_notifications l.*1 (clear_resolved_in l.*1 (foldl reopen_leaf s l))
  end.

(** ** Inserting events *)

Definition set_events (m : gmap (ustr * Z) EventRow) (s : Store) : Store :=
  {| counters := counters s; next_issue := next_issue s; issues := issues s; hashes := hashes s;
     index := index s; notifications := notifications s; events := m |}.

(** COPY: all rows, or a unique violation ([None]) when an id is taken or repeated. *)
Fixpoint copy_rows (rows : list ((ustr * Z) * EventRow)) (m : gmap (ustr * Z) EventRow) : option (gmap (ustr * Z) EventRow) :=
  match rows with
  | [] => Some m
  | (id, r) :: rest =>
      match m !! id with
      | Some _ => None
      | None => copy_rows rest (<[id := r]> m)
      end
  end.

(** INSERT ... ON CONFLICT DO NOTHING. *)
Fixpoint insert_ignore (rows : list ((ustr * Z) * EventRow)) (m : gmap (ustr * Z) EventRow) : gmap (ustr * Z) EventRow :=
  match rows with
  | [] => m
  | (id, r) :: rest =>
      insert_ignore rest (match m !! id with Some _ => m | None => <[id := r]> m end)
  end.

(** Stream the rows with COPY; on a unique violation retry with the insert that
    ignores conflicts. *)
Definition insert_events (rows : list ((ustr * Z) * EventRow)) (s : Store) : Store :=
  set_events (match copy_rows rows (events s) with
              | Some m => m
              | None => insert_ignore rows (events s)
              end) s.
End store.

Arguments IndexRow : clear implicits.
Arguments Store : clear implicits.
