(* ===== verification/IssueIngest.v ===== *)
(** * Ingesting a batch of issue events

    [process_issue_events] of [apps/event_ingest/process_event.py] from the grouping
    of one event to the writes of the whole batch.  Other workers may create issues
    between any two steps of the loop: the model takes their creations as an explicit
    interleaving.  Symbolication (JavaScript source maps, debug files), pydantic's
    dumps, MD5, [urlparse] and the full-text functions are parameters. *)
From S2P Require Import Prelude PyStr PyValue IngestUtils FunctionNames EventTypes IngestEvent IssueStore.

(** ** Grouping one event *)

Section build.
Context (parse_ua : ustr -> UserAgent) (urlparse : ustr -> res ParseResult).
Context (md5_hexdigest : ustr -> ustr).
Context (percent_format : ustr -> list (option ustr) -> res ustr)
        (str_format : ustr -> list (ustr * option ustr) -> res ustr).
Context (py_repr json_dumps : value -> ustr).
(** [event.dict()] and [event.model_dump(...)]. *)
Context (event_dict model_dump : Payload -> pydict).
Context (message_dict : EventMessage -> pydict) (context_dict : Context -> value).
(** The frames rewritten by the JavaScript processor or the debug-file resolver. *)
Context (symbolicate : option Z -> Payload -> Payload).

(** Title, full title, culprit and metadata, by type of event. *)
Record Grouping := { g_title : ustr; g_full_title : ustr; g_culprit : ustr; g_metadata : pydict }.

Definition as_str (v : value) : res ustr :=
  match v with VStr s => Ok s | _ => Raise TypeError end.

(** [event.message if event.message else event.logentry] *)
Definition message_or_logentry (event : Payload) : option (ustr + EventMessage) :=
  match message event with
  | Some (inl (_ :: _)) | Some (inr _) => message event
  | _ => inr <$> logentry event
  end.

(** The branch of errors and plain messages. *)
Definition group_message (event : Payload) : res Grouping :=
  let* metadata := get_metadata py_repr json_dumps (event_dict event) in
  let* full := (if bool_decide (type event = ETError) && vtruthy (VDict metadata)
                then as_str (get_title py_repr metadata)
                else
                  let* t := (match message_or_logentry event with
                             | Some m => transform_parameterized_message percent_format str_format m
                             | None => Ok (u "<untitled>")
                             end) in
                  let* _ := (match nonempty (transaction event) with
                             | Some s => Ok (VStr s)
                             | None => generate_culprit py_repr (event_dict event)
                             end) in
                  Ok t) in
  let* culprit := get_location py_repr (event_dict event) in
  Ok {| g_title := truncatechars full 100; g_full_title := full; g_culprit := culprit;
        g_metadata := metadata |}.

Definition group_csp (event : Payload) : res Grouping :=
  match csp event with
  | None => Raise AttributeError
  | Some c =>
      let humanized := replace (u "-src") [] (effective_directive c) in
      let* p := urlparse (blocked_uri c) in
      let t := u "Blocked '" ++ humanized ++ u "' from '" ++ netloc p ++ u "'" in
      Ok {| g_title := t; g_full_title := t; g_culprit := effective_directive c; g_metadata := [] |}
  end.

Definition group_event (event : Payload) : res Grouping :=
  match type event with
  | ETError | ETDefault => group_message event
  | ETCsp => group_csp event
  end.

(** The stored data: metadata, message and contexts on top of the dump. *)
Definition build_event_data (event : Payload) (g : Grouping) : pydict :=
  let d := model_dump event in
  let d := match type event, csp event with
           | ETCsp, Some c => dset (KStr (u "csp")) (VDict (csp_dict c)) d
           | _, _ => d
           end in
  let d := if vtruthy (VDict (g_metadata g))
           then dset (KStr (u "metadata")) (VDict (g_metadata g)) d else d in
  let d := match logentry event with
           | Some l => dset (KStr (u "logentry")) (VDict (message_dict l)) d
           | None =>
               match message event with
               | Some (inl []) | None => d
               | Some (inl s) => dset (KStr (u "logentry")) (VDict [(KStr (u "formatted"), VStr s)]) d
               | Some (inr m) => dset (KStr (u "logentry")) (VDict (message_dict m)) d
               end
           end in
  let d := match message event with
           | Some (inl ((_ :: _) as s)) => dset (KStr (u "message")) (VStr s) d
           | Some (inr m) => dset (KStr (u "message")) (VStr (formatted m)) d
           | _ => if ustr_eqb (g_title g) (g_full_title g) then d
                  else dset (KStr (u "message")) (VStr (g_full_title g)) d
           end in
  match contexts event with
  | Some ((_ :: _) as c) =>
      dset (KStr (u "contexts")) (VDict (map (fun kv => (KStr kv.1, context_dict kv.2)) c)) d
  | _ => d
  end.

(** The release of the event among the releases of its project. *)
Definition event_release (releases : list (ustr * Z * Z)) (project : Z) (tags : sdict ustr) : option Z :=
  first_some (fun '(version, pid, rid) =>
    if bool_decide (Some version = aget (u "release") tags) && (project =? pid) then Some rid else None)
    releases.

(** One turn of the loop that collects the processing events. *)
Definition build_processing_event (releases : list (ustr * Z * Z)) (msg : IssueTaskMessage)
    : res ProcessingEvent :=
  let event := hydrate_stacktrace (msg_payload msg) in
  let event := set_contexts (generate_contexts parse_ua event) event in
  let tags := generate_tags event in
  let rid := event_release releases (msg_project_id msg) tags in
  let event := symbolicate rid event in
  let* g := group_event event in
  Ok {| project_id := msg_project_id msg; organization_id := msg_organization_id msg;
        received := msg_received msg; payload := event;
        issue_hash := generate_hash md5_hexdigest (g_title g) (g_culprit g) (type event) (fingerprint event);
        title := g_title g; pe_transaction := g_culprit g; metadata := g_metadata g;
        event_data := build_event_data event g; event_tags := tags;
        pe_level := match nonempty (level event) with Some l => level_from_string l | None => None end;
        issue_id := None; issue_created := false; release_id := rid; pe_uuid := msg_uuid msg |}.

Fixpoint build_processing_events (releases : list (ustr * Z * Z)) (msgs : list IssueTaskMessage)
    : res (list ProcessingEvent) :=
  match msgs with
  | [] => Ok []
  | m :: rest =>
      let* pe := build_processing_event releases m in
      let* pes := build_processing_events releases rest in
      Ok (pe :: pes)
  end.
End build.

(** ** Attributing events to issues *)

Definition set_issue (i : Z) (created : bool) (e : ProcessingEvent) : ProcessingEvent :=
  {| project_id := project_id e; organization_id := organization_id e; received := received e;
     payload := payload e; issue_hash := issue_hash e; title := title e;
     pe_transaction := pe_transaction e; metadata := metadata e; event_data := event_data e;
     event_tags := event_tags e; pe_level := pe_level e; issue_id := Some i;
     issue_created := created; release_id := release_id e; pe_uuid := pe_uuid e |}.

Definition event_key (e : ProcessingEvent) : Z * ustr := (project_id e, issue_hash e).

(** [check_set_issue_id]: events of the same project and hash that have no issue yet. *)
Definition check_set_issue_id (project : Z) (hash : ustr) (i : Z) (l : list ProcessingEvent)
    : list ProcessingEvent :=
  map (fun e => match issue_id e with
                | None => if bool_decide (event_key e = (project, hash))
                          then set_issue i (issue_created e) e else e
                | Some _ => e
                end) l.

Definition z_truthy (o : option Z) : bool := match o with Some n => negb (n =? 0) | None => false end.

Definition issue_defaults (e : ProcessingEvent) : IssueDefaults :=
  {| d_type := type (payload e); d_title := clean_string (title e);
     d_metadata := remove_bad_chars (VDict (metadata e));
     d_first_seen := received e; d_last_seen := received e;
     d_first_release_id := release_id e; d_last_release_id := release_id e;
     d_level := truthy_level (pe_level e) |}.

(** Whether an event of a known hash reopens its issue. *)
Definition reopens (h : HashObj) (e : ProcessingEvent) : bool :=
  (h_status h =? RESOLVED)
  && match h_resolved_in h with
     | None => true
     | Some r => match release_id e with Some er => negb (r =? er) | None => false end
     end.

Section batch.
Context {tsvector : Type}.
Context (to_tsvector : ustr -> tsvector) (append_and_limit_tsvector : tsvector -> ustr -> tsvector).
Context (urlparse : ustr -> res ParseResult).

Abbreviation store := (Store tsvector).

(** An issue creation of another worker. *)
Record Foreign := {
  f_project : Z; f_org : Z; f_hash : ustr; f_defaults : IssueDefaults; f_document : ustr;
}.

Definition run_foreign (f : Foreign) (s : store) : store :=
  match create_issue to_tsvector (f_project f) (f_org f) (f_hash f) (f_defaults f) (f_document f) s with
  | Ok (_, _, s') => s'
  | Raise _ => s
  end.

Definition run_foreigns (fs : list Foreign) (s : store) : store := foldl (fun s f => run_foreign f s) s fs.

(** The state of the loop: the store, the events before the current one, and the
    issues to reopen (in reverse order). *)
Record Loop := {
  l_store : store;
  l_done : list ProcessingEvent;
  l_reopen : list (Z * Z);
}.

(** [_create_issue_and_hash] for the event at hand: it marks the other events of the
    batch with the same hash when the issue is new. *)
Definition create_for (e : ProcessingEvent) (rest : list ProcessingEvent) (l : Loop)
    : res (Loop * list ProcessingEvent) :=
  let document := get_search_vector urlparse e in
  let* r := create_issue to_tsvector (project_id e) (organization_id e) (issue_hash e)
              (issue_defaults e) document (l_store l) in
  let '(i, created, s) := r in
  let mark := if created then check_set_issue_id (project_id e) (issue_hash e) i else (fun l => l) in
  Ok ({| l_store := s; l_done := mark (l_done l) ++ [set_issue i created e]; l_reopen := l_reopen l |},
      mark rest).

(** One turn of the main loop, on the event [e] with [rest] after it. *)
Definition loop_step (hash_dict : gmap (Z * ustr) HashObj) (fs : list Foreign)
    (e : ProcessingEvent) (rest : list ProcessingEvent) (l : Loop) : res (Loop * list ProcessingEvent) :=
  let l := {| l_store := run_foreigns fs (l_store l); l_done := l_done l; l_reopen := l_reopen l |} in
  match hash_dict !! event_key e with
  | Some h =>
      let e := set_issue (h_issue_id h) (issue_created e) e in
      let l := {| l_store := l_store l; l_done := l_done l;
                  l_reopen := if reopens h e then (h_issue_id h, organization_id e) :: l_reopen l
                              else l_reopen l |} in
      if z_truthy (issue_id e)
      then Ok ({| l_store := l_store l; l_done := l_done l ++ [e]; l_reopen := l_reopen l |}, rest)
      else create_for e rest l
  | None =>
      if z_truthy (issue_id e)
      then Ok ({| l_store := l_store l; l_done := l_done l ++ [e]; l_reopen := l_reopen l |}, rest)
      else create_for e rest l
  end.

(** The main loop; [fuel] is the number of events left ([check_set_issue_id] keeps it). *)
Fixpoint main_loop (hash_dict : gmap (Z * ustr) HashObj) (interleaving : list (list Foreign))
    (fuel : nat) (rest : list ProcessingEvent) (l : Loop) : res Loop :=
  match fuel, rest with
  | S n, e :: rest =>
      let* r := loop_step hash_dict (hd [] interleaving) e rest l in
      main_loop hash_dict (tail interleaving) n r.2 r.1
  | _, _ => Ok l
  end.

(** ** Statistics of the existing issues *)

(** [issues_to_update] after one more event. *)
Definition add_update (m : gmap Z IssueUpdate) (e : ProcessingEvent) : gmap Z IssueUpdate :=
  match issue_id e with
  | Some i =>
      if issue_created e || (i =? 0) then m
      else
        let vector := get_search_vector urlparse e in
        match m !! i with
        | Some v =>
            let newer := u_last_seen v <? received e in
            <[i := {| u_organization_id := u_organization_id v;
                      u_last_seen := if newer then received e else u_last_seen v;
                      u_search_vector := u_search_vector v ++ u " " ++ vector;
                      u_added_count := u_added_count v + 1;
                      u_last_release_id :=
                        if newer then (if z_truthy (release_id e) then release_id e else u_last_release_id v)
                        else if negb (z_truthy (u_last_release_id v)) && z_truthy (release_id e)
                        then release_id e else u_last_release_id v |}]> m
        | None =>
            <[i := {| u_organization_id := organization_id e; u_last_seen := received e;
                      u_search_vector := vector; u_added_count := 1;
                      u_last_release_id := release_id e |}]> m
        end
  | None => m
  end.

Definition collect_updates (es : list ProcessingEvent) : gmap Z IssueUpdate := foldl add_update ∅ es.

(** The rows of the statement, sorted by issue. *)
Definition by_issue (a b : Z * IssueUpdate) : Prop := a.1 <= b.1.
#[global] Instance by_issue_dec : RelDecision by_issue.
Proof. intros a b. unfold by_issue. apply _. Defined.
Definition update_rows (m : gmap Z IssueUpdate) : list (Z * IssueUpdate) :=
  merge_sort by_issue (map_to_list m).

Definition update_issues (es : list ProcessingEvent) (s : store) : store :=
  foldl (apply_update to_tsvector append_and_limit_tsvector) s (update_rows (collect_updates es)).

(** ** The whole batch *)

(** The row of one event; [new_id] draws its UUIDv7. *)
Definition event_row (e : ProcessingEvent) : EventRow :=
  {| ev_event_id := event_id (payload e); ev_timestamp := timestamp (payload e);
     ev_issue_id := issue_id e; ev_organization_id := organization_id e; ev_release_id := release_id e;
     ev_type := type (payload e); ev_level := default LEVEL_ERROR (truthy_level (pe_level e));
     ev_title := VStr (clean_string (title e)); ev_transaction := VStr (clean_string (pe_transaction e));
     ev_data := remove_bad_chars (VDict (event_data e));
     ev_tags := remove_bad_chars (VDict (map (fun kv => (KStr kv.1, VStr kv.2)) (event_tags e)));
     ev_hash := issue_hash e |}.

Definition event_rows (new_id : nat -> Z -> ustr) (es : list ProcessingEvent) : list ((ustr * Z) * EventRow) :=
  imap (fun n e => ((new_id n (received e), organization_id e), event_row e)) es.

(** The hashes of the batch in the replica, then in the primary those it misses. *)
Definition fetch_hashes (replica : option store) (primary : store) (es : list ProcessingEvent)
    : gmap (Z * ustr) HashObj :=
  let keys := map event_key (filter (fun e => issue_hash e <> []) es) in
  match replica with
  | None => fetch_issue_hashes_raw keys primary
  | Some r =>
      let found := fetch_issue_hashes_raw keys r in
      let missing := filter (fun key => found !! key = None) (map event_key es) in
      fetch_issue_hashes_raw missing primary ∪ found
  end.

(** From the processing events to the issue tables. *)
Definition process_events (new_id : nat -> Z -> ustr) (replica : option store)
    (interleaving : list (list Foreign)) (es : list ProcessingEvent) (s : store)
    : res (store * list ProcessingEvent) :=
  let hash_dict := fetch_hashes replica s es in
  let* l := main_loop hash_dict interleaving (length es) es
              {| l_store := s; l_done := []; l_reopen := [] |} in
  let es := l_done l in
  let s := update_issues es (l_store l) in
  let s := reopen_issues (rev (l_reopen l)) s in
  let s := insert_events (event_rows new_id es) s in
  Ok (s, es).
End batch.

Arguments Loop : clear implicits.
