(* ===== verification/IssueTheorems.v ===== *)
(** * Correctness of issue ingestion

    The invariant of the issue tables and what a batch does to them: every event is
    attributed to the one issue of its project and hash whatever other workers
    create meanwhile, every event is counted exactly once, resolved issues reopen,
    and the event rows are all stored. *)
From S2P Require Import Prelude PyStr PyValue IngestUtils IngestEvent IssueStore IssueIngest.

Section theorems.
Context {tsvector : Type}.
Context (to_tsvector : ustr -> tsvector) (append_and_limit_tsvector : tsvector -> ustr -> tsvector).
Context (urlparse : ustr -> res ParseResult).

Abbreviation store := (Store tsvector).

(** ** The invariant *)

Record store_inv (s : store) : Prop := {
  inv_next : 0 < next_issue s;
  inv_hash : forall key i, hashes s !! key = Some i ->
    exists r, issues s !! i = Some r /\ i_project r = key.1;
  inv_issue : forall i r, issues s !! i = Some r ->
    0 < i < next_issue s /\ i_short_id r <= default 0 (counters s !! i_project r);
  inv_short : forall i j ri rj, issues s !! i = Some ri -> issues s !! j = Some rj ->
    i_project ri = i_project rj -> i_short_id ri = i_short_id rj -> i = j;
  inv_index : forall i, is_Some (index s !! i) -> i < next_issue s;
}.

(** The counter of an issue in an organization. *)
Definition count_of (s : store) (i org : Z) : Z := default 0 (x_count <$> leaf i org s).

(** How often [x] occurs in [l]. *)
Definition occ (x : Z * Z) (l : list (Z * Z)) : Z := zsum (map (fun y => if decide (y = x) then 1 else 0) l).

Lemma occ_app x l1 l2 : occ x (l1 ++ l2) = occ x l1 + occ x l2.
Proof. unfold occ. by rewrite map_app, zsum_app. Qed.

Lemma occ_cons x y l : occ x (y :: l) = (if decide (y = x) then 1 else 0) + occ x l.
Proof. done. Qed.

Lemma leaf_set_leaf_eq i o r (s : store) : leaf i o (set_leaf i o r s) = Some r.
Proof. unfold leaf, set_leaf. simpl. by rewrite lookup_insert_eq; simpl; rewrite lookup_insert_eq. Qed.

Lemma leaf_set_leaf_ne i o j p r (s : store) :
  (i, o) <> (j, p) -> leaf j p (set_leaf i o r s) = leaf j p s.
Proof.
  intros Hne. unfold leaf, set_leaf. simpl. destruct (decide (i = j)) as [->|].
  - rewrite lookup_insert_eq. simpl. rewrite lookup_insert_ne by congruence.
    by destruct (index s !! j); simpl; [|rewrite lookup_empty].
  - by rewrite lookup_insert_ne.
Qed.

Lemma short_id_fresh (s : store) p :
  store_inv s -> short_id_taken p (default 0 (counters s !! p) + 1) (next_short_id p s).2 = false.
Proof.
  intros Hinv. unfold short_id_taken. simpl. apply not_true_iff_false.
  rewrite existsb_exists. intros ([i r] & Hin & H). simpl in H. bool_split.
  apply list_elem_of_In, elem_of_map_to_list in Hin.
  destruct (inv_issue s Hinv i r Hin) as [_ Hs]. subst. lia.
Qed.

Lemma store_inv_counter p (s : store) : store_inv s -> store_inv (next_short_id p s).2.
Proof.
  intros [? ? Hi ? ?]. split; simpl; try done. intros i r Hr.
  destruct (Hi i r Hr) as [? Hs]. split; [done|].
  destruct (decide (i_project r = p)) as [<-|Hne].
  - rewrite lookup_insert_eq. simpl. lia.
  - by rewrite lookup_insert_ne by congruence.
Qed.

Lemma store_inv_skip (s : store) : store_inv s -> store_inv (skip_issue_id s).
Proof.
  intros [? ? Hi ? Hx]. split; simpl; [lia|done| |done|].
  - intros i r Hr. destruct (Hi i r Hr). split; [lia|done].
  - intros i Hx'. specialize (Hx i Hx'). lia.
Qed.

Lemma store_inv_insert p o h d doc short (s : store) :
  store_inv s -> short <= default 0 (counters s !! p) ->
  (forall i r, issues s !! i = Some r -> i_project r = p -> i_short_id r <> short) ->
  store_inv (insert_issue to_tsvector p o h d doc short s).
Proof.
  intros [Hn Hh Hi Hs Hx] Hle Hfresh. unfold insert_issue. split; simpl.
  - lia.
  - intros key i. rewrite lookup_insert_Some. intros [[<- <-]|[_ Hk]].
    + rewrite lookup_insert_eq. by eexists.
    + destruct (Hh key i Hk) as (r & Hr & Hp). exists r. split; [|done].
      destruct (Hi i r Hr). by rewrite lookup_insert_ne by lia.
  - intros i r. rewrite lookup_insert_Some. intros [[<- <-]|[_ Hr]]; [simpl; split; [lia|done]|].
    destruct (Hi i r Hr). split; [lia|done].
  - intros i j ri rj. rewrite !lookup_insert_Some.
    intros [[<- <-]|[_ Hri]] [[<- <-]|[_ Hrj]] Hp Hsid; simpl in *; [done| | |eauto].
    + by destruct (Hfresh j rj Hrj).
    + by destruct (Hfresh i ri Hri).
  - intros i Hi'. destruct (decide (next_issue s = i)) as [<-|Hne]; [lia|].
    rewrite lookup_insert_ne in Hi' by done. specialize (Hx i Hi'). lia.
Qed.

(** ** Creating an issue *)

(** What both outcomes of a creation guarantee: the hash has its issue, nothing else
    changes, and the count of a new issue is 1. *)
Lemma create_issue_spec p o h d doc (s : store) :
  store_inv s ->
  exists i created s', create_issue to_tsvector p o h d doc s = Ok (i, created, s')
    /\ store_inv s' /\ 0 < i /\ hashes s' !! (p, h) = Some i /\ hashes s ⊆ hashes s'
    /\ index s ⊆ index s'
    /\ created = bool_decide (hashes s !! (p, h) = None)
    /\ next_issue s <= next_issue s'
    /\ (created = true -> i = next_issue s /\ is_Some (leaf i o s'))
    /\ (forall j q, count_of s' j q = count_of s j q + (if created then occ (j, q) [(i, o)] else 0)).
Proof.
  intros Hinv. unfold create_issue.
  pose proof (short_id_fresh s p Hinv) as Hfresh. pose proof (store_inv_counter p s Hinv) as Hinv1.
  destruct (next_short_id p s) as [short s1] eqn:Es. simpl in *.
  assert (hashes s1 = hashes s /\ index s1 = index s /\ next_issue s1 = next_issue s
          /\ short = default 0 (counters s !! p) + 1 /\ counters s1 = <[p := short]> (counters s)
          /\ issues s1 = issues s) as (Hh & Hx & Hn & -> & Hc & Hiss)
    by (unfold next_short_id in Es; by simplify_eq).
  rewrite Hfresh, Hh. simpl. destruct (hashes s !! (p, h)) as [w|] eqn:Ew.
  - rewrite bool_decide_true by done. exists w, false, (skip_issue_id s1).
    destruct (inv_hash s Hinv _ _ Ew) as (r & Hr & _). destruct (inv_issue s Hinv _ _ Hr).
    split_and!; try done; simpl; try lia.
    + by apply store_inv_skip.
    + by rewrite Hh.
    + by rewrite Hh.
    + by rewrite Hx.
    + intros j q. rewrite Z.add_0_r. unfold count_of, leaf. simpl. by rewrite Hx.
  - rewrite bool_decide_false by (by intros [? ?]).
    exists (next_issue s1), true, (insert_issue to_tsvector p o h d doc (default 0 (counters s !! p) + 1) s1).
    split_and!; try done; simpl; try lia.
    + apply store_inv_insert; [done|rewrite Hc, lookup_insert_eq; simpl; lia|].
      intros i r Hr Hp Hsid. rewrite Hiss in Hr. destruct (inv_issue s Hinv _ _ Hr) as [_ Hle].
      rewrite Hp in Hle. lia.
    + rewrite Hn. apply (inv_next s Hinv).
    + by rewrite lookup_insert_eq.
    + rewrite Hh. by apply insert_subseteq.
    + rewrite Hx. apply insert_subseteq. destruct (index s !! next_issue s1) eqn:E; [|done].
      pose proof (inv_index s Hinv (next_issue s1)) as Hl. rewrite E in Hl. specialize (Hl ltac:(done)). lia.
    + intros _. split; [done|]. unfold leaf. simpl. rewrite lookup_insert_eq. simpl. by rewrite lookup_singleton_eq.
    + intros j q. unfold count_of, leaf, occ. simpl. rewrite Hx.
      destruct (decide ((next_issue s1, o) = (j, q))) as [[= <- <-]|Hne].
      * rewrite lookup_insert_eq. simpl. rewrite lookup_singleton_eq. simpl.
        destruct (index s !! next_issue s1) eqn:E; [|simpl; lia].
        pose proof (inv_index s Hinv (next_issue s1)) as Hl. rewrite E in Hl. specialize (Hl ltac:(done)). lia.
      * destruct (decide (next_issue s1 = j)) as [<-|Hj].
        -- rewrite lookup_insert_eq. simpl. rewrite lookup_singleton_ne by congruence. simpl.
           destruct (index s !! next_issue s1) eqn:E; [|simpl; lia].
           pose proof (inv_index s Hinv (next_issue s1)) as Hl. rewrite E in Hl. specialize (Hl ltac:(done)). lia.
        -- rewrite lookup_insert_ne by done. lia.
Qed.

(** The creations of other workers: new issues, each counted once. *)
Lemma run_foreigns_spec fs (s : store) :
  store_inv s ->
  exists fc, store_inv (run_foreigns to_tsvector fs s)
    /\ hashes s ⊆ hashes (run_foreigns to_tsvector fs s)
    /\ index s ⊆ index (run_foreigns to_tsvector fs s)
    /\ next_issue s <= next_issue (run_foreigns to_tsvector fs s)
    /\ (length fc <= length fs)%nat /\ Forall (fun x => next_issue s <= x.1) fc
    /\ forall j q, count_of (run_foreigns to_tsvector fs s) j q = count_of s j q + occ (j, q) fc.
Proof.
  unfold run_foreigns. revert s. induction fs as [|f fs IH]; intros s Hinv; simpl.
  { exists []. split_and!; try done. intros. unfold occ. simpl. lia. }
  destruct (create_issue_spec (f_project f) (f_org f) (f_hash f) (f_defaults f) (f_document f) s Hinv)
    as (i & c & s1 & E & Hinv1 & Hi & Hk & Hsub & Hix & _ & Hnext & Hc & Hcount).
  assert (run_foreign to_tsvector f s = s1) as -> by (unfold run_foreign; by rewrite E).
  destruct (IH s1 Hinv1) as (fc & Hinv2 & Hsub2 & Hix2 & Hnext2 & Hlen & Hfresh & Hcount2).
  exists ((if c then [(i, f_org f)] else []) ++ fc). split_and!; try done.
  - by etrans.
  - by etrans.
  - lia.
  - rewrite length_app. destruct c; simpl; lia.
  - apply Forall_app. split.
    + destruct c; constructor; [simpl; destruct Hc as [-> _]; [done|lia]|constructor].
    + eapply Forall_impl; [exact Hfresh|]. intros x ?. simpl in *. lia.
  - intros j q. rewrite Hcount2, Hcount, occ_app. destruct c; [lia|]. change (occ (j, q) []) with 0. lia.
Qed.
(** ** The loop *)

(** An event without its attribution. *)
Definition strip (e : ProcessingEvent) : ProcessingEvent := set_issue 0 false e.

Definition attributed (s : store) (e : ProcessingEvent) : Prop :=
  exists i, issue_id e = Some i /\ 0 < i /\ hashes s !! event_key e = Some i
    /\ (issue_created e = true -> is_Some (leaf i (organization_id e) s)).

(** An event the loop has not reached: without issue, or marked by an earlier one. *)
Definition pending (s : store) (e : ProcessingEvent) : Prop :=
  issue_created e = false /\ (issue_id e = None \/ attributed s e).

Definition sound (hd : gmap (Z * ustr) HashObj) (s : store) : Prop :=
  forall key h, hd !! key = Some h -> hashes s !! key = Some (h_issue_id h).

Lemma leaf_mono (s s' : store) i o t : index s ⊆ index s' -> leaf i o s = Some t -> leaf i o s' = Some t.
Proof.
  intros Hs. unfold leaf. intros (m & Hm & Ho)%bind_Some. by rewrite (lookup_weaken _ _ _ _ Hm Hs).
Qed.

Lemma attributed_mono (s s' : store) e :
  hashes s ⊆ hashes s' -> index s ⊆ index s' -> attributed s e -> attributed s' e.
Proof.
  intros Hs Hx (i & ? & ? & ? & Hl). exists i. split_and!; [done..|by eapply lookup_weaken|].
  intros [t Ht]%Hl. exists t. by eapply leaf_mono.
Qed.

Lemma pending_mono (s s' : store) e :
  hashes s ⊆ hashes s' -> index s ⊆ index s' -> pending s e -> pending s' e.
Proof. intros Hs Hx [? [?|?]]; split; try done; [by left|right]. by eapply attributed_mono. Qed.

Lemma sound_mono hd (s s' : store) : hashes s ⊆ hashes s' -> sound hd s -> sound hd s'.
Proof. intros Hs H key h Hk. eapply lookup_weaken; [by apply H|done]. Qed.

Lemma mark_id (s : store) p h i l : Forall (attributed s) l -> check_set_issue_id p h i l = l.
Proof.
  intros Hl. unfold check_set_issue_id. induction Hl as [|e l (k & He & _) _ IH]; simpl; [done|].
  by rewrite He, IH.
Qed.

Lemma mark_strip p h i l : map strip (check_set_issue_id p h i l) = map strip l.
Proof.
  unfold check_set_issue_id. rewrite map_map. apply map_ext. intros e.
  destruct (issue_id e); [done|]. by case_bool_decide.
Qed.

Lemma mark_pending (s : store) p h i l :
  hashes s !! (p, h) = Some i -> 0 < i -> Forall (pending s) l ->
  Forall (pending s) (check_set_issue_id p h i l).
Proof.
  intros Hk Hi Hl. apply Forall_map. eapply Forall_impl; [exact Hl|]. intros e [Hc He].
  destruct (issue_id e) eqn:Ei; [by split; [|rewrite Ei]|].
  case_bool_decide as Hkey; [|by split; [|left]].
  split; [done|]. right. exists i. split_and!; [done|done| |by simpl; rewrite Hc].
  unfold event_key in *. simpl. by rewrite Hkey.
Qed.

(** The attribution of an event that has one. *)
Definition attr (e : ProcessingEvent) : Z * Z := (default 0 (issue_id e), organization_id e).

Definition created_occ (x : Z * Z) (es : list ProcessingEvent) : Z :=
  occ x (map attr (filter (fun e => issue_created e = true) es)).

Lemma created_occ_single x e :
  created_occ x [e] = if issue_created e then occ x [attr e] else 0.
Proof. unfold created_occ. rewrite filter_cons. by destruct (issue_created e). Qed.

(** What one turn of the loop does. *)
Definition step_ok (hd : gmap (Z * ustr) HashObj) (e : ProcessingEvent) (rest : list ProcessingEvent)
    (n : nat) (l : Loop tsvector) (l' : Loop tsvector) (rest' : list ProcessingEvent) : Prop :=
  exists e' fc,
    store_inv (l_store l') /\ hashes (l_store l) ⊆ hashes (l_store l')
    /\ index (l_store l) ⊆ index (l_store l')
    /\ l_done l' = l_done l ++ [e'] /\ strip e' = strip e /\ attributed (l_store l') e'
    /\ map strip rest' = map strip rest /\ Forall (pending (l_store l')) rest'
    /\ next_issue (l_store l) <= next_issue (l_store l')
    /\ (length fc <= n)%nat /\ Forall (fun x => next_issue (l_store l) <= x.1) fc
    /\ (forall j q, count_of (l_store l') j q
          = count_of (l_store l) j q + created_occ (j, q) [e'] + occ (j, q) fc).

Lemma create_for_spec e rest (l : Loop tsvector) :
  store_inv (l_store l) -> Forall (attributed (l_store l)) (l_done l) ->
  Forall (pending (l_store l)) rest ->
  exists l' rest', create_for to_tsvector urlparse e rest l = Ok (l', rest')
    /\ l_reopen l' = l_reopen l
    /\ forall hd, step_ok hd e rest 0 l l' rest'.
Proof.
  intros Hinv Hdone Hrest. unfold create_for.
  destruct (create_issue_spec (project_id e) (organization_id e) (issue_hash e) (issue_defaults e)
    (get_search_vector urlparse e) (l_store l) Hinv)
    as (i & c & s' & -> & Hinv' & Hi & Hk & Hsub & Hix & _ & Hnext & Hleaf & Hcount).
  cbn [res_bind]. eexists _, _. split; [done|]. split; [done|]. intros hd.
  exists (set_issue i c e), []. cbn [l_store l_done].
  assert (Forall (pending s') rest) as Hrest'.
  { eapply Forall_impl; [exact Hrest|]. intros ?. by apply pending_mono. }
  split_and!; try done.
  - destruct c; [|done]. f_equal. by eapply mark_id.
  - exists i. split_and!; [done..|]. intros Hc. by apply Hleaf.
  - destruct c; [apply mark_strip|done].
  - destruct c; [by apply mark_pending|done].
  - intros j q. rewrite Hcount, created_occ_single. change (occ (j, q) []) with 0.
    destruct c; simpl; change (attr _) with (i, organization_id e); lia.
Qed.

(** The issues the events of known hashes reopen, in order. *)
Definition reopen_pairs (hd : gmap (Z * ustr) HashObj) (es : list ProcessingEvent) : list (Z * Z) :=
  concat (map (fun e => match hd !! event_key e with
                        | Some h => if reopens h e then [(h_issue_id h, organization_id e)] else []
                        | None => []
                        end) es).

Lemma step_keep hd e rest (l : Loop tsvector) r i :
  store_inv (l_store l) -> Forall (pending (l_store l)) rest ->
  0 < i -> hashes (l_store l) !! event_key e = Some i ->
  step_ok hd e rest 0 l
    {| l_store := l_store l; l_done := l_done l ++ [set_issue i false e]; l_reopen := r |} rest.
Proof.
  intros Hinv Hrest Hi Hk. exists (set_issue i false e), []. split_and!; try done; simpl.
  - by exists i.
  - intros j q. rewrite created_occ_single. change (occ (j, q) []) with 0. simpl. lia.
Qed.

Lemma set_issue_same e i : issue_id e = Some i -> issue_created e = false -> set_issue i false e = e.
Proof. destruct e; simpl. by intros -> ->. Qed.

Lemma hash_positive (s : store) key i : store_inv s -> hashes s !! key = Some i -> 0 < i.
Proof.
  intros Hinv Hk. destruct (inv_hash s Hinv _ _ Hk) as (r & Hr & _).
  by destruct (inv_issue s Hinv _ _ Hr) as [[? _] _].
Qed.

Lemma z_truthy_pos i : 0 < i -> z_truthy (Some i) = true.
Proof. intros H. simpl. destruct (Z.eqb_spec i 0); [lia|done]. Qed.

(** A turn without other workers. *)
Lemma loop_step_alone hd e rest (l : Loop tsvector) :
  store_inv (l_store l) -> sound hd (l_store l) -> Forall (attributed (l_store l)) (l_done l) ->
  pending (l_store l) e -> Forall (pending (l_store l)) rest ->
  exists l' rest', loop_step to_tsvector urlparse hd [] e rest l = Ok (l', rest')
    /\ step_ok hd e rest 0 l l' rest' /\ l_reopen l' = rev (reopen_pairs hd [e]) ++ l_reopen l.
Proof.
  intros Hinv Hsound Hdone [Hc He] Hrest. unfold loop_step, reopen_pairs. simpl.
  destruct l as [s done re]. simpl in *. destruct (hd !! event_key e) as [h|] eqn:Eh.
  - pose proof (Hsound _ _ Eh) as Hk. pose proof (hash_positive s _ _ Hinv Hk) as Hpos.
    change (reopens h (set_issue (h_issue_id h) (issue_created e) e)) with (reopens h e). rewrite Hc.
    destruct (Z.eqb_spec (h_issue_id h) 0); [lia|]. simpl. eexists _, _. split; [done|].
    split; [by apply (step_keep hd e rest {| l_store := s; l_done := done; l_reopen := re |})|].
    simpl. by destruct (reopens h e).
  - destruct He as [He|(i & He & Hi & Hk & _)]; rewrite He; simpl.
    + destruct (create_for_spec e rest {| l_store := s; l_done := done; l_reopen := re |})
        as (l' & rest' & -> & Hre & Hok); [done..|]. exists l', rest'. split_and!; [done|apply Hok|done].
    + destruct (Z.eqb_spec i 0); [lia|]. simpl. eexists _, _. split; [done|]. split; [|done].
      pose proof (step_keep hd e rest {| l_store := s; l_done := done; l_reopen := re |} re i Hinv Hrest Hi Hk) as Hs.
      by rewrite set_issue_same in Hs.
Qed.

(** A turn after creations of other workers. *)
Lemma loop_step_spec hd fs e rest (l : Loop tsvector) :
  store_inv (l_store l) -> sound hd (l_store l) -> Forall (attributed (l_store l)) (l_done l) ->
  pending (l_store l) e -> Forall (pending (l_store l)) rest ->
  exists l' rest', loop_step to_tsvector urlparse hd fs e rest l = Ok (l', rest')
    /\ step_ok hd e rest (length fs) l l' rest' /\ l_reopen l' = rev (reopen_pairs hd [e]) ++ l_reopen l.
Proof.
  intros Hinv Hsound Hdone He Hrest.
  destruct (run_foreigns_spec fs (l_store l) Hinv) as (fc & Hinv1 & Hsub & Hix & Hnext & Hlen & Hfresh & Hcount).
  set (s1 := run_foreigns to_tsvector fs (l_store l)) in *.
  set (l1 := {| l_store := s1; l_done := l_done l; l_reopen := l_reopen l |}).
  destruct (loop_step_alone hd e rest l1) as (l' & rest' & E & Hok & Hre).
  - done.
  - by eapply sound_mono.
  - eapply Forall_impl; [exact Hdone|]. intros ?. by apply attributed_mono.
  - by eapply pending_mono.
  - eapply Forall_impl; [exact Hrest|]. intros ?. by apply pending_mono.
  - exists l', rest'. split; [exact E|]. split; [|done].
    destruct Hok as (e' & fc' & ? & Hsub2 & Hix2 & ? & ? & ? & ? & ? & Hn2 & Hlen2 & Hfresh2 & Hcount2).
    simpl in *. assert (fc' = []) as -> by (destruct fc'; simpl in *; [done|lia]).
    exists e', fc. split_and!; try done; [by etrans|by etrans|lia|].
    intros j q. rewrite Hcount2, Hcount. change (occ (j, q) []) with 0. lia.
Qed.

Lemma occ_nil x : occ x [] = 0.
Proof. done. Qed.

Lemma created_occ_cons x e es : created_occ x (e :: es) = created_occ x [e] + created_occ x es.
Proof.
  unfold created_occ. rewrite !filter_cons. destruct (decide _); simpl; [|done].
  rewrite !occ_cons, occ_nil. lia.
Qed.

Lemma reopen_pairs_cons hd e es : reopen_pairs hd (e :: es) = reopen_pairs hd [e] ++ reopen_pairs hd es.
Proof. unfold reopen_pairs. simpl. by rewrite app_nil_r. Qed.

Lemma strip_reopen hd l1 l2 : map strip l1 = map strip l2 -> reopen_pairs hd l1 = reopen_pairs hd l2.
Proof.
  revert l2. induction l1 as [|e1 l1 IH]; intros [|e2 l2] H; try done.
  pose proof (Some_inj _ _ (f_equal head H)) as He. pose proof (f_equal tail H) as Hl.
  clear H. cbn [tail map] in Hl.
  rewrite reopen_pairs_cons, (reopen_pairs_cons hd e2), (IH l2) by done. f_equal.
  unfold reopen_pairs. simpl. f_equal.
  change (event_key e1) with (event_key (strip e1)). change (event_key e2) with (event_key (strip e2)).
  change (organization_id e1) with (organization_id (strip e1)).
  change (organization_id e2) with (organization_id (strip e2)). rewrite He.
  destruct (hd !! event_key (strip e2)) as [h|]; [|done].
  change (reopens h e1) with (reopens h (strip e1)). change (reopens h e2) with (reopens h (strip e2)).
  by rewrite He.
Qed.

(** What the whole loop does to the events [rest]. *)
Lemma main_loop_spec hd rest : forall inter (l : Loop tsvector),
  store_inv (l_store l) -> sound hd (l_store l) -> Forall (attributed (l_store l)) (l_done l) ->
  Forall (pending (l_store l)) rest ->
  exists l' new fc, main_loop to_tsvector urlparse hd inter (length rest) rest l = Ok l'
    /\ store_inv (l_store l') /\ hashes (l_store l) ⊆ hashes (l_store l')
    /\ index (l_store l) ⊆ index (l_store l')
    /\ l_done l' = l_done l ++ new /\ map strip new = map strip rest
    /\ Forall (attributed (l_store l')) new
    /\ l_reopen l' = rev (reopen_pairs hd rest) ++ l_reopen l
    /\ next_issue (l_store l) <= next_issue (l_store l')
    /\ (length fc <= length (concat inter))%nat
    /\ Forall (fun x => next_issue (l_store l) <= x.1) fc
    /\ (forall j q, count_of (l_store l') j q
          = count_of (l_store l) j q + created_occ (j, q) new + occ (j, q) fc).
Proof.
  remember (length rest) as n eqn:Hn. revert rest Hn.
  induction n as [|n IH]; intros [|e rest] Hn inter l Hinv Hsound Hdone Hp; simplify_eq/=.
  { exists l, [], []. split_and!; try done; [by rewrite app_nil_r|simpl; lia|].
    intros. unfold created_occ. rewrite !occ_nil. lia. }
  apply Forall_cons in Hp as [He Hrest].
  destruct (loop_step_spec hd (List.hd [] inter) e rest l Hinv Hsound Hdone He Hrest)
    as (l1 & rest1 & -> & Hok & Hre). cbn [res_bind fst snd].
  destruct Hok as (e' & fc & Hinv1 & Hsub & Hix & Hd & Hs & Ha & Hs1 & Hp1 & Hnext & Hlen & Hfresh & Hcount).
  destruct (IH rest1) with (inter := tail inter) (l := l1)
    as (l' & new & fc2 & -> & Hinv2 & Hsub2 & Hix2 & Hd2 & Hs2 & Ha2 & Hre2 & Hnext2 & Hlen2 & Hfresh2 & Hcount2).
  - by rewrite <- (length_map strip rest1), Hs1, length_map.
  - done.
  - by eapply sound_mono.
  - rewrite Hd. apply Forall_app. split; [|by constructor].
    eapply Forall_impl; [exact Hdone|]. intros ?. by apply attributed_mono.
  - done.
  - exists l', (e' :: new), (fc ++ fc2). split_and!; try done.
    + by etrans.
    + by etrans.
    + by rewrite Hd2, Hd, <- app_assoc.
    + simpl. congruence.
    + constructor; [by eapply attributed_mono|done].
    + rewrite Hre2, Hre, (strip_reopen hd rest1 rest), (reopen_pairs_cons hd e rest) by done.
      by rewrite rev_app_distr, <- app_assoc.
    + lia.
    + destruct inter as [|fs inter]; simpl in *; rewrite length_app; [lia|]. rewrite length_app. lia.
    + apply Forall_app. split; [done|]. eapply Forall_impl; [exact Hfresh2|]. intros x Hx. cbv beta in *. etrans; [exact Hnext|exact Hx].
    + intros j q. rewrite Hcount2, Hcount, (created_occ_cons _ e' new), occ_app. lia.
Qed.

(** ** The statistics statement *)

(** The events of issue [i] that an update counts. *)
Definition updates_of (i : Z) (es : list ProcessingEvent) : list ProcessingEvent :=
  filter (fun e => issue_created e = false /\ issue_id e = Some i) es.

Lemma updates_of_other i es e :
  ~ (issue_created e = false /\ issue_id e = Some i) -> updates_of i (es ++ [e]) = updates_of i es.
Proof.
  intros H. unfold updates_of. rewrite filter_app, filter_cons, decide_False by done. apply app_nil_r.
Qed.

Lemma updates_of_hit i es e :
  issue_created e = false -> issue_id e = Some i -> updates_of i (es ++ [e]) = updates_of i es ++ [e].
Proof. intros ??. unfold updates_of. by rewrite filter_app, filter_cons, decide_True. Qed.

(** What the update for the events [l] holds: their number, the organization of one
    of them and the latest reception. *)
Definition update_ok (l : list ProcessingEvent) (v : IssueUpdate) : Prop :=
  u_added_count v = len l
  /\ (exists e, e ∈ l /\ u_organization_id v = organization_id e)
  /\ (exists e, e ∈ l /\ u_last_seen v = received e)
  /\ (forall e, e ∈ l -> received e <= u_last_seen v).

Lemma update_ok_snoc l v e (v' : IssueUpdate) :
  update_ok l v -> u_added_count v' = u_added_count v + 1 ->
  u_organization_id v' = u_organization_id v ->
  u_last_seen v' = (if u_last_seen v <? received e then received e else u_last_seen v) ->
  update_ok (l ++ [e]) v'.
Proof.
  intros (Hn & (e1 & He1 & Ho) & (e2 & He2 & Hl) & Hmax) Hn' Ho' Hl'. unfold update_ok.
  rewrite Hn', Ho', Hl', Hn. split_and!.
  - unfold len. rewrite length_app. simpl. lia.
  - exists e1. split; [apply elem_of_app; by left|done].
  - destruct (Z.ltb_spec (u_last_seen v) (received e)).
    + exists e. split; [apply elem_of_app; right; left|done].
    + exists e2. split; [apply elem_of_app; by left|done].
  - intros e3 [He3| ->%list_elem_of_singleton]%elem_of_app;
      [specialize (Hmax e3 He3)|]; destruct (Z.ltb_spec (u_last_seen v) (received e)); lia.
Qed.

Lemma collect_updates_spec es :
  Forall (fun e => exists i, issue_id e = Some i /\ 0 < i) es ->
  forall i, match collect_updates urlparse es !! i with
            | Some v => update_ok (updates_of i es) v
            | None => updates_of i es = []
            end.
Proof.
  induction es as [|e es IH] using rev_ind; [by intros _ i|].
  intros [Hes [(k & Hk & Hpos) _]%Forall_cons]%Forall_app i. specialize (IH Hes).
  unfold collect_updates in *. rewrite foldl_app. cbn [foldl].
  set (m := foldl _ ∅ es) in *. unfold add_update. rewrite Hk.
  destruct (issue_created e) eqn:Hc; cbn [orb].
  { rewrite updates_of_other by (rewrite Hc; by intros [? _]). apply IH. }
  destruct (Z.eqb_spec k 0); [lia|]. destruct (decide (k = i)) as [->|Hne].
  - rewrite (updates_of_hit i) by done. specialize (IH i).
    destruct (m !! i) as [v|] eqn:Em; rewrite lookup_insert_eq.
    + by eapply update_ok_snoc.
    + rewrite IH. split_and!; cbn; [done|by exists e; split; [left|]|by exists e; split; [left|]|].
      intros e3 ->%list_elem_of_singleton. lia.
  - rewrite updates_of_other by (intros [_ ?]; congruence). specialize (IH i).
    destruct (m !! k); by rewrite lookup_insert_ne.
Qed.

(** The count the rows add to an issue. *)
Definition rows_count (x : Z * Z) (rows : list (Z * IssueUpdate)) : Z :=
  zsum (map (fun r => if decide ((r.1, u_organization_id r.2) = x) then u_added_count r.2 else 0) rows).

Lemma rows_count_perm x l1 l2 : l1 ≡ₚ l2 -> rows_count x l1 = rows_count x l2.
Proof. unfold rows_count. induction 1; simpl; lia. Qed.

Lemma rows_count_none x l : Forall (fun r => r.1 <> x.1) l -> rows_count x l = 0.
Proof.
  unfold rows_count. induction 1 as [|r l Hr _ IH]; simpl; [done|]. rewrite IH.
  rewrite decide_False; [lia|]. by intros <-.
Qed.

Lemma rows_count_map j q (m : gmap Z IssueUpdate) :
  rows_count (j, q) (map_to_list m)
  = match m !! j with
    | Some v => if decide (u_organization_id v = q) then u_added_count v else 0
    | None => 0
    end.
Proof.
  destruct (m !! j) as [v|] eqn:E.
  - rewrite <- (insert_delete_id m j v E).
    rewrite (rows_count_perm _ _ ((j, v) :: map_to_list (delete j m)))
      by (apply map_to_list_insert, lookup_delete_eq).
    unfold rows_count at 1. simpl.
    change (zsum (map _ (map_to_list (delete j m)))) with (rows_count (j, q) (map_to_list (delete j m))).
    rewrite rows_count_none.
    + destruct (decide (u_organization_id v = q)) as [<-|]; [rewrite decide_True by done|
        rewrite decide_False by congruence]; lia.
    + apply Forall_forall. intros [k w] Hk%elem_of_map_to_list. simpl. intros ->.
      by rewrite lookup_delete_eq in Hk.
  - apply rows_count_none, Forall_forall. intros [k w] Hk%elem_of_map_to_list. simpl. intros ->.
    congruence.
Qed.

Lemma apply_update_count (s : store) r j q :
  count_of (apply_update to_tsvector append_and_limit_tsvector s r) j q
  = count_of s j q + rows_count (j, q) [r].
Proof.
  destruct r as [i v]. unfold apply_update, rows_count. simpl.
  destruct (decide ((i, u_organization_id v) = (j, q))) as [[= <- <-]|Hne].
  - unfold count_of. destruct (leaf i (u_organization_id v) s) as [t|] eqn:E;
      rewrite leaf_set_leaf_eq; simpl; lia.
  - unfold count_of. destruct (leaf i (u_organization_id v) s) as [t|];
      rewrite leaf_set_leaf_ne by done; lia.
Qed.

Lemma apply_updates_count rows (s : store) j q :
  count_of (foldl (apply_update to_tsvector append_and_limit_tsvector) s rows) j q
  = count_of s j q + rows_count (j, q) rows.
Proof.
  revert s. induction rows as [|r rows IH]; intros s; simpl; [unfold rows_count; simpl; lia|].
  rewrite IH, apply_update_count. unfold rows_count. simpl. lia.
Qed.

(** One organization per issue among the events of a batch. *)
Definition org_of_issue (es : list ProcessingEvent) : Prop :=
  forall e1 e2, e1 ∈ es -> e2 ∈ es -> issue_id e1 = issue_id e2 -> organization_id e1 = organization_id e2.

Definition updated_occ (x : Z * Z) (es : list ProcessingEvent) : Z :=
  occ x (map attr (filter (fun e => issue_created e = false) es)).

Lemma created_or_updated x es : created_occ x es + updated_occ x es = occ x (map attr es).
Proof.
  unfold created_occ, updated_occ. induction es as [|e es IH]; [done|].
  rewrite !filter_cons. simpl. rewrite occ_cons. destruct (issue_created e); simpl; rewrite occ_cons; lia.
Qed.

Lemma updates_of_cons j e es :
  updates_of j (e :: es)
  = if decide (issue_created e = false /\ issue_id e = Some j) then e :: updates_of j es else updates_of j es.
Proof. unfold updates_of. by rewrite filter_cons. Qed.

Lemma updated_occ_cons x e es :
  updated_occ x (e :: es)
  = (if decide (issue_created e = false /\ attr e = x) then 1 else 0) + updated_occ x es.
Proof.
  unfold updated_occ. rewrite filter_cons.
  destruct (decide (issue_created e = false)) as [Hc|Hc]; cbn [map].
  - rewrite occ_cons. by destruct (decide (attr e = x)) as [Ha|Ha];
      [rewrite (decide_True (P := _ /\ _))|rewrite (decide_False (P := _ /\ _)) by (by intros [_ ?])].
  - by rewrite (decide_False (P := _ /\ _)) by (by intros [? _]).
Qed.

Lemma updated_occ_length j q es :
  Forall (fun e => exists i, issue_id e = Some i /\ 0 < i) es ->
  (forall e, e ∈ updates_of j es -> organization_id e = q) ->
  updated_occ (j, q) es = len (updates_of j es).
Proof.
  induction 1 as [|e es (i & Hi & _) _ IH]; intros Ho; [done|].
  rewrite updated_occ_cons, updates_of_cons in *.
  destruct (decide (issue_created e = false /\ issue_id e = Some j)) as [[Hc Hj]|Hn].
  - rewrite IH by (intros e' He'; apply Ho; by right).
    rewrite decide_True; [unfold len; simpl; lia|]. split; [done|]. unfold attr. by rewrite Hj, (Ho e) by left.
  - rewrite IH by done. rewrite decide_False; [lia|]. intros [Hc [= Ha _]]. apply Hn.
    rewrite Hi in Ha. simpl in Ha. by subst.
Qed.

Lemma updated_occ_zero j q es :
  Forall (fun e => exists i, issue_id e = Some i /\ 0 < i) es ->
  (forall e, e ∈ updates_of j es -> organization_id e <> q) -> updated_occ (j, q) es = 0.
Proof.
  induction 1 as [|e es (i & Hi & _) _ IH]; intros Ho; [done|].
  rewrite updated_occ_cons. rewrite updates_of_cons in Ho.
  rewrite IH by (intros e' He'; apply Ho; case_decide; [by right|done]).
  rewrite decide_False; [lia|]. intros [Hc [= Ha Hq]]. apply (Ho e); [|done].
  rewrite decide_True; [left|]. split; [done|]. rewrite Hi in *. simpl in Ha. by subst.
Qed.

(** Every event that did not create its issue is counted once by the update. *)
Lemma update_issues_count es (s : store) j q :
  Forall (fun e => exists i, issue_id e = Some i /\ 0 < i) es -> org_of_issue es ->
  count_of (update_issues to_tsvector append_and_limit_tsvector urlparse es s) j q
  = count_of s j q + updated_occ (j, q) es.
Proof.
  intros Hes Horg. unfold update_issues. rewrite apply_updates_count. f_equal.
  rewrite (rows_count_perm _ _ (map_to_list (collect_updates urlparse es))), rows_count_map
    by apply merge_sort_Permutation.
  pose proof (collect_updates_spec es Hes j) as Hj.
  destruct (collect_updates urlparse es !! j) as [v|].
  - destruct Hj as (Hn & (e1 & He1 & Ho) & _).
    assert (forall e, e ∈ updates_of j es -> organization_id e = u_organization_id v) as Hall.
    { intros e He. rewrite Ho. unfold updates_of in *.
      apply list_elem_of_filter in He as [[_ Hi] Hin], He1 as [[_ Hi1] Hin1].
      apply Horg; [done..|congruence]. }
    case_decide as Hq.
    + subst q. by rewrite updated_occ_length, Hn.
    + symmetry. apply updated_occ_zero; [done|]. intros e He. by rewrite (Hall e He).
  - symmetry. apply updated_occ_zero; [done|]. rewrite Hj. by intros e ?%elem_of_nil.
Qed.

(** ** The other statements keep the invariant *)

(** [s'] differs from [s] in the hot rows only, and not in which issues have some. *)
Definition leaf_frame (s s' : store) (ids : list Z) : Prop :=
  counters s' = counters s /\ next_issue s' = next_issue s /\ issues s' = issues s
  /\ hashes s' = hashes s /\ notifications s' = notifications s /\ events s' = events s
  /\ forall i, is_Some (index s' !! i) -> is_Some (index s !! i) \/ i ∈ ids.

Lemma leaf_frame_refl (s : store) ids : leaf_frame s s ids.
Proof. repeat split; auto. Qed.

Lemma leaf_frame_trans (s1 s2 s3 : store) a b :
  leaf_frame s1 s2 a -> leaf_frame s2 s3 b -> leaf_frame s1 s3 (a ++ b).
Proof.
  intros (?&?&?&?&?&?&Hd1) (?&?&?&?&?&?&Hd2). split_and!; try congruence.
  intros i [Hi|Hi]%Hd2; [apply Hd1 in Hi as [?|?]|]; rewrite ?elem_of_app; auto.
Qed.

Lemma leaf_frame_set i o r (s : store) : leaf_frame s (set_leaf i o r s) [i].
Proof.
  repeat split; try done. intros j Hj. simpl in Hj. destruct (decide (i = j)) as [->|Hne].
  - right. left.
  - left. by rewrite lookup_insert_ne in Hj.
Qed.

Lemma leaf_frame_fold {A} (f : store -> A -> store) (g : A -> Z) l (s : store) :
  (forall s x, leaf_frame s (f s x) [g x]) -> leaf_frame s (foldl f s l) (map g l).
Proof.
  intros Hf. revert s. induction l as [|x l IH]; intros s; simpl; [apply leaf_frame_refl|].
  apply (leaf_frame_trans _ _ _ [g x] (map g l) (Hf s x) (IH (f s x))).
Qed.

Lemma store_inv_frame (s s' : store) ids :
  store_inv s -> leaf_frame s s' ids -> Forall (fun i => i < next_issue s) ids -> store_inv s'.
Proof.
  intros [? ? ? ? Hx] (Hc & Hn & Hi & Hh & _ & _ & Hd) Hids.
  split; rewrite ?Hc, ?Hn, ?Hi, ?Hh; try done.
  intros i [Hs|Hin]%Hd; [by apply Hx|]. rewrite Forall_forall in Hids. by apply Hids.
Qed.

Lemma apply_updates_frame rows (s : store) :
  leaf_frame s (foldl (apply_update to_tsvector append_and_limit_tsvector) s rows) (map fst rows).
Proof.
  apply leaf_frame_fold. intros s' [i v]. unfold apply_update.
  destruct (leaf i (u_organization_id v) s'); apply leaf_frame_set.
Qed.

Lemma reopen_leaf_frame l (s : store) : leaf_frame s (foldl reopen_leaf s l) (map fst l).
Proof.
  apply leaf_frame_fold. intros s' [i o]. unfold reopen_leaf. simpl.
  destruct (leaf i o s'); [apply leaf_frame_set|apply leaf_frame_refl].
Qed.

Lemma reopen_leaf_count (s : store) p j q : count_of (reopen_leaf s p) j q = count_of s j q.
Proof.
  destruct p as [i o]. unfold reopen_leaf, count_of. simpl. destruct (leaf i o s) as [t|] eqn:E; [|done].
  destruct (decide ((i, o) = (j, q))) as [[= <- <-]|Hne].
  - by rewrite leaf_set_leaf_eq, E.
  - by rewrite leaf_set_leaf_ne.
Qed.

Lemma reopen_leafs_count l (s : store) j q : count_of (foldl reopen_leaf s l) j q = count_of s j q.
Proof.
  revert s. induction l as [|p l IH]; intros s; simpl; [done|]. by rewrite IH, reopen_leaf_count.
Qed.

Lemma store_inv_clear ids (s : store) : store_inv s -> store_inv (clear_resolved_in ids s).
Proof.
  intros [Hn Hh Hi Hs Hx].
  assert (forall i r', issues (clear_resolved_in ids s) !! i = Some r' ->
    exists r, issues s !! i = Some r /\ i_project r' = i_project r /\ i_short_id r' = i_short_id r) as Hlook.
  { intros i r'. simpl. rewrite map_lookup_imap. destruct (issues s !! i) as [r|]; [|done]. simpl.
    intros [= <-]. exists r. split; [done|]. by case_bool_decide. }
  split; try done.
  - intros key i Hk. destruct (Hh key i Hk) as (r & Hr & Hp). simpl. rewrite map_lookup_imap, Hr. simpl.
    eexists. split; [done|]. by case_bool_decide.
  - intros i r' (r & Hr & -> & ->)%Hlook. by apply Hi.
  - intros i j ri rj (r1 & H1 & -> & ->)%Hlook (r2 & H2 & -> & ->)%Hlook. by apply Hs.
Qed.

(** Everything but the hot rows that a reopening keeps. *)
Lemma reopen_issues_spec l (s : store) :
  store_inv s -> Forall (fun p => p.1 < next_issue s) l ->
  store_inv (reopen_issues l s) /\ hashes (reopen_issues l s) = hashes s
  /\ events (reopen_issues l s) = events s
  /\ forall j q, count_of (reopen_issues l s) j q = count_of s j q.
Proof.
  intros Hinv Hl. destruct l as [|p l]; [done|]. cbn [reopen_issues].
  set (s1 := foldl reopen_leaf s (p :: l)).
  pose proof (reopen_leaf_frame (p :: l) s) as Hf. fold s1 in Hf.
  assert (store_inv s1) as Hinv1 by (eapply store_inv_frame; [done|exact Hf|by apply Forall_map]).
  destruct Hf as (_ & _ & _ & Hh & _ & He & _).
  pose proof (store_inv_clear (p :: l).*1 s1 Hinv1) as Hinv2. split_and!.
  - by destruct Hinv2.
  - done.
  - done.
  - intros j q. exact (reopen_leafs_count (p :: l) s j q).
Qed.


(** ** The fetched hashes *)

Lemma fetch_hash_sound (s : store) key h : fetch_hash s key = Some h -> hashes s !! key = Some (h_issue_id h).
Proof.
  unfold fetch_hash. destruct (hashes s !! key) as [i|]; [|done]. simpl.
  destruct (issues s !! i); [|done]. simpl. destruct (index s !! i); [|done]. simpl.
  destruct (head _); [|done]. by intros [= <-].
Qed.

Lemma fetch_raw_sound keys (s : store) : sound (fetch_issue_hashes_raw keys s) s.
Proof.
  unfold fetch_issue_hashes_raw. induction keys as [|k keys IH]; intros key h; simpl; [by rewrite lookup_empty|].
  destruct (fetch_hash s k) as [h'|] eqn:E; [|apply IH].
  rewrite lookup_insert_Some. intros [[<- <-]|[_ Hk]]; [by apply fetch_hash_sound|by apply IH].
Qed.

(** A replica may lag behind the primary. *)
Definition lags (replica : option store) (s : store) : Prop :=
  match replica with Some r => hashes r ⊆ hashes s | None => True end.

Lemma fetch_hashes_sound replica (s : store) es : lags replica s -> sound (fetch_hashes replica s es) s.
Proof.
  intros Hl. unfold fetch_hashes. destruct replica as [r|]; [|apply fetch_raw_sound].
  intros key h [Hk|[_ Hk]]%lookup_union_Some_raw; [by eapply fetch_raw_sound|].
  eapply lookup_weaken; [by eapply fetch_raw_sound|exact Hl].
Qed.

(** ** The batch *)

(** Events as [build_processing_event] makes them, one organization per project. *)
Definition fresh_batch (es : list ProcessingEvent) : Prop :=
  Forall (fun e => issue_id e = None /\ issue_created e = false) es
  /\ forall e1 e2, e1 ∈ es -> e2 ∈ es -> project_id e1 = project_id e2 ->
       organization_id e1 = organization_id e2.

Lemma attributed_positive (s : store) es :
  Forall (attributed s) es -> Forall (fun e => exists i, issue_id e = Some i /\ 0 < i) es.
Proof. intros H. eapply Forall_impl; [exact H|]. intros e (i & ? & ? & _). by exists i. Qed.

Lemma attributed_below (s : store) e i :
  store_inv s -> attributed s e -> issue_id e = Some i -> i < next_issue s.
Proof.
  intros Hinv (k & He & _ & Hk & _) Hi. assert (k = i) as -> by congruence.
  destruct (inv_hash s Hinv _ _ Hk) as (r & Hr & _).
  by destruct (inv_issue s Hinv _ _ Hr) as [[_ ?] _].
Qed.

Lemma strip_elem es es' e : map strip es' = map strip es -> e ∈ es' -> exists e0, e0 ∈ es /\ strip e0 = strip e.
Proof.
  intros Hs He. assert (strip e ∈ map strip es) as Hin.
  { rewrite <- Hs. apply list_elem_of_In, in_map, list_elem_of_In. done. }
  apply list_elem_of_In, in_map_iff in Hin as (e0 & Heq & Hin0). exists e0.
  split; [by apply list_elem_of_In|done].
Qed.

Lemma strip_fields e e' : strip e = strip e' ->
  project_id e = project_id e' /\ organization_id e = organization_id e' /\ received e = received e'
  /\ event_key e = event_key e'.
Proof.
  intros H. change (project_id e) with (project_id (strip e)).
  change (organization_id e) with (organization_id (strip e)).
  change (received e) with (received (strip e)). change (event_key e) with (event_key (strip e)).
  by rewrite H.
Qed.

Lemma attributed_one_org (s : store) es es' :
  store_inv s -> fresh_batch es -> map strip es' = map strip es -> Forall (attributed s) es' ->
  org_of_issue es'.
Proof.
  intros Hinv [_ Horg] Hs Ha e1 e2 He1 He2 Hi. rewrite Forall_forall in Ha.
  destruct (Ha e1 He1) as (i & Hi1 & _ & Hk1 & _), (Ha e2 He2) as (j & Hi2 & _ & Hk2 & _).
  assert (j = i) as -> by congruence.
  destruct (inv_hash s Hinv _ _ Hk1) as (r & Hr & Hp1), (inv_hash s Hinv _ _ Hk2) as (r2 & Hr2 & Hp2).
  assert (r2 = r) as -> by congruence. unfold event_key in *. simpl in *.
  destruct (strip_elem _ _ _ Hs He1) as (e1' & Hin1 & (? & ? & _)%strip_fields).
  destruct (strip_elem _ _ _ Hs He2) as (e2' & Hin2 & (? & ? & _)%strip_fields).
  rewrite <- (Horg e1' e2') in *; [congruence|done|done|congruence].
Qed.

Lemma update_issues_frame es (s : store) :
  store_inv s -> Forall (attributed s) es ->
  let s' := update_issues to_tsvector append_and_limit_tsvector urlparse es s in
  store_inv s' /\ hashes s' = hashes s /\ next_issue s' = next_issue s /\ events s' = events s
  /\ notifications s' = notifications s /\ issues s' = issues s.
Proof.
  intros Hinv Ha s'. pose proof (apply_updates_frame (update_rows (collect_updates urlparse es)) s) as Hf.
  split; [|destruct Hf as (_ & ? & ? & ? & ? & ? & _); by split_and!].
  eapply store_inv_frame; [done|exact Hf|]. apply Forall_forall. intros i Hi.
  apply list_elem_of_In, in_map_iff in Hi as ([k v] & <- & Hin). simpl.
  apply list_elem_of_In in Hin. unfold update_rows in Hin. rewrite merge_sort_Permutation in Hin.
  apply elem_of_map_to_list in Hin.
  pose proof (collect_updates_spec es (attributed_positive s es Ha) k) as Hk. rewrite Hin in Hk.
  destruct Hk as (_ & (e & He & _) & _). apply list_elem_of_filter in He as [[_ He] Hin'].
  rewrite Forall_forall in Ha. by eapply attributed_below; [|apply Ha|].
Qed.

Lemma reopen_pairs_below hd (s : store) es :
  store_inv s -> sound hd s -> Forall (fun p => p.1 < next_issue s) (reopen_pairs hd es).
Proof.
  intros Hinv Hsound. unfold reopen_pairs. induction es as [|e es IH]; simpl; [constructor|].
  apply Forall_app. split; [|done]. destruct (hd !! event_key e) as [h|] eqn:E; [|constructor].
  destruct (reopens h e); [|constructor]. constructor; [|constructor]. simpl.
  apply Hsound in E. destruct (inv_hash s Hinv _ _ E) as (r & Hr & _).
  by destruct (inv_issue s Hinv _ _ Hr) as [[_ ?] _].
Qed.

(** The state after each stage of [process_events]. *)
Lemma process_events_spec new_id replica inter es (s : store) :
  store_inv s -> lags replica s -> fresh_batch es ->
  exists s1 es' fc,
    let hd := fetch_hashes replica s es in
    let s2 := update_issues to_tsvector append_and_limit_tsvector urlparse es' s1 in
    let s3 := reopen_issues (reopen_pairs hd es) s2 in
    process_events to_tsvector append_and_limit_tsvector urlparse new_id replica inter es s
      = Ok (insert_events (event_rows new_id es') s3, es')
    /\ store_inv s1 /\ store_inv s2 /\ store_inv s3
    /\ hashes s ⊆ hashes s1 /\ hashes s3 = hashes s1 /\ index s ⊆ index s1
    /\ map strip es' = map strip es /\ Forall (attributed s1) es'
    /\ sound hd s /\ org_of_issue es'
    /\ (length fc <= length (concat inter))%nat /\ Forall (fun x => next_issue s <= x.1) fc
    /\ (forall j q, count_of s3 j q = count_of s j q + occ (j, q) (map attr es') + occ (j, q) fc).
Proof.
  intros Hinv Hlag Hfresh. pose proof (fetch_hashes_sound replica s es Hlag) as Hsound.
  set (hd := fetch_hashes replica s es) in *.
  destruct (main_loop_spec hd es inter {| l_store := s; l_done := []; l_reopen := [] |})
    as (l' & new & fc & E & Hinv1 & Hsub & Hix & Hd & Hs & Ha & Hre & Hnext & Hlen & Hff & Hcount);
    [done|done|constructor| |].
  { eapply Forall_impl; [exact (proj1 Hfresh)|]. intros e [? ?]. split; [done|by left]. }
  simpl in *. exists (l_store l'), new, fc. cbv zeta.
  destruct (update_issues_frame new (l_store l') Hinv1 Ha) as (Hinv2 & Hh2 & Hn2 & _).
  set (s2 := update_issues _ _ _ new (l_store l')) in *.
  assert (Forall (fun p => p.1 < next_issue s2) (reopen_pairs hd es)) as Hbelow.
  { apply reopen_pairs_below; [done|]. rewrite <- Hh2 in Hsub. by eapply sound_mono. }
  destruct (reopen_issues_spec (reopen_pairs hd es) s2 Hinv2 Hbelow) as (Hinv3 & Hh3 & _ & Hc3).
  pose proof (attributed_one_org _ _ _ Hinv1 Hfresh Hs Ha) as Horg.
  split_and!; try done.
  - unfold process_events. fold hd. rewrite E. cbn [res_bind]. rewrite Hd. fold s2.
    by rewrite Hre, app_nil_r, rev_involutive.
  - congruence.
  - intros j q. rewrite Hc3. subst s2. rewrite update_issues_count, Hcount; [|by eapply attributed_positive|done].
    rewrite <- created_or_updated. lia.
Qed.

(** ** Hot rows *)

(** Statuses are kept and [last_seen] never goes back. *)
Definition leaf_le (t t' : IndexRow tsvector) : Prop :=
  x_status t' = x_status t /\ x_last_seen t <= x_last_seen t'.

Lemma apply_update_leaf (s : store) r j q t :
  leaf j q s = Some t ->
  exists t', leaf j q (apply_update to_tsvector append_and_limit_tsvector s r) = Some t' /\ leaf_le t t'.
Proof.
  intros Ht. destruct r as [i v]. unfold apply_update.
  destruct (decide ((i, u_organization_id v) = (j, q))) as [[= <- <-]|Hne].
  - rewrite Ht, leaf_set_leaf_eq. eexists. split; [done|]. split; simpl; [done|lia].
  - destruct (leaf i (u_organization_id v) s); rewrite leaf_set_leaf_ne by done;
      (exists t; split; [done|]; split; [done|lia]).
Qed.

Lemma apply_updates_leaf rows (s : store) j q t :
  leaf j q s = Some t ->
  exists t', leaf j q (foldl (apply_update to_tsvector append_and_limit_tsvector) s rows) = Some t' /\ leaf_le t t'.
Proof.
  revert s t. induction rows as [|r rows IH]; intros s t Ht; simpl; [exists t; repeat split; [done|lia]|].
  destruct (apply_update_leaf s r j q t Ht) as (t1 & H1 & E1 & L1).
  destruct (IH _ _ H1) as (t2 & H2 & E2 & L2). exists t2. split; [done|]. split; [congruence|lia].
Qed.

Lemma apply_update_seen (s : store) r :
  exists t, leaf r.1 (u_organization_id r.2) (apply_update to_tsvector append_and_limit_tsvector s r) = Some t
    /\ u_last_seen r.2 <= x_last_seen t.
Proof.
  destruct r as [i v]. unfold apply_update. simpl.
  destruct (leaf i (u_organization_id v) s); rewrite leaf_set_leaf_eq;
    (eexists; split; [done|]; simpl; lia).
Qed.

Lemma apply_updates_seen rows (s : store) r :
  r ∈ rows ->
  exists t, leaf r.1 (u_organization_id r.2)
      (foldl (apply_update to_tsvector append_and_limit_tsvector) s rows) = Some t
    /\ u_last_seen r.2 <= x_last_seen t.
Proof.
  revert s. induction rows as [|r0 rows IH]; intros s Hr; simpl; [by apply elem_of_nil in Hr|].
  apply elem_of_cons in Hr as [<-|Hr]; [|by apply IH].
  destruct (apply_update_seen s r) as (t & Ht & Hs).
  destruct (apply_updates_leaf rows _ _ _ _ Ht) as (t' & Ht' & _ & Hle). exists t'. split; [done|lia].
Qed.

(** The hot row of every event of the batch exists and has seen it. *)
Lemma update_issues_seen es (s : store) e i :
  Forall (attributed s) es -> org_of_issue es -> e ∈ es -> issue_id e = Some i ->
  exists t, leaf i (organization_id e) (update_issues to_tsvector append_and_limit_tsvector urlparse es s) = Some t
    /\ (issue_created e = false -> received e <= x_last_seen t).
Proof.
  intros Ha Horg He Hi. unfold update_issues.
  destruct (issue_created e) eqn:Hc.
  - rewrite Forall_forall in Ha. destruct (Ha e He) as (k & Hk & _ & _ & Hl).
    assert (k = i) as -> by congruence. destruct (Hl Hc) as [t Ht].
    destruct (apply_updates_leaf (update_rows (collect_updates urlparse es)) s _ _ _ Ht) as (t' & Ht' & _).
    by exists t'.
  - pose proof (collect_updates_spec es (attributed_positive s es Ha) i) as Hu.
    assert (e ∈ updates_of i es) as Hin by (by apply list_elem_of_filter).
    destruct (collect_updates urlparse es !! i) as [v|] eqn:Ev;
      [|by rewrite Hu in Hin; apply elem_of_nil in Hin].
    destruct Hu as (_ & (e1 & He1 & Ho) & _ & Hmax).
    assert (u_organization_id v = organization_id e) as Hov.
    { rewrite Ho. apply list_elem_of_filter in He1 as [[_ Hi1] Hin1]. apply Horg; [done..|congruence]. }
    destruct (apply_updates_seen (update_rows (collect_updates urlparse es)) s (i, v)) as (t & Ht & Hs).
    { unfold update_rows. rewrite merge_sort_Permutation. by apply elem_of_map_to_list. }
    simpl in *. rewrite Hov in Ht. exists t. split; [done|]. intros _. specialize (Hmax e Hin). lia.
Qed.

Definition reopened (t : IndexRow tsvector) : IndexRow tsvector :=
  {| x_last_release := x_last_release t; x_last_seen := x_last_seen t; x_count := x_count t;
     x_status := UNRESOLVED; x_level := x_level t; x_fts := x_fts t |}.

Lemma reopen_leafs_leaf l (s : store) j q :
  leaf j q (foldl reopen_leaf s l) = (if decide ((j, q) ∈ l) then reopened else (fun t => t)) <$> leaf j q s.
Proof.
  revert s. induction l as [|[i o] l IH]; intros s; cbn [foldl].
  { rewrite decide_False by (by intros ?%elem_of_nil). by destruct (leaf j q s). }
  rewrite IH. unfold reopen_leaf. cbn [fst snd].
  destruct (decide ((i, o) = (j, q))) as [[= -> ->]|Hne].
  - rewrite (decide_True (P := (j, q) ∈ (j, q) :: l)) by left.
    destruct (leaf j q s) as [t|] eqn:E; [|by rewrite E].
    rewrite leaf_set_leaf_eq. by case_decide.
  - assert (leaf j q (match leaf i o s with
              | Some t => set_leaf i o (reopened t) s
              | None => s end) = leaf j q s) as E.
    { destruct (leaf i o s); [by apply leaf_set_leaf_ne|done]. }
    unfold reopened in E. rewrite E. f_equal.
    destruct (decide ((j, q) ∈ l)); [by rewrite decide_True by (by right)|].
    rewrite decide_False; [done|]. intros [?|?]%elem_of_cons; [congruence|done].
Qed.

Lemma reopen_issues_leaf l (s : store) j q :
  leaf j q (reopen_issues l s) = (if decide ((j, q) ∈ l) then reopened else (fun t => t)) <$> leaf j q s.
Proof.
  destruct l as [|p l]; [|exact (reopen_leafs_leaf (p :: l) s j q)].
  rewrite decide_False by (by intros ?%elem_of_nil). cbn [reopen_issues]. by destruct (leaf j q s).
Qed.

Lemma reopen_pairs_elem hd es e h :
  e ∈ es -> hd !! event_key e = Some h -> reopens h e = true ->
  (h_issue_id h, organization_id e) ∈ reopen_pairs hd es.
Proof.
  intros He Hh Hr. unfold reopen_pairs. apply list_elem_of_In, in_concat.
  eexists. split; [apply in_map, list_elem_of_In, He|]. rewrite Hh, Hr. by left.
Qed.

(** What the reopening statements do to an issue in the list. *)
Lemma reopen_issues_cleared l (s : store) i o :
  (i, o) ∈ l ->
  (forall r, issues (reopen_issues l s) !! i = Some r -> i_resolved_in r = None)
  /\ (forall n m, notifications (reopen_issues l s) !! n = Some m -> i ∉ m).
Proof.
  intros Hin. assert (i ∈ l.*1) as Hi by (apply list_elem_of_fmap; by exists (i, o)).
  destruct l as [|p l]; [by apply elem_of_nil in Hin|]. cbn [reopen_issues]. split.
  - intros r. cbn [delete_notifications clear_resolved_in issues]. rewrite map_lookup_imap.
    destruct (_ !! i) as [r0|]; [|done]. cbn [mbind option_bind]. rewrite bool_decide_true by done.
    by intros [= <-].
  - intros n m. cbn [delete_notifications notifications]. intros [_ Hd]%map_lookup_filter_Some.
    simpl in Hd. set_solver.
Qed.

(** ** Properties *)


(** C2: a batch counts every event exactly once: the counter of an issue grows by the
    number of its events, whether they created the issue, came after its creation or
    lost the race for it; issues other workers created start at one. *)
Theorem batch_counts_once new_id replica inter es (s : store) :
  store_inv s -> lags replica s -> fresh_batch es ->
  exists s' es' fc,
    process_events to_tsvector append_and_limit_tsvector urlparse new_id replica inter es s = Ok (s', es')
    /\ (length fc <= length (concat inter))%nat /\ Forall (fun x => next_issue s <= x.1) fc
    /\ forall i org, count_of s' i org = count_of s i org + occ (i, org) (map attr es') + occ (i, org) fc.
Proof.
  intros Hinv Hlag Hf.
  destruct (process_events_spec new_id replica inter es s Hinv Hlag Hf)
    as (s1 & es' & fc & E & _ & _ & _ & _ & _ & _ & _ & _ & _ & _ & Hlen & Hff & Hcount).
  eexists _, es', fc. split; [exact E|]. split_and!; [done..|]. exact Hcount.
Qed.

(** A resolved issue and an event that does not come from the resolving release. *)
Definition should_reopen (h : HashObj) (e : ProcessingEvent) : Prop :=
  h_status h = RESOLVED
  /\ (h_resolved_in h = None
      \/ exists r er, h_resolved_in h = Some r /\ release_id e = Some er /\ r <> er).

Lemma reopens_spec h e : reopens h e = true <-> should_reopen h e.
Proof.
  unfold reopens, should_reopen. rewrite andb_true_iff, Z.eqb_eq.
  destruct (h_resolved_in h) as [r|]; [|naive_solver].
  destruct (release_id e) as [er|]; [rewrite negb_true_iff, Z.eqb_neq|]; naive_solver.
Qed.

Lemma reopen_pairs_inv hd es i o :
  (i, o) ∈ reopen_pairs hd es ->
  exists e h, e ∈ es /\ hd !! event_key e = Some h /\ h_issue_id h = i /\ organization_id e = o
    /\ should_reopen h e.
Proof.
  unfold reopen_pairs. intros Hin. apply list_elem_of_In, in_concat in Hin as (l & Hl & Hin).
  apply in_map_iff in Hl as (e & <- & He). apply list_elem_of_In in He.
  destruct (hd !! event_key e) as [h|] eqn:Hh; [|done].
  destruct (reopens h e) eqn:Hr; [|done]. destruct Hin as [[= <- <-]|[]].
  apply reopens_spec in Hr. by exists e, h.
Qed.

(** C3: take a batch whose hash is read, from the replica or else the primary, as that
    of a resolved issue.  If the issue is read as resolved in no particular release, or
    the event has a known release and it is another one than the release read, the issue
    is reopened: its status becomes unresolved, the release it was resolved in and the
    notifications that hold it are cleared.  An event without a known release reopens
    only an issue resolved in no particular release.  Every existing issue that no event
    of the batch reopens in this way keeps its status.  The replica may lag behind the
    primary: what counts is the status and release that were read. *)
Theorem batch_reopens new_id replica inter es (s : store) :
  store_inv s -> lags replica s -> fresh_batch es ->
  let hd := fetch_hashes replica s es in
  exists s' es',
    process_events to_tsvector append_and_limit_tsvector urlparse new_id replica inter es s = Ok (s', es')
    /\ (forall e h, e ∈ es -> hd !! event_key e = Some h -> should_reopen h e ->
          (exists t, leaf (h_issue_id h) (organization_id e) s' = Some t /\ x_status t = UNRESOLVED)
          /\ (forall r, issues s' !! h_issue_id h = Some r -> i_resolved_in r = None)
          /\ (forall n m, notifications s' !! n = Some m -> h_issue_id h ∉ m))
    /\ (forall j q t, leaf j q s = Some t ->
          (forall e h, e ∈ es -> hd !! event_key e = Some h -> h_issue_id h = j ->
             organization_id e = q -> ~ should_reopen h e) ->
          exists t', leaf j q s' = Some t' /\ x_status t' = x_status t).
Proof.
  intros Hinv Hlag Hf hd.
  destruct (process_events_spec new_id replica inter es s Hinv Hlag Hf)
    as (s1 & es' & fc & E & Hinv1 & Hinv2 & Hinv3 & Hsub & Hh & Hix & Hs & Ha & Hsound & Horg & _).
  fold hd in E, Hinv3, Hh, Hsound. eexists _, es'. split; [exact E|].
  set (s2 := update_issues _ _ _ es' s1) in *. split.
  - intros e h He Hk Hr%reopens_spec. pose proof (reopen_pairs_elem hd es e h He Hk Hr) as Hp.
    destruct (reopen_issues_cleared (reopen_pairs hd es) s2 _ _ Hp) as [Hc1 Hc2].
    split; [|by split]. destruct (strip_elem es' es e) as (e' & He' & (_ & Ho & _ & Hkey)%strip_fields); [done..|].
    rewrite Forall_forall in Ha. destruct (Ha e' He') as (i & Hi & _ & Hki & _).
    assert (i = h_issue_id h) as ->.
    { rewrite Hkey in Hki. apply Hsound in Hk. eapply lookup_weaken in Hk; [|exact Hsub]. congruence. }
    destruct (update_issues_seen es' s1 e' (h_issue_id h)) as (t & Ht & _); [by apply Forall_forall|done..|].
    exists (reopened t). split; [|done].
    change (leaf (h_issue_id h) (organization_id e) (reopen_issues (reopen_pairs hd es) s2) = Some (reopened t)).
    rewrite reopen_issues_leaf, decide_True by done. rewrite <- Ho. fold s2 in Ht. by rewrite Ht.
  - intros j q t Ht Hn. pose proof (leaf_mono _ _ _ _ _ Hix Ht) as Ht1.
    destruct (apply_updates_leaf (update_rows (collect_updates urlparse es')) s1 _ _ _ Ht1) as (t2 & Ht2 & Hst & _).
    exists t2. split; [|done].
    change (leaf j q (reopen_issues (reopen_pairs hd es) s2) = Some t2).
    rewrite reopen_issues_leaf, decide_False.
    + change s2 with (foldl (apply_update to_tsvector append_and_limit_tsvector) s1
        (update_rows (collect_updates urlparse es'))). by rewrite Ht2.
    + intros (e & h & He & Hk & Hi & Ho & Hr)%reopen_pairs_inv. by eapply Hn.
Qed.

(** The last time an issue was seen never moves back, whatever the order of the
    events, and is at least the reception of every event counted into the issue. *)
Theorem batch_last_seen new_id replica inter es (s : store) :
  store_inv s -> lags replica s -> fresh_batch es ->
  exists s' es',
    process_events to_tsvector append_and_limit_tsvector urlparse new_id replica inter es s = Ok (s', es')
    /\ (forall e i, e ∈ es' -> issue_id e = Some i -> issue_created e = false ->
          exists t, leaf i (organization_id e) s' = Some t /\ received e <= x_last_seen t)
    /\ (forall j q t, leaf j q s = Some t ->
          exists t', leaf j q s' = Some t' /\ x_last_seen t <= x_last_seen t').
Proof.
  intros Hinv Hlag Hf.
  destruct (process_events_spec new_id replica inter es s Hinv Hlag Hf)
    as (s1 & es' & fc & E & _ & _ & _ & _ & _ & Hix & _ & Ha & _ & Horg & _).
  eexists _, es'. split; [exact E|].
  set (s2 := update_issues _ _ _ es' s1) in *. set (l := reopen_pairs _ es) in *.
  assert (forall j q t, leaf j q s2 = Some t ->
    exists t', leaf j q (reopen_issues l s2) = Some t' /\ x_last_seen t' = x_last_seen t) as Hre.
  { intros j q t Ht. rewrite reopen_issues_leaf, Ht. case_decide; simpl; eauto. }
  split.
  - intros e i He Hi Hc. destruct (update_issues_seen es' s1 e i Ha Horg He Hi) as (t & Ht & Hseen).
    destruct (Hre _ _ _ Ht) as (t' & Ht' & Hl). exists t'. split; [exact Ht'|]. rewrite Hl. by apply Hseen.
  - intros j q t Ht. pose proof (leaf_mono _ _ _ _ _ Hix Ht) as Ht1.
    destruct (apply_updates_leaf (update_rows (collect_updates urlparse es')) s1 _ _ _ Ht1) as (t2 & Ht2 & _ & Hl2).
    destruct (Hre j q t2 Ht2) as (t' & Ht' & Hl). exists t'. split; [exact Ht'|]. lia.
Qed.
End theorems.

(** ** Storing event rows *)

Lemma insert_ignore_lookup (rows : list ((ustr * Z) * EventRow)) : forall (m : gmap (ustr * Z) EventRow) id,
  insert_ignore rows m !! id
  = match m !! id with Some r => Some r | None => aget id rows end.
Proof.
  unfold aget. induction rows as [|[id0 r0] rows IH]; intros m id; simpl; [by destruct (m !! id)|].
  rewrite IH. destruct (m !! id0) eqn:E0.
  - destruct (m !! id) eqn:E; [done|]. rewrite decide_False by congruence. done.
  - destruct (decide (id0 = id)) as [->|Hne].
    + by rewrite lookup_insert_eq, E0.
    + by rewrite lookup_insert_ne by done.
Qed.

Lemma copy_rows_insert (rows : list ((ustr * Z) * EventRow)) (m m' : gmap (ustr * Z) EventRow) :
  copy_rows rows m = Some m' -> insert_ignore rows m = m'.
Proof.
  revert m. induction rows as [|[id r] rows IH]; intros m; simpl; [by intros [= ->]|].
  destruct (m !! id); [done|apply IH].
Qed.

(** The COPY with its fallback stores what a conflict-tolerant insert stores: rows
    already there are kept, every row of the batch whose key is free is stored, the
    first one when a key repeats. *)
Theorem insert_events_spec {tsvector : Type} (rows : list ((ustr * Z) * EventRow)) (s : Store tsvector) id :
  events (insert_events rows s) !! id
  = match events s !! id with Some r => Some r | None => aget id rows end.
Proof.
  rewrite <- insert_ignore_lookup. unfold insert_events. simpl.
  destruct (copy_rows rows (events s)) as [m|] eqn:E; [|done]. by rewrite (copy_rows_insert _ _ _ E).
Qed.

(** ** A batch

    Issue 7 is resolved.  The batch holds an event of it, two events of a new hash and
    one whose issue another worker creates just before its turn. *)
Definition sample_event (hash : string) (received : Z) : ProcessingEvent :=
  {| project_id := 1; organization_id := 10; received := received; payload := sample_payload;
     issue_hash := u hash; title := u "Boom"; pe_transaction := u "f"; metadata := []; event_data := [];
     event_tags := []; pe_level := Some 4; issue_id := None; issue_created := false; release_id := None;
     pe_uuid := None |}.
Arguments sample_event _%_string _.

Definition sample_store : Store (list ustr) :=
  {| counters := {[1 := 1]}; next_issue := 8;
     issues := {[7 := {| i_project := 1; i_type := ETError; i_title := u "Boom"; i_metadata := VNone;
                         i_first_seen := 0; i_first_release := None; i_short_id := 1; i_resolved_in := None |}]};
     hashes := {[(1, u "aa") := 7]};
     index := {[7 := {[10 := {| x_last_release := None; x_last_seen := 5; x_count := 3; x_status := RESOLVED;
                                x_level := 4; x_fts := [] |}]}]};
     notifications := {[3 := {[7]}]}; events := ∅ |}.

Definition sample_batch : list ProcessingEvent :=
  [sample_event "aa" 9; sample_event "bb" 4; sample_event "bb" 3; sample_event "cc" 6].
Definition sample_interleaving : list (list Foreign) :=
  [[]; []; []; [{| f_project := 1; f_org := 10; f_hash := u "cc";
                   f_defaults := issue_defaults (sample_event "cc" 2); f_document := [] |}]].

Lemma sample_store_inv : store_inv sample_store.
Proof.
  split; simpl; [done|..].
  - intros key i [<- <-]%lookup_singleton_Some. eexists. by rewrite lookup_singleton_eq.
  - by intros i r [<- <-]%lookup_singleton_Some.
  - by intros i j ri rj [<- <-]%lookup_singleton_Some [<- <-]%lookup_singleton_Some.
  - intros i [x [<- _]%lookup_singleton_Some]. done.
Qed.

Lemma sample_fresh : fresh_batch sample_batch.
Proof.
  split; [by repeat (constructor; [done|])|].
  intros e1 e2 H1 H2 _. unfold sample_batch in *.
  assert (forall e, e ∈ sample_batch -> organization_id e = 10) as H.
  { apply Forall_forall. by repeat (constructor; [done|]). }
  by rewrite (H e1), (H e2).
Qed.

Definition run_sample :=
  process_events (fun d => [d]) (fun v d => v ++ [d]) (fun _ => Raise ValueError)
    (fun n _ => str_of_Z (Z.of_nat n)) None sample_interleaving sample_batch sample_store.

Example run_sample_issues :
  (let* r := run_sample in Ok (map issue_id r.2, map issue_created r.2))
  = Ok ([Some 7; Some 8; Some 8; Some 9], [false; true; false; false]).
Proof. by_compute. Qed.


Lemma batch_counts_once_witness :
  exists s' es', run_sample = Ok (s', es') /\ count_of s' 7 10 = 4.
Proof.
  destruct (batch_counts_once (fun d => [d]) (fun v d => v ++ [d]) (fun _ => Raise ValueError)
    (fun n _ => str_of_Z (Z.of_nat n)) None sample_interleaving sample_batch sample_store
    sample_store_inv I sample_fresh) as (s' & es' & fc & E & _ & Hff & Hc).
  exists s', es'. split; [exact E|]. rewrite Hc.
  assert (map attr es' = [(7, 10); (8, 10); (8, 10); (9, 10)]) as ->.
  { assert (Ok (map attr es') = Ok [(7, 10); (8, 10); (8, 10); (9, 10)]) as Em; [|by injection Em].
    transitivity (let* r := run_sample in Ok (map attr r.2)); [|by_compute].
    unfold run_sample. by rewrite E. }
  assert (occ (7, 10) fc = 0) as ->; [|by_compute].
  unfold occ. clear -Hff. induction Hff as [|x fc Hx _ IH]; [done|]. simpl in *. rewrite IH.
  rewrite decide_False; [done|]. intros ->. simpl in Hx. lia.
Defined.

Lemma batch_reopens_witness :
  exists s' es' t, run_sample = Ok (s', es') /\ leaf 7 10 s' = Some t /\ x_status t = UNRESOLVED.
Proof.
  destruct (batch_reopens (fun d => [d]) (fun v d => v ++ [d]) (fun _ => Raise ValueError)
    (fun n _ => str_of_Z (Z.of_nat n)) None sample_interleaving sample_batch sample_store
    sample_store_inv I sample_fresh) as (s' & es' & E & Hr & _).
  destruct (Hr (sample_event "aa" 9) {| h_issue_id := 7; h_status := RESOLVED; h_resolved_in := None |})
    as ((t & Ht & Hs) & _); [left|by_compute|by split; [|left]|].
  exists s', es', t. split; [exact E|by split].
Defined.

Lemma batch_last_seen_witness :
  exists s' es' t, run_sample = Ok (s', es') /\ leaf 7 10 s' = Some t /\ 5 <= x_last_seen t.
Proof.
  destruct (batch_last_seen (fun d => [d]) (fun v d => v ++ [d]) (fun _ => Raise ValueError)
    (fun n _ => str_of_Z (Z.of_nat n)) None sample_interleaving sample_batch sample_store
    sample_store_inv I sample_fresh) as (s' & es' & E & _ & Hl).
  destruct (Hl 7 10 _ eq_refl) as (t & Ht & Hs). exists s', es', t. split; [exact E|by split].
Defined.
