(* ===== verification/Releases.v ===== *)
(** * Releases and environments of a batch

    [_get_or_create_related_models], [get_and_create_releases] and
    [create_environments] of [apps/event_ingest/process_event.py].  Releases and
    environments have the same two tables: the named rows of an organization and
    their links to projects.  Reads of existing rows go to a replica. *)
From S2P Require Import Prelude PyStr.

(** ** Tables *)

(** A named row: id, name (version of a release), organization. *)
Abbreviation named_row := (Z * ustr * Z)%type.

Record Named := {
  n_next : Z;                    (* the sequence of ids *)
  n_rows : list named_row;
  n_links : list (Z * Z);        (* row id, project id *)
}.

Definition row_key (r : named_row) : ustr * Z := (r.1.2, r.2).

(** INSERT ... ON CONFLICT (organization_id, name) DO NOTHING. *)
Definition insert_named (t : Named) (key : ustr * Z) : Named :=
  if bool_decide (key ∈ map row_key (n_rows t)) then
    {| n_next := n_next t + 1; n_rows := n_rows t; n_links := n_links t |}
  else
    {| n_next := n_next t + 1; n_rows := n_rows t ++ [(n_next t, key.1, key.2)]; n_links := n_links t |}.

(** SELECT id, name, organization_id ... WHERE (name, organization_id) IN (...). *)
Definition select_named (keys : list (ustr * Z)) (t : Named) : list named_row :=
  filter (fun r => row_key r ∈ keys) (n_rows t).

(** INSERT INTO the link table ... ON CONFLICT DO NOTHING. *)
Definition insert_link (t : Named) (l : Z * Z) : Named :=
  {| n_next := n_next t; n_rows := n_rows t;
     n_links := if bool_decide (l ∈ n_links t) then n_links t else n_links t ++ [l] |}.

(** ** Existing rows *)

(** A row of the joined query. *)
Record ProjectRow := {
  pr_id : Z;
  pr_release_id : Z;
  pr_release_name : ustr;
  pr_environment_id : option Z;
  pr_environment_name : option ustr;
  pr_has_difs : bool;
}.

Definition linked (t : Named) (project : Z) : list named_row :=
  filter (fun r => (r.1.1, project) ∈ n_links t) (n_rows t).

(** The SELECT with its LEFT JOINs and WHERE clause. *)
Definition related_rows (has_difs : Z -> bool) (projects : list Z) (versions names : list ustr)
    (releases environments : Named) : list ProjectRow :=
  concat (map (fun p =>
    let envs := match linked environments p with
                | [] => [(None, None)]
                | l => map (fun r => (Some r.1.1, Some r.1.2)) l
                end in
    let envs := filter (fun e => match e.2 with Some n => bool_decide (n ∈ names) | None => true end = true) envs in
    concat (map (fun r : named_row =>
      map (fun e => {| pr_id := p; pr_release_id := r.1.1; pr_release_name := r.1.2;
                       pr_environment_id := e.1; pr_environment_name := e.2;
                       pr_has_difs := has_difs p |}) envs)
      (filter (fun r => r.1.2 ∈ versions) (linked releases p)))) projects).

(** ** Creating the missing ones *)

(** A name, project and organization of the batch; the code's sets are lists in an
    unspecified order. *)
Abbreviation triple := (ustr * Z * Z)%type.
Definition triple_key (x : triple) : ustr * Z := (x.1.1, x.2).

(** [next(project_id for (name, project_id, organization_id) in s if ...)] *)
Definition project_of (s : list triple) (r : named_row) : option Z :=
  first_some (fun x => if bool_decide (triple_key x = row_key r) then Some x.1.2 else None) s.

(** The links of the rows to one project each. *)
Definition new_links (s : list triple) (rows : list named_row) : list (Z * Z) :=
  omap (fun r => p ← project_of s r; Some (r.1.1, p)) rows.

Definition create_missing (s : list triple) (to_create : list (ustr * Z)) (t : Named)
    : list named_row * Named :=
  match to_create with
  | [] => ([], t)
  | _ =>
      let t := foldl insert_named t to_create in
      let rows := select_named to_create t in
      (rows, foldl insert_link t (new_links s rows))
  end.

Definition create_environments (environment_set : list triple) (projects_with_data : list ProjectRow)
    (t : Named) : Named :=
  let env_to_create :=
    map triple_key (filter (fun x => find_first (fun d => bool_decide (pr_environment_name d = Some x.1.1)
                                                 && (pr_id d =? x.1.2)) projects_with_data = None)
                           environment_set) in
  (create_missing environment_set env_to_create t).2.

Definition known_release (projects_with_data : list ProjectRow) (x : triple) : option Z :=
  pr_release_id <$> find_first (fun d => ustr_eqb (pr_release_name d) x.1.1 && (pr_id d =? x.1.2))
                      projects_with_data.

(** Returns the version, project and release id of each member of [release_set]. *)
Definition get_and_create_releases (release_set : list triple) (projects_with_data : list ProjectRow)
    (t : Named) : list (ustr * Z * Z) * Named :=
  let releases_to_create :=
    map triple_key (filter (fun x => known_release projects_with_data x = None) release_set) in
  let '(release_rows, t) := create_missing release_set releases_to_create t in
  (map (fun x =>
     (x.1.1, x.1.2,
      match known_release projects_with_data x with
      | Some rid => rid
      | None => default 0 (first_some (fun r => if bool_decide (row_key r = triple_key x) then Some r.1.1 else None)
                             release_rows)
      end)) release_set, t).

(** [replica_releases] and [replica_environments] are the tables the query reads. *)
Definition get_or_create_related_models (has_difs : Z -> bool) (release_set environment_set : list triple)
    (project_set : list Z) (replica_releases replica_environments releases environments : Named)
    : list (ustr * Z * Z) * list ProjectRow * Named * Named :=
  let versions := map (fun x => x.1.1) release_set in
  let names := map (fun x => x.1.1) environment_set in
  let projects_with_data :=
    match project_set, versions, names with
    | [], _, _ | _, [], _ | _, _, [] => []
    | _, _, _ => related_rows has_difs project_set versions names replica_releases replica_environments
    end in
  let '(rs, releases) := get_and_create_releases release_set projects_with_data releases in
  let environments := create_environments environment_set projects_with_data environments in
  (rs, projects_with_data, releases, environments).

(** ** Lemmas *)

Lemma insert_named_rows t key : n_rows t ⊆ n_rows (insert_named t key).
Proof. unfold insert_named. case_bool_decide; simpl; set_solver. Qed.

Lemma insert_named_has t key : key ∈ map row_key (n_rows (insert_named t key)).
Proof.
  unfold insert_named. case_bool_decide as H; simpl; [done|].
  rewrite map_app. apply elem_of_app. right. simpl. rewrite list_elem_of_singleton. by destruct key.
Qed.

Lemma insert_all_rows keys t : n_rows t ⊆ n_rows (foldl insert_named t keys).
Proof.
  revert t. induction keys as [|key keys IH]; intros t; simpl; [done|].
  etrans; [apply insert_named_rows|apply IH].
Qed.

Lemma map_key_mono l1 l2 : l1 ⊆ l2 -> map row_key l1 ⊆ map row_key l2.
Proof. intros H x (r & -> & Hr)%list_elem_of_fmap. apply list_elem_of_fmap. exists r. auto. Qed.

Lemma insert_all_has keys t key :
  key ∈ keys -> key ∈ map row_key (n_rows (foldl insert_named t keys)).
Proof.
  revert t. induction keys as [|k keys IH]; intros t Hk; simpl; [by apply elem_of_nil in Hk|].
  apply elem_of_cons in Hk as [->|Hk]; [|by apply IH].
  eapply map_key_mono; [apply insert_all_rows|apply insert_named_has].
Qed.

Lemma insert_links_rows l t : n_rows (foldl insert_link t l) = n_rows t.
Proof. revert t. induction l as [|x l IH]; intros t; simpl; [done|]. by rewrite IH. Qed.

Lemma insert_links_keep l t : n_links t ⊆ n_links (foldl insert_link t l).
Proof.
  revert t. induction l as [|x l IH]; intros t; simpl; [done|].
  etrans; [|apply IH]. simpl. case_bool_decide; set_solver.
Qed.

Lemma insert_links_has l t x : x ∈ l -> x ∈ n_links (foldl insert_link t l).
Proof.
  revert t. induction l as [|y l IH]; intros t Hx; simpl; [by apply elem_of_nil in Hx|].
  apply elem_of_cons in Hx as [->|Hx]; [|by apply IH].
  apply insert_links_keep. simpl. case_bool_decide; [done|]. set_solver.
Qed.

Lemma create_missing_rows s to_create t : n_rows t ⊆ n_rows (create_missing s to_create t).2.
Proof.
  unfold create_missing. destruct to_create as [|key keys]; [done|]. cbn [snd].
  rewrite insert_links_rows. apply insert_all_rows.
Qed.

(** Every created name is returned with its row. *)
Lemma create_missing_found s to_create t key :
  key ∈ to_create ->
  exists r, r ∈ (create_missing s to_create t).1 /\ row_key r = key
    /\ r ∈ n_rows (create_missing s to_create t).2.
Proof.
  intros Hk. unfold create_missing. destruct to_create as [|k0 keys]; [by apply elem_of_nil in Hk|].
  cbn [fst snd]. rewrite insert_links_rows.
  pose proof (insert_all_has (k0 :: keys) t key Hk) as (r & Hr & Hin)%list_elem_of_fmap.
  exists r. split_and!; [|done|done]. apply list_elem_of_filter. by rewrite <- Hr.
Qed.

Lemma create_missing_selected s to_create t r :
  r ∈ (create_missing s to_create t).1 -> r ∈ n_rows (create_missing s to_create t).2.
Proof.
  unfold create_missing. destruct to_create as [|k keys]; simpl; [by intros ?%elem_of_nil|].
  rewrite insert_links_rows. by intros [_ ?]%list_elem_of_filter.
Qed.

(** A selected row is linked to the project [project_of] picks. *)
Lemma create_missing_linked s to_create t r p :
  r ∈ (create_missing s to_create t).1 -> project_of s r = Some p ->
  (r.1.1, p) ∈ n_links (create_missing s to_create t).2.
Proof.
  unfold create_missing. destruct to_create as [|k keys]; [by intros ?%elem_of_nil|]. cbn [fst snd].
  intros Hr Hp. apply insert_links_has. unfold new_links. apply list_elem_of_omap. exists r.
  split; [done|]. by rewrite Hp.
Qed.

(** ** The rows the query returns *)

(** Rows linked to a project belong to the organization of the project. *)
Definition links_ok (org_of : Z -> Z) (t : Named) : Prop :=
  forall r p, r ∈ n_rows t -> (r.1.1, p) ∈ n_links t -> r.2 = org_of p.

Lemma related_rows_sound has_difs ps vs ns rel env d :
  d ∈ related_rows has_difs ps vs ns rel env ->
  exists org, (pr_release_id d, pr_release_name d, org) ∈ n_rows rel
    /\ (pr_release_id d, pr_id d) ∈ n_links rel.
Proof.
  unfold related_rows. intros Hd. apply list_elem_of_In, in_concat in Hd as (l & Hl & Hd).
  apply in_map_iff in Hl as (p & <- & Hp). apply in_concat in Hd as (l & Hl & Hd).
  apply in_map_iff in Hl as ([[rid v] org] & <- & Hr). apply in_map_iff in Hd as (e & <- & _). simpl.
  apply list_elem_of_In, list_elem_of_filter in Hr as [_ [Hlink Hr]%list_elem_of_filter]. eauto.
Qed.

(** ** Properties *)

(** Every release of the batch is resolved to a row of that version in the
    organization of its project, existing or created. *)
Theorem releases_resolved has_difs org_of release_set environment_set project_set
    replica_rel replica_env rel env :
  links_ok org_of replica_rel -> n_rows replica_rel ⊆ n_rows rel ->
  (forall x, x ∈ release_set -> x.2 = org_of x.1.2) ->
  let '(rs, _, rel', _) := get_or_create_related_models has_difs release_set environment_set project_set
                             replica_rel replica_env rel env in
  Forall2 (fun x y => y.1 = x.1 /\ (y.2, x.1.1, x.2) ∈ n_rows rel') release_set rs.
Proof.
  intros Hok Hsub Horg. unfold get_or_create_related_models.
  set (pd := match project_set, _, _ with [], _, _ | _, [], _ | _, _, [] => [] | _, _, _ => _ end).
  assert (forall d, d ∈ pd -> exists org, (pr_release_id d, pr_release_name d, org) ∈ n_rows replica_rel
    /\ (pr_release_id d, pr_id d) ∈ n_links replica_rel) as Hpd.
  { intros d. subst pd. repeat case_match; try (by intros ?%elem_of_nil); apply related_rows_sound. }
  unfold get_and_create_releases. set (tc := map triple_key _).
  pose proof (create_missing_rows release_set tc rel) as Hrows.
  pose proof (create_missing_found release_set tc rel) as Hfound.
  pose proof (create_missing_selected release_set tc rel) as Hsel.
  destruct (create_missing release_set tc rel) as [rr rel'] eqn:Ec. simpl in *.
  apply Forall2_fmap_r. apply Forall_Forall2_diag, Forall_forall. intros [[v p] o] Hx. simpl.
  specialize (Horg _ Hx). simpl in Horg. split; [done|].
  destruct (known_release pd (v, p, o)) as [rid|] eqn:Ek.
  - unfold known_release in Ek. apply fmap_Some in Ek as (d & Hd & ->).
    apply find_first_Some in Hd as [Hin Hb]. simpl in Hb. bool_split.
    apply ustr_eqb_eq in H. destruct (Hpd d Hin) as (org & Hr & Hl).
    pose proof (Hok _ _ Hr Hl) as Ho. simpl in Ho. subst. by apply Hrows, Hsub.
  - assert ((v, o) ∈ tc) as Htc.
    { apply list_elem_of_fmap. exists (v, p, o). split; [done|]. by apply list_elem_of_filter. }
    destruct (Hfound _ Htc) as (r & Hr & Hkey & _).
    destruct (first_some _ rr) as [rid|] eqn:Ef.
    + apply first_some_Some in Ef as ([[rid' v'] o'] & Hr' & Hb). case_bool_decide as Hk; [|done].
      injection Hb as <-. unfold row_key, triple_key in Hk. simpl in *. injection Hk as -> ->. by apply Hsel.
    + exfalso. rewrite first_some_None, Forall_forall in Ef. specialize (Ef r Hr).
      by rewrite bool_decide_true in Ef.
Qed.

(** A new release seen from one project of its organization is linked to that
    project; with several projects in the same batch one of them is linked. *)
Theorem new_release_linked release_set pd t x :
  x ∈ release_set -> known_release pd x = None ->
  exists rid y, (rid, x.1.1, x.2) ∈ n_rows (get_and_create_releases release_set pd t).2
    /\ y ∈ release_set /\ triple_key y = triple_key x
    /\ (rid, y.1.2) ∈ n_links (get_and_create_releases release_set pd t).2.
Proof.
  intros Hx Hk. unfold get_and_create_releases. set (tc := map triple_key _).
  assert (triple_key x ∈ tc) as Htc.
  { apply list_elem_of_fmap. exists x. split; [done|]. by apply list_elem_of_filter. }
  pose proof (create_missing_found release_set tc t _ Htc) as (r & Hr & Hkey & Hrow).
  pose proof (create_missing_linked release_set tc t r) as Hlink.
  destruct (create_missing release_set tc t) as [rr t']. simpl in *.
  destruct (project_of release_set r) as [p|] eqn:Ep.
  - pose proof Ep as Ep'. unfold project_of in Ep'. apply first_some_Some in Ep' as (y & Hy & Hb).
    case_bool_decide as Hyr; [|done]. injection Hb as <-.
    exists r.1.1, y. split_and!; [|done|congruence|by apply Hlink].
    destruct r as [[rid v] o], x as [[v' p'] o']. unfold row_key, triple_key in Hkey. simpl in *.
    by injection Hkey as <- <-.
  - exfalso. unfold project_of in Ep. rewrite first_some_None, Forall_forall in Ep.
    specialize (Ep x Hx). by rewrite bool_decide_true in Ep.
Qed.

Definition empty_named : Named := {| n_next := 1; n_rows := []; n_links := [] |}.

Lemma releases_resolved_witness :
  let '(rs, _, rel', _) := get_or_create_related_models (fun _ => false) [(u "1.0", 5, 9)] [] [5]
                             empty_named empty_named empty_named empty_named in
  rs = [(u "1.0", 5, 1)]
  /\ Forall2 (fun x y => y.1 = x.1 /\ (y.2, x.1.1, x.2) ∈ n_rows rel') [(u "1.0", 5, 9)] rs.
Proof.
  split; [by_compute|].
  apply (releases_resolved (fun _ => false) (fun _ => 9) [(u "1.0", 5, 9)] [] [5]
    empty_named empty_named empty_named empty_named).
  - by intros r p ?%elem_of_nil.
  - done.
  - by intros x ->%list_elem_of_singleton.
Defined.

Lemma new_release_linked_witness :
  exists rid y, (rid, u "1.0", 9) ∈ n_rows (get_and_create_releases [(u "1.0", 5, 9)] [] empty_named).2
    /\ y ∈ [(u "1.0", 5, 9)] /\ triple_key y = (u "1.0", 9)
    /\ (rid, y.1.2) ∈ n_links (get_and_create_releases [(u "1.0", 5, 9)] [] empty_named).2.
Proof. apply (new_release_linked [(u "1.0", 5, 9)] [] empty_named (u "1.0", 5, 9)); [left|done]. Defined.

(** Two projects of one organization send a new release in one batch: the second
    project gets the release id, but no link to the release. *)
Example second_project_not_linked :
  let r := get_and_create_releases [(u "1.0", 5, 9); (u "1.0", 6, 9)] [] empty_named in
  r.1 = [(u "1.0", 5, 1); (u "1.0", 6, 1)] /\ n_links r.2 = [(1, 5)].
Proof. split; by_compute. Qed.
