(* ===== verification/Statistics.v ===== *)
(** * Hourly statistics and tag counts

    [update_statistics], [update_org_statistics] and [update_tags] of
    [apps/event_ingest/process_event.py]: counts collected per key in nested
    dictionaries (here maps on tuples) and added to a table by an upsert.  The rows are
    sorted in the code to take locks in one order; the order does not change the result
    and is left out. *)
From S2P Require Import Prelude PyStr PyValue IngestUtils IngestEvent.

(** ** Counting by key *)

Section counting.
Context {K : Type} `{Countable K}.

(** [{"count": 0, "organization_id": None}] per key. *)
Record Stat := { st_count : Z; st_org : option Z }.

Definition stat_of (m : gmap K Stat) (k : K) : Stat :=
  default {| st_count := 0; st_org := None |} (m !! k).

(** [stats["count"] += 1; stats["organization_id"] = org] *)
Definition bump (m : gmap K Stat) (x : K * Z) : gmap K Stat :=
  <[x.1 := {| st_count := st_count (stat_of m x.1) + 1; st_org := Some x.2 |}]> m.

Definition collect (l : list (K * Z)) : gmap K Stat := foldl bump ∅ l.

(** The rows with a known organization. *)
Definition stat_row (kv : K * Stat) : option ((K * Z) * Z) :=
  match st_org kv.2 with Some o => Some ((kv.1, o), st_count kv.2) | None => None end.

Definition stat_rows (m : gmap K Stat) : list ((K * Z) * Z) := omap stat_row (map_to_list m).

(** INSERT ... ON CONFLICT DO UPDATE SET count = count + EXCLUDED.count. *)
Definition upsert (t : gmap (K * Z) Z) (r : (K * Z) * Z) : gmap (K * Z) Z :=
  <[r.1 := default 0 (t !! r.1) + r.2]> t.

Definition upsert_rows (t : gmap (K * Z) Z) (rows : list ((K * Z) * Z)) : gmap (K * Z) Z :=
  foldl upsert t rows.

(** ** Lemmas *)

Definition count_in (t : gmap (K * Z) Z) (k : K * Z) : Z := default 0 (t !! k).

Definition tally (x : K * Z) (l : list (K * Z)) : Z := zsum (map (fun y => if decide (y = x) then 1 else 0) l).

(** A key has one organization. *)
Definition one_org_per_key (l : list (K * Z)) : Prop :=
  forall k o1 o2, (k, o1) ∈ l -> (k, o2) ∈ l -> o1 = o2.

Lemma tally_app x l1 l2 : tally x (l1 ++ l2) = tally x l1 + tally x l2.
Proof. unfold tally. by rewrite map_app, zsum_app. Qed.

Lemma tally_none x l : x ∉ l -> tally x l = 0.
Proof.
  unfold tally. induction l as [|y l IH]; intros Hx; simpl; [done|].
  rewrite decide_False by (intros ->; apply Hx; left). rewrite IH; [done|].
  intros ?. apply Hx. by right.
Qed.

Lemma collect_spec l :
  one_org_per_key l ->
  forall k, match collect l !! k with
            | Some s => exists o, st_org s = Some o /\ (k, o) ∈ l /\ st_count s = tally (k, o) l
            | None => forall o, (k, o) ∉ l
            end.
Proof.
  unfold collect. induction l as [|[k0 o0] l IH] using rev_ind; intros Hone k.
  { cbn [foldl]. rewrite lookup_empty. by intros o ?%elem_of_nil. }
  rewrite foldl_app. cbn [foldl]. set (m := foldl bump ∅ l) in *.
  assert (one_org_per_key l) as Hl.
  { intros k1 o1 o2 H1 H2. apply (Hone k1); apply elem_of_app; by left. }
  unfold bump. cbn [fst snd]. destruct (decide (k0 = k)) as [->|Hne].
  - rewrite lookup_insert_eq. exists o0. cbn [st_org st_count]. split_and!; [done|apply elem_of_app; right; left|].
    rewrite tally_app. unfold tally at 2. simpl. rewrite decide_True by done.
    specialize (IH Hl k). unfold stat_of. destruct (m !! k) as [s|].
    + destruct IH as (o & Ho & Hin & Hc). simpl. rewrite Hc.
      rewrite (Hone k o o0); [lia|apply elem_of_app; by left|apply elem_of_app; right; left].
    + rewrite (tally_none _ l) by apply IH. simpl. lia.
  - rewrite lookup_insert_ne by done. specialize (IH Hl k). destruct (m !! k) as [s|].
    + destruct IH as (o & Ho & Hin & ->). exists o. split_and!; [done|apply elem_of_app; by left|].
      rewrite tally_app. unfold tally at 3. simpl. rewrite decide_False by congruence. lia.
    + intros o [Hin|[= -> _]%list_elem_of_singleton]%elem_of_app; [by apply (IH o)|done].
Qed.

Definition rows_tally (x : K * Z) (rows : list ((K * Z) * Z)) : Z :=
  zsum (map (fun r => if decide (r.1 = x) then r.2 else 0) rows).

Lemma upsert_rows_count rows t x : count_in (upsert_rows t rows) x = count_in t x + rows_tally x rows.
Proof.
  unfold upsert_rows, rows_tally. revert t. induction rows as [|r rows IH]; intros t; simpl; [lia|].
  rewrite IH. unfold upsert, count_in. destruct (decide (r.1 = x)) as [->|Hne].
  - rewrite lookup_insert_eq. simpl. lia.
  - rewrite lookup_insert_ne by done. lia.
Qed.

Lemma rows_tally_perm x l1 l2 : l1 ≡ₚ l2 -> rows_tally x l1 = rows_tally x l2.
Proof. unfold rows_tally. induction 1; simpl; lia. Qed.

Lemma omap_perm {A B} (f : A -> option B) l1 l2 : l1 ≡ₚ l2 -> omap f l1 ≡ₚ omap f l2.
Proof. intros Hp. by rewrite Hp. Qed.

Lemma rows_tally_none (m : gmap K Stat) k o : m !! k = None -> rows_tally (k, o) (stat_rows m) = 0.
Proof.
  intros Hk. unfold rows_tally.
  assert (Forall (fun r => r.1.1 <> k) (stat_rows m)) as Hall.
  { apply Forall_forall. intros [[k' o'] n] ([k2 s] & Hin & Hr)%list_elem_of_omap. unfold stat_row in Hr. simpl in *.
    destruct (st_org s); simplify_eq. apply elem_of_map_to_list in Hin. congruence. }
  induction Hall as [|r rows Hr _ IH]; simpl; [done|]. rewrite IH.
  rewrite decide_False; [done|]. intros E. rewrite E in Hr. done.
Qed.

Lemma rows_tally_map (m : gmap K Stat) k o :
  rows_tally (k, o) (stat_rows m)
  = match m !! k with
    | Some s => if decide (st_org s = Some o) then st_count s else 0
    | None => 0
    end.
Proof.
  destruct (m !! k) as [s|] eqn:E; [|by apply rows_tally_none].
  rewrite <- (insert_delete_id m k s E). unfold stat_rows.
  rewrite (rows_tally_perm _ _ (omap _ ((k, s) :: map_to_list (delete k m))))
    by (apply omap_perm, map_to_list_insert, lookup_delete_eq).
  pose proof (rows_tally_none (delete k m) k o (lookup_delete_eq m k)) as Hd. unfold stat_rows in Hd.
  change (omap stat_row ((k, s) :: map_to_list (delete k m))) with
    (match stat_row (k, s) with Some r => r :: omap stat_row (map_to_list (delete k m))
     | None => omap stat_row (map_to_list (delete k m)) end).
  unfold stat_row at 1. cbn [fst snd]. destruct (st_org s) as [o'|]; [|by rewrite decide_False].
  unfold rows_tally in *. cbn [map]. rewrite zsum_cons, Hd. cbn [fst snd].
  destruct (decide (o' = o)) as [->|]; [by rewrite !decide_True, Z.add_0_r|].
  rewrite !decide_False by congruence. done.
Qed.

(** Collecting and upserting adds to each key how often it occurs. *)
Lemma collect_upsert l t k o :
  one_org_per_key l -> count_in (upsert_rows t (stat_rows (collect l))) (k, o) = count_in t (k, o) + tally (k, o) l.
Proof.
  intros Hone. rewrite upsert_rows_count, rows_tally_map. f_equal.
  pose proof (collect_spec l Hone k) as Hk. destruct (collect l !! k) as [s|].
  - destruct Hk as (o' & Ho & Hin & Hc). rewrite Ho, Hc.
    destruct (decide (o' = o)) as [->|Hne]; [by rewrite decide_True|].
    rewrite decide_False by congruence. symmetry. apply tally_none. intros Hin'. by apply Hne, (Hone k).
  - symmetry. by apply tally_none.
Qed.
End counting.

Arguments Stat : clear implicits.

(** ** Hourly statistics *)

Definition HOUR : Z := 3600 * 1000000.
Definition DAY : Z := 24 * HOUR.

(** [received.replace(minute=0, second=0, microsecond=0)] of a UTC time in microseconds. *)
Definition hour_of (received : Z) : Z := received - received mod HOUR.
Definition day_of (received : Z) : Z := received - received mod DAY.

(** Hour and project (or issue), with the organization. *)
Abbreviation hourly := (gmap ((Z * Z) * Z) Z).

(** [STATS_TABLE_CONFIG] *)
Definition STATS_TABLE_CONFIG : adict ustr ustr :=
  [(u "projects_issueeventprojecthourlystatistic", u "project_id");
   (u "projects_transactioneventprojecthourlystatistic", u "project_id");
   (u "issue_events_issueaggregate", u "issue_id")].

(** [table] is the content of the table named [table_name]. *)
Definition update_statistics (stats : gmap (Z * Z) Stat) (table_name : ustr) (table : hourly) : res hourly :=
  match aget table_name STATS_TABLE_CONFIG with
  | None => Raise ValueError
  | Some _ => Ok (upsert_rows table (stat_rows stats))
  end.

Definition update_org_statistics (stats : gmap (Z * Z) Stat) (table_name : ustr) (table : hourly) : res hourly :=
  match aget table_name STATS_TABLE_CONFIG with
  | None => Raise KeyError
  | Some _ => Ok (upsert_rows table (stat_rows stats))
  end.

(** What the loop of [process_issue_events] puts in [data_stats] and
    [issue_hourly_stats]. *)
Definition project_items (es : list ProcessingEvent) : list ((Z * Z) * Z) :=
  map (fun e => ((hour_of (received e), project_id e), organization_id e)) es.

Definition issue_items (es : list ProcessingEvent) : list ((Z * Z) * Z) :=
  omap (fun e => match issue_id e with
                 | Some i => if i =? 0 then None else Some ((hour_of (received e), i), organization_id e)
                 | None => None
                 end) es.

Definition data_stats (es : list ProcessingEvent) : gmap (Z * Z) Stat := collect (project_items es).
Definition issue_hourly_stats (es : list ProcessingEvent) : gmap (Z * Z) Stat := collect (issue_items es).

(** ** Tags *)

Definition MAX_TAG_LENGTH : Z := 255.

(** The tag keys and values: a unique text column with ids from a sequence. *)
Record Texts := { tx_next : Z; tx_ids : gmap ustr Z }.

Definition insert_text (t : Texts) (s : ustr) : Texts :=
  {| tx_next := tx_next t + 1;
     tx_ids := match tx_ids t !! s with Some _ => tx_ids t | None => <[s := tx_next t]> (tx_ids t) end |}.

(** [{row[1]: row[0] for row in ... WHERE key = ANY(keys)}] *)
Definition fetch_texts (keys : list ustr) (t : Texts) : gmap ustr Z :=
  filter (fun kv => kv.1 ∈ keys) (tx_ids t).

Definition clean_tag (s : ustr) : ustr := slice_to MAX_TAG_LENGTH (clean_string s).

(** The cleaned tags of an event; keys that become equal are merged, last one wins. *)
Definition clean_tags (tags : sdict ustr) : sdict ustr :=
  foldl (fun acc kv => aset (clean_tag kv.1) (clean_tag kv.2) acc) [] tags.

Definition set_tags (e : ProcessingEvent) : ProcessingEvent :=
  {| project_id := project_id e; organization_id := organization_id e; received := received e;
     payload := payload e; issue_hash := issue_hash e; title := title e;
     pe_transaction := pe_transaction e; metadata := metadata e; event_data := event_data e;
     event_tags := clean_tags (event_tags e); pe_level := pe_level e; issue_id := issue_id e;
     issue_created := issue_created e; release_id := release_id e; pe_uuid := pe_uuid e |}.

(** Day, issue, key id and value id, with the organization. *)
Abbreviation tag_key := (Z * Z * Z * Z)%type.
Abbreviation tag_table := (gmap (tag_key * Z) Z).

(** The counted items of one event; a key or value without id is a [KeyError]. *)
Fixpoint tag_items_of (tag_keys tag_values : gmap ustr Z) (day issue org : Z) (tags : sdict ustr)
    : res (list (tag_key * Z)) :=
  match tags with
  | [] => Ok []
  | (key, v) :: rest =>
      match tag_keys !! key, tag_values !! v with
      | Some k, Some w =>
          let* items := tag_items_of tag_keys tag_values day issue org rest in
          Ok (((day, issue, k, w), org) :: items)
      | _, _ => Raise KeyError
      end
  end.

Fixpoint tag_items (tag_keys tag_values : gmap ustr Z) (es : list ProcessingEvent) : res (list (tag_key * Z)) :=
  match es with
  | [] => Ok []
  | e :: rest =>
      match issue_id e with
      | None => tag_items tag_keys tag_values rest
      | Some i =>
          let* items := tag_items_of tag_keys tag_values (day_of (received e)) i (organization_id e) (event_tags e) in
          let* more := tag_items tag_keys tag_values rest in
          Ok (items ++ more)
      end
  end.

Definition update_tags (es : list ProcessingEvent) (keys_t values_t : Texts) (table : tag_table)
    : res (Texts * Texts * tag_table) :=
  let es := map set_tags es in
  let keys := sorted_set (concat (map (fun e => (event_tags e).*1) es)) in
  let values := sorted_set (concat (map (fun e => (event_tags e).*2) es)) in
  match keys with
  | [] => Ok (keys_t, values_t, table)
  | _ =>
      let keys_t := foldl insert_text keys_t keys in
      let values_t := foldl insert_text values_t values in
      let* items := tag_items (fetch_texts keys keys_t) (fetch_texts values values_t) es in
      Ok (keys_t, values_t, upsert_rows table (stat_rows (collect items)))
  end.

(** ** Tag texts *)

Lemma elem_of_sorted_set l x : x ∈ sorted_set l <-> x ∈ l.
Proof. unfold sorted_set. by rewrite merge_sort_Permutation, elem_of_remove_dups. Qed.

Record texts_inv (t : Texts) : Prop := {
  texts_below : forall s n, tx_ids t !! s = Some n -> n < tx_next t;
  texts_inj : forall s1 s2 n, tx_ids t !! s1 = Some n -> tx_ids t !! s2 = Some n -> s1 = s2;
}.

Lemma insert_text_inv t s : texts_inv t -> texts_inv (insert_text t s).
Proof.
  intros [Hb Hi]. unfold insert_text. destruct (tx_ids t !! s) as [m|] eqn:Es; split; simpl.
  - intros s' n Hn. specialize (Hb _ _ Hn). lia.
  - done.
  - intros s' n [[<- <-]|[_ Hn]]%lookup_insert_Some; [lia|]. specialize (Hb _ _ Hn). lia.
  - intros s1 s2 n [[<- <-]|[_ H1]]%lookup_insert_Some [[<- ?]|[_ H2]]%lookup_insert_Some; [done| | |eauto].
    + specialize (Hb _ _ H2). lia.
    + subst. specialize (Hb _ _ H1). lia.
Qed.

Lemma insert_text_grows t s : tx_ids t ⊆ tx_ids (insert_text t s) /\ is_Some (tx_ids (insert_text t s) !! s).
Proof.
  unfold insert_text. destruct (tx_ids t !! s) as [m|] eqn:Es; simpl; [by rewrite Es|].
  split; [by apply insert_subseteq|]. by rewrite lookup_insert_eq.
Qed.

Lemma insert_texts_spec keys t :
  texts_inv t ->
  texts_inv (foldl insert_text t keys) /\ tx_ids t ⊆ tx_ids (foldl insert_text t keys)
  /\ forall s, s ∈ keys -> is_Some (tx_ids (foldl insert_text t keys) !! s).
Proof.
  revert t. induction keys as [|k keys IH]; intros t Hinv; simpl.
  { split_and!; [done..|]. by intros s ?%elem_of_nil. }
  destruct (insert_text_grows t k) as [Hg [n Hn]].
  destruct (IH (insert_text t k) (insert_text_inv t k Hinv)) as (Hi & Hs & Hk). split_and!; [done|by etrans|].
  intros s [->|Hin]%elem_of_cons; [|by apply Hk]. exists n. by eapply lookup_weaken.
Qed.

Lemma fetch_texts_lookup keys t s :
  s ∈ keys -> fetch_texts keys t !! s = tx_ids t !! s.
Proof.
  intros Hs. unfold fetch_texts. destruct (tx_ids t !! s) as [n|] eqn:E.
  - by apply map_lookup_filter_Some.
  - apply map_lookup_filter_None. by left.
Qed.

(** ** Counting the tags of events *)

(** Whether the tag [key = v] of an event counts in bucket [x]. *)
Definition tag_hits (tk tv : gmap ustr Z) (day issue org : Z) (x : tag_key * Z) (kv : ustr * ustr) : Z :=
  match tk !! kv.1, tv !! kv.2 with
  | Some k, Some w => if decide (((day, issue, k, w), org) = x) then 1 else 0
  | _, _ => 0
  end.

Lemma tag_items_of_spec tk tv day issue org tags :
  Forall (fun kv => is_Some (tk !! kv.1) /\ is_Some (tv !! kv.2)) tags ->
  exists items, tag_items_of tk tv day issue org tags = Ok items
    /\ (forall x, tally x items = zsum (map (tag_hits tk tv day issue org x) tags))
    /\ Forall (fun y => y.1.1.1.2 = issue /\ y.2 = org) items.
Proof.
  induction 1 as [|[key v] tags [[k Hk] [w Hw]] _ (items & E & Ht & Hf)]; simpl in *.
  - exists []. by split_and!.
  - rewrite Hk, Hw, E. simpl. eexists. split_and!; [done| |by constructor].
    intros x. rewrite <- Ht. unfold tally, tag_hits. simpl. by rewrite Hk, Hw.
Qed.

(** The buckets an event adds to. *)
Definition event_hits (tk tv : gmap ustr Z) (x : tag_key * Z) (e : ProcessingEvent) : Z :=
  match issue_id e with
  | Some i => zsum (map (tag_hits tk tv (day_of (received e)) i (organization_id e) x) (event_tags e))
  | None => 0
  end.

Lemma tag_items_spec tk tv es :
  Forall (fun e => Forall (fun kv => is_Some (tk !! kv.1) /\ is_Some (tv !! kv.2)) (event_tags e)) es ->
  exists items, tag_items tk tv es = Ok items
    /\ (forall x, tally x items = zsum (map (event_hits tk tv x) es))
    /\ Forall (fun y => exists e, e ∈ es /\ issue_id e = Some y.1.1.1.2 /\ organization_id e = y.2) items.
Proof.
  induction 1 as [|e es He _ (items & E & Ht & Hf)]; simpl.
  { exists []. by split_and!. }
  assert (Forall (fun y : tag_key * Z => exists e', e' ∈ e :: es /\ issue_id e' = Some y.1.1.1.2
    /\ organization_id e' = y.2) items) as Hf'.
  { eapply Forall_impl; [exact Hf|]. intros y (e' & ? & ?). exists e'. split; [by right|done]. }
  unfold event_hits at 1. destruct (issue_id e) as [i|] eqn:Ei.
  - destruct (tag_items_of_spec tk tv (day_of (received e)) i (organization_id e) _ He) as (it & -> & Ht1 & Hf1).
    simpl. rewrite E. simpl. eexists. split_and!; [done| |].
    + intros x. by rewrite tally_app, Ht1, Ht.
    + apply Forall_app. split; [|done]. eapply Forall_impl; [exact Hf1|].
      intros y [Hi Ho]. exists e. split; [left|]. by rewrite Hi, Ho.
  - rewrite E. exists items. split_and!; [done| |done]. intros x. by rewrite Ht.
Qed.

Lemma clean_tags_NoDup tags : NoDup (clean_tags tags).*1.
Proof.
  unfold clean_tags. induction tags as [|kv tags IH] using rev_ind; [by apply NoDup_nil_2|].
  rewrite foldl_app. simpl. auto with gt.
Qed.

(** With distinct keys the tag [key = v] counts once when the event has it. *)
Lemma tag_hits_sum tk tv day issue org tags key v k w :
  NoDup tags.*1 -> Forall (fun kv => is_Some (tk !! kv.1) /\ is_Some (tv !! kv.2)) tags ->
  (forall s n, tk !! s = Some n -> n = k <-> s = key) -> (forall s n, tv !! s = Some n -> n = w <-> s = v) ->
  zsum (map (tag_hits tk tv day issue org ((day, issue, k, w), org)) tags)
  = if decide (aget key tags = Some v) then 1 else 0.
Proof.
  intros Hnd Hall Hik Hiv. induction tags as [|[key' v'] tags IH]; [done|].
  apply NoDup_cons in Hnd as [Hnot Hnd]. apply Forall_cons in Hall as [[[k' Hk'] [w' Hw']] Hall].
  cbn [map]. rewrite zsum_cons, IH by done. unfold tag_hits. simpl in *. rewrite Hk', Hw'.
  assert (aget key ((key', v') :: tags) = if decide (key' = key) then Some v' else aget key tags) as ->
    by (unfold aget; cbn; by destruct (decide (key' = key))).
  pose proof (Hik _ _ Hk') as Hk. pose proof (Hiv _ _ Hw') as Hw.
  destruct (decide (key' = key)) as [->|Hne].
  - assert (aget key tags = None) as -> by (by apply aget_None).
    rewrite (decide_False (P := None = Some v)) by done.
    assert (k' = k) as -> by (by apply Hk). destruct (decide (v' = v)) as [->|Hnv].
    + assert (w' = w) as -> by (by apply Hw). by rewrite !decide_True.
    + rewrite !decide_False; [done|congruence|]. intros [= Hww]. by apply Hnv, Hw.
  - rewrite (decide_False (P := (_, _) = _)); [done|]. intros [= Hkk _]. by apply Hne, Hk.
Qed.

Lemma tag_hits_other tk tv day issue org tags day' issue' org' k w :
  (day, issue, org) <> (day', issue', org') ->
  zsum (map (tag_hits tk tv day issue org ((day', issue', k, w), org')) tags) = 0.
Proof.
  intros Hne. induction tags as [|[key v] tags IH]; [done|]. cbn [map]. rewrite zsum_cons, IH.
  unfold tag_hits. cbn [fst snd]. destruct (tk !! key), (tv !! v); try done.
  rewrite decide_False; [done|]. intros [= -> -> _ _ ->]. done.
Qed.

(** The text tables after the upserts give the ids of all cleaned tags. *)
Lemma texts_fetched keys t :
  texts_inv t ->
  let t' := foldl insert_text t keys in
  texts_inv t' /\ (forall s, s ∈ keys -> is_Some (fetch_texts keys t' !! s))
  /\ (forall s k, tx_ids t' !! s = Some k ->
        forall s' n, fetch_texts keys t' !! s' = Some n -> n = k <-> s' = s).
Proof.
  intros Hinv t'. destruct (insert_texts_spec keys t Hinv) as (Hinv' & _ & Hk). split_and!; [done| |].
  - intros s Hs. rewrite fetch_texts_lookup by done. by apply Hk.
  - intros s k Hs s' n Hn. unfold fetch_texts in Hn. apply map_lookup_filter_Some in Hn as [Hn _].
    split; [intros ->; by eapply (texts_inj _ Hinv')|intros ->; congruence].
Qed.

(** The tags a batch is counted by have ids. *)
Lemma tags_known (es : list ProcessingEvent) (tk tv : gmap ustr Z) :
  (forall s, s ∈ concat (map (fun e => (event_tags e).*1) es) -> is_Some (tk !! s)) ->
  (forall s, s ∈ concat (map (fun e => (event_tags e).*2) es) -> is_Some (tv !! s)) ->
  Forall (fun e => Forall (fun kv => is_Some (tk !! kv.1) /\ is_Some (tv !! kv.2)) (event_tags e)) es.
Proof.
  intros Hk Hv. apply Forall_forall. intros e He. apply Forall_forall. intros kv Hkv. split; [apply Hk|apply Hv].
  - apply list_elem_of_In, in_concat. eexists. split; [by apply in_map, list_elem_of_In|].
    apply list_elem_of_In, list_elem_of_fmap. by exists kv.
  - apply list_elem_of_In, in_concat. eexists. split; [by apply in_map, list_elem_of_In|].
    apply list_elem_of_In, list_elem_of_fmap. by exists kv.
Qed.

(** How often the events of a batch hit the bucket of one tag. *)
Lemma event_hits_sum tk tv es key v k w day i org :
  Forall (fun e => NoDup (event_tags e).*1) es ->
  Forall (fun e => Forall (fun kv => is_Some (tk !! kv.1) /\ is_Some (tv !! kv.2)) (event_tags e)) es ->
  (forall s n, tk !! s = Some n -> n = k <-> s = key) -> (forall s n, tv !! s = Some n -> n = w <-> s = v) ->
  zsum (map (event_hits tk tv ((day, i, k, w), org)) es)
  = len (filter (fun e => issue_id e = Some i /\ day_of (received e) = day /\ organization_id e = org
                          /\ aget key (event_tags e) = Some v) es).
Proof.
  intros Hnd Hid Hk Hw. unfold len. induction es as [|e es IH]; [done|].
  apply Forall_cons in Hnd as [Hnd1 Hnd]. apply Forall_cons in Hid as [Hid1 Hid].
  cbn [map]. rewrite zsum_cons, IH, filter_cons by done. clear IH Hnd Hid. unfold event_hits.
  destruct (issue_id e) as [j|]; [|rewrite decide_False; [done|by intros [? _]]].
  destruct (decide ((day_of (received e), j, organization_id e) = (day, i, org))) as [E|Hne].
  - injection E as <- <- <-. rewrite (tag_hits_sum tk tv _ _ _ _ key v) by done.
    destruct (decide (aget key (event_tags e) = Some v)) as [Ha|Ha].
    + rewrite (decide_True (P := _ /\ _)) by done. simpl. lia.
    + rewrite (decide_False (P := _ /\ _)); [done|]. by intros (_ & _ & _ & ?).
  - rewrite tag_hits_other by done. rewrite decide_False; [done|].
    intros ([= ->] & <- & <- & _). done.
Qed.

Lemma issue_items_cons e es :
  issue_items (e :: es)
  = match issue_id e with
    | Some i => if i =? 0 then issue_items es else ((hour_of (received e), i), organization_id e) :: issue_items es
    | None => issue_items es
    end.
Proof. unfold issue_items. cbn. by destruct (issue_id e) as [i|]; [destruct (i =? 0)|]. Qed.

(** ** Properties *)

(** The hourly statistics of a batch add to every hour, project and organization
    the number of events the batch received for them; the same holds per issue. *)
Theorem hourly_statistics_exact es name table :
  one_org_per_key (project_items es) -> one_org_per_key (issue_items es) ->
  is_Some (aget name STATS_TABLE_CONFIG) ->
  (exists t, update_statistics (data_stats es) name table = Ok t
    /\ forall h p o, count_in t ((h, p), o) = count_in table ((h, p), o)
         + len (filter (fun e => hour_of (received e) = h /\ project_id e = p /\ organization_id e = o) es))
  /\ (exists t, update_org_statistics (issue_hourly_stats es) name table = Ok t
    /\ forall h i o, i <> 0 -> count_in t ((h, i), o) = count_in table ((h, i), o)
         + len (filter (fun e => hour_of (received e) = h /\ issue_id e = Some i /\ organization_id e = o) es)).
Proof.
  intros Hp Hi [c Hc]. unfold update_statistics, update_org_statistics. rewrite Hc. split.
  - eexists. split; [done|]. intros h p o. unfold data_stats. rewrite collect_upsert by done. f_equal.
    clear. unfold project_items, len. induction es as [|e es IH]; [done|]. rewrite filter_cons. cbn [map].
    unfold tally in *. cbn [map]. rewrite zsum_cons, IH. repeat case_decide; simpl; try lia.
    + exfalso. naive_solver.
    + exfalso. naive_solver.
  - eexists. split; [done|]. intros h i o Hne. unfold issue_hourly_stats. rewrite collect_upsert by done. f_equal.
    clear - Hne. unfold len. induction es as [|e es IH]; [done|]. rewrite filter_cons, issue_items_cons.
    destruct (issue_id e) as [j|] eqn:Ej; [destruct (Z.eqb_spec j 0) as [->|Hj]|].
    + rewrite IH, decide_False; [done|]. intros (_ & [= <-] & _). done.
    + unfold tally in *. cbn [map]. rewrite zsum_cons, IH. repeat case_decide; simpl; try lia; exfalso; naive_solver.
    + rewrite IH, decide_False; [done|]. by intros (_ & ? & _).
Qed.

(** The tag table counts, for every day, issue and tag, the events that carry the
    tag after cleaning; no event is counted twice for one tag and no id is missing. *)
Theorem tag_counts_exact es keys_t values_t table :
  texts_inv keys_t -> texts_inv values_t ->
  (forall e1 e2, e1 ∈ es -> e2 ∈ es -> issue_id e1 = issue_id e2 -> organization_id e1 = organization_id e2) ->
  exists keys_t' values_t' table',
    update_tags es keys_t values_t table = Ok (keys_t', values_t', table')
    /\ texts_inv keys_t' /\ texts_inv values_t'
    /\ forall key v k w day i org,
         tx_ids keys_t' !! key = Some k -> tx_ids values_t' !! v = Some w ->
         count_in table' ((day, i, k, w), org)
         = count_in table ((day, i, k, w), org)
           + len (filter (fun e => issue_id e = Some i /\ day_of (received e) = day /\ organization_id e = org
                                   /\ aget key (clean_tags (event_tags e)) = Some v) es).
Proof.
  intros Hik Hiv Horg. unfold update_tags.
  set (es' := map set_tags es). set (keys := sorted_set (concat (map (fun e => (event_tags e).*1) es'))).
  set (values := sorted_set (concat (map (fun e => (event_tags e).*2) es'))).
  destruct (texts_fetched keys keys_t Hik) as (Hik' & Hkin & Hkeq).
  destruct (texts_fetched values values_t Hiv) as (Hiv' & Hvin & Hveq).
  assert (forall key v i day org, len (filter (fun e => issue_id e = Some i /\ day_of (received e) = day
      /\ organization_id e = org /\ aget key (clean_tags (event_tags e)) = Some v) es)
    = len (filter (fun e => issue_id e = Some i /\ day_of (received e) = day
      /\ organization_id e = org /\ aget key (event_tags e) = Some v) es')) as Hlen.
  { intros. unfold len, es'. clear. induction es as [|e es IH]; [done|]. cbn [map]. rewrite !filter_cons.
    simpl. case_decide; simpl; lia. }
  destruct keys as [|k0 ks] eqn:Ek.
  - eexists _, _, _. split_and!; [done..|]. intros key v k w day i org _ _. rewrite Hlen, filter_none; [unfold len; simpl; lia|].
    apply Forall_forall. intros e He (_ & _ & _ & Ha). apply aget_elem in Ha.
    assert (key ∈ keys) as Hin; [|rewrite Ek in Hin; by apply elem_of_nil in Hin].
    apply (proj2 (elem_of_sorted_set _ _)). apply list_elem_of_In, in_concat. eexists. split; [by apply in_map, list_elem_of_In|].
    apply list_elem_of_In, list_elem_of_fmap. by exists (key, v).
  - rewrite <- Ek in *.
    assert (Forall (fun e => NoDup (event_tags e).*1) es') as Hnd.
    { apply Forall_map, Forall_true. intros e. apply clean_tags_NoDup. }
    pose proof (tags_known es' (fetch_texts keys (foldl insert_text keys_t keys))
      (fetch_texts values (foldl insert_text values_t values))) as Hknown.
    specialize (Hknown ltac:(intros; by apply Hkin, (proj2 (elem_of_sorted_set _ _))) ltac:(intros; by apply Hvin, (proj2 (elem_of_sorted_set _ _)))).
    destruct (tag_items_spec _ _ es' Hknown) as (items & -> & Htally & Hitems). simpl.
    eexists _, _, _. split_and!; [done..|]. intros key v k w day i org Hk Hw.
    rewrite collect_upsert.
    + rewrite Htally, Hlen. f_equal. apply event_hits_sum; eauto.
    + intros x o1 o2 H1 H2. rewrite Forall_forall in Hitems.
      destruct (Hitems _ H1) as (e1 & He1 & Hi1 & Ho1), (Hitems _ H2) as (e2 & He2 & Hi2 & Ho2).
      apply list_elem_of_In, in_map_iff in He1 as (e1' & <- & He1).
      apply list_elem_of_In, in_map_iff in He2 as (e2' & <- & He2). simpl in *. subst.
      apply (Horg e1' e2'); [by apply list_elem_of_In..|congruence].
Qed.

(** ** A batch of three events, two of them of one issue and hour *)
Definition seen (project : Z) (issue : option Z) (at_us : Z) (tags : sdict ustr) : ProcessingEvent :=
  {| project_id := project; organization_id := 10; received := at_us; payload := sample_payload;
     issue_hash := u "aa"; title := u "Boom"; pe_transaction := u "f"; metadata := []; event_data := [];
     event_tags := tags; pe_level := Some 4; issue_id := issue; issue_created := false; release_id := None;
     pe_uuid := None |}.

Definition seen_batch : list ProcessingEvent :=
  [seen 1 (Some 7) 5 [(u "env", u "prod"); (u "os", u "linux")];
   seen 1 (Some 7) (HOUR - 1) [(u "env", u "prod")]; seen 1 None HOUR [(u "env", u "dev")]].

Lemma one_org_of_all {K} `{Countable K} (l : list (K * Z)) o : Forall (fun y => y.2 = o) l -> one_org_per_key l.
Proof. intros Hall k o1 o2 H1 H2. rewrite Forall_forall in Hall. transitivity o; [apply (Hall _ H1)|symmetry; apply (Hall _ H2)]. Qed.

Lemma hourly_statistics_exact_witness :
  exists t, update_statistics (data_stats seen_batch) (u "projects_issueeventprojecthourlystatistic") ∅ = Ok t
    /\ count_in t ((0, 1), 10) = 2.
Proof.
  destruct (hourly_statistics_exact seen_batch (u "projects_issueeventprojecthourlystatistic") ∅)
    as [(t & E & Hc) _].
  - apply (one_org_of_all _ 10). by_decide.
  - apply (one_org_of_all _ 10). by_decide.
  - by eexists.
  - exists t. split; [exact E|]. rewrite Hc. by_compute.
Defined.

Definition no_texts : Texts := {| tx_next := 1; tx_ids := ∅ |}.

Lemma tag_counts_exact_witness :
  exists keys_t values_t table, update_tags seen_batch no_texts no_texts ∅ = Ok (keys_t, values_t, table)
    /\ count_in table ((0, 7, 1, 3), 10) = 2.
Proof.
  destruct (tag_counts_exact seen_batch no_texts no_texts ∅) as (kt & vt & t & E & _ & _ & Hc).
  - by split.
  - by split.
  - intros e1 e2 H1 H2 _. assert (forall e, e ∈ seen_batch -> organization_id e = 10) as H.
    { apply Forall_forall. by_decide. }
    by rewrite (H e1), (H e2).
  - exists kt, vt, t. split; [exact E|].
    assert (Ok (tx_ids kt !! u "env", tx_ids vt !! u "prod") = Ok (Some 1, Some 3)) as Hids.
    { transitivity (let* r := update_tags seen_batch no_texts no_texts ∅ in
        Ok (tx_ids r.1.1 !! u "env", tx_ids r.1.2 !! u "prod")); [by rewrite E|by_compute]. }
    injection Hids as Hk Hv. rewrite (Hc _ _ _ _ _ _ _ Hk Hv). by_compute.
Defined.
