(* ===== verification/Transactions.v ===== *)
(** * Transaction groups

    [process_transaction_events] of [apps/event_ingest/process_event.py] with
    [_fetch_transaction_groups], [_update_transaction_group_stats] and
    [_is_error_status]: transactions of a batch are counted into groups keyed by
    project, name, operation and HTTP method; each group keeps a count, an average
    and a histogram of durations, from which p50 and p95 are recomputed.

    Durations are doubles, kept as integers in units of 2^-80 ms ("ticks"); the
    conversion from microseconds, the sum of a batch and the running average round as
    the code does.  The sum is that of CPython 3.12 and later, the average a column of
    doubles, so it is the average of the recorded durations up to the roundings made,
    and the theorems bound that error.  A histogram counter is a 32-bit integer, and a
    batch that would exceed it fails.  Statements run before one that fails keep their effect in the database;
    the model returns the error alone. *)
From S2P Require Import Prelude PyStr PyValue PyFloat IngestUtils Histogram Statistics Releases.
From Stdlib Require Import QArith Qabs Lqa.
Open Scope Z_scope.

(** ** Durations *)

(** [max(0.0, delta.total_seconds() * 1000)] *)
Definition duration_ms (delta_us : Z) : Z :=
  if delta_us <=? 0 then 0 else to_double (total_seconds delta_us * 1000) 1.

(** A duration in the unit of [Histogram.v], 2^-52 ms. *)
Definition histogram_unit (ticks : Z) : Z := ticks / 2 ^ 28.

Example duration_tenth : duration_ms 100000 = 100 * 2 ^ 80.
Proof. by_compute. Qed.

(** ** Data *)

Definition MAX_SPANS_PER_TRANSACTION : Z := 1000.

(** [SpanSchema]: the fields read here. *)
Record Span := {
  sp_id : ustr;
  sp_op : ustr;
  sp_description : option ustr;
  sp_start_timestamp : option Z;
  sp_timestamp : option Z;
}.

(** [InterchangeTransactionEvent]: the fields read here; [x_method] is
    [event.request.method], absent without a request. *)
Record TxnEvent := {
  x_project_id : Z;
  x_organization_id : Z;
  x_received : Z;
  x_update_first_event : bool;
  x_contexts : value;
  x_method : option ustr;
  x_transaction : ustr;
  x_start_timestamp : Z;
  x_timestamp : Z;
  x_event_id_hex : ustr;
  x_spans : option (list Span);
  x_release : option ustr;
  x_environment : option ustr;
}.

(** project_id, transaction, op, method *)
Abbreviation group_key := (Z * ustr * ustr * ustr)%type.

Record TransactionGroup := {
  tg_id : Z;
  tg_org : Z;
  tg_key : group_key;
  tg_first_seen : Z;
  tg_last_seen : Z;
  tg_avg_duration : Q;
  tg_p50 : option Z;          (* in units of 2^-53 ms, as [midpoint] *)
  tg_p95 : option Z;
  tg_count : Z;
  tg_error_count : Z;
  tg_histogram : list Z;
}.

Record Groups := { gr_next : Z; gr_rows : list TransactionGroup }.

(** A row of the staging table. *)
Record SpanRow := {
  sr_id : Z;
  sr_organization_id : Z;
  sr_project_id : Z;
  sr_duration : Z;
  sr_timestamp : Z;
  sr_transaction_name : ustr;
  sr_span_id : ustr;
  sr_transaction_id : ustr;
  sr_op : ustr;
  sr_description : ustr;
}.

Definition is_error_status (trace_status : value) : bool :=
  match trace_status with
  | VStr s =>
      bool_decide (s ∈ [u "internal_error"; u "unavailable"; u "deadline_exceeded"; u "unimplemented";
        u "permission_denied"; u "unauthenticated"; u "resource_exhausted"; u "data_loss"; u "aborted";
        u "failed_precondition"; u "out_of_range"; u "unknown"])
  | _ => false
  end.

(** A text stored in a [varchar(n)] column: NUL and excess characters that are not
    blanks are refused, excess blanks are cut. *)
Definition store_varchar (n : Z) (s : ustr) : res ustr :=
  if bool_decide (0 ∈ s) then Raise DataError
  else if len s <=? n then Ok s
  else if forallb (Z.eqb 32) (drop (Z.to_nat n) s) then Ok (slice_to n s)
  else Raise DataError.

(** [dict.update] *)
Definition aupdate {K V} `{EqDecision K} (d : adict K V) (more : adict K V) : adict K V :=
  foldl (fun d kv => aset kv.1 kv.2 d) d more.

Section transactions.
Context (py_repr : value -> ustr).

(** [str(x)] *)
Definition str_value (v : value) : ustr := match v with VStr s => s | _ => py_repr v end.

(** ** Parsing an event *)

(** [op] and [trace_status] of the trace context. *)
Definition trace_of (contexts : value) : ustr * value :=
  match contexts with
  | VDict c =>
      match dget "trace" (VDict []) c with
      | VDict trace => (str_value (dget "op" (VStr []) trace), dget_none "status" trace)
      | _ => ([], VNone)
      end
  | _ => ([], VNone)
  end.

Record EventData := { ed_event : TxnEvent; ed_name : ustr; ed_status : value; ed_key : group_key }.

Definition event_data (e : TxnEvent) : EventData :=
  let '(op, trace_status) := trace_of (x_contexts e) in
  let method := match x_method e with Some m => m | None => [] end in
  let transaction_name := slice_to 1024 (clean_string (x_transaction e)) in
  {| ed_event := e; ed_name := transaction_name; ed_status := trace_status;
     ed_key := (x_project_id e, transaction_name, clean_string op, clean_string method) |}.

(** [unique_keys.setdefault(key, organization_id)] *)
Definition unique_keys (data : list EventData) : adict group_key Z :=
  foldl (fun d x => match aget (ed_key x) d with
                    | Some _ => d
                    | None => aset (ed_key x) (x_organization_id (ed_event x)) d
                    end) [] data.

(** ** Groups *)

Definition fetch_transaction_groups (keys : list group_key) (t : Groups) : adict group_key (Z * Z) :=
  foldl (fun d g => aset (tg_key g) (tg_id g, tg_org g) d) [] (filter (fun g => tg_key g ∈ keys) (gr_rows t)).

(** INSERT ... ON CONFLICT DO NOTHING of one new group. *)
Definition insert_group (now : Z) (t : Groups) (kv : group_key * Z) : res Groups :=
  let '(project, transaction, op, method) := kv.1 in
  let* transaction := store_varchar 1024 transaction in
  let* op := store_varchar 255 op in
  let* method := store_varchar 255 method in
  let key := (project, transaction, op, method) in
  if existsb (fun g => bool_decide (tg_key g = key /\ tg_org g = kv.2)) (gr_rows t)
  then Ok {| gr_next := gr_next t + 1; gr_rows := gr_rows t |}
  else Ok {| gr_next := gr_next t + 1;
             gr_rows := gr_rows t ++
               [{| tg_id := gr_next t; tg_org := kv.2; tg_key := key; tg_first_seen := now;
                   tg_last_seen := now; tg_avg_duration := 0; tg_p50 := None; tg_p95 := None;
                   tg_count := 0; tg_error_count := 0; tg_histogram := new_histogram |}] |}.

Fixpoint insert_groups (now : Z) (t : Groups) (rows : list (group_key * Z)) : res Groups :=
  match rows with
  | [] => Ok t
  | r :: rest => let* t := insert_group now t r in insert_groups now t rest
  end.

(** Fetch from the replica, create what is missing and fetch that again. *)
Definition ensure_groups (now : Z) (uk : adict group_key Z) (replica t : Groups)
    : res (adict group_key (Z * Z) * Groups) :=
  let existing := match uk with [] => [] | _ => fetch_transaction_groups uk.*1 replica end in
  let missing := filter (fun kv => aget kv.1 existing = None) uk in
  match missing with
  | [] => Ok (existing, t)
  | _ => let* t := insert_groups now t missing in
         Ok (aupdate existing (fetch_transaction_groups missing.*1 t), t)
  end.

(** ** Collecting a batch *)

Record Collected := {
  co_durations : adict Z (list Z);
  co_errors : adict Z Z;
  co_orgs : adict Z Z;
  co_spans : list SpanRow;
  co_stats : gmap (Z * Z) (Stat);
}.

Definition span_row (uuid : Z) (x : EventData) (span : Span) : SpanRow :=
  let e := ed_event x in
  {| sr_id := uuid; sr_organization_id := x_organization_id e; sr_project_id := x_project_id e;
     sr_duration := match sp_timestamp span, sp_start_timestamp span with
                    | Some t, Some s => duration_ms (t - s)
                    | _, _ => 0
                    end;
     sr_timestamp := default (x_start_timestamp e) (sp_start_timestamp span);
     sr_transaction_name := clean_string (ed_name x);
     sr_span_id := slice_to 32 (sp_id span);
     sr_transaction_id := slice_to 32 (x_event_id_hex e);
     sr_op := clean_string (slice_to 255 (sp_op span));
     sr_description := clean_string (parameterize_description (sp_op span) (sp_description span)) |}.

(** [uuids n] is the UUIDv7 drawn for the [n]-th span of the batch. *)
Context (uuids : nat -> Z) (collect_spans : bool).

Definition add_spans (x : EventData) (rows : list SpanRow) (spans : list Span) : list SpanRow :=
  foldl (fun rows s => rows ++ [span_row (uuids (length rows)) x s]) rows spans.

Definition collect_event (existing : adict group_key (Z * Z)) (c : Collected) (x : EventData) : Collected :=
  let e := ed_event x in
  match aget (ed_key x) existing with
  | None => c
  | Some (id, org) =>
      let d := duration_ms (x_timestamp e - x_start_timestamp e) in
      {| co_durations := aset id (default [] (aget id (co_durations c)) ++ [d]) (co_durations c);
         co_errors := if is_error_status (ed_status x)
                      then aset id (default 0 (aget id (co_errors c)) + 1) (co_errors c)
                      else co_errors c;
         co_orgs := aset id org (co_orgs c);
         co_spans := if collect_spans
                     then add_spans x (co_spans c) (slice_to MAX_SPANS_PER_TRANSACTION (default [] (x_spans e)))
                     else co_spans c;
         co_stats := bump (co_stats c) ((hour_of (x_received e), x_project_id e), x_organization_id e) |}
  end.

Definition collect_events (existing : adict group_key (Z * Z)) (data : list EventData) : Collected :=
  foldl (collect_event existing)
    {| co_durations := []; co_errors := []; co_orgs := []; co_spans := []; co_stats := ∅ |} data.

(** ** Statistics of groups *)

(** group id, organization, count, total, errors, histogram *)
Record Values := {
  v_group : Z; v_org : Z; v_count : Z; v_total : Z; v_errors : Z; v_histogram : list Z
}.

Fixpoint values_data (durations : adict Z (list Z)) (errors orgs : adict Z Z) : res (list Values) :=
  match durations with
  | [] => Ok []
  | (id, ds) :: rest =>
      match aget id orgs with
      | None => Raise KeyError
      | Some org =>
          let* h := merge_durations new_histogram (map histogram_unit ds) in
          let* more := values_data rest errors orgs in
          Ok ({| v_group := id; v_org := org; v_count := len ds; v_total := py_sum ds;
                 v_errors := default 0 (aget id errors); v_histogram := h |} :: more)
      end
  end.

(** [unnest] of two arrays pads the shorter with NULL, read as zero. *)
Fixpoint add_arrays (a b : list Z) : list Z :=
  match a, b with
  | x :: a, y :: b => (x + y) :: add_arrays a b
  | [], b => b
  | a, [] => a
  end.

(** The assignments of the UPDATE, on the row of a value.  The average is computed in
    doubles; a count below 2^53 is one. *)
Definition merge_row (now : Z) (g : TransactionGroup) (v : Values) : TransactionGroup :=
  {| tg_id := tg_id g; tg_org := tg_org g; tg_key := tg_key g; tg_first_seen := tg_first_seen g;
     tg_last_seen := now;
     tg_avg_duration :=
       (if 0 <? tg_count g + v_count v
        then fl (fl (fl (tg_avg_duration g * inject_Z (tg_count g)) + inject_Z (v_total v))
                 / inject_Z (tg_count g + v_count v))
        else 0)%Q;
     tg_p50 := tg_p50 g; tg_p95 := tg_p95 g;
     tg_count := tg_count g + v_count v; tg_error_count := tg_error_count g + v_errors v;
     tg_histogram := add_arrays (tg_histogram g) (v_histogram v) |}.

Definition merge_values (now : Z) (values : list Values) (g : TransactionGroup) : TransactionGroup :=
  match find_first (fun v => (v_group v =? tg_id g) && (v_org v =? tg_org g)) values with
  | Some v => merge_row now g v
  | None => g
  end.

(** A counter that an element of an [integer[]] column holds. *)
Definition int4 (n : Z) : bool := (- 2 ^ 31 <=? n) && (n <? 2 ^ 31).

Record Percentiles := { pc_p50 : option Z; pc_p95 : option Z; pc_group : Z; pc_org : Z }.

Fixpoint percentile_updates (rows : list TransactionGroup) : res (list Percentiles) :=
  match rows with
  | [] => Ok []
  | g :: rest =>
      let* p50 := percentile_from_histogram (tg_histogram g) (tg_count g) 50 in
      let* p95 := percentile_from_histogram (tg_histogram g) (tg_count g) 95 in
      let* more := percentile_updates rest in
      Ok ({| pc_p50 := p50; pc_p95 := p95; pc_group := tg_id g; pc_org := tg_org g |} :: more)
  end.

Definition set_percentiles (ps : list Percentiles) (g : TransactionGroup) : TransactionGroup :=
  match find_first (fun p => (pc_group p =? tg_id g) && (pc_org p =? tg_org g)) ps with
  | Some p =>
      {| tg_id := tg_id g; tg_org := tg_org g; tg_key := tg_key g; tg_first_seen := tg_first_seen g;
         tg_last_seen := tg_last_seen g; tg_avg_duration := tg_avg_duration g; tg_p50 := pc_p50 p;
         tg_p95 := pc_p95 p; tg_count := tg_count g; tg_error_count := tg_error_count g;
         tg_histogram := tg_histogram g |}
  | None => g
  end.

Definition update_transaction_group_stats (now : Z) (durations : adict Z (list Z)) (errors orgs : adict Z Z)
    (t : Groups) : res Groups :=
  match durations with
  | [] => Ok t
  | _ =>
      let* values := values_data durations errors orgs in
      let rows := map (merge_values now values) (gr_rows t) in
      let* _ := if forallb (fun g => forallb int4 (tg_histogram g)) rows then Ok tt else Raise DataError in
      let ids := map v_group values in
      let org_ids := map v_org values in
      let* ps := percentile_updates (filter (fun g => tg_id g ∈ ids /\ tg_org g ∈ org_ids) rows) in
      Ok {| gr_next := gr_next t; gr_rows := map (set_percentiles ps) rows |}
  end.

(** ** The batch *)

Record TxnStore := {
  ts_groups : Groups;
  ts_staging : list SpanRow;
  ts_hourly : hourly;
  ts_releases : Named;
  ts_environments : Named;
  ts_first_event : gmap Z (option Z);      (* per project *)
}.

Definition set_first_event (now : Z) (projects : list Z) (t : gmap Z (option Z)) : gmap Z (option Z) :=
  map_imap (fun p v => Some (match v with
                             | None => if bool_decide (p ∈ projects) then Some now else None
                             | Some f => Some f
                             end)) t.

Definition release_set (es : list TxnEvent) : list (ustr * Z * Z) :=
  remove_dups (omap (fun e => match x_release e with
                              | Some r => if truthy r then Some (r, x_project_id e, x_organization_id e) else None
                              | None => None
                              end) es).
Definition environment_set (es : list TxnEvent) : list (ustr * Z * Z) :=
  remove_dups (omap (fun e => match x_environment e with
                              | Some n => if truthy n
                                          then Some (slice_to 255 n, x_project_id e, x_organization_id e) else None
                              | None => None
                              end) es).

(** The staging columns: only the span id was not cleaned. *)
Fixpoint store_spans (rows : list SpanRow) (t : list SpanRow) : res (list SpanRow) :=
  match rows with
  | [] => Ok t
  | r :: rest =>
      let* _ := store_varchar 32 (sr_span_id r) in
      store_spans rest (t ++ [r])
  end.

Definition process_transaction_events (now : Z) (replica_groups : Groups) (replica_releases replica_environments : Named)
    (has_difs : Z -> bool) (es : list TxnEvent) (s : TxnStore) : res TxnStore :=
  let first_event := set_first_event now (omap (fun e => if x_update_first_event e then Some (x_project_id e) else None) es)
                       (ts_first_event s) in
  let rs := release_set es in
  let ns := environment_set es in
  let projects := remove_dups (map (fun x => x.1.2) (rs ++ ns)) in
  let '(_, _, releases, environments) :=
    get_or_create_related_models has_difs rs ns projects replica_releases replica_environments
      (ts_releases s) (ts_environments s) in
  let data := map event_data es in
  let* r := ensure_groups now (unique_keys data) replica_groups (ts_groups s) in
  let '(existing, groups) := r in
  let c := collect_events existing data in
  let* groups := update_transaction_group_stats now (co_durations c) (co_errors c) (co_orgs c) groups in
  let* staging := store_spans (co_spans c) (ts_staging s) in
  let* hourly := update_statistics (co_stats c) (u "projects_transactioneventprojecthourlystatistic") (ts_hourly s) in
  Ok {| ts_groups := groups; ts_staging := staging; ts_hourly := hourly; ts_releases := releases;
        ts_environments := environments; ts_first_event := first_event |}.

(** ** What a group records *)

(** The durations and error flags of all transactions of a group. *)
Abbreviation history := (list (Z * bool)).

Definition total (hs : history) : Z := zsum (map fst hs).

(** The average and the count give the total back, up to four roundings of 2^-53 for
    every transaction. *)
Definition average_of (avg : Q) (hs : history) : Prop :=
  close (4 * len hs + 3) (avg * inject_Z (len hs))%Q (inject_Z (total hs)).
Definition errors (hs : history) : Z := len (filter (fun x => x.2 = true) hs).

(** The columns of a group agree with its history; a duration is never negative. *)
Record summarizes (g : TransactionGroup) (hs : history) : Prop := {
  sum_nonneg : Forall (fun x => 0 <= x.1) hs;
  sum_count : tg_count g = len hs;
  sum_errors : tg_error_count g = errors hs;
  sum_avg : average_of (tg_avg_duration g) hs;
  sum_histogram : merge_durations new_histogram (map (fun x => histogram_unit x.1) hs) = Ok (tg_histogram g);
}.

Lemma add_arrays_lookup a b i x y :
  a !! i = Some x -> b !! i = Some y -> add_arrays a b !! i = Some (x + y).
Proof.
  revert b i. induction a as [|a0 a IH]; intros [|b0 b] [|i]; simpl; try done; [by intros [= ->] [= ->]|].
  apply IH.
Qed.

Lemma add_arrays_length a b : length a = length b -> length (add_arrays a b) = length a.
Proof. revert b. induction a as [|x a IH]; intros [|y b] H; simpl in *; [done..|]. f_equal. apply IH. lia. Qed.

(** Adding two histograms records the durations of both. *)
Lemma merge_add_arrays ds1 ds2 h1 h2 :
  merge_durations new_histogram ds1 = Ok h1 -> merge_durations new_histogram ds2 = Ok h2 ->
  merge_durations new_histogram (ds1 ++ ds2) = Ok (add_arrays h1 h2).
Proof.
  intros E1 E2. rewrite merge_durations_app, E1. simpl.
  destruct (merge_durations_ok new_histogram ds1) as (h & E & Hl1 & _); [done|]. rewrite E1 in E. injection E as <-.
  destruct (merge_durations_ok new_histogram ds2) as (h & E & Hl2 & H2); [done|]. rewrite E2 in E. injection E as <-.
  destruct (merge_durations_ok h1 ds2 Hl1) as (h & -> & Hl & H12). f_equal.
  apply list_eq_same_length with NUM_BUCKETS; [rewrite add_arrays_length; lia|done|].
  intros i x y Hi Hx Hy. destruct (lookup_lt_is_Some_2 h1 i) as [x1 Hx1]; [by rewrite Hl1|].
  rewrite (H12 i x1 Hx1) in Hx. injection Hx as <-.
  assert (h2 !! i = Some (0 + count (fun d => Nat.eqb (bucket d) i) ds2)) as Hx2
    by (apply H2; by apply lookup_replicate).
  rewrite (add_arrays_lookup _ _ _ _ _ Hx1 Hx2) in Hy. injection Hy as <-. lia.
Qed.

Lemma count_le P ds : 0 <= count P ds <= len ds.
Proof.
  unfold count, len. induction ds as [|d ds IH]; [done|]. cbn [map length]. rewrite zsum_cons. destruct (P d); lia.
Qed.

(** No counter exceeds the number of durations recorded. *)
Lemma histogram_bounded ds h :
  merge_durations new_histogram ds = Ok h -> len ds < 2 ^ 31 -> forallb int4 h = true.
Proof.
  intros E Hl. destruct (merge_durations_ok new_histogram ds) as (h' & E' & Hlen & Hc); [done|].
  rewrite E in E'. injection E' as <-. apply forallb_forall. intros c Hin. apply list_elem_of_In in Hin.
  apply list_elem_of_lookup in Hin as [i Hi].
  destruct (lookup_lt_is_Some_2 new_histogram i) as [z Hz]; [apply lookup_lt_Some in Hi; by rewrite Hlen in Hi|].
  pose proof Hz as Hz0. apply lookup_replicate in Hz0 as [-> _]. rewrite (Hc i 0 Hz) in Hi. injection Hi as <-.
  pose proof (count_le (fun d => Nat.eqb (bucket d) i) ds). unfold int4. apply andb_true_intro. split; lia.
Qed.

Lemma errors_app a b : errors (a ++ b) = errors a + errors b.
Proof. unfold errors, len. rewrite filter_app, length_app. lia. Qed.

Lemma total_app a b : total (a ++ b) = total a + total b.
Proof. unfold total. by rewrite map_app, zsum_app. Qed.

Lemma errors_nonneg hs : 0 <= errors hs.
Proof. unfold errors, len. lia. Qed.

Lemma total_nonneg hs : Forall (fun x => 0 <= x.1) hs -> 0 <= total hs.
Proof. intros H. apply zsum_nonneg. by apply Forall_map. Qed.

(** The average of a history and a batch. *)
Lemma average_of_app avg hs new :
  average_of avg hs -> Forall (fun x => 0 <= x.1) hs -> Forall (fun x => 0 <= x.1) new -> new <> [] ->
  average_of (fl (fl (fl (avg * inject_Z (len hs)) + inject_Z (py_sum (map fst new))) / inject_Z (len hs + len new)))
    (hs ++ new).
Proof.
  intros Ha Hh Hn Hne. unfold average_of in *. rewrite total_app.
  assert (0 <= len hs) as Hlh by (unfold len; lia). assert (1 <= len new) as Hln by (destruct new; [done|unfold len; simpl; lia]).
  replace (len (hs ++ new)) with (len hs + len new) by (unfold len; rewrite length_app; lia).
  pose proof (inject_nonneg _ (total_nonneg hs Hh)) as Hth. pose proof (inject_nonneg _ (total_nonneg new Hn)) as Htn.
  assert (0 <= inject_Z (total hs + total new))%Q as Htot by (rewrite inject_Z_plus; lra).
  set (c := inject_Z (len hs + len new)).
  assert (0 < c)%Q as Hc by (unfold c; change 0%Q with (inject_Z 0); rewrite <- Zlt_Qlt; lia).
  pose proof (py_sum_close (map fst new) ltac:(by apply Forall_map)) as Hs. replace (len (map fst new)) with (len new) in Hs
    by (unfold len; by rewrite length_map).
  set (k := 4 * (len hs + len new) + 1).
  assert (close k (fl (avg * inject_Z (len hs)) + inject_Z (py_sum (map fst new))) (inject_Z (total hs + total new))) as H1.
  { rewrite inject_Z_plus. apply close_add.
    - apply (close_mono (4 * len hs + 3 + 1)); [unfold k; lia|done|]. apply close_fl; [lia|done..].
    - apply (close_mono (4 * len new + 1)); [|done..]. unfold k. lia. }
  apply close_fl in H1; [|unfold k; lia|done].
  set (s := fl (_ + _)) in *. assert (close (k + 1) (s / c) (inject_Z (total hs + total new) / c)) as H2.
  { apply close_mult; [by apply Qlt_le_weak, Qinv_lt_0_compat|done]. }
  apply close_fl in H2; [|unfold k; lia|by apply Qle_shift_div_l; [|rewrite Qmult_0_l]].
  apply (close_mult _ _ _ c) in H2; [|by apply Qlt_le_weak]. rewrite (Qmult_comm (_ / c) c), Qmult_div_r in H2 by lra.
  revert H2. apply close_mono; [unfold k; lia|done].
Qed.

(** The UPDATE adds the values of a batch to the history. *)
Lemma merge_row_summarizes now g v hs new :
  summarizes g hs -> new <> [] -> Forall (fun x => 0 <= x.1) new ->
  v_count v = len new -> v_total v = py_sum (map fst new) -> v_errors v = errors new ->
  merge_durations new_histogram (map (fun x => histogram_unit x.1) new) = Ok (v_histogram v) ->
  summarizes (merge_row now g v) (hs ++ new).
Proof.
  intros [Hn Hc He Ha Hh] Hne Hnn Hvc Hvt Hve Hvh. assert (0 < len new) as Hpos.
  { unfold len. destruct new; [done|simpl; lia]. }
  split; simpl.
  - by apply Forall_app.
  - rewrite Hc, Hvc. unfold len. rewrite length_app. lia.
  - by rewrite He, Hve, errors_app.
  - rewrite Hc, Hvc. destruct (0 <? len hs + len new) eqn:E; [|unfold len in *; lia].
    rewrite Hvt. by apply average_of_app.
  - rewrite map_app. by apply merge_add_arrays.
Qed.

(** ** The table of groups *)

(** Ids are unique and below the sequence, keys are unique, and a group belongs to the
    organization of its project. *)
Record groups_ok (org_of : Z -> Z) (t : Groups) : Prop := {
  gr_ids : NoDup (map tg_id (gr_rows t));
  gr_below : forall g, g ∈ gr_rows t -> tg_id g < gr_next t;
  gr_keys : NoDup (map tg_key (gr_rows t));
  gr_orgs : forall g, g ∈ gr_rows t -> tg_org g = org_of (tg_key g).1.1.1;
}.

(** The columns the groups of the replica share with the primary. *)
Definition replica_ok (replica t : Groups) : Prop :=
  forall g, g ∈ gr_rows replica ->
    exists g', g' ∈ gr_rows t /\ tg_id g' = tg_id g /\ tg_org g' = tg_org g /\ tg_key g' = tg_key g.

Definition fits (k : group_key) : Prop :=
  let '(_, transaction, op, method) := k in
  (0 ∉ transaction /\ len transaction <= 1024) /\ (0 ∉ op /\ len op <= 255) /\ (0 ∉ method /\ len method <= 255).

Lemma store_varchar_fits n s : 0 ∉ s -> len s <= n -> store_varchar n s = Ok s.
Proof.
  intros H0 Hn. unfold store_varchar. rewrite bool_decide_false by done.
  by destruct (Z.leb_spec (len s) n) as [_|?]; [|lia].
Qed.

(** A group that has just been created. *)
Definition is_new_group (g : TransactionGroup) : Prop :=
  tg_count g = 0 /\ tg_error_count g = 0 /\ tg_avg_duration g = 0%Q /\ tg_histogram g = new_histogram.

Lemma new_group_summarizes g : is_new_group g -> summarizes g [].
Proof. intros (Hc & He & Ha & Hh). split; [done|done|done| |by rewrite Hh]. rewrite Ha. by apply close_refl. Qed.

(** What creating groups does to the table. *)
Definition extends (t t' : Groups) : Prop :=
  exists new, gr_rows t' = gr_rows t ++ new /\ Forall is_new_group new /\ gr_next t <= gr_next t'.

Lemma extends_refl t : extends t t.
Proof. exists []. by rewrite app_nil_r. Qed.

Lemma extends_trans t1 t2 t3 : extends t1 t2 -> extends t2 t3 -> extends t1 t3.
Proof.
  intros (n1 & E1 & F1 & L1) (n2 & E2 & F2 & L2). exists (n1 ++ n2).
  rewrite E2, E1, app_assoc. split_and!; [done|by apply Forall_app|lia].
Qed.

Lemma insert_group_spec now org_of t k org :
  groups_ok org_of t -> fits k -> org = org_of k.1.1.1 ->
  exists t', insert_group now t (k, org) = Ok t' /\ groups_ok org_of t' /\ extends t t'
    /\ exists g, g ∈ gr_rows t' /\ tg_key g = k.
Proof.
  intros Hok Hfits Horg. destruct k as [[[p tr] op] m]. destruct Hfits as ((? & ?) & (? & ?) & ? & ?).
  unfold insert_group. cbn [fst snd] in *. rewrite !store_varchar_fits by done. cbn [res_bind].
  destruct (existsb _ _) eqn:E.
  - eexists. split; [done|]. apply existsb_exists in E as (g & Hg & Hb). apply bool_decide_eq_true in Hb as [Hk _].
    apply list_elem_of_In in Hg. split_and!; [|by exists []; simpl; rewrite app_nil_r; split_and!; [| |lia]|by exists g].
    destruct Hok as [? Hb ? ?]. split; simpl; [done| |done|done]. intros g' Hg'. specialize (Hb g' Hg'). lia.
  - eexists. split; [done|]. split_and!.
    + assert (forall g, g ∈ gr_rows t -> tg_key g <> (p, tr, op, m)) as Hno.
      { intros g Hg Hk. destruct Hok as [_ _ _ Ho]. specialize (Ho g Hg). rewrite Hk in Ho. simpl in Ho.
        apply not_true_iff_false in E. apply E, existsb_exists. exists g. split; [by apply list_elem_of_In|].
        apply bool_decide_eq_true. by rewrite Horg. }
      destruct Hok as [Hi Hb Hks Ho]. split; simpl.
      * rewrite map_app. apply NoDup_app. split_and!; [done| |apply NoDup_singleton].
        intros i (g & -> & Hg)%list_elem_of_fmap Hg2%list_elem_of_singleton. specialize (Hb g Hg). simpl in Hg2. lia.
      * intros g [Hg| ->%list_elem_of_singleton]%elem_of_app; [specialize (Hb g Hg); lia|simpl; lia].
      * rewrite map_app. apply NoDup_app. split_and!; [done| |apply NoDup_singleton].
        intros i (g & -> & Hg)%list_elem_of_fmap Hk%list_elem_of_singleton. by apply (Hno g).
      * by intros g [Hg| ->%list_elem_of_singleton]%elem_of_app; [apply Ho|].
    + eexists. split_and!; [done|by repeat constructor|simpl; lia].
    + eexists. split; [apply elem_of_app; right; left|done].
Qed.

Lemma extends_rows t t' g : extends t t' -> g ∈ gr_rows t -> g ∈ gr_rows t'.
Proof. intros (n & -> & _) Hg. apply elem_of_app. by left. Qed.

Lemma insert_groups_spec now org_of rows t :
  groups_ok org_of t -> Forall (fun r => fits r.1 /\ r.2 = org_of r.1.1.1.1) rows ->
  exists t', insert_groups now t rows = Ok t' /\ groups_ok org_of t' /\ extends t t'
    /\ forall r, r ∈ rows -> exists g, g ∈ gr_rows t' /\ tg_key g = r.1.
Proof.
  intros Hok Hall. revert t Hok. induction Hall as [|[k o] rows [Hf Ho] _ IH]; intros t Hok; simpl.
  - exists t. split_and!; [done..|apply extends_refl|by intros r ?%elem_of_nil].
  - destruct (insert_group_spec now org_of t k o Hok Hf Ho) as (t1 & -> & Hok1 & Hx1 & g & Hg & Hk). simpl.
    destruct (IH t1 Hok1) as (t2 & -> & Hok2 & Hx2 & Hall2). exists t2.
    split_and!; [done..|by eapply extends_trans|]. intros r [->|Hr]%elem_of_cons; [|by apply Hall2].
    exists g. split; [by eapply extends_rows|done].
Qed.

Definition event_org_ok (org_of : Z -> Z) (x : EventData) : Prop :=
  (ed_key x).1.1.1 = x_project_id (ed_event x) /\ x_organization_id (ed_event x) = org_of (x_project_id (ed_event x)).

Lemma unique_keys_has data x : x ∈ data -> ed_key x ∈ (unique_keys data).*1.
Proof.
  unfold unique_keys. induction data as [|y data IH] using rev_ind; [by intros ?%elem_of_nil|].
  rewrite foldl_app. cbn [foldl]. set (d := foldl _ [] data) in *.
  intros [Hx|Hx%list_elem_of_singleton]%elem_of_app; [specialize (IH Hx)|subst y];
    destruct (aget _ d) as [o|] eqn:E; [done| |apply aget_elem in E; apply list_elem_of_fmap; by eexists (_, o)|];
    rewrite aset_keys, decide_False by (by apply aget_None); apply elem_of_app; [by left|right; left].
Qed.

Lemma unique_keys_spec org_of data :
  Forall (event_org_ok org_of) data ->
  Forall (fun kv => kv.2 = org_of kv.1.1.1.1 /\ exists x, x ∈ data /\ ed_key x = kv.1) (unique_keys data).
Proof.
  unfold unique_keys. induction data as [|x data IH] using rev_ind; intros Hall.
  { constructor. }
  apply Forall_app in Hall as [Hall Hx]. apply (proj1 (Forall_singleton _ _)) in Hx. pose proof (IH Hall) as Hvals. clear IH.
  rewrite foldl_app. cbn [foldl]. set (d := foldl _ [] data) in *.
  assert (Forall (fun kv : group_key * Z => kv.2 = org_of kv.1.1.1.1 /\ exists y, y ∈ data ++ [x] /\ ed_key y = kv.1) d) as Hvals'.
  { eapply Forall_impl; [exact Hvals|]. intros kv (Hv & y & Hy & E). split; [done|]. exists y.
    split; [apply elem_of_app; by left|done]. }
  destruct (aget (ed_key x) d) as [o|] eqn:E.
  - done.
  - apply Forall_forall. intros kv Hkv. rewrite Forall_forall in Hvals'.
    assert (kv ∈ d \/ kv = (ed_key x, x_organization_id (ed_event x))) as [Hd| ->]; [|by apply Hvals'|].
    + clear -Hkv. induction d as [|y d IH]; cbn [aset] in Hkv.
      { apply list_elem_of_singleton in Hkv. by right. }
      destruct (decide (y.1 = ed_key x)); apply elem_of_cons in Hkv as [->|Hkv]; [by right|left; by right|left; left|].
      destruct (IH Hkv) as [?|?]; [left; by right|by right].
    + cbn [fst snd]. destruct Hx as [Hp Ho]. split; [by rewrite Hp|]. exists x. split; [|done].
      apply elem_of_app. right. left.
Qed.

Lemma fetch_spec keys t k :
  (forall id org, aget k (fetch_transaction_groups keys t) = Some (id, org) ->
     exists g, g ∈ gr_rows t /\ tg_key g = k /\ tg_id g = id /\ tg_org g = org)
  /\ (forall g, g ∈ gr_rows t -> tg_key g = k -> k ∈ keys -> is_Some (aget k (fetch_transaction_groups keys t))).
Proof.
  unfold fetch_transaction_groups.
  assert (forall rows : list TransactionGroup,
    let d := foldl (fun d g => aset (tg_key g) (tg_id g, tg_org g) d) [] rows in
    (forall id org, aget k d = Some (id, org) -> exists g, g ∈ rows /\ tg_key g = k /\ tg_id g = id /\ tg_org g = org)
    /\ (forall g, g ∈ rows -> tg_key g = k -> is_Some (aget k d))) as Hgen.
  { induction rows as [|g rows IH] using rev_ind; [split; [done|by intros g ?%elem_of_nil]|].
    rewrite foldl_app. cbn [foldl]. set (d := foldl _ [] rows) in *. destruct IH as [H1 H2].
    destruct (decide (tg_key g = k)) as [<-|Hne].
    - rewrite aget_aset_eq. split; [|by eexists]. intros id org [= <- <-]. exists g.
      split_and!; [apply elem_of_app; right; left|done..].
    - rewrite aget_aset_ne by done. split.
      + intros id org Hd. destruct (H1 _ _ Hd) as (g' & ? & ?). exists g'. split; [apply elem_of_app; by left|done].
      + intros g' [Hg'| ->%list_elem_of_singleton]%elem_of_app Hk; [by apply (H2 g')|done]. }
  destruct (Hgen (filter (fun g => tg_key g ∈ keys) (gr_rows t))) as [H1 H2]. split.
  - intros id org Hd. destruct (H1 _ _ Hd) as (g & [_ Hg]%list_elem_of_filter & Hr). eauto.
  - intros g Hg Hk Hin. apply (H2 g); [|done]. apply list_elem_of_filter. by rewrite Hk.
Qed.

Lemma aget_aupdate {K V} `{EqDecision K} (d more : adict K V) k v :
  aget k (aupdate d more) = Some v -> aget k d = Some v \/ (k, v) ∈ more.
Proof.
  unfold aupdate. revert d. induction more as [|[k' v'] more IH]; intros d; cbn [foldl]; [by left|].
  intros [Hs|Hs]%IH; [|right; by right]. simpl in Hs. destruct (decide (k' = k)) as [->|Hne].
  - rewrite aget_aset_eq in Hs. simplify_eq. right. left.
  - rewrite aget_aset_ne in Hs by done. by left.
Qed.

Lemma aupdate_some {K V} `{EqDecision K} (d more : adict K V) k :
  is_Some (aget k d) \/ k ∈ more.*1 -> is_Some (aget k (aupdate d more)).
Proof.
  unfold aupdate. revert d. induction more as [|[k' v'] more IH]; intros d; cbn [foldl].
  { by intros [?|?%elem_of_nil]. }
  intros Hor. apply IH. destruct (decide (k' = k)) as [->|Hne].
  - left. simpl. rewrite aget_aset_eq. by eexists.
  - destruct Hor as [?|Hin]; [left; simpl; by rewrite aget_aset_ne|]. right.
    rewrite fmap_cons in Hin. apply elem_of_cons in Hin as [?|?]; [by subst|done].
Qed.

Lemma NoDup_fetch keys t : NoDup (fetch_transaction_groups keys t).*1.
Proof.
  unfold fetch_transaction_groups. induction (filter _ _) as [|g rows IH] using rev_ind; [by apply NoDup_nil_2|].
  rewrite foldl_app. simpl. auto with gt.
Qed.

Lemma elem_aget {K V} `{EqDecision K} (d : adict K V) k v : NoDup d.*1 -> (k, v) ∈ d -> aget k d = Some v.
Proof.
  unfold aget. induction d as [|[k' v'] d IH]; intros Hnd Hin; [by apply elem_of_nil in Hin|].
  rewrite fmap_cons in Hnd. apply NoDup_cons in Hnd as [Hk Hnd]. cbn. apply elem_of_cons in Hin as [E|Hin].
  - injection E as -> ->. by rewrite decide_True.
  - rewrite decide_False; [by apply IH|]. intros ->. apply Hk, list_elem_of_fmap. by exists (k, v).
Qed.

(** [existing] knows the group of every key of the batch, and only groups of the table. *)
Definition knows (data : list EventData) (existing : adict group_key (Z * Z)) (t : Groups) : Prop :=
  (forall k id org, aget k existing = Some (id, org) ->
     exists g, g ∈ gr_rows t /\ tg_key g = k /\ tg_id g = id /\ tg_org g = org)
  /\ forall x, x ∈ data -> is_Some (aget (ed_key x) existing).

Lemma ensure_groups_spec now org_of data replica t :
  groups_ok org_of t -> replica_ok replica t -> Forall (event_org_ok org_of) data ->
  Forall (fun x => fits (ed_key x)) data ->
  exists existing t', ensure_groups now (unique_keys data) replica t = Ok (existing, t')
    /\ groups_ok org_of t' /\ extends t t' /\ knows data existing t'.
Proof.
  intros Hok Hrep Horg Hfits. pose proof (unique_keys_spec org_of data Horg) as Hvals. pose proof (unique_keys_has data) as Hin. unfold ensure_groups.
  set (uk := unique_keys data) in *. set (ex := match uk with [] => [] | _ => _ end).
  assert (forall k id org, aget k ex = Some (id, org) ->
    exists g, g ∈ gr_rows t /\ tg_key g = k /\ tg_id g = id /\ tg_org g = org) as Hex.
  { intros k id org Hk. subst ex. destruct uk as [|kv uk']; [done|].
    apply (proj1 (fetch_spec _ replica k)) in Hk as (g & Hg & <- & <- & <-).
    destruct (Hrep g Hg) as (g' & ? & ? & ? & ?). eauto. }
  set (missing := filter _ uk).
  assert (forall x, x ∈ data -> is_Some (aget (ed_key x) ex) \/ ed_key x ∈ missing.*1) as Hor.
  { intros x Hx. destruct (aget (ed_key x) ex) eqn:E; [left; by eexists|right].
    apply Hin, list_elem_of_fmap in Hx as ([k o] & Hk & Hkv). rewrite Hk in *.
    apply list_elem_of_fmap. exists (k, o). split; [done|]. by apply list_elem_of_filter. }
  destruct missing as [|m ms] eqn:Em.
  { exists ex, t. split_and!; [done..|apply extends_refl|]. split; [done|]. intros x Hx.
    destruct (Hor x Hx) as [?|?%elem_of_nil]; done. }
  rewrite <- Em in *.
  destruct (insert_groups_spec now org_of missing t Hok) as (t' & E & Hok' & Hx & Hnew).
  { apply Forall_forall. intros kv [_ Hkv]%list_elem_of_filter. rewrite Forall_forall in Hvals.
    destruct (Hvals kv Hkv) as (Ho & x & Hx & Hk). split; [|exact Ho]. rewrite <- Hk. rewrite Forall_forall in Hfits. by apply Hfits. }
  rewrite E. simpl. eexists _, t'. split_and!; [done..|]. split.
  - intros k id org [Hk|Hk]%aget_aupdate.
    + destruct (Hex _ _ _ Hk) as (g & Hg & ?). exists g. split; [by eapply extends_rows|done].
    + apply (fetch_spec missing.*1 t' k). apply elem_aget; [apply NoDup_fetch|done].
  - intros x Hx'. apply aupdate_some. destruct (Hor x Hx') as [?|Hm]; [by left|right].
    pose proof Hm as Hm'. apply list_elem_of_fmap in Hm' as (kv & Hk & Hkv). destruct (Hnew kv Hkv) as (g & Hg & Hgk).
    destruct (proj2 (fetch_spec missing.*1 t' (ed_key x)) g Hg) as [v Hv]; [by rewrite Hgk|done|].
    apply aget_elem in Hv. apply list_elem_of_fmap. by exists (ed_key x, v).
Qed.

(** ** What a batch collects *)

(** Duration and error flag of a transaction. *)
Definition rec_of (x : EventData) : Z * bool :=
  (duration_ms (x_timestamp (ed_event x) - x_start_timestamp (ed_event x)), is_error_status (ed_status x)).

(** What the batch records for a group. *)
Definition recorded (k : group_key) (data : list EventData) : history :=
  map rec_of (filter (fun x => ed_key x = k) data).

Lemma duration_ms_nonneg us : 0 <= duration_ms us.
Proof.
  unfold duration_ms. destruct (Z.leb_spec us 0); [done|]. apply to_double_nonneg; [|done].
  apply Z.mul_nonneg_nonneg; [|done]. apply to_double_nonneg; lia.
Qed.

Lemma recorded_nonneg k data : Forall (fun x => 0 <= x.1) (recorded k data).
Proof. unfold recorded. apply Forall_map, Forall_forall. intros x _. apply duration_ms_nonneg. Qed.

Lemma recorded_len k data : len (recorded k data) <= len data.
Proof. unfold recorded, len. rewrite length_map. pose proof (length_filter (fun x => ed_key x = k) data). lia. Qed.

Lemma recorded_snoc k data x :
  recorded k (data ++ [x]) = recorded k data ++ (if decide (ed_key x = k) then [rec_of x] else []).
Proof. unfold recorded. rewrite filter_app, map_app, filter_cons. by destruct (decide (ed_key x = k)). Qed.

Definition none_if_empty (hs : history) : option (list Z) :=
  match hs with [] => None | _ => Some (map fst hs) end.

Lemma none_if_empty_snoc hs r : none_if_empty (hs ++ [r]) = Some (default [] (none_if_empty hs) ++ [r.1]).
Proof. destruct hs; simpl; [done|]. by rewrite map_app. Qed.

(** No two keys share a group. *)
Definition distinct_ids (existing : adict group_key (Z * Z)) : Prop :=
  forall k1 k2 id o1 o2, aget k1 existing = Some (id, o1) -> aget k2 existing = Some (id, o2) -> k1 = k2.

Lemma knows_distinct org_of data existing t : groups_ok org_of t -> knows data existing t -> distinct_ids existing.
Proof.
  intros Hok [Hk _] k1 k2 id o1 o2 H1 H2.
  destruct (Hk _ _ _ H1) as (g1 & Hg1 & <- & Hi1 & _), (Hk _ _ _ H2) as (g2 & Hg2 & <- & Hi2 & _). f_equal.
  apply (nodup_map_inj tg_id (gr_rows t)); [apply Hok|done..|congruence].
Qed.

Record collected_for (existing : adict group_key (Z * Z)) (data : list EventData) (c : Collected) : Prop := {
  cf_durations : forall k id org, aget k existing = Some (id, org) ->
    aget id (co_durations c) = none_if_empty (recorded k data);
  cf_errors : forall k id org, aget k existing = Some (id, org) ->
    default 0 (aget id (co_errors c)) = errors (recorded k data);
  cf_orgs : forall k id org, aget k existing = Some (id, org) -> recorded k data <> [] ->
    aget id (co_orgs c) = Some org;
  cf_ids : forall id, id ∈ (co_durations c).*1 -> exists k org, aget k existing = Some (id, org) /\ recorded k data <> [];
  cf_nodup : NoDup (co_durations c).*1;
}.

Lemma collect_events_spec existing data :
  distinct_ids existing -> collected_for existing data (collect_events existing data).
Proof.
  intros Hinj. unfold collect_events. induction data as [|x data IH] using rev_ind.
  { split; try done. - by intros id ?%elem_of_nil. - by apply NoDup_nil_2. }
  rewrite foldl_app. cbn [foldl]. set (c := foldl _ _ data) in *. destruct IH as [Hd He Ho Hi Hn].
  unfold collect_event. destruct (aget (ed_key x) existing) as [[id org]|] eqn:Ex.
  2:{ assert (forall k v, aget k existing = Some v -> recorded k (data ++ [x]) = recorded k data) as Hsame.
      { intros k v Hk. rewrite recorded_snoc, decide_False, app_nil_r; [done|]. intros <-. by rewrite Ex in Hk. }
      split; try done.
      - intros k id org Hk. rewrite (Hsame k _ Hk). by apply (Hd k id org).
      - intros k id org Hk. rewrite (Hsame k _ Hk). by apply (He k id org).
      - intros k id org Hk. rewrite (Hsame k _ Hk). by apply (Ho k id org).
      - intros id Hid. destruct (Hi id Hid) as (k & org & Hk & Hr). exists k, org. by rewrite (Hsame k _ Hk). }
  assert (forall k id' org', aget k existing = Some (id', org') -> id' = id -> k = ed_key x) as Hsame.
  { intros k id' org' Hk ->. by apply (Hinj k (ed_key x) id org' org). }
  assert (forall k id' org', aget k existing = Some (id', org') -> id' <> id -> recorded k (data ++ [x]) = recorded k data) as Hother.
  { intros k id' org' Hk Hne. rewrite recorded_snoc, decide_False, app_nil_r; [done|]. intros <-. congruence. }
  assert (recorded (ed_key x) (data ++ [x]) = recorded (ed_key x) data ++ [rec_of x]) as Hthis.
  { by rewrite recorded_snoc, decide_True. }
  split; cbn [co_durations co_errors co_orgs].
  - intros k id' org' Hk. destruct (decide (id' = id)) as [->|Hne].
    + rewrite (Hsame k id org' Hk eq_refl), aget_aset_eq, Hthis, none_if_empty_snoc.
      by rewrite (Hd (ed_key x) id org Ex).
    + rewrite aget_aset_ne by done. rewrite (Hother k id' org' Hk Hne). by apply (Hd k id' org').
  - intros k id' org' Hk. destruct (decide (id' = id)) as [->|Hne].
    + rewrite (Hsame k id org' Hk eq_refl), Hthis, errors_app, <- (He (ed_key x) id org Ex).
      unfold errors at 1, rec_of. rewrite filter_cons. cbn [snd filter list_filter]. destruct (is_error_status _).
      * rewrite aget_aset_eq. by rewrite decide_True.
      * rewrite decide_False by done. unfold len. simpl. lia.
    + rewrite (Hother k id' org' Hk Hne), <- (He k id' org' Hk). destruct (is_error_status _); [|done].
      by rewrite aget_aset_ne.
  - intros k id' org' Hk Hr. destruct (decide (id' = id)) as [->|Hne].
    + rewrite aget_aset_eq. pose proof (Hsame k id org' Hk eq_refl). congruence.
    + rewrite aget_aset_ne by done. rewrite (Hother k id' org' Hk Hne) in Hr. by apply (Ho k id' org').
  - intros id' Hid. rewrite aset_keys in Hid.
    assert (id' = id \/ id' ∈ (co_durations c).*1) as [->|Hin].
    { case_decide; [by right|]. apply elem_of_app in Hid as [?| ?%list_elem_of_singleton]; [by right|by left]. }
    + exists (ed_key x), org. split; [done|]. rewrite Hthis. by intros [_ ?]%app_nil.
    + destruct (Hi id' Hin) as (k & org' & Hk & Hr). exists k, org'. split; [done|].
      rewrite recorded_snoc. by intros [? _]%app_nil.
  - auto with gt.
Qed.

(** ** Updating the table *)

(** What a row of the VALUES list says of its group. *)
Definition value_ok (durations : adict Z (list Z)) (errs orgs : adict Z Z) (v : Values) : Prop :=
  exists ds, aget (v_group v) durations = Some ds /\ aget (v_group v) orgs = Some (v_org v)
    /\ v_count v = len ds /\ v_total v = py_sum ds /\ v_errors v = default 0 (aget (v_group v) errs)
    /\ merge_durations new_histogram (map histogram_unit ds) = Ok (v_histogram v).

Lemma values_data_spec durations errs orgs :
  NoDup durations.*1 -> (forall id, id ∈ durations.*1 -> is_Some (aget id orgs)) ->
  exists vs, values_data durations errs orgs = Ok vs /\ map v_group vs = durations.*1
    /\ Forall (value_ok durations errs orgs) vs.
Proof.
  intros Hnd Horgs.
  assert (forall l : adict Z (list Z), l ⊆ durations ->
    exists vs, values_data l errs orgs = Ok vs /\ map v_group vs = l.*1 /\ Forall (value_ok durations errs orgs) vs) as Hgen;
    [|by apply Hgen].
  induction l as [|[id ds] l IH]; intros Hsub; simpl; [by exists []|].
  assert ((id, ds) ∈ durations) as Hin by (apply Hsub; left).
  destruct (Horgs id) as [org Ho]; [apply list_elem_of_fmap; by exists (id, ds)|]. rewrite Ho.
  destruct (merge_durations_ok new_histogram (map histogram_unit ds)) as (h & Hh & _); [done|]. rewrite Hh. simpl.
  destruct IH as (vs & -> & Hm & Hall); [intros y Hy; apply Hsub; by right|]. simpl. eexists. split; [done|].
  split; [simpl; by f_equal|]. constructor; [|done]. exists ds. simpl. split; [by apply elem_aget|done].
Qed.

(** Assignments leave the identity of a group alone. *)
Definition same_identity (g g' : TransactionGroup) : Prop :=
  tg_id g' = tg_id g /\ tg_org g' = tg_org g /\ tg_key g' = tg_key g.

Lemma merge_values_identity now vs g : same_identity g (merge_values now vs g).
Proof. unfold merge_values. by destruct (find_first _ vs). Qed.

Lemma set_percentiles_identity ps g : same_identity g (set_percentiles ps g).
Proof. unfold set_percentiles. by destruct (find_first _ ps). Qed.

Lemma groups_ok_map org_of t (f : TransactionGroup -> TransactionGroup) :
  (forall g, same_identity g (f g)) -> groups_ok org_of t ->
  groups_ok org_of {| gr_next := gr_next t; gr_rows := map f (gr_rows t) |}.
Proof.
  intros Hf [Hi Hb Hk Ho]. split; simpl.
  - rewrite map_map. erewrite map_ext; [exact Hi|]. intros g. apply Hf.
  - intros g (g0 & -> & Hg)%list_elem_of_fmap. destruct (Hf g0) as (-> & _). by apply Hb.
  - rewrite map_map. erewrite map_ext; [exact Hk|]. intros g. apply Hf.
  - intros g (g0 & -> & Hg)%list_elem_of_fmap. destruct (Hf g0) as (_ & -> & ->). by apply Ho.
Qed.

(** A column is the nearest-rank percentile of a history, up to its bucket. *)
Definition exact_percentile (hs : history) (pct : Z) (p : option Z) : Prop :=
  exists d, sorted_durations (map (fun x => histogram_unit x.1) hs) !! Z.to_nat (rank (len hs) pct - 1) = Some d
    /\ p = Some (midpoint (Z.to_nat (get_bucket_index d))).

Lemma summarized_percentile g hs pct :
  summarizes g hs -> hs <> [] -> 0 < pct <= 100 ->
  exists p, percentile_from_histogram (tg_histogram g) (tg_count g) pct = Ok p /\ exact_percentile hs pct p.
Proof.
  intros [_ Hc _ _ Hh] Hne Hp.
  destruct (percentile_of_merged (map (fun x => histogram_unit x.1) hs) pct (tg_histogram g)) as (d & Hd & E);
    [by destruct hs|done..|].
  rewrite length_map in Hd, E. fold (len hs) in Hd, E. rewrite Hc, E. eexists. split; [done|]. by exists d.
Qed.

Lemma percentile_updates_spec rows :
  (forall g, g ∈ rows -> exists a b, percentile_from_histogram (tg_histogram g) (tg_count g) 50 = Ok a
     /\ percentile_from_histogram (tg_histogram g) (tg_count g) 95 = Ok b) ->
  exists ps, percentile_updates rows = Ok ps
    /\ (forall p, p ∈ ps -> exists g, g ∈ rows /\ pc_group p = tg_id g /\ pc_org p = tg_org g
          /\ percentile_from_histogram (tg_histogram g) (tg_count g) 50 = Ok (pc_p50 p)
          /\ percentile_from_histogram (tg_histogram g) (tg_count g) 95 = Ok (pc_p95 p))
    /\ (forall g, g ∈ rows -> exists p, p ∈ ps /\ pc_group p = tg_id g /\ pc_org p = tg_org g).
Proof.
  induction rows as [|g rows IH]; intros Hall; simpl.
  { exists []. split_and!; [done|by intros p ?%elem_of_nil..]. }
  destruct (Hall g ltac:(left)) as (a & b & Ea & Eb). rewrite Ea, Eb. simpl.
  destruct IH as (ps & -> & H1 & H2); [intros; apply Hall; by right|]. simpl. eexists. split_and!; [done| |].
  - intros p [->|Hp]%elem_of_cons; [exists g; split; [left|done]|].
    destruct (H1 p Hp) as (g' & ? & ?). exists g'. split; [by right|done].
  - intros g' [->|Hg]%elem_of_cons; [eexists; split; [left|done]|].
    destruct (H2 g' Hg) as (p & ? & ?). exists p. split; [by right|done].
Qed.

Lemma set_percentiles_summarizes ps g hs : summarizes g hs -> summarizes (set_percentiles ps g) hs.
Proof. intros [? ? ? ? ?]. unfold set_percentiles. by destruct (find_first _ ps). Qed.

Section stats.
Context (now : Z) (org_of : Z -> Z) (data : list EventData) (existing : adict group_key (Z * Z)) (t : Groups).
Context (past : group_key -> history).
Hypothesis Hok : groups_ok org_of t.
Hypothesis Hknows : knows data existing t.
Hypothesis Hpast : forall g, g ∈ gr_rows t -> summarizes g (past (tg_key g)).
Hypothesis Hroom : forall k, len (past k ++ recorded k data) < 2 ^ 31.

Lemma group_of_id k id org g :
  aget k existing = Some (id, org) -> g ∈ gr_rows t -> tg_id g = id -> tg_key g = k /\ tg_org g = org.
Proof.
  intros Hk Hg Hid. destruct (proj1 Hknows _ _ _ Hk) as (g' & Hg' & <- & Hid' & <-).
  assert (g = g') as ->; [|done]. apply (nodup_map_inj tg_id (gr_rows t)); [apply Hok|done..|congruence].
Qed.

Lemma recorded_known g :
  g ∈ gr_rows t -> recorded (tg_key g) data <> [] -> aget (tg_key g) existing = Some (tg_id g, tg_org g).
Proof.
  intros Hg Hr.
  assert (exists x, x ∈ data /\ ed_key x = tg_key g) as (x & Hx & Hk).
  { unfold recorded in Hr. destruct (filter _ data) as [|x l] eqn:E; [done|].
    assert (x ∈ filter (fun x => ed_key x = tg_key g) data) as [? ?]%list_elem_of_filter by (rewrite E; left). eauto. }
  destruct (proj2 Hknows x Hx) as [[id org] E]. rewrite Hk in E. rewrite E.
  destruct (proj1 Hknows _ _ _ E) as (g' & Hg' & Hk' & <- & <-).
  by rewrite (nodup_map_inj tg_key (gr_rows t) g' g (gr_keys _ _ Hok) Hg' Hg Hk').
Qed.

Lemma merge_values_spec errs orgs durations vs g :
  collected_for existing data {| co_durations := durations; co_errors := errs; co_orgs := orgs;
                                 co_spans := []; co_stats := ∅ |} ->
  map v_group vs = durations.*1 -> Forall (value_ok durations errs orgs) vs -> g ∈ gr_rows t ->
  summarizes (merge_values now vs g) (past (tg_key g) ++ recorded (tg_key g) data)
  /\ (recorded (tg_key g) data <> [] <-> tg_id g ∈ map v_group vs).
Proof.
  intros [Hd He Ho Hi Hn] Hids Hvs Hg. simpl in *. rewrite Hids.
  assert (recorded (tg_key g) data <> [] <-> tg_id g ∈ durations.*1) as Hiff.
  { split.
    - intros Hr. pose proof (recorded_known g Hg Hr) as Hk. specialize (Hd _ _ _ Hk).
      destruct (recorded _ _); [done|]. apply aget_elem in Hd. apply list_elem_of_fmap.
      by eexists (_, _).
    - intros Hin. destruct (Hi _ Hin) as (k & org & Hk & Hr). by destruct (group_of_id k _ _ g Hk Hg eq_refl) as [-> _]. }
  split; [|done]. unfold merge_values. destruct (find_first _ vs) as [v|] eqn:E.
  - apply find_first_Some in E as [Hv Hb]. bool_split. rewrite Forall_forall in Hvs.
    destruct (Hvs v Hv) as (ds & Hds & Horg & Hc & Htot & Herr & Hh).
    assert (recorded (tg_key g) data <> []) as Hr.
    { apply Hiff. rewrite <- Hids. apply list_elem_of_fmap. by exists v. }
    pose proof (recorded_known g Hg Hr) as Hk. rewrite H in *. rewrite (Hd _ _ _ Hk) in Hds.
    assert (ds = map fst (recorded (tg_key g) data)) as -> by (destruct (recorded _ _); [done|by injection Hds]).
    apply merge_row_summarizes; [by apply Hpast|done|apply recorded_nonneg| | |by rewrite Herr, (He _ _ _ Hk)|].
    + rewrite Hc. unfold len. by rewrite length_map.
    + by rewrite Htot.
    + by rewrite map_map in Hh.
  - assert (recorded (tg_key g) data = []) as ->; [|rewrite app_nil_r; by apply Hpast].
    destruct (decide (recorded (tg_key g) data = [])) as [|Hr]; [done|]. exfalso.
    pose proof (recorded_known g Hg Hr) as Hk.
    pose proof (proj1 Hiff Hr) as Hin. rewrite <- Hids in Hin. apply list_elem_of_fmap in Hin as (v & Hv & Hvin).
    rewrite find_first_None in E. specialize (E v Hvin). rewrite Forall_forall in Hvs.
    destruct (Hvs v Hvin) as (ds & Hds & Horg & _). rewrite <- Hv, (Ho _ _ _ Hk Hr) in Horg. injection Horg as Horg.
    rewrite <- Hv, <- Horg, !Z.eqb_refl in E. done.
Qed.

(** The percentiles of a row that the VALUES list names. *)
Lemma summarized_percentiles g hs :
  summarizes g hs -> hs <> [] ->
  exists a b, percentile_from_histogram (tg_histogram g) (tg_count g) 50 = Ok a
    /\ percentile_from_histogram (tg_histogram g) (tg_count g) 95 = Ok b
    /\ exact_percentile hs 50 a /\ exact_percentile hs 95 b.
Proof.
  intros Hs Hne. destruct (summarized_percentile g hs 50 Hs Hne) as (a & Ha & Hxa); [lia|].
  destruct (summarized_percentile g hs 95 Hs Hne) as (b & Hb & Hxb); [lia|]. exists a, b.
  split_and!; assumption.
Qed.

Definition history_of (g : TransactionGroup) : history := past (tg_key g) ++ recorded (tg_key g) data.

Lemma history_nonempty g : recorded (tg_key g) data <> [] -> history_of g <> [].
Proof. unfold history_of. by intros Hr [_ ?]%app_nil. Qed.

Definition final_row (g : TransactionGroup) : Prop :=
  summarizes g (history_of g)
  /\ (recorded (tg_key g) data <> [] ->
      exact_percentile (history_of g) 50 (tg_p50 g) /\ exact_percentile (history_of g) 95 (tg_p95 g)).

Lemma history_of_identity g g' : same_identity g g' -> history_of g' = history_of g.
Proof. unfold history_of. by intros (_ & _ & ->). Qed.

(** The percentile update of a merged row. *)
Lemma set_percentiles_final rows ps g :
  NoDup (map tg_id rows) -> g ∈ rows ->
  (forall p, p ∈ ps -> exists g, g ∈ rows /\ pc_group p = tg_id g /\ pc_org p = tg_org g
     /\ percentile_from_histogram (tg_histogram g) (tg_count g) 50 = Ok (pc_p50 p)
     /\ percentile_from_histogram (tg_histogram g) (tg_count g) 95 = Ok (pc_p95 p)) ->
  (recorded (tg_key g) data <> [] -> exists p, p ∈ ps /\ pc_group p = tg_id g /\ pc_org p = tg_org g) ->
  summarizes g (history_of g) -> final_row (set_percentiles ps g).
Proof.
  intros Hnd Hg Hps Hhas Hs. unfold final_row. rewrite (history_of_identity g) by apply set_percentiles_identity.
  destruct (set_percentiles_identity ps g) as (_ & _ & ->).
  split; [by apply set_percentiles_summarizes|]. intros Hr. destruct (Hhas Hr) as (p & Hp & Hi & Ho).
  unfold set_percentiles. destruct (find_first _ ps) as [p'|] eqn:E.
  - apply find_first_Some in E as [Hp' Hb]. bool_split. destruct (Hps p' Hp') as (g' & Hg' & Hi' & Ho' & H50 & H95).
    assert (g' = g) as -> by (apply (nodup_map_inj tg_id rows); [done..|congruence]).
    destruct (summarized_percentiles g (history_of g) Hs (history_nonempty g Hr)) as (a & b & Ea & Eb & Hx).
    rewrite Ea in H50. rewrite Eb in H95. injection H50 as <-. by injection H95 as <-.
  - exfalso. rewrite find_first_None in E. specialize (E p Hp). by rewrite Hi, Ho, !Z.eqb_refl in E.
Qed.

(** Without a recorded transaction no row changes. *)
Lemma unrecorded_final g :
  g ∈ gr_rows t -> recorded (tg_key g) data = [] -> final_row g.
Proof.
  intros Hg Hr. unfold final_row, history_of. rewrite Hr, app_nil_r. split; [by apply Hpast|done].
Qed.

(** The organization of a merged row is in the VALUES list. *)
Lemma merged_org c vs g :
  collected_for existing data c -> Forall (value_ok (co_durations c) (co_errors c) (co_orgs c)) vs ->
  g ∈ gr_rows t -> recorded (tg_key g) data <> [] -> tg_id g ∈ map v_group vs -> tg_org g ∈ map v_org vs.
Proof.
  intros Hc Hvs Hg Hr (v & Hv & Hvin)%list_elem_of_fmap. rewrite Forall_forall in Hvs.
  destruct (Hvs v Hvin) as (ds & _ & Horg & _). rewrite <- Hv in Horg.
  rewrite (cf_orgs _ _ _ Hc _ _ _ (recorded_known g Hg Hr) Hr) in Horg. injection Horg as ->.
  apply list_elem_of_fmap. by exists v.
Qed.

(** The two statements of [_update_transaction_group_stats] together. *)
Lemma group_stats_spec c :
  collected_for existing data c ->
  exists t', update_transaction_group_stats now (co_durations c) (co_errors c) (co_orgs c) t = Ok t'
    /\ groups_ok org_of t' /\ map tg_key (gr_rows t') = map tg_key (gr_rows t)
    /\ Forall final_row (gr_rows t').
Proof.
  intros Hc. unfold update_transaction_group_stats. destruct (co_durations c) as [|d ds] eqn:Ed.
  { exists t. split_and!; [done..|]. apply Forall_forall. intros g Hg. apply unrecorded_final; [done|].
    destruct (decide (recorded (tg_key g) data = [])) as [|Hr]; [done|].
    pose proof (cf_durations _ _ _ Hc _ _ _ (recorded_known g Hg Hr)) as Hd. rewrite Ed in Hd.
    by destruct (recorded _ _). }
  rewrite <- Ed. destruct (values_data_spec (co_durations c) (co_errors c) (co_orgs c))
    as (vs & -> & Hids & Hvs); [apply Hc| |].
  { intros id Hid. destruct (cf_ids _ _ _ Hc id Hid) as (k & org & Hk & Hr). exists org. by apply (cf_orgs _ _ _ Hc k). }
  assert (forall g, g ∈ gr_rows t -> summarizes (merge_values now vs g) (history_of g)
    /\ (recorded (tg_key g) data <> [] <-> tg_id g ∈ map v_group vs)) as Hrow.
  { intros g Hg. apply (merge_values_spec (co_errors c) (co_orgs c) (co_durations c)); [|done..]. by destruct Hc. }
  simpl. set (t1 := {| gr_next := gr_next t; gr_rows := map (merge_values now vs) (gr_rows t) |}).
  assert (forallb (fun g => forallb int4 (tg_histogram g)) (gr_rows t1) = true) as Hint.
  { apply forallb_forall. intros g Hg%list_elem_of_In. apply list_elem_of_fmap in Hg as (g0 & -> & Hg0).
    apply (histogram_bounded _ _ (sum_histogram _ _ (proj1 (Hrow g0 Hg0)))). specialize (Hroom (tg_key g0)).
    unfold len in *. by rewrite length_map. }
  simpl in Hint. rewrite Hint. cbn [res_bind].
  assert (groups_ok org_of t1) as Hok1 by (apply groups_ok_map; [apply merge_values_identity|done]).
  destruct (percentile_updates_spec (filter (fun g => tg_id g ∈ map v_group vs /\ tg_org g ∈ map v_org vs) (gr_rows t1)))
    as (ps & Eps & Hps1 & Hps2).
  { intros g [[Hid _] (g0 & -> & Hg0)%list_elem_of_fmap]%list_elem_of_filter.
    rewrite (proj1 (merge_values_identity now vs g0)) in Hid. destruct (Hrow g0 Hg0) as [Hs Hr].
    destruct (summarized_percentiles _ _ Hs (history_nonempty g0 (proj2 Hr Hid))) as (a & b & ? & ? & _).
    exists a, b. split; assumption. }
  simpl in Eps. rewrite Eps. simpl. eexists. split; [done|].
  split; [by apply (groups_ok_map org_of t1), Hok1; apply set_percentiles_identity|]. split.
  - simpl. rewrite !map_map. apply map_ext. intros g.
    destruct (set_percentiles_identity ps (merge_values now vs g)) as (_ & _ & ->). apply merge_values_identity.
  - simpl. apply Forall_forall. intros g (g1 & -> & Hg1)%list_elem_of_fmap. pose proof Hg1 as Hg1'.
    apply list_elem_of_fmap in Hg1 as (g0 & -> & Hg0). destruct (Hrow g0 Hg0) as [Hs Hr].
    destruct (merge_values_identity now vs g0) as (Ei & Eo & Ek).
    apply (set_percentiles_final (gr_rows t1)); [apply Hok1|done| | |].
    + intros p Hp. destruct (Hps1 p Hp) as (g' & [_ Hg']%list_elem_of_filter & Hx). by exists g'.
    + rewrite Ek. intros Hne. apply Hps2, list_elem_of_filter. split; [|done]. rewrite Ei, Eo.
      split; [by apply Hr|]. apply (merged_org c); [done..|by apply Hr].
    + by rewrite (history_of_identity g0) by done.
Qed.
End stats.

(** ** Spans and hourly statistics of a batch *)

Lemma slice_to_subset {A} n (l : list A) x : 0 <= n -> x ∈ slice_to n l -> x ∈ l.
Proof.
  intros Hn. unfold slice_to. destruct (Z.ltb_spec n 0); [lia|]. intros Hx.
  rewrite <- (take_drop (Z.to_nat n) l). apply elem_of_app. by left.
Qed.

Lemma event_data_key e :
  ed_event (event_data e) = e /\ (ed_key (event_data e)).1.1.1 = x_project_id e.
Proof. unfold event_data. by destruct (trace_of (x_contexts e)). Qed.

(** The name of a transaction is cut, its operation and method are not. *)
Definition short_key (k : group_key) : Prop := len k.1.2 <= 255 /\ len k.2 <= 255.

Lemma event_data_fits e : short_key (ed_key (event_data e)) -> fits (ed_key (event_data e)).
Proof.
  unfold event_data, short_key, fits. destruct (trace_of (x_contexts e)) as [op st]. simpl. intros [Ho Hm]. split_and!.
  - intros H0%slice_to_subset; [|done]. by apply (clean_string_clean (x_transaction e)).
  - by apply length_slice_to.
  - apply clean_string_clean.
  - done.
  - apply clean_string_clean.
  - done.
Qed.

Lemma store_spans_ok rows t :
  Forall (fun r => 0 ∉ sr_span_id r /\ len (sr_span_id r) <= 32) rows -> store_spans rows t = Ok (t ++ rows).
Proof.
  intros Hall. revert t. induction Hall as [|r rows [H0 Hl] _ IH]; intros t; simpl; [by rewrite app_nil_r|].
  rewrite store_varchar_fits by done. simpl. rewrite IH. by rewrite <- app_assoc.
Qed.

(** The spans of an event that are kept. *)
Definition kept_spans (e : TxnEvent) : list Span :=
  if collect_spans then slice_to MAX_SPANS_PER_TRANSACTION (default [] (x_spans e)) else [].

(** The staging rows of the spans, numbered from [n]. *)
Fixpoint number_spans (n : nat) (l : list (EventData * Span)) : list SpanRow :=
  match l with
  | [] => []
  | (x, sp) :: rest => span_row (uuids n) x sp :: number_spans (S n) rest
  end.

Lemma add_spans_numbered x spans rows :
  add_spans x rows spans = rows ++ number_spans (length rows) (map (fun sp => (x, sp)) spans).
Proof.
  unfold add_spans. revert rows. induction spans as [|sp spans IH]; intros rows; simpl; [by rewrite app_nil_r|].
  rewrite IH, length_app, Nat.add_1_r, <- app_assoc. done.
Qed.

Lemma number_spans_app n l1 l2 :
  number_spans n (l1 ++ l2) = number_spans n l1 ++ number_spans (n + length l1) l2.
Proof.
  revert n. induction l1 as [|[x sp] l1 IH]; intros n; simpl; [by rewrite Nat.add_0_r|].
  by rewrite IH, Nat.add_succ_r.
Qed.

Lemma length_number_spans n l : length (number_spans n l) = length l.
Proof. revert n. induction l as [|[x sp] l IH]; intros n; simpl; [done|]. by rewrite IH. Qed.

Definition batch_spans (data : list EventData) : list (EventData * Span) :=
  concat (map (fun x => map (fun sp => (x, sp)) (kept_spans (ed_event x))) data).

Definition hourly_items (data : list EventData) : list ((Z * Z) * Z) :=
  map (fun x => ((hour_of (x_received (ed_event x)), x_project_id (ed_event x)), x_organization_id (ed_event x))) data.

(** Every known transaction adds its spans and its hourly item. *)
Lemma collect_events_rest existing data :
  (forall x, x ∈ data -> is_Some (aget (ed_key x) existing)) ->
  co_spans (collect_events existing data) = number_spans 0 (batch_spans data)
  /\ co_stats (collect_events existing data) = collect (hourly_items data).
Proof.
  unfold collect_events, collect, batch_spans, hourly_items.
  induction data as [|x data IH] using rev_ind; intros Hk; [done|]. destruct IH as [IHs IHt].
  { intros y Hy. apply Hk, elem_of_app. by left. }
  destruct (Hk x ltac:(apply elem_of_app; right; left)) as [[id org] E].
  rewrite !foldl_app, !map_app, !foldl_app, concat_app. cbn [foldl]. set (c := foldl (collect_event existing) _ data) in *.
  unfold collect_event. rewrite E. cbn [co_spans co_stats map concat foldl]. rewrite <- IHt, app_nil_r. split; [|done].
  rewrite number_spans_app, <- IHs. set (before := concat (map _ data)) in *. unfold kept_spans at 1.
  destruct collect_spans; [|simpl; by rewrite app_nil_r]. by rewrite add_spans_numbered, IHs, length_number_spans.
Qed.

Lemma number_spans_elem n l r :
  r ∈ number_spans n l -> exists m x sp, (x, sp) ∈ l /\ r = span_row (uuids m) x sp.
Proof.
  revert n. induction l as [|[x sp] l IH]; intros n; simpl; [by intros ?%elem_of_nil|].
  intros [->|Hr]%elem_of_cons; [exists n, x, sp; split; [left|done]|].
  destruct (IH _ Hr) as (m & y & sp' & ? & ->). exists m, y, sp'. split; [by right|done].
Qed.

Lemma batch_spans_elem data x sp : (x, sp) ∈ batch_spans data -> x ∈ data /\ sp ∈ kept_spans (ed_event x).
Proof.
  unfold batch_spans. rewrite list_elem_of_In. intros (l & Hl & Hin)%in_concat. apply in_map_iff in Hl as (y & <- & Hy).
  apply in_map_iff in Hin as (sp' & [= -> ->] & Hsp).
  split; by apply list_elem_of_In.
Qed.

(** ** Properties *)

(** What the database and the batch satisfy: groups have the organization of their
    project, the replica shows groups of the primary, operations and methods fit their
    columns and span ids hold no NUL. *)
Record batch_ok (org_of : Z -> Z) (es : list TxnEvent) (replica : Groups) (s : TxnStore) : Prop := {
  ok_groups : groups_ok org_of (ts_groups s);
  ok_replica : replica_ok replica (ts_groups s);
  ok_orgs : Forall (fun e => x_organization_id e = org_of (x_project_id e)) es;
  ok_short : Forall (fun e => short_key (ed_key (event_data e))) es;
  ok_span_ids : Forall (fun e => Forall (fun sp => 0 ∉ sp_id sp) (default [] (x_spans e))) es;
}.

Lemma batch_spans_storable es :
  Forall (fun e => Forall (fun sp => 0 ∉ sp_id sp) (default [] (x_spans e))) es ->
  Forall (fun r => 0 ∉ sr_span_id r /\ len (sr_span_id r) <= 32) (number_spans 0 (batch_spans (map event_data es))).
Proof.
  intros Hall. apply Forall_forall. intros r (m & x & sp & Hin & ->)%number_spans_elem. simpl.
  apply batch_spans_elem in Hin as [(e & -> & He)%list_elem_of_fmap Hsp].
  rewrite (proj1 (event_data_key e)) in Hsp. split; [|by apply length_slice_to].
  intros H0%slice_to_subset; [|done]. rewrite Forall_forall in Hall. specialize (Hall e He).
  rewrite Forall_forall in Hall. apply (Hall sp); [|done]. unfold kept_spans in Hsp.
  destruct collect_spans; [|by apply elem_of_nil in Hsp]. by apply slice_to_subset in Hsp.
Qed.

Lemma hourly_items_orgs org_of es :
  Forall (fun e => x_organization_id e = org_of (x_project_id e)) es ->
  one_org_per_key (hourly_items (map event_data es)).
Proof.
  intros Hall. unfold hourly_items. rewrite map_map.
  assert (Forall (fun y : (Z * Z) * Z => y.2 = org_of y.1.2) (map (fun e => ((hour_of (x_received e), x_project_id e), x_organization_id e)) es)) as H
    by (by apply Forall_map).
  erewrite map_ext; [|intros e; by rewrite (proj1 (event_data_key e))]. rewrite Forall_forall in H.
  intros k o1 o2 H1 H2. pose proof (H _ H1) as E1. pose proof (H _ H2) as E2. simpl in E1, E2. by rewrite E1, E2.
Qed.

(** A column of the staged rows, event by event. *)
Lemma batch_column {A} (f : SpanRow -> A) (f' : TxnEvent -> Span -> A) es :
  (forall n e sp, f (span_row n (event_data e) sp) = f' e sp) ->
  map f (number_spans 0 (batch_spans (map event_data es)))
  = concat (map (fun e => map (f' e) (kept_spans e)) es).
Proof.
  intros Hf. generalize 0%nat. unfold batch_spans. rewrite map_map. induction es as [|e es IH]; intros n; [done|]. cbn [map concat].
  rewrite number_spans_app, map_app, IH. f_equal. rewrite (proj1 (event_data_key e)).
  generalize (kept_spans e). intros l. revert n. induction l as [|sp l IHl]; intros n; simpl; [done|].
  by rewrite Hf, IHl.
Qed.

(** The batch as a whole. *)
Lemma process_ok org_of now rg rr re has_difs es s past :
  batch_ok org_of es rg s -> (forall g, g ∈ gr_rows (ts_groups s) -> summarizes g (past (tg_key g))) ->
  (forall k, k ∉ map tg_key (gr_rows (ts_groups s)) -> past k = []) ->
  (forall k, len (past k ++ recorded k (map event_data es)) < 2 ^ 31) ->
  exists s', process_transaction_events now rg rr re has_difs es s = Ok s'
    /\ groups_ok org_of (ts_groups s')
    /\ (forall e, e ∈ es -> ed_key (event_data e) ∈ map tg_key (gr_rows (ts_groups s')))
    /\ Forall (final_row (map event_data es) past) (gr_rows (ts_groups s'))
    /\ ts_staging s' = ts_staging s ++ number_spans 0 (batch_spans (map event_data es))
    /\ ts_hourly s' = upsert_rows (ts_hourly s) (stat_rows (collect (hourly_items (map event_data es)))).
Proof.
  intros [Hok Hrep Horg Hshort Hids] Hpast Hnone Hroom. unfold process_transaction_events.
  destruct (get_or_create_related_models _ _ _ _ _ _ _ _) as [[[rs pd] rel] env]. set (data := map event_data es).
  destruct (ensure_groups_spec now org_of data rg (ts_groups s) Hok Hrep) as (ex & t & E & Hokt & Hx & Hk).
  { apply Forall_map. eapply Forall_impl; [exact Horg|]. intros e He. simpl. unfold event_org_ok.
    by destruct (event_data_key e) as [-> ->]. }
  { apply Forall_map. eapply Forall_impl; [exact Hshort|]. apply event_data_fits. }
  rewrite E. cbn [res_bind].
  assert (forall g, g ∈ gr_rows t -> summarizes g (past (tg_key g))) as Hpastt.
  { intros g Hg. destruct Hx as (new & Erows & Hnew & _). pose proof (gr_keys _ _ Hokt) as Hnd.
    rewrite Erows in Hg, Hnd. apply elem_of_app in Hg as [Hg|Hg]; [by apply Hpast|].
    rewrite Hnone; [rewrite Forall_forall in Hnew; by apply new_group_summarizes, Hnew|].
    rewrite map_app in Hnd. apply NoDup_app in Hnd as (_ & Hdis & _). intros Hin. apply (Hdis _ Hin).
    apply list_elem_of_fmap. by exists g. }
  pose proof (collect_events_spec ex data (knows_distinct org_of _ _ _ Hokt Hk)) as Hc.
  destruct (collect_events_rest ex data (proj2 Hk)) as [Hs Hh].
  destruct (group_stats_spec now org_of data ex t past Hokt Hk Hpastt Hroom _ Hc) as (t' & -> & Hokt' & Hkeys & Hfin).
  cbn [res_bind]. rewrite Hs, store_spans_ok by (by apply batch_spans_storable). cbn [res_bind]. rewrite Hh.
  eexists. split; [reflexivity|]. simpl. split_and!; [done| |done..].
  intros e He. rewrite Hkeys. destruct (proj2 Hk (event_data e)) as [[id org] Hid]; [by apply list_elem_of_fmap; exists e|].
  destruct (proj1 Hk _ _ _ Hid) as (g & Hg & <- & _). apply list_elem_of_fmap. by exists g.
Qed.


(** A batch appends to the staging table the first thousand spans of every
    transaction, in order and each with an id of its own, and adds to every hour and
    project the number of transactions it received. *)
Theorem transactions_staged_and_counted org_of now rg rr re has_difs es s past :
  batch_ok org_of es rg s -> (forall g, g ∈ gr_rows (ts_groups s) -> summarizes g (past (tg_key g))) ->
  (forall k, k ∉ map tg_key (gr_rows (ts_groups s)) -> past k = []) ->
  (forall k, len (past k ++ recorded k (map event_data es)) < 2 ^ 31) ->
  exists s', process_transaction_events now rg rr re has_difs es s = Ok s'
    /\ (exists rows, ts_staging s' = ts_staging s ++ rows
          /\ map sr_id rows = map uuids (seq 0 (length rows))
          /\ map sr_project_id rows = concat (map (fun e => map (fun _ => x_project_id e) (kept_spans e)) es)
          /\ map sr_span_id rows = concat (map (fun e => map (fun sp => slice_to 32 (sp_id sp)) (kept_spans e)) es))
    /\ forall h p o, count_in (ts_hourly s') ((h, p), o) = count_in (ts_hourly s) ((h, p), o)
         + len (filter (fun e => hour_of (x_received e) = h /\ x_project_id e = p /\ x_organization_id e = o) es).
Proof.
  intros Hok Hpast Hnone Hroom.
  destruct (process_ok org_of now rg rr re has_difs es s past Hok Hpast Hnone Hroom) as (s' & E & _ & _ & _ & Hs & Hh).
  exists s'. split; [done|]. split.
  - exists (number_spans 0 (batch_spans (map event_data es))). split; [done|]. split_and!.
    + rewrite length_number_spans. generalize 0%nat, (batch_spans (map event_data es)). intros n l. revert n.
      induction l as [|[x sp] l IH]; intros n; simpl; [done|]. by rewrite IH.
    + apply batch_column. intros n e sp. simpl. by rewrite (proj1 (event_data_key e)).
    + apply batch_column. by intros n e sp.
  - intros h p o. rewrite Hh, collect_upsert by (by apply (hourly_items_orgs org_of), Hok). f_equal. clear.
    unfold tally, hourly_items, len. induction es as [|e es IH]; [done|]. rewrite filter_cons. cbn [map].
    rewrite zsum_cons, IH. rewrite (proj1 (event_data_key e)). repeat case_decide; simpl; try lia; exfalso; naive_solver.
Qed.

(** A key one of whose columns cannot be stored. *)
Definition unstorable (k : group_key) : Prop :=
  let '(_, transaction, op, method) := k in
  store_varchar 1024 transaction = Raise DataError \/ store_varchar 255 op = Raise DataError
  \/ store_varchar 255 method = Raise DataError.

Lemma store_varchar_or n s : (exists s', store_varchar n s = Ok s') \/ store_varchar n s = Raise DataError.
Proof. unfold store_varchar. repeat case_match; eauto. Qed.

Lemma insert_group_unstorable now t k org :
  (unstorable k -> insert_group now t (k, org) = Raise DataError)
  /\ ((exists t', insert_group now t (k, org) = Ok t') \/ insert_group now t (k, org) = Raise DataError).
Proof.
  destruct k as [[[p tr] op] m]. unfold unstorable, insert_group. cbn [fst snd].
  destruct (store_varchar_or 1024 tr) as [[tr' ->]| ->]; [|by split; [|right]].
  destruct (store_varchar_or 255 op) as [[op' ->]| ->]; [|by split; [|right]].
  destruct (store_varchar_or 255 m) as [[m' ->]| ->]; [|by split; [|right]]. cbn [res_bind]. split.
  - by intros [?|[?|?]].
  - left. destruct (existsb _ _); eauto.
Qed.

Lemma insert_groups_unstorable now t rows r :
  r ∈ rows -> unstorable r.1 -> insert_groups now t rows = Raise DataError.
Proof.
  intros Hin Hun. revert t. induction rows as [|[k o] rows IH]; intros t; [by apply elem_of_nil in Hin|]. simpl.
  destruct (insert_group_unstorable now t k o) as [H1 [[t' E]|E]].
  - rewrite E. simpl. apply elem_of_cons in Hin as [->|Hin]; [by rewrite H1 in E|by apply IH].
  - by rewrite E.
Qed.

(** One transaction of a new group whose operation or method does not fit its
    255-character column makes the whole batch fail, whatever else it holds: the code
    cuts the transaction name, but neither operation nor method. *)
Theorem unstorable_key_fails_batch now rg rr re has_difs es s e :
  e ∈ es -> unstorable (ed_key (event_data e)) ->
  ed_key (event_data e) ∉ map tg_key (gr_rows rg) ->
  process_transaction_events now rg rr re has_difs es s = Raise DataError.
Proof.
  intros He Hun Hnew. unfold process_transaction_events.
  destruct (get_or_create_related_models _ _ _ _ _ _ _ _) as [[[rs pd] rel] env]. set (data := map event_data es).
  pose proof (unique_keys_has data) as Hin.
  assert (ensure_groups now (unique_keys data) rg (ts_groups s) = Raise DataError) as ->; [|done].
  specialize (Hin (event_data e) ltac:(apply list_elem_of_fmap; by exists e)).
  apply list_elem_of_fmap in Hin as (kv & Hk & Hkv). unfold ensure_groups.
  set (ex := match unique_keys data with [] => [] | _ => _ end).
  assert (aget (ed_key (event_data e)) ex = None) as Hnone.
  { destruct (aget (ed_key (event_data e)) ex) as [[id org]|] eqn:E; [|done]. exfalso. apply Hnew. subst ex.
    destruct (unique_keys data); [done|]. apply (proj1 (fetch_spec _ rg _)) in E as (g & Hg & <- & _).
    apply list_elem_of_fmap. by exists g. }
  assert (kv ∈ filter (fun kv => aget kv.1 ex = None) (unique_keys data)) as Hm.
  { apply list_elem_of_filter. split; [by rewrite <- Hk|done]. }
  destruct (filter _ (unique_keys data)) as [|m ms] eqn:Em; [by apply elem_of_nil in Hm|].
  rewrite (insert_groups_unstorable now _ _ kv Hm); [done|by rewrite <- Hk].
Qed.
End transactions.

(** ** A batch: two requests of one group, one of them failed *)
Definition sample_span (name : string) : Span :=
  {| sp_id := u name; sp_op := u "db"; sp_description := Some (u "SELECT 1"); sp_start_timestamp := Some 0;
     sp_timestamp := Some 2000 |}.

Definition sample_txn (op status : string) (duration_us : Z) (spans : list Span) : TxnEvent :=
  {| x_project_id := 1; x_organization_id := 10; x_received := 5; x_update_first_event := false;
     x_contexts := VDict [(KStr (u "trace"), VDict [(KStr (u "op"), VStr (u op)); (KStr (u "status"), VStr (u status))])];
     x_method := Some (u "GET"); x_transaction := u "/users"; x_start_timestamp := 100;
     x_timestamp := 100 + duration_us; x_event_id_hex := u "ab"; x_spans := Some spans;
     x_release := None; x_environment := None |}.
Arguments sample_txn (_ _)%_string _ _.

Definition sample_txns : list TxnEvent :=
  [sample_txn "http" "ok" 10000 [sample_span "s1"; sample_span "s2"]; sample_txn "http" "aborted" 30000 []].

Definition no_named : Named := {| n_next := 1; n_rows := []; n_links := [] |}.
Definition empty_store : TxnStore :=
  {| ts_groups := {| gr_next := 1; gr_rows := [] |}; ts_staging := []; ts_hourly := ∅; ts_releases := no_named;
     ts_environments := no_named; ts_first_event := ∅ |}.

Definition run_txns (es : list TxnEvent) : res TxnStore :=
  process_transaction_events (fun _ => []) Z.of_nat true 7 (ts_groups empty_store) no_named no_named
    (fun _ => false) es empty_store.

Lemma sample_txns_ok : batch_ok (fun _ => []) (fun _ => 10) sample_txns (ts_groups empty_store) empty_store.
Proof.
  split.
  - split; simpl; try apply NoDup_nil_2; by intros g ?%elem_of_nil.
  - by intros g ?%elem_of_nil.
  - by_decide.
  - unfold short_key. by_decide.
  - by_decide.
Qed.

Lemma sample_txns_room k :
  len ([] ++ recorded k (map (event_data (fun _ => [])) sample_txns)) < 2 ^ 31.
Proof. eapply Z.le_lt_trans; [apply recorded_len|]. by_compute. Qed.

(** The average of 0.1, 0.2 and 0.3 ms, recorded in two batches, is not exact. *)
Example average_rounds :
  let avg1 := fl (fl (fl (0 * inject_Z 0) + inject_Z (py_sum [duration_ms 100; duration_ms 200])) / inject_Z 2) in
  let avg2 := fl (fl (fl (avg1 * inject_Z 2) + inject_Z (py_sum [duration_ms 300])) / inject_Z 3) in
  (avg2 * inject_Z 3 ?= inject_Z (duration_ms 100 + duration_ms 200 + duration_ms 300))%Q = Gt.
Proof. by_compute. Qed.


Lemma transactions_staged_and_counted_witness :
  exists s', run_txns sample_txns = Ok s' /\ map sr_id (ts_staging s') = [0; 1]
    /\ count_in (ts_hourly s') ((0, 1), 10) = 2.
Proof.
  destruct (transactions_staged_and_counted (fun _ => []) Z.of_nat true (fun _ => 10) 7 (ts_groups empty_store)
    no_named no_named (fun _ => false) sample_txns empty_store (fun _ => []) sample_txns_ok)
    as (s' & E & (rows & Hr & Hi & Hp & _) & Hh).
  - by intros g ?%elem_of_nil.
  - done.
  - exact sample_txns_room.
  - exists s'. split; [exact E|]. split.
    + rewrite Hr. assert (length rows = 2%nat) as Hl.
      { rewrite <- (length_map sr_project_id rows), Hp. by_compute. }
      simpl. rewrite Hi, Hl. by_compute.
    + rewrite Hh. by_compute.
Defined.

Definition long_op : string := String.concat "" (repeat "aaaaaaaaaa"%string 30).

Lemma unstorable_key_fails_batch_witness :
  run_txns (sample_txn long_op "ok" 5 [] :: sample_txns) = Raise DataError.
Proof.
  apply (unstorable_key_fails_batch (fun _ => []) Z.of_nat true 7 (ts_groups empty_store) no_named no_named
    (fun _ => false) _ empty_store (sample_txn long_op "ok" 5 [])); [left|right; left; by_compute|].
  by intros ?%elem_of_nil.
Defined.

(** A NUL in the id of one span fails the batch as well: the name, operation and
    description of a span are cleaned, its id is not. *)
Example nul_span_id_fails_batch :
  run_txns (sample_txn "http" "ok" 5 [{| sp_id := [0]; sp_op := []; sp_description := None;
              sp_start_timestamp := None; sp_timestamp := None |}] :: sample_txns) = Raise DataError.
Proof. by_compute. Qed.
