(* ===== verification/Compaction.v ===== *)
(** * Compaction of span files

    [compact_span_chunks] of [apps/performance/promotion.py] with its helpers, and
    [enumerate_hour_tiered_files] of [glitchtip/cold_storage.py], which says which files
    of an organization's tree a query reads.

    A tree holds [{date}.parquet], [{date}/{HH}.parquet] and [{date}/{HH}/chunk_*.parquet];
    directories and files are named maps, a file's content is its list of rows.  Every
    call that can fail asks [fate] for its outcome, in order: it works, DuckDB has no free
    slot, or it raises.  [listdir] and [exists] do not fail on what exists. *)
From S2P Require Import Prelude PyStr PyValue PyDate IngestEvent.

Inductive Outcome := Works | Refuses | Fails.

(** ** Trees *)

Abbreviation files X := (gmap ustr (list X)).

Record DateDir X := { hour_files : files X; hour_dirs : gmap ustr (files X) }.
Arguments hour_files {X} _.
Arguments hour_dirs {X} _.

Record OrgDir X := { day_files : files X; date_dirs : gmap ustr (DateDir X) }.
Arguments day_files {X} _.
Arguments date_dirs {X} _.

Definition empty_org {X} : OrgDir X := {| day_files := ∅; date_dirs := ∅ |}.
Definition empty_date {X} : DateDir X := {| hour_files := ∅; hour_dirs := ∅ |}.

(** The names [listdir] gives. *)
Definition names {X} (m : gmap ustr X) : list ustr := map fst (map_to_list m).
(** [sorted(...)] of them. *)
Definition sorted_names {X} (m : gmap ustr X) : list ustr := merge_sort ustr_le (names m).

Definition parquet : ustr := u ".parquet".
Definition is_parquet (f : ustr) : bool := endswith parquet f.
(** [f.removesuffix(".parquet")] *)
Definition stem (f : ustr) : ustr := if is_parquet f then slice_to (len f - len parquet) f else f.

Definition content {X} (m : files X) (f : ustr) : list X := default [] (m !! f).
(** The rows of the named files. *)
Definition read_all {X} (m : files X) (fs : list ustr) : list X := concat (map (content m) fs).

(** ** What queries read *)

Inductive Path := DayPath (f : ustr) | HourPath (date f : ustr) | ChunkPath (date hour f : ustr).

(** [in_range] is the test on the date string. *)
Definition enumerate_hour_tiered_files {X} (in_range : ustr -> bool) (o : OrgDir X) : list Path :=
  let days := filter (fun f => is_parquet f && in_range (stem f) = true) (sorted_names (day_files o)) in
  let rolled := map stem days in
  map DayPath days ++
  concat (map (fun d =>
    match date_dirs o !! d with
    | None => []
    | Some dd =>
        let hours := filter (fun f => is_parquet f = true) (sorted_names (hour_files dd)) in
        let sealed_hours := map stem hours in
        map (HourPath d) hours ++
        concat (map (fun hd =>
          map (ChunkPath d hd) (filter (fun f => is_parquet f = true) (sorted_names (default ∅ (hour_dirs dd !! hd)))))
          (filter (fun hd => hd ∉ sealed_hours) (sorted_names (hour_dirs dd))))
    end)
    (filter (fun d => d ∉ rolled /\ in_range d = true) (sorted_names (date_dirs o)))).

Definition read_path {X} (o : OrgDir X) (p : Path) : list X :=
  match p with
  | DayPath f => content (day_files o) f
  | HourPath d f => match date_dirs o !! d with Some dd => content (hour_files dd) f | None => [] end
  | ChunkPath d h f =>
      match date_dirs o !! d with
      | Some dd => match hour_dirs dd !! h with Some m => content m f | None => [] end
      | None => []
      end
  end.

(** The rows a query over one date reads. *)
Definition visible {X} (d : ustr) (o : OrgDir X) : list X :=
  concat (map (read_path o) (enumerate_hour_tiered_files (ustr_eqb d) o)).

(** ** Deleting a subtree *)

Section deletion.
Context (fate : nat -> Outcome).

Fixpoint delete_files {X} (fs : list ustr) (m : files X) (n : nat) : files X * nat :=
  match fs with
  | [] => (m, n)
  | f :: rest => delete_files rest (match fate n with Works => delete f m | _ => m end) (S n)
  end.

(** [_delete_subtree] of an hour directory; it is removed when it is empty. *)
Definition delete_hour_dir {X} (h : ustr) (dd : DateDir X) (n : nat) : DateDir X * nat :=
  match hour_dirs dd !! h with
  | None => (dd, n)
  | Some m =>
      let '(m, n) := delete_files (names m) m n in
      ({| hour_files := hour_files dd;
          hour_dirs := match names m with [] => delete h (hour_dirs dd) | _ => <[h := m]> (hour_dirs dd) end |}, n)
  end.

Definition delete_hour_dirs {X} (hs : list ustr) (dd : DateDir X) (n : nat) : DateDir X * nat :=
  foldl (fun s h => delete_hour_dir h s.1 s.2) (dd, n) hs.

(** [_delete_subtree] of a date directory: its files, its directories, itself. *)
Definition delete_date_dir {X} (d : ustr) (o : OrgDir X) (n : nat) : OrgDir X * nat :=
  match date_dirs o !! d with
  | None => (o, n)
  | Some dd =>
      let '(hf, n) := delete_files (names (hour_files dd)) (hour_files dd) n in
      let '(dd, n) := delete_hour_dirs (names (hour_dirs dd)) {| hour_files := hf; hour_dirs := hour_dirs dd |} n in
      ({| day_files := day_files o;
          date_dirs := match names (hour_files dd), names (hour_dirs dd) with
                       | [], [] => delete d (date_dirs o)
                       | _, _ => <[d := dd]> (date_dirs o)
                       end |}, n)
  end.

(** [_roll_sealed_day] *)
Definition roll_sealed_day {X} (d : ustr) (o : OrgDir X) (n : nat) : res unit * OrgDir X * nat :=
  let day_file := d ++ parquet in
  match day_files o !! day_file with
  | Some _ => let '(o, n) := delete_date_dir d o n in (Ok tt, o, n)
  | None =>
      match date_dirs o !! d with
      | None => (Ok tt, o, n)
      | Some dd =>
          match merge_sort ustr_le (filter (fun f => is_parquet f = true) (names (hour_files dd))) with
          | [] => let '(o, n) := delete_date_dir d o n in (Ok tt, o, n)
          | hours =>
              match fate n with
              | Fails => (Raise OSError, o, S n)
              | Refuses => (Ok tt, o, S n)
              | Works =>
                  let o := {| day_files := <[day_file := read_all (hour_files dd) hours]> (day_files o);
                              date_dirs := date_dirs o |} in
                  let '(o, n) := delete_date_dir d o (S n) in (Ok tt, o, n)
              end
          end
      end
  end.

(** ** Compacting a date *)

Context {Row Rollup : Type}.
(** The SELECT of [_write_hour_rollup], for the hour that starts at the given time. *)
Context (aggregate : list Row -> Z -> list Rollup).

Definition SEAL_GRACE : Z := 20 * MINUTE.

(** The trees of an organization and the number of calls made. *)
Record World := { raw : OrgDir Row; rollup : OrgDir Rollup; calls : nat }.

Definition set_raw (o : OrgDir Row) (n : nat) (w : World) : World :=
  {| raw := o; rollup := rollup w; calls := n |}.
Definition set_rollup (o : OrgDir Rollup) (n : nat) (w : World) : World :=
  {| raw := raw w; rollup := o; calls := n |}.

Definition get_date {X} (d : ustr) (o : OrgDir X) : DateDir X := default empty_date (date_dirs o !! d).
Definition set_date {X} (d : ustr) (dd : DateDir X) (o : OrgDir X) : OrgDir X :=
  {| day_files := day_files o; date_dirs := <[d := dd]> (date_dirs o) |}.
Definition put_hour_file {X} (f : ustr) (rows : list X) (dd : DateDir X) : DateDir X :=
  {| hour_files := <[f := rows]> (hour_files dd); hour_dirs := hour_dirs dd |}.

(** [len(hh) == 2 and hh.isdigit()] *)
Definition is_hour (hh : ustr) : bool := (len hh =? 2) && forallb is_digit hh.
Definition hour_start (day_start : Z) (hh : ustr) : Z := day_start + int_of_digits hh * ONE_HOUR.

(** [_write_hour_rollup]: nothing is written without a slot or without rows. *)
Definition write_hour_rollup (d hh : ustr) (rows : list Row) (start : Z) (w : World) : res unit * World :=
  match fate (calls w) with
  | Fails => (Raise OSError, set_rollup (rollup w) (S (calls w)) w)
  | Refuses => (Ok tt, set_rollup (rollup w) (S (calls w)) w)
  | Works =>
      match aggregate rows start with
      | [] => (Ok tt, set_rollup (rollup w) (S (calls w)) w)
      | rs => (Ok tt, set_rollup (set_date d (put_hour_file (hh ++ parquet) rs (get_date d (rollup w))) (rollup w))
                        (S (calls w)) w)
      end
  end.

Definition has_rollup (d hh : ustr) (w : World) : bool :=
  match hour_files (get_date d (rollup w)) !! (hh ++ parquet) with Some _ => true | None => false end.

(** The recovery loop over the sealed hours listed at the start; errors are logged. *)
Definition recover_rollup (d : ustr) (day_start : Z) (w : World) (hf : ustr) : World :=
  let hh := stem hf in
  if negb (is_parquet hf) || negb (is_hour hh) || has_rollup d hh w then w
  else (write_hour_rollup d hh (content (hour_files (get_date d (raw w))) hf) (hour_start day_start hh) w).2.

(** One hour directory; the first component is the number of chunks compacted. *)
Definition compact_hour (d : ustr) (day_start now : Z) (hh : ustr) (w : World) : res Z * World :=
  let start := hour_start day_start hh in
  let dd := get_date d (raw w) in
  let drop w := let '(dd, n) := delete_hour_dir hh (get_date d (raw w)) (calls w) in set_raw (set_date d dd (raw w)) n w in
  if negb (is_hour hh) then (Ok 0, w)
  else if now <=? start + ONE_HOUR + SEAL_GRACE then (Ok 0, w)
  else
    match hour_files dd !! (hh ++ parquet) with
    | Some _ => (Ok 0, drop w)
    | None =>
        match hour_dirs dd !! hh with
        | None => (Ok 0, w)
        | Some m =>
            match merge_sort ustr_le (filter (fun f => is_parquet f = true) (names m)) with
            | [] => (Ok 0, drop w)
            | chunks =>
                match fate (calls w) with
                | Fails => (Raise OSError, set_raw (raw w) (S (calls w)) w)
                | Refuses => (Ok 0, set_raw (raw w) (S (calls w)) w)
                | Works =>
                    let rows := read_all m chunks in
                    let w := set_raw (set_date d (put_hour_file (hh ++ parquet) rows dd) (raw w)) (S (calls w)) w in
                    let w := (write_hour_rollup d hh rows start w).2 in
                    (Ok (len chunks), drop w)
                end
            end
        end
    end.

Fixpoint compact_hours (d : ustr) (day_start now : Z) (hs : list ustr) (w : World) : res Z * World :=
  match hs with
  | [] => (Ok 0, w)
  | hh :: rest =>
      match compact_hour d day_start now hh w with
      | (Raise e, w) => (Raise e, w)
      | (Ok k, w) =>
          match compact_hours d day_start now rest w with
          | (Ok k', w) => (Ok (k + k'), w)
          | r => r
          end
      end
  end.

(** [_compact_org_date] *)
Definition compact_org_date (d : ustr) (day_start now : Z) (w : World) : res Z * World :=
  let dd := get_date d (raw w) in
  let w := foldl (recover_rollup d day_start) w (names (hour_files dd)) in
  match compact_hours d day_start now (names (hour_dirs dd)) w with
  | (Raise e, w) => (Raise e, w)
  | (Ok compacted, w) =>
      if day_start + ONE_DAY + SEAL_GRACE <? now then
        let '(r, o, n) := roll_sealed_day d (raw w) (calls w) in
        let w := set_raw o n w in
        match r with
        | Raise e => (Raise e, w)
        | Ok _ =>
            let '(r, o, n) := roll_sealed_day d (rollup w) (calls w) in
            let w := set_rollup o n w in
            match r with Raise e => (Raise e, w) | Ok _ => (Ok compacted, w) end
        end
      else (Ok compacted, w)
  end.
End deletion.

(** ** The rows of a date *)

Lemma endswith_app s suf : endswith suf (s ++ suf) = true.
Proof.
  unfold endswith. rewrite rev_app_distr. generalize (rev suf). intros l.
  induction l as [|c l IH]; simpl; [done|]. by rewrite Z.eqb_refl.
Qed.

Lemma startswith_drop pre s : startswith pre s = true -> s = pre ++ drop (length pre) s.
Proof.
  revert s. induction pre as [|c pre IH]; intros [|x s]; simpl; try done.
  intros [->%Z.eqb_eq H]%andb_true_iff. f_equal. by apply IH.
Qed.

Lemma stem_parquet s : stem (s ++ parquet) = s.
Proof.
  unfold stem, is_parquet. rewrite endswith_app. unfold slice_to, len. rewrite length_app.
  destruct (Z.ltb_spec (Z.of_nat (length s + length parquet) - Z.of_nat (length parquet)) 0); [lia|].
  rewrite take_app_le by lia. apply take_ge. lia.
Qed.

Lemma parquet_stem f : is_parquet f = true -> f = stem f ++ parquet.
Proof.
  intros H. assert (f = rev (drop (length (rev parquet)) (rev f)) ++ parquet) as E.
  { unfold is_parquet, endswith in H. rewrite <- (rev_involutive f) at 1. rewrite (startswith_drop _ _ H) at 1.
    by rewrite rev_app_distr, rev_involutive. }
  rewrite E at 2. by rewrite stem_parquet.
Qed.

Lemma is_parquet_iff f d : is_parquet f = true /\ stem f = d <-> f = d ++ parquet.
Proof.
  split; [by intros [H <-]; apply parquet_stem|]. intros ->. split; [apply endswith_app|apply stem_parquet].
Qed.

Lemma parquet_inj a b : a ++ parquet = b ++ parquet -> a = b.
Proof. apply app_inv_tail. Qed.

Lemma names_elem {X} (m : gmap ustr X) f : f ∈ names m <-> is_Some (m !! f).
Proof.
  unfold names. rewrite list_elem_of_In, in_map_iff. split.
  - intros ([f' x] & <- & Hin). exists x. by apply elem_of_map_to_list, list_elem_of_In.
  - intros [x Hx]. exists (f, x). split; [done|]. by apply list_elem_of_In, elem_of_map_to_list.
Qed.

Lemma sorted_names_elem {X} (m : gmap ustr X) f : f ∈ sorted_names m <-> is_Some (m !! f).
Proof. unfold sorted_names. by rewrite merge_sort_Permutation, names_elem. Qed.

Lemma NoDup_sorted_names {X} (m : gmap ustr X) : NoDup (sorted_names m).
Proof. unfold sorted_names. rewrite merge_sort_Permutation. apply NoDup_fst_map_to_list. Qed.

Lemma filter_one {A} `{EqDecision A} (P : A -> Prop) `{!forall x, Decision (P x)} (l : list A) x :
  NoDup l -> (forall y, P y <-> y = x) -> filter P l = if decide (x ∈ l) then [x] else [].
Proof.
  intros Hnd HP. induction Hnd as [|y l Hy _ IH]; [done|]. rewrite filter_cons, IH.
  destruct (decide (P y)) as [Hp|Hp].
  - apply HP in Hp as ->. rewrite (decide_False Hy) || rewrite (decide_False (P := x ∈ l)) by done.
    by rewrite decide_True by left.
  - assert (y <> x) by (intros ->; by apply Hp, HP).
    destruct (decide (x ∈ l)); [by rewrite decide_True by (by right)|].
    rewrite decide_False; [done|]. by intros [?|?]%elem_of_cons.
Qed.

(** The rows of the Parquet files among the files of a directory. *)
Definition parquet_names {X} (m : files X) : list ustr := filter (fun f => is_parquet f = true) (sorted_names m).
Definition parquet_rows {X} (m : files X) : list X := read_all m (parquet_names m).

Definition sealed {X} (dd : DateDir X) (h : ustr) : Prop := is_Some (hour_files dd !! (h ++ parquet)).

#[export] Instance sealed_dec {X} (dd : DateDir X) h : Decision (sealed dd h).
Proof. unfold sealed. apply _. Defined.

(** The rows of hours that have no sealed file yet. *)
Definition open_rows {X} (dd : DateDir X) : list X :=
  concat (map (fun hm : ustr * files X => if decide (sealed dd hm.1) then [] else parquet_rows hm.2)
            (map_to_list (hour_dirs dd))).
Definition date_rows {X} (dd : DateDir X) : list X := parquet_rows (hour_files dd) ++ open_rows dd.

Lemma sealed_names {X} (dd : DateDir X) h : h ∈ map stem (parquet_names (hour_files dd)) <-> sealed dd h.
Proof.
  unfold sealed, parquet_names. rewrite list_elem_of_In, in_map_iff. split.
  - intros (f & <- & [Hf Hin]%list_elem_of_In%list_elem_of_filter). apply sorted_names_elem in Hin.
    by rewrite <- (parquet_stem f Hf).
  - intros Hs. exists (h ++ parquet). split; [apply stem_parquet|]. apply list_elem_of_In, list_elem_of_filter.
    split; [apply endswith_app|by apply sorted_names_elem].
Qed.

Lemma concat_map_perm {A B} (f : A -> list B) l1 l2 : l1 ≡ₚ l2 -> concat (map f l1) ≡ₚ concat (map f l2).
Proof. intros H. induction H as [| | |]; simpl; [done|by apply Permutation_app_head| |by etrans].
  rewrite !app_assoc. apply Permutation_app_tail, Permutation_app_comm. Qed.

Lemma concat_map_filter {A B} (P : A -> Prop) `{!forall x, Decision (P x)} (f : A -> list B) l :
  concat (map f (filter P l)) = concat (map (fun x => if decide (P x) then f x else []) l).
Proof. induction l as [|x l IH]; [done|]. rewrite filter_cons. cbn [map concat]. rewrite <- IH. by destruct (decide (P x)). Qed.

Lemma concat_map_concat {A B C} (g : B -> list C) (k : A -> list B) l :
  concat (map g (concat (map k l))) = concat (map (fun x => concat (map g (k x))) l).
Proof. induction l as [|x l IH]; [done|]. cbn [map concat]. by rewrite map_app, concat_app, IH. Qed.

Lemma visible_spec {X} d (o : OrgDir X) :
  visible d o ≡ₚ match day_files o !! (d ++ parquet) with
                 | Some rows => rows
                 | None => match date_dirs o !! d with Some dd => date_rows dd | None => [] end
                 end.
Proof.
  unfold visible, enumerate_hour_tiered_files.
  rewrite (filter_one _ (sorted_names (day_files o)) (d ++ parquet) (NoDup_sorted_names _)).
  2:{ intros f. rewrite andb_true_iff, ustr_eqb_eq. split; [intros [? ?]; by apply is_parquet_iff|].
      intros E. apply is_parquet_iff in E as [? ?]. done. }
  destruct (decide _) as [Hin|Hin]; rewrite sorted_names_elem in Hin.
  - destruct Hin as [rows Hr]. rewrite Hr. cbn [map]. rewrite stem_parquet.
    rewrite filter_none; [simpl; unfold content; by rewrite Hr, !app_nil_r|].
    apply Forall_forall. intros d' _ [Hne Hd%ustr_eqb_eq]. apply Hne. subst. left.
  - rewrite <- eq_None_not_Some in Hin. rewrite Hin. cbn [map app].
    rewrite (filter_one _ (sorted_names (date_dirs o)) d (NoDup_sorted_names _)).
    2:{ intros d'. rewrite ustr_eqb_eq. split; [by intros [_ ->]|]. intros ->. split; [by intros ?%elem_of_nil|done]. }
    destruct (decide _) as [Hd|Hd]; rewrite sorted_names_elem in Hd.
    2:{ rewrite <- eq_None_not_Some in Hd. by rewrite Hd. }
    destruct Hd as [dd Hdd]. rewrite Hdd. cbn [map concat]. rewrite app_nil_r, Hdd, map_app, concat_app.
    unfold date_rows. fold (parquet_names (hour_files dd)). rewrite map_map. f_equiv.
    + unfold parquet_rows, read_all. cbn [read_path]. by rewrite Hdd.
    + rewrite concat_map_concat, concat_map_filter. unfold sorted_names at 1.
      rewrite (concat_map_perm _ _ (names (hour_dirs dd))) by apply merge_sort_Permutation.
      unfold names, open_rows. rewrite map_map. erewrite map_ext_in; [reflexivity|]. intros [h m] Hin'. cbn [fst snd].
      apply list_elem_of_In, elem_of_map_to_list in Hin'. rewrite Hin'. cbn [default from_option id].
      destruct (decide (h ∉ _)) as [Hs|Hs]; rewrite sealed_names in Hs.
      * rewrite decide_False by done. rewrite map_map. unfold parquet_rows, read_all. cbn [read_path]. by rewrite Hdd, Hin'.
      * rewrite decide_True; [done|]. by apply dec_stable.
Qed.

(** ** How writing and deleting change them *)

Lemma parquet_rows_list {X} (m : files X) :
  parquet_rows m ≡ₚ concat (map (fun fx : ustr * list X => if decide (is_parquet fx.1 = true) then fx.2 else []) (map_to_list m)).
Proof.
  unfold parquet_rows, read_all, parquet_names. rewrite concat_map_filter. unfold sorted_names.
  rewrite (concat_map_perm _ _ (names m)) by apply merge_sort_Permutation. unfold names. rewrite map_map.
  erewrite map_ext_in; [reflexivity|]. intros [f x] Hin. apply list_elem_of_In, elem_of_map_to_list in Hin.
  unfold content. simpl in *. by rewrite Hin.
Qed.

Lemma parquet_rows_insert {X} (m : files X) f rows :
  m !! f = None -> is_parquet f = true -> parquet_rows (<[f := rows]> m) ≡ₚ rows ++ parquet_rows m.
Proof.
  intros Hf Hp. rewrite !parquet_rows_list. rewrite (concat_map_perm _ _ _ (map_to_list_insert m f rows Hf)).
  cbn [map concat fst snd]. by rewrite decide_True.
Qed.

Lemma parquet_rows_none {X} (m : files X) :
  (forall f, is_Some (m !! f) -> is_parquet f = false) -> parquet_rows m = [].
Proof.
  intros H. unfold parquet_rows, parquet_names. rewrite filter_none; [done|]. apply Forall_forall.
  intros f Hf%sorted_names_elem. by rewrite H.
Qed.

(** The rows of the other hours. *)
Definition without_hour {X} (h : ustr) (dd : DateDir X) : DateDir X :=
  {| hour_files := hour_files dd; hour_dirs := delete h (hour_dirs dd) |}.

Lemma open_rows_split {X} (dd : DateDir X) h :
  open_rows dd ≡ₚ match hour_dirs dd !! h with
                  | Some m => if decide (sealed dd h) then [] else parquet_rows m
                  | None => []
                  end ++ open_rows (without_hour h dd).
Proof.
  destruct (hour_dirs dd !! h) as [m|] eqn:E.
  - unfold open_rows at 1. rewrite <- (insert_delete_id _ _ _ E) at 1.
    rewrite (concat_map_perm _ _ _ (map_to_list_insert _ h m (lookup_delete_eq _ _))). done.
  - unfold open_rows, without_hour. simpl. by rewrite delete_id.
Qed.

Lemma open_rows_put {X} (dd : DateDir X) h rows :
  hour_dirs dd !! h = None -> open_rows (put_hour_file (h ++ parquet) rows dd) = open_rows dd.
Proof.
  intros Hh. unfold open_rows. f_equal. apply map_ext_in. intros [h' m] Hin. cbn [fst snd].
  apply list_elem_of_In, elem_of_map_to_list in Hin. simpl in Hin.
  assert (h' <> h) as Hne by (by intros ->; rewrite Hh in Hin).
  assert (sealed (put_hour_file (h ++ parquet) rows dd) h' <-> sealed dd h') as Hiff.
  { unfold sealed. simpl. by rewrite lookup_insert_ne by (intros ?%parquet_inj; done). }
  destruct (decide (sealed dd h')) as [Hs|Hs]; [by rewrite decide_True by (by apply Hiff)|].
  rewrite decide_False; [done|]. by intros ?%Hiff.
Qed.

(** Sealing an hour moves its rows. *)
Lemma seal_rows {X} (dd : DateDir X) h m rows :
  hour_dirs dd !! h = Some m -> hour_files dd !! (h ++ parquet) = None -> rows ≡ₚ parquet_rows m ->
  date_rows (put_hour_file (h ++ parquet) rows dd) ≡ₚ date_rows dd.
Proof.
  intros Hm Hf Hr. unfold date_rows. cbn [put_hour_file hour_files].
  rewrite (parquet_rows_insert _ _ _ Hf (endswith_app h parquet)).
  rewrite (open_rows_split dd h), Hm, decide_False by (unfold sealed; rewrite Hf; by intros [? ?]).
  rewrite (open_rows_split (put_hour_file _ _ dd) h). cbn [put_hour_file hour_dirs]. rewrite Hm.
  rewrite decide_True by (unfold sealed; simpl; rewrite lookup_insert_eq; by eexists). cbn [app].
  change (without_hour h (put_hour_file (h ++ parquet) rows dd))
    with (put_hour_file (h ++ parquet) rows (without_hour h dd)).
  rewrite open_rows_put by (simpl; apply lookup_delete_eq). rewrite Hr, !app_assoc. apply Permutation_app_tail, Permutation_app_comm.
Qed.

Section deleting.
Context (fate : nat -> Outcome).

Lemma delete_files_subseteq {X} (fs : list ustr) (m : files X) (n : nat) : (delete_files fate fs m n).1 ⊆ m.
Proof.
  revert m n. induction fs as [|f fs IH]; intros m n; simpl; [done|]. etrans; [apply IH|].
  destruct (fate n); [apply delete_subseteq|done..].
Qed.

(** What deleting an hour directory leaves. *)
Lemma delete_hour_dir_spec {X} (h : ustr) (dd : DateDir X) (n : nat) :
  let dd' := (delete_hour_dir fate h dd n).1 in
  hour_files dd' = hour_files dd /\ without_hour h dd' = without_hour h dd
  /\ forall m', hour_dirs dd' !! h = Some m' -> exists m, hour_dirs dd !! h = Some m /\ m' ⊆ m.
Proof.
  unfold delete_hour_dir. destruct (hour_dirs dd !! h) as [m|] eqn:E.
  - pose proof (delete_files_subseteq (names m) m n) as Hsub.
    destruct (delete_files fate (names m) m n) as [m' n']. simpl in *. split; [done|].
    destruct (names m'); unfold without_hour; simpl.
    + rewrite delete_delete_eq, lookup_delete_eq. done.
    + rewrite delete_insert_eq, lookup_insert_eq. split; [done|]. intros ? [= <-]. eauto.
  - simpl. split_and!; [done..|]. intros m'. by rewrite E.
Qed.

(** Deleting the directory of an hour that is sealed, or has no Parquet files, leaves
    the rows alone. *)
Lemma delete_hour_dir_rows {X} (h : ustr) (dd : DateDir X) (n : nat) :
  sealed dd h \/ (forall m f, hour_dirs dd !! h = Some m -> is_Some (m !! f) -> is_parquet f = false) ->
  date_rows (delete_hour_dir fate h dd n).1 ≡ₚ date_rows dd.
Proof.
  intros Hor. destruct (delete_hour_dir_spec h dd n) as (Hf & Hw & Hm). set (dd' := (delete_hour_dir fate h dd n).1) in *.
  assert (forall D : DateDir X, hour_files D = hour_files dd ->
    (forall m', hour_dirs D !! h = Some m' -> exists m, hour_dirs dd !! h = Some m /\ m' ⊆ m) ->
    match hour_dirs D !! h with Some m => if decide (sealed D h) then [] else parquet_rows m | None => [] end = []) as Hnil.
  { intros D HD HDm. destruct (hour_dirs D !! h) as [m'|] eqn:E; [|done].
    destruct (decide (sealed D h)) as [|Hns]; [done|]. destruct Hor as [Hs|Hno].
    - exfalso. apply Hns. unfold sealed in *. by rewrite HD.
    - destruct (HDm _ eq_refl) as (m & Em & Hsub). apply parquet_rows_none. intros f [x Hx].
      apply (Hno m f Em). exists x. by eapply lookup_weaken. }
  unfold date_rows. rewrite Hf, (open_rows_split dd' h), (open_rows_split dd h), Hw.
  rewrite (Hnil dd') by done. rewrite (Hnil dd); [done|done|]. intros m' Em. by exists m'.
Qed.
End deleting.

(** ** Steps on one date *)

(** What handling hour [hh] of date [d] may change: no row of the date is lost. *)
Record hour_step {X} (d hh : ustr) (o o' : OrgDir X) : Prop := {
  hs_days : day_files o' = day_files o;
  hs_dates : forall d', d' <> d -> date_dirs o' !! d' = date_dirs o !! d';
  hs_rows : date_rows (get_date d o') ≡ₚ date_rows (get_date d o);
  hs_other : forall h, h <> hh -> hour_dirs (get_date d o') !! h = hour_dirs (get_date d o) !! h
    /\ (sealed (get_date d o') h <-> sealed (get_date d o) h);
  hs_this : is_Some (hour_dirs (get_date d o') !! hh) -> is_Some (hour_dirs (get_date d o) !! hh);
}.

Lemma hour_step_refl {X} d hh (o : OrgDir X) : hour_step d hh o o.
Proof. by split. Qed.

Lemma hour_step_trans {X} d hh (o1 o2 o3 : OrgDir X) : hour_step d hh o1 o2 -> hour_step d hh o2 o3 -> hour_step d hh o1 o3.
Proof.
  intros [A1 B1 C1 D1 E1] [A2 B2 C2 D2 E2]. split.
  - congruence.
  - intros d' Hd. by rewrite B2, B1.
  - by etrans.
  - intros h Hh. destruct (D1 h Hh) as [Ed1 Es1], (D2 h Hh) as [Ed2 Es2]. split; [congruence|tauto].
  - auto.
Qed.

Lemma get_set_date {X} d (dd : DateDir X) o : get_date d (set_date d dd o) = dd.
Proof. unfold get_date, set_date. simpl. by rewrite lookup_insert_eq. Qed.

Lemma set_date_ne {X} d d' (dd : DateDir X) o : d' <> d -> date_dirs (set_date d dd o) !! d' = date_dirs o !! d'.
Proof. intros H. unfold set_date. simpl. by rewrite lookup_insert_ne. Qed.

(** An hour without rows outside its sealed file. *)
Definition hour_done {X} (h : ustr) (dd : DateDir X) : Prop :=
  sealed dd h \/ forall m f, hour_dirs dd !! h = Some m -> is_Some (m !! f) -> is_parquet f = false.

Lemma drop_hour_step {X} fate d hh (o : OrgDir X) n :
  hour_done hh (get_date d o) ->
  let o' := set_date d (delete_hour_dir fate hh (get_date d o) n).1 o in
  hour_step d hh o o' /\ hour_done hh (get_date d o').
Proof.
  intros Hdone o'. destruct (delete_hour_dir_spec fate hh (get_date d o) n) as (Hf & Hw & Hm). split.
  - split.
    + done.
    + intros d' Hd. by apply set_date_ne.
    + unfold o'. rewrite get_set_date. by apply delete_hour_dir_rows.
    + intros h Hh. unfold o'. rewrite get_set_date. unfold sealed. rewrite Hf. split; [|done].
      assert (forall dd : DateDir X, hour_dirs (without_hour hh dd) !! h = hour_dirs dd !! h) as Hlk.
      { intros dd. unfold without_hour. simpl. by rewrite lookup_delete_ne. }
      by rewrite <- Hlk, Hw, Hlk.
    + unfold o'. rewrite get_set_date. intros [m' Hm']. destruct (Hm m' Hm') as (m & -> & _). by eexists.
  - unfold o', hour_done, sealed. rewrite get_set_date, Hf. destruct Hdone as [?|Hno]; [by left|]. right.
    intros m' f Hm' [x Hx]. destruct (Hm m' Hm') as (m & Em & Hsub). apply (Hno m f Em). exists x. by eapply lookup_weaken.
Qed.

Lemma seal_hour_step {X} d hh (o : OrgDir X) m rows :
  hour_dirs (get_date d o) !! hh = Some m -> hour_files (get_date d o) !! (hh ++ parquet) = None ->
  rows ≡ₚ parquet_rows m ->
  let o' := set_date d (put_hour_file (hh ++ parquet) rows (get_date d o)) o in
  hour_step d hh o o' /\ sealed (get_date d o') hh.
Proof.
  intros Hm Hf Hr o'. split.
  - split.
    + done.
    + intros d' Hd. by apply set_date_ne.
    + unfold o'. rewrite get_set_date. by apply (seal_rows _ _ m).
    + intros h Hh. unfold o'. rewrite get_set_date. split; [done|]. unfold sealed. simpl.
      by rewrite lookup_insert_ne by (intros ?%parquet_inj; done).
    + unfold o'. by rewrite get_set_date.
  - unfold o', sealed. rewrite get_set_date. simpl. rewrite lookup_insert_eq. by eexists.
Qed.

Lemma sorted_chunks_rows {X} (m : files X) :
  read_all m (merge_sort ustr_le (filter (fun f => is_parquet f = true) (names m))) ≡ₚ parquet_rows m.
Proof.
  unfold parquet_rows, read_all, parquet_names. apply concat_map_perm. unfold sorted_names.
  by rewrite !merge_sort_Permutation.
Qed.

Lemma sorted_nil {X} (m : files X) :
  merge_sort ustr_le (filter (fun f => is_parquet f = true) (names m)) = [] ->
  forall f, is_Some (m !! f) -> is_parquet f = false.
Proof.
  intros Ec f Hf. destruct (is_parquet f) eqn:Ep; [|done]. exfalso.
  assert (f ∈ merge_sort ustr_le (filter (fun f => is_parquet f = true) (names m))) as Hin.
  { rewrite merge_sort_Permutation. apply list_elem_of_filter. split; [done|]. by apply names_elem. }
  rewrite Ec in Hin. by apply elem_of_nil in Hin.
Qed.

Section compaction.
Context (fate : nat -> Outcome) {Row Rollup : Type} (aggregate : list Row -> Z -> list Rollup).
Context (d : ustr) (day_start now : Z).

Lemma write_hour_rollup_raw hh rows start (w : World) :
  raw (write_hour_rollup fate aggregate d hh rows start w).2 = raw w.
Proof. unfold write_hour_rollup. destruct (fate _); [destruct (aggregate _ _)|..]; done. Qed.

Lemma recover_rollup_raw fs (w : World) : raw (foldl (recover_rollup fate aggregate d day_start) w fs) = raw w.
Proof.
  revert w. induction fs as [|f fs IH]; intros w; simpl; [done|]. rewrite IH. unfold recover_rollup.
  destruct (_ || _); [done|]. apply write_hour_rollup_raw.
Qed.

(** One hour: no row of the date is lost, and a due hour is done unless DuckDB had no
    slot for it. *)
Lemma compact_hour_spec hh (w : World) :
  let '(r, w') := compact_hour fate aggregate d day_start now hh w in
  hour_step d hh (raw w) (raw w')
  /\ (is_ok r -> is_hour hh = true -> hour_start day_start hh + ONE_HOUR + SEAL_GRACE < now ->
      (forall n, fate n <> Refuses) -> hour_done hh (get_date d (raw w'))).
Proof.
  unfold compact_hour. set (start := hour_start day_start hh).
  destruct (is_hour hh) eqn:Eh; simpl; [|by split; [apply hour_step_refl|]].
  destruct (now <=? start + ONE_HOUR + SEAL_GRACE) eqn:Et; [split; [apply hour_step_refl|lia]|].
  destruct (hour_files (get_date d (raw w)) !! (hh ++ parquet)) as [old|] eqn:Ef.
  { pose proof (drop_hour_step fate d hh (raw w) (calls w)) as Hd.
    destruct (delete_hour_dir fate hh (get_date d (raw w)) (calls w)) as [dd' n']. simpl in *.
    destruct Hd as [? ?]; [left; unfold sealed; rewrite Ef; by eexists|]. done. }
  destruct (hour_dirs (get_date d (raw w)) !! hh) as [m|] eqn:Em.
  2:{ split; [apply hour_step_refl|]. intros _ _ _ _. right. intros m f. by rewrite Em. }
  pose proof (sorted_chunks_rows m) as Hrows.
  destruct (merge_sort ustr_le _) as [|c cs] eqn:Ec.
  { pose proof (drop_hour_step fate d hh (raw w) (calls w)) as Hd.
    destruct (delete_hour_dir fate hh (get_date d (raw w)) (calls w)) as [dd' n']. simpl in *.
    destruct Hd as [? ?]; [|done]. right. intros m' f Hm' Hs. rewrite Em in Hm'. injection Hm' as <-.
    by apply (sorted_nil m). }
  destruct (fate (calls w)) eqn:Efate.
  - set (w1 := set_raw _ _ w). destruct (seal_hour_step d hh (raw w) m (read_all m (c :: cs)) Em Ef Hrows) as [Hs1 Hs2].
    pose proof (write_hour_rollup_raw hh (read_all m (c :: cs)) start w1) as Hr.
    set (w2 := (write_hour_rollup fate aggregate d hh (read_all m (c :: cs)) start w1).2) in *.
    pose proof (drop_hour_step fate d hh (raw w2) (calls w2)) as Hd.
    destruct (delete_hour_dir fate hh (get_date d (raw w2)) (calls w2)) as [dd' n']. simpl in Hd |- *.
    rewrite Hr in *. destruct Hd as [? ?]; [by left|]. split; [by eapply hour_step_trans|done].
  - split; [apply hour_step_refl|]. intros _ _ _ Hn. by destruct (Hn (calls w)).
  - split; [apply hour_step_refl|]. by intros [? ?].
Qed.

(** What handling the hours of a date may change. *)
Record date_step {X} (o o' : OrgDir X) : Prop := {
  ds_days : day_files o' = day_files o;
  ds_dates : forall d', d' <> d -> date_dirs o' !! d' = date_dirs o !! d';
  ds_rows : date_rows (get_date d o') ≡ₚ date_rows (get_date d o);
  ds_dirs : forall h, is_Some (hour_dirs (get_date d o') !! h) -> is_Some (hour_dirs (get_date d o) !! h);
}.

Lemma date_step_refl {X} (o : OrgDir X) : date_step o o.
Proof. by split. Qed.

Lemma hour_date_step {X} hh (o1 o2 o3 : OrgDir X) : hour_step d hh o1 o2 -> date_step o2 o3 -> date_step o1 o3.
Proof.
  intros [A1 B1 C1 D1 E1] [A2 B2 C2 E2]. split; [congruence| |by etrans|].
  - intros d' Hd. by rewrite B2, B1.
  - intros h Hs%E2. destruct (decide (h = hh)) as [->|Hne]; [by apply E1|]. by rewrite (proj1 (D1 h Hne)) in Hs.
Qed.

Lemma hour_done_other {X} h hh (o o' : OrgDir X) :
  hour_step d hh o o' -> h <> hh -> hour_done h (get_date d o) -> hour_done h (get_date d o').
Proof.
  intros Hst Hne Hd. destruct (hs_other _ _ _ _ Hst h Hne) as [Edir Eseal]. destruct Hd as [Hs|Hno].
  - left. by apply Eseal.
  - right. intros m f. rewrite Edir. apply Hno.
Qed.

Definition due (hh : ustr) : Prop := is_hour hh = true /\ hour_start day_start hh + ONE_HOUR + SEAL_GRACE < now.

Lemma compact_hours_spec hs (w : World) :
  NoDup hs ->
  let '(r, w') := compact_hours fate aggregate d day_start now hs w in
  date_step (raw w) (raw w')
  /\ (forall h, h ∉ hs -> hour_done h (get_date d (raw w)) -> hour_done h (get_date d (raw w')))
  /\ (is_ok r -> Forall due hs -> (forall n, fate n <> Refuses) -> forall h, h ∈ hs -> hour_done h (get_date d (raw w'))).
Proof.
  revert w. induction hs as [|hh hs IH]; intros w Hnd; simpl.
  { split_and!; [apply date_step_refl|done|]. by intros _ _ _ h ?%elem_of_nil. }
  apply NoDup_cons in Hnd as [Hnot Hnd]. pose proof (compact_hour_spec hh w) as H1.
  destruct (compact_hour fate aggregate d day_start now hh w) as [r1 w1]. destruct H1 as [Hst Hdone].
  destruct r1 as [k|e].
  2:{ split_and!; [by eapply hour_date_step, date_step_refl| |by intros [? ?]].
      intros h Hh. apply (hour_done_other h hh); [done|]. intros ->. apply Hh. left. }
  specialize (IH w1 Hnd). destruct (compact_hours fate aggregate d day_start now hs w1) as [r2 w2].
  destruct IH as (Hst2 & Hkeep & Hall).
  assert (forall r : res Z, (is_ok r -> is_ok r2) ->
    date_step (raw w) (raw w2)
    /\ (forall h, h ∉ hh :: hs -> hour_done h (get_date d (raw w)) -> hour_done h (get_date d (raw w2)))
    /\ (is_ok r -> Forall due (hh :: hs) -> (forall n, fate n <> Refuses) ->
        forall h, h ∈ hh :: hs -> hour_done h (get_date d (raw w2)))) as Hgoal.
  { intros r Hr. split_and!; [by eapply hour_date_step| |].
    - intros h [Hne Hh]%not_elem_of_cons Hd. apply Hkeep; [done|]. by apply (hour_done_other h hh (raw w)).
    - intros Hok [[Hh Ht] Hdue]%Forall_cons Hn h [->|Hin]%elem_of_cons; [|by apply Hall; [apply Hr|..]].
      apply Hkeep; [done|]. apply Hdone; [by eexists|done..]. }
  destruct r2 as [k2|e]; apply Hgoal; [by eexists|by intros [? ?]].
Qed.

(** ** Rolling a day *)

(** A directory cut down by deletions. *)
Definition sub_date {X} (dd' dd : DateDir X) : Prop :=
  hour_files dd' ⊆ hour_files dd
  /\ forall h m', hour_dirs dd' !! h = Some m' -> exists m, hour_dirs dd !! h = Some m /\ m' ⊆ m.

Lemma sub_date_refl {X} (dd : DateDir X) : sub_date dd dd.
Proof. split; [done|]. eauto. Qed.

Lemma delete_hour_dirs_sub {X} (hs : list ustr) (dd : DateDir X) n : sub_date (delete_hour_dirs fate hs dd n).1 dd.
Proof.
  unfold delete_hour_dirs. revert dd n. induction hs as [|h hs IH]; intros dd n; [apply sub_date_refl|]. cbn [foldl fst snd].
  destruct (delete_hour_dir_spec fate h dd n) as (Hf & Hw & Hm).
  destruct (delete_hour_dir fate h dd n) as [dd1 n1]. cbn [fst] in *. destruct (IH dd1 n1) as [H1 H2].
  split; [by rewrite <- Hf|]. intros h' m' Hm'. destruct (H2 _ _ Hm') as (m1 & Em1 & Hs1).
  destruct (decide (h' = h)) as [->|Hne].
  - destruct (Hm _ Em1) as (m & ? & ?). exists m. split; [done|by etrans].
  - exists m1. split; [|done]. assert (hour_dirs (without_hour h dd1) !! h' = hour_dirs (without_hour h dd) !! h') as E by (by rewrite Hw).
    unfold without_hour in E. simpl in E. rewrite !lookup_delete_ne in E by done. by rewrite <- E.
Qed.

Lemma delete_date_dir_spec {X} (o : OrgDir X) n :
  let o' := (delete_date_dir fate d o n).1 in
  day_files o' = day_files o /\ (forall d', d' <> d -> date_dirs o' !! d' = date_dirs o !! d')
  /\ forall dd', date_dirs o' !! d = Some dd' -> exists dd, date_dirs o !! d = Some dd /\ sub_date dd' dd.
Proof.
  unfold delete_date_dir. destruct (date_dirs o !! d) as [dd|] eqn:E.
  2:{ simpl. split_and!; [done..|]. intros dd'. by rewrite E. }
  pose proof (delete_files_subseteq fate (names (hour_files dd)) (hour_files dd) n) as Hsub.
  destruct (delete_files fate _ _ n) as [hf n1]. cbn [fst] in Hsub.
  pose proof (delete_hour_dirs_sub (names (hour_dirs dd)) {| hour_files := hf; hour_dirs := hour_dirs dd |} n1) as [H1 H2].
  destruct (delete_hour_dirs fate _ _ n1) as [dd1 n2]. cbn [fst] in *. simpl in H1, H2.
  assert (sub_date dd1 dd) as Hs by (split; [by etrans|done]). split_and!; [done| |]; simpl.
  - intros d' Hne. destruct (names (hour_files dd1)), (names (hour_dirs dd1));
      by rewrite ?lookup_delete_ne, ?lookup_insert_ne by done.
  - intros dd'. destruct (names (hour_files dd1)), (names (hour_dirs dd1));
      rewrite ?lookup_delete_eq, ?lookup_insert_eq; intros; simplify_eq; eauto.
Qed.

Lemma no_parquet_rows {X} (dd : DateDir X) :
  (forall f, is_Some (hour_files dd !! f) -> is_parquet f = false) ->
  (forall h m f, hour_dirs dd !! h = Some m -> is_Some (m !! f) -> is_parquet f = false) -> date_rows dd = [].
Proof.
  intros Hf Hd. unfold date_rows. rewrite parquet_rows_none by done. unfold open_rows.
  assert (forall l : list (ustr * files X), (forall h m, (h, m) ∈ l -> hour_dirs dd !! h = Some m) ->
    concat (map (fun hm => if decide (sealed dd hm.1) then [] else parquet_rows hm.2) l) = []) as Hl.
  { induction l as [|[h m] l IH]; intros Hin; [done|]. cbn [map concat fst snd].
    rewrite IH by (intros; apply Hin; by right). rewrite app_nil_r. destruct (decide _); [done|].
    apply parquet_rows_none. intros f. apply (Hd h). apply Hin. left. }
  apply Hl. intros h m Hin. by apply elem_of_map_to_list.
Qed.

Lemma open_rows_done {X} (dd : DateDir X) : (forall h, hour_done h dd) -> open_rows dd = [].
Proof.
  intros Hd. unfold open_rows.
  assert (forall l : list (ustr * files X), (forall h m, (h, m) ∈ l -> hour_dirs dd !! h = Some m) ->
    concat (map (fun hm => if decide (sealed dd hm.1) then [] else parquet_rows hm.2) l) = []) as Hl.
  { induction l as [|[h m] l IH]; intros Hin; [done|]. cbn [map concat fst snd].
    rewrite IH by (intros; apply Hin; by right). rewrite app_nil_r. destruct (decide _) as [|Hs]; [done|].
    apply parquet_rows_none. intros f Hf. destruct (Hd h) as [?|Hno]; [done|]. apply (Hno m); [apply Hin; left|done]. }
  apply Hl. intros h m Hin. by apply elem_of_map_to_list.
Qed.

(** Deleting a date directory is not seen when the day is rolled, or when the
    directory holds no row to read. *)
Lemma deleted_view {X} (o : OrgDir X) n d' :
  is_Some (day_files o !! (d ++ parquet)) \/
    (forall dd, date_dirs o !! d = Some dd -> forall dd', sub_date dd' dd -> date_rows dd' = []) ->
  visible d' (delete_date_dir fate d o n).1 ≡ₚ visible d' o.
Proof.
  intros Hor. destruct (delete_date_dir_spec o n) as (Hf & Ho & Hd). rewrite !visible_spec, Hf.
  destruct (decide (d' = d)) as [->|Hne]; [|by rewrite Ho]. destruct Hor as [[rows ->]|Hno]; [done|].
  destruct (day_files o !! _); [done|]. destruct (date_dirs (delete_date_dir fate d o n).1 !! d) as [dd'|] eqn:E.
  - destruct (Hd _ eq_refl) as (dd & Edd & Hsub). rewrite Edd, (Hno dd Edd dd' Hsub), (Hno dd Edd dd (sub_date_refl dd)). done.
  - destruct (date_dirs o !! d) as [dd|]; [|done]. by rewrite (Hno dd eq_refl dd (sub_date_refl dd)).
Qed.

(** Without sealed files, hours that are done have no row. *)
Lemma done_no_rows {X} (dd dd' : DateDir X) :
  (forall f, is_Some (hour_files dd !! f) -> is_parquet f = false) -> (forall h, hour_done h dd) ->
  sub_date dd' dd -> date_rows dd' = [].
Proof.
  intros Hno Hdone [Hs1 Hs2]. apply no_parquet_rows.
  - intros f [x Hx]. apply Hno. exists x. by eapply lookup_weaken.
  - intros h m' f Hm' [x Hx]. destruct (Hs2 _ _ Hm') as (m & Hm & Hsub). destruct (Hdone h) as [Hs|Hn].
    + exfalso. pose proof (Hno _ Hs) as Hf. unfold is_parquet in Hf. by rewrite endswith_app in Hf.
    + apply (Hn m f Hm). exists x. by eapply lookup_weaken.
Qed.

(** Rolling a day whose hours are all done does not change what queries read. *)
Lemma roll_sealed_day_view {X} (o : OrgDir X) n :
  (forall h, hour_done h (get_date d o)) ->
  forall d', visible d' (roll_sealed_day fate d o n).1.2 ≡ₚ visible d' o.
Proof.
  intros Hdone d'. unfold roll_sealed_day. pose proof (deleted_view o n d') as Hdel.
  destruct (delete_date_dir fate d o n) as [o1 n1]. simpl in Hdel.
  destruct (day_files o !! (d ++ parquet)) as [old|] eqn:Ef; [apply Hdel; left; by eexists|].
  destruct (date_dirs o !! d) as [dd|] eqn:Ed; [|done].
  assert (get_date d o = dd) as Eg by (unfold get_date; by rewrite Ed). rewrite Eg in Hdone.
  pose proof (sorted_chunks_rows (hour_files dd)) as Hrows. destruct (merge_sort ustr_le _) as [|c cs] eqn:Ec.
  { apply Hdel. right. intros ? [= <-] dd' Hsub. apply (done_no_rows dd); [|done..]. by apply sorted_nil. }
  destruct (fate n); [|done..]. set (o2 := {| day_files := _; date_dirs := date_dirs o |}).
  pose proof (deleted_view o2 (S n) d') as Hdel2. destruct (delete_date_dir fate d o2 (S n)) as [o3 n3]. simpl in Hdel2 |- *.
  rewrite Hdel2 by (left; unfold o2; simpl; rewrite lookup_insert_eq; by eexists). rewrite !visible_spec. unfold o2. simpl.
  destruct (decide (d' = d)) as [->|Hne].
  - rewrite lookup_insert_eq, Ef, Ed, Hrows. unfold date_rows. by rewrite open_rows_done, app_nil_r.
  - rewrite lookup_insert_ne by (intros ?%parquet_inj; done). done.
Qed.

(** Other dates never change. *)
Lemma roll_sealed_day_other {X} (o : OrgDir X) n d' :
  d' <> d -> visible d' (roll_sealed_day fate d o n).1.2 ≡ₚ visible d' o.
Proof.
  intros Hne. unfold roll_sealed_day.
  assert (forall (o1 : OrgDir X) n1, visible d' (delete_date_dir fate d o1 n1).1 ≡ₚ visible d' o1) as Hdel.
  { intros o1 n1. destruct (delete_date_dir_spec o1 n1) as (Hf & Ho & _). by rewrite !visible_spec, Hf, Ho. }
  pose proof (Hdel o n) as H1. destruct (delete_date_dir fate d o n) as [o1 n1]. simpl in H1.
  destruct (day_files o !! (d ++ parquet)); [done|]. destruct (date_dirs o !! d) as [dd|] eqn:Ed; [|done].
  destruct (merge_sort ustr_le _) as [|c cs]; [done|]. destruct (fate n); [|done..].
  set (o2 := {| day_files := _; date_dirs := date_dirs o |}). pose proof (Hdel o2 (S n)) as H2.
  destruct (delete_date_dir fate d o2 (S n)) as [o3 n3]. simpl in H2 |- *. rewrite H2, !visible_spec. unfold o2. simpl.
  by rewrite lookup_insert_ne by (intros ?%parquet_inj; done).
Qed.

(** The hour directories are named [00] to [23]. *)
Definition hours_ok {X} (o : OrgDir X) : Prop :=
  forall d dd h, date_dirs o !! d = Some dd -> is_Some (hour_dirs dd !! h) -> is_hour h = true /\ int_of_digits h < 24.

Lemma roll_sealed_day_hours_ok {X} (o : OrgDir X) n : hours_ok o -> hours_ok (roll_sealed_day fate d o n).1.2.
Proof.
  intros Hok. unfold roll_sealed_day.
  assert (forall (o1 : OrgDir X) n1, hours_ok o1 -> hours_ok (delete_date_dir fate d o1 n1).1) as Hdel.
  { intros o1 n1 Hok1. destruct (delete_date_dir_spec o1 n1) as (_ & Ho & Hd). intros d' dd' h Hdd' [m' Hm'].
    destruct (decide (d' = d)) as [->|Hne]; [|rewrite Ho in Hdd' by done; by apply (Hok1 d' dd')].
    destruct (Hd _ Hdd') as (dd & Edd & [_ Hsub]). destruct (Hsub _ _ Hm') as (m & Em & _).
    apply (Hok1 d dd h Edd). by eexists. }
  pose proof (Hdel o n Hok) as H1. destruct (delete_date_dir fate d o n) as [o1 n1].
  destruct (day_files o !! (d ++ parquet)); [done|]. destruct (date_dirs o !! d) as [dd|]; [|done].
  destruct (merge_sort ustr_le _) as [|c cs]; [done|]. destruct (fate n); [|done..].
  set (o2 := {| day_files := _; date_dirs := date_dirs o |}). pose proof (Hdel o2 (S n) Hok) as H2.
  by destruct (delete_date_dir fate d o2 (S n)) as [o3 n3].
Qed.

Lemma date_step_view {X} (o o' : OrgDir X) d' : date_step o o' -> visible d' o' ≡ₚ visible d' o.
Proof.
  intros [Hf Ho Hr _]. rewrite !visible_spec, Hf. destruct (day_files o !! _); [done|].
  destruct (decide (d' = d)) as [->|Hne]; [|by rewrite Ho]. unfold get_date in Hr.
  by destruct (date_dirs o' !! d), (date_dirs o !! d).
Qed.

Lemma get_date_hours_ok {X} (o : OrgDir X) h :
  hours_ok o -> is_Some (hour_dirs (get_date d o) !! h) -> is_hour h = true /\ int_of_digits h < 24.
Proof.
  intros Hok. unfold get_date. destruct (date_dirs o !! d) as [dd|] eqn:E; [by apply Hok with d|].
  simpl. rewrite lookup_empty. by intros [? ?].
Qed.

Lemma date_step_hours_ok {X} (o o' : OrgDir X) : date_step o o' -> hours_ok o -> hours_ok o'.
Proof.
  intros Hst Hok d' dd h Hdd Hh. destruct (decide (d' = d)) as [->|Hne].
  - apply (get_date_hours_ok o); [done|]. apply (ds_dirs _ _ Hst). unfold get_date. by rewrite Hdd.
  - rewrite (ds_dates _ _ Hst d' Hne) in Hdd. by apply (Hok d' dd).
Qed.

(** When the day is due so are its hours. *)
Lemma hours_due {X} (o : OrgDir X) :
  hours_ok o -> day_start + ONE_DAY + SEAL_GRACE < now -> Forall due (names (hour_dirs (get_date d o))).
Proof.
  intros Hok Hday. apply Forall_forall. intros h Hh%names_elem.
  destruct (get_date_hours_ok o h Hok Hh) as [Hi Hn]. split; [done|].
  unfold hour_start, ONE_DAY in *. assert (int_of_digits h * ONE_HOUR <= 23 * ONE_HOUR) by (unfold ONE_HOUR, MINUTE; lia). lia.
Qed.

Lemma compact_org_date_view (w : World) :
  hours_ok (raw w) ->
  let w' := (compact_org_date fate aggregate d day_start now w).2 in
  hours_ok (raw w')
  /\ forall d', d' <> d \/ (forall n, fate n <> Refuses) \/ now <= day_start + ONE_DAY + SEAL_GRACE ->
       visible d' (raw w') ≡ₚ visible d' (raw w).
Proof.
  intros Hok. unfold compact_org_date. set (w0 := foldl _ w _).
  assert (raw w0 = raw w) as Hr0 by apply recover_rollup_raw.
  pose proof (compact_hours_spec (names (hour_dirs (get_date d (raw w)))) w0 (NoDup_fst_map_to_list _)) as Hh.
  rewrite Hr0 in Hh. destruct (compact_hours fate aggregate d day_start now _ w0) as [[k|e] w1].
  2:{ destruct Hh as (Hst & _). split; [by eapply date_step_hours_ok|]. intros d' _. by apply date_step_view. }
  destruct Hh as (Hst & Hkeep & Hdone). pose proof (date_step_hours_ok _ _ Hst Hok) as Hok1.
  destruct (day_start + ONE_DAY + SEAL_GRACE <? now) eqn:Eday.
  2:{ split; [done|]. intros d' _. by apply date_step_view. }
  pose proof (roll_sealed_day_hours_ok (raw w1) (calls w1) Hok1) as Hok2.
  pose proof (roll_sealed_day_other (raw w1) (calls w1)) as Hother. pose proof (roll_sealed_day_view (raw w1) (calls w1)) as Hview.
  destruct (roll_sealed_day fate d (raw w1) (calls w1)) as [[r o2] n2]. simpl in Hok2, Hother, Hview.
  assert (hours_ok o2 /\ forall d', d' <> d \/ (forall n, fate n <> Refuses) \/ now <= day_start + ONE_DAY + SEAL_GRACE ->
    visible d' o2 ≡ₚ visible d' (raw w)) as Hgoal.
  { split; [done|]. intros d' Hor. rewrite <- (date_step_view _ _ d' Hst).
    destruct (decide (d' = d)) as [->|Hne]; [|by apply Hother].
    destruct Hor as [?|[Hn|?]]; [done| |lia]. apply Hview. intros h.
    destruct (decide (h ∈ names (hour_dirs (get_date d (raw w))))) as [Hin|Hin].
    - apply Hdone; [by eexists|apply hours_due; [done|lia]|done..].
    - right. intros m f Hm. exfalso. apply Hin, names_elem, (ds_dirs _ _ Hst). by eexists. }
  destruct r as [[]|e]; [|done]. destruct (roll_sealed_day fate d (rollup _) _) as [[r3 o3] n3]. by destruct r3.
Qed.
End compaction.

(** ** All organizations *)

Section storage.
Context (fate : nat -> Outcome) {Row Rollup : Type} (aggregate : list Row -> Z -> list Rollup) (now : Z).

(** The span and rollup trees; an absent rollup directory is an empty one. *)
Record Storage := { st_raw : gmap ustr (OrgDir Row); st_rollup : gmap ustr (OrgDir Rollup); st_calls : nat }.

Definition org_world (org : ustr) (s : Storage) : World :=
  {| raw := default empty_org (st_raw s !! org); rollup := default empty_org (st_rollup s !! org); calls := st_calls s |}.
Definition put_world (org : ustr) (w : World) (s : Storage) : Storage :=
  {| st_raw := <[org := raw w]> (st_raw s); st_rollup := <[org := rollup w]> (st_rollup s); st_calls := calls w |}.

(** One date directory of an organization; errors are logged. *)
Definition compact_date (org : ustr) (acc : Z * Storage) (date_dir : ustr) : Z * Storage :=
  match parse_date date_dir with
  | None => acc
  | Some day_start =>
      match compact_org_date fate aggregate date_dir day_start now (org_world org acc.2) with
      | (Ok k, w) => (acc.1 + k, put_world org w acc.2)
      | (Raise _, w) => (acc.1, put_world org w acc.2)
      end
  end.

Definition compact_org (acc : Z * Storage) (org : ustr) : Z * Storage :=
  if startswith (u "org_") org
  then foldl (compact_date org) acc (names (date_dirs (default empty_org (st_raw acc.2 !! org))))
  else acc.

(** Returns the number of chunk files compacted. *)
Definition compact_span_chunks (s : Storage) : Z * Storage := foldl compact_org (0, s) (names (st_raw s)).

Definition org_tree (org : ustr) (s : Storage) : OrgDir Row := default empty_org (st_raw s !! org).

Definition storage_ok (s : Storage) : Prop := forall org, hours_ok (org_tree org s).

(** The directory of a date is rolled in this run. *)
Definition rolls (d : ustr) : Prop :=
  exists day_start, parse_date d = Some day_start /\ day_start + ONE_DAY + SEAL_GRACE < now.

Lemma org_tree_put org org' w s : org_tree org' (put_world org w s) = if decide (org' = org) then raw w else org_tree org' s.
Proof.
  unfold org_tree, put_world. simpl. destruct (decide (org' = org)) as [->|Hne]; [by rewrite lookup_insert_eq|].
  by rewrite lookup_insert_ne.
Qed.

Lemma compact_date_view org acc dd :
  storage_ok acc.2 ->
  storage_ok (compact_date org acc dd).2
  /\ forall org' d, (forall n, fate n <> Refuses) \/ ~ rolls d ->
       visible d (org_tree org' (compact_date org acc dd).2) ≡ₚ visible d (org_tree org' acc.2).
Proof.
  intros Hok. unfold compact_date. destruct (parse_date dd) as [ds|] eqn:Ep; [|done].
  destruct (compact_org_date_view fate aggregate dd ds now (org_world org acc.2) (Hok org)) as [Hok1 Hview].
  assert (forall k w, w = (compact_org_date fate aggregate dd ds now (org_world org acc.2)).2 ->
    storage_ok (k, put_world org w acc.2).2 /\ forall org' d, (forall n, fate n <> Refuses) \/ ~ rolls d ->
      visible d (org_tree org' (@pair Z Storage k (put_world org w acc.2)).2) ≡ₚ visible d (org_tree org' acc.2)) as Hgoal.
  { intros k w ->. simpl. split.
    - intros org'. rewrite org_tree_put. destruct (decide (org' = org)); [done|apply Hok].
    - intros org' d Hor. rewrite org_tree_put. destruct (decide (org' = org)) as [->|]; [|done].
      apply Hview. destruct (decide (d = dd)) as [->|]; [|by left]. right. destruct Hor as [?|Hnr]; [by left|right].
      destruct (decide (now <= ds + ONE_DAY + SEAL_GRACE)); [done|]. exfalso. apply Hnr. exists ds. split; [done|lia]. }
  destruct (compact_org_date fate aggregate dd ds now (org_world org acc.2)) as [[k|e] w]; by apply Hgoal.
Qed.

(** ** Rollups *)

Section rollups.
Context (d : ustr) (day_start : Z).
Hypothesis Hworks : forall n, fate n = Works.

(** A sealed hour has its rollup, unless the aggregation gives no row. *)
Definition rolled_up (hh : ustr) (w : World (Row := Row) (Rollup := Rollup)) : Prop :=
  forall rows, hour_files (get_date d (raw w)) !! (hh ++ parquet) = Some rows ->
    aggregate rows (hour_start day_start hh) = [] \/ has_rollup d hh w = true.

Lemma write_rollup_has hh rows start w :
  aggregate rows start = [] \/ has_rollup d hh (write_hour_rollup fate aggregate d hh rows start w).2 = true.
Proof.
  unfold write_hour_rollup. rewrite Hworks. destruct (aggregate rows start) as [|r rs] eqn:E; [by left|right].
  unfold has_rollup. simpl. rewrite get_set_date. simpl. by rewrite lookup_insert_eq.
Qed.

Lemma write_rollup_keeps hh hh' rows start w :
  has_rollup d hh' w = true -> has_rollup d hh' (write_hour_rollup fate aggregate d hh rows start w).2 = true.
Proof.
  unfold write_hour_rollup. rewrite Hworks. destruct (aggregate rows start) as [|r rs]; [done|]. unfold has_rollup. simpl.
  rewrite get_set_date. simpl. destruct (decide (hh' = hh)) as [->|Hne]; [by rewrite lookup_insert_eq|].
  by rewrite lookup_insert_ne by (intros ?%parquet_inj; done).
Qed.

Lemma recover_keeps hh w f :
  has_rollup d hh w = true -> has_rollup d hh (recover_rollup fate aggregate d day_start w f) = true.
Proof. intros H. unfold recover_rollup. destruct (_ || _); [done|]. by apply write_rollup_keeps. Qed.

Lemma recover_all fs hh w :
  is_hour hh = true -> (hh ++ parquet) ∈ fs \/ rolled_up hh w ->
  rolled_up hh (foldl (recover_rollup fate aggregate d day_start) w fs).
Proof.
  intros Hh. revert w. induction fs as [|f fs IH]; intros w Hor; cbn [foldl].
  { destruct Hor as [?%elem_of_nil|?]; done. }
  assert (forall g, raw (recover_rollup fate aggregate d day_start w g) = raw w) as Hraw.
  { intros g. by apply (recover_rollup_raw fate aggregate d day_start [g] w). }
  apply IH. destruct Hor as [[<-|Hin]%elem_of_cons|Hr]; [right|by left|right].
  - intros rows Hrows. rewrite Hraw in Hrows. unfold recover_rollup. rewrite stem_parquet, Hh.
    assert (is_parquet (hh ++ parquet) = true) as -> by apply endswith_app. simpl.
    destruct (has_rollup d hh w) eqn:E; [by right|]. unfold content. rewrite Hrows. apply write_rollup_has.
  - intros rows Hrows. rewrite Hraw in Hrows. destruct (Hr rows Hrows); [by left|right]. by apply recover_keeps.
Qed.

Lemma compact_hour_rolled_up hh w :
  (forall h, is_hour h = true -> rolled_up h w) ->
  forall h, is_hour h = true -> rolled_up h (compact_hour fate aggregate d day_start now hh w).2.
Proof.
  intros Hall h Hh. unfold compact_hour. destruct (is_hour hh) eqn:Ehh; [|by apply Hall]. simpl.
  destruct (now <=? _); [by apply Hall|].
  assert (forall w1, (forall h, is_hour h = true -> rolled_up h w1) ->
    rolled_up h (let '(dd, n) := delete_hour_dir fate hh (get_date d (raw w1)) (calls w1) in set_raw (set_date d dd (raw w1)) n w1)) as Hdrop.
  { intros w1 H1. destruct (delete_hour_dir_spec fate hh (get_date d (raw w1)) (calls w1)) as (Hf & _).
    destruct (delete_hour_dir fate hh (get_date d (raw w1)) (calls w1)) as [dd n]. simpl in Hf.
    intros rows Hrows. simpl in Hrows. rewrite get_set_date, Hf in Hrows. apply (H1 h Hh rows Hrows). }
  destruct (hour_files _ !! _); [by apply Hdrop|]. destruct (hour_dirs _ !! hh) as [m|]; [|by apply Hall].
  destruct (merge_sort ustr_le _) as [|c cs]; [by apply Hdrop|]. rewrite Hworks. apply Hdrop. clear h Hh Hdrop. intros h Hh rows Hrows.
  rewrite write_hour_rollup_raw in Hrows. simpl in Hrows. rewrite get_set_date in Hrows. simpl in Hrows.
  destruct (decide (h = hh)) as [->|Hne].
  - rewrite lookup_insert_eq in Hrows. injection Hrows as <-. apply write_rollup_has.
  - rewrite lookup_insert_ne in Hrows by (intros ?%parquet_inj; done).
    destruct (Hall h Hh rows Hrows); [by left|right]. by apply write_rollup_keeps.
Qed.

Lemma compact_hours_rolled_up hs w :
  (forall h, is_hour h = true -> rolled_up h w) ->
  forall h, is_hour h = true -> rolled_up h (compact_hours fate aggregate d day_start now hs w).2.
Proof.
  revert w. induction hs as [|hh hs IH]; intros w Hall; simpl; [done|].
  pose proof (compact_hour_rolled_up hh w Hall) as H1.
  destruct (compact_hour fate aggregate d day_start now hh w) as [[k|e] w1]; [|done]. specialize (IH w1 H1).
  by destruct (compact_hours fate aggregate d day_start now hs w1) as [[k'|e] w2].
Qed.

(** When every call works, after a run that does not roll the date each of its
    sealed hours has its trend rollup: those sealed in this run and those whose rollup
    had failed before. *)
Theorem rollups_complete w :
  now <= day_start + ONE_DAY + SEAL_GRACE ->
  forall hh, is_hour hh = true -> rolled_up hh (compact_org_date fate aggregate d day_start now w).2.
Proof.
  intros Hday hh Hh. unfold compact_org_date. set (w0 := foldl _ w _).
  assert (forall h, is_hour h = true -> rolled_up h w0) as H0.
  { intros h Hh'. apply recover_all; [done|].
    destruct (hour_files (get_date d (raw w)) !! (h ++ parquet)) as [rows|] eqn:E; [left|right].
    - apply names_elem. by eexists.
    - intros rows. by rewrite E. }
  pose proof (compact_hours_rolled_up (names (hour_dirs (get_date d (raw w)))) w0 H0) as H1.
  destruct (compact_hours fate aggregate d day_start now _ w0) as [[k|e] w1]; [|by apply H1].
  destruct (day_start + ONE_DAY + SEAL_GRACE <? now) eqn:E; [lia|]. by apply H1.
Qed.
End rollups.

(** ** What a query reads is preserved *)

(** C10: compaction does not change what queries read: whatever writes and deletions
    fail, every organization and date shows the same rows before and after, provided
    DuckDB always has a free slot, or the day is not rolled in this run. *)
Theorem compaction_preserves_view s org d :
  storage_ok s -> (forall n, fate n <> Refuses) \/ ~ rolls d ->
  visible d (org_tree org (compact_span_chunks s).2) ≡ₚ visible d (org_tree org s).
Proof.
  intros Hok Hor. unfold compact_span_chunks. generalize (names (st_raw s)). intros orgs.
  assert (forall acc, storage_ok acc.2 -> storage_ok (foldl compact_org acc orgs).2
    /\ visible d (org_tree org (foldl compact_org acc orgs).2) ≡ₚ visible d (org_tree org acc.2)) as H; [|by apply (H (0, s))].
  induction orgs as [|o orgs IH]; intros acc Hacc; [done|]. cbn [foldl].
  assert (storage_ok (compact_org acc o).2 /\ visible d (org_tree org (compact_org acc o).2) ≡ₚ visible d (org_tree org acc.2)) as [H1 H2].
  { unfold compact_org. destruct (startswith _ _); [|done]. generalize (names (date_dirs (default empty_org (st_raw acc.2 !! o)))).
    intros dates. clear IH. revert acc Hacc. induction dates as [|dd dates IHd]; intros acc Hacc; [done|]. cbn [foldl].
    destruct (compact_date_view o acc dd Hacc) as [Hok1 Hv1]. destruct (IHd _ Hok1) as [? Hv2]. split; [done|].
    rewrite Hv2. by apply Hv1. }
  destruct (IH _ H1) as [? Hv]. split; [done|]. by rewrite Hv.
Qed.
End storage.

(** ** One organization with spans of one hour of 2024-01-01 *)
Definition sample_date : ustr := u "20240101".
Definition sample_tree (chunks : files Z) : OrgDir Z :=
  {| day_files := ∅; date_dirs := {[sample_date := {| hour_files := ∅; hour_dirs := {[u "10" := chunks]} |}]} |}.
Definition sample_storage (chunks : files Z) : Storage (Row := Z) (Rollup := Z) :=
  {| st_raw := {[u "org_1" := sample_tree chunks]}; st_rollup := ∅; st_calls := 0 |}.
Definition two_chunks : files Z := {[u "chunk_1.parquet" := [1; 2]; u "chunk_2.parquet" := [3]]}.
(** 2024-01-03 *)
Definition two_days_later : Z := (days_from_civil 2024 1 3) * ONE_DAY.

(** The second deletion and the rollup fail. *)
Definition some_fail (n : nat) : Outcome := match n with 1%nat | 3%nat => Fails | _ => Works end.

Lemma compaction_preserves_view_witness :
  visible sample_date (org_tree (u "org_1") (sample_storage two_chunks)) = [1; 2; 3]
  /\ visible sample_date (org_tree (u "org_1")
       (compact_span_chunks some_fail (fun rows _ => rows) two_days_later (sample_storage two_chunks)).2) ≡ₚ [1; 2; 3].
Proof.
  split; [by_compute|].
  refine (compaction_preserves_view some_fail (fun rows _ => rows) two_days_later (sample_storage two_chunks)
    (u "org_1") sample_date _ _).
  - intros org d dd h. unfold org_tree, sample_storage. simpl.
    destruct (decide (org = u "org_1")) as [->|Hne];
      [rewrite lookup_singleton_eq; simpl|by rewrite lookup_singleton_ne by done].
    intros [<- <-]%lookup_singleton_Some [m Hm]. simpl in Hm. apply lookup_singleton_Some in Hm as [<- _]. split; [by_compute|by_decide].
  - left. intros [|[|[|[|n]]]]; discriminate.
Defined.

Lemma rollups_complete_witness :
  has_rollup sample_date (u "10") (compact_org_date (fun _ => Works) (fun rows _ => rows) sample_date 0 (12 * ONE_HOUR)
    {| raw := sample_tree two_chunks; rollup := empty_org; calls := 0 |}).2 = true.
Proof.
  destruct (rollups_complete (fun _ => Works) (fun rows _ => rows) (12 * ONE_HOUR) sample_date 0 (fun _ => eq_refl)
    {| raw := sample_tree two_chunks; rollup := empty_org; calls := 0 |} ltac:(by_decide) (u "10") eq_refl [1; 2; 3])
    as [H|H]; [by_compute|discriminate H|exact H].
Defined.

(** When DuckDB has no slot while the only hour is sealed, the same run deletes the
    date's directory with its chunks: the spans are lost. *)
Example refused_slot_loses_spans :
  visible sample_date (org_tree (u "org_1")
    (compact_span_chunks (fun n => match n with O => Refuses | _ => Works end) (fun rows _ => rows) two_days_later
       (sample_storage two_chunks)).2) = [].
Proof. by_compute. Qed.

(** When the rollup of an hour fails in the run that rolls its day, no later run
    recovers it: the hour file is gone. *)
Example failed_rollup_never_recovered :
  let s1 := (compact_span_chunks (fun n => match n with 1%nat => Fails | _ => Works end) (fun rows _ => rows) two_days_later
               (sample_storage two_chunks)).2 in
  let s2 := (compact_span_chunks (fun _ => Works) (fun rows _ => rows) two_days_later s1).2 in
  st_rollup s1 !! u "org_1" = Some empty_org /\ st_rollup s2 !! u "org_1" = Some empty_org.
Proof. split; by_compute. Qed.
