(* ===== verification/Promotion.v ===== *)
(** * Promotion of staged spans

    [promote_spans] of [apps/performance/promotion.py]: old rows of the staging table are
    written to chunk files per organization, date and hour and deleted from the table.
    Chunk writes, deletes from the database and chunk removals ask [fate] for their
    outcome; a failed write leaves no file. *)
From S2P Require Import Prelude PyStr PyValue PyDate IngestEvent Transactions Compaction.

(** ** Dates *)

(** [ts.strftime("%Y%m%d")] and [ts.strftime("%H")] of a UTC time in microseconds. *)
Definition date_str (ts : Z) : ustr := date_name (ts / ONE_DAY).
Definition hour_str (ts : Z) : ustr := digits 2 ((ts mod ONE_DAY) / ONE_HOUR).

Example date_str_leap : date_str (days_from_civil 2024 2 29 * ONE_DAY + 23 * ONE_HOUR) = u "20240229".
Proof. by_compute. Qed.

Definition BATCH_LIMIT_PER_ORG : Z := 100000.

(** [f"org_{org_id}"] *)
Definition org_name (org : Z) : ustr := u "org_" ++ str_of_Z org.

(** ** The run *)

Section promotion.
Context (fate : nat -> Outcome).
(** [f"chunk_{time.time_ns()}_{os.getpid()}.parquet"] at the [n]-th call. *)
Context (chunk_name : nat -> ustr).
(** The cutoff as a UUID and the range of accepted timestamps. *)
Context (cutoff_uuid min_ts max_ts : Z).

Record Promo := { p_staging : list SpanRow; p_raw : gmap ustr (OrgDir SpanRow); p_calls : nat }.

Abbreviation hour_key := (ustr * ustr)%type.

Definition is_garbage (r : SpanRow) : bool := (sr_timestamp r <? min_ts) || (max_ts <? sr_timestamp r).

(** [hour_groups.setdefault(key, []).append(row)] *)
Definition add_to_group (groups : adict hour_key (list SpanRow)) (r : SpanRow) : adict hour_key (list SpanRow) :=
  let key := (date_str (sr_timestamp r), hour_str (sr_timestamp r)) in
  aset key (default [] (aget key groups) ++ [r]) groups.

Definition hour_groups (rows : list SpanRow) : adict hour_key (list SpanRow) :=
  foldl add_to_group [] (filter (fun r => is_garbage r = false) rows).
Definition drop_uuids (rows : list SpanRow) : list Z := map sr_id (filter (fun r => is_garbage r = true) rows).

(** DELETE ... WHERE id = ANY(...) AND organization_id = ... *)
Definition delete_promoted_rows (ids : list Z) (org : Z) (t : list SpanRow) : list SpanRow :=
  filter (fun r => ~ (sr_id r ∈ ids /\ sr_organization_id r = org)) t.

(** The chunks of an hour directory, and the tree with other chunks in it. *)
Definition get_hour_dir (org d h : ustr) (t : gmap ustr (OrgDir SpanRow)) : files SpanRow :=
  default ∅ (hour_dirs (get_date d (default empty_org (t !! org))) !! h).
Definition set_hour_dir (org d h : ustr) (m : files SpanRow) (t : gmap ustr (OrgDir SpanRow)) : gmap ustr (OrgDir SpanRow) :=
  let o := default empty_org (t !! org) in
  let dd := get_date d o in
  <[org := set_date d {| hour_files := hour_files dd; hour_dirs := <[h := m]> (hour_dirs dd) |} o]> t.

(** The tree with one more chunk, directories made on the way, or with one less. *)
Definition put_chunk (org d h f : ustr) (rows : list SpanRow) (t : gmap ustr (OrgDir SpanRow)) : gmap ustr (OrgDir SpanRow) :=
  set_hour_dir org d h (<[f := rows]> (get_hour_dir org d h t)) t.
Definition remove_chunk (org d h f : ustr) (t : gmap ustr (OrgDir SpanRow)) : gmap ustr (OrgDir SpanRow) :=
  set_hour_dir org d h (delete f (get_hour_dir org d h t)) t.

(** One group: write, delete from the table, or remove the chunk again.  The number
    of promoted rows comes first. *)
Definition promote_group (org : Z) (acc : Z * Promo) (g : hour_key * list SpanRow) : Z * Promo :=
  let '(total, s) := acc in
  let n := p_calls s in
  let path := org_name org in
  match fate n with
  | Works =>
      let written := put_chunk path g.1.1 g.1.2 (chunk_name n) g.2 (p_raw s) in
      match fate (S n) with
      | Works => (total + len g.2, {| p_staging := delete_promoted_rows (map sr_id g.2) org (p_staging s);
                                      p_raw := written; p_calls := S (S n) |})
      | _ => (total, {| p_staging := p_staging s;
                        p_raw := match fate (S (S n)) with
                                 | Works => remove_chunk path g.1.1 g.1.2 (chunk_name n) written
                                 | _ => written
                                 end;
                        p_calls := S (S (S n)) |})
      end
  | _ => (total, {| p_staging := p_staging s; p_raw := p_raw s; p_calls := S n |})
  end.

(** The rows of an organization read in one run. *)
Definition org_rows (org : Z) (t : list SpanRow) : list SpanRow :=
  slice_to BATCH_LIMIT_PER_ORG (filter (fun r => sr_id r < cutoff_uuid /\ sr_organization_id r = org) t).

Definition drop_garbage (org : Z) (rows : list SpanRow) (s : Promo) : Promo :=
  match drop_uuids rows with
  | [] => s
  | ids =>
      {| p_staging := match fate (p_calls s) with
                      | Works => delete_promoted_rows ids org (p_staging s)
                      | _ => p_staging s
                      end;
         p_raw := p_raw s; p_calls := S (p_calls s) |}
  end.

Definition promote_org (acc : Z * bool * Promo) (org : Z) : Z * bool * Promo :=
  let '(total, truncated, s) := acc in
  match org_rows org (p_staging s) with
  | [] => acc
  | rows =>
      let '(total, s) := foldl (promote_group org) (total, s) (hour_groups rows) in
      (total, truncated || (BATCH_LIMIT_PER_ORG <=? len rows), drop_garbage org rows s)
  end.

(** Returns the number of promoted rows and whether some organization reached its limit. *)
Definition promote_spans (s : Promo) : Z * bool * Promo :=
  foldl promote_org (0, false, s)
    (remove_dups (map sr_organization_id (filter (fun r => sr_id r < cutoff_uuid) (p_staging s)))).

(** ** The rows of a tree *)

Definition map_rows {X Y} (f : X -> list Y) (m : gmap ustr X) : list Y := concat (map (fun kv => f kv.2) (map_to_list m)).

Lemma map_rows_split {X Y} (f : X -> list Y) m k :
  map_rows f m ≡ₚ match m !! k with Some x => f x | None => [] end ++ map_rows f (delete k m).
Proof.
  destruct (m !! k) as [x|] eqn:E; [|by rewrite delete_id]. unfold map_rows.
  rewrite <- (insert_delete_id m k x E) at 1. by rewrite (concat_map_perm _ _ _ (map_to_list_insert _ k x (lookup_delete_eq _ _))).
Qed.

(** Adding rows to one member adds them to the whole. *)
Lemma map_rows_put {X Y} (f : X -> list Y) m k v e rows :
  f e = [] -> f v ≡ₚ rows ++ f (default e (m !! k)) -> map_rows f (<[k := v]> m) ≡ₚ rows ++ map_rows f m.
Proof.
  intros He Hv. rewrite (map_rows_split f (<[k := v]> m) k), lookup_insert_eq, delete_insert_eq, (map_rows_split f m k), Hv.
  destruct (m !! k); simpl; [by rewrite app_assoc|by rewrite He, app_nil_r].
Qed.

Definition date_chunks (dd : DateDir SpanRow) : list SpanRow := map_rows (map_rows Datatypes.id) (hour_dirs dd).
Definition org_chunks (o : OrgDir SpanRow) : list SpanRow := map_rows date_chunks (date_dirs o).
(** The rows of all chunk files. *)
Definition tree_chunks (t : gmap ustr (OrgDir SpanRow)) : list SpanRow := map_rows org_chunks t.

Lemma set_hour_dir_rows org d h m rows t :
  map_rows Datatypes.id m ≡ₚ rows ++ map_rows Datatypes.id (get_hour_dir org d h t) ->
  tree_chunks (set_hour_dir org d h m t) ≡ₚ rows ++ tree_chunks t.
Proof.
  intros Hm. apply (map_rows_put org_chunks t org _ empty_org); [done|].
  apply (map_rows_put date_chunks _ d _ empty_date); [done|].
  apply (map_rows_put (map_rows Datatypes.id) _ h m ∅); [done|]. done.
Qed.

Lemma get_set_hour_dir org d h m t org' d' h' :
  get_hour_dir org' d' h' (set_hour_dir org d h m t)
  = if decide ((org', d', h') = (org, d, h)) then m else get_hour_dir org' d' h' t.
Proof.
  unfold get_hour_dir, set_hour_dir. destruct (decide (org' = org)) as [->|Ho].
  2:{ rewrite lookup_insert_ne by done. rewrite decide_False; [done|congruence]. }
  rewrite lookup_insert_eq. cbn [default from_option Datatypes.id]. destruct (decide (d' = d)) as [->|Hd].
  - rewrite get_set_date. cbn [hour_dirs]. destruct (decide (h' = h)) as [->|Hh].
    + by rewrite lookup_insert_eq, decide_True.
    + rewrite lookup_insert_ne by done. rewrite decide_False; [done|congruence].
  - rewrite decide_False by congruence. unfold get_date at 1. by rewrite set_date_ne.
Qed.

Lemma put_chunk_rows org d h f rows t :
  get_hour_dir org d h t !! f = None -> tree_chunks (put_chunk org d h f rows t) ≡ₚ rows ++ tree_chunks t.
Proof. intros Hf. apply set_hour_dir_rows. apply (map_rows_put Datatypes.id _ f rows []); [done|]. rewrite Hf. simpl. by rewrite app_nil_r. Qed.

Lemma set_set_hour_dir org d h m1 m2 t : set_hour_dir org d h m2 (set_hour_dir org d h m1 t) = set_hour_dir org d h m2 t.
Proof.
  unfold set_hour_dir. rewrite lookup_insert_eq. cbn [default from_option Datatypes.id]. rewrite get_set_date.
  unfold set_date. cbn [hour_files hour_dirs day_files date_dirs]. by rewrite !insert_insert_eq.
Qed.

Lemma remove_put_chunk_rows org d h f rows t :
  get_hour_dir org d h t !! f = None -> tree_chunks (remove_chunk org d h f (put_chunk org d h f rows t)) ≡ₚ tree_chunks t.
Proof.
  intros Hf. unfold remove_chunk, put_chunk. rewrite get_set_hour_dir, decide_True by done.
  rewrite delete_insert_id by done. rewrite set_set_hour_dir. by rewrite (set_hour_dir_rows org d h _ [] t).
Qed.

(** ** What a run does to the table and the tree *)

Hypothesis chunk_name_inj : forall a b, chunk_name a = chunk_name b -> a = b.

(** Chunk names of calls to come are not in use. *)
Definition fresh (n : nat) (t : gmap ustr (OrgDir SpanRow)) : Prop :=
  forall k, (n <= k)%nat -> forall org d h, get_hour_dir org d h t !! chunk_name k = None.

Definition row_pk (r : SpanRow) : Z * Z := (sr_id r, sr_organization_id r).
(** The primary key of the staging table. *)
Definition keyed (t : list SpanRow) : Prop := NoDup (map row_pk t).

(** [pr] was moved to chunks, [dr] dropped, [dup] copied to chunks but still staged. *)
Record moves (s s' : Promo) (pr dr dup : list SpanRow) : Prop := {
  mv_staging : p_staging s ≡ₚ pr ++ dr ++ p_staging s';
  mv_tree : tree_chunks (p_raw s') ≡ₚ pr ++ dup ++ tree_chunks (p_raw s);
  mv_dup : Forall (fun r => r ∈ p_staging s') dup;
  mv_fresh : fresh (p_calls s') (p_raw s');
}.

Lemma keyed_perm t1 t2 : t1 ≡ₚ t2 -> keyed t1 -> keyed t2.
Proof. unfold keyed. intros Hp. by rewrite Hp. Qed.

Lemma keyed_NoDup t : keyed t -> NoDup t.
Proof. unfold keyed. apply NoDup_fmap_1. Qed.

Lemma moves_keyed s s' pr dr dup : moves s s' pr dr dup -> keyed (p_staging s) -> keyed (p_staging s').
Proof.
  intros [Hs _ _ _] Hk. apply (keyed_perm _ _ Hs) in Hk. unfold keyed in *. rewrite !map_app in Hk.
  by apply NoDup_app in Hk as (_ & _ & (_ & _ & Hk)%NoDup_app).
Qed.

Lemma moves_refl s : fresh (p_calls s) (p_raw s) -> moves s s [] [] [].
Proof. by split. Qed.

Lemma moves_trans s1 s2 s3 pr1 dr1 dup1 pr2 dr2 dup2 :
  moves s1 s2 pr1 dr1 dup1 -> moves s2 s3 pr2 dr2 dup2 -> Forall (fun r => r ∉ pr2 ++ dr2) dup1 ->
  moves s1 s3 (pr1 ++ pr2) (dr1 ++ dr2) (dup1 ++ dup2).
Proof.
  intros [A1 B1 C1 D1] [A2 B2 C2 D2] Hnot. split; [| | |done].
  - rewrite A1, A2. solve_Permutation.
  - rewrite B2, B1. solve_Permutation.
  - apply Forall_app. split; [|done]. rewrite Forall_forall in C1, Hnot |- *. intros r Hr.
    specialize (C1 r Hr). rewrite A2, app_assoc in C1. apply elem_of_app in C1 as [?|?]; [|done]. by destruct (Hnot r Hr).
Qed.

(** The DELETE removes exactly the given rows. *)
Lemma delete_promoted_rows_spec rows org t :
  keyed t -> NoDup rows -> Forall (fun r => r ∈ t /\ sr_organization_id r = org) rows ->
  t ≡ₚ rows ++ delete_promoted_rows (map sr_id rows) org t.
Proof.
  intros Hk Hnd Hall. unfold delete_promoted_rows.
  set (P := fun r => sr_id r ∈ map sr_id rows /\ sr_organization_id r = org).
  rewrite <- (filter_app_complement P t) at 1. apply Permutation_app_tail. rewrite Forall_forall in Hall.
  apply NoDup_Permutation; [apply NoDup_filter, keyed_NoDup, Hk|done|]. intros r. rewrite list_elem_of_filter. unfold P. split.
  - intros [[(r' & Hid & Hr')%list_elem_of_fmap Ho] Hr]. destruct (Hall r' Hr') as [Hin Ho'].
    assert (r = r') as ->; [|done]. apply (nodup_map_inj row_pk t); [done..|]. unfold row_pk. congruence.
  - intros Hr. destruct (Hall r Hr) as [Hin Ho]. split; [|done]. split; [|done]. apply list_elem_of_fmap. by exists r.
Qed.

Lemma fresh_set_hour_dir n org d h m t :
  fresh n t -> (forall k, (n <= k)%nat -> m !! chunk_name k = None) -> fresh n (set_hour_dir org d h m t).
Proof. intros Hf Hm k Hk org' d' h'. rewrite get_set_hour_dir. destruct (decide _); [by apply Hm|by apply Hf]. Qed.

Lemma fresh_le n n' t : (n <= n')%nat -> fresh n t -> fresh n' t.
Proof. intros Hle Hf k Hk. apply Hf. lia. Qed.

Lemma fresh_put n org d h rows t : fresh n t -> fresh (S n) (put_chunk org d h (chunk_name n) rows t).
Proof.
  intros Hf. apply fresh_set_hour_dir; [eapply fresh_le; [|done]; lia|]. intros k Hk.
  rewrite lookup_insert_ne; [apply Hf; lia|]. intros ?%chunk_name_inj. lia.
Qed.

Lemma fresh_remove n org d h f t : fresh n t -> fresh n (remove_chunk org d h f t).
Proof.
  intros Hf. apply fresh_set_hour_dir; [done|]. intros k Hk. apply lookup_delete_None. right. by apply Hf.
Qed.

(** A chunk whose rows could not be deleted from the table is removed or stays. *)
Lemma copied_or_removed org s (g : hour_key * list SpanRow) :
  fresh (p_calls s) (p_raw s) -> Forall (fun r => r ∈ p_staging s) g.2 ->
  let n := p_calls s in
  let written := put_chunk org g.1.1 g.1.2 (chunk_name n) g.2 (p_raw s) in
  exists dup, moves s {| p_staging := p_staging s;
                         p_raw := match fate (S (S n)) with
                                  | Works => remove_chunk org g.1.1 g.1.2 (chunk_name n) written
                                  | _ => written
                                  end; p_calls := S (S (S n)) |} [] [] dup
    /\ (dup = g.2 \/ dup = []) /\ (fate (S (S n)) = Works -> dup = []).
Proof.
  intros Hf Hall n written. pose proof (Hf n ltac:(lia) org g.1.1 g.1.2) as Hnone.
  pose proof (fresh_put n org g.1.1 g.1.2 g.2 (p_raw s) Hf) as Hfp. fold written in Hfp.
  assert (moves s {| p_staging := p_staging s; p_raw := written; p_calls := S (S (S n)) |} [] [] g.2) as Hcopy.
  { split; simpl; [done|by apply put_chunk_rows|done|eapply fresh_le; [|exact Hfp]; lia]. }
  destruct (fate (S (S n))); [exists []|exists g.2; split_and!; [done|by left|done]..]. split_and!; [|by right|done].
  split; simpl; [done|by apply remove_put_chunk_rows|done|].
  apply fresh_remove. eapply fresh_le; [|exact Hfp]. lia.
Qed.

(** No two calls in a row fail. *)
Definition isolated : Prop := forall n, fate n = Works \/ fate (S n) = Works.

(** One group is moved, left alone, or copied. *)
Lemma promote_group_moves org total s g :
  keyed (p_staging s) -> fresh (p_calls s) (p_raw s) -> NoDup g.2 ->
  Forall (fun r => r ∈ p_staging s /\ sr_organization_id r = org) g.2 ->
  exists pr dup, moves s (promote_group org (total, s) g).2 pr [] dup
    /\ (promote_group org (total, s) g).1 = total + len pr
    /\ (pr = g.2 /\ dup = [] \/ pr = [] /\ (dup = g.2 \/ dup = []))
    /\ (isolated -> dup = []) /\ ((forall n, fate n = Works) -> pr = g.2).
Proof.
  intros Hk Hf Hnd Hall. unfold promote_group. set (n := p_calls s) in *.
  assert (exists pr dup, moves s {| p_staging := p_staging s; p_raw := p_raw s; p_calls := S n |} pr [] dup
    /\ total = total + len pr /\ (pr = g.2 /\ dup = [] \/ pr = [] /\ (dup = g.2 \/ dup = []))
    /\ dup = [] /\ (fate n <> Works -> (forall n, fate n = Works) -> pr = g.2)) as Hstay.
  { exists [], []. split_and!; [|unfold len; simpl; lia|right; split; [done|by right]|done|intros Hn Hw; by rewrite Hw in Hn].
    split; simpl; [done..|]. eapply fresh_le; [|exact Hf]. lia. }
  destruct (fate n) eqn:En; [|destruct Hstay as (pr & dup & ? & ? & ? & ? & Hw); exists pr, dup; split_and!; [done..|by apply Hw]..].
  pose proof (put_chunk_rows (org_name org) g.1.1 g.1.2 (chunk_name n) g.2 (p_raw s) (Hf n ltac:(lia) _ _ _)) as Hput.
  pose proof (fresh_put n (org_name org) g.1.1 g.1.2 g.2 (p_raw s) Hf) as Hfp.
  destruct (fate (S n)) eqn:En1.
  - exists g.2, []. split_and!; [|done|by left|done|done]. split; simpl; [|done|done|eapply fresh_le; [|exact Hfp]; lia].
    by apply delete_promoted_rows_spec.
  - destruct (copied_or_removed (org_name org) s g Hf) as (dup & Hm & Hd & Hi); [by eapply Forall_impl; [exact Hall|intros r [? _]]|].
    exists [], dup. split_and!; [exact Hm|unfold len; simpl; lia|by right| |intros Hw; by rewrite Hw in En1].
    intros Hiso. apply Hi. destruct (Hiso (S n)) as [?|?]; [congruence|done].
  - destruct (copied_or_removed (org_name org) s g Hf) as (dup & Hm & Hd & Hi); [by eapply Forall_impl; [exact Hall|intros r [? _]]|].
    exists [], dup. split_and!; [exact Hm|unfold len; simpl; lia|by right| |intros Hw; by rewrite Hw in En1].
    intros Hiso. apply Hi. destruct (Hiso (S n)) as [?|?]; [congruence|done].
Qed.

(** All groups of an organization. *)
Lemma promote_groups_move org gs total s :
  keyed (p_staging s) -> fresh (p_calls s) (p_raw s) -> NoDup (concat (map snd gs)) ->
  Forall (fun r => r ∈ p_staging s /\ sr_organization_id r = org) (concat (map snd gs)) ->
  exists pr rest dup, moves s (foldl (promote_group org) (total, s) gs).2 pr [] dup
    /\ (foldl (promote_group org) (total, s) gs).1 = total + len pr
    /\ concat (map snd gs) ≡ₚ pr ++ rest /\ dup ⊆ rest
    /\ (isolated -> dup = []) /\ ((forall n, fate n = Works) -> rest = []).
Proof.
  revert total s. induction gs as [|g gs IH]; intros total s Hk Hf Hnd Hall; cbn [foldl map concat] in *.
  { exists [], [], []. split_and!; [by apply moves_refl|unfold len; simpl; lia|done..]. }
  apply NoDup_app in Hnd as (Hnd1 & Hdis & Hnd2). apply Forall_app in Hall as [Hall1 Hall2].
  destruct (promote_group_moves org total s g Hk Hf Hnd1 Hall1) as (pr1 & dup1 & Hm1 & Ht1 & Hc1 & Hi1 & Hw1).
  destruct (promote_group org (total, s) g) as [total1 s1]. simpl in Hm1, Ht1. subst total1.
  destruct (IH (total + len pr1) s1) as (pr2 & rest2 & dup2 & Hm2 & Ht2 & Hp2 & Hd2 & Hi2 & Hw2).
  - by eapply moves_keyed.
  - apply Hm1.
  - done.
  - rewrite Forall_forall in Hall2 |- *. intros r Hr. destruct (Hall2 r Hr) as [Hin Ho]. split; [|done].
    rewrite (mv_staging _ _ _ _ _ Hm1) in Hin. simpl in Hin. apply elem_of_app in Hin as [Hin|?]; [|done].
    exfalso. apply (Hdis r); [|done]. destruct Hc1 as [[-> _]|[-> _]]; [done|by apply elem_of_nil in Hin].
  - assert (dup1 ⊆ g.2) as Hdup1 by (destruct Hc1 as [[_ ->]|[_ [->| ->]]]; set_solver).
    assert (pr2 ⊆ concat (map snd gs)) as Hpr2 by (intros r Hr; rewrite Hp2; apply elem_of_app; by left).
    exists (pr1 ++ pr2), ((match pr1 with [] => g.2 | _ => [] end) ++ rest2), (dup1 ++ dup2). split_and!.
    + apply (moves_trans s s1 _ pr1 [] dup1 pr2 [] dup2); [done..|]. apply Forall_forall. intros r Hr. rewrite app_nil_r. intros Hr2.
      apply (Hdis r); [by apply Hdup1|by apply Hpr2].
    + rewrite Ht2. unfold len. rewrite length_app. lia.
    + rewrite Hp2. destruct Hc1 as [[-> _]|[-> _]]; [|simpl; solve_Permutation]. destruct g.2; solve_Permutation.
    + destruct Hc1 as [[_ ->]|[-> [->| ->]]]; set_solver.
    + intros Hi. by rewrite (Hi1 Hi), (Hi2 Hi).
    + intros Hw. rewrite (Hw1 Hw), (Hw2 Hw), app_nil_r. by destruct g.2.
Qed.

(** ** Groups *)

Lemma aset_snd {K V} `{EqDecision K} k (v : list V) (d : adict K (list V)) (x : V) :
  v = default [] (aget k d) ++ [x] -> concat (map snd (aset k v d)) ≡ₚ concat (map snd d) ++ [x].
Proof.
  intros ->. unfold aget. induction d as [|[k' w] d IH]; [done|]. cbn [aset first_some fst snd].
  destruct (decide (k' = k)); cbn [map concat snd default from_option Datatypes.id]; [solve_Permutation|].
  rewrite IH. by rewrite app_assoc.
Qed.

Lemma hour_groups_rows rows :
  concat (map snd (hour_groups rows)) ≡ₚ filter (fun r => is_garbage r = false) rows.
Proof.
  unfold hour_groups. induction (filter _ rows) as [|r l IH] using rev_ind; [done|]. rewrite foldl_app. cbn [foldl].
  unfold add_to_group at 1. rewrite (aset_snd _ _ _ r) by done. by rewrite IH.
Qed.

Lemma org_rows_elem org t r : r ∈ org_rows org t -> r ∈ t /\ sr_organization_id r = org.
Proof. unfold org_rows. intros [[_ Ho] Hr]%slice_to_subset%list_elem_of_filter; done. Qed.

Lemma NoDup_org_rows org t : keyed t -> NoDup (org_rows org t).
Proof.
  intros Hk. unfold org_rows, slice_to. destruct (_ <? 0) eqn:E; [by unfold BATCH_LIMIT_PER_ORG in E|].
  assert (NoDup (filter (fun r => sr_id r < cutoff_uuid /\ sr_organization_id r = org) t)) as H by (by apply NoDup_filter, keyed_NoDup).
  rewrite <- (take_drop (Z.to_nat BATCH_LIMIT_PER_ORG)) in H. by apply NoDup_app in H as (? & _).
Qed.

(** Dropping the garbage among rows. *)
Lemma drop_garbage_moves org rows s :
  keyed (p_staging s) -> fresh (p_calls s) (p_raw s) -> NoDup rows ->
  Forall (fun r => r ∈ p_staging s /\ sr_organization_id r = org) (filter (fun r => is_garbage r = true) rows) ->
  exists dr, moves s (drop_garbage org rows s) [] dr [] /\ dr ⊆ filter (fun r => is_garbage r = true) rows
    /\ ((forall n, fate n = Works) -> dr = filter (fun r => is_garbage r = true) rows).
Proof.
  intros Hk Hf Hnd Hall. unfold drop_garbage, drop_uuids. set (gar := filter _ rows) in *.
  destruct gar as [|r gar'] eqn:E; [exists []; split_and!; [by apply moves_refl|done..]|]. cbn [map].
  change (sr_id r :: map sr_id gar') with (map sr_id (r :: gar')). rewrite <- E in *.
  assert (fresh (S (p_calls s)) (p_raw s)) as Hf' by (eapply fresh_le; [|exact Hf]; lia).
  destruct (fate (p_calls s)) eqn:En; [exists gar; split_and!; [|done..]|exists []; split_and!; [by split|set_solver|intros Hw; by rewrite Hw in En]..].
  split; simpl; [|done|done|done]. apply delete_promoted_rows_spec; [done|by apply NoDup_filter|done].
Qed.

(** What is said of the rows one or several organizations move. *)
Record sorted_out (orgs : list Z) (pr dr dup : list SpanRow) : Prop := {
  so_orgs : Forall (fun r => sr_organization_id r ∈ orgs) (pr ++ dr ++ dup);
  so_kept : Forall (fun r => is_garbage r = false) pr;
  so_garbage : Forall (fun r => is_garbage r = true) dr;
}.

Lemma org_rows_all org t : len (org_rows org t) < BATCH_LIMIT_PER_ORG ->
  org_rows org t = filter (fun r => sr_id r < cutoff_uuid /\ sr_organization_id r = org) t.
Proof.
  unfold org_rows, slice_to, len. set (l := filter _ t). assert (BATCH_LIMIT_PER_ORG <? 0 = false) as -> by done.
  rewrite length_take. intros Hlen. apply take_ge. lia.
Qed.

(** One organization. *)
Lemma promote_org_moves org total truncated s :
  keyed (p_staging s) -> fresh (p_calls s) (p_raw s) ->
  let r := promote_org (total, truncated, s) org in
  exists pr dr dup, moves s r.2 pr dr dup /\ r.1.1 = total + len pr /\ sorted_out [org] pr dr dup
    /\ (truncated = true -> r.1.2 = true) /\ (isolated -> dup = [])
    /\ ((forall n, fate n = Works) -> dup = [] /\
        (r.1.2 = false -> forall x, x ∈ p_staging r.2 -> sr_organization_id x = org -> cutoff_uuid <= sr_id x)).
Proof.
  intros Hk Hf. unfold promote_org. set (rows := org_rows org (p_staging s)).
  assert (forall r, r ∈ rows -> r ∈ p_staging s /\ sr_organization_id r = org) as Hin by (intros r; apply org_rows_elem).
  assert (NoDup rows) as Hnd by (by apply NoDup_org_rows).
  pose proof (org_rows_all org (p_staging s)) as Hlim. fold rows in Hlim. destruct rows as [|r0 rows'] eqn:Erows.
  { exists [], [], []. cbn [fst snd]. split_and!; [by apply moves_refl|unfold len; simpl; lia|by split|done|done|]. intros _. split; [done|].
    intros _ x Hx Ho. destruct (decide (cutoff_uuid <= sr_id x)); [done|]. exfalso.
    assert (x ∈ @nil SpanRow) as Hn; [|by apply elem_of_nil in Hn].
    rewrite Hlim by (by vm_compute). apply list_elem_of_filter. split; [split; [lia|done]|done]. }
  rewrite <- Erows in *. clear Erows r0 rows'. pose proof (hour_groups_rows rows) as Hg.
  set (kept := filter (fun r => is_garbage r = false) rows) in *.
  destruct (promote_groups_move org (hour_groups rows) total s Hk Hf) as (pr & rest & dup & Hm & Ht & Hp & Hd & Hi & Hw).
  { rewrite Hg. by apply NoDup_filter. }
  { rewrite Hg. apply Forall_forall. intros r [_ Hr]%list_elem_of_filter. by apply Hin. }
  destruct (foldl (promote_group org) (total, s) (hour_groups rows)) as [total1 s1]. simpl in Hm, Ht. cbn [fst snd].
  assert (forall r, r ∈ pr ++ rest -> is_garbage r = false /\ r ∈ rows) as Hkept.
  { intros r Hr. rewrite <- Hp, Hg in Hr. by apply list_elem_of_filter in Hr. }
  destruct (drop_garbage_moves org rows s1) as (dr & Hmd & Hdr & Hwd).
  { by eapply moves_keyed. } { apply Hm. } { done. }
  { apply Forall_forall. intros r [Hgar Hr]%list_elem_of_filter. destruct (Hin r Hr) as [Hs Ho]. split; [|done].
    rewrite (mv_staging _ _ _ _ _ Hm) in Hs. simpl in Hs. apply elem_of_app in Hs as [Hs|?]; [|done].
    destruct (Hkept r) as [? _]; [apply elem_of_app; by left|congruence]. }
  assert (forall r, r ∈ dr -> is_garbage r = true /\ r ∈ rows) as Hgar by (intros r Hr%Hdr; by apply list_elem_of_filter in Hr).
  exists pr, dr, dup. split_and!.
  - rewrite <- (app_nil_r pr), <- (app_nil_r dup). apply (moves_trans s s1 _ pr [] dup [] dr []); [done..|].
    apply Forall_forall. intros r Hr Hr2. simpl in Hr2. apply Hd in Hr. destruct (Hkept r) as [? _]; [apply elem_of_app; by right|].
    destruct (Hgar r Hr2). congruence.
  - done.
  - split; apply Forall_forall.
    + intros r Hr. apply list_elem_of_singleton. apply elem_of_app in Hr as [Hr|[Hr|Hr]%elem_of_app].
      * apply Hin, Hkept, elem_of_app. by left.
      * by apply Hin, Hgar.
      * apply Hin, Hkept, elem_of_app. right. by apply Hd.
    + intros r Hr. apply Hkept, elem_of_app. by left.
    + intros r Hr. by apply Hgar.
  - by intros ->.
  - done.
  - intros Hworks. rewrite (Hw Hworks) in *. split; [destruct dup as [|x ?]; [done|]; exfalso; by destruct (proj1 (elem_of_nil x) (Hd x ltac:(left)))|].
    intros Htr x Hx Ho. destruct (decide (cutoff_uuid <= sr_id x)); [done|]. exfalso.
    assert (len rows < BATCH_LIMIT_PER_ORG) as Hlen by (destruct truncated; simpl in Htr; [done|lia]).
    assert (p_staging s ≡ₚ (pr ++ dr) ++ p_staging (drop_garbage org rows s1)) as Hall.
    { rewrite (mv_staging _ _ _ _ _ Hm), (mv_staging _ _ _ _ _ Hmd). solve_Permutation. }
    pose proof (keyed_NoDup _ Hk) as Hnds. rewrite Hall in Hnds. apply NoDup_app in Hnds as (_ & Hdis & _).
    apply (Hdis x); [|done]. assert (x ∈ rows) as Hxr.
    { rewrite (Hlim Hlen). apply list_elem_of_filter. split; [split; [lia|done]|]. rewrite Hall. apply elem_of_app. by right. }
    apply elem_of_app. destruct (is_garbage x) eqn:Eg.
    + right. rewrite (Hwd Hworks). by apply list_elem_of_filter.
    + left. rewrite app_nil_r in Hp. rewrite <- Hp, Hg. by apply list_elem_of_filter.
Qed.

(** All organizations. *)
Lemma promote_orgs_move orgs total truncated s :
  keyed (p_staging s) -> fresh (p_calls s) (p_raw s) -> NoDup orgs ->
  let r := foldl promote_org (total, truncated, s) orgs in
  exists pr dr dup, moves s r.2 pr dr dup /\ r.1.1 = total + len pr /\ sorted_out orgs pr dr dup
    /\ (truncated = true -> r.1.2 = true) /\ (isolated -> dup = [])
    /\ ((forall n, fate n = Works) -> dup = [] /\
        (r.1.2 = false -> forall x, x ∈ p_staging r.2 -> sr_organization_id x ∈ orgs -> cutoff_uuid <= sr_id x)).
Proof.
  revert total truncated s. induction orgs as [|org orgs IH]; intros total truncated s Hk Hf Hnd; cbn [foldl].
  { exists [], [], []. cbn [fst snd]. split_and!; [by apply moves_refl|unfold len; simpl; lia|by split|done|done|].
    intros _. split; [done|]. by intros _ x _ ?%elem_of_nil. }
  apply NoDup_cons in Hnd as [Hnot Hnd].
  destruct (promote_org_moves org total truncated s Hk Hf) as (pr1 & dr1 & dup1 & Hm1 & Ht1 & Hs1 & Hc1 & Hi1 & Hw1).
  destruct (promote_org (total, truncated, s) org) as [[total1 truncated1] s1]. cbn [fst snd] in *. subst total1.
  destruct (IH (total + len pr1) truncated1 s1) as (pr2 & dr2 & dup2 & Hm2 & Ht2 & Hs2 & Hc2 & Hi2 & Hw2).
  { by eapply moves_keyed. } { apply Hm1. } { done. }
  destruct Hs1 as [A1 B1 C1], Hs2 as [A2 B2 C2]. rewrite !Forall_app in A1, A2. destruct A1 as (A1 & A1' & A1''), A2 as (A2 & A2' & A2'').
  exists (pr1 ++ pr2), (dr1 ++ dr2), (dup1 ++ dup2). split_and!.
  - apply (moves_trans s s1); [done..|]. rewrite Forall_forall in *. intros r Hr Hr2. apply Hnot.
    specialize (A1'' r Hr). apply list_elem_of_singleton in A1''. rewrite <- A1''.
    apply elem_of_app in Hr2 as [?|?]; [by apply A2|by apply A2'].
  - rewrite Ht2. unfold len. rewrite length_app. lia.
  - assert (forall l, Forall (fun r => sr_organization_id r ∈ [org]) l -> Forall (fun r => sr_organization_id r ∈ org :: orgs) l) as H1.
    { intros l Hl. eapply Forall_impl; [exact Hl|]. intros r ->%list_elem_of_singleton. left. }
    assert (forall l, Forall (fun r => sr_organization_id r ∈ orgs) l -> Forall (fun r => sr_organization_id r ∈ org :: orgs) l) as H2.
    { intros l Hl. eapply Forall_impl; [exact Hl|]. intros r ?. by right. }
    split; [|by apply Forall_app..]. rewrite !Forall_app. auto 10.
  - auto.
  - intros Hi. by rewrite (Hi1 Hi), (Hi2 Hi).
  - intros Hworks. destruct (Hw1 Hworks) as [-> Hd1], (Hw2 Hworks) as [-> Hd2]. split; [done|].
    intros Htr x Hx [Ho|Ho]%elem_of_cons; [|by apply Hd2].
    destruct truncated1; [by rewrite Hc2 in Htr|]. apply Hd1; [done| |done].
    rewrite (mv_staging _ _ _ _ _ Hm2). rewrite !elem_of_app. by right; right.
Qed.

(** ** Properties *)

(** C14: promotion loses no span and copies none twice: whatever calls fail, every row
    that leaves the staging table is in a chunk or was outside the accepted time range,
    and no row is in a chunk and still staged unless two calls in a row failed, the
    delete from the table and the removal of its chunk.  The count returned is that of the moved rows; when
    every call works and no limit is reached no row older than the cutoff remains. *)
Theorem promotion_conserves_spans s :
  keyed (p_staging s) -> fresh (p_calls s) (p_raw s) ->
  let r := promote_spans s in
  exists promoted dropped copied,
    p_staging s ≡ₚ promoted ++ dropped ++ p_staging r.2
    /\ tree_chunks (p_raw r.2) ≡ₚ promoted ++ copied ++ tree_chunks (p_raw s)
    /\ r.1.1 = len promoted
    /\ Forall (fun x => min_ts <= sr_timestamp x <= max_ts) promoted
    /\ Forall (fun x => ~ min_ts <= sr_timestamp x <= max_ts) dropped
    /\ Forall (fun x => x ∈ p_staging r.2) copied /\ (isolated -> copied = [])
    /\ ((forall n, fate n = Works) -> copied = [] /\
        (r.1.2 = false -> Forall (fun x => cutoff_uuid <= sr_id x) (p_staging r.2))).
Proof.
  intros Hk Hf. unfold promote_spans. set (orgs := remove_dups _).
  destruct (promote_orgs_move orgs 0 false s Hk Hf) as (pr & dr & dup & [A B C _] & Ht & [Ho Hkept Hgar] & _ & Hi & Hw); [apply NoDup_remove_dups|].
  exists pr, dr, dup. split_and!; [done..| | |done|done|].
  - eapply Forall_impl; [exact Hkept|]. unfold is_garbage. intros x Hx. bool_split. lia.
  - eapply Forall_impl; [exact Hgar|]. unfold is_garbage. intros x Hx. bool_split; lia.
  - intros Hworks. destruct (Hw Hworks) as [-> Hrest]. split; [done|]. intros Htr. apply Forall_forall. intros x Hx.
    destruct (decide (cutoff_uuid <= sr_id x)); [done|]. apply Hrest; [done..|]. unfold orgs.
    apply elem_of_remove_dups, list_elem_of_fmap. exists x. split; [done|]. apply list_elem_of_filter. split; [lia|].
    rewrite A. rewrite !elem_of_app. by right; right.
Qed.
End promotion.

(** ** The directories promotion makes are the ones compaction understands *)

Lemma hours_parse : all_from (fun h => is_hour (digits 2 h) && (int_of_digits (digits 2 h) =? h)) 24 0 = true.
Proof. by_compute. Qed.

(** For every time until 9600 the date directory of promotion parses to the start
    of its day in compaction, and its hour directory to its hour: an hour is sealed by
    the clock of the spans in it. *)
Theorem chunk_dirs_roundtrip ts :
  0 <= ts < last_day * ONE_DAY ->
  exists day_start, parse_date (date_str ts) = Some day_start /\ is_hour (hour_str ts) = true
    /\ int_of_digits (hour_str ts) < 24
    /\ hour_start day_start (hour_str ts) <= ts < hour_start day_start (hour_str ts) + ONE_HOUR.
Proof.
  intros Hts. assert (0 < ONE_DAY /\ ONE_DAY = 24 * ONE_HOUR /\ 0 < ONE_HOUR) as (Hd & Hdh & Hh) by (by vm_compute).
  pose proof (Z.div_mod ts ONE_DAY ltac:(lia)) as E1. pose proof (Z.mod_pos_bound ts ONE_DAY Hd) as B1.
  set (day := ts / ONE_DAY) in *. set (rest := ts mod ONE_DAY) in *.
  pose proof (Z.div_mod rest ONE_HOUR ltac:(lia)) as E2. pose proof (Z.mod_pos_bound rest ONE_HOUR Hh) as B2.
  set (hr := rest / ONE_HOUR) in *.
  assert (0 <= day < last_day) as Bd by (split; [apply Z.div_pos|apply Z.div_lt_upper_bound; rewrite 1?Z.mul_comm]; lia).
  assert (0 <= hr < 24) as Bh by (split; [apply Z.div_pos|apply Z.div_lt_upper_bound]; lia).
  exists (day * ONE_DAY). unfold date_str, hour_str. fold day rest hr.
  pose proof (dates_parse day Bd) as Hp. pose proof (all_from_spec _ _ _ hr hours_parse ltac:(lia)) as Hq.
  apply andb_true_iff in Hq as [Hq1 Hq2%Z.eqb_eq]. unfold hour_start. rewrite Hq2. split_and!; [done|done|lia..].
Qed.

Lemma chunk_dirs_roundtrip_witness :
  hour_str (days_from_civil 2024 2 29 * ONE_DAY + 23 * ONE_HOUR + 5) = u "23"
  /\ exists day_start, parse_date (date_str (days_from_civil 2024 2 29 * ONE_DAY + 23 * ONE_HOUR + 5)) = Some day_start
     /\ day_start + 23 * ONE_HOUR <= days_from_civil 2024 2 29 * ONE_DAY + 23 * ONE_HOUR + 5.
Proof.
  split; [by_compute|].
  destruct (chunk_dirs_roundtrip (days_from_civil 2024 2 29 * ONE_DAY + 23 * ONE_HOUR + 5)) as (ds & E & _ & _ & H & _); [by_decide|].
  exists ds. split; [exact E|exact H].
Defined.

(** Rows of two hours, one of them too old; the second database call fails. *)
Definition staged (n ts : Z) : SpanRow :=
  {| sr_id := n; sr_organization_id := 7; sr_project_id := 1; sr_duration := 0; sr_timestamp := ts;
     sr_transaction_name := []; sr_span_id := []; sr_transaction_id := []; sr_op := []; sr_description := [] |}.
Definition sample_promo : Promo :=
  {| p_staging := [staged 1 (5 * ONE_HOUR); staged 2 (6 * ONE_HOUR); staged 3 0; staged 4 (5 * ONE_HOUR)];
     p_raw := ∅; p_calls := 0 |}.
Definition numbered (n : nat) : ustr := replicate n 49 ++ parquet.

Lemma promotion_conserves_spans_witness :
  exists promoted dropped,
    p_staging sample_promo ≡ₚ promoted ++ dropped
      ++ p_staging (promote_spans (fun n => match n with 3%nat | 4%nat => Fails | _ => Works end) numbered 100 ONE_HOUR ONE_DAY sample_promo).2
    /\ len promoted = 2.
Proof.
  destruct (promotion_conserves_spans (fun n => match n with 3%nat | 4%nat => Fails | _ => Works end) numbered 100 ONE_HOUR ONE_DAY)
    with (s := sample_promo) as (pr & dr & dup & H & _ & Ht & _).
  - intros a b Hab%app_inv_tail%(f_equal length). by rewrite !length_replicate in Hab.
  - unfold keyed. by_decide.
  - intros k _ org d h. unfold get_hour_dir, sample_promo. simpl. by rewrite lookup_empty.
  - exists pr, dr. split; [exact H|]. rewrite <- Ht. by_compute.
Defined.
