(* ===== verification/PartitionManager.v ===== *)
(** * Partitions by time

    [glitchtip/partition_manager.py]: UUIDv7 keys and their ranges, the SQL for a time
    partition with its hash children, the creation of missing partitions and the removal
    of old ones.  The PostgreSQL catalog is a map from range partitions to their
    children; random bits are arguments. *)
From S2P Require Import Prelude PyStr PyValue PyFloat PyDate.

(** ** UUIDv7 *)

(** [int(dt.timestamp() * 1000)], truncated towards zero. *)
Definition timestamp_ms (us : Z) : Z :=
  if us <? 0 then - (to_double (total_seconds (- us) * 1000) 1 / 2 ^ 80)
  else to_double (total_seconds us * 1000) 1 / 2 ^ 80.

(** The 128 bits: time, version 7, 12 random bits, variant 2, 62 random bits. *)
Definition uuid_int (ts rand_a rand_b : Z) : Z :=
  Z.lor (Z.lor (Z.lor (Z.lor (Z.shiftl ts 80) (Z.shiftl 7 76)) (Z.shiftl rand_a 64)) (Z.shiftl 2 62)) rand_b.

(** [UUID7Helper.from_datetime], [random_a] and [random_b] being the two and the eight
    bytes of [os.urandom]; [UUID(int=...)] refuses what is not a 128-bit number. *)
Definition from_datetime (us random_a random_b : Z) : res Z :=
  let u := uuid_int (timestamp_ms us) (Z.land random_a 4095) (Z.land random_b (2 ^ 62 - 1)) in
  if (0 <=? u) && (u <? 2 ^ 128) then Ok u else Raise ValueError.

(** [UUID.version], [None] when the variant is not that of RFC 4122. *)
Definition uuid_version (u : Z) : option Z :=
  if Z.testbit u 63 && negb (Z.testbit u 62) then Some (Z.land (Z.shiftr u 76) 15) else None.

(** [datetime.fromtimestamp(sec)] of a double in ticks, in microseconds. *)
Definition fromtimestamp (sec : Z) : Z :=
  let whole := sec / 2 ^ 80 in
  let frac := sec mod 2 ^ 80 in
  whole * 1000000 + round_even (to_double (frac * 1000000) 1) (2 ^ 80).

Definition extract_datetime (u : Z) : res Z :=
  if bool_decide (uuid_version u = Some 7) then Ok (fromtimestamp (to_double (Z.shiftr u 80 * 2 ^ 80) 1000))
  else Raise ValueError.

(** [_uuid7_for_timestamp] *)
Definition uuid7_for_timestamp (us : Z) (min_random : bool) : Z :=
  let ts := Z.max 0 (Z.min (timestamp_ms us) (Z.shiftl 1 48 - 1)) in
  if min_random then uuid_int ts 0 0 else uuid_int ts 4095 (2 ^ 62 - 1).

Definition get_range_for_date (start_date end_date : Z) : Z * Z :=
  (uuid7_for_timestamp start_date true, uuid7_for_timestamp end_date true).

(** ** Statements *)

Inductive KeyType := Uuid7 | Datetime.

Inductive Ddl :=
| CreateRange (name parent from to : ustr) (hash_column : option ustr)
| CreateHash (name parent : ustr) (modulus remainder : Z).

(** Lower-case hexadecimal with [w] digits. *)
Fixpoint hex (w : nat) (n : Z) : ustr :=
  match w with
  | O => []
  | S w => hex w (n / 16) ++ [let d := n mod 16 in if d <? 10 then 48 + d else 87 + d]
  end.

(** [str(uuid)] *)
Definition uuid_str (x : Z) : ustr :=
  hex 8 (Z.shiftr x 96) ++ u "-" ++ hex 4 (Z.shiftr x 80) ++ u "-" ++ hex 4 (Z.shiftr x 64)
  ++ u "-" ++ hex 4 (Z.shiftr x 48) ++ u "-" ++ hex 12 x.

(** [dt.isoformat()] in UTC. *)
Definition isoformat (us : Z) : ustr :=
  let '(y, m, d) := civil_from_days (us / ONE_DAY) in
  let rest := us mod ONE_DAY in
  let micro := rest mod 1000000 in
  digits 4 y ++ u "-" ++ digits 2 m ++ u "-" ++ digits 2 d ++ u "T" ++ digits 2 (rest / ONE_HOUR) ++ u ":"
  ++ digits 2 (rest / MINUTE mod 60) ++ u ":" ++ digits 2 (rest / 1000000 mod 60)
  ++ (if micro =? 0 then [] else u "." ++ digits 6 micro) ++ u "+00:00".

Definition quoted (s : ustr) : ustr := u "'" ++ s ++ u "'".

Definition child_name (partition_name : ustr) (i : Z) : ustr := partition_name ++ u "_h" ++ str_of_Z i.

Definition create_time_partition (parent_table partition_name : ustr) (start_date end_date hash_buckets : Z)
    (hash_column : ustr) (key_type : KeyType) : list Ddl :=
  let '(range_from, range_to) :=
    match key_type with
    | Uuid7 => let r := get_range_for_date start_date end_date in (quoted (uuid_str r.1), quoted (uuid_str r.2))
    | Datetime => (quoted (isoformat start_date), quoted (isoformat end_date))
    end in
  if 0 <? hash_buckets then
    CreateRange partition_name parent_table range_from range_to (Some hash_column)
    :: map (fun i => CreateHash (child_name partition_name (Z.of_nat i)) partition_name hash_buckets (Z.of_nat i))
         (seq 0 (Z.to_nat hash_buckets))
  else [CreateRange partition_name parent_table range_from range_to None].

Definition nl : ustr := [10].

(** The text of a statement. *)
Definition sql (d : Ddl) : ustr :=
  match d with
  | CreateRange name parent from to hash_column =>
      u "CREATE TABLE IF NOT EXISTS " ++ name ++ u " PARTITION OF " ++ parent ++ nl ++ u "FOR VALUES FROM (" ++ from
      ++ u ") TO (" ++ to ++ u ")"
      ++ match hash_column with Some c => nl ++ u "PARTITION BY HASH (" ++ c ++ u ");" | None => u ";" end
  | CreateHash name parent modulus remainder =>
      u "CREATE TABLE IF NOT EXISTS " ++ name ++ u " PARTITION OF " ++ parent ++ nl ++ u "FOR VALUES WITH (MODULUS "
      ++ str_of_Z modulus ++ u ", REMAINDER " ++ str_of_Z remainder ++ u ");"
  end.

Example sql_of_day :
  map sql (create_time_partition (u "t") (u "t_20250115") (days_from_civil 2025 1 15 * ONE_DAY)
             (days_from_civil 2025 1 16 * ONE_DAY) 1 (u "organization_id") Uuid7)
  = [u "CREATE TABLE IF NOT EXISTS t_20250115 PARTITION OF t" ++ nl
     ++ u "FOR VALUES FROM ('01946742-8400-7000-8000-000000000000') TO ('01946c68-e000-7000-8000-000000000000')" ++ nl
     ++ u "PARTITION BY HASH (organization_id);";
     u "CREATE TABLE IF NOT EXISTS t_20250115_h0 PARTITION OF t_20250115" ++ nl
     ++ u "FOR VALUES WITH (MODULUS 1, REMAINDER 0);"].
Proof. by_compute. Qed.

(** ** The catalog *)

(** A child of a range partition; [ch_hash] is the modulus and remainder its bounds
    show, [None] for a child that is not a hash partition. *)
Record Child := { ch_name : ustr; ch_hash : option (Z * Z) }.

(** The range partitions that exist, with their children. *)
Abbreviation catalog := (gmap ustr (list Child)).

(** Two hash partitions share keys. *)
Definition overlaps (m r m' r' : Z) : bool := (r - r') mod Z.gcd m m' =? 0.

(** PostgreSQL runs a statement. *)
Definition run_ddl (c : catalog) (d : Ddl) : res catalog :=
  match d with
  | CreateRange name _ _ _ _ => match c !! name with Some _ => Ok c | None => Ok (<[name := []]> c) end
  | CreateHash name parent m r =>
      match c !! parent with
      | None => Raise DataError
      | Some children =>
          if existsb (fun x => ustr_eqb (ch_name x) name) children then Ok c
          else if existsb (fun x => match ch_hash x with Some (m', r') => overlaps m r m' r' | None => true end) children
          then Raise DataError
          else Ok (<[parent := children ++ [{| ch_name := name; ch_hash := Some (m, r) |}]]> c)
      end
  end.

Fixpoint run_all (c : catalog) (ds : list Ddl) : res catalog :=
  match ds with
  | [] => Ok c
  | d :: rest => let* c := run_ddl c d in run_all c rest
  end.

(** [execute_partition_creation]: the number of executed statements comes second. *)
Definition execute_partition_creation (c : catalog) (parent_table partition_name : ustr) (start_date end_date hash_buckets : Z)
    (hash_column : ustr) (key_type : KeyType) : res (catalog * Z) :=
  let existing := c !! partition_name in
  let existing_children := match existing with Some l => if 0 <? hash_buckets then l else [] | None => [] end in
  let moduli := remove_dups (omap (fun x => fst <$> ch_hash x) existing_children) in
  let create :=
    let sqls := create_time_partition parent_table partition_name start_date end_date hash_buckets hash_column key_type in
    let to_execute :=
      match existing with
      | None => sqls
      | Some _ =>
          if 0 <? hash_buckets
          then map snd (filter (fun id : nat * Ddl => child_name partition_name (Z.of_nat id.1) ∉ map ch_name existing_children)
                 (imap pair (tail sqls)))
          else []
      end in
    match to_execute with
    | [] => Ok (c, 0)
    | _ => let* c := run_all c to_execute in Ok (c, len to_execute)
    end in
  match existing_children, moduli with
  | [], _ => create
  | _, [m] => if m =? hash_buckets then create else Ok (c, 0)
  | _, _ => Ok (c, 0)
  end.

(** ** A range of dates *)

(** The ranges of the [while] loop, with fuel. *)
Fixpoint date_ranges (fuel : nat) (current end_date interval : Z) : list (Z * Z) :=
  match fuel with
  | O => []
  | S fuel =>
      if current <? end_date then
        let next := if end_date <? current + interval then end_date else current + interval in
        (current, next) :: date_ranges fuel next end_date interval
      else []
  end.

(** Enough fuel for a positive interval. *)
Definition rounds (start_date end_date interval : Z) : nat := S (Z.to_nat ((end_date - start_date) / interval)).

(** The table of the range that starts at [t]. *)
Definition partition_name (parent_table : ustr) (t : Z) : ustr := parent_table ++ u "_" ++ date_name (t / ONE_DAY).

(** One pass over the ranges; what was created before an error stays. *)
Fixpoint create_ranges (c : catalog) (count : Z) (parent_table : ustr) (hash_buckets : Z) (hash_column : ustr)
    (key_type : KeyType) (ranges : list (Z * Z)) : catalog * res Z :=
  match ranges with
  | [] => (c, Ok count)
  | (current, next) :: rest =>
      match execute_partition_creation c parent_table (partition_name parent_table current) current next hash_buckets
              hash_column key_type with
      | Ok (c', executed) =>
          create_ranges c' (if executed =? 0 then count else count + 1) parent_table hash_buckets hash_column key_type rest
      | Raise e => (c, Raise e)
      end
  end.

(** [create_partitions_for_date_range] with the interval in microseconds. *)
Definition create_partitions_for_date_range (c : catalog) (parent_table : ustr) (start_date end_date interval hash_buckets : Z)
    (hash_column : ustr) (key_type : KeyType) : catalog * res Z :=
  create_ranges c 0 parent_table hash_buckets hash_column key_type
    (date_ranges (rounds start_date end_date interval) start_date end_date interval).

(** ** Old partitions *)

(** The date of a name that matches [.*_(\d{8})$]. *)
Definition date_suffix (name : ustr) : option ustr :=
  let d := drop (length name - 8) name in
  let rest := take (length name - 8) name in
  if (9 <=? len name) && forallb is_digit d && endswith (u "_") rest then Some d else None.

(** [partition_end < threshold_date], days compared; [date + timedelta] raises past
    9999-12-31, which the handler of [ValueError] does not catch. *)
Definition is_old (today max_days interval_days : Z) (name : ustr) : res bool :=
  match date_suffix name with
  | Some d =>
      match parse_date d with
      | Some start =>
          let partition_end := start / ONE_DAY + interval_days in
          if days_from_civil 9999 12 31 <? partition_end then Raise OverflowError
          else Ok (partition_end <? today - max_days)
      | None => Ok false
      end
  | None => Ok false
  end.

(** [drop_old_partitions]: DROP TABLE of each old partition of the listed ones. *)
Fixpoint drop_old_partitions (today max_days interval_days : Z) (partitions : list ustr) (dropped_count : Z) (c : catalog)
    : catalog * res Z :=
  match partitions with
  | [] => (c, Ok dropped_count)
  | name :: rest =>
      match is_old today max_days interval_days name with
      | Ok true => drop_old_partitions today max_days interval_days rest (dropped_count + 1) (delete name c)
      | Ok false => drop_old_partitions today max_days interval_days rest dropped_count c
      | Raise e => (c, Raise e)
      end
  end.

(** ** Milliseconds of a time *)

(** The times the bounds below cover: until 2106. *)
Definition time_ok (us : Z) : Prop := 0 <= us < 2 ^ 32 * 1000000.

(** The double of [dt.timestamp() * 1000] is within 0.001 ms of the time. *)
Lemma timestamp_ms_error us :
  time_ok us ->
  Z.abs (to_double (total_seconds us * 1000) 1 * 1000000 - us * 1000 * 2 ^ 80) <= 1000000 * (2 ^ 69 + 1000 * 2 ^ 58).
Proof.
  intros [H0 H1]. unfold total_seconds. pose proof (to_double_error (us * 2 ^ 80) 1000000 ltac:(lia)) as E1.
  assert (us * 2 ^ 80 < 1000000 * 2 ^ (111 + 1)) as Hb by (change (2 ^ (111 + 1)) with (2 ^ 32 * 2 ^ 80); lia).
  pose proof (spacing_le (us * 2 ^ 80) 1000000 111 ltac:(lia) ltac:(lia) ltac:(lia) Hb) as S1.
  change (2 ^ (111 - 52)) with (2 ^ 59) in S1.
  pose proof (to_double_nonneg (us * 2 ^ 80) 1000000 ltac:(lia) ltac:(lia)) as N1.
  set (sec := to_double (us * 2 ^ 80) 1000000) in *. set (s1 := spacing (us * 2 ^ 80) 1000000) in *.
  pose proof (to_double_error (sec * 1000) 1 ltac:(lia)) as E2.
  assert (sec * 1000 < 1 * 2 ^ (122 + 1)) as Hb2 by (change (2 ^ (122 + 1)) with (2 ^ 123); lia).
  pose proof (spacing_le (sec * 1000) 1 122 ltac:(lia) ltac:(lia) ltac:(lia) Hb2) as S2.
  change (2 ^ (122 - 52)) with (2 ^ 70) in S2.
  set (ms := to_double (sec * 1000) 1) in *. set (s2 := spacing (sec * 1000) 1) in *. lia.
Qed.

Lemma timestamp_ms_bounds us : time_ok us -> us / 1000 - 1 <= timestamp_ms us <= us / 1000
  /\ (us mod 1000 <> 0 -> timestamp_ms us = us / 1000).
Proof.
  intros Hok. pose proof (timestamp_ms_error us Hok) as He. destruct Hok as [H0 _]. unfold timestamp_ms.
  destruct (us <? 0) eqn:E; [lia|]. clear E. set (ms := to_double _ 1) in *.
  pose proof (Z.div_mod us 1000 ltac:(lia)) as Eu. pose proof (Z.mod_pos_bound us 1000 ltac:(lia)) as Bu.
  pose proof (Z.div_mod ms (2 ^ 80) ltac:(lia)) as Em. pose proof (Z.mod_pos_bound ms (2 ^ 80) ltac:(lia)) as Bm.
  set (q := us / 1000) in *. set (r := us mod 1000) in *. set (m := ms / 2 ^ 80) in *. set (f := ms mod 2 ^ 80) in *.
  split; [split|]; intros; lia.
Qed.

(** Whole seconds are exact. *)
Lemma timestamp_ms_seconds s : 0 <= s < 2 ^ 32 -> timestamp_ms (s * 1000000) = s * 1000.
Proof.
  intros Hs. unfold timestamp_ms, total_seconds. destruct (_ <? 0) eqn:E; [lia|]. clear E.
  assert (to_double (s * 1000000 * 2 ^ 80) 1000000 = s * 2 ^ 80) as ->.
  { pose proof (to_double_exact s 80 ltac:(lia) ltac:(lia)) as H. unfold to_double in *.
    assert (spacing (s * 1000000 * 2 ^ 80) 1000000 = spacing (s * 2 ^ 80) 1) as ->.
    { unfold spacing. do 3 f_equal. replace (s * 1000000 * 2 ^ 80) with (s * 2 ^ 80 * 1000000) by ring.
      by rewrite Z.div_mul, Z.div_1_r by lia. }
    pose proof (spacing_pos (s * 2 ^ 80) 1) as He. set (e := spacing (s * 2 ^ 80) 1) in *.
    set (x := round_even (s * 2 ^ 80) (1 * e)) in *. rewrite (round_even_near _ _ x); [done|lia|].
    replace (s * 1000000 * 2 ^ 80) with (1000000 * (x * e)) by (rewrite H; ring).
    replace (1000000 * (x * e) - x * (1000000 * e)) with 0 by ring. simpl. lia. }
  replace (s * 2 ^ 80 * 1000) with (s * 1000 * 2 ^ 80) by ring. rewrite to_double_exact by lia. by rewrite Z.div_mul.
Qed.

(** ** Bits of a UUID *)

Lemma lor_shiftl a b k : 0 <= k -> 0 <= b < 2 ^ k -> Z.lor (Z.shiftl a k) b = a * 2 ^ k + b.
Proof.
  intros Hk Hb. rewrite Z.shiftl_mul_pow2 by done.
  assert (Z.land (a * 2 ^ k) b = 0) as Hl.
  { apply Z.bits_inj'. intros i Hi. rewrite Z.land_spec, Z.bits_0. destruct (decide (i < k)).
    - by rewrite Z.mul_pow2_bits_low.
    - replace b with (b mod 2 ^ k) by (by apply Z.mod_small). rewrite Z.mod_pow2_bits_high by lia. apply andb_false_r. }
  rewrite <- Z.lxor_lor by done. symmetry. by apply Z.add_nocarry_lxor.
Qed.

Lemma uuid_int_sum ts a b :
  0 <= a < 2 ^ 12 -> 0 <= b < 2 ^ 62 ->
  uuid_int ts a b = ts * 2 ^ 80 + 7 * 2 ^ 76 + a * 2 ^ 64 + 2 * 2 ^ 62 + b.
Proof.
  intros Ha Hb. unfold uuid_int. rewrite <- !Z.lor_assoc.
  assert (Z.lor (Z.shiftl 2 62) b = 2 * 2 ^ 62 + b) as -> by (by apply lor_shiftl).
  rewrite (lor_shiftl a (2 * 2 ^ 62 + b) 64) by lia. rewrite (lor_shiftl 7 _ 76) by lia. rewrite (lor_shiftl ts _ 80) by lia. lia.
Qed.

Lemma land_bound x k : 0 <= k -> 0 <= Z.land x (2 ^ k - 1) < 2 ^ k.
Proof.
  intros Hk. replace (2 ^ k - 1) with (Z.ones k) by (rewrite Z.ones_equiv; lia).
  rewrite Z.land_ones by done. apply Z.mod_pos_bound. lia. Qed.

Lemma from_datetime_ok us ra rb :
  time_ok us ->
  from_datetime us ra rb
  = Ok (timestamp_ms us * 2 ^ 80 + 7 * 2 ^ 76 + Z.land ra 4095 * 2 ^ 64 + 2 * 2 ^ 62 + Z.land rb (2 ^ 62 - 1))
  /\ 0 <= timestamp_ms us < 2 ^ 42.
Proof.
  intros Hok. destruct (timestamp_ms_bounds us Hok) as [Hms _].
  assert (0 <= timestamp_ms us) as Hpos.
  { unfold timestamp_ms. destruct (us <? 0) eqn:E; [unfold time_ok in Hok; lia|]. apply Z.div_pos; [|lia].
    unfold total_seconds. apply to_double_nonneg; [|lia]. apply Z.mul_nonneg_nonneg; [|lia].
    apply to_double_nonneg; unfold time_ok in Hok; lia. }
  assert (timestamp_ms us < 2 ^ 42) as Hlt.
  { assert (us / 1000 < 2 ^ 32 * 1000) by (apply Z.div_lt_upper_bound; unfold time_ok in Hok; lia). lia. }
  pose proof (land_bound ra 12 ltac:(lia)) as Ha. change (2 ^ 12 - 1) with 4095 in Ha.
  pose proof (land_bound rb 62 ltac:(lia)) as Hb. split; [|done]. unfold from_datetime.
  rewrite uuid_int_sum by done. set (x := _ + Z.land rb _). 
  assert (0 <= x < 2 ^ 128) as Hx by (subst x; change (2 ^ 128) with (2 ^ 48 * 2 ^ 80); lia).
  destruct ((0 <=? x) && (x <? 2 ^ 128)) eqn:E; [done|]. apply andb_false_iff in E as [E|E]; lia.
Qed.

Lemma range_bound s : 0 <= s < 2 ^ 32 -> uuid7_for_timestamp (s * 1000000) true = s * 1000 * 2 ^ 80 + 7 * 2 ^ 76 + 2 * 2 ^ 62.
Proof.
  intros Hs. unfold uuid7_for_timestamp. rewrite timestamp_ms_seconds by done.
  change (Z.shiftl 1 48 - 1) with (2 ^ 48 - 1). rewrite Z.min_l, Z.max_r by lia. rewrite uuid_int_sum by lia. lia.
Qed.

(** A key is above a bound exactly when its time is. *)
Lemma key_above_bound us ra rb s x :
  time_ok us -> 0 <= s < 2 ^ 32 -> from_datetime us ra rb = Ok x ->
  uuid7_for_timestamp (s * 1000000) true <= x <-> s * 1000000 <= us.
Proof.
  intros Hok Hs Hx. destruct (from_datetime_ok us ra rb Hok) as [E _]. rewrite E in Hx. injection Hx as <-.
  rewrite range_bound by done. destruct (timestamp_ms_bounds us Hok) as [Hms Hex].
  pose proof (land_bound ra 12 ltac:(lia)) as Ha. change (2 ^ 12 - 1) with 4095 in Ha.
  pose proof (land_bound rb 62 ltac:(lia)) as Hb.
  pose proof (Z.div_mod us 1000 ltac:(lia)) as Eu. pose proof (Z.mod_pos_bound us 1000 ltac:(lia)) as Bu.
  assert (s * 1000 <= timestamp_ms us <-> s * 1000000 <= us) as <-.
  { split; intros H; [lia|]. destruct (decide (us = s * 1000000)) as [->|Hne]; [rewrite timestamp_ms_seconds by done; lia|].
    destruct (decide (us mod 1000 = 0)); [lia|]. rewrite Hex by done. lia. }
  lia.
Qed.

(** ** Ranges of dates *)

Definition contains_time (t : Z) (r : Z * Z) : Prop := r.1 <= t < r.2.
#[export] Instance contains_time_dec t r : Decision (contains_time t r).
Proof. unfold contains_time. apply _. Defined.

Lemma date_ranges_bounds fuel cur end_date interval r :
  0 < interval -> r ∈ date_ranges fuel cur end_date interval -> cur <= r.1 /\ r.1 < r.2 /\ r.2 <= end_date.
Proof.
  intros Hi. revert cur. induction fuel as [|fuel IH]; intros cur; simpl; [by intros ?%elem_of_nil|].
  destruct (cur <? end_date) eqn:E; [|by intros ?%elem_of_nil].
  destruct (end_date <? cur + interval) eqn:E2; intros [->|Hr]%elem_of_cons; simpl; try lia; apply IH in Hr; lia.
Qed.

(** Every time of the range is in exactly one of the ranges. *)
Lemma date_ranges_tile fuel cur end_date interval t :
  0 < interval -> (end_date - cur) / interval < Z.of_nat fuel -> cur <= t < end_date ->
  length (filter (contains_time t) (date_ranges fuel cur end_date interval)) = 1%nat.
Proof.
  intros Hi. revert cur. induction fuel as [|fuel IH]; intros cur Hf Ht.
  { pose proof (Z.div_pos (end_date - cur) interval). lia. }
  cbn [date_ranges]. destruct (cur <? end_date) eqn:E; [|lia]. set (next := if end_date <? cur + interval then end_date else cur + interval).
  assert (next = Z.min end_date (cur + interval)) as Hnext by (subst next; destruct (end_date <? cur + interval) eqn:?; lia).
  rewrite filter_cons. unfold contains_time at 1. cbn [fst snd].
  destruct (decide (cur <= t < next)) as [Hin|Hout].
  - simpl. f_equal. rewrite filter_none; [done|]. apply Forall_forall. intros r Hr [? ?].
    destruct (date_ranges_bounds _ _ _ _ _ Hi Hr). lia.
  - apply IH; [|lia]. assert (next = cur + interval) as -> by lia.
    replace (end_date - (cur + interval)) with ((end_date - cur) + (-1) * interval) by ring. rewrite Z.div_add by lia. lia.
Qed.

Lemma date_ranges_seconds fuel cur end_date interval r :
  (1000000 | cur) -> (1000000 | end_date) -> (1000000 | interval) ->
  r ∈ date_ranges fuel cur end_date interval -> (1000000 | r.1) /\ (1000000 | r.2).
Proof.
  intros Hc He Hi. revert cur Hc. induction fuel as [|fuel IH]; intros cur Hc; simpl; [by intros ?%elem_of_nil|].
  destruct (cur <? end_date); [|by intros ?%elem_of_nil].
  assert ((1000000 | if end_date <? cur + interval then end_date else cur + interval)) as Hn
    by (destruct (_ <? _); [done|by apply Z.divide_add_r]).
  intros [->|Hr]%elem_of_cons; [by split|by apply (IH _ Hn)].
Qed.

(** ** Properties *)

(** C40: The partitions created for a range of dates take every key generated in it: the
    UUIDv7 of a time of the range, whatever its random bits, lies between the bounds of
    exactly one of them (times in whole seconds at the bounds, until 2106). *)
Theorem uuid7_in_one_partition start_date end_date interval us random_a random_b :
  0 < interval -> 0 <= start_date -> end_date < 2 ^ 32 * 1000000 ->
  (1000000 | start_date) -> (1000000 | end_date) -> (1000000 | interval) ->
  start_date <= us < end_date ->
  exists key, from_datetime us random_a random_b = Ok key
    /\ length (filter (fun r => let bounds := get_range_for_date r.1 r.2 in bounds.1 <= key < bounds.2)
                (date_ranges (rounds start_date end_date interval) start_date end_date interval)) = 1%nat.
Proof.
  intros Hi Hs0 He Ds De Di Ht. assert (time_ok us) as Hok by (unfold time_ok; lia).
  destruct (from_datetime_ok us random_a random_b Hok) as [Hkey _]. eexists. split; [exact Hkey|].
  rewrite <- (date_ranges_tile (rounds start_date end_date interval) start_date end_date interval us Hi); [|unfold rounds|done].
  2:{ pose proof (Z.div_pos (end_date - start_date) interval). lia. }
  f_equal. apply list_filter_iff_elem. intros [a b] Hr. unfold get_range_for_date, contains_time. cbn [fst snd].
  destruct (date_ranges_bounds _ _ _ _ _ Hi Hr) as (? & ? & ?). cbn [fst snd] in *.
  destruct (date_ranges_seconds _ _ _ _ _ Ds De Di Hr) as [[x Ex] [y Ey]]. cbn [fst snd] in Ex, Ey. subst a b.
  rewrite (key_above_bound us random_a random_b x _ Hok) by (done || lia).
  rewrite Z.lt_nge, (key_above_bound us random_a random_b y _ Hok) by (done || lia). lia.
Qed.

(** ** Reading the time back *)

(** A double within 2^58 ticks of a whole number of milliseconds reads as that number. *)
Lemma fromtimestamp_ms sec ts :
  0 <= sec -> Z.abs (sec * 1000 - ts * 2 ^ 80) <= 1000 * 2 ^ 58 -> fromtimestamp sec = ts * 1000.
Proof.
  intros H0 He. unfold fromtimestamp. pose proof (Z.div_mod sec (2 ^ 80) ltac:(lia)) as Ed.
  pose proof (Z.mod_pos_bound sec (2 ^ 80) ltac:(lia)) as Bd. set (q := sec / 2 ^ 80) in *. set (fr := sec mod 2 ^ 80) in *.
  pose proof (to_double_error (fr * 1000000) 1 ltac:(lia)) as E1.
  assert (fr * 1000000 < 1 * 2 ^ (99 + 1)) as Hb by (change (2 ^ (99 + 1)) with (2 ^ 20 * 2 ^ 80); lia).
  pose proof (spacing_le (fr * 1000000) 1 99 ltac:(lia) ltac:(lia) ltac:(lia) Hb) as S1. change (2 ^ (99 - 52)) with (2 ^ 47) in S1.
  set (x := to_double (fr * 1000000) 1) in *. set (s1 := spacing (fr * 1000000) 1) in *.
  rewrite (round_even_near x (2 ^ 80) (ts * 1000 - q * 1000000)); lia.
Qed.

(** Whatever the random bits, the time is the number of milliseconds in the key. *)
Lemma extract_key us random_a random_b key :
  time_ok us -> from_datetime us random_a random_b = Ok key -> extract_datetime key = Ok (timestamp_ms us * 1000).
Proof.
  intros Hok Hfrom. destruct (from_datetime_ok us random_a random_b Hok) as [Hkey Hms].
  assert (key = timestamp_ms us * 2 ^ 80 + 7 * 2 ^ 76 + Z.land random_a 4095 * 2 ^ 64 + 2 * 2 ^ 62 + Z.land random_b (2 ^ 62 - 1)) as Ekey
    by congruence.
  pose proof (land_bound random_a 12 ltac:(lia)) as Ha. change (2 ^ 12 - 1) with 4095 in Ha.
  pose proof (land_bound random_b 62 ltac:(lia)) as Hb.
  set (ts := timestamp_ms us) in *. set (a := Z.land random_a 4095) in *. set (b := Z.land random_b (2 ^ 62 - 1)) in *.
  assert (Z.shiftr key 80 = ts) as Hts.
  { rewrite Z.shiftr_div_pow2 by lia. symmetry. apply (Z.div_unique _ _ _ (7 * 2 ^ 76 + a * 2 ^ 64 + 2 * 2 ^ 62 + b)); lia. }
  assert (uuid_version key = Some 7) as Hv.
  { unfold uuid_version.
    assert (key / 2 ^ 63 = (ts * 2 ^ 17 + 7 * 2 ^ 13 + a * 2) + 1) as E63 by (symmetry; apply (Z.div_unique _ _ _ b); lia).
    assert (key / 2 ^ 62 = 2 * (ts * 2 ^ 17 + 7 * 2 ^ 13 + a * 2 + 1)) as E62 by (symmetry; apply (Z.div_unique _ _ _ b); lia).
    assert (Z.testbit key 63 = true) as ->.
    { apply Z.testbit_true; [lia|]. rewrite E63. symmetry. apply (Z.mod_unique _ _ (ts * 2 ^ 16 + 7 * 2 ^ 12 + a)); lia. }
    assert (Z.testbit key 62 = false) as ->.
    { apply Z.testbit_false; [lia|]. rewrite E62. symmetry. apply (Z.mod_unique _ _ (ts * 2 ^ 17 + 7 * 2 ^ 13 + a * 2 + 1)); lia. }
    simpl. f_equal. rewrite Z.shiftr_div_pow2 by lia. change 15 with (Z.ones 4). rewrite Z.land_ones by lia.
    assert (key / 2 ^ 76 = ts * 16 + 7) as -> by (symmetry; apply (Z.div_unique _ _ _ (a * 2 ^ 64 + 2 * 2 ^ 62 + b)); lia).
    symmetry. apply (Z.mod_unique _ _ ts); lia. }
  unfold extract_datetime. rewrite bool_decide_true, Hts by done.
  f_equal. pose proof (to_double_error (ts * 2 ^ 80) 1000 ltac:(lia)) as E1.
  assert (ts * 2 ^ 80 < 1000 * 2 ^ (111 + 1)) as Hlt.
  { change (2 ^ (111 + 1)) with (2 ^ 32 * 2 ^ 80). destruct (timestamp_ms_bounds us Hok) as [[_ Hle] _]. fold ts in Hle.
    assert (us / 1000 < 2 ^ 32 * 1000) by (apply Z.div_lt_upper_bound; unfold time_ok in Hok; lia). lia. }
  pose proof (spacing_le (ts * 2 ^ 80) 1000 111 ltac:(lia) ltac:(lia) ltac:(lia) Hlt) as S1. change (2 ^ (111 - 52)) with (2 ^ 59) in S1.
  apply fromtimestamp_ms; [apply to_double_nonneg; lia|]. set (s1 := spacing _ _) in *. lia.
Qed.

(** The time read back from a key is the time it was made for, in whole
    milliseconds, at most one millisecond earlier; its random bits do not matter. *)
Theorem extract_datetime_roundtrip us random_a random_b :
  time_ok us ->
  exists key, from_datetime us random_a random_b = Ok key
    /\ extract_datetime key = Ok (timestamp_ms us * 1000)
    /\ us - 2000 < timestamp_ms us * 1000 <= us.
Proof.
  intros Hok. destruct (from_datetime_ok us random_a random_b Hok) as [Hkey _]. eexists. split; [exact Hkey|].
  split; [by eapply extract_key|]. destruct (timestamp_ms_bounds us Hok) as [[H1 H2] _].
  pose proof (Z.div_mod us 1000 ltac:(lia)). pose proof (Z.mod_pos_bound us 1000 ltac:(lia)). lia.
Qed.

(** ** Creating what is missing *)

(** The children of a range partition are some of its [n] hash partitions. *)
Definition partial (n : Z) (name : ustr) (children : list Child) : Prop :=
  NoDup (map ch_name children)
  /\ Forall (fun x => exists i, 0 <= i < n /\ x = {| ch_name := child_name name i; ch_hash := Some (n, i) |}) children.

(** All of them. *)
Definition complete (n : Z) (name : ustr) (children : list Child) : Prop :=
  partial n name children /\ forall i, 0 <= i < n -> child_name name i ∈ map ch_name children.

Lemma child_name_inj name i j : 0 <= i -> 0 <= j -> child_name name i = child_name name j -> i = j.
Proof. unfold child_name. intros Hi Hj H%app_inv_head%app_inv_head. by apply str_of_Z_inj. Qed.

Definition hash_child (n : Z) (name : ustr) (i : nat) : Child :=
  {| ch_name := child_name name (Z.of_nat i); ch_hash := Some (n, Z.of_nat i) |}.
Definition hash_ddl (n : Z) (name : ustr) (i : nat) : Ddl := CreateHash (child_name name (Z.of_nat i)) name n (Z.of_nat i).

(** Hash partitions that are missing can be created in any order. *)
Lemma run_hash_children n name idx c cs :
  0 < n -> c !! name = Some cs -> partial n name cs -> NoDup idx ->
  Forall (fun i => Z.of_nat i < n /\ child_name name (Z.of_nat i) ∉ map ch_name cs) idx ->
  run_all c (map (hash_ddl n name) idx) = Ok (<[name := cs ++ map (hash_child n name) idx]> c)
  /\ partial n name (cs ++ map (hash_child n name) idx).
Proof.
  intros Hn. revert c cs. induction idx as [|i idx IH]; intros c cs Hc Hp Hnd Hall; simpl.
  { rewrite app_nil_r, insert_id by done. done. }
  apply NoDup_cons in Hnd as [Hi Hnd]. apply Forall_cons in Hall as [[Hin Hnew] Hall]. rewrite Hc. destruct Hp as [Hnames Hshape].
  assert (existsb (fun x => ustr_eqb (ch_name x) (child_name name (Z.of_nat i))) cs = false) as ->.
  { apply not_true_is_false. intros (x & Hx & Hb%ustr_eqb_eq)%existsb_exists. apply Hnew.
    rewrite <- Hb. apply list_elem_of_fmap. exists x. split; [done|by apply list_elem_of_In]. }
  assert (existsb (fun x => match ch_hash x with Some (m', r') => overlaps n (Z.of_nat i) m' r' | None => true end) cs = false) as ->.
  { apply not_true_is_false. intros (x & Hx & Hb)%existsb_exists. apply list_elem_of_In in Hx.
    rewrite Forall_forall in Hshape. destruct (Hshape x Hx) as (j & Hj & ->). simpl in Hb. unfold overlaps in Hb.
    rewrite Z.gcd_diag, Z.abs_eq in Hb by lia. apply Z.eqb_eq, Z.mod_divide in Hb as [q Hq]; [|lia].
    assert (q = 0) as -> by nia. assert (Z.of_nat i = j) as Eij by lia.
    apply Hnew. rewrite Eij. apply list_elem_of_fmap. eexists. split; [|exact Hx]. done. }
  simpl. set (x := hash_child n name i). change {| ch_name := child_name name (Z.of_nat i); ch_hash := Some (n, Z.of_nat i) |} with x.
  assert (partial n name (cs ++ [x])) as Hp'.
  { split.
    - rewrite map_app. apply NoDup_app. split_and!; [done| |apply NoDup_singleton].
      intros y Hy ->%list_elem_of_singleton. done.
    - apply Forall_app. split; [done|]. constructor; [|done]. exists (Z.of_nat i). split; [lia|done]. }
  destruct (IH (<[name := cs ++ [x]]> c) (cs ++ [x])) as [E Hfin]; [by rewrite lookup_insert_eq|done|done| |].
  { rewrite Forall_forall in Hall |- *. intros j Hj. destruct (Hall j Hj) as [? Hjn]. split; [done|].
    rewrite map_app. intros [?|Hj2%list_elem_of_singleton]%elem_of_app; [done|]. apply child_name_inj in Hj2; [|lia..].
    apply Nat2Z.inj in Hj2. by subst. }
  rewrite E, insert_insert_eq, <- app_assoc. rewrite <- app_assoc in Hfin. done.
Qed.

Lemma imap_pair_seq {A} (f : nat -> A) n : imap pair (map f (seq 0 n)) = map (fun i => (i, f i)) (seq 0 n).
Proof.
  apply list_eq. intros i. rewrite list_lookup_imap, !list_lookup_fmap.
  destruct (seq 0 n !! i) as [j|] eqn:E; [|done]. simpl. apply lookup_seq in E as [-> _]. done.
Qed.

(** The statements for the missing children. *)
Lemma missing_ddls n name (cs : list Child) k :
  map snd (filter (fun id : nat * Ddl => child_name name (Z.of_nat id.1) ∉ map ch_name cs) (imap pair (map (hash_ddl n name) (seq 0 k))))
  = map (hash_ddl n name) (filter (fun i => child_name name (Z.of_nat i) ∉ map ch_name cs) (seq 0 k)).
Proof.
  rewrite imap_pair_seq. induction (seq 0 k) as [|i l IH]; [done|]. cbn [map]. rewrite !filter_cons. cbn [fst].
  destruct (decide (child_name name (Z.of_nat i) ∉ map ch_name cs)); cbn [map snd]; by rewrite IH.
Qed.

Lemma remove_dups_same (n : Z) l : Forall (fun m => m = n) l -> remove_dups (n :: l) = [n].
Proof.
  induction l as [|m l IH]; intros Hl; [done|]. apply Forall_cons in Hl as [-> Hl].
  change (remove_dups (n :: n :: l)) with (if decide_rel (∈) n (n :: l) then remove_dups (n :: l) else n :: remove_dups (n :: l)).
  destruct (decide_rel _ _ _) as [_|Hno]; [by apply IH|]. destruct Hno. by left.
Qed.

Lemma partial_moduli n name cs :
  partial n name cs -> cs <> [] -> remove_dups (omap (fun x => fst <$> ch_hash x) cs) = [n].
Proof.
  intros [_ Hall] Hne. destruct cs as [|x cs]; [done|]. apply Forall_cons in Hall as [(i & _ & ->) Hall]. clear Hne.
  assert (Forall (fun m => m = n) (omap (fun x => fst <$> ch_hash x) cs)) as Hl.
  { apply Forall_forall. intros m (y & Hy & Hm)%list_elem_of_omap. rewrite Forall_forall in Hall.
    destruct (Hall y Hy) as (j & _ & ->). by injection Hm. }
  exact (remove_dups_same n _ Hl).
Qed.

Lemma complete_after n name cs :
  0 < n -> partial n name (cs ++ map (hash_child n name)
    (filter (fun i => child_name name (Z.of_nat i) ∉ map ch_name cs) (seq 0 (Z.to_nat n)))) ->
  complete n name (cs ++ map (hash_child n name)
    (filter (fun i => child_name name (Z.of_nat i) ∉ map ch_name cs) (seq 0 (Z.to_nat n)))).
Proof.
  intros Hn Hp. split; [done|]. intros i Hi. rewrite map_app. apply elem_of_app.
  destruct (decide (child_name name i ∈ map ch_name cs)); [by left|right].
  rewrite map_map. apply list_elem_of_fmap. exists (Z.to_nat i). simpl. rewrite Z2Nat.id by lia. split; [done|].
  apply list_elem_of_filter. rewrite Z2Nat.id by lia. split; [done|]. apply elem_of_seq. lia.
Qed.

Section creation.
Context (parent_table name : ustr) (start_date end_date n : Z) (hash_column : ustr) (key_type : KeyType).
Hypothesis Hn : 0 < n.

Lemma create_time_partition_shape :
  exists d, create_time_partition parent_table name start_date end_date n hash_column key_type
            = d :: map (hash_ddl n name) (seq 0 (Z.to_nat n))
    /\ forall c, run_ddl c d = match c !! name with Some _ => Ok c | None => Ok (<[name := []]> c) end.
Proof.
  unfold create_time_partition. assert (0 <? n = true) as -> by lia. by destruct key_type; eexists.
Qed.

(** With the range partition there and some of its children. *)
Lemma execute_existing c cs :
  c !! name = Some cs -> partial n name cs ->
  let missing := filter (fun i => child_name name (Z.of_nat i) ∉ map ch_name cs) (seq 0 (Z.to_nat n)) in
  execute_partition_creation c parent_table name start_date end_date n hash_column key_type
  = Ok (<[name := cs ++ map (hash_child n name) missing]> c, len missing)
  /\ partial n name (cs ++ map (hash_child n name) missing).
Proof.
  intros Hc Hp missing. destruct (run_hash_children n name missing c cs Hn Hc Hp) as [Erun Hfin].
  { apply NoDup_filter, NoDup_seq. }
  { apply Forall_forall. intros i [Hi Hs]%list_elem_of_filter. apply elem_of_seq in Hs. split; [lia|done]. }
  split; [|done]. unfold execute_partition_creation. rewrite Hc. assert (0 <? n = true) as -> by lia.
  destruct create_time_partition_shape as (d & -> & _). cbn [tail]. rewrite missing_ddls. fold missing.
  assert (match map (hash_ddl n name) missing with
          | [] => Ok (c, 0)
          | _ => let* c0 := run_all c (map (hash_ddl n name) missing) in Ok (c0, len (map (hash_ddl n name) missing))
          end = Ok (<[name := cs ++ map (hash_child n name) missing]> c, len missing)) as ->.
  { rewrite Erun. unfold len. rewrite length_map. destruct missing; [|done]. simpl. by rewrite app_nil_r, insert_id. }
  destruct cs as [|x cs]; [done|]. rewrite (partial_moduli n name (x :: cs)) by done. by rewrite Z.eqb_refl.
Qed.

(** Creating a partition that is missing, or has some of its hash children. *)
Lemma execute_completes c :
  (c !! name = None \/ exists cs, c !! name = Some cs /\ partial n name cs) ->
  exists c' k cs', execute_partition_creation c parent_table name start_date end_date n hash_column key_type = Ok (c', k)
    /\ c' !! name = Some cs' /\ complete n name cs' /\ (forall other, other <> name -> c' !! other = c !! other).
Proof.
  intros [Hnone|(cs & Hsome & Hp)].
  - destruct (run_hash_children n name (seq 0 (Z.to_nat n)) (<[name := []]> c) []) as [Erun Hfin];
      [done|by rewrite lookup_insert_eq|by split; [apply NoDup_nil_2|]|apply NoDup_seq| |].
    { apply Forall_forall. intros i Hi%elem_of_seq. split; [lia|by intros ?%elem_of_nil]. }
    unfold execute_partition_creation. rewrite Hnone. destruct create_time_partition_shape as (d & -> & Hd).
    cbn [run_all]. rewrite Hd, Hnone. cbn [res_bind]. rewrite Erun. cbn [res_bind]. eexists _, _, _. split; [done|].
    rewrite lookup_insert_eq. split; [done|]. split.
    + pose proof (complete_after n name [] Hn) as Hca. rewrite (filter_all _ (seq 0 _)) in Hca; [by apply Hca|].
      apply Forall_true. intros i. by intros ?%elem_of_nil.
    + intros other Ho. by rewrite !lookup_insert_ne.
  - destruct (execute_existing c cs Hsome Hp) as [E Hfin]. eexists _, _, _. split; [exact E|].
    rewrite lookup_insert_eq. split; [done|]. split; [by apply complete_after|]. intros other Ho. by rewrite lookup_insert_ne.
Qed.

(** Nothing is executed for one that is complete. *)
Lemma execute_noop c cs :
  c !! name = Some cs -> complete n name cs ->
  execute_partition_creation c parent_table name start_date end_date n hash_column key_type = Ok (c, 0).
Proof.
  intros Hc Hcomp. destruct (execute_existing c cs Hc (proj1 Hcomp)) as [-> _]. rewrite (filter_none _ (seq 0 _)).
  - simpl. by rewrite app_nil_r, insert_id.
  - apply Forall_forall. intros i Hi%elem_of_seq Hno. apply Hno, Hcomp. lia.
Qed.
End creation.


(** ** Names *)

Lemma date_name_inj a b : 0 <= a < last_day -> 0 <= b < last_day -> date_name a = date_name b -> a = b.
Proof.
  intros Ha%dates_parse Hb%dates_parse E. rewrite E, Hb in Ha. injection Ha as Ha. unfold ONE_DAY, ONE_HOUR, MINUTE in Ha. lia.
Qed.

(** The suffix of a table of the program is its date. *)
Lemma date_suffix_partition parent t : date_suffix (partition_name parent t) = Some (date_name (t / ONE_DAY)).
Proof.
  destruct (date_name_digits (t / ONE_DAY)) as [Hlen Hdig].
  unfold date_suffix, partition_name. rewrite app_assoc. set (d := date_name (t / ONE_DAY)) in *.
  set (p := parent ++ u "_"). assert (length (p ++ d) - 8 = length p)%nat as E by (rewrite length_app; lia).
  rewrite E, drop_app_length, take_app_length, Hdig.
  assert (9 <=? len (p ++ d) = true) as ->.
  { subst p. unfold len. rewrite !length_app. change (length (u "_")) with 1%nat. lia. }
  subst p. unfold endswith. by rewrite rev_app_distr.
Qed.

Lemma is_old_partition parent t today max_days interval_days :
  0 <= t / ONE_DAY < last_day -> interval_days <= 365 ->
  is_old today max_days interval_days (partition_name parent t) = Ok (t / ONE_DAY + interval_days <? today - max_days).
Proof.
  intros Ht Hi. unfold is_old. rewrite date_suffix_partition, (dates_parse _ Ht).
  rewrite Z.div_mul by done. change (days_from_civil 9999 12 31) with 2932896. unfold last_day in *.
  destruct (2932896 <? _) eqn:E; [lia|done].
Qed.

(** ** The maintenance run *)

Definition old_enough (today max_days interval_days : Z) (name : ustr) : bool :=
  match is_old today max_days interval_days name with Ok b => b | Raise _ => false end.

(** As long as no date is out of range, the loop deletes the old names. *)
Lemma drop_old_partitions_loop today max_days interval_days partitions k c :
  (forall name, name ∈ partitions -> exists b, is_old today max_days interval_days name = Ok b) ->
  let '(c', r) := drop_old_partitions today max_days interval_days partitions k c in
  r = Ok (k + len (filter (fun n => old_enough today max_days interval_days n = true) partitions))
  /\ forall name, c' !! name = if bool_decide (name ∈ partitions) && old_enough today max_days interval_days name then None else c !! name.
Proof.
  revert k c. induction partitions as [|x l IH]; intros k c Hall; cbn [drop_old_partitions].
  { split; [f_equal; unfold len; simpl; lia|]. intros name. by rewrite bool_decide_false by apply not_elem_of_nil. }
  destruct (Hall x ltac:(left)) as [b Eb]. rewrite Eb.
  assert (forall name, name ∈ l -> exists b, is_old today max_days interval_days name = Ok b) as Hl by (intros; apply Hall; by right).
  assert (old_enough today max_days interval_days x = b) as Ho by (unfold old_enough; by rewrite Eb).
  rewrite filter_cons, Ho. destruct b.
  - specialize (IH (k + 1) (delete x c) Hl). destruct (drop_old_partitions _ _ _ l _ _) as [c' r]. destruct IH as [-> Hc].
    split; [f_equal; unfold len; simpl; lia|]. intros name. rewrite Hc. destruct (decide (name = x)) as [->|Hne].
    + rewrite lookup_delete_eq, Ho, (bool_decide_true (x ∈ x :: l)) by left. by destruct (_ && _).
    + rewrite lookup_delete_ne by done. assert (name ∈ x :: l <-> name ∈ l) as Hin by (rewrite elem_of_cons; tauto).
      by rewrite (bool_decide_ext _ _ Hin).
  - specialize (IH k c Hl). destruct (drop_old_partitions _ _ _ l _ _) as [c' r]. destruct IH as [-> Hc].
    split; [done|]. intros name. rewrite Hc. destruct (decide (name = x)) as [->|Hne].
    + by rewrite Ho, !andb_false_r.
    + assert (name ∈ x :: l <-> name ∈ l) as Hin by (rewrite elem_of_cons; tauto).
      by rewrite (bool_decide_ext _ _ Hin).
Qed.

(** Of the listed partitions, those whose whole range is older than the limit are
    dropped and the others stay, as does every table without a date in its name (dates
    until 9600, interval at most a year). *)
Theorem drop_old_partitions_spec today max_days interval_days partitions c :
  interval_days <= 365 ->
  (forall name, name ∈ partitions -> date_suffix name = None
     \/ exists parent t, name = partition_name parent t /\ 0 <= t / ONE_DAY < last_day) ->
  exists c' k, drop_old_partitions today max_days interval_days partitions 0 c = (c', Ok k)
    /\ (forall parent t, 0 <= t / ONE_DAY < last_day -> let name := partition_name parent t in
          (name ∈ partitions -> t / ONE_DAY + interval_days < today - max_days -> c' !! name = None)
          /\ (name ∉ partitions \/ today - max_days <= t / ONE_DAY + interval_days -> c' !! name = c !! name))
    /\ (forall name, date_suffix name = None -> c' !! name = c !! name).
Proof.
  intros Hi Hnames. pose proof (drop_old_partitions_loop today max_days interval_days partitions 0 c) as H.
  destruct (drop_old_partitions _ _ _ partitions 0 c) as [c' r]. destruct H as [-> Hc].
  { intros name Hn. destruct (Hnames name Hn) as [E|(parent & t & -> & Ht)]; [exists false; unfold is_old; by rewrite E|].
    eexists. by apply is_old_partition. }
  eexists _, _. split; [done|]. split.
  - intros parent t Ht name. rewrite Hc. unfold old_enough. subst name. rewrite is_old_partition by done. split.
    + intros Hin Hold. rewrite bool_decide_true by done. by destruct (_ <? _) eqn:E; [|lia].
    + intros [Hout|Hrecent]; [by rewrite bool_decide_false|]. destruct (_ <? _) eqn:E; [lia|]. by rewrite andb_false_r.
  - intros name E. rewrite Hc. unfold old_enough, is_old. by rewrite E, andb_false_r.
Qed.

Section ranges.
Context (parent_table : ustr) (n : Z) (hash_column : ustr) (key_type : KeyType).
Hypothesis Hn : 0 < n.

Definition name_of (r : Z * Z) : ustr := partition_name parent_table r.1.

Lemma create_ranges_complete c k ranges :
  NoDup (map name_of ranges) ->
  (forall r, r ∈ ranges -> c !! name_of r = None \/ exists cs, c !! name_of r = Some cs /\ partial n (name_of r) cs) ->
  exists c' k', create_ranges c k parent_table n hash_column key_type ranges = (c', Ok k')
    /\ (forall r, r ∈ ranges -> exists cs, c' !! name_of r = Some cs /\ complete n (name_of r) cs)
    /\ (forall other, other ∉ map name_of ranges -> c' !! other = c !! other).
Proof.
  revert c k. induction ranges as [|[current next] l IH]; intros c k Hnd Hpre; simpl.
  { eexists _, _. split; [done|]. split; [|done]. by intros r ?%elem_of_nil. }
  apply NoDup_cons in Hnd as [Hnew Hnd]. set (r := (current, next)) in *.
  destruct (execute_completes parent_table (name_of r) current next n hash_column key_type Hn c (Hpre r ltac:(left)))
    as (c1 & k1 & cs1 & E & Hc1 & Hcomp & Hother). change (partition_name parent_table current) with (name_of r). rewrite E.
  destruct (IH c1 (if k1 =? 0 then k else k + 1) Hnd) as (c' & k' & E' & Hall & Hrest).
  { intros r' Hr'. rewrite Hother by (intros Eq; apply Hnew; rewrite <- Eq; by apply list_elem_of_fmap_2).
    apply Hpre. by right. }
  eexists _, _. split; [exact E'|]. split.
  - intros r' [->|Hr']%elem_of_cons; [|by apply Hall]. exists cs1. by rewrite Hrest.
  - intros other [Ho1 Ho2]%not_elem_of_cons. by rewrite Hrest, Hother.
Qed.

Lemma create_ranges_noop c k ranges :
  (forall r, r ∈ ranges -> exists cs, c !! name_of r = Some cs /\ complete n (name_of r) cs) ->
  create_ranges c k parent_table n hash_column key_type ranges = (c, Ok k).
Proof.
  revert k. induction ranges as [|[current next] l IH]; intros k Hall; [done|]. cbn [create_ranges].
  destruct (Hall (current, next) ltac:(left)) as (cs & Hc & Hcomp). change (partition_name parent_table current) with (name_of (current, next)).
  rewrite (execute_noop parent_table _ current next n hash_column key_type Hn c cs Hc Hcomp).
  apply IH. intros r Hr. apply Hall. by right.
Qed.

(** Ranges of whole days have different names. *)
Lemma names_distinct fuel cur end_date interval :
  ONE_DAY <= interval -> 0 <= cur -> end_date <= last_day * ONE_DAY ->
  NoDup (map name_of (date_ranges fuel cur end_date interval))
  /\ forall r, r ∈ date_ranges fuel cur end_date interval -> cur / ONE_DAY <= r.1 / ONE_DAY < last_day.
Proof.
  intros Hi Hcur He. assert (0 < ONE_DAY) as Hday by done. assert (0 < interval) as Hpos by lia.
  assert (forall r, r ∈ date_ranges fuel cur end_date interval -> cur / ONE_DAY <= r.1 / ONE_DAY < last_day) as Hb.
  { intros r (? & ? & ?)%date_ranges_bounds; [|done]. split; [by apply Z.div_le_mono|apply Z.div_lt_upper_bound; lia]. }
  split; [|done]. clear Hb. revert cur Hcur. induction fuel as [|fuel IH]; intros cur Hcur; [apply NoDup_nil_2|]. simpl.
  destruct (cur <? end_date) eqn:E; [|apply NoDup_nil_2]. set (next := if end_date <? cur + interval then _ else _).
  assert (next = Z.min end_date (cur + interval)) as Hnext by (subst next; destruct (end_date <? cur + interval) eqn:?; lia).
  simpl. apply NoDup_cons. split; [|apply IH; lia].
  intros ([a b] & Ename & Hr)%list_elem_of_fmap. destruct (date_ranges_bounds _ _ _ _ _ Hpos Hr) as (H1 & H2 & H3). simpl in *.
  apply app_inv_head, app_inv_head in Ename.
  assert (cur + ONE_DAY <= a) as Ha by lia.
  apply (Z.div_le_mono _ _ ONE_DAY) in Ha; [|done]. replace (cur + ONE_DAY) with (cur + 1 * ONE_DAY) in Ha by ring.
  rewrite Z.div_add in Ha by done. pose proof (Z.div_pos cur ONE_DAY Hcur Hday).
  assert (a / ONE_DAY < last_day) by (apply Z.div_lt_upper_bound; lia).
  apply date_name_inj in Ename; cbn [fst] in *; lia.
Qed.

(** Partition maintenance over a range of dates (until 9600, intervals of a day or
    more) that has no partition yet, or some with part of the hash children of the
    configured count, ends with the table of every range there with each remainder
    covered once and leaves every other table alone; running it again changes nothing and
    counts nothing. *)
Theorem create_partitions_for_date_range_completes c start_date end_date interval :
  ONE_DAY <= interval -> 0 <= start_date -> end_date <= last_day * ONE_DAY ->
  let ranges := date_ranges (rounds start_date end_date interval) start_date end_date interval in
  (forall r, r ∈ ranges -> c !! name_of r = None \/ exists cs, c !! name_of r = Some cs /\ partial n (name_of r) cs) ->
  exists c' k, create_partitions_for_date_range c parent_table start_date end_date interval n hash_column key_type = (c', Ok k)
    /\ (forall r, r ∈ ranges -> exists cs, c' !! name_of r = Some cs /\ complete n (name_of r) cs)
    /\ (forall other, other ∉ map name_of ranges -> c' !! other = c !! other)
    /\ create_partitions_for_date_range c' parent_table start_date end_date interval n hash_column key_type = (c', Ok 0).
Proof.
  intros Hi Hs He ranges Hpre. destruct (create_ranges_complete c 0 ranges) as (c' & k & E & Hall & Hother);
    [by apply names_distinct|done|].
  exists c', k. split_and!; [done..|]. by apply create_ranges_noop.
Qed.
End ranges.

(** ** Witnesses *)

Lemma uuid7_in_one_partition_witness :
  exists key, from_datetime (20104 * ONE_DAY - 1) 4660 99 = Ok key
    /\ length (filter (fun r => let bounds := get_range_for_date r.1 r.2 in bounds.1 <= key < bounds.2)
                (date_ranges (rounds (20103 * ONE_DAY) (20110 * ONE_DAY) ONE_DAY) (20103 * ONE_DAY) (20110 * ONE_DAY) ONE_DAY)) = 1%nat.
Proof.
  apply uuid7_in_one_partition; try (unfold ONE_DAY, ONE_HOUR, MINUTE; lia).
  - exists (20103 * 86400). reflexivity.
  - exists (20110 * 86400). reflexivity.
  - exists 86400. reflexivity.
Defined.

Lemma extract_datetime_roundtrip_witness :
  exists key, from_datetime 1736899200123456 4660 99 = Ok key
    /\ extract_datetime key = Ok (timestamp_ms 1736899200123456 * 1000)
    /\ 1736899200123456 - 2000 < timestamp_ms 1736899200123456 * 1000 <= 1736899200123456.
Proof. apply extract_datetime_roundtrip. unfold time_ok. lia. Defined.

Definition sample_days : list ustr := [u "t_default"; u "t_20250115"; u "t_20250116"].

Lemma drop_old_partitions_spec_witness :
  exists c' k, drop_old_partitions 20200 90 1 sample_days 0 ∅ = (c', Ok k)
    /\ (forall parent t, 0 <= t / ONE_DAY < last_day -> let name := partition_name parent t in
          (name ∈ sample_days -> t / ONE_DAY + 1 < 20200 - 90 -> c' !! name = None)
          /\ (name ∉ sample_days \/ 20200 - 90 <= t / ONE_DAY + 1 -> c' !! name = (∅ : catalog) !! name))
    /\ (forall name, date_suffix name = None -> c' !! name = (∅ : catalog) !! name).
Proof.
  apply drop_old_partitions_spec; [lia|]. intros name [->|[->|[->|[]%elem_of_nil]%elem_of_cons]%elem_of_cons]%elem_of_cons.
  - left. by_compute.
  - right. exists (u "t"), (20103 * ONE_DAY). split; [by_compute|by_decide].
  - right. exists (u "t"), (20104 * ONE_DAY). split; [by_compute|by_decide].
Defined.

(** Two of four hash children of the first day are there. *)
Definition sample_catalog : catalog :=
  <[u "t_20250115" := [hash_child 4 (u "t_20250115") 0; hash_child 4 (u "t_20250115") 2]]> ∅.

Lemma create_partitions_for_date_range_completes_witness :
  let ranges := date_ranges (rounds (20103 * ONE_DAY) (20105 * ONE_DAY) ONE_DAY) (20103 * ONE_DAY) (20105 * ONE_DAY) ONE_DAY in
  exists c' k, create_partitions_for_date_range sample_catalog (u "t") (20103 * ONE_DAY) (20105 * ONE_DAY) ONE_DAY 4
                 (u "organization_id") Uuid7 = (c', Ok k)
    /\ (forall r, r ∈ ranges -> exists cs, c' !! name_of (u "t") r = Some cs /\ complete 4 (name_of (u "t") r) cs)
    /\ (forall other, other ∉ map (name_of (u "t")) ranges -> c' !! other = sample_catalog !! other)
    /\ create_partitions_for_date_range c' (u "t") (20103 * ONE_DAY) (20105 * ONE_DAY) ONE_DAY 4 (u "organization_id") Uuid7 = (c', Ok 0).
Proof.
  apply create_partitions_for_date_range_completes; try (unfold last_day, ONE_DAY, ONE_HOUR, MINUTE; lia).
  assert (date_ranges (rounds (20103 * ONE_DAY) (20105 * ONE_DAY) ONE_DAY) (20103 * ONE_DAY) (20105 * ONE_DAY) ONE_DAY
          = [(20103 * ONE_DAY, 20104 * ONE_DAY); (20104 * ONE_DAY, 20105 * ONE_DAY)]) as -> by by_compute.
  assert (name_of (u "t") (20103 * ONE_DAY, 20104 * ONE_DAY) = u "t_20250115") as E1 by by_compute.
  assert (sample_catalog !! name_of (u "t") (20104 * ONE_DAY, 20105 * ONE_DAY) = None) as E2 by by_compute.
  intros r [->|[->|[]%elem_of_nil]%elem_of_cons]%elem_of_cons; [right|left; exact E2]. rewrite E1.
  exists [hash_child 4 (u "t_20250115") 0; hash_child 4 (u "t_20250115") 2]. split; [by_compute|]. split; [by_decide|].
  constructor; [exists 0; split; [lia|reflexivity]|]. constructor; [exists 2; split; [lia|reflexivity]|constructor].
Defined.

(** A partition named for the last year a date can have makes the cleanup fail. *)
Example drop_far_future : (drop_old_partitions 20200 90 7 [u "t_99991231"] 0 ∅).2 = Raise OverflowError.
Proof. by_compute. Qed.
