(* ===== verification/ColdStorage.v ===== *)
(** * Cold storage

    [glitchtip/cold_storage.py]: archiving a partition into one Parquet file or several
    chunks per organization, detaching and dropping it, which files a query reads and in
    which order, retention, and the removal of a project or an organization.

    The tree of an organization is that of [Compaction]; the chunks [{date}/chunk_*] of
    logs and issue events are files of the date's directory.  A file's content is its
    rows.  [fate] gives the outcome of every call to storage or DuckDB, [reply] that of
    every statement to PostgreSQL, in order. *)
From S2P Require Import Prelude PyStr PyValue PyDate IngestEvent Compaction PartitionManager.

(** ** The files of an organization *)

Definition date_in_range (start_dt end_dt : Z) (d : ustr) : bool :=
  match parse_date d with
  | Some file_date => (file_date <? end_dt) && (start_dt <? file_date + ONE_DAY)
  | None => true
  end.

Definition in_range (range : option (Z * Z)) (d : ustr) : bool :=
  match range with Some (start_dt, end_dt) => date_in_range start_dt end_dt d | None => true end.

(** The files of the dates that pass a test. *)
Definition enumerate_org_files {X} (test : ustr -> bool) (o : OrgDir X) : list Path :=
  let flat := filter (fun f => is_parquet f && test (stem f) = true) (sorted_names (day_files o)) in
  let compacted_dates := map stem flat in
  map DayPath flat ++
  concat (map (fun d =>
    match date_dirs o !! d with
    | None => []
    | Some dd => map (HourPath d) (filter (fun f => is_parquet f = true) (sorted_names (hour_files dd)))
    end)
    (filter (fun d => d ∉ compacted_dates /\ test d = true) (sorted_names (date_dirs o)))).

Definition enumerate_org_parquet_files {X} (range : option (Z * Z)) (o : OrgDir X) : list Path :=
  enumerate_org_files (in_range range) o.

(** The rows a query reads. *)
Definition read_paths {X} (o : OrgDir X) (ps : list Path) : list X := concat (map (read_path o) ps).

(** [get_parquet_paths_for_date] *)
Definition get_parquet_paths_for_date {X} (date_str : ustr) (o : OrgDir X) : list Path :=
  match parse_date date_str with
  | Some file_date => enumerate_org_parquet_files (Some (file_date, file_date + ONE_DAY)) o
  | None => []
  end.

(** ** Writing files *)

(** The content of a file of a tree, [None] to remove it. *)
Definition set_file {X} (p : Path) (c : option (list X)) (o : OrgDir X) : OrgDir X :=
  match p with
  | DayPath f => {| day_files := partial_alter (fun _ => c) f (day_files o); date_dirs := date_dirs o |}
  | HourPath d f =>
      let dd := get_date d o in
      set_date d {| hour_files := partial_alter (fun _ => c) f (hour_files dd); hour_dirs := hour_dirs dd |} o
  | ChunkPath d h f =>
      let dd := get_date d o in
      set_date d {| hour_files := hour_files dd;
                    hour_dirs := <[h := partial_alter (fun _ => c) f (default ∅ (hour_dirs dd !! h))]> (hour_dirs dd) |} o
  end.

Definition ARCHIVE_CHUNK_ROWS : Z := 50000.

(** [_get_archive_chunk_bytes] of the parsed memory limit. *)
Definition get_archive_chunk_bytes (mem_bytes : option Z) : Z :=
  match mem_bytes with
  | None => 64 * 1024 * 1024
  | Some b => Z.max (b / 4) (1024 * 1024)
  end.

(** [f"{chunk:03d}"] *)
Definition zfill3 (k : Z) : ustr := if k <? 1000 then digits 3 k else str_of_Z k.
Definition chunk_name (k : Z) : ustr := u "chunk_" ++ zfill3 k ++ parquet.

(** The trees of the organizations. *)
Abbreviation trees X := (gmap Z (OrgDir X)).
Definition tree {X} (org_id : Z) (c : trees X) : OrgDir X := default empty_org (c !! org_id).

(** What a DETACH or DROP answers: done, no such partition, deadlock, another error. *)
Inductive PgReply := PgOk | PgGone | PgDeadlock | PgError.

Section archive.
Context (fate : nat -> Outcome) {Row : Type}.
(** Bytes of a row and of the header in the CSV, the byte limit, and what a failed write
    leaves of a file: nothing on S3, what was written so far on a file system. *)
Context (line_size : Row -> Z) (header_size chunk_bytes_limit : Z) (torn : list Row -> option (list Row)).
Context (row_org : Row -> Z).

(** [_flush_csv_to_parquet], returning the next chunk number and the total. *)
Definition flush_csv_to_parquet (date_str : ustr) (is_final_flush : bool) (buf : list Row) (chunk_num total_rows : Z)
    (o : OrgDir Row) (n : nat) : res (Z * Z) * OrgDir Row * nat :=
  let '(out_path, chunk_num) :=
    if (chunk_num =? 0) && is_final_flush then (DayPath (date_str ++ parquet), chunk_num)
    else (HourPath date_str (chunk_name chunk_num), chunk_num + 1) in
  match fate n with
  | Works => (Ok (chunk_num, total_rows + len buf), set_file out_path (Some buf) o, S n)
  | _ => (Raise OSError, set_file out_path (torn buf) o, S n)
  end.

(** The lines of the COPY; the buffer that is left comes with the counters. *)
Fixpoint archive_lines (date_str : ustr) (lines buf : list Row) (bytes chunk_num total_rows : Z) (o : OrgDir Row) (n : nat)
    : res (list Row * Z * Z) * OrgDir Row * nat :=
  match lines with
  | [] => (Ok (buf, chunk_num, total_rows), o, n)
  | line :: rest =>
      let buf := buf ++ [line] in
      let bytes := bytes + line_size line in
      if (chunk_bytes_limit <=? bytes) || (ARCHIVE_CHUNK_ROWS <=? len buf) then
        match flush_csv_to_parquet date_str false buf chunk_num total_rows o n with
        | (Raise e, o, n) => (Raise e, o, n)
        | (Ok (chunk_num, total_rows), o, n) => archive_lines date_str rest [] header_size chunk_num total_rows o n
        end
      else archive_lines date_str rest buf bytes chunk_num total_rows o n
  end.

(** Leftover chunks are deleted, errors ignored. *)
Definition clear_chunks (date_str : ustr) (o : OrgDir Row) (n : nat) : OrgDir Row * nat :=
  match date_dirs o !! date_str with
  | None => (o, n)
  | Some dd =>
      let '(m, n) := delete_files fate (names (hour_files dd)) (hour_files dd) n in
      (set_date date_str {| hour_files := m; hour_dirs := hour_dirs dd |} o, n)
  end.

(** One organization: whether it is in the list of archived files. *)
Definition archive_org (date_str : ustr) (lines : list Row) (o : OrgDir Row) (n : nat) : res bool * OrgDir Row * nat :=
  match day_files o !! (date_str ++ parquet) with
  | Some _ => (Ok true, o, n)
  | None =>
      let '(o, n) := clear_chunks date_str o n in
      match archive_lines date_str lines [] header_size 0 0 o n with
      | (Raise e, o, n) => (Raise e, o, n)
      | (Ok ([], _, total_rows), o, n) => (Ok (0 <? total_rows), o, n)
      | (Ok (buf, chunk_num, total_rows), o, n) =>
          match flush_csv_to_parquet date_str true buf chunk_num total_rows o n with
          | (Raise e, o, n) => (Raise e, o, n)
          | (Ok (_, total_rows), o, n) => (Ok (0 <? total_rows), o, n)
          end
      end
  end.

Definition rows_of (org_id : Z) (rows : list Row) : list Row := filter (fun r => row_org r = org_id) rows.

Fixpoint archive_orgs (date_str : ustr) (rows : list Row) (org_ids : list Z) (archived_files : list Z) (c : trees Row) (n : nat)
    : res (list Z) * trees Row * nat :=
  match org_ids with
  | [] => (Ok archived_files, c, n)
  | org_id :: rest =>
      match archive_org date_str (rows_of org_id rows) (tree org_id c) n with
      | (Raise e, o, n) => (Raise e, <[org_id := o]> c, n)
      | (Ok archived, o, n) =>
          archive_orgs date_str rows rest (if archived then archived_files ++ [org_id] else archived_files) (<[org_id := o]> c) n
      end
  end.

(** [archive_partition_per_org]; [eligible] are the paying organizations. *)
Definition archive_partition_per_org (eligible : Z -> bool) (date_str : ustr) (partition : option (list Row)) (c : trees Row) (n : nat)
    : res (list Z) * trees Row * nat :=
  match partition with
  | None => (Ok [], c, n)
  | Some rows =>
      let org_ids := merge_sort Z.le (remove_dups (map row_org rows)) in
      archive_orgs date_str rows (filter (fun o => eligible o = true) org_ids) [] c n
  end.

(** ** PostgreSQL *)

Context (reply : nat -> PgReply).

(** A partition's table: its rows, and whether queries on the parent see them. *)
Record Table := { t_rows : list Row; t_attached : bool }.

Definition detached (t : Table) : Table := {| t_rows := t_rows t; t_attached := false |}.

(** The attempts with CONCURRENTLY, [retries] of them: [Some] when the function returns. *)
Fixpoint detach_attempts (retries : nat) (t : Table) (m : nat) : option Table * nat :=
  match retries with
  | O => (None, m)
  | S retries =>
      match reply m with
      | PgOk => (Some (detached t), S m)
      | PgGone => (Some t, S m)
      | PgDeadlock => detach_attempts retries t (S m)
      | PgError => (None, S m)
      end
  end.

(** [detach_partition]: after the attempts, once without CONCURRENTLY. *)
Definition detach_partition (max_retries : nat) (t : Table) (m : nat) : res unit * Table * nat :=
  match detach_attempts max_retries t m with
  | (Some t, m) => (Ok tt, t, m)
  | (None, m) =>
      match reply m with
      | PgOk => (Ok tt, detached t, S m)
      | PgGone => (Ok tt, t, S m)
      | _ => (Raise OperationalError, t, S m)
      end
  end.

(** [drop_partition]: DROP TABLE IF EXISTS. *)
Definition drop_partition (t : Table) (m : nat) : res unit * option Table * nat :=
  match reply m with
  | PgOk => (Ok tt, None, S m)
  | _ => (Raise OperationalError, Some t, S m)
  end.

(** The first part of a name that looks like a date. *)
Definition name_date (name : ustr) : option ustr :=
  list_find (fun part => (len part =? 8) && forallb is_digit part = true) (split_on 95 name) ≫= fun x => Some x.2.

(** The counters of calls to storage and to PostgreSQL. *)
Record Calls := { c_storage : nat; c_pg : nat }.

(** [archive_and_swap_partition] of one partition's table. *)
Definition archive_and_swap_partition (eligible : Z -> bool) (partition_name : ustr) (t : option Table) (c : trees Row) (k : Calls)
    : res bool * option Table * trees Row * Calls :=
  match name_date partition_name with
  | None => (Ok false, t, c, k)
  | Some date_str =>
      let '(r, c, n) := archive_partition_per_org eligible date_str (t_rows <$> t) c (c_storage k) in
      let k := {| c_storage := n; c_pg := c_pg k |} in
      match r with
      | Raise e => (Raise e, t, c, k)
      | Ok _ =>
          match t with
          | None =>
              (* DETACH answers that there is no such table, DROP IF EXISTS does nothing *)
              (Ok true, None, c, k)
          | Some tb =>
              let '(r, tb, m) := detach_partition 3 tb (c_pg k) in
              match r with
              | Raise e => (Raise e, Some tb, c, {| c_storage := n; c_pg := m |})
              | Ok _ =>
                  let '(r, t, m) := drop_partition tb m in
                  (res_bind r (fun _ => Ok true), t, c, {| c_storage := n; c_pg := m |})
              end
          end
      end
  end.

(** [get_partitions_older_than]: the tables [{table_name}_YYYYMMDD] dated before the cutoff. *)
Definition is_partition_of (table_name name : ustr) : bool :=
  startswith (table_name ++ u "_") name && (len name =? len table_name + 9)
  && forallb is_digit (drop (length table_name + 1) name).

Definition get_partitions_older_than (table_name : ustr) (now days : Z) (tables : gmap ustr Table) : list ustr :=
  filter (fun name => is_partition_of table_name name
                      && match name_date name with
                         | Some d => match parse_date d with Some t => t <? now - days * ONE_DAY | None => false end
                         | None => false
                         end = true)
    (sorted_names tables).

(** The loop of [archive_and_cleanup_partitions]; errors are logged and counted. *)
Fixpoint archive_old (eligible : Z -> bool) (partitions : list ustr) (archived failed : Z) (tables : gmap ustr Table) (c : trees Row)
    (k : Calls) : Z * Z * gmap ustr Table * trees Row * Calls :=
  match partitions with
  | [] => (archived, failed, tables, c, k)
  | name :: rest =>
      let '(r, t, c, k) := archive_and_swap_partition eligible name (tables !! name) c k in
      let tables := partial_alter (fun _ => t) name tables in
      match r with
      | Ok true => archive_old eligible rest (archived + 1) failed tables c k
      | _ => archive_old eligible rest archived (failed + 1) tables c k
      end
  end.
End archive.

(** ** Retention *)

Section retention.
Context (fate : nat -> Outcome) {Row : Type}.

(** [_is_date_before_cutoff] *)
Definition is_date_before_cutoff (d : ustr) (cutoff : Z) : bool :=
  match parse_date d with Some file_date => file_date <? cutoff | None => false end.

(** Best-effort deletion, counting the files deleted. *)
Fixpoint delete_counted (fs : list ustr) (k : Z) (m : files Row) (n : nat) : Z * files Row * nat :=
  match fs with
  | [] => (k, m, n)
  | f :: rest =>
      match fate n with
      | Works => delete_counted rest (k + 1) (delete f m) (S n)
      | _ => delete_counted rest k m (S n)
      end
  end.

(** The files of one date directory that is expired; [rmdir] works when nothing is left. *)
Definition delete_date_files (s : Z * OrgDir Row * nat) (d : ustr) : Z * OrgDir Row * nat :=
  let '(k, o, n) := s in
  match date_dirs o !! d with
  | None => (k, o, n)
  | Some dd =>
      let '(k, m, n) := delete_counted (names (hour_files dd)) k (hour_files dd) n in
      let dirs := match names m, names (hour_dirs dd) with
                  | [], [] => delete d (date_dirs o)
                  | _, _ => <[d := {| hour_files := m; hour_dirs := hour_dirs dd |}]> (date_dirs o)
                  end in
      (k, {| day_files := day_files o; date_dirs := dirs |}, n)
  end.

(** [cleanup_cold_storage_for_org] *)
Definition cleanup_cold_storage_for_org (cutoff : Z) (o : OrgDir Row) (n : nat) : Z * OrgDir Row * nat :=
  let expired := filter (fun f => is_parquet f && is_date_before_cutoff (stem f) cutoff = true) (names (day_files o)) in
  let '(k, m, n) := delete_counted expired 0 (day_files o) n in
  foldl delete_date_files (k, {| day_files := m; date_dirs := date_dirs o |}, n)
    (filter (fun d => is_date_before_cutoff d cutoff = true) (names (date_dirs o))).

(** [cleanup_all_cold_storage] *)
Definition cleanup_all_cold_storage (enabled : bool) (now retention_days : Z) (c : trees Row) (n : nat)
    : Z * trees Row * nat :=
  if enabled then
    foldl (fun s org_id =>
        let '(k, c, n) := s in
        let '(deleted, o, n) := cleanup_cold_storage_for_org (now - retention_days * ONE_DAY) (tree org_id c) n in
        (k + deleted, <[org_id := o]> c, n))
      (0, c, n) (map fst (map_to_list c))
  else (0, c, n).

(** ** Removing a project *)

(** One file of [rewrite_parquet_excluding_project]: counting what stays, deleting the
    file when nothing does, counting all rows, writing the rest.  Any error is logged
    and leaves the file as it was. *)
Definition rewrite_file (keep : Row -> bool) (s : Z * OrgDir Row * nat) (p : Path) : Z * OrgDir Row * nat :=
  let '(k, o, n) := s in
  let rows := read_path o p in
  let remaining := filter (fun r => keep r = true) rows in
  match fate n with
  | Works =>
      if len remaining =? 0 then
        match fate (S n) with Works => (k + 1, set_file p None o, S (S n)) | _ => (k, o, S (S n)) end
      else
        match fate (S n) with
        | Works =>
            if len remaining =? len rows then (k, o, S (S n))
            else match fate (S (S n)) with
                 | Works => (k + 1, set_file p (Some remaining) o, S (S (S n)))
                 | _ => (k, o, S (S (S n)))
                 end
        | _ => (k, o, S (S n))
        end
  | _ => (k, o, S n)
  end.

(** [rewrite_parquet_excluding_project]; [tiered] for the trees of spans. *)
Definition rewrite_parquet_excluding_project (tiered : bool) (keep : Row -> bool) (o : OrgDir Row) (n : nat) : Z * OrgDir Row * nat :=
  foldl (rewrite_file keep) (0, o, n)
    (if tiered then enumerate_hour_tiered_files (fun _ => true) o else enumerate_org_parquet_files None o).
End retention.

(** ** Queries *)

Section query.
(** What reading a file gives: rows, damage DuckDB recognizes, that the file is missing,
    or another error. *)
Inductive Reading := Readable | Corrupt | Missing | Broken.

Context {Row : Type} (row_id : Row -> Z) (reading : Path -> Reading) (can_delete : Path -> bool).

Definition newer (a b : Row) : Prop := row_id b <= row_id a.
#[export] Instance newer_dec : RelDecision newer.
Proof. intros a b. unfold newer. apply _. Defined.

(** ORDER BY id DESC *)
Definition newest_first (l : list Row) : list Row := merge_sort newer l.

(** One file: SELECT ... WHERE ... ORDER BY id DESC LIMIT limit. *)
Definition select (matches : Row -> bool) (limit : Z) (rows : list Row) : list Row :=
  slice_to limit (newest_first (filter (fun r => matches r = true) rows)).

(** [_query_cold_parquet_files_inner] over the paths in the order it reads them: it stops
    with enough rows, deletes damaged files and passes other errors on. *)
Fixpoint query_files (matches : Row -> bool) (limit : Z) (ps : list Path) (all_rows : list Row) (o : OrgDir Row)
    : res (list Row) * OrgDir Row :=
  match ps with
  | [] => (Ok all_rows, o)
  | p :: rest =>
      match reading p with
      | Readable =>
          let all_rows := all_rows ++ select matches limit (read_path o p) in
          if limit <=? len all_rows then (Ok all_rows, o) else query_files matches limit rest all_rows o
      | Corrupt => query_files matches limit rest all_rows (if can_delete p then set_file p None o else o)
      | Missing | Broken => (Raise OSError, o)
      end
  end.

(** [query_cold_parquet_files]: nothing without a slot. *)
Definition query_cold_parquet_files (slot : bool) (range : option (Z * Z)) (matches : Row -> bool) (limit : Z) (o : OrgDir Row)
    : res (list Row) * OrgDir Row :=
  match enumerate_org_parquet_files range o with
  | [] => (Ok [], o)
  | ps => if slot then query_files matches limit (rev ps) [] o else (Ok [], o)
  end.

(** [query_cold_events]: the rows of all files sorted and cut again. *)
Definition query_cold_events (slot : bool) (start_dt end_dt : Z) (matches : Row -> bool) (limit : Z) (o : OrgDir Row)
    : res (list Row) * OrgDir Row :=
  let '(start_uuid, end_uuid) := get_range_for_date start_dt end_dt in
  let where_sql r := (start_uuid <=? row_id r) && (row_id r <? end_uuid) && matches r in
  let '(r, o) := query_cold_parquet_files slot (Some (start_dt, end_dt)) where_sql limit o in
  (res_bind r (fun rows => Ok (slice_to limit (newest_first rows))), o).

(** [get_event_from_cold]: the first row with the id in the files of the date. *)
Fixpoint find_event (event_id : Z) (ps : list Path) (o : OrgDir Row) : res (option Row) :=
  match ps with
  | [] => Ok None
  | p :: rest =>
      match reading p with
      | Readable =>
          match find_first (fun r => row_id r =? event_id) (read_path o p) with
          | Some r => Ok (Some r)
          | None => find_event event_id rest o
          end
      | Missing => find_event event_id rest o
      | Corrupt | Broken => Raise OSError
      end
  end.

Definition get_event_from_cold (event_id event_time : Z) (o : OrgDir Row) : res (option Row) :=
  find_event event_id (get_parquet_paths_for_date (date_name (event_time / ONE_DAY)) o) o.

(** [_get_event_from_cold]: the time is read from the UUIDv7. *)
Definition event_from_cold (event_id : Z) (o : OrgDir Row) : res (option Row) :=
  match extract_datetime event_id with
  | Ok event_time => get_event_from_cold event_id event_time o
  | Raise ValueError => Ok None
  | Raise e => Raise e
  end.
End query.

(** ** Removing an organization *)

(** A directory: its files and its directories. *)
Inductive Dir := MkDir (dir_files : list ustr) (subdirs : list (ustr * Dir)).

Section purge.
Context (fate : nat -> Outcome).

(** The files that could not be deleted, and how many could. *)
Fixpoint purge_files (fs : list ustr) (n : nat) : list ustr * Z * nat :=
  match fs with
  | [] => ([], 0, n)
  | f :: rest =>
      let '(left_over, k, n') := purge_files rest (S n) in
      match fate n with Works => (left_over, k + 1, n') | _ => (f :: left_over, k, n') end
  end.

(** [_purge_tree]: files first, then the directories, then itself if nothing is left. *)
Fixpoint purge_tree (t : Dir) (n : nat) : Z * option Dir * nat :=
  match t with
  | MkDir fs ds =>
      let '(left_files, k, n) := purge_files fs n in
      let '(k, left_dirs, n) :=
        (fix go (ds : list (ustr * Dir)) (k : Z) (n : nat) : Z * list (ustr * Dir) * nat :=
           match ds with
           | [] => (k, [], n)
           | (name, d) :: rest =>
               let '(k1, d', n) := purge_tree d n in
               let '(k, rest', n) := go rest (k + k1) n in
               (k, match d' with Some d' => (name, d') :: rest' | None => rest' end, n)
           end) ds k n in
      (k, match left_files, left_dirs with [], [] => None | _, _ => Some (MkDir left_files left_dirs) end, n)
  end.

(** The fallback of [delete_org_cold_storage] where directories cannot be listed: the day
    files of the last 365 days. *)
Fixpoint sweep_days {X} (days : nat) (today : Z) (k : Z) (o : OrgDir X) (n : nat) : Z * OrgDir X * nat :=
  match days with
  | O => (k, o, n)
  | S days =>
      let storage_path := date_name today ++ parquet in
      match day_files o !! storage_path with
      | None => sweep_days days (today - 1) k o n
      | Some _ =>
          match fate n with
          | Works => sweep_days days (today - 1) (k + 1) (set_file (DayPath storage_path) None o) (S n)
          | _ => sweep_days days (today - 1) k o (S n)
          end
      end
  end.
End purge.

(** ** The rows of a date *)

(** Of the flat file, or else of the chunks. *)
Definition org_date_rows {X} (d : ustr) (o : OrgDir X) : list X :=
  match day_files o !! (d ++ parquet) with
  | Some rows => rows
  | None => match date_dirs o !! d with Some dd => parquet_rows (hour_files dd) | None => [] end
  end.

Lemma day_file_named {X} d (o : OrgDir X) :
  filter (fun f => is_parquet f && ustr_eqb d (stem f) = true) (sorted_names (day_files o))
  = if decide (d ++ parquet ∈ sorted_names (day_files o)) then [d ++ parquet] else [].
Proof.
  apply filter_one; [apply NoDup_sorted_names|]. intros f. rewrite andb_true_iff, ustr_eqb_eq.
  split; [intros [? ?]; by apply is_parquet_iff|]. intros E. by apply is_parquet_iff in E as [? ?].
Qed.

(** They are what a query over the date reads. *)
Lemma read_date {X} d (o : OrgDir X) : read_paths o (enumerate_org_files (ustr_eqb d) o) = org_date_rows d o.
Proof.
  unfold read_paths, enumerate_org_files, org_date_rows. rewrite day_file_named.
  destruct (decide _) as [Hin|Hin]; rewrite sorted_names_elem in Hin.
  - destruct Hin as [rows Hr]. rewrite Hr. cbn [map]. rewrite stem_parquet.
    rewrite filter_none; [simpl; unfold content; by rewrite Hr, !app_nil_r|].
    apply Forall_forall. intros d' _ [Hne Hd%ustr_eqb_eq]. apply Hne. subst. left.
  - rewrite <- eq_None_not_Some in Hin. rewrite Hin. cbn [map app].
    rewrite (filter_one _ (sorted_names (date_dirs o)) d (NoDup_sorted_names _)).
    2:{ intros d'. rewrite ustr_eqb_eq. split; [by intros [_ ->]|]. intros ->. split; [by intros ?%elem_of_nil|done]. }
    destruct (decide _) as [Hd|Hd]; rewrite sorted_names_elem in Hd.
    2:{ rewrite <- eq_None_not_Some in Hd. by rewrite Hd. }
    destruct Hd as [dd Hdd]. rewrite Hdd. cbn [map concat]. rewrite app_nil_r, Hdd.
    rewrite map_map. unfold parquet_rows, read_all, parquet_names. cbn [read_path]. by rewrite Hdd.
Qed.

(** ** Chunk names *)

Lemma zfill3_value k : 0 <= k -> digits_value (zfill3 k) = k.
Proof.
  intros Hk. unfold zfill3. destruct (k <? 1000) eqn:E; [|by apply digits_value_str].
  rewrite <- (int_of_digits_digits 3 k) at 2 by (simpl; lia). unfold digits_value, int_of_digits.
  generalize (digits 3 k). intros l. generalize 0. induction l as [|c l IH]; intros a; [done|]. simpl. rewrite IH. f_equal. lia.
Qed.

Lemma chunk_name_inj i j : 0 <= i -> 0 <= j -> chunk_name i = chunk_name j -> i = j.
Proof.
  unfold chunk_name. intros Hi Hj E. rewrite !app_assoc in E. apply app_inv_tail, app_inv_head in E.
  by rewrite <- (zfill3_value i), <- (zfill3_value j), E.
Qed.

Lemma chunk_name_parquet k : is_parquet (chunk_name k) = true.
Proof. unfold chunk_name, is_parquet. rewrite app_assoc. apply endswith_app. Qed.

(** ** Chunks *)

(** Chunks written from number [k] on. *)
Fixpoint put_chunks {X} (k : Z) (ps : list (list X)) (m : files X) : files X :=
  match ps with [] => m | p :: ps => put_chunks (k + 1) ps (<[chunk_name k := p]> m) end.

Fixpoint without_chunks {X} (k : Z) (j : nat) (m : files X) : files X :=
  match j with O => m | S j => delete (chunk_name k) (without_chunks (k + 1) j m) end.

Lemma without_chunks_insert {X} k i j (p : list X) m :
  0 <= i < k -> without_chunks k j (<[chunk_name i := p]> m) = <[chunk_name i := p]> (without_chunks k j m).
Proof.
  revert k. induction j as [|j IH]; intros k Hi; [done|]. simpl. rewrite IH by lia.
  rewrite delete_insert_ne; [done|]. intros E. apply chunk_name_inj in E; lia.
Qed.

Lemma put_chunks_rows {X} (k : Z) (ps : list (list X)) m :
  0 <= k -> parquet_rows (put_chunks k ps m) ≡ₚ concat ps ++ parquet_rows (without_chunks k (length ps) m).
Proof.
  revert k m. induction ps as [|p ps IH]; intros k m Hk; [done|]. cbn [put_chunks concat length without_chunks].
  rewrite IH, without_chunks_insert by lia. set (m' := without_chunks (k + 1) (length ps) m).
  rewrite <- (insert_delete_eq m' (chunk_name k) p).
  rewrite (parquet_rows_insert (delete (chunk_name k) m') (chunk_name k) p (lookup_delete_eq _ _) (chunk_name_parquet k)).
  rewrite !app_assoc. apply Permutation_app_tail, Permutation_app_comm.
Qed.

Lemma without_chunks_subseteq {X} (k : Z) (j : nat) (m : files X) : without_chunks k j m ⊆ m.
Proof. revert k. induction j as [|j IH]; intros k; simpl; [done|]. etrans; [apply delete_subseteq|apply IH]. Qed.

Lemma put_chunks_app {X} (k : Z) (ps qs : list (list X)) m :
  put_chunks k (ps ++ qs) m = put_chunks (k + len ps) qs (put_chunks k ps m).
Proof.
  revert k m. induction ps as [|p ps IH]; intros k m; simpl; [by unfold len; rewrite Z.add_0_r|].
  rewrite IH. f_equal. unfold len. simpl. lia.
Qed.

(** ** Archiving an organization *)

(** Two trees that differ in one date only. *)
Definition same_elsewhere {X} (d : ustr) (o o' : OrgDir X) : Prop :=
  (forall f, f <> d ++ parquet -> day_files o' !! f = day_files o !! f)
  /\ (forall d', d' <> d -> date_dirs o' !! d' = date_dirs o !! d').

#[export] Instance same_elsewhere_preorder {X} d : PreOrder (same_elsewhere (X := X) d).
Proof.
  split; [by intros o|]. intros o1 o2 o3 [Hf1 Hd1] [Hf2 Hd2]. split; intros x Hx; [rewrite Hf2|rewrite Hd2]; auto.
Qed.


Definition chunk_files {X} (d : ustr) (o : OrgDir X) : files X := hour_files (get_date d o).

Lemma org_date_rows_chunks {X} d (o : OrgDir X) :
  day_files o !! (d ++ parquet) = None -> org_date_rows d o = parquet_rows (chunk_files d o).
Proof.
  intros Hf. unfold org_date_rows, chunk_files, get_date. rewrite Hf. by destruct (date_dirs o !! d).
Qed.

Lemma set_chunk_elsewhere {X} d f c (o : OrgDir X) : same_elsewhere d o (set_file (HourPath d f) c o).
Proof. split; [done|]. intros d' Hne. simpl. by rewrite lookup_insert_ne. Qed.

Lemma set_flat_elsewhere {X} d c (o : OrgDir X) : same_elsewhere d o (set_file (DayPath (d ++ parquet)) c o).
Proof. split; [|done]. intros f Hne. simpl. by rewrite lookup_partial_alter_ne. Qed.

Lemma chunk_files_set {X} d dd (o : OrgDir X) : chunk_files d (set_date d dd o) = hour_files dd.
Proof. unfold chunk_files. by rewrite get_set_date. Qed.

Section archiving.
Context (fate : nat -> Outcome) {Row : Type} (line_size : Row -> Z) (header_size limit : Z).
Context (torn : list Row -> option (list Row)) (date_str : ustr).

Lemma delete_files_lookup (fs : list ustr) (m : files Row) (n : nat) (f : ustr) :
  (forall n, fate n = Works) -> (delete_files fate fs m n).1 !! f = if decide (f ∈ fs) then None else m !! f.
Proof.
  intros Hw. revert m n. induction fs as [|x fs IH]; intros m n; cbn [delete_files]; [done|].
  rewrite IH, Hw. destruct (decide (f ∈ fs)); [by rewrite decide_True by (by right)|].
  destruct (decide (f = x)) as [->|Hne]; [by rewrite lookup_delete_eq, decide_True by left|].
  rewrite lookup_delete_ne, decide_False; [done| |done]. by intros [?|?]%elem_of_cons.
Qed.

Lemma clear_chunks_spec (o : OrgDir Row) n :
  let o' := (clear_chunks fate date_str o n).1 in
  day_files o' = day_files o /\ same_elsewhere date_str o o'
  /\ ((forall n, fate n = Works) -> chunk_files date_str o' = ∅).
Proof.
  unfold clear_chunks. destruct (date_dirs o !! date_str) as [dd|] eqn:E; simpl.
  - pose proof (delete_files_lookup (names (hour_files dd)) (hour_files dd) n) as Hl.
    destruct (delete_files fate _ _ n) as [m n'] eqn:Ed. simpl in *. split; [done|]. split.
    + split; [done|]. intros d' Hne. simpl. by rewrite lookup_insert_ne.
    + intros Hw. rewrite chunk_files_set. simpl. apply map_eq. intros f. rewrite lookup_empty, Hl by done.
      destruct (decide (f ∈ names (hour_files dd))) as [|Hn]; [done|]. rewrite names_elem in Hn. by apply eq_None_not_Some.
  - split; [done|]. split; [done|]. intros _. unfold chunk_files, get_date. by rewrite E.
Qed.

Abbreviation lines_of := (archive_lines fate line_size header_size limit torn date_str).

(** What the loop over the lines writes: the chunks, in order, and what is left in the buffer. *)
Lemma archive_lines_spec lines buf bytes chunk_num total_rows (o : OrgDir Row) n :
  0 <= chunk_num ->
  let '(r, o', n') := lines_of lines buf bytes chunk_num total_rows o n in
  day_files o' = day_files o /\ same_elsewhere date_str o o'
  /\ forall buf' chunk_num' total_rows', r = Ok (buf', chunk_num', total_rows') ->
       exists ps, concat ps ++ buf' = buf ++ lines /\ chunk_num' = chunk_num + len ps
         /\ chunk_files date_str o' = put_chunks chunk_num ps (chunk_files date_str o).
Proof.
  revert buf bytes chunk_num total_rows o n. induction lines as [|line rest IH]; intros buf bytes chunk_num total_rows o n Hk;
    cbn [archive_lines].
  { split; [done|]. split; [done|]. intros ? ? ? [= <- <- <-]. exists []. rewrite app_nil_r. unfold len. simpl. split_and!; [done|lia|done]. }
  destruct ((limit <=? _) || _).
  - unfold flush_csv_to_parquet. rewrite andb_false_r. destruct (fate n).
    1: specialize (IH [] header_size (chunk_num + 1) (total_rows + len (buf ++ [line]))
                     (set_file (HourPath date_str (chunk_name chunk_num)) (Some (buf ++ [line])) o) (S n) ltac:(lia)).
    1: destruct (archive_lines _ _ _ _ _ _ rest _ _ _ _ _ _) as [[r o'] n']; destruct IH as (Hf & Hs & Hr).
    2,3: split; [done|]; split; [apply set_chunk_elsewhere|done].
    split; [by rewrite Hf|]. split; [etrans; [apply set_chunk_elsewhere|exact Hs]|].
    intros buf' k' t' E. destruct (Hr _ _ _ E) as (ps & Hps & -> & Hc). exists ((buf ++ [line]) :: ps). simpl in Hps |- *.
    split; [by rewrite <- app_assoc, Hps, <- app_assoc|]. split; [unfold len; simpl; lia|].
    rewrite Hc. cbn [set_file]. by rewrite chunk_files_set.
  - specialize (IH (buf ++ [line]) (bytes + line_size line) chunk_num total_rows o n Hk).
    destruct (archive_lines _ _ _ _ _ _ rest _ _ _ _ _ _) as [[r o'] n']. destruct IH as (Hf & Hs & Hr).
    split; [done|]. split; [done|]. intros buf' k' t' E. destruct (Hr _ _ _ E) as (ps & Hps & Hk' & Hc). exists ps.
    by rewrite Hps, <- app_assoc.
Qed.

(** A file of the whole day is complete: it holds exactly the organization's rows. *)
Definition flat_complete (lines : list Row) (o : OrgDir Row) : Prop :=
  forall fr, day_files o !! (date_str ++ parquet) = Some fr -> fr ≡ₚ lines.

(** The rows of the date are in the files queries read; exactly, when nothing failed. *)
Definition archived (lines : list Row) (o : OrgDir Row) : Prop :=
  lines ⊆+ org_date_rows date_str o /\ ((forall n, fate n = Works) -> org_date_rows date_str o ≡ₚ lines).

Lemma archived_flat (lines fr : list Row) (o : OrgDir Row) :
  day_files o !! (date_str ++ parquet) = Some fr -> fr ≡ₚ lines -> archived lines o.
Proof. intros E Hp. unfold archived, org_date_rows. rewrite E. split; [by rewrite Hp|done]. Qed.

Lemma archived_chunks (ps : list (list Row)) (lines : list Row) (m : files Row) (o : OrgDir Row) :
  day_files o !! (date_str ++ parquet) = None -> concat ps = lines ->
  chunk_files date_str o = put_chunks 0 ps m -> ((forall n, fate n = Works) -> m = ∅) -> archived lines o.
Proof.
  intros Hnone Hps Hc Hm. unfold archived. rewrite (org_date_rows_chunks _ _ Hnone), Hc, put_chunks_rows, Hps by done. split.
  - apply submseteq_inserts_r. done.
  - intros Hw. rewrite (Hm Hw). rewrite (parquet_rows_none (without_chunks 0 (length ps) ∅)); [by rewrite app_nil_r|].
    intros f [x Hx]. eapply lookup_weaken in Hx; [|apply without_chunks_subseteq]. done.
Qed.

(** A write that fails leaves nothing behind. *)
Definition atomic_writes : Prop := forall rows, torn rows = None.

Lemma archive_org_spec (lines : list Row) (o : OrgDir Row) (n : nat) :
  flat_complete lines o ->
  let '(r, o', n') := archive_org fate line_size header_size limit torn date_str lines o n in
  same_elsewhere date_str o o' /\ ((exists b, r = Ok b) \/ atomic_writes -> flat_complete lines o') /\ (forall b, r = Ok b -> archived lines o').
Proof.
  intros Hflat. unfold archive_org. destruct (day_files o !! (date_str ++ parquet)) as [fr|] eqn:E.
  { split; [done|]. split; [done|]. intros b _. by apply (archived_flat lines fr), Hflat. }
  destruct (clear_chunks_spec o n) as (Hf1 & Hs1 & Hempty). destruct (clear_chunks fate date_str o n) as [o1 n1]. simpl in *.
  pose proof (archive_lines_spec lines [] header_size 0 0 o1 n1 ltac:(lia)) as Hl.
  destruct (archive_lines _ _ _ _ _ _ _ _ _ _ _ o1 n1) as [[r o2] n2]. destruct Hl as (Hf2 & Hs2 & Hr).
  assert (same_elsewhere date_str o o2) as Hs by (by etrans).
  assert (day_files o2 !! (date_str ++ parquet) = None) as Hnone by (by rewrite Hf2, Hf1).
  assert (flat_complete lines o2) as Hf by (intros fr Hfr; by rewrite Hnone in Hfr).
  destruct r as [[[buf chunk_num] total]|e]; [|done]. destruct (Hr _ _ _ eq_refl) as (ps & Hps & -> & Hc). simpl in Hps.
  destruct buf as [|b buf].
  { split; [done|]. split; [done|]. intros b _. rewrite app_nil_r in Hps. by apply (archived_chunks ps lines (chunk_files date_str o1)). }
  unfold flush_csv_to_parquet. rewrite Z.add_0_l, andb_true_r. destruct (Z.eqb_spec (len ps) 0) as [Hz|Hz].
  - destruct ps as [|p ps]; [|unfold len in Hz; simpl in Hz; lia]. simpl in Hps.
    assert (same_elsewhere date_str o (set_file (DayPath (date_str ++ parquet)) (Some (b :: buf)) o2)) as HsF
      by (etrans; [exact Hs|apply set_flat_elsewhere]).
    assert (same_elsewhere date_str o (set_file (DayPath (date_str ++ parquet)) (torn (b :: buf)) o2)) as HsN
      by (etrans; [exact Hs|apply set_flat_elsewhere]).
    assert (day_files (set_file (DayPath (date_str ++ parquet)) (Some (b :: buf)) o2) !! (date_str ++ parquet) = Some lines) as HF
      by (simpl; by rewrite lookup_partial_alter_eq, Hps).
    assert (day_files (set_file (DayPath (date_str ++ parquet)) None o2) !! (date_str ++ parquet) = None) as HN
      by (simpl; by rewrite lookup_partial_alter_eq).
    destruct (fate n2).
    2,3: split; [exact HsN|]; split; [intros [[? [=]]|Hatomic] fr Hfr; rewrite Hatomic in Hfr; by rewrite HN in Hfr|done].
    split; [exact HsF|]. split; [intros _ fr Hfr; rewrite HF in Hfr; by injection Hfr as <-|].
    intros b' _. by apply (archived_flat lines lines).
  - set (f := chunk_name (len ps)). destruct (fate n2).
    2,3: split; [etrans; [exact Hs|apply set_chunk_elsewhere]|]; split; [intros _ fr Hfr; simpl in Hfr; by rewrite Hnone in Hfr|done].
    split; [etrans; [exact Hs|apply set_chunk_elsewhere]|]. split; [intros _ fr Hfr; simpl in Hfr; by rewrite Hnone in Hfr|].
    intros b' _. apply (archived_chunks (ps ++ [b :: buf]) lines (chunk_files date_str o1)); [done| | |done].
    + by rewrite concat_app; simpl; rewrite app_nil_r.
    + rewrite put_chunks_app, Z.add_0_l. cbn [put_chunks set_file]. rewrite chunk_files_set. simpl. fold f.
      fold (chunk_files date_str o2). by rewrite Hc.
Qed.

(** ** Archiving a partition *)

Context (row_org : Row -> Z) (reply : nat -> PgReply).

Lemma tree_insert org org' (o : OrgDir Row) c : tree org' (<[org := o]> c) = if decide (org' = org) then o else tree org' c.
Proof.
  unfold tree. destruct (decide (org' = org)) as [->|]; [by rewrite lookup_insert_eq|by rewrite lookup_insert_ne].
Qed.

Lemma archive_orgs_spec (rows : list Row) (org_ids acc : list Z) (c : trees Row) (n : nat) :
  (forall org, flat_complete (rows_of row_org org rows) (tree org c)) ->
  let '(r, c', n') := archive_orgs fate line_size header_size limit torn row_org date_str rows org_ids acc c n in
  (forall org, same_elsewhere date_str (tree org c) (tree org c'))
  /\ ((exists l, r = Ok l) \/ atomic_writes -> forall org, flat_complete (rows_of row_org org rows) (tree org c'))
  /\ (forall l, r = Ok l -> forall org, (org ∈ org_ids -> archived (rows_of row_org org rows) (tree org c'))
                                       /\ (org ∉ org_ids -> tree org c' = tree org c)).
Proof.
  revert acc c n. induction org_ids as [|x rest IH]; intros acc c n Hc; cbn [archive_orgs].
  { split; [done|]. split; [done|]. intros l _ org. split; [by intros ?%elem_of_nil|done]. }
  pose proof (archive_org_spec (rows_of row_org x rows) (tree x c) n (Hc x)) as Ho.
  destruct (archive_org _ _ _ _ _ _ _ (tree x c) n) as [[r o] n1]. destruct Ho as (Hs & Hf & Hr).
  assert (forall org, same_elsewhere date_str (tree org c) (tree org (<[x := o]> c))) as Hs1
    by (intros org; rewrite tree_insert; by destruct (decide (org = x)) as [->|]).
  assert ((exists b, r = Ok b) \/ atomic_writes -> forall org, flat_complete (rows_of row_org org rows) (tree org (<[x := o]> c))) as Hf1
    by (intros Hd org; rewrite tree_insert; destruct (decide (org = x)) as [->|]; [by apply Hf|apply Hc]).
  destruct r as [b|e].
  2: { split; [done|]. split; [|done]. intros [[? [=]]|Ha]. apply Hf1. by right. }
  specialize (IH (if b then acc ++ [x] else acc) (<[x := o]> c) n1 (Hf1 (or_introl (ex_intro _ b eq_refl)))).
  destruct (archive_orgs _ _ _ _ _ _ _ _ rest _ _ n1) as [[r c'] n2]. destruct IH as (Hs2 & Hf2 & Hr2).
  split; [intros org; etrans; [apply Hs1|apply Hs2]|]. split; [done|]. intros l El org.
  destruct (Hr2 l El org) as [Hin Hout]. split.
  - intros [->|Hrest]%elem_of_cons; [|by apply Hin]. destruct (decide (x ∈ rest)) as [|Hx]; [by apply Hin|].
    rewrite (Hout Hx), tree_insert, decide_True by done. by apply (Hr b).
  - intros [Hne Hx]%not_elem_of_cons. by rewrite (Hout Hx), tree_insert, decide_False.
Qed.

Lemma archive_partition_spec eligible rows (c : trees Row) n :
  (forall org, flat_complete (rows_of row_org org rows) (tree org c)) ->
  let '(r, c', n') := archive_partition_per_org fate line_size header_size limit torn row_org eligible date_str (Some rows) c n in
  (forall org, same_elsewhere date_str (tree org c) (tree org c'))
  /\ ((exists l, r = Ok l) \/ atomic_writes -> forall org, flat_complete (rows_of row_org org rows) (tree org c'))
  /\ (forall l, r = Ok l -> forall org, eligible org = true -> rows_of row_org org rows <> [] ->
        archived (rows_of row_org org rows) (tree org c')).
Proof.
  intros Hc. unfold archive_partition_per_org. set (org_ids := filter _ _).
  pose proof (archive_orgs_spec rows org_ids [] c n Hc) as H.
  destruct (archive_orgs _ _ _ _ _ _ _ _ org_ids _ c n) as [[r c'] n']. destruct H as (Hs & Hf & Hr).
  split; [done|]. split; [done|]. intros l El org He Hne. apply (Hr l El org). subst org_ids.
  apply list_elem_of_filter. split; [done|]. rewrite merge_sort_Permutation, elem_of_remove_dups.
  destruct (rows_of row_org org rows) as [|x l'] eqn:E; [done|].
  assert (x ∈ rows_of row_org org rows) as Hx by (rewrite E; left). apply list_elem_of_filter in Hx as [<- Hx].
  by apply list_elem_of_fmap_2.
Qed.



End archiving.

(** ** What retention deletes *)

Section expiry.
Context (fate : nat -> Outcome) {Row : Type} (cutoff : Z).

Lemma delete_counted_spec (fs : list ustr) (k : Z) (m : files Row) (n : nat) :
  let m' := (delete_counted fate fs k m n).1.2 in
  (forall f, f ∉ fs -> m' !! f = m !! f) /\ ((forall n, fate n = Works) -> forall f, f ∈ fs -> m' !! f = None).
Proof.
  revert k m n. induction fs as [|x fs IH]; intros k m n; cbn [delete_counted].
  { split; [done|]. by intros _ f ?%elem_of_nil. }
  assert (forall k m1 n, (forall f, f <> x -> m1 !! f = m !! f) -> ((forall n, fate n = Works) -> m1 !! x = None) ->
    let m' := (delete_counted fate fs k m1 n).1.2 in
    (forall f, f ∉ x :: fs -> m' !! f = m !! f) /\ ((forall n, fate n = Works) -> forall f, f ∈ x :: fs -> m' !! f = None)) as Hstep.
  { intros k' m1 n' Hm1 Hx. destruct (IH k' m1 n') as [Hout Hin]. split.
    - intros f [Hne Hf]%not_elem_of_cons. by rewrite Hout, Hm1.
    - intros Hw f [->|Hf]%elem_of_cons; [|by apply Hin]. destruct (decide (x ∈ fs)); [by apply Hin|]. by rewrite Hout, Hx. }
  destruct (fate n) eqn:E; apply Hstep; try done.
  - intros f Hne. by rewrite lookup_delete_ne.
  - intros _. apply lookup_delete_eq.
  - intros Hw. by rewrite Hw in E.
  - intros Hw. by rewrite Hw in E.
Qed.

(** The directories of the other dates stay; all files of an expired one go. *)
Lemma delete_date_files_spec (ds : list ustr) (k : Z) (o : OrgDir Row) (n : nat) :
  let o' := (foldl (delete_date_files fate) (k, o, n) ds).1.2 in
  day_files o' = day_files o
  /\ (forall d, d ∉ ds -> date_dirs o' !! d = date_dirs o !! d)
  /\ ((forall n, fate n = Works) -> forall d dd, d ∈ ds -> date_dirs o' !! d = Some dd -> hour_files dd = ∅).
Proof.
  revert k o n. induction ds as [|x ds IH]; intros k o n; cbn [foldl].
  { split_and!; [done..|]. by intros _ d dd ?%elem_of_nil. }
  destruct (delete_date_files fate (k, o, n) x) as [[k1 o1] n1] eqn:E1.
  assert (day_files o1 = day_files o /\ (forall d, d <> x -> date_dirs o1 !! d = date_dirs o !! d)
          /\ ((forall n, fate n = Works) -> forall dd, date_dirs o1 !! x = Some dd -> hour_files dd = ∅)) as (Hf1 & Hd1 & Hx1).
  { unfold delete_date_files in E1. destruct (date_dirs o !! x) as [dd|] eqn:Ex; [|simplify_eq; split_and!; [done..|congruence]].
    pose proof (delete_counted_spec (names (hour_files dd)) k (hour_files dd) n) as Hs.
    destruct (delete_counted fate _ _ _ n) as [[k2 m] n2]. simpl in Hs. destruct Hs as [Hout Hin]. simplify_eq.
    split; [done|]. split.
    - intros d Hne. cbn [date_dirs]. destruct (names m), (names (hour_dirs dd)); by rewrite ?lookup_delete_ne, ?lookup_insert_ne.
    - intros Hw dd' E'. assert (m = ∅) as ->.
      { apply map_eq. intros f. rewrite lookup_empty. destruct (decide (f ∈ names (hour_files dd))) as [|Hn]; [by apply Hin|].
        rewrite Hout by done. rewrite names_elem in Hn. by apply eq_None_not_Some. }
      cbn [date_dirs] in E'. destruct (names ∅), (names (hour_dirs dd)); rewrite ?lookup_delete_eq, ?lookup_insert_eq in E'; by simplify_eq. }
  specialize (IH k1 o1 n1). simpl in IH. destruct IH as (Hf & Hd & Hall). split_and!.
  - by rewrite Hf.
  - intros d [Hne Hds]%not_elem_of_cons. by rewrite Hd, Hd1.
  - intros Hw d dd [->|Hds]%elem_of_cons E; [|by apply (Hall Hw d)].
    destruct (decide (x ∈ ds)) as [|Hnot]; [by apply (Hall Hw x)|]. rewrite Hd in E by done. by apply (Hx1 Hw).
Qed.

(** Retention deletes only files of dates before the cutoff: every other date reads
    as before, in either layout, whatever deletions fail; and when none fails, nothing
    of an expired date is left to read in the layout of logs and issue events. *)
Theorem cleanup_cold_storage_spec (o : OrgDir Row) n :
  let o' := (cleanup_cold_storage_for_org fate cutoff o n).1.2 in
  (forall d, is_date_before_cutoff d cutoff = false -> org_date_rows d o' = org_date_rows d o /\ visible d o' ≡ₚ visible d o)
  /\ ((forall n, fate n = Works) -> forall d, is_date_before_cutoff d cutoff = true -> org_date_rows d o' = []).
Proof.
  unfold cleanup_cold_storage_for_org. set (expired := filter _ (names (day_files o))). set (dirs := filter _ (names (date_dirs o))).
  pose proof (delete_counted_spec expired 0 (day_files o) n) as Hflat.
  destruct (delete_counted fate expired 0 (day_files o) n) as [[k m] n1]. simpl in Hflat. destruct Hflat as [Hkeep Hgone].
  destruct (delete_date_files_spec dirs k {| day_files := m; date_dirs := date_dirs o |} n1) as (Hf & Hd & Hempty).
  cbn [day_files date_dirs] in *. set (o' := (foldl _ _ _).1.2) in *. split.
  - intros d Hnew.
    assert (day_files o' !! (d ++ parquet) = day_files o !! (d ++ parquet)) as Ef.
    { rewrite Hf. apply Hkeep. intros [[_ Hb]%andb_true_iff _]%list_elem_of_filter. rewrite stem_parquet in Hb. congruence. }
    assert (date_dirs o' !! d = date_dirs o !! d) as Ed by (apply Hd; intros [Hb _]%list_elem_of_filter; congruence).
    split; [unfold org_date_rows; by rewrite Ef, Ed|]. by rewrite !visible_spec, Ef, Ed.
  - intros Hw d Hold. unfold org_date_rows.
    assert (day_files o' !! (d ++ parquet) = None) as ->.
    { rewrite Hf. destruct (decide ((d ++ parquet) ∈ expired)) as [|Hn]; [by apply Hgone|]. rewrite Hkeep by done.
      apply eq_None_not_Some. intros Hsome. apply Hn, list_elem_of_filter. split; [|by apply names_elem].
      unfold is_parquet. by rewrite endswith_app, stem_parquet. }
    destruct (date_dirs o' !! d) as [dd|] eqn:E; [|done]. rewrite (Hempty Hw d dd); [done| |done].
    apply list_elem_of_filter. split; [done|]. apply names_elem.
    destruct (decide (d ∈ dirs)) as [[_ H]%list_elem_of_filter|Hn]; [by apply names_elem|]. rewrite Hd in E by done. by eexists.
Qed.
End expiry.

(** ** Rewriting without a project *)

(** ** The rows of a date as sums over names *)

Lemma concat_map_extend {A B} `{EqDecision A} (g : A -> list B) (l1 l2 : list A) :
  NoDup l1 -> NoDup l2 -> (forall x, x ∈ l1 -> x ∈ l2) -> (forall x, x ∈ l2 -> x ∉ l1 -> g x = []) ->
  concat (map g l1) ≡ₚ concat (map g l2).
Proof.
  intros H1 H2 Hsub Hnil. rewrite <- (concat_map_perm g _ _ (filter_app_complement (fun x => x ∈ l1) l2)), map_app, concat_app.
  rewrite (concat_map_perm g (filter (fun x => x ∈ l1) l2) l1).
  - assert (concat (map g (filter (fun x => x ∉ l1) l2)) = []) as ->; [|by rewrite app_nil_r].
    rewrite concat_map_filter. clear H2 Hsub. induction l2 as [|x l IH]; [done|]. simpl.
    rewrite IH by (intros y Hy; apply Hnil; by right). destruct (decide (x ∉ l1)); [|done]. by rewrite Hnil by (done || left).
  - apply NoDup_Permutation; [by apply NoDup_filter|done|]. intros x. rewrite list_elem_of_filter. naive_solver.
Qed.

Definition parquet_content {X} (m : files X) (f : ustr) : list X := if decide (is_parquet f = true) then content m f else [].

Lemma parquet_rows_over {X} (m : files X) (l : list ustr) :
  NoDup l -> (forall f, is_Some (m !! f) -> f ∈ l) -> parquet_rows m ≡ₚ concat (map (parquet_content m) l).
Proof.
  intros Hl Hsub. unfold parquet_rows, read_all, parquet_names. rewrite concat_map_filter.
  apply (concat_map_extend (parquet_content m)); [apply NoDup_sorted_names|done| |].
  - intros f Hf%sorted_names_elem. by apply Hsub.
  - intros f _ Hf. rewrite sorted_names_elem in Hf. unfold parquet_content, content.
    rewrite <- eq_None_not_Some in Hf. rewrite Hf. by destruct (decide _).
Qed.

Lemma filter_concat_map {A B} (P : B -> Prop) `{!forall x, Decision (P x)} (g : A -> list B) (l : list A) :
  filter P (concat (map g l)) = concat (map (fun x => filter P (g x)) l).
Proof. induction l as [|x l IH]; [done|]. simpl. by rewrite filter_app, IH. Qed.

(** Filtering every Parquet file filters the rows. *)
Lemma parquet_rows_filter {X} (P : X -> Prop) `{!forall x, Decision (P x)} (m m' : files X) :
  (forall f, is_parquet f = true -> content m' f = filter P (content m f)) -> parquet_rows m' ≡ₚ filter P (parquet_rows m).
Proof.
  intros Hm. set (l := remove_dups (names m ++ names m')).
  assert (NoDup l) as Hnd by apply NoDup_remove_dups.
  assert (forall f, is_Some (m !! f) -> f ∈ l) as H1 by (intros f Hf%names_elem; apply elem_of_remove_dups, elem_of_app; by left).
  assert (forall f, is_Some (m' !! f) -> f ∈ l) as H2 by (intros f Hf%names_elem; apply elem_of_remove_dups, elem_of_app; by right).
  rewrite (parquet_rows_over m' l Hnd H2). rewrite (parquet_rows_over m l Hnd H1), filter_concat_map.
  apply reflexive_eq. f_equal. apply map_ext. intros f. unfold parquet_content.
  destruct (decide (is_parquet f = true)) as [Hp|]; [by rewrite Hm|done].
Qed.

Definition open_content {X} (dd : DateDir X) (h : ustr) : list X :=
  if decide (sealed dd h) then [] else parquet_rows (default ∅ (hour_dirs dd !! h)).

Lemma open_rows_over {X} (dd : DateDir X) (l : list ustr) :
  NoDup l -> (forall h, is_Some (hour_dirs dd !! h) -> h ∈ l) -> open_rows dd ≡ₚ concat (map (open_content dd) l).
Proof.
  intros Hl Hsub. rewrite <- (concat_map_extend (open_content dd) (names (hour_dirs dd)) l); [|apply NoDup_fst_map_to_list|done|..].
  - unfold open_rows, names. rewrite map_map. erewrite map_ext_in; [reflexivity|]. intros [h m] Hin.
    apply list_elem_of_In, elem_of_map_to_list in Hin. unfold open_content. cbn [fst snd]. by rewrite Hin.
  - intros h Hh%names_elem. by apply Hsub.
  - intros h _ Hh. rewrite names_elem in Hh. unfold open_content. rewrite <- eq_None_not_Some in Hh. rewrite Hh.
    destruct (decide _); [done|]. apply parquet_rows_none. intros f [x Hx]. done.
Qed.

#[export] Instance path_eq_dec : EqDecision Path.
Proof. solve_decision. Defined.

Section removal.
Context (fate : nat -> Outcome) {Row : Type} (keep : Row -> bool).

Definition kept (rows : list Row) : list Row := filter (fun r => keep r = true) rows.

(** What becomes of a file. *)
Definition shrink (c : option (list Row)) : option (list Row) :=
  match c with
  | Some rows => match kept rows with [] => None | l => Some l end
  | None => None
  end.

Lemma kept_kept rows : kept (kept rows) = kept rows.
Proof. unfold kept. induction rows as [|r l IH]; [done|]. rewrite !filter_cons. destruct (decide (keep r = true)); [|done].
  rewrite filter_cons, decide_True by done. by rewrite IH. Qed.

Lemma shrink_shrink c : shrink (shrink c) = shrink c.
Proof.
  destruct c as [rows|]; [|done]. simpl. pose proof (kept_kept rows) as Hk. destruct (kept rows) as [|r l] eqn:E; [done|].
  cbn [shrink]. by rewrite Hk.
Qed.

Lemma content_shrink c : default [] (shrink c) = kept (default [] c).
Proof. destruct c as [rows|]; [|done]. simpl. by destruct (kept rows). Qed.

(** The files of the two upper levels of a tree. *)
Definition file_at (o : OrgDir Row) (p : Path) : option (list Row) :=
  match p with
  | DayPath f => day_files o !! f
  | HourPath d f => chunk_files d o !! f
  | ChunkPath d h f => default ∅ (hour_dirs (get_date d o) !! h) !! f
  end.

Lemma read_path_file (o : OrgDir Row) p : read_path o p = default [] (file_at o p).
Proof.
  destruct p as [f|d f|d h f]; simpl; [done| |]; unfold chunk_files, get_date; destruct (date_dirs o !! d) as [dd|]; try done.
  simpl. by destruct (hour_dirs dd !! h).
Qed.

Lemma get_date_set {X} d d' (dd : DateDir X) o : get_date d' (set_date d dd o) = if decide (d' = d) then dd else get_date d' o.
Proof.
  destruct (decide (d' = d)) as [->|Hne]; [by rewrite get_set_date|]. unfold get_date. by rewrite set_date_ne.
Qed.

Lemma file_at_set (o : OrgDir Row) p c p' : file_at (set_file p c o) p' = if decide (p' = p) then c else file_at o p'.
Proof.
  destruct p as [f|d f|d h f], p' as [f'|d' f'|d' h' f']; cbn [file_at set_file day_files]; unfold chunk_files;
    rewrite ?get_date_set, ?(decide_False (P := _ = _ :> Path)) by done; try (by destruct (decide (d' = d)) as [->|]); try done.
  - destruct (decide (f' = f)) as [->|Hne]; [by rewrite lookup_partial_alter_eq, decide_True|].
    rewrite lookup_partial_alter_ne, decide_False by congruence. done.
  - destruct (decide (d' = d)) as [->|Hne]; [|by rewrite decide_False by congruence]. cbn [hour_files].
    destruct (decide (f' = f)) as [->|Hne]; [by rewrite lookup_partial_alter_eq, decide_True|].
    rewrite lookup_partial_alter_ne, decide_False by congruence. done.
  - destruct (decide (d' = d)) as [->|Hne]; [|by rewrite decide_False by congruence]. cbn [hour_dirs].
    destruct (decide (h' = h)) as [->|Hne]; [|by rewrite lookup_insert_ne, decide_False by congruence].
    rewrite lookup_insert_eq. cbn [default from_option Datatypes.id].
    destruct (decide (f' = f)) as [->|Hne]; [by rewrite lookup_partial_alter_eq, decide_True|].
    rewrite lookup_partial_alter_ne, decide_False by congruence. done.
Qed.

Hypothesis Hworks : forall n, fate n = Works.

Lemma len_zero {A} (l : list A) : (len l =? 0) = true <-> l = [].
Proof. unfold len. destruct l; simpl; split; intros; try done; lia. Qed.

Lemma kept_all rows : len (kept rows) = len rows -> kept rows = rows.
Proof.
  unfold len, kept. induction rows as [|r l IH]; [done|]. rewrite !filter_cons.
  destruct (decide (keep r = true)); cbn [length]; intros E.
  - f_equal. apply IH. lia.
  - pose proof (length_filter (fun r => keep r = true) l). lia.
Qed.

Lemma rewrite_file_spec k (o : OrgDir Row) n p p' :
  file_at (rewrite_file fate keep (k, o, n) p).1.2 p' = if decide (p' = p) then shrink (file_at o p) else file_at o p'.
Proof.
  unfold rewrite_file. rewrite !Hworks, read_path_file. fold (kept (default [] (file_at o p))).
  destruct (len (kept _) =? 0) eqn:Ez.
  - apply len_zero in Ez. cbn [fst snd]. rewrite file_at_set. destruct (decide (p' = p)) as [->|]; [|done].
    destruct (file_at o p) as [rows|]; [|done]. simpl in *. by rewrite Ez.
  - destruct (file_at o p) as [rows|] eqn:Ef; [|done]. cbn [default from_option Datatypes.id] in *.
    assert (shrink (Some rows) = Some (kept rows)) as Es.
    { simpl. destruct (kept rows); [done|done]. }
    rewrite Es. destruct (len (kept rows) =? len rows) eqn:El; cbn [fst snd].
    + apply Z.eqb_eq, kept_all in El. rewrite El. destruct (decide (p' = p)) as [->|]; [done|done].
    + by rewrite file_at_set.
Qed.

Lemma rewrite_files_spec (ps : list Path) k (o : OrgDir Row) n p' :
  file_at (foldl (rewrite_file fate keep) (k, o, n) ps).1.2 p' = if decide (p' ∈ ps) then shrink (file_at o p') else file_at o p'.
Proof.
  revert k o n. induction ps as [|p ps IH]; intros k o n; cbn [foldl]; [done|].
  pose proof (rewrite_file_spec k o n p p') as Hp. destruct (rewrite_file fate keep (k, o, n) p) as [[k1 o1] n1].
  cbn [fst snd] in Hp. rewrite IH, Hp. destruct (decide (p' = p)) as [->|Hne].
  - rewrite (decide_True (P := p ∈ p :: ps)) by left. rewrite shrink_shrink. by destruct (decide _).
  - destruct (decide (p' ∈ ps)); [by rewrite decide_True by (by right)|]. rewrite decide_False; [done|]. by intros [?|?]%elem_of_cons.
Qed.

(** *** The rows of a date afterwards *)

Lemma parquet_rows_shrink (m m' : files Row) :
  (forall f, is_parquet f = true -> m' !! f = shrink (m !! f)) -> parquet_rows m' ≡ₚ kept (parquet_rows m).
Proof. intros Hm. apply parquet_rows_filter. intros f Hf. unfold content. by rewrite Hm, content_shrink. Qed.

(** The paths of the enumeration. *)
Lemma elem_enumerate_org test (o : OrgDir Row) p :
  p ∈ enumerate_org_files test o <->
  match p with
  | DayPath f => is_parquet f = true /\ test (stem f) = true /\ is_Some (file_at o p)
  | HourPath d f => test d = true /\ day_files o !! (d ++ parquet) = None /\ is_parquet f = true /\ is_Some (file_at o p)
  | ChunkPath _ _ _ => False
  end.
Proof.
  unfold enumerate_org_files.
  rewrite elem_of_app, list_elem_of_fmap, (list_elem_of_In (concat _) p), in_concat.
  split.
  - intros [(f & -> & [Hp%andb_true_iff Hf%sorted_names_elem]%list_elem_of_filter)|(l & (d & <- & Hd)%in_map_iff & Hin)]; [tauto|].
    apply list_elem_of_In, list_elem_of_filter in Hd as [[Hnot Ht] Hd].
    destruct (date_dirs o !! d) as [dd|] eqn:E; [|done]. apply in_map_iff in Hin as (f & <- & Hf).
    apply list_elem_of_In, list_elem_of_filter in Hf as [Hp Hf%sorted_names_elem]. split_and!; [done| |done|].
    + apply eq_None_not_Some. intros Hs. apply Hnot. rewrite <- (stem_parquet d). apply list_elem_of_fmap_2, list_elem_of_filter.
      split; [unfold is_parquet; by rewrite endswith_app, stem_parquet|by apply sorted_names_elem].
    + simpl. unfold chunk_files, get_date. by rewrite E.
  - destruct p as [f|d f|d h f]; [| |done].
    + intros (Hp & Ht & Hf). left. exists f. split; [done|]. apply list_elem_of_filter. by rewrite Hp, Ht, sorted_names_elem.
    + intros (Ht & Hno & Hp & Hf). right. simpl in Hf. unfold chunk_files, get_date in Hf.
      destruct (date_dirs o !! d) as [dd|] eqn:E; [|by destruct Hf]. exists (map (HourPath d) (parquet_names (hour_files dd))). split.
      * apply in_map_iff. exists d. rewrite E. split; [done|]. apply list_elem_of_In, list_elem_of_filter.
        split; [|apply sorted_names_elem; by eexists]. split; [|done].
        intros (f' & Ed & [Hp'%andb_true_iff Hf']%list_elem_of_filter)%list_elem_of_fmap. apply sorted_names_elem in Hf'.
        rewrite Ed, <- (parquet_stem f' (proj1 Hp')), eq_None_not_Some in Hno. by apply Hno.
      * apply in_map_iff. exists f. split; [done|]. apply list_elem_of_In, list_elem_of_filter. by rewrite sorted_names_elem.
Qed.

(** A complete file of a day has no leftover chunks beside it. *)
Definition unshadowed (o : OrgDir Row) : Prop :=
  forall d, is_Some (day_files o !! (d ++ parquet)) -> parquet_rows (chunk_files d o) = [].

Lemma parquet_rows_ext (m m' : files Row) : (forall f, is_parquet f = true -> m' !! f = m !! f) -> parquet_rows m' ≡ₚ parquet_rows m.
Proof.
  intros Hm. rewrite (parquet_rows_filter (fun _ => True) m m'); [by rewrite filter_all by (by apply Forall_true)|].
  intros f Hf. unfold content. rewrite Hm by done. by rewrite filter_all by (by apply Forall_true).
Qed.

Definition rewritten_paths (tiered : bool) (o : OrgDir Row) : list Path :=
  if tiered then enumerate_hour_tiered_files (fun _ => true) o else enumerate_org_parquet_files None o.

Section rewritten.
Context (o : OrgDir Row) (n : nat) (d : ustr).

Lemma rewritten_file tiered p :
  file_at (rewrite_parquet_excluding_project fate tiered keep o n).1.2 p
  = if decide (p ∈ rewritten_paths tiered o) then shrink (file_at o p) else file_at o p.
Proof. apply rewrite_files_spec. Qed.

(** The file of the day shrinks; the chunks shrink if there is none and stay otherwise. *)
Lemma rewritten_day f :
  is_parquet f = true ->
  day_files (rewrite_parquet_excluding_project fate false keep o n).1.2 !! f = shrink (day_files o !! f).
Proof.
  intros Hp. pose proof (rewritten_file false (DayPath f)) as H. cbn [file_at] in H. rewrite H. destruct (decide _) as [|Hno]; [done|].
  cbn [rewritten_paths] in Hno. unfold enumerate_org_parquet_files in Hno. rewrite elem_enumerate_org in Hno. cbn [file_at] in Hno.
  destruct (day_files o !! f); [|done]. exfalso. apply Hno. split_and!; [done..|by eexists].
Qed.

Lemma rewritten_chunk f :
  is_parquet f = true ->
  chunk_files d (rewrite_parquet_excluding_project fate false keep o n).1.2 !! f
  = match day_files o !! (d ++ parquet) with Some _ => chunk_files d o !! f | None => shrink (chunk_files d o !! f) end.
Proof.
  intros Hp. pose proof (rewritten_file false (HourPath d f)) as H. cbn [file_at] in H. rewrite H.
  destruct (decide _) as [Hin|Hno]; [apply elem_enumerate_org in Hin as (_ & -> & _ & _); done|].
  destruct (day_files o !! (d ++ parquet)) eqn:E; [done|]. destruct (chunk_files d o !! f) eqn:Ef; [|done].
  exfalso. apply Hno, elem_enumerate_org. split_and!; [done..|]. simpl. by eexists.
Qed.

(** Deleting a project rewrites every file its rows can be read from: when every call
    works, a query over any date reads exactly the rows of the other projects, provided no
    chunks are left beside the file of their day. *)
Theorem project_rows_removed :
  unshadowed o ->
  org_date_rows d (rewrite_parquet_excluding_project fate false keep o n).1.2 ≡ₚ kept (org_date_rows d o).
Proof.
  intros Hun. pose proof (rewritten_day (d ++ parquet) (endswith_app _ _)) as Hday. pose proof rewritten_chunk as Hchunk.
  specialize (Hun d). set (o' := (rewrite_parquet_excluding_project _ _ _ _ _).1.2) in *.
  destruct (day_files o !! (d ++ parquet)) as [rows|] eqn:E.
  - unfold org_date_rows at 2. rewrite E. simpl in Hday. destruct (kept rows) as [|r l] eqn:Ek.
    + rewrite org_date_rows_chunks by done. rewrite (parquet_rows_ext (chunk_files d o)) by done. by rewrite Hun by eauto.
    + unfold org_date_rows. by rewrite Hday.
  - rewrite !org_date_rows_chunks by done. by apply parquet_rows_shrink.
Qed.
End rewritten.
End removal.

(** ** Reading the newest rows *)

Section newest.
Context {Row : Type} (row_id : Row -> Z) (can_delete : Path -> bool).

Abbreviation later := (fun a b : Row => row_id b < row_id a).

Lemma newest_first_unique (l s : list Row) : l ≡ₚ s -> StronglySorted later s -> newest_first row_id l = s.
Proof.
  intros Hp Hs. assert (forall x y, x ∈ s -> y ∈ s -> row_id x = row_id y -> x = y) as Hinj.
  { clear Hp. induction Hs as [|a s Hs IH Ha]; intros x y Hx Hy E; [by apply elem_of_nil in Hx|]. rewrite Forall_forall in Ha.
    apply elem_of_cons in Hx as [Hx|Hx]; apply elem_of_cons in Hy as [Hy|Hy]; [congruence| | |by apply IH].
    - subst x. specialize (Ha y Hy). simpl in Ha. lia.
    - subst y. specialize (Ha x Hx). simpl in Ha. lia. }
  apply (StronglySorted_unique_strong (newer row_id)).
  - intros x y Hx Hy H1 H2. unfold newest_first in Hx. rewrite merge_sort_Permutation, Hp in Hx. apply Hinj; [done..|].
    unfold newer in *. lia.
  - apply Sorted_StronglySorted; [unfold newer; intros a b c; lia|]. apply Sorted_merge_sort. intros a b. unfold newer. lia.
  - clear Hp Hinj. induction Hs as [|a s Hs IH Ha]; constructor; [done|]. eapply Forall_impl; [exact Ha|]. unfold newer. simpl. lia.
  - unfold newest_first. by rewrite merge_sort_Permutation.
Qed.

Lemma StronglySorted_sublist {A} (R : A -> A -> Prop) (l1 l2 : list A) : sublist l1 l2 -> StronglySorted R l2 -> StronglySorted R l1.
Proof.
  induction 1 as [|x l1 l2 Hs IH|x l1 l2 Hs IH]; intros H; [constructor| |]; apply StronglySorted_inv in H as [H Hx]; [|by apply IH].
  constructor; [by apply IH|]. rewrite Forall_forall in Hx |- *. intros y Hy. apply Hx. by eapply sublist_subseteq.
Qed.

Lemma newest_first_sorted (l : list Row) : NoDup (map row_id l) -> StronglySorted later (newest_first row_id l).
Proof.
  intros Hnd. assert (NoDup (map row_id (newest_first row_id l))) as Hnd'.
  { unfold newest_first. by rewrite (Permutation_map row_id (merge_sort_Permutation (newer row_id) l)). }
  assert (StronglySorted (newer row_id) (newest_first row_id l)) as Hs.
  { apply Sorted_StronglySorted; [unfold newer; intros a b c; lia|]. apply Sorted_merge_sort. intros a b. unfold newer. lia. }
  induction Hs as [|a s Hs IH Ha]; constructor; cbn [map] in Hnd'; apply NoDup_cons in Hnd' as [Hnot Hnd'].
  - by apply IH.
  - rewrite Forall_forall in Ha |- *. intros b Hb. specialize (Ha b Hb). unfold newer in Ha.
    destruct (decide (row_id b = row_id a)) as [E|]; [|lia]. exfalso. apply Hnot. rewrite <- E. by apply list_elem_of_fmap_2.
Qed.

(** The loop over the files, newest first, stops early without missing a row. *)
Definition file_rows (w : Row -> bool) (o : OrgDir Row) (p : Path) : list Row :=
  newest_first row_id (filter (fun r => w r = true) (read_path o p)).

Lemma query_files_spec w limit ps acc (o : OrgDir Row) :
  0 <= limit ->
  exists rows, query_files row_id (fun _ => Readable) can_delete w limit ps acc o = (Ok rows, o)
    /\ take (Z.to_nat limit) rows = take (Z.to_nat limit) (acc ++ concat (map (file_rows w o) ps))
    /\ sublist rows (acc ++ concat (map (file_rows w o) ps)).
Proof.
  intros Hl. set (n := Z.to_nat limit). revert acc. induction ps as [|p rest IH]; intros acc; cbn [query_files map concat].
  { exists acc. by rewrite app_nil_r. }
  assert (select row_id w limit (read_path o p) = take n (file_rows w o p)) as ->.
  { unfold select, slice_to. by destruct (limit <? 0) eqn:E; [lia|]. }
  set (F := file_rows w o p). set (X := concat (map (file_rows w o) rest)) in *.
  destruct (Z.leb_spec limit (len (acc ++ take n F))) as [Hstop|Hgo].
  - exists (acc ++ take n F). split; [done|]. unfold len in Hstop. rewrite length_app, length_take in Hstop. split.
    + rewrite (app_assoc acc), (take_app_le (acc ++ F)) by (rewrite length_app; lia).
      rewrite !take_app. f_equal. rewrite take_take. f_equal. lia.
    + apply sublist_app; [done|]. etrans; [apply sublist_take|]. by apply sublist_inserts_r.
  - unfold len in Hgo. rewrite length_app, length_take in Hgo. assert (take n F = F) as -> by (apply take_ge; lia).
    destruct (IH (acc ++ F)) as (rows & E & Ht & Hs). exists rows. by rewrite <- app_assoc in Ht, Hs.
Qed.

(** Files in the order of the ids in them. *)
Definition time_ordered (o : OrgDir Row) (ps : list Path) : Prop :=
  StronglySorted (fun p q => forall r r', r ∈ read_path o p -> r' ∈ read_path o q -> row_id r < row_id r') ps.

Lemma file_rows_elem w (o : OrgDir Row) p r : r ∈ file_rows w o p -> r ∈ read_path o p.
Proof. unfold file_rows, newest_first. rewrite merge_sort_Permutation. by intros [_ ?]%list_elem_of_filter. Qed.

Lemma files_sorted w (o : OrgDir Row) (ps : list Path) :
  time_ordered o ps -> (forall p, p ∈ ps -> NoDup (map row_id (read_path o p))) ->
  StronglySorted later (concat (map (file_rows w o) (rev ps))).
Proof.
  induction 1 as [|p ps Hs IH Hp]; intros Hnd; [constructor|]. cbn [rev]. rewrite map_app, concat_app. cbn [map concat].
  rewrite app_nil_r. apply StronglySorted_app_2.
  - intros a b Ha Hb%file_rows_elem. apply list_elem_of_In, in_concat in Ha as (l & (q & <- & Hq)%in_map_iff & Ha).
    apply list_elem_of_In, file_rows_elem in Ha. apply list_elem_of_In, list_elem_of_In in Hq.
    rewrite Forall_forall in Hp. apply (Hp q); [by apply list_elem_of_In, in_rev|done|done].
  - apply IH. intros q Hq. apply Hnd. by right.
  - apply newest_first_sorted. assert (NoDup (map row_id (read_path o p))) as H by (apply Hnd; left).
    eapply sublist_NoDup; [exact H|]. apply (fmap_sublist row_id), sublist_filter.
Qed.

Lemma files_rows_perm w (o : OrgDir Row) (ps : list Path) :
  concat (map (file_rows w o) (rev ps)) ≡ₚ filter (fun r => w r = true) (read_paths o ps).
Proof.
  rewrite (concat_map_perm _ _ ps) by (symmetry; apply Permutation_rev). unfold read_paths.
  induction ps as [|p ps IH]; [done|]. cbn [map concat]. rewrite filter_app. apply Permutation_app; [|exact IH].
  unfold file_rows, newest_first. by rewrite merge_sort_Permutation.
Qed.

(** Stopping at the first files with enough rows is right. *)
Lemma query_parquet_newest range w limit (o : OrgDir Row) :
  0 <= limit ->
  let ps := enumerate_org_parquet_files range o in
  time_ordered o ps -> (forall p, p ∈ ps -> NoDup (map row_id (read_path o p))) ->
  let all := newest_first row_id (filter (fun r => w r = true) (read_paths o ps)) in
  StronglySorted later all /\
  exists rows, query_cold_parquet_files row_id (fun _ => Readable) can_delete true range w limit o = (Ok rows, o)
    /\ take (Z.to_nat limit) rows = take (Z.to_nat limit) all /\ sublist rows all.
Proof.
  intros Hl ps Hord Hnd. cbv zeta. unfold query_cold_parquet_files. fold ps.
  destruct (query_files_spec w limit (rev ps) [] o Hl) as (rows & E & Ht & Hsub). simpl in Ht, Hsub.
  pose proof (files_sorted w o ps Hord Hnd) as Hs. set (S := concat (map (file_rows w o) (rev ps))) in *.
  assert (newest_first row_id (filter (fun r => w r = true) (read_paths o ps)) = S) as ->
    by (apply newest_first_unique; [symmetry; apply files_rows_perm|done]).
  split; [done|]. destruct ps as [|p l]; [by exists []|]. by exists rows.
Qed.

Lemma slice_to_nonneg {A} n (l : list A) : 0 <= n -> slice_to n l = take (Z.to_nat n) l.
Proof. intros Hn. unfold slice_to. by destruct (Z.ltb_spec n 0); [lia|]. Qed.

(** Stopping at the first files with enough rows is right: when the files a query
    enumerates follow the order of the ids in them, it returns the newest rows, up to the
    limit, of all rows in the range that match. *)
Theorem query_returns_newest start_dt end_dt matches limit (o : OrgDir Row) :
  0 <= limit ->
  let ps := enumerate_org_parquet_files (Some (start_dt, end_dt)) o in
  time_ordered o ps -> (forall p, p ∈ ps -> NoDup (map row_id (read_path o p))) ->
  let bounds := get_range_for_date start_dt end_dt in
  query_cold_events row_id (fun _ => Readable) can_delete true start_dt end_dt matches limit o
  = (Ok (slice_to limit (newest_first row_id
           (filter (fun r => (bounds.1 <=? row_id r) && (row_id r <? bounds.2) && matches r = true) (read_paths o ps)))), o).
Proof.
  intros Hl ps Hord Hnd bounds. unfold query_cold_events. subst bounds. destruct (get_range_for_date start_dt end_dt) as [a b]. cbn [fst snd].
  destruct (query_parquet_newest (Some (start_dt, end_dt)) (fun r => (a <=? row_id r) && (row_id r <? b) && matches r) limit o Hl Hord Hnd) as (Hs & rows & E & Ht & Hsub).
  rewrite E. cbn [res_bind]. rewrite (newest_first_unique rows rows) by (done || by eapply StronglySorted_sublist).
  by rewrite !slice_to_nonneg, Ht by done.
Qed.
End newest.

(** ** Finding an archived event *)

(** Every row of a date is in a file that the paths of the date name. *)
Lemma date_row_enumerated {Row} test d (o : OrgDir Row) r :
  test d = true -> r ∈ org_date_rows d o -> exists p, p ∈ enumerate_org_files test o /\ r ∈ read_path o p.
Proof.
  intros Ht Hr. unfold org_date_rows in Hr. destruct (day_files o !! (d ++ parquet)) as [rows|] eqn:E.
  - exists (DayPath (d ++ parquet)). split.
    + apply elem_enumerate_org. cbn [file_at]. unfold is_parquet. rewrite endswith_app, stem_parquet, E. by split_and!.
    + simpl. unfold content. by rewrite E.
  - destruct (date_dirs o !! d) as [dd|] eqn:Ed; [|by apply elem_of_nil in Hr]. unfold parquet_rows, read_all in Hr.
    apply list_elem_of_In, in_concat in Hr as (l & (f & <- & Hf)%in_map_iff & Hr).
    apply list_elem_of_In, list_elem_of_filter in Hf as [Hp Hf%sorted_names_elem]. exists (HourPath d f). split.
    + apply elem_enumerate_org. cbn [file_at]. unfold chunk_files, get_date. rewrite Ed. by split_and!.
    + simpl. rewrite Ed. by apply list_elem_of_In.
Qed.

Lemma find_event_spec {Row} (row_id : Row -> Z) event_id ps (o : OrgDir Row) p r :
  p ∈ ps -> r ∈ read_path o p -> row_id r = event_id ->
  exists r', find_event row_id (fun _ => Readable) event_id ps o = Ok (Some r') /\ row_id r' = event_id.
Proof.
  intros Hp Hr Hid. induction ps as [|q ps IH]; [by apply elem_of_nil in Hp|]. cbn [find_event].
  destruct (find_first _ (read_path o q)) as [r'|] eqn:E.
  - exists r'. split; [done|]. apply find_first_Some in E as [_ E]. by apply Z.eqb_eq in E.
  - apply elem_of_cons in Hp as [->|Hp]; [|by apply IH]. pose proof (proj1 (find_first_None _ _) E r Hr) as Hn. simpl in Hn. lia.
Qed.

(** The time in a key is of the day of the time it was made for. *)
Lemma key_day us : time_ok us -> timestamp_ms us * 1000 / ONE_DAY = us / ONE_DAY.
Proof.
  intros Hok. destruct (timestamp_ms_bounds us Hok) as [[Hlo Hhi] Hex].
  pose proof (Z.div_mod us 1000 ltac:(lia)) as Eu. pose proof (Z.mod_pos_bound us 1000 ltac:(lia)) as Bu.
  pose proof (Z.div_mod us ONE_DAY ltac:(done)) as Ed. pose proof (Z.mod_pos_bound us ONE_DAY ltac:(done)) as Bd.
  change ONE_DAY with 86400000000 in *. set (d := us / 86400000000) in *. symmetry.
  assert (d * 86400000000 <= timestamp_ms us * 1000 <= us) as Hb.
  { split; [|lia]. destruct (decide (us mod 1000 = 0)) as [Hz|Hz]; [|rewrite Hex by done; lia].
    destruct (decide (us mod 86400000000 = 0)) as [Hd|]; [|lia].
    assert (us = d * 86400 * 1000000) as Es by lia. unfold time_ok in Hok.
    rewrite Es, timestamp_ms_seconds by lia. lia. }
  apply (Z.div_unique _ _ _ (timestamp_ms us * 1000 - d * 86400000000)); lia.
Qed.

Section lookup.
Context (fate : nat -> Outcome) (reply : nat -> PgReply) {Row : Type} (line_size : Row -> Z) (header_size limit : Z).
Context (torn : list Row -> option (list Row)) (row_org row_id : Row -> Z).

Lemma date_in_own_range us : time_ok us -> let d := us / ONE_DAY in
  parse_date (date_name d) = Some (d * ONE_DAY) /\ in_range (Some (d * ONE_DAY, d * ONE_DAY + ONE_DAY)) (date_name d) = true.
Proof.
  intros [H0 H1] d. assert (parse_date (date_name d) = Some (d * ONE_DAY)) as Hp.
  { apply dates_parse. subst d. change ONE_DAY with 86400000000. unfold last_day.
    split; [apply Z.div_pos; lia|apply Z.div_lt_upper_bound; lia]. }
  split; [done|]. simpl. unfold date_in_range. rewrite Hp. change ONE_DAY with 86400000000. lia.
Qed.

(** An event in the files of the day of its key is found by its id. *)
Lemma event_found us random_a random_b (row : Row) (o : OrgDir Row) :
  time_ok us -> from_datetime us random_a random_b = Ok (row_id row) -> row ∈ org_date_rows (date_name (us / ONE_DAY)) o ->
  exists row', event_from_cold row_id (fun _ => Readable) (row_id row) o = Ok (Some row') /\ row_id row' = row_id row.
Proof.
  intros Hok Hkey Hrow. unfold event_from_cold. rewrite (extract_key us random_a random_b _ Hok Hkey).
  unfold get_event_from_cold. rewrite key_day by done. destruct (date_in_own_range us Hok) as [Hp Ht].
  unfold get_parquet_paths_for_date. rewrite Hp. destruct (date_row_enumerated _ _ o row Ht Hrow) as (p & Hin & Hr).
  by eapply find_event_spec.
Qed.

(** C29: an event of a paying organization that its partition held when the run that
    archived and dropped the partition started, is still found by its id afterwards: the day
    read from its UUIDv7 is that of the partition, and whichever files archiving wrote for
    the organization, one of those the lookup reads has the row.  The day files that were
    there before the run are taken to be complete, and the files to be readable. *)
Theorem archived_event_found eligible partition_name t (c : trees Row) k t' c' k' us random_a random_b row :
  name_date partition_name = Some (date_name (us / ONE_DAY)) ->
  (forall org, flat_complete (date_name (us / ONE_DAY)) (rows_of row_org org (t_rows t)) (tree org c)) ->
  archive_and_swap_partition fate line_size header_size limit torn row_org reply eligible partition_name (Some t) c k
    = (Ok true, t', c', k') ->
  time_ok us -> from_datetime us random_a random_b = Ok (row_id row) -> row ∈ t_rows t -> eligible (row_org row) = true ->
  exists row', event_from_cold row_id (fun _ => Readable) (row_id row) (tree (row_org row) c') = Ok (Some row')
    /\ row_id row' = row_id row.
Proof.
  intros Hname Hc Hswap Hok Hkey Hrow He. set (d := date_name (us / ONE_DAY)) in *. unfold archive_and_swap_partition in Hswap.
  rewrite Hname in Hswap. cbn [fmap option_fmap option_map] in Hswap.
  pose proof (archive_partition_spec fate line_size header_size limit torn d row_org eligible (t_rows t) c (c_storage k) Hc) as H.
  destruct (archive_partition_per_org _ _ _ _ _ _ _ _ _ c _) as [[[l|e] c1] n1]; [|done]. destruct H as (_ & _ & Har).
  assert (c1 = c') as -> by (destruct (detach_partition _ _ _ _) as [[[x|e] tb] m]; [destruct (drop_partition _ _ _) as [[r tb'] m']|]; by simplify_eq).
  assert (row ∈ rows_of row_org (row_org row) (t_rows t)) as Hmine by (by apply list_elem_of_filter).
  destruct (Har l eq_refl (row_org row) He) as [Hsub _]; [intros E; rewrite E in Hmine; by apply elem_of_nil in Hmine|].
  apply (event_found us random_a random_b); [done..|]. fold d. by eapply elem_of_submseteq.
Qed.
End lookup.

(** ** Purging a tree *)

Section purging.
Context (fate : nat -> Outcome).

(** The files of a tree, as paths. *)
Fixpoint file_paths (t : Dir) : list (list ustr) :=
  match t with
  | MkDir fs ds =>
      map (fun f => [f]) fs ++
      (fix go (ds : list (ustr * Dir)) : list (list ustr) :=
         match ds with
         | [] => []
         | (name, d) :: rest => map (cons name) (file_paths d) ++ go rest
         end) ds
  end.

Definition left_paths (t : option Dir) : list (list ustr) := match t with Some t => file_paths t | None => [] end.

Lemma purge_files_spec fs n :
  let '(rest, k, _) := purge_files fate fs n in
  sublist rest fs /\ k + len rest = len fs /\ ((forall n, fate n = Works) -> rest = []).
Proof.
  revert n. induction fs as [|f fs IH]; intros n; cbn [purge_files]; [done|]. specialize (IH (S n)).
  destruct (purge_files fate fs (S n)) as [[rest k] n']. destruct IH as (Hs & Hk & Hw). unfold len in *.
  destruct (fate n) eqn:E; (split; [by constructor|]); (split; [simpl; lia|]); intros Hall; [by apply Hw|by rewrite Hall in E..].
Qed.

(** What a directory's purge promises. *)
Definition purged (before after : list (list ustr)) (k : Z) : Prop :=
  sublist after before /\ k + len after = len before /\ ((forall n, fate n = Works) -> after = []).

Lemma purged_app a1 b1 k1 a2 b2 k2 : purged a1 b1 k1 -> purged a2 b2 k2 -> purged (a1 ++ a2) (b1 ++ b2) (k1 + k2).
Proof.
  intros (Hs1 & Hk1 & Hw1) (Hs2 & Hk2 & Hw2). split; [by apply sublist_app|]. split.
  - unfold len in *. rewrite !length_app. lia.
  - intros Hall. by rewrite Hw1, Hw2.
Qed.

Lemma purged_map {A} (f : A -> list ustr) before after k :
  sublist after before -> k + len after = len before -> ((forall n, fate n = Works) -> after = []) ->
  purged (map f before) (map f after) k.
Proof.
  intros Hs Hk Hw. split; [by apply (fmap_sublist f)|]. split; [unfold len in *; by rewrite !length_map|].
  intros Hall. by rewrite Hw.
Qed.

(** Purging the tree of a deleted organization, of any depth, deletes or keeps each of
    its files, counts exactly the deleted ones, and when no deletion fails leaves nothing. *)
Theorem purge_tree_spec (t : Dir) n :
  let '(k, rest, _) := purge_tree fate t n in
  sublist (left_paths rest) (file_paths t) /\ k + len (left_paths rest) = len (file_paths t)
  /\ ((forall n, fate n = Works) -> rest = None /\ k = len (file_paths t)).
Proof.
  assert (forall t n, let '(k, rest, _) := purge_tree fate t n in
    purged (file_paths t) (left_paths rest) k /\ ((forall n, fate n = Works) -> rest = None)) as Hall.
  { clear t n. fix IH 1. intros [fs ds] n. cbn [purge_tree file_paths]. pose proof (purge_files_spec fs n) as Hf.
    destruct (purge_files fate fs n) as [[lf k0] n0]. destruct Hf as (Hs & Hk & Hw).
    set (go := fix go (ds : list (ustr * Dir)) k n := match ds with [] => _ | _ => _ end).
    set (paths := fix go (ds : list (ustr * Dir)) := match ds with [] => _ | _ => _ end).
    assert (forall ds k n, let '(k', rest, _) := go ds k n in
      purged (paths ds) (paths rest) (k' - k) /\ ((forall n, fate n = Works) -> rest = [])) as Hds.
    { clear - IH. induction ds as [|[name d] ds IHds]; intros k n; cbn [go paths].
      - split; [|done]. split; [done|]. split; [unfold len; simpl; lia|done].
      - specialize (IH d n). destruct (purge_tree fate d n) as [[k1 d'] n1]. destruct IH as [(H1 & H2 & H3) H4].
        specialize (IHds (k + k1) n1). destruct (go ds (k + k1) n1) as [[k2 rest] n2]. destruct IHds as [Hp Hr].
        pose proof (purged_map (cons name) _ _ _ H1 H2 H3) as Hd. split.
        + replace (k2 - k) with (k1 + (k2 - (k + k1))) by lia.
          replace (paths match d' with Some d' => (name, d') :: rest | None => rest end)
            with (map (cons name) (left_paths d') ++ paths rest) by (by destruct d'). by apply purged_app.
        + intros Hall. by rewrite H4, Hr. }
    specialize (Hds ds k0 n0). destruct (go ds k0 n0) as [[k rest] n1]. destruct Hds as [Hp Hr].
    pose proof (purged_map (fun f => [f]) _ _ _ Hs Hk Hw) as Hfiles. split.
    - replace k with (k0 + (k - k0)) by lia.
      replace (left_paths match lf, rest with [], [] => None | _, _ => Some (MkDir lf rest) end)
        with (map (fun f => [f]) lf ++ paths rest) by (by destruct lf, rest). by apply purged_app.
    - intros Hw'. by rewrite Hw, Hr. }
  specialize (Hall t n). destruct (purge_tree fate t n) as [[k rest] n']. destruct Hall as [(Hs & Hk & Hw) Hr].
  split_and!; [done..|]. intros Hworks. specialize (Hr Hworks). subst rest. simpl in *. unfold len in *. simpl in *. split; [done|lia].
Qed.
End purging.

(** ** What the hypotheses exclude *)

(** Rows of organization and id. *)
Definition sample_id (us : Z) (n : Z) : Z := uuid_int (timestamp_ms us) 0 n.
Definition day1 : Z := days_from_civil 2025 1 15 * ONE_DAY.
Definition day2 : Z := day1 + ONE_DAY.
Definition all_work (n : nat) : Outcome := Works.
Definition pg_ok (n : nat) : PgReply := PgOk.

(** One day in chunks, the next in one file: the chunks are read first, so the query for
    the newest row stops at the older day. *)
Definition mixed_layout : OrgDir (Z * Z) :=
  {| day_files := {[u "20250116.parquet" := [(1, sample_id day2 7)]]};
     date_dirs := {[u "20250115" := {| hour_files := {[chunk_name 0 := [(1, sample_id day1 3)]; chunk_name 1 := [(1, sample_id day1 5)]]};
                                       hour_dirs := ∅ |}]} |}.

Example newest_row_missed :
  (query_cold_events snd (fun _ => Readable) (fun _ => true) true day1 (day2 + ONE_DAY) (fun _ => true) 1 mixed_layout).1
  = Ok [(1, sample_id day1 5)].
Proof. by_compute. Qed.

Definition sample_partition : ustr := u "issue_events_issueevent_20250115".
Definition sample_rows : list (Z * Z) := [(1, sample_id day1 3); (2, sample_id day1 4); (1, sample_id day1 5)].
Definition sample_table : Table := {| t_rows := sample_rows; t_attached := true |}.

Definition run_archive fate torn reply (t : option (Table (Row := Z * Z))) (c : trees (Z * Z)) :=
  archive_and_swap_partition fate (fun _ => 100) 50 (get_archive_chunk_bytes None) torn fst reply (fun _ => true) sample_partition t c
    {| c_storage := 0; c_pg := 0 |}.

(** A write that fails halfway on a file system leaves a day file; the next run takes it
    for complete and drops the partition. *)
Example torn_day_file_loses_rows :
  let '(r1, t1, c1, _) := run_archive (fun n => match n with O => Fails | _ => Works end) (fun rows => Some (take 1 rows)) pg_ok (Some sample_table) ∅ in
  let '(r2, t2, c2, _) := run_archive all_work (fun rows => Some (take 1 rows)) pg_ok t1 c1 in
  r1 = Raise OSError /\ t1 = Some sample_table /\ r2 = Ok true /\ t2 = None
  /\ org_date_rows (u "20250115") (tree 1 c2) = [(1, sample_id day1 3)].
Proof. vm_compute. repeat split; reflexivity. Qed.

(** A row that arrives after its organization was archived, here before a second run
    because the partition could not be detached, is dropped with the partition. *)
Example late_row_lost :
  let '(r1, t1, c1, _) := run_archive all_work (fun _ => None) (fun _ => PgError) (Some sample_table) ∅ in
  let late := (1, sample_id day1 9) in
  let t1 := (fun t => {| t_rows := t_rows t ++ [late]; t_attached := t_attached t |}) <$> t1 in
  let '(r2, t2, c2, _) := run_archive all_work (fun _ => None) pg_ok t1 c1 in
  r1 = Raise OperationalError /\ r2 = Ok true /\ t2 = None
  /\ org_date_rows (u "20250115") (tree 1 c2) = [(1, sample_id day1 3); (1, sample_id day1 5)].
Proof. vm_compute. repeat split; reflexivity. Qed.

(** Chunks left beside a day file show the removed project's rows again when the day file
    had no others and is deleted. *)
Definition shadowed_layout : OrgDir (Z * Z) :=
  {| day_files := {[u "20250115.parquet" := [(1, 3); (1, 5)]]};
     date_dirs := {[u "20250115" := {| hour_files := {[chunk_name 0 := [(1, 3)]]}; hour_dirs := ∅ |}]} |}.

Example removed_rows_return :
  org_date_rows (u "20250115") (rewrite_parquet_excluding_project all_work false (fun r => negb (r.1 =? 1)) shadowed_layout 0).1.2
  = [(1, 3)].
Proof. by_compute. Qed.

(** Expired chunks of hours that were never sealed stay. *)
Definition open_hour_layout : OrgDir Z :=
  {| day_files := ∅;
     date_dirs := {[u "20240101" := {| hour_files := ∅; hour_dirs := {[u "07" := {[u "chunk_1.parquet" := [1]]}]} |}]} |}.

Example expired_open_hour_kept :
  is_date_before_cutoff (u "20240101") day1 = true
  /\ visible (u "20240101") (cleanup_cold_storage_for_org all_work day1 open_hour_layout 0).1.2 = [1].
Proof. vm_compute. repeat split; reflexivity. Qed.

(** ** Witnesses *)


Lemma no_flat_files (rows : list (Z * Z)) d : forall org, flat_complete d (rows_of fst org rows) (tree org ∅).
Proof. intros org fr. unfold tree. by rewrite lookup_empty. Qed.


Lemma archived_event_found_witness :
  let '(_, _, c', _) := run_archive all_work (fun _ => None) pg_ok (Some sample_table) ∅ in
  exists row', event_from_cold snd (fun _ => Readable) (sample_id day1 4) (tree 2 c') = Ok (Some row') /\ row'.2 = sample_id day1 4.
Proof.
  destruct (run_archive all_work (fun _ => None) pg_ok (Some sample_table) ∅) as [[[r t'] c'] k'] eqn:E.
  assert (r = Ok true) as -> by (change r with (r, t', c', k').1.1.1; rewrite <- E; by_compute).
  apply (archived_event_found all_work pg_ok (fun _ => 100) 50 (get_archive_chunk_bytes None) (fun _ => None) fst snd
           (fun _ => true) sample_partition sample_table ∅ {| c_storage := 0; c_pg := 0 |} t' c' k' day1 0 4
           (2, sample_id day1 4)).
  - by_compute.
  - apply no_flat_files.
  - exact E.
  - unfold time_ok. by_decide.
  - by_compute.
  - by_decide.
  - reflexivity.
Defined.

Definition flat_layout : OrgDir (Z * Z) :=
  {| day_files := {[u "20250115.parquet" := [(1, sample_id day1 3); (1, sample_id day1 5)]; u "20250116.parquet" := [(1, sample_id day2 7)]]};
     date_dirs := ∅ |}.

Lemma query_returns_newest_witness :
  query_cold_events snd (fun _ => Readable) (fun _ => true) true day1 (day2 + ONE_DAY) (fun _ => true) 2 flat_layout
  = (Ok [(1, sample_id day2 7); (1, sample_id day1 5)], flat_layout).
Proof.
  rewrite (query_returns_newest snd (fun _ => true) day1 (day2 + ONE_DAY) (fun _ => true) 2 flat_layout); [by_compute|lia|..].
  - assert (enumerate_org_parquet_files (Some (day1, day2 + ONE_DAY)) flat_layout
            = [DayPath (u "20250115.parquet"); DayPath (u "20250116.parquet")]) as -> by by_compute.
    repeat constructor. assert (read_path flat_layout (DayPath (u "20250115.parquet")) = [(1, sample_id day1 3); (1, sample_id day1 5)]) as -> by by_compute.
    assert (read_path flat_layout (DayPath (u "20250116.parquet")) = [(1, sample_id day2 7)]) as -> by by_compute.
    intros r r' [->|[->|[]%elem_of_nil]%elem_of_cons]%elem_of_cons [->|[]%elem_of_nil]%elem_of_cons; by_compute.
  - assert (enumerate_org_parquet_files (Some (day1, day2 + ONE_DAY)) flat_layout
            = [DayPath (u "20250115.parquet"); DayPath (u "20250116.parquet")]) as -> by by_compute.
    intros p [->|[->|[]%elem_of_nil]%elem_of_cons]%elem_of_cons; by_decide.
Defined.

Lemma project_rows_removed_witness :
  org_date_rows (u "20250115") (rewrite_parquet_excluding_project all_work false (fun r => r.2 =? sample_id day1 3) flat_layout 0).1.2
  ≡ₚ [(1, sample_id day1 3)].
Proof.
  rewrite (project_rows_removed all_work (fun r => r.2 =? sample_id day1 3) (fun _ => eq_refl) flat_layout 0 (u "20250115")).
  - assert (kept (fun r => r.2 =? sample_id day1 3) (org_date_rows (u "20250115") flat_layout) = [(1, sample_id day1 3)]) as -> by by_compute.
    reflexivity.
  - intros d _. reflexivity.
Defined.
