(* ===== verification/UrlValidation.v ===== *)
(** * URL and address validation

    [glitchtip/url_validation.py], the guard of every outgoing request to a URL a user
    gave (webhooks, uptime monitors), with what it uses of the standard library:
    [ipaddress.ip_address] and the properties of addresses (Python 3.14), and
    [urllib.parse.urlparse(url).hostname] for ASCII URLs.  DNS is a parameter. *)
From S2P Require Import Prelude PyStr PyValue.

(** ** [ipaddress] *)

Inductive Address := V4 (n : Z) | V6 (n : Z).

#[export] Instance Address_eq_dec : EqDecision Address.
Proof. solve_decision. Defined.

Definition is_hex (c : Z) : bool := is_digit c || in_range 97 102 (lower_char c).
Definition hex_value (c : Z) : Z := if is_digit c then c - 48 else lower_char c - 87.
Definition int_of_hex (s : ustr) : Z := foldl (fun a c => 16 * a + hex_value c) 0 s.

(** [IPv4Address._parse_octet] *)
Definition parse_octet (s : ustr) : res Z :=
  if negb (truthy s) || negb (forallb is_digit s) || (3 <? len s) then Raise ValueError
  else if negb (ustr_eqb s (u "0")) && startswith (u "0") s then Raise ValueError
  else let n := digits_value s in if 255 <? n then Raise ValueError else Ok n.

(** [IPv4Address._ip_int_from_string] *)
Definition ipv4_of_string (s : ustr) : res Z :=
  match split_on 46 s with
  | [a; b; c; d] =>
      let* a := parse_octet a in let* b := parse_octet b in let* c := parse_octet c in let* d := parse_octet d in
      Ok (((a * 256 + b) * 256 + c) * 256 + d)
  | _ => Raise ValueError
  end.

(** [IPv6Address._parse_hextet] *)
Definition parse_hextet (s : ustr) : res Z :=
  if negb (forallb is_hex s) || (4 <? len s) || negb (truthy s) then Raise ValueError else Ok (int_of_hex s).

Fixpoint parse_hextets (l : list ustr) : res (list Z) :=
  match l with
  | [] => Ok []
  | s :: l => let* h := parse_hextet s in let* t := parse_hextets l in Ok (h :: t)
  end.

Definition of_hextets (l : list Z) : Z := foldl (fun a h => a * 65536 + h) 0 l.

(** [n] as a text of four hexadecimal digits. *)
Definition hextet (n : Z) : ustr :=
  map (fun k => let d := (n / 16 ^ k) mod 16 in if d <? 10 then 48 + d else 87 + d) [3; 2; 1; 0].

(** The empty parts strictly inside: places of [::]. *)
Definition skips (parts : list ustr) : list nat :=
  filter (fun i => parts !! i = Some []) (seq 1 (length parts - 2)).

(** [IPv6Address._ip_int_from_string] *)
Definition ipv6_of_string (s : ustr) : res Z :=
  if negb (truthy s) then Raise ValueError else
  let parts := split_on 58 s in
  if (len parts <? 3) then Raise ValueError else
  let last_part := default [] (last parts) in
  let* parts :=
    if contains [46] last_part then
      let* v := ipv4_of_string last_part in
      Ok (removelast parts ++ [hextet (v / 65536); hextet (v mod 65536)])
    else Ok parts in
  if 9 <? len parts then Raise ValueError else
  match skips parts with
  | _ :: _ :: _ => Raise ValueError
  | [i] =>
      let hi := take i parts in
      let lo := drop (S i) parts in
      let* hi :=
        match hi with
        | [] :: (_ :: _) => Raise ValueError
        | [[]] => Ok []
        | _ => Ok hi
        end in
      let* lo :=
        match last lo with
        | Some [] => if (1 <? len lo) then Raise ValueError else Ok []
        | _ => Ok lo
        end in
      let skipped := 8 - (len hi + len lo) in
      if skipped <? 1 then Raise ValueError else
      let* a := parse_hextets hi in
      let* b := parse_hextets lo in
      Ok (of_hextets (a ++ repeat 0 (Z.to_nat skipped) ++ b))
  | [] =>
      if negb (len parts =? 8) then Raise ValueError else
      if negb (truthy (default [] (head parts))) then Raise ValueError else
      if negb (truthy (default [] (last parts))) then Raise ValueError else
      let* l := parse_hextets parts in
      Ok (of_hextets l)
  end.

(** [_split_scope_id]: the address before a scope id. *)
Definition split_scope_id (s : ustr) : res ustr :=
  match find_str (u "%") s with
  | None => Ok s
  | Some i =>
      let scope := drop (S i) s in
      if negb (truthy scope) || contains (u "%") scope then Raise ValueError else Ok (take i s)
  end.

(** [ipaddress.ip_address] *)
Definition ip_address (s : ustr) : res Address :=
  match (if contains (u "/") s then Raise ValueError else ipv4_of_string s) with
  | Ok n => Ok (V4 n)
  | Raise _ =>
      let* t := if contains (u "/") s then Raise ValueError else split_scope_id s in
      let* n := ipv6_of_string t in
      Ok (V6 n)
  end.

(** *** Networks *)

(** [address in network] *)
Definition in_net (width n base prefix : Z) : bool :=
  Z.shiftr n (width - prefix) =? Z.shiftr base (width - prefix).

Definition ip4 (a b c d : Z) : Z := ((a * 256 + b) * 256 + c) * 256 + d.
Definition in4 (n : Z) (net : Z * Z) : bool := in_net 32 n net.1 net.2.
(** A network given by its first hextets. *)
Definition ip6 (l : list Z) : Z := of_hextets (l ++ repeat 0 (8 - length l)).
Definition in6 (n : Z) (net : list Z * Z) : bool := in_net 128 n (ip6 net.1) net.2.

Definition private_v4 : list (Z * Z) :=
  [(ip4 0 0 0 0, 8); (ip4 10 0 0 0, 8); (ip4 127 0 0 0, 8); (ip4 169 254 0 0, 16); (ip4 172 16 0 0, 12);
   (ip4 192 0 0 0, 24); (ip4 192 0 0 170, 31); (ip4 192 0 2 0, 24); (ip4 192 168 0 0, 16); (ip4 198 18 0 0, 15);
   (ip4 198 51 100 0, 24); (ip4 203 0 113 0, 24); (ip4 240 0 0 0, 4); (ip4 255 255 255 255, 32)].
Definition private_exceptions_v4 : list (Z * Z) := [(ip4 192 0 0 9, 32); (ip4 192 0 0 10, 32)].

Definition private_v6 : list (list Z * Z) :=
  [([0; 0; 0; 0; 0; 0; 0; 1], 128); ([], 128); ([0; 0; 0; 0; 0; 65535], 96); ([100; 65435; 1], 48); ([256], 64);
   ([8193], 23); ([8193; 3512], 32); ([8194], 16); ([16383], 20); ([64512], 7); ([65152], 10)].
Definition private_exceptions_v6 : list (list Z * Z) :=
  [([8193; 1; 0; 0; 0; 0; 0; 1], 128); ([8193; 1; 0; 0; 0; 0; 0; 2], 128); ([8193; 3], 32); ([8193; 4; 274], 48);
   ([8193; 32], 28); ([8193; 48], 28)].
Definition reserved_v6 : list (list Z * Z) :=
  [([], 8); ([256], 8); ([512], 7); ([1024], 6); ([2048], 5); ([4096], 4); ([16384], 3); ([24576], 3); ([32768], 3);
   ([40960], 3); ([49152], 3); ([57344], 4); ([61440], 5); ([63488], 6); ([65024], 9)].

Definition is_private4 (n : Z) : bool :=
  existsb (in4 n) private_v4 && negb (existsb (in4 n) private_exceptions_v4).
Definition is_loopback4 (n : Z) : bool := in4 n (ip4 127 0 0 0, 8).
Definition is_link_local4 (n : Z) : bool := in4 n (ip4 169 254 0 0, 16).
Definition is_reserved4 (n : Z) : bool := in4 n (ip4 240 0 0 0, 4).
Definition is_multicast4 (n : Z) : bool := in4 n (ip4 224 0 0 0, 4).

(** [IPv6Address.ipv4_mapped] *)
Definition ipv4_mapped (n : Z) : option Z := if Z.shiftr n 32 =? 65535 then Some (Z.land n (2 ^ 32 - 1)) else None.

(** A property of an IPv6 address, asked of the IPv4 address it maps. *)
Definition mapped (p4 p6 : Z -> bool) (n : Z) : bool :=
  match ipv4_mapped n with Some m => p4 m | None => p6 n end.

Definition on_address (p4 p6 : Z -> bool) (a : Address) : bool :=
  match a with V4 n => p4 n | V6 n => mapped p4 p6 n end.

Definition is_private : Address -> bool :=
  on_address is_private4 (fun n => existsb (in6 n) private_v6 && negb (existsb (in6 n) private_exceptions_v6)).
Definition is_loopback : Address -> bool := on_address is_loopback4 (fun n => n =? 1).
Definition is_link_local : Address -> bool := on_address is_link_local4 (fun n => in6 n ([65152], 10)).
Definition is_reserved : Address -> bool := on_address is_reserved4 (fun n => existsb (in6 n) reserved_v6).
Definition is_multicast : Address -> bool := on_address is_multicast4 (fun n => in6 n ([65280], 8)).

(** ** [urllib.parse] *)

(** [s.partition(c)]: before, whether [c] occurs, after. *)
Fixpoint partition (c : Z) (s : ustr) : ustr * bool * ustr :=
  match s with
  | [] => ([], false, [])
  | x :: r => if x =? c then ([], true, r) else let '(a, f, b) := partition c r in (x :: a, f, b)
  end.

(** [s.rpartition(c)[2]]: what follows the last [c]. *)
Definition after_last (c : Z) (s : ustr) : ustr := default [] (last (split_on c s)).

(** Up to the first character of [p]. *)
Fixpoint until (p : Z -> bool) (s : ustr) : ustr :=
  match s with [] => [] | c :: r => if p c then [] else c :: until p r end.

Definition scheme_char (c : Z) : bool := is_alnum c || one_of "+-." c.

(** The URL after its scheme. *)
Definition strip_scheme (url : ustr) : ustr :=
  match find_str (u ":") url with
  | Some (S i) => if is_alpha (default 0 (head url)) && forallb scheme_char (take (S i) url) then drop (S (S i)) url else url
  | _ => url
  end.

(** [_hostinfo[0]] *)
Definition host_of (netloc : ustr) : ustr :=
  let hostinfo := after_last 64 netloc in
  match partition 91 hostinfo with
  | (_, true, bracketed) => (partition 93 bracketed).1.1
  | _ => (partition 58 hostinfo).1.1
  end.

(** [_check_bracketed_host]: an IPvFuture or an IPv6 address. *)
Definition bracketed_host_ok (hostname : ustr) : bool :=
  if startswith (u "v") hostname then
    match partition 46 (drop 1 hostname) with
    | (h, true, rest) => truthy h && forallb is_hex h && truthy rest
    | _ => false
    end
  else match ip_address hostname with Ok (V6 _) => true | _ => false end.

(** [_check_bracketed_netloc] *)
Definition bracketed_netloc_ok (netloc : ustr) : bool :=
  let hostname_and_port := after_last 64 netloc in
  match partition 91 hostname_and_port with
  | (before, true, bracketed) =>
      let '(hostname, _, port) := partition 93 bracketed in
      negb (truthy before) && (negb (truthy port) || startswith (u ":") port) && bracketed_host_ok hostname
  | _ => bracketed_host_ok (partition 58 hostname_and_port).1.1
  end.

(** [urlparse(url).hostname] of an ASCII URL. *)
Definition urlparse_hostname (url : ustr) : res (option ustr) :=
  let url := lstrip_by (fun c => c <=? 32) url in
  let url := filter (fun c => c <> 9 /\ c <> 13 /\ c <> 10) url in
  let url := strip_scheme url in
  if startswith (u "//") url then
    let netloc := until (one_of "/?#") (drop 2 url) in
    let opens := contains (u "[") netloc in
    let closes := contains (u "]") netloc in
    if xorb opens closes then Raise ValueError
    else if opens && negb (bracketed_netloc_ok netloc) then Raise ValueError
    else
      let hostname := host_of netloc in
      if truthy hostname then
        let '(h, percent, zone) := partition 37 hostname in
        Ok (Some (lower h ++ (if percent then u "%" else []) ++ zone))
      else Ok None
  else Ok None.

(** ** [url_validation.py] *)

Definition is_ip_blocked (ip_str : ustr) : res bool :=
  let* ip := ip_address ip_str in
  Ok (is_private ip || is_loopback ip || is_link_local ip || is_reserved ip || is_multicast ip).

Definition parse_hostname (url : ustr) : res (option ustr) :=
  if contains (u "://") url then urlparse_hostname url
  else let h := default [] (head (split_on 58 url)) in Ok (if truthy h then Some h else None).

Definition is_ip_literal (hostname : ustr) : bool :=
  match ip_address hostname with Ok _ => true | Raise _ => false end.

Section dns.
(** The addresses of a name, an [OSError] when the lookup fails. *)
Context (getaddrinfo : ustr -> res (list ustr)).

(** The loop over the addresses: is one of them blocked? *)
Fixpoint any_blocked (infos : list ustr) : res bool :=
  match infos with
  | [] => Ok false
  | a :: infos => let* b := is_ip_blocked a in if (b : bool) then Ok true else any_blocked infos
  end.

Definition check_url_safe (url : ustr) (allow_private : bool) : res bool :=
  if allow_private then Ok true else
  let* hostname := parse_hostname url in
  match hostname with
  | None => Ok false
  | Some hostname =>
      if is_ip_literal hostname then let* b := is_ip_blocked hostname in Ok (negb b)
      else match getaddrinfo hostname with
           | Raise OSError => Ok true
           | Raise e => Raise e
           | Ok infos => let* b := any_blocked infos in Ok (negb b)
           end
  end.

(** The synchronous validator: it returns or raises. *)
Definition validate_public_url (url : ustr) (allow_private : bool) : res unit :=
  if allow_private then Ok tt else
  let* hostname := parse_hostname url in
  match hostname with
  | None => Raise ValueError
  | Some hostname =>
      if is_ip_literal hostname then let* b := is_ip_blocked hostname in if (b : bool) then Raise ValueError else Ok tt
      else match getaddrinfo hostname with
           | Raise OSError => Ok tt
           | Raise e => Raise e
           | Ok infos => let* b := any_blocked infos in if (b : bool) then Raise ValueError else Ok tt
           end
  end.
End dns.

(** ** Examples *)

Example addresses :
  map is_ip_blocked (map u ["127.0.0.1"; "169.254.169.254"; "8.8.8.8"; "::1"; "::ffff:10.0.0.1"; "fe80::1%eth0"; "2606:4700::1111";
                            "64:ff9b::7f00:1"; "100.64.0.1"; "010.0.0.1"; "1.2.3"; "1:2:3:4:5:6:7:8:9"])
  = [Ok true; Ok true; Ok false; Ok true; Ok true; Ok true; Ok false; Ok true; Ok false; Raise ValueError; Raise ValueError;
     Raise ValueError].
Proof. by_compute. Qed.

Example hostnames :
  map parse_hostname (map u ["http://user:pw@Example.com:80/a?b"; "https://[::1]:8000/"; "http://a@b@10.0.0.1"; "db:5432"; "http:///x";
                             "http://[x]/"; "//h"])
  = [Ok (Some (u "example.com")); Ok (Some (u "::1")); Ok (Some (u "10.0.0.1")); Ok (Some (u "db")); Ok None; Raise ValueError;
     Ok (Some (u "//h"))].
Proof. by_compute. Qed.

(** ** Lemmas *)

Lemma split_on_app c (a b : ustr) : c ∉ a -> split_on c (a ++ c :: b) = a :: split_on c b.
Proof.
  induction a as [|x a IH]; intros H; simpl; [by rewrite Z.eqb_refl|].
  apply not_elem_of_cons in H as [H1 H2]. destruct (x =? c) eqn:E; [lia|]. by rewrite IH.
Qed.

Lemma split_on_none c (a : ustr) : c ∉ a -> split_on c a = [a].
Proof.
  induction a as [|x a IH]; intros H; simpl; [done|].
  apply not_elem_of_cons in H as [H1 H2]. destruct (x =? c) eqn:E; [lia|]. by rewrite IH.
Qed.

Lemma partition_none c (a : ustr) : c ∉ a -> partition c a = (a, false, []).
Proof.
  induction a as [|x a IH]; intros H; simpl; [done|].
  apply not_elem_of_cons in H as [H1 H2]. destruct (x =? c) eqn:E; [lia|]. by rewrite IH.
Qed.

Lemma contains_char c (s : ustr) : contains [c] s = bool_decide (c ∈ s).
Proof.
  induction s as [|x s IH]; [done|]. cbn [contains startswith]. rewrite IH. destruct (c =? x) eqn:E.
  - apply Z.eqb_eq in E as ->. symmetry. apply bool_decide_eq_true. left.
  - destruct (decide (c ∈ s)); [rewrite !bool_decide_true by (done || by right); done|].
    rewrite !bool_decide_false; [done|by intros [->|?]%elem_of_cons; [lia|]|done].
Qed.

(** *** Octets *)

Definition octet (a : Z) : Prop := 0 <= a <= 255.

Definition octet_text_ok (a : Z) : bool :=
  match parse_octet (str_of_Z a) with Ok n => n =? a | Raise _ => false end && truthy (str_of_Z a) && forallb is_digit (str_of_Z a).

Lemma octet_text a :
  octet a -> parse_octet (str_of_Z a) = Ok a /\ forallb is_digit (str_of_Z a) = true /\ str_of_Z a <> [].
Proof.
  intros Ha. assert (forallb octet_text_ok (seqZ 0 256) = true) as H by by_compute.
  rewrite forallb_forall in H. specialize (H a). unfold octet_text_ok in H.
  assert (In a (seqZ 0 256)) as Hin by (apply list_elem_of_In, elem_of_seqZ; unfold octet in Ha; lia).
  specialize (H Hin). bool_split. destruct (parse_octet (str_of_Z a)); [|done]. bool_split. subst.
  split_and!; try done. intros E. by rewrite E in *.
Qed.

Lemma digits_not c (s : ustr) : forallb is_digit s = true -> is_digit c = false -> c ∉ s.
Proof. intros Hs Hc Hin. rewrite forallb_forall in Hs. rewrite Hs in Hc; [done|]. by apply list_elem_of_In. Qed.

(** The text [a.b.c.d]. *)
Definition quad (a b c d : Z) : ustr := str_of_Z a ++ 46 :: str_of_Z b ++ 46 :: str_of_Z c ++ 46 :: str_of_Z d.

Lemma split_quad p a b c d :
  octet a -> octet b -> octet c -> octet d -> 46 ∉ p ->
  split_on 46 (p ++ quad a b c d) = [p ++ str_of_Z a; str_of_Z b; str_of_Z c; str_of_Z d].
Proof.
  intros (_ & Ha & _)%octet_text (_ & Hb & _)%octet_text (_ & Hc & _)%octet_text (_ & Hd & _)%octet_text Hp.
  unfold quad. rewrite app_assoc. rewrite split_on_app by (rewrite not_elem_of_app; split; [done|by apply digits_not]).
  by rewrite !split_on_app, split_on_none by (by apply digits_not).
Qed.

Lemma ipv4_of_quad a b c d :
  octet a -> octet b -> octet c -> octet d -> ipv4_of_string (quad a b c d) = Ok (ip4 a b c d).
Proof.
  intros Ha Hb Hc Hd. unfold ipv4_of_string.
  pose proof (split_quad [] a b c d Ha Hb Hc Hd (not_elem_of_nil _)) as E. simpl in E. rewrite E.
  apply octet_text in Ha as (-> & _), Hb as (-> & _), Hc as (-> & _), Hd as (-> & _). done.
Qed.

(** The characters of an address. *)
Lemma quad_chars c a b d e : octet a -> octet b -> octet d -> octet e -> c ∈ quad a b d e -> is_digit c = true \/ c = 46.
Proof.
  intros (_ & Ha & _)%octet_text (_ & Hb & _)%octet_text (_ & Hc & _)%octet_text (_ & Hd & _)%octet_text.
  assert (forall s : ustr, forallb is_digit s = true -> c ∈ s -> is_digit c = true) as Hin.
  { intros s Hs Hx. rewrite forallb_forall in Hs. apply Hs. by apply list_elem_of_In. }
  unfold quad. rewrite !elem_of_app, !elem_of_cons, !elem_of_app, !elem_of_cons, !elem_of_app, !elem_of_cons.
  intuition eauto.
Qed.

Lemma quad_not c a b d e : octet a -> octet b -> octet d -> octet e -> is_digit c = false -> c <> 46 -> c ∉ quad a b d e.
Proof. intros Ha Hb Hd He Hc Hne Hin. destruct (quad_chars c a b d e); congruence. Qed.

Lemma ip_address_quad a b c d :
  octet a -> octet b -> octet c -> octet d -> ip_address (quad a b c d) = Ok (V4 (ip4 a b c d)).
Proof.
  intros Ha Hb Hc Hd. unfold ip_address. change (u "/") with [47]. rewrite contains_char, bool_decide_false by (by apply quad_not).
  by rewrite ipv4_of_quad.
Qed.

(** *** The IPv6-mapped form *)

Lemma hex_digit_value d : 0 <= d < 16 -> let c := if d <? 10 then 48 + d else 87 + d in is_hex c = true /\ hex_value c = d.
Proof.
  intros H c. subst c. unfold is_hex, hex_value, is_digit, in_range, lower_char, is_upper, in_range. 
  destruct (d <? 10) eqn:E; [replace ((48 <=? 48 + d) && (48 + d <=? 57)) with true by lia; split; [done|lia]|].
  replace ((48 <=? 87 + d) && (87 + d <=? 57)) with false by lia.
  replace ((65 <=? 87 + d) && (87 + d <=? 90)) with false by lia. split; lia.
Qed.

Lemma parse_hextet_of n : 0 <= n < 65536 -> parse_hextet (hextet n) = Ok n.
Proof.
  intros H. unfold parse_hextet, hextet. cbn [map]. change (16 ^ 3) with 4096. change (16 ^ 2) with 256. change (16 ^ 1) with 16.
  change (16 ^ 0) with 1. rewrite Z.div_1_r.
  pose proof (hex_digit_value (n / 4096 mod 16) ltac:(dlia)) as [H1 V1]. pose proof (hex_digit_value (n / 256 mod 16) ltac:(dlia)) as [H2 V2].
  pose proof (hex_digit_value (n / 16 mod 16) ltac:(dlia)) as [H3 V3]. pose proof (hex_digit_value (n mod 16) ltac:(dlia)) as [H4 V4'].
  cbv zeta in *. cbn [forallb]. rewrite H1, H2, H3, H4. unfold len. cbn [length truthy andb negb orb]. change (4 <? Z.of_nat 4) with false. cbn iota.
  unfold int_of_hex. cbn [foldl]. rewrite V1, V2, V3, V4'. f_equal. dlia.
Qed.

Lemma ipv6_of_mapped a b c d :
  octet a -> octet b -> octet c -> octet d -> ipv6_of_string (u "::ffff:" ++ quad a b c d) = Ok (65535 * 2 ^ 32 + ip4 a b c d).
Proof.
  intros Ha Hb Hc Hd. unfold ipv6_of_string. change (u "::ffff:") with [58; 58; 102; 102; 102; 102; 58].
  assert (split_on 58 ([58; 58; 102; 102; 102; 102; 58] ++ quad a b c d) = [[]; []; [102; 102; 102; 102]; quad a b c d]) as ->.
  { cbn [app split_on Z.eqb Pos.eqb]. rewrite split_on_none by (by apply quad_not). done. }
  cbn [app truthy negb]. unfold len at 1. cbn [length]. change (Z.of_nat 4 <? 3) with false. cbn iota.
  change (default [] (last [[]; []; [102; 102; 102; 102]; quad a b c d])) with (quad a b c d).
  rewrite contains_char, bool_decide_true by (unfold quad; apply elem_of_app; right; left).
  rewrite ipv4_of_quad by done. cbn [res_bind removelast app].
  unfold octet, ip4 in *. set (v := ((a * 256 + b) * 256 + c) * 256 + d).
  pose proof (parse_hextet_of (v / 65536) ltac:(subst v; dlia)) as P1. pose proof (parse_hextet_of (v mod 65536) ltac:(subst v; dlia)) as P2.
  assert (exists x r, hextet (v / 65536) = x :: r) as (x1 & r1 & E1) by (eexists _, _; reflexivity).
  assert (exists x r, hextet (v mod 65536) = x :: r) as (x2 & r2 & E2) by (eexists _, _; reflexivity).
  rewrite E1, E2 in *. unfold len. cbn [length]. change (9 <? Z.of_nat 5) with false. cbn iota.
  assert (skips [[]; []; [102; 102; 102; 102]; x1 :: r1; x2 :: r2] = [1%nat]) as -> by done.
  cbn [take drop last res_bind length]. change (8 - (Z.of_nat 0 + Z.of_nat 3)) with 5. change (5 <? 1) with false. cbn iota.
  cbn [parse_hextets res_bind]. rewrite P1, P2.
  change (parse_hextet [102; 102; 102; 102]) with (Ok 65535). cbn [res_bind]. f_equal. unfold of_hextets.
  change (Z.to_nat 5) with 5%nat. cbn [repeat app foldl]. subst v. dlia.
Qed.

Lemma ip_address_mapped a b c d :
  octet a -> octet b -> octet c -> octet d -> ip_address (u "::ffff:" ++ quad a b c d) = Ok (V6 (65535 * 2 ^ 32 + ip4 a b c d)).
Proof.
  intros Ha Hb Hc Hd. unfold ip_address. change (u "/") with [47]. rewrite contains_char, bool_decide_false.
  2: { rewrite not_elem_of_app. split; [by_decide|by apply quad_not]. }
  assert (ipv4_of_string (u "::ffff:" ++ quad a b c d) = Raise ValueError) as ->.
  { unfold ipv4_of_string. rewrite split_quad; [done..|by_decide]. }
  unfold split_scope_id. assert (find_str (u "%") (u "::ffff:" ++ quad a b c d) = None) as ->.
  2: { cbn [res_bind]. by rewrite ipv6_of_mapped. }
  assert (37 ∉ u "::ffff:" ++ quad a b c d) as Hn.
  { rewrite not_elem_of_app. split; [by_decide|by apply quad_not]. }
  clear -Hn. induction (u "::ffff:" ++ quad a b c d) as [|x s IH]; [done|].
  apply not_elem_of_cons in Hn as [Hx Hs]. change (u "%") with [37] in *. cbn [find_str startswith].
  destruct (37 =? x) eqn:E; [lia|]. cbn [andb]. by rewrite IH.
Qed.

(** *** The internal ranges, by octets *)

(** The addresses that are not to be reached, octet by octet. *)
Definition internal_v4 (a b c d : Z) : bool :=
  (a =? 0) || (a =? 10) || (a =? 127) || ((a =? 169) && (b =? 254)) || ((a =? 172) && (16 <=? b) && (b <=? 31))
  || ((a =? 192) && (b =? 0) && (c =? 0) && negb ((d =? 9) || (d =? 10))) || ((a =? 192) && (b =? 0) && (c =? 2))
  || ((a =? 192) && (b =? 168)) || ((a =? 198) && ((b =? 18) || (b =? 19))) || ((a =? 198) && (b =? 51) && (c =? 100))
  || ((a =? 203) && (b =? 0) && (c =? 113)) || (224 <=? a).

Lemma in_net_bounds n base k :
  0 <= k <= 32 -> in_net 32 n base (32 - k) = (n / 2 ^ k =? base / 2 ^ k).
Proof. intros Hk. unfold in_net. rewrite !Z.shiftr_div_pow2 by lia. by replace (32 - (32 - k)) with k by lia. Qed.

Definition blocked4 (n : Z) : bool := is_private4 n || is_loopback4 n || is_link_local4 n || is_reserved4 n || is_multicast4 n.

Section nets.
Context (a b c d : Z) (Ha : octet a) (Hb : octet b) (Hc : octet c) (Hd : octet d).

Lemma in_net4 x : in4 (ip4 a b c d) (ip4 (16 * x) 0 0 0, 4) = (a / 16 =? x).
Proof. unfold octet, in4 in *. cbn [fst snd]. rewrite (in_net_bounds _ _ 28) by lia. f_equal; unfold ip4; change (2 ^ 28) with (16 * (256 * (256 * 256))); rewrite <- !Z.div_div by lia; dlia. Qed.

Lemma in_net8 x : in4 (ip4 a b c d) (ip4 x 0 0 0, 8) = (a =? x).
Proof. unfold octet, in4 in *. cbn [fst snd]. rewrite (in_net_bounds _ _ 24) by lia. f_equal; unfold ip4; dlia. Qed.

Lemma eqb_pair x y v w : 0 <= y < 256 -> 0 <= w < 256 -> (x * 256 + y =? v * 256 + w) = (x =? v) && (y =? w).
Proof. lia. Qed.

Lemma in_net12 x y : 0 <= y < 16 -> in4 (ip4 a b c d) (ip4 x (16 * y) 0 0, 12) = (a =? x) && (b / 16 =? y).
Proof.
  intros Hy. unfold octet, in4 in *. cbn [fst snd]. rewrite (in_net_bounds _ _ 20) by lia.
  replace (ip4 a b c d / 2 ^ 20) with (a * 16 + b / 16) by (unfold ip4; dlia).
  replace (ip4 x (16 * y) 0 0 / 2 ^ 20) with (x * 16 + y) by (unfold ip4; dlia). dlia.
Qed.

Lemma in_net15 x y : 0 <= y < 128 -> in4 (ip4 a b c d) (ip4 x (2 * y) 0 0, 15) = (a =? x) && (b / 2 =? y).
Proof.
  intros Hy. unfold octet, in4 in *. cbn [fst snd]. rewrite (in_net_bounds _ _ 17) by lia.
  replace (ip4 a b c d / 2 ^ 17) with (a * 128 + b / 2) by (unfold ip4; dlia).
  replace (ip4 x (2 * y) 0 0 / 2 ^ 17) with (x * 128 + y) by (unfold ip4; dlia). dlia.
Qed.

Lemma in_net16 x y : octet y -> in4 (ip4 a b c d) (ip4 x y 0 0, 16) = (a =? x) && (b =? y).
Proof.
  intros Hy. unfold octet, in4 in *. cbn [fst snd]. rewrite (in_net_bounds _ _ 16) by lia.
  replace (ip4 a b c d / 2 ^ 16) with (a * 256 + b) by (unfold ip4; dlia).
  replace (ip4 x y 0 0 / 2 ^ 16) with (x * 256 + y) by (unfold ip4; dlia). apply eqb_pair; lia.
Qed.

Lemma in_net24 x y z : octet y -> octet z -> in4 (ip4 a b c d) (ip4 x y z 0, 24) = (a =? x) && (b =? y) && (c =? z).
Proof.
  intros Hy Hz. unfold octet, in4 in *. cbn [fst snd]. rewrite (in_net_bounds _ _ 8) by lia.
  replace (ip4 a b c d / 2 ^ 8) with ((a * 256 + b) * 256 + c) by (unfold ip4; dlia).
  replace (ip4 x y z 0 / 2 ^ 8) with ((x * 256 + y) * 256 + z) by (unfold ip4; dlia). rewrite !eqb_pair by lia. done.
Qed.

Lemma in_net31 x y z w : octet y -> octet z -> 0 <= w < 128 ->
  in4 (ip4 a b c d) (ip4 x y z (2 * w), 31) = (a =? x) && (b =? y) && (c =? z) && (d / 2 =? w).
Proof.
  intros Hy Hz Hw. unfold octet, in4 in *. cbn [fst snd]. rewrite (in_net_bounds _ _ 1) by lia.
  replace (ip4 a b c d / 2 ^ 1) with (((a * 256 + b) * 256 + c) * 128 + d / 2) by (unfold ip4; dlia).
  replace (ip4 x y z (2 * w) / 2 ^ 1) with (((x * 256 + y) * 256 + z) * 128 + w) by (unfold ip4; dlia).
  rewrite <- !eqb_pair by lia. dlia.
Qed.

Lemma in_net32 x y z w : octet y -> octet z -> octet w ->
  in4 (ip4 a b c d) (ip4 x y z w, 32) = (a =? x) && (b =? y) && (c =? z) && (d =? w).
Proof.
  intros Hy Hz Hw. unfold octet, in4 in *. cbn [fst snd]. rewrite (in_net_bounds _ _ 0) by lia. change (2 ^ 0) with 1. rewrite !Z.div_1_r.
  unfold ip4. rewrite !eqb_pair by lia. done.
Qed.

Lemma blocked4_spec : blocked4 (ip4 a b c d) = internal_v4 a b c d.
Proof.
  unfold blocked4, is_private4, is_loopback4, is_link_local4, is_reserved4, is_multicast4, private_v4, private_exceptions_v4.
  cbn [existsb].
  change (ip4 240 0 0 0) with (ip4 (16 * 15) 0 0 0). change (ip4 224 0 0 0) with (ip4 (16 * 14) 0 0 0).
  change (ip4 172 16 0 0) with (ip4 172 (16 * 1) 0 0). change (ip4 198 18 0 0) with (ip4 198 (2 * 9) 0 0).
  change (ip4 192 0 0 170) with (ip4 192 0 0 (2 * 85)).
  rewrite !in_net4, !in_net8, in_net12, in_net15, !in_net16, !in_net24, in_net31, !in_net32 by (unfold octet; lia).
  unfold internal_v4, octet in *.
  repeat match goal with |- context [a =? ?x] =>
    destruct (decide (a = x)) as [E|?]; [clear - E Hb Hc Hd; subst a; cbn -[Z.div]; dlia|replace (a =? x) with false by lia] end.
  cbn [andb orb]. dlia.
Qed.
End nets.

(** *** Addresses *)

Lemma blocked_quad a b c d :
  octet a -> octet b -> octet c -> octet d -> is_ip_blocked (quad a b c d) = Ok (internal_v4 a b c d).
Proof. intros Ha Hb Hc Hd. unfold is_ip_blocked. rewrite ip_address_quad by done. cbn [res_bind]. by rewrite <- blocked4_spec. Qed.

Lemma mapped_v4 p4 p6 n : 0 <= n < 2 ^ 32 -> on_address p4 p6 (V6 (65535 * 2 ^ 32 + n)) = p4 n.
Proof.
  intros Hn. unfold on_address, mapped, ipv4_mapped. rewrite Z.shiftr_div_pow2 by lia.
  replace ((65535 * 2 ^ 32 + n) / 2 ^ 32) with 65535 by dlia. change (65535 =? 65535) with true. cbn iota.
  f_equal. change (2 ^ 32 - 1) with (Z.ones 32). rewrite Z.land_ones by lia. dlia.
Qed.

Lemma blocked_mapped a b c d :
  octet a -> octet b -> octet c -> octet d -> is_ip_blocked (u "::ffff:" ++ quad a b c d) = Ok (internal_v4 a b c d).
Proof.
  intros Ha Hb Hc Hd. unfold is_ip_blocked. rewrite ip_address_mapped by done. cbn [res_bind]. rewrite <- blocked4_spec by done.
  unfold is_private, is_loopback, is_link_local, is_reserved, is_multicast.
  rewrite !mapped_v4 by (unfold octet, ip4 in *; lia). done.
Qed.

(** *** The host of a URL *)

(** An optional port. *)
Definition port_text (p : ustr) : Prop := p = [] \/ exists ds, p = 58 :: ds /\ forallb is_digit ds = true.

(** The end of the URL after its authority. *)
Definition path_text (t : ustr) : Prop := match t with [] => True | c :: _ => one_of "/?#" c = true end.

Lemma until_app p (a t : ustr) :
  (forall c, c ∈ a -> p c = false) -> match t with [] => True | c :: _ => p c = true end -> until p (a ++ t) = a.
Proof.
  intros Ha Ht. induction a as [|c a IH]; simpl.
  - destruct t as [|c t]; [done|]. simpl. by rewrite Ht.
  - rewrite Ha by left. f_equal. apply IH. intros x Hx. apply Ha. by right.
Qed.

(** A character of [host:port] of a dotted address. *)
Definition authority_char (c : Z) : Prop := is_digit c = true \/ c = 46 \/ c = 58.

Lemma authority_chars a b d e p c :
  octet a -> octet b -> octet d -> octet e -> port_text p -> c ∈ quad a b d e ++ p -> authority_char c.
Proof.
  intros Ha Hb Hd He Hp [Hc|Hc]%elem_of_app.
  - destruct (quad_chars c a b d e) as [?| ->]; unfold authority_char; auto.
  - destruct Hp as [->|(ds & -> & Hds)]; [by apply elem_of_nil in Hc|]. unfold authority_char.
    apply elem_of_cons in Hc as [->|Hc]; [auto|]. left. rewrite forallb_forall in Hds. apply Hds. by apply list_elem_of_In.
Qed.

Lemma authority_char_code c : authority_char c -> 46 <= c <= 58 /\ c <> 47.
Proof. unfold authority_char, is_digit, in_range. lia. Qed.

Lemma lower_quad a b c d : octet a -> octet b -> octet c -> octet d -> lower (quad a b c d) = quad a b c d.
Proof.
  intros Ha Hb Hc Hd. unfold lower. rewrite <- (map_id (quad a b c d)) at 2. apply map_ext_in. intros x Hx.
  apply list_elem_of_In, (quad_chars _ _ _ _ _ Ha Hb Hc Hd) in Hx. unfold lower_char, is_upper, is_digit, in_range in *.
  destruct ((65 <=? x) && (x <=? 90)) eqn:E; [lia|done].
Qed.

Lemma host_of_quad a b c d p :
  octet a -> octet b -> octet c -> octet d -> port_text p -> host_of (quad a b c d ++ p) = quad a b c d.
Proof.
  intros Ha Hb Hc Hd Hp. unfold host_of, after_last.
  assert (forall x, x ∈ quad a b c d ++ p -> 46 <= x <= 58 /\ x <> 47) as H.
  { intros x Hx. eapply authority_char_code, authority_chars; [..|exact Hx]; done. }
  rewrite split_on_none by (intros ?%H; lia). cbn [last]. change (default [] (Some ?x)) with x. cbv zeta.
  rewrite (partition_none 91) by (intros ?%H; lia).
  destruct Hp as [->|(ds & -> & Hds)].
  - rewrite app_nil_r. by rewrite partition_none by (by apply quad_not).
  - assert (58 ∉ quad a b c d) as Hn by (by apply quad_not). clear -Hn.
    induction (quad a b c d) as [|x s IH]; simpl; [done|]. apply not_elem_of_cons in Hn as [? Hn].
    destruct (x =? 58) eqn:E; [lia|]. specialize (IH Hn). destruct (partition 58 (s ++ 58 :: ds)) as [[? ?] ?]. simpl in *. by subst.
Qed.

Lemma parse_hostname_quad scheme a b c d p t :
  octet a -> octet b -> octet c -> octet d -> port_text p -> path_text t -> scheme ∈ [u "http"; u "https"] ->
  parse_hostname (scheme ++ u "://" ++ (quad a b c d ++ p) ++ t) = Ok (Some (quad a b c d)).
Proof.
  intros Ha Hb Hc Hd Hp Ht Hs. set (q := quad a b c d ++ p).
  assert (forall x, x ∈ q -> 46 <= x <= 58 /\ x <> 47) as Hq.
  { intros x Hx. eapply authority_char_code, authority_chars; [..|exact Hx]; done. }
  unfold parse_hostname.
  assert (contains (u "://") (scheme ++ u "://" ++ q ++ t) = true) as ->.
  { apply contains_spec. by exists scheme, (q ++ t). }
  unfold urlparse_hostname.
  assert (lstrip_by (fun c => c <=? 32) (scheme ++ u "://" ++ q ++ t) = scheme ++ u "://" ++ q ++ t) as ->.
  { by apply elem_of_cons in Hs as [->| ->%list_elem_of_singleton]. }
  set (ws := fun c : Z => c <> 9 /\ c <> 13 /\ c <> 10). rewrite !filter_app.
  assert (filter ws q = q) as ->.
  { apply filter_all, Forall_forall. intros x Hx%Hq. unfold ws. lia. }
  assert (filter ws scheme = scheme) as -> by (by apply elem_of_cons in Hs as [->| ->%list_elem_of_singleton]).
  assert (filter ws (u "://") = u "://") as -> by done.
  assert (path_text (filter ws t)) as Ht'.
  { destruct t as [|x t]; [done|]. cbn [path_text] in Ht. rewrite filter_cons. destruct (decide (ws x)) as [|Hn]; [done|].
    exfalso. apply Hn. unfold ws. repeat split; intros ->; discriminate Ht. }
  set (t' := filter ws t) in *. clearbody t'. clear Ht t ws.
  assert (strip_scheme (scheme ++ u "://" ++ q ++ t') = u "//" ++ q ++ t') as ->.
  { by apply elem_of_cons in Hs as [->| ->%list_elem_of_singleton]. }
  change (startswith (u "//") (u "//" ++ q ++ t')) with true. cbn iota.
  change (drop 2 (u "//" ++ q ++ t')) with (q ++ t').
  assert (until (one_of "/?#") (q ++ t') = q) as ->.
  { apply until_app; [|done]. intros x Hx%Hq. unfold one_of. apply bool_decide_eq_false. intros Hin.
    change (u "/?#") with [47; 63; 35] in Hin. repeat (rewrite elem_of_cons in Hin). rewrite elem_of_nil in Hin. lia. }
  change (u "[") with [91]. change (u "]") with [93]. rewrite !contains_char, !bool_decide_false by (intros ?%Hq; lia). cbn [xorb andb]. cbv zeta.
  assert (host_of q = quad a b c d) as -> by (by apply host_of_quad).
  assert (truthy (quad a b c d) = true) as ->.
  { unfold quad. apply octet_text in Ha as (_ & _ & Ha). by destruct (str_of_Z a). }
  rewrite partition_none by (by apply quad_not). by rewrite lower_quad, !app_nil_r.
Qed.

(** ** Properties *)

(** Every dotted IPv4 address is blocked exactly when it lies in an internal range (this
    host, private, loopback, link-local with the cloud metadata address, documentation,
    benchmark, multicast and reserved ranges), and so is its IPv6-mapped form. *)
Theorem internal_addresses_blocked a b c d :
  octet a -> octet b -> octet c -> octet d ->
  is_ip_blocked (quad a b c d) = Ok (internal_v4 a b c d)
  /\ is_ip_blocked (u "::ffff:" ++ quad a b c d) = Ok (internal_v4 a b c d).
Proof. intros. split; [by apply blocked_quad|by apply blocked_mapped]. Qed.

Lemma internal_addresses_blocked_witness :
  is_ip_blocked (quad 169 254 169 254) = Ok true /\ is_ip_blocked (u "::ffff:" ++ quad 169 254 169 254) = Ok true.
Proof. apply (internal_addresses_blocked 169 254 169 254); unfold octet; lia. Defined.

(** A URL whose host is a dotted address, with or without port, path, query or fragment,
    passes both guards exactly when the address is not internal, whatever the DNS says. *)
Theorem url_guard getaddrinfo scheme a b c d p t :
  octet a -> octet b -> octet c -> octet d -> port_text p -> path_text t -> scheme ∈ [u "http"; u "https"] ->
  let url := scheme ++ u "://" ++ (quad a b c d ++ p) ++ t in
  check_url_safe getaddrinfo url false = Ok (negb (internal_v4 a b c d))
  /\ validate_public_url getaddrinfo url false = (if internal_v4 a b c d then Raise ValueError else Ok tt).
Proof.
  intros Ha Hb Hc Hd Hp Ht Hs url. unfold check_url_safe, validate_public_url, url. rewrite parse_hostname_quad by done. cbn [res_bind].
  assert (is_ip_literal (quad a b c d) = true) as -> by (unfold is_ip_literal; by rewrite ip_address_quad).
  by rewrite blocked_quad.
Qed.

Lemma url_guard_witness :
  let url := u "http://169.254.169.254:80/latest/meta-data" in
  check_url_safe (fun _ => Ok [u "8.8.8.8"]) url false = Ok false /\ validate_public_url (fun _ => Ok [u "8.8.8.8"]) url false = Raise ValueError.
Proof.
  apply (url_guard (fun _ => Ok [u "8.8.8.8"]) (u "http") 169 254 169 254 (u ":80") (u "/latest/meta-data")); try (unfold octet; lia).
  - right. by exists (u "80").
  - done.
  - left.
Defined.
