(* ===== verification/Webhooks.v ===== *)
(** * Web hooks of alerts

    [apps/alerts/webhooks.py] and [apps/uptime/webhooks.py]: what a notification of issues or
    of a monitor is made of for every kind of recipient, the guard before every request, and
    what becomes of its failures; with the test of recipients in [apps/alerts/api.py].

    A JSON body is a [value] of [PyValue]. Names, addresses and the answers of the receivers
    are in the environment, and so are the further requests aiohttp makes when a receiver
    answers with a redirect. *)
From S2P Require Import Prelude PyStr PyValue UrlValidation.

(** ** Issues *)

(** What is read of an issue: [i_tags] are the rows of key and value. *)
Record Issue := {
  i_pk : Z; i_title : ustr; i_culprit : option ustr; i_level : Z; i_short_id : option Z; i_project_name : ustr; i_project_slug : ustr;
  i_org_slug : ustr; i_tags : list (ustr * ustr) }.

Section webhooks.
Context (GLITCHTIP_URL : ustr).

Definition get_detail_url (i : Issue) : ustr := GLITCHTIP_URL ++ u "/" ++ i_org_slug i ++ u "/issues/" ++ str_of_Z (i_pk i).

(** [base32_encode] of [issue_events/utils.py]. Its [int(x / base)] is the division of integers below 2^53. *)
Definition digs : ustr := u "0123456789ABCDEFGHIJKLMNOPQRSTUVWXYZ".

Fixpoint base32_digits (fuel : nat) (x : Z) (acc : ustr) : ustr :=
  match fuel with
  | O => acc
  | S fuel => if x =? 0 then acc else base32_digits fuel (x / 32) (nth (Z.to_nat (x mod 32)) digs 48 :: acc)
  end.

Definition base32_encode (x : Z) : ustr :=
  if x =? 0 then u "0"
  else if x <? 0 then u "-" ++ base32_digits (S (Z.to_nat (Z.log2 (- x)))) (- x) []
  else base32_digits (S (Z.to_nat (Z.log2 x))) x [].

Definition short_id_display (i : Issue) : ustr :=
  match i_short_id i with Some n => upper (i_project_slug i) ++ u "-" ++ base32_encode n | None => [] end.

(** [self.level is LogLevel.WARNING] compares an int of the table with an enumeration. *)
Definition get_hex_color (i : Issue) : option ustr :=
  if i_level i =? 2 then Some (u "#4b60b4")
  else if (i_level i =? 4) || (i_level i =? 5) then Some (u "#e52b50")
  else None.

(** [int(color[1:], 16)] *)
Definition color_number (color : option ustr) : value :=
  match color with Some c => VInt (int_of_hex (drop 1 c)) | None => VNone end.

(** ** Tags *)

Record TagData := { t_key : ustr; t_label : ustr; t_value : ustr }.

Definition STANDARD_TAG_LABELS : adict ustr ustr :=
  [(u "environment", u "Environment"); (u "server_name", u "Server Name"); (u "release", u "Release")].

Definition capitalize (s : ustr) : ustr := match s with c :: s => upper_char c :: lower s | [] => [] end.

(** [list(dict.fromkeys(l))] *)
Fixpoint unique_keys (seen : list ustr) (l : list ustr) : list ustr :=
  match l with
  | [] => []
  | k :: l => if decide (k ∈ seen) then unique_keys seen l else k :: unique_keys (k :: seen) l
  end.

Definition tag_data (results : adict ustr ustr) (key : ustr) : option TagData :=
  match aget key results with
  | Some v => if truthy v then Some {| t_key := key; t_label := default (capitalize key) (aget key STANDARD_TAG_LABELS); t_value := v |} else None
  | None => None
  end.

Definition gather_issue_tags (i : Issue) (tags_to_add : option (list ustr)) : list TagData :=
  let all_keys := unique_keys [] (STANDARD_TAG_LABELS.*1 ++ default [] tags_to_add) in
  let results := foldl (fun d kv => aset kv.1 kv.2 d) [] (filter (fun kv => kv.1 ∈ all_keys) (i_tags i)) in
  omap (tag_data results) all_keys.

(** ** Requests *)

Inductive Body :=
  | Json (v : value)
  | Plain (text : ustr) (headers : adict ustr ustr)
  | Form (fields : adict ustr ustr) (login password : ustr).

Record Request := { r_url : ustr; r_body : Body }.

(** An answer with its status, a timeout or client error of aiohttp, or another exception. *)
Inductive Delivery := Delivered (status : Z) | TimeoutOrClientError | OtherError (e : exn).

Context (GLITCHTIP_ALLOW_PRIVATE_IPS : bool) (getaddrinfo : ustr -> res (list ustr)) (answer : Request -> Delivery).

Definition _is_url_allowed (url : ustr) : res bool := check_url_safe getaddrinfo url GLITCHTIP_ALLOW_PRIVATE_IPS.

(** The requests that are made, and the status or [None] that is returned. *)
Definition Sent : Type := list Request * res (option Z).

(** The guard on [url], then the request, of which timeouts and client errors are swallowed. *)
Definition guarded (url : ustr) (r : Request) : Sent :=
  match _is_url_allowed url with
  | Raise e => ([], Raise e)
  | Ok false => ([], Ok None)
  | Ok true =>
      ([r], match answer r with Delivered s => Ok (Some s) | TimeoutOrClientError => Ok None | OtherError e => Raise e end)
  end.

(** The requests that reach the network when [l] are made: [session.post] follows the
    redirects of an answer, up to ten of them, without asking the guard again. *)
Context (followed : Request -> list Request).
Definition on_the_wire (l : list Request) : list Request := concat (map (fun r => r :: followed r) l).

(** Building JSON. *)
Definition obj (l : list (string * value)) : value := VDict (map (fun kv => (KStr (u kv.1), kv.2)) l).
Definition txt (k : string) : value := VStr (u k).
Arguments txt _%_string.
Definition opt (s : option ustr) : value := match s with Some s => VStr s | None => VNone end.

(** ** Slack-compatible *)

Record WebhookAttachment := { wa_title : ustr; wa_title_link : ustr; wa_text : value; wa_color : value; wa_fields : value; wa_mrkdown_in : value }.

Definition plain_attachment (title link message : ustr) : WebhookAttachment :=
  {| wa_title := title; wa_title_link := link; wa_text := VStr message; wa_color := VNone; wa_fields := VNone; wa_mrkdown_in := VNone |}.

Definition shown (kv : string * value) : bool := match kv.2 with VNone | VList [] => false | _ => true end.

(** [asdict] without the values that are [None] or empty lists. *)
Definition attachment_dict (a : WebhookAttachment) : value :=
  obj (filter (fun kv => shown kv = true)
    [("title", VStr (wa_title a)); ("title_link", VStr (wa_title_link a)); ("text", wa_text a); ("image_url", VNone);
     ("color", wa_color a); ("fields", wa_fields a); ("mrkdown_in", wa_mrkdown_in a)]%string).

Definition send_webhook (url message : ustr) (attachments : list WebhookAttachment) : Sent :=
  guarded url {| r_url := url; r_body := Json (obj [("text", VStr message); ("attachments", VList (map attachment_dict attachments))]%string) |}.

Definition webhook_field (title value_ : ustr) (short : bool) : value :=
  obj [("title", VStr title); ("value", VStr value_); ("short", VBool short)]%string.

Definition issue_attachment (tags_to_add : option (list ustr)) (i : Issue) : WebhookAttachment :=
  {| wa_title := i_title i; wa_title_link := get_detail_url i; wa_text := opt (i_culprit i); wa_color := opt (get_hex_color i);
     wa_fields := VList (webhook_field (u "Project") (i_project_name i) true ::
       map (fun t => webhook_field (t_label t) (t_value t) (bool_decide (t_key t ∈ [u "environment"; u "server_name"]))) (gather_issue_tags i tags_to_add));
     wa_mrkdown_in := VList [txt "text"] |}.

(** The first line of every message. *)
Definition alert_title (issue_count : Z) : ustr :=
  u "GlitchTip Alert" ++ if 1 <? issue_count then u " (" ++ str_of_Z issue_count ++ u " issues)" else [].

Definition send_issue_as_webhook (url : ustr) (issues : list Issue) (issue_count : Z) (tags_to_add : option (list ustr)) : Sent :=
  send_webhook url (alert_title issue_count) (map (issue_attachment tags_to_add) issues).

(** ** Discord *)

Definition discord_field (name value_ : ustr) (inline : bool) : value :=
  obj [("name", VStr name); ("value", VStr value_); ("inline", VBool inline)]%string.

Definition discord_embed (title : ustr) (description color : value) (link : ustr) (fields : list value) : value :=
  obj [("title", VStr title); ("description", description); ("color", color); ("url", VStr link); ("fields", VList fields)]%string.

Definition send_discord_webhook (url message : ustr) (embeds : list value) : Sent :=
  guarded url {| r_url := url; r_body := Json (obj [("content", VStr message); ("embeds", VList embeds)]%string) |}.

Definition issue_embed (tags_to_add : option (list ustr)) (i : Issue) : value :=
  discord_embed (i_title i) (opt (i_culprit i)) (color_number (get_hex_color i)) (get_detail_url i)
    (discord_field (u "Project") (i_project_name i) true ::
     map (fun t => discord_field (t_label t) (t_value t) (ustr_eqb (t_key t) (u "environment"))) (gather_issue_tags i tags_to_add)).

Definition send_issue_as_discord_webhook (url : ustr) (issues : list Issue) (issue_count : Z) (tags_to_add : option (list ustr)) : Sent :=
  send_discord_webhook url (alert_title issue_count) (map (issue_embed tags_to_add) issues).

(** ** Google Chat *)

Definition card (header : list (string * value)) (sections : list value) : value :=
  obj [("header", obj header); ("sections", VList sections)]%string.

Definition decorated (fields : list (string * value)) : value := obj [("decoratedText", obj fields)]%string.

Definition link_button (label link : ustr) : value :=
  obj [("text", VStr label); ("onClick", obj [("openLink", obj [("url", VStr link)])])]%string.

Definition construct_uptime_card (title subtitle message link : ustr) : value :=
  card [("title", VStr title); ("subtitle", VStr subtitle)]%string
    [obj [("widgets", VList [decorated [("text", VStr message); ("button", link_button (u "View") link)]])]]%string.

Definition construct_issue_card (title : ustr) (i : Issue) (tags : list TagData) : value :=
  card [("title", VStr title); ("subtitle", VStr (i_project_name i))]%string
    [obj [("header", VStr (u "<font color='" ++ default (u "None") (get_hex_color i) ++ u "'>" ++ i_title i ++ u "</font>"));
          ("widgets", VList (decorated [("topLabel", txt "Culprit"); ("text", opt (i_culprit i))] ::
             map (fun t => decorated [("topLabel", VStr (t_label t)); ("text", VStr (t_value t))]) tags ++
             [obj [("buttonList", obj [("buttons", VList [link_button (u "View Issue " ++ short_id_display i) (get_detail_url i)])])]]))]]%string.

Definition send_googlechat_webhook (url : ustr) (cards : list value) : Sent :=
  guarded url {| r_url := url;
    r_body := Json (obj [("cardsV2", VList (map (fun c => obj [("cardId", txt "createCardMessage"); ("card", c)]) cards))]%string) |}.

Definition send_issue_as_googlechat_webhook (url : ustr) (issues : list Issue) (issue_count : Z) (tags_to_add : option (list ustr)) : Sent :=
  send_googlechat_webhook url (map (fun i => construct_issue_card (u "GlitchTip Alert") i (gather_issue_tags i tags_to_add)) issues).

(** ** ntfy *)

Definition send_ntfy (url title message : ustr) (click_url : option ustr) (tags : list ustr) : Sent :=
  guarded url {| r_url := url; r_body := Plain message
    ([(u "Title", title); (u "Markdown", u "yes")] ++ (if otruthy click_url then [(u "Click", default [] click_url)] else [])
     ++ match tags with [] => [] | _ => [(u "Tags", join (u ",") tags)] end) |}.

Definition tag_lines (tags : list TagData) : list ustr := map (fun t => t_label t ++ u ": " ++ t_value t) tags.

Definition culprit_line (i : Issue) : list ustr := if otruthy (i_culprit i) then [u "Culprit: " ++ default [] (i_culprit i)] else [].

Definition ntfy_lines (tags_to_add : option (list ustr)) (i : Issue) : list ustr :=
  [u "**" ++ i_title i ++ u "**"; u "Project: " ++ i_project_name i] ++ culprit_line i ++ tag_lines (gather_issue_tags i tags_to_add)
  ++ [u "[View Issue " ++ short_id_display i ++ u "](" ++ get_detail_url i ++ u ")"; []].

Definition lines_text (l : list ustr) : ustr := rstrip (join [10] l).

Definition send_issue_as_ntfy (url : ustr) (issues : list Issue) (issue_count : Z) (tags_to_add : option (list ustr)) : Sent :=
  send_ntfy url (alert_title issue_count) (lines_text (concat (map (ntfy_lines tags_to_add) issues))) (get_detail_url <$> head issues) [u "warning"].

(** ** Microsoft Teams *)

Definition send_teams_webhook (url : ustr) (card_body actions : list value) : Sent :=
  guarded url {| r_url := url; r_body := Json (obj
    [("type", txt "message");
     ("attachments", VList [obj
       [("contentType", txt "application/vnd.microsoft.card.adaptive"); ("contentUrl", VNone);
        ("content", obj ([("$schema", txt "http://adaptivecards.io/schemas/adaptive-card.json"); ("type", txt "AdaptiveCard");
                          ("version", txt "1.4"); ("body", VList card_body)] ++ match actions with [] => [] | _ => [("actions", VList actions)] end))]])]%string) |}.

Definition text_block (fields : list (string * value)) : value := obj (("type", txt "TextBlock") :: fields)%string.
Definition large_title (title : ustr) : value := text_block [("size", txt "Large"); ("weight", txt "Bolder"); ("text", VStr title)]%string.

Definition fact (title value_ : ustr) : value := obj [("title", VStr title); ("value", VStr value_)]%string.

Definition teams_body (tags_to_add : option (list ustr)) (i : Issue) : list value :=
  [text_block [("weight", txt "Bolder"); ("color", txt "Attention"); ("text", VStr (i_title i)); ("wrap", VBool true)]]%string
  ++ (if otruthy (i_culprit i) then [text_block [("text", opt (i_culprit i)); ("wrap", VBool true)]]%string else [])
  ++ [obj [("type", txt "FactSet");
           ("facts", VList (fact (u "Project") (i_project_name i) :: map (fun t => fact (t_label t) (t_value t)) (gather_issue_tags i tags_to_add)))]]%string.

Definition open_url (title link : ustr) : value := obj [("type", txt "Action.OpenUrl"); ("title", VStr title); ("url", VStr link)]%string.

Definition send_issue_as_teams_webhook (url : ustr) (issues : list Issue) (issue_count : Z) (tags_to_add : option (list ustr)) : Sent :=
  send_teams_webhook url (large_title (alert_title issue_count) :: concat (map (teams_body tags_to_add) issues))
    (map (fun i => open_url (u "View Issue " ++ short_id_display i) (get_detail_url i)) issues).

(** ** Zulip *)

(** What [aiohttp.BasicAuth] raises for a login and a password, for example a [ValueError]
    for a login with a colon. *)
Context (basic_auth : ustr -> ustr -> option exn).

(** Behind the guard the login is built before the request. *)
Definition send_zulip_message (server_url bot_email api_key channel topic content : ustr) : Sent :=
  match basic_auth bot_email api_key with
  | Some e => match _is_url_allowed server_url with Raise e => ([], Raise e) | Ok false => ([], Ok None) | Ok true => ([], Raise e) end
  | None =>
  guarded server_url {| r_url := rstrip_by (one_of "/") server_url ++ u "/api/v1/messages";
    r_body := Form [(u "type", u "channel"); (u "to", channel); (u "topic", topic); (u "content", content)] bot_email api_key |}
  end.

Definition config_get (k : string) (dflt : ustr) (config : option (adict ustr ustr)) : ustr := default dflt (aget (u k) (default [] config)).
Arguments config_get _%_string _ _.

(** [send_zulip_message] with what the recipient's configuration says. *)
Definition send_zulip_as (url : ustr) (config : option (adict ustr ustr)) (content : ustr) : Sent :=
  send_zulip_message url (config_get "bot_email" [] config) (config_get "api_key" [] config) (config_get "channel" [] config)
    (config_get "topic" (u "GlitchTip Alerts") config) content.

Definition zulip_lines (tags_to_add : option (list ustr)) (i : Issue) : list ustr :=
  [u "**[" ++ i_title i ++ u "](" ++ get_detail_url i ++ u ")**"; u "Project: " ++ i_project_name i] ++ culprit_line i
  ++ tag_lines (gather_issue_tags i tags_to_add) ++ [[]].

Definition send_issue_as_zulip (url : ustr) (issues : list Issue) (issue_count : Z) (tags_to_add : option (list ustr))
    (config : option (adict ustr ustr)) : Sent :=
  send_zulip_as url config (lines_text ([u "## " ++ alert_title issue_count; []] ++ concat (map (zulip_lines tags_to_add) issues))).

(** ** Feishu *)

Definition send_feishu_webhook (url : ustr) (payload : value) : Sent := guarded url {| r_url := url; r_body := Json payload |}.

Definition lark_text (tag : string) (content : ustr) : value := obj [("tag", txt tag); ("content", VStr content)]%string.
Definition lark_field (label value_ : ustr) : value :=
  obj [("is_short", VBool true); ("text", lark_text "lark_md" (u "**" ++ label ++ u "**" ++ [10] ++ value_))]%string.

Definition feishu_elements (tags_to_add : option (list ustr)) (i : Issue) : list value :=
  [obj [("tag", txt "div");
        ("text", lark_text "lark_md" (u "**[" ++ i_title i ++ u "](" ++ get_detail_url i ++ u ")**" ++ [10] ++ default [] (i_culprit i)));
        ("fields", VList (lark_field (u "Project") (i_project_name i) :: map (fun t => lark_field (t_label t) (t_value t)) (gather_issue_tags i tags_to_add)))];
   obj [("tag", txt "action");
        ("actions", VList [obj [("tag", txt "button"); ("text", lark_text "plain_text" (u "View Issue " ++ short_id_display i));
                                ("url", VStr (get_detail_url i)); ("type", txt "primary")]])];
   obj [("tag", txt "hr")]]%string.

Definition feishu_payload (title : ustr) (template : string) (elements : list value) : value :=
  obj [("msg_type", txt "interactive");
       ("card", obj [("header", obj [("title", lark_text "plain_text" title); ("template", txt template)]); ("elements", VList elements)])]%string.

Definition send_issue_as_feishu_webhook (url : ustr) (issues : list Issue) (issue_count : Z) (tags_to_add : option (list ustr)) : Sent :=
  send_feishu_webhook url (feishu_payload (alert_title issue_count) "red" (concat (map (feishu_elements tags_to_add) issues))).

(** ** Dispatch *)

Inductive RecipientType := EMAIL | GENERAL_WEBHOOK | DISCORD | GOOGLE_CHAT | NTFY | MICROSOFT_TEAMS | ZULIP | FEISHU.

(** [ISSUE_NOTIFICATION_HANDLERS.get(recipient_type, send_issue_as_webhook)] *)
Definition issue_handler (t : RecipientType) (url : ustr) (issues : list Issue) (issue_count : Z) (tags_to_add : option (list ustr))
    (config : option (adict ustr ustr)) : Sent :=
  match t with
  | DISCORD => send_issue_as_discord_webhook url issues issue_count tags_to_add
  | FEISHU => send_issue_as_feishu_webhook url issues issue_count tags_to_add
  | GOOGLE_CHAT => send_issue_as_googlechat_webhook url issues issue_count tags_to_add
  | NTFY => send_issue_as_ntfy url issues issue_count tags_to_add
  | MICROSOFT_TEAMS => send_issue_as_teams_webhook url issues issue_count tags_to_add
  | ZULIP => send_issue_as_zulip url issues issue_count tags_to_add config
  | _ => send_issue_as_webhook url issues issue_count tags_to_add
  end.

Context (MAX_ISSUES_PER_ALERT : nat).

Definition send_webhook_notification (issues : list Issue) (url : ustr) (t : RecipientType) (tags_to_add : option (list ustr))
    (config : option (adict ustr ustr)) : Sent :=
  issue_handler t url (take MAX_ISSUES_PER_ALERT issues) (len issues) tags_to_add config.

(** [issue] is the last one of the project. *)
Definition send_test_notification (url : ustr) (t : RecipientType) (project_name : ustr) (issue : option Issue)
    (tags_to_add : option (list ustr)) (config : option (adict ustr ustr)) : Sent :=
  match issue with
  | Some i => issue_handler t url [i] 1 tags_to_add config
  | None =>
      let title := u "GlitchTip Test Notification" in
      let message := u "Test notification for project " ++ project_name ++ u ". Your alert recipient is configured correctly." in
      match t with
      | ZULIP => send_zulip_as url config (u "## " ++ title ++ [10; 10] ++ message)
      | NTFY => send_ntfy url title message None [u "white_check_mark"]
      | MICROSOFT_TEAMS => send_teams_webhook url [large_title title; text_block [("text", VStr message); ("wrap", VBool true)]%string] []
      | DISCORD => send_discord_webhook url title [discord_embed title (VStr message) (VInt 4939956) [] []]
      | FEISHU => send_feishu_webhook url (feishu_payload title "blue" [obj [("tag", txt "div"); ("text", lark_text "plain_text" message)]%string])
      | GOOGLE_CHAT =>
          send_googlechat_webhook url
            [card [("title", VStr title); ("subtitle", VStr project_name)]%string [obj [("widgets", VList [decorated [("text", VStr message)]])]%string]]
      | _ => send_webhook url title [plain_attachment title [] message]
      end
  end.

(** ** Monitors *)

Record Monitor := { m_name : ustr; m_url : ustr }.

Definition uptime_subject : ustr := u "GlitchTip Uptime Alert".

(** [UPTIME_NOTIFICATION_HANDLERS] has no entry for Feishu. *)
Definition uptime_handler (t : RecipientType) (url : ustr) (config : option (adict ustr ustr)) (m : Monitor) (message : ustr) : Sent :=
  match t with
  | DISCORD => send_discord_webhook url uptime_subject [discord_embed (m_name m) (VStr message) VNone (m_url m) []]
  | GOOGLE_CHAT => send_googlechat_webhook url [construct_uptime_card uptime_subject (m_name m) message (m_url m)]
  | NTFY => send_ntfy url uptime_subject (u "**" ++ m_name m ++ u "**" ++ [10] ++ message) (Some (m_url m)) [u "warning"]
  | MICROSOFT_TEAMS =>
      send_teams_webhook url
        [large_title uptime_subject; text_block [("weight", txt "Bolder"); ("text", VStr (m_name m))]%string;
         text_block [("text", VStr message); ("wrap", VBool true)]%string]
        [open_url (u "View Monitor") (m_url m)]
  | ZULIP =>
      send_zulip_as url config (u "## " ++ uptime_subject ++ [10; 10] ++ u "**" ++ m_name m ++ u "**" ++ [10] ++ message ++ [10; 10]
                                ++ u "[View Monitor](" ++ m_url m ++ u ")")
  | _ => send_webhook url uptime_subject [plain_attachment (m_name m) (m_url m) message]
  end.

Definition send_uptime_as_webhook (t : RecipientType) (url : ustr) (config : option (adict ustr ustr)) (m : Monitor) (went_down : bool) : Sent :=
  uptime_handler t url config m (if went_down then u "The monitored site has gone down." else u "The monitored site is back up.").

(** ** The recipients of a notification and their test *)

Record AlertRecipient := {
  recipient_type : RecipientType; ar_url : ustr; ar_config : option (adict ustr ustr); ar_tags : option (list ustr) }.

(** [AlertRecipient.send] of every recipient, whose exceptions are collected; e-mails aside. *)
Definition send_to_all (recipients : list AlertRecipient) (issues : list Issue) : list Request :=
  concat (map (fun r => match recipient_type r with
                        | EMAIL => []
                        | t => (send_webhook_notification issues (ar_url r) t (ar_tags r) (ar_config r)).1
                        end) recipients).

Inductive TestStatus := Skipped | TestSent | TestError (e : exn).

(** The loop of [test_project_alert]. *)
Definition test_recipient (project_name : ustr) (issue : option Issue) (r : AlertRecipient) : list Request * TestStatus :=
  match recipient_type r with
  | EMAIL => ([], Skipped)
  | t =>
      match send_test_notification (ar_url r) t project_name issue (ar_tags r) (ar_config r) with
      | (reqs, Ok _) => (reqs, TestSent)
      | (reqs, Raise e) => (reqs, TestError e)
      end
  end.

Definition test_project_alert (project_name : ustr) (issue : option Issue) (recipients : list AlertRecipient) : list (list Request * TestStatus) :=
  map (test_recipient project_name issue) recipients.
End webhooks.

(** ** What is sent, and where *)

(** The strings in a JSON value and in a request. *)
Fixpoint strings_of (v : value) : list ustr :=
  match v with
  | VStr s => [s]
  | VList l | VTuple l => concat (map strings_of l)
  | VDict d => concat (map (fun kv => strings_of kv.2) d)
  | _ => []
  end.

Definition body_strings (b : Body) : list ustr :=
  match b with Json v => strings_of v | Plain text headers => text :: headers.*2 | Form fields login password => fields.*2 end.

Definition mentions (s : ustr) (q : Request) : Prop := exists t, t ∈ body_strings (r_body q) /\ contains s t = true.

(** The request goes to the recipient's address or, for Zulip, below it. *)
Definition addressed (url : ustr) (q : Request) : Prop :=
  r_url q = url \/ r_url q = rstrip_by (one_of "/") url ++ u "/api/v1/messages".

(** *** Searching texts and values *)

Lemma contains_app a s b : contains s (a ++ s ++ b) = true.
Proof. apply contains_spec. eauto. Qed.

Lemma contains_refl s : contains s s = true.
Proof. apply contains_spec. exists [], []. by rewrite app_nil_r. Qed.

Lemma contains_trans r s t : contains r s = true -> contains s t = true -> contains r t = true.
Proof.
  intros (a & b & ->)%contains_spec (c & d & ->)%contains_spec. apply contains_spec.
  exists (c ++ a), (b ++ d). by rewrite <- !app_assoc.
Qed.

Lemma contains_join sep s l : s ∈ l -> contains s (join sep l) = true.
Proof.
  induction l as [|x l IH]; [by intros ?%elem_of_nil|]. intros [->|Hs]%elem_of_cons.
  - destruct l; apply contains_spec; [exists [], []; by rewrite app_nil_r|]. exists []. eauto.
  - destruct l as [|y l]; [by apply elem_of_nil in Hs|]. apply (contains_trans _ _ _ (IH Hs)), contains_spec.
    exists (x ++ sep), []. by rewrite app_nil_r, <- app_assoc.
Qed.

Lemma lstrip_keeps p l c r : p c = false -> exists l', lstrip_by p (l ++ c :: r) = l' ++ c :: r.
Proof.
  intros Hc. induction l as [|x l IH]; cbn.
  - rewrite Hc. by exists [].
  - destruct (p x); [done|]. by exists (x :: l).
Qed.

Lemma rstrip_keeps s c t : is_space c = false -> contains (s ++ [c]) t = true -> contains (s ++ [c]) (rstrip t) = true.
Proof.
  intros Hc (a & b & ->)%contains_spec. unfold rstrip, rstrip_by.
  destruct (lstrip_keeps is_space (rev b) c (rev (a ++ s)) Hc) as [l Hl].
  assert (rev (a ++ (s ++ [c]) ++ b) = rev b ++ c :: rev (a ++ s)) as ->.
  { rewrite !rev_app_distr. cbn. by rewrite <- !app_assoc. }
  rewrite Hl, rev_app_distr. cbn. rewrite rev_involutive. apply contains_spec. exists a, (rev l). by rewrite <- !app_assoc.
Qed.

Lemma lines_text_keeps s c lines line :
  is_space c = false -> line ∈ lines -> contains (s ++ [c]) line = true -> contains s (lines_text lines) = true.
Proof.
  intros Hc Hl Hs. apply (contains_trans _ (s ++ [c])); [apply (contains_app [])|].
  apply rstrip_keeps; [done|]. eapply contains_trans; [done|by apply contains_join].
Qed.

Lemma in_concat_map {A B} (f : A -> list B) (l : list A) x y : x ∈ l -> y ∈ f x -> y ∈ concat (map f l).
Proof.
  intros Hx Hy. induction Hx; cbn; apply elem_of_app; auto.
Qed.

Lemma strings_in_list s v l : v ∈ l -> s ∈ strings_of v -> s ∈ strings_of (VList l).
Proof. apply in_concat_map. Qed.

Lemma strings_in_obj s k v l : (k, v) ∈ l -> s ∈ strings_of v -> s ∈ strings_of (obj l).
Proof. intros Hv Hs. cbn. rewrite map_map. apply (in_concat_map (fun kv => strings_of kv.2) l (k, v)); done. Qed.

Lemma in_map_list {A B} (f : A -> B) (l : list A) x : x ∈ l -> f x ∈ map f l.
Proof. intros Hx. apply list_elem_of_In, in_map, list_elem_of_In, Hx. Qed.

Lemma cons_in {A} (x : A) l : x ∈ x :: l.
Proof. apply list_elem_of_here. Qed.

Lemma in_cons {A} (x y : A) l : x ∈ l -> x ∈ y :: l.
Proof. apply list_elem_of_further. Qed.

(** To the [n]th entry of an object or list. *)
Ltac entry n := match n with O => apply cons_in | S ?n => apply in_cons; entry n end.
Ltac in_obj n := eapply strings_in_obj; [entry n|].
Ltac in_list n := eapply strings_in_list; [entry n|].

Section deliveries.
Context (GLITCHTIP_URL : ustr).
Context (GLITCHTIP_ALLOW_PRIVATE_IPS : bool) (getaddrinfo : ustr -> res (list ustr)) (answer : Request -> Delivery).
Context (basic_auth : ustr -> ustr -> option exn) (followed : Request -> list Request).
Notation guard url := (check_url_safe getaddrinfo url GLITCHTIP_ALLOW_PRIVATE_IPS).
Notation link := (get_detail_url GLITCHTIP_URL).
Notation handler := (issue_handler GLITCHTIP_URL GLITCHTIP_ALLOW_PRIVATE_IPS getaddrinfo answer basic_auth).

Definition outcome (d : Delivery) : res (option Z) :=
  match d with Delivered s => Ok (Some s) | TimeoutOrClientError => Ok None | OtherError e => Raise e end.

(** One attempt at the request [q] of a recipient at [url]; [err] is what building its login raises. *)
Definition attempt (err : option exn) (url : ustr) (q : Request) : Sent :=
  match guard url with
  | Raise e => ([], Raise e)
  | Ok false => ([], Ok None)
  | Ok true => match err with None => ([q], outcome (answer q)) | Some e => ([], Raise e) end
  end.

(** [s] is an attempt at one request, addressed to [url] and linking the issues. *)
Definition notifies (err : option exn) (url : ustr) (issues : list Issue) (s : Sent) : Prop :=
  exists q, s = attempt err url q /\ addressed url q /\ Forall (fun i => mentions (link i) q) issues.

(** What building the login of a Zulip recipient raises; the other kinds have none. *)
Definition login_error (t : RecipientType) (config : option (adict ustr ustr)) : option exn :=
  match t with ZULIP => basic_auth (config_get "bot_email" [] config) (config_get "api_key" [] config) | _ => None end.

Lemma notifies_guarded url q issues :
  addressed url q -> (forall i, i ∈ issues -> mentions (link i) q) ->
  notifies None url issues (guarded GLITCHTIP_ALLOW_PRIVATE_IPS getaddrinfo answer url q).
Proof. intros Ha Hi. exists q. split; [done|]. split; [done|]. by apply Forall_forall. Qed.

Lemma mentions_json s url v : s ∈ strings_of v -> mentions s {| r_url := url; r_body := Json v |}.
Proof. intros Hs. exists s. split; [done|]. apply contains_refl. Qed.

Lemma notifies_webhook url issues count tags :
  notifies None url issues (send_issue_as_webhook GLITCHTIP_URL GLITCHTIP_ALLOW_PRIVATE_IPS getaddrinfo answer url issues count tags).
Proof.
  apply notifies_guarded; [by left|]. intros i Hi. apply mentions_json. in_obj 1%nat.
  eapply strings_in_list; [apply in_map_list, in_map_list, Hi|]. unfold attachment_dict.
  apply strings_in_obj with "title_link"%string (VStr (link i)); [|apply cons_in].
  apply list_elem_of_filter. split; [done|]. entry 1%nat.
Qed.

Lemma notifies_discord url issues count tags :
  notifies None url issues (send_issue_as_discord_webhook GLITCHTIP_URL GLITCHTIP_ALLOW_PRIVATE_IPS getaddrinfo answer url issues count tags).
Proof.
  apply notifies_guarded; [by left|]. intros i Hi. apply mentions_json. in_obj 1%nat.
  eapply strings_in_list; [apply in_map_list, Hi|]. in_obj 3%nat. apply cons_in.
Qed.

Lemma notifies_googlechat url issues count tags :
  notifies None url issues (send_issue_as_googlechat_webhook GLITCHTIP_URL GLITCHTIP_ALLOW_PRIVATE_IPS getaddrinfo answer url issues count tags).
Proof.
  apply notifies_guarded; [by left|]. intros i Hi. apply mentions_json. in_obj 0%nat.
  eapply strings_in_list; [apply in_map_list, in_map_list, Hi|]. in_obj 1%nat. in_obj 1%nat. in_list 0%nat. in_obj 1%nat.
  eapply strings_in_list; [apply in_cons, elem_of_app; right; apply cons_in|].
  in_obj 0%nat. in_obj 0%nat. in_list 0%nat. in_obj 1%nat. in_obj 0%nat. in_obj 0%nat. apply cons_in.
Qed.

Lemma notifies_teams url issues count tags :
  notifies None url issues (send_issue_as_teams_webhook GLITCHTIP_URL GLITCHTIP_ALLOW_PRIVATE_IPS getaddrinfo answer url issues count tags).
Proof.
  apply notifies_guarded; [by left|]. intros i Hi. apply mentions_json. in_obj 1%nat. in_list 0%nat. in_obj 2%nat.
  destruct issues as [|j issues]; [by apply elem_of_nil in Hi|]. in_obj 4%nat.
  eapply strings_in_list; [apply in_map_list, Hi|]. in_obj 2%nat. apply cons_in.
Qed.

Lemma notifies_feishu url issues count tags :
  notifies None url issues (send_issue_as_feishu_webhook GLITCHTIP_URL GLITCHTIP_ALLOW_PRIVATE_IPS getaddrinfo answer url issues count tags).
Proof.
  apply notifies_guarded; [by left|]. intros i Hi. apply mentions_json. in_obj 1%nat. in_obj 1%nat.
  eapply strings_in_list; [eapply in_concat_map; [exact Hi|]; entry 1%nat|]. in_obj 1%nat. in_list 0%nat. in_obj 2%nat. apply cons_in.
Qed.

Lemma notifies_ntfy url issues count tags :
  notifies None url issues (send_issue_as_ntfy GLITCHTIP_URL GLITCHTIP_ALLOW_PRIVATE_IPS getaddrinfo answer url issues count tags).
Proof.
  apply notifies_guarded; [by left|]. intros i Hi. eexists. split; [apply cons_in|].
  eapply (lines_text_keeps _ 41); [done| |].
  - eapply in_concat_map; [exact Hi|]. apply elem_of_app. right. apply elem_of_app. right. apply elem_of_app. right. apply cons_in.
  - apply contains_spec. exists (u "[View Issue " ++ short_id_display i ++ u "]("), []. by rewrite <- !app_assoc.
Qed.

(** A message of Zulip. *)
Lemma notifies_zulip_as url config issues content :
  (forall i, i ∈ issues -> contains (link i) content = true) ->
  notifies (login_error ZULIP config) url issues (send_zulip_as GLITCHTIP_ALLOW_PRIVATE_IPS getaddrinfo answer basic_auth url config content).
Proof.
  intros Hi. unfold send_zulip_as, send_zulip_message, login_error. destruct (basic_auth _ _) as [e|].
  2: { apply notifies_guarded; [by right|]. intros i Hin. eexists. split; [entry 3%nat|]. by apply Hi. }
  eexists {| r_url := rstrip_by (one_of "/") url ++ u "/api/v1/messages"; r_body := Plain content [] |}. split; [done|]. split; [by right|].
  apply Forall_forall. intros i Hin. eexists. split; [apply cons_in|]. by apply Hi.
Qed.

Lemma notifies_zulip url issues count tags config :
  notifies (login_error ZULIP config) url issues (send_issue_as_zulip GLITCHTIP_URL GLITCHTIP_ALLOW_PRIVATE_IPS getaddrinfo answer basic_auth url issues count tags config).
Proof.
  apply notifies_zulip_as. intros i Hi.
  eapply (lines_text_keeps _ 41); [done| |].
  - apply elem_of_app. right. eapply in_concat_map; [exact Hi|]. apply cons_in.
  - apply contains_spec. exists (u "**[" ++ i_title i ++ u "]("), (u "**"). by rewrite <- !app_assoc.
Qed.

Lemma notifies_handler t url issues count tags config : notifies (login_error t config) url issues (handler t url issues count tags config).
Proof.
  destruct t; [apply notifies_webhook..|apply notifies_discord|apply notifies_googlechat|apply notifies_ntfy|apply notifies_teams
    |apply notifies_zulip|apply notifies_feishu].
Qed.

Lemma notifies_weaken err url issues s : notifies err url issues s -> notifies err url [] s.
Proof. intros (q & -> & Ha & _). by exists q. Qed.

Lemma notifies_guarded_nil url q : addressed url q -> notifies None url [] (guarded GLITCHTIP_ALLOW_PRIVATE_IPS getaddrinfo answer url q).
Proof. intros Ha. apply notifies_guarded; [done|]. by intros i ?%elem_of_nil. Qed.

Lemma notifies_test url t name issue tags config :
  notifies (login_error t config) url []
    (send_test_notification GLITCHTIP_URL GLITCHTIP_ALLOW_PRIVATE_IPS getaddrinfo answer basic_auth url t name issue tags config).
Proof.
  destruct issue as [i|]; [eapply notifies_weaken, notifies_handler|].
  destruct t; first [by apply notifies_guarded_nil; left|apply notifies_zulip_as; by intros i ?%elem_of_nil].
Qed.

Lemma notifies_uptime url t config m down :
  notifies (login_error t config) url [] (send_uptime_as_webhook GLITCHTIP_ALLOW_PRIVATE_IPS getaddrinfo answer basic_auth t url config m down).
Proof.
  unfold send_uptime_as_webhook. destruct t; first [by apply notifies_guarded_nil; left|apply notifies_zulip_as; by intros i ?%elem_of_nil].
Qed.

(** The addresses a request to [url] may go to: with private ones allowed all, else the ones
    that are public now. A name that does not resolve is left to the request to fail. *)
Definition public_target (url : ustr) : Prop :=
  GLITCHTIP_ALLOW_PRIVATE_IPS = true \/
  exists h, parse_hostname url = Ok (Some h) /\
    if is_ip_literal h then is_ip_blocked h = Ok false
    else getaddrinfo h = Raise OSError \/ exists infos, getaddrinfo h = Ok infos /\ Forall (fun a => is_ip_blocked a = Ok false) infos.

Lemma any_blocked_false infos : any_blocked infos = Ok false -> Forall (fun a => is_ip_blocked a = Ok false) infos.
Proof.
  induction infos as [|a infos IH]; [constructor|]. cbn. destruct (is_ip_blocked a) as [[]|] eqn:E; cbn; try done.
  intros ?. constructor; auto.
Qed.

Lemma guard_public url : guard url = Ok true -> public_target url.
Proof.
  unfold check_url_safe, public_target. destruct GLITCHTIP_ALLOW_PRIVATE_IPS; [by left|]. intros H. right.
  destruct (parse_hostname url) as [[h|]|]; cbn in H; try done. exists h. split; [done|].
  destruct (is_ip_literal h); [by destruct (is_ip_blocked h) as [[]|]|].
  destruct (getaddrinfo h) as [infos|[]]; cbn in H; try done; [|by left].
  right. exists infos. split; [done|]. apply any_blocked_false. by destruct (any_blocked infos) as [[]|].
Qed.

Lemma notifies_requests err url issues s q : notifies err url issues s -> q ∈ s.1 -> addressed url q /\ public_target url.
Proof.
  intros (q' & -> & Ha & _). unfold attempt. destruct (guard url) as [[]|] eqn:E, err; cbn; try by intros ?%elem_of_nil.
  intros ->%list_elem_of_singleton. split; [done|]. by apply guard_public.
Qed.

Context (MAX_ISSUES_PER_ALERT : nat).
Notation notification issues r := (send_webhook_notification GLITCHTIP_URL GLITCHTIP_ALLOW_PRIVATE_IPS getaddrinfo answer basic_auth
  MAX_ISSUES_PER_ALERT issues (ar_url r) (recipient_type r) (ar_tags r) (ar_config r)).
Notation to_all := (send_to_all GLITCHTIP_URL GLITCHTIP_ALLOW_PRIVATE_IPS getaddrinfo answer basic_auth MAX_ISSUES_PER_ALERT).
Notation test_one := (test_recipient GLITCHTIP_URL GLITCHTIP_ALLOW_PRIVATE_IPS getaddrinfo answer basic_auth).
Notation test_all := (test_project_alert GLITCHTIP_URL GLITCHTIP_ALLOW_PRIVATE_IPS getaddrinfo answer basic_auth).
Notation uptime_one m down r := (send_uptime_as_webhook GLITCHTIP_ALLOW_PRIVATE_IPS getaddrinfo answer basic_auth (recipient_type r) (ar_url r) (ar_config r) m down).

Lemma in_concat_inv {A B} (f : A -> list B) (l : list A) y : y ∈ concat (map f l) -> exists x, x ∈ l /\ y ∈ f x.
Proof.
  induction l as [|x l IH]; cbn; [by intros ?%elem_of_nil|]. intros [Hy|Hy]%elem_of_app.
  - exists x. split; [apply cons_in|done].
  - destruct (IH Hy) as (z & Hz & Hf). exists z. split; [by apply in_cons|done].
Qed.

Lemma on_the_wire_inv l q : q ∈ on_the_wire followed l -> exists q0, q0 ∈ l /\ (q = q0 \/ q ∈ followed q0).
Proof.
  intros H. apply in_concat_inv in H as (q0 & Hq0 & Hq). exists q0. split; [done|]. by apply elem_of_cons in Hq.
Qed.

(** Who a request of the code itself is for. *)
Lemma request_recipient recipients issues project_name issue m down q :
  q ∈ to_all recipients issues \/ q ∈ concat (test_all project_name issue recipients).*1
  \/ q ∈ concat (map (fun r => (uptime_one m down r).1) recipients) ->
  exists r, r ∈ recipients /\ addressed (ar_url r) q /\ public_target (ar_url r).
Proof.
  intros [H|[H|H]].
  - apply in_concat_inv in H as (r & Hr & Hq). exists r. split; [done|].
    assert (q ∈ (notification issues r).1) as Hq' by (destruct (recipient_type r); [by apply elem_of_nil in Hq|done..]).
    exact (notifies_requests _ _ _ _ _ (notifies_handler _ _ _ _ _ _) Hq').
  - unfold test_project_alert in H. rewrite <- list_fmap_compose in H. apply in_concat_inv in H as (r & Hr & Hq).
    exists r. split; [done|]. refine (notifies_requests _ _ _ _ _ (notifies_test (ar_url r) (recipient_type r) project_name issue (ar_tags r) (ar_config r)) _).
    unfold compose, test_recipient in Hq.
    destruct (recipient_type r); [by apply elem_of_nil in Hq|..]; by destruct send_test_notification as [? []].
  - apply in_concat_inv in H as (r & Hr & Hq). exists r. split; [done|]. exact (notifies_requests _ _ _ _ _ (notifies_uptime _ _ _ _ _) Hq).
Qed.

(** C24: Every request that a notification of issues or of a monitor or the test of
    recipients puts on the network is one to the address of a recipient (for Zulip, to its
    messages resource) that passed the guard just before, or follows a redirect with which
    such a request was answered; a redirect's target is not checked.  An address passes the
    guard when the operator allows private ones, or its host is an address outside the
    blocked ranges, a name all of whose addresses were outside them when the guard looked
    it up, or a name that did not resolve then; that the connection goes to the addresses
    the guard saw is not promised. *)
Theorem requests_guarded recipients issues project_name issue m down q :
  let wire := on_the_wire followed in
  q ∈ wire (to_all recipients issues) \/ q ∈ wire (concat (test_all project_name issue recipients).*1)
  \/ q ∈ wire (concat (map (fun r => (uptime_one m down r).1) recipients)) ->
  exists r q0, r ∈ recipients /\ addressed (ar_url r) q0 /\ public_target (ar_url r) /\ (q = q0 \/ q ∈ followed q0).
Proof.
  intros wire H.
  assert (exists q0, (q0 ∈ to_all recipients issues \/ q0 ∈ concat (test_all project_name issue recipients).*1
    \/ q0 ∈ concat (map (fun r => (uptime_one m down r).1) recipients)) /\ (q = q0 \/ q ∈ followed q0)) as (q0 & H0 & Hq).
  { destruct H as [H|[H|H]]; apply on_the_wire_inv in H as (q0 & H & Hq); exists q0; (split; [|done]); tauto. }
  destruct (request_recipient recipients issues project_name issue m down q0 H0) as (r & Hr & Ha & Hp). by exists r, q0.
Qed.

(** C33: A notification reaches every recipient independently of the others: a recipient at
    an allowed address gets exactly one request, which links each of the issues the message
    has room for, whatever the kind of recipient; the others get none.  Only a Zulip
    recipient whose login aiohttp refuses to build (the bot's address holds a colon, say)
    gets none either, and the sender fails with that error. *)
Theorem notification_delivered recipients issues :
  to_all recipients issues = concat (map (fun r => match recipient_type r with EMAIL => [] | _ => (notification issues r).1 end) recipients)
  /\ forall r, match guard (ar_url r) with
     | Ok true =>
         match login_error (recipient_type r) (ar_config r) with
         | None => exists q, notification issues r = ([q], outcome (answer q)) /\ addressed (ar_url r) q
                     /\ Forall (fun i => mentions (link i) q) (take MAX_ISSUES_PER_ALERT issues)
         | Some e => notification issues r = ([], Raise e)
         end
     | Ok false => notification issues r = ([], Ok None)
     | Raise e => notification issues r = ([], Raise e)
     end.
Proof.
  split; [unfold send_to_all; f_equal; apply map_ext; intros r; by destruct (recipient_type r)|]. intros r.
  destruct (notifies_handler (recipient_type r) (ar_url r) (take MAX_ISSUES_PER_ALERT issues) (len issues) (ar_tags r) (ar_config r))
    as (q & H & Ha & Hm). unfold send_webhook_notification. rewrite H. unfold attempt.
  destruct (guard (ar_url r)) as [[]|]; [|done..]. destruct (login_error _ _); [done|by exists q].
Qed.

(** The test of recipients shows an error exactly for the recipients whose address could
    not be checked, whose login cannot be built or whose request ended in another exception
    than a timeout or a client error; no recipient keeps the others from being tested. *)
Theorem test_shows_errors project_name issue recipients k r e :
  recipients !! k = Some r -> recipient_type r <> EMAIL ->
  (snd <$> test_all project_name issue recipients !! k) = Some (TestError e)
  <-> guard (ar_url r) = Raise e
      \/ guard (ar_url r) = Ok true /\
         match login_error (recipient_type r) (ar_config r) with
         | None => exists q, (test_one project_name issue r).1 = [q] /\ answer q = OtherError e
         | Some e' => e = e'
         end.
Proof.
  clear followed. intros Hk Ht. unfold test_project_alert. rewrite list_lookup_fmap, Hk. cbn.
  destruct (notifies_test (ar_url r) (recipient_type r) project_name issue (ar_tags r) (ar_config r)) as (q & H & _).
  assert (test_one project_name issue r = match attempt (login_error (recipient_type r) (ar_config r)) (ar_url r) q with
                                          | (reqs, Ok _) => (reqs, TestSent) | (reqs, Raise e) => (reqs, TestError e) end) as ->.
  { unfold test_recipient. rewrite <- H. by destruct (recipient_type r). }
  unfold attempt. destruct (guard (ar_url r)) as [[]|e']; cbn; [|naive_solver..].
  destruct (login_error _ _); cbn; [naive_solver|].
  destruct (answer q) as [| |e'] eqn:E; cbn; split.
  all: try by intros [= ->]; right; split; [done|]; exists q.
  all: try done.
  all: intros [?|(_ & q' & [= ->] & ?)]; congruence.
Qed.
End deliveries.

(** ** Short ids *)

(** Reading a number in base 32. *)
Definition base32_value (s : ustr) : Z := foldl (fun a c => 32 * a + (if is_digit c then c - 48 else c - 55)) 0 s.

Lemma digs_value d : 0 <= d < 32 -> base32_value [nth (Z.to_nat d) digs 48] = d.
Proof.
  intros Hd. assert (Forall (fun k => base32_value [nth k digs 48] = Z.of_nat k) (seq 0 32)) as H by (vm_compute; repeat constructor).
  rewrite Forall_forall in H. rewrite (H (Z.to_nat d)); [lia|]. apply elem_of_seq. lia.
Qed.

Lemma base32_step s t : base32_value (s ++ t) = 32 ^ len t * base32_value s + base32_value t.
Proof.
  revert s. induction t as [|c t IH] using rev_ind; intros s; [rewrite app_nil_r; change (base32_value s = 1 * base32_value s + 0); lia|].
  assert (forall l, base32_value (l ++ [c]) = 32 * base32_value l + base32_value [c]) as H1.
  { intros l. unfold base32_value. rewrite foldl_snoc. cbn. lia. }
  rewrite app_assoc, !H1, IH. unfold len. rewrite length_app. cbn [length]. rewrite Nat2Z.inj_add, Z.pow_add_r by lia.
  change (32 ^ Z.of_nat 1) with 32. lia.
Qed.

Lemma base32_digits_value fuel x acc :
  0 <= x < 2 ^ Z.of_nat fuel -> base32_value (base32_digits fuel x acc) = 32 ^ len acc * x + base32_value acc.
Proof.
  revert x acc. induction fuel as [|fuel IH]; intros x acc Hx; [assert (x = 0) as -> by (cbn in Hx; lia); cbn [base32_digits]; lia|]. cbn [base32_digits].
  destruct (Z.eqb_spec x 0) as [->|Hn]; [lia|]. rewrite IH.
  - change (nth _ digs 48 :: acc) with ([nth (Z.to_nat (x mod 32)) digs 48] ++ acc).
    rewrite (base32_step [_]), digs_value by (apply Z.mod_pos_bound; lia).
    unfold len. rewrite length_app, Nat2Z.inj_add, Z.pow_add_r by lia. change (32 ^ Z.of_nat (length [_])) with 32.
    assert (x = 32 * (x / 32) + x mod 32) as Hx' by (apply Z.div_mod; lia).
    transitivity (32 ^ Z.of_nat (length acc) * (32 * (x / 32) + x mod 32) + base32_value acc); [ring|by rewrite <- Hx'].
  - split; [apply Z.div_pos; lia|]. rewrite Nat2Z.inj_succ, Z.pow_succ_r in Hx by lia.
    apply Z.div_lt_upper_bound; nia.
Qed.

Lemma base32_encode_value n : 0 <= n -> base32_value (base32_encode n) = n.
Proof.
  intros Hn. unfold base32_encode. destruct (Z.eqb_spec n 0) as [->|]; [done|]. destruct (Z.ltb_spec n 0); [lia|].
  rewrite base32_digits_value; [change (1 * n + 0 = n); lia|]. split; [lia|]. rewrite Nat2Z.inj_succ, Z2Nat.id by apply Z.log2_nonneg.
  apply Z.log2_spec. lia.
Qed.

(** The short id an issue is shown with is its number: two issues of a project that have
    short ids are shown alike only if the ids are equal. *)
Theorem short_ids_distinct i j a b :
  i_project_slug i = i_project_slug j -> i_short_id i = Some a -> i_short_id j = Some b -> 0 <= a < 2 ^ 53 -> 0 <= b < 2 ^ 53 ->
  short_id_display i = short_id_display j -> a = b.
Proof.
  unfold short_id_display. intros -> -> -> Ha Hb H%(app_inv_head _). apply (app_inv_head (u "-")) in H.
  rewrite <- (base32_encode_value a), H, base32_encode_value by lia. done.
Qed.

(** ** Witnesses and examples *)

Definition issue1 : Issue :=
  {| i_pk := 7; i_title := u "ValueError: no"; i_culprit := Some (u "app.views"); i_level := 3; i_short_id := Some 33;
     i_project_name := u "Shop"; i_project_slug := u "shop"; i_org_slug := u "acme";
     i_tags := [(u "environment", u "prod"); (u "browser", u "Firefox"); (u "user", u "1")] |}.

Definition hook (t : RecipientType) (url : ustr) : AlertRecipient :=
  {| recipient_type := t; ar_url := url; ar_config := None; ar_tags := Some [u "browser"; u "release"] |}.

Definition public_dns (h : ustr) : res (list ustr) := Ok [u "93.184.216.34"].
Definition site : ustr := u "https://glitchtip.example".

(** A receiver that fails in another way than by a client error. *)
Definition broken (q : Request) : Delivery := OtherError ValueError.

(** The rule aiohttp documents for a login. *)
Definition colon_refused (login password : ustr) : option exn := if bool_decide (58 ∈ login) then Some ValueError else None.

Example short_id_33 : short_id_display issue1 = u "SHOP-11".
Proof. by vm_compute. Qed.

Example slack_request :
  send_issue_as_webhook site false public_dns (fun _ => Delivered 200) (u "https://hooks.example/1") [issue1] 2 (Some [u "browser"])
  = ([{| r_url := u "https://hooks.example/1";
         r_body := Json (obj [("text", txt "GlitchTip Alert (2 issues)");
           ("attachments", VList [obj [("title", txt "ValueError: no"); ("title_link", txt "https://glitchtip.example/acme/issues/7");
              ("text", txt "app.views");
              ("fields", VList [webhook_field (u "Project") (u "Shop") true; webhook_field (u "Environment") (u "prod") true;
                                webhook_field (u "Browser") (u "Firefox") false]);
              ("mrkdown_in", VList [txt "text"])]])]%string) |}], Ok (Some 200)).
Proof. by vm_compute. Qed.

Lemma requests_guarded_witness :
  let q := {| r_url := u "https://zulip.example/api/v1/messages";
              r_body := Form [(u "type", u "channel"); (u "to", []); (u "topic", u "GlitchTip Alerts");
                (u "content", u "## GlitchTip Test Notification" ++ [10; 10] ++
                   u "Test notification for project Shop. Your alert recipient is configured correctly.")] [] [] |} in
  exists r q0, r ∈ [hook ZULIP (u "https://zulip.example/")] /\ addressed (ar_url r) q0 /\ public_target false public_dns (ar_url r)
    /\ (q = q0 \/ q ∈ ([] : list Request)).
Proof.
  intros q. apply (requests_guarded site false public_dns broken colon_refused (fun _ => []) 3 [hook ZULIP (u "https://zulip.example/")] [] (u "Shop") None
    {| m_name := []; m_url := [] |} false q).
  right. left. vm_compute. left.
Defined.

(** A receiver at a public address can have GlitchTip make a request to an internal one, by
    answering with a redirect that keeps method and body (307 or 308). *)
Example redirect_reaches_internal :
  let inside := u "http://10.0.0.1/admin" in
  let redirect q := [{| r_url := inside; r_body := r_body q |}] in
  let hooks := [hook DISCORD (u "https://hooks.example/1")] in
  inside ∈ map r_url (on_the_wire redirect (send_to_all site false public_dns (fun _ => Delivered 200) colon_refused 3 hooks [issue1]))
  /\ check_url_safe public_dns inside false = Ok false.
Proof. split; [vm_compute; right; left|by_compute]. Qed.

(** A Zulip bot whose address holds a colon can be saved, but never gets a message. *)
Example zulip_colon_fails :
  let config := Some [(u "bot_email", u "bot:x@zulip.example"); (u "api_key", u "k"); (u "channel", u "c")] in
  send_webhook_notification site false public_dns (fun _ => Delivered 200) colon_refused 3 [issue1] (u "https://zulip.example/") ZULIP None config
  = ([], Raise ValueError).
Proof. by_compute. Qed.

Lemma test_shows_errors_witness :
  (snd <$> test_project_alert site false public_dns broken colon_refused (u "Shop") (Some issue1) [hook DISCORD (u "https://hooks.example/1")] !! 0%nat)
  = Some (TestError ValueError).
Proof.
  apply (test_shows_errors site false public_dns broken colon_refused (u "Shop") (Some issue1) [hook DISCORD (u "https://hooks.example/1")] 0
    (hook DISCORD (u "https://hooks.example/1"))); [done|done|]. right. split; [by vm_compute|]. eexists. by split.
Defined.

Lemma short_ids_distinct_witness : short_id_display issue1 = short_id_display issue1 -> 33 = 33.
Proof. apply (short_ids_distinct issue1 issue1 33 33); [done..| |]; lia. Defined.

(** The level of an issue is an int of its row, never the enumeration's member, so that a
    warning has no color; Google Chat gets the word [None]. *)
Example warning_has_no_color :
  get_hex_color issue1 = None
  /\ Exists (fun q => mentions (u "<font color='None'>") q)
       (send_issue_as_googlechat_webhook site false public_dns (fun _ => Delivered 200) (u "https://chat.example/") [issue1] 1 None).1.
Proof.
  split; [done|]. left. eexists. split; [vm_compute; do 3 right; left|by vm_compute].
Qed.

(** The test says a message was sent when none was, or when the receiver refused it. *)
Example test_sent_without_request :
  test_project_alert site false public_dns (fun _ => Delivered 500) colon_refused (u "Shop") (Some issue1) [hook DISCORD (u "http://10.0.0.1/")] = [([], TestSent)]
  /\ (snd <$> test_project_alert site false public_dns (fun _ => Delivered 500) colon_refused (u "Shop") (Some issue1) [hook DISCORD (u "https://hooks.example/1")])
     = [TestSent].
Proof. split; by vm_compute. Qed.

(** Feishu gets the message of a monitor in the format of Slack. *)
Example uptime_feishu_is_slack m down url config answer dns auth :
  send_uptime_as_webhook true dns answer auth FEISHU url config m down = send_uptime_as_webhook true dns answer auth GENERAL_WEBHOOK url config m down.
Proof. done. Qed.
