(* ===== verification/JsEvents.v ===== *)
(** * Source maps of JavaScript events

    [event_ingest/javascript_event_processor.py] and the part of [process_issue_events] that
    hands it the debug bundles of an event: the frames of minified code are replaced by those
    of the source, the original stack trace is kept beside them. The parsed source maps
    ([symbolic]) are a parameter. *)
From S2P Require Import Prelude PyStr Regex PyValue UrlValidation.

(** ** Module names *)

Definition UNKNOWN_MODULE : ustr := u "<unknown module>".

Definition hex : regex := RClass is_hex.
Definition hexes (n : nat) : regex := RRange n 0 hex.
Definition RAlts (l : list regex) : regex := foldr RAlt (RAhead (RClass (fun _ => false))) l.

(** The folders that are left out; the flag [re.I] is in the classes. *)
Definition folder : regex :=
  RAlts [RSeq (ROpt (RLitCI "java")) (RSeq (RLitCI "script") (ROpt (RLitCI "s"))); RLitCI "js"; RLitCI "build"; RLitCI "static";
         RLitCI "node_modules"; RLitCI "bower_components"; RSeq (RClass (one_of "_.~")) (RStar false RAny);
         RSeq (ROpt (RLitCI "v")) (RSeq (RStar true (RSeq (RPlus (RClass is_digit)) (RLit "."))) (RPlus (RClass is_digit)));
         RRange 7 1 hex; hexes 32; hexes 40].

Definition CLEAN_MODULE_RE : regex :=
  RAlt (RSeq RBegin (RPlus (RAlt (RLit "/") (RSeq folder (RLit "/")))))
       (RSeq (RClass (one_of "-.")) (RSeq (RSeq (hexes 7) (RStar true hex)) REnd)).

Definition VERSION_RE : regex := RAlt (RSeq RBegin (hexes 32)) (RSeq (hexes 40) REnd).

Definition NODE_MODULES_RE : regex := RSeq RWordB (RLit "node_modules/").

(** [urlsplit(url).path] of an ASCII URL. *)
Definition urlsplit_path (url : ustr) : res ustr :=
  let url := lstrip_by (fun c => c <=? 32) url in
  let url := filter (fun c => c <> 9 /\ c <> 13 /\ c <> 10) url in
  let url := strip_scheme url in
  let* rest :=
    if startswith (u "//") url then
      let netloc := until (one_of "/?#") (drop 2 url) in
      let opens := contains (u "[") netloc in
      let closes := contains (u "]") netloc in
      if xorb opens closes then Raise ValueError
      else if opens && negb (bracketed_netloc_ok netloc) then Raise ValueError
      else Ok (drop (2 + length netloc) url)
    else Ok url in
  Ok (until (one_of "?") (until (one_of "#") rest)).

(** [splitext(p)[0]]: without the last dot of the last part and what follows it, unless only
    dots precede. *)
Definition splitext_root (p : ustr) : ustr :=
  let name := after_last 47 p in
  let dotted := lstrip_by (Z.eqb 46) name in
  if contains (u ".") dotted then take (length p - length (after_last 46 p) - 1) p else p.

(** The parts after the first one that begins like a hash. *)
Fixpoint after_version (tokens : list ustr) : option (list ustr) :=
  match tokens with
  | [] => None
  | t :: tokens => match re_match VERSION_RE t with Some _ => Some tokens | None => after_version tokens end
  end.

Definition generate_module (src : ustr) : res ustr :=
  if negb (truthy src) then Ok UNKNOWN_MODULE else
  let* path := urlsplit_path src in
  let filename := splitext_root path in
  let filename := if endswith (u ".min") filename then take (length filename - 4) filename else filename in
  match after_version (split_on 47 filename) with
  | Some tokens => Ok (join (u "/") tokens)
  | None => Ok (str_or (re_sub_str CLEAN_MODULE_RE [] filename) UNKNOWN_MODULE)
  end.

(** ** Frames, events and bundles *)

(** The fields of a frame that are read or changed. *)
Record Frame := {
  filename : option ustr; function : option ustr; module : option ustr; lineno : option Z; colno : option Z; abs_path : option ustr;
  in_app : option bool; context_line : option ustr; pre_context : option (list ustr); post_context : option (list ustr) }.

Record EventException := { stacktrace : option (list Frame); raw_stacktrace : option (list Frame) }.

Inductive Exceptions := ExceptionList (l : list EventException) | ValueEventException (values : list EventException) | NoException.

Record SourceMapImage := { code_file : ustr; i_debug_id : Z }.

(** An event with its source map images; its other images are of no use here. *)
Record Event := { exception : Exceptions; images : list SourceMapImage }.

(** A [File] by its id. *)
Record File := { f_id : Z; f_name : ustr }.

(** [b_code_file] is [data.get("code_file")]. *)
Record DebugSymbolBundle := { b_org : Z; b_debug_id : option Z; b_release : option Z; b_file : File; b_sourcemap : option File; b_code_file : option ustr }.

(** [SourceMapCacheToken] *)
Record Token := {
  t_line : Z; t_col : Z; function_name : option ustr; t_src : option ustr; t_context_line : option ustr; t_pre : list ustr; t_post : list ustr }.

(** ** One frame *)

Definition strip_newlines (s : ustr) : ustr := rstrip_by (Z.eqb 10) s.

(** The file name of a webpack module. *)
Definition webpack_filename (path : ustr) : ustr :=
  match find_str (u "/~/") path with
  | Some i => u "~/" ++ drop (i + 3) path
  | None => match find_str (u "webpack:///") path with Some i => drop (i + 11) path | None => path end
  end.

(** [frame["module"] = ...] is an item assignment to a model, which has none. *)
Definition process_frame (f : Frame) (path : ustr) (t : Token) : res Frame :=
  let function := if otruthy (function_name t) then function_name t else function f in
  if startswith (u "webpack:") path then let* m := generate_module (webpack_filename path) in Raise TypeError
  else
    let node_module := contains (u "/node_modules/") path in
    let app :=
      if startswith (u "app:") path then
        Some (negb (otruthy (t_src t) && bool_decide (is_Some (re_search NODE_MODULES_RE (default [] (t_src t))))))
      else if node_module then Some false else None in
    let* module :=
      if negb (otruthy (module f)) && existsb (fun p => startswith (u p) path) ["http:"; "https:"; "webpack:"; "app:"]%string
      then let* m := generate_module path in Ok (Some m) else Ok (module f) in
    Ok {| filename := t_src t; function := function; module := module; lineno := Some (t_line t); colno := Some (t_col t); abs_path := abs_path f;
          in_app := match app with Some b => Some b | None => in_app f end;
          context_line := match t_context_line t with Some l => Some (strip_newlines l) | None => context_line f end;
          pre_context := match t_context_line t with Some _ => Some (map strip_newlines (t_pre t)) | None => pre_context f end;
          post_context := match t_context_line t with Some _ => Some (map strip_newlines (filter (fun l => l <> []) (t_post t))) | None => post_context f end |}.

Definition base_name (s : ustr) : ustr := after_last 47 s.

Definition build_debug_id_map (e : Event) : adict ustr Z :=
  foldl (fun d i => if truthy (code_file i) then aset (base_name (code_file i)) (i_debug_id i) d else d) [] (images e).

Definition minified_filename (f : Frame) : ustr := if otruthy (abs_path f) then base_name (default [] (abs_path f)) else [].

Definition bundle_matches (debug_id : option Z) (name : ustr) (b : DebugSymbolBundle) : bool :=
  match debug_id, b_debug_id b with Some d, Some d' => d =? d' | _, _ => false end
  || ustr_eqb name (f_name (b_file b))
  || match b_code_file b with
     | Some c => ustr_eqb name (if truthy c then base_name c else c)
     | None => false
     end.

Definition find_source_files (bundles : list DebugSymbolBundle) (debug_id_map : adict ustr Z) (f : Frame) : option (File * option File) :=
  let name := minified_filename f in
  (fun b => (b_file b, b_sourcemap b)) <$> find_first (bundle_matches (aget name debug_id_map) name) bundles.

(** ** The processor *)

(** [from_bytes] parses the contents of two files, [lookup] finds a position in the result. *)
Section processor.
Context {Cache : Type} (from_bytes : Z -> Z -> res Cache) (lookup : Cache -> Z -> Z -> res (option Token)).

(** The memo of parsed maps, and the pairs that were parsed, last one first. *)
Record Processor := { _sourcemap_caches : adict (Z * Z) Cache; parsed : list (Z * Z) }.

Definition get_sourcemap_cache (minified map : File) (p : Processor) : res (Cache * Processor) :=
  let key := (f_id minified, f_id map) in
  match aget key (_sourcemap_caches p) with
  | Some c => Ok (c, p)
  | None =>
      let* c := from_bytes (f_id minified) (f_id map) in
      Ok (c, {| _sourcemap_caches := aset key c (_sourcemap_caches p); parsed := key :: parsed p |})
  end.

(** The path of a frame whose position can be looked up, with the position. *)
Definition position (f : Frame) : option (ustr * Z * Z) :=
  match abs_path f, lineno f, colno f with
  | Some path, Some l, Some c => if truthy path && negb (l =? 0) && negb (c =? 0) then Some (path, l, c) else None
  | _, _, _ => None
  end.

Definition lookup_token (f : Frame) (map_file minified_source : File) (p : Processor) : res (option (ustr * Token) * Processor) :=
  match position f with
  | None => Ok (None, p)
  | Some (path, l, c) =>
      let* (cache, p) := get_sourcemap_cache minified_source map_file p in
      let* t := lookup cache l (c - 1) in
      Ok (pair path <$> t, p)
  end.

Context (bundles : list DebugSymbolBundle) (debug_id_map : adict ustr Z).

(** The token of a frame of [get_valid_frames]. *)
Definition frame_token (f : Frame) (p : Processor) : res (option (ustr * Token) * Processor) :=
  match lineno f with
  | None => Ok (None, p)
  | Some _ =>
      match find_source_files bundles debug_id_map f with
      | Some (minified_source, Some map_file) => lookup_token f map_file minified_source p
      | _ => Ok (None, p)
      end
  end.

(** The loop of [remap_exception]: the frames done, changed in place, and those to come. *)
Fixpoint remap_frames (finished todo : list Frame) (raw : option (list Frame)) (p : Processor) : res (list Frame * option (list Frame) * Processor) :=
  match todo with
  | [] => Ok (finished, raw, p)
  | f :: todo =>
      let* (t, p) := frame_token f p in
      match t with
      | None => remap_frames (finished ++ [f]) todo raw p
      | Some (path, t) =>
          let raw := match raw with None => Some (finished ++ f :: todo) | Some r => Some r end in
          let* f := process_frame f path t in
          remap_frames (finished ++ [f]) todo raw p
      end
  end.

Definition remap_exception (e : EventException) (p : Processor) : res (EventException * Processor) :=
  match stacktrace e with
  | None => Ok (e, p)
  | Some frames =>
      let* (frames, raw, p) := remap_frames [] frames None p in
      Ok ({| stacktrace := Some frames; raw_stacktrace := match raw with Some r => Some r | None => raw_stacktrace e end |}, p)
  end.

Fixpoint remap_exceptions (l : list EventException) (p : Processor) : res (list EventException * Processor) :=
  match l with
  | [] => Ok ([], p)
  | e :: l =>
      let* (e, p) := remap_exception e p in
      let* (l, p) := remap_exceptions l p in
      Ok (e :: l, p)
  end.
End processor.
Arguments Processor : clear implicits.

Section events.
Context {Cache : Type} (from_bytes : Z -> Z -> res Cache) (lookup : Cache -> Z -> Z -> res (option Token)).

Definition new_processor : Processor Cache := {| _sourcemap_caches := []; parsed := [] |}.

Definition transform (bundles : list DebugSymbolBundle) (e : Event) : res (Event * Processor Cache) :=
  match exception e, bundles with
  | ValueEventException values, _ :: _ =>
      let* (values, p) := remap_exceptions from_bytes lookup bundles (build_debug_id_map e) values new_processor in
      Ok ({| exception := ValueEventException values; images := images e |}, p)
  | _, _ => Ok (e, new_processor)
  end.

(** *** In a batch *)

(** [debug_file.data["code_file"] = ...] for the images of an event. *)
Definition assign_code_file (org : Z) (b : DebugSymbolBundle) (i : SourceMapImage) : DebugSymbolBundle :=
  if (b_org b =? org) && bool_decide (b_debug_id b = Some (i_debug_id i))
  then {| b_org := b_org b; b_debug_id := b_debug_id b; b_release := b_release b; b_file := b_file b; b_sourcemap := b_sourcemap b;
          b_code_file := Some (code_file i) |}
  else b.

Definition assign_code_files (org : Z) (e : Event) (bundles : list DebugSymbolBundle) : list DebugSymbolBundle :=
  map (fun b => foldl (assign_code_file org) b (images e)) bundles.

Definition event_bundles (org : Z) (release_id : option Z) (bundles : list DebugSymbolBundle) : list DebugSymbolBundle :=
  filter (fun b => b_org b = org /\ (b_release b = release_id \/ otruthy (b_code_file b) = true)) bundles.

(** An event of platform [javascript] or [node]: the bundles of the batch are changed in
    place and seen by its later events. *)
Definition process_js (org : Z) (release_id : option Z) (e : Event) (bundles : list DebugSymbolBundle) : res (Event * list DebugSymbolBundle) :=
  let bundles := assign_code_files org e bundles in
  let* (e, _) := transform (event_bundles org release_id bundles) e in
  Ok (e, bundles).
End events.

(** ** What holds *)

Section spec.
Context {Cache : Type} (from_bytes : Z -> Z -> res Cache) (lookup : Cache -> Z -> Z -> res (option Token)).

(** *** The processor without its memo *)

(** Parsing the pair of files of every frame anew. *)
Definition fresh_token (bundles : list DebugSymbolBundle) (m : adict ustr Z) (f : Frame) : res (option (ustr * Token)) :=
  match lineno f, find_source_files bundles m f, position f with
  | Some _, Some (minified, Some map_file), Some (path, l, c) =>
      let* cache := from_bytes (f_id minified) (f_id map_file) in
      let* t := lookup cache l (c - 1) in
      Ok (pair path <$> t)
  | _, _, _ => Ok None
  end.

(** The frame in the stack trace of the source, and whether it is another one. *)
Definition remapped (bundles : list DebugSymbolBundle) (m : adict ustr Z) (f : Frame) : res (Frame * bool) :=
  let* t := fresh_token bundles m f in
  match t with
  | None => Ok (f, false)
  | Some (path, t) => let* f := process_frame f path t in Ok (f, true)
  end.

Fixpoint mapM {A B} (g : A -> res B) (l : list A) : res (list B) :=
  match l with [] => Ok [] | x :: l => let* y := g x in let* l := mapM g l in Ok (y :: l) end.

(** Every frame by itself; the original stack trace is kept if a frame changed. *)
Definition remapped_exception (bundles : list DebugSymbolBundle) (m : adict ustr Z) (e : EventException) : res EventException :=
  match stacktrace e with
  | None => Ok e
  | Some frames =>
      let* l := mapM (remapped bundles m) frames in
      Ok {| stacktrace := Some l.*1; raw_stacktrace := if existsb snd l then Some frames else raw_stacktrace e |}
  end.

Definition remapped_event (bundles : list DebugSymbolBundle) (e : Event) : res Event :=
  match exception e, bundles with
  | ValueEventException values, _ :: _ =>
      let* values := mapM (remapped_exception bundles (build_debug_id_map e)) values in
      Ok {| exception := ValueEventException values; images := images e |}
  | _, _ => Ok e
  end.

Definition memo_ok (p : Processor Cache) : Prop :=
  (forall k c, aget k (_sourcemap_caches p) = Some c -> from_bytes k.1 k.2 = Ok c)
  /\ NoDup (parsed p) /\ forall k, k ∈ parsed p -> is_Some (aget k (_sourcemap_caches p)).

(** [m] gives what the memoless [r] gives, and keeps the memo. *)
Definition agrees {A} (m : res (A * Processor Cache)) (r : res A) : Prop :=
  match m with Ok (x, p) => r = Ok x /\ memo_ok p | Raise e => r = Raise e end.

Lemma agrees_bind {A B} (m : res (A * Processor Cache)) (r : res A) k (k' : A -> res B) :
  agrees m r -> (forall x p, memo_ok p -> agrees (k (x, p)) (k' x)) -> agrees (res_bind m k) (res_bind r k').
Proof. intros Hm Hk. destruct m as [[x p]|e]; cbn in *; [destruct Hm as [-> Hp]; by apply Hk|by rewrite Hm]. Qed.

Lemma get_cache_agrees minified map p :
  memo_ok p -> agrees (get_sourcemap_cache from_bytes minified map p) (from_bytes (f_id minified) (f_id map)).
Proof.
  intros Hp. unfold get_sourcemap_cache. destruct (aget _ _) as [c|] eqn:E; [split; [by apply (proj1 Hp) in E|done]|].
  destruct (from_bytes _ _) as [c|] eqn:Ef; cbn; [|done]. split; [done|]. destruct Hp as (H1 & H2 & H3). split_and!; cbn [_sourcemap_caches parsed].
  - intros k c' H. destruct (decide (k = (f_id minified, f_id map))) as [->|Hne]; [rewrite aget_aset_eq in H; by injection H as <-|].
    rewrite aget_aset_ne in H by done. auto.
  - constructor; [|done]. intros [? H]%H3. congruence.
  - intros k [->|Hk]%elem_of_cons; [rewrite aget_aset_eq; eauto|].
    destruct (decide (k = (f_id minified, f_id map))) as [->|Hne]; [rewrite aget_aset_eq; eauto|]. rewrite aget_aset_ne by done. auto.
Qed.

Lemma frame_token_agrees bundles m f p : memo_ok p -> agrees (frame_token from_bytes lookup bundles m f p) (fresh_token bundles m f).
Proof.
  intros Hp. unfold frame_token, fresh_token, lookup_token. destruct (lineno f); [|done].
  destruct (find_source_files bundles m f) as [[minified [map_file|]]|]; [|done..].
  destruct (position f) as [[[path l] c]|]; [|done]. apply agrees_bind; [by apply get_cache_agrees|].
  intros cache p' Hp'. cbn. by destruct (lookup cache l (c - 1)).
Qed.

(** The loop over the frames in place is the map over them; [raw] is the whole stack trace
    once a frame changed. *)
Lemma remap_frames_agrees bundles m finished todo raw p :
  memo_ok p ->
  agrees (remap_frames from_bytes lookup bundles m finished todo raw p)
    (let* l := mapM (remapped bundles m) todo in
     Ok (finished ++ l.*1, match raw with Some r => Some r | None => if existsb snd l then Some (finished ++ todo) else None end)).
Proof.
  revert finished raw p. induction todo as [|f todo IH]; intros finished raw p Hp; cbn.
  - rewrite app_nil_r. by destruct raw.
  - unfold remapped at 1. pose proof (frame_token_agrees bundles m f p Hp) as H.
    destruct (frame_token _ _ _ _ f p) as [[t p']|e]; cbn in *; [|by rewrite H].
    destruct H as [-> Hp']. destruct t as [[path t]|]; cbn.
    + destruct (process_frame f path t) as [f'|e]; cbn; [|done]. specialize (IH (finished ++ [f']) (Some (default (finished ++ f :: todo) raw)) p' Hp').
      destruct raw; cbn in *; destruct (mapM _ todo); cbn in *; by rewrite <- ?app_assoc in IH.
    + specialize (IH (finished ++ [f]) raw p' Hp'). destruct (mapM _ todo); cbn in *; by rewrite <- ?app_assoc in IH.
Qed.

Lemma remap_exceptions_agrees bundles m l p :
  memo_ok p -> agrees (remap_exceptions from_bytes lookup bundles m l p) (mapM (remapped_exception bundles m) l).
Proof.
  revert p. induction l as [|e l IH]; intros p Hp; [done|]. cbn [remap_exceptions mapM]. apply agrees_bind.
  - unfold remap_exception, remapped_exception. destruct (stacktrace e) as [frames|]; [|done].
    pose proof (remap_frames_agrees bundles m [] frames None p Hp) as H.
    destruct (remap_frames _ _ _ _ _ _ _ _) as [[[frames' raw] p']|x], (mapM _ frames) as [l'|x']; cbn in *;
      [|by destruct H|done|congruence].
    destruct H as [[= <- <-] Hp']. by destruct (existsb snd l').
  - intros e' p' Hp'. apply agrees_bind; [by apply IH|]. done.
Qed.

Lemma memo_ok_new : memo_ok new_processor.
Proof. split_and!; cbn; [done|constructor|by intros k ?%elem_of_nil]. Qed.

(** C34: Source maps are applied frame by frame: the processor with its memo of parsed maps
    gives what parsing anew for every frame gives, errors included; each pair of files is
    parsed once per event at most, frames without a position in a map stay as they are, and
    the stack trace before the changes is kept exactly when there was one. *)
Theorem transform_is_remapping bundles e :
  match transform from_bytes lookup bundles e with
  | Ok (e', p) => remapped_event bundles e = Ok e' /\ NoDup (parsed p)
  | Raise x => remapped_event bundles e = Raise x
  end.
Proof.
  unfold transform, remapped_event. destruct (exception e) as [l|values|], bundles as [|b bundles]; try (split; [done|constructor]).
  pose proof (remap_exceptions_agrees (b :: bundles) (build_debug_id_map e) values new_processor memo_ok_new) as H.
  destruct (remap_exceptions _ _ _ _ _ _) as [[values' p]|x]; cbn in *; [|by rewrite H]. destruct H as (-> & _ & Hp & _). done.
Qed.

Lemma mapM_raises {A B} (g : A -> res B) l x e : x ∈ l -> g x = Raise e -> exists e', mapM g l = Raise e'.
Proof.
  intros Hx He. induction l as [|y l IH]; [by apply elem_of_nil in Hx|]. cbn. apply elem_of_cons in Hx as [<-|Hx]; [rewrite He; by eexists|].
  destruct (g y); cbn; [|by eexists]. destruct (IH Hx) as [e' ->]. by eexists.
Qed.

(** A frame of a webpack module whose position is in a source map ends the processing of
    its event in an error, whatever else the event holds. *)
Theorem webpack_frame_raises bundles e values x frames f path t :
  exception e = ValueEventException values -> x ∈ values -> stacktrace x = Some frames -> f ∈ frames ->
  fresh_token bundles (build_debug_id_map e) f = Ok (Some (path, t)) -> startswith (u "webpack:") path = true ->
  exists err, transform from_bytes lookup bundles e = Raise err.
Proof.
  intros He Hx Hs Hf Ht Hw. unfold transform. rewrite He.
  destruct bundles as [|b bundles]; [unfold fresh_token in Ht; by destruct (lineno f)|].
  assert (exists err, remapped (b :: bundles) (build_debug_id_map e) f = Raise err) as [err H].
  { unfold remapped. rewrite Ht. cbn [res_bind]. unfold process_frame. rewrite Hw. destruct (generate_module _); cbn; by eexists. }
  destruct (mapM_raises _ frames f err Hf H) as [err' H'].
  assert (remapped_exception (b :: bundles) (build_debug_id_map e) x = Raise err') as H1.
  { unfold remapped_exception. by rewrite Hs, H'. }
  destruct (mapM_raises _ values x err' Hx H1) as [err2 H2].
  pose proof (remap_exceptions_agrees (b :: bundles) (build_debug_id_map e) values new_processor memo_ok_new) as H3.
  destruct (remap_exceptions _ _ _ _ _ _) as [[values' p]|e'] eqn:E; cbn in *; [destruct H3; congruence|]. eauto.
Qed.
End spec.

(** ** Witnesses and examples *)

Definition frame_at (path : string) : Frame :=
  {| filename := Some (u path); function := None; module := None; lineno := Some 1; colno := Some 10; abs_path := Some (u path); in_app := None;
     context_line := None; pre_context := None; post_context := None |}.
Arguments frame_at _%_string.

Definition bundle1 : DebugSymbolBundle :=
  {| b_org := 1; b_debug_id := Some 5; b_release := Some 1; b_file := {| f_id := 1; f_name := u "min.js" |};
     b_sourcemap := Some {| f_id := 2; f_name := u "min.js.map" |}; b_code_file := None |}.

Definition event_of (path : string) (images : list SourceMapImage) : Event :=
  {| exception := ValueEventException [{| stacktrace := Some [frame_at path]; raw_stacktrace := None |}]; images := images |}.
Arguments event_of _%_string _.

(** A map that knows one position. *)
Definition one_token (_ : unit) (line col : Z) : res (option Token) :=
  Ok (Some {| t_line := 7; t_col := col; function_name := Some (u "go"); t_src := Some (u "src/app.js"); t_context_line := Some (u "x()" ++ [10]);
              t_pre := []; t_post := [[]; u "y"] |}).
Definition run_js := process_js (fun _ _ => Ok tt) one_token.
Definition image5 : SourceMapImage := {| code_file := u "/js/app.js"; i_debug_id := 5 |}.

Example generate_module_doc : generate_module (u "http://google.com/js/v1.0/foo/bar/baz.js") = Ok (u "foo/bar/baz").
Proof. by vm_compute. Qed.

Example generate_module_cases :
  generate_module (u "/static/app.min.js?x=1") = Ok (u "app")
  /\ generate_module (u "~/node_modules/a/.b/c.js") = Ok (u "a/.b/c")
  /\ generate_module (u "http://x/a-1234567.js") = Ok (u "a")
  /\ generate_module (u "http://[x/a.js") = Raise ValueError.
Proof. split_and!; by vm_compute. Qed.

(** Nothing after the hash: the name is empty, not [UNKNOWN_MODULE]. *)
Example module_of_hash_empty : generate_module (u "https://x/0123456789abcdef0123456789abcdef.js") = Ok [].
Proof. by vm_compute. Qed.

Example frame_remapped :
  fst <$> (match run_js 1 (Some 1) (event_of "https://x/js/app.js" [image5]) [bundle1] with Ok p => Some p | Raise _ => None end)
  = Some {| exception := ValueEventException [{|
       stacktrace := Some [{| filename := Some (u "src/app.js"); function := Some (u "go"); module := Some (u "app"); lineno := Some 7; colno := Some 9;
         abs_path := Some (u "https://x/js/app.js"); in_app := None; context_line := Some (u "x()"); pre_context := Some []; post_context := Some [u "y"] |}];
       raw_stacktrace := Some [frame_at "https://x/js/app.js"] |}]; images := [image5] |}.
Proof. by vm_compute. Qed.

Lemma webpack_frame_raises_witness : exists err, transform (fun _ _ => Ok tt) one_token [bundle1] (event_of "webpack:///./src/min.js" []) = Raise err.
Proof.
  apply (webpack_frame_raises (fun _ _ => Ok tt) one_token [bundle1] (event_of "webpack:///./src/min.js" [])
    [{| stacktrace := Some [frame_at "webpack:///./src/min.js"]; raw_stacktrace := None |}]
    {| stacktrace := Some [frame_at "webpack:///./src/min.js"]; raw_stacktrace := None |} [frame_at "webpack:///./src/min.js"]
    (frame_at "webpack:///./src/min.js") (u "webpack:///./src/min.js")
    {| t_line := 7; t_col := 9; function_name := Some (u "go"); t_src := Some (u "src/app.js"); t_context_line := Some (u "x()" ++ [10]);
       t_pre := []; t_post := [[]; u "y"] |}); [done|left|done|left|by vm_compute|by vm_compute].
Defined.

(** The file an event names for a bundle stays with the bundle: a later event of the batch, of
    another release and without images, is mapped by it. Alone it is left as it is. *)
Example code_file_leaks_to_later_events :
  let e := event_of "https://y/app.js" [] in
  (exists bundles e' b', fmap snd (match run_js 1 (Some 1) (event_of "https://x/js/app.js" [image5]) [bundle1] with Ok p => Some p | _ => None end) = Some bundles
     /\ run_js 1 (Some 2) e bundles = Ok (e', b') /\ e' <> e)
  /\ run_js 1 (Some 2) e [bundle1] = Ok (e, [bundle1]).
Proof.
  cbn zeta. split; [|by vm_compute]. do 3 eexists. split; [by vm_compute|]. split; [by vm_compute|]. intros H. discriminate H.
Qed.

(** A bundle whose debug id differs from the one the event names is taken by its name. *)
Example other_debug_id_by_name :
  find_source_files [bundle1] (build_debug_id_map (event_of "a" [{| code_file := u "/min.js"; i_debug_id := 6 |}])) (frame_at "/js/min.js")
  = Some (b_file bundle1, b_sourcemap bundle1).
Proof. by vm_compute. Qed.

(** Exceptions given as a list are not remapped. *)
Example exception_list_ignored frames :
  let e := {| exception := ExceptionList [{| stacktrace := Some frames; raw_stacktrace := None |}]; images := [image5] |} in
  run_js 1 (Some 1) e [bundle1] = Ok (e, assign_code_files 1 e [bundle1]).
Proof. done. Qed.
