(* ===== verification/Uptime.v ===== *)
(** * Uptime monitoring

    [apps/uptime/tasks.py], [apps/uptime/utils.py] and the heartbeat endpoint of
    [apps/uptime/api.py]: the tick that dispatches monitors, the probe, the flap damping
    of a monitor's official state, the batches in which results are saved, the hourly
    statistics and the notifications.  The network is a parameter: what a request gives
    and how long it took; so are the DNS and the ids of new checks. *)
From S2P Require Import Prelude PyStr PyValue PyDate Statistics PartitionManager UrlValidation.

(** ** Data *)

Inductive MonitorType := PING | GET | POST | PORT | SSL | HEARTBEAT.

#[export] Instance MonitorType_eq_dec : EqDecision MonitorType.
Proof. solve_decision. Defined.

Inductive MonitorCheckReason := UNKNOWN | TIMEOUT | STATUS | BODY | SSL_ERROR | NETWORK.

(** A monitor; [event_throttle_rate] is that of its organization. *)
Record Monitor := {
  m_id : Z; organization_id : Z; event_throttle_rate : Z; interval : Z; timeout : option Z; expected_status : option Z;
  confirmation_threshold : Z; monitor_type : MonitorType; url : ustr; expected_body : ustr;
  cached_is_up : option bool; cached_last_change : option Z; cached_consecutive_down : Z }.

Record MonitorCheck := {
  c_id : Z; c_monitor : Z; c_org : Z; c_is_up : bool; is_change : bool; start_check : Z;
  c_reason : option MonitorCheckReason; c_response_time : option Z; c_data : option ustr }.

(** The dictionary of a monitor with the annotations [latest_is_up] and [last_change], its
    cached columns, and the keys the probe adds.  Times are in microseconds. *)
Record Result := {
  monitor : Monitor; is_up : bool; reason : option MonitorCheckReason; response_time : option Z; data : option ustr }.

Definition latest_is_up (r : Result) : option bool := cached_is_up (monitor r).
Definition last_change (r : Result) : option Z := cached_last_change (monitor r).

(** The arguments of [send_monitor_notification]. *)
Record Notice := { n_monitor : Z; n_check : Z; n_org : Z; went_down : bool; n_last_change : option Z }.

(** The tables, the task queue and the cached tick. *)
Record Uptime := {
  monitors : gmap Z Monitor; checks : list MonitorCheck; hourly : gmap (Z * Z) Z; queue : list Notice; uptime_counter : option Z }.

(** ** Dispatch *)

Definition UPTIME_TICK_EXPIRE : Z := 2147483647.

(** The counter and the value it gives; [None]: the key is missing. *)
Definition next_tick (counter : option Z) : option Z * Z :=
  let tick := default 0 counter + 1 in
  (Some (if UPTIME_TICK_EXPIRE <=? tick then 0 else tick), tick).

Definition due (tick : Z) (m : Monitor) : bool :=
  (event_throttle_rate m <? 100) && ((tick + m_id m) mod interval m =? 0)
  && negb (negb (truthy (url m)) && negb (bool_decide (monitor_type m = HEARTBEAT))).

(** The ids of the monitors to check, [None] when no task is enqueued. *)
Definition dispatch_checks (w : Uptime) : Uptime * option (list Z) :=
  let '(counter, tick) := next_tick (uptime_counter w) in
  let ids := map fst (filter (fun kv => due tick kv.2 = true) (map_to_list (monitors w))) in
  ({| monitors := monitors w; checks := checks w; hourly := hourly w; queue := queue w; uptime_counter := counter |},
   match ids with [] => None | _ => Some ids end).

(** ** The probe *)

(** What a request may raise, by the clause of [fetch] that catches it. *)
Inductive probe_exn := SSLError | TimeoutError | ConnectorError | ServerConnectionError | NetOSError | ClientResponseError | OtherError.

Definition reason_of (e : probe_exn) : MonitorCheckReason :=
  match e with
  | SSLError => SSL_ERROR
  | TimeoutError => TIMEOUT
  | ConnectorError | ServerConnectionError => NETWORK
  | NetOSError | ClientResponseError | OtherError => UNKNOWN
  end.

(** A response; [read n] is the decoded text of up to [n] bytes of its body. *)
Record Response := { status : Z; read : Z -> ustr + probe_exn }.

Definition DEFAULT_TIMEOUT : Z := 20.
Definition PAYLOAD_LIMIT : Z := 2000000.
Definition PAYLOAD_SAVE_LIMIT : Z := 500000.

Definition new_result (m : Monitor) : Result :=
  {| monitor := m; is_up := false; reason := None; response_time := None; data := None |}.
Definition set_up (r : Result) : Result :=
  {| monitor := monitor r; is_up := true; reason := reason r; response_time := response_time r; data := data r |}.
Definition set_reason (x : MonitorCheckReason) (r : Result) : Result :=
  {| monitor := monitor r; is_up := is_up r; reason := Some x; response_time := response_time r; data := data r |}.
Definition set_data (x : ustr) (r : Result) : Result :=
  {| monitor := monitor r; is_up := is_up r; reason := reason r; response_time := response_time r; data := Some x |}.
Definition set_response_time (x : Z) (r : Result) : Result :=
  {| monitor := monitor r; is_up := is_up r; reason := reason r; response_time := Some x; data := data r |}.

Definition process_response (r : Result) (response : Response) : Result + probe_exn :=
  let m := monitor r in
  if bool_decide (Some (status response) = expected_status m) then
    if truthy (expected_body m) then
      match read response PAYLOAD_LIMIT with
      | inr e => inr e
      | inl payload =>
          if contains (expected_body m) payload then inl (set_up r)
          else
            let r := set_reason BODY r in
            inl (if bool_decide (latest_is_up r <> Some (is_up r)) then set_data (slice_to PAYLOAD_SAVE_LIMIT payload) r else r)
      end
    else inl (set_up r)
  else inl (set_reason STATUS r).

(** [x or d] of an optional number. *)
Definition or_default (x : option Z) (d : Z) : Z := match x with Some n => if n =? 0 then d else n | None => d end.

Section probe.
(** The DNS; a request of a type to a URL with a timeout in seconds: the response (of a
    connection: [None]) or what it raised, and the time it took. *)
Context (getaddrinfo : ustr -> res (list ustr)) (allow_private : bool).
Context (request : MonitorType -> ustr -> Z -> (Response + probe_exn) * Z).

(** A heartbeat is up when a check arrived within the interval. *)
Definition recent_check (cs : list MonitorCheck) (now : Z) (m : Monitor) : bool :=
  let since := now - interval m * 1000000 in
  existsb (fun c => (c_org c =? organization_id m) && (c_monitor c =? m_id m)
                    && (uuid7_for_timestamp since true <=? c_id c) && (since <=? start_check c)) cs.

(** The [try] block of [fetch]; for a type without a request nothing is done. *)
Definition attempt (r : Result) : (Result + probe_exn) * Z :=
  let m := monitor r in
  let timeout := or_default (timeout m) DEFAULT_TIMEOUT in
  match monitor_type m with
  | PORT | PING =>
      let '(reply, elapsed) := request (monitor_type m) (url m) timeout in
      (match reply with inl _ => inl (set_up r) | inr e => inr e end, elapsed)
  | GET | POST =>
      let '(reply, elapsed) := request (monitor_type m) (url m) timeout in
      (match reply with inl response => process_response r response | inr e => inr e end, elapsed)
  | SSL | HEARTBEAT => (inl r, 0)
  end.

Definition fetch (cs : list MonitorCheck) (now : Z) (m : Monitor) : res Result :=
  let r := new_result m in
  if bool_decide (monitor_type m = HEARTBEAT) then Ok (if recent_check cs now m then set_up r else r)
  else
    let* safe := check_url_safe getaddrinfo (url m) allow_private in
    if negb safe then Ok (set_reason NETWORK r)
    else Ok (match attempt r with
             | (inl r, elapsed) => set_response_time elapsed r
             | (inr e, _) => set_reason (reason_of e) r
             end).
End probe.

(** ** Flap damping *)

Record NextState := { new_state : option bool; consecutive_down : Z; ns_is_change : bool; state_changed : bool }.

(** [result.get("confirmation_threshold") or 1] *)
Definition threshold_of (m : Monitor) : Z := if confirmation_threshold m =? 0 then 1 else confirmation_threshold m.

Definition _next_state (result : Result) : NextState :=
  let prev_state := latest_is_up result in
  let threshold := threshold_of (monitor result) in
  let '(consecutive_down, new_state) :=
    if is_up result then (0, Some true)
    else
      let n := Z.min (cached_consecutive_down (monitor result) + 1) threshold in
      (n, if threshold <=? n then Some false else prev_state) in
  let state_changed := bool_decide (new_state <> None) && bool_decide (new_state <> prev_state) in
  {| new_state := new_state; consecutive_down := consecutive_down;
     ns_is_change := bool_decide (new_state <> None) && (state_changed || bool_decide (last_change result = None));
     state_changed := state_changed |}.

(** ** Saving *)

Section saving.
(** The id of the [n]-th check, created at a time; whether the table of statistics has a
    partition for an hour. *)
Context (new_id : nat -> Z -> Z) (has_partition : Z -> bool).

(** [key=lambda row: row[0]] *)
Definition by_org (a b : Z * Z) : Prop := a.1 <= b.1.

#[global] Instance by_org_dec a b : Decision (by_org a b).
Proof. unfold by_org. apply _. Defined.

(** [update_uptime_statistics] with the counts of a [Counter]. *)
Definition update_uptime_statistics (org_counts : adict Z Z) (check_time : Z) (t : gmap (Z * Z) Z) : gmap (Z * Z) Z :=
  let hour := check_time - check_time mod ONE_HOUR in
  let data := map (fun kv => ((kv.1, hour), kv.2)) (merge_sort by_org org_counts) in
  match data with
  | [] => t
  | _ => if has_partition hour then upsert_rows t data else t
  end.

(** [Counter(l)] *)
Definition counter (l : list Z) : adict Z Z := foldl (fun d k => aset k (default 0 (aget k d) + 1) d) [] l.

Definition check_of (now : Z) (id : Z) (r : Result) : MonitorCheck :=
  {| c_id := id; c_monitor := m_id (monitor r); c_org := organization_id (monitor r); c_is_up := is_up r;
     is_change := ns_is_change (_next_state r); start_check := now; c_reason := reason r;
     c_response_time := response_time r; c_data := data r |}.

(** The update of the cached columns of one row. *)
Definition set_cached (up : option bool) (change : option Z) (down : Z) (m : Monitor) : Monitor :=
  {| m_id := m_id m; organization_id := organization_id m; event_throttle_rate := event_throttle_rate m; interval := interval m;
     timeout := timeout m; expected_status := expected_status m; confirmation_threshold := confirmation_threshold m;
     monitor_type := monitor_type m; url := url m; expected_body := expected_body m;
     cached_is_up := up; cached_last_change := change; cached_consecutive_down := down |}.

Definition update_monitor (now : Z) (ms : gmap Z Monitor) (r : Result) : gmap Z Monitor :=
  let s := _next_state r in
  alter (set_cached (new_state s) (if ns_is_change s then Some now else last_change r) (consecutive_down s)) (m_id (monitor r)) ms.

Definition notice_of (id : Z) (r : Result) : option Notice :=
  let s := _next_state r in
  if state_changed s then
    Some {| n_monitor := m_id (monitor r); n_check := id; n_org := organization_id (monitor r);
            went_down := negb (bool_decide (new_state s = Some true)); n_last_change := last_change r |}
  else None.

(** The ids drawn for a batch. *)
Definition ids_from (n : nat) (clock : Z) (results : list Result) : list Z :=
  imap (fun i _ => new_id (n + i) clock) results.

(** [save_monitor_checks]; a check of a monitor that is gone breaks the foreign key. *)
Definition save_monitor_checks (results : list Result) (now clock : Z) (w : Uptime) : res Uptime :=
  if existsb (fun r => bool_decide (monitors w !! m_id (monitor r) = None)) results then Raise IntegrityError
  else
    let ids := ids_from (length (checks w)) clock results in
    Ok {| monitors := foldl (update_monitor now) (monitors w) results;
          checks := checks w ++ zip_with (check_of now) ids results;
          hourly := update_uptime_statistics (counter (map (fun r => organization_id (monitor r)) results)) now (hourly w);
          queue := queue w ++ omap (fun x => x) (zip_with notice_of ids results);
          uptime_counter := uptime_counter w |}.

(** ** Batches *)

Definition BATCH_SIZE : Z := 100.

(** Heartbeats that are up are not saved. *)
Definition to_save (r : Result) : bool := negb (bool_decide (monitor_type (monitor r) = HEARTBEAT)) || negb (is_up r).

(** The results of the tasks that are done, without those that raised. *)
Definition collect_done (done : list (res Result)) : list Result :=
  omap (fun t => match t with Ok r => if to_save r then Some r else None | Raise _ => None end) done.

(** The loop of [run_checks]: each round gives the tasks that are done and whether the
    flush interval is over. *)
Fixpoint run_loop (rounds : list (list (res Result) * bool)) (buffer : list Result) (now : Z) (w : Uptime) : res Uptime :=
  match rounds with
  | [] => match buffer with [] => Ok w | _ => save_monitor_checks buffer now now w end
  | (done, flush_due) :: rounds =>
      let buffer := buffer ++ collect_done done in
      if (BATCH_SIZE <=? len buffer) || (negb (bool_decide (buffer = [])) && flush_due) then
        let* w := save_monitor_checks buffer now now w in
        run_loop rounds [] now w
      else run_loop rounds buffer now w
  end.

Definition run_checks (rounds : list (list (res Result) * bool)) (now : Z) (w : Uptime) : res Uptime := run_loop rounds [] now w.

(** [perform_checks]: the rows are read, probed, and the results saved as the tasks get
    done; [schedule] says in which rounds. *)
Definition perform_checks (getaddrinfo : ustr -> res (list ustr)) (allow_private : bool)
    (request : MonitorType -> ustr -> Z -> (Response + probe_exn) * Z)
    (schedule : list (res Result) -> list (list (res Result) * bool)) (monitor_ids : list Z) (now clock : Z) (w : Uptime) : res Uptime :=
  let ms := filter (fun m => m_id m ∈ monitor_ids) (map snd (map_to_list (monitors w))) in
  run_checks (schedule (map (fetch getaddrinfo allow_private request (checks w) clock) ms)) now w.

(** ** Heartbeats *)

End saving.

(** ** What the damping promises

    [h] is the history of a monitor's checks, oldest first. *)

(** How many checks failed since the last that succeeded. *)
Definition trailing_down (h : list bool) : Z := foldl (fun n (b : bool) => if b then 0 else n + 1) 0 h.

(** The official state: down after [t] failures in a row, else up if any check succeeded. *)
Definition official (t : Z) (h : list bool) : option bool :=
  if t <=? trailing_down h then Some false else if existsb (fun b => b) h then Some true else None.

(** The notification a check [b] after the history [h] causes: did the monitor go down?  An
    alert comes with the [t]-th failure in a row, whether or not any check ever succeeded,
    and a recovery with the first success after that.  The very first success of a monitor
    is announced as a recovery too, though nothing was down, unless it is a heartbeat. *)
Definition change (ty : MonitorType) (t : Z) (h : list bool) (b : bool) : option bool :=
  if b then
    if t <=? trailing_down h then Some false
    else if existsb (fun b => b) h then None
    else if bool_decide (ty = HEARTBEAT) then None else Some false
  else if trailing_down h + 1 =? t then Some true else None.


Definition notices (id : Z) (w : Uptime) : list bool := map went_down (filter (fun n => n_monitor n = id) (queue w)).



(** *** The specification *)

Lemma trailing_down_snoc h b : trailing_down (h ++ [b]) = if b then 0 else trailing_down h + 1.
Proof. unfold trailing_down. by rewrite foldl_app. Qed.


Lemma official_up t h : 1 <= t -> official t (h ++ [true]) = Some true.
Proof.
  intros Ht. unfold official. rewrite trailing_down_snoc, existsb_app. simpl. rewrite orb_true_r. by destruct (t <=? 0) eqn:E; [lia|].
Qed.

Lemma official_down t h :
  1 <= t -> official t (h ++ [false]) = if t <=? trailing_down h + 1 then Some false else official t h.
Proof.
  intros Ht. unfold official. rewrite trailing_down_snoc, existsb_app. simpl. rewrite orb_false_r.
  destruct (t <=? trailing_down h + 1) eqn:E; [done|]. by destruct (t <=? trailing_down h) eqn:E2; [lia|].
Qed.


Lemma official_known t h : 1 <= t -> official t h = None -> trailing_down h = Z.of_nat (length h).
Proof.
  intros Ht. induction h as [|b h IH] using rev_ind; [done|]. destruct b; [by rewrite official_up|].
  rewrite official_down, trailing_down_snoc, length_app by done. destruct (_ <=? _); [done|]. intros H. rewrite (IH H). simpl. lia.
Qed.



(** ** Saving a batch *)

Section saves.
Context (new_id : nat -> Z -> Z) (has_partition : Z -> bool).












Lemma length_ids_from n clock rs : length (ids_from new_id n clock rs) = length rs.
Proof. apply length_imap. Qed.

(** The tables after the results [rs] were saved with the ids [ids]. *)
Definition saved (rs : list Result) (now : Z) (ids : list Z) (w w' : Uptime) : Prop :=
  length ids = length rs
  /\ monitors w' = foldl (update_monitor now) (monitors w) rs
  /\ checks w' = checks w ++ zip_with (check_of now) ids rs
  /\ queue w' = queue w ++ omap (fun x => x) (zip_with notice_of ids rs).

Lemma save_saved rs now clock w w' :
  save_monitor_checks new_id has_partition rs now clock w = Ok w' -> saved rs now (ids_from new_id (length (checks w)) clock rs) w w'.
Proof. unfold save_monitor_checks. destruct (existsb _ rs); [done|]. intros [= <-]. repeat split. by rewrite length_ids_from. Qed.

Lemma save_ok rs now clock w :
  Forall (fun r => monitors w !! m_id (monitor r) <> None) rs -> exists w', save_monitor_checks new_id has_partition rs now clock w = Ok w'.
Proof.
  intros H. unfold save_monitor_checks. destruct (existsb _ rs) eqn:E; [|by eexists]. apply existsb_exists in E as (r & Hr & E).
  rewrite Forall_forall in H. apply bool_decide_eq_true in E. by destruct (H r (proj2 (list_elem_of_In _ _) Hr)).
Qed.




(** *** Statistics *)

Lemma counter_keys (l : list Z) (d : adict Z Z) : NoDup d.*1 -> NoDup (foldl (fun d k => aset k (default 0 (aget k d) + 1) d) d l).*1.
Proof. revert d. induction l as [|k l IH]; intros d Hd; [done|]. cbn [foldl]. apply IH. by apply NoDup_aset. Qed.

Definition occurrences (k : Z) (l : list Z) : Z := Z.of_nat (length (filter (fun x => x = k) l)).

Lemma counter_get l k : default 0 (aget k (counter l)) = occurrences k l.
Proof.
  unfold counter, occurrences. induction l as [|x l IH] using rev_ind; [done|]. rewrite foldl_app, filter_app, length_app. cbn [foldl].
  rewrite filter_cons, filter_nil. destruct (decide (x = k)) as [->|Hne].
  - rewrite aget_aset_eq. cbn [default length]. change (default 0 (Some ?x)) with x. rewrite IH. unfold Datatypes.id. cbn [length]. lia.
  - rewrite aget_aset_ne by done. rewrite IH. simpl. lia.
Qed.

Definition hour_start (t : Z) : Z := t - t mod ONE_HOUR.

Lemma rows_tally_hour (d : adict Z Z) hour o h :
  NoDup d.*1 -> rows_tally (o, h) (map (fun kv => ((kv.1, hour), kv.2)) d) = if h =? hour then default 0 (aget o d) else 0.
Proof.
  unfold rows_tally, aget. induction d as [|[k v] d IH]; intros Hnd; [by destruct (h =? hour)|]. apply NoDup_cons in Hnd as [Hk Hnd].
  cbn [map]. rewrite zsum_cons, (IH Hnd). cbn [first_some fst snd]. destruct (h =? hour) eqn:Eh; bool_split.
  - subst. destruct (decide (k = o)) as [->|Hne].
    + rewrite decide_True by done. assert (aget o d = None) as Hn by (by apply aget_None). unfold aget in Hn. rewrite Hn. simpl. lia.
    + rewrite decide_False by congruence. lia.
  - rewrite decide_False by congruence. lia.
Qed.

Lemma update_uptime_statistics_count d t0 t o h :
  NoDup d.*1 ->
  count_in (update_uptime_statistics has_partition d t0 t) (o, h)
  = count_in t (o, h) + if has_partition (hour_start t0) && (h =? hour_start t0) then default 0 (aget o d) else 0.
Proof.
  intros Hnd. unfold update_uptime_statistics. fold (hour_start t0).
  assert (merge_sort by_org d ≡ₚ d) as Hp by apply merge_sort_Permutation.
  transitivity (count_in (if has_partition (hour_start t0) then upsert_rows t (map (fun kv => ((kv.1, hour_start t0), kv.2)) (merge_sort by_org d)) else t) (o, h)).
  { destruct (map _ _); [|done]. by destruct (has_partition _). }
  destruct (has_partition (hour_start t0)); [|cbn [andb]; lia]. cbn [andb]. rewrite upsert_rows_count. f_equal.
  rewrite (rows_tally_perm _ _ (map (fun kv => ((kv.1, hour_start t0), kv.2)) d)) by (by apply Permutation_map).
  by apply rows_tally_hour.
Qed.

(** How many results of an organization there are. *)
Definition of_org (o : Z) (rs : list Result) : Z := occurrences o (map (fun r => organization_id (monitor r)) rs).

Lemma of_org_app o a b : of_org o (a ++ b) = of_org o a + of_org o b.
Proof. unfold of_org, occurrences. rewrite map_app, filter_app, length_app. lia. Qed.

Lemma save_hourly rs now clock w w' o h :
  save_monitor_checks new_id has_partition rs now clock w = Ok w' ->
  count_in (hourly w') (o, h) = count_in (hourly w) (o, h) + if has_partition (hour_start now) && (h =? hour_start now) then of_org o rs else 0.
Proof.
  unfold save_monitor_checks. destruct (existsb _ rs); [done|]. intros [= <-]. cbn [hourly].
  rewrite update_uptime_statistics_count by (apply counter_keys; constructor). by rewrite counter_get.
Qed.

(** *** Batches *)

Lemma saved_nil now w : saved [] now [] w w.
Proof. repeat split; simpl; by rewrite ?app_nil_r. Qed.

Lemma saved_app now r1 r2 i1 i2 w w1 w2 : saved r1 now i1 w w1 -> saved r2 now i2 w1 w2 -> saved (r1 ++ r2) now (i1 ++ i2) w w2.
Proof.
  intros (L1 & M1 & C1 & Q1) (L2 & M2 & C2 & Q2). split_and!; [by rewrite !length_app, L1, L2|by rewrite M2, M1, foldl_app| |].
  - by rewrite C2, C1, <- app_assoc, zip_with_app by done.
  - by rewrite Q2, Q1, <- app_assoc, zip_with_app, omap_app by done.
Qed.

Lemma ids_from_app n clock (a b : list Result) :
  ids_from new_id n clock (a ++ b) = ids_from new_id n clock a ++ ids_from new_id (n + length a) clock b.
Proof.
  unfold ids_from. rewrite imap_app. f_equal. apply imap_ext. intros i x _. simpl. f_equal. lia.
Qed.

Lemma saved_length rs now ids w w' : saved rs now ids w w' -> length (checks w') = (length (checks w) + length rs)%nat.
Proof. intros (Hl & _ & Hc & _). rewrite Hc, length_app, length_zip_with, Hl. by rewrite Nat.min_id. Qed.

(** Every monitor of the results is in the table. *)
Definition known (w : Uptime) (rs : list Result) : Prop := Forall (fun r => monitors w !! m_id (monitor r) <> None) rs.

Lemma foldl_update_dom now rs ms id : foldl (update_monitor now) ms rs !! id = None <-> ms !! id = None.
Proof.
  revert ms. induction rs as [|r rs IH]; intros ms; [done|]. cbn [foldl]. rewrite IH. unfold update_monitor. apply lookup_alter_None.
Qed.

Lemma saved_known rs now ids w w' l : saved rs now ids w w' -> known w l -> known w' l.
Proof. intros (_ & Hm & _) H. eapply Forall_impl; [exact H|]. intros r Hr. cbv beta. by rewrite Hm, foldl_update_dom. Qed.

(** All that the rounds deliver, in order. *)
Definition delivered (rounds : list (list (res Result) * bool)) : list Result := concat (map (fun x => collect_done x.1) rounds).

Lemma run_loop_saves rounds buffer now w :
  known w (buffer ++ delivered rounds) ->
  exists w', run_loop new_id has_partition rounds buffer now w = Ok w'
    /\ saved (buffer ++ delivered rounds) now (ids_from new_id (length (checks w)) now (buffer ++ delivered rounds)) w w'
    /\ forall o h, count_in (hourly w') (o, h) = count_in (hourly w) (o, h)
                  + if has_partition (hour_start now) && (h =? hour_start now) then of_org o (buffer ++ delivered rounds) else 0.
Proof.
  revert buffer w. induction rounds as [|[done flush_due] rounds IH]; intros buffer w Hk.
  - unfold delivered in *. cbn [map concat] in *. rewrite app_nil_r in *. cbn [run_loop]. destruct buffer as [|r buffer].
    + exists w. split_and!; [done|apply saved_nil|]. intros o h. unfold of_org, occurrences. simpl. destruct (_ && _); lia.
    + destruct (save_ok (r :: buffer) now now w Hk) as [w' Hw]. exists w'. split_and!; [done|by apply save_saved in Hw|].
      intros o h. by apply (save_hourly _ _ _ _ _ o h) in Hw.
  - assert (buffer ++ delivered ((done, flush_due) :: rounds) = (buffer ++ collect_done done) ++ delivered rounds) as E
      by (unfold delivered; cbn [map concat fst]; by rewrite app_assoc).
    rewrite E in *. cbn [run_loop]. set (b := buffer ++ collect_done done) in *. clear E.
    destruct ((BATCH_SIZE <=? len b) || _); [|by apply IH].
    apply Forall_app in Hk as [Hb Hk]. destruct (save_ok b now now w Hb) as [w1 Hw1]. rewrite Hw1. cbn [res_bind].
    pose proof (save_saved _ _ _ _ _ Hw1) as Hs1.
    destruct (IH [] w1) as (w' & Hw' & Hs' & Hh'); [by eapply saved_known|]. exists w'. split_and!; [done| |].
    + rewrite ids_from_app. eapply saved_app; [exact Hs1|]. rewrite (saved_length _ _ _ _ _ Hs1) in Hs'. exact Hs'.
    + intros o h. rewrite Hh', (save_hourly _ _ _ _ _ o h Hw1). cbn [app]. rewrite of_org_app.
      destruct (has_partition (hour_start now) && (h =? hour_start now)); lia.
Qed.
End saves.

(** ** Rounds of checks *)

Section rounds.
Context (new_id : nat -> Z -> Z) (has_partition : Z -> bool).





(** Each row is kept under its id. *)
Definition keyed (w : Uptime) : Prop := forall id m, monitors w !! id = Some m -> m_id m = id.









End rounds.

(** ** Interleavings

    Requests and tasks read rows and write them back later: any number of them, in any
    order, with rows as old as they like. *)





(** [ON DELETE CASCADE] *)
Definition delete_monitor (id : Z) (w : Uptime) : Uptime :=
  {| monitors := delete id (monitors w); checks := filter (fun c => c_monitor c <> id) (checks w); hourly := hourly w; queue := queue w;
     uptime_counter := uptime_counter w |}.

Section interleaving.
Context (new_id : nat -> Z -> Z) (has_partition : Z -> bool).















End interleaving.

(** ** Dispatch *)

(** The monitors of the next [n] ticks. *)
Fixpoint dispatches (n : nat) (w : Uptime) : list (list Z) :=
  match n with
  | O => []
  | S n => let '(w, ids) := dispatch_checks w in default [] ids :: dispatches n w
  end.

Lemma dispatch_due id w m :
  keyed w -> monitors w !! id = Some m ->
  (id ∈ default [] (dispatch_checks w).2 <-> due (default 0 (uptime_counter w) + 1) m = true).
Proof.
  intros Hk Hm. unfold dispatch_checks. cbn [next_tick]. set (tick := default 0 (uptime_counter w) + 1). cbn [snd].
  set (ids := map fst _). transitivity (id ∈ ids); [by destruct ids|]. subst ids. rewrite list_elem_of_fmap. split.
  - intros ([k m'] & -> & [Hd Hin]%list_elem_of_filter). apply elem_of_map_to_list in Hin. cbn [fst snd] in *. by simplify_eq.
  - intros Hd. exists (id, m). split; [done|]. apply list_elem_of_filter. split; [done|]. by apply elem_of_map_to_list.
Qed.

Lemma due_once a n : 0 < n -> length (filter (fun k => (a + k) mod n = 0) (seqZ 1 n)) = 1%nat.
Proof.
  intros Hn. set (k0 := n - a mod n). pose proof (Z.mod_pos_bound a n Hn).
  assert (forall k, k ∈ filter (fun k => (a + k) mod n = 0) (seqZ 1 n) <-> k = k0) as Helem.
  { intros k. rewrite list_elem_of_filter, elem_of_seqZ. pose proof (Z.div_mod a n ltac:(lia)). split.
    - intros [E Hk]. apply Z.mod_divide in E as [q Hq]; [|lia]. subst k0. set (d := a / n) in *.
      assert (q = d + 1) by nia. nia.
    - intros ->. subst k0. split; [|lia]. apply Z.mod_divide; [lia|]. exists (a / n + 1). lia. }
  assert (filter (fun k => (a + k) mod n = 0) (seqZ 1 n) ≡ₚ [k0]) as ->; [|done].
  apply NoDup_Permutation; [apply NoDup_filter, NoDup_seqZ|apply NoDup_singleton|]. intros k. by rewrite Helem, list_elem_of_singleton.
Qed.

(** The ticks at which a monitor is dispatched. *)
Definition times_dispatched (id : Z) (l : list (list Z)) : nat := length (filter (fun ids => id ∈ ids) l).

Lemma dispatches_count id m c : forall n w,
  keyed w -> monitors w !! id = Some m -> uptime_counter w = Some c -> c + Z.of_nat n < UPTIME_TICK_EXPIRE ->
  times_dispatched id (dispatches n w) = length (filter (fun k => due (c + k) m = true) (seqZ 1 (Z.of_nat n))).
Proof.
  intros n. revert c. induction n as [|n IH]; intros c w Hk Hm Hc Hn; [done|]. cbn [dispatches].
  pose proof (dispatch_due id w m Hk Hm) as Hd. rewrite Hc in Hd. change (default 0 (Some c)) with c in Hd.
  assert (exists w', (dispatch_checks w).1 = w' /\ monitors w' = monitors w /\ uptime_counter w' = Some (c + 1)) as (w' & Ew & Em & Ec).
  { eexists. split; [done|]. unfold dispatch_checks, next_tick. cbn [fst monitors uptime_counter]. rewrite Hc.
    cbn [from_option]. unfold Datatypes.id. split; [done|]. by destruct (UPTIME_TICK_EXPIRE <=? c + 1) eqn:E; [lia|]. }
  destruct (dispatch_checks w) as [w1 ids]. cbn [fst snd] in *. subst w1. unfold times_dispatched. rewrite filter_cons.
  assert (keyed w') as Hk' by (intros i x; rewrite Em; apply Hk).
  assert (monitors w' !! id = Some m) as Hm' by (by rewrite Em).
  pose proof (IH (c + 1) w' Hk' Hm' Ec ltac:(lia)) as IH'. unfold times_dispatched in IH'.
  rewrite Nat2Z.inj_succ, seqZ_cons, Z.pred_succ, filter_cons by lia.
  assert (length (filter (fun k => due (c + k) m = true) (seqZ (Z.succ 1) (Z.of_nat n)))
          = length (filter (fun k => due (c + 1 + k) m = true) (seqZ 1 (Z.of_nat n)))) as E.
  { change (Z.succ 1) with (1 + 1). rewrite <- (fmap_add_seqZ 1 1). clear. induction (seqZ 1 (Z.of_nat n)) as [|k l IHl]; [done|]. rewrite fmap_cons, !filter_cons.
    replace (c + (1 + k)) with (c + 1 + k) by lia. destruct (decide _); simpl; by rewrite IHl. }
  destruct (decide (id ∈ default [] ids)) as [Hin|Hin].
  - rewrite decide_True by (by apply Hd). cbn [length]. by rewrite IH', E.
  - rewrite decide_False by (by intros ?%Hd). by rewrite IH', E.
Qed.

(** ** Properties *)



(** However the tasks finish, every result of a run (up heartbeats and tasks that raised
    apart) is saved exactly once and in the order of completion: the batches amount to one
    save of them all, in the tables of monitors, checks and statistics and in the queue. *)
Theorem run_checks_saves_all new_id has_partition rounds now w :
  known w (delivered rounds) ->
  exists w', run_checks new_id has_partition rounds now w = Ok w'
    /\ saved (delivered rounds) now (ids_from new_id (length (checks w)) now (delivered rounds)) w w'
    /\ forall o h, count_in (hourly w') (o, h) = count_in (hourly w) (o, h)
                  + if has_partition (hour_start now) && (h =? hour_start now) then of_org o (delivered rounds) else 0.
Proof. apply (run_loop_saves new_id has_partition rounds [] now w). Qed.

(** In [interval] ticks a monitor is dispatched exactly once if its organization is not
    stopped and it has a URL or is a heartbeat, and never otherwise. *)
Theorem dispatched_once_per_interval w id m c :
  keyed w -> monitors w !! id = Some m -> uptime_counter w = Some c -> 0 < interval m ->
  c + interval m < UPTIME_TICK_EXPIRE ->
  times_dispatched id (dispatches (Z.to_nat (interval m)) w)
  = if (event_throttle_rate m <? 100) && (truthy (url m) || bool_decide (monitor_type m = HEARTBEAT)) then 1%nat else 0%nat.
Proof.
  intros Hk Hm Hc Hi Hlt. rewrite (dispatches_count id m c) by (done || lia). rewrite Z2Nat.id by lia.
  destruct ((event_throttle_rate m <? 100) && _) eqn:E.
  - rewrite <- (due_once (c + m_id m) (interval m)) by done. f_equal. apply list_filter_iff. intros k. unfold due.
    replace (c + k + m_id m) with (c + m_id m + k) by lia. apply andb_true_iff in E as [-> E]. rewrite negb_andb, !negb_involutive, E, andb_true_r. cbn [andb].
    apply Z.eqb_eq.
  - rewrite filter_none; [done|]. apply Forall_forall. intros k _. unfold due. intros H.
    destruct (event_throttle_rate m <? 100), (truthy (url m)), (bool_decide (monitor_type m = HEARTBEAT)); cbn [andb orb negb] in *;
      rewrite ?andb_false_r in H; congruence.
Qed.

(** ** Examples and witnesses *)

Definition sample (id : Z) (ty : MonitorType) (threshold : Z) : Monitor :=
  {| m_id := id; organization_id := 7; event_throttle_rate := 0; interval := 60; timeout := None; expected_status := Some 200;
     confirmation_threshold := threshold; monitor_type := ty; url := if decide (ty = HEARTBEAT) then [] else u "https://1.1.1.1/"; expected_body := [];
     cached_is_up := None; cached_last_change := None; cached_consecutive_down := 0 |}.

Definition sample_tables (ms : list Monitor) : Uptime :=
  {| monitors := list_to_map (map (fun m => (m_id m, m)) ms); checks := []; hourly := ∅; queue := []; uptime_counter := Some 3 |}.

Definition check_ids (n : nat) (t : Z) : Z := uuid7_for_timestamp t true + Z.of_nat n.
Definition no_dns (h : ustr) : res (list ustr) := Raise OSError.
Definition refuses (ty : MonitorType) (url : ustr) (timeout : Z) : (Response + probe_exn) * Z := (inr ConnectorError, 0).
Definition answers (ty : MonitorType) (url : ustr) (timeout : Z) : (Response + probe_exn) * Z :=
  (inl {| status := 200; read := fun _ => inl [] |}, 1500).
Definition all_at_once (l : list (res Result)) : list (list (res Result) * bool) := [(l, true)].

(** The tables after a round of checks of the monitors [ids]. *)
Definition checked (request : MonitorType -> ustr -> Z -> (Response + probe_exn) * Z) (ids : list Z) (now : Z) (w : Uptime) : Uptime :=
  match perform_checks check_ids (fun _ => true) no_dns false request all_at_once ids now now w with Ok w => w | Raise _ => w end.

Definition noon : Z := 20000 * ONE_DAY + 12 * ONE_HOUR.

(** A monitor with threshold 2: down at the second failure, back up at once. *)
Example damping :
  let w0 := sample_tables [sample 1 GET 2] in
  let w1 := checked answers [1] noon w0 in
  let w2 := checked refuses [1] (noon + MINUTE) w1 in
  let w3 := checked refuses [1] (noon + 2 * MINUTE) w2 in
  let w4 := checked answers [1] (noon + 3 * MINUTE) w3 in
  (map (fun w => cached_is_up <$> monitors w !! 1) [w1; w2; w3; w4], notices 1 w4, map_to_list (hourly w4))
  = ([Some (Some true); Some (Some true); Some (Some false); Some (Some true)], [false; true; false], [((7, noon), 4)]).
Proof. by_compute. Qed.

(** The first success of a new monitor is announced as a recovery. *)
Example first_success_announced : notices 1 (checked answers [1] noon (sample_tables [sample 1 GET 1])) = [false].
Proof. by_compute. Qed.

(** A heartbeat monitor that never received a heartbeat goes down and alerts. *)
Example heartbeat_without_grace :
  notices 2 (checked answers [2] noon (sample_tables [sample 2 HEARTBEAT 1])) = [true].
Proof. by_compute. Qed.

(** Two checks of one monitor that overlap both announce that it is down. *)
Example overlapping_checks_alert_twice :
  let w0 := checked answers [1] noon (sample_tables [sample 1 GET 1]) in
  let failed := map (fun kv => set_reason TIMEOUT (new_result kv.2)) (map_to_list (monitors w0)) in
  (let* w1 := save_monitor_checks check_ids (fun _ => true) failed (noon + MINUTE) noon w0 in
   let* w2 := save_monitor_checks check_ids (fun _ => true) failed (noon + MINUTE) noon w1 in Ok (notices 1 w2))
  = Ok [false; true; true].
Proof. by_compute. Qed.

(** A monitor deleted while its check runs takes the whole batch with it. *)
Example deleted_monitor_loses_batch :
  let w0 := sample_tables [sample 1 GET 1; sample 2 GET 1] in
  let results := map (fun kv => set_up (new_result kv.2)) (map_to_list (monitors w0)) in
  save_monitor_checks check_ids (fun _ => true) results noon noon (delete_monitor 2 w0) = Raise IntegrityError.
Proof. by_compute. Qed.

(** No probe exists for the type [SSL]: such a monitor is never up. *)
Lemma ssl_never_up dns priv req cs clock m r :
  monitor_type m = SSL -> fetch dns priv req cs clock m = Ok r -> is_up r = false.
Proof.
  intros Hty. unfold fetch. rewrite Hty, bool_decide_false by done. destruct (check_url_safe _ _ _) as [safe|]; [|done].
  cbn [res_bind]. destruct safe; cbn [negb]; [|by intros [= <-]]. unfold attempt. cbn [monitor new_result]. rewrite Hty. by intros [= <-].
Qed.






Lemma run_checks_saves_all_witness :
  let w := sample_tables [sample 1 GET 1] in
  let rounds := [([Ok (set_up (new_result (sample 1 GET 1))); Raise ValueError], false)] in
  exists w', run_checks check_ids (fun _ => true) rounds noon w = Ok w'
    /\ saved (delivered rounds) noon (ids_from check_ids (length (checks w)) noon (delivered rounds)) w w'
    /\ forall o h, count_in (hourly w') (o, h) = count_in (hourly w) (o, h)
                  + if true && (h =? hour_start noon) then of_org o (delivered rounds) else 0.
Proof.
  apply (run_checks_saves_all check_ids (fun _ => true)). unfold delivered. apply Forall_forall. intros r Hr. vm_compute in Hr.
  apply elem_of_cons in Hr as [->|Hr]; [by vm_compute|by apply elem_of_nil in Hr].
Defined.

Lemma dispatched_once_per_interval_witness :
  times_dispatched 1 (dispatches 60 (sample_tables [sample 1 GET 1])) = 1%nat.
Proof.
  apply (dispatched_once_per_interval (sample_tables [sample 1 GET 1]) 1 (sample 1 GET 1) 3); try done.
  intros id m H. unfold sample_tables in H. cbn [monitors map list_to_map foldr] in H.
  apply lookup_insert_Some in H as [[<- <-]|[_ H]]; [done|by rewrite lookup_empty in H].
Defined.
