(* ===== verification/Billing.v ===== *)
(** * Quotas and metered billing

    [apps/stripe/overage.py] (the graduated price of events above the quota and the number
    of events a budget pays for) and the throttle check of
    [apps/organizations_ext/tasks.py]: the progressive throttle, the report of the overage
    to Stripe's meter with its write-ahead counter, and the notice.  Stripe and failures
    are parameters: what a request does and says, where a task dies. *)
From S2P Require Import Prelude.

(** ** Graduated prices

    Money is counted in [scale] parts of a cent, fine enough for every rate of the
    schedule to be an integer. *)

Section overage.
Context (scale : Z).

(** [(up_to, rate)]; [None] is no upper bound. *)
Abbreviation tiers := (list (option Z * Z)).

(** The loop of [cost_cents_for_units]. *)
Fixpoint cost_loop (l : tiers) (prev units : Z) : Z :=
  match l with
  | [] => 0
  | (up_to, rate) :: l =>
      let band_end := match up_to with None => units | Some b => Z.min units b end in
      let band_units := band_end - prev in
      let total := if 0 <? band_units then band_units * rate else 0 in
      if match up_to with Some b => units <=? b | None => false end then total else total + cost_loop l band_end units
  end.

(** [ROUND_HALF_UP] to cents. *)
Definition round_cents (total : Z) : Z := (2 * total + scale) / (2 * scale).

Definition cost_cents_for_units (l : tiers) (units : Z) : Z :=
  if units <=? 0 then 0 else round_cents (cost_loop l 0 units).

(** The loop of [units_for_budget]. *)
Fixpoint budget_loop (l : tiers) (budget units prev : Z) : Z :=
  match l with
  | [] => units
  | (up_to, rate) :: l =>
      if rate <=? 0 then
        match up_to with None => units | Some b => budget_loop l budget (units + (b - prev)) b end
      else
        let affordable := budget / rate in
        match up_to with
        | None => units + affordable
        | Some b =>
            let capacity := b - prev in
            if affordable <=? capacity then units + affordable
            else budget_loop l (budget - capacity * rate) (units + capacity) b
        end
  end.

Definition units_for_budget (l : tiers) (cap_cents : Z) : Z :=
  if cap_cents <=? 0 then 0 else budget_loop l (cap_cents * scale) 0 0.
End overage.

Abbreviation tiers := (list (option Z * Z)).

(** [GLITCHTIP_OVERAGE_TIERS], in thousandths of a cent. *)
Definition GLITCHTIP_OVERAGE_TIERS : tiers := [(Some 400000, 15); (Some 2000000, 10); (None, 8)].

Example prices :
  (map (cost_cents_for_units 1000 GLITCHTIP_OVERAGE_TIERS) [0; 33; 34; 400000; 2000000; 2000100],
   map (units_for_budget 1000 GLITCHTIP_OVERAGE_TIERS) [0; 1; 6000; 22000; 22001]) =
  ([0; 0; 1; 6000; 22000; 22001], [0; 66; 400000; 2000000; 2000125]).
Proof. by_compute. Qed.

(** ** The meter *)

(** The counter of a subscription, and the meter events Stripe holds: by the cycle and the
    base of their identifier. *)
Record Meter := { overage_units_reported : Z; overage_period_start : option Z; recorded : gmap (Z * Z) Z }.

(** What a request to create a meter event does: an event whose identifier Stripe knows is
    not recorded again.  Stripe remembers an identifier only for a rolling window
    ([forgotten]: that of this identifier has passed), after which the event counts once
    more. *)
Inductive Reply := Accepted | ReplyLost | Unavailable | BadRequest.

Inductive SendResult := SendOk | Status400 | OtherError.

Definition create_meter_event (reply : Reply) (forgotten : bool) (identifier : Z * Z) (value : Z) (events : gmap (Z * Z) Z)
    : gmap (Z * Z) Z * SendResult :=
  let known := bool_decide (events !! identifier <> None) && negb forgotten in
  let more := <[identifier := default 0 (events !! identifier) + value]> events in
  match reply with
  | Unavailable => (events, OtherError)
  | BadRequest => (events, Status400)
  | Accepted => if known then (events, Status400) else (more, SendOk)
  | ReplyLost => if known then (events, OtherError) else (more, OtherError)
  end.

(** The conditional UPDATE of [_persist_overage]. *)
Definition _persist_overage (cycle_start units_reported : Z) (s : Meter) : Meter :=
  if bool_decide (overage_period_start s <> Some cycle_start) || (overage_units_reported s <? units_reported) then
    {| overage_units_reported := units_reported; overage_period_start := Some cycle_start; recorded := recorded s |}
  else s.

(** The conditional UPDATE of [_rollback_overage]. *)
Definition _rollback_overage (cycle_start sent_target base : Z) (s : Meter) : Meter :=
  if bool_decide (overage_period_start s = Some cycle_start) && (overage_units_reported s =? sent_target) then
    {| overage_units_reported := base; overage_period_start := overage_period_start s; recorded := recorded s |}
  else s.

(** The counter as read: a new cycle starts from zero. *)
Definition base_of (cycle_start : Z) (s : Meter) : Z :=
  if bool_decide (overage_period_start s = Some cycle_start) then overage_units_reported s else 0.

(** The request, with the answer to it. *)
Definition send (reply : Reply) (forgotten : bool) (cycle_start base billable : Z) (s : Meter) : Meter * SendResult :=
  let '(events, r) := create_meter_event reply forgotten (cycle_start, base) (billable - base) (recorded s) in
  ({| overage_units_reported := overage_units_reported s; overage_period_start := overage_period_start s; recorded := events |}, r).

(** What becomes of one report: the lock may be taken, the task may die after the read, the
    write or the request, Stripe may have forgotten the identifier, the rollback may fail. *)
Record Fate := { lock_taken : bool; dies_after : option nat; reply : Reply; forgotten : bool; rollback_fails : bool }.

Definition dies (f : Fate) (n : nat) : bool := bool_decide (dies_after f = Some n).

Definition _report_overage (has_customer : bool) (f : Fate) (cycle_start billable_units : Z) (s : Meter) : Meter :=
  if negb has_customer || lock_taken f || dies f 0 then s else
  let reported := base_of cycle_start s in
  if billable_units - reported <=? 0 then
    if bool_decide (overage_period_start s <> Some cycle_start) then _persist_overage cycle_start billable_units s else s
  else
    let s := _persist_overage cycle_start billable_units s in
    if dies f 1 then s else
    let '(s, r) := send (reply f) (forgotten f) cycle_start reported billable_units s in
    if dies f 2 then s else
    match r with
    | SendOk | Status400 => s
    | OtherError => if rollback_fails f then s else _rollback_overage cycle_start billable_units reported s
    end.

(** ** The throttle check *)

Definition _progressive_throttle (usage start width : Z) : Z :=
  if start + width <? usage then 100
  else if start + width / 2 <? usage then 50
  else if start <? usage then 10
  else 0.

Record Subscription := { no_throttle : bool; plan_events : Z; has_metered_item : bool }.

Record Organization := {
  event_throttle_rate : Z; metered_billing_enabled : bool; overage_spend_cap_cents : Z; has_customer : bool;
  stripe_primary_subscription : option Subscription }.

Definition set_throttle_rate (rate : Z) (org : Organization) : Organization :=
  {| event_throttle_rate := rate; metered_billing_enabled := metered_billing_enabled org;
     overage_spend_cap_cents := overage_spend_cap_cents org; has_customer := has_customer org;
     stripe_primary_subscription := stripe_primary_subscription org |}.

(** The units that are billed: above the quota, up to the spend cap. *)
Definition billable_units (scale : Z) (l : tiers) (org : Organization) (sub : Subscription) (total_event_count : Z) : Z :=
  Z.min (Z.max 0 (total_event_count - plan_events sub)) (units_for_budget scale l (overage_spend_cap_cents org)).

(** The branches of [_check_and_update_throttle], with the start of the current period and the
    events counted in it: the new rate, the meter and the count for the notice. *)
Definition compute_throttle (GLITCHTIP_FREE_TIER_EVENTS scale : Z) (l : tiers) (f : Fate)
    (start : option Z) (total_event_count : Z) (org : Organization) (s : Meter) : Z * Meter * Z :=
  match stripe_primary_subscription org with
  | Some sub =>
      if no_throttle sub then (0, s, 0)
      else
        match (if metered_billing_enabled org && has_metered_item sub then start else None) with
        | Some start =>
            let cap_units := units_for_budget scale l (overage_spend_cap_cents org) in
            let s := _report_overage (has_customer org) f start (billable_units scale l org sub total_event_count) s in
            (_progressive_throttle total_event_count (plan_events sub + cap_units) (plan_events sub), s, total_event_count)
        | None => (_progressive_throttle total_event_count (plan_events sub) (plan_events sub), s, total_event_count)
        end
  | None => (_progressive_throttle total_event_count GLITCHTIP_FREE_TIER_EVENTS GLITCHTIP_FREE_TIER_EVENTS, s, total_event_count)
  end.

(** The last lines: store a changed rate, send the notice when it rose. *)
Definition update_throttle (org_throttle count : Z) (org : Organization) : Organization * option Z :=
  if event_throttle_rate org =? org_throttle then (org, None)
  else (set_throttle_rate org_throttle org, if event_throttle_rate org <? org_throttle then Some count else None).

Definition _check_and_update_throttle (BILLING_ENABLED : bool) (GLITCHTIP_FREE_TIER_EVENTS scale : Z) (l : tiers) (f : Fate)
    (start : option Z) (total_event_count : Z) (org : Organization) (s : Meter) : Organization * Meter * option Z :=
  if negb BILLING_ENABLED then (org, s, None) else
  let '(org_throttle, s, count) := compute_throttle GLITCHTIP_FREE_TIER_EVENTS scale l f start total_event_count org s in
  let '(org, notice) := update_throttle org_throttle count org in
  (org, s, notice).

(** ** The price, unit by unit *)

(** The bounds rise from [prev], rates are not negative, an open tier is the last. *)
Fixpoint schedule_ok (prev : Z) (l : tiers) : Prop :=
  match l with
  | [] => True
  | (Some b, rate) :: l => prev < b /\ 0 <= rate /\ schedule_ok b l
  | (None, rate) :: l => 0 <= rate /\ l = []
  end.

(** What the [k]-th event above the quota costs. *)
Fixpoint unit_price (l : tiers) (k : Z) : Z :=
  match l with
  | [] => 0
  | (None, rate) :: _ => rate
  | (Some b, rate) :: l => if k <=? b then rate else unit_price l k
  end.

(** The events after the first [from] up to the [n]-th. *)
Definition price (l : tiers) (from n : Z) : Z := zsum (map (unit_price l) (seqZ (from + 1) (n - from))).

Lemma zsum_const (f : Z -> Z) c l : (forall k, k ∈ l -> f k = c) -> zsum (map f l) = Z.of_nat (length l) * c.
Proof.
  induction l as [|k l IH]; intros H; [done|]. cbn [map length]. rewrite zsum_cons, IH, H by (by left || (intros; apply H; by right)). lia.
Qed.

Lemma zsum_ext (f g : Z -> Z) l : (forall k, k ∈ l -> f k = g k) -> zsum (map f l) = zsum (map g l).
Proof. intros H. f_equal. apply map_ext_in. intros k Hk. apply H. by apply list_elem_of_In. Qed.

Lemma price_split l from mid n : from <= mid <= n -> price l from n = price l from mid + price l mid n.
Proof.
  intros H. unfold price. replace (n - from) with ((mid - from) + (n - mid)) by lia. rewrite seqZ_app, map_app, zsum_app by lia.
  by replace (from + 1 + (mid - from)) with (mid + 1) by lia.
Qed.

Lemma price_band b rate l from n : from <= n -> n <= b -> price ((Some b, rate) :: l) from n = (n - from) * rate.
Proof.
  intros H Hb. unfold price. rewrite (zsum_const _ rate); [by rewrite length_seqZ, Z2Nat.id by lia|].
  intros k Hk%elem_of_seqZ. cbn [unit_price]. by destruct (k <=? b) eqn:E; [|lia].
Qed.

Lemma price_beyond b rate l from n : b <= from -> price ((Some b, rate) :: l) from n = price l from n.
Proof. intros Hb. apply zsum_ext. intros k Hk%elem_of_seqZ. cbn [unit_price]. by destruct (k <=? b) eqn:E; [lia|]. Qed.

Lemma price_open rate l from n : from <= n -> price ((None, rate) :: l) from n = (n - from) * rate.
Proof. intros H. unfold price. rewrite (zsum_const _ rate), length_seqZ, Z2Nat.id by (done || lia). done. Qed.

Lemma price_nil from n : price [] from n = 0.
Proof. unfold price. rewrite (zsum_const _ 0); [lia|done]. Qed.

Lemma price_empty l n : price l n n = 0.
Proof. unfold price. by rewrite Z.sub_diag. Qed.

Lemma unit_price_nonneg l prev k : schedule_ok prev l -> 0 <= unit_price l k.
Proof.
  revert prev. induction l as [|[[b|] rate] l IH]; intros prev H; cbn [unit_price schedule_ok] in *; [lia| |lia].
  destruct (k <=? b); [lia|]. apply (IH b), H.
Qed.

Lemma price_nonneg l prev from n : schedule_ok prev l -> 0 <= price l from n.
Proof.
  intros H. apply zsum_nonneg, Forall_forall. intros x (k & -> & _)%list_elem_of_fmap. by eapply unit_price_nonneg.
Qed.

(** The loop over the tiers sums the prices of the units. *)
Lemma cost_loop_price l prev units : schedule_ok prev l -> prev <= units -> cost_loop l prev units = price l prev units.
Proof.
  revert prev. induction l as [|[[b|] rate] l IH]; intros prev Hs Hu; cbn [cost_loop schedule_ok] in *; [by rewrite price_nil| |].
  - destruct Hs as (Hb & Hr & Hs). destruct (units <=? b) eqn:E.
    + rewrite Z.min_l by lia. rewrite price_band by lia. by destruct (0 <? units - prev) eqn:E2; [|replace units with prev by lia; lia].
    + rewrite Z.min_r by lia. destruct (0 <? b - prev) eqn:E2; [|lia]. rewrite IH by (done || lia).
      rewrite (price_split _ prev b units) by lia. by rewrite price_band, price_beyond by lia.
  - destruct Hs as [Hr ->]. cbn [cost_loop]. rewrite price_open by lia. by destruct (0 <? units - prev) eqn:E2; [lia|replace units with prev by lia; lia].
Qed.

(** ** Budgets *)

Section budgets.
Context (scale : Z) (Hscale : 0 < scale).

(** Every finite band costs whole cents, no unit costs more than a cent, the last tier is
    open and not free. *)
Fixpoint whole_bands (prev : Z) (l : tiers) : Prop :=
  match l with
  | [(None, rate)] => 0 < rate
  | (Some b, rate) :: l => 0 < rate <= scale /\ (scale | (b - prev) * rate) /\ whole_bands b l
  | _ => False
  end.

Lemma whole_bands_next b l : schedule_ok b l -> whole_bands b l -> 0 < price l b (b + 1).
Proof.
  destruct l as [|[[b'|] rate] l]; cbn [whole_bands schedule_ok]; intros Hs Hw; [done| |].
  - rewrite price_band; lia.
  - rewrite price_open by lia. destruct Hs as [_ ->]. lia.
Qed.

Lemma budget_loop_spec l : forall budget prev,
  schedule_ok prev l -> 0 <= budget ->
  let n := budget_loop l budget prev prev in
  prev <= n /\ price l prev n <= budget
  /\ (whole_bands prev l -> (scale | budget) -> budget < price l prev (n + 1)).
Proof.
  induction l as [|[[b|] rate] l IH]; intros budget prev Hs Hb n; subst n; cbn [budget_loop schedule_ok] in *.
  - rewrite price_nil. split_and!; [lia|lia|done].
  - destruct Hs as (Hp & Hr & Hs). destruct (rate <=? 0) eqn:E0.
    + assert (rate = 0) as -> by lia. clear E0. replace (prev + (b - prev)) with b by lia. destruct (IH budget b Hs Hb) as (H1 & H2 & _).
      split_and!; [lia| |intros [? _]; lia]. rewrite (price_split _ prev b) by lia. rewrite price_band, price_beyond by lia. lia.
    + set (aff := budget / rate). pose proof (Z.div_mod budget rate ltac:(lia)). pose proof (Z.mod_pos_bound budget rate ltac:(lia)). fold aff in H.
      assert (0 <= aff) by (by apply Z.div_pos; lia).
      destruct (aff <=? b - prev) eqn:E1.
      * split_and!; [lia|rewrite price_band; lia|]. intros ([? ?] & Hd & Hw) Hdb.
        destruct (decide (aff < b - prev)) as [Hlt|Hge]; [rewrite price_band by lia; lia|].
        assert (aff = b - prev) as Ea by lia. replace (prev + aff) with b by lia.
        rewrite (price_split _ prev b) by lia. rewrite price_band, price_beyond by lia.
        pose proof (whole_bands_next b l Hs Hw) as Hn. rewrite Ea in *.
        assert (scale | budget mod rate) as [q Hq].
        { replace (budget mod rate) with (budget - (b - prev) * rate) by lia. by apply Z.divide_sub_r. }
        assert (q = 0) by nia. subst q. lia.
      * replace (prev + (b - prev)) with b by lia.
        destruct (IH (budget - (b - prev) * rate) b Hs ltac:(nia)) as (H1' & H2' & H3').
        split_and!; [lia| |].
        -- rewrite (price_split _ prev b) by lia. rewrite price_band, price_beyond by lia. lia.
        -- intros (_ & Hd & Hw) Hdb. specialize (H3' Hw (Z.divide_sub_r _ _ _ Hdb Hd)).
           rewrite (price_split _ prev b) by lia. rewrite price_band, price_beyond by lia. lia.
  - destruct Hs as [Hr ->]. destruct (rate <=? 0) eqn:E0.
    + assert (rate = 0) as -> by lia. split_and!; [lia|rewrite price_empty; lia|intros Hw; cbn [whole_bands] in Hw; lia].
    + pose proof (Z.div_mod budget rate ltac:(lia)). pose proof (Z.mod_pos_bound budget rate ltac:(lia)).
      assert (0 <= budget / rate) by (apply Z.div_pos; lia).
      split_and!; [lia|rewrite price_open by lia; lia|]. intros _ _. rewrite price_open by lia. lia.
Qed.

Lemma round_cents_le total cap : total <= cap * scale -> round_cents scale total <= cap.
Proof. intros H. unfold round_cents. apply Z.lt_succ_r, Z.div_lt_upper_bound; lia. Qed.

Lemma budget_units l cap :
  schedule_ok 0 l -> 0 <= cap ->
  let n := units_for_budget scale l cap in
  0 <= n /\ price l 0 n <= cap * scale /\ (whole_bands 0 l -> 0 < cap -> cap * scale < price l 0 (n + 1)).
Proof.
  intros Hs Hc n. subst n. unfold units_for_budget. destruct (cap <=? 0) eqn:E.
  - rewrite price_empty. split_and!; [lia|nia|lia].
  - destruct (budget_loop_spec l (cap * scale) 0 Hs ltac:(nia)) as (H1 & H2 & H3). split_and!; [done|done|].
    intros Hw _. apply H3; [done|]. by exists cap.
Qed.

Lemma cost_mono l a b : schedule_ok 0 l -> 0 <= a <= b -> price l 0 a <= price l 0 b.
Proof. intros Hs H. rewrite (price_split l 0 a b) by lia. pose proof (price_nonneg l 0 a b Hs). lia. Qed.

Lemma cost_cents_le l n m : schedule_ok 0 l -> n <= m -> 0 <= m -> forall cap, 0 <= cap -> price l 0 m <= cap * scale -> cost_cents_for_units scale l n <= cap.
Proof.
  intros Hs Hn Hm cap Hcap Hp. unfold cost_cents_for_units. destruct (n <=? 0) eqn:E; [done|]. rewrite cost_loop_price by (done || lia).
  apply round_cents_le. pose proof (cost_mono l n m Hs ltac:(lia)). lia.
Qed.
End budgets.

(** ** Reports *)

(** What Stripe has recorded for a cycle. *)
Definition total (c : Z) (events : gmap (Z * Z) Z) : Z :=
  zsum (map snd (filter (fun kv => kv.1.1 = c) (map_to_list events))).

Lemma total_insert c k d events :
  events !! k = None -> total c (<[k := d]> events) = total c events + if decide (k.1 = c) then d else 0.
Proof.
  intros H. unfold total.
  assert (forall l1 l2 : list (Z * Z * Z), l1 ≡ₚ l2 -> zsum (map snd (filter (fun kv => kv.1.1 = c) l1)) = zsum (map snd (filter (fun kv => kv.1.1 = c) l2))) as Hp.
  { intros l1 l2 Hl. induction Hl as [|x l1 l2 _ IH|x y l|]; rewrite ?filter_cons; [done| | |congruence].
    - destruct (decide _); cbn [map]; rewrite ?zsum_cons; lia.
    - repeat destruct (decide _); cbn [map]; rewrite ?zsum_cons; lia. }
  rewrite (Hp _ _ (map_to_list_insert events k d H)), filter_cons. cbn [fst snd].
  destruct (decide (k.1 = c)); cbn [map]; rewrite ?zsum_cons; cbn [snd]; lia.
Qed.

(** A history of reports: cycle, billable units and fate of each. *)
Abbreviation reports := (list (Z * Z * Fate)).

Definition run_reports (has_customer : bool) (h : reports) (s : Meter) : Meter :=
  foldl (fun s x => _report_overage has_customer x.2 x.1.1 x.1.2 s) s h.

(** The last billable units reported in a cycle. *)
Definition top (h : reports) (c : Z) : Z := foldl (fun a x => if decide (x.1.1 = c) then x.1.2 else a) 0 h.

(** Cycles follow each other, and the billable units of a cycle only grow. *)
Definition later (x y : Z * Z * Fate) : Prop := x.1.1 < y.1.1 \/ (x.1.1 = y.1.1 /\ x.1.2 <= y.1.2).

Definition orderly (h : reports) : Prop := StronglySorted later h /\ Forall (fun x => 0 <= x.1.2) h.

Lemma top_snoc h c t f c' : top (h ++ [((c, t), f)]) c' = if decide (c = c') then t else top h c'.
Proof. unfold top. by rewrite foldl_app. Qed.

Lemma top_bounds h x : Forall (fun y => later y x) h -> Forall (fun y => 0 <= y.1.2) h -> 0 <= x.1.2 -> 0 <= top h x.1.1 <= x.1.2.
Proof.
  intros H Hn Hx. unfold top. induction h as [|[[c t] f] h IH] using rev_ind; [simpl; lia|]. rewrite foldl_app. cbn [foldl fst snd].
  apply Forall_app in H as [H [Hl _]%Forall_cons]. apply Forall_app in Hn as [Hn [Hn' _]%Forall_cons]. unfold later in Hl. cbn [fst snd] in *.
  destruct (decide (c = x.1.1)); [lia|by apply IH].
Qed.

(** All events of a cycle lie below the counter, except one that a lost reply left at it. *)
Definition covered (c k bound : Z) (events : gmap (Z * Z) Z) : Prop :=
  (total c events <= k /\ forall b d, events !! (c, b) = Some d -> b < k)
  \/ exists d, events !! (c, k) = Some d /\ 0 < d /\ k + d <= bound /\ total c events <= k + d
               /\ forall b d', events !! (c, b) = Some d' -> b <= k.

Definition meter_ok (h : reports) (s : Meter) : Prop :=
  (forall c b d, recorded s !! (c, b) = Some d -> exists c0, overage_period_start s = Some c0 /\ c <= c0)
  /\ (forall c0, overage_period_start s = Some c0 -> exists x, x ∈ h /\ x.1.1 = c0)
  /\ (forall c, total c (recorded s) <= top h c)
  /\ (forall c0, overage_period_start s = Some c0 ->
        0 <= overage_units_reported s <= top h c0 /\ covered c0 (overage_units_reported s) (top h c0) (recorded s)).

Lemma total_fresh c events : (forall b d, events !! (c, b) = Some d -> False) -> total c events = 0.
Proof.
  intros H. unfold total. rewrite filter_none; [done|]. apply Forall_forall. intros [[c' b] d] Hin%elem_of_map_to_list.
  cbn [fst]. intros ->. by eapply H.
Qed.

(** The state in which a report of cycle [c] finds the meter. *)
Lemma base_covered h s x :
  meter_ok h s -> Forall (fun y => later y x) h -> Forall (fun y => 0 <= y.1.2) h -> 0 <= x.1.2 ->
  let c := x.1.1 in
  0 <= base_of c s <= top h c /\ covered c (base_of c s) (top h c) (recorded s)
  /\ (overage_period_start s <> Some c -> top h c = 0 \/ base_of c s = 0).
Proof.
  intros (H1 & H2 & H3 & H4) Hl Hn Hx c. unfold base_of. destruct (decide (overage_period_start s = Some c)) as [E|E].
  - rewrite bool_decide_true by done. destruct (H4 c E). split_and!; [lia|lia|done|done].
  - rewrite bool_decide_false by done. pose proof (top_bounds h x Hl Hn Hx).
    assert (forall b d, recorded s !! (c, b) = Some d -> False) as Hf.
    { intros b d Hb. destruct (H1 _ _ _ Hb) as (c0 & Hc0 & Hle). destruct (H2 _ Hc0) as (y & Hy & <-).
      rewrite Forall_forall in Hl. specialize (Hl y Hy). unfold later in Hl. apply E. rewrite Hc0. f_equal. subst c. lia. }
    subst c. split_and!; [lia|lia| |by right]. left. rewrite total_fresh by done. split; [lia|]. intros b d Hb. by apply Hf in Hb.
Qed.

Lemma covered_weaken c k b b' events : b <= b' -> covered c k b events -> covered c k b' events.
Proof. intros H [Hc|(d & ? & ? & ? & ? & ?)]; [by left|]. right. exists d. split_and!; (done || lia). Qed.

(** The counter moved past everything that is recorded. *)
Lemma covered_advance c k b t events : covered c k b events -> k < t -> b <= t -> covered c t t events.
Proof.
  intros [[Ht Hb]|(d & _ & ? & ? & ? & Hb)] Hk Hle; left; (split; [lia|]); intros b' d' H'; apply Hb in H'; lia.
Qed.

(** The event of the delta was recorded: for a counter that stays, and one that is rolled back. *)
Lemma covered_record c k b t events :
  covered c k b events -> events !! (c, k) = None -> k < t ->
  covered c t t (<[(c, k) := t - k]> events) /\ covered c k t (<[(c, k) := t - k]> events).
Proof.
  intros [[Ht Hb]|(d & Hd & _)] Hn Hk; [|congruence].
  assert (total c (<[(c, k) := t - k]> events) <= t) as Htot.
  { rewrite total_insert by done. cbn [fst]. rewrite decide_True by done. lia. }
  assert (forall b' d', <[(c, k) := t - k]> events !! (c, b') = Some d' -> b' <= k) as Hle.
  { intros b' d' [[[= ->] _]|[_ H]]%lookup_insert_Some; [lia|]. apply Hb in H. lia. }
  split.
  - left. split; [done|]. intros b' d' H%Hle. lia.
  - right. exists (t - k). rewrite lookup_insert_eq. split_and!; (done || lia).
Qed.

Section steps.
Context (h : reports) (x : Z * Z * Fate) (s : Meter).
Context (Hw : forgotten x.2 = false) (Hok : meter_ok h s) (Hl : Forall (fun y => later y x) h) (Hn : Forall (fun y => 0 <= y.1.2) h) (Hx : 0 <= x.1.2).

Lemma top_grows c' : top h c' <= top (h ++ [x]) c'.
Proof.
  destruct x as [[c t] f] eqn:E. rewrite top_snoc. destruct (decide (c = c')) as [<-|]; [|lia]. rewrite <- E in *.
  pose proof (top_bounds h x Hl Hn Hx). subst x. cbn [fst snd] in *. lia.
Qed.

Lemma meter_same : meter_ok (h ++ [x]) s.
Proof.
  destruct Hok as (H1 & H2 & H3 & H4). split_and!; [done| | |].
  - intros c0 Hc. destruct (H2 c0 Hc) as (y & Hy & ?). exists y. split; [apply elem_of_app; by left|done].
  - intros c. specialize (H3 c). pose proof (top_grows c). lia.
  - intros c0 Hc. destruct (H4 c0 Hc) as [? Hcov]. pose proof (top_grows c0). split; [lia|]. eapply covered_weaken; [|exact Hcov]. done.
Qed.

Lemma meter_set k events :
  0 <= k <= x.1.2 -> covered x.1.1 k x.1.2 events -> total x.1.1 events <= x.1.2 ->
  (forall c, c <> x.1.1 -> total c events = total c (recorded s)) ->
  (forall c b d, events !! (c, b) = Some d -> recorded s !! (c, b) = Some d \/ c = x.1.1) ->
  meter_ok (h ++ [x]) {| overage_units_reported := k; overage_period_start := Some x.1.1; recorded := events |}.
Proof.
  intros Hk Hcov Htot Hoth Hev. destruct Hok as (H1 & H2 & H3 & H4).
  assert (top (h ++ [x]) x.1.1 = x.1.2) as Etop by (destruct x as [[c t] f]; rewrite top_snoc; by rewrite decide_True).
  split_and!; cbn [recorded overage_period_start overage_units_reported].
  - intros c b d Hb. exists x.1.1. split; [done|]. destruct (Hev _ _ _ Hb) as [Hr| ->]; [|lia].
    destruct (H1 _ _ _ Hr) as (c0 & Hc0 & ?). destruct (H2 _ Hc0) as (y & Hy & <-). rewrite Forall_forall in Hl.
    specialize (Hl y Hy). unfold later in Hl. lia.
  - intros c0 [= <-]. exists x. split; [apply elem_of_app; right; left|done].
  - intros c. destruct (decide (c = x.1.1)) as [->|Hne]; [lia|]. rewrite Hoth by done. specialize (H3 c). pose proof (top_grows c). lia.
  - intros c0 [= <-]. rewrite Etop. split; [lia|done].
Qed.

Lemma report_ok has_customer : meter_ok (h ++ [x]) (_report_overage has_customer x.2 x.1.1 x.1.2 s).
Proof.
  unfold _report_overage. destruct (negb _ || _ || _); [apply meter_same|].
  destruct (base_covered h s x Hok Hl Hn Hx) as (Hk & Hcov & _). pose proof (top_bounds h x Hl Hn Hx) as Htop.
  assert (total x.1.1 (recorded s) <= top h x.1.1) as Htot by (by apply Hok).
  set (k := base_of x.1.1 s) in *. cbv zeta.
  destruct (x.1.2 - k <=? 0) eqn:Ed.
  { destruct (decide (overage_period_start s = Some x.1.1)) as [E|E]; [rewrite bool_decide_false by naive_solver; apply meter_same|].
    rewrite bool_decide_true by done. unfold _persist_overage. rewrite bool_decide_true by done. cbn [orb].
    assert (k = 0) as Ek by (unfold k, base_of; by rewrite bool_decide_false). assert (x.1.2 = 0) as Et by lia.
    apply meter_set; [lia| |lia|done|by left]. rewrite Et, Ek in *. eapply covered_weaken; [|exact Hcov]. lia. }
  assert (_persist_overage x.1.1 x.1.2 s
          = {| overage_units_reported := x.1.2; overage_period_start := Some x.1.1; recorded := recorded s |}) as ->.
  { unfold _persist_overage. destruct (decide (overage_period_start s = Some x.1.1)) as [E|E].
    - rewrite bool_decide_false by naive_solver. unfold k, base_of in Ed. rewrite bool_decide_true in Ed by done.
      by destruct (overage_units_reported s <? x.1.2) eqn:E2; [|lia].
    - by rewrite bool_decide_true. }
  assert (covered x.1.1 x.1.2 x.1.2 (recorded s)) as Hadv by (eapply covered_advance; [exact Hcov|lia|lia]).
  assert (covered x.1.1 k x.1.2 (recorded s)) as Hstay by (eapply covered_weaken; [|exact Hcov]; lia).
  assert (meter_ok (h ++ [x]) {| overage_units_reported := x.1.2; overage_period_start := Some x.1.1; recorded := recorded s |}) as Hkeep
    by (apply meter_set; [lia|done|lia|done|by left]).
  assert (meter_ok (h ++ [x]) {| overage_units_reported := k; overage_period_start := Some x.1.1; recorded := recorded s |}) as Hback
    by (apply meter_set; [lia|done|lia|done|by left]).
  destruct (dies x.2 1); [done|]. unfold send, create_meter_event. rewrite Hw. cbn [recorded overage_units_reported overage_period_start].
  assert (forall k', _rollback_overage x.1.1 x.1.2 k {| overage_units_reported := x.1.2; overage_period_start := Some x.1.1; recorded := k' |}
          = {| overage_units_reported := k; overage_period_start := Some x.1.1; recorded := k' |}) as Hroll.
  { intros k'. unfold _rollback_overage. cbn [overage_period_start overage_units_reported recorded].
    by rewrite bool_decide_true, Z.eqb_refl. }
  destruct (recorded s !! (x.1.1, k)) as [d|] eqn:Ek.
  - rewrite bool_decide_true by done. cbn [negb andb]. destruct (reply x.2), (dies x.2 2), (rollback_fails x.2); rewrite ?Hroll; done.
  - rewrite bool_decide_false by (intros H; by apply H). cbn [andb default]. rewrite Z.add_0_l.
    destruct (covered_record _ _ _ x.1.2 _ Hcov Ek ltac:(lia)) as [Hcov1 Hcov2].
    set (ev := <[(x.1.1, k) := x.1.2 - k]> (recorded s)) in *.
    assert (forall k', 0 <= k' <= x.1.2 -> covered x.1.1 k' x.1.2 ev ->
      meter_ok (h ++ [x]) {| overage_units_reported := k'; overage_period_start := Some x.1.1; recorded := ev |}) as Hset.
    { intros k' Hk' Hc'. apply meter_set; [done|done| | |].
      - destruct Hcov1 as [[? _]|(d & _ & ? & ? & ? & _)]; lia.
      - intros c Hne. unfold ev. rewrite total_insert by done. cbn [fst]. rewrite decide_False by done. lia.
      - intros c b d [[[= <- _] _]|[_ H]]%lookup_insert_Some; [by right|by left]. }
    destruct (reply x.2), (dies x.2 2), (rollback_fails x.2); rewrite ?Hroll; (done || (apply Hset; [lia|done])).
Qed.
End steps.

(** Nothing reported yet. *)
Definition unused (s : Meter) : Prop := overage_period_start s = None /\ recorded s = ∅.

Lemma unused_ok s : unused s -> meter_ok [] s.
Proof.
  intros [H1 H2]. unfold meter_ok. rewrite H1, H2. split_and!; [|done| |done].
  - intros c b d. by rewrite lookup_empty.
  - intros c. by rewrite total_fresh by (intros b d; by rewrite lookup_empty).
Qed.

Lemma orderly_snoc h x : orderly (h ++ [x]) -> orderly h /\ Forall (fun y => later y x) h /\ 0 <= x.1.2.
Proof.
  intros [Hs [Hn [Hx _]%Forall_cons]%Forall_app]. apply StronglySorted_app in Hs as (Hf & Hs & _). split_and!; [done| |done].
  apply Forall_forall. intros y Hy. apply Hf; [done|left].
Qed.

(** Every identifier that is sent again is sent within Stripe's window. *)
Definition within_window (h : reports) : Prop := Forall (fun x => forgotten x.2 = false) h.

Lemma run_reports_ok has_customer h s : unused s -> orderly h -> within_window h -> meter_ok h (run_reports has_customer h s).
Proof.
  intros Hs. induction h as [|x h IH] using rev_ind; intros Ho Hw; [by apply unused_ok|].
  apply orderly_snoc in Ho as (Ho & Hl & Hx). apply Forall_app in Hw as [Hw [Hwx _]%Forall_cons].
  unfold run_reports. rewrite foldl_app. cbn [foldl]. apply report_ok; [done|by apply IH|done|apply Ho|done].
Qed.

(** *** Without failures *)

Definition clean (f : Fate) : Prop := lock_taken f = false /\ dies_after f = None /\ reply f = Accepted /\ forgotten f = false.

Definition exact (h : reports) (s : Meter) : Prop :=
  (forall c, total c (recorded s) = top h c)
  /\ (forall c0, overage_period_start s = Some c0 ->
        overage_units_reported s = top h c0 /\ forall b d, recorded s !! (c0, b) = Some d -> b < overage_units_reported s)
  /\ (forall x, x ∈ h -> exists c0, overage_period_start s = Some c0 /\ x.1.1 <= c0).

Lemma top_none h c : (forall y, y ∈ h -> y.1.1 <> c) -> top h c = 0.
Proof.
  intros H. unfold top. induction h as [|y h IH] using rev_ind; [done|]. rewrite foldl_app. cbn [foldl].
  rewrite decide_False by (apply H, elem_of_app; right; left). apply IH. intros z Hz. apply H, elem_of_app. by left.
Qed.

Lemma report_exact h x s :
  meter_ok h s -> exact h s -> Forall (fun y => later y x) h -> Forall (fun y => 0 <= y.1.2) h -> 0 <= x.1.2 -> clean x.2 ->
  exact (h ++ [x]) (_report_overage true x.2 x.1.1 x.1.2 s).
Proof.
  intros Hok (E1 & E2 & E3) Hl Hn Hx (F1 & F2 & F3 & F4). pose proof (top_bounds h x Hl Hn Hx) as Htop.
  assert (forall c, top (h ++ [x]) c = if decide (x.1.1 = c) then x.1.2 else top h c) as Et by (intros c; destruct x as [[c' t] f]; apply top_snoc).
  unfold _report_overage, dies. rewrite F1, F2, F3. cbn [negb orb]. rewrite !(bool_decide_false (None = Some _)) by done.
  assert (base_of x.1.1 s = top h x.1.1) as Eb.
  { unfold base_of. destruct (decide (overage_period_start s = Some x.1.1)) as [E|E]; [rewrite bool_decide_true by done; by apply E2|].
    rewrite bool_decide_false by done. symmetry. apply top_none. intros y Hy Hyc. destruct (E3 y Hy) as (c0 & Hc0 & Hle).
    destruct Hok as (_ & H2 & _). destruct (H2 c0 Hc0) as (z & Hz & Hzc). rewrite Forall_forall in Hl. specialize (Hl z Hz). unfold later in Hl.
    apply E. rewrite Hc0. f_equal. lia. }
  rewrite Eb. assert (forall b d, recorded s !! (x.1.1, b) = Some d -> b < top h x.1.1) as Hlt.
  { intros b d Hb. destruct Hok as (H1 & H2 & _). destruct (H1 _ _ _ Hb) as (c0 & Hc0 & Hle). destruct (H2 c0 Hc0) as (z & Hz & Hzc).
    rewrite Forall_forall in Hl. specialize (Hl z Hz). unfold later in Hl. assert (c0 = x.1.1) as -> by lia.
    destruct (E2 _ Hc0) as [<- Hb']. by eapply Hb'. }
  assert (forall y, y ∈ h ++ [x] -> y.1.1 <= x.1.1) as Hall.
  { intros y [Hy| ->%list_elem_of_singleton]%elem_of_app; [|lia]. rewrite Forall_forall in Hl. specialize (Hl y Hy). unfold later in Hl. lia. }
  cbv zeta. destruct (x.1.2 - top h x.1.1 <=? 0) eqn:Ed.
  - assert (x.1.2 = top h x.1.1) as Ex by lia.
    assert (forall c, total c (recorded s) = top (h ++ [x]) c) as Etot by (intros c; rewrite E1, Et; destruct (decide (x.1.1 = c)); congruence).
    destruct (decide (overage_period_start s = Some x.1.1)) as [E|E].
    + rewrite bool_decide_false by naive_solver. split_and!; [done| |].
      * intros c0 Hc0. assert (c0 = x.1.1) as -> by congruence. rewrite Et, decide_True, Ex by done. by apply E2.
      * intros y Hy. exists x.1.1. split; [done|by apply Hall].
    + rewrite bool_decide_true by done. unfold _persist_overage. rewrite bool_decide_true by done. cbn [orb].
      split_and!; cbn [recorded overage_period_start overage_units_reported]; [done| |].
      * intros c0 [= <-]. rewrite Et, decide_True by done. split; [done|]. rewrite Ex. apply Hlt.
      * intros y Hy. exists x.1.1. split; [done|by apply Hall].
  - assert (_persist_overage x.1.1 x.1.2 s
          = {| overage_units_reported := x.1.2; overage_period_start := Some x.1.1; recorded := recorded s |}) as ->.
    { unfold _persist_overage. destruct (decide (overage_period_start s = Some x.1.1)) as [E|E]; [|by rewrite bool_decide_true].
      rewrite bool_decide_false by naive_solver. destruct (E2 _ E) as [-> _]. by destruct (top h x.1.1 <? x.1.2) eqn:E2'; [|lia]. }
    unfold send, create_meter_event. rewrite F4. cbn [recorded overage_units_reported overage_period_start].
    assert (recorded s !! (x.1.1, top h x.1.1) = None) as Hnone.
    { destruct (recorded s !! (x.1.1, top h x.1.1)) as [d|] eqn:E; [|done]. apply Hlt in E. lia. }
    rewrite Hnone, bool_decide_false by (intros H; by apply H). cbn [andb default]. rewrite Z.add_0_l.
    split_and!; cbn [recorded overage_period_start overage_units_reported].
    + intros c. rewrite total_insert, Et, E1 by done. cbn [fst]. destruct (decide (x.1.1 = c)) as [<-|]; lia.
    + intros c0 [= <-]. rewrite Et, decide_True by done. split; [done|].
      intros b d [[[= <-] _]|[_ H]]%lookup_insert_Some; [lia|]. apply Hlt in H. lia.
    + intros y Hy. exists x.1.1. split; [done|by apply Hall].
Qed.

Lemma run_reports_exact h s : unused s -> orderly h -> Forall (fun x => clean x.2) h -> exact h (run_reports true h s).
Proof.
  intros Hs. induction h as [|x h IH] using rev_ind; intros Ho Hc.
  - destruct Hs as [H1 H2]. unfold exact, run_reports. cbn [foldl]. rewrite H1, H2. split_and!; [|done|].
    + intros c. by rewrite total_fresh by (intros b d; by rewrite lookup_empty).
    + intros x Hx. by apply elem_of_nil in Hx.
  - pose proof (run_reports_ok true h s Hs) as Hok. apply orderly_snoc in Ho as (Ho & Hl & Hx). apply Forall_app in Hc as [Hc [Hcx _]%Forall_cons].
    assert (within_window h) as Hw by (eapply Forall_impl; [exact Hc|]; by intros y (_ & _ & _ & ?)).
    unfold run_reports. rewrite foldl_app. cbn [foldl]. apply report_exact; auto. by apply Ho.
Qed.

(** *** Checks of an organization *)

Section checks.
Context (free_tier scale : Z) (l : tiers).

(** A history of throttle checks: start of the period, count of events, fate of the report. *)
Definition run_throttle_checks (h : reports) (org : Organization) (s : Meter) : Organization * Meter :=
  foldl (fun os x => let '(org, s, _) := _check_and_update_throttle true free_tier scale l x.2 (Some x.1.1) x.1.2 os.1 os.2 in (org, s)) (org, s) h.

(** The reports a metered organization makes. *)
Definition reports_of (org : Organization) (sub : Subscription) (h : reports) : reports :=
  map (fun x => ((x.1.1, billable_units scale l org sub x.1.2), x.2)) h.

Definition metered (org : Organization) (sub : Subscription) : Prop :=
  stripe_primary_subscription org = Some sub /\ no_throttle sub = false /\ metered_billing_enabled org = true /\ has_metered_item sub = true.

(** What only the throttle rate tells apart. *)
Definition same_plan (org org' : Organization) : Prop := exists rate, org' = set_throttle_rate rate org.

Lemma compute_metered f st count org sub s :
  metered org sub ->
  (compute_throttle free_tier scale l f (Some st) count org s).1.2
  = _report_overage (has_customer org) f st (billable_units scale l org sub count) s.
Proof. intros (H1 & H2 & H3 & H4). unfold compute_throttle. by rewrite H1, H2, H3, H4. Qed.

Lemma update_same_plan r count org : same_plan org (update_throttle r count org).1.
Proof. unfold update_throttle. destruct (_ =? _); [exists (event_throttle_rate org); by destruct org|by exists r]. Qed.

Lemma run_throttle_checks_meter h org sub s :
  metered org sub ->
  same_plan org (run_throttle_checks h org s).1
  /\ (run_throttle_checks h org s).2 = run_reports (has_customer org) (reports_of org sub h) s.
Proof.
  intros Hm. unfold run_throttle_checks, run_reports, reports_of. induction h as [|x h IH] using rev_ind.
  - split; [exists (event_throttle_rate org); by destruct org|done].
  - rewrite foldl_app, map_app, foldl_app. cbn [foldl map]. destruct IH as [[rate Hrate] Hs].
    destruct (foldl _ (org, s) h) as [org1 s1]. cbn [fst snd] in *. subst org1 s1.
    unfold _check_and_update_throttle. cbn [negb]. set (org1 := set_throttle_rate rate org). set (s1 := foldl _ s _).
    pose proof (compute_metered x.2 x.1.1 x.1.2 org1 sub s1 Hm) as Hc.
    destruct (compute_throttle _ _ _ _ _ _ _ _) as [[r s2] count]. cbn [fst snd] in Hc. subst s2.
    pose proof (update_same_plan r count org1) as [rate' Hu]. destruct (update_throttle r count org1) as [org2 notice]. cbn [fst snd] in *.
    split; [exists rate'; by rewrite Hu|done].
Qed.

Lemma reports_orderly org sub h :
  schedule_ok 0 l -> 0 < scale -> 0 <= overage_spend_cap_cents org -> StronglySorted later h -> orderly (reports_of org sub h).
Proof.
  intros Hs Hsc Hcap Hh. destruct (budget_units scale Hsc l _ Hs Hcap) as (Hu & _). unfold orderly, reports_of. split.
  - induction Hh as [|x h Hh IH Hx]; [constructor|]. cbn [map]. constructor; [done|]. apply Forall_fmap. eapply Forall_impl; [exact Hx|].
    intros y Hy. unfold compose, later, billable_units in *. cbn [fst snd]. lia.
  - apply Forall_fmap, Forall_forall. intros x _. unfold compose, billable_units. cbn [fst snd]. lia.
Qed.

Lemma top_le h c b : (forall x, x ∈ h -> x.1.2 <= b) -> 0 <= b -> top h c <= b.
Proof.
  intros H Hb. unfold top. induction h as [|x h IH] using rev_ind; [done|]. rewrite foldl_app. cbn [foldl].
  destruct (decide (x.1.1 = c)); [apply H, elem_of_app; right; left|apply IH; intros y Hy; apply H, elem_of_app; by left].
Qed.
End checks.

(** ** Properties *)

(** C11: Let the price schedule be well formed, the plan and the cap of a metered
    organization stay the same, its meter be unused at first, the reports come one after
    the other, cycle after cycle, the usage of a cycle only grow, and every retry of an
    identifier fall within the window for which Stripe remembers it.  Then, however the
    reports fail (lock taken, task killed at any point, request lost before or after Stripe
    recorded it, rollback lost), Stripe never holds more units for a cycle than the last
    to be reported, and what they cost stays within the organization's spend cap. *)
Theorem spend_cap_holds free_tier scale l org sub h s c :
  schedule_ok 0 l -> 0 < scale -> 0 <= overage_spend_cap_cents org -> metered org sub -> unused s -> StronglySorted later h ->
  within_window h ->
  let billed := total c (recorded (run_throttle_checks free_tier scale l h org s).2) in
  billed <= top (reports_of scale l org sub h) c
  /\ cost_cents_for_units scale l billed <= overage_spend_cap_cents org.
Proof.
  intros Hl Hsc Hcap Hm Hs Hh Hw billed. subst billed. destruct (run_throttle_checks_meter free_tier scale l h org sub s Hm) as [_ ->].
  pose proof (reports_orderly scale l org sub h Hl Hsc Hcap Hh) as Ho.
  assert (within_window (reports_of scale l org sub h)) as Hwr by (unfold within_window, reports_of; by apply Forall_fmap).
  destruct (run_reports_ok (has_customer org) _ s Hs Ho Hwr) as (_ & _ & Htot & _). split; [apply Htot|].
  destruct (budget_units scale Hsc l _ Hl Hcap) as (Hu & Hp & _).
  eapply (cost_cents_le scale); [done|done| |exact Hu|done|exact Hp]. etrans; [apply Htot|].
  apply top_le; [|done]. intros x (y & -> & _)%list_elem_of_fmap. unfold billable_units. cbn [fst snd]. lia.
Qed.

(** When every report works, Stripe holds for each cycle exactly the last billable units:
    the deltas add up and nothing is billed twice or forgotten. *)
Theorem overage_billed_exactly h s c :
  unused s -> orderly h -> Forall (fun x => clean x.2) h -> total c (recorded (run_reports true h s)) = top h c.
Proof. intros Hs Ho Hc. by apply run_reports_exact. Qed.

(** The units a budget pays for cost, unit by unit, no more than the budget, also when
    rounded to cents; if the bands cost whole cents and no unit more than one, one unit more
    would exceed it. *)
Theorem units_for_budget_spec scale l cap :
  0 < scale -> schedule_ok 0 l -> 0 < cap ->
  let n := units_for_budget scale l cap in
  price l 0 n <= cap * scale /\ cost_cents_for_units scale l n <= cap
  /\ (whole_bands scale 0 l -> cap * scale < price l 0 (n + 1)).
Proof.
  intros Hsc Hl Hc n. destruct (budget_units scale Hsc l cap Hl ltac:(lia)) as (H1 & H2 & H3). split_and!; [done| |auto].
  by apply (cost_cents_le scale Hsc l n n Hl ltac:(lia) H1); [lia|].
Qed.

(** The rate for an allowance of events and the width of the ramp beyond it. *)
Definition rate_spec (rate total allowance width : Z) : Prop :=
  (rate = 0 <-> total <= allowance) /\ (rate = 100 <-> allowance + width < total).

Lemma progressive_throttle_spec usage start width :
  0 < width -> _progressive_throttle usage start width ∈ [0; 10; 50; 100] /\ rate_spec (_progressive_throttle usage start width) usage start width.
Proof.
  intros Hw. unfold rate_spec, _progressive_throttle. assert (0 <= width / 2 <= width) by dlia.
  repeat case_match; bool_split; (split; [repeat ((by left) || right)|lia]).
Qed.

(** What an organization may use before it is throttled, and the width of the ramp; [None]:
    it is never throttled. *)
Definition allowance (free_tier scale : Z) (l : tiers) (start : option Z) (org : Organization) : option (Z * Z) :=
  match stripe_primary_subscription org with
  | Some sub =>
      if no_throttle sub then None
      else Some (plan_events sub + (if metered_billing_enabled org && has_metered_item sub && bool_decide (start <> None)
                                    then units_for_budget scale l (overage_spend_cap_cents org) else 0), plan_events sub)
  | None => Some (free_tier, free_tier)
  end.

Lemma compute_throttle_rate free_tier scale l f start total org s :
  0 < free_tier -> (forall sub, stripe_primary_subscription org = Some sub -> 0 < plan_events sub) ->
  let rate := (compute_throttle free_tier scale l f start total org s).1.1 in
  rate ∈ [0; 10; 50; 100]
  /\ match allowance free_tier scale l start org with Some (a, w) => rate_spec rate total a w | None => rate = 0 end.
Proof.
  intros Hft Hsub rate. subst rate. unfold compute_throttle, allowance.
  destruct (stripe_primary_subscription org) as [sub|]; [|by apply progressive_throttle_spec].
  specialize (Hsub sub eq_refl). destruct (no_throttle sub); [split; [left|done]|].
  destruct (metered_billing_enabled org && has_metered_item sub); [destruct start|]; cbn [andb fst].
  - rewrite bool_decide_true by done. by apply progressive_throttle_spec.
  - rewrite bool_decide_false by (intros H; by apply H). rewrite Z.add_0_r. by apply progressive_throttle_spec.
  - rewrite Z.add_0_r. by apply progressive_throttle_spec.
Qed.

Lemma update_throttle_spec r count org :
  let '(org', notice) := update_throttle r count org in
  event_throttle_rate org' = r /\ (is_Some notice <-> event_throttle_rate org < r).
Proof.
  unfold update_throttle. destruct (event_throttle_rate org =? r) eqn:E; bool_split.
  - split; [done|]. split; [by intros [? ?]|lia].
  - split; [done|]. destruct (event_throttle_rate org <? r) eqn:E0; bool_split; split; try (by intros [? ?]); try lia. by eexists.
Qed.

(** A throttle check sets the rate to 0, 10, 50 or 100: to 0 exactly within the allowance
    (the quota, or the quota and the overage the spend cap pays for), to 100 exactly beyond
    another quota, and always to 0 on a plan without throttle; a notice goes out exactly when
    the rate rises. *)
Theorem throttle_check_spec free_tier scale l f start total org s :
  0 < free_tier -> (forall sub, stripe_primary_subscription org = Some sub -> 0 < plan_events sub) ->
  let '(org', _, notice) := _check_and_update_throttle true free_tier scale l f start total org s in
  event_throttle_rate org' ∈ [0; 10; 50; 100]
  /\ match allowance free_tier scale l start org with
     | Some (a, w) => rate_spec (event_throttle_rate org') total a w
     | None => event_throttle_rate org' = 0
     end
  /\ (is_Some notice <-> event_throttle_rate org < event_throttle_rate org').
Proof.
  intros Hft Hsub. unfold _check_and_update_throttle. cbn [negb].
  pose proof (compute_throttle_rate free_tier scale l f start total org s Hft Hsub) as Hr.
  destruct (compute_throttle free_tier scale l f start total org s) as [[r s'] count]. cbn [fst] in Hr.
  pose proof (update_throttle_spec r count org) as Hu. destruct (update_throttle r count org) as [org' notice]. cbv zeta.
  destruct Hu as [-> Hn]. destruct Hr. by split_and!.
Qed.

(** ** Examples and witnesses *)

Definition works : Fate := {| lock_taken := false; dies_after := None; reply := Accepted; forgotten := false; rollback_fails := false |}.
Definition reply_lost : Fate := {| lock_taken := false; dies_after := None; reply := ReplyLost; forgotten := false; rollback_fails := false |}.
Definition no_meter : Meter := {| overage_units_reported := 0; overage_period_start := None; recorded := ∅ |}.

Definition works_late : Fate := {| lock_taken := false; dies_after := None; reply := Accepted; forgotten := true; rollback_fails := false |}.

(** Stripe must still know the identifier: when the reply is lost and the next report comes
    after the window, the units reported first are billed twice. *)
Example late_retry_overbills :
  let h := [((1, 10), reply_lost); ((1, 12), works_late)] in
  (total 1 (recorded (run_reports true h no_meter)), top h 1) = (22, 12).
Proof. by_compute. Qed.

(** The usage must grow: when it falls after a lost reply (a deleted project, a lowered cap)
    and grows again, the events between are billed twice. *)
Example shrinking_usage_overbills :
  total 1 (recorded (run_reports true [((1, 10), reply_lost); ((1, 5), works); ((1, 12), works)] no_meter)) = 17.
Proof. by_compute. Qed.

(** Reports must not overlap: a task that outlives its lock sends the delta of an old base
    after others have moved the counter past it. *)
Example stale_report_overbills :
  let a := base_of 1 no_meter in
  let s := _persist_overage 1 5 no_meter in
  let s := _report_overage true works 1 12 s in
  let s := _persist_overage 1 10 s in
  let s := (send Accepted false 1 a 10 s).1 in
  (total 1 (recorded s), overage_units_reported s) = (17, 12).
Proof. by_compute. Qed.

(** At the end of a band the rest of the budget is not tried on the next, cheaper tier. *)
Example rest_of_budget_unused :
  let l := [(Some 10, 15); (None, 10)] in
  (units_for_budget 10 l 16, cost_cents_for_units 10 l 11) = (10, 16).
Proof. by_compute. Qed.

Definition sample_sub : Subscription := {| no_throttle := false; plan_events := 1000; has_metered_item := true |}.
Definition sample_org : Organization :=
  {| event_throttle_rate := 0; metered_billing_enabled := true; overage_spend_cap_cents := 6000; has_customer := true;
     stripe_primary_subscription := Some sample_sub |}.
Definition sample_reports : reports := [((1, 3000), reply_lost); ((1, 500000), works); ((2, 10), works)].

Lemma sample_sorted : StronglySorted later sample_reports.
Proof. repeat constructor; unfold later; cbn [fst snd]; lia. Qed.

Lemma default_tiers_ok : schedule_ok 0 GLITCHTIP_OVERAGE_TIERS.
Proof. cbn. split_and!; (done || lia). Qed.

Lemma spend_cap_holds_witness :
  let billed := total 1 (recorded (run_throttle_checks 1000 1000 GLITCHTIP_OVERAGE_TIERS sample_reports sample_org no_meter).2) in
  billed <= top (reports_of 1000 GLITCHTIP_OVERAGE_TIERS sample_org sample_sub sample_reports) 1
  /\ cost_cents_for_units 1000 GLITCHTIP_OVERAGE_TIERS billed <= 6000.
Proof.
  apply (spend_cap_holds 1000 1000 GLITCHTIP_OVERAGE_TIERS sample_org sample_sub sample_reports no_meter 1).
  - apply default_tiers_ok.
  - lia.
  - cbn. lia.
  - done.
  - done.
  - apply sample_sorted.
  - by repeat constructor.
Defined.

Lemma overage_billed_exactly_witness :
  let h := [((1, 10), works); ((1, 25), works); ((2, 3), works)] in
  total 1 (recorded (run_reports true h no_meter)) = top h 1.
Proof.
  apply overage_billed_exactly; [done| |by repeat constructor]. split; repeat constructor; unfold later; cbn [fst snd]; lia.
Defined.

Lemma units_for_budget_spec_witness :
  let n := units_for_budget 1000 GLITCHTIP_OVERAGE_TIERS 7000 in
  price GLITCHTIP_OVERAGE_TIERS 0 n <= 7000 * 1000 /\ cost_cents_for_units 1000 GLITCHTIP_OVERAGE_TIERS n <= 7000
  /\ (whole_bands 1000 0 GLITCHTIP_OVERAGE_TIERS -> 7000 * 1000 < price GLITCHTIP_OVERAGE_TIERS 0 (n + 1)).
Proof. apply (units_for_budget_spec 1000 GLITCHTIP_OVERAGE_TIERS 7000); [lia|apply default_tiers_ok|lia]. Defined.

(** The schedule of the settings has whole bands. *)
Example default_tiers_whole : whole_bands 1000 0 GLITCHTIP_OVERAGE_TIERS.
Proof. cbn. split_and!; try lia; [by exists 6000|by exists 16000]. Qed.

Lemma throttle_check_spec_witness :
  let '(org', _, notice) := _check_and_update_throttle true 1000 1000 GLITCHTIP_OVERAGE_TIERS works (Some 1) 402001 sample_org no_meter in
  event_throttle_rate org' ∈ [0; 10; 50; 100]
  /\ match allowance 1000 1000 GLITCHTIP_OVERAGE_TIERS (Some 1) sample_org with
     | Some (a, w) => rate_spec (event_throttle_rate org') 402001 a w
     | None => event_throttle_rate org' = 0
     end
  /\ (is_Some notice <-> event_throttle_rate sample_org < event_throttle_rate org').
Proof.
  apply (throttle_check_spec 1000 1000 GLITCHTIP_OVERAGE_TIERS works (Some 1) 402001 sample_org no_meter); [lia|].
  intros sub [= <-]. cbn. lia.
Defined.
