(* ===== verification/EventAuth.v ===== *)
(** * Authentication of event ingest

    [apps/event_ingest/authentication.py], [sentry/utils/auth.py] and the stored procedure
    [get_project_auth_info]: the DSN key of a request, the block cache, the lookup of the
    project and the throttle.  The random draws, the lottery for a quota check and the
    seconds of a Retry-After (a float power) are parameters. *)
From S2P Require Import Prelude PyStr PyValue PartitionManager UrlValidation.

(** ** The DSN key of a request *)

(** [request.GET] in order, and the two headers. *)
Record Request := { project_id : option Z; GET : list (ustr * ustr); HTTP_AUTHORIZATION : option ustr; HTTP_X_SENTRY_AUTH : option ustr }.

(** [val.strip().split("=", 1)] *)
Definition _make_key_value (val : ustr) : option (ustr * ustr) :=
  match partition 61 (strip val) with (k, true, v) => Some (k, v) | _ => None end.

(** [dict] of the pairs; one that is no pair raises. *)
Fixpoint dict_of (l : list (option (ustr * ustr))) (d : adict ustr ustr) : option (adict ustr ustr) :=
  match l with
  | [] => Some d
  | Some (k, v) :: l => dict_of l (aset k v d)
  | None :: _ => None
  end.

Definition parse_auth_header (header : ustr) : adict ustr ustr :=
  match partition 32 header with
  | (_, true, rest) => default [] (dict_of (map _make_key_value (split_on 44 rest)) [])
  | _ => []
  end.

Definition is_key_param (k : ustr) : bool := ustr_eqb k (u "sentry_key") || ustr_eqb k (u "glitchtip_key").

(** [request.GET[k]]: the last value. *)
Definition last_value (k : ustr) (l : list (ustr * ustr)) : ustr :=
  default [] (snd <$> last (filter (fun kv => kv.1 = k) l)).

(** The key's text, [None] when a header has none; an error without any authentication. *)
Definition auth_from_request (r : Request) : option (option ustr) :=
  match find_first (fun kv => is_key_param kv.1) (GET r) with
  | Some (k, _) => Some (Some (last_value k (GET r)))
  | None =>
      let authorization := default [] (HTTP_AUTHORIZATION r) in
      if ustr_eqb (lower (take 7 authorization)) (u "bearer ") then Some (Some (strip (drop 7 authorization)))
      else
        match (match HTTP_X_SENTRY_AUTH r with Some h => Some h | None => HTTP_AUTHORIZATION r end) with
        | Some h =>
            if truthy h then
              let result := parse_auth_header h in
              Some (match aget (u "sentry_key") result with Some k => Some k | None => aget (u "glitchtip_key") result end)
            else None
        | None => None
        end
  end.

(** Digits of base 16 with single underscores between them. *)
Fixpoint hex_digits (after_digit : bool) (s : ustr) (acc : Z) : option Z :=
  match s with
  | [] => if after_digit then Some acc else None
  | c :: s =>
      if is_hex c then hex_digits true s (16 * acc + hex_value c)
      else if (c =? 95) && after_digit then hex_digits false s acc
      else None
  end.

(** [int(s, 16)] of an ASCII string. *)
Definition int16 (s : ustr) : option Z :=
  let s := strip s in
  let '(sign, s) := match s with 45 :: s => (-1, s) | 43 :: s => (1, s) | _ => (1, s) end in
  let s := match s with
           | 48 :: 120 :: 95 :: s => s | 48 :: 88 :: 95 :: s => s
           | 48 :: 120 :: s => s | 48 :: 88 :: s => s
           | _ => s
           end in
  Z.mul sign <$> hex_digits false s 0.

(** [UUID(text)], [None] for a [ValueError]. *)
Definition uuid_of (s : ustr) : option Z :=
  let hex := replace (u "uuid:") [] (replace (u "urn:") [] s) in
  let braces := one_of "{}" in
  let hex := replace (u "-") [] (rstrip_by braces (lstrip_by braces hex)) in
  if len hex =? 32 then
    match int16 hex with
    | Some n => if (0 <=? n) && (n <? 2 ^ 128) then Some n else None
    | None => None
    end
  else None.

(** ** Throttles *)

Definition serialize_throttle (org_throttle project_throttle : Z) : ustr :=
  u "t:" ++ str_of_Z org_throttle ++ u ":" ++ str_of_Z project_throttle.

(** [int(s)] of a string of digits. *)
Definition int_of (s : ustr) : option Z := if truthy s && forallb is_digit s then Some (digits_value s) else None.

(** [None] for a [ValueError]. *)
Definition deserialize_throttle (input : ustr) : option (option (Z * Z)) :=
  if ustr_eqb input (u "t") then Some (Some (0, 0))
  else if startswith (u "t:") input then
    match partition 58 (drop 2 input) with
    | (a, true, b) => match int_of a, int_of b with Some a, Some b => Some (Some (a, b)) | _, _ => None end
    | _ => Some None
    end
  else Some None.

(** ** The database *)

Record ProjectKey := { key_project : Z; is_active : bool }.
Record ProjectRow := { pr_scrub_ip : bool; pr_throttle : Z; pr_org : Z; pr_first_event : option Z; pr_scrub_config : value }.
Record OrgRow := { is_accepting_events_ : bool; org_throttle_rate : Z; org_scrub_ip : bool }.

Record Db := { db_projects : gmap Z ProjectRow; db_keys : gmap Z ProjectKey; db_orgs : gmap Z OrgRow }.

Record ProjectAuthInfo := {
  id : Z; scrub_ip_addresses : bool; event_throttle_rate : Z; organization_id : Z; org_is_accepting_events : bool;
  org_event_throttle_rate : Z; org_scrub_ip_addresses : bool; first_event : option Z; scrub_config : value }.

Definition should_scrub_ip_addresses (p : ProjectAuthInfo) : bool := scrub_ip_addresses p || org_scrub_ip_addresses p.

(** The join of a project and its organization. *)
Definition project_info (db : Db) (pid : Z) : option ProjectAuthInfo :=
  match db_projects db !! pid with
  | Some p =>
      match db_orgs db !! pr_org p with
      | Some o =>
          Some {| id := pid; scrub_ip_addresses := pr_scrub_ip p; event_throttle_rate := pr_throttle p; organization_id := pr_org p;
                  org_is_accepting_events := is_accepting_events_ o; org_event_throttle_rate := org_throttle_rate o;
                  org_scrub_ip_addresses := org_scrub_ip o; first_event := pr_first_event p; scrub_config := pr_scrub_config p |}
      | None => None
      end
  | None => None
  end.

(** The stored procedure: the project if the key is one of its keys. *)
Definition get_project_auth_info (db : Db) (pid sentry_key : Z) : option ProjectAuthInfo :=
  match db_keys db !! sentry_key with
  | Some k => if key_project k =? pid then project_info db pid else None
  | None => None
  end.

(** The replica is asked first, when there is one; its errors are ignored. *)
Definition get_project_auth_info_row (replica : option (res Db)) (db : Db) (pid sentry_key : Z) : option ProjectAuthInfo :=
  match replica with
  | Some (Ok r) => get_project_auth_info r pid sentry_key
  | _ => get_project_auth_info db pid sentry_key
  end.

(** ** Requests *)

Definition EVENT_BLOCK_CACHE_KEY : ustr := u "event_block".
Definition REJECTION_WAIT : Z := 30.

Definition block_cache_key (pid : Z) : ustr := EVENT_BLOCK_CACHE_KEY ++ str_of_Z pid.
Definition dsn_block_cache_key (pid key : Z) : ustr := block_cache_key pid ++ u ":" ++ uuid_str key.
Definition otlp_block_cache_key (key : Z) : ustr := EVENT_BLOCK_CACHE_KEY ++ u "otlp:" ++ uuid_str key.

(** Entries with the second at which they expire. *)
Abbreviation cache := (gmap ustr (ustr * Z)).

Definition cache_get (c : cache) (now : Z) (k : ustr) : option ustr :=
  match c !! k with Some (v, expires) => if now <? expires then Some v else None | None => None end.

Definition cache_set (c : cache) (now : Z) (k v : ustr) : cache := <[k := (v, now + REJECTION_WAIT)]> c.

Inductive Rejection := ValidationError | AuthenticationError | ThrottleException (retry_after : Z) | HttpError503 | ServerError.

(** What a request leaves: the cache, how many lookups and random draws were made, and the
    organizations whose quota is to be checked. *)
Record Auth := { auth_cache : cache; lookups : nat; drawn : nat; throttle_checks : list Z }.

Definition set_cache (c : cache) (s : Auth) : Auth :=
  {| auth_cache := c; lookups := lookups s; drawn := drawn s; throttle_checks := throttle_checks s |}.
Definition set_drawn (n : nat) (s : Auth) : Auth :=
  {| auth_cache := auth_cache s; lookups := lookups s; drawn := n; throttle_checks := throttle_checks s |}.
Definition add_lookup (s : Auth) : Auth :=
  {| auth_cache := auth_cache s; lookups := S (lookups s); drawn := drawn s; throttle_checks := throttle_checks s |}.
Definition add_check (org : Z) (s : Auth) : Auth :=
  {| auth_cache := auth_cache s; lookups := lookups s; drawn := drawn s; throttle_checks := throttle_checks s ++ [org] |}.

Section requests.
(** The [n]-th draw of [randint(0, 100)]; whether the [n]-th lottery for a quota check is
    won; the Retry-After of a rate. *)
Context (draw : nat -> Z) (lottery : nat -> bool) (calculate_retry_after : Z -> Z).
Context (BILLING_ENABLED MAINTENANCE_EVENT_FREEZE : bool) (replica : option (res Db)) (db : Db).

Definition is_accepting_events (throttle_rate : Z) (s : Auth) : bool * Auth :=
  if throttle_rate =? 0 then (true, s) else (throttle_rate <? draw (drawn s), set_drawn (S (drawn s)) s).

(** [is_accepting_events(a) and is_accepting_events(b)] *)
Definition both_accepting (a b : Z) (s : Auth) : bool * Auth :=
  let '(ok, s) := is_accepting_events a s in if (ok : bool) then is_accepting_events b s else (false, s).

(** The rest of both lookups: stopped and throttled projects. [stopped] is cached for a
    project that accepts nothing. *)
Definition check_throttle (now : Z) (key stopped : ustr) (p : ProjectAuthInfo) (s : Auth) : (ProjectAuthInfo + Rejection) * Auth :=
  let org := org_event_throttle_rate p in
  let project := event_throttle_rate p in
  if negb (org_is_accepting_events p) || (org =? 100) || (project =? 100) then
    (inr (ThrottleException 600), set_cache (cache_set (auth_cache s) now key stopped) s)
  else
    let throttled := negb (org =? 0) || negb (project =? 0) in
    let '(ok, s) :=
      if throttled then both_accepting org project (set_cache (cache_set (auth_cache s) now key (serialize_throttle org project)) s)
      else (true, s) in
    if (ok : bool) then
      (inl p, if BILLING_ENABLED && lottery (lookups s) then add_check (organization_id p) s else s)
    else (inr (ThrottleException (calculate_retry_after (Z.max org project))), s).

(** A cached throttle: [None] when the request goes on. *)
Definition cached_throttle (throttle : Z * Z) (s : Auth) : option Rejection * Auth :=
  let '(ok, s) := both_accepting throttle.1 throttle.2 s in
  ((if (ok : bool) then None else Some (ThrottleException (calculate_retry_after (Z.max throttle.1 throttle.2)))), s).

Definition get_project (now : Z) (r : Request) (s : Auth) : (ProjectAuthInfo + Rejection) * Auth :=
  match project_id r with
  | None => (inr ValidationError, s)
  | Some pid =>
      match auth_from_request r with
      | None => (inr AuthenticationError, s)
      | Some text =>
          match text ≫= uuid_of with
          | None => (inr ValidationError, s)
          | Some sentry_key =>
              let cached := cache_get (auth_cache s) now in
              let '(rejected, s) :=
                match cached (block_cache_key pid) with
                | Some block_value =>
                    if startswith (u "t") block_value then
                      match deserialize_throttle block_value with
                      | Some (Some throttle) => cached_throttle throttle s
                      | Some None => (None, s)
                      | None => (Some ServerError, s)
                      end
                    else (None, s)
                | None => (None, s)
                end in
              match rejected with
              | Some e => (inr e, s)
              | None =>
                  if bool_decide (cached (dsn_block_cache_key pid sentry_key) = Some (u "v")) then (inr AuthenticationError, s)
                  else
                    let s := add_lookup s in
                    match get_project_auth_info_row replica db pid sentry_key with
                    | None => (inr AuthenticationError, set_cache (cache_set (auth_cache s) now (dsn_block_cache_key pid sentry_key) (u "v")) s)
                    | Some p => check_throttle now (block_cache_key pid) (u "t") p s
                    end
              end
          end
      end
  end.

(** The active key's project. *)
Definition project_of_key (sentry_key : Z) : option ProjectAuthInfo :=
  match db_keys db !! sentry_key with
  | Some k => if is_active k then project_info db (key_project k) else None
  | None => None
  end.

Definition get_project_by_key (now : Z) (r : Request) (s : Auth) : (ProjectAuthInfo + Rejection) * Auth :=
  if MAINTENANCE_EVENT_FREEZE then (inr HttpError503, s) else
  match auth_from_request r with
  | None => (inr AuthenticationError, s)
  | Some text =>
      match text ≫= uuid_of with
      | None => (inr AuthenticationError, s)
      | Some sentry_key =>
          let key := otlp_block_cache_key sentry_key in
          let cached := cache_get (auth_cache s) now key in
          if bool_decide (cached = Some (u "v")) then (inr AuthenticationError, s)
          else
            let '(rejected, s) :=
              match cached with
              | Some v =>
                  match deserialize_throttle v with
                  | Some (Some throttle) => cached_throttle throttle s
                  | Some None => (None, s)
                  | None => (Some ServerError, s)
                  end
              | None => (None, s)
              end in
            match rejected with
            | Some e => (inr e, s)
            | None =>
                let s := add_lookup s in
                match project_of_key sentry_key with
                | None => (inr AuthenticationError, set_cache (cache_set (auth_cache s) now key (u "v")) s)
                | Some p => check_throttle now key (serialize_throttle 100 100) p s
                end
            end
      end
  end.

Definition event_auth (now : Z) (r : Request) (s : Auth) : (ProjectAuthInfo + Rejection) * Auth :=
  if MAINTENANCE_EVENT_FREEZE then (inr HttpError503, s) else get_project now r s.
End requests.

(** ** Texts *)

Lemma digits_go_digits fuel n acc : 0 <= n -> forallb is_digit acc = true -> forallb is_digit (digits_go fuel n acc) = true.
Proof.
  revert n acc. induction fuel as [|fuel IH]; intros n acc Hn Ha; [done|]. cbn [digits_go].
  assert (forallb is_digit ((48 + n mod 10) :: acc) = true) as H.
  { cbn [forallb]. rewrite Ha, andb_true_r. unfold is_digit, in_range. pose proof (Z.mod_pos_bound n 10). lia. }
  destruct (n <? 10); [done|]. apply IH; [by apply Z.div_pos|done].
Qed.

Lemma str_of_Z_digits n : 0 <= n -> forallb is_digit (str_of_Z n) = true.
Proof. intros Hn. unfold str_of_Z, str_of_nonneg. destruct (n <? 0) eqn:E; [lia|]. by apply digits_go_digits. Qed.

Lemma digits_go_nonempty fuel n acc : acc <> [] \/ fuel <> 0%nat -> digits_go fuel n acc <> [].
Proof.
  revert n acc. induction fuel as [|fuel IH]; intros n acc H; [by destruct H|]. cbn [digits_go]. destruct (n <? 10); [done|].
  apply IH. by left.
Qed.

Lemma str_of_Z_nonempty n : str_of_Z n <> [].
Proof.
  unfold str_of_Z, str_of_nonneg. destruct (n <? 0); [done|]. apply digits_go_nonempty. by right.
Qed.

Lemma partition_app c (a b : ustr) : c ∉ a -> partition c (a ++ c :: b) = (a, true, b).
Proof.
  induction a as [|x a IH]; intros H; simpl; [by rewrite Z.eqb_refl|].
  apply not_elem_of_cons in H as [H1 H2]. destruct (x =? c) eqn:E; [lia|]. by rewrite IH.
Qed.

Lemma str_no_char c n : 0 <= n -> is_digit c = false -> c ∉ str_of_Z n.
Proof. intros Hn Hc. apply digits_not; [by apply str_of_Z_digits|done]. Qed.

Lemma throttle_text a b : 0 <= a -> 0 <= b -> deserialize_throttle (serialize_throttle a b) = Some (Some (a, b)).
Proof.
  intros Ha Hb. unfold deserialize_throttle, serialize_throttle. cbn [app].
  assert (ustr_eqb (u "t:" ++ str_of_Z a ++ u ":" ++ str_of_Z b) (u "t") = false) as ->.
  { unfold ustr_eqb. apply bool_decide_eq_false. by intros [=]. }
  change (startswith (u "t:") (u "t:" ++ str_of_Z a ++ u ":" ++ str_of_Z b)) with true. cbn iota.
  change (drop 2 (u "t:" ++ str_of_Z a ++ u ":" ++ str_of_Z b)) with (str_of_Z a ++ 58 :: str_of_Z b).
  rewrite partition_app by (by apply str_no_char). unfold int_of.
  rewrite !str_of_Z_digits, !digits_value_str by done.
  pose proof (str_of_Z_nonempty a). pose proof (str_of_Z_nonempty b).
  by destruct (str_of_Z a), (str_of_Z b).
Qed.

(** *** UUIDs *)

Lemma length_hex w n : length (hex w n) = w.
Proof. revert n. induction w as [|w IH]; intros n; [done|]. cbn [hex]. rewrite length_app, IH. simpl. lia. Qed.

Lemma hex_inj w a b : hex w a = hex w b -> a mod 16 ^ Z.of_nat w = b mod 16 ^ Z.of_nat w.
Proof.
  revert a b. induction w as [|w IH]; intros a b H; [by rewrite !Z.mod_1_r|]. cbn [hex] in H.
  apply app_inj_1 in H as [H1 H2]; [|by rewrite !length_hex]. apply IH in H1. injection H2 as H2.
  pose proof (Z.mod_pos_bound a 16 ltac:(lia)). pose proof (Z.mod_pos_bound b 16 ltac:(lia)).
  assert (a mod 16 = b mod 16) as Hd by (destruct (a mod 16 <? 10) eqn:E1, (b mod 16 <? 10) eqn:E2; lia).
  rewrite Nat2Z.inj_succ, Z.pow_succ_r by lia.
  pose proof (Z.pow_pos_nonneg 16 (Z.of_nat w) ltac:(lia) ltac:(lia)).
  rewrite !Z.rem_mul_r by lia. by rewrite Hd, H1.
Qed.

Lemma div_step a b A B : 0 < A -> 0 < B -> a / (A * B) = b / (A * B) -> (a / A) mod B = (b / A) mod B -> a / A = b / A.
Proof.
  intros HA HB H1 H2. rewrite <- !Z.div_div in H1 by lia. rewrite (Z.div_mod (a / A) B), (Z.div_mod (b / A) B) by lia. by rewrite H1, H2.
Qed.

Lemma uuid_str_inj x y : 0 <= x < 2 ^ 128 -> 0 <= y < 2 ^ 128 -> uuid_str x = uuid_str y -> x = y.
Proof.
  intros Hx Hy H. unfold uuid_str in H. rewrite !Z.shiftr_div_pow2 in H by lia.
  apply app_inj_1 in H as [H1 H]; [|by rewrite !length_hex]. apply (app_inv_head (u "-")) in H.
  apply app_inj_1 in H as [H2 H]; [|by rewrite !length_hex]. apply (app_inv_head (u "-")) in H.
  apply app_inj_1 in H as [H3 H]; [|by rewrite !length_hex]. apply (app_inv_head (u "-")) in H.
  apply app_inj_1 in H as [H4 H5]; [|by rewrite !length_hex]. apply (app_inv_head (u "-")) in H5.
  apply hex_inj in H1, H2, H3, H4, H5.
  change (16 ^ Z.of_nat 8) with (2 ^ 32) in *. change (16 ^ Z.of_nat 4) with (2 ^ 16) in *. change (16 ^ Z.of_nat 12) with (2 ^ 48) in *.
  rewrite (Z.mod_small (x / 2 ^ 96)), (Z.mod_small (y / 2 ^ 96)) in H1
    by (split; [apply Z.div_pos; lia|apply Z.div_lt_upper_bound; lia]).
  assert (x / 2 ^ 80 = y / 2 ^ 80) as G2 by (by apply (div_step x y (2 ^ 80) (2 ^ 16))).
  assert (x / 2 ^ 64 = y / 2 ^ 64) as G3 by (by apply (div_step x y (2 ^ 64) (2 ^ 16))).
  assert (x / 2 ^ 48 = y / 2 ^ 48) as G4 by (by apply (div_step x y (2 ^ 48) (2 ^ 16))).
  rewrite (Z.div_mod x (2 ^ 48)), (Z.div_mod y (2 ^ 48)) by lia. by rewrite G4, H5.
Qed.

(** *** Cache keys *)

Lemma block_key_inj p q : 0 <= p -> 0 <= q -> block_cache_key p = block_cache_key q -> p = q.
Proof. intros Hp Hq H. apply app_inv_head in H. by apply str_of_Z_inj. Qed.

Lemma block_dsn_ne p q k : 0 <= p -> 0 <= q -> block_cache_key p <> dsn_block_cache_key q k.
Proof.
  intros Hp Hq H. unfold dsn_block_cache_key, block_cache_key in H. rewrite <- app_assoc in H. apply app_inv_head in H.
  apply (str_no_char 58 p); [done|done|]. rewrite H. apply elem_of_app. right. left.
Qed.

Lemma block_otlp_ne p k : 0 <= p -> block_cache_key p <> otlp_block_cache_key k.
Proof.
  intros Hp H. apply app_inv_head in H. apply (str_no_char 111 p); [done|done|]. rewrite H. left.
Qed.

Lemma dsn_otlp_ne p k k' : 0 <= p -> dsn_block_cache_key p k <> otlp_block_cache_key k'.
Proof.
  intros Hp H. unfold dsn_block_cache_key, block_cache_key in H. rewrite <- app_assoc in H. apply app_inv_head in H.
  pose proof (str_of_Z_digits p Hp) as Hd. pose proof (str_of_Z_nonempty p). destruct (str_of_Z p) as [|c s]; [done|].
  injection H as -> _. done.
Qed.

Lemma dsn_key_inj p q k k' :
  0 <= p -> 0 <= q -> 0 <= k < 2 ^ 128 -> 0 <= k' < 2 ^ 128 -> dsn_block_cache_key p k = dsn_block_cache_key q k' -> p = q /\ k = k'.
Proof.
  intros Hp Hq Hk Hk' H. unfold dsn_block_cache_key, block_cache_key in H. rewrite <- !app_assoc in H. apply app_inv_head in H.
  apply (f_equal (partition 58)) in H. cbn [app] in H. change (u ":" ++ uuid_str k) with (58 :: uuid_str k) in H.
  change (u ":" ++ uuid_str k') with (58 :: uuid_str k') in H.
  rewrite !partition_app in H by (by apply str_no_char). pose proof (f_equal (fun x => x.1.1) H) as H1. pose proof (f_equal snd H) as H2. cbn [fst snd] in H1, H2. clear H.
  split; [exact (str_of_Z_inj _ _ Hp Hq H1)|exact (uuid_str_inj _ _ Hk Hk' H2)].
Qed.

Lemma otlp_key_inj k k' : 0 <= k < 2 ^ 128 -> 0 <= k' < 2 ^ 128 -> otlp_block_cache_key k = otlp_block_cache_key k' -> k = k'.
Proof. intros Hk Hk' H. apply app_inv_head, app_inv_head in H. exact (uuid_str_inj _ _ Hk Hk' H). Qed.

Lemma uuid_of_range s k : uuid_of s = Some k -> 0 <= k < 2 ^ 128.
Proof. unfold uuid_of. intros H. repeat case_match; simplify_eq. lia. Qed.

(** ** The block cache *)

(** Something of the project or its organization holds events back. *)
Definition hindered (p : ProjectAuthInfo) : bool :=
  negb (org_is_accepting_events p) || negb (org_event_throttle_rate p =? 0) || negb (event_throttle_rate p =? 0).

Definition throttle_value (v : ustr) : Prop := v = u "t" \/ exists a b, 0 <= a /\ 0 <= b /\ v = serialize_throttle a b.

Definition key_range (k : Z) : Prop := 0 <= k < 2 ^ 128.

(** What an entry says holds of the database. *)
Inductive entry_ok (db : Db) : ustr -> ustr -> Prop :=
| entry_block pid p v :
    0 <= pid -> project_info db pid = Some p -> hindered p = true -> throttle_value v -> entry_ok db (block_cache_key pid) v
| entry_dsn pid k :
    0 <= pid -> key_range k -> get_project_auth_info db pid k = None -> entry_ok db (dsn_block_cache_key pid k) (u "v")
| entry_unknown k : key_range k -> project_of_key db k = None -> entry_ok db (otlp_block_cache_key k) (u "v")
| entry_otlp k p v :
    key_range k -> project_of_key db k = Some p -> hindered p = true -> throttle_value v -> entry_ok db (otlp_block_cache_key k) v.

Definition cache_ok (db : Db) (c : cache) : Prop := forall k v expires, c !! k = Some (v, expires) -> entry_ok db k v.

Lemma cache_get_ok db c now k v : cache_ok db c -> cache_get c now k = Some v -> entry_ok db k v.
Proof.
  unfold cache_get. intros Hc H. destruct (c !! k) as [[v' e]|] eqn:E; [|done]. destruct (now <? e); [|done]. simplify_eq. by eapply Hc.
Qed.

Lemma cache_set_ok db c now k v : cache_ok db c -> entry_ok db k v -> cache_ok db (cache_set c now k v).
Proof. unfold cache_set. intros Hc He k' v' e [[<- [= <- <-]]|[_ H]]%lookup_insert_Some; [done|by eapply Hc]. Qed.

Lemma entry_ok_block db pid v :
  0 <= pid -> entry_ok db (block_cache_key pid) v -> exists p, project_info db pid = Some p /\ hindered p = true /\ throttle_value v.
Proof.
  intros Hp H. remember (block_cache_key pid) as key eqn:E. destruct H as [q p v Hq Hi Hh Hv|q k Hq|k|k p v].
  - apply block_key_inj in E as ->; [eauto|done|done].
  - symmetry in E. by apply block_dsn_ne in E.
  - symmetry in E. by apply block_otlp_ne in E.
  - symmetry in E. by apply block_otlp_ne in E.
Qed.

Lemma entry_ok_dsn db pid k v :
  0 <= pid -> key_range k -> entry_ok db (dsn_block_cache_key pid k) v -> get_project_auth_info db pid k = None.
Proof.
  intros Hp Hk H. remember (dsn_block_cache_key pid k) as key eqn:E. destruct H as [q p v Hq Hi Hh Hv|q k' Hq Hk' Hn|k'|k' p v].
  - by apply block_dsn_ne in E.
  - apply dsn_key_inj in E as [-> ->]; done.
  - symmetry in E. by apply dsn_otlp_ne in E.
  - symmetry in E. by apply dsn_otlp_ne in E.
Qed.

Lemma entry_ok_otlp db k v :
  key_range k -> entry_ok db (otlp_block_cache_key k) v ->
  (v = u "v" /\ project_of_key db k = None) \/ (exists p, project_of_key db k = Some p /\ hindered p = true /\ throttle_value v).
Proof.
  intros Hk H. remember (otlp_block_cache_key k) as key eqn:E. destruct H as [q p v Hq|q k' Hq|k' Hk' Hn|k' p v Hk' Hp Hh Hv].
  - by apply block_otlp_ne in E.
  - by apply dsn_otlp_ne in E.
  - apply otlp_key_inj in E as ->; [by left|done|done].
  - apply otlp_key_inj in E as ->; [right; eauto|done|done].
Qed.

Lemma throttle_value_read v :
  throttle_value v -> exists t, deserialize_throttle v = Some (Some t) /\ bool_decide (v = u "v") = false.
Proof.
  intros [->|(a & b & Ha & Hb & ->)]; [by exists (0, 0)|]. exists (a, b). rewrite throttle_text by done. split; [done|].
  apply bool_decide_eq_false. by intros [=].
Qed.

Section blocks.
Context (draw : nat -> Z) (lottery : nat -> bool) (calculate_retry_after : Z -> Z).
Context (BILLING_ENABLED MAINTENANCE_EVENT_FREEZE : bool) (replica : option (res Db)) (db : Db).
(** Throttle rates are not negative; the replica, when it answers, agrees with the primary. *)
Context (Hrates : forall pid p, project_info db pid = Some p -> 0 <= org_event_throttle_rate p /\ 0 <= event_throttle_rate p).
Context (Hreplica : forall r pid k, replica = Some (Ok r) -> get_project_auth_info r pid k = get_project_auth_info db pid k).

Abbreviation get_project := (get_project draw lottery calculate_retry_after BILLING_ENABLED replica db).
Abbreviation get_project_by_key := (get_project_by_key draw lottery calculate_retry_after BILLING_ENABLED MAINTENANCE_EVENT_FREEZE db).
Abbreviation check_throttle := (check_throttle draw lottery calculate_retry_after BILLING_ENABLED).
Abbreviation cached_throttle := (cached_throttle draw calculate_retry_after).

Lemma row_eq pid k : get_project_auth_info_row replica db pid k = get_project_auth_info db pid k.
Proof. unfold get_project_auth_info_row. destruct replica as [[r|e]|] eqn:E; [|done..]. by apply Hreplica. Qed.

Lemma both_accepting_cache a b s : auth_cache (both_accepting draw a b s).2 = auth_cache s.
Proof. unfold both_accepting, is_accepting_events. by repeat case_match; simplify_eq. Qed.

Lemma both_accepting_true a b s :
  (both_accepting draw a b s).1 = true -> (a <> 0 -> exists n, a < draw n) /\ (b <> 0 -> exists n, b < draw n).
Proof.
  unfold both_accepting, is_accepting_events. intros H.
  destruct (a =? 0) eqn:Ea, (b =? 0) eqn:Eb; cbn [fst snd] in H; bool_split; try (destruct (a <? draw (drawn s)) eqn:E1; [|done]);
    cbn [fst] in H; bool_split; split; intros ?; (lia || eauto).
Qed.

Lemma cached_throttle_ok t s :
  auth_cache (cached_throttle t s).2 = auth_cache s /\ (cached_throttle t s).1 <> Some ServerError.
Proof.
  unfold EventAuth.cached_throttle. pose proof (both_accepting_cache t.1 t.2 s) as H. destruct (both_accepting _ _ _ _) as [ok s'].
  split; [done|]. by destruct ok.
Qed.

Lemma check_throttle_ok now key stopped p s :
  cache_ok db (auth_cache s) -> (hindered p = true -> entry_ok db key stopped) ->
  (hindered p = true -> entry_ok db key (serialize_throttle (org_event_throttle_rate p) (event_throttle_rate p))) ->
  cache_ok db (auth_cache (check_throttle now key stopped p s).2) /\ (check_throttle now key stopped p s).1 <> inr ServerError.
Proof.
  intros Hc Hs Ht. unfold EventAuth.check_throttle. destruct (negb (org_is_accepting_events p) || _ || _) eqn:E1.
  - cbn [fst snd set_cache auth_cache]. split; [|done]. apply cache_set_ok; [done|]. apply Hs. unfold hindered. lia.
  - destruct (negb (org_event_throttle_rate p =? 0) || negb (event_throttle_rate p =? 0)) eqn:E2.
    + set (s1 := set_cache _ s). assert (cache_ok db (auth_cache s1)) as H1.
      { apply cache_set_ok; [done|]. apply Ht. unfold hindered. lia. }
      pose proof (both_accepting_cache (org_event_throttle_rate p) (event_throttle_rate p) s1) as Hb.
      destruct (both_accepting _ _ _ s1) as [ok s2]. cbn [snd] in Hb. rewrite <- Hb in H1. destruct ok; [|done].
      cbn [fst snd]. split; [by destruct (_ && _)|done].
    + cbn [fst snd]. split; [by destruct (_ && _)|done].
Qed.

Lemma block_entry pid p : 0 <= pid -> project_info db pid = Some p -> hindered p = true ->
  entry_ok db (block_cache_key pid) (u "t")
  /\ entry_ok db (block_cache_key pid) (serialize_throttle (org_event_throttle_rate p) (event_throttle_rate p)).
Proof.
  intros Hp Hi Hh. destruct (Hrates _ _ Hi). split; econstructor; eauto; [by left|right; eauto].
Qed.

(** The keys in the path are not negative. *)
Definition valid_request (r : Request) : Prop := forall pid, project_id r = Some pid -> 0 <= pid.

Lemma info_of_key pid k p : get_project_auth_info db pid k = Some p -> project_info db pid = Some p.
Proof. unfold get_project_auth_info. intros H. by repeat case_match. Qed.

Lemma get_project_ok now r s :
  valid_request r -> cache_ok db (auth_cache s) ->
  cache_ok db (auth_cache (get_project now r s).2) /\ (get_project now r s).1 <> inr ServerError.
Proof.
  intros Hv Hc. unfold EventAuth.get_project. destruct (project_id r) as [pid|] eqn:Epid; [|done]. specialize (Hv pid Epid).
  destruct (auth_from_request r) as [text|]; [|done]. destruct (text ≫= uuid_of) as [key|] eqn:Ekey; [|done].
  assert (key_range key) as Hk by (destruct text; [by eapply uuid_of_range|done]). cbv zeta.
  set (first := match cache_get (auth_cache s) now (block_cache_key pid) with Some _ => _ | None => _ end).
  assert (exists rej s1, first = (rej, s1) /\ auth_cache s1 = auth_cache s /\ rej <> Some ServerError) as (rej & s1 & -> & Hc1 & Hrej).
  { subst first. destruct (cache_get (auth_cache s) now (block_cache_key pid)) as [v|] eqn:Ev; [|by eexists _, _].
    apply (cache_get_ok db) in Ev; [|done]. apply entry_ok_block in Ev as (p & _ & _ & Hval); [|done].
    destruct (throttle_value_read v Hval) as (t & -> & _). destruct (startswith (u "t") v); [|by eexists _, _].
    destruct (cached_throttle_ok t s) as [H1 H2]. destruct (cached_throttle t s) as [rej s1]. by exists rej, s1. }
  destruct rej as [e|]; cbv beta iota; [split; cbn [fst snd]; [by rewrite Hc1|by intros [= ->]]|].
  case_bool_decide; [split; cbn [fst snd]; [by rewrite Hc1|done]|]. rewrite row_eq.
  destruct (get_project_auth_info db pid key) as [p|] eqn:Ep.
  - pose proof (info_of_key _ _ _ Ep) as Hi. apply check_throttle_ok; [by cbn; rewrite Hc1| |]; intros Hh; by destruct (block_entry pid p).
  - cbn [fst snd set_cache auth_cache add_lookup]. split; [|done]. apply cache_set_ok; [by cbn; rewrite Hc1|]. by constructor.
Qed.

Lemma get_project_by_key_ok now r s :
  cache_ok db (auth_cache s) ->
  cache_ok db (auth_cache (get_project_by_key now r s).2) /\ (get_project_by_key now r s).1 <> inr ServerError.
Proof.
  intros Hc. unfold EventAuth.get_project_by_key. destruct MAINTENANCE_EVENT_FREEZE; [done|].
  destruct (auth_from_request r) as [text|]; [|done]. destruct (text ≫= uuid_of) as [key|] eqn:Ekey; [|done].
  assert (key_range key) as Hk by (destruct text; [by eapply uuid_of_range|done]). cbv zeta.
  case_bool_decide as Hbv; [done|].
  set (first := match cache_get (auth_cache s) now (otlp_block_cache_key key) with Some _ => _ | None => _ end).
  assert (exists rej s1, first = (rej, s1) /\ auth_cache s1 = auth_cache s /\ rej <> Some ServerError) as (rej & s1 & -> & Hc1 & Hrej).
  { subst first. destruct (cache_get (auth_cache s) now (otlp_block_cache_key key)) as [v|] eqn:Ev; [|by eexists _, _].
    apply (cache_get_ok db) in Ev; [|done]. apply entry_ok_otlp in Ev as [[-> _]|(p & _ & _ & Hval)]; [done| |done].
    destruct (throttle_value_read v Hval) as (t & -> & _).
    destruct (cached_throttle_ok t s) as [H1 H2]. destruct (cached_throttle t s) as [rej s1]. by exists rej, s1. }
  destruct rej as [e|]; cbv beta iota; [split; cbn [fst snd]; [by rewrite Hc1|by intros [= ->]]|].
  destruct (project_of_key db key) as [p|] eqn:Ep.
  - assert (exists pid, project_info db pid = Some p) as [pid Hi] by (unfold project_of_key in Ep; repeat case_match; simplify_eq; eauto).
    destruct (Hrates _ _ Hi). apply check_throttle_ok; [by cbn; rewrite Hc1| |]; intros Hh; eapply entry_otlp; eauto; right; eexists _, _;
      split_and!; [| |done| | |done]; lia.
  - cbn [fst snd set_cache auth_cache add_lookup]. split; [|done]. apply cache_set_ok; [by cbn; rewrite Hc1|]. by constructor.
Qed.
End blocks.

(** Requests by anyone, at any time, with any draws. *)
Inductive request (replica : option (res Db)) (db : Db) : Auth -> Auth -> Prop :=
| request_project draw lottery ra billing now r s :
    valid_request r -> request replica db s (get_project draw lottery ra billing replica db now r s).2
| request_key draw lottery ra billing freeze now r s :
    request replica db s (get_project_by_key draw lottery ra billing freeze db now r s).2.

Definition fresh_auth : Auth := {| auth_cache := ∅; lookups := 0; drawn := 0; throttle_checks := [] |}.

Definition rates_ok (db : Db) : Prop := forall pid p, project_info db pid = Some p -> 0 <= org_event_throttle_rate p /\ 0 <= event_throttle_rate p.
Definition replica_ok (replica : option (res Db)) (db : Db) : Prop :=
  forall r pid k, replica = Some (Ok r) -> get_project_auth_info r pid k = get_project_auth_info db pid k.

Lemma reachable_cache_ok replica db s : rates_ok db -> replica_ok replica db -> rtc (request replica db) fresh_auth s -> cache_ok db (auth_cache s).
Proof.
  intros Hr Hp Hs. assert (cache_ok db (auth_cache fresh_auth)) as H0 by (intros k v e H; cbn [fresh_auth auth_cache] in H; by rewrite lookup_empty in H).
  remember fresh_auth as s0. clear Heqs0. induction Hs as [s|s s1 s2 Hstep _ IH]; [done|]. apply IH. clear IH.
  destruct Hstep; [by apply get_project_ok|by apply get_project_by_key_ok].
Qed.

(** A request is accepted with a row of the database found by its own key. *)
Lemma event_auth_row replica db s draw lottery ra billing freeze now r p :
  replica_ok replica db -> (event_auth draw lottery ra billing freeze replica db now r s).1 = inl p ->
  exists pid text key, project_id r = Some pid /\ auth_from_request r = Some (Some text) /\ uuid_of text = Some key
    /\ get_project_auth_info db pid key = Some p.
Proof.
  intros Hp H. unfold event_auth in H. destruct freeze; [done|]. unfold get_project in H. destruct (project_id r) as [pid|]; [|done].
  destruct (auth_from_request r) as [[text|]|]; [|done..]. cbn [mbind option_bind] in H. destruct (uuid_of text) as [key|] eqn:Ekey; [|done].
  cbv zeta in H. set (first := match cache_get _ _ (block_cache_key pid) with Some _ => _ | None => _ end) in H.
  destruct first as [[e|] s1]; [done|]. destruct (bool_decide _); [done|]. rewrite (row_eq replica db Hp) in H.
  destruct (get_project_auth_info db pid key) as [p'|] eqn:Erow; [|done]. exists pid, text, key. do 3 (split; [done|]).
  unfold check_throttle in H. destruct (negb (org_is_accepting_events p') || _ || _); [done|].
  destruct (negb (org_event_throttle_rate p' =? 0) || _); [|by simplify_eq/=].
  destruct (both_accepting _ _ _ _) as [[] s3]; by simplify_eq/=.
Qed.

(** Only the maintenance freeze answers with 503. *)
Lemma get_project_not_503 replica db s draw lottery ra billing now r :
  (get_project draw lottery ra billing replica db now r s).1 <> inr HttpError503.
Proof.
  unfold get_project. destruct (project_id r) as [pid|]; [|done]. destruct (auth_from_request r) as [text|]; [|done].
  destruct (text ≫= uuid_of) as [key|]; [|done]. cbv zeta. set (first := match cache_get _ _ (block_cache_key pid) with Some _ => _ | None => _ end).
  assert (first.1 <> Some HttpError503) as Hf.
  { subst first. destruct (cache_get _ _ _) as [v|]; [|done]. destruct (startswith _ _); [|done].
    destruct (deserialize_throttle v) as [[t|]|]; [|done..]. unfold cached_throttle. by destruct (both_accepting _ _ _ s) as [[] s1]. }
  destruct first as [[e|] s1]; cbn [fst] in *; [congruence|]. destruct (bool_decide _); [done|].
  destruct (get_project_auth_info_row _ _ _ _) as [p|]; [|done]. unfold check_throttle. destruct (_ || _); [done|]. destruct (_ || _); [|done].
  by destruct (both_accepting _ _ _ _) as [[] s2].
Qed.

(** ** Properties *)

(** No request, from whatever state other requests left the cache in, ends in a server
    error: cached throttles always read back. *)
Theorem requests_never_fail replica db s draw lottery ra billing freeze now r :
  rates_ok db -> replica_ok replica db -> rtc (request replica db) fresh_auth s -> valid_request r ->
  (event_auth draw lottery ra billing freeze replica db now r s).1 <> inr ServerError
  /\ (get_project_by_key draw lottery ra billing freeze db now r s).1 <> inr ServerError.
Proof.
  intros Hr Hp Hs Hv. apply reachable_cache_ok in Hs; [|done..]. split; [|by apply get_project_by_key_ok].
  unfold event_auth. destruct freeze; [done|]. by apply get_project_ok.
Qed.

(** C4: A key of a project that nothing holds back is always accepted: no sequence of other
    requests, with bad keys, other projects or throttled ones, can lock it out. *)
Theorem valid_key_never_locked_out replica db s draw lottery ra billing now r pid text key p :
  rates_ok db -> replica_ok replica db -> rtc (request replica db) fresh_auth s ->
  project_id r = Some pid -> 0 <= pid -> auth_from_request r = Some (Some text) -> uuid_of text = Some key ->
  get_project_auth_info db pid key = Some p -> hindered p = false ->
  (get_project draw lottery ra billing replica db now r s).1 = inl p.
Proof.
  intros Hr Hp Hs Epid Hpid Eauth Ekey Erow Hh. apply reachable_cache_ok in Hs; [|done..].
  pose proof (info_of_key db pid key p Erow) as Hi. unfold get_project. rewrite Epid, Eauth. cbn [mbind option_bind]. rewrite Ekey. cbv zeta.
  destruct (cache_get (auth_cache s) now (block_cache_key pid)) as [v|] eqn:Ev.
  { apply (cache_get_ok db) in Ev; [|done]. apply entry_ok_block in Ev as (p' & Hi' & Hh' & _); [|done]. congruence. }
  rewrite bool_decide_false.
  2: { intros Ed. apply (cache_get_ok db) in Ed; [|done]. apply entry_ok_dsn in Ed; [congruence|done|by eapply uuid_of_range]. }
  rewrite (row_eq replica db Hp), Erow. unfold check_throttle. unfold hindered in Hh.
  replace (negb (org_is_accepting_events p) || (org_event_throttle_rate p =? 100) || (event_throttle_rate p =? 100)) with false by lia.
  by replace (negb (org_event_throttle_rate p =? 0) || negb (event_throttle_rate p =? 0)) with false by lia.
Qed.

(** What is accepted is authentic: the key belongs to the project of the path, whose data
    are those of the database; its organization takes events, no rate is 100, and the draws
    lie above the rates. *)
Theorem accepted_is_authentic replica db s draw lottery ra billing now r p :
  replica_ok replica db -> (get_project draw lottery ra billing replica db now r s).1 = inl p ->
  exists pid text key, project_id r = Some pid /\ auth_from_request r = Some (Some text) /\ uuid_of text = Some key
    /\ get_project_auth_info db pid key = Some p /\ org_is_accepting_events p = true
    /\ org_event_throttle_rate p <> 100 /\ event_throttle_rate p <> 100
    /\ (org_event_throttle_rate p <> 0 -> exists n, org_event_throttle_rate p < draw n)
    /\ (event_throttle_rate p <> 0 -> exists n, event_throttle_rate p < draw n).
Proof.
  intros Hp H. unfold get_project in H. destruct (project_id r) as [pid|]; [|done].
  destruct (auth_from_request r) as [[text|]|]; [|done..]. cbn [mbind option_bind] in H. destruct (uuid_of text) as [key|] eqn:Ekey; [|done].
  cbv zeta in H. set (first := match cache_get _ _ (block_cache_key pid) with Some _ => _ | None => _ end) in H.
  destruct first as [[e|] s1]; [done|]. destruct (bool_decide _); [done|]. rewrite (row_eq replica db Hp) in H.
  destruct (get_project_auth_info db pid key) as [p'|] eqn:Erow; [|done]. exists pid, text, key.
  unfold check_throttle in H. destruct (negb (org_is_accepting_events p') || _ || _) eqn:E1; [done|].
  destruct (negb (org_event_throttle_rate p' =? 0) || negb (event_throttle_rate p' =? 0)) eqn:E2.
  - set (s2 := set_cache _ _) in H. pose proof (both_accepting_true draw (org_event_throttle_rate p') (event_throttle_rate p') s2) as Hb.
    destruct (both_accepting _ _ _ s2) as [ok s3]. destruct ok; [|done]. injection H as <-. destruct (Hb eq_refl).
    split_and!; (done || lia).
  - injection H as <-. split_and!; (done || lia).
Qed.

(** A throttle survives the cache: any two rates read back as they were written. *)
Theorem throttle_roundtrip a b : 0 <= a -> 0 <= b -> deserialize_throttle (serialize_throttle a b) = Some (Some (a, b)).
Proof. apply throttle_text. Qed.

Lemma throttle_roundtrip_witness : deserialize_throttle (serialize_throttle 30 0) = Some (Some (30, 0)).
Proof. apply throttle_roundtrip; lia. Defined.

(** ** Examples and witnesses *)

Definition sample_key : ustr := u "0123456789abcdef0123456789abcdef".
Definition sample_uuid : Z := 1512366075204170929049582354406559215.

Definition sample_db (rate : Z) (active : bool) : Db :=
  {| db_projects := {[5 := {| pr_scrub_ip := true; pr_throttle := 0; pr_org := 2; pr_first_event := None; pr_scrub_config := VNone |}]};
     db_keys := {[sample_uuid := {| key_project := 5; is_active := active |}]};
     db_orgs := {[2 := {| is_accepting_events_ := true; org_throttle_rate := rate; org_scrub_ip := false |}]} |}.

Definition sample_request (key : ustr) : Request :=
  {| project_id := Some 5; GET := [(u "sentry_version", u "7"); (u "sentry_key", key)]; HTTP_AUTHORIZATION := None; HTTP_X_SENTRY_AUTH := None |}.

Definition never (n : nat) : bool := false.

Example auth_texts :
  map auth_from_request
    [{| project_id := None; GET := []; HTTP_AUTHORIZATION := Some (u "Bearer  abc "); HTTP_X_SENTRY_AUTH := None |};
     {| project_id := None; GET := []; HTTP_AUTHORIZATION := None; HTTP_X_SENTRY_AUTH := Some (u "Sentry sentry_version=7, sentry_key=k, x=1=2") |};
     {| project_id := None; GET := []; HTTP_AUTHORIZATION := None; HTTP_X_SENTRY_AUTH := Some (u "Sentry sentry_key=k,oops") |};
     {| project_id := None; GET := []; HTTP_AUTHORIZATION := None; HTTP_X_SENTRY_AUTH := None |}]
  = [Some (Some (u "abc")); Some (Some (u "k")); Some None; None].
Proof. by_compute. Qed.

(** A deactivated key still authenticates envelopes; the native OTLP endpoint refuses it. *)
Example inactive_key_accepted :
  let r := sample_request sample_key in
  let db := sample_db 0 false in
  match (get_project (fun _ => 0) never (fun x => x) false None db 0 r fresh_auth).1 with inl p => id p =? 5 | inr _ => false end = true
  /\ (get_project_by_key (fun _ => 0) never (fun x => x) false false db 0 r fresh_auth).1 = inr AuthenticationError.
Proof. vm_compute. split; reflexivity. Qed.

(** The block of a stopped project blocks nothing: each request looks it up again. *)
Example stopped_project_looked_up_again :
  let r := sample_request sample_key in
  let db := sample_db 100 true in
  let again s := (get_project (fun _ => 0) never (fun x => x) false None db 1 r s).2 in
  let again_key s := (get_project_by_key (fun _ => 0) never (fun x => x) false false db 1 r s).2 in
  (lookups (again (again fresh_auth)), lookups (again_key (again_key fresh_auth))) = (2%nat, 1%nat).
Proof. by_compute. Qed.

(** A throttle is drawn twice once it is cached: at a rate of 50 percent, of the 101 * 101
    pairs of draws a quarter is accepted. *)
Example throttle_drawn_twice :
  let r := sample_request sample_key in
  let db := sample_db 50 true in
  let cached := (get_project (fun _ => 0) never (fun x => x) false None db 0 r fresh_auth).2 in
  let accepted a b :=
    match (get_project (fun n => if bool_decide (n = 1%nat) then a else b) never (fun x => x) false None db 1 r cached).1 with
    | inl _ => true | inr _ => false end in
  (map (fun ab => accepted ab.1 ab.2) [(50, 100); (51, 50); (51, 51); (100, 0)], drawn cached) = ([false; false; true; false], 1%nat).
Proof. by_compute. Qed.

Lemma sample_rates rate active : 0 <= rate -> rates_ok (sample_db rate active).
Proof.
  intros Hr pid p H. unfold project_info, sample_db in H. cbn [db_projects db_orgs] in H.
  destruct (decide (pid = 5)) as [->|Hne].
  - rewrite lookup_singleton_eq in H. cbn [pr_org] in H. rewrite lookup_singleton_eq in H. injection H as <-. cbn. lia.
  - by rewrite lookup_singleton_ne in H.
Qed.

Lemma no_replica db : replica_ok None db.
Proof. by intros r pid k H. Qed.

(** The state after a request with a bad key. *)
Definition after_bad_key : Auth :=
  (get_project (fun _ => 0) never (fun x => x) false None (sample_db 0 true) 0 (sample_request (u "00000000000000000000000000000000")) fresh_auth).2.

Lemma after_bad_key_reachable : rtc (request None (sample_db 0 true)) fresh_auth after_bad_key.
Proof. apply rtc_once, request_project. intros pid [= <-]. done. Qed.

Lemma requests_never_fail_witness :
  let r := sample_request sample_key in
  (event_auth (fun _ => 0) never (fun x => x) false false None (sample_db 0 true) 1 r after_bad_key).1 <> inr ServerError
  /\ (get_project_by_key (fun _ => 0) never (fun x => x) false false (sample_db 0 true) 1 r after_bad_key).1 <> inr ServerError.
Proof.
  apply (requests_never_fail None (sample_db 0 true) after_bad_key); [by apply sample_rates|apply no_replica|apply after_bad_key_reachable|].
  intros pid [= <-]. done.
Defined.

Lemma valid_key_never_locked_out_witness :
  exists p, id p = 5 /\ (get_project (fun _ => 0) never (fun x => x) false None (sample_db 0 true) 1 (sample_request sample_key) after_bad_key).1 = inl p.
Proof.
  eexists. split; [|eapply (valid_key_never_locked_out None (sample_db 0 true) after_bad_key (fun _ => 0) never (fun x => x) false 1 (sample_request sample_key) 5 sample_key sample_uuid);
    [by apply sample_rates|apply no_replica|apply after_bad_key_reachable|done|done|by_compute|by_compute|by_compute|done]]. done.
Defined.

Lemma accepted_is_authentic_witness :
  exists p, (get_project (fun _ => 99) never (fun x => x) false None (sample_db 30 true) 1 (sample_request sample_key) fresh_auth).1 = inl p
  /\ exists pid text key, project_id (sample_request sample_key) = Some pid /\ auth_from_request (sample_request sample_key) = Some (Some text)
    /\ uuid_of text = Some key /\ get_project_auth_info (sample_db 30 true) pid key = Some p /\ org_is_accepting_events p = true
    /\ org_event_throttle_rate p <> 100 /\ event_throttle_rate p <> 100
    /\ (org_event_throttle_rate p <> 0 -> exists n : nat, org_event_throttle_rate p < 99)
    /\ (event_throttle_rate p <> 0 -> exists n : nat, event_throttle_rate p < 99).
Proof.
  set (p := {| id := 5; scrub_ip_addresses := true; event_throttle_rate := 0; organization_id := 2; org_is_accepting_events := true;
               org_event_throttle_rate := 30; org_scrub_ip_addresses := false; first_event := None; scrub_config := VNone |}).
  exists p. split; [by_compute|].
  apply (accepted_is_authentic None (sample_db 30 true) fresh_auth (fun _ => 99) never (fun x => x) false 1 (sample_request sample_key) p (no_replica _)).
  by_compute.
Defined.
