(* ===== verification/Alerts.v ===== *)
(** * Issue alerts

    [apps/alerts/tasks.py], the sending of [apps/alerts/models.py] and the part of
    [process_issue_events] that notes the issues of a batch for it: which issues of a
    project's alert reached their number of events in the time span, who was notified of
    them before, and what is sent. *)
From S2P Require Import Prelude PyStr PyDate PartitionManager.

(** ** Data *)

(** An alert with the organization of its project. *)
Record ProjectAlert := { a_id : Z; a_project : Z; a_org : Z; timespan_minutes : option Z; quantity : option Z }.
#[global] Instance ProjectAlert_eq_dec : EqDecision ProjectAlert.
Proof. solve_decision. Defined.

Record Notification := { n_id : Z; n_alert : Z; n_issues : list Z }.

Record IssueEvent := { e_id : Z; e_issue : Z; e_org : Z }.

(** [recent] is the set of issue ids in Valkey, [None] without Valkey; [sending] holds the
    enqueued calls of [send_notification], [next_pk] is the sequence of notifications. *)
Record Store := {
  issues : gmap Z Z; events : list IssueEvent; alerts : list ProjectAlert; notifications : list Notification; next_pk : Z;
  sending : list Z; recent : option (list Z) }.

(** ** Ingest *)

(** The notification holds one of the issues. *)
Definition touches (reopened : list Z) (n : Notification) : bool := existsb (fun i => bool_decide (i ∈ reopened)) (n_issues n).

(** The end of [process_issue_events]: the issues of the batch are noted, the notifications
    of the ones it reopens are deleted, the events stored. *)
Definition note_events (evs : list IssueEvent) (reopened : list Z) (s : Store) : Store :=
  {| issues := issues s; events := events s ++ evs; alerts := alerts s;
     notifications := filter (fun n => touches reopened n = false) (notifications s); next_pk := next_pk s; sending := sending s;
     recent := match recent s with Some l => Some (remove_dups (l ++ map e_issue evs)) | None => None end |}.

(** ** The periodic task *)

(** [Count("issueevent")] over the filtered join. *)
Definition num_events (s : Store) (a : ProjectAlert) (start_uuid issue : Z) : Z :=
  len (filter (fun e => e_issue e = issue /\ e_org e = a_org a /\ start_uuid <= e_id e) (events s)).

(** [notification__project_alert=alert] *)
Definition notified (s : Store) (a : ProjectAlert) (issue : Z) : bool :=
  existsb (fun n => (n_alert n =? a_id a) && bool_decide (issue ∈ n_issues n)) (notifications s).

Definition due_issue (s : Store) (a : ProjectAlert) (start_uuid quantity : Z) (issue_ids : list Z) (kv : Z * Z) : bool :=
  (kv.2 =? a_project a) && negb (notified s a kv.1)
  && (1 <=? num_events s a start_uuid kv.1) && (quantity <=? num_events s a start_uuid kv.1)
  && (bool_decide (issue_ids = []) || bool_decide (kv.1 ∈ issue_ids)).

(** The query of one alert. *)
Definition issue_id_list (now : Z) (issue_ids : list Z) (s : Store) (a : ProjectAlert) : list Z :=
  match timespan_minutes a, quantity a with
  | Some minutes, Some quantity =>
      let start_uuid := uuid7_for_timestamp (now - minutes * MINUTE) true in
      map fst (filter (fun kv => due_issue s a start_uuid quantity issue_ids kv = true) (map_to_list (issues s)))
  | _, _ => []
  end.

(** The ids of new notifications are drawn in order. *)
Definition notify (ids : list Z) (a : ProjectAlert) (s : Store) : Store :=
  match ids with
  | [] => s
  | _ =>
      let pk := next_pk s in
      {| issues := issues s; events := events s; alerts := alerts s;
         notifications := notifications s ++ [{| n_id := pk; n_alert := a_id a; n_issues := ids |}]; next_pk := pk + 1;
         sending := sending s ++ [pk]; recent := recent s |}
  end.

Definition has_recent_issue (s : Store) (issue_ids : list Z) (a : ProjectAlert) : bool :=
  existsb (fun i => bool_decide (issues s !! i = Some (a_project a))) issue_ids.

Definition configured (a : ProjectAlert) : bool := bool_decide (quantity a <> None) && bool_decide (timespan_minutes a <> None).

(** The alerts of the run: configured ones, of projects with a noted issue. *)
Definition selected_alerts (s : Store) (issue_ids : list Z) : list ProjectAlert :=
  let project_alerts := filter (fun a => configured a = true) (alerts s) in
  match issue_ids with
  | [] => project_alerts
  | _ => filter (fun a => has_recent_issue s issue_ids a = true) project_alerts
  end.

(** The atomic read and delete of the set of noted issues. *)
Definition drain (s : Store) : Store :=
  {| issues := issues s; events := events s; alerts := alerts s; notifications := notifications s; next_pk := next_pk s;
     sending := sending s; recent := match recent s with Some _ => Some [] | None => None end |}.

Definition process_event_alerts (now : Z) (s : Store) : Store :=
  match recent s with
  | Some [] => drain s
  | _ =>
      let issue_ids := default [] (recent s) in
      foldl (fun s a => notify (issue_id_list now issue_ids s a) a s) (drain s) (selected_alerts s issue_ids)
  end.

(** ** Sending *)

(** One of the configured recipients, or a mail to the project's team when there is none. *)
Inductive Target := Recipient (n : Z) | DefaultEmail.

Section sending.
(** Whether a mail or a web hook gets through. *)
Context (delivers : Target -> bool).

(** What is delivered and the new [is_sent]: the exceptions of recipients are collected and
    dropped, the one of the default mail leaves before the flag is set. *)
Definition send_notifications (recipients : list Z) (is_sent : bool) : list Target * bool :=
  match recipients with
  | [] => if delivers DefaultEmail then ([DefaultEmail], true) else ([], is_sent)
  | _ => (filter (fun t => delivers t = true) (map Recipient recipients), true)
  end.
End sending.

(** ** The invariant *)

(** The issues an alert has notified, over all its notifications. *)
Definition notified_issues (s : Store) (a : Z) : list Z := concat (map n_issues (filter (fun n => n_alert n = a) (notifications s))).

(** No alert has notified an issue twice; every notification drawn from the sequence was
    handed to the sending task once, and those of the table are among them. *)
Definition store_ok (s : Store) : Prop :=
  (forall a, NoDup (notified_issues s a)) /\ 1 <= next_pk s /\ sending s = seqZ 1 (next_pk s - 1)
  /\ sublist (map n_id (notifications s)) (sending s).

(** What the ingest, Valkey (the set expires after an hour) and the task do to the store. *)
Inductive step := SNote (evs : list IssueEvent) (reopened : list Z) | SExpire | SAlerts (now : Z).

Definition do_step (s : Store) (st : step) : Store :=
  match st with
  | SNote evs reopened => note_events evs reopened s
  | SExpire => drain s
  | SAlerts now => process_event_alerts now s
  end.

(** An issue of the alert's project with enough events in the time span, among the noted ones. *)
Definition reached (now : Z) (s : Store) (a : ProjectAlert) (i : Z) : Prop :=
  exists minutes q, timespan_minutes a = Some minutes /\ quantity a = Some q /\ issues s !! i = Some (a_project a)
    /\ Z.max 1 q <= num_events s a (uuid7_for_timestamp (now - minutes * MINUTE) true) i
    /\ match recent s with Some l => i ∈ l | None => True end.

(** ** Lemmas *)

Lemma notified_spec s a i : notified s a i = true <-> i ∈ notified_issues s (a_id a).
Proof.
  unfold notified, notified_issues. rewrite existsb_exists, list_elem_of_In, in_concat. split.
  - intros (n & Hn & [Ha Hi]%andb_true_iff). exists (n_issues n). split; [|by apply list_elem_of_In; apply bool_decide_eq_true in Hi].
    apply in_map, list_elem_of_In, list_elem_of_filter. split; [by apply Z.eqb_eq|by apply list_elem_of_In].
  - intros (l & (n & <- & [Ha Hn]%list_elem_of_In%list_elem_of_filter)%in_map_iff & Hi). exists n.
    split; [by apply list_elem_of_In|]. apply andb_true_iff. split; [by apply Z.eqb_eq|by apply bool_decide_eq_true, list_elem_of_In].
Qed.

Lemma issue_id_list_NoDup now ids s a : NoDup (issue_id_list now ids s a).
Proof.
  unfold issue_id_list. destruct (timespan_minutes a), (quantity a); [|constructor..].
  apply (sublist_NoDup _ (map_to_list (issues s)).*1); [apply NoDup_fst_map_to_list|].
  apply fmap_sublist, sublist_filter.
Qed.

(** The query keeps the issues that reached the alert's number and were not notified. *)
Lemma issue_id_list_spec now s a i :
  recent s <> Some [] ->
  i ∈ issue_id_list now (default [] (recent s)) s a <-> reached now s a i /\ i ∉ notified_issues s (a_id a).
Proof.
  intros Hr. unfold issue_id_list, reached. destruct (timespan_minutes a) as [minutes|], (quantity a) as [q|].
  2-4: split; [by intros ?%elem_of_nil|by intros [(? & ? & ? & ? & _) _]].
  set (uuid := uuid7_for_timestamp _ _). rewrite <- notified_spec, list_elem_of_fmap. unfold due_issue. split.
  - intros ([k p] & -> & [H Hin]%list_elem_of_filter). apply elem_of_map_to_list in Hin. cbn [fst snd] in *.
    apply andb_true_iff in H as [H Hids%orb_true_iff]. bool_split.
    split; [|congruence]. exists minutes, q. repeat split; try congruence; [fold uuid; lia|].
    destruct (recent s) as [l|]; [|done]. cbn in Hids. by destruct Hids as [->%bool_decide_eq_true|?%bool_decide_eq_true].
  - intros [(? & ? & [= <-] & [= <-] & Hp & Hq & Hi) Hn]. fold uuid in Hq. exists (i, a_project a). split; [done|].
    apply list_elem_of_filter. split; [|by apply elem_of_map_to_list]. cbn [fst snd]. apply not_true_iff_false in Hn. rewrite Hn.
    repeat (apply andb_true_iff; split); [by apply Z.eqb_eq|done|lia|lia|]. apply orb_true_iff.
    destruct (recent s); [right|left]; by apply bool_decide_eq_true.
Qed.

Lemma notified_issues_notify ids a s b :
  notified_issues (notify ids a s) b = notified_issues s b ++ (if decide (a_id a = b) then ids else []).
Proof.
  unfold notified_issues, notify. destruct ids as [|i ids]; [by destruct (decide _); rewrite app_nil_r|].
  cbn [notifications]. rewrite filter_app, map_app, concat_app. f_equal. rewrite filter_cons, filter_nil. cbn [n_alert].
  destruct (decide _); cbn; by rewrite ?app_nil_r.
Qed.

Lemma notify_ok ids a s : NoDup ids -> (forall i, i ∈ ids -> i ∉ notified_issues s (a_id a)) -> store_ok s -> store_ok (notify ids a s).
Proof.
  intros Hnd Hnew (Hs & Hpk & Hsend & Hsub). split.
  - intros b. rewrite notified_issues_notify. destruct (decide (a_id a = b)) as [<-|]; [|by rewrite app_nil_r].
    apply NoDup_app. split_and!; [done| |done]. intros i Hi Hi'. by apply (Hnew i).
  - unfold notify. destruct ids as [|k ids]; [done|]. cbn [notifications sending next_pk]. split_and!; [lia| |].
    + rewrite Hsend. replace (next_pk s + 1 - 1) with (next_pk s - 1 + 1) by lia. rewrite seqZ_app by lia. f_equal. unfold seqZ. simpl. f_equal; lia.
    + rewrite map_app. by apply sublist_app.
Qed.

Lemma notify_frame ids a s :
  issues (notify ids a s) = issues s /\ events (notify ids a s) = events s /\ alerts (notify ids a s) = alerts s
  /\ recent (notify ids a s) = recent s.
Proof. by destruct ids. Qed.

(** One alert's turn in the task. *)
Section turns.
Context (now : Z) (l : option (list Z)).
Notation ids := (default [] l).
Notation turn := (fun s a => notify (issue_id_list now ids s a) a s).

Lemma issue_id_list_new s a i : i ∈ issue_id_list now ids s a -> i ∉ notified_issues s (a_id a).
Proof.
  unfold issue_id_list. destruct (timespan_minutes a), (quantity a); try by intros ?%elem_of_nil.
  intros ([k p] & -> & [H _]%list_elem_of_filter)%list_elem_of_fmap. rewrite <- notified_spec.
  unfold due_issue in H. bool_split; congruence.
Qed.

Lemma turns_ok als s : store_ok s -> store_ok (foldl turn s als).
Proof.
  revert s. induction als as [|a als IH]; intros s Hs; [done|]. apply IH, notify_ok; [apply issue_id_list_NoDup|apply issue_id_list_new|done].
Qed.

Lemma turns_frame als s :
  issues (foldl turn s als) = issues s /\ events (foldl turn s als) = events s /\ alerts (foldl turn s als) = alerts s
  /\ recent (foldl turn s als) = recent s.
Proof.
  revert s. induction als as [|a als IH]; intros s; [done|]. cbn [foldl].
  destruct (IH (turn s a)) as (-> & -> & -> & ->). apply notify_frame.
Qed.

(** Only an alert's own turn adds to what it notified, and the query of an alert depends on
    no other alert's notifications. *)
Lemma turns_other als s a : (forall b, b ∈ als -> a_id b <> a_id a) -> notified_issues (foldl turn s als) (a_id a) = notified_issues s (a_id a).
Proof.
  revert s. induction als as [|b als IH]; intros s H; [done|]. cbn [foldl]. rewrite IH by (intros; apply H; by right).
  rewrite notified_issues_notify, decide_False by (apply H; by left). by rewrite app_nil_r.
Qed.

Lemma issue_id_list_other x s a b : a_id b <> a_id a -> issue_id_list now ids (notify x b s) a = issue_id_list now ids s a.
Proof.
  intros Hne. assert (Hn : forall i, notified (notify x b s) a i = notified s a i).
  { intros i. apply eq_true_iff_eq. rewrite !notified_spec, notified_issues_notify, decide_False by done. by rewrite app_nil_r. }
  unfold issue_id_list. destruct (timespan_minutes a), (quantity a); try done.
  destruct (notify_frame x b s) as (-> & Hev & _ & _). f_equal. apply list_filter_iff. intros kv.
  unfold due_issue, num_events. by rewrite Hn, Hev.
Qed.

Lemma turns_notified als s a :
  NoDup (map a_id als) -> a ∈ als ->
  notified_issues (foldl turn s als) (a_id a) = notified_issues s (a_id a) ++ issue_id_list now ids s a.
Proof.
  revert s. induction als as [|b als IH]; intros s Hnd Ha; [by apply elem_of_nil in Ha|].
  apply NoDup_cons in Hnd as [Hb Hnd]. assert (Hne : forall c, c ∈ als -> a_id c <> a_id b).
  { intros c Hc E. apply Hb. rewrite <- E. by apply list_elem_of_fmap_2. }
  apply elem_of_cons in Ha as [->|Ha]; cbn [foldl].
  - rewrite turns_other by done. by rewrite notified_issues_notify, decide_True.
  - rewrite IH by done. pose proof (Hne a Ha). rewrite issue_id_list_other, notified_issues_notify, decide_False by done.
    by rewrite app_nil_r.
Qed.
End turns.

(** Deleting notifications leaves the rest in order. *)
Lemma note_events_ok evs reopened s : store_ok s -> store_ok (note_events evs reopened s).
Proof.
  intros (Hs & Hpk & Hsend & Hsub). split_and!; [|done|done|].
  - intros a. eapply sublist_NoDup; [exact (Hs a)|]. unfold notified_issues. cbn [note_events notifications].
    clear Hsub. induction (notifications s) as [|n l IH]; [done|]. rewrite (filter_cons (fun n => touches reopened n = false)).
    destruct (decide (touches reopened n = false)); rewrite !filter_cons; destruct (decide (n_alert n = a)); cbn [map concat]; try exact IH.
    + apply sublist_app; [reflexivity|exact IH].
    + by apply sublist_inserts_l.
  - etrans; [|exact Hsub]. cbn [note_events notifications]. apply fmap_sublist, sublist_filter.
Qed.

Lemma turns_keep now l als s n :
  n ∈ notifications s -> n ∈ notifications (foldl (fun s a => notify (issue_id_list now l s a) a s) s als).
Proof.
  revert s. induction als as [|a als IH]; intros s Hn; [done|]. apply IH. destruct (issue_id_list now l s a); [done|].
  cbn [notify notifications]. apply elem_of_app. by left.
Qed.

(** Only a reopening of one of its issues takes a notification from the table. *)
Lemma step_keeps st s n :
  n ∈ notifications s ->
  n ∈ notifications (do_step s st) \/ exists evs reopened, st = SNote evs reopened /\ touches reopened n = true.
Proof.
  intros Hn. destruct st as [evs reopened| |now]; cbn [do_step]; [|by left|left].
  - destruct (touches reopened n) eqn:E; [right; by exists evs, reopened|left]. by apply list_elem_of_filter.
  - unfold process_event_alerts. destruct (recent s) as [[|i l]|]; [done| |]; by apply turns_keep.
Qed.

Lemma process_event_alerts_ok now s : store_ok s -> store_ok (process_event_alerts now s).
Proof. intros Hs. unfold process_event_alerts. destruct (recent s) as [[|i l]|]; [done| |]; by apply turns_ok. Qed.

Lemma selected_spec s a : a ∈ selected_alerts s (default [] (recent s)) -> a ∈ alerts s.
Proof.
  unfold selected_alerts. destruct (default [] (recent s)); [by intros [_ H]%list_elem_of_filter|].
  by intros [_ [_ H]%list_elem_of_filter]%list_elem_of_filter.
Qed.

Lemma selected_NoDup s l : NoDup (map a_id (alerts s)) -> NoDup (map a_id (selected_alerts s l)).
Proof.
  intros H. unfold selected_alerts. eapply sublist_NoDup; [exact H|]. apply fmap_sublist.
  destruct l; [|etrans; [apply sublist_filter|]]; apply sublist_filter.
Qed.

(** The selection drops no alert that has something to notify. *)
Lemma reached_selected now s a i : a ∈ alerts s -> reached now s a i -> a ∈ selected_alerts s (default [] (recent s)).
Proof.
  intros Ha (m & q & Hm & Hq & Hi & _ & Hl). unfold selected_alerts.
  assert (Hc : a ∈ filter (fun a => configured a = true) (alerts s)).
  { apply list_elem_of_filter. split; [|done]. unfold configured. rewrite Hm, Hq. by rewrite !bool_decide_eq_true_2. }
  destruct (recent s) as [[|j l]|]; cbn [default]; try done. apply list_elem_of_filter. split; [|done].
  apply existsb_exists. exists i. split; [by apply list_elem_of_In|by apply bool_decide_eq_true].
Qed.

(** ** Theorems *)

(** C38: In whatever order batches are ingested and reopen issues, the Valkey set expires and
    the periodic task runs: the notifications in the table never hold an issue twice for
    one alert, every notification gets a fresh id and is handed to the sending task exactly
    once, and a notification leaves the table only when a batch reopens one of its issues.
    So an alert notifies of an issue again only after the notification was deleted by a
    reopening, of that issue or of another one in the same notification. *)
Theorem no_issue_notified_twice (steps : list step) (s : Store) :
  store_ok s ->
  store_ok (foldl do_step s steps)
  /\ forall n, n ∈ notifications s ->
       n ∈ notifications (foldl do_step s steps)
       \/ exists evs reopened i, SNote evs reopened ∈ steps /\ i ∈ n_issues n /\ i ∈ reopened.
Proof.
  revert s. induction steps as [|st steps IH]; intros s Hs; [split; [done|by left]|]. cbn [foldl].
  destruct (IH (do_step s st)) as [H1 H2].
  { destruct st; [by apply note_events_ok|exact Hs|by apply process_event_alerts_ok]. }
  split; [done|]. intros n Hn. destruct (step_keeps st s n Hn) as [Hn'|(evs & reopened & -> & Ht)].
  - destruct (H2 n Hn') as [?|(evs & reopened & i & ? & ?)]; [by left|right]. exists evs, reopened, i. split; [by right|done].
  - right. unfold touches in Ht. apply existsb_exists in Ht as (i & Hi%list_elem_of_In & Hr%bool_decide_eq_true).
    exists evs, reopened, i. split; [by left|done].
Qed.

(** C9: A run of the task notifies for every alert exactly the issues of its project that have at
    least its number of events in its time span and that it was not notified of before; with
    Valkey these are the ones noted since the last run, whose set the run empties. *)
Theorem alerts_notify_reached (now : Z) (s : Store) (a : ProjectAlert) (i : Z) :
  NoDup (map a_id (alerts s)) -> a ∈ alerts s ->
  let s' := process_event_alerts now s in
  (i ∈ notified_issues s' (a_id a) <-> i ∈ notified_issues s (a_id a) \/ reached now s a i)
  /\ recent s' = match recent s with Some _ => Some [] | None => None end.
Proof.
  intros Hnd Ha s'. subst s'. unfold process_event_alerts. destruct (decide (recent s = Some [])) as [E|E].
  { rewrite E. split; [|cbn; by rewrite E]. change (notified_issues (drain s)) with (notified_issues s). unfold reached. rewrite E. split; [by left|].
    intros [?|(? & ? & _ & _ & _ & _ & H)]; [done|by apply elem_of_nil in H]. }
  set (turn := fun s0 a0 => _). set (als := selected_alerts s _).
  assert (Hrun : notified_issues (foldl turn (drain s) als) (a_id a) = notified_issues s (a_id a) ++ issue_id_list now (default [] (recent s)) s a).
  { destruct (decide (a ∈ als)) as [Hs|Hs].
    - exact (turns_notified now (recent s) als (drain s) a (selected_NoDup s _ Hnd) Hs).
    - unfold turn. rewrite turns_other. 2: intros b Hb Hab; apply Hs; rewrite (nodup_map_inj a_id (alerts s) a b); eauto using selected_spec.
      rewrite (elem_of_nil_inv (issue_id_list _ _ _ _)); [by rewrite app_nil_r|]. intros j [Hj _]%issue_id_list_spec; [|done].
      by apply Hs, (reached_selected now s a j). }
  assert (Hrec : recent (foldl turn (drain s) als) = recent (drain s)) by apply turns_frame.
  replace (match recent s with Some [] => _ | _ => _ end) with (foldl turn (drain s) als) by by destruct (recent s) as [[]|].
  split; [|exact Hrec]. rewrite Hrun, elem_of_app, issue_id_list_spec by done.
  destruct (decide (i ∈ notified_issues s (a_id a))); tauto.
Qed.

(** ** Witnesses *)

(** 2024-01-01T00:00:00Z. *)
Definition new_year : Z := 1704067200 * 1000000.

(** Two issues of project 1 with two events and one event a minute ago, and an alert on two
    events in five minutes. *)
Definition sample_alert : ProjectAlert :=
  {| a_id := 1; a_project := 1; a_org := 1; timespan_minutes := Some 5; quantity := Some 2 |}.
Definition sample_events : list IssueEvent :=
  let e (k i : Z) := {| e_id := uuid7_for_timestamp (new_year - MINUTE) true + k; e_issue := i; e_org := 1 |} in [e 0 7; e 1 7; e 2 8].
Definition sample_store : Store :=
  {| issues := {[7 := 1; 8 := 1]}; events := []; alerts := [sample_alert]; notifications := []; next_pk := 1; sending := []; recent := Some [] |}.

Lemma sample_store_ok : store_ok sample_store.
Proof. split_and!; [intros a; constructor|done|done|done]. Qed.

Lemma no_issue_notified_twice_witness :
  let steps := [SNote sample_events []; SAlerts new_year; SNote sample_events []; SAlerts new_year] in
  let s := foldl do_step sample_store steps in
  store_ok s /\ notified_issues s 1 = [7; 8] /\ sending s = [1; 2].
Proof.
  intros steps s. split; [exact (proj1 (no_issue_notified_twice steps sample_store sample_store_ok))|]. vm_compute. split; reflexivity.
Defined.

(** Issues 7 and 8 are notified together; when 7 reopens, the notification of both is gone,
    and 8, which was never resolved, is notified again. *)
Example neighbour_notified_again :
  let both := sample_events ++ sample_events in
  let s1 := foldl do_step sample_store [SNote both []; SAlerts new_year] in
  let s2 := foldl do_step s1 [SNote sample_events [7]; SAlerts new_year] in
  (map n_issues (notifications s1), map (fun n => (n_id n, n_issues n)) (notifications s2)) = ([[7; 8]], [(2, [7; 8])]).
Proof. by_compute. Qed.

Lemma alerts_notify_reached_witness :
  let s := note_events sample_events [] sample_store in
  (7 ∈ notified_issues (process_event_alerts new_year s) 1 <-> 7 ∈ notified_issues s 1 \/ reached new_year s sample_alert 7)
  /\ recent (process_event_alerts new_year s) = Some [] /\ notified_issues (process_event_alerts new_year s) 1 = [7].
Proof.
  intros s. destruct (alerts_notify_reached new_year s sample_alert 7) as [H1 H2].
  - apply NoDup_singleton.
  - by left.
  - split; [exact H1|]. split; [exact H2|]. vm_compute. reflexivity.
Defined.

(** A notification of which nothing was delivered counts as sent. *)
Example sent_without_delivery : send_notifications (fun _ => false) [1; 2] false = ([], true).
Proof. reflexivity. Qed.
