(* ===== verification/Logs.v ===== *)
(** * Logs

    The log items of [apps/event_ingest/schema.py] (the attributes of the SDKs and of
    OpenTelemetry flattened into one dictionary), the native OTLP records of
    [apps/event_ingest/otlp.py] and the task that stores them, [apps/logs/process_logs.py]:
    the rows, the hourly statistics and the names of services, environments and hosts. *)
From S2P Require Import Prelude PyStr PyValue PyFloat PyDate PiiScrubber Statistics PartitionManager UrlValidation EventAuth.

(** ** Log items *)

(** The number a Python value equals, if it equals an integer. *)
Definition as_int (v : value) : option Z :=
  match v with
  | VBool b => Some (if b then 1 else 0)
  | VInt n => Some n
  | VFloat m e => if 0 <=? e then Some (Z.shiftl m e) else if m mod 2 ^ (- e) =? 0 then Some (m / 2 ^ (- e)) else None
  | _ => None
  end.

Definition _OTEL_SEVERITY_TO_LEVEL : list (Z * Z * ustr) :=
  [(1, 5, u "trace"); (5, 9, u "debug"); (9, 13, u "info"); (13, 17, u "warn"); (17, 21, u "error"); (21, 25, u "fatal")].

(** [x in range(lo, hi)] *)
Definition in_level_range (v : value) (r : Z * Z * ustr) : option ustr :=
  match as_int v with Some n => if (r.1.1 <=? n) && (n <? r.1.2) then Some r.2 else None | None => None end.

Definition _otel_severity_to_level (severity_number severity_text : value) : res ustr :=
  match first_some (in_level_range severity_number) _OTEL_SEVERITY_TO_LEVEL with
  | Some level => Ok level
  | None =>
      if vtruthy severity_text then match severity_text with VStr s => Ok (lower s) | _ => Raise AttributeError end
      else Ok (u "info")
  end.

Definition ANY_VALUE_KEYS : list ustr :=
  map u ["string_value"; "int_value"; "double_value"; "bool_value"; "stringValue"; "intValue"; "doubleValue"; "boolValue"]%string.

Definition _extract_otel_value (val : value) : value :=
  match val with
  | VDict d => default val (first_some (fun suffix => dlookup (KStr suffix) d) ANY_VALUE_KEYS)
  | _ => val
  end.

(** Decimal ASCII digits with single underscores between them. *)
Fixpoint decimal (after_digit : bool) (s : ustr) (acc : Z) : option Z :=
  match s with
  | [] => if after_digit then Some acc else None
  | c :: s =>
      if is_digit c then decimal true s (10 * acc + (c - 48))
      else if (c =? 95) && after_digit then decimal false s acc
      else None
  end.

(** [int(v)]: text is read in base ten, a float loses its fraction. *)
Definition py_int (v : value) : res Z :=
  match v with
  | VBool b => Ok (if b then 1 else 0)
  | VInt n => Ok n
  | VFloat m e => Ok (if 0 <=? e then Z.shiftl m e else Z.quot m (2 ^ (- e)))
  | VStr s =>
      let s := strip s in
      let '(sign, s) := match s with 45 :: s => (-1, s) | 43 :: s => (1, s) | _ => (1, s) end in
      match decimal false s 0 with Some n => Ok (sign * n) | None => Raise ValueError end
  | _ => Raise TypeError
  end.

(** [n / 1e9], both rounded to doubles, in ticks of 2^-80. *)
Definition nanos_to_seconds (n : Z) : value :=
  let seconds n := to_double (to_double (n * 2 ^ 80) 1) 1000000000 in
  VFloat (if n <? 0 then - seconds (- n) else seconds n) (- 80).

(** [d.get(k1) or d.get(k2) or ... or last] *)
Fixpoint get_or (ks : list string) (last : value) (d : pydict) : value :=
  match ks with [] => last | k :: ks => vor (dget_none k d) (get_or ks last d) end.

(** [d.get(k1) or d.get(k2)] *)
Definition get_either (k1 k2 : string) (d : pydict) : value := vor (dget_none k1 d) (dget_none k2 d).

(** [attributes[key] = ...]: lists and dictionaries are no keys. The log item refuses keys
    that are not text; keys that are neither text nor a number are refused here already. *)
Definition attribute_key (v : value) : res dkey :=
  match v with
  | VStr s => Ok (KStr s)
  | VInt n => Ok (KInt n)
  | VBool b => Ok (KInt (if b then 1 else 0))
  | VNone | VFloat _ _ => Raise ValueError
  | VList _ | VTuple _ | VDict _ => Raise TypeError
  end.

Definition typed_attribute (v : value) : value :=
  VDict [(KStr (u "value"), _extract_otel_value v); (KStr (u "type"), VStr (u "string"))].

(** The loop over a list of attributes. *)
Fixpoint attributes_of_list (l : list value) (acc : pydict) : res pydict :=
  match l with
  | [] => Ok acc
  | VDict a :: l =>
      match dlookup (KStr (u "key")) a with
      | Some k => let* k := attribute_key k in attributes_of_list l (dset k (typed_attribute (dget_none "value" a)) acc)
      | None => attributes_of_list l acc
      end
  | _ :: l => attributes_of_list l acc
  end.

Definition otel_attributes (v : value) : res pydict :=
  match v with
  | VList l => attributes_of_list l []
  | VDict d => Ok (foldl (fun acc kv => dset kv.1 (typed_attribute kv.2) acc) [] d)
  | _ => Ok []
  end.

Section items.
(** [str(v)] of floats and containers. *)
Context (py_repr : value -> ustr).

Definition otel_log_to_log_item (otel : pydict) : res pydict :=
  let time_unix_nano :=
    get_or ["time_unix_nano"; "timeUnixNano"; "observed_time_unix_nano"; "observedTimeUnixNano"]%string (VStr (u "0")) otel in
  let* nanos := py_int time_unix_nano in
  let raw_body := dget "body" (VStr []) otel in
  let body := match raw_body with VDict _ => _extract_otel_value raw_body | _ => VStr (py_str py_repr raw_body) end in
  let severity_number := get_either "severity_number" "severityNumber" otel in
  let severity_number :=
    match severity_number with
    | VStr s => match int_of s with Some n => VInt n | None => VNone end
    | v => v
    end in
  let severity_text := get_either "severity_text" "severityText" otel in
  let* level := _otel_severity_to_level severity_number severity_text in
  let trace_id := get_either "trace_id" "traceId" otel in
  let span_id := get_either "span_id" "spanId" otel in
  let* attributes := otel_attributes (vor (dget_none "attributes" otel) (VList [])) in
  Ok [(KStr (u "timestamp"), nanos_to_seconds nanos); (KStr (u "level"), VStr level); (KStr (u "body"), body);
      (KStr (u "trace_id"), trace_id); (KStr (u "span_id"), span_id); (KStr (u "severity_number"), severity_number);
      (KStr (u "attributes"), VDict attributes)].

(** [LogItemSchema._ATTRIBUTE_FIELD_MAP] *)
Definition _ATTRIBUTE_FIELD_MAP : list (ustr * ustr) :=
  [(u "sentry.service", u "service"); (u "service.name", u "service"); (u "sentry.environment", u "environment");
   (u "deployment.environment.name", u "environment"); (u "host.name", u "host");
   (u "sentry.severity_number", u "severity_number")].

Definition _ATTRIBUTE_SKIP : list ustr := [u "sentry.severity_text"; u "sentry.message.template"].

Definition plain_value (attr_val : value) : value :=
  match attr_val with VDict d => default attr_val (dlookup (KStr (u "value")) d) | _ => attr_val end.

Definition field_of (k : dkey) : option ustr :=
  match k with
  | KStr s => first_some (fun kf => if ustr_eqb s kf.1 then Some kf.2 else None) _ATTRIBUTE_FIELD_MAP
  | KInt _ => None
  end.

Definition skipped (k : dkey) : bool := match k with KStr s => existsb (ustr_eqb s) _ATTRIBUTE_SKIP | KInt _ => false end.

(** One turn of the loop over the attributes. *)
Definition promote (values : pydict) (attr : dkey * value) : pydict :=
  match field_of attr.1 with
  | Some field_name =>
      if vtruthy (default VNone (dlookup (KStr field_name) values)) then values
      else dset (KStr field_name) (plain_value attr.2) values
  | None => if skipped attr.1 then values else dset attr.1 (plain_value attr.2) values
  end.

Definition dremove (k : dkey) (d : pydict) : pydict := filter (fun kv => kv.1 <> k) d.

(** [datetime.fromisoformat(text).timestamp()], [None] for a [ValueError]. *)
Context (fromisoformat_timestamp : ustr -> option value).

Definition normalize_attributes (values : pydict) : pydict :=
  let values :=
    match dlookup (KStr (u "timestamp")) values with
    | Some (VStr ts) =>
        match fromisoformat_timestamp (replace (u "Z") (u "+00:00") ts) with
        | Some t => dset (KStr (u "timestamp")) t values
        | None => values
        end
    | _ => values
    end in
  let attributes := default VNone (dlookup (KStr (u "attributes")) values) in
  let values := dremove (KStr (u "attributes")) values in
  match attributes with VDict d => foldl promote values d | _ => values end.

Definition normalize_level (v : ustr) : ustr := if truthy v then lower v else u "info".

(** Pydantic's checks of the fields: the fields by name and then the extra ones, [None]
    for a [ValidationError]. *)
Context (validate_fields : pydict -> option pydict).

Definition LogItemSchema (values : value) : option pydict :=
  match values with
  | VDict d =>
      match validate_fields (normalize_attributes d) with
      | Some item =>
          Some (match dlookup (KStr (u "level")) item with
                | Some (VStr level) => dset (KStr (u "level")) (VStr (normalize_level level)) item
                | _ => item
                end)
      | None => None
      end
  | _ => None
  end.
End items.

(** ** Native OTLP records *)

Fixpoint res_map {A B} (f : A -> res B) (l : list A) : res (list B) :=
  match l with
  | [] => Ok []
  | a :: l => let* b := f a in let* bs := res_map f l in Ok (b :: bs)
  end.

(** [for x in v] *)
Definition iterate (v : value) : res (list value) :=
  match v with
  | VList l | VTuple l => Ok l
  | VDict d => Ok (map (fun kv : dkey * value => match kv.1 with KStr s => VStr s | KInt n => VInt n end) d)
  | VStr s => Ok (map (fun c => VStr [c]) s)
  | _ => Raise TypeError
  end.

(** [dict(v)]: a copy of a dictionary, or a list of pairs. *)
Definition py_dict (v : value) : res pydict :=
  match v with
  | VDict d => Ok d
  | _ =>
      let* l := iterate v in
      let* pairs := res_map (fun p => let* kv := iterate p in
                                      match kv with [k; v] => let* k := attribute_key k in Ok (k, v) | _ => Raise ValueError end) l in
      Ok (foldl (fun d kv => dset kv.1 kv.2 d) [] pairs)
  end.

Definition _RESOURCE_ATTR_SKIP_PREFIXES : list ustr := [u "telemetry.sdk."; u "telemetry.auto."].

Definition _keep_resource_attr (key : ustr) : bool := negb (existsb (fun p => startswith p key) _RESOURCE_ATTR_SKIP_PREFIXES).

(** A protobuf [AnyValue]; arrays and maps come as the JSON text [MessageToDict] gives. *)
Inductive AnyValue := Unset | StringValue (s : ustr) | IntValue (n : Z) | DoubleValue (m e : Z) | BoolValue (b : bool)
  | BytesValue (b : list Z) | NestedValue (json : ustr).

Definition bytes_hex (b : list Z) : ustr := concat (map (hex 2) b).

Definition _proto_anyvalue_to_dict (v : AnyValue) : value :=
  match v with
  | Unset => VNone
  | StringValue s => VDict [(KStr (u "string_value"), VStr s)]
  | IntValue n => VDict [(KStr (u "int_value"), VInt n)]
  | DoubleValue m e => VDict [(KStr (u "double_value"), VFloat m e)]
  | BoolValue b => VDict [(KStr (u "bool_value"), VBool b)]
  | BytesValue b => VDict [(KStr (u "string_value"), VStr (bytes_hex b))]
  | NestedValue json => VDict [(KStr (u "string_value"), VStr json)]
  end.

Record LogRecord := {
  time_unix_nano : Z; observed_time_unix_nano : Z; severity_number : Z; severity_text : ustr; record_body : AnyValue;
  record_attributes : list (ustr * AnyValue); record_trace_id : list Z; record_span_id : list Z }.

Definition attr_dict (a : ustr * AnyValue) : value :=
  VDict [(KStr (u "key"), VStr a.1); (KStr (u "value"), _proto_anyvalue_to_dict a.2)].

(** An id that is neither empty nor all zeros. *)
Definition id_set (zeros : nat) (b : list Z) : bool := bool_decide (b <> []) && bool_decide (b <> replicate zeros 0).

Definition _proto_record_to_otel_dict (r : LogRecord) : pydict :=
  let body := _proto_anyvalue_to_dict (record_body r) in
  [(KStr (u "time_unix_nano"), VInt (if time_unix_nano r =? 0 then observed_time_unix_nano r else time_unix_nano r));
   (KStr (u "severity_number"), if severity_number r =? 0 then VNone else VInt (severity_number r));
   (KStr (u "severity_text"), if truthy (severity_text r) then VStr (severity_text r) else VNone);
   (KStr (u "body"), match body with VNone => VStr [] | _ => body end);
   (KStr (u "attributes"), VList (map attr_dict (record_attributes r)))]
  ++ (if id_set 16 (record_trace_id r) then [(KStr (u "trace_id"), VStr (bytes_hex (record_trace_id r)))] else [])
  ++ (if id_set 8 (record_span_id r) then [(KStr (u "span_id"), VStr (bytes_hex (record_span_id r)))] else []).

(** The logs of one resource: its attributes and the records of its scopes. *)
Record ResourceLogs := { resource_attributes : list (ustr * AnyValue); scope_logs : list (list LogRecord) }.

Section otlp.
Context (py_repr : value -> ustr) (fromisoformat_timestamp : ustr -> option value) (validate_fields : pydict -> option pydict).
Notation LogItemSchema := (LogItemSchema fromisoformat_timestamp validate_fields).

Definition _to_log_item (resource_attrs : list value) (rec : pydict) : res pydict :=
  let* attributes :=
    match vor (dget_none "attributes" rec) (VList []) with VList l => Ok (resource_attrs ++ l) | _ => Raise TypeError end in
  let* converted := otel_log_to_log_item py_repr (dset (KStr (u "attributes")) (VList attributes) rec) in
  match LogItemSchema (VDict converted) with Some item => Ok item | None => Raise ValueError end.

Definition _to_log_item_dicts (records : list pydict) (resource_attrs : list value) : res (list pydict) :=
  res_map (_to_log_item resource_attrs) records.

(** [request] is what [ParseFromString] reads. *)
Definition _decode_protobuf (request : list ResourceLogs) : res (list pydict) :=
  let* items :=
    res_map (fun resource_logs =>
               let resource_attrs := map attr_dict (filter (fun a => _keep_resource_attr a.1 = true) (resource_attributes resource_logs)) in
               _to_log_item_dicts (map _proto_record_to_otel_dict (concat (scope_logs resource_logs))) resource_attrs) request in
  Ok (concat items).

(** The attributes of a JSON resource that are kept; a key that is not text has no
    [startswith]. *)
Fixpoint kept_attributes (l : list value) : res (list value) :=
  match l with
  | [] => Ok []
  | VDict a :: l =>
      match dget "key" (VStr []) a with
      | VStr key => let* rest := kept_attributes l in Ok (if _keep_resource_attr key then VDict a :: rest else rest)
      | _ => Raise AttributeError
      end
  | _ :: l => kept_attributes l
  end.

(** [x.get(k1) or x.get(k2) or []], iterated. *)
Definition iterate_either (k1 k2 : string) (x : value) : res (list value) :=
  match x with VDict d => iterate (vor (get_either k1 k2 d) (VList [])) | _ => Raise AttributeError end.

Definition decode_resource (rl : value) : res (list pydict) :=
  let* resource := vget "resource" rl in
  let* attributes := vget "attributes" (vor resource (VDict [])) in
  let* attributes := iterate (vor attributes (VList [])) in
  let* resource_attrs := kept_attributes attributes in
  let* scope_logs := iterate_either "scopeLogs" "scope_logs" rl in
  let* records := res_map (fun sl => let* l := iterate_either "logRecords" "log_records" sl in res_map py_dict l) scope_logs in
  _to_log_item_dicts (concat records) resource_attrs.

Definition _decode_json (data : value) : res (list pydict) :=
  let* resource_logs := iterate_either "resourceLogs" "resource_logs" data in
  let* items := res_map decode_resource resource_logs in
  Ok (concat items).
End otlp.

(** ** The task *)

Definition LEVEL_MAP : list (ustr * Z) :=
  [(u "trace", 0); (u "debug", 1); (u "info", 2); (u "warn", 3); (u "warning", 3); (u "error", 4); (u "fatal", 5)].

Definition level_of (s : ustr) : option Z := first_some (fun kv => if ustr_eqb s kv.1 then Some kv.2 else None) LEVEL_MAP.

(** [parse_level_filters] *)
Definition parse_level_filters (level_strings : list ustr) : option (list Z) :=
  let values := omap (fun s => level_of (lower s)) level_strings in
  match values with [] => None | _ => Some values end.

Definition MAX_TIMESTAMP_DRIFT : Z := ONE_DAY.

Definition validate_timestamp (client_timestamp server_time : Z) : bool := Z.abs (client_timestamp - server_time) <=? MAX_TIMESTAMP_DRIFT.

(** The seconds [datetime] can hold: the years 1 to 9999. *)
Definition datetime_seconds (s : Z) : bool := (-62135596800 <=? s) && (s <? 253402300800).

(** [datetime.fromtimestamp(v, tz=utc)] of a number, in microseconds. *)
Definition datetime_of_number (v : value) : res Z :=
  let ticks := match v with VFloat m e => Z.shiftl m (e + 80) | VInt n => n * 2 ^ 80 | VBool b => if b then 2 ^ 80 else 0 | _ => 0 end in
  if datetime_seconds (ticks / 2 ^ 80) then Ok (fromtimestamp ticks) else Raise ValueError.

(** [parse_span_id] of a text. *)
Definition parse_span_id (span_id_str : ustr) : option Z :=
  match int16 (replace (u "0x") [] (replace (u "-") [] span_id_str)) with
  | Some value => Some (if 2 ^ 63 <=? value then value - 2 ^ 64 else value)
  | None => None
  end.

(** Ids that are not text have no [replace]. *)
Definition with_text {A} (f : ustr -> option A) (v : value) : res (option A) :=
  if vtruthy v then match v with VStr s => Ok (f s) | _ => Raise AttributeError end else Ok None.

Definition trace_id_of (s : ustr) : option Z := match uuid_of s with Some x => if x =? 0 then None else Some x | None => None end.

Record LogRow := {
  log_id : Z; trace_id : option Z; organization_id : Z; project_id : Z; span_id : option Z; level : Z; severity : value;
  body : value; service : value; environment : value; host : value; data : ustr }.

(** Hour, project, level and the buckets of service and environment. *)
Definition stats_key : Type := Z * (Z * Z * Z * Z).

Record LogTaskMessage := { m_project_id : Z; m_organization_id : Z; m_logs : list pydict }.

Definition excluded_keys : list ustr :=
  map u ["timestamp"; "level"; "body"; "trace_id"; "span_id"; "severity_number"; "service"; "environment"; "host"]%string.

Definition is_extra (k : dkey) : bool := match k with KStr k => negb (existsb (ustr_eqb k) excluded_keys) | KInt _ => true end.

Definition extra_data (item : pydict) : pydict := filter (fun kv => is_extra kv.1 = true) item.

Section process.
(** The first byte of [hashlib.md5], the random bits of an id, [fromisoformat] to
    microseconds and [orjson.dumps]. *)
Context (md5_byte : ustr -> Z) (random_a random_b : nat -> Z) (fromisoformat : ustr -> option Z) (dumps : value -> res ustr).

(** Only texts have [encode]. *)
Definition compute_hash_bucket (name : value) : res Z :=
  if vtruthy name then match name with VStr s => Ok (md5_byte s) | _ => Raise AttributeError end else Ok 0.

Definition log_timestamp (server_time : Z) (item : pydict) : res Z :=
  match dget_none "timestamp" item with
  | VInt n => datetime_of_number (VInt n)
  | VBool b => datetime_of_number (VBool b)
  | VFloat m e => datetime_of_number (VFloat m e)
  | VStr s => match fromisoformat (replace (u "Z") (u "+00:00") s) with Some t => Ok t | None => Raise ValueError end
  | _ => Ok server_time
  end.

(** One turn of the loop: [None] for a rejected item, else its row, its key in the hourly
    statistics and its names; [n] items got ids before it. *)
Definition process_item (server_time : Z) (m : LogTaskMessage) (item : pydict) (n : nat) : res (option (LogRow * stats_key)) :=
  let* log_timestamp := log_timestamp server_time item in
  if negb (validate_timestamp log_timestamp server_time) then Ok None
  else
    let* log_id := from_datetime log_timestamp (random_a n) (random_b n) in
    let* level_str := match dget "level" (VStr (u "info")) item with VStr s => Ok (lower s) | _ => Raise AttributeError end in
    let level := default 2 (level_of level_str) in
    let* trace_id := with_text trace_id_of (dget_none "trace_id" item) in
    let* span_id := with_text parse_span_id (dget_none "span_id" item) in
    let service := dget "service" (VStr []) item in
    let environment := dget "environment" (VStr []) item in
    let* data := dumps (VDict (extra_data item)) in
    let* service_bucket := compute_hash_bucket service in
    let* environment_bucket := compute_hash_bucket environment in
    Ok (Some ({| log_id := log_id; trace_id := trace_id; organization_id := m_organization_id m; project_id := m_project_id m;
                 span_id := span_id; level := level; severity := dget_none "severity_number" item; body := dget "body" (VStr []) item;
                 service := service; environment := environment; host := dget "host" (VStr []) item; data := data |},
              (hour_of log_timestamp, (m_project_id m, level, service_bucket, environment_bucket)))).

(** The items of a message, and the messages of a batch. *)
Fixpoint process_items (server_time : Z) (m : LogTaskMessage) (items : list pydict) (n : nat) : res (list (LogRow * stats_key) * nat) :=
  match items with
  | [] => Ok ([], n)
  | item :: items =>
      let* row := process_item server_time m item n in
      let n := match row with Some _ => S n | None => n end in
      let* (rows, n) := process_items server_time m items n in
      Ok (match row with Some r => r :: rows | None => rows end, n)
  end.

Fixpoint process_messages (server_time : Z) (messages : list LogTaskMessage) (n : nat) : res (list (LogRow * stats_key)) :=
  match messages with
  | [] => Ok []
  | m :: messages =>
      let* (rows, n) := process_items server_time m (m_logs m) n in
      let* more := process_messages server_time messages n in
      Ok (rows ++ more)
  end.
End process.

(** ** Storage *)

(** [logs_logevent] with the organization and id as its key, the hourly statistics by the
    columns of their key, and the names of resources. *)
Record LogStore := { events : list LogRow; hourly_stats : gmap (stats_key * Z) Z; resources : gset (Z * ustr * ustr) }.

Definition row_key (r : LogRow) : Z * Z := (log_id r, organization_id r).

(** A row's key in the statistics with its organization. *)
Definition stat_item (rk : LogRow * stats_key) : stats_key * Z := (rk.2, organization_id rk.1).

Definition project_hourly_stats (rows : list (LogRow * stats_key)) : gmap stats_key Stat := collect (map stat_item rows).

(** The order of the rows only avoids deadlocks. *)
Definition update_log_statistics (stats : gmap stats_key Stat) (s : LogStore) : LogStore :=
  {| events := events s; hourly_stats := upsert_rows (hourly_stats s) (stat_rows stats); resources := resources s |}.

Definition named (organization_id : Z) (v : value) (type : string) : list (Z * ustr * ustr) :=
  match v with VStr (c :: name) => [(organization_id, c :: name, u type)] | _ => [] end.

Definition unique_resources (rows : list (LogRow * stats_key)) : gset (Z * ustr * ustr) :=
  list_to_set (rows ≫= fun rk =>
    let r := rk.1 in
    named (organization_id r) (service r) "service" ++ named (organization_id r) (environment r) "environment"
    ++ named (organization_id r) (host r) "host").

Definition update_resource_lookup (names : gset (Z * ustr * ustr)) (s : LogStore) : LogStore :=
  {| events := events s; hourly_stats := hourly_stats s; resources := resources s ∪ names |}.

Section storage.
(** Whether a partition takes the id, whether organization and project exist, and whether
    [jsonb] takes a text (it refuses an escaped NUL). *)
Context (has_partition : Z -> bool) (exists_ : Z -> Z -> bool) (jsonb_ok : ustr -> bool).

Definition fits (n : Z) (v : value) : bool := match v with VStr s => (len s <=? n) && negb (existsb (Z.eqb 0) s) | _ => false end.

(** What PostgreSQL takes: texts without NUL and within their columns' lengths, integers
    within theirs. *)
Definition storable (r : LogRow) : bool :=
  match body r with VStr s => negb (existsb (Z.eqb 0) s) | _ => false end
  && fits 255 (service r) && fits 255 (environment r) && fits 255 (host r) && jsonb_ok (data r)
  && match severity r with VNone => true | VInt n => (-32768 <=? n) && (n <? 32768) | _ => false end
  && match span_id r with Some n => (- 2 ^ 63 <=? n) && (n <? 2 ^ 63) | None => true end.

(** The checks of [logs_logevent], its foreign keys and its partitions. *)
Definition permitted (r : LogRow) : bool :=
  has_partition (log_id r) && exists_ (organization_id r) (project_id r)
  && match severity r with VInt n => (1 <=? n) && (n <=? 24) | _ => true end
  && (0 <=? level r) && (level r <=? 5).

Definition store_rows (rows : list LogRow) (s : LogStore) : LogStore :=
  {| events := events s ++ rows; hourly_stats := hourly_stats s; resources := resources s |}.

(** [ON CONFLICT DO NOTHING]: of rows with one key the first stays. *)
Fixpoint insert_new (rows : list LogRow) (s : LogStore) : LogStore :=
  match rows with
  | [] => s
  | r :: rows => insert_new rows (if bool_decide (row_key r ∈ map row_key (events s)) then s else store_rows [r] s)
  end.

(** [copy_rows] with its fallback: all rows or none, and on a duplicate key the rows that
    are new. Of several errors in a batch the first row's is raised; both kinds end the task. *)
Definition copy_or_insert (rows : list LogRow) (s : LogStore) : res LogStore :=
  if negb (forallb storable rows) then Raise DataError
  else if negb (forallb permitted rows) then Raise IntegrityError
  else if bool_decide (NoDup (map row_key (events s ++ rows))) then Ok (store_rows rows s)
  else Ok (insert_new rows s).

Context (md5_byte : ustr -> Z) (random_a random_b : nat -> Z) (fromisoformat : ustr -> option Z) (dumps : value -> res ustr).

Definition process_log_events (server_time : Z) (messages : list LogTaskMessage) (s : LogStore) : res (Z * LogStore) :=
  let* log_rows := process_messages md5_byte random_a random_b fromisoformat dumps server_time messages 0 in
  match log_rows with
  | [] => Ok (0, s)
  | _ =>
      let* s := copy_or_insert (map fst log_rows) s in
      let s := update_log_statistics (project_hourly_stats log_rows) s in
      Ok (len log_rows, update_resource_lookup (unique_resources log_rows) s)
  end.
End storage.

(** ** Span ids *)

Lemma hex_digit_char d : 0 <= d < 16 -> let c := if d <? 10 then 48 + d else 87 + d in
  is_hex c = true /\ hex_value c = d /\ c <> 45 /\ c <> 120 /\ c <> 95 /\ is_space c = false /\ c <> 43 /\ c <> 88.
Proof.
  intros Hd. assert (In d (map Z.of_nat (seq 0 16))) as H by (apply in_map_iff; exists (Z.to_nat d); split; [lia|apply in_seq; lia]).
  revert d H Hd. cbn -[is_hex hex_value is_space]. intros d H _.
  repeat destruct H as [<-|H]; try done; vm_compute; split_and!; (done || congruence).
Qed.

Lemma hex_digits_hex w n rest b acc : (0 < w)%nat -> hex_digits b (hex w n ++ rest) acc = hex_digits true rest (acc * 16 ^ Z.of_nat w + n mod 16 ^ Z.of_nat w).
Proof.
  revert n rest b acc. induction w as [|w IH]; intros n rest b acc Hw; [lia|]. cbn [hex].
  pose proof (Z.mod_pos_bound n 16 ltac:(lia)) as Hd. destruct (hex_digit_char (n mod 16) Hd) as (Hh & Hv & _).
  set (c := if n mod 16 <? 10 then _ else _) in *. rewrite <- app_assoc. cbn [app].
  rewrite Nat2Z.inj_succ, Z.pow_succ_r by lia. rewrite (Z.rem_mul_r n 16) by lia.
  destruct w as [|w].
  - cbn [hex app hex_digits]. rewrite Hh, Hv. cbn [Z.of_nat]. rewrite Z.mod_1_r. f_equal. lia.
  - rewrite IH by lia. cbn [hex_digits]. rewrite Hh, Hv. f_equal. lia.
Qed.

Lemma hex_chars w n c : c ∈ hex w n -> c <> 45 /\ c <> 120 /\ c <> 95 /\ is_space c = false /\ c <> 43 /\ c <> 88.
Proof.
  revert n. induction w as [|w IH]; intros n; cbn [hex]; [by intros ?%elem_of_nil|].
  intros [H|H%list_elem_of_singleton]%elem_of_app; [by eapply IH|].
  pose proof (Z.mod_pos_bound n 16 ltac:(lia)) as Hd. rewrite H. apply (hex_digit_char (n mod 16) Hd).
Qed.

(** Removing a text whose second character never occurs changes nothing. *)
Lemma replace_absent a b s : b ∉ s -> replace [a; b] [] s = s.
Proof.
  unfold replace. induction s as [|c s IH]; intros H; [done|]. apply not_elem_of_cons in H as [Hc Hs]. cbn [replace_go].
  assert (startswith [a; b] (c :: s) = false) as ->; [|by rewrite IH].
  destruct s as [|c' s]; simpl; [by rewrite andb_false_r|]. apply not_elem_of_cons in Hs as [Hb _].
  destruct (Z.eqb_spec b c'); [done|]. cbn. by rewrite andb_false_r.
Qed.

Lemma lstrip_id p s : (forall c, c ∈ s -> p c = false) -> lstrip_by p s = s.
Proof. destruct s as [|c s]; [done|]. intros H. cbn. by rewrite (H c ltac:(by left)). Qed.

Lemma strip_id s : (forall c, c ∈ s -> is_space c = false) -> strip s = s.
Proof.
  intros H. unfold strip, rstrip_by. rewrite (lstrip_id _ s) by done. rewrite lstrip_id; [apply rev_involutive|].
  intros c Hc. apply H. apply list_elem_of_In, in_rev. by apply list_elem_of_In.
Qed.

Lemma no_sign c s : c <> 45 -> c <> 43 ->
  match c :: s with 45 :: s => (-1, s) | 43 :: s => (1, s) | _ => (1, c :: s) end = (1, c :: s).
Proof. intros. repeat case_match; by simplify_eq. Qed.

Lemma no_prefix c s : (forall x, x ∈ s -> x <> 120 /\ x <> 88) ->
  match c :: s with
  | 48 :: 120 :: 95 :: s => s | 48 :: 88 :: 95 :: s => s
  | 48 :: 120 :: s => s | 48 :: 88 :: s => s
  | _ => c :: s
  end = c :: s.
Proof.
  intros H. destruct s as [|x s]; [repeat case_match; by simplify_eq|]. destruct (H x ltac:(by left)).
  destruct (decide (c = 48)) as [->|]; repeat case_match; by simplify_eq.
Qed.

(** Text without sign, prefix or spaces is read digit by digit. *)
Lemma int16_plain s :
  (forall c, c ∈ s -> is_space c = false /\ c <> 45 /\ c <> 43 /\ c <> 120 /\ c <> 88) -> int16 s = hex_digits false s 0.
Proof.
  intros H. unfold int16. rewrite strip_id by (intros c Hc; apply H, Hc). destruct s as [|c s]; [done|].
  rewrite no_sign by (apply H; by left). cbv beta iota zeta. rewrite no_prefix by (intros x Hx; split; apply (H x); by right).
  destruct (hex_digits false (c :: s) 0); [|done]. cbn. f_equal. lia.
Qed.

(** The span id a client writes with its 16 hexadecimal digits is stored as a signed
    64-bit number from which the unsigned one is recovered: every id fits its column and no
    two ids are confused. *)
Theorem span_id_roundtrip (n : Z) :
  0 <= n < 2 ^ 64 -> exists v, parse_span_id (hex 16 n) = Some v /\ - 2 ^ 63 <= v < 2 ^ 63 /\ v mod 2 ^ 64 = n.
Proof.
  intros Hn. pose proof (hex_chars 16 n) as Hc. exists (if 2 ^ 63 <=? n then n - 2 ^ 64 else n). split.
  - unfold parse_span_id. change (u "-") with [45]. rewrite replace_char_nil, filter_all by (apply Forall_forall; intros c H; apply Hc, H).
    change (u "0x") with [48; 120]. rewrite replace_absent by (intros H; apply Hc in H; tauto).
    rewrite int16_plain. 2: { intros c H. apply Hc in H. tauto. }
    rewrite <- (app_nil_r (hex 16 n)), hex_digits_hex by lia. cbn [hex_digits]. change (16 ^ Z.of_nat 16) with (2 ^ 64).
    rewrite Z.mod_small by done. done.
  - destruct (2 ^ 63 <=? n) eqn:E; (split; [lia|]); [|by apply Z.mod_small].
    rewrite <- (Z.mod_small n (2 ^ 64)) at 2 by done. rewrite <- (Z.mod_add n (-1) (2 ^ 64)) by lia. f_equal.
Qed.

Lemma span_id_roundtrip_witness :
  exists v, parse_span_id (hex 16 (2 ^ 64 - 1)) = Some v /\ - 2 ^ 63 <= v < 2 ^ 63 /\ v mod 2 ^ 64 = 2 ^ 64 - 1.
Proof. apply span_id_roundtrip. lia. Defined.

(** More digits are not refused: the number stays outside of its column. *)
Example long_span_id_overflows : parse_span_id (u "ffffffffffffffffff") = Some (2 ^ 72 - 1 - 2 ^ 64).
Proof. by_compute. Qed.

(** ** The rows of a batch *)

Section rows.
Context (md5_byte : ustr -> Z) (random_a random_b : nat -> Z) (fromisoformat : ustr -> option Z) (dumps : value -> res ustr).
Notation process_item := (process_item md5_byte random_a random_b fromisoformat dumps).
Notation process_items := (process_items md5_byte random_a random_b fromisoformat dumps).
Notation process_messages := (process_messages md5_byte random_a random_b fromisoformat dumps).

(** Every row comes from an item of a message. *)
Lemma process_items_elem now m items n rows n' rk :
  process_items now m items n = Ok (rows, n') -> rk ∈ rows -> exists item k, item ∈ items /\ process_item now m item k = Ok (Some rk).
Proof.
  revert n rows n'. induction items as [|item items IH]; intros n rows n' H Hin; cbn in H; [simplify_eq; by apply elem_of_nil in Hin|].
  destruct (process_item now m item n) as [row|] eqn:Erow; [|done]. cbn [res_bind] in H.
  destruct (process_items now m items _) as [[more n1]|] eqn:Emore; [|done]. cbn [res_bind] in H. injection H as <- <-.
  assert (rk ∈ more -> exists item0 k, item0 ∈ item :: items /\ process_item now m item0 k = Ok (Some rk)) as Hmore.
  { intros H. destruct (IH _ _ _ Emore H) as (i & k & Hi & Hk). exists i, k. split; [by right|done]. }
  destruct row as [r|]; [|auto]. apply elem_of_cons in Hin as [->|Hin]; [|auto]. exists item, n. split; [by left|done].
Qed.

Lemma process_messages_elem now messages n rows rk :
  process_messages now messages n = Ok rows -> rk ∈ rows ->
  exists m item k, m ∈ messages /\ item ∈ m_logs m /\ process_item now m item k = Ok (Some rk).
Proof.
  revert n rows. induction messages as [|m messages IH]; intros n rows H Hin; cbn in H; [simplify_eq; by apply elem_of_nil in Hin|].
  destruct (process_items now m (m_logs m) n) as [[l n1]|] eqn:El; [|done]. cbn [res_bind] in H.
  destruct (process_messages now messages n1) as [more|] eqn:Emore; [|done]. cbn [res_bind] in H. injection H as <-.
  apply elem_of_app in Hin as [Hin|Hin].
  - destruct (process_items_elem _ _ _ _ _ _ _ El Hin) as (item & k & Hi & Hk). exists m, item, k. split_and!; [by left|done..].
  - destruct (IH _ _ Emore Hin) as (m' & item & k & Hm & Hi & Hk). exists m', item, k. split_and!; [by right|done..].
Qed.

(** What an accepted item's row says. *)
Lemma process_item_row now m item k r key :
  process_item now m item k = Ok (Some (r, key)) ->
  organization_id r = m_organization_id m /\ project_id r = m_project_id m
  /\ exists t, log_timestamp fromisoformat now item = Ok t /\ Z.abs (t - now) <= ONE_DAY
     /\ from_datetime t (random_a k) (random_b k) = Ok (log_id r) /\ key.1 = hour_of t /\ key.2.1.1.1 = m_project_id m.
Proof.
  unfold Logs.process_item. destruct (log_timestamp _ now item) as [t|]; [|done]. cbn [res_bind].
  destruct (validate_timestamp t now) eqn:Ev; [|done]. cbn [negb]. destruct (from_datetime _ _ _) as [i|] eqn:Ei; [|done]. cbn [res_bind].
  destruct (match dget "level" _ item with VStr _ => _ | _ => _ end) as [level_str|]; [|done]. cbn [res_bind]. destruct (with_text trace_id_of _) as [tr|]; [|done]. cbn [res_bind].
  destruct (with_text parse_span_id _) as [sp|]; [|done]. cbn [res_bind]. destruct (dumps _) as [d|]; [|done]. cbn [res_bind].
  destruct (compute_hash_bucket md5_byte (dget "service" _ item)) as [sb|]; [|done]. cbn [res_bind].
  destruct (compute_hash_bucket md5_byte (dget "environment" _ item)) as [eb|]; [|done]. cbn [res_bind].
  intros [= <- <-]. cbn. split_and!; try done. exists t. split_and!; try done. unfold validate_timestamp, MAX_TIMESTAMP_DRIFT in Ev. lia.
Qed.

(** Projects belong to one organization. *)
Definition one_org_per_project (messages : list LogTaskMessage) : Prop :=
  forall m m', m ∈ messages -> m' ∈ messages -> m_project_id m = m_project_id m' -> m_organization_id m = m_organization_id m'.

Lemma rows_one_org now messages n rows :
  one_org_per_project messages -> process_messages now messages n = Ok rows -> one_org_per_key (map stat_item rows).
Proof.
  intros Hone Hrows k o1 o2 ([r1 k1] & E1 & H1)%list_elem_of_fmap ([r2 k2] & E2 & H2)%list_elem_of_fmap.
  unfold stat_item in E1, E2. cbn [fst snd] in E1, E2. injection E1 as -> ->. injection E2 as -> ->.
  destruct (process_messages_elem _ _ _ _ _ Hrows H1) as (m1 & i1 & n1 & Hm1 & _ & (Ho1 & _ & t1 & _ & _ & _ & _ & Hp1)%process_item_row).
  destruct (process_messages_elem _ _ _ _ _ Hrows H2) as (m2 & i2 & n2 & Hm2 & _ & (Ho2 & _ & t2 & _ & _ & _ & _ & Hp2)%process_item_row).
  rewrite Ho1, Ho2. apply Hone; [done..|congruence].
Qed.
End rows.

(** ** Inserting *)

Lemma insert_new_spec rows s :
  events s `prefix_of` events (insert_new rows s) /\ hourly_stats (insert_new rows s) = hourly_stats s
  /\ resources (insert_new rows s) = resources s
  /\ (NoDup (map row_key (events s)) -> NoDup (map row_key (events (insert_new rows s))))
  /\ forall r, r ∈ rows -> row_key r ∈ map row_key (events (insert_new rows s)).
Proof.
  revert s. induction rows as [|r rows IH]; intros s; cbn [insert_new]; [split_and!; try done; by intros ? ?%elem_of_nil|].
  destruct (bool_decide (row_key r ∈ map row_key (events s))) eqn:E.
  - apply bool_decide_eq_true in E. destruct (IH s) as ([l Hl] & Hh & Hr & Hnd & Hin). split_and!; try done; [by exists l|].
    intros x [->|Hx]%elem_of_cons; [|by apply Hin]. rewrite Hl, map_app. apply elem_of_app. by left.
  - apply bool_decide_eq_false in E. destruct (IH (store_rows [r] s)) as ([l Hl] & Hh & Hr & Hnd & Hin). cbn [store_rows events hourly_stats resources] in *.
    split_and!; try done.
    + exists (r :: l). by rewrite Hl, <- app_assoc.
    + intros Hs. apply Hnd. rewrite map_app. apply NoDup_app. split_and!; [done| |apply NoDup_singleton].
      intros x Hx ->%list_elem_of_singleton. done.
    + intros x [->|Hx]%elem_of_cons; [|by apply Hin]. rewrite Hl, map_app, map_app. set_solver.
Qed.

(** ** Properties *)

Section properties.
Context (has_partition : Z -> bool) (exists_ : Z -> Z -> bool) (jsonb_ok : ustr -> bool).
Context (md5_byte : ustr -> Z) (random_a random_b : nat -> Z) (fromisoformat : ustr -> option Z) (dumps : value -> res ustr).
Notation process_messages := (process_messages md5_byte random_a random_b fromisoformat dumps).
Notation process_log_events := (process_log_events has_partition exists_ jsonb_ok md5_byte random_a random_b fromisoformat dumps).

Lemma copy_or_insert_spec rows s :
  forallb (storable jsonb_ok) rows = true -> forallb (permitted has_partition exists_) rows = true ->
  exists s', copy_or_insert has_partition exists_ jsonb_ok rows s = Ok s'
    /\ events s `prefix_of` events s' /\ hourly_stats s' = hourly_stats s /\ resources s' = resources s
    /\ (NoDup (map row_key (events s)) -> NoDup (map row_key (events s')))
    /\ (forall r, r ∈ rows -> row_key r ∈ map row_key (events s'))
    /\ (NoDup (map row_key (events s ++ rows)) -> events s' = events s ++ rows).
Proof.
  intros Hs Hp. unfold copy_or_insert. rewrite Hs, Hp. cbn [negb]. destruct (bool_decide _) eqn:E.
  - apply bool_decide_eq_true in E. eexists. split; [done|]. cbn [store_rows events hourly_stats resources].
    split_and!; try done; [by eexists|]. intros r Hr. rewrite map_app. apply elem_of_app. right. by apply list_elem_of_fmap_2.
  - apply bool_decide_eq_false in E. eexists. split; [done|]. destruct (insert_new_spec rows s) as (H1 & H2 & H3 & H4 & H5).
    split_and!; try done.
Qed.

(** C15: A batch whose rows the table takes is stored completely: each row has its key in the
    table, no key occurs twice even when ids repeat, earlier rows stay, and the hourly
    statistics grow for every hour, project, level and bucket by exactly the number of its
    logs. *)
Theorem log_batch_stored (now : Z) (messages : list LogTaskMessage) (s : LogStore) (rows : list (LogRow * stats_key)) :
  one_org_per_project messages -> process_messages now messages 0 = Ok rows ->
  forallb (storable jsonb_ok) (map fst rows) = true -> forallb (permitted has_partition exists_) (map fst rows) = true ->
  exists s', process_log_events now messages s = Ok (len rows, s')
    /\ events s `prefix_of` events s' /\ (NoDup (map row_key (events s)) -> NoDup (map row_key (events s')))
    /\ (forall rk, rk ∈ rows -> row_key rk.1 ∈ map row_key (events s'))
    /\ (NoDup (map row_key (events s ++ map fst rows)) -> events s' = events s ++ map fst rows)
    /\ (forall key org, count_in (hourly_stats s') (key, org)
                       = count_in (hourly_stats s) (key, org) + len (filter (fun rk => rk.2 = key /\ organization_id rk.1 = org) rows)).
Proof.
  intros Hone Hrows Hs Hp. unfold Logs.process_log_events. rewrite Hrows. cbn [res_bind].
  assert (forall key org, tally (key, org) (map stat_item rows) = len (filter (fun rk => rk.2 = key /\ organization_id rk.1 = org) rows)) as Htally.
  { intros key org. clear. unfold tally, len. induction rows as [|rk rows IH]; [done|]. rewrite filter_cons. cbn [map]. rewrite zsum_cons, IH.
    unfold stat_item. repeat case_decide; cbn [length]; try lia; exfalso; naive_solver. }
  destruct (copy_or_insert_spec (map fst rows) s Hs Hp) as (s' & E & H1 & H2 & H3 & H4 & H5 & H6).
  destruct rows as [|rk0 rows'] eqn:Er.
  - exists s. split_and!; try done; [by intros ? ?%elem_of_nil|by rewrite app_nil_r|intros key org; rewrite <- Htally; unfold tally; cbn; lia].
  - rewrite <- Er in *. rewrite E. cbn [res_bind]. eexists. split; [done|]. cbn [update_resource_lookup update_log_statistics events hourly_stats].
    split_and!; try done.
    + intros rk Hrk. apply H5. by apply list_elem_of_fmap_2.
    + intros key org. rewrite H2. unfold project_hourly_stats. rewrite collect_upsert, Htally; [done|].
      eapply rows_one_org; [exact Hone|]. rewrite Er in *. exact Hrows.
Qed.

(** What is stored is recent and filed under its time: the id of every row holds the log's
    own time to the millisecond, at most a day from the server's, and its organization and
    project are those of its message. *)
Theorem logs_recent (now : Z) (messages : list LogTaskMessage) (rows : list (LogRow * stats_key)) (rk : LogRow * stats_key) :
  process_messages now messages 0 = Ok rows -> rk ∈ rows -> time_ok (now - ONE_DAY) -> time_ok (now + ONE_DAY) ->
  exists m item t, m ∈ messages /\ item ∈ m_logs m /\ log_timestamp fromisoformat now item = Ok t
    /\ organization_id rk.1 = m_organization_id m /\ project_id rk.1 = m_project_id m
    /\ extract_datetime (log_id rk.1) = Ok (timestamp_ms t * 1000) /\ t - 2000 < timestamp_ms t * 1000 <= t
    /\ now - ONE_DAY <= t <= now + ONE_DAY /\ rk.2.1 = hour_of t.
Proof.
  intros Hrows Hin Hlo Hhi. destruct (process_messages_elem _ _ _ _ _ _ _ _ _ _ Hrows Hin) as (m & item & k & Hm & Hi & Hrow).
  destruct rk as [r key]. destruct (process_item_row _ _ _ _ _ _ _ _ _ _ _ Hrow) as (Ho & Hp & t & Ht & Hd & Hid & Hk & _).
  assert (time_ok t) as Hok by (unfold time_ok in *; lia). exists m, item, t. cbn [fst snd].
  destruct (from_datetime_ok t (random_a k) (random_b k) Hok) as [E _]. destruct (timestamp_ms_bounds t Hok) as [[B1 B2] _].
  split_and!; try done; [by eapply extract_key|..]; pose proof (Z.div_mod t 1000 ltac:(lia)); pose proof (Z.mod_pos_bound t 1000 ltac:(lia)); lia.
Qed.

Lemma process_items_raise now m items n item :
  item ∈ items -> (forall k, exists e, process_item md5_byte random_a random_b fromisoformat dumps now m item k = Raise e) ->
  exists e, process_items md5_byte random_a random_b fromisoformat dumps now m items n = Raise e.
Proof.
  intros Hin Hbad. revert n. induction items as [|i items IH]; intros n; [by apply elem_of_nil in Hin|]. cbn [process_items].
  apply elem_of_cons in Hin as [<-|Hin]; [destruct (Hbad n) as [e ->]; by exists e|].
  destruct (process_item _ _ _ _ _ now m i n) as [row|e]; [|by exists e]. cbn [res_bind].
  destruct (IH Hin (match row with Some _ => S n | None => n end)) as [e ->]. by exists e.
Qed.

Lemma process_messages_raise now messages n m item :
  m ∈ messages -> item ∈ m_logs m -> (forall k, exists e, process_item md5_byte random_a random_b fromisoformat dumps now m item k = Raise e) ->
  exists e, process_messages now messages n = Raise e.
Proof.
  intros Hm Hi Hbad. revert n. induction messages as [|m' messages IH]; intros n; [by apply elem_of_nil in Hm|]. cbn [Logs.process_messages].
  apply elem_of_cons in Hm as [<-|Hm].
  - destruct (process_items_raise now m (m_logs m) n item Hi Hbad) as [e ->]. by exists e.
  - destruct (process_items _ _ _ _ _ now m' (m_logs m') n) as [[rows n']|e]; [|by exists e]. cbn [res_bind].
    destruct (IH Hm n') as [e ->]. by exists e.
Qed.

(** A number of seconds beyond the year 9999. *)
Definition far_timestamp (v : value) : Prop :=
  match v with
  | VFloat m e => 253402300800 * 2 ^ 80 <= Z.shiftl m (e + 80)
  | VInt n => 253402300800 <= n
  | _ => False
  end.

Lemma far_timestamp_raises now m item k :
  far_timestamp (dget_none "timestamp" item) -> exists e, process_item md5_byte random_a random_b fromisoformat dumps now m item k = Raise e.
Proof.
  intros H. exists ValueError. unfold process_item, log_timestamp. unfold far_timestamp in H.
  destruct (dget_none "timestamp" item) as [| |n|mm e| | | |]; try done; unfold datetime_of_number, datetime_seconds.
  - rewrite Z.div_mul by lia. replace (n <? 253402300800) with false by lia. by rewrite andb_false_r.
  - assert (253402300800 <= Z.shiftl mm (e + 80) / 2 ^ 80) by (apply Z.div_le_lower_bound; lia).
    replace (_ <? 253402300800) with false by lia. by rewrite andb_false_r.
Qed.

(** One bad log fails its whole batch, and with it the logs of all other messages: a
    timestamp beyond the year 9999, or a row the table refuses (a severity number outside
    1 to 24, a name of more than 255 characters, a NUL, a deleted project). *)
Theorem bad_log_fails_batch (now : Z) (messages : list LogTaskMessage) (s : LogStore) :
  (exists m item, m ∈ messages /\ item ∈ m_logs m /\ far_timestamp (dget_none "timestamp" item))
  \/ (exists rows rk, process_messages now messages 0 = Ok rows /\ rk ∈ rows
        /\ (storable jsonb_ok rk.1 = false \/ permitted has_partition exists_ rk.1 = false)) ->
  exists e, process_log_events now messages s = Raise e.
Proof.
  unfold Logs.process_log_events. intros [(m & item & Hm & Hi & Hbad)|(rows & rk & Hrows & Hin & Hbad)].
  - destruct (process_messages_raise now messages 0 m item Hm Hi) as [e ->]; [|by exists e]. intros k. by apply far_timestamp_raises.
  - rewrite Hrows. cbn [res_bind]. assert (exists e, copy_or_insert has_partition exists_ jsonb_ok (map fst rows) s = Raise e) as [e He].
    { unfold copy_or_insert. destruct (forallb (storable jsonb_ok) (map fst rows)) eqn:E1; [|by eexists]. cbn [negb].
      destruct (forallb (permitted _ _) (map fst rows)) eqn:E2; [|by eexists]. exfalso. rewrite forallb_forall in E1. rewrite forallb_forall in E2.
      assert (In rk.1 (map fst rows)) as Hr by (apply in_map, list_elem_of_In, Hin).
      specialize (E1 _ Hr). specialize (E2 _ Hr). destruct Hbad; congruence. }
    destruct rows; [by apply elem_of_nil in Hin|]. rewrite He. by exists e.
Qed.
End properties.

(** ** Witnesses and examples *)

Definition some_day : Z := 1736899200000000.
Definition log_item (text : string) (severity : value) : pydict :=
  [(KStr (u "timestamp"), VFloat 1736899200 0); (KStr (u "level"), VStr (u "warning")); (KStr (u "body"), VStr (u text));
   (KStr (u "service"), VStr (u "web")); (KStr (u "severity_number"), severity); (KStr (u "user.id"), VInt 7)].
Definition log_message (items : list pydict) : LogTaskMessage := {| m_project_id := 5; m_organization_id := 2; m_logs := items |}.
Definition empty_logs : LogStore := {| events := []; hourly_stats := ∅; resources := ∅ |}.
Definition good_logs : list LogTaskMessage := [log_message [log_item "one" VNone; log_item "two" (VInt 13)]].
Definition mixed_logs : list LogTaskMessage := good_logs ++ [log_message [log_item "three" (VInt 0)]].

Notation run_messages := (process_messages (fun _ => 9) Z.of_nat (fun _ => 0) (fun _ => None) (fun _ => Ok (u "{}"))).
Notation run_logs := (process_log_events (fun _ => true) (fun _ _ => true) (fun _ => true) (fun _ => 9) Z.of_nat (fun _ => 0) (fun _ => None)
                        (fun _ => Ok (u "{}"))).

Definition good_rows : list (LogRow * stats_key) := Eval vm_compute in match run_messages some_day good_logs 0 with Ok rows => rows | Raise _ => [] end.

Lemma log_batch_stored_witness :
  exists s', run_logs some_day good_logs empty_logs = Ok (2, s') /\ length (events s') = 2%nat
    /\ count_in (hourly_stats s') ((hour_of some_day, (5, 3, 9, 0)), 2) = 2.
Proof.
  destruct (log_batch_stored (fun _ => true) (fun _ _ => true) (fun _ => true) (fun _ => 9) Z.of_nat (fun _ => 0) (fun _ => None)
              (fun _ => Ok (u "{}")) some_day good_logs empty_logs good_rows) as (s' & E & _ & _ & _ & Hev & Hc).
  - intros m m' H1 H2 _. apply list_elem_of_singleton in H1, H2. by subst.
  - vm_compute. reflexivity.
  - vm_compute. reflexivity.
  - vm_compute. reflexivity.
  - exists s'. split; [exact E|]. split.
    + rewrite Hev; [reflexivity|]. by_decide.
    + rewrite Hc. vm_compute. reflexivity.
Defined.

Lemma logs_recent_witness :
  exists rk m item t, rk ∈ good_rows /\ item ∈ m_logs m /\ log_timestamp (fun _ => None) some_day item = Ok t
    /\ extract_datetime (log_id rk.1) = Ok (timestamp_ms t * 1000).
Proof.
  destruct good_rows as [|rk rest] eqn:E; [done|].
  destruct (logs_recent (fun _ => 9) Z.of_nat (fun _ => 0) (fun _ => None) (fun _ => Ok (u "{}")) some_day good_logs good_rows rk)
    as (m & item & t & _ & Hi & Ht & _ & _ & Hx & _).
  - vm_compute. reflexivity.
  - rewrite E. left.
  - unfold time_ok, some_day, ONE_DAY, ONE_HOUR, MINUTE. lia.
  - unfold time_ok, some_day, ONE_DAY, ONE_HOUR, MINUTE. lia.
  - exists rk, m, item, t. split; [left|]. split; [exact Hi|]. split; [exact Ht|exact Hx].
Defined.

(** An unspecified severity, sent as 0, loses the logs of the whole batch. *)
Lemma bad_log_fails_batch_witness : exists e, run_logs some_day mixed_logs empty_logs = Raise e.
Proof.
  apply bad_log_fails_batch. right. eexists. eexists. split; [vm_compute; reflexivity|]. split; [right; right; left|]. right. vm_compute. reflexivity.
Defined.

(** A custom attribute named like a field replaces it, although the message has one. *)
Example attribute_replaces_body :
  let attr v := VDict [(KStr (u "value"), VStr (u v)); (KStr (u "type"), VStr (u "string"))] in
  normalize_attributes (fun _ => None)
    [(KStr (u "body"), VStr (u "disk full")); (KStr (u "service"), VStr (u "db"));
     (KStr (u "attributes"), VDict [(KStr (u "body"), attr "GET /"%string); (KStr (u "service.name"), attr "web"%string)])]
  = [(KStr (u "body"), VStr (u "GET /")); (KStr (u "service"), VStr (u "db"))].
Proof. by_compute. Qed.
