(* ===== verification/EventViews.v ===== *)
(** * The ingest views

    [apps/event_ingest/views.py] (envelopes and minidumps), [apps/event_ingest/api.py] (the
    store and security endpoints), the content encoding of [rust_envelope.py] and the task
    for user reports of [tasks.py]: from a request, through authentication, scrubbing and
    the check for duplicates, to the jobs of the queue. *)
From S2P Require Import Prelude PyStr PyValue PiiScrubber PartitionManager EventAuth Logs.

(** ** Messages *)

(** A validated event or transaction: its id and its other fields by name. *)
Record Item := { item_event_id : option Z; fields : pydict }.

(** [IngestTaskMessage] *)
Record IngestTaskMessage := {
  im_project_id : Z; im_organization_id : Z; im_received : Z; im_payload : pydict; im_update_first_event : bool; im_uuid : Z }.

Record UserReportTaskMessage := {
  ur_project_id : Z; ur_organization_id : Z; ur_event_id : option ustr; ur_name : ustr; ur_email : ustr; ur_comments : ustr }.

(** The jobs of the ingest queue. *)
Inductive Job :=
| IngestEvent (m : IngestTaskMessage)
| IngestTransaction (m : IngestTaskMessage)
| IngestUserReport (m : UserReportTaskMessage)
| IngestLogs (m : LogTaskMessage).

(** [serialize_for_vtasks] on plain data: tuples become lists. *)
Fixpoint serialize_for_vtasks (v : value) : value :=
  match v with
  | VDict d => VDict (map (fun kv => (kv.1, serialize_for_vtasks kv.2)) d)
  | VList l | VTuple l => VList (map serialize_for_vtasks l)
  | _ => v
  end.

Definition serialize_payload (d : pydict) : pydict := map (fun kv => (kv.1, serialize_for_vtasks kv.2)) d.

Definition DEFAULT : Z := 0.
Definition ERROR : Z := 1.

Definition is_set (k : string) (d : pydict) : bool := match dget_none k d with VNone => false | _ => true end.

(** [IssueEventType.ERROR if item.exception else IssueEventType.DEFAULT] *)
Definition issue_type (item : Item) : Z := if is_set "exception" (fields item) then ERROR else DEFAULT.

(** [item.dict()] with the id that was chosen, a UUID being written as its digits. *)
Definition item_dict (id : Z) (item : Item) : pydict := dset (KStr (u "event_id")) (VStr (hex 32 id)) (fields item).

(** [EventUser(ip_address=client_ip)] *)
Definition new_user (client_ip : ustr) : value :=
  VDict [(KStr (u "id"), VNone); (KStr (u "username"), VNone); (KStr (u "email"), VNone); (KStr (u "ip_address"), VStr client_ip);
         (KStr (u "data"), VNone); (KStr (u "geo"), VNone)].

Definition set_client_ip (client_ip : option ustr) (item : Item) : Item :=
  match client_ip with
  | None | Some [] => item
  | Some ip =>
      let user :=
        match dget_none "user" (fields item) with
        | VDict user => VDict (dset (KStr (u "ip_address")) (VStr ip) user)
        | _ => new_user ip
        end in
      {| item_event_id := item_event_id item; fields := dset (KStr (u "user")) user (fields item) |}
  end.

(** ** Envelopes *)

Inductive ItemType :=
| Transaction | Event | UserReport | Feedback | Log | OtelLog
| Session | Sessions | ClientReport | Attachment | CheckIn | Profile | ReplayRecording | ReplayEvent | ReplayVideo | Span
| ProfileChunk | TraceMetric.
#[global] Instance ItemType_eq_dec : EqDecision ItemType.
Proof. solve_decision. Defined.

Definition SUPPORTED_ITEMS : list ItemType := [Transaction; Event; UserReport; Feedback; Log; OtelLog].

Record ItemHeaderSchema := { item_type : ItemType; attachment_type : option ustr }.

(** Why an item header is refused. *)
Inductive HeaderError := JsonInvalid | UnknownType (type : ustr) | OtherInvalid.

(** A validation: the value, a [ValidationError], or another exception. *)
Inductive checked (A : Type) := Valid (a : A) | Invalid | Broken.
Arguments Valid {A} _.
Arguments Invalid {A}.
Arguments Broken {A}.

(** What [gt_rust] makes of a body. *)
Inductive Framing := Framed (header : ustr) (items : list (ustr * ustr)) | BadFraming | EnvelopeTooBig.

Inductive Response :=
| Detail (status : Z) (detail : ustr)
| TooManyRequests (retry_after : Z)
| PlainStatus (status : Z)
| EventId (id : option Z)
| Unhandled.

Record HttpRequest := {
  method : ustr; dsn : Request; view_project_id : Z; content_encoding : option ustr; client_address : option ustr; is_routable : bool;
  body_bytes : option ustr }.

Definition _DECODABLE : list ustr := [u "gzip"; u "deflate"; u "br"; u "zstd"].

Definition request_content_encoding (r : HttpRequest) : option ustr :=
  let encoding := lower (default [] (content_encoding r)) in
  if existsb (ustr_eqb encoding) _DECODABLE then Some encoding else None.

(** The state of ingestion: the block cache, the event ids seen with the time they expire,
    the queue, and how many jobs were sent and ids drawn. *)
Record Ingest := { auth : Auth; seen : gmap Z Z; queue : list Job; sent : nat; drawn_ids : nat }.

Definition set_auth (a : Auth) (s : Ingest) : Ingest :=
  {| auth := a; seen := seen s; queue := queue s; sent := sent s; drawn_ids := drawn_ids s |}.

(** [cache.aadd("uuid" + id.hex, True)]: added unless an entry that has not expired is
    there; entries live for the cache's default of five minutes. *)
Definition CACHE_TIMEOUT : Z := 300 * 1000000.

Definition cache_add (now id : Z) (s : Ingest) : bool * Ingest :=
  if match seen s !! id with Some expires => now <? expires | None => false end then (false, s)
  else (true, {| auth := auth s; seen := <[id := now + CACHE_TIMEOUT]> (seen s); queue := queue s; sent := sent s; drawn_ids := drawn_ids s |}).

(** What the views call: the clock and random ids, the block list's draws, the database, the
    queue, the JSON parser, Pydantic's validation of the schemas, [gt_rust] and the minidump
    reader. *)
Record Env := {
  now : Z; uuid4 : nat -> Z; uuid7 : nat -> Z; draw : nat -> Z; lottery : nat -> bool; calculate_retry_after : Z -> Z;
  billing_enabled : bool; maintenance_freeze : bool; enable_logs : bool; pii_scrub_default : value;
  replica : option (res Db); db : Db; queue_works : nat -> bool; anonymize_ip : ustr -> ustr;
  json_loads : ustr -> option value; py_repr : value -> ustr; fromisoformat_timestamp : ustr -> option value;
  frame_envelope : ustr -> option ustr -> Framing; decompress_body : ustr -> option ustr -> Framing;
  validate_envelope_header : ustr -> option (option Z); validate_item_header : ustr -> ItemHeaderSchema + HeaderError;
  validate_event : ustr -> checked Item; validate_transaction : ustr -> checked Item;
  validate_feedback : ustr -> checked pydict; validate_feedback_context : value -> checked (ustr * ustr * ustr * option ustr);
  validate_user_report : ustr -> checked (option Z * ustr * ustr * ustr); validate_log_fields : pydict -> option pydict;
  minidump_to_event : ustr -> value -> option pydict; validate_event_data : pydict -> checked Item }.

Section views.
Context (E : Env).

Definition authenticate (r : HttpRequest) (s : Ingest) : (ProjectAuthInfo + Rejection) * Ingest :=
  let '(a, auth_state) :=
    event_auth (draw E) (lottery E) (calculate_retry_after E) (billing_enabled E) (maintenance_freeze E) (replica E) (db E) (now E) (dsn r) (auth s) in
  (a, set_auth auth_state s).

Definition get_ip_address (p : ProjectAuthInfo) (r : HttpRequest) : option ustr :=
  if is_routable r then
    if should_scrub_ip_addresses p then anonymize_ip E <$> client_address r else client_address r
  else None.

Definition project_scrubber (p : ProjectAuthInfo) : Scrubber := resolve_scrubber (json_loads E) (py_repr E) (scrub_config p) (pii_scrub_default E).

Definition next_id (f : nat -> Z) (s : Ingest) : Z * Ingest :=
  (f (drawn_ids s), {| auth := auth s; seen := seen s; queue := queue s; sent := sent s; drawn_ids := S (drawn_ids s) |}).

(** [task.aenqueue(...)], [false] when it raises. *)
Definition enqueue (j : Job) (s : Ingest) : bool * Ingest :=
  let ok := queue_works E (sent s) in
  (ok, {| auth := auth s; seen := seen s; queue := if ok then queue s ++ [j] else queue s; sent := S (sent s); drawn_ids := drawn_ids s |}).

(** The message of an event and its job, unless its id was seen in the last minutes. *)
Definition task_message (pid : Z) (p : ProjectAuthInfo) (payload : pydict) (primary_id : Z) : IngestTaskMessage :=
  {| im_project_id := pid; im_organization_id := EventAuth.organization_id p; im_received := now E;
     im_payload := serialize_payload (scrub_event (project_scrubber p) payload);
     im_update_first_event := match first_event p with None => true | Some _ => false end; im_uuid := primary_id |}.

Definition send_once (job : IngestTaskMessage -> Job) (pid : Z) (p : ProjectAuthInfo) (id : Z) (payload : pydict) (s : Ingest) : bool * Ingest :=
  let '(primary_id, s) := next_id (uuid7 E) s in
  let '(added, s) := cache_add (now E) id s in
  if added then enqueue (job (task_message pid p payload primary_id)) s else (true, s).

(** The item's id, the envelope's, or a new one. *)
Definition event_id_of (item header_id : option Z) (s : Ingest) : Z * Ingest :=
  match item, header_id with
  | Some id, _ => (id, s)
  | None, Some id => (id, s)
  | None, None => next_id (uuid4 E) s
  end.

Definition with_type (item : Item) (payload : pydict) : pydict := dset (KStr (u "type")) (VInt (issue_type item)) payload.

(** Each of the following is the body of the [try] for one type of item: whether it ended
    without an exception, and the state. *)
Definition event_item (pid : Z) (p : ProjectAuthInfo) (client_ip : option ustr) (header_id : option Z) (payload_bytes : ustr) (s : Ingest) :
    bool * Ingest :=
  match validate_event E payload_bytes with
  | Valid item =>
      let item := set_client_ip client_ip item in
      let '(id, s) := event_id_of (item_event_id item) header_id s in
      send_once IngestEvent pid p id (with_type item (item_dict id item)) s
  | _ => (false, s)
  end.

Definition transaction_item (pid : Z) (p : ProjectAuthInfo) (payload_bytes : ustr) (s : Ingest) : bool * Ingest :=
  match validate_transaction E payload_bytes with
  | Valid item =>
      let '(id, s) := event_id_of (item_event_id item) None s in
      send_once IngestTransaction pid p id (item_dict id item) s
  | _ => (false, s)
  end.

(** [FeedbackPayload.to_user_report_data] and [UserReportPayload.to_user_report_data] *)
Definition feedback_data (contexts : pydict) : checked (option ustr * ustr * ustr * ustr) :=
  match validate_feedback_context E (vor (dget_none "feedback" contexts) (VDict [])) with
  | Valid (message, name, contact_email, associated_event_id) => Valid (associated_event_id, slice_to 128 name, slice_to 254 contact_email, message)
  | Invalid => Invalid
  | Broken => Broken
  end.

Definition user_report_data (r : option Z * ustr * ustr * ustr) : option ustr * ustr * ustr * ustr :=
  let '(event_id, name, email, comments) := r in (uuid_str <$> event_id, slice_to 128 name, slice_to 254 email, comments).

Definition report_item (feedback : bool) (pid : Z) (p : ProjectAuthInfo) (payload_bytes : ustr) (s : Ingest) : bool * Ingest :=
  let data :=
    if feedback then
      match validate_feedback E payload_bytes with Valid contexts => feedback_data contexts | Invalid => Invalid | Broken => Broken end
    else
      match validate_user_report E payload_bytes with Valid r => Valid (user_report_data r) | Invalid => Invalid | Broken => Broken end in
  match data with
  | Valid (event_id, name, email, comments) =>
      enqueue (IngestUserReport {| ur_project_id := pid; ur_organization_id := EventAuth.organization_id p; ur_event_id := event_id; ur_name := name;
                                   ur_email := email; ur_comments := comments |}) s
  | _ => (false, s)
  end.

Definition log_item_schema (v : value) : option pydict := LogItemSchema (fromisoformat_timestamp E) (validate_log_fields E) v.

(** [LogEnvelopePayload]: one bad item refuses all. *)
Definition log_items_of (otel : bool) (payload_bytes : ustr) : option (list pydict) :=
  match json_loads E payload_bytes with
  | Some (VDict d) =>
      if otel then
        match otel_log_to_log_item (py_repr E) d with
        | Ok converted => (fun item => [item]) <$> log_item_schema (VDict converted)
        | Raise _ => None
        end
      else match dlookup (KStr (u "items")) d with Some (VList l) => mapM log_item_schema l | _ => None end
  | _ => None
  end.

Definition log_item (otel : bool) (pid : Z) (p : ProjectAuthInfo) (payload_bytes : ustr) (s : Ingest) : bool * Ingest :=
  match log_items_of otel payload_bytes with
  | Some items =>
      enqueue (IngestLogs {| m_project_id := pid; m_organization_id := EventAuth.organization_id p;
                             m_logs := map (fun item => serialize_payload (scrub_log (project_scrubber p) item)) items |}) s
  | None => (false, s)
  end.

Definition MINIDUMP_MAGIC : ustr := u "MDMP".

Definition is_minidump (data : ustr) : bool := ustr_eqb (take 4 data) MINIDUMP_MAGIC.

(** The loop's variables. *)
Record Loop := { minidump_bytes : option ustr; event_processed : bool; loop_state : Ingest }.

Definition process_item (pid : Z) (p : ProjectAuthInfo) (client_ip : option ustr) (header_id : option Z) (h : ItemHeaderSchema)
    (payload_bytes : ustr) (l : Loop) : Loop :=
  let after (counts : bool) (r : bool * Ingest) :=
    {| minidump_bytes := minidump_bytes l; event_processed := event_processed l || (counts && r.1); loop_state := r.2 |} in
  let s := loop_state l in
  match item_type h with
  | Event => after true (event_item pid p client_ip header_id payload_bytes s)
  | Transaction => after true (transaction_item pid p payload_bytes s)
  | Feedback => after false (report_item true pid p payload_bytes s)
  | UserReport => after false (report_item false pid p payload_bytes s)
  | Log => if enable_logs E then after false (log_item false pid p payload_bytes s) else l
  | OtelLog => if enable_logs E then after false (log_item true pid p payload_bytes s) else l
  | Attachment =>
      if bool_decide (attachment_type h = Some (u "event.minidump")) && is_minidump payload_bytes
      then {| minidump_bytes := Some payload_bytes; event_processed := event_processed l; loop_state := s |} else l
  | _ => l
  end.

(** A header that is refused ends the loop. *)
Fixpoint process_items (pid : Z) (p : ProjectAuthInfo) (client_ip : option ustr) (header_id : option Z) (items : list (ustr * ustr)) (l : Loop) : Loop :=
  match items with
  | [] => l
  | (header, payload) :: items =>
      match validate_item_header E header with
      | inl h => process_items pid p client_ip header_id items (process_item pid p client_ip header_id h payload l)
      | inr _ => l
      end
  end.

(** The event of a minidump, when the envelope had no other. *)
Definition minidump_fallback (pid : Z) (p : ProjectAuthInfo) (header_id : option Z) (l : Loop) : Ingest :=
  let s := loop_state l in
  match minidump_bytes l with
  | Some data =>
      if event_processed l then s
      else
        match minidump_to_event E data VNone with
        | Some event_data =>
            match validate_event_data E event_data with
            | Valid item =>
                let '(id, s) := event_id_of (item_event_id item) header_id s in
                (send_once IngestEvent pid p id (with_type item (item_dict id item)) s).2
            | _ => s
            end
        | None => s
        end
  | None => s
  end.

(** The replies of both views to a refused request; what is not caught ends in a 500. *)
Definition rejection_response (e : Rejection) : Response :=
  match e with
  | ThrottleException retry_after => TooManyRequests retry_after
  | AuthenticationError => Detail 403 (u "Denied")
  | ValidationError => Detail 403 (u "Invalid DSN")
  | HttpError503 | ServerError => Unhandled
  end.

Definition event_envelope_view (r : HttpRequest) (s : Ingest) : Response * Ingest :=
  if negb (ustr_eqb (method r) (u "POST")) then (Detail 405 (u "Method not allowed"), s)
  else
    match authenticate r s with
    | (inr e, s) => (rejection_response e, s)
    | (inl p, s) =>
        let client_ip := get_ip_address p r in
        match body_bytes r with
        | None => (PlainStatus 413, s)
        | Some body =>
            match frame_envelope E body (request_content_encoding r) with
            | EnvelopeTooBig => (PlainStatus 413, s)
            | BadFraming => (Detail 400 (u "Invalid envelope header"), s)
            | Framed header items =>
                match validate_envelope_header E header with
                | None => (Detail 400 (u "Invalid envelope header"), s)
                | Some header_id =>
                    let l := process_items (view_project_id r) p client_ip header_id items
                               {| minidump_bytes := None; event_processed := false; loop_state := s |} in
                    (EventId header_id, minidump_fallback (view_project_id r) p header_id l)
                end
            end
        end
    end.

(** A minidump uploaded as a form: [upload] is the file, [sentry] the text of the field of
    that name; [stream] is the raw body of a compressed form. *)
Record MinidumpUpload := { upload : option ustr; sentry : option ustr; stream : ustr }.

(** [read_form] is Django's parser of the form, on the decompressed body when it was
    compressed. *)
Definition minidump_view (read_form : option ustr -> MinidumpUpload) (r : HttpRequest) (s : Ingest) : Response * Ingest :=
  if negb (ustr_eqb (method r) (u "POST")) then (Detail 405 (u "Method not allowed"), s)
  else
    match authenticate r s with
    | (inr e, s) => (rejection_response e, s)
    | (inl p, s) =>
        let form :=
          match request_content_encoding r with
          | None => inl (read_form None)
          | Some encoding =>
              match decompress_body E (stream (read_form None)) (Some encoding) with
              | Framed plain _ => inl (read_form (Some plain))
              | EnvelopeTooBig => inr (PlainStatus 413)
              | BadFraming => inr (Detail 400 (u "Invalid compressed body"))
              end
          end in
        match form with
        | inr e => (e, s)
        | inl form =>
            match upload form with
            | None | Some [] => (Detail 400 (u "Missing upload_file_minidump"), s)
            | Some data =>
                if negb (is_minidump data) then (Detail 400 (u "Invalid minidump file"), s)
                else
                  let meta :=
                    match sentry form with Some (c :: text) => default (VDict []) (json_loads E (c :: text)) | _ => VDict [] end in
                  match minidump_to_event E data meta with
                  | None => (Detail 400 (u "Failed to parse minidump"), s)
                  | Some event_data =>
                      match validate_event_data E event_data with
                      | Invalid => (Detail 400 (u "Event validation failed"), s)
                      | Broken => (Unhandled, s)
                      | Valid item =>
                          let '(id, s) := event_id_of (item_event_id item) None s in
                          let '(ok, s) := send_once IngestEvent (view_project_id r) p id (with_type item (item_dict id item)) s in
                          (if (ok : bool) then EventId (Some id) else Unhandled, s)
                      end
                  end
            end
        end
    end.

(** ** The store and security endpoints *)

(** Django Ninja's replies to a refused request. *)
Definition ninja_rejection (e : Rejection) : Response :=
  match e with
  | ThrottleException retry_after => TooManyRequests retry_after
  | AuthenticationError => Detail 401 (u "Unauthorized")
  | ValidationError => PlainStatus 422
  | HttpError503 => PlainStatus 503
  | ServerError => Unhandled
  end.

(** [payload] is the validated body, [None] for one that Ninja refused. *)
Definition event_store (r : HttpRequest) (payload : option Item) (s : Ingest) : Response * Ingest :=
  match authenticate r s with
  | (inr e, s) => (ninja_rejection e, s)
  | (inl p, s) =>
      match payload with
      | Some item =>
          match item_event_id item with
          | Some id =>
              let '(added, s) := cache_add (now E) id s in
              if negb added then (PlainStatus 422, s)
              else
                let item := set_client_ip (get_ip_address p r) item in
                let '(primary_id, s) := next_id (uuid7 E) s in
                let '(ok, s) := enqueue (IngestEvent (task_message (view_project_id r) p (with_type item (item_dict id item)) primary_id)) s in
                (if (ok : bool) then EventId (Some id) else Unhandled, s)
          | None => (PlainStatus 422, s)
          end
      | None => (PlainStatus 422, s)
      end
  end.

(** [csp_event] is [CSPIssueEventSchema(csp=...)] of the validated report; its id is new. *)
Definition event_security (r : HttpRequest) (csp_event : option Item) (s : Ingest) : Response * Ingest :=
  match authenticate r s with
  | (inr e, s) => (ninja_rejection e, s)
  | (inl p, s) =>
      match csp_event with
      | Some item =>
          let '(id, s) := next_id (uuid4 E) s in
          let item := set_client_ip (get_ip_address p r) item in
          let '(primary_id, s) := next_id (uuid7 E) s in
          let '(ok, s) := enqueue (IngestEvent (task_message (view_project_id r) p (item_dict id item) primary_id)) s in
          (if (ok : bool) then PlainStatus 201 else Unhandled, s)
      | None => (PlainStatus 422, s)
      end
  end.

(** ** The native OTLP endpoint *)

(** [decode_otlp_logs]: the log items of a body, [None] for an exception. *)
Context (decode_otlp_logs : ustr -> option (list pydict)).

Definition otlp_logs_view (r : HttpRequest) (s : Ingest) : Response * Ingest :=
  if negb (ustr_eqb (method r) (u "POST")) then (Detail 405 (u "Method not allowed"), s)
  else if negb (enable_logs E) then (Detail 404 (u "Logs are not enabled"), s)
  else
    let '(a, auth_state) :=
      get_project_by_key (draw E) (lottery E) (calculate_retry_after E) (billing_enabled E) (maintenance_freeze E) (db E) (now E) (dsn r) (auth s) in
    let s := set_auth auth_state s in
    match a with
    | inr (ThrottleException retry_after) => (TooManyRequests retry_after, s)
    | inr HttpError503 => (Detail 503 (u "Events are not currently being accepted due to maintenance."), s)
    | inr AuthenticationError => (Detail 401 (u "Invalid DSN"), s)
    | inr ValidationError | inr ServerError => (Unhandled, s)
    | inl p =>
        match body_bytes r with
        | None => (PlainStatus 413, s)
        | Some body =>
            let plain :=
              match request_content_encoding r with
              | None => inl body
              | Some encoding =>
                  match decompress_body E body (Some encoding) with
                  | Framed plain _ => inl plain
                  | EnvelopeTooBig => inr (PlainStatus 413)
                  | BadFraming => inr (Detail 400 (u "Invalid compressed body"))
                  end
              end in
            match plain with
            | inr e => (e, s)
            | inl body =>
                match decode_otlp_logs body with
                | None => (Detail 400 (u "Malformed OTLP logs payload"), s)
                | Some [] => (PlainStatus 200, s)
                | Some log_items =>
                    let message :=
                      {| m_project_id := EventAuth.id p; m_organization_id := EventAuth.organization_id p;
                         m_logs := map (fun item => serialize_payload (scrub_log (project_scrubber p) item)) log_items |} in
                    let '(ok, s) := enqueue (IngestLogs message) s in
                    (if (ok : bool) then PlainStatus 200 else Unhandled, s)
                end
            end
        end
    end.
End views.

(** ** User reports *)

(** A stored event as the query sees it; [ev_recent] when its id is of the last week. *)
Record EventRow := { ev_event_id : Z; ev_issue_id : Z; ev_organization_id : Z; ev_recent : bool }.

Record UserReportRow := {
  report_project : Z; report_issue : option Z; report_event_id : Z; report_name : ustr; report_email : ustr; report_comments : ustr }.

(** A message with its event id parsed; one whose id is no UUID is dropped. *)
Definition parse_report (msg : UserReportTaskMessage) : option (UserReportTaskMessage * option Z) :=
  match ur_event_id msg with
  | Some (c :: text) => (fun event_uuid => (msg, Some event_uuid)) <$> uuid_of (c :: text)
  | _ => Some (msg, None)
  end.

(** [event_id_map] after the query over the organizations of all messages: of several
    events with one id the last one read counts. *)
Definition event_id_map (parsed : list (UserReportTaskMessage * option Z)) (events : list EventRow) (event_uuid : Z) : option Z :=
  let org_ids := omap (fun m => match m.2 with Some _ => Some (ur_organization_id m.1) | None => None end) parsed in
  foldl (fun found ev =>
           if (ev_event_id ev =? event_uuid) && ev_recent ev && bool_decide (ev_organization_id ev ∈ org_ids) then Some (ev_issue_id ev) else found)
    None events.

Definition report_key (r : UserReportRow) : Z * Z := (report_project r, report_event_id r).

(** The n-th report without an event gets a new id. *)
Definition make_report (new_ids : nat -> Z) (parsed : list (UserReportTaskMessage * option Z)) (events : list EventRow)
    (n : nat) (m : UserReportTaskMessage * option Z) : UserReportRow :=
  let '(msg, event_uuid) := m in
  {| report_project := ur_project_id msg;
     report_issue := match event_uuid with Some id => event_id_map parsed events id | None => None end;
     report_event_id := match event_uuid with Some id => id | None => new_ids n end;
     report_name := ur_name msg; report_email := ur_email msg; report_comments := ur_comments msg |}.

(** [abulk_create(..., ignore_conflicts=True)]; a text with a NUL or beyond its column fails
    the statement. *)
Definition report_storable (r : UserReportRow) : bool :=
  fits 128 (VStr (report_name r)) && fits 254 (VStr (report_email r)) && negb (existsb (Z.eqb 0) (report_comments r)).

Definition insert_report (table : list UserReportRow) (r : UserReportRow) : list UserReportRow :=
  if bool_decide (report_key r ∈ map report_key table) then table else table ++ [r].

Definition ingest_user_report (new_ids : nat -> Z) (messages : list UserReportTaskMessage) (events : list EventRow) (table : list UserReportRow) :
    res (list UserReportRow) :=
  let parsed := omap parse_report messages in
  let reports := imap (make_report new_ids parsed events) parsed in
  if forallb report_storable reports then Ok (foldl insert_report table reports) else Raise DataError.

(** ** Reachable states *)

Section reachable.
(** UUIDs are 128-bit numbers. *)
Definition uuid_range (id : Z) : Prop := 0 <= id < 2 ^ 128.

Definition item_range (item : Item) : Prop := forall id, item_event_id item = Some id -> uuid_range id.

Record env_ok (E : Env) : Prop := {
  ok_uuid4 : forall n, uuid_range (uuid4 E n);
  ok_header : forall h id, validate_envelope_header E h = Some (Some id) -> uuid_range id;
  ok_event : forall b item, validate_event E b = Valid item -> item_range item;
  ok_transaction : forall b item, validate_transaction E b = Valid item -> item_range item;
  ok_event_data : forall d item, validate_event_data E d = Valid item -> item_range item }.

(** A request to one of the endpoints that take an event id, in whatever environment. *)
Inductive ingest_step : Ingest -> Ingest -> Prop :=
| step_envelope E r s : env_ok E -> ingest_step s (event_envelope_view E r s).2
| step_minidump E read_form r s : env_ok E -> ingest_step s (minidump_view E read_form r s).2
| step_store E r payload s : env_ok E -> (forall item, payload = Some item -> item_range item) -> ingest_step s (event_store E r payload s).2.
End reachable.

Definition fresh_ingest : Ingest := {| auth := fresh_auth; seen := ∅; queue := []; sent := 0; drawn_ids := 0 |}.

(** The event messages of the queue with the id in their payload. *)
Definition job_message (j : Job) : option IngestTaskMessage :=
  match j with IngestEvent m | IngestTransaction m => Some m | _ => None end.

Definition message_event_id (m : IngestTaskMessage) : value := default VNone (dlookup (KStr (u "event_id")) (im_payload m)).

(** Two messages with one event id lie at least the cache's timeout apart. *)
Definition spaced (m1 m2 : IngestTaskMessage) : Prop := message_event_id m1 = message_event_id m2 -> im_received m1 + CACHE_TIMEOUT <= im_received m2.

(** ** Lemmas *)

Lemma dlookup_scrub_event sc k d : k ∉ map KStr EVENT_SECTIONS -> dlookup k (scrub_event sc d) = dlookup k d.
Proof.
  intros Hk. unfold scrub_event. destruct (negb _); [done|]. revert d. induction EVENT_SECTIONS as [|sec l IH]; intros d; [done|].
  cbn [fold_left]. apply not_elem_of_cons in Hk as [Hne Hk]. rewrite IH by done. unfold scrub_section.
  repeat case_match; try done; by rewrite dlookup_dset_ne.
Qed.

Lemma dlookup_serialize k d : dlookup k (serialize_payload d) = serialize_for_vtasks <$> dlookup k d.
Proof.
  unfold dlookup, serialize_payload. induction d as [|[k' v] d IH]; [done|]. cbn. by destruct (decide (k' = k)).
Qed.

Lemma item_dict_id id item : dlookup (KStr (u "event_id")) (item_dict id item) = Some (VStr (hex 32 id)).
Proof. apply dlookup_dset_eq. Qed.

Lemma with_type_id item d : dlookup (KStr (u "event_id")) (with_type item d) = dlookup (KStr (u "event_id")) d.
Proof. unfold with_type. by rewrite dlookup_dset_ne. Qed.

Definition ingest_ok (s : Ingest) : Prop :=
  StronglySorted spaced (omap job_message (queue s))
  /\ forall m, m ∈ omap job_message (queue s) ->
       exists id e, uuid_range id /\ message_event_id m = VStr (hex 32 id) /\ seen s !! id = Some e /\ im_received m + CACHE_TIMEOUT <= e.

Lemma StronglySorted_snoc {A} (R : A -> A -> Prop) l x : StronglySorted R l -> Forall (fun y => R y x) l -> StronglySorted R (l ++ [x]).
Proof.
  induction l as [|y l IH]; intros Hs Hf; cbn; [by repeat constructor|]. apply StronglySorted_inv in Hs as [Hs Hy]. apply Forall_cons in Hf as [Hyx Hf].
  constructor; [by apply IH|]. apply Forall_app. split; [done|]. by apply Forall_singleton.
Qed.

Lemma hex_id_inj x y : uuid_range x -> uuid_range y -> hex 32 x = hex 32 y -> x = y.
Proof.
  intros Hx Hy H%hex_inj. change (16 ^ Z.of_nat 32) with (2 ^ 128) in H. unfold uuid_range in *. rewrite !Z.mod_small in H by done. done.
Qed.

Lemma VStr_inj a b : VStr a = VStr b -> a = b.
Proof. by intros [= ->]. Qed.

#[local] Opaque uuid_range hex.

(** What leaves queue and seen ids alone keeps the invariant. *)
Lemma ingest_ok_same s s' : queue s' = queue s -> seen s' = seen s -> ingest_ok s -> ingest_ok s'.
Proof. unfold ingest_ok. by intros -> ->. Qed.

Lemma enqueue_other_ok E j s : job_message j = None -> ingest_ok s -> ingest_ok (enqueue E j s).2.
Proof.
  intros Hj Hs. unfold enqueue. destruct (queue_works E (sent s)); [|by eapply ingest_ok_same]. unfold ingest_ok in *. cbn [snd queue seen].
  rewrite omap_app. cbn. by rewrite Hj, app_nil_r.
Qed.

Lemma cache_add_ok now id s : ingest_ok s -> ingest_ok (cache_add now id s).2.
Proof.
  intros [Hs Hm]. unfold cache_add. destruct (seen s !! id) as [e|] eqn:E.
  - destruct (now <? e) eqn:El; [done|]. split; [done|]. cbn [snd queue seen]. intros m (id' & e' & Hr & Hi & He & Hle)%Hm.
    destruct (decide (id' = id)) as [->|Hne].
    + exists id, (now + CACHE_TIMEOUT). rewrite lookup_insert_eq. split_and!; try done. simplify_eq. unfold CACHE_TIMEOUT in *. lia.
    + exists id', e'. by rewrite lookup_insert_ne.
  - split; [done|]. cbn [snd queue seen]. intros m (id' & e' & Hr & Hi & He & Hle)%Hm. exists id', e'.
    rewrite lookup_insert_ne by congruence. done.
Qed.

(** The message of an id that was just added may be enqueued. *)
Lemma cache_add_enqueue_ok E id s j m :
  uuid_range id -> job_message j = Some m -> message_event_id m = VStr (hex 32 id) -> im_received m = now E ->
  (cache_add (now E) id s).1 = true -> ingest_ok s -> ingest_ok (enqueue E j (cache_add (now E) id s).2).2.
Proof.
  intros Hid Hj Hm Hnow Hadd Hs. pose proof (cache_add_ok (now E) id s Hs) as Hs'. unfold enqueue.
  destruct (queue_works _ _); [|by eapply ingest_ok_same]. unfold cache_add in *.
  destruct (match seen s !! id with Some _ => _ | None => _ end) eqn:El; [done|]. cbn [fst snd queue seen] in *.
  destruct Hs as [Hsort Hms], Hs' as [_ Hms']. split; cbn [snd queue seen]; rewrite omap_app; cbn; rewrite Hj; cbn.
  - apply StronglySorted_snoc; [done|]. apply Forall_forall. intros m1 (id1 & e1 & Hr1 & Hi1 & He1 & Hle1)%Hms Heq.
    rewrite Hi1, Hm in Heq. apply VStr_inj, hex_id_inj in Heq; [|done..]. subst id1. rewrite He1 in El. lia.
  - intros m1 [Hm1|Hm1]%elem_of_app; [by apply Hms'|]. apply list_elem_of_singleton in Hm1 as ->. exists id, (now E + CACHE_TIMEOUT).
    rewrite lookup_insert_eq. split_and!; try done. lia.
Qed.

Section preserve.
Context (E : Env) (HE : env_ok E).

Lemma message_id pid p payload primary_id id :
  dlookup (KStr (u "event_id")) payload = Some (VStr (hex 32 id)) -> message_event_id (task_message E pid p payload primary_id) = VStr (hex 32 id).
Proof.
  intros H. unfold message_event_id, task_message. cbn [im_payload]. rewrite dlookup_serialize, dlookup_scrub_event, H; [done|]. by_decide.
Qed.

Lemma send_once_ok job pid p id payload s :
  (forall m, job_message (job m) = Some m) -> uuid_range id -> dlookup (KStr (u "event_id")) payload = Some (VStr (hex 32 id)) ->
  ingest_ok s -> ingest_ok (send_once E job pid p id payload s).2.
Proof.
  intros Hjob Hid Hp Hs. unfold send_once. cbn [next_id]. set (s1 := Build_Ingest _ _ _ _ _).
  assert (ingest_ok s1) as H1 by (by apply (ingest_ok_same s)).
  destruct (cache_add (now E) id s1) as [added s2] eqn:Ea. destruct added.
  - pose proof (cache_add_enqueue_ok E id s1 (job (task_message E pid p payload (uuid7 E (drawn_ids s)))) (task_message E pid p payload (uuid7 E (drawn_ids s)))
                  Hid (Hjob _) (message_id _ _ _ _ _ Hp) eq_refl) as H. rewrite Ea in H. by apply H.
  - pose proof (cache_add_ok (now E) id s1 H1) as H. by rewrite Ea in H.
Qed.

Lemma event_id_of_range item header s :
  (forall id, item = Some id -> uuid_range id) -> (forall id, header = Some id -> uuid_range id) ->
  uuid_range (event_id_of E item header s).1 /\ (ingest_ok s -> ingest_ok (event_id_of E item header s).2).
Proof.
  intros Hi Hh. unfold event_id_of. destruct item as [id|]; [by auto|]. destruct header as [id|]; [by auto|]. cbn [next_id fst snd].
  split; [apply (ok_uuid4 E HE)|]. by apply ingest_ok_same.
Qed.

Lemma set_client_ip_id ip item : item_event_id (set_client_ip ip item) = item_event_id item.
Proof. by destruct ip as [[|]|]. Qed.

(** An item with its id, sent once. *)
Lemma send_item_ok job pid p item header typed s :
  (forall m, job_message (job m) = Some m) -> item_range item -> (forall id, header = Some id -> uuid_range id) -> ingest_ok s ->
  ingest_ok (let '(id, s) := event_id_of E (item_event_id item) header s in
             send_once E job pid p id (if typed : bool then with_type item (item_dict id item) else item_dict id item) s).2.
Proof.
  intros Hjob Hi Hh Hs. destruct (event_id_of_range (item_event_id item) header s Hi Hh) as [Hid Hs'].
  destruct (event_id_of E (item_event_id item) header s) as [id s']. apply send_once_ok; [done|done| |by apply Hs'].
  destruct typed; rewrite ?with_type_id; apply item_dict_id.
Qed.

Lemma process_item_ok pid p ip header h payload l :
  (forall id, header = Some id -> uuid_range id) -> ingest_ok (loop_state l) -> ingest_ok (loop_state (process_item E pid p ip header h payload l)).
Proof.
  intros Hh Hs. unfold process_item. destruct (item_type h); try done.
  - unfold transaction_item. cbn. destruct (validate_transaction E payload) as [item| |] eqn:Ev; [|done..].
    apply (send_item_ok IngestTransaction pid p item None false); [done|by eapply (ok_transaction E HE)|done|done].
  - unfold event_item. cbn. destruct (validate_event E payload) as [item| |] eqn:Ev; [|done..].
    apply (send_item_ok IngestEvent pid p (set_client_ip ip item) header true); [done| |done|done].
    unfold item_range. rewrite set_client_ip_id. by eapply (ok_event E HE).
  - unfold report_item. cbn. destruct (validate_user_report E payload) as [r| |]; [|done..]. destruct (user_report_data r) as [[[a b] c] d].
    by apply enqueue_other_ok.
  - unfold report_item. cbn. destruct (validate_feedback E payload) as [c| |]; [|done..]. destruct (feedback_data E c) as [[[[a b] e] d]| |]; [|done..].
    by apply enqueue_other_ok.
  - destruct (enable_logs E); [|done]. unfold log_item. cbn. destruct (log_items_of E false payload); [|done]. by apply enqueue_other_ok.
  - destruct (enable_logs E); [|done]. unfold log_item. cbn. destruct (log_items_of E true payload); [|done]. by apply enqueue_other_ok.
  - by destruct (_ && _).
Qed.

Lemma process_items_ok pid p ip header items l :
  (forall id, header = Some id -> uuid_range id) -> ingest_ok (loop_state l) -> ingest_ok (loop_state (process_items E pid p ip header items l)).
Proof.
  intros Hh. revert l. induction items as [|[h payload] items IH]; intros l Hs; [done|]. cbn [process_items].
  destruct (validate_item_header E h); [|done]. by apply IH, process_item_ok.
Qed.

Lemma authenticate_ok r s : ingest_ok s -> ingest_ok (authenticate E r s).2.
Proof. intros Hs. unfold authenticate. destruct (event_auth _ _ _ _ _ _ _ _ _ _) as [a st]. by apply (ingest_ok_same s). Qed.

Lemma minidump_fallback_ok pid p header l :
  (forall id, header = Some id -> uuid_range id) -> ingest_ok (loop_state l) -> ingest_ok (minidump_fallback E pid p header l).
Proof.
  intros Hh Hs. unfold minidump_fallback. destruct (minidump_bytes l) as [data|]; [|done]. destruct (event_processed l); [done|].
  destruct (minidump_to_event E data VNone) as [d|]; [|done]. destruct (validate_event_data E d) as [item| |] eqn:Ev; [|done..].
  pose proof (send_item_ok IngestEvent pid p item header true (loop_state l) (fun m => eq_refl) (ok_event_data E HE _ _ Ev) Hh Hs) as H.
  by destruct (event_id_of E (item_event_id item) header (loop_state l)).
Qed.

Lemma event_envelope_view_ok r s : ingest_ok s -> ingest_ok (event_envelope_view E r s).2.
Proof.
  intros Hs. unfold event_envelope_view. destruct (negb _); [done|]. pose proof (authenticate_ok r s Hs) as Ha.
  destruct (authenticate E r s) as [[p|e] s1]; [|done]. cbn [snd] in Ha. destruct (body_bytes r) as [body|]; [|done].
  destruct (frame_envelope E body _) as [header items| |]; [|done..]. destruct (validate_envelope_header E header) as [header_id|] eqn:Eh; [|done].
  assert (forall id, header_id = Some id -> uuid_range id) as Hh by (intros id ->; by eapply (ok_header E HE)).
  by apply minidump_fallback_ok, process_items_ok.
Qed.

Lemma minidump_view_ok read_form r s : ingest_ok s -> ingest_ok (minidump_view E read_form r s).2.
Proof.
  intros Hs. unfold minidump_view. destruct (negb _); [done|]. pose proof (authenticate_ok r s Hs) as Ha.
  destruct (authenticate E r s) as [[p|e] s1]; [|done]. cbn [snd] in Ha. cbv zeta.
  destruct (match request_content_encoding r with Some _ => _ | None => _ end) as [form|e]; [|done].
  destruct (upload form) as [[|c data]|]; [done| |done]. destruct (negb _); [done|]. destruct (minidump_to_event E _ _) as [d|]; [|done].
  destruct (validate_event_data E d) as [item| |] eqn:Ev; [|done..].
  pose proof (send_item_ok IngestEvent (view_project_id r) p item None true s1 (fun m => eq_refl) (ok_event_data E HE _ _ Ev) (fun id H => ltac:(done)) Ha) as H.
  destruct (event_id_of E (item_event_id item) None s1) as [id s2]. cbv zeta in H. by destruct (send_once _ _ _ _ _ _ s2).
Qed.

Lemma event_store_ok r payload s : (forall item, payload = Some item -> item_range item) -> ingest_ok s -> ingest_ok (event_store E r payload s).2.
Proof.
  intros Hp Hs. unfold event_store. pose proof (authenticate_ok r s Hs) as Ha. destruct (authenticate E r s) as [[p|e] s1]; [|done]. cbn [snd] in Ha.
  destruct payload as [item|]; [|done]. destruct (item_event_id item) as [id|] eqn:Eid; [|done].
  pose proof (cache_add_ok (now E) id s1 Ha) as H2. destruct (cache_add (now E) id s1) as [added s2] eqn:Ea. destruct added; [|done]. cbn [negb next_id].
  set (s3 := Build_Ingest _ _ _ _ _). set (m := task_message _ _ _ _ _).
  pose proof (cache_add_enqueue_ok E id s1 (IngestEvent m) m (Hp item eq_refl id Eid) eq_refl
                (message_id _ _ _ _ _ (eq_trans (with_type_id _ _) (item_dict_id id _))) eq_refl) as H.
  rewrite Ea in H. specialize (H eq_refl Ha). cbn [snd] in H. unfold enqueue in *. cbn [s3 sent queue seen snd] in *.
  by destruct (queue_works E (sent s2)).
Qed.
End preserve.

(** ** What a request adds to the queue *)

Section adds.
Context (E : Env).

(** A job of the project, for its organization, with scrubbed contents. *)
Definition job_from (pid : Z) (p : ProjectAuthInfo) (j : Job) : Prop :=
  match j with
  | IngestEvent m | IngestTransaction m =>
      im_project_id m = pid /\ im_organization_id m = EventAuth.organization_id p
      /\ exists payload, im_payload m = serialize_payload (scrub_event (project_scrubber E p) payload)
  | IngestUserReport m => ur_project_id m = pid /\ ur_organization_id m = EventAuth.organization_id p
  | IngestLogs m =>
      m_project_id m = pid /\ m_organization_id m = EventAuth.organization_id p
      /\ exists items, m_logs m = map (fun item => serialize_payload (scrub_log (project_scrubber E p) item)) items
  end.

Definition adds (pid : Z) (p : ProjectAuthInfo) (s s' : Ingest) : Prop := exists js, queue s' = queue s ++ js /\ Forall (job_from pid p) js.

Lemma adds_same pid p s s' : queue s' = queue s -> adds pid p s s'.
Proof. intros H. exists []. by rewrite H, app_nil_r. Qed.

Lemma adds_trans pid p s1 s2 s3 : adds pid p s1 s2 -> adds pid p s2 s3 -> adds pid p s1 s3.
Proof.
  intros (j1 & E1 & H1) (j2 & E2 & H2). exists (j1 ++ j2). rewrite E2, E1, app_assoc. split; [done|]. by apply Forall_app.
Qed.

Lemma enqueue_adds pid p j s : job_from pid p j -> adds pid p s (enqueue E j s).2.
Proof.
  intros Hj. unfold enqueue. destruct (queue_works E (sent s)); [|by apply adds_same]. exists [j]. split; [done|]. by apply Forall_singleton.
Qed.

Lemma enqueue_reply_adds pid p j s s0 (yes no : Response) :
  adds pid p s s0 -> job_from pid p j -> adds pid p s (let '(ok, s) := enqueue E j s0 in (if ok : bool then yes else no, s)).2.
Proof.
  intros Hs Hj. eapply adds_trans; [exact Hs|]. pose proof (enqueue_adds pid p j s0 Hj) as H. by destruct (enqueue E j s0).
Qed.

Lemma cache_add_queue now id s : queue (cache_add now id s).2 = queue s.
Proof. unfold cache_add. by destruct (match seen s !! id with Some _ => _ | None => _ end). Qed.

Lemma send_once_adds job pid p id payload s :
  (forall m, job_from pid p (job m) <-> job_from pid p (IngestEvent m)) -> adds pid p s (send_once E job pid p id payload s).2.
Proof.
  intros Hjob. unfold send_once. cbn [next_id]. set (s1 := Build_Ingest _ _ _ _ _). pose proof (cache_add_queue (now E) id s1) as Hq.
  destruct (cache_add (now E) id s1) as [[] s2]; cbn [snd] in Hq; [|by apply adds_same].
  apply (adds_trans _ _ _ s2); [by apply adds_same|]. apply enqueue_adds, Hjob. cbn. split_and!; try done. by eexists.
Qed.

Lemma event_id_of_queue item header s : queue (event_id_of E item header s).2 = queue s.
Proof. by destruct item, header. Qed.

Lemma send_item_adds job pid p item header (payload : Z -> pydict) s :
  (forall m, job_from pid p (job m) <-> job_from pid p (IngestEvent m)) ->
  adds pid p s (let '(id, s) := event_id_of E item header s in send_once E job pid p id (payload id) s).2.
Proof.
  intros Hjob. pose proof (event_id_of_queue item header s) as Hq. destruct (event_id_of E item header s) as [id s1].
  apply (adds_trans _ _ _ s1); [by apply adds_same|]. by apply send_once_adds.
Qed.

Lemma process_item_adds pid p ip header h payload l : adds pid p (loop_state l) (loop_state (process_item E pid p ip header h payload l)).
Proof.
  unfold process_item. destruct (item_type h); try by apply adds_same.
  - unfold transaction_item. cbn. destruct (validate_transaction E payload) as [item| |]; [|by apply adds_same..]. by apply send_item_adds.
  - unfold event_item. cbn. destruct (validate_event E payload) as [item| |]; [|by apply adds_same..]. cbv zeta.
    by apply (send_item_adds IngestEvent pid p _ header (fun id => with_type (set_client_ip ip item) (item_dict id (set_client_ip ip item)))).
  - unfold report_item. cbn. destruct (validate_user_report E payload) as [r| |]; [|by apply adds_same..].
    destruct (user_report_data r) as [[[a b] c] d]. by apply enqueue_adds.
  - unfold report_item. cbn. destruct (validate_feedback E payload) as [c| |]; [|by apply adds_same..].
    destruct (feedback_data E c) as [[[[a b] e] d]| |]; [|by apply adds_same..]. by apply enqueue_adds.
  - destruct (enable_logs E); [|by apply adds_same]. unfold log_item. cbn. destruct (log_items_of E false payload); [|by apply adds_same].
    apply enqueue_adds. cbn. split_and!; try done. by eexists.
  - destruct (enable_logs E); [|by apply adds_same]. unfold log_item. cbn. destruct (log_items_of E true payload); [|by apply adds_same].
    apply enqueue_adds. cbn. split_and!; try done. by eexists.
  - destruct (_ && _); by apply adds_same.
Qed.

Lemma process_items_adds pid p ip header items l : adds pid p (loop_state l) (loop_state (process_items E pid p ip header items l)).
Proof.
  revert l. induction items as [|[h payload] items IH]; intros l; [by apply adds_same|]. cbn [process_items].
  destruct (validate_item_header E h); [|by apply adds_same]. eapply adds_trans; [apply process_item_adds|apply IH].
Qed.

Lemma minidump_fallback_adds pid p header l : adds pid p (loop_state l) (minidump_fallback E pid p header l).
Proof.
  unfold minidump_fallback. destruct (minidump_bytes l) as [data|]; [|by apply adds_same]. destruct (event_processed l); [by apply adds_same|].
  destruct (minidump_to_event E data VNone) as [d|]; [|by apply adds_same]. destruct (validate_event_data E d) as [item| |]; [|by apply adds_same..].
  pose proof (send_item_adds IngestEvent pid p (item_event_id item) header (fun id => with_type item (item_dict id item)) (loop_state l) (fun m => iff_refl _)) as H.
  by destruct (event_id_of E (item_event_id item) header (loop_state l)).
Qed.

(** The request itself carries the key: as a parameter of its URL or in a header. *)
Definition request_key (r : HttpRequest) (key : Z) : Prop :=
  exists text, auth_from_request (dsn r) = Some (Some text) /\ uuid_of text = Some key.

(** The jobs a request added come from the project the request's own key belongs to. *)
Definition authentic (r : HttpRequest) (s s' : Ingest) : Prop :=
  queue s' = queue s
  \/ exists key p, request_key r key /\ get_project_auth_info (db E) (view_project_id r) key = Some p
       /\ adds (view_project_id r) p s s'.

Lemma authenticate_row r s p :
  replica_ok (replica E) (db E) -> EventAuth.project_id (dsn r) = Some (view_project_id r) -> (authenticate E r s).1 = inl p ->
  exists key, request_key r key /\ get_project_auth_info (db E) (view_project_id r) key = Some p.
Proof.
  intros Hr Hp H. unfold authenticate in H.
  pose proof (event_auth_row (replica E) (db E) (auth s) (draw E) (lottery E) (calculate_retry_after E) (billing_enabled E) (maintenance_freeze E)
                (now E) (dsn r) p Hr) as Hrow.
  destruct (event_auth _ _ _ _ _ _ _ _ _ _) as [a st]. cbn [fst] in *. destruct (Hrow H) as (pid & text & key & Hpid & Htext & Hu & Hkey).
  exists key. split; [by exists text|congruence].
Qed.

Lemma authenticate_queue r s : queue (authenticate E r s).2 = queue s.
Proof. unfold authenticate. by destruct (event_auth _ _ _ _ _ _ _ _ _ _). Qed.
End adds.

(** ** Events that are not lost *)

Section deliver.
Context (E : Env) (Hq : forall n, queue_works E n = true) (id : Z).

Definition delivered (s : Ingest) : Prop := exists m, m ∈ omap job_message (queue s) /\ message_event_id m = VStr (hex 32 id).

(** The id is known only if its message is in the queue. *)
Definition known_delivered (s : Ingest) : Prop := match seen s !! id with Some e => now E <? e | None => false end = true -> delivered s.

Lemma delivered_adds pid p s s' : adds E pid p s s' -> delivered s -> delivered s'.
Proof.
  intros (js & Ej & _) (m & Hm & Hi). exists m. split; [|done]. rewrite Ej, omap_app. apply elem_of_app. by left.
Qed.

Lemma known_delivered_same s s' : queue s' = queue s -> seen s' = seen s -> known_delivered s -> known_delivered s'.
Proof. unfold known_delivered, delivered. by intros -> ->. Qed.

Lemma enqueue_known pid p j s : job_from E pid p j -> known_delivered s -> known_delivered (enqueue E j s).2.
Proof.
  intros Hj Hs Hadd. apply (delivered_adds pid p s); [by apply enqueue_adds|]. by apply Hs.
Qed.

Lemma send_once_known job pid p id' payload s :
  (forall m, job_message (job m) = Some m) -> (forall m, job_from E pid p (job m) <-> job_from E pid p (IngestEvent m)) ->
  dlookup (KStr (u "event_id")) payload = Some (VStr (hex 32 id')) -> known_delivered s ->
  known_delivered (send_once E job pid p id' payload s).2 /\ (id' = id -> delivered (send_once E job pid p id' payload s).2).
Proof.
  intros Hjob Hfrom Hp Hs. pose proof (send_once_adds E job pid p id' payload s Hfrom) as Hadds. revert Hadds.
  unfold send_once. cbn [next_id]. set (s1 := Build_Ingest _ _ _ _ _). set (m := task_message _ _ _ _ _). intros Hadds.
  assert (known_delivered s1) as Hs1 by (by apply (known_delivered_same s)).
  assert (forall e, delivered (enqueue E (job m) {| auth := auth s1; seen := e; queue := queue s1; sent := sent s1; drawn_ids := drawn_ids s1 |}).2 \/ id' <> id) as Hnew.
  { intros e. destruct (decide (id' = id)) as [->|]; [left|by right]. unfold enqueue. rewrite Hq. exists m. cbn [snd queue]. split; [|by apply message_id].
    rewrite omap_app. apply elem_of_app. right. cbn. rewrite Hjob. by left. }
  unfold cache_add in *. destruct (match seen s1 !! id' with Some _ => _ | None => _ end) eqn:El.
  - split; [done|]. intros ->. by apply Hs1.
  - split.
    + intros Hadd. destruct (Hnew (<[id':=now E + CACHE_TIMEOUT]> (seen s1))) as [?|Hne]; [done|]. eapply delivered_adds; [exact Hadds|].
      apply Hs. unfold enqueue in Hadd. cbn [snd seen] in Hadd. by rewrite lookup_insert_ne in Hadd.
    + intros Hid. by destruct (Hnew (<[id':=now E + CACHE_TIMEOUT]> (seen s1))).
Qed.

Lemma send_item_known job pid p item header typed s :
  (forall m, job_message (job m) = Some m) -> (forall m, job_from E pid p (job m) <-> job_from E pid p (IngestEvent m)) -> known_delivered s ->
  let r := (let '(id, s) := event_id_of E (item_event_id item) header s in
            send_once E job pid p id (if typed : bool then with_type item (item_dict id item) else item_dict id item) s).2 in
  known_delivered r /\ (item_event_id item = Some id -> delivered r).
Proof.
  intros Hjob Hfrom Hs. assert (known_delivered (event_id_of E (item_event_id item) header s).2) as H1.
  { apply (known_delivered_same s); [apply event_id_of_queue| |done]. by destruct (item_event_id item), header. }
  assert (item_event_id item = Some id -> (event_id_of E (item_event_id item) header s).1 = id) as H2 by (by intros ->).
  destruct (event_id_of E (item_event_id item) header s) as [id' s1]. cbn [fst snd] in *.
  destruct (send_once_known job pid p id' (if typed then with_type item (item_dict id' item) else item_dict id' item) s1 Hjob Hfrom) as [H3 H4]; [|done|].
  - destruct typed; rewrite ?with_type_id; apply item_dict_id.
  - split; [done|]. auto.
Qed.

Lemma process_item_known pid p ip header h payload l :
  known_delivered (loop_state l) -> known_delivered (loop_state (process_item E pid p ip header h payload l)).
Proof.
  intros Hs. unfold process_item. destruct (item_type h); try done.
  - unfold transaction_item. cbn. destruct (validate_transaction E payload) as [item| |]; [|done..].
    by apply (send_item_known IngestTransaction pid p item None false).
  - unfold event_item. cbn. destruct (validate_event E payload) as [item| |]; [|done..].
    by apply (send_item_known IngestEvent pid p (set_client_ip ip item) header true).
  - unfold report_item. cbn. destruct (validate_user_report E payload) as [r| |]; [|done..]. destruct (user_report_data r) as [[[a b] c] d].
    by apply (enqueue_known pid p).
  - unfold report_item. cbn. destruct (validate_feedback E payload) as [c| |]; [|done..]. destruct (feedback_data E c) as [[[[a b] e] d]| |]; [|done..].
    by apply (enqueue_known pid p).
  - destruct (enable_logs E); [|done]. unfold log_item. cbn. destruct (log_items_of E false payload); [|done]. apply (enqueue_known pid p); [|done].
    cbn. split_and!; try done. by eexists.
  - destruct (enable_logs E); [|done]. unfold log_item. cbn. destruct (log_items_of E true payload); [|done]. apply (enqueue_known pid p); [|done].
    cbn. split_and!; try done. by eexists.
  - by destruct (_ && _).
Qed.

(** A valid event behind valid headers gets its message. *)
Lemma process_items_deliver pid p ip header_id pre h ih payload post item l :
  (forall x, x ∈ pre -> exists ih, validate_item_header E x.1 = inl ih) ->
  validate_item_header E h = inl ih -> item_type ih = Event -> validate_event E payload = Valid item ->
  item_event_id item = Some id -> known_delivered (loop_state l) ->
  delivered (loop_state (process_items E pid p ip header_id (pre ++ (h, payload) :: post) l)).
Proof.
  intros Hpre Hi Hty Hv Hid. revert l. induction pre as [|[h' b'] pre IH]; intros l Hl; cbn [app process_items].
  - rewrite Hi. eapply delivered_adds; [apply process_items_adds|]. unfold process_item. rewrite Hty. unfold event_item. cbn [loop_state]. rewrite Hv.
    apply (send_item_known IngestEvent pid p (set_client_ip ip item) header_id true); [done..|]. by rewrite set_client_ip_id.
  - destruct (Hpre (h', b') ltac:(by left)) as [ih' Hih]. cbn [fst] in Hih. rewrite Hih.
    apply IH; [intros x Hx; apply Hpre; by right|]. by apply process_item_known.
Qed.
End deliver.

(** ** Properties *)

(** C5: No event is processed twice: whatever requests come to the envelope, minidump and store
    endpoints, in whatever order and whatever fails, two queued messages with one event id
    lie at least the five minutes apart for which the id is remembered. *)
Theorem events_enqueued_once (s : Ingest) : rtc ingest_step fresh_ingest s -> StronglySorted spaced (omap job_message (queue s)).
Proof.
  intros Hs. assert (ingest_ok fresh_ingest) as H0 by (split; [constructor|by intros m ?%elem_of_nil]).
  assert (ingest_ok s) as [H _]; [|exact H]. remember fresh_ingest as s0. clear Heqs0.
  induction Hs as [s|s s1 s2 Hstep _ IH]; [exact H0|]. apply IH.
  destruct Hstep; [by apply event_envelope_view_ok|by apply minidump_view_ok|by apply event_store_ok].
Qed.

(** C6: Nobody can write into another project.  If the replica, when it answers, shows
    the keys of the primary, and the authentication and the view read one project id from
    the path, every request to the envelope, minidump, store and security
    endpoints leaves the queue as it is, or it carries a key (in its URL or a header) for
    which the database has a row of the project in its path, and every job it adds is of
    that project and of that row's organization.  The payloads of events, transactions
    and logs went through that project's scrubber; user reports are queued as sent. *)
Theorem jobs_authentic (E : Env) (r : HttpRequest) (s : Ingest) read_form payload csp_event :
  replica_ok (replica E) (db E) -> EventAuth.project_id (dsn r) = Some (view_project_id r) ->
  authentic E r s (event_envelope_view E r s).2 /\ authentic E r s (minidump_view E read_form r s).2
  /\ authentic E r s (event_store E r payload s).2 /\ authentic E r s (event_security E r csp_event s).2.
Proof.
  intros Hr Hp. pose proof (authenticate_queue E r s) as Hq. pose proof (fun p => authenticate_row E r s p Hr Hp) as Hrow.
  assert (forall p s', (authenticate E r s).1 = inl p -> adds E (view_project_id r) p (authenticate E r s).2 s' -> authentic E r s s') as Hadds.
  { intros p s' Ha Hs. right. destruct (Hrow p Ha) as (key & Hown & Hkey). exists key, p. do 2 (split; [done|]). eapply adds_trans; [|exact Hs]. by apply adds_same. }
  split_and!.
  - unfold event_envelope_view. destruct (negb _); [by left|]. destruct (authenticate E r s) as [[p|e] s1]; [|by left]. cbn [fst snd] in *.
    destruct (body_bytes r) as [body|]; [|by left]. destruct (frame_envelope E body _) as [h items| |]; [|by left..].
    destruct (validate_envelope_header E h) as [header|]; [|by left]. apply (Hadds p); [done|].
    eapply adds_trans; [|apply minidump_fallback_adds]. apply (process_items_adds E _ _ _ _ items {| minidump_bytes := None; event_processed := false; loop_state := s1 |}).
  - unfold minidump_view. destruct (negb _); [by left|]. destruct (authenticate E r s) as [[p|e] s1]; [|by left]. cbn [fst snd] in *. cbv zeta.
    destruct (match request_content_encoding r with Some _ => _ | None => _ end) as [form|e]; [|by left].
    destruct (upload form) as [[|c data]|]; [by left| |by left]. destruct (negb _); [by left|]. destruct (minidump_to_event E _ _) as [d|]; [|by left].
    destruct (validate_event_data E d) as [item| |]; [|by left..]. apply (Hadds p); [done|].
    pose proof (send_item_adds E IngestEvent (view_project_id r) p (item_event_id item) None (fun id => with_type item (item_dict id item)) s1 (fun m => iff_refl _)) as H.
    destruct (event_id_of E (item_event_id item) None s1) as [id s2]. cbv beta zeta in H. by destruct (send_once _ _ _ _ _ _ s2).
  - unfold event_store. destruct (authenticate E r s) as [[p|e] s1]; [|by left]. cbn [fst snd] in *. destruct payload as [item|]; [|by left].
    destruct (item_event_id item) as [id|]; [|by left]. pose proof (cache_add_queue (now E) id s1) as Hc. destruct (cache_add (now E) id s1) as [[] s2]; cbn [snd negb] in *.
    2: left; cbn [snd]; congruence.
    cbn [next_id]. apply (Hadds p); [done|]. apply enqueue_reply_adds; [by apply adds_same|]. cbn. split_and!; try done. by eexists.
  - unfold event_security. destruct (authenticate E r s) as [[p|e] s1]; [|by left]. cbn [fst snd] in *. destruct csp_event as [item|]; [|by left].
    cbn [next_id]. apply (Hadds p); [done|]. apply enqueue_reply_adds; [by apply adds_same|]. cbn. split_and!; try done. by eexists.
Qed.

(** A valid event is never lost to its neighbours: with a working queue, an accepted
    envelope with a valid event before its first bad item header answers with the envelope's
    id and leaves a message with the event's id in the queue, whatever the other items are,
    unless the id was already known. *)
Theorem valid_event_enqueued (E : Env) (r : HttpRequest) (s s1 : Ingest) (p : ProjectAuthInfo) body envelope_header header_id pre h ih payload post item id :
  (forall n, queue_works E n = true) -> method r = u "POST" -> authenticate E r s = (inl p, s1) -> body_bytes r = Some body ->
  frame_envelope E body (request_content_encoding r) = Framed envelope_header (pre ++ (h, payload) :: post) ->
  validate_envelope_header E envelope_header = Some header_id ->
  (forall x, x ∈ pre -> exists ih, validate_item_header E x.1 = inl ih) ->
  validate_item_header E h = inl ih -> item_type ih = Event -> validate_event E payload = Valid item ->
  item_event_id item = Some id -> (cache_add (now E) id s1).1 = true ->
  (event_envelope_view E r s).1 = EventId header_id /\ delivered id (event_envelope_view E r s).2.
Proof.
  intros Hq Hm Ha Hb Hf Hh Hpre Hi Hty Hv Hid Hnew. unfold event_envelope_view. rewrite Hm, Ha, Hb, Hf, Hh. assert (ustr_eqb (u "POST") (u "POST") = true) as -> by by_compute.
  cbn [negb fst snd]. split; [done|]. eapply delivered_adds; [apply minidump_fallback_adds|].
  eapply process_items_deliver; try done.
  unfold known_delivered. cbn [loop_state]. unfold cache_add in Hnew. by destruct (match seen s1 !! id with Some _ => _ | None => _ end).
Qed.

(** In every state the block cache can get into, a POST to the envelope endpoint is answered,
    with the envelope's id or a refusal, except during the maintenance freeze: its exception is
    not among those the view catches, so that clients get a server error instead of the 503
    that the native OTLP endpoint gives. *)
Theorem envelope_answered_unless_frozen (E : Env) (r : HttpRequest) (s : Ingest) :
  rates_ok (db E) -> replica_ok (replica E) (db E) -> rtc (request (replica E) (db E)) fresh_auth (auth s) -> valid_request (dsn r) ->
  method r = u "POST" ->
  ((event_envelope_view E r s).1 = Unhandled <-> maintenance_freeze E = true)
  /\ (forall decode, enable_logs E = true -> maintenance_freeze E = true ->
       (otlp_logs_view E decode r s).1 = Detail 503 (u "Events are not currently being accepted due to maintenance.")).
Proof.
  intros Hr Hp Hs Hv Hm. split.
  - unfold event_envelope_view. rewrite Hm. assert (ustr_eqb (u "POST") (u "POST") = true) as -> by by_compute. cbn [negb].
    unfold authenticate, event_auth. destruct (maintenance_freeze E); [done|].
    pose proof (get_project_not_503 (replica E) (db E) (auth s) (draw E) (lottery E) (calculate_retry_after E) (billing_enabled E) (now E) (dsn r)) as H1.
    apply reachable_cache_ok in Hs; [|done..].
    destruct (get_project_ok (draw E) (lottery E) (calculate_retry_after E) (billing_enabled E) (replica E) (db E) Hr Hp (now E) (dsn r) (auth s) Hv Hs) as [_ H2].
    destruct (get_project _ _ _ _ _ _ _ _ _) as [[p|e] st]; cbn [fst] in *; [|by destruct e].
    split; [|done]. destruct (body_bytes r) as [body|]; [|done]. destruct (frame_envelope E body _); [|done..]. by destruct (validate_envelope_header E header).
  - intros decode Hl Hf. unfold otlp_logs_view. rewrite Hm, Hl. assert (ustr_eqb (u "POST") (u "POST") = true) as -> by by_compute. cbn [negb].
    unfold get_project_by_key. by rewrite Hf.
Qed.

Lemma insert_reports_spec reports table :
  table `prefix_of` foldl insert_report table reports
  /\ (NoDup (map report_key table) -> NoDup (map report_key (foldl insert_report table reports)))
  /\ (forall r, r ∈ reports -> report_key r ∈ map report_key (foldl insert_report table reports))
  /\ (forall r, r ∈ foldl insert_report table reports -> r ∈ table \/ r ∈ reports).
Proof.
  revert table. induction reports as [|r reports IH]; intros table; [split_and!; try done; [by intros ? ?%elem_of_nil|by left]|]. cbn [foldl].
  destruct (IH (insert_report table r)) as ([l Hl] & Hnd & Hin & Hfrom). unfold insert_report in *. destruct (bool_decide _) eqn:Ek.
  - apply bool_decide_eq_true in Ek. split_and!; [by exists l|done| |].
    + intros x [->|Hx]%elem_of_cons; [|by apply Hin]. rewrite Hl, map_app. apply elem_of_app. by left.
    + intros x Hx. destruct (Hfrom x Hx); [by left|right; by right].
  - apply bool_decide_eq_false in Ek. split_and!.
    + exists (r :: l). by rewrite Hl, <- app_assoc.
    + intros Ht. apply Hnd. rewrite map_app. apply NoDup_app. split_and!; [done| |apply NoDup_singleton]. intros x Hx Hx2.
      apply list_elem_of_singleton in Hx2 as ->. done.
    + intros x [->|Hx]%elem_of_cons; [|by apply Hin]. rewrite Hl, !map_app. apply elem_of_app. left. apply elem_of_app. right. by left.
    + intros x Hx. destruct (Hfrom x Hx) as [[?|?]%elem_of_app|?]; [by left|right; apply elem_of_cons; left; by apply list_elem_of_singleton|right; by right].
Qed.

(** The issue of a report belongs to a recent event with the report's id, of an organization of
    the batch. *)
Lemma event_id_map_spec parsed events id i :
  event_id_map parsed events id = Some i ->
  exists ev m, ev ∈ events /\ m ∈ parsed /\ ev_event_id ev = id /\ ev_issue_id ev = i /\ ev_recent ev = true
    /\ ev_organization_id ev = ur_organization_id m.1.
Proof.
  unfold event_id_map. set (orgs := omap _ parsed). induction events as [|ev events IH] using rev_ind; [done|]. rewrite foldl_snoc.
  destruct (_ && _ && _) eqn:Ec.
  - intros [= <-]. apply andb_true_iff in Ec as [[E1%Z.eqb_eq E2]%andb_true_iff E3%bool_decide_eq_true].
    apply list_elem_of_omap in E3 as (m & Hm & Ho). exists ev, m. destruct m as [msg [eu|]]; [|done]. cbn in *. injection Ho as Ho.
    split_and!; try done. apply elem_of_app. right. by left.
  - intros (ev' & m & Hev & Hm)%IH. exists ev', m. split; [apply elem_of_app; by left|done].
Qed.

(** One bad user report spoils no other: messages whose event id is no UUID change nothing,
    the others are stored once per project and event, rows that are there stay as they are,
    and a report is linked only to the issue of a recent event with its id. *)
Theorem user_reports_stored new_ids (messages : list UserReportTaskMessage) events table table' :
  ingest_user_report new_ids messages events table = Ok table' ->
  ingest_user_report new_ids (filter (fun m => parse_report m <> None) messages) events table = Ok table'
  /\ table `prefix_of` table' /\ (NoDup (map report_key table) -> NoDup (map report_key table'))
  /\ (forall m id, m ∈ messages -> parse_report m = Some (m, Some id) -> (ur_project_id m, id) ∈ map report_key table')
  /\ (forall r i, r ∈ table' -> r ∉ table -> report_issue r = Some i ->
        exists ev m, ev ∈ events /\ m ∈ messages /\ ev_event_id ev = report_event_id r /\ ev_issue_id ev = i /\ ev_recent ev = true
          /\ ev_organization_id ev = ur_organization_id m).
Proof.
  unfold ingest_user_report. intros H.
  assert (omap parse_report (filter (fun m => parse_report m <> None) messages) = omap parse_report messages) as ->.
  { clear. induction messages as [|m l IH]; [done|]. rewrite filter_cons. cbn. destruct (parse_report m) as [x|] eqn:Em.
    - rewrite decide_True by done. cbn. by rewrite Em, IH.
    - rewrite decide_False by (by intros ?). done. }
  set (parsed := omap parse_report messages) in *. set (reports := imap _ parsed) in *.
  destruct (forallb report_storable reports); [|done]. injection H as <-. split; [done|].
  destruct (insert_reports_spec reports table) as (H1 & H2 & H3 & H4). split_and!; try done.
  - intros m id Hm Hp. assert ((m, Some id) ∈ parsed) as Hin by (apply list_elem_of_omap; by exists m).
    apply list_elem_of_lookup in Hin as [n Hn]. assert (make_report new_ids parsed events n (m, Some id) ∈ reports) as Hr.
    { apply list_elem_of_lookup. exists n. unfold reports. by rewrite list_lookup_imap, Hn. }
    apply H3 in Hr. done.
  - intros r i Hr Hn Hi. destruct (H4 r Hr) as [?|Hrep]; [done|]. apply list_elem_of_lookup in Hrep as [n Hrep]. unfold reports in Hrep.
    rewrite list_lookup_imap in Hrep. destruct (parsed !! n) as [[msg [id|]]|]; [|cbn in Hrep; simplify_eq..|done]. cbn in Hrep. injection Hrep as <-. cbn in *.
    destruct (event_id_map_spec _ _ _ _ Hi) as (ev & m & Hev & Hm & ? & ? & ? & Ho). apply list_elem_of_omap in Hm as (m' & Hm' & Hpm).
    exists ev, m'. split_and!; try done. unfold parse_report in Hpm. rewrite Ho. destruct (ur_event_id m') as [[|c t]|]; [by simplify_eq/=| |by simplify_eq/=].
    destruct (uuid_of (c :: t)); [|done]. by simplify_eq/=.
Qed.

(** ** Witnesses and examples *)

(** Two projects of different organizations with the keys 5 and 6; a body is framed as the
    item types it names, one letter each; "e" is an event and "t" a transaction with the id
    7, "x" a type that nobody knows. *)
Definition two_projects : Db :=
  let project org := {| pr_scrub_ip := false; pr_throttle := 0; pr_org := org; pr_first_event := None;
                        pr_scrub_config := VDict [(KStr (u "enabled"), VBool true)] |} in
  let org := {| is_accepting_events_ := true; org_throttle_rate := 0; org_scrub_ip := false |} in
  {| db_projects := {[5 := project 1; 6 := project 2]};
     db_keys := {[5 := {| key_project := 5; is_active := true |}; 6 := {| key_project := 6; is_active := true |}]};
     db_orgs := {[1 := org; 2 := org]} |}.

Definition sample_item : Item :=
  {| item_event_id := Some 7; fields := [(KStr (u "exception"), VNone); (KStr (u "extra"), VDict [(KStr (u "password"), VStr (u "hunter2"))])] |}.

Definition sample_header (h : ustr) : ItemHeaderSchema + HeaderError :=
  if ustr_eqb h (u "e") then inl {| item_type := Event; attachment_type := None |}
  else if ustr_eqb h (u "t") then inl {| item_type := Transaction; attachment_type := None |}
  else inr (UnknownType h).

Definition sample_env (at_us : Z) (works freeze : bool) : Env :=
  {| now := at_us; uuid4 := fun _ => 1; uuid7 := Z.of_nat; draw := fun _ => 0; lottery := never; calculate_retry_after := fun x => x;
     billing_enabled := false; maintenance_freeze := freeze; enable_logs := true; pii_scrub_default := VNone;
     replica := None; db := two_projects; queue_works := fun _ => works; anonymize_ip := fun ip => ip;
     json_loads := fun _ => None; py_repr := fun _ => []; fromisoformat_timestamp := fun _ => None;
     frame_envelope := fun body _ => Framed [] (map (fun c => ([c], [])) body); decompress_body := fun _ _ => BadFraming;
     validate_envelope_header := fun _ => Some None; validate_item_header := sample_header;
     validate_event := fun _ => Valid sample_item; validate_transaction := fun _ => Valid sample_item;
     validate_feedback := fun _ => Invalid; validate_feedback_context := fun _ => Invalid;
     validate_user_report := fun _ => Invalid; validate_log_fields := fun _ => None;
     minidump_to_event := fun _ _ => None; validate_event_data := fun _ => Invalid |}.

Definition post (pid : Z) (body : string) : HttpRequest :=
  {| method := u "POST";
     dsn := {| EventAuth.project_id := Some pid; GET := [(u "sentry_key", hex 32 pid)]; HTTP_AUTHORIZATION := None; HTTP_X_SENTRY_AUTH := None |};
     view_project_id := pid; content_encoding := None; client_address := None; is_routable := false; body_bytes := Some (u body) |}.

Lemma sample_env_ok at_us works freeze : env_ok (sample_env at_us works freeze).
Proof. split; cbn; try done; intros b item [= <-] id [= <-]; done. Qed.

(** The queue holds the scrubbed event once, although it came twice. *)
Lemma events_enqueued_once_witness :
  let s1 := (event_envelope_view (sample_env 0 true false) (post 5 "te") fresh_ingest).2 in
  let s2 := (event_envelope_view (sample_env 1000 true false) (post 5 "e") s1).2 in
  StronglySorted spaced (omap job_message (queue s2)) /\ length (queue s2) = 1%nat.
Proof.
  intros s1 s2. split; [|by_compute]. apply events_enqueued_once. eapply rtc_l; [apply step_envelope, sample_env_ok|].
  apply rtc_once, step_envelope, sample_env_ok.
Defined.

(** The id is remembered for all projects: an event of project 6 with the id of one of
    project 5 is answered like any other and dropped. *)
Example other_project_drops_event :
  let s1 := (event_envelope_view (sample_env 0 true false) (post 5 "e") fresh_ingest).2 in
  let r2 := event_envelope_view (sample_env 1000 true false) (post 6 "e") s1 in
  r2.1 = EventId None /\ queue r2.2 = queue s1 /\ length (queue s1) = 1%nat.
Proof. vm_compute. split_and!; reflexivity. Qed.

(** The id is remembered although the event could not be enqueued: the client's retry is
    answered with success, and the event is lost. *)
Example retry_after_failure_lost :
  let r1 := event_envelope_view (sample_env 0 false false) (post 5 "e") fresh_ingest in
  let r2 := event_envelope_view (sample_env 1000 true false) (post 5 "e") r1.2 in
  (r1.1, r2.1, queue r2.2) = (EventId None, EventId None, []).
Proof. by_compute. Qed.

(** An item of an unknown type hides the items after it. *)
Example unknown_type_hides_rest :
  queue (event_envelope_view (sample_env 0 true false) (post 5 "xe") fresh_ingest).2 = [].
Proof. by_compute. Qed.

Lemma jobs_authentic_witness :
  let s' := (event_envelope_view (sample_env 0 true false) (post 5 "e") fresh_ingest).2 in
  authentic (sample_env 0 true false) (post 5 "e") fresh_ingest s'
  /\ map (fun j => match job_message j with Some m => (im_organization_id m, dget_none "extra" (im_payload m)) | None => (0, VNone) end) (queue s')
     = [(1, VDict [(KStr (u "password"), VStr (u "[Filtered]"))])].
Proof.
  split; [|by_compute].
  apply (jobs_authentic (sample_env 0 true false) (post 5 "e") fresh_ingest (fun _ => {| upload := None; sentry := None; stream := [] |}) None None);
    [apply no_replica|reflexivity].
Defined.

Lemma valid_event_enqueued_witness :
  let r := event_envelope_view (sample_env 0 true false) (post 5 "tex") fresh_ingest in
  r.1 = EventId None /\ delivered 7 r.2.
Proof.
  cbv zeta.
  destruct (authenticate (sample_env 0 true false) (post 5 "tex") fresh_ingest) as [[p|e] s1] eqn:Ea; [|vm_compute in Ea; discriminate Ea].
  eapply (valid_event_enqueued (sample_env 0 true false) (post 5 "tex") fresh_ingest s1 p (u "tex") [] None [(u "t", [])] (u "e")
           {| item_type := Event; attachment_type := None |} [] [(u "x", [])] sample_item 7); try reflexivity.
  - exact Ea.
  - intros x ->%list_elem_of_singleton. by eexists.
  - vm_compute in Ea. injection Ea as _ <-. vm_compute. reflexivity.
Defined.

Lemma envelope_answered_unless_frozen_witness :
  (event_envelope_view (sample_env 0 true true) (post 5 "e") fresh_ingest).1 = Unhandled
  /\ (event_envelope_view (sample_env 0 true false) (post 5 "e") fresh_ingest).1 <> Unhandled.
Proof.
  assert (forall freeze, rates_ok (db (sample_env 0 true freeze))) as Hr.
  { intros freeze pid p H. unfold project_info in H. cbn [sample_env db two_projects db_projects db_orgs] in H.
    destruct (_ !! pid) as [row|] eqn:Erow; [|done]. destruct (_ !! pr_org row) as [o|] eqn:Eo; [|done]. injection H as <-.
    apply lookup_insert_Some in Erow as [[_ <-]|[_ Erow]]; [|apply lookup_singleton_Some in Erow as [_ <-]]; cbn in *;
      (apply lookup_insert_Some in Eo as [[_ <-]|[_ Eo]]; [|apply lookup_singleton_Some in Eo as [_ <-]]); cbn; lia. }
  split.
  - apply (envelope_answered_unless_frozen (sample_env 0 true true) (post 5 "e") fresh_ingest); try done. intros pid [= <-]. done.
  - intros H. apply (envelope_answered_unless_frozen (sample_env 0 true false) (post 5 "e") fresh_ingest) in H; done.
Defined.

Definition report (org project : Z) (id : string) : UserReportTaskMessage :=
  {| ur_project_id := project; ur_organization_id := org; ur_event_id := Some (u id); ur_name := u "n"; ur_email := []; ur_comments := u "c" |}.
Definition event_9 : EventRow := {| ev_event_id := 9; ev_issue_id := 70; ev_organization_id := 2; ev_recent := true |}.
Definition id_9 : string := "00000000-0000-0000-0000-000000000009".

(** A report names the event of another organization: it is linked to that organization's
    issue when a report of that organization is in the same batch, and to none otherwise. *)
Example report_linked_across_organizations :
  let issues messages :=
    match ingest_user_report Z.of_nat messages [event_9] [] with Ok t => map (fun r => (report_project r, report_issue r)) t | Raise _ => [] end in
  (issues [report 1 5 id_9], issues [report 1 5 id_9; report 2 6 id_9]) = ([(5, None)], [(5, Some 70); (6, Some 70)]).
Proof. by_compute. Qed.

Lemma user_reports_stored_witness :
  exists table', ingest_user_report Z.of_nat [report 2 6 id_9; report 2 6 "12345"] [event_9] [] = Ok table'
    /\ ingest_user_report Z.of_nat [report 2 6 id_9] [event_9] [] = Ok table' /\ length table' = 1%nat.
Proof.
  eexists. split; [by_compute|]. split; [|by_compute].
  apply (user_reports_stored Z.of_nat [report 2 6 id_9; report 2 6 "12345"] [event_9] []). by_compute.
Defined.
