(* ===== verification/Assemble.v ===== *)
(** * Uploaded files

    [apps/files/api.py], [apps/files/models.py], [apps/files/assemble.py] and
    [apps/files/maintenance.py] with [sentry/utils/zip.py]: chunks are uploaded under their
    checksums, put together to artifact bundles, and unpacked to source files and source maps
    that are filed under their debug ids; old and unused blobs are removed. *)
From S2P Require Import Prelude PyStr PyValue UrlValidation EventAuth.

(** ** Paths *)

Definition SLASH : Z := 47.
Definition DOT : ustr := u ".".
Definition PARDIR : ustr := u "..".

(** [os.path.isabs] and [os.path.join] *)
Definition isabs (p : ustr) : bool := startswith [SLASH] p.

Definition path_join (a b : ustr) : ustr :=
  if isabs b then b
  else match a with [] => b | _ => if endswith [SLASH] a then a ++ b else a ++ SLASH :: b end.

(** One component in [os.path.normpath] of an absolute path; [acc] is reversed. *)
Definition norm_step (acc : list ustr) (comp : ustr) : list ustr :=
  if ustr_eqb comp [] || ustr_eqb comp DOT then acc
  else if ustr_eqb comp PARDIR then match acc with [] => [] | _ :: acc => acc end
  else comp :: acc.

Definition norm_comps (p : ustr) : list ustr := rev (foldl norm_step [] (split_on SLASH p)).

(** [os.path.normpath] of an absolute path: exactly two leading slashes stay two. *)
Definition initial_slashes (p : ustr) : ustr := if startswith (u "//") p && negb (startswith (u "///") p) then [SLASH; SLASH] else [SLASH].
Definition normpath (p : ustr) : ustr := initial_slashes p ++ join [SLASH] (norm_comps p).

Definition is_unsafe_path (path : ustr) : bool := isabs path || existsb (ustr_eqb PARDIR) (split_on SLASH path).

Definition dotted (member : ustr) : bool := match split_on SLASH member with p :: _ => startswith DOT p | [] => false end.

(** [os.path.commonprefix] of the qualifying members: the pieces that the least and the
    greatest of them share; only the first piece counts. *)
Definition find_common_prefix (members : list ustr) : ustr :=
  match filter (fun m => dotted m = false) members with
  | [] => []
  | m :: ms =>
      let first := hd [] (split_on SLASH m) in
      if forallb (fun m' => ustr_eqb (hd [] (split_on SLASH m')) first) ms then first ++ [SLASH] else []
  end.

(** ** The scratchpad *)

(** The files below the scratchpad by the components of their normalized paths. *)
Abbreviation tree := (gmap (list ustr) ustr).

(** A proper prefix of a path. *)
Definition proper_prefix (a b : list ustr) : bool := bool_decide (a = take (length a) b) && bool_decide (length a < length b)%nat.

(** [os.makedirs] and [open(dst_path, "wb")]: a file is no directory, and a directory no file. *)
Definition write_file (root p : list ustr) (content : ustr) (t : tree) : option tree :=
  if bool_decide (p = root) || existsb (fun q => proper_prefix q p || proper_prefix p q) (map_to_list t).*1 then None
  else Some (<[p := content]> t).

(** A path that ends in "." names a directory. *)
Definition names_directory (p : ustr) : bool := match rev (split_on SLASH p) with c :: _ => ustr_eqb c DOT | [] => false end.

(** [safe_extract_zip]; [None] when writing fails. *)
Definition extract_member (path prefix : ustr) (t : option tree) (m : ustr * ustr) : option tree :=
  if endswith [SLASH] m.1 then t
  else if negb (startswith prefix m.1) || is_unsafe_path m.1 then t
  else
    let dst_path := path_join path (drop (length prefix) m.1) in
    if names_directory dst_path then None else t ≫= write_file (norm_comps path) (norm_comps dst_path) m.2.

Definition safe_extract_zip (members : list (ustr * ustr)) (path : ustr) (strip_toplevel : bool) : option tree :=
  let prefix := if strip_toplevel then find_common_prefix (map fst members) else [] in
  foldl (extract_member path prefix) (Some ∅) members.

(** The path of a manifest entry, when it lies below the scratchpad. *)
Definition artifact_path (scratchpad rel_path : ustr) : option ustr :=
  let full_path := normpath (path_join scratchpad rel_path) in
  if startswith (normpath scratchpad ++ [SLASH]) full_path then Some full_path else None.

(** ** Confinement *)

(** A component that names a file or a directory. *)
Definition plain (c : ustr) : Prop := c <> [] /\ c <> DOT /\ c <> PARDIR /\ SLASH ∉ c.

Lemma split_on_parts sep s : Forall (fun c => sep ∉ c) (split_on sep s).
Proof.
  induction s as [|c s IH]; cbn [split_on]; [apply Forall_singleton, not_elem_of_nil|].
  destruct (Z.eqb_spec c sep) as [->|Hne]; [constructor; [apply not_elem_of_nil|done]|].
  destruct (split_on sep s) as [|w ws]; [apply Forall_singleton; rewrite list_elem_of_singleton; congruence|].
  apply Forall_cons in IH as [Hw Hws]. constructor; [|done]. apply not_elem_of_cons. split; [congruence|done].
Qed.

(** Components that never climb only extend what is there. *)
Lemma norm_step_extends acc comps :
  PARDIR ∉ comps -> Forall (fun c => SLASH ∉ c) comps ->
  exists rest, foldl norm_step acc comps = rev rest ++ acc /\ Forall plain rest.
Proof.
  revert acc. induction comps as [|c comps IH]; intros acc Hp Hs; [by exists []|]. apply not_elem_of_cons in Hp as [Hc Hp].
  apply Forall_cons in Hs as [Hcs Hs]. cbn [foldl]. unfold norm_step at 2. destruct (ustr_eqb c [] || ustr_eqb c DOT) eqn:E; [by apply IH|].
  apply orb_false_iff in E as [E1 E2]. assert (ustr_eqb c PARDIR = false) as -> by (apply not_true_iff_false; rewrite ustr_eqb_eq; congruence).
  destruct (IH (c :: acc) Hp Hs) as (rest & -> & Hrest). exists (c :: rest). split; [cbn; by rewrite <- app_assoc|].
  constructor; [|done]. split_and!; [| |congruence|done]; intros ->; by vm_compute in E1, E2.
Qed.

Lemma split_on_sep sep a b : split_on sep (a ++ sep :: b) = split_on sep a ++ split_on sep b.
Proof.
  induction a as [|c a IH]; cbn [app split_on]; [by rewrite Z.eqb_refl|]. rewrite IH. destruct (c =? sep); [done|].
  pose proof (split_on_nonempty sep a). by destruct (split_on sep a).
Qed.

Lemma split_on_join sep l : l <> [] -> Forall (fun c => sep ∉ c) l -> split_on sep (join [sep] l) = l.
Proof.
  intros Hl Hs. induction Hs as [|c l Hc Hs IH]; [done|]. destruct l as [|d l]; [by apply split_on_none|].
  change (join [sep] (c :: d :: l)) with (c ++ sep :: join [sep] (d :: l)). by rewrite split_on_app, IH.
Qed.

(** Joining a relative path to a base without a trailing slash appends its components. *)
Lemma split_join_path base b : base <> [] -> endswith [SLASH] base = false -> isabs b = false ->
  split_on SLASH (path_join base b) = split_on SLASH base ++ split_on SLASH b.
Proof. intros Hb He Ha. unfold path_join. rewrite Ha. destruct base as [|c base]; [done|]. rewrite He. apply split_on_sep. Qed.

(** A relative path that never climbs stays below its base. *)
Lemma norm_comps_below base b :
  base <> [] -> endswith [SLASH] base = false -> is_unsafe_path b = false ->
  exists rest, norm_comps (path_join base b) = norm_comps base ++ rest /\ Forall plain rest.
Proof.
  intros Hb He Hu. apply orb_false_iff in Hu as [Ha Hp]. unfold norm_comps. rewrite split_join_path, foldl_app by done.
  destruct (norm_step_extends (foldl norm_step [] (split_on SLASH base)) (split_on SLASH b)) as (rest & -> & Hrest).
  - intros Hin. apply not_true_iff_false in Hp. apply Hp. apply existsb_exists. exists PARDIR. split; [by apply list_elem_of_In|]. by apply ustr_eqb_eq.
  - apply split_on_parts.
  - exists rest. by rewrite rev_app_distr, rev_involutive.
Qed.

Lemma norm_comps_plain p : Forall plain (norm_comps p).
Proof.
  unfold norm_comps. apply Forall_rev. assert (Forall plain []) as Hacc by constructor. revert Hacc. generalize ([] : list ustr).
  pose proof (split_on_parts SLASH p) as Hs. induction Hs as [|c comps Hc Hs IH]; intros acc Hacc; [done|]. cbn [foldl]. apply IH.
  unfold norm_step. destruct (ustr_eqb c [] || ustr_eqb c DOT) eqn:E; [done|]. apply orb_false_iff in E as [E1 E2].
  destruct (ustr_eqb c PARDIR) eqn:E3; [destruct acc; [done|by apply Forall_cons in Hacc as [_ ?]]|].
  constructor; [|done]. split_and!; [intros ->; by vm_compute in E1|intros ->; by vm_compute in E2|intros ->; by vm_compute in E3|done].
Qed.

(** A text prefix that ends in a slash is a prefix of components. *)
Lemma prefix_components a b :
  a <> [] -> Forall plain a -> Forall plain b -> startswith (SLASH :: join [SLASH] a ++ [SLASH]) (SLASH :: join [SLASH] b) = true ->
  exists rest, b = a ++ rest /\ rest <> [].
Proof.
  intros Ha Hpa Hpb [r H]%startswith_spec. injection H as H. rewrite <- app_assoc in H. cbn [app] in H.
  assert (Forall (fun c => SLASH ∉ c) a) as Hsa by (eapply Forall_impl; [exact Hpa|]; unfold plain; tauto).
  assert (Forall (fun c => SLASH ∉ c) b) as Hsb by (eapply Forall_impl; [exact Hpb|]; unfold plain; tauto).
  assert (b <> []) as Hb by (intros ->; destruct (join [SLASH] a); done).
  exists (split_on SLASH r). split; [|apply split_on_nonempty].
  rewrite <- (split_on_join SLASH b), H, split_on_sep, split_on_join by done. done.
Qed.

Lemma initial_slashes_cases p : initial_slashes p = [SLASH] \/ initial_slashes p = [SLASH; SLASH].
Proof. unfold initial_slashes. case_match; auto. Qed.

(** Components do not begin with a slash. *)
Lemma join_no_slash a r x : a <> [] -> Forall plain a -> join [SLASH] a ++ r <> SLASH :: x.
Proof.
  intros Ha Hp E. destruct Hp as [|c a (Hc & _ & _ & Hs) Hp]; [done|]. destruct c as [|k c]; [done|].
  assert (k = SLASH) as -> by (destruct a; cbn in E; by injection E). apply Hs. left.
Qed.

Lemma normal_prefix p q :
  norm_comps p <> [] -> startswith (normpath p ++ [SLASH]) (normpath q) = true ->
  exists rest, norm_comps q = norm_comps p ++ rest /\ rest <> [].
Proof.
  intros Ha H. pose proof (norm_comps_plain p) as Hp. pose proof (norm_comps_plain q) as Hq. unfold normpath in H. rewrite <- app_assoc in H.
  apply startswith_spec in H as [r E].
  destruct (initial_slashes_cases p) as [Ep|Ep], (initial_slashes_cases q) as [Eq|Eq]; rewrite Ep, Eq in E; cbn [app] in E; injection E as E.
  - apply prefix_components; [done..|]. apply startswith_spec. exists r. cbn [app]. by rewrite E.
  - rewrite <- app_assoc in E. symmetry in E. by apply join_no_slash in E.
  - destruct (decide (norm_comps q = [])) as [Hn|Hn]; [by rewrite Hn in E|]. rewrite <- (app_nil_r (join _ (norm_comps q))) in E. by apply join_no_slash in E.
  - apply prefix_components; [done..|]. apply startswith_spec. exists r. cbn [app]. by rewrite E.
Qed.

(** The files of a tree lie below its root. *)
Definition below (root : list ustr) (p : list ustr) : Prop := exists rest, p = root ++ rest /\ rest <> [] /\ Forall plain rest.

Definition confined (root : list ustr) (t : tree) : Prop := forall p content, t !! p = Some content -> below root p.

Lemma write_file_confined root p content t t' :
  (exists rest, p = root ++ rest /\ Forall plain rest) -> confined root t -> write_file root p content t = Some t' -> confined root t'.
Proof.
  intros (rest & -> & Hrest) Ht. unfold write_file. destruct (_ || _) eqn:E; [done|]. intros [= <-]. apply orb_false_iff in E as [E _].
  apply bool_decide_eq_false in E. intros q c [[<- _]|[_ H]]%lookup_insert_Some; [|by eapply Ht]. exists rest. split_and!; try done.
  intros ->. by rewrite app_nil_r in E.
Qed.

Lemma extract_member_confined path t m :
  path <> [] -> endswith [SLASH] path = false -> (forall t0, t = Some t0 -> confined (norm_comps path) t0) ->
  forall t1, extract_member path [] t m = Some t1 -> confined (norm_comps path) t1.
Proof.
  intros Hp He Ht t1. unfold extract_member. destruct (endswith [SLASH] m.1); [by apply Ht|]. cbn [startswith negb orb length drop].
  destruct (is_unsafe_path m.1) eqn:Eu; [by apply Ht|]. destruct (names_directory _); [done|]. destruct t as [t0|]; [|done]. cbn [mbind option_bind].
  apply write_file_confined; [|by apply Ht]. by apply norm_comps_below.
Qed.

(** ** Blobs and files *)

(** [FileBlob]: its unique checksum, its bytes, size and time of creation. *)
Record FileBlob := { content : ustr; size : option Z; blob_created : Z }.

Record File := {
  name : ustr; type : value; headers : value; blob : option ustr; checksum : option ustr; file_size : Z; file_created : Z }.

(** A [DebugSymbolBundle] with the organization and, where there are any, debug id, release
    and source map. *)
Record DebugSymbolBundle := { organization : Z; debug_id : option Z; release : option Z; file : Z; sourcemap_file : option Z }.

Inductive ChunkFileState := OK | NOT_FOUND | CREATED | ASSEMBLING | ERROR.

(** Blobs by checksum (a blob never changes, so that its checksum serves as its id), files
    by id, the bundles, releases by organization and version, and the statuses by
    organization and checksum. *)
Record Store := {
  blobs : gmap ustr FileBlob; files : gmap Z File; next_file : Z; bundles : list DebugSymbolBundle;
  releases : gmap (Z * ustr) Z; next_release : Z; statuses : gmap (Z * ustr) (ChunkFileState * option ustr) }.

Definition with_blobs (b : gmap ustr FileBlob) (s : Store) : Store :=
  {| blobs := b; files := files s; next_file := next_file s; bundles := bundles s; releases := releases s; next_release := next_release s; statuses := statuses s |}.
Definition with_files (f : gmap Z File) (s : Store) : Store :=
  {| blobs := blobs s; files := f; next_file := next_file s; bundles := bundles s; releases := releases s; next_release := next_release s; statuses := statuses s |}.
Definition with_bundles (b : list DebugSymbolBundle) (s : Store) : Store :=
  {| blobs := blobs s; files := files s; next_file := next_file s; bundles := b; releases := releases s; next_release := next_release s; statuses := statuses s |}.

Definition set_assemble_status (org : Z) (sum : ustr) (state : ChunkFileState) (detail : option ustr) (s : Store) : Store :=
  {| blobs := blobs s; files := files s; next_file := next_file s; bundles := bundles s; releases := releases s; next_release := next_release s;
     statuses := <[(org, sum) := (state, detail)]> (statuses s) |}.

Definition create_file (f : File) (s : Store) : Z * Store :=
  (next_file s, {| blobs := blobs s; files := <[next_file s := f]> (files s); next_file := next_file s + 1; bundles := bundles s;
                   releases := releases s; next_release := next_release s; statuses := statuses s |}).

(** Deleting files deletes their bundles and takes the source map from others. *)
Definition clear_sourcemap (ids : list Z) (b : DebugSymbolBundle) : DebugSymbolBundle :=
  match sourcemap_file b with
  | Some m => if bool_decide (m ∈ ids)
              then {| organization := organization b; debug_id := debug_id b; release := release b; file := file b; sourcemap_file := None |} else b
  | None => b
  end.

Definition delete_files (ids : list Z) (s : Store) : Store :=
  {| blobs := blobs s; files := filter (fun kv => kv.1 ∉ ids) (files s); next_file := next_file s;
     bundles := map (clear_sourcemap ids) (filter (fun b => file b ∉ ids) (bundles s));
     releases := releases s; next_release := next_release s; statuses := statuses s |}.

(** ** Chunk upload *)

Definition CHUNK_UPLOAD_BLOB_SIZE : Z := 32 * 1024 * 1024.
Definition MAX_CHUNKS_PER_REQUEST : Z := 1.
Definition MAX_REQUEST_SIZE : Z := CHUNK_UPLOAD_BLOB_SIZE.

(** [get_or_create(checksum=..., defaults=...)] *)
Definition get_or_create_blob (now : Z) (sum data : ustr) (s : Store) : Store :=
  match blobs s !! sum with
  | Some _ => s
  | None => with_blobs (<[sum := {| content := data; size := Some (len data); blob_created := now |}]> (blobs s)) s
  end.

(** [FileBlob.from_files]: the checksum is the name the client gave. *)
Definition from_files (now : Z) (chunks : list (ustr * ustr)) (s : Store) : Store :=
  foldl (fun s c => get_or_create_blob now c.1 c.2 s) s chunks.

(** The unpacked chunks with their names; the error of a refused request. *)
Definition chunk_upload (now : Z) (chunks : list (ustr * ustr)) (s : Store) : option ustr * Store :=
  if existsb (fun c => CHUNK_UPLOAD_BLOB_SIZE <? len c.2) chunks then (Some (u "Chunk size too large"), s)
  else if MAX_REQUEST_SIZE <? zsum (map (fun c => len c.2) chunks) then (Some (u "Request too large"), s)
  else if MAX_CHUNKS_PER_REQUEST <? len chunks then (Some (u "Too many chunks"), s)
  else (None, from_files now chunks s).

(** ** Assembling a file *)

Definition MAX_FILE_SIZE : Z := 2 ^ 31.

(** What a [PositiveIntegerField] holds; saving more raises. *)
Definition MAX_POSITIVE_INTEGER : Z := 2 ^ 31 - 1.

(** How a step of the task ends: with a result, a status that tells why not, or an
    exception that leaves the task. *)
Inductive outcome (A : Type) := Done (a : A) | Failed (detail : ustr) | Crashed.
Arguments Done {A} _.
Arguments Failed {A} _.
Arguments Crashed {A}.

Section assemble.
Context (sha1 : ustr -> ustr) (now : Z).

(** The blobs of the distinct checksums among the chunks. *)
Definition file_blobs (chunks : list ustr) (s : Store) : list FileBlob := omap (fun c => blobs s !! c) (remove_dups chunks).

(** [File.assemble_from_file_blob_ids]: the bytes, and the file with its blob. *)
Definition assemble_from_file_blob_ids (parts : list (ustr * FileBlob)) (sum : ustr) (id : Z) (f : File) (s : Store) : outcome ustr * Store :=
  let data := concat (map (fun p => content p.2) parts) in
  match mapM (fun p => size p.2) parts with
  | None => (Crashed, s)
  | Some sizes =>
      let offset := zsum sizes in
      if negb (ustr_eqb sum (sha1 data)) then (Failed (u "Reported checksum mismatch"), s)
      else if MAX_POSITIVE_INTEGER <? offset then (Crashed, s)
      else
        let '(b, s) :=
          match parts with
          | [] => (None, s)
          | [p] => (Some p.1, s)
          | _ =>
              (Some sum, match blobs s !! sum with
                         | Some _ => s
                         | None => with_blobs (<[sum := {| content := data; size := Some offset; blob_created := now |}]> (blobs s)) s
                         end)
          end in
        (Done data,
         with_files (<[id := {| name := name f; type := type f; headers := headers f; blob := b; checksum := Some sum; file_size := offset;
                                file_created := file_created f |}]> (files s)) s)
  end.

(** [assemble_file]: the new file with its bytes. *)
Definition assemble_file (org : Z) (file_name sum : ustr) (chunks : list ustr) (file_type : ustr) (s : Store) : outcome (Z * ustr) * Store :=
  let fail detail s := (Failed detail, set_assemble_status org sum ERROR (Some detail) s) in
  let found := file_blobs chunks s in
  if MAX_FILE_SIZE <? zsum (omap size found) then fail (u "File exceeds maximum size") s
  else if negb (forallb (fun c => bool_decide (is_Some (blobs s !! c))) chunks) then fail (u "Not all chunks available for assembling") s
  else
    let parts := omap (fun c => pair c <$> blobs s !! c) chunks in
    let f := {| name := file_name; type := VStr file_type; headers := VNone; blob := None; checksum := Some sum; file_size := 0; file_created := now |} in
    let '(id, s) := create_file f s in
    match assemble_from_file_blob_ids parts sum id f s with
    | (Done data, s) => (Done (id, data), s)
    | (Failed detail, s) => fail detail (delete_files [id] s)
    | (Crashed, s) => (Crashed, s)
    end.

(** ** Artifact bundles *)

(** [File.putfile]: the blob with this size and checksum; another size under the same
    checksum violates its uniqueness. *)
Definition putfile (id : Z) (data : ustr) (f : File) (s : Store) : option Store :=
  let sum := sha1 data in
  let store s :=
    with_files (<[id := {| name := name f; type := type f; headers := headers f; blob := Some sum; checksum := Some sum; file_size := file_size f;
                           file_created := file_created f |}]> (files s)) s in
  match blobs s !! sum with
  | Some b => if bool_decide (size b = Some (len data)) then Some (store s) else None
  | None => Some (store (with_blobs (<[sum := {| content := data; size := Some (len data); blob_created := now |}]> (blobs s)) s))
  end.

(** What follows the last slash. *)
Definition basename (url : ustr) : ustr := default [] (last (split_on SLASH url)).

(** One entry of the manifest: the new file, [None] for an exception. *)
Definition store_artifact (scratchpad : ustr) (t : tree) (rel_path : ustr) (artifact : value) (s : Store) : option (Z * File) * Store :=
  match artifact with
  | VDict a =>
      match dget "url" (VStr rel_path) a, dlookup (KStr (u "type")) a with
      | VStr artifact_url, Some ty =>
          let f := {| name := basename artifact_url; type := ty; headers := dget "headers" (VDict []) a; blob := None; checksum := None;
                      file_size := 0; file_created := now |} in
          let '(id, s) := create_file f s in
          match t !! norm_comps (path_join scratchpad rel_path) with
          | Some data => match putfile id data f s with Some s => (Some (id, f), s) | None => (None, s) end
          | None => (None, s)
          end
      | _, _ => (None, s)
      end
  | _ => (None, s)
  end.

(** The loop over the manifest's files. *)
Fixpoint store_artifacts (scratchpad : ustr) (t : tree) (l : pydict) (made : list (Z * File)) (s : Store) : outcome (list (Z * File)) * Store :=
  match l with
  | [] => (Done made, s)
  | (KStr rel_path, artifact) :: l =>
      match artifact_path scratchpad rel_path with
      | None => (Failed (u "Invalid path in manifest"), delete_files (map fst made) s)
      | Some _ =>
          match store_artifact scratchpad t rel_path artifact s with
          | (Some f, s) => store_artifacts scratchpad t l (made ++ [f]) s
          | (None, s) => (Crashed, s)
          end
      end
  | _ :: _ => (Crashed, s)
  end.

(** [file.headers.get(k)]; [None] when the headers are no dictionary. *)
Definition header (k : string) (f : File) : option value := match headers f with VDict d => Some (dget_none k d) | _ => None end.

Definition has_type (t : string) (f : File) : bool := match type f with VStr s => ustr_eqb s (u t) | _ => false end.

(** [a == b] of header values: texts and numbers are compared, containers would be refused
    as debug ids afterwards. *)
Definition same_value (a b : value) : bool :=
  match a, b with
  | VStr x, VStr y => ustr_eqb x y
  | VInt x, VInt y => x =? y
  | VBool x, VBool y => Bool.eqb x y
  | _, _ => false
  end.

(** Whether [candidate] is the source map of [file]: the header names it, or both have the
    same debug id. *)
Definition is_sourcemap_of (file candidate : File) : option bool :=
  match headers file with
  | VDict d =>
      let named := match dlookup (KStr (u "sourcemap")) d with Some v => v | None => dget_none "Sourcemap" d end in
      if same_value named (VStr (name candidate)) then Some true
      else
        match header "debug-id" candidate, header "debug-id" file with
        | Some v, Some w => Some (vtruthy v && same_value v w)
        | _, _ => None
        end
  | _ => None
  end.

(** [next(...)] over the files, [None] for an exception. *)
Fixpoint find_sourcemap (file : File) (l : list (Z * File)) : option (option Z) :=
  match l with
  | [] => Some None
  | (id, candidate) :: l =>
      if has_type "source_map" candidate then
        match is_sourcemap_of file candidate with
        | Some true => Some (Some id)
        | Some false => find_sourcemap file l
        | None => None
        end
      else find_sourcemap file l
  end.

(** A bundle before it is saved, with its debug id as the manifest writes it. *)
Record Candidate := { c_debug_id : option dkey; c_file : Z; c_sourcemap : option Z }.

(** Texts and numbers can be debug ids; what else the header holds fails to be saved. *)
Definition debug_key (v : value) : option (option dkey) :=
  match v with
  | VNone => Some None
  | VStr s => Some (Some (KStr s))
  | VInt n => Some (Some (KInt n))
  | VBool b => Some (Some (KInt (if b then 1 else 0)))
  | _ => None
  end.

Definition candidate_of (all : list (Z * File)) (f : Z * File) : option Candidate :=
  let map := if has_type "minified_source" f.2 then find_sourcemap f.2 all else Some None in
  match map, header "debug-id" f.2 with
  | Some m, Some v => (fun k => {| c_debug_id := k; c_file := f.1; c_sourcemap := m |}) <$> debug_key v
  | _, _ => None
  end.

(** [bundles_by_debug_id] and [bundles_without_debug_id]: of several files with one debug id
    the last one with a source map counts, or else the first. *)
Definition add_candidate (acc : adict dkey Candidate * list Candidate) (c : Candidate) : adict dkey Candidate * list Candidate :=
  match c_debug_id c with
  | None => (acc.1, acc.2 ++ [c])
  | Some k =>
      match aget k acc.1, c_sourcemap c with
      | Some _, None => acc
      | _, _ => (aset k c acc.1, acc.2)
      end
  end.

Definition select_bundles (l : list Candidate) : list Candidate :=
  let acc := foldl add_candidate ([], []) l in map snd acc.1 ++ acc.2.

(** The UUID of a debug id, [None] for a [ValidationError]. *)
Definition uuid_of_key (k : dkey) : option Z :=
  match k with KStr s => uuid_of s | KInt n => if (0 <=? n) && (n <? 2 ^ 128) then Some n else None end.

Definition bundle_of (org : Z) (release : option Z) (c : Candidate) : option DebugSymbolBundle :=
  match c_debug_id c with
  | None => Some {| organization := org; debug_id := None; release := release; file := c_file c; sourcemap_file := c_sourcemap c |}
  | Some k => (fun i => {| organization := org; debug_id := Some i; release := release; file := c_file c; sourcemap_file := c_sourcemap c |}) <$> uuid_of_key k
  end.

(** The key of [unique_org_debug_id]; rows without a debug id have none. *)
Definition bundle_key (b : DebugSymbolBundle) : option (Z * Z) := pair (organization b) <$> debug_id b.

(** The check that a debug id or a release is given. *)
Definition filed (b : DebugSymbolBundle) : bool := match debug_id b, release b with None, None => false | _, _ => true end.

Definition has_key (k : option (Z * Z)) (b : DebugSymbolBundle) : bool :=
  match k with Some k => bool_decide (bundle_key b = Some k) | None => false end.

(** [bulk_create(..., update_conflicts=True)] of one row and of all; no row may be touched
    twice. *)
Definition upsert_bundle (table : list DebugSymbolBundle) (b : DebugSymbolBundle) : list DebugSymbolBundle :=
  if existsb (has_key (bundle_key b)) table then map (fun r => if has_key (bundle_key b) r then b else r) table else table ++ [b].

Definition upsert_bundles (new : list DebugSymbolBundle) (table : list DebugSymbolBundle) : option (list DebugSymbolBundle) :=
  if forallb filed new && bool_decide (NoDup (omap bundle_key new)) then Some (foldl upsert_bundle table new) else None.

(** [bulk_create(..., ignore_conflicts=True)] *)
Definition insert_bundle (table : list DebugSymbolBundle) (b : DebugSymbolBundle) : list DebugSymbolBundle :=
  if existsb (has_key (bundle_key b)) table then table else table ++ [b].

Definition insert_bundles (new : list DebugSymbolBundle) (table : list DebugSymbolBundle) : option (list DebugSymbolBundle) :=
  if forallb filed new then Some (foldl insert_bundle table new) else None.

(** The files and source maps of rows. *)
Definition file_ids (l : list DebugSymbolBundle) : list Z := l ≫= fun b => file b :: option_list (sourcemap_file b).

Definition is_complete (c : Candidate) : bool := bool_decide (is_Some (c_sourcemap c)).

(** From the collected files to the table of bundles; [None] for an exception, with what was
    written before it. *)
Definition save_bundles (org : Z) (release : option Z) (made : list (Z * File)) (s : Store) : bool * Store :=
  match mapM (candidate_of made) made with
  | None => (false, s)
  | Some candidates =>
      let selected := select_bundles candidates in
      let complete_bundles := filter (fun c => is_complete c = true) selected in
      let incomplete_bundles := filter (fun c => is_complete c = false) selected in
      match mapM (bundle_of org release) complete_bundles with
      | None => (false, s)
      | Some complete =>
          let old_rows := filter (fun b => existsb (fun c => has_key (bundle_key c) b) complete = true) (bundles s) in
          match upsert_bundles complete (bundles s) with
          | None => (false, s)
          | Some table =>
              let s := with_bundles table s in
              match mapM (bundle_of org release) incomplete_bundles with
              | None => (false, s)
              | Some incomplete =>
                  match insert_bundles incomplete (bundles s) with
                  | None => (false, s)
                  | Some table =>
                      let s := with_bundles table s in
                      let orphaned_ids := filter (fun i => i ∉ file_ids complete ++ file_ids incomplete) (file_ids old_rows) in
                      (true, delete_files orphaned_ids s)
                  end
              end
          end
      end
  end.

(** The members of a zip archive, and the parsed manifest; [None] for exceptions. *)
Context (unzip : ustr -> option (list (ustr * ustr))) (json_loads : ustr -> option value).

Definition get_or_create_release (org : Z) (version : ustr) (s : Store) : Z * Store :=
  match releases s !! (org, version) with
  | Some r => (r, s)
  | None =>
      (next_release s,
       {| blobs := blobs s; files := files s; next_file := next_file s; bundles := bundles s;
          releases := <[(org, version) := next_release s]> (releases s); next_release := next_release s + 1; statuses := statuses s |})
  end.

(** What the manifest says about the release; [None] when it is not the one asked for. *)
Definition manifest_release (manifest : pydict) (version : option ustr) : option (option ustr) :=
  match dget_none "release" manifest, version with
  | VNone, None => Some None
  | VStr r, Some v => if ustr_eqb r v then Some (if truthy r then Some r else None) else None
  | _, _ => None
  end.

(** What the extracted bundle is turned into. *)
Definition unpack_bundle (org : Z) (slug : ustr) (version : option ustr) (scratchpad data : ustr) (s : Store) : outcome unit * Store :=
  match unzip data ≫= fun members => safe_extract_zip members scratchpad false with
  | None => (Failed (u "Failed to extract bundle: uploaded file is not a valid zip archive"), s)
  | Some t =>
      match t !! norm_comps (path_join scratchpad (u "manifest.json")) ≫= json_loads with
      | None => (Failed (u "Failed to open release manifest"), s)
      | Some (VDict manifest) =>
          if negb (same_value (VStr slug) (dget_none "org" manifest)) then (Failed (u "Organization does not match uploaded bundle"), s)
          else
            match manifest_release manifest version with
            | None => (Failed (u "Release does not match uploaded bundle"), s)
            | Some release_name =>
                let '(release, s) :=
                  match release_name with
                  | Some v => let '(r, s) := get_or_create_release org v s in (Some r, s)
                  | None => (None, s)
                  end in
                match dget "files" (VDict []) manifest with
                | VDict artifacts =>
                    match store_artifacts scratchpad t artifacts [] s with
                    | (Done made, s) => let '(ok, s) := save_bundles org release made s in (if (ok : bool) then Done tt else Crashed, s)
                    | (Failed detail, s) => (Failed detail, s)
                    | (Crashed, s) => (Crashed, s)
                    end
                | _ => (Crashed, s)
                end
            end
      | Some _ => (Crashed, s)
      end
  end.

Definition assemble_artifacts (org : Z) (slug : ustr) (version : option ustr) (scratchpad sum : ustr) (chunks : list ustr) (s : Store) : Store :=
  let s := set_assemble_status org sum ASSEMBLING None s in
  match assemble_file org (u "release-artifacts.zip") sum chunks (u "release.bundle") s with
  | (Done (bundle_file, data), s) =>
      match unpack_bundle org slug version scratchpad data s with
      | (Done _, s) => delete_files [bundle_file] (set_assemble_status org sum OK None s)
      | (Failed detail, s) => delete_files [bundle_file] (set_assemble_status org sum ERROR (Some detail) s)
      | (Crashed, s) => s
      end
  | (_, s) => s
  end.
End assemble.


(** ** Removal of old and unused blobs *)

Definition MAX_DELETIONS_PER_RUN : Z := 10000.
Definition BATCH : nat := 1000.

Section maintenance.
(** The order in which the database returns rows, and what others do between the selection
    of a batch and its deletion. *)
Context (scan : gmap ustr FileBlob -> list (ustr * FileBlob)) (others : Store -> Store).

(** [Exists(File.objects.filter(blob_id=..., created__gte=since))] *)
Definition referenced (since : option Z) (sum : ustr) (s : Store) : bool :=
  existsb (fun kv => bool_decide (blob kv.2 = Some sum) && match since with Some t => t <=? file_created kv.2 | None => true end) (map_to_list (files s)).

(** The two querysets: rows created before [cutoff] without a (recent) file. *)
Definition eligible (cutoff : Z) (since : option Z) (s : Store) (row : ustr * FileBlob) : bool :=
  (blob_created row.2 <? cutoff) && negb (referenced since row.1 s).

(** Deleting blobs deletes their files. *)
Definition delete_blobs (sums : list ustr) (s : Store) : Store :=
  let gone := filter (fun kv => match blob kv.2 with Some b => bool_decide (b ∈ sums) | None => false end = true) (map_to_list (files s)) in
  delete_files (map fst gone) (with_blobs (filter (fun kv => kv.1 ∉ sums) (blobs s)) s).

Definition delete_eligible (cutoff : Z) (since : option Z) (ids : list ustr) (s : Store) : list ustr * Store :=
  let rows := map_to_list (filter (fun row => bool_decide (row.1 ∈ ids) && eligible cutoff since s row = true) (blobs s)) in
  (map fst rows, delete_blobs (map fst rows) s).

(** [_delete_file_blobs] *)
Fixpoint delete_file_blobs (fuel : nat) (cutoff : Z) (since : option Z) (total_deleted : Z) (s : Store) : Store :=
  match fuel with
  | O => s
  | S fuel =>
      if MAX_DELETIONS_PER_RUN <=? total_deleted then s
      else
        match take BATCH (filter (fun row => eligible cutoff since s row = true) (scan (blobs s))) with
        | [] => s
        | file_blobs =>
            let '(deleted, s) := delete_eligible cutoff since (map fst file_blobs) (others s) in
            delete_file_blobs fuel cutoff since (total_deleted + len deleted) s
        end
  end.

Definition DAY : Z := 24 * 60 * 60 * 1000000.

Definition cleanup_old_files (fuel : nat) (retention_days now : Z) (s : Store) : Store :=
  let days_ago := now - retention_days * DAY in
  delete_file_blobs fuel (now - DAY) None 0 (delete_file_blobs fuel days_ago (Some days_ago) 0 s).
End maintenance.

(** ** What holds *)

(** C27: Whatever members a zip archive has, every file that is written for them lies below the
    scratchpad, and every path of a manifest that is accepted does. *)
Theorem extraction_confined (members : list (ustr * ustr)) (scratchpad rel_path : ustr) :
  isabs scratchpad = true -> endswith [SLASH] scratchpad = false -> norm_comps scratchpad <> [] ->
  (forall t, safe_extract_zip members scratchpad false = Some t -> confined (norm_comps scratchpad) t) /\
  (forall p, artifact_path scratchpad rel_path = Some p -> below (norm_comps scratchpad) (norm_comps (path_join scratchpad rel_path))).
Proof.
  intros Ha He Hn. assert (scratchpad <> []) as Hs by (intros ->; done). split.
  - unfold safe_extract_zip. assert (forall t, Some (∅ : tree) = Some t -> confined (norm_comps scratchpad) t) as H0.
    { intros t [= <-] p c H. by rewrite lookup_empty in H. }
    revert H0. generalize (Some (∅ : tree)). induction members as [|m members IH]; intros o Ho; [done|]. cbn [foldl]. apply IH.
    intros t1 Ht1. by apply (extract_member_confined scratchpad o m).
  - intros p. unfold artifact_path. destruct (startswith _ _) eqn:E; [|done]. intros _. apply normal_prefix in E as (rest & H & Hr); [|done].
    exists rest. split_and!; [done|done|]. pose proof (norm_comps_plain (path_join scratchpad rel_path)) as Hp. rewrite H in Hp.
    by apply Forall_app in Hp as [_ Hp].
Qed.

(** Sizes are those of the bytes, as every upload stores them. *)
Definition sized (s : Store) : Prop := map_Forall (fun _ b => size b = Some (len (content b))) (blobs s).

Lemma upload_sized now chunks s : sized s -> sized (chunk_upload now chunks s).2.
Proof.
  intros Hs. unfold chunk_upload. do 3 (destruct (_ : bool); [done|]). cbn [snd]. unfold from_files. revert s Hs.
  induction chunks as [|c chunks IH]; intros s Hs; [done|]. cbn [foldl]. apply IH. unfold get_or_create_blob. destruct (blobs s !! c.1); [done|].
  by apply map_Forall_insert_2.
Qed.

Definition fresh_files (s : Store) : Prop :=
  (forall i, next_file s <= i -> files s !! i = None) /\ Forall (fun b => file b < next_file s /\ forall m, sourcemap_file b = Some m -> m < next_file s) (bundles s).

Lemma delete_created f s : fresh_files s -> delete_files [next_file s] (create_file f s).2 =
  {| blobs := blobs s; files := files s; next_file := next_file s + 1; bundles := bundles s; releases := releases s; next_release := next_release s; statuses := statuses s |}.
Proof.
  intros [Hf Hb]. unfold delete_files, create_file; cbn. f_equal.
  - apply map_eq. intros i. rewrite map_lookup_filter. destruct (decide (i = next_file s)) as [->|Hne].
    + rewrite lookup_insert_eq, (Hf (next_file s)) by lia. cbn. case_guard as Hg; [|done]. destruct Hg. by apply list_elem_of_singleton.
    + rewrite lookup_insert_ne by done. destruct (files s !! i); [|done]. cbn. by rewrite option_guard_True by (cbn; rewrite list_elem_of_singleton; done).
  - induction Hb as [|b l [H1 H2] Hl IH]; [done|]. rewrite filter_cons. rewrite decide_True by (rewrite list_elem_of_singleton; lia). cbn. f_equal; [|done].
    unfold clear_sourcemap. destruct (sourcemap_file b) as [m|] eqn:E; [|done]. rewrite bool_decide_eq_false_2; [done|]. rewrite list_elem_of_singleton. specialize (H2 m eq_refl). lia.
Qed.

Lemma mapM_content s chunks : sized s -> (forall c, c ∈ chunks -> is_Some (blobs s !! c)) ->
  let parts := omap (fun c => pair c <$> blobs s !! c) chunks in
  let data := concat (map (fun p => content p.2) parts) in
  map fst parts = chunks /\ mapM (fun c => content <$> blobs s !! c) chunks = Some (map (fun p => content p.2) parts) /\
  exists sizes, mapM (fun p => size p.2) parts = Some sizes /\ zsum sizes = len data.
Proof.
  intros Hh. induction chunks as [|c chunks IH]; intros Hc; [split_and!; try done; by exists []|].
  destruct (Hc c) as [b Hb]; [left|]. cbn zeta in *. cbn [omap list_omap mapM]. rewrite Hb. cbn.
  destruct IH as (H1 & H2 & sizes & H3 & H4); [by intros; apply Hc; right|]. split_and!; [by f_equal| |].
  - cbn in H2. unfold omap in H2 |- *. by rewrite H2.
  - pose proof (Hh c b Hb) as Hs. cbn in Hs. exists (len (content b) :: sizes). cbn. rewrite Hs. cbn. unfold omap in *. rewrite H3. split; [done|]. cbn. 
    unfold len in *. rewrite length_app, Nat2Z.inj_add, <- H4. done.
Qed.

(** The blob a file of several parts gets. *)
Lemma assembled_blob sha1 now parts sum id f s sizes :
  sized s -> mapM (fun p => size p.2) parts = Some sizes -> zsum sizes = len (concat (map (fun p => content p.2) parts)) ->
  (forall p, p ∈ parts -> blobs s !! p.1 = Some p.2) ->
  match assemble_from_file_blob_ids sha1 now parts sum id f s with
  | (Done data, s') =>
      data = concat (map (fun p => content p.2) parts) /\ sha1 data = sum /\ len data <= MAX_POSITIVE_INTEGER /\ sized s'
      /\ bundles s' = bundles s /\ statuses s' = statuses s /\ blobs s ⊆ blobs s' /\
      exists g, files s' = <[id := g]> (files s) /\ checksum g = Some sum /\ file_size g = len data /\
        (parts <> [] -> exists c b, blob g = Some c /\ blobs s' !! c = Some b /\ (content b = data \/ c = sum /\ blobs s !! sum = Some b))
  | (Failed detail, s') => s' = s /\ detail = u "Reported checksum mismatch" /\ sha1 (concat (map (fun p => content p.2) parts)) <> sum
  | (Crashed, s') => s' = s /\ MAX_POSITIVE_INTEGER < len (concat (map (fun p => content p.2) parts))
  end.
Proof.
  intros Hh Hs Hz Hin. unfold assemble_from_file_blob_ids. cbn zeta. rewrite Hs, Hz. set (data := concat _).
  destruct (ustr_eqb sum (sha1 data)) eqn:Ec; cbn [negb].
  2: { split_and!; [done|done|]. intros <-. apply not_true_iff_false in Ec. apply Ec. by apply ustr_eqb_eq. }
  apply ustr_eqb_eq in Ec as ->. destruct (MAX_POSITIVE_INTEGER <? len data) eqn:Em; [split; [done|lia]|].
  destruct parts as [|p [|q parts]].
  - split_and!; try done. by eexists.
  - split_and!; try done; [lia|]. eexists. split_and!; try done. intros _. exists p.1, p.2. split_and!; [done|by apply Hin; left|].
    left. subst data. cbn. by rewrite app_nil_r.
  - destruct (blobs s !! sha1 data) as [b|] eqn:Eb.
    + split_and!; try done; [lia|]. eexists. split_and!; try done. intros _. exists (sha1 data), b. split_and!; [done|done|by right].
    + split_and!; try done; [lia|by apply map_Forall_insert_2|by apply insert_subseteq|].
      eexists. split_and!; try done. intros _. eexists _, _. split_and!; [done|apply lookup_insert_eq|by left].
Qed.

(** C25: A file is assembled exactly when its chunks are there, those that differ are not too
    large together, all of them fit the column of sizes, and their bytes, in the order given,
    hash to the checksum asked for. Then these bytes are the result, the new row is the only
    change of the files, and its blob has these bytes, unless it is one that was stored
    under that checksum before (a client names its chunks, so that such a blob may hold
    anything). When a condition fails only the status changes, and that says which one;
    but a file that is too large for the column raises, and leaves the status as it was and
    a row without a blob. Sizes of blobs are taken to be true, as uploads store them, and
    numbers of files not to be used twice. *)
Theorem assembled_file_matches (sha1 : ustr -> ustr) (now org : Z) (file_name sum : ustr) (chunks : list ustr) (file_type : ustr) (s : Store) :
  sized s -> fresh_files s ->
  let content_of c := content <$> blobs s !! c in
  match assemble_file sha1 now org file_name sum chunks file_type s with
  | (Done (id, data), s') =>
      (exists parts, mapM content_of chunks = Some parts /\ data = concat parts) /\ sha1 data = sum /\
      zsum (omap size (file_blobs chunks s)) <= MAX_FILE_SIZE /\ len data <= MAX_POSITIVE_INTEGER /\ sized s' /\
      id = next_file s /\ bundles s' = bundles s /\ statuses s' = statuses s /\ blobs s ⊆ blobs s' /\
      exists g, files s' = <[id := g]> (files s) /\ checksum g = Some sum /\ file_size g = len data /\
        (chunks <> [] -> exists c b, blob g = Some c /\ blobs s' !! c = Some b /\ (content b = data \/ c = sum /\ blobs s !! sum = Some b))
  | (Failed detail, s') =>
      blobs s' = blobs s /\ files s' = files s /\ bundles s' = bundles s /\ statuses s' = <[(org, sum) := (ERROR, Some detail)]> (statuses s) /\
      (detail = u "File exceeds maximum size" /\ MAX_FILE_SIZE < zsum (omap size (file_blobs chunks s)) \/
       detail = u "Not all chunks available for assembling" /\ (exists c, c ∈ chunks /\ blobs s !! c = None) \/
       detail = u "Reported checksum mismatch" /\ exists parts, mapM content_of chunks = Some parts /\ sha1 (concat parts) <> sum)
  | (Crashed, s') =>
      (exists parts, mapM content_of chunks = Some parts /\ MAX_POSITIVE_INTEGER < len (concat parts)) /\
      blobs s' = blobs s /\ bundles s' = bundles s /\ statuses s' = statuses s /\
      exists g, files s' = <[next_file s := g]> (files s) /\ blob g = None /\ checksum g = Some sum
  end.
Proof.
  intros Hh Hf content_of. unfold assemble_file. destruct (MAX_FILE_SIZE <? _) eqn:Es.
  { cbn [set_assemble_status blobs files bundles statuses]. do 4 (split; [reflexivity|]). left. split; [reflexivity|lia]. }
  destruct (forallb _ chunks) eqn:Ec; cbn [negb].
  2: { cbn [set_assemble_status blobs files bundles statuses]. do 4 (split; [reflexivity|]). right; left. split; [reflexivity|]. apply not_true_iff_false in Ec. rewrite forallb_forall in Ec.
    destruct (decide (Exists (fun c => blobs s !! c = None) chunks)) as [He|Hne].
    - apply Exists_exists in He as (c & Hc & Hn). by exists c.
    - destruct Ec. intros c Hc. apply bool_decide_eq_true. apply not_eq_None_Some. intros Hn. apply Hne. apply Exists_exists.
      exists c. split; [by apply list_elem_of_In|done]. }
  assert (forall c, c ∈ chunks -> is_Some (blobs s !! c)) as Hall.
  { intros c Hc. rewrite forallb_forall in Ec. specialize (Ec c). rewrite <- list_elem_of_In in Ec. by apply Ec, bool_decide_eq_true in Hc. }
  destruct (mapM_content s chunks Hh Hall) as (H1 & H2 & sizes & H3 & H4).
  set (parts := omap _ chunks) in *. cbn [create_file]. set (f0 := {| name := file_name |}).
  destruct (assemble_from_file_blob_ids _ _ _ _ _ _ _) as [o s'] eqn:Ea.
  unshelve epose proof (assembled_blob sha1 now parts sum (next_file s) f0 (create_file f0 s).2 sizes Hh H3 H4 _) as Ha.
  { intros p (c & Hc & Hp)%list_elem_of_omap. cbn. destruct (blobs s !! c) as [b|] eqn:E; [|done]. injection Hp as <-. done. }
  cbn [create_file snd] in Ha. rewrite Ea in Ha. destruct o as [data|detail|].
  - destruct Ha as (-> & Hsum & Hlen & Hh' & Hb & Hst & Hsub & g & Hg & Hck & Hsz & Hbl). split_and!; try done; [by eexists|lia|].
    exists g. split_and!; try done; [|by intros Hne; apply Hbl; intros E; rewrite E in H1; destruct chunks].
    rewrite Hg. cbn. by rewrite insert_insert_eq.
  - destruct Ha as (-> & -> & Hne). change {| blobs := _ |} with (create_file f0 s).2. rewrite (delete_created f0 s Hf). cbn [set_assemble_status blobs files bundles statuses].
    do 4 (split; [reflexivity|]). right; right. split; [reflexivity|]. by eexists.
  - destruct Ha as (-> & Hlt). split_and!; [by eexists|done..|]. by exists f0.
Qed.

(** A file that is there with its blob. *)
Definition keeps (id : Z) (f : File) (sum : ustr) (s : Store) : Prop :=
  files s !! id = Some f /\ blob f = Some sum /\ is_Some (blobs s !! sum).

Lemma keeps_referenced id f sum since s :
  keeps id f sum s -> match since with Some t => t <= file_created f | None => True end -> referenced since sum s = true.
Proof.
  intros (Hf & Hb & _) Ht. apply existsb_exists. exists (id, f). split; [by apply list_elem_of_In, elem_of_map_to_list|].
  cbn. rewrite bool_decide_eq_true_2 by done. destruct since; [by apply Z.leb_le|done].
Qed.

Lemma delete_eligible_keeps id f sum cutoff since ids s :
  keeps id f sum s -> match since with Some t => t <= file_created f | None => True end -> keeps id f sum (delete_eligible cutoff since ids s).2.
Proof.
  intros Hk Ht. pose proof (keeps_referenced id f sum since s Hk Ht) as Hr. destruct Hk as (Hf & Hb & [b Hs]).
  unfold delete_eligible. cbn [snd]. set (sums := map fst _). assert (sum ∉ sums) as Hn.
  { intros ([k x] & -> & H)%list_elem_of_fmap. apply elem_of_map_to_list, map_lookup_filter_Some in H as [_ H]. apply andb_prop in H as [_ H].
    unfold eligible in H. cbn in H, Hr. rewrite Hr in H. by rewrite andb_false_r in H. }
  split_and!; [|done|].
  - cbn. apply map_lookup_filter_Some. split; [done|]. cbn. intros ([j g] & -> & H)%list_elem_of_fmap.
    apply list_elem_of_filter in H as [H1 H2]. apply elem_of_map_to_list in H2. cbn in H1, H2, Hf. rewrite Hf in H2. injection H2 as ->.
    rewrite Hb in H1. by apply bool_decide_eq_true in H1.
  - exists b. cbn. by apply map_lookup_filter_Some.
Qed.

Lemma delete_file_blobs_keeps scan others id f sum cutoff since fuel :
  (forall s, keeps id f sum s -> keeps id f sum (others s)) -> match since with Some t => t <= file_created f | None => True end ->
  forall total s, keeps id f sum s -> keeps id f sum (delete_file_blobs scan others fuel cutoff since total s).
Proof.
  intros Ho Ht. induction fuel as [|fuel IH]; intros total s Hs; [done|]. cbn [delete_file_blobs].
  destruct (MAX_DELETIONS_PER_RUN <=? total); [done|]. destruct (take _ _) as [|row rows]; [done|].
  pose proof (delete_eligible_keeps id f sum cutoff since (map fst (row :: rows)) (others s) (Ho s Hs) Ht) as H.
  destruct (delete_eligible _ _ _ _). by apply IH.
Qed.

(** Whatever else happens meanwhile, the removal of old blobs never takes a file that was
    created within the retention, nor its blob. *)
Theorem cleanup_keeps_recent_files (scan : gmap ustr FileBlob -> list (ustr * FileBlob)) (others : Store -> Store)
  (fuel : nat) (retention_days now id : Z) (f : File) (sum : ustr) (s : Store) :
  (forall s, keeps id f sum s -> keeps id f sum (others s)) -> now - retention_days * DAY <= file_created f ->
  keeps id f sum s -> keeps id f sum (cleanup_old_files scan others fuel retention_days now s).
Proof. intros Ho Ht Hs. by do 2 (apply delete_file_blobs_keeps; [done|done|]). Qed.

(** A batch removes what is eligible, and nothing else. *)
Lemma delete_eligible_blobs cutoff since ids s :
  let P := fun row : ustr * FileBlob => bool_decide (row.1 ∈ ids) && eligible cutoff since s row = true in
  let '(deleted, s') := delete_eligible cutoff since ids s in
  blobs s' = filter (fun row => ~ P row) (blobs s) /\ (length deleted + base.size (blobs s') = base.size (blobs s))%nat.
Proof.
  intros P. unfold delete_eligible. cbn zeta. set (sums := map fst _).
  assert (filter (fun kv : ustr * FileBlob => kv.1 ∉ sums) (blobs s) = filter (fun row => ~ P row) (blobs s)) as E.
  { apply map_filter_ext. intros k b Hkb. cbn. subst sums. split; intros H Hin; apply H.
    - apply list_elem_of_fmap. exists (k, b). split; [done|]. apply elem_of_map_to_list, map_lookup_filter_Some. done.
    - apply list_elem_of_fmap in Hin as ([k' b'] & -> & Hin). apply elem_of_map_to_list, map_lookup_filter_Some in Hin as [H1 H2]. cbn in Hkb. by simplify_map_eq. }
  split; [exact E|]. cbn. rewrite E. subst sums. rewrite length_map, length_map_to_list.
  rewrite <- (map_filter_union_complement P (blobs s)) at 3. by rewrite map_size_disj_union by apply map_disjoint_filter_complement.
Qed.

Lemma referenced_blobs since sum b s : referenced since sum (with_blobs b s) = referenced since sum s.
Proof. done. Qed.

Lemma delete_eligible_files cutoff ids s : files (delete_eligible cutoff None ids s).2 = files s.
Proof.
  unfold delete_eligible, delete_blobs, delete_files. cbn. apply map_filter_id. intros i f Hf. cbn. intros ([j g] & -> & H)%list_elem_of_fmap.
  apply list_elem_of_filter in H as [H1 H2]. cbn in *. destruct (blob g) as [sum|] eqn:Eb; [|done]. apply bool_decide_eq_true in H1.
  apply list_elem_of_fmap in H1 as ([k x] & -> & H). apply elem_of_map_to_list, map_lookup_filter_Some in H as [Hkx H]. apply andb_prop in H as [_ H].
  apply andb_prop in H as [_ H]. apply negb_true_iff in H. cbn in H. apply not_true_iff_false in H. apply H. apply existsb_exists. exists (j, g).
  split; [by apply list_elem_of_In|]. cbn. by rewrite bool_decide_eq_true_2.
Qed.

(** Everything eligible goes, as long as no run is cut off. *)
Lemma delete_file_blobs_all scan cutoff since fuel :
  (forall m, scan m ≡ₚ map_to_list m) ->
  forall total s, (base.size (blobs s) < fuel)%nat -> 0 <= total -> total + Z.of_nat (base.size (blobs s)) <= MAX_DELETIONS_PER_RUN ->
  let s' := delete_file_blobs scan (fun s => s) fuel cutoff since total s in
  map_Forall (fun k b => eligible cutoff since s' (k, b) = false) (blobs s') /\ blobs s' ⊆ blobs s /\ (since = None -> files s' = files s).
Proof.
  intros Hscan. induction fuel as [|fuel IH]; intros total s Hfuel Ht Hmax; [lia|]. cbn zeta. cbn [delete_file_blobs].
  destruct (MAX_DELETIONS_PER_RUN <=? total) eqn:Ecap.
  { split_and!; try done. intros k b Hkb. assert (base.size (blobs s) = 0%nat) as H0 by lia. apply map_size_empty_inv in H0. by rewrite H0, lookup_empty in Hkb. }
  destruct (take BATCH _) as [|row rows] eqn:Eb.
  { split_and!; try done. intros k b Hkb. destruct (eligible cutoff since s (k, b)) eqn:E; [|done]. exfalso.
    assert ((k, b) ∈ filter (fun row => eligible cutoff since s row = true) (scan (blobs s))) as Hin.
    { apply list_elem_of_filter. split; [done|]. rewrite Hscan. by apply elem_of_map_to_list. }
    destruct (filter _ (scan (blobs s))); [by apply elem_of_nil in Hin|]. done. }
  set (ids := map fst (row :: rows)). pose proof (delete_eligible_blobs cutoff since ids s) as Hd. pose proof (delete_eligible_files cutoff ids s) as Hfl.
  destruct (delete_eligible cutoff since ids s) as [deleted s1] eqn:Ed. cbn zeta in Hd. destruct Hd as [Hb Hsz].
  assert (row ∈ filter (fun row => eligible cutoff since s row = true) (scan (blobs s))) as Hrow.
  { apply (subseteq_take BATCH). rewrite Eb. left. }
  apply list_elem_of_filter in Hrow as [Hel Hrow]. rewrite Hscan in Hrow. destruct row as [k b]. apply elem_of_map_to_list in Hrow.
  assert (base.size (blobs s1) < base.size (blobs s))%nat as Hlt.
  { rewrite Hb. apply map_subset_size, map_subset_alt. split; [apply map_filter_subseteq|]. exists k. split; [|by eexists].
    rewrite map_lookup_filter_None. right. intros x Hx Hn. apply Hn. rewrite Hrow in Hx. injection Hx as <-.
    cbn [fst]. rewrite bool_decide_eq_true_2 by left. exact Hel. }
  destruct (IH (total + len deleted) s1) as (H1 & H2 & H3); [lia|unfold len; lia|unfold len; lia|]. split_and!; [done| |].
  - etrans; [exact H2|]. rewrite Hb. apply map_filter_subseteq.
  - intros ->. rewrite H3 by done. by rewrite <- Hfl, Ed.
Qed.

(** Unless there are more blobs than one run removes, afterwards every blob is as it was,
    and one past the retention has a recent file, one older than a day has a file. *)
Theorem cleanup_removes_unused (scan : gmap ustr FileBlob -> list (ustr * FileBlob)) (fuel : nat) (retention_days now : Z) (s : Store) :
  (forall m, scan m ≡ₚ map_to_list m) -> (base.size (blobs s) < fuel)%nat -> Z.of_nat (base.size (blobs s)) <= MAX_DELETIONS_PER_RUN ->
  let s' := cleanup_old_files scan (fun s => s) fuel retention_days now s in
  let days_ago := now - retention_days * DAY in
  forall sum b, blobs s' !! sum = Some b ->
    blobs s !! sum = Some b /\
    (blob_created b < days_ago -> referenced (Some days_ago) sum s' = true) /\
    (blob_created b < now - DAY -> referenced None sum s' = true).
Proof.
  intros Hscan Hfuel Hmax s' days_ago sum b Hb. subst s'. unfold cleanup_old_files in *. fold days_ago in Hb |- *.
  destruct (delete_file_blobs_all scan days_ago (Some days_ago) fuel Hscan 0 s) as (A1 & A2 & _); [done|lia|lia|].
  set (s1 := delete_file_blobs scan (fun s => s) fuel days_ago (Some days_ago) 0 s) in *.
  pose proof (map_subseteq_size _ _ A2) as Hsz.
  destruct (delete_file_blobs_all scan (now - DAY) None fuel Hscan 0 s1) as (B1 & B2 & B3); [lia|lia|lia|].
  set (s2 := delete_file_blobs scan (fun s => s) fuel (now - DAY) None 0 s1) in *. specialize (B3 eq_refl).
  pose proof (lookup_weaken _ _ _ _ Hb B2) as Hb1. split_and!; [by eapply lookup_weaken| |].
  - intros Hc. specialize (A1 sum b Hb1). cbn in A1. unfold eligible in A1. cbn in A1. unfold referenced in *. rewrite B3.
    destruct (existsb _ _); [done|]. lia.
  - intros Hc. specialize (B1 sum b Hb). cbn in B1. unfold eligible in B1. cbn in B1. destruct (referenced None sum s2); [done|lia].
Qed.

(** *** The bundles and their files *)

(** Bundles have one row per organization and debug id, a debug id or a release, and files
    that are there. *)
Record linked (s : Store) : Prop := {
  linked_fresh : forall i, next_file s <= i -> files s !! i = None;
  linked_files : Forall (fun b => is_Some (files s !! file b) /\ forall m, sourcemap_file b = Some m -> is_Some (files s !! m)) (bundles s);
  linked_keys : NoDup (omap bundle_key (bundles s));
  linked_filed : Forall (fun b => filed b = true) (bundles s) }.

(** Steps that only add files. *)
Definition extends (s s' : Store) : Prop :=
  bundles s' = bundles s /\ (forall i, is_Some (files s !! i) -> is_Some (files s' !! i)) /\
  ((forall i, next_file s <= i -> files s !! i = None) -> forall i, next_file s' <= i -> files s' !! i = None).

#[export] Instance extends_preorder : PreOrder extends.
Proof. split; [by intros s|]. intros s1 s2 s3 (A1 & A2 & A3) (B1 & B2 & B3). split_and!; [congruence|auto|auto]. Qed.

Lemma linked_extends s s' : extends s s' -> linked s -> linked s'.
Proof.
  intros (Hb & Hi & Hn) [H1 H2 H3 H4]. split; [by apply Hn| |by rewrite Hb..]. rewrite Hb. eapply Forall_impl; [exact H2|].
  intros b [Hf Hm]. split; [by apply Hi|]. intros m Em. by apply Hi, Hm.
Qed.

Lemma extends_create f s : extends s (create_file f s).2.
Proof.
  split_and!; [done| |].
  - intros i Hi. cbn. destruct (decide (i = next_file s)) as [->|]; [by rewrite lookup_insert_eq|by rewrite lookup_insert_ne].
  - intros H i Hi. cbn in *. rewrite lookup_insert_ne by lia. apply H. lia.
Qed.

Lemma extends_update i f s : is_Some (files s !! i) -> extends s (with_files (<[i := f]> (files s)) s).
Proof.
  intros Hi. split_and!; [done| |].
  - intros j Hj. cbn. destruct (decide (i = j)) as [->|]; [by rewrite lookup_insert_eq|by rewrite lookup_insert_ne].
  - intros H j Hj. cbn in *. rewrite lookup_insert_ne; [by apply H|]. intros ->. rewrite H in Hi by done. by destruct Hi.
Qed.

Lemma extends_blobs b s : extends s (with_blobs b s).
Proof. by split_and!. Qed.
Lemma extends_status org sum st d s : extends s (set_assemble_status org sum st d s).
Proof. by split_and!. Qed.

Create HintDb assembly.
#[export] Hint Resolve extends_create extends_update extends_blobs extends_status : assembly.

Lemma bundle_key_clear ids b : bundle_key (clear_sourcemap ids b) = bundle_key b.
Proof. unfold clear_sourcemap. destruct (sourcemap_file b); [|done]. by case_bool_decide. Qed.

Lemma omap_keys b l : omap bundle_key (b :: l) = option_list (bundle_key b) ++ omap bundle_key l.
Proof. cbn. by destruct (bundle_key b). Qed.

Lemma filed_clear ids b : filed (clear_sourcemap ids b) = filed b.
Proof. unfold clear_sourcemap. destruct (sourcemap_file b); [|done]. by case_bool_decide. Qed.

Lemma delete_files_linked ids s : linked s -> linked (delete_files ids s).
Proof.
  intros [H1 H2 H3 H4]. split; cbn.
  - intros i Hi. apply map_lookup_filter_None. left. by apply H1.
  - apply Forall_map. rewrite Forall_forall in H2 |- *. intros b [Hb Hin]%list_elem_of_filter. destruct (H2 b Hin) as [[f Hf] Hm].
    assert (is_Some (filter (fun kv => kv.1 ∉ ids) (files s) !! file b)) as Hfile by (exists f; by apply map_lookup_filter_Some).
    unfold clear_sourcemap. destruct (sourcemap_file b) as [m|] eqn:Em; [|rewrite Em; by split]. case_bool_decide as Hm'; cbn; [by split|]. rewrite Em. split; [done|].
    intros m' [= <-]. destruct (Hm m eq_refl) as [g Hg]. exists g. by apply map_lookup_filter_Some.
  - assert (forall l, omap bundle_key (map (clear_sourcemap ids) l) = omap bundle_key l) as E.
    { induction l as [|b l IH]; [done|]. cbn [map]. by rewrite !omap_keys, bundle_key_clear, IH. }
    rewrite E. eapply sublist_NoDup; [exact H3|]. clear E H1 H2 H3 H4. induction (bundles s) as [|b l IH]; [done|]. rewrite filter_cons.
    case_decide; rewrite !omap_keys; [by apply sublist_app|]. by apply sublist_inserts_l.
  - apply Forall_map. rewrite Forall_forall in H4 |- *. intros b [_ Hin]%list_elem_of_filter. rewrite filed_clear. by apply H4.
Qed.

(** **** The table of bundles *)

Lemma has_key_spec k b : has_key (Some k) b = true <-> bundle_key b = Some k.
Proof. apply bool_decide_eq_true. Qed.

Lemma in_keys k l : k ∈ omap bundle_key l <-> existsb (has_key (Some k)) l = true.
Proof.
  rewrite list_elem_of_omap, existsb_exists. split; intros (b & H1 & H2); exists b.
  - split; [by apply list_elem_of_In|by apply has_key_spec].
  - split; [by apply list_elem_of_In|by apply has_key_spec].
Qed.

Lemma append_keys table b : NoDup (omap bundle_key table) -> existsb (has_key (bundle_key b)) table = false -> NoDup (omap bundle_key (table ++ [b])).
Proof.
  intros Hn He. rewrite omap_app. apply NoDup_app. split; [done|]. rewrite omap_keys, app_nil_r. destruct (bundle_key b) as [k|]; cbn.
  - split; [|apply NoDup_singleton]. intros k' Hk' ->%list_elem_of_singleton. apply in_keys in Hk'. congruence.
  - split; [intros x _ []%elem_of_nil|apply NoDup_nil_2].
Qed.

Lemma upsert_keys table b : NoDup (omap bundle_key table) -> NoDup (omap bundle_key (upsert_bundle table b)).
Proof.
  intros Hn. unfold upsert_bundle. destruct (existsb _ table) eqn:E; [|by apply append_keys].
  assert (omap bundle_key (map (fun r => if has_key (bundle_key b) r then b else r) table) = omap bundle_key table) as ->; [|done].
  clear. induction table as [|r table IH]; [done|]. cbn [map]. rewrite !omap_keys, IH. f_equal. f_equal.
  destruct (bundle_key b) as [k|] eqn:Ek; [|done]. destruct (has_key (Some k) r) eqn:Er; [|done]. apply has_key_spec in Er. congruence.
Qed.

Lemma insert_keys table b : NoDup (omap bundle_key table) -> NoDup (omap bundle_key (insert_bundle table b)).
Proof. intros Hn. unfold insert_bundle. destruct (existsb _ table) eqn:E; [done|by apply append_keys]. Qed.

Lemma upsert_Forall (P : DebugSymbolBundle -> Prop) table b : P b -> Forall P table -> Forall P (upsert_bundle table b).
Proof.
  intros Hb Ht. unfold upsert_bundle. destruct (existsb _ table); [|by apply Forall_app_2; [|apply Forall_singleton]].
  apply Forall_map. eapply Forall_impl; [exact Ht|]. intros r Hr. cbn. by destruct (has_key _ r).
Qed.

Lemma insert_Forall (P : DebugSymbolBundle -> Prop) table b : P b -> Forall P table -> Forall P (insert_bundle table b).
Proof. intros Hb Ht. unfold insert_bundle. destruct (existsb _ table); [done|]. by apply Forall_app_2; [|apply Forall_singleton]. Qed.

(** A condition on rows that all new rows meet. *)
Lemma rows_Forall (step : list DebugSymbolBundle -> DebugSymbolBundle -> list DebugSymbolBundle) (P : DebugSymbolBundle -> Prop) new :
  (forall table b, P b -> Forall P table -> Forall P (step table b)) ->
  (forall table b, NoDup (omap bundle_key table) -> NoDup (omap bundle_key (step table b))) ->
  Forall P new -> forall table, Forall P table -> NoDup (omap bundle_key table) ->
  Forall P (foldl step table new) /\ NoDup (omap bundle_key (foldl step table new)).
Proof. intros H1 H2 Hnew. induction Hnew as [|b new Hb Hnew IH]; intros table Ht Hn; [done|]. apply IH; [by apply H1|by apply H2]. Qed.

(** **** Where candidates come from *)

Lemma find_sourcemap_in f l m : find_sourcemap f l = Some (Some m) -> m ∈ map fst l.
Proof.
  induction l as [|[i c] l IH]; cbn; [done|]. destruct (has_type "source_map" c); [|by right; apply IH].
  destruct (is_sourcemap_of f c) as [[]|]; [intros [= <-]; by left|by right; apply IH|done].
Qed.

(** Files among those of the upload. *)
Definition among (ids : list Z) (c : Candidate) : Prop := c_file c ∈ ids /\ forall m, c_sourcemap c = Some m -> m ∈ ids.

Lemma candidate_among all f c : f ∈ all -> candidate_of all f = Some c -> among (map fst all) c.
Proof.
  intros Hf. unfold candidate_of. destruct (if has_type _ _ then _ else _) as [m|] eqn:Em; [|done]. destruct (header _ _); [|done].
  destruct (debug_key _) as [k|]; [|done]. cbn. intros [= <-]. split; cbn; [by apply list_elem_of_fmap_2|].
  intros m' ->. destruct (has_type _ _); [by apply find_sourcemap_in in Em|done].
Qed.

Lemma candidates_among all l cs : (forall f, f ∈ l -> f ∈ all) -> mapM (candidate_of all) l = Some cs -> Forall (among (map fst all)) cs.
Proof.
  intros Hl H%mapM_Some. induction H as [|f c l cs Hc Hcs IH]; constructor; [apply (candidate_among all f); [|done]; apply Hl; by left|].
  apply IH. intros g Hg. apply Hl. by right.
Qed.

Lemma aset_Forall {V} (P : V -> Prop) k v (l : adict dkey V) : P v -> Forall P (map snd l) -> Forall P (map snd (aset k v l)).
Proof.
  intros Hv. induction l as [|[k' v'] l IH]; intros H; [by constructor|]. apply Forall_cons in H as [H1 H2]. cbn. case_decide; cbn; constructor; auto.
Qed.

Lemma select_Forall (P : Candidate -> Prop) l : Forall P l -> Forall P (select_bundles l).
Proof.
  intros H. unfold select_bundles.
  assert (forall acc, Forall P (map snd acc.1) -> Forall P acc.2 -> let r := foldl add_candidate acc l in Forall P (map snd r.1) /\ Forall P r.2) as Hf.
  { induction H as [|c l Hc Hl IH]; intros acc H1 H2; [done|]. cbn [foldl]. apply IH; unfold add_candidate.
    - destruct (c_debug_id c) as [k|]; [|done]. destruct (aget k acc.1), (c_sourcemap c); try done; by apply aset_Forall.
    - destruct (c_debug_id c) as [k|]; [by destruct (aget k acc.1), (c_sourcemap c)|]. by apply Forall_app_2; [|apply Forall_singleton]. }
  destruct (Hf ([], [])) as [H1 H2]; [done|done|]. by apply Forall_app_2.
Qed.

(** Rows made of files of the upload. *)
Definition row_among (ids : list Z) (b : DebugSymbolBundle) : Prop := file b ∈ ids /\ forall m, sourcemap_file b = Some m -> m ∈ ids.

Lemma bundles_among org r ids cs bs : Forall (among ids) cs -> mapM (bundle_of org r) cs = Some bs -> Forall (row_among ids) bs.
Proof.
  intros Hc H%mapM_Some. induction H as [|c b cs bs Hb Hbs IH]; [done|]. apply Forall_cons in Hc as [Hc Hcs]. constructor; [|by apply IH].
  unfold bundle_of in Hb. destruct (c_debug_id c) as [k|]; [destruct (uuid_of_key k); [|done]; cbn in Hb|]; injection Hb as <-; exact Hc.
Qed.

(** **** Saving and assembling keep the tables linked *)

Definition row_ok (s : Store) (b : DebugSymbolBundle) : Prop :=
  (is_Some (files s !! file b) /\ forall m, sourcemap_file b = Some m -> is_Some (files s !! m)) /\ filed b = true.

Lemma linked_rows s table :
  linked s -> Forall (row_ok s) table -> NoDup (omap bundle_key table) -> linked (with_bundles table s).
Proof. intros [H1 _ _ _] Hr Hn. split; [done| |done|]; (eapply Forall_impl; [exact Hr|]; unfold row_ok; tauto). Qed.

Lemma rows_linked s : linked s -> Forall (row_ok s) (bundles s).
Proof. intros [_ H2 _ H4]. unfold row_ok. apply Forall_and. by split. Qed.

Lemma new_rows_ok s ids bs : Forall (fun i => is_Some (files s !! i)) ids -> Forall (row_among ids) bs -> forallb filed bs = true -> Forall (row_ok s) bs.
Proof.
  intros Hi Hb Hf. rewrite forallb_forall in Hf. pose proof (proj1 (Forall_forall _ _) Hi) as Hi'. eapply Forall_forall. intros b Hin.
  destruct (proj1 (Forall_forall _ _) Hb b Hin) as [H1 H2].
  split_and!; [by apply Hi'|intros m Hm; by apply Hi', H2|by apply Hf, list_elem_of_In].
Qed.

Lemma save_bundles_linked org r made s :
  linked s -> Forall (fun i => is_Some (files s !! i)) (map fst made) -> linked (save_bundles org r made s).2.
Proof.
  intros Hl Hm. unfold save_bundles. destruct (mapM (candidate_of made) made) as [cs|] eqn:Ec; [|done]. cbn zeta.
  apply candidates_among in Ec; [|done]. apply select_Forall in Ec.
  assert (forall P : Candidate -> Prop, forall dec : (forall c, Decision (P c)), Forall (among (map fst made)) (filter P (select_bundles cs))) as Hsel.
  { intros P dec. rewrite Forall_forall in Ec |- *. intros c [_ Hc]%list_elem_of_filter. by apply Ec. }
  destruct (mapM (bundle_of org r) (filter (fun c => is_complete c = true) _)) as [complete|] eqn:E1; [|done].
  apply bundles_among with (ids := map fst made) in E1; [|by apply Hsel]. unfold upsert_bundles. destruct (forallb filed complete && _) eqn:F1; [|done].
  apply andb_prop in F1 as [F1 _]. pose proof (new_rows_ok s _ _ Hm E1 F1) as R1.
  destruct (rows_Forall upsert_bundle (row_ok s) complete (upsert_Forall _) upsert_keys R1 (bundles s)) as [A1 A2]; [by apply rows_linked|by destruct Hl|].
  set (table := foldl upsert_bundle _ _) in *. pose proof (linked_rows s table Hl A1 A2) as Hl1.
  destruct (mapM (bundle_of org r) (filter (fun c => is_complete c = false) _)) as [incomplete|] eqn:E2; [|done].
  apply bundles_among with (ids := map fst made) in E2; [|by apply Hsel]. unfold insert_bundles. destruct (forallb filed incomplete) eqn:F2; [|done].
  pose proof (new_rows_ok s _ _ Hm E2 F2) as R2. cbn [with_bundles bundles].
  destruct (rows_Forall insert_bundle (row_ok s) incomplete (insert_Forall _) insert_keys R2 table) as [B1 B2]; [done|done|].
  cbn [snd]. apply delete_files_linked. by apply (linked_rows (with_bundles table s)).
Qed.

Lemma extends_stored i f b s : is_Some (files s !! i) -> extends s (with_files (<[i := f]> (files s)) (with_blobs b s)).
Proof. intros Hi. transitivity (with_blobs b s); [apply extends_blobs|]. by apply (extends_update i f (with_blobs b s)). Qed.

Lemma putfile_extends sha1 now id data f s s' : is_Some (files s !! id) -> putfile sha1 now id data f s = Some s' -> extends s s'.
Proof.
  intros Hid. unfold putfile. destruct (blobs s !! sha1 data) as [b|]; [case_bool_decide; [|done]|]; intros [= <-]; [by apply extends_update|].
  by apply (extends_stored _ _ (<[_ := _]> (blobs s)) s).
Qed.

Lemma store_artifact_extends sha1 now scratchpad t rel_path artifact s :
  let '(r, s') := store_artifact sha1 now scratchpad t rel_path artifact s in
  extends s s' /\ match r with Some (i, _) => is_Some (files s' !! i) | None => True end.
Proof.
  unfold store_artifact. destruct artifact; try (by split). destruct (dget "url" _ _); try (by split). destruct (dlookup _ _); [|by split].
  set (f := {| name := _ |}). pose proof (extends_create f s) as He. cbn [create_file] in *. set (s1 := {| blobs := _ |}) in *.
  assert (is_Some (files s1 !! next_file s)) as Hi by (eexists; apply lookup_insert_eq).
  destruct (t !! _) as [data|]; [|by split]. destruct (putfile _ _ _ _ _ _) as [s2|] eqn:E; [|by split].
  apply putfile_extends in E; [|done]. split; [by etrans|]. by apply E.
Qed.

Lemma store_artifacts_linked sha1 now scratchpad t l : forall made s,
  linked s -> Forall (fun i => is_Some (files s !! i)) (map fst made) ->
  let '(r, s') := store_artifacts sha1 now scratchpad t l made s in
  linked s' /\ match r with Done made' => Forall (fun i => is_Some (files s' !! i)) (map fst made') | _ => True end.
Proof.
  induction l as [|[k artifact] l IH]; intros made s Hl Hm; [by split|]. cbn [store_artifacts]. destruct k as [rel_path|]; [|by split].
  destruct (artifact_path scratchpad rel_path); [|split; [by apply delete_files_linked|done]].
  pose proof (store_artifact_extends sha1 now scratchpad t rel_path artifact s) as H. destruct (store_artifact _ _ _ _ _ _ _) as [[[i f]|] s1].
  - destruct H as [He Hi]. apply IH; [by eapply linked_extends|]. rewrite map_app. apply Forall_app_2; [|by apply Forall_singleton].
    eapply Forall_impl; [exact Hm|]. intros j Hj. by apply He.
  - destruct H as [He _]. split; [by eapply linked_extends|done].
Qed.

Lemma get_or_create_release_extends org version s : extends s (get_or_create_release org version s).2.
Proof. unfold get_or_create_release. by destruct (releases s !! (org, version)). Qed.

Lemma unpack_bundle_linked sha1 now unzip json_loads org slug version scratchpad data s :
  linked s -> linked (unpack_bundle sha1 now unzip json_loads org slug version scratchpad data s).2.
Proof.
  intros Hl. unfold unpack_bundle. destruct (_ ≫= _) as [t|]; [|done]. destruct (_ ≫= json_loads) as [v|]; [|done]. destruct v as [| | | | | | |manifest]; try done.
  destruct (negb _); [done|]. destruct (manifest_release manifest version) as [r|]; [|done].
  assert (linked (match r with Some v => let '(x, s0) := get_or_create_release org v s in (Some x, s0) | None => (None, s) end).2) as Hl1.
  { destruct r as [v|]; [|done]. pose proof (get_or_create_release_extends org v s) as H. destruct (get_or_create_release _ _ _). by eapply linked_extends. }
  destruct (match r with Some _ => _ | None => _ end) as [release s1]. cbn in Hl1. destruct (dget "files" _ _); try done.
  pose proof (store_artifacts_linked sha1 now scratchpad t d [] s1 Hl1) as H. destruct (store_artifacts _ _ _ _ _ _ _) as [[made|d'|] s2].
  - destruct H as [Hl2 Hm]; [by constructor|]. pose proof (save_bundles_linked org release made s2 Hl2 Hm). by destruct (save_bundles _ _ _ _).
  - by apply H.
  - by apply H.
Qed.

Lemma assemble_parts_extends sha1 now parts sum id f s :
  is_Some (files s !! id) -> extends s (assemble_from_file_blob_ids sha1 now parts sum id f s).2.
Proof.
  intros Hid. unfold assemble_from_file_blob_ids. cbn zeta. destruct (mapM _ parts) as [sizes|]; [|done]. destruct (negb _); [done|].
  destruct (_ <? _); [done|]. destruct parts as [|p [|q parts]]; [by apply extends_update|by apply extends_update|].
  destruct (blobs s !! sum); [by apply extends_update|]. by apply (extends_stored _ _ (<[_ := _]> (blobs s)) s).
Qed.

Lemma assemble_file_linked sha1 now org nm sum chunks ty s : linked s -> linked (assemble_file sha1 now org nm sum chunks ty s).2.
Proof.
  intros Hl. assert (forall d s, linked s -> linked (set_assemble_status org sum ERROR (Some d) s)) as Hst.
  { intros d s0 H0. eapply linked_extends; [apply extends_status|done]. }
  unfold assemble_file. cbn zeta. destruct (_ <? _); [by apply Hst|]. destruct (negb _); [by apply Hst|]. set (f := {| name := _ |}).
  pose proof (linked_extends _ _ (extends_create f s) Hl) as Hl1. cbn [create_file]. set (parts := omap _ _).
  pose proof (assemble_parts_extends sha1 now parts sum (next_file s) f (create_file f s).2) as He. cbn [create_file snd] in *.
  set (s1 := {| blobs := _ |}) in *. destruct (assemble_from_file_blob_ids _ _ _ _ _ _ _) as [[data|d|] s2]; cbn [snd] in *.
  - eapply linked_extends; [apply He; eexists; apply lookup_insert_eq|done].
  - apply Hst, delete_files_linked. eapply linked_extends; [apply He; eexists; apply lookup_insert_eq|done].
  - eapply linked_extends; [apply He; eexists; apply lookup_insert_eq|done].
Qed.

(** After a bundle is assembled, whatever it holds and however that fails, there is one row
    per organization and debug id, every row has a debug id or a release, and its files exist. *)
Theorem assembly_keeps_linked (sha1 : ustr -> ustr) (unzip : ustr -> option (list (ustr * ustr))) (json_loads : ustr -> option value)
  (now org : Z) (slug : ustr) (version : option ustr) (scratchpad sum : ustr) (chunks : list ustr) (s : Store) :
  linked s -> linked (assemble_artifacts sha1 now unzip json_loads org slug version scratchpad sum chunks s).
Proof.
  intros Hl. assert (forall st d s, linked s -> linked (set_assemble_status org sum st d s)) as Hst.
  { intros st d s0 H0. eapply linked_extends; [apply extends_status|done]. }
  unfold assemble_artifacts. cbn zeta.
  pose proof (assemble_file_linked sha1 now org (u "release-artifacts.zip") sum chunks (u "release.bundle") _ (Hst ASSEMBLING None s Hl)) as H1.
  destruct (assemble_file _ _ _ _ _ _ _ _) as [[[bundle_file data]|d|] s1]; [|done|done]. cbn [snd] in H1.
  pose proof (unpack_bundle_linked sha1 now unzip json_loads org slug version scratchpad data s1 H1) as H2.
  destruct (unpack_bundle _ _ _ _ _ _ _ _ _ _) as [[u|d|] s2]; [by apply delete_files_linked, Hst|by apply delete_files_linked, Hst|done].
Qed.

(** ** Witnesses *)

Definition ex_store : Store :=
  {| blobs := {[u "ab" := {| content := u "ab"; size := Some 2; blob_created := 0 |}; u "cd" := {| content := u "cd"; size := Some 2; blob_created := 0 |}]};
     files := {[1 := {| name := u "a.js"; type := VStr (u "minified_source"); headers := VNone; blob := Some (u "ab"); checksum := Some (u "ab"); file_size := 2;
                        file_created := 0 |};
                2 := {| name := u "a.js.map"; type := VStr (u "source_map"); headers := VNone; blob := Some (u "cd"); checksum := Some (u "cd"); file_size := 2;
                        file_created := 0 |}]};
     next_file := 3; bundles := [{| organization := 1; debug_id := Some 7; release := None; file := 1; sourcemap_file := Some 2 |}];
     releases := ∅; next_release := 1; statuses := ∅ |}.

Lemma ex_store_fresh i : next_file ex_store <= i -> files ex_store !! i = None.
Proof. intros Hi. cbn in *. by rewrite lookup_insert_ne, lookup_singleton_ne by lia. Qed.

Lemma ex_store_linked : linked ex_store.
Proof.
  split; [exact ex_store_fresh| | |].
  - cbn. constructor; [|constructor]. split; [by eexists|]. intros m [= <-]. by eexists.
  - cbn. apply NoDup_singleton.
  - by constructor.
Qed.

Lemma ex_store_sized : sized ex_store.
Proof. apply map_Forall_insert_2; [done|]. by apply map_Forall_singleton. Qed.

Lemma extraction_confined_witness :
  let scratchpad := u "/tmp/x" in
  match safe_extract_zip [(u "../p", u "1"); (u "a/b.js", u "2"); (u "/etc/p", u "3")] scratchpad false with
  | Some t => t = {[ [u "tmp"; u "x"; u "a"; u "b.js"] := u "2" ]} /\ confined (norm_comps scratchpad) t
  | None => False
  end.
Proof.
  intros scratchpad.
  destruct (extraction_confined [(u "../p", u "1"); (u "a/b.js", u "2"); (u "/etc/p", u "3")] scratchpad (u "a")) as [H _]; [reflexivity|reflexivity|discriminate|].
  destruct (safe_extract_zip _ _ _) as [t|] eqn:E; [|vm_compute in E; discriminate]. split; [|by apply H].
  vm_compute in E. injection E as <-. vm_compute. reflexivity.
Defined.

Lemma assembled_file_matches_witness :
  match assemble_file (fun d => d) 5 1 (u "b.zip") (u "abcdab") [u "ab"; u "cd"; u "ab"] (u "release.bundle") ex_store with
  | (Done (id, data), _) => id = 3 /\ data = u "abcdab"
  | _ => False
  end.
Proof.
  pose proof (assembled_file_matches (fun d => d) 5 1 (u "b.zip") (u "abcdab") [u "ab"; u "cd"; u "ab"] (u "release.bundle") ex_store ex_store_sized) as H.
  destruct (assemble_file _ _ _ _ _ _ _ _) as [[[id data]|d|] s'] eqn:E.
  - assert (fresh_files ex_store) as Hf.
    { split; [exact ex_store_fresh|]. constructor; [|constructor]. split; [reflexivity|]. intros m [= <-]. reflexivity. }
    destruct (H Hf) as ((parts & Hp & ->) & _ & _ & _ & _ & -> & _). split; [reflexivity|]. vm_compute in Hp. injection Hp as <-. reflexivity.
  - vm_compute in E. discriminate.
  - vm_compute in E. discriminate.
Defined.

Lemma cleanup_keeps_recent_files_witness :
  is_Some (blobs (cleanup_old_files map_to_list (fun s => s) 5 0 (-1) ex_store) !! u "ab").
Proof.
  destruct (cleanup_keeps_recent_files map_to_list (fun s => s) 5 0 (-1) 1
    {| name := u "a.js"; type := VStr (u "minified_source"); headers := VNone; blob := Some (u "ab"); checksum := Some (u "ab"); file_size := 2;
       file_created := 0 |} (u "ab") ex_store) as (_ & _ & H); [done|vm_compute; discriminate| |exact H].
  split; [reflexivity|]. split; [reflexivity|by eexists].
Defined.

Lemma cleanup_removes_unused_witness : blobs (cleanup_old_files map_to_list (fun s => s) 5 1 (2 * DAY) ex_store) !! u "ab" = None.
Proof.
  pose proof (cleanup_removes_unused map_to_list 5 1 (2 * DAY) ex_store) as H. destruct (_ !! u "ab") as [b|] eqn:E; [|reflexivity].
  destruct (H ltac:(intros; reflexivity) ltac:(vm_compute; lia) ltac:(vm_compute; discriminate) _ _ E) as (H1 & H2 & _).
  vm_compute in H1. injection H1 as <-. vm_compute in H2. discriminate (H2 eq_refl).
Defined.

Definition ex_unzip (d : ustr) : option (list (ustr * ustr)) :=
  Some [(u "manifest.json", u "{}"); (u "a.js", u "x"); (u "a.js.map", u "y")].

Definition ex_manifest (d : ustr) : option value :=
  let entry t := VDict [(KStr (u "type"), VStr (u t)); (KStr (u "headers"), VDict [(KStr (u "debug-id"), VStr (u "00000000000000000000000000000007"))])] in
  Some (VDict [(KStr (u "org"), VStr (u "o")); (KStr (u "files"), VDict [(KStr (u "a.js"), entry "minified_source"); (KStr (u "a.js.map"), entry "source_map")])]).

Lemma assembly_keeps_linked_witness :
  let s := assemble_artifacts (fun d => d) 5 ex_unzip ex_manifest 1 (u "o") None (u "/tmp/x") (u "ab") [u "ab"] ex_store in
  linked s /\ bundles s = [{| organization := 1; debug_id := Some 7; release := None; file := 4; sourcemap_file := Some 5 |}] /\ files s !! 1 = None.
Proof.
  split; [|vm_compute; split; reflexivity].
  apply (assembly_keeps_linked (fun d => d) ex_unzip ex_manifest 5 1 (u "o") None (u "/tmp/x") (u "ab") [u "ab"] ex_store ex_store_linked).
Defined.

(** ** Where the code does not do what it means to *)

(** A chunk is stored under the name the client gives it: the file with the contents "good"
    (whose checksum the example's hash makes "good") is bound to the bytes "evil". *)
Example poisoned_blob :
  let s := (chunk_upload 0 [(u "good", u "evil")] ex_store).2 in
  let f := {| name := u "a.js"; type := VNone; headers := VNone; blob := None; checksum := None; file_size := 0; file_created := 0 |} in
  let '(id, s) := create_file f s in
  match putfile (fun d => d) 0 id (u "good") f s with
  | Some s => (files s !! id ≫= blob) = Some (u "good") /\ content <$> (blobs s !! u "good") = Some (u "evil")
  | None => False
  end.
Proof. vm_compute. split; reflexivity. Qed.

(** With another size the client's chunk makes every later file with these contents fail. *)
Example poisoned_blob_crashes :
  let s := (chunk_upload 0 [(u "good", u "no")] ex_store).2 in
  let f := {| name := u "a.js"; type := VNone; headers := VNone; blob := None; checksum := None; file_size := 0; file_created := 0 |} in
  putfile (fun d => d) 0 3 (u "good") f s = None.
Proof. reflexivity. Qed.

(** A chunk uploaded again keeps the time of its first upload, so that the removal of orphans
    takes it at once. *)
Example fresh_chunk_removed :
  let s := (chunk_upload (3 * DAY) [(u "ef", u "ef")] (chunk_upload 0 [(u "ef", u "ef")] ex_store).2).2 in
  is_Some (blobs s !! u "ef") /\ blobs (cleanup_old_files map_to_list (fun s => s) 5 90 (3 * DAY) s) !! u "ef" = None.
Proof. vm_compute. split; [by eexists|reflexivity]. Qed.

(** With [strip_toplevel], the function's default, a member leaves the scratchpad. *)
Example strip_toplevel_escapes :
  safe_extract_zip [(u "a//etc/p", u "x")] (u "/tmp/x") true = Some {[ [u "etc"; u "p"] := u "x" ]}.
Proof. vm_compute. reflexivity. Qed.

Definition ex_file (nm ty : string) (headers : pydict) : File :=
  {| name := u nm; type := VStr (u ty); headers := VDict headers; blob := None; checksum := None; file_size := 0; file_created := 0 |}.

(** Replacing a bundle deletes its source map even when another bundle has the same. *)
Example shared_sourcemap_deleted :
  let id n := [(KStr (u "debug-id"), VStr (u n)); (KStr (u "sourcemap"), VStr (u "m.map"))] in
  let one := u "00000000000000000000000000000001" in
  let minified n := ex_file "a.js" "minified_source" (id n) in
  let map_file := ex_file "m.map" "source_map" [] in
  let s := {| blobs := ∅; files := {[11 := minified "00000000000000000000000000000001"; 12 := minified "00000000000000000000000000000002"; 13 := map_file;
                                     21 := minified "00000000000000000000000000000001"; 22 := map_file]};
              next_file := 23; bundles := [{| organization := 1; debug_id := Some 1; release := Some 1; file := 11; sourcemap_file := Some 13 |};
                                           {| organization := 1; debug_id := Some 2; release := Some 1; file := 12; sourcemap_file := Some 13 |}];
              releases := ∅; next_release := 1; statuses := ∅ |} in
  map sourcemap_file (bundles (save_bundles 1 (Some 1) [(21, minified "00000000000000000000000000000001"); (22, map_file)] s).2) = [Some 22; None; None].
Proof. vm_compute. reflexivity. Qed.

(** Source maps are found by the last part of their path: of two in different directories the
    first is taken for both. *)
Example basename_confused :
  let minified := ex_file "index.js" "minified_source" [(KStr (u "sourcemap"), VStr (u "index.js.map"))] in
  let map_file := ex_file "index.js.map" "source_map" [] in
  basename (u "~/b/index.js.map") = basename (u "~/a/index.js.map") /\
  find_sourcemap minified [(1, map_file); (2, minified); (3, map_file); (4, minified)] = Some (Some 1).
Proof. vm_compute. split; reflexivity. Qed.

(** A manifest that names a file the archive lacks leaves the status at "assembling" and the
    bundle's file in the table. *)
Example missing_member_stuck :
  let s := assemble_artifacts (fun d => d) 5 (fun _ => Some [(u "manifest.json", u "{}")]) ex_manifest 1 (u "o") None (u "/tmp/x") (u "ab") [u "ab"] ex_store in
  statuses s !! (1, u "ab") = Some (ASSEMBLING, None) /\ is_Some (files s !! 3) /\ is_Some (files s !! 4).
Proof. vm_compute. split; [reflexivity|split; by eexists]. Qed.

(** A chunk that is named twice counts once against the limit of the size, and a file beyond
    the column's range fails without a status. *)
Example repeated_chunk_crashes :
  let s := with_blobs {[u "x" := {| content := u "x"; size := Some (2 ^ 30); blob_created := 0 |}]} ex_store in
  let '(r, s) := assemble_file (fun d => d) 5 1 (u "b.zip") (u "xx") [u "x"; u "x"] (u "release.bundle") s in
  r = Crashed /\ statuses s = ∅.
Proof. vm_compute. split; reflexivity. Qed.
