(* ===== verification/BitField.v ===== *)
(** * Bit fields and API tokens

    [bitfield/types.py], [bitfield/models.py] and [bitfield/forms.py]: a field of flags that
    is stored as an integer; [apps/api_tokens/] keeps the scopes of a token in one, and
    [glitchtip/api/permissions.py] and [authentication.py] check them. *)
From S2P Require Import Prelude PyStr PyValue.

(** ** [Bit] *)

(** One flag, set or cleared. *)
Record Bit := { number : Z; is_set : bool }.

Definition mask (b : Bit) : Z := if is_set b then 2 ^ number b else Z.lnot (2 ^ number b).

(** [Bit == value] for a bit, a boolean and an integer. *)
Definition bit_eq (b : Bit) (value : Bit) : bool := (number value =? number b) && Bool.eqb (is_set value) (is_set b).
Definition bit_eq_bool (b : Bit) (value : bool) : bool := Bool.eqb value (is_set b).
Definition bit_eq_int (b : Bit) (value : Z) : bool := value =? mask b.

Definition bit_invert (b : Bit) : Bit := {| number := number b; is_set := negb (is_set b) |}.
Definition bit_and (b : Bit) (value : Z) : Z := Z.land value (mask b).
Definition bit_or (b : Bit) (value : Z) : Z := Z.lor value (mask b).
Definition bit_xor (b : Bit) (value : Z) : Z := Z.lxor value (mask b).

(** [x << n] and [x >> n] of integers; a negative count raises. *)
Definition shl (x n : Z) : res Z := if n <? 0 then Raise ValueError else Ok (Z.shiftl x n).
Definition shr (x n : Z) : res Z := if n <? 0 then Raise ValueError else Ok (Z.shiftr x n).

(** [bit << value] and [value << bit]: the class has the operands the other way round. *)
Definition bit_lshift (b : Bit) (value : Z) : res Z := shl value (mask b).
Definition bit_rlshift (b : Bit) (value : Z) : res Z := shl (mask b) value.
Definition bit_rshift (b : Bit) (value : Z) : res Z := shr value (mask b).
Definition bit_rrshift (b : Bit) (value : Z) : res Z := shr (mask b) value.

(** ** [BitHandler] *)

(** The flags of a value. Keys and labels are [None] once [_keys] or [_labels] are
    overwritten with something that is no list. *)
Record BitHandler := { _value : Z; _keys : option (list ustr); _labels : option (list ustr) }.

Definition make_handler (value : Z) (keys : list ustr) (labels : option (list ustr)) : BitHandler :=
  {| _value := value; _keys := Some keys; _labels := Some match labels with Some ((_ :: _) as l) => l | _ => keys end |}.

Definition with_value (v : Z) (h : BitHandler) : BitHandler := {| _value := v; _keys := _keys h; _labels := _labels h |}.

Definition get_bit (h : BitHandler) (bit_number : Z) : Bit :=
  {| number := bit_number; is_set := negb (Z.land (_value h) (2 ^ bit_number) =? 0) |}.

Definition set_bit (h : BitHandler) (bit_number : Z) (true_or_false : bool) : BitHandler :=
  let m := 2 ^ bit_number in
  with_value (if true_or_false then Z.lor (_value h) m else Z.land (_value h) (Z.lnot m)) h.

(** [l.index(key)] *)
Fixpoint index_from (n : Z) (key : ustr) (l : list ustr) : option Z :=
  match l with [] => None | k :: l => if ustr_eqb k key then Some n else index_from (n + 1) key l end.
Definition index (key : ustr) (l : list ustr) : option Z := index_from 0 key l.

Definition private (key : ustr) : bool := startswith (u "_") key.

(** [key in handler] *)
Definition contains_flag (h : BitHandler) (key : ustr) : res bool :=
  match _keys h with
  | None => Raise AttributeError
  | Some keys => match index key keys with Some n => Ok (is_set (get_bit h n)) | None => Raise ValueError end
  end.

(** [getattr(handler, key)] and [setattr(handler, key, value)] for flags; a key with an
    underscore reaches the object's own attributes, of which [True] makes the integer 1. *)
Definition getattr (h : BitHandler) (key : ustr) : res Bit :=
  match _keys h with
  | None => Raise TypeError
  | Some keys => match index key keys with Some n => Ok (get_bit h n) | None => Raise AttributeError end
  end.

Definition setattr (h : BitHandler) (key : ustr) (b : bool) : res BitHandler :=
  if private key then
    Ok (if ustr_eqb key (u "_value") then with_value (if b then 1 else 0) h
        else if ustr_eqb key (u "_keys") then {| _value := _value h; _keys := None; _labels := _labels h |}
        else if ustr_eqb key (u "_labels") then {| _value := _value h; _keys := _keys h; _labels := None |}
        else h)
  else
    match _keys h with
    | None => Raise TypeError
    | Some keys => match index key keys with Some n => Ok (set_bit h n b) | None => Raise AttributeError end
    end.

(** [handler.items()] *)
Definition items (h : BitHandler) : res (list (ustr * bool)) :=
  match _keys h with
  | None => Raise TypeError
  | Some keys => foldr (fun k r => let* b := getattr h k in let* l := r in Ok ((k, is_set b) :: l)) (Ok []) keys
  end.

(** [handler op value] keeps the keys only. *)
Definition derive (h : BitHandler) (v : Z) : BitHandler := {| _value := v; _keys := _keys h; _labels := _keys h |}.
Definition handler_and (h : BitHandler) (value : Z) : BitHandler := derive h (Z.land (_value h) value).
Definition handler_or (h : BitHandler) (value : Z) : BitHandler := derive h (Z.lor (_value h) value).
Definition handler_add (h : BitHandler) (value : Z) : BitHandler := derive h (_value h + value).
Definition handler_sub (h : BitHandler) (value : Z) : BitHandler := derive h (_value h - value).
Definition handler_xor (h : BitHandler) (value : Z) : BitHandler := derive h (Z.lxor (_value h) value).
Definition handler_lshift (h : BitHandler) (value : Z) : res BitHandler := let* v := shl (_value h) value in Ok (derive h v).
Definition handler_rshift (h : BitHandler) (value : Z) : res BitHandler := let* v := shr (_value h) value in Ok (derive h v).

Definition handler_eq (h other : BitHandler) : bool := _value h =? _value other.
Definition handler_lt (h : BitHandler) (other : Z) : bool := _value h <? other.
Definition handler_le (h : BitHandler) (other : Z) : bool := _value h <=? other.

(** [get_label] for the name and for the number of a flag. *)
Definition get_label_at (h : BitHandler) (n : Z) : res ustr :=
  match _labels h with
  | None => Raise TypeError
  | Some l => match list_index l n with Some x => Ok x | None => Raise IndexError end
  end.
Definition get_label (h : BitHandler) (flag : ustr) : res ustr :=
  match _keys h with
  | None => Raise AttributeError
  | Some keys => match index flag keys with Some n => get_label_at h n | None => Raise ValueError end
  end.

(** ** [BitField] *)

(** The bits of the largest 64 bit integer. *)
Definition MAX_FLAG_COUNT : Z := 63.

(** [BitFieldFlags]: the flags of the class, each as a set bit. *)
Definition make_flags (flags : list ustr) : res (list ustr) := if MAX_FLAG_COUNT <? len flags then Raise ValueError else Ok flags.
Definition flags_getattr (flags : list ustr) (key : ustr) : res Bit :=
  match index key flags with Some n => Ok {| number := n; is_set := true |} | None => Raise AttributeError end.
Definition flags_items (flags : list ustr) : res (list (ustr * Bit)) :=
  foldr (fun k r => let* b := flags_getattr flags k in let* l := r in Ok ((k, b) :: l)) (Ok []) flags.

(** A flag with its label, or alone. *)
Abbreviation flag_arg := (ustr * option ustr)%type.

(** The flags of a dictionary by number; gaps get empty names. *)
Definition flags_of_dict (d : gmap Z flag_arg) : res (list flag_arg) :=
  match filter (fun k => 0 <= k < MAX_FLAG_COUNT) (map fst (map_to_list d)) with
  | [] => Raise ValueError
  | k :: ks => Ok (map (fun i => default ([], None) (d !! i)) (seqZ 0 (foldr Z.max k ks + 1)))
  end.

Record Field := { flags : list ustr; labels : list ustr; default_value : option Z }.

(** [new_value |= Bit(flags.index(flag))] over the names of the default. *)
Definition default_of (flags : list ustr) (names : list ustr) : res Z :=
  foldl (fun r flag =>
    let* v := r in
    match index flag flags with Some n => Ok (bit_or {| number := n; is_set := true |} v) | None => Raise ValueError end) (Ok 0) names.

Definition make_field (args : list flag_arg) (dflt : option (list ustr + Z)) : res Field :=
  if MAX_FLAG_COUNT <? len args then Raise ValueError
  else
    let names := map fst args in
    let* d := match dflt with
              | None => Ok None
              | Some (inl l) => let* v := default_of names l in Ok (Some v)
              | Some (inr v) => Ok (Some v)
              end in
    Ok {| flags := names; labels := map (fun a => default a.1 a.2) args; default_value := d |}.

(** The negative values of old rows: the bits of the flags that are there. *)
Fixpoint low_bits (value : Z) (bit_number : Z) (l : list ustr) : Z :=
  match l with [] => 0 | _ :: l => Z.lor (Z.land value (2 ^ bit_number)) (low_bits value (bit_number + 1) l) end.

(** [to_python] of an integer, a bit and a handler. *)
Definition to_python (f : Field) (value : Z) : BitHandler :=
  make_handler (if value <? 0 then low_bits value 0 (flags f) else value) (flags f) (Some (labels f)).
Definition to_python_bit (f : Field) (b : Bit) : BitHandler := to_python f (mask b).
Definition to_python_handler (f : Field) (h : BitHandler) : BitHandler := {| _value := _value h; _keys := Some (flags f); _labels := _labels h |}.

(** [CompositeBitField]: the flags of several fields under one name. *)
Definition validate_fields (all : list (list ustr)) : res unit := if bool_decide (NoDup (concat all)) then Ok tt else Raise ValueError.

Fixpoint composite_get (l : list BitHandler) (attr : ustr) : res Bit :=
  match l with
  | [] => Raise AttributeError
  | h :: l => match getattr h attr with Ok b => Ok b | Raise AttributeError => composite_get l attr | Raise e => Raise e end
  end.

Fixpoint composite_set (l : list BitHandler) (attr : ustr) (b : bool) : res (list BitHandler) :=
  match l with
  | [] => Raise AttributeError
  | h :: l =>
      match getattr h attr with
      | Ok _ => let* h := setattr h attr b in Ok (h :: l)
      | Raise AttributeError => let* l := composite_set l attr b in Ok (h :: l)
      | Raise e => Raise e
      end
  end.

(** ** Forms *)

(** The checked boxes of an integer: [div] is twice the bit's value. *)
Fixpoint checked (value div : Z) (choices : list ustr) : list ustr :=
  match choices with
  | [] => []
  | k :: choices =>
      if negb (value mod div =? 0) then k :: checked (value - value mod div) (div * 2) choices else checked value (div * 2) choices
  end.
Definition render (value : Z) (choices : list ustr) : list ustr := checked value 2 choices.
Definition render_handler (h : BitHandler) : res (list ustr) := let* l := items h in Ok (map fst (filter (fun kv => kv.2 = true) l)).

Definition has_changed (initial data : list ustr) : bool :=
  if bool_decide (initial <> data) then true else negb (bool_decide (list_to_set (C := gset ustr) data = list_to_set initial)).

(** The names an initial integer stands for. *)
Definition initial_choices (iv : Z) (choices : list ustr) : list ustr :=
  map snd (filter (fun ik : Z * ustr => 0 < Z.land (Z.shiftl 1 ik.1) iv) (zip (seqZ 0 (Z.min (len choices) 63)) choices)).

(** [clean]: [None] for a choice that is unknown. *)
Definition set_flags (h : BitHandler) (names : list ustr) : res BitHandler :=
  foldl (fun r k => let* h := r in setattr h k true) (Ok h) names.

Definition clean (choices names : list ustr) : res (option Z) :=
  match names with
  | [] => Ok (Some 0)
  | _ =>
      match set_flags (make_handler 0 choices None) names with
      | Ok h => Ok (Some (_value h))
      | Raise AttributeError => Ok None
      | Raise e => Raise e
      end
  end.

(** ** API tokens *)

Definition SCOPES : list ustr :=
  map u ["project:read"; "project:write"; "project:admin"; "project:releases"; "team:read"; "team:write"; "team:admin"; "event:read"; "event:write";
         "event:admin"; "org:read"; "org:write"; "org:admin"; "member:read"; "member:write"; "member:admin"]%string.

Definition scopes_field : Field := {| flags := SCOPES; labels := SCOPES; default_value := None |}.

Record APIToken := { token : ustr; user_id : Z; label : ustr; scopes : BitHandler }.

Definition get_scopes (t : APIToken) : res (list ustr) := let* l := items (scopes t) in Ok (map fst (filter (fun kv => kv.2 = true) l)).

Definition add_permissions (permissions : list ustr) (t : APIToken) : res APIToken :=
  let* h := set_flags (scopes t) permissions in Ok {| token := token t; user_id := user_id t; label := label t; scopes := h |}.
Definition add_permission (permission : ustr) (t : APIToken) : res APIToken := add_permissions [permission] t.

(** The scopes of a request, as names or as an integer; [None] for the error 422. *)
Definition bitfield_to_internal_value (v : list ustr + Z) : res (option Z) :=
  match v with
  | inl names =>
      match set_flags (make_handler 0 SCOPES None) names with
      | Ok h => Ok (Some (_value h))
      | Raise AttributeError => Ok None
      | Raise e => Raise e
      end
  | inr v => Ok (Some v)
  end.

Definition fits_bigint (v : Z) : bool := (- 2 ^ 63 <=? v) && (v <? 2 ^ 63).

(** The table of tokens by id, with the next id. *)
Record Tokens := { rows : gmap Z APIToken; next_id : Z }.

(** [create_api_token] with the random text of the new token. *)
Definition create_api_token (user : Z) (text lbl : ustr) (requested : list ustr + Z) (s : Tokens) : res (option Z * Tokens) :=
  let* v := bitfield_to_internal_value requested in
  match v with
  | None => Ok (None, s)
  | Some v =>
      let h := to_python scopes_field v in
      if negb (fits_bigint (_value h)) then Raise DataError
      else Ok (Some (next_id s),
               {| rows := <[next_id s := {| token := text; user_id := user; label := lbl; scopes := h |}]> (rows s); next_id := next_id s + 1 |})
  end.

Definition list_api_tokens (user : Z) (s : Tokens) : list (Z * APIToken) := filter (fun kv => user_id kv.2 = user) (map_to_list (rows s)).

(** [delete_api_token]; [false] for the error 404. *)
Definition delete_api_token (user id : Z) (s : Tokens) : bool * Tokens :=
  match rows s !! id with
  | Some t => if user_id t =? user then (true, {| rows := delete id (rows s); next_id := next_id s |}) else (false, s)
  | None => (false, s)
  end.

(** Who asks: a user with a session, or with a token. *)
Record Auth := { auth_user : Z; auth_token : option APIToken }.

Definition token_authenticate (active : Z -> bool) (key : ustr) (s : Tokens) : option Auth :=
  first_some (fun kv : Z * APIToken =>
    if ustr_eqb (token kv.2) key && active (user_id kv.2) then Some {| auth_user := user_id kv.2; auth_token := Some kv.2 |} else None)
    (map_to_list (rows s)).

Definition has_permission (permissions : list ustr) (a : Auth) : res bool :=
  match auth_token a with
  | None => Ok true
  | Some t => let* l := get_scopes t in Ok (existsb (fun s => bool_decide (s ∈ permissions)) l)
  end.

(** ** What holds *)

Lemma get_bit_spec h n : 0 <= n -> is_set (get_bit h n) = Z.testbit (_value h) n.
Proof.
  intros Hn. unfold get_bit; cbn [is_set]. rewrite <- (Z.mul_1_l (2 ^ n)), <- Z.shiftl_mul_pow2 by lia. destruct (Z.testbit (_value h) n) eqn:E.
  - rewrite negb_true_iff, Z.eqb_neq. intros H. apply (f_equal (fun x => Z.testbit x n)) in H. rewrite Z.land_spec, Z.shiftl_spec, Z.sub_diag, Z.bits_0, E in H by lia. done.
  - rewrite negb_false_iff, Z.eqb_eq. apply Z.bits_inj'. intros m Hm. rewrite Z.land_spec, Z.bits_0, Z.shiftl_spec by lia.
    destruct (decide (m = n)) as [->|Hne]; [by rewrite E|]. destruct (Z.ltb_spec (m - n) 0); [rewrite (Z.testbit_neg_r 1) by lia; apply andb_false_r|].
    rewrite (Z.bits_above_log2 1 (m - n)); [apply andb_false_r|lia|cbn; lia].
Qed.

Lemma testbit_pow2 n m : 0 <= n -> 0 <= m -> Z.testbit (2 ^ n) m = (m =? n).
Proof. intros Hn Hm. rewrite Z.pow2_bits_eqb by lia. apply Z.eqb_sym. Qed.

Lemma get_set h n b m : 0 <= n -> 0 <= m -> is_set (get_bit (set_bit h n b) m) = if m =? n then b else is_set (get_bit h m).
Proof.
  intros Hn Hm. rewrite !get_bit_spec by done. unfold set_bit. destruct b; cbn [_value with_value].
  - rewrite Z.lor_spec, testbit_pow2 by done. destruct (m =? n); [apply orb_true_r|apply orb_false_r].
  - rewrite Z.land_spec, Z.lnot_spec, testbit_pow2 by done. destruct (m =? n); [apply andb_false_r|apply andb_true_r].
Qed.

Lemma index_from_bounds n key l i : index_from n key l = Some i -> n <= i < n + len l /\ l !! Z.to_nat (i - n) = Some key.
Proof.
  revert n. induction l as [|k l IH]; intros n; cbn [index_from]; [done|]. unfold len in *. cbn [length]. destruct (ustr_eqb k key) eqn:E.
  - intros [= <-]. apply bool_decide_eq_true in E as ->. split; [lia|]. by rewrite Z.sub_diag.
  - intros H%IH. destruct H as [H1 H2]. split; [lia|]. by replace (Z.to_nat (i - n)) with (S (Z.to_nat (i - (n + 1)))) by lia.
Qed.

Lemma index_from_None n key l : index_from n key l = None <-> key ∉ l.
Proof.
  revert n. induction l as [|k l IH]; intros n; cbn [index_from]; [split; [intros _; apply not_elem_of_nil|done]|]. rewrite not_elem_of_cons.
  destruct (ustr_eqb k key) eqn:E; [apply bool_decide_eq_true in E as ->; split; [done|tauto]|]. apply bool_decide_eq_false in E. rewrite IH. firstorder congruence.
Qed.

Lemma index_inj key key' l i : index key l = Some i -> index key' l = Some i -> key = key'.
Proof. intros [_ H1]%index_from_bounds [_ H2]%index_from_bounds. congruence. Qed.

Lemma index_nonneg key l i : index key l = Some i -> 0 <= i.
Proof. intros [H _]%index_from_bounds. lia. Qed.

Lemma with_value_keys v h : _keys (with_value v h) = _keys h.
Proof. done. Qed.

(** Setting the flags of names sets exactly these. *)
Lemma set_flags_spec keys names : forall h,
  _keys h = Some keys -> Forall (fun k => private k = false /\ k ∈ keys) names ->
  exists h', set_flags h names = Ok h' /\ _keys h' = Some keys /\
    forall k n, index k keys = Some n -> is_set (get_bit h' n) = bool_decide (k ∈ names) || is_set (get_bit h n).
Proof.
  unfold set_flags. induction names as [|x names IH]; intros h Hk Hn; [exists h; split_and!; [done|done|]; intros k n _; by rewrite bool_decide_eq_false_2 by apply not_elem_of_nil|].
  apply Forall_cons in Hn as [[Hp Hx] Hn]. cbn [foldl res_bind]. unfold setattr. rewrite Hp, Hk. destruct (index x keys) as [i|] eqn:Ei.
  2: { by apply index_from_None in Ei. }
  destruct (IH (set_bit h i true)) as (h' & H1 & H2 & H3); [by unfold set_bit; rewrite with_value_keys|done|]. exists h'. split_and!; [exact H1|done|].
  intros k n Hkn. rewrite (H3 k n Hkn), get_set by (by eapply index_nonneg). destruct (Z.eqb_spec n i) as [->|Hne].
  - rewrite (index_inj _ _ _ _ Hkn Ei), orb_true_r. by rewrite bool_decide_eq_true_2 by left.
  - f_equal. apply bool_decide_ext. rewrite elem_of_cons. split; [tauto|]. intros [->|?]; [congruence|done].
Qed.

(** A name that is no flag is refused. *)
Lemma set_flags_unknown keys names x h :
  _keys h = Some keys -> Forall (fun k => private k = false) names -> x ∈ names -> x ∉ keys -> set_flags h names = Raise AttributeError.
Proof.
  unfold set_flags. intros Hk Hp Hx Hn. revert h Hk. induction Hp as [|y names Hy Hp IH]; intros h Hk; [by apply elem_of_nil in Hx|].
  cbn [foldl res_bind]. unfold setattr. rewrite Hy, Hk. destruct (index y keys) as [i|] eqn:Ei.
  - apply elem_of_cons in Hx as [->|Hx]; [|apply IH; [done|unfold set_bit; by rewrite with_value_keys]].
    apply index_from_bounds in Ei as [_ Ei]. by apply list_elem_of_lookup_2 in Ei.
  - clear. induction names; [done|]. done.
Qed.

Lemma items_spec h keys : _keys h = Some keys ->
  items h = Ok (map (fun k => (k, match index k keys with Some n => is_set (get_bit h n) | None => false end)) keys).
Proof.
  intros Hk. unfold items. rewrite Hk.
  assert (forall l, (forall k, k ∈ l -> k ∈ keys) ->
    foldr (fun k r => let* b := getattr h k in let* l := r in Ok ((k, is_set b) :: l)) (Ok []) l
    = Ok (map (fun k => (k, match index k keys with Some n => is_set (get_bit h n) | None => false end)) l)) as H; [|by apply H].
  induction l as [|k l IH]; intros Hl; [done|]. cbn [foldr map]. rewrite IH by (intros; apply Hl; by right). unfold getattr. rewrite Hk.
  destruct (index k keys) as [n|] eqn:E; [done|]. apply index_from_None in E. destruct E. apply Hl. left.
Qed.

(** The value of flags that are set one by one. *)
Lemma set_bit_bounds h n N : 0 <= n < N -> 0 <= _value h < 2 ^ N -> 0 <= _value (set_bit h n true) < 2 ^ N.
Proof.
  intros Hn Hv. unfold set_bit; cbn [_value with_value]. split; [apply Z.lor_nonneg; split; [lia|apply Z.pow_nonneg; lia]|].
  assert (0 < Z.lor (_value h) (2 ^ n)) as Hpos.
  { assert (0 <= Z.lor (_value h) (2 ^ n)) by (apply Z.lor_nonneg; split; [lia|apply Z.pow_nonneg; lia]).
    assert (Z.lor (_value h) (2 ^ n) <> 0); [|lia]. intros [_ H0]%Z.lor_eq_0_iff. pose proof (Z.pow_pos_nonneg 2 n). lia. }
  apply Z.log2_lt_pow2; [done|]. rewrite Z.log2_lor by (lia || (apply Z.pow_nonneg; lia)). rewrite Z.log2_pow2 by lia.
  destruct (decide (_value h = 0)) as [->|]; [cbn; lia|]. pose proof (proj1 (Z.log2_lt_pow2 (_value h) N ltac:(lia))). lia.
Qed.

Lemma set_flags_bounds keys names : forall h h',
  _keys h = Some keys -> Forall (fun k => private k = false) names -> set_flags h names = Ok h' ->
  0 <= _value h < 2 ^ len keys -> 0 <= _value h' < 2 ^ len keys.
Proof.
  unfold set_flags. induction names as [|x names IH]; intros h h' Hk Hp H Hv; [by injection H as <-|]. apply Forall_cons in Hp as [Hx Hp].
  cbn [foldl res_bind] in H. unfold setattr in H at 2. rewrite Hx, Hk in H. destruct (index x keys) as [i|] eqn:Ei.
  - eapply (IH (set_bit h i true)); [unfold set_bit; by rewrite with_value_keys|done|exact H|]. apply index_from_bounds in Ei as [Ei _].
    apply set_bit_bounds; [lia|done].
  - exfalso. clear -H. induction names; [done|]. by apply IHnames.
Qed.

Lemma scopes_public k : k ∈ SCOPES -> private k = false.
Proof. intros H. assert (Forall (fun k => private k = false) SCOPES) as HF by by_decide. by apply (proj1 (Forall_forall _ _) HF). Qed.

Lemma filter_map_pairs {A} (f : A -> bool) (l : list A) : map fst (filter (fun kv : A * bool => kv.2 = true) (map (fun k => (k, f k)) l)) = filter (fun k => f k = true) l.
Proof. induction l as [|k l IH]; [done|]. cbn [map]. rewrite !filter_cons. cbn [snd]. case_decide; cbn [map fst]; by rewrite IH. Qed.

(** A token that is created with scopes has these and no other ones, in the order of the
    flags, and it passes a check exactly when one of its scopes is among those asked for. *)
Theorem token_scopes_exact (user : Z) (text lbl : ustr) (names : list ustr) (s : Tokens) :
  Forall (fun k => k ∈ SCOPES) names ->
  exists id s' t, create_api_token user text lbl (inl names) s = Ok (Some id, s') /\ rows s' !! id = Some t /\ user_id t = user /\
    get_scopes t = Ok (filter (fun k => k ∈ names) SCOPES) /\
    forall permissions, has_permission permissions {| auth_user := user; auth_token := Some t |} = Ok (bool_decide (Exists (fun p => p ∈ names) permissions)).
Proof.
  intros Hn. assert (Forall (fun k => private k = false /\ k ∈ SCOPES) names) as Hn' by (eapply Forall_impl; [exact Hn|]; intros k Hk; split; [by apply scopes_public|done]).
  destruct (set_flags_spec SCOPES names (make_handler 0 SCOPES None) eq_refl Hn') as (h & Hh & Hk & Hbits).
  assert (0 <= _value h < 2 ^ len SCOPES) as Hb.
  { apply (set_flags_bounds SCOPES names (make_handler 0 SCOPES None) h eq_refl); [eapply Forall_impl; [exact Hn|]; intros; by apply scopes_public|done|]. split; [done|reflexivity]. }
  change (2 ^ len SCOPES) with 65536 in Hb. unfold create_api_token, bitfield_to_internal_value. rewrite Hh. cbn [res_bind]. unfold to_python.
  replace (_value h <? 0) with false by lia. set (h2 := make_handler _ _ _). assert (fits_bigint (_value h2) = true) as Hf by (unfold fits_bigint; subst h2; cbn [_value make_handler]; lia).
  rewrite Hf. cbn [negb]. eexists _, _, _. split; [reflexivity|]. cbn [rows]. split; [apply lookup_insert_eq|]. cbn [user_id]. split; [done|].
  assert (get_scopes {| token := text; user_id := user; label := lbl; scopes := h2 |} = Ok (filter (fun k => k ∈ names) SCOPES)) as Hs.
  { unfold get_scopes. cbn [scopes]. rewrite (items_spec h2 SCOPES) by done. cbn [res_bind]. rewrite filter_map_pairs. f_equal.
    apply list_filter_iff_strong || apply list_filter_iff. intros k.
    destruct (index k SCOPES) as [n|] eqn:E.
    - pose proof (index_nonneg _ _ _ E). rewrite get_bit_spec by done. change (_value h2) with (_value h). rewrite <- get_bit_spec, (Hbits k n E) by done.
      rewrite get_bit_spec by done. cbn [_value make_handler]. rewrite Z.bits_0, orb_false_r. apply bool_decide_eq_true.
    - split; [done|]. intros Hin. apply index_from_None in E. destruct E. by apply (proj1 (Forall_forall _ _) Hn). }
  split; [exact Hs|]. intros permissions. unfold has_permission. cbn [auth_token]. rewrite Hs. cbn [res_bind]. f_equal.
  apply eq_true_iff_eq. rewrite existsb_exists, bool_decide_eq_true, Exists_exists. split.
  - intros (k & Hin%list_elem_of_In & Hp%bool_decide_eq_true). apply list_elem_of_filter in Hin as [? _]. by exists k.
  - intros (k & Hp & Hin). exists k. split; [|by apply bool_decide_eq_true]. apply list_elem_of_In, list_elem_of_filter. split; [done|].
    by apply (proj1 (Forall_forall _ _) Hn).
Qed.

(** Negative values of old rows show exactly their bits as flags, and so do the others. *)
Theorem to_python_shows_bits (f : Field) (v n : Z) :
  0 <= n < len (flags f) -> is_set (get_bit (to_python f v) n) = Z.testbit v n.
Proof.
  intros Hn. rewrite get_bit_spec by lia. unfold to_python. cbn [_value make_handler]. destruct (v <? 0); [|done].
  assert (forall l i, 0 <= i -> i <= n < i + len l -> Z.testbit (low_bits v i l) n = Z.testbit v n) as H; [|apply H; lia].
  induction l as [|k l IH]; intros i Hi Hin; unfold len in *; cbn [length low_bits] in *; [lia|]. rewrite Z.lor_spec, Z.land_spec, testbit_pow2 by lia.
  destruct (Z.eqb_spec n i) as [->|Hne].
  - rewrite andb_true_r. destruct (Z.testbit v i) eqn:E; [done|]. cbn [orb].
    assert (forall l j, i < j -> Z.testbit (low_bits v j l) i = false) as Hlow; [|apply Hlow; lia].
    clear -Hi. induction l as [|k l IH]; intros j Hj; cbn [low_bits]; [apply Z.bits_0|]. rewrite Z.lor_spec, Z.land_spec, testbit_pow2, IH by lia.
    replace (i =? j) with false by lia. by rewrite andb_false_r.
  - rewrite andb_false_r. cbn [orb]. apply IH; lia.
Qed.

(** The form's loop over remainders ticks the set bits. *)
Lemma checked_spec choices : forall value i,
  0 <= i -> (forall j, 0 <= j < i -> Z.testbit value j = false) ->
  checked value (2 ^ (i + 1)) choices = map snd (filter (fun ik : Z * ustr => Z.testbit value ik.1 = true) (zip (seqZ i (len choices)) choices)).
Proof.
  induction choices as [|k choices IH]; intros value i Hi Hlow; [done|].
  assert (value mod 2 ^ (i + 1) = if Z.testbit value i then 2 ^ i else 0) as Hmod.
  { apply Z.bits_inj'. intros m Hm. destruct (Z.ltb_spec m (i + 1)).
    - rewrite Z.mod_pow2_bits_low by lia. destruct (decide (m = i)) as [->|].
      + destruct (Z.testbit value i); [by rewrite testbit_pow2, Z.eqb_refl by lia|by rewrite Z.bits_0].
      + rewrite Hlow by lia. destruct (Z.testbit value i); [rewrite testbit_pow2 by lia; lia|by rewrite Z.bits_0].
    - rewrite Z.mod_pow2_bits_high by lia. destruct (Z.testbit value i); [rewrite testbit_pow2 by lia; lia|by rewrite Z.bits_0]. }
  unfold len. cbn [length]. replace (Z.of_nat (S (length choices))) with (Z.succ (len choices)) by (unfold len; lia). rewrite seqZ_cons by (unfold len; lia).
  rewrite Z.pred_succ. change (zip (i :: seqZ (Z.succ i) (len choices)) (k :: choices)) with ((i, k) :: zip (seqZ (Z.succ i) (len choices)) choices).
  rewrite filter_cons. cbn [fst checked]. rewrite Hmod. replace (2 ^ (i + 1) * 2) with (2 ^ (Z.succ i + 1)) by (rewrite (Z.pow_add_r 2 (Z.succ i)) by lia; f_equal; f_equal; lia).
  pose proof (Z.pow_pos_nonneg 2 i ltac:(lia) Hi). destruct (Z.testbit value i) eqn:E.
  - replace (negb (2 ^ i =? 0)) with true by lia. rewrite decide_True by done. cbn [map snd]. f_equal.
    assert (value - 2 ^ i = Z.ldiff value (2 ^ i)) as ->.
    { apply Z.sub_nocarry_ldiff. apply Z.bits_inj'. intros m Hm. rewrite Z.ldiff_spec, testbit_pow2, Z.bits_0 by lia. destruct (Z.eqb_spec m i) as [->|]; [by rewrite E|done]. }
    rewrite IH; [|lia|].
    + f_equal. apply list_filter_iff_elem. intros [j x] Hj. cbn [fst]. apply elem_of_zip_l in Hj. apply elem_of_seqZ in Hj.
      rewrite Z.ldiff_spec, testbit_pow2 by lia. replace (j =? i) with false by lia. by rewrite andb_true_r.
    + intros j Hj. rewrite Z.ldiff_spec, testbit_pow2 by lia. destruct (Z.eqb_spec j i); [by rewrite andb_false_r|]. by rewrite Hlow by lia.
  - cbn [Z.eqb negb]. rewrite decide_False by done. apply IH; [lia|]. intros j Hj. destruct (decide (j = i)) as [->|]; [done|apply Hlow; lia].
Qed.

(** The check boxes ticked for an integer are those of its set bits, as for the handler of
    the same value. *)
Theorem render_ticks_set_bits (value : Z) (choices : list ustr) :
  NoDup choices -> Ok (render value choices) = render_handler (make_handler value choices None).
Proof.
  intros Hnd. unfold render, render_handler. rewrite (items_spec _ choices) by done. cbn [res_bind]. f_equal.
  change 2 with (2 ^ (0 + 1)) at 1. rewrite (checked_spec choices value 0) by lia. rewrite filter_map_pairs.
  assert (forall l i, (forall n k, l !! n = Some k -> index k choices = Some (i + Z.of_nat n)) -> 0 <= i ->
    map snd (filter (fun ik : Z * ustr => Z.testbit value ik.1 = true) (zip (seqZ i (len l)) l))
    = filter (fun k => match index k choices with Some n => is_set (get_bit (make_handler value choices None) n) | None => false end = true) l) as H.
  { induction l as [|k l IH]; intros i Hl Hi; [done|]. unfold len. cbn [length]. replace (Z.of_nat (S (length l))) with (Z.succ (len l)) by (unfold len; lia).
    rewrite seqZ_cons by (unfold len; lia). rewrite Z.pred_succ.
    change (zip (i :: seqZ (Z.succ i) (len l)) (k :: l)) with ((i, k) :: zip (seqZ (Z.succ i) (len l)) l). rewrite !filter_cons. cbn [fst].
    pose proof (Hl 0%nat k eq_refl) as Hk. rewrite Z.add_0_r in Hk. rewrite Hk, get_bit_spec by done. cbn [_value make_handler].
    rewrite <- (IH (Z.succ i)); [|intros n x Hx; rewrite (Hl (S n) x Hx); f_equal; lia|lia]. by case_decide. }
  apply H; [|lia]. intros n k Hn. rewrite Z.add_0_l. destruct (index k choices) as [i|] eqn:E.
  - apply index_from_bounds in E as [H1 H2]. rewrite Z.sub_0_r in H2. f_equal. pose proof (NoDup_lookup _ _ _ _ Hnd Hn H2). lia.
  - apply index_from_None in E. by apply list_elem_of_lookup_2 in Hn.
Qed.

(** Only the owner of a token sees it in the list and can delete it. *)
Theorem tokens_are_private (user id : Z) (s : Tokens) :
  (forall kv, kv ∈ list_api_tokens user s -> user_id kv.2 = user) /\
  (let '(ok, s') := delete_api_token user id s in
   if ok then exists t, rows s !! id = Some t /\ user_id t = user /\ rows s' = delete id (rows s) else s' = s).
Proof.
  split; [by intros kv [H _]%list_elem_of_filter|]. unfold delete_api_token. destruct (rows s !! id) as [t|] eqn:E; [|done].
  destruct (Z.eqb_spec (user_id t) user); [by exists t|done].
Qed.

(** ** Witnesses *)

Lemma token_scopes_exact_witness :
  exists id s' t, create_api_token 1 (u "t") (u "") (inl [u "team:read"; u "project:read"]) {| rows := ∅; next_id := 1 |} = Ok (Some id, s') /\
    get_scopes t = Ok [u "project:read"; u "team:read"].
Proof.
  destruct (token_scopes_exact 1 (u "t") (u "") [u "team:read"; u "project:read"] {| rows := ∅; next_id := 1 |}) as (id & s' & t & H1 & _ & _ & H2 & _); [by_decide|].
  exists id, s', t. split; [exact H1|exact H2].
Defined.

Lemma to_python_shows_bits_witness : is_set (get_bit (to_python scopes_field (-2)) 0) = false /\ is_set (get_bit (to_python scopes_field (-2)) 3) = true.
Proof. split; [apply (to_python_shows_bits scopes_field (-2) 0)|apply (to_python_shows_bits scopes_field (-2) 3)]; vm_compute; split; congruence. Defined.

Lemma render_ticks_set_bits_witness : Ok [u "a"; u "c"] = render_handler (make_handler 13 [u "a"; u "b"; u "c"] None).
Proof. apply (render_ticks_set_bits 13 [u "a"; u "b"; u "c"]). by_decide. Defined.

(** ** Where the code does not do what it means to *)

(** A scope named "_value" is no flag, but sets the first one; "_keys" makes the next scope
    raise. *)
Example private_scope_accepted :
  bitfield_to_internal_value (inl [u "_value"]) = Ok (Some 1) /\ bitfield_to_internal_value (inl [u "_keys"; u "org:read"]) = Raise TypeError.
Proof. split; reflexivity. Qed.

(** Shifting a bit shifts the other operand. *)
Example shift_is_reversed : bit_lshift {| number := 1; is_set := true |} 5 = Ok 20 /\ bit_rlshift {| number := 1; is_set := true |} 5 = Ok 64.
Proof. split; reflexivity. Qed.

(** A flag of the organizations' roles is no scope of a token. *)
Example integrations_scope_unknown : bitfield_to_internal_value (inl [u "org:integrations"]) = Ok None.
Proof. reflexivity. Qed.
