(* ===== verification/Membership.v ===== *)
(** * Organizations, members and teams

    [apps/organizations_ext/] ([constants.py], [models.py], [api.py], [queryset_utils.py],
    [invitation_backend.py], [utils.py]) and [apps/teams/api.py]: who belongs to an
    organization in which role, invitations, ownership, and the teams. A request is made by an
    [Auth] of [BitField]; every handler gives the status of its response, 500 for an exception
    that leaves it, and the new state. *)
From S2P Require Import Prelude PyStr PyValue BitField.

(** ** Roles *)

Definition MEMBER : Z := 0.
Definition ADMIN : Z := 1.
Definition MANAGER : Z := 2.
Definition OWNER : Z := 3.

Definition role_names : list (Z * ustr) := [(0, u "member"); (1, u "admin"); (2, u "manager"); (3, u "owner")].

Definition from_string (s : ustr) : option Z :=
  first_some (fun r : Z * ustr => if ustr_eqb r.2 (lower s) then Some r.1 else None) role_names.

(** The scopes of the roles. *)
Definition ROLES : list (list ustr) :=
  [map u ["event:read"; "event:write"; "event:admin"; "project:releases"; "project:read"; "org:read"; "member:read"; "team:read"];
   map u ["event:read"; "event:write"; "event:admin"; "org:read"; "member:read"; "project:read"; "project:write"; "project:admin"; "project:releases";
          "team:read"; "team:write"; "team:admin"; "org:integrations"];
   map u ["event:read"; "event:write"; "event:admin"; "member:read"; "member:write"; "member:admin"; "project:read"; "project:write"; "project:admin";
          "project:releases"; "team:read"; "team:write"; "team:admin"; "org:read"; "org:write"; "org:integrations"];
   map u ["org:read"; "org:write"; "org:admin"; "org:integrations"; "member:read"; "member:write"; "member:admin"; "team:read"; "team:write"; "team:admin";
          "project:read"; "project:write"; "project:admin"; "project:releases"; "event:read"; "event:write"; "event:admin"]]%string.

Definition role_scopes (role : Z) : option (list ustr) := ROLES !! Z.to_nat role.

(** ** The tables *)

Record Organization := { slug : ustr; org_name : ustr; open_membership : bool; is_deleted : bool }.

(** A member with its user, or an invitation with an email. *)
Record OrganizationUser := { org : Z; ou_user : option Z; role : Z; email : option ustr }.

Record Team := { t_org : Z; t_slug : ustr; members : gset Z; team_projects : gset Z }.

Record Project := { p_org : Z; p_slug : ustr }.

Record User := { user_email : ustr; is_superuser : bool; verified : bool }.

(** Tasks put on the queue: deletions of organizations, and invitations to send. *)
Inductive Job := DeleteOrganization (id : Z) | SendInvite (org_user : Z).

(** The tables by id, the owner of each organization, and the attempts to invite of each
    user with the time they are forgotten. *)
Record State := {
  orgs : gmap Z Organization; next_org : Z; org_users : gmap Z OrganizationUser; next_ou : Z; owners : gmap Z Z;
  teams : gmap Z Team; next_team : Z; projects : gmap Z Project; users : gmap Z User; attempts : gmap Z (Z * Z); jobs : list Job }.

Definition with_orgs m s := {| orgs := m; next_org := next_org s; org_users := org_users s; next_ou := next_ou s; owners := owners s; teams := teams s;
  next_team := next_team s; projects := projects s; users := users s; attempts := attempts s; jobs := jobs s |}.
Definition with_org_users m s := {| orgs := orgs s; next_org := next_org s; org_users := m; next_ou := next_ou s; owners := owners s; teams := teams s;
  next_team := next_team s; projects := projects s; users := users s; attempts := attempts s; jobs := jobs s |}.
Definition with_owners m s := {| orgs := orgs s; next_org := next_org s; org_users := org_users s; next_ou := next_ou s; owners := m; teams := teams s;
  next_team := next_team s; projects := projects s; users := users s; attempts := attempts s; jobs := jobs s |}.
Definition with_teams m s := {| orgs := orgs s; next_org := next_org s; org_users := org_users s; next_ou := next_ou s; owners := owners s; teams := m;
  next_team := next_team s; projects := projects s; users := users s; attempts := attempts s; jobs := jobs s |}.
Definition with_attempts m s := {| orgs := orgs s; next_org := next_org s; org_users := org_users s; next_ou := next_ou s; owners := owners s; teams := teams s;
  next_team := next_team s; projects := projects s; users := users s; attempts := m; jobs := jobs s |}.
Definition with_job j s := {| orgs := orgs s; next_org := next_org s; org_users := org_users s; next_ou := next_ou s; owners := owners s; teams := teams s;
  next_team := next_team s; projects := projects s; users := users s; attempts := attempts s; jobs := jobs s ++ [j] |}.

Definition new_org (o : Organization) (s : State) : State := {| orgs := <[next_org s := o]> (orgs s); next_org := next_org s + 1; org_users := org_users s;
  next_ou := next_ou s; owners := owners s; teams := teams s; next_team := next_team s; projects := projects s; users := users s; attempts := attempts s; jobs := jobs s |}.
Definition new_org_user (x : OrganizationUser) (s : State) : State := {| orgs := orgs s; next_org := next_org s; org_users := <[next_ou s := x]> (org_users s);
  next_ou := next_ou s + 1; owners := owners s; teams := teams s; next_team := next_team s; projects := projects s; users := users s; attempts := attempts s; jobs := jobs s |}.
Definition new_team (t : Team) (s : State) : State := {| orgs := orgs s; next_org := next_org s; org_users := org_users s; next_ou := next_ou s; owners := owners s;
  teams := <[next_team s := t]> (teams s); next_team := next_team s + 1; projects := projects s; users := users s; attempts := attempts s; jobs := jobs s |}.

(** ** Queries *)

(** The row of a table that meets a condition. *)
Definition find_row {A} (p : Z -> A -> bool) (m : gmap Z A) : option (Z * A) := find_first (fun kv => p kv.1 kv.2) (map_to_list m).

(** The membership of a user in an organization. *)
Definition membership (s : State) (o user : Z) : option (Z * OrganizationUser) :=
  find_row (fun _ x => (org x =? o) && bool_decide (ou_user x = Some user)) (org_users s).

Definition role_in (s : State) (o user : Z) : option Z := role <$> (snd <$> membership s o user).

(** [get_organizations_queryset(user_id, role_required=True, organization_slug=...)]: the
    organization with the role of the user. *)
Definition get_organization (s : State) (user : Z) (organization_slug : ustr) : option (Z * Organization * Z) :=
  match find_row (fun o x => ustr_eqb (slug x) organization_slug && negb (is_deleted x) && bool_decide (is_Some (role_in s o user))) (orgs s) with
  | Some (o, x) => pair (o, x) <$> role_in s o user
  | None => None
  end.

(** The organization of a slug, deleted or not, in which the user has at least a role. *)
Definition org_with_role (s : State) (user : Z) (organization_slug : ustr) (least : Z) : option (Z * Organization) :=
  find_row (fun o x => ustr_eqb (slug x) organization_slug && match role_in s o user with Some r => least <=? r | None => false end) (orgs s).

(** [get_organization_users_queryset] for one member, with the role of the user who asks. *)
Definition get_organization_user (s : State) (user : Z) (organization_slug : ustr) (member_id : Z) : option (OrganizationUser * Z) :=
  match org_users s !! member_id with
  | Some x =>
      match orgs s !! org x with
      | Some o => if ustr_eqb (slug o) organization_slug then pair x <$> role_in s (org x) user else None
      | None => None
      end
  | None => None
  end.

(** [get_team_queryset(organization_slug, team_slug, user_id=...)]; without a user every team
    of the organization is found. *)
Definition get_team (s : State) (user : option Z) (organization_slug team_slug : ustr) : option (Z * Team) :=
  find_row (fun _ t => ustr_eqb (t_slug t) team_slug &&
    match orgs s !! t_org t with
    | Some o => ustr_eqb (slug o) organization_slug && match user with Some i => bool_decide (is_Some (role_in s (t_org t) i)) | None => true end
    | None => false
    end) (teams s).

Definition get_project (s : State) (user : Z) (organization_slug project_slug : ustr) (least : Z) : option (Z * Project) :=
  find_row (fun _ p => ustr_eqb (p_slug p) project_slug &&
    match orgs s !! p_org p with
    | Some o => ustr_eqb (slug o) organization_slug && match role_in s (p_org p) user with Some r => least <=? r | None => false end
    | None => false
    end) (projects s).

(** The names a path must not begin with. *)
Definition reserved_words : list ustr :=
  map u ["login"; "register"; "app"; "profile"; "organizations"; "settings"; "issues"; "performance"; "_health"; "rest-auth"; "api"; "accept"; "stripe";
         "admin"; "status_page"; "__debug__"]%string.

Definition slugify_function (slugify : ustr -> ustr) (content : ustr) : ustr :=
  let s := slugify content in if bool_decide (s ∈ reserved_words) then s ++ u "-1" else s.

(** ** Handlers *)

Abbreviation response := (Z * State)%type.

(** [@has_permission([...])] *)
Definition permitted (permissions : list string) (a : Auth) (s : State) (k : response) : response :=
  match has_permission (map u permissions) a with Ok true => k | Ok false => (403, s) | Raise _ => (500, s) end.
Arguments permitted (_)%_list _ _ _.

(** The settings the handlers read, whether registration is open, and the token a member is
    invited with at a time (the MAC of Django). *)
Section handlers.
Context (ENABLE_ORGANIZATION_CREATION EMAIL_ENABLED EMAIL_INVITE_REQUIRE_VERIFICATION registration_open : bool).
Context (EMAIL_INVITE_THROTTLE_COUNT EMAIL_INVITE_THROTTLE_INTERVAL : Z).
Context (make_token : Z -> Z -> ustr).

Definition is_organization_creation_open (s : State) : bool := ENABLE_ORGANIZATION_CREATION || bool_decide (orgs s = ∅).

(** [Organization.aadd_user]: the first user becomes owner. *)
Definition add_user (o user r : Z) (s : State) : Z * State :=
  let users_count := length (filter (fun kv => org kv.2 = o /\ is_Some (ou_user kv.2)) (map_to_list (org_users s))) in
  let first := (users_count =? 0)%nat in
  let id := next_ou s in
  let s := new_org_user {| org := o; ou_user := Some user; role := if first then OWNER else r; email := None |} s in
  (id, if first then with_owners (<[o := id]> (owners s)) s else s).

(** The slug is the one the field generated; one that is taken raises. *)
Definition create_organization (a : Auth) (name new_slug : ustr) (s : State) : response :=
  permitted ["org:write"; "org:admin"]%string a s
    match users s !! auth_user a with
    | None => (404, s)
    | Some user =>
        if negb (is_organization_creation_open s) && negb (is_superuser user) then (403, s)
        else if bool_decide (is_Some (find_row (fun _ o => ustr_eqb (slug o) new_slug) (orgs s))) then (500, s)
        else
          let o := next_org s in
          let s := new_org {| slug := new_slug; org_name := name; open_membership := true; is_deleted := false |} s in
          (201, (add_user o (auth_user a) MEMBER s).2)
    end.

Definition update_organization (a : Auth) (organization_slug name : ustr) (s : State) : response :=
  permitted ["org:write"; "org:admin"]%string a s
    match get_organization s (auth_user a) organization_slug with
    | None => (404, s)
    | Some (o, x, actor_role) =>
        if actor_role <? MANAGER then (403, s)
        else (200, with_orgs (<[o := {| slug := slug x; org_name := name; open_membership := open_membership x; is_deleted := is_deleted x |}]> (orgs s)) s)
    end.

(** [Organization.delete] marks the row and leaves the rest to a task. *)
Definition delete_organization (a : Auth) (organization_slug : ustr) (s : State) : response :=
  permitted ["org:admin"]%string a s
    match get_organization s (auth_user a) organization_slug with
    | None => (404, s)
    | Some (o, x, actor_role) =>
        if actor_role <? MANAGER then (403, s)
        else (204, with_job (DeleteOrganization o)
                     (with_orgs (<[o := {| slug := slug x; org_name := org_name x; open_membership := open_membership x; is_deleted := true |}]> (orgs s)) s))
    end.

(** The attempts that count at a time. *)
Definition invite_attempts (now user : Z) (s : State) : Z := match attempts s !! user with Some (n, expiry) => if now <? expiry then n else 0 | None => 0 end.

Definition count_attempt (now user : Z) (s : State) : State :=
  let n := invite_attempts now user s in
  with_attempts (<[user := if n =? 0 then (1, now + EMAIL_INVITE_THROTTLE_INTERVAL)
                           else (n + 1, match attempts s !! user with Some (_, expiry) => expiry | None => 0 end)]> (attempts s)) s.

(** [member.teams.aadd(...)] for the teams of the organization with these slugs. *)
Definition join_teams (o id : Z) (slugs : list ustr) (s : State) : State :=
  with_teams ((fun t => if (t_org t =? o) && bool_decide (t_slug t ∈ slugs)
                        then {| t_org := t_org t; t_slug := t_slug t; members := {[id]} ∪ members t; team_projects := team_projects t |} else t) <$> teams s) s.

Definition create_organization_member (now : Z) (a : Auth) (organization_slug invited : ustr) (org_role : Z) (reinvite : bool) (team_roles : list ustr) (s : State) : response :=
  permitted ["member:write"; "member:admin"]%string a s
    match users s !! auth_user a with
    | None => (500, s)
    | Some user =>
        if EMAIL_ENABLED && EMAIL_INVITE_REQUIRE_VERIFICATION && negb (verified user) then (403, s)
        else
          match get_organization s (auth_user a) organization_slug with
          | None => (404, s)
          | Some (o, _, actor_role) =>
              let user_exists := bool_decide (is_Some (find_row (fun _ x => ustr_eqb (user_email x) invited) (users s))) in
              let member_exists :=
                bool_decide (is_Some (find_row (fun _ x => (org x =? o) &&
                  match ou_user x with Some i => bool_decide (user_email <$> users s !! i = Some invited) | None => false end) (org_users s))) in
              if actor_role <? MANAGER then (403, s)
              else if negb registration_open && negb user_exists then (403, s)
              else if member_exists then (409, s)
              else if EMAIL_INVITE_THROTTLE_COUNT <=? invite_attempts now (auth_user a) s then (429, s)
              else
                let s := count_attempt now (auth_user a) s in
                match find_row (fun _ x => (org x =? o) && bool_decide (email x = Some invited)) (org_users s) with
                | Some (id, _) => if reinvite then (201, with_job (SendInvite id) (join_teams o id team_roles s)) else (409, s)
                | None =>
                    let id := next_ou s in
                    let s := new_org_user {| org := o; ou_user := None; role := org_role; email := Some invited |} s in
                    (201, with_job (SendInvite id) (join_teams o id team_roles s))
                end
          end
    end.

(** Deleting a member takes it from the teams, and the owner's row with it. *)
Definition remove_member (id : Z) (s : State) : State :=
  with_teams ((fun t => {| t_org := t_org t; t_slug := t_slug t; members := members t ∖ {[id]}; team_projects := team_projects t |}) <$> teams s)
    (with_owners (filter (fun kv => kv.2 <> id) (owners s)) (with_org_users (delete id (org_users s)) s)).

Definition delete_organization_member (a : Auth) (organization_slug : ustr) (member_id : Z) (s : State) : response :=
  permitted ["member:admin"]%string a s
    (let own_row :=
       find_row (fun o id => (id =? member_id) && bool_decide (slug <$> orgs s !! o = Some organization_slug) &&
                             bool_decide (ou_user <$> org_users s !! id = Some (Some (auth_user a)))) (owners s) in
     if bool_decide (is_Some own_row) then (400, s)
     else
       match get_organization_user s (auth_user a) organization_slug member_id with
       | None => (404, s)
       | Some (x, actor_role) =>
           if (actor_role <? MANAGER) && negb (bool_decide (ou_user x = Some (auth_user a))) then (403, s)
           else (204, remove_member member_id s)
       end).

Definition update_organization_member (a : Auth) (organization_slug : ustr) (member_id org_role : Z) (s : State) : response :=
  permitted ["member:write"; "member:admin"]%string a s
    match get_organization_user s (auth_user a) organization_slug member_id with
    | None => (404, s)
    | Some (x, actor_role) =>
        let other_owner :=
          find_row (fun id y => negb (id =? member_id) && bool_decide (slug <$> orgs s !! org y = Some organization_slug) && (OWNER <=? role y)) (org_users s) in
        if actor_role <? MANAGER then (403, s)
        else if (org_role <? OWNER) && negb (bool_decide (is_Some other_owner)) then (422, s)
        else (200, with_org_users (<[member_id := {| org := org x; ou_user := ou_user x; role := org_role; email := email x |}]> (org_users s)) s)
    end.

Definition set_organization_owner (a : Auth) (organization_slug : ustr) (member_id : Z) (s : State) : response :=
  permitted ["member:admin"]%string a s
    match get_organization_user s (auth_user a) organization_slug member_id with
    | None => (404, s)
    | Some (new_owner, _) =>
        let o := org new_owner in
        match owners s !! o with
        | None => (500, s)
        | Some old =>
            if negb (bool_decide (ou_user <$> org_users s !! old = Some (Some (auth_user a))) || bool_decide (role_in s o (auth_user a) = Some OWNER)) then (403, s)
            else (200, with_owners (<[o := member_id]> (owners s)) s)
        end
    end.

(** [InvitationTokenGenerator.check_token]: the token of the row for the time that is written
    in it, not older than fifteen days. [timestamp] is the time the token's first part
    stands for, [None] when it cannot be read. *)
Definition REGISTRATION_TIMEOUT_DAYS : Z := 15.

Definition check_token (timestamp : ustr -> option Z) (now id : Z) (token : ustr) : bool :=
  match split_on 45 token with
  | [ts_b36; _] =>
      match timestamp ts_b36 with
      | Some ts => ustr_eqb (make_token id ts) token && negb (REGISTRATION_TIMEOUT_DAYS * 86400 <? now - ts)
      | None => false
      end
  | _ => false
  end.

(** [accept_invite]; a request with an API token has no session user. *)
Definition accept_invite (timestamp : ustr -> option Z) (now : Z) (a : Auth) (id : Z) (token : ustr) (accept : bool) (s : State) : response :=
  match org_users s !! id with
  | None => (404, s)
  | Some x =>
      if negb (check_token timestamp now id token) then (403, s)
      else if negb accept then (200, s)
      else if bool_decide (is_Some (auth_token a)) then (500, s)
      else if bool_decide (is_Some (find_row (fun i y => negb (i =? id) && (org y =? org x) && bool_decide (ou_user y = Some (auth_user a))) (org_users s))) then (500, s)
      else (200, with_org_users (<[id := {| org := org x; ou_user := Some (auth_user a); role := role x; email := None |}]> (org_users s)) s)
  end.
End handlers.

(** ** Teams *)

(** A slug of the same organization that is taken raises. *)
Definition team_slug_taken (o : Z) (other : Z -> bool) (new_slug : ustr) (s : State) : bool :=
  bool_decide (is_Some (find_row (fun id t => other id && (t_org t =? o) && ustr_eqb (t_slug t) new_slug) (teams s))).

Definition update_team (a : Auth) (organization_slug team_slug new_slug : ustr) (s : State) : response :=
  permitted ["team:write"; "team:admin"]%string a s
    match get_team s (Some (auth_user a)) organization_slug team_slug with
    | None => (404, s)
    | Some (id, t) =>
        if team_slug_taken (t_org t) (fun i => negb (i =? id)) new_slug s then (500, s)
        else (200, with_teams (<[id := {| t_org := t_org t; t_slug := new_slug; members := members t; team_projects := team_projects t |}]> (teams s)) s)
    end.

Definition delete_team (a : Auth) (organization_slug team_slug : ustr) (s : State) : response :=
  permitted ["team:admin"]%string a s
    match get_team s (Some (auth_user a)) organization_slug team_slug with
    | Some (id, t) => if match role_in s (t_org t) (auth_user a) with Some r => ADMIN <=? r | None => false end then (204, with_teams (delete id (teams s)) s) else (404, s)
    | None => (404, s)
    end.

Definition create_team (a : Auth) (organization_slug new_slug : ustr) (s : State) : response :=
  permitted ["team:write"; "team:admin"; "org:admin"; "org:write"]%string a s
    match org_with_role s (auth_user a) organization_slug ADMIN with
    | None => (404, s)
    | Some (o, _) =>
        if team_slug_taken o (fun _ => true) new_slug s then (500, s)
        else
          let me := match membership s o (auth_user a) with Some (id, _) => {[id]} | None => ∅ end in
          (201, new_team {| t_org := o; t_slug := new_slug; members := me; team_projects := ∅ |} s)
    end.

(** [modify_member_for_team]; no [member_id] stands for "me". *)
Definition modify_member_for_team (a : Auth) (organization_slug : ustr) (member_id : option Z) (team_slug : ustr) (add_member : bool) (s : State) : response :=
  permitted ["team:write"; "team:admin"]%string a s
    match get_team s (Some (auth_user a)) organization_slug team_slug with
    | None => (404, s)
    | Some (tid, t) =>
        let o := t_org t in
        let org_user :=
          match member_id with
          | None => membership s o (auth_user a)
          | Some id => match org_users s !! id with Some x => if org x =? o then Some (id, x) else None | None => None end
          end in
        match org_user with
        | None => (404, s)
        | Some (id, x) =>
            let open := match orgs s !! o with Some r => open_membership r | None => false end in
            let is_self := bool_decide (ou_user x = Some (auth_user a)) in
            let in_team := match membership s o (auth_user a) with Some (me, _) => bool_decide (me ∈ members t) | None => false end in
            let required_role := if in_team then ADMIN else MANAGER in
            let allowed := match role_in s o (auth_user a) with Some r => required_role <=? r | None => false end in
            if negb (open && is_self) && negb allowed then (403, s)
            else
              let m := if add_member then {[id]} ∪ members t else members t ∖ {[id]} in
              (if add_member then 201 else 200,
               with_teams (<[tid := {| t_org := t_org t; t_slug := t_slug t; members := m; team_projects := team_projects t |}]> (teams s)) s)
        end
    end.

Definition add_team_to_project (a : Auth) (organization_slug project_slug team_slug : ustr) (s : State) : response :=
  permitted ["project.write"; "project:admin"]%string a s
    match get_project s (auth_user a) organization_slug project_slug MANAGER with
    | None => (404, s)
    | Some (pid, _) =>
        match get_team s None organization_slug team_slug with
        | None => (404, s)
        | Some (tid, t) =>
            (201, with_teams (<[tid := {| t_org := t_org t; t_slug := t_slug t; members := members t; team_projects := {[pid]} ∪ team_projects t |}]> (teams s)) s)
        end
    end.

Definition delete_team_from_project (a : Auth) (organization_slug project_slug team_slug : ustr) (s : State) : response :=
  permitted ["project.write"; "project:admin"]%string a s
    match get_team s None organization_slug team_slug with
    | None => (404, s)
    | Some (tid, t) =>
        if negb (existsb (fun p => bool_decide (p_slug <$> projects s !! p = Some project_slug)) (elements (team_projects t))) then (404, s)
        else
          match get_project s (auth_user a) organization_slug project_slug MANAGER with
          | None => (404, s)
          | Some (pid, _) =>
              (200, with_teams (<[tid := {| t_org := t_org t; t_slug := t_slug t; members := members t; team_projects := team_projects t ∖ {[pid]} |}]> (teams s)) s)
          end
    end.

(** ** Requests *)

Inductive Request :=
| CreateOrganization (name new_slug : ustr)
| UpdateOrganization (organization_slug name : ustr)
| DelOrganization (organization_slug : ustr)
| InviteMember (organization_slug invited : ustr) (org_role : Z) (reinvite : bool) (team_roles : list ustr)
| DelMember (organization_slug : ustr) (member_id : Z)
| UpdateMember (organization_slug : ustr) (member_id org_role : Z)
| SetOwner (organization_slug : ustr) (member_id : Z)
| AcceptInvite (id : Z) (token : ustr) (accept : bool)
| UpdateTeam (organization_slug team_slug new_slug : ustr)
| DelTeam (organization_slug team_slug : ustr)
| CreateTeam (organization_slug new_slug : ustr)
| ModifyTeam (organization_slug : ustr) (member_id : option Z) (team_slug : ustr) (add_member : bool)
| AddProjectTeam (organization_slug project_slug team_slug : ustr)
| DelProjectTeam (organization_slug project_slug team_slug : ustr).

(** The settings and outside functions of a server. *)
Record Server := {
  creation : bool; email_enabled : bool; require_verification : bool; registration : bool; throttle_count : Z; throttle_interval : Z;
  make_token_ : Z -> Z -> ustr; timestamp_ : ustr -> option Z }.

Definition handle (v : Server) (now : Z) (a : Auth) (r : Request) (s : State) : response :=
  match r with
  | CreateOrganization name new_slug => create_organization (creation v) a name new_slug s
  | UpdateOrganization o name => update_organization a o name s
  | DelOrganization o => delete_organization a o s
  | InviteMember o invited org_role reinvite team_roles =>
      create_organization_member (email_enabled v) (require_verification v) (registration v) (throttle_count v) (throttle_interval v) now a o invited org_role
        reinvite team_roles s
  | DelMember o id => delete_organization_member a o id s
  | UpdateMember o id org_role => update_organization_member a o id org_role s
  | SetOwner o id => set_organization_owner a o id s
  | AcceptInvite id token accept => accept_invite (make_token_ v) (timestamp_ v) now a id token accept s
  | UpdateTeam o t new_slug => update_team a o t new_slug s
  | DelTeam o t => delete_team a o t s
  | CreateTeam o new_slug => create_team a o new_slug s
  | ModifyTeam o id t add_member => modify_member_for_team a o id t add_member s
  | AddProjectTeam o p t => add_team_to_project a o p t s
  | DelProjectTeam o p t => delete_team_from_project a o p t s
  end.

(** ** The tables stay consistent *)

Record wf (s : State) : Prop := {
  wf_orgs : forall i, next_org s <= i -> orgs s !! i = None;
  wf_ous : forall i, next_ou s <= i -> org_users s !! i = None;
  wf_teams : forall i, next_team s <= i -> teams s !! i = None;
  wf_slugs : forall i j x y, orgs s !! i = Some x -> orgs s !! j = Some y -> slug x = slug y -> i = j;
  wf_member : forall i x, org_users s !! i = Some x -> is_Some (orgs s !! org x);
  wf_unique_user : forall i j x y w, org_users s !! i = Some x -> org_users s !! j = Some y -> org x = org y -> ou_user x = Some w -> ou_user y = Some w -> i = j;
  wf_unique_email : forall i j x y e, org_users s !! i = Some x -> org_users s !! j = Some y -> org x = org y -> email x = Some e -> email y = Some e -> i = j;
  wf_owner : forall o i, owners s !! o = Some i -> exists x, org_users s !! i = Some x /\ org x = o;
  wf_team : forall i t, teams s !! i = Some t -> is_Some (orgs s !! t_org t) /\ forall m, m ∈ members t -> exists x, org_users s !! m = Some x /\ org x = t_org t;
  wf_team_slugs : forall i j t t', teams s !! i = Some t -> teams s !! j = Some t' -> t_org t = t_org t' -> t_slug t = t_slug t' -> i = j }.

Lemma find_row_Some {A} (p : Z -> A -> bool) m k x : find_row p m = Some (k, x) -> m !! k = Some x /\ p k x = true.
Proof. intros [H1 H2]%find_first_Some. by apply elem_of_map_to_list in H1. Qed.

Lemma find_row_None {A} (p : Z -> A -> bool) m : find_row p m = None -> forall k x, m !! k = Some x -> p k x = false.
Proof. intros H k x Hk. pose proof (proj1 (find_first_None _ _) H (k, x)) as H1. apply H1. by apply elem_of_map_to_list. Qed.

Lemma not_found {A} (p : Z -> A -> bool) m k x : bool_decide (is_Some (find_row p m)) = false -> m !! k = Some x -> p k x = false.
Proof. intros H%bool_decide_eq_false Hk. destruct (find_row p m) eqn:E; [by destruct H; eexists|]. by eapply find_row_None. Qed.

Lemma membership_Some s o user i x : membership s o user = Some (i, x) -> org_users s !! i = Some x /\ org x = o /\ ou_user x = Some user.
Proof. intros [H1 H2]%find_row_Some. apply andb_prop in H2 as [H2 H3]. split_and!; [done|lia|by apply bool_decide_eq_true in H3]. Qed.

Lemma membership_None s o user : membership s o user = None -> forall i x, org_users s !! i = Some x -> org x = o -> ou_user x <> Some user.
Proof.
  unfold membership. intros H i x Hi Ho Hu. pose proof (find_row_None _ _ H i x Hi) as H1. cbn in H1. rewrite Ho, Z.eqb_refl in H1. cbn in H1.
  by rewrite bool_decide_eq_true_2 in H1.
Qed.

Lemma get_organization_Some s user sl o x r : get_organization s user sl = Some (o, x, r) -> orgs s !! o = Some x /\ slug x = sl /\ role_in s o user = Some r.
Proof.
  unfold get_organization. destruct (find_row _ _) as [[o' x']|] eqn:E; [|done]. apply find_row_Some in E as [H1 H2]. intros (r' & Hr & [= -> -> ->])%fmap_Some_1.
  do 2 apply andb_prop in H2 as [H2 _]. by apply bool_decide_eq_true in H2.
Qed.

Lemma get_organization_user_Some s user sl i x r :
  get_organization_user s user sl i = Some (x, r) -> org_users s !! i = Some x /\ role_in s (org x) user = Some r /\ exists o, orgs s !! org x = Some o /\ slug o = sl.
Proof.
  unfold get_organization_user. destruct (org_users s !! i) as [x'|] eqn:E; [|done]. destruct (orgs s !! org x') as [o|] eqn:Eo; [|done].
  destruct (ustr_eqb (slug o) sl) eqn:Es; [|done]. intros (r' & Hr & [= -> ->])%fmap_Some_1. apply bool_decide_eq_true in Es. split_and!; [done|done|]. by exists o.
Qed.

Lemma get_team_Some s user osl tsl i t : get_team s (Some user) osl tsl = Some (i, t) -> teams s !! i = Some t /\ is_Some (role_in s (t_org t) user).
Proof.
  intros [H1 H2]%find_row_Some. split; [done|]. apply andb_prop in H2 as [_ H2]. destruct (orgs s !! t_org t); [|done]. apply andb_prop in H2 as [_ H2]. by apply bool_decide_eq_true in H2.
Qed.

(** The team's organization has the slug. *)
Lemma get_team_slug s user osl tsl i t : get_team s user osl tsl = Some (i, t) -> teams s !! i = Some t /\ slug <$> orgs s !! t_org t = Some osl.
Proof.
  intros [H1 H2]%find_row_Some. split; [done|]. apply andb_prop in H2 as [_ H2]. destruct (orgs s !! t_org t) as [o|]; [|done]. apply andb_prop in H2 as [H2 _].
  apply bool_decide_eq_true in H2. by rewrite <- H2.
Qed.

Lemma get_project_Some s user osl psl least i p :
  get_project s user osl psl least = Some (i, p) -> slug <$> orgs s !! p_org p = Some osl /\ exists r, role_in s (p_org p) user = Some r /\ least <= r.
Proof.
  intros [H1 H2]%find_row_Some. apply andb_prop in H2 as [_ H2]. destruct (orgs s !! p_org p) as [o|]; [|done]. apply andb_prop in H2 as [H2 H3].
  apply bool_decide_eq_true in H2. split; [by rewrite <- H2|]. destruct (role_in s (p_org p) user) as [r|]; [|done]. exists r. split; [done|lia].
Qed.

(** *** Steps that keep them *)

(** A lookup in an updated table is at the key or elsewhere. *)
Ltac lookups :=
  repeat match goal with
  | H : <[_ := _]> _ !! _ = Some _ |- _ => apply lookup_insert_Some in H as [[? ?]|[? ?]]; subst
  | H : delete _ _ !! _ = Some _ |- _ => apply lookup_delete_Some in H as [? ?]
  end.

(** Two rows with one user or email, of which one was checked against the others. *)
Ltac conflict Hc :=
  match goal with
  | Hne : ?i <> ?j, H : org_users _ !! ?j = Some ?b |- _ =>
      destruct (Hc j b) as [?C ?D]; [congruence|exact H|congruence|]; exfalso; solve [eapply C; eassumption|eapply D; eassumption]
  end.

Section steps.
Context (s : State) (Hwf : wf s).

Lemma wf_attempts m : wf (with_attempts m s).
Proof. by destruct Hwf; split. Qed.

Lemma wf_job j : wf (with_job j s).
Proof. by destruct Hwf; split. Qed.

Lemma wf_new_org o : (forall i x, orgs s !! i = Some x -> slug x <> slug o) -> wf (new_org o s).
Proof.
  intros Hs. destruct Hwf as [H1 H2 H3 H4 H5 H6 H7 H8 H9 H10]. split; cbn; try done.
  - intros i Hi. rewrite lookup_insert_ne by lia. apply H1. lia.
  - intros i j x y Hi Hj E. lookups; [done|exfalso; eapply Hs; [eassumption|congruence]..|by eapply H4].
  - intros i x Hx. destruct (decide (next_org s = org x)) as [->|]; [by rewrite lookup_insert_eq|]. rewrite lookup_insert_ne by done. by eapply H5.
  - intros i t Ht. destruct (H9 i t Ht) as [A B]. split; [|done]. destruct (decide (next_org s = t_org t)) as [->|]; [by rewrite lookup_insert_eq|]. by rewrite lookup_insert_ne.
Qed.

Lemma wf_update_org i x y : orgs s !! i = Some x -> slug y = slug x -> wf (with_orgs (<[i := y]> (orgs s)) s).
Proof.
  intros Hi Hs. destruct Hwf as [H1 H2 H3 H4 H5 H6 H7 H8 H9 H10].
  assert (forall k, is_Some (orgs s !! k) -> is_Some (<[i := y]> (orgs s) !! k)) as Hsome.
  { intros k Hk. destruct (decide (i = k)) as [->|]; [by rewrite lookup_insert_eq|by rewrite lookup_insert_ne]. }
  split; cbn; try done.
  - intros j Hj. rewrite lookup_insert_ne; [by apply H1|]. intros ->. by rewrite H1 in Hi.
  - intros j k a b Hj Hk E. lookups; [done|eapply (H4 _ _ a x); [assumption|exact Hi|congruence]|eapply (H4 _ _ x b); [exact Hi|assumption|congruence]|by eapply H4].
  - intros j a Ha. apply Hsome. by eapply H5.
  - intros j t Ht. destruct (H9 j t Ht) as [A B]. split; [by apply Hsome|done].
Qed.

(** A row that conflicts with no other. *)
Definition compatible (i : Z) (x : OrganizationUser) : Prop :=
  forall j y, j <> i -> org_users s !! j = Some y -> org y = org x ->
    (forall w, ou_user x = Some w -> ou_user y <> Some w) /\ (forall e, email x = Some e -> email y <> Some e).

Lemma wf_new_org_user x : is_Some (orgs s !! org x) -> compatible (next_ou s) x -> wf (new_org_user x s).
Proof.
  intros Ho Hc. destruct Hwf as [H1 H2 H3 H4 H5 H6 H7 H8 H9 H10].
  assert (forall k z, org_users s !! k = Some z -> <[next_ou s := x]> (org_users s) !! k = Some z) as Hold.
  { intros k z Hk. rewrite lookup_insert_ne; [done|]. intros <-. by rewrite H2 in Hk. }
  split; cbn; try done.
  - intros i Hi. rewrite lookup_insert_ne by lia. apply H2. lia.
  - intros i y Hy. lookups; [done|by eapply H5].
  - intros i j a b w Ha Hb E Ea Eb. lookups; [done|conflict Hc..|by eapply H6].
  - intros i j a b e Ha Hb E Ea Eb. lookups; [done|conflict Hc..|by eapply H7].
  - intros o i Hi. destruct (H8 o i Hi) as (y & Hy & E). exists y. split; [by apply Hold|done].
  - intros i t Ht. destruct (H9 i t Ht) as [A B]. split; [done|]. intros m Hm. destruct (B m Hm) as (y & Hy & E). exists y. split; [by apply Hold|done].
Qed.

Lemma wf_update_org_user i x y : org_users s !! i = Some x -> org y = org x -> compatible i y -> wf (with_org_users (<[i := y]> (org_users s)) s).
Proof.
  intros Hi Ho Hc. destruct Hwf as [H1 H2 H3 H4 H5 H6 H7 H8 H9 H10].
  assert (forall k z, org_users s !! k = Some z -> exists z', <[i := y]> (org_users s) !! k = Some z' /\ org z' = org z) as Hold.
  { intros k z Hk. destruct (decide (i = k)) as [<-|]; [|exists z; by rewrite lookup_insert_ne]. exists y. rewrite lookup_insert_eq. split; [done|congruence]. }
  split; cbn; try done.
  - intros j Hj. rewrite lookup_insert_ne; [by apply H2|]. intros ->. by rewrite H2 in Hi.
  - intros j a Ha. lookups; [rewrite Ho; by eapply H5|by eapply H5].
  - intros j k a b w Ha Hb E Ea Eb. lookups; [done|conflict Hc..|by eapply H6].
  - intros j k a b e Ha Hb E Ea Eb. lookups; [done|conflict Hc..|by eapply H7].
  - intros o j Hj. destruct (H8 o j Hj) as (z & Hz & <-). destruct (Hold j z Hz) as (z' & ? & ?). by exists z'.
  - intros j t Ht. destruct (H9 j t Ht) as [A B]. split; [done|]. intros m Hm. destruct (B m Hm) as (z & Hz & E).
    destruct (Hold m z Hz) as (z' & ? & ?). exists z'. split; [done|congruence].
Qed.

Lemma wf_owners_insert o i x : org_users s !! i = Some x -> org x = o -> wf (with_owners (<[o := i]> (owners s)) s).
Proof. intros Hi Ho. destruct Hwf as [H1 H2 H3 H4 H5 H6 H7 H8 H9 H10]. split; cbn; try done. intros o' j Hj. lookups; [by exists x|by apply H8]. Qed.

(** Teams that lose members, or get some of their organization. *)
Lemma wf_with_teams m :
  (forall i t', m !! i = Some t' -> exists t, teams s !! i = Some t /\ t_org t' = t_org t /\ t_slug t' = t_slug t /\
     forall k, k ∈ members t' -> k ∈ members t \/ exists x, org_users s !! k = Some x /\ org x = t_org t) -> wf (with_teams m s).
Proof.
  intros Hm. destruct Hwf as [H1 H2 H3 H4 H5 H6 H7 H8 H9 H10]. split; cbn; try done.
  - intros i Hi. destruct (m !! i) as [t'|] eqn:E; [|done]. destruct (Hm i t' E) as (t & Ht & _). by rewrite H3 in Ht.
  - intros i t' E. destruct (Hm i t' E) as (t & Ht & Eo & _ & Hk). destruct (H9 i t Ht) as [A B]. rewrite Eo. split; [done|].
    intros k Hk'. destruct (Hk k Hk') as [?|?]; [by apply B|done].
  - intros i j a b Ha Hb Eo Es. destruct (Hm i a Ha) as (a' & ? & ? & ? & _), (Hm j b Hb) as (b' & ? & ? & ? & _). eapply H10; [done|done|congruence|congruence].
Qed.

Lemma wf_update_team i t t' : teams s !! i = Some t -> t_org t' = t_org t -> t_slug t' = t_slug t ->
  (forall k, k ∈ members t' -> k ∈ members t \/ exists x, org_users s !! k = Some x /\ org x = t_org t) -> wf (with_teams (<[i := t']> (teams s)) s).
Proof. intros Hi Ho Hs Hk. apply wf_with_teams. intros j t2 H. lookups; [by exists t|]. exists t2. split_and!; auto. Qed.

Lemma wf_rename_team i t t' : teams s !! i = Some t -> t_org t' = t_org t -> members t' = members t ->
  (forall j x, j <> i -> teams s !! j = Some x -> t_org x = t_org t -> t_slug x <> t_slug t') -> wf (with_teams (<[i := t']> (teams s)) s).
Proof.
  intros Hi Ho Hm Hs. destruct Hwf as [H1 H2 H3 H4 H5 H6 H7 H8 H9 H10]. split; cbn; try done.
  - intros j Hj. rewrite lookup_insert_ne; [by apply H3|]. intros ->. by rewrite H3 in Hi.
  - intros j x Hx. lookups; [rewrite Ho, Hm; by apply (H9 j)|by apply (H9 j)].
  - intros j k a b Ha Hb Eo Es. lookups; [done| | |by eapply H10];
      exfalso; match goal with Hne : ?i <> ?j, H : teams _ !! ?j = Some ?x |- _ => refine (Hs j x _ H _ _); congruence end.
Qed.

Lemma wf_new_team t : is_Some (orgs s !! t_org t) -> (forall m, m ∈ members t -> exists x, org_users s !! m = Some x /\ org x = t_org t) ->
  (forall j x, teams s !! j = Some x -> t_org x = t_org t -> t_slug x <> t_slug t) -> wf (new_team t s).
Proof.
  intros Ho Hm Hs. destruct Hwf as [H1 H2 H3 H4 H5 H6 H7 H8 H9 H10]. split; cbn; try done.
  - intros j Hj. rewrite lookup_insert_ne by lia. apply H3. lia.
  - intros j x Hx. lookups; [done|by apply (H9 j)].
  - intros j k a b Ha Hb Eo Es. lookups; [done| | |by eapply H10];
      exfalso; match goal with H : teams _ !! ?j = Some ?x |- _ => refine (Hs j x H _ _); congruence end.
Qed.

Lemma wf_remove_member i : wf (remove_member i s).
Proof.
  destruct Hwf as [H1 H2 H3 H4 H5 H6 H7 H8 H9 H10]. split; cbn; try done.
  - intros j Hj. apply lookup_delete_None. right. by apply H2.
  - intros j Hj. by rewrite lookup_fmap, H3.
  - intros j x Hx. lookups. by eapply H5.
  - intros j k x y w Hx Hy. lookups. by eapply H6.
  - intros j k x y e Hx Hy. lookups. by eapply H7.
  - intros o j [Hj Hne]%map_lookup_filter_Some. destruct (H8 o j Hj) as (x & Hx & E). exists x. split; [|done]. by apply lookup_delete_Some.
  - intros j t (t0 & <- & Ht)%lookup_fmap_Some. destruct (H9 j t0 Ht) as [A B]. split; [done|]. cbn. intros m [Hm Hne]%elem_of_difference.
    destruct (B m Hm) as (x & Hx & E). exists x. split; [|done]. apply lookup_delete_Some. split; [set_solver|done].
  - intros j k t t' (a & <- & Ha)%lookup_fmap_Some (b & <- & Hb)%lookup_fmap_Some. cbn. by eapply H10.
Qed.
End steps.

(** *** Every request keeps them *)

(** What holds of every outcome of a handler holds of the guarded handler. *)
Lemma permitted_ind (P : response -> Prop) permissions a s k : P (403, s) -> P (500, s) -> P k -> P (permitted permissions a s k).
Proof. unfold permitted. by destruct (has_permission _ a) as [[]|]. Qed.

Lemma join_teams_wf o id slugs s : wf s -> (exists x, org_users s !! id = Some x /\ org x = o) -> wf (join_teams o id slugs s).
Proof.
  intros Hwf Hid. apply wf_with_teams; [done|]. intros i t' (t & <- & Ht)%lookup_fmap_Some. exists t. split; [done|].
  destruct (_ && _) eqn:E; cbn; [|by split_and!; auto]. apply andb_prop in E as [E _]. apply Z.eqb_eq in E as ->. split_and!; [done|done|].
  intros k [->%elem_of_singleton|Hk]%elem_of_union; [by right|by left].
Qed.

Lemma create_organization_wf creation a name sl s : wf s -> wf (create_organization creation a name sl s).2.
Proof.
  intros Hwf. unfold create_organization. apply (permitted_ind (fun r => wf r.2)); [done|done|]. destruct (users s !! auth_user a); [|done]. destruct (_ && _); [done|].
  destruct (bool_decide _) eqn:E; [done|]. cbn [snd]. set (o := {| slug := sl |}).
  assert (wf (new_org o s)) as H1.
  { apply wf_new_org; [done|]. intros i x Hi Hs. pose proof (not_found _ _ _ _ E Hi) as Hn. cbn in Hn, Hs. rewrite Hs in Hn. unfold ustr_eqb in Hn. by rewrite bool_decide_eq_true_2 in Hn. }
  assert (forall r, wf (new_org_user {| org := next_org s; ou_user := Some (auth_user a); role := r; email := None |} (new_org o s))) as H2.
  { intros r. apply wf_new_org_user; [done|cbn; by rewrite lookup_insert_eq|]. intros j y _ Hj Ho. exfalso. cbn in Hj, Ho.
    destruct (wf_member s Hwf j y Hj) as [z Hz]. rewrite Ho, (wf_orgs s Hwf) in Hz by lia. done. }
  unfold add_user. destruct (_ =? _)%nat; [|apply H2]. cbn [snd]. eapply wf_owners_insert; [apply H2|cbn; apply lookup_insert_eq|done].
Qed.

Lemma update_organization_wf a osl name s : wf s -> wf (update_organization a osl name s).2.
Proof.
  intros Hwf. unfold update_organization. apply (permitted_ind (fun r => wf r.2)); [done|done|]. destruct (get_organization _ _ _) as [[[o x] r]|] eqn:E; [|done].
  apply get_organization_Some in E as (H & _ & _). destruct (_ <? _); [done|]. by eapply wf_update_org.
Qed.

Lemma delete_organization_wf a osl s : wf s -> wf (delete_organization a osl s).2.
Proof.
  intros Hwf. unfold delete_organization. apply (permitted_ind (fun r => wf r.2)); [done|done|]. destruct (get_organization _ _ _) as [[[o x] r]|] eqn:E; [|done].
  apply get_organization_Some in E as (H & _ & _). destruct (_ <? _); [done|]. apply wf_job. by eapply wf_update_org.
Qed.

Lemma invite_wf e1 e2 reg c1 c2 now a osl invited r reinvite slugs s : wf s -> wf (create_organization_member e1 e2 reg c1 c2 now a osl invited r reinvite slugs s).2.
Proof.
  intros Hwf. unfold create_organization_member. apply (permitted_ind (fun r => wf r.2)); [done|done|]. destruct (users s !! auth_user a); [|done]. destruct (_ && _); [done|].
  destruct (get_organization _ _ _) as [[[o x] ar]|] eqn:E; [|done]. apply get_organization_Some in E as (Ho & _ & _). cbn zeta.
  destruct (ar <? MANAGER); [done|]. destruct (negb reg && _); [done|]. destruct (bool_decide _); [done|]. destruct (c1 <=? _); [done|].
  set (s1 := count_attempt _ _ _ _). assert (wf s1) as Hwf1 by by apply wf_attempts.
  destruct (find_row _ _) as [[id y]|] eqn:Ef.
  - destruct reinvite; [|done]. apply wf_job, join_teams_wf; [done|]. apply find_row_Some in Ef as [Hy Hp]. apply andb_prop in Hp as [Hp _]. exists y. split; [done|lia].
  - apply wf_job, join_teams_wf; [|eexists; split; [cbn; apply lookup_insert_eq|done]]. apply wf_new_org_user; [done|by eexists|]. intros j y _ Hj Hoy. split; [done|].
    intros e [= <-] He. cbn in Hoy. pose proof (find_row_None _ _ Ef j y Hj) as H. cbn in H. rewrite Hoy, Z.eqb_refl in H. cbn in H. by rewrite bool_decide_eq_true_2 in H.
Qed.

Lemma delete_member_wf a osl id s : wf s -> wf (delete_organization_member a osl id s).2.
Proof.
  intros Hwf. unfold delete_organization_member. apply (permitted_ind (fun r => wf r.2)); [done|done|]. cbn zeta. destruct (bool_decide _); [done|].
  destruct (get_organization_user _ _ _ _) as [[x r]|]; [|done]. destruct (_ && _); [done|]. by apply wf_remove_member.
Qed.

Lemma update_member_wf a osl id r s : wf s -> wf (update_organization_member a osl id r s).2.
Proof.
  intros Hwf. unfold update_organization_member. apply (permitted_ind (fun r => wf r.2)); [done|done|].
  destruct (get_organization_user _ _ _ _) as [[x ar]|] eqn:E; [|done]. apply get_organization_user_Some in E as (H & _ & _). cbn zeta. destruct (ar <? MANAGER); [done|].
  destruct (_ && _); [done|]. eapply wf_update_org_user; [done|exact H|done|]. intros j y Hne Hj Ho. cbn in Ho |- *. split.
  - intros w Hx Hy. apply Hne. by eapply (wf_unique_user s Hwf).
  - intros e Hx Hy. apply Hne. by eapply (wf_unique_email s Hwf).
Qed.

Lemma set_owner_wf a osl id s : wf s -> wf (set_organization_owner a osl id s).2.
Proof.
  intros Hwf. unfold set_organization_owner. apply (permitted_ind (fun r => wf r.2)); [done|done|].
  destruct (get_organization_user _ _ _ _) as [[x ar]|] eqn:E; [|done]. apply get_organization_user_Some in E as (H & _ & _). cbn zeta.
  destruct (owners s !! org x); [|done]. destruct (negb _); [done|]. by eapply wf_owners_insert.
Qed.

Lemma accept_wf mk ts now a id tok accept s : wf s -> wf (accept_invite mk ts now a id tok accept s).2.
Proof.
  intros Hwf. unfold accept_invite. destruct (org_users s !! id) as [x|] eqn:E; [|done]. destruct (negb _); [done|]. destruct (negb _); [done|]. destruct (bool_decide _); [done|].
  destruct (bool_decide _) eqn:Ec; [done|]. eapply wf_update_org_user; [done|exact E|done|]. intros j y Hne Hj Ho. cbn in Ho |- *. split; [|done].
  intros w [= <-] Hy. pose proof (not_found _ _ _ _ Ec Hj) as Hn. cbn in Hn. rewrite Ho, Z.eqb_refl, Hy, bool_decide_eq_true_2 in Hn by done.
  rewrite andb_true_r in Hn. cbn in Hn. lia.
Qed.

Lemma update_team_wf a osl tsl new s : wf s -> wf (update_team a osl tsl new s).2.
Proof.
  intros Hwf. unfold update_team. apply (permitted_ind (fun r => wf r.2)); [done|done|]. destruct (get_team _ _ _ _) as [[i t]|] eqn:E; [|done].
  apply get_team_Some in E as [H _]. destruct (team_slug_taken _ _ _ _) eqn:Et; [done|]. eapply wf_rename_team; [done|exact H|done|done|].
  intros j x Hne Hj Ho Hs. pose proof (not_found _ _ _ _ Et Hj) as Hn. cbn in Hn, Hs. rewrite Ho, Z.eqb_refl, Hs in Hn. unfold ustr_eqb in Hn.
  rewrite bool_decide_eq_true_2, !andb_true_r in Hn by done. lia.
Qed.

Lemma delete_team_wf a osl tsl s : wf s -> wf (delete_team a osl tsl s).2.
Proof.
  intros Hwf. unfold delete_team. apply (permitted_ind (fun r => wf r.2)); [done|done|]. destruct (get_team _ _ _ _) as [[i t]|] eqn:E; [|done].
  destruct (if role_in _ _ _ is Some _ then _ else _); [|done]. apply wf_with_teams; [done|]. intros j t' [_ Ht]%lookup_delete_Some. exists t'. split_and!; auto.
Qed.

Lemma create_team_wf a osl new s : wf s -> wf (create_team a osl new s).2.
Proof.
  intros Hwf. unfold create_team. apply (permitted_ind (fun r => wf r.2)); [done|done|]. destruct (org_with_role _ _ _ _) as [[o x]|] eqn:E; [|done].
  apply find_row_Some in E as [H _]. destruct (team_slug_taken _ _ _ _) eqn:Et; [done|]. apply wf_new_team; [done|by eexists| |].
  - cbn. intros m Hm. destruct (membership _ _ _) as [[i y]|] eqn:Em; [|by apply not_elem_of_empty in Hm]. apply elem_of_singleton in Hm as ->.
    apply membership_Some in Em as (A & B & _). by exists y.
  - intros j y Hj Ho Hs. pose proof (not_found _ _ _ _ Et Hj) as Hn. cbn in Hn, Ho, Hs. rewrite Ho, Z.eqb_refl, Hs in Hn. unfold ustr_eqb in Hn. by rewrite bool_decide_eq_true_2 in Hn.
Qed.

Lemma modify_team_wf a osl mid tsl add s : wf s -> wf (modify_member_for_team a osl mid tsl add s).2.
Proof.
  intros Hwf. unfold modify_member_for_team. apply (permitted_ind (fun r => wf r.2)); [done|done|]. destruct (get_team _ _ _ _) as [[i t]|] eqn:E; [|done].
  apply get_team_Some in E as [H _]. cbn zeta. destruct (match mid with Some _ => _ | None => _ end) as [[id x]|] eqn:Em; [|done]. destruct (_ && _); [done|].
  assert (exists y, org_users s !! id = Some y /\ org y = t_org t) as Hid.
  { destruct mid as [k|].
    - destruct (org_users s !! k) as [y|] eqn:Ey; [|done]. destruct (Z.eqb_spec (org y) (t_org t)); [|done]. injection Em as <- <-. by exists y.
    - apply membership_Some in Em as (A & B & _). by exists x. }
  eapply wf_update_team; [done|exact H|done|done|]. cbn. intros k Hk. destruct add; [|left; set_solver].
  apply elem_of_union in Hk as [->%elem_of_singleton|Hk]; [by right|by left].
Qed.

Lemma add_project_wf a osl psl tsl s : wf s -> wf (add_team_to_project a osl psl tsl s).2.
Proof.
  intros Hwf. unfold add_team_to_project. apply (permitted_ind (fun r => wf r.2)); [done|done|]. destruct (get_project _ _ _ _ _) as [[p y]|]; [|done].
  destruct (get_team _ _ _ _) as [[i t]|] eqn:E; [|done]. apply get_team_slug in E as [H _]. eapply wf_update_team; [done|exact H|done|done|]. by left.
Qed.

Lemma delete_project_wf a osl psl tsl s : wf s -> wf (delete_team_from_project a osl psl tsl s).2.
Proof.
  intros Hwf. unfold delete_team_from_project. apply (permitted_ind (fun r => wf r.2)); [done|done|]. destruct (get_team _ _ _ _) as [[i t]|] eqn:E; [|done].
  apply get_team_slug in E as [H _]. destruct (negb _); [done|]. destruct (get_project _ _ _ _ _) as [[p y]|]; [|done]. eapply wf_update_team; [done|exact H|done|done|]. by left.
Qed.

(** C26: Whoever makes whatever requests, slugs stay unique, a user and an email belong to an
    organization once, and owners and the members of teams are members of their organization. *)
Theorem requests_keep_wf (v : Server) (l : list (Z * Auth * Request)) (s : State) :
  wf s -> wf (foldl (fun s nar => (handle v nar.1.1 nar.1.2 nar.2 s).2) s l).
Proof.
  revert s. induction l as [|[[now a] r] l IH]; intros s Hwf; [done|]. cbn [foldl fst snd]. apply IH. destruct r; cbn [handle].
  - by apply create_organization_wf.
  - by apply update_organization_wf.
  - by apply delete_organization_wf.
  - by apply invite_wf.
  - by apply delete_member_wf.
  - by apply update_member_wf.
  - by apply set_owner_wf.
  - by apply accept_wf.
  - by apply update_team_wf.
  - by apply delete_team_wf.
  - by apply create_team_wf.
  - by apply modify_team_wf.
  - by apply add_project_wf.
  - by apply delete_project_wf.
Qed.

(** ** Organizations are kept apart *)

(** What belongs to an organization is as it was. *)
Record unchanged (o : Z) (s s' : State) : Prop := {
  un_org : orgs s' !! o = orgs s !! o;
  un_owner : owners s' !! o = owners s !! o;
  un_users : forall i x, org x = o -> org_users s' !! i = Some x <-> org_users s !! i = Some x;
  un_teams : forall i t, t_org t = o -> teams s' !! i = Some t <-> teams s !! i = Some t }.

#[export] Instance unchanged_preorder o : PreOrder (unchanged o).
Proof.
  split; [by intros s; split|]. intros s1 s2 s3 [A1 A2 A3 A4] [B1 B2 B3 B4]. split; [congruence|congruence| |].
  - intros i x Hx. by rewrite B3, A3.
  - intros i t Ht. by rewrite B4, A4.
Qed.

(** A table after a change of a row elsewhere. *)
Lemma insert_elsewhere {A} (f : A -> Z) (o k : Z) (y : A) (m : gmap Z A) :
  f y <> o -> (forall x, m !! k = Some x -> f x <> o) -> forall i x, f x = o -> <[k := y]> m !! i = Some x <-> m !! i = Some x.
Proof.
  intros Hy Hk i x Hx. rewrite lookup_insert_Some. split; [intros [[-> ->]|[_ ?]]; done|].
  intros Hi. right. split; [|done]. intros ->. by apply (Hk x Hi).
Qed.

Section elsewhere.
Context (o : Z) (s : State) (Hwf : wf s).

Lemma un_orgs o' y : o' <> o -> unchanged o s (with_orgs (<[o' := y]> (orgs s)) s).
Proof. intros Hne. split; cbn; try done. by rewrite lookup_insert_ne. Qed.

Lemma un_owners o' i : o' <> o -> unchanged o s (with_owners (<[o' := i]> (owners s)) s).
Proof. intros Hne. split; cbn; try done. by rewrite lookup_insert_ne. Qed.

Lemma un_new_org_user x : org x <> o -> unchanged o s (new_org_user x s).
Proof. intros Hne. split; cbn; try done. apply insert_elsewhere; [done|]. intros y Hy. by rewrite (wf_ous s Hwf) in Hy by lia. Qed.

Lemma un_update_user i x y : org_users s !! i = Some x -> org x <> o -> org y = org x -> unchanged o s (with_org_users (<[i := y]> (org_users s)) s).
Proof. intros Hi Hne Ho. split; cbn; try done. apply insert_elsewhere; [congruence|]. intros z Hz. congruence. Qed.

Lemma un_update_team i t t' : teams s !! i = Some t -> t_org t <> o -> t_org t' = t_org t -> unchanged o s (with_teams (<[i := t']> (teams s)) s).
Proof. intros Hi Hne Ho. split; cbn; try done. apply insert_elsewhere; [congruence|]. intros z Hz. congruence. Qed.

Lemma un_delete_team i t : teams s !! i = Some t -> t_org t <> o -> unchanged o s (with_teams (delete i (teams s)) s).
Proof.
  intros Hi Hne. split; cbn; try done. intros j x Hx. rewrite lookup_delete_Some. split; [by intros [_ ?]|]. intros Hj. split; [|done]. intros ->. congruence.
Qed.

Lemma un_new_team t : t_org t <> o -> unchanged o s (new_team t s).
Proof. intros Hne. split; cbn; try done. apply insert_elsewhere; [done|]. intros y Hy. by rewrite (wf_teams s Hwf) in Hy by lia. Qed.

Lemma un_join_teams o' i slugs : o' <> o -> unchanged o s (join_teams o' i slugs s).
Proof.
  intros Hne. split; cbn; try done. intros j t Ht. rewrite lookup_fmap_Some. split.
  - intros (x & Hx & Hj). destruct (_ && _) eqn:E; [|by subst]. apply andb_prop in E as [E _]. subst. cbn in *. lia.
  - intros Hj. exists t. split; [|done]. replace (t_org t =? o') with false by lia. done.
Qed.

Lemma un_remove_member i x : org_users s !! i = Some x -> org x <> o -> unchanged o s (remove_member i s).
Proof.
  intros Hi Hne. split; cbn; [done| | |].
  - apply option_eq. intros j. rewrite map_lookup_filter_Some. split; [by intros [? _]|]. intros Hj. split; [done|]. cbn. intros ->.
    destruct (wf_owner s Hwf o i Hj) as (y & Hy & Ho). congruence.
  - intros j y Hy. rewrite lookup_delete_Some. split; [by intros [_ ?]|]. intros Hj. split; [|done]. intros ->. congruence.
  - intros j t Ht. rewrite lookup_fmap_Some.
    assert (forall k, teams s !! j = Some k -> t_org k = o -> members k ∖ {[i]} = members k) as Hm.
    { intros k Hk Ho. apply set_eq. intros m. rewrite elem_of_difference, elem_of_singleton. split; [by intros [? _]|]. intros Hm. split; [done|]. intros ->.
      destruct (wf_team s Hwf j k Hk) as [_ B]. destruct (B i Hm) as (y & Hy & E). congruence. }
    split.
    + intros (k & Hk & Hj). subst t. cbn in Ht. rewrite Hm by done. by destruct k.
    + intros Hj. exists t. split; [|done]. rewrite Hm by done. by destruct t.
Qed.
End elsewhere.

Lemma role_in_member s o user r : role_in s o user = Some r -> exists i x, membership s o user = Some (i, x) /\ role x = r.
Proof. unfold role_in. destruct (membership s o user) as [[i x]|]; [|done]. cbn. intros [= <-]. by exists i, x. Qed.

Lemma same_slug s (Hwf : wf s) o o' sl : slug <$> orgs s !! o = Some sl -> slug <$> orgs s !! o' = Some sl -> o = o'.
Proof. intros (x & Hx & E)%fmap_Some (y & Hy & E')%fmap_Some. eapply (wf_slugs s Hwf); [exact Hx|exact Hy|congruence]. Qed.

(** A token that was made for the membership with this id, fifteen days ago at most. *)
Definition invitation (v : Server) (now id : Z) (token : ustr) : Prop :=
  exists ts, token = make_token_ v id ts /\ now - ts <= REGISTRATION_TIMEOUT_DAYS * 86400.

Lemma check_token_invitation v now id token : check_token (make_token_ v) (timestamp_ v) now id token = true -> invitation v now id token.
Proof.
  unfold check_token. destruct (split_on 45 token) as [|ts_b36 [|h [|]]]; try done. destruct (timestamp_ v ts_b36) as [ts|]; [|done].
  intros [<-%ustr_eqb_eq H]%andb_prop. exists ts. split; [done|]. lia.
Qed.

(** The membership with the user in it and no email, as acceptance leaves it. *)
Definition accepted (user : Z) (x : OrganizationUser) : OrganizationUser := {| org := org x; ou_user := Some user; role := role x; email := None |}.

(** The request shows an invitation to the organization, and all it does is to put the user in
    the row the invitation is for. *)
Definition joins (v : Server) (now o user : Z) (r : Request) (s s' : State) : Prop :=
  exists id token x, r = AcceptInvite id token true /\ invitation v now id token /\ org_users s !! id = Some x /\ org x = o
    /\ (forall i y, org_users s !! i = Some y -> org y = o -> ou_user y = Some user -> i = id)
    /\ s' = with_org_users (<[id := accepted user x]> (org_users s)) s.

(** A handler that finds its target through a membership of the user leaves alone the
    organizations the user does not belong to. *)
Section outsiders.
Context (o : Z) (s : State) (Hwf : wf s) (a : Auth) (Ho : is_Some (orgs s !! o)).
Context (Hmgr : forall o' r', role_in s o' (auth_user a) = Some r' -> MANAGER <= r' -> o' <> o).
Context (Hne : forall o' r', role_in s o' (auth_user a) = Some r' -> o' <> o).

Lemma outsider_create_organization creation name sl : unchanged o s (create_organization creation a name sl s).2.
Proof.
  unfold create_organization. apply (permitted_ind (fun r => unchanged o s r.2)); [done|done|]. destruct (users s !! auth_user a); [|done]. destruct (_ && _); [done|].
  destruct (bool_decide _); [done|]. cbn [snd]. assert (next_org s <> o) as Hn by (intros E; rewrite (wf_orgs s Hwf) in Ho by lia; by destruct Ho).
  split; cbn; unfold add_user; destruct (_ =? _)%nat; cbn; try done; try (by rewrite lookup_insert_ne).
  all: apply insert_elsewhere; [done|]; intros y Hy; by rewrite (wf_ous s Hwf) in Hy by lia.
Qed.

Lemma outsider_update_organization osl name : unchanged o s (update_organization a osl name s).2.
Proof.
  unfold update_organization. apply (permitted_ind (fun r => unchanged o s r.2)); [done|done|]. destruct (get_organization _ _ _) as [[[o' x] r]|] eqn:E; [|done].
  apply get_organization_Some in E as (_ & _ & E). destruct (r <? MANAGER) eqn:Er; [done|]. apply un_orgs. eapply Hmgr; [exact E|lia].
Qed.

Lemma outsider_delete_organization osl : unchanged o s (delete_organization a osl s).2.
Proof.
  unfold delete_organization. apply (permitted_ind (fun r => unchanged o s r.2)); [done|done|]. destruct (get_organization _ _ _) as [[[o' x] r]|] eqn:E; [|done].
  apply get_organization_Some in E as (_ & _ & E). destruct (r <? MANAGER) eqn:Er; [done|]. destruct (un_orgs o s o' {| slug := slug x; org_name := org_name x; open_membership := open_membership x; is_deleted := true |}); [eapply Hmgr; [exact E|lia]|by split].
Qed.

Lemma outsider_create_organization_member e1 e2 reg c1 c2 now osl invited r reinvite slugs : unchanged o s (create_organization_member e1 e2 reg c1 c2 now a osl invited r reinvite slugs s).2.
Proof.
  unfold create_organization_member. apply (permitted_ind (fun r => unchanged o s r.2)); [done|done|]. destruct (users s !! auth_user a); [|done]. destruct (_ && _); [done|].
  destruct (get_organization _ _ _) as [[[o' x] ar]|] eqn:E; [|done]. apply get_organization_Some in E as (_ & _ & E).  cbn zeta.
  destruct (ar <? MANAGER) eqn:Er; [done|]. apply Hmgr in E; [|lia]. destruct (negb _ && _); [done|]. destruct (bool_decide _); [done|]. destruct (_ <=? _); [done|].
  set (s1 := count_attempt _ _ _ _). assert (wf s1) as Hwf1 by by apply wf_attempts. assert (unchanged o s s1) as H1 by by split.
  destruct (find_row _ _) as [[id y]|].
  + destruct reinvite; [|done]. destruct (un_join_teams o s1 o' id slugs E). by split.
  + set (x' := {| org := o' |}). etrans; [exact H1|]. etrans; [apply (un_new_org_user o s1 Hwf1 x'); exact E|].
    destruct (un_join_teams o (new_org_user x' s1) o' (next_ou s1) slugs E). by split.
Qed.

Lemma outsider_delete_organization_member osl id : unchanged o s (delete_organization_member a osl id s).2.
Proof.
  unfold delete_organization_member. apply (permitted_ind (fun r => unchanged o s r.2)); [done|done|]. cbn zeta. destruct (bool_decide _); [done|].
  destruct (get_organization_user _ _ _ _) as [[x r]|] eqn:E; [|done]. apply get_organization_user_Some in E as (H & E & _). destruct (_ && _); [done|].
  eapply un_remove_member; [done|exact H|by eapply Hne].
Qed.

Lemma outsider_update_organization_member osl id nr : unchanged o s (update_organization_member a osl id nr s).2.
Proof.
  unfold update_organization_member. apply (permitted_ind (fun r => unchanged o s r.2)); [done|done|].
  destruct (get_organization_user _ _ _ _) as [[x r]|] eqn:E; [|done]. apply get_organization_user_Some in E as (H & E & _). cbn zeta. destruct (r <? MANAGER) eqn:Er; [done|]. destruct (_ && _); [done|].
  eapply un_update_user; [exact H|eapply Hmgr; [exact E|lia]|done].
Qed.

Lemma outsider_set_organization_owner osl id : unchanged o s (set_organization_owner a osl id s).2.
Proof.
  unfold set_organization_owner. apply (permitted_ind (fun r => unchanged o s r.2)); [done|done|].
  destruct (get_organization_user _ _ _ _) as [[x r]|] eqn:E; [|done]. apply get_organization_user_Some in E as (H & E & _). cbn zeta. destruct (owners s !! org x); [|done].
  destruct (negb _); [done|]. apply un_owners. by eapply Hne.
Qed.

Lemma accept_invite_joins v now id tok accept :
  let s' := (accept_invite (make_token_ v) (timestamp_ v) now a id tok accept s).2 in
  unchanged o s s' \/ joins v now o (auth_user a) (AcceptInvite id tok accept) s s'.
Proof.
  unfold accept_invite. destruct (org_users s !! id) as [x|] eqn:E; [|by left]. destruct (check_token _ _ _ _ _) eqn:Et; [|by left].
  destruct accept; [|by left]. cbn [negb]. destruct (bool_decide _); [by left|]. destruct (bool_decide _) eqn:Ef; [by left|]. cbn [snd].
  destruct (decide (org x = o)) as [Hx|Hx]; [right|left; by eapply un_update_user].
  exists id, tok, x. split_and!; try done; [by apply check_token_invitation|]. intros i y Hi Hy Hu. destruct (decide (i = id)) as [|Hni]; [done|].
  pose proof (not_found _ _ _ _ Ef Hi) as Hp. cbn in Hp. rewrite Hu, bool_decide_eq_true_2, Hy, Hx, Z.eqb_refl in Hp by done. lia.
Qed.

Lemma outsider_update_team osl tsl new : unchanged o s (update_team a osl tsl new s).2.
Proof.
  unfold update_team. apply (permitted_ind (fun r => unchanged o s r.2)); [done|done|]. destruct (get_team _ _ _ _) as [[i t]|] eqn:E; [|done]. apply get_team_Some in E as [H [r Hr]].
  destruct (team_slug_taken _ _ _ _); [done|]. eapply un_update_team; [exact H|by eapply Hne|done].
Qed.

Lemma outsider_delete_team osl tsl : unchanged o s (delete_team a osl tsl s).2.
Proof.
  unfold delete_team. apply (permitted_ind (fun r => unchanged o s r.2)); [done|done|]. destruct (get_team _ _ _ _) as [[i t]|] eqn:E; [|done]. apply get_team_Some in E as [H [r Hr]].
  rewrite Hr. destruct (_ <=? _); [|done]. eapply un_delete_team; [exact H|by eapply Hne].
Qed.

Lemma outsider_create_team osl new : unchanged o s (create_team a osl new s).2.
Proof.
  unfold create_team. apply (permitted_ind (fun r => unchanged o s r.2)); [done|done|]. destruct (org_with_role _ _ _ _) as [[o' x]|] eqn:E; [|done].
  apply find_row_Some in E as [_ E]. apply andb_prop in E as [_ E]. destruct (role_in s o' (auth_user a)) as [r|] eqn:Hr; [|done].
  destruct (team_slug_taken _ _ _ _); [done|]. apply un_new_team; [done|]. by eapply Hne.
Qed.

Lemma outsider_modify_member_for_team osl mid tsl add : unchanged o s (modify_member_for_team a osl mid tsl add s).2.
Proof.
  unfold modify_member_for_team. apply (permitted_ind (fun r => unchanged o s r.2)); [done|done|]. destruct (get_team _ _ _ _) as [[i t]|] eqn:E; [|done]. apply get_team_Some in E as [H [r Hr]].
  cbn zeta. destruct (match mid with Some _ => _ | None => _ end) as [[id x]|]; [|done]. destruct (_ && _); [done|]. eapply un_update_team; [exact H|by eapply Hne|done].
Qed.

Lemma outsider_add_team_to_project osl psl tsl : unchanged o s (add_team_to_project a osl psl tsl s).2.
Proof.
  unfold add_team_to_project. apply (permitted_ind (fun r => unchanged o s r.2)); [done|done|]. destruct (get_project _ _ _ _ _) as [[p y]|] eqn:Ep; [|done].
  apply get_project_Some in Ep as (Ep & r & Hr & _). destruct (get_team _ _ _ _) as [[i t]|] eqn:E; [|done]. apply get_team_slug in E as [H E].
  eapply un_update_team; [exact H| |done]. rewrite (same_slug s Hwf _ _ _ E Ep). by eapply Hne.
Qed.

Lemma outsider_delete_team_from_project osl psl tsl : unchanged o s (delete_team_from_project a osl psl tsl s).2.
Proof.
  unfold delete_team_from_project. apply (permitted_ind (fun r => unchanged o s r.2)); [done|done|]. destruct (get_team _ _ _ _) as [[i t]|] eqn:E; [|done].
  apply get_team_slug in E as [H E]. destruct (negb _); [done|]. destruct (get_project _ _ _ _ _) as [[p y]|] eqn:Ep; [|done]. apply get_project_Some in Ep as (Ep & r & Hr & _).
  eapply un_update_team; [exact H| |done]. rewrite (same_slug s Hwf _ _ _ E Ep). by eapply Hne.
Qed.

End outsiders.

(** C18: What a user asks for leaves every organization alone of which the user is no member:
    its row, its members, its owner and its teams. The one exception is a user who accepts
    with a token made for a membership of the organization, fifteen days ago at most: then
    the user is put in that row, in the role it has, and nothing else changes. *)
Theorem outsiders_change_nothing (v : Server) (now o : Z) (a : Auth) (r : Request) (s : State) :
  wf s -> is_Some (orgs s !! o) -> membership s o (auth_user a) = None ->
  let s' := (handle v now a r s).2 in unchanged o s s' \/ joins v now o (auth_user a) r s s'.
Proof.
  intros Hwf Ho Hout. assert (forall o' r', role_in s o' (auth_user a) = Some r' -> o' <> o) as Hne.
  { intros o' r' Hr ->. apply role_in_member in Hr as (i & x & Hm & _). congruence. }
  assert (forall o' r', role_in s o' (auth_user a) = Some r' -> MANAGER <= r' -> o' <> o) as Hmgr by (intros o' r' Hr _; by eapply Hne).
  destruct r; cbn [handle]; try apply accept_invite_joins; left; try (by auto using outsider_create_organization, outsider_update_organization, outsider_delete_organization, outsider_create_organization_member, outsider_delete_organization_member, outsider_update_organization_member, outsider_set_organization_owner, outsider_update_team, outsider_delete_team, outsider_create_team, outsider_modify_member_for_team, outsider_add_team_to_project, outsider_delete_team_from_project).
Qed.

(** *** Requests about teams *)

Definition only_teams (s s' : State) : Prop := orgs s' = orgs s /\ org_users s' = org_users s /\ owners s' = owners s.

Definition about_teams (r : Request) : bool :=
  match r with UpdateTeam _ _ _ | DelTeam _ _ | CreateTeam _ _ | ModifyTeam _ _ _ _ | AddProjectTeam _ _ _ | DelProjectTeam _ _ _ => true | _ => false end.

Lemma team_requests v now a r s : about_teams r = true -> only_teams s (handle v now a r s).2.
Proof.
  intros Hr. destruct r; try done; cbn [handle].
  - unfold update_team. apply (permitted_ind (fun r => only_teams s r.2)); [done|done|]. destruct (get_team _ _ _ _) as [[i t]|]; [|done]. by destruct (team_slug_taken _ _ _ _).
  - unfold delete_team. apply (permitted_ind (fun r => only_teams s r.2)); [done|done|]. destruct (get_team _ _ _ _) as [[i t]|]; [|done]. by destruct (if role_in _ _ _ is Some _ then _ else _).
  - unfold create_team. apply (permitted_ind (fun r => only_teams s r.2)); [done|done|]. destruct (org_with_role _ _ _ _) as [[o' x]|]; [|done]. by destruct (team_slug_taken _ _ _ _).
  - unfold modify_member_for_team. apply (permitted_ind (fun r => only_teams s r.2)); [done|done|]. destruct (get_team _ _ _ _) as [[i t]|]; [|done]. cbn zeta.
    destruct (match member_id with Some _ => _ | None => _ end) as [[id x]|]; [|done]. by destruct (_ && _).
  - unfold add_team_to_project. apply (permitted_ind (fun r => only_teams s r.2)); [done|done|]. destruct (get_project _ _ _ _ _) as [[p y]|]; [|done]. by destruct (get_team _ _ _ _) as [[i t]|].
  - unfold delete_team_from_project. apply (permitted_ind (fun r => only_teams s r.2)); [done|done|]. destruct (get_team _ _ _ _) as [[i t]|]; [|done]. destruct (negb _); [done|]. by destruct (get_project _ _ _ _ _) as [[p y]|].
Qed.

(** ** Only managers manage *)

(** What a plain member's request may do to an organization: its row stays, no membership is
    made, none gets another role or user, those of others stay as they are. *)
Record kept (o user : Z) (s s' : State) : Prop := {
  kept_org : orgs s' !! o = orgs s !! o;
  kept_old : forall i x, org x = o -> org_users s' !! i = Some x ->
    exists y, org_users s !! i = Some y /\ org y = o /\ role y = role x /\ ou_user y = ou_user x /\ (y = x \/ ou_user x = Some user);
  kept_others : forall i x, org x = o -> ou_user x <> Some user -> org_users s !! i = Some x -> org_users s' !! i = Some x }.

(** The same rows or fewer. *)
Lemma subset_kept o user s s' :
  orgs s' !! o = orgs s !! o -> (forall i x, org x = o -> org_users s' !! i = Some x -> org_users s !! i = Some x) ->
  (forall i x, org x = o -> ou_user x <> Some user -> org_users s !! i = Some x -> org_users s' !! i = Some x) -> kept o user s s'.
Proof. intros H1 H2 H3. split; [done| |done]. intros i x Hx Hi. exists x. split_and!; auto. Qed.

Lemma unchanged_kept o user s s' : unchanged o s s' -> kept o user s s'.
Proof. intros [A _ B _]. apply subset_kept; [done|by intros i x Hx; apply B|by intros i x Hx _; apply B]. Qed.

Lemma only_teams_kept o user s s' : only_teams s s' -> kept o user s s'.
Proof. intros (A & B & _). apply subset_kept; [by rewrite A|by rewrite B|by rewrite B]. Qed.

Lemma kept_refl o user s : kept o user s s.
Proof. by apply subset_kept. Qed.
#[local] Hint Resolve kept_refl : core.

(** Who is in the organization already gets its own row back. *)
Lemma joins_kept v now o user r s s' : membership s o user <> None -> joins v now o user r s s' -> kept o user s s'.
Proof.
  intros Hm (id & token & x & _ & _ & Hx & Ho & Hu & ->). destruct (membership s o user) as [[i y]|] eqn:E; [|done].
  apply membership_Some in E as (Hi & Hy & Hyu). pose proof (Hu _ _ Hi Hy Hyu) as ->. rewrite Hi in Hx. injection Hx as ->. split; [done| |].
  - intros j z Hz. cbn. rewrite lookup_insert_Some. intros [[<- <-]|[_ Hj]]; [|exists z; split_and!; auto]. exists x. split_and!; auto.
  - intros j z Hz Hne Hj. cbn. rewrite lookup_insert_ne; [done|]. intros <-. congruence.
Qed.

(** C19: Whatever a member below a manager asks for, the row of its organization stays, no
    membership of it is made or gets another role or another user, and those of others stay
    as they are; the member can leave, and accepting an invitation does no more than to
    clear the email of the member's own row. *)
Theorem only_managers_manage (v : Server) (now o : Z) (a : Auth) (r : Request) (s : State) (role : Z) :
  wf s -> is_Some (orgs s !! o) -> role_in s o (auth_user a) = Some role -> role < MANAGER ->
  kept o (auth_user a) s (handle v now a r s).2.
Proof.
  intros Hwf Ho Hrole Hlow.
  assert (forall o' r', role_in s o' (auth_user a) = Some r' -> MANAGER <= r' -> o' <> o) as Hmgr.
  { intros o' r' Hr Hle ->. rewrite Hrole in Hr. injection Hr as ->. lia. }
  destruct r; try (by apply only_teams_kept, team_requests); cbn [handle]; try (by apply unchanged_kept; auto using outsider_update_organization, outsider_delete_organization, outsider_create_organization_member, outsider_update_organization_member).
  - apply unchanged_kept. unfold create_organization. apply outsider_create_organization; done.
  - unfold delete_organization_member. apply (permitted_ind (fun r => kept _ _ _ r.2)); [done|done|]. cbn zeta. destruct (bool_decide _); [done|].
    destruct (get_organization_user _ _ _ _) as [[x r]|] eqn:E; [|done]. apply get_organization_user_Some in E as (H & E & _).
    destruct (_ && _) eqn:Ef; [done|]. destruct (decide (org x = o)) as [Hxo|Hxo]; [|by apply unchanged_kept; eapply un_remove_member].
    assert (ou_user x = Some (auth_user a)) as Hself.
    { rewrite Hxo, Hrole in E. injection E as <-. replace (role <? MANAGER) with true in Ef by lia. cbn in Ef. by apply negb_false_iff, bool_decide_eq_true in Ef. }
    apply subset_kept; cbn; [done| |].
    + intros i y _ [_ Hy]%lookup_delete_Some. done.
    + intros i y _ Hy Hi. apply lookup_delete_Some. split; [|done]. intros ->. rewrite H in Hi. by injection Hi as ->.
  - unfold set_organization_owner. apply (permitted_ind (fun r => kept _ _ _ r.2)); [done|done|]. destruct (get_organization_user _ _ _ _) as [[x r]|]; [|done].
    cbn zeta. destruct (owners s !! org x); [|done]. by destruct (negb _); apply subset_kept.
  - destruct (accept_invite_joins o s a v now id token accept) as [H|H]; [by apply unchanged_kept|]. eapply joins_kept; [|exact H].
    unfold role_in in Hrole. by destruct (membership s o (auth_user a)).
Qed.

(** ** Every organization has an owner *)

Definition owned (o : Z) (s : State) : Prop := exists i x, org_users s !! i = Some x /\ org x = o /\ OWNER <= role x.
Definition all_owned (s : State) : Prop := forall o, is_Some (orgs s !! o) -> owned o s.

Lemma all_owned_eq s s' : (forall o, is_Some (orgs s' !! o) -> is_Some (orgs s !! o)) -> org_users s' = org_users s -> all_owned s -> all_owned s'.
Proof. intros Ho Hu H o Hs. unfold owned. rewrite Hu. by apply H, Ho. Qed.

Lemma only_teams_owned s s' : only_teams s s' -> all_owned s -> all_owned s'.
Proof. intros (A & B & _). apply all_owned_eq; [by rewrite A|done]. Qed.

(** Rows that are added, or replaced by rows of the same role, take no owner away. *)
Lemma all_owned_insert s s' i y :
  (forall o, is_Some (orgs s' !! o) -> is_Some (orgs s !! o)) -> org_users s' = <[i := y]> (org_users s) ->
  (forall x, org_users s !! i = Some x -> org y = org x /\ role y = role x) -> all_owned s -> all_owned s'.
Proof.
  intros Ho Hu Hi H o Hs. destruct (H o (Ho o Hs)) as (j & x & Hj & Hxo & Hr). unfold owned. rewrite Hu. destruct (decide (j = i)) as [->|Hne].
  - destruct (Hi x Hj) as [E1 E2]. exists i, y. rewrite lookup_insert_eq. split_and!; [done|congruence|lia].
  - exists j, x. by rewrite lookup_insert_ne.
Qed.

Lemma is_Some_insert {A} (m : gmap Z A) i x y : m !! i = Some x -> forall o, is_Some (<[i := y]> m !! o) -> is_Some (m !! o).
Proof. intros Hi o. destruct (decide (i = o)) as [->|]; [by rewrite Hi|by rewrite lookup_insert_ne]. Qed.

Lemma create_organization_owned creation a name sl s : wf s -> all_owned s -> all_owned (create_organization creation a name sl s).2.
Proof.
  intros Hwf H. unfold create_organization. apply (permitted_ind (fun r => all_owned r.2)); [done|done|]. destruct (users s !! auth_user a); [|done]. destruct (_ && _); [done|].
  destruct (bool_decide _); [done|]. cbn [snd]. unfold add_user. cbn [new_org org_users].
  assert (filter (fun kv : Z * OrganizationUser => org kv.2 = next_org s /\ is_Some (ou_user kv.2)) (map_to_list (org_users s)) = []) as ->.
  { destruct (filter _ _) as [|[i x] l] eqn:El; [done|]. assert ((i, x) ∈ (i, x) :: l) as Hi by left. rewrite <- El in Hi. apply list_elem_of_filter in Hi as [[Ho _] Hi].
    apply elem_of_map_to_list in Hi. cbn in Ho. destruct (wf_member s Hwf i x Hi) as [z Hz].
    rewrite Ho, (wf_orgs s Hwf) in Hz by lia. done. }
  cbn [length Nat.eqb snd]. intros o Ho. cbn in Ho |- *. destruct (decide (next_org s = o)) as [<-|Hne].
  - eexists _, _. split; [apply lookup_insert_eq|]. done.
  - rewrite lookup_insert_ne in Ho by done. destruct (H o Ho) as (i & x & Hi & Hx & Hr). exists i, x. split; [|done]. cbn. rewrite lookup_insert_ne; [done|].
    intros <-. by rewrite (wf_ous s Hwf) in Hi by lia.
Qed.

Lemma update_member_owned a osl id nr s : wf s -> all_owned s -> all_owned (update_organization_member a osl id nr s).2.
Proof.
  intros Hwf H. unfold update_organization_member. apply (permitted_ind (fun r => all_owned r.2)); [done|done|].
  destruct (get_organization_user _ _ _ _) as [[x r]|] eqn:E; [|done]. apply get_organization_user_Some in E as (Hx & _ & z & Hz & Hsl). cbn zeta. destruct (r <? MANAGER); [done|].
  destruct (_ && _) eqn:Ef; [done|]. intros o Ho. cbn in Ho. unfold owned. cbn. destruct (H o Ho) as (i & y & Hi & Hy & Hr). destruct (decide (i = id)) as [->|Hne].
  2: { exists i, y. by rewrite lookup_insert_ne. }
  rewrite Hx in Hi. injection Hi as ->. destruct (nr <? OWNER) eqn:En; [|exists id; eexists; rewrite lookup_insert_eq; split; [done|]; cbn; lia].
  cbn in Ef. apply negb_false_iff, bool_decide_eq_true in Ef as [[j w] Hw]. apply find_row_Some in Hw as [Hj Hw]. do 2 (apply andb_prop in Hw as [Hw ?]).
  exists j, w. rewrite lookup_insert_ne by (intros ->; lia). split; [done|]. split; [|lia].
  assert (slug <$> orgs s !! org w = Some osl) as Hw1 by (by eapply bool_decide_eq_true). rewrite <- Hy. eapply (same_slug s Hwf); [exact Hw1|]. rewrite Hz. cbn. by rewrite Hsl.
Qed.

Definition removes_member (r : Request) : bool := match r with DelMember _ _ => true | _ => false end.

(** As long as no member is removed, every organization keeps an owner: who makes one
    becomes its owner, and the last owner cannot be given another role. *)
Theorem owners_remain (v : Server) (now : Z) (a : Auth) (r : Request) (s : State) :
  wf s -> removes_member r = false -> all_owned s -> all_owned (handle v now a r s).2.
Proof.
  intros Hwf Hr H. destruct r; try done; try (by eapply only_teams_owned; [apply team_requests|]); cbn [handle].
  - by apply create_organization_owned.
  - unfold update_organization. apply (permitted_ind (fun r => all_owned r.2)); [done|done|]. destruct (get_organization _ _ _) as [[[o x] r]|] eqn:E; [|done].
    apply get_organization_Some in E as (E & _). destruct (_ <? _); [done|]. apply (all_owned_eq s); [|done|exact H]. cbn. by eapply is_Some_insert.
  - unfold delete_organization. apply (permitted_ind (fun r => all_owned r.2)); [done|done|]. destruct (get_organization _ _ _) as [[[o x] r]|] eqn:E; [|done].
    apply get_organization_Some in E as (E & _). destruct (_ <? _); [done|]. apply (all_owned_eq s); [|done|exact H]. cbn. by eapply is_Some_insert.
  - unfold create_organization_member. apply (permitted_ind (fun r => all_owned r.2)); [done|done|]. destruct (users s !! auth_user a); [|done]. destruct (_ && _); [done|].
    destruct (get_organization _ _ _) as [[[o x] ar]|]; [|done]. cbn zeta. destruct (ar <? MANAGER); [done|]. destruct (negb _ && _); [done|]. destruct (bool_decide _); [done|].
    destruct (_ <=? _); [done|]. destruct (find_row _ _) as [[id y]|]; [by destruct reinvite|]. eapply (all_owned_insert s); [|reflexivity| |exact H]; [done|].
    intros z Hz. cbn in Hz. by rewrite (wf_ous s Hwf) in Hz by lia.
  - by apply update_member_owned.
  - unfold set_organization_owner. apply (permitted_ind (fun r => all_owned r.2)); [done|done|]. destruct (get_organization_user _ _ _ _) as [[x r]|]; [|done].
    cbn zeta. destruct (owners s !! org x); [|done]. by destruct (negb _).
  - unfold accept_invite. destruct (org_users s !! id) as [x|] eqn:E; [|done]. destruct (negb _); [done|]. destruct (negb _); [done|]. destruct (bool_decide _); [done|]. destruct (bool_decide _); [done|].
    eapply (all_owned_insert s); [|reflexivity| |exact H]; [done|]. intros y Hy. rewrite E in Hy. by injection Hy as ->.
Qed.

(** ** Witnesses *)

Definition ex_member (o user r : Z) : OrganizationUser := {| org := o; ou_user := Some user; role := r; email := None |}.

(** Two organizations: in the first user 1 is owner, 2 a manager, 3 a member; user 4 owns the
    second. *)
Definition ex_state : State :=
  {| orgs := {[1 := {| slug := u "o"; org_name := u "O"; open_membership := true; is_deleted := false |};
               2 := {| slug := u "p"; org_name := u "P"; open_membership := true; is_deleted := false |}]}; next_org := 3;
     org_users := {[1 := ex_member 1 1 OWNER; 2 := ex_member 1 2 MANAGER; 3 := ex_member 1 3 MEMBER; 4 := ex_member 2 4 OWNER]}; next_ou := 5;
     owners := {[1 := 1; 2 := 4]};
     teams := {[1 := {| t_org := 1; t_slug := u "t"; members := {[1]}; team_projects := {[1]} |}]}; next_team := 2;
     projects := {[1 := {| p_org := 1; p_slug := u "x" |}]};
     users := {[1 := {| user_email := u "a"; is_superuser := false; verified := true |}; 2 := {| user_email := u "b"; is_superuser := false; verified := true |};
                3 := {| user_email := u "c"; is_superuser := false; verified := true |}; 4 := {| user_email := u "d"; is_superuser := false; verified := true |}]};
     attempts := ∅; jobs := [] |}.

Definition ex_server : Server :=
  {| creation := true; email_enabled := true; require_verification := true; registration := true; throttle_count := 10; throttle_interval := 60;
     make_token_ := fun id ts => u "1-" ++ str_of_Z id; timestamp_ := fun _ => Some 0 |}.

Definition session (user : Z) : Auth := {| auth_user := user; auth_token := None |}.
Definition by_token (user : Z) (scopes_ : list string) : Auth :=
  {| auth_user := user;
     auth_token := match set_flags (make_handler 0 SCOPES None) (map u scopes_) with
                   | Ok h => Some {| token := u "k"; user_id := user; label := []; scopes := h |}
                   | Raise _ => None
                   end |}.

(** Lookups in the small tables of the example. *)
Ltac ex_lookup :=
  repeat match goal with
  | H : <[_ := _]> _ !! _ = Some _ |- _ => apply lookup_insert_Some in H as [[<- <-]|[? H]]
  | H : {[_ := _]} !! _ = Some _ |- _ => apply lookup_singleton_Some in H as [<- <-]
  end.

Lemma ex_wf : wf ex_state.
Proof.
  split; cbn -[u].
  - intros i Hi. by rewrite lookup_insert_ne, lookup_singleton_ne by lia.
  - intros i Hi. by rewrite !lookup_insert_ne, lookup_singleton_ne by lia.
  - intros i Hi. by rewrite lookup_singleton_ne by lia.
  - intros i j x y Hi Hj E. ex_lookup; try done; by vm_compute in E.
  - intros i x Hi. ex_lookup; by eexists.
  - intros i j x y w Hi Hj E Ex Ey. ex_lookup; try done; cbn in *; congruence.
  - intros i j x y w Hi Hj E Ex Ey. ex_lookup; try done; cbn in *; congruence.
  - intros o i Hi. ex_lookup; by eexists.
  - intros i t Hi. ex_lookup. split; [by eexists|]. intros m Hm. cbn -[u] in Hm. apply elem_of_singleton in Hm as ->. by eexists.
  - intros i j x y Hi Hj E. by ex_lookup.
Qed.

Lemma ex_all_owned : all_owned ex_state.
Proof.
  intros o [x Ho]. cbn -[u] in Ho. ex_lookup; [exists 1|exists 4]; eexists; (split; [reflexivity|split; [reflexivity|by vm_compute]]).
Qed.

Lemma requests_keep_wf_witness :
  let s := foldl (fun s nar => (handle ex_server nar.1.1 nar.1.2 nar.2 s).2) ex_state
             [(0, session 2, InviteMember (u "o") (u "d") ADMIN true [u "t"]); (1, session 4, AcceptInvite 5 (u "1-5") true)] in
  wf s /\ org_users s !! 5 = Some (ex_member 1 4 ADMIN) /\ (members <$> teams s !! 1) = Some {[1; 5]}.
Proof.
  split; [apply (requests_keep_wf ex_server [(0, session 2, InviteMember (u "o") (u "d") ADMIN true [u "t"]); (1, session 4, AcceptInvite 5 (u "1-5") true)] ex_state ex_wf)|].
  vm_compute. split; reflexivity.
Defined.

Lemma outsiders_change_nothing_witness :
  let s' := (handle ex_server 0 (session 4) (AcceptInvite 3 (u "1-4") true) ex_state).2 in
  unchanged 1 ex_state s' \/ joins ex_server 0 1 4 (AcceptInvite 3 (u "1-4") true) ex_state s'.
Proof. apply (outsiders_change_nothing ex_server 0 1 (session 4) (AcceptInvite 3 (u "1-4") true)); [exact ex_wf|by eexists|vm_compute; reflexivity]. Defined.

(** A token of another row or one that is too old is refused. *)
Example token_of_another_row :
  handle ex_server 0 (session 4) (AcceptInvite 3 (u "1-4") true) ex_state = (403, ex_state)
  /\ handle ex_server (15 * 86400 + 1) (session 4) (AcceptInvite 3 (u "1-3") true) ex_state = (403, ex_state).
Proof. split; by_compute. Qed.

Lemma only_managers_manage_witness : kept 1 3 ex_state (handle ex_server 0 (session 3) (UpdateMember (u "o") 3 OWNER) ex_state).2.
Proof. apply (only_managers_manage ex_server 0 1 (session 3) _ ex_state MEMBER); [exact ex_wf|by eexists|vm_compute; reflexivity|reflexivity]. Defined.

Lemma owners_remain_witness :
  all_owned (handle ex_server 0 (session 1) (UpdateMember (u "o") 1 MEMBER) ex_state).2 /\ (handle ex_server 0 (session 1) (UpdateMember (u "o") 1 MEMBER) ex_state).1 = 422.
Proof. split; [apply (owners_remain ex_server 0 (session 1)); [exact ex_wf|reflexivity|exact ex_all_owned]|vm_compute; reflexivity]. Defined.

(** ** Where the code does not do what it means to *)

(** A manager removes the only owner, and the organization has none any more. *)
Example last_owner_removed :
  let '(status, s) := handle ex_server 0 (session 2) (DelMember (u "o") 1) ex_state in
  status = 204 /\ owners s !! 1 = None /\ ~ owned 1 s.
Proof.
  vm_compute. split; [reflexivity|split; [reflexivity|]]. intros (i & x & Hi & Hx & Hr).
  assert (Forall (fun kv : Z * OrganizationUser => ~ (org kv.2 = 1 /\ OWNER <= role kv.2))
    (map_to_list (org_users (handle ex_server 0 (session 2) (DelMember (u "o") 1) ex_state).2))) as HF by by_decide.
  rewrite Forall_forall in HF. apply (HF (i, x)); [|by split]. apply elem_of_map_to_list. exact Hi.
Qed.

(** A manager makes itself owner. *)
Example manager_becomes_owner :
  let '(status, s) := handle ex_server 0 (session 2) (UpdateMember (u "o") 2 OWNER) ex_state in status = 200 /\ role_in s 1 2 = Some OWNER.
Proof. vm_compute. split; reflexivity. Qed.

(** A pending invitation in the role of an owner counts as one: the only one that can act is
    given another role. *)
Example owner_pending :
  let '(s1, s) := handle ex_server 0 (session 1) (InviteMember (u "o") (u "e") OWNER true []) ex_state in
  let '(s2, s) := handle ex_server 1 (session 1) (UpdateMember (u "o") 1 MEMBER) s in
  (s1, s2) = (201, 200) /\ role_in s 1 1 = Some MEMBER /\ ou_user <$> org_users s !! 5 = Some None.
Proof. vm_compute. split; [reflexivity|split; reflexivity]. Qed.

(** The token of an invitation that was accepted still works: another user takes over the
    membership, here of an owner. *)
Example token_reused :
  let '(_, s) := handle ex_server 0 (session 1) (InviteMember (u "o") (u "e") OWNER true []) ex_state in
  let '(s1, s) := handle ex_server 1 (session 5) (AcceptInvite 5 (u "1-5") true) s in
  let '(s2, s) := handle ex_server 2 (session 6) (AcceptInvite 5 (u "1-5") true) s in
  (s1, s2) = (200, 200) /\ role_in s 1 6 = Some OWNER /\ role_in s 1 5 = None.
Proof. vm_compute. split; [reflexivity|split; reflexivity]. Qed.

(** A member, whose role has the scope "team:read" only, renames a team. *)
Example member_renames_team :
  let '(status, s) := handle ex_server 0 (session 3) (UpdateTeam (u "o") (u "t") (u "z")) ex_state in status = 200 /\ t_slug <$> teams s !! 1 = Some (u "z").
Proof. vm_compute. split; reflexivity. Qed.

(** A token with the scope "project:write" is refused: the scope asked for is misspelled. *)
Example project_write_refused :
  (handle ex_server 0 (by_token 1 ["project:write"]%string) (AddProjectTeam (u "o") (u "x") (u "t")) ex_state).1 = 403 /\
  (handle ex_server 0 (by_token 1 ["project:admin"]%string) (AddProjectTeam (u "o") (u "x") (u "t")) ex_state).1 = 201.
Proof. vm_compute. split; reflexivity. Qed.

(** A manager deletes the organization, though the role lacks "org:admin". *)
Example manager_deletes_organization :
  (handle ex_server 0 (session 2) (DelOrganization (u "o")) ex_state).1 = 204 /\ (bool_decide (u "org:admin" ∈ default [] (role_scopes MANAGER))) = false.
Proof. vm_compute. split; reflexivity. Qed.

(** The owner can be made an invitation without a user. *)
Example owner_without_user :
  let '(_, s) := handle ex_server 0 (session 1) (InviteMember (u "o") (u "e") MEMBER true []) ex_state in
  let '(status, s) := handle ex_server 1 (session 1) (SetOwner (u "o") 5) s in
  status = 200 /\ owners s !! 1 = Some 5 /\ ou_user <$> org_users s !! 5 = Some None.
Proof. vm_compute. split; [reflexivity|split; reflexivity]. Qed.

(** A member that accepted its invitation by signing in with an API token gets an error. *)
Example accept_by_token_fails :
  let '(_, s) := handle ex_server 0 (session 1) (InviteMember (u "o") (u "d") MEMBER true []) ex_state in
  (handle ex_server 1 (by_token 4 []) (AcceptInvite 5 (u "1-5") true) s).1 = 500.
Proof. vm_compute. reflexivity. Qed.
