(* ===== verification/AlertApi.v ===== *)
(** * The endpoints of alerts

    [apps/alerts/api.py] with its schemas: listing, creating, changing and deleting the alerts
    of a project and their recipients. Organizations, members and teams are those of
    [Membership], kinds of recipients those of [Webhooks]. Every handler gives the status of
    its response, 500 for an exception that leaves it, and the new tables: there is no
    transaction around a request. *)
From S2P Require Import Prelude PyStr PyValue BitField Membership Webhooks.

#[export] Instance RecipientType_eq_dec : EqDecision RecipientType.
Proof. solve_decision. Defined.

(** ** The tables *)

Record AlertRow := { al_project : Z; al_name : ustr; al_timespan : option Z; al_quantity : option Z; al_uptime : bool }.
Record RecipientRow := { rc_alert : Z; rc_type : RecipientType; rc_url : ustr; rc_config : adict ustr ustr; rc_tags : option (list ustr) }.

(** [notifs] has the alert of each notification. *)
Record Tables := { al_rows : gmap Z AlertRow; al_next : Z; rc_rows : gmap Z RecipientRow; rc_next : Z; notifs : gmap Z Z }.

Definition with_alerts m t := {| al_rows := m; al_next := al_next t; rc_rows := rc_rows t; rc_next := rc_next t; notifs := notifs t |}.
Definition with_recipients m t := {| al_rows := al_rows t; al_next := al_next t; rc_rows := m; rc_next := rc_next t; notifs := notifs t |}.
Definition new_alert (a : AlertRow) t :=
  {| al_rows := <[al_next t := a]> (al_rows t); al_next := al_next t + 1; rc_rows := rc_rows t; rc_next := rc_next t; notifs := notifs t |}.
Definition new_recipient (r : RecipientRow) t :=
  {| al_rows := al_rows t; al_next := al_next t; rc_rows := <[rc_next t := r]> (rc_rows t); rc_next := rc_next t + 1; notifs := notifs t |}.

(** ** Payloads, as validated: [None] is a field that is not set, [Some None] one set to null *)

Record RecipientIn := { ri_type : RecipientType; ri_url : option (option ustr); ri_tags : option (option (list ustr)); ri_zulip : adict ustr ustr }.

Record ProjectAlertIn := {
  pi_name : option (option ustr); pi_timespan : option (option Z); pi_quantity : option (option Z); pi_uptime : option bool;
  pi_recipients : option (option (list RecipientIn)) }.

(** What the columns hold: texts of limited length, small integers that are not negative. *)
Definition name_fits (o : option ustr) : bool := match o with Some s => len s <=? 255 | None => false end.
Definition small (o : option Z) : bool := match o with Some n => (0 <=? n) && (n <? 2 ^ 15) | None => true end.
Definition url_fits (s : ustr) : bool := len s <=? 2000.
Definition tags_fit (o : option (list ustr)) : bool := match o with Some l => forallb (fun s => len s <=? 255) l | None => true end.

Definition alert_fits (p : ProjectAlertIn) : bool :=
  match pi_name p with Some o => name_fits o | None => true end && small (default None (pi_timespan p)) && small (default None (pi_quantity p)).

(** [setattr] of the fields that are set. *)
Definition set_fields (p : ProjectAlertIn) (a : AlertRow) : AlertRow :=
  {| al_project := al_project a; al_name := match pi_name p with Some (Some s) => s | _ => al_name a end;
     al_timespan := default (al_timespan a) (pi_timespan p); al_quantity := default (al_quantity a) (pi_quantity p);
     al_uptime := default (al_uptime a) (pi_uptime p) |}.

(** [_prepare_recipient_data]: the Zulip fields as a dictionary, if there are any. *)
Definition prepared_config (r : RecipientIn) : option (adict ustr ustr) := match ri_zulip r with [] => None | l => Some l end.

(** ** Who may see and change what *)

Definition alert_visible (s : State) (user : Z) (organization_slug project_slug : ustr) (least : Z) (a : AlertRow) : bool :=
  match projects s !! al_project a with
  | Some p => ustr_eqb (p_slug p) project_slug &&
      match orgs s !! p_org p with
      | Some o => ustr_eqb (slug o) organization_slug && match role_in s (p_org p) user with Some r => least <=? r | None => false end
      | None => false
      end
  | None => false
  end.

(** [get_project_alert_queryset(...)] *)
Definition project_alerts (s : State) (user : Z) (organization_slug project_slug : ustr) (t : Tables) : list (Z * AlertRow) :=
  filter (fun kv => alert_visible s user organization_slug project_slug MEMBER kv.2) (map_to_list (al_rows t)).

Definition get_alert (s : State) (user : Z) (organization_slug project_slug : ustr) (least alert_id : Z) (t : Tables) : option AlertRow :=
  match al_rows t !! alert_id with
  | Some a => if alert_visible s user organization_slug project_slug least a then Some a else None
  | None => None
  end.

(** [teams__members__user=user_id] *)
Definition in_team_of (s : State) (user project : Z) : bool :=
  existsb (fun kt : Z * Team => bool_decide (project ∈ team_projects kt.2) &&
    existsb (fun kx : Z * OrganizationUser => bool_decide (kx.1 ∈ members kt.2) && bool_decide (ou_user kx.2 = Some user)) (map_to_list (org_users s)))
    (map_to_list (teams s)).

(** The project in which the user may create alerts: as an admin or through a team. *)
Definition get_project_for_alert (s : State) (user : Z) (organization_slug project_slug : ustr) : option (Z * Project) :=
  find_row (fun id p => ustr_eqb (p_slug p) project_slug &&
    match orgs s !! p_org p with
    | Some o => ustr_eqb (slug o) organization_slug &&
        (match role_in s (p_org p) user with Some r => ADMIN <=? r | None => false end || in_team_of s user id)
    | None => false
    end) (projects s).

(** [unique_together = ("alert", "recipient_type", "url")] *)
Definition find_recipient (alert : Z) (ty : RecipientType) (url : ustr) (t : Tables) : option (Z * RecipientRow) :=
  find_row (fun _ r => (rc_alert r =? alert) && bool_decide (rc_type r = ty) && ustr_eqb (rc_url r) url) (rc_rows t).

(** ** Handlers *)

Abbreviation reply := (Z * Tables)%type.

Definition allowed (permissions : list string) (a : Auth) (t : Tables) (k : reply) : reply :=
  match has_permission (map u permissions) a with Ok true => k | Ok false => (403, t) | Raise _ => (500, t) end.
Arguments allowed (_)%_list _ _ _.

Definition list_project_alerts (s : State) (a : Auth) (organization_slug project_slug : ustr) (t : Tables) : list (Z * AlertRow) :=
  project_alerts s (auth_user a) organization_slug project_slug t.

(** One row of [abulk_create]: null and long texts and repeated recipients fail. *)
Definition insert_recipient (alert : Z) (r : RecipientIn) (t : Tables) : res Tables :=
  match default (Some []) (ri_url r) with
  | None => Raise IntegrityError
  | Some url =>
      if negb (url_fits url && tags_fit (default (Some []) (ri_tags r))) then Raise DataError
      else if bool_decide (is_Some (find_recipient alert (ri_type r) url t)) then Raise IntegrityError
      else Ok (new_recipient {| rc_alert := alert; rc_type := ri_type r; rc_url := url; rc_config := default [] (prepared_config r);
                                rc_tags := default (Some []) (ri_tags r) |} t)
  end.

Fixpoint bulk_create (alert : Z) (l : list RecipientIn) (t : Tables) : res Tables :=
  match l with [] => Ok t | r :: l => let* t := insert_recipient alert r t in bulk_create alert l t end.

(** The alert is there before its recipients are looked at. *)
Definition create_project_alert (s : State) (a : Auth) (organization_slug project_slug : ustr) (p : ProjectAlertIn) (t : Tables) : reply :=
  allowed ["project:write"; "project:admin"]%string a t
    match get_project_for_alert s (auth_user a) organization_slug project_slug with
    | None => (404, t)
    | Some (project, _) =>
        if negb (alert_fits p) then (500, t) else
        let id := al_next t in
        let t := new_alert (set_fields p {| al_project := project; al_name := []; al_timespan := None; al_quantity := None; al_uptime := false |}) t in
        match default (Some []) (pi_recipients p) with
        | None => (500, t)
        | Some l =>
            match bulk_create id l t with
            | Raise _ => (500, t)
            | Ok t => match get_alert s (auth_user a) organization_slug project_slug MEMBER id t with Some _ => (201, t) | None => (500, t) end
            end
        end
    end.

(** [aupdate_or_create(alert, recipient_type, url, defaults=prepared)]: the row's id, whether
    it is new, and the tables. *)
Definition update_or_create (alert : Z) (r : RecipientIn) (t : Tables) : res (Z * bool * Tables) :=
  match default (Some []) (ri_url r) with
  | None => Raise IntegrityError
  | Some url =>
      if negb (url_fits url && tags_fit (default (Some []) (ri_tags r))) then Raise DataError else
      match find_recipient alert (ri_type r) url t with
      | Some (id, row) =>
          Ok (id, false, with_recipients (<[id := {| rc_alert := rc_alert row; rc_type := rc_type row; rc_url := rc_url row;
                rc_config := default (rc_config row) (prepared_config r); rc_tags := default (rc_tags row) (ri_tags r) |}]> (rc_rows t)) t)
      | None =>
          Ok (rc_next t, true, new_recipient {| rc_alert := alert; rc_type := ri_type r; rc_url := url; rc_config := default [] (prepared_config r);
                rc_tags := default (Some []) (ri_tags r) |} t)
      end
  end.

(** The loop over the recipients of a change, with the ids left to delete. *)
Fixpoint update_recipients (alert : Z) (l : list RecipientIn) (to_delete : gset Z) (t : Tables) : res (gset Z) * Tables :=
  match l with
  | [] => (Ok to_delete, t)
  | r :: l =>
      match update_or_create alert r t with
      | Raise e => (Raise e, t)
      | Ok (id, created, t) => update_recipients alert l (if (created : bool) then to_delete else to_delete ∖ {[id]}) t
      end
  end.

Definition recipient_ids (alert : Z) (t : Tables) : gset Z := dom (filter (fun kv => rc_alert kv.2 = alert) (rc_rows t)).

Definition delete_recipients (ids : gset Z) (t : Tables) : Tables := with_recipients (filter (fun kv => kv.1 ∉ ids) (rc_rows t)) t.

Definition update_project_alert (s : State) (a : Auth) (organization_slug project_slug : ustr) (alert_id : Z) (p : ProjectAlertIn) (t : Tables) : reply :=
  allowed ["project:write"; "project:admin"]%string a t
    match get_alert s (auth_user a) organization_slug project_slug MEMBER alert_id t with
    | None => (404, t)
    | Some row =>
        if negb (alert_fits p) then (500, t) else
        let t := with_alerts (<[alert_id := set_fields p row]> (al_rows t)) t in
        match default (Some []) (pi_recipients p) with
        | None => (500, t)
        | Some l =>
            match update_recipients alert_id l (recipient_ids alert_id t) t with
            | (Raise _, t) => (500, t)
            | (Ok to_delete, t) => (200, delete_recipients to_delete t)
            end
        end
    end.

(** With its recipients and notifications. *)
Definition delete_project_alert (s : State) (a : Auth) (organization_slug project_slug : ustr) (alert_id : Z) (t : Tables) : reply :=
  allowed ["project:admin"]%string a t
    match get_alert s (auth_user a) organization_slug project_slug ADMIN alert_id t with
    | None => (404, t)
    | Some _ =>
        (204, {| al_rows := delete alert_id (al_rows t); al_next := al_next t; rc_rows := filter (fun kv => rc_alert kv.2 <> alert_id) (rc_rows t);
                 rc_next := rc_next t; notifs := filter (fun kv => kv.2 <> alert_id) (notifs t) |})
    end.

Inductive AlertRequest :=
  | CreateAlert (organization_slug project_slug : ustr) (p : ProjectAlertIn)
  | UpdateAlert (organization_slug project_slug : ustr) (id : Z) (p : ProjectAlertIn)
  | DeleteAlert (organization_slug project_slug : ustr) (id : Z).

Definition handle_alert (s : State) (a : Auth) (r : AlertRequest) (t : Tables) : reply :=
  match r with
  | CreateAlert o p x => create_project_alert s a o p x t
  | UpdateAlert o p i x => update_project_alert s a o p i x t
  | DeleteAlert o p i => delete_project_alert s a o p i t
  end.

(** ** The tables stay consistent *)

Definition key (r : RecipientRow) : Z * RecipientType * ustr := (rc_alert r, rc_type r, rc_url r).

Record tables_ok (t : Tables) : Prop := {
  ok_alert_ids : forall i, al_next t <= i -> al_rows t !! i = None;
  ok_recipient_ids : forall i, rc_next t <= i -> rc_rows t !! i = None;
  ok_alert_of : forall i r, rc_rows t !! i = Some r -> is_Some (al_rows t !! rc_alert r);
  ok_unique : forall i j r r', rc_rows t !! i = Some r -> rc_rows t !! j = Some r' -> key r = key r' -> i = j;
  ok_notifs : forall i a, notifs t !! i = Some a -> is_Some (al_rows t !! a);
  ok_small : forall i a, al_rows t !! i = Some a -> small (al_timespan a) = true /\ small (al_quantity a) = true /\ len (al_name a) <= 255 }.

Lemma find_recipient_Some alert ty url t i r : find_recipient alert ty url t = Some (i, r) -> rc_rows t !! i = Some r /\ key r = (alert, ty, url).
Proof.
  intros [H1 H2]%find_row_Some. split; [done|]. apply andb_prop in H2 as [H2 H3%ustr_eqb_eq]. apply andb_prop in H2 as [H2 H4%bool_decide_eq_true].
  unfold key. f_equal; [f_equal|]; [lia|done..].
Qed.

Lemma find_recipient_None alert ty url t i r : find_recipient alert ty url t = None -> rc_rows t !! i = Some r -> key r <> (alert, ty, url).
Proof.
  unfold find_recipient. intros H Hi [= Ha Ht Hu]. pose proof (find_row_None _ _ H i r Hi) as H1. cbn in H1.
  rewrite Ha, Z.eqb_refl, bool_decide_eq_true_2, Hu, ustr_eqb_refl in H1 by done. done.
Qed.

Lemma new_recipient_ok r t :
  tables_ok t -> is_Some (al_rows t !! rc_alert r) -> find_recipient (rc_alert r) (rc_type r) (rc_url r) t = None -> tables_ok (new_recipient r t).
Proof.
  intros [] Ha Hf. pose proof (fun i r' => find_recipient_None _ _ _ t i r' Hf) as Hk. pose proof (ok_recipient_ids0 (rc_next t) (Z.le_refl _)) as Hn. constructor; cbn; try done.
  - intros i Hi. rewrite lookup_insert_ne by lia. apply ok_recipient_ids0. lia.
  - intros i r' [[<- <-]|[_ ?]]%lookup_insert_Some; eauto.
  - intros i j r1 r2 [[<- <-]|[Hi H1]]%lookup_insert_Some [[<- <-]|[Hj H2]]%lookup_insert_Some H; [done|..]; [|by eapply Hk in H1|by eauto].
    symmetry in H. by eapply Hk in H2.
Qed.

Lemma change_recipient_ok i r r' t : tables_ok t -> rc_rows t !! i = Some r -> key r' = key r -> tables_ok (with_recipients (<[i := r']> (rc_rows t)) t).
Proof.
  intros [] Hi Hk. assert (forall j x, <[i := r']> (rc_rows t) !! j = Some x -> exists y, rc_rows t !! j = Some y /\ key x = key y) as Hold.
  { intros j x [[<- <-]|[_ ?]]%lookup_insert_Some; eauto. }
  constructor; cbn; try done.
  - intros j Hj. destruct (decide (j = i)) as [->|]; [by rewrite ok_recipient_ids0 in Hi|]. rewrite lookup_insert_ne by done. auto.
  - intros j x (y & Hy & Hxy)%Hold. injection Hxy as -> _ _. eauto.
  - intros j j' x x' (y & Hy & ->)%Hold (y' & Hy' & ->)%Hold. eauto.
Qed.

Lemma filter_recipients_ok (P : Z * RecipientRow -> Prop) `{!forall x, Decision (P x)} t : tables_ok t -> tables_ok (with_recipients (filter P (rc_rows t)) t).
Proof.
  intros []. constructor; cbn; try done.
  - intros i Hi. apply map_lookup_filter_None. left. auto.
  - intros i r [? _]%map_lookup_filter_Some. eauto.
  - intros i j r r' [? _]%map_lookup_filter_Some [? _]%map_lookup_filter_Some. eauto.
Qed.

Lemma alert_fits_set p a :
  alert_fits p = true -> small (al_timespan a) = true /\ small (al_quantity a) = true /\ len (al_name a) <= 255 ->
  small (al_timespan (set_fields p a)) = true /\ small (al_quantity (set_fields p a)) = true /\ len (al_name (set_fields p a)) <= 255.
Proof.
  unfold alert_fits. intros [[H1 H2]%andb_prop H3]%andb_prop (Ha & Hb & Hc). cbn. split_and!.
  - by destruct (pi_timespan p).
  - by destruct (pi_quantity p).
  - destruct (pi_name p) as [[s|]|]; cbn in *; [lia|done|done].
Qed.

Lemma write_alert_ok i a t :
  tables_ok t -> is_Some (al_rows t !! i) -> small (al_timespan a) = true /\ small (al_quantity a) = true /\ len (al_name a) <= 255 ->
  tables_ok (with_alerts (<[i := a]> (al_rows t)) t).
Proof.
  intros [] [a0 Hi] Ha. assert (forall j, is_Some (al_rows t !! j) -> is_Some (<[i := a]> (al_rows t) !! j)) as Hs.
  { intros j Hj. apply lookup_insert_is_Some'. by right. }
  constructor; cbn; eauto.
  - intros j Hj. destruct (decide (j = i)) as [->|]; [by rewrite ok_alert_ids0 in Hi|]. rewrite lookup_insert_ne by done. auto.
  - intros j b [[<- <-]|[_ ?]]%lookup_insert_Some; eauto.
Qed.

Lemma new_alert_ok a t :
  tables_ok t -> small (al_timespan a) = true /\ small (al_quantity a) = true /\ len (al_name a) <= 255 -> tables_ok (new_alert a t).
Proof.
  intros [] Ha. assert (forall j, is_Some (al_rows t !! j) -> is_Some (<[al_next t := a]> (al_rows t) !! j)) as Hs.
  { intros j Hj. apply lookup_insert_is_Some'. by right. }
  constructor; cbn; eauto.
  - intros j Hj. rewrite lookup_insert_ne by lia. apply ok_alert_ids0. lia.
  - intros j b [[<- <-]|[_ ?]]%lookup_insert_Some; eauto.
Qed.

(** Writing the recipients of an alert leaves the rest as it is. *)
Record same_but (alert : Z) (t t' : Tables) : Prop := {
  sb_alerts : al_rows t' = al_rows t; sb_notifs : notifs t' = notifs t;
  sb_recipients : forall i r, rc_alert r <> alert -> rc_rows t !! i = Some r <-> rc_rows t' !! i = Some r }.

Lemma same_but_refl alert t : same_but alert t t.
Proof. by constructor. Qed.

Lemma same_but_trans alert t1 t2 t3 : same_but alert t1 t2 -> same_but alert t2 t3 -> same_but alert t1 t3.
Proof. intros [] []. constructor; [congruence..|]. intros i r Hr. rewrite sb_recipients0, sb_recipients1; done. Qed.

Lemma same_but_new alert r t : tables_ok t -> rc_alert r = alert -> same_but alert t (new_recipient r t).
Proof.
  intros Ht Hr. constructor; [done..|]. intros i r' Hr'. cbn. rewrite lookup_insert_Some. split.
  - intros H. right. split; [|done]. intros <-. by rewrite (ok_recipient_ids _ Ht) in H.
  - intros [[_ <-]|[_ H]]; done.
Qed.

Lemma bulk_create_ok alert l t t' :
  tables_ok t -> is_Some (al_rows t !! alert) -> bulk_create alert l t = Ok t' -> tables_ok t' /\ same_but alert t t'.
Proof.
  revert t. induction l as [|r l IH]; intros t Ht Ha; cbn; [intros [= <-]; split; [done|apply same_but_refl]|].
  unfold insert_recipient. destruct (default (Some []) (ri_url r)) as [url|]; cbn; [|done].
  destruct (negb _); cbn; [done|]. destruct (bool_decide _) eqn:E; cbn; [done|]. intros H.
  assert (find_recipient alert (ri_type r) url t = None) as Hf.
  { apply bool_decide_eq_false in E. apply eq_None_not_Some. done. }
  eapply IH in H; [|by apply new_recipient_ok|done].
  destruct H as [H1 H2]. split; [done|]. eapply same_but_trans; [|exact H2]. by apply same_but_new.
Qed.

(** The keys of the recipients of an alert. *)
Definition recipient_keys (alert : Z) (t : Tables) (k : RecipientType * ustr) : Prop :=
  exists i r, rc_rows t !! i = Some r /\ key r = (alert, k.1, k.2).
Definition payload_key (r : RecipientIn) : RecipientType * ustr := (ri_type r, default [] (default (Some []) (ri_url r))).

Lemma update_or_create_ok alert r t i created t' :
  tables_ok t -> is_Some (al_rows t !! alert) -> update_or_create alert r t = Ok (i, created, t') ->
  tables_ok t' /\ same_but alert t t'
  /\ (exists row, rc_rows t' !! i = Some row /\ key row = (alert, (payload_key r).1, (payload_key r).2))
  /\ (created = true -> i = rc_next t) /\ (created = false -> is_Some (rc_rows t !! i)) /\ rc_next t <= rc_next t'
  /\ (forall j row, rc_rows t !! j = Some row -> exists row', rc_rows t' !! j = Some row' /\ key row' = key row)
  /\ (forall j, j <> i -> rc_rows t' !! j = rc_rows t !! j).
Proof.
  intros Ht Ha. unfold update_or_create, payload_key. destruct (default (Some []) (ri_url r)) as [url|]; cbn; [|done].
  destruct (negb _); cbn; [done|]. destruct (find_recipient alert (ri_type r) url t) as [[j row]|] eqn:E; intros [= <- <- <-].
  - apply find_recipient_Some in E as [Hj Hk]. split; [by eapply change_recipient_ok|]. split_and!; cbn.
    + constructor; [done..|]. intros i r' Hr'. cbn. rewrite lookup_insert_Some. injection Hk as Hk _ _. split.
      * intros H. right. split; [intros ->; congruence|done].
      * intros [[<- <-]|[_ H]]; [by cbn in Hr'|done].
    + eexists. rewrite lookup_insert_eq. split; [done|]. by rewrite <- Hk.
    + done.
    + eauto.
    + done.
    + intros i x Hi. destruct (decide (i = j)) as [->|]; [rewrite lookup_insert_eq; eexists; split; [done|]; by replace x with row by congruence|].
      rewrite lookup_insert_ne by done. eauto.
    + intros i Hi. by rewrite lookup_insert_ne.
  - split; [by apply new_recipient_ok|]. split_and!; cbn; [by apply same_but_new|..].
    + eexists. by rewrite lookup_insert_eq.
    + done.
    + done.
    + lia.
    + intros j x Hj. rewrite lookup_insert_ne; [eauto|]. intros <-. by rewrite (ok_recipient_ids _ Ht) in Hj.
    + intros j Hj. by rewrite lookup_insert_ne.
Qed.

(** The loop of a change: the rows of the payload are there afterwards and not deleted; of
    the others, those there before are. *)
Lemma update_recipients_ok alert l to_delete t to_delete' t' :
  tables_ok t -> is_Some (al_rows t !! alert) -> (forall i, i ∈ to_delete -> is_Some (rc_rows t !! i)) ->
  update_recipients alert l to_delete t = (Ok to_delete', t') ->
  (forall i row, rc_rows t !! i = Some row -> exists row', rc_rows t' !! i = Some row' /\ key row' = key row)
  /\ (forall i row, i ∉ to_delete -> rc_rows t' !! i = Some row ->
      is_Some (rc_rows t !! i) \/ exists r, r ∈ l /\ key row = (alert, (payload_key r).1, (payload_key r).2))
  /\ (forall r, r ∈ l -> exists i row, i ∉ to_delete' /\ rc_rows t' !! i = Some row /\ key row = (alert, (payload_key r).1, (payload_key r).2))
  /\ (forall i, i ∈ to_delete' -> i ∈ to_delete)
  /\ (forall i row, i ∈ to_delete -> i ∉ to_delete' -> rc_rows t' !! i = Some row ->
      exists r, r ∈ l /\ key row = (alert, (payload_key r).1, (payload_key r).2)).
Proof.
  revert to_delete t. induction l as [|r l IH]; intros to_delete t Ht Ha Hd; cbn.
  - intros [= <- <-]. split_and!; eauto; [by intros r ?%elem_of_nil|naive_solver].
  - destruct (update_or_create alert r t) as [[[i created] t1]|] eqn:E; [|done].
    destruct (update_or_create_ok _ _ _ _ _ _ Ht Ha E) as (Ht1 & Hs & (row & Hi & Hk) & Hc1 & Hc2 & Hn & Hold & Hrest).
    intros H. apply IH in H as (H1 & H2 & H3 & H4 & H5); [|done|by rewrite (sb_alerts _ _ _ Hs)|].
    2: { intros j Hj. assert (j ∈ to_delete) as [x Hx]%Hd by (destruct created; set_solver). destruct (Hold _ _ Hx) as (? & ? & _). by eexists. }
    destruct (H1 _ _ Hi) as (row' & Hi' & Hk'). rewrite Hk in Hk'. split_and!.
    + intros j x (y & Hy & Hxy)%Hold. destruct (H1 _ _ Hy) as (z & Hz & Hyz). exists z. split; [done|congruence].
    + intros j x Hj Hx. destruct (H2 j x) as [[y Hy]|(r' & Hr' & ?)]; [destruct created; set_solver|done| |right; exists r'; split; [by right|done]].
      destruct (decide (j = i)) as [->|Hji]; [right; exists r; split; [left|by rewrite Hi' in Hx; injection Hx as <-]|]. rewrite Hrest in Hy by done. left. by eexists.
    + intros r' [->|Hr']%elem_of_cons; [|by apply H3]. exists i, row'. split; [|done]. intros Hi2%H4.
      destruct created; [|set_solver]. rewrite Hc1 in Hi2 by done. destruct (Hd _ Hi2) as [x Hx]. by rewrite (ok_recipient_ids _ Ht) in Hx.
    + intros j Hj%H4. destruct created; set_solver.
    + intros j x Hj Hj' Hx. destruct (decide (j = i)) as [->|Hji]; [exists r; split; [left|by rewrite Hi' in Hx; injection Hx as <-]|].
      destruct (H5 j x) as (r' & Hr' & ?); [destruct created; set_solver|done|done|]. exists r'. split; [by right|done].
Qed.

Lemma update_recipients_same alert l to_delete t :
  tables_ok t -> is_Some (al_rows t !! alert) ->
  let t' := (update_recipients alert l to_delete t).2 in tables_ok t' /\ same_but alert t t'.
Proof.
  revert to_delete t. induction l as [|r l IH]; intros to_delete t Ht Ha; cbn; [split; [done|apply same_but_refl]|].
  destruct (update_or_create alert r t) as [[[i created] t1]|] eqn:E; [|split; [done|apply same_but_refl]].
  destruct (update_or_create_ok _ _ _ _ _ _ Ht Ha E) as (Ht1 & Hs & _).
  destruct (IH (if created then to_delete else to_delete ∖ {[i]}) t1 Ht1) as [H1 H2]; [by rewrite (sb_alerts _ _ _ Hs)|].
  split; [done|]. eapply same_but_trans; [exact Hs|exact H2].
Qed.

(** The ids left to delete are of the alert. *)
Lemma update_recipients_subset alert l to_delete t to_delete' t' :
  update_recipients alert l to_delete t = (Ok to_delete', t') -> to_delete' ⊆ to_delete.
Proof.
  revert to_delete t. induction l as [|r l IH]; intros to_delete t; cbn; [by intros [= <- <-]|].
  destruct (update_or_create alert r t) as [[[i created] t1]|]; [|done]. intros H%IH. destruct created; set_solver.
Qed.

Lemma recipient_ids_spec alert t i : i ∈ recipient_ids alert t <-> exists r, rc_rows t !! i = Some r /\ rc_alert r = alert.
Proof.
  unfold recipient_ids. rewrite elem_of_dom. split.
  - intros [r [H1 H2]%map_lookup_filter_Some]. eauto.
  - intros (r & H1 & H2). exists r. by apply map_lookup_filter_Some.
Qed.

Lemma same_but_delete alert ids t :
  (forall i r, i ∈ ids -> rc_rows t !! i = Some r -> rc_alert r = alert) -> same_but alert t (delete_recipients ids t).
Proof.
  intros Hids. constructor; [done..|]. intros i r Hr. cbn. rewrite map_lookup_filter_Some. split; [|by intros [? _]].
  intros H. split; [done|]. intros Hi. by apply (Hids i r) in Hi.
Qed.

Lemma allowed_cases permissions a t k (P : reply -> Prop) : P (403, t) -> P (500, t) -> P k -> P (allowed permissions a t k).
Proof. intros H1 H2 H3. unfold allowed. by destruct (has_permission _ a) as [[]|]. Qed.

Lemma get_alert_Some s user o p least i t row :
  get_alert s user o p least i t = Some row -> al_rows t !! i = Some row /\ alert_visible s user o p least row = true.
Proof. unfold get_alert. destruct (al_rows t !! i) as [a|]; [|done]. destruct (alert_visible _ _ _ _ _ a) eqn:E; [|done]. by intros [= <-]. Qed.

(** What a request may do: create an alert with recipients, change one the user sees, with its
    recipients, or delete one. *)
Inductive effect (s : State) (user : Z) (t : Tables) : Tables -> Prop :=
  | NoEffect : effect s user t t
  | Created a t' : small (al_timespan a) = true /\ small (al_quantity a) = true /\ len (al_name a) <= 255 ->
      tables_ok t' -> same_but (al_next t) (new_alert a t) t' -> effect s user t t'
  | Changed i a o p least t' : get_alert s user o p least i t = Some a -> forall a',
      tables_ok t' -> same_but i (with_alerts (<[i := a']> (al_rows t)) t) t' -> effect s user t t'
  | Deleted i a o p least : get_alert s user o p least i t = Some a ->
      effect s user t {| al_rows := delete i (al_rows t); al_next := al_next t; rc_rows := filter (fun kv => rc_alert kv.2 <> i) (rc_rows t);
                         rc_next := rc_next t; notifs := filter (fun kv => kv.2 <> i) (notifs t) |}.

Lemma create_effect s a o p x t : tables_ok t -> effect s (auth_user a) t (create_project_alert s a o p x t).2.
Proof.
  intros Ht. unfold create_project_alert. apply (allowed_cases _ _ _ _ (fun r => effect s (auth_user a) t r.2)); [constructor..|].
  destruct (get_project_for_alert _ _ _ _) as [[project q]|]; [|constructor]. destruct (alert_fits x) eqn:E; cbn [negb]; [|constructor].
  set (row := set_fields x _). assert (small (al_timespan row) = true /\ small (al_quantity row) = true /\ len (al_name row) <= 255) as Hrow
    by (apply alert_fits_set; [done|cbn; split_and!; done]).
  pose proof (new_alert_ok row t Ht Hrow) as Ht1.
  assert (effect s (auth_user a) t (new_alert row t)) as H1 by (eapply Created; [exact Hrow|done|apply same_but_refl]).
  destruct (default (Some []) (pi_recipients x)) as [l|]; [|done].
  destruct (bulk_create (al_next t) l (new_alert row t)) as [t'|] eqn:Eb; [|done].
  eapply bulk_create_ok in Eb as [H2 H3]; [|done|cbn; by rewrite lookup_insert_eq].
  assert (effect s (auth_user a) t t') as H4 by (by eapply Created). by destruct (get_alert _ _ _ _ _ _ t').
Qed.

Lemma update_effect s a o p i x t : tables_ok t -> effect s (auth_user a) t (update_project_alert s a o p i x t).2.
Proof.
  intros Ht. unfold update_project_alert. apply (allowed_cases _ _ _ _ (fun r => effect s (auth_user a) t r.2)); [constructor..|].
  destruct (get_alert _ _ _ _ _ _ _) as [row|] eqn:Eg; [|constructor]. destruct (alert_fits x) eqn:E; cbn [negb]; [|constructor].
  pose proof (get_alert_Some _ _ _ _ _ _ _ _ Eg) as [Hi _].
  assert (tables_ok (with_alerts (<[i := set_fields x row]> (al_rows t)) t)) as Ht1.
  { apply write_alert_ok; [done|by eexists|]. apply alert_fits_set; [done|]. by eapply ok_small. }
  set (t1 := with_alerts _ t) in *. destruct (default (Some []) (pi_recipients x)) as [l|]; [|eapply Changed; [done..|apply same_but_refl]].
  pose proof (update_recipients_same i l (recipient_ids i t1) t1 Ht1) as H. cbn zeta in H.
  destruct H as [H1 H2]; [cbn; by rewrite lookup_insert_eq|].
  destruct (update_recipients i l (recipient_ids i t1) t1) as [[ids|] t2] eqn:Eu; cbn in *; [|by eapply Changed].
  eapply Changed; [done|by apply filter_recipients_ok|]. eapply same_but_trans; [exact H2|]. apply same_but_delete. intros j r Hj Hr.
  apply (update_recipients_subset _ _ _ _ _ _ Eu) in Hj. apply recipient_ids_spec in Hj as (r' & Hj & Ha).
  destruct (decide (rc_alert r = i)) as [|Hne]; [done|]. apply (sb_recipients _ _ _ H2 j r Hne) in Hr. congruence.
Qed.

Lemma delete_effect s a o p i t : effect s (auth_user a) t (delete_project_alert s a o p i t).2.
Proof.
  unfold delete_project_alert. apply (allowed_cases _ _ _ _ (fun r => effect s (auth_user a) t r.2)); [constructor..|].
  destruct (get_alert _ _ _ _ _ _ _) as [row|] eqn:Eg; [|constructor]. by eapply Deleted.
Qed.

Lemma handle_effect s a r t : tables_ok t -> effect s (auth_user a) t (handle_alert s a r t).2.
Proof. intros Ht. destruct r; [by apply create_effect|by apply update_effect|apply delete_effect]. Qed.

(** What a recipient carries besides its kind and address, and what an entry of the payload
    makes of it: a field that is not set stays, or gets its default in a new row. *)
Definition carried (r : RecipientRow) : adict ustr ustr * option (list ustr) := (rc_config r, rc_tags r).
Definition content (alert : Z) (k : RecipientType * ustr) (t : Tables) : option (adict ustr ustr * option (list ustr)) :=
  option_map (fun x => carried x.2) (find_recipient alert k.1 k.2 t).
Definition written (r : RecipientIn) (old : option (adict ustr ustr * option (list ustr))) : adict ustr ustr * option (list ustr) :=
  (default (from_option fst [] old) (prepared_config r), default (from_option snd (Some []) old) (ri_tags r)).
Definition settled (k : RecipientType * ustr) (l : list RecipientIn) (old : option (adict ustr ustr * option (list ustr))) :=
  foldl (fun o r => if decide (payload_key r = k) then Some (written r o) else o) old l.

Lemma content_of alert k t i r : tables_ok t -> rc_rows t !! i = Some r -> key r = (alert, k.1, k.2) -> content alert k t = Some (carried r).
Proof.
  intros Ht Hi Hk. unfold content. destruct (find_recipient alert k.1 k.2 t) as [[j x]|] eqn:E.
  - apply find_recipient_Some in E as [Hj Hx]. cbn. replace j with i in Hj; [by replace x with r by congruence|].
    eapply (ok_unique _ Ht); [done..|congruence].
  - by apply find_recipient_None with (i := i) (r := r) in E.
Qed.

Lemma content_ext alert k t t' :
  tables_ok t -> tables_ok t' -> (forall i r, key r = (alert, k.1, k.2) -> rc_rows t !! i = Some r <-> rc_rows t' !! i = Some r) -> content alert k t = content alert k t'.
Proof.
  intros Ht Ht' H. unfold content at 1. destruct (find_recipient alert k.1 k.2 t) as [[j x]|] eqn:E; cbn.
  - apply find_recipient_Some in E as [Hj Hx]. symmetry. eapply content_of; [done| |done]. by apply H.
  - unfold content. destruct (find_recipient alert k.1 k.2 t') as [[j x]|] eqn:E'; [|done]. apply find_recipient_Some in E' as [Hj Hx].
    apply H in Hj; [|done]. by apply find_recipient_None with (i := j) (r := x) in E.
Qed.

(** One entry writes the row of its key and leaves the others as they are. *)
Lemma update_or_create_content alert r t i created t' k :
  tables_ok t -> is_Some (al_rows t !! alert) -> update_or_create alert r t = Ok (i, created, t') ->
  content alert k t' = if decide (payload_key r = k) then Some (written r (content alert k t)) else content alert k t.
Proof.
  intros Ht Ha H. destruct (update_or_create_ok _ _ _ _ _ _ Ht Ha H) as (Ht' & _ & (row & Hi & Hk) & _ & _ & _ & Hold & Hrest). case_decide as Hr.
  - subst k. rewrite (content_of _ _ _ _ _ Ht' Hi Hk). f_equal. revert H. unfold update_or_create, content, payload_key, written.
    destruct (default (Some []) (ri_url r)) as [url|]; cbn; [|done]. destruct (negb _); cbn; [done|].
    destruct (find_recipient alert (ri_type r) url t) as [[j x]|]; intros [= <- <- <-]; cbn in Hi; rewrite lookup_insert_eq in Hi; by injection Hi as <-.
  - apply content_ext; [done..|]. intros j x Hx. destruct (decide (j = i)) as [->|Hji]; [|by rewrite Hrest].
    split; intros Hj; exfalso; apply Hr.
    + rewrite Hi in Hj. injection Hj as <-. destruct k, (payload_key r). cbn in *. congruence.
    + destruct (Hold _ _ Hj) as (y & Hy & Hxy). rewrite Hi in Hy. injection Hy as <-. destruct k, (payload_key r). cbn in *. congruence.
Qed.

Lemma update_recipients_content alert l to_delete t ids t' k :
  tables_ok t -> is_Some (al_rows t !! alert) -> update_recipients alert l to_delete t = (Ok ids, t') -> content alert k t' = settled k l (content alert k t).
Proof.
  revert to_delete t. induction l as [|r l IH]; intros to_delete t Ht Ha; cbn; [by intros [= <- <-]|].
  destruct (update_or_create alert r t) as [[[i created] t1]|] eqn:E; [|done].
  destruct (update_or_create_ok _ _ _ _ _ _ Ht Ha E) as (Ht1 & Hs & _). intros H. eapply IH in H; [|done|by rewrite (sb_alerts _ _ _ Hs)].
  rewrite H, (update_or_create_content _ _ _ _ _ _ k Ht Ha E). done.
Qed.

(** The requests keep the tables consistent: every recipient and notification belongs to
    an alert, an alert has one recipient of a kind and address at most, ids are not given
    twice, and the numbers and names fit their columns. *)
Theorem alert_tables_consistent s a r t : tables_ok t -> tables_ok (handle_alert s a r t).2.
Proof.
  intros Ht. destruct (handle_effect s a r t Ht) as [|row t' _ H _|i row o p least t' _ row' H _|i row o p least _]; [done..|].
  destruct Ht. constructor; cbn.
  - intros j Hj. apply lookup_delete_None. auto.
  - intros j Hj. apply map_lookup_filter_None. left. auto.
  - intros j x [Hx Hne]%map_lookup_filter_Some. cbn in Hne. rewrite lookup_delete_ne by done. eauto.
  - intros j j' x x' [? _]%map_lookup_filter_Some [? _]%map_lookup_filter_Some. eauto.
  - intros j x [Hx Hne]%map_lookup_filter_Some. cbn in Hne. rewrite lookup_delete_ne by done. eauto.
  - intros j x [_ ?]%lookup_delete_Some. eauto.
Qed.

Lemma invisible s user o p least x :
  (forall q, projects s !! al_project x = Some q -> role_in s (p_org q) user = None) -> alert_visible s user o p least x = false.
Proof.
  intros H. unfold alert_visible. destruct (projects s !! al_project x) as [q|]; [|done]. rewrite (H q) by done.
  destruct (orgs s !! p_org q); [|apply andb_false_r]. by rewrite !andb_false_r.
Qed.

(** No request of a user changes an alert of an organization the user is not in, its
    recipients or its notifications. *)
Theorem foreign_alerts_untouched s a r t i x :
  tables_ok t -> al_rows t !! i = Some x ->
  (forall q, projects s !! al_project x = Some q -> role_in s (p_org q) (auth_user a) = None) ->
  let t' := (handle_alert s a r t).2 in
  al_rows t' !! i = Some x /\ (forall j c, rc_alert c = i -> rc_rows t !! j = Some c <-> rc_rows t' !! j = Some c)
  /\ (forall j, notifs t !! j = Some i <-> notifs t' !! j = Some i).
Proof.
  intros Ht Hi Hx t'. assert (forall k row o p least, get_alert s (auth_user a) o p least k t = Some row -> k <> i) as Hne.
  { intros k row o p least [H1 H2]%get_alert_Some ->. rewrite Hi in H1. injection H1 as <-. by rewrite invisible in H2. }
  subst t'. destruct (handle_effect s a r t Ht) as [|row t' _ _ Hs|k row o p least t' Hg row' _ Hs|k row o p least Hg].
  - done.
  - assert (al_next t <> i) as Hn by (intros <-; by rewrite (ok_alert_ids _ Ht) in Hi).
    destruct Hs as [-> -> H]. cbn. rewrite lookup_insert_ne by done. split_and!; [done| |done]. intros j c <-. by apply H.
  - pose proof (Hne _ _ _ _ _ Hg) as Hn. destruct Hs as [-> -> H]. cbn. rewrite lookup_insert_ne by done. split_and!; [done| |done].
    intros j c <-. by apply H.
  - pose proof (Hne _ _ _ _ _ Hg) as Hn. cbn. rewrite lookup_delete_ne by done. split_and!; [done|..].
    + intros j c <-. rewrite map_lookup_filter_Some. naive_solver.
    + intros j. rewrite map_lookup_filter_Some. naive_solver.
Qed.

(** C35: After a change that succeeds the alert has the fields of the payload and exactly its
    recipients, told apart by kind and address, one row each; a recipient that was there
    before keeps its row; and the configuration and the tags of each recipient are those the
    payload sets for it (the last entry of it that does), and else those it had, or none in
    a new row. *)
Theorem recipients_replaced s a o p i x t t' :
  tables_ok t -> update_project_alert s a o p i x t = (200, t') ->
  exists row l, get_alert s (auth_user a) o p MEMBER i t = Some row /\ default (Some []) (pi_recipients x) = Some l
    /\ al_rows t' !! i = Some (set_fields x row)
    /\ (forall k, recipient_keys i t' k <-> k ∈ map payload_key l)
    /\ (forall j r, rc_rows t !! j = Some r -> rc_alert r = i -> (rc_type r, rc_url r) ∈ map payload_key l ->
        exists r', rc_rows t' !! j = Some r' /\ key r' = key r)
    /\ (forall j j' r r', rc_rows t' !! j = Some r -> rc_rows t' !! j' = Some r' -> key r = key r' -> j = j')
    /\ (forall j r, rc_rows t' !! j = Some r -> rc_alert r = i ->
        settled (rc_type r, rc_url r) l (content i (rc_type r, rc_url r) t) = Some (carried r)).
Proof.
  intros Ht. unfold update_project_alert, allowed. destruct (has_permission _ a) as [[]|]; try done.
  destruct (get_alert s (auth_user a) o p MEMBER i t) as [row|] eqn:Eg; [|done]. destruct (alert_fits x) eqn:E; cbn [negb]; [|done].
  pose proof (get_alert_Some _ _ _ _ _ _ _ _ Eg) as [Hi _].
  assert (tables_ok (with_alerts (<[i := set_fields x row]> (al_rows t)) t)) as Ht1.
  { apply write_alert_ok; [done|by eexists|]. apply alert_fits_set; [done|]. by eapply ok_small. }
  set (t1 := with_alerts _ t) in *. destruct (default (Some []) (pi_recipients x)) as [l|]; [|done].
  assert (is_Some (al_rows t1 !! i)) as Hi1 by (cbn; by rewrite lookup_insert_eq).
  pose proof (update_recipients_same i l (recipient_ids i t1) t1 Ht1 Hi1) as [Ht2 Hs].
  destruct (update_recipients i l (recipient_ids i t1) t1) as [[ids|] t2] eqn:Eu; [|done]. cbn in Ht2, Hs. intros [= <-].
  pose proof (fun k => update_recipients_content i l _ t1 ids t2 k Ht1 Hi1 Eu) as Hcontent. eapply update_recipients_ok in Eu as (H1 & H2 & H3 & H4 & H5); [|done..|by intros j (r & Hr & _)%recipient_ids_spec].
  assert (forall k, k ∈ map payload_key l <-> exists r, r ∈ l /\ k = payload_key r) as Hin.
  { intros k. rewrite (list_elem_of_fmap payload_key l k). naive_solver. }
  exists row, l. split_and!; try done.
  - cbn. rewrite (sb_alerts _ _ _ Hs). cbn. by rewrite lookup_insert_eq.
  - intros [ty url]. rewrite Hin. split.
    + intros (j & r & [Hr Hj]%map_lookup_filter_Some & Hk). cbn in Hk, Hj.
      assert (exists r', r' ∈ l /\ key r = (i, (payload_key r').1, (payload_key r').2)) as (r' & Hr' & Hk').
      { destruct (decide (j ∈ recipient_ids i t1)) as [Hd|Hd]; [by eapply H5|]. destruct (H2 j r Hd Hr) as [[r0 Hr0]|?]; [|done].
        destruct (H1 j r0 Hr0) as (r1 & Hr1 & Hk1). rewrite Hr in Hr1. injection Hr1 as <-. destruct Hd. apply recipient_ids_spec. exists r0. split; [done|].
        unfold key in *. congruence. }
      exists r'. split; [done|]. rewrite Hk in Hk'. by injection Hk' as -> ->.
    + intros (r & Hr & Hk). destruct (H3 r Hr) as (j & row' & Hj & Hrow & Hk'). exists j, row'. cbn. rewrite map_lookup_filter_Some. split; [done|].
      rewrite Hk'. by destruct Hk.
  - intros j r Hr Ha Hk. destruct (H1 j r Hr) as (r' & Hr' & Hk'). exists r'. split; [|done]. cbn. apply map_lookup_filter_Some. split; [done|]. cbn.
    intros Hd. apply Hin in Hk as (q & Hq & Hkq). destruct (H3 q Hq) as (j' & row' & Hj' & Hrow & Hkr). apply Hj'.
    replace j' with j; [done|]. eapply (ok_unique _ Ht2); [done|done|]. rewrite Hk', Hkr, <- Hkq. unfold key. cbn. by rewrite Ha.
  - intros j j' r r' [Hj _]%map_lookup_filter_Some [Hj' _]%map_lookup_filter_Some. by eapply (ok_unique _ Ht2).
  - intros j r [Hj _]%map_lookup_filter_Some Ha. rewrite (content_ext i _ t t1), <- Hcontent by done. eapply content_of; [done..|]. unfold key. by rewrite Ha.
Qed.

(** ** Witnesses and examples *)

Definition ex_alert : AlertRow := {| al_project := 1; al_name := u "a"; al_timespan := Some 1; al_quantity := Some 2; al_uptime := false |}.
Definition ex_recipient : RecipientRow :=
  {| rc_alert := 1; rc_type := DISCORD; rc_url := u "https://d.example/"; rc_config := []; rc_tags := Some [u "release"] |}.
Definition ex_tables : Tables := {| al_rows := {[1 := ex_alert]}; al_next := 2; rc_rows := {[1 := ex_recipient]}; rc_next := 2; notifs := {[1 := 1]} |}.

Definition no_fields : ProjectAlertIn := {| pi_name := None; pi_timespan := None; pi_quantity := None; pi_uptime := None; pi_recipients := None |}.
Definition zulip_in : RecipientIn :=
  {| ri_type := ZULIP; ri_url := Some (Some (u "https://z.example/")); ri_tags := None; ri_zulip := [(u "bot_email", u "b"); (u "api_key", u "k")] |}.
Definition discord_in : RecipientIn := {| ri_type := DISCORD; ri_url := Some (Some (u "https://d.example/")); ri_tags := None; ri_zulip := [] |}.
Definition two_recipients : ProjectAlertIn :=
  {| pi_name := None; pi_timespan := Some None; pi_quantity := None; pi_uptime := Some true; pi_recipients := Some (Some [zulip_in; discord_in]) |}.
Definition null_recipients : ProjectAlertIn :=
  {| pi_name := Some (Some (u "n")); pi_timespan := None; pi_quantity := None; pi_uptime := None; pi_recipients := Some None |}.

Lemma ex_tables_ok : tables_ok ex_tables.
Proof.
  constructor; cbn.
  - intros i Hi. apply lookup_singleton_ne. lia.
  - intros i Hi. apply lookup_singleton_ne. lia.
  - intros i r [<- <-]%lookup_singleton_Some. by eexists.
  - by intros i j r r' [<- <-]%lookup_singleton_Some [<- <-]%lookup_singleton_Some.
  - intros i r [<- <-]%lookup_singleton_Some. by eexists.
  - by intros i r [<- <-]%lookup_singleton_Some.
Qed.

Lemma alert_tables_consistent_witness :
  tables_ok (handle_alert ex_state (session 1) (UpdateAlert (u "o") (u "x") 1 two_recipients) ex_tables).2.
Proof. apply (alert_tables_consistent ex_state (session 1) (UpdateAlert (u "o") (u "x") 1 two_recipients) ex_tables), ex_tables_ok. Defined.

Lemma foreign_alerts_untouched_witness :
  let t' := (handle_alert ex_state (session 4) (DeleteAlert (u "o") (u "x") 1) ex_tables).2 in
  al_rows t' !! 1 = Some ex_alert /\ (forall j c, rc_alert c = 1 -> rc_rows ex_tables !! j = Some c <-> rc_rows t' !! j = Some c)
  /\ (forall j, notifs ex_tables !! j = Some 1 <-> notifs t' !! j = Some 1).
Proof.
  apply (foreign_alerts_untouched ex_state (session 4) (DeleteAlert (u "o") (u "x") 1) ex_tables 1 ex_alert ex_tables_ok); [done|].
  intros q Hq. vm_compute in Hq. injection Hq as <-. by vm_compute.
Defined.

Lemma recipients_replaced_witness :
  exists row l, get_alert ex_state 1 (u "o") (u "x") MEMBER 1 ex_tables = Some row /\ default (Some []) (pi_recipients two_recipients) = Some l
    /\ al_rows (update_project_alert ex_state (session 1) (u "o") (u "x") 1 two_recipients ex_tables).2 !! 1 = Some (set_fields two_recipients row)
    /\ (forall k, recipient_keys 1 (update_project_alert ex_state (session 1) (u "o") (u "x") 1 two_recipients ex_tables).2 k <-> k ∈ map payload_key l)
    /\ (forall j r, rc_rows ex_tables !! j = Some r -> rc_alert r = 1 -> (rc_type r, rc_url r) ∈ map payload_key l ->
        exists r', rc_rows (update_project_alert ex_state (session 1) (u "o") (u "x") 1 two_recipients ex_tables).2 !! j = Some r' /\ key r' = key r)
    /\ (forall j j' r r', rc_rows (update_project_alert ex_state (session 1) (u "o") (u "x") 1 two_recipients ex_tables).2 !! j = Some r ->
        rc_rows (update_project_alert ex_state (session 1) (u "o") (u "x") 1 two_recipients ex_tables).2 !! j' = Some r' -> key r = key r' -> j = j')
    /\ (forall j r, rc_rows (update_project_alert ex_state (session 1) (u "o") (u "x") 1 two_recipients ex_tables).2 !! j = Some r -> rc_alert r = 1 ->
        settled (rc_type r, rc_url r) l (content 1 (rc_type r, rc_url r) ex_tables) = Some (carried r)).
Proof.
  apply (recipients_replaced ex_state (session 1) (u "o") (u "x") 1 two_recipients ex_tables
    (update_project_alert ex_state (session 1) (u "o") (u "x") 1 two_recipients ex_tables).2 ex_tables_ok).
  vm_compute. reflexivity.
Defined.

(** Tags the payload does not mention stay, others are replaced, and a new recipient gets its
    configuration. *)
Example tags_of_recipients :
  settled (DISCORD, u "https://d.example/") [discord_in] (Some ([], Some [u "release"])) = Some ([], Some [u "release"])
  /\ settled (DISCORD, u "https://d.example/") [{| ri_type := DISCORD; ri_url := Some (Some (u "https://d.example/")); ri_tags := Some (Some [u "os"]); ri_zulip := [] |}]
      (Some ([], Some [u "release"])) = Some ([], Some [u "os"])
  /\ settled (ZULIP, u "https://z.example/") [zulip_in] None = Some ([(u "bot_email", u "b"); (u "api_key", u "k")], Some []).
Proof. split_and!; by vm_compute. Qed.

(** With [alert_recipients] null the request ends in an error after the alert was created. *)
Example null_recipients_leave_alert :
  let r := create_project_alert ex_state (session 1) (u "o") (u "x") null_recipients ex_tables in
  r.1 = 500 /\ al_rows r.2 !! 2 = Some {| al_project := 1; al_name := u "n"; al_timespan := None; al_quantity := None; al_uptime := false |}.
Proof. split; by vm_compute. Qed.

(** A change that does not mention the recipients deletes them. *)
Example absent_recipients_deleted :
  let r := update_project_alert ex_state (session 1) (u "o") (u "x") 1 no_fields ex_tables in r.1 = 200 /\ rc_rows r.2 !! 1 = None.
Proof. split; by vm_compute. Qed.

(** A member who may neither create nor delete an alert may change it. *)
Example member_may_change :
  (create_project_alert ex_state (session 3) (u "o") (u "x") two_recipients ex_tables).1 = 404
  /\ (delete_project_alert ex_state (session 3) (u "o") (u "x") 1 ex_tables).1 = 404
  /\ (update_project_alert ex_state (session 3) (u "o") (u "x") 1 two_recipients ex_tables).1 = 200.
Proof. split_and!; by vm_compute. Qed.
