(* ===== verification/MonitorApi.v ===== *)
(** * The endpoints of monitors and status pages

    [apps/uptime/api.py] without the heartbeat (in [Uptime]) and [apps/uptime/schema.py]: the
    check of a monitor's address when it is saved, and the requests that create, change, delete
    and list monitors, their checks and status pages. Organizations and their members are
    those of [Membership]. *)
From S2P Require Import Prelude PyStr PyValue UrlValidation BitField Membership.

Inductive MonitorType := PING | GET | POST | PORT | SSL | HEARTBEAT.

#[export] Instance MonitorType_eq_dec : EqDecision MonitorType.
Proof. solve_decision. Defined.

Definition is_http (ty : MonitorType) : bool := match ty with PING | GET | POST => true | _ => false end.

(** A payload whose fields have their types, lengths and, for the interval, the time-out and
    the threshold, their bounds. *)
Record MonitorIn := {
  mi_type : MonitorType; mi_name : ustr; mi_url : ustr; mi_expected_status : option Z; mi_expected_body : ustr; mi_interval : Z;
  mi_timeout : option Z; mi_threshold : Z; mi_project : option ustr }.

Definition with_url (url : ustr) (m : MonitorIn) : MonitorIn :=
  {| mi_type := mi_type m; mi_name := mi_name m; mi_url := url; mi_expected_status := mi_expected_status m; mi_expected_body := mi_expected_body m;
     mi_interval := mi_interval m; mi_timeout := mi_timeout m; mi_threshold := mi_threshold m; mi_project := mi_project m |}.

(** [urlparse(url).port] of an ASCII URL whose host could be read. *)
Definition port_of (netloc : ustr) : res (option Z) :=
  let hostinfo := after_last 64 netloc in
  let port :=
    match partition 91 hostinfo with
    | (_, true, bracketed) => (partition 58 (partition 93 bracketed).2).2
    | _ => (partition 58 hostinfo).2
    end in
  if negb (truthy port) then Ok None
  else if negb (forallb is_digit port) then Raise ValueError
  else if 65535 <? digits_value port then Raise ValueError else Ok (Some (digits_value port)).

Definition urlparse_port (url : ustr) : res (option Z) :=
  let url := lstrip_by (fun c => c <=? 32) url in
  let url := filter (fun c => c <> 9 /\ c <> 13 /\ c <> 10) url in
  let url := strip_scheme url in
  if startswith (u "//") url then port_of (until (one_of "/?#") (drop 2 url)) else Ok None.

(** [s.replace(old, new, 1)] *)
Definition replace_first (old new s : ustr) : ustr :=
  match find_str old s with Some i => take i s ++ new ++ drop (i + length old) s | None => s end.

Section api.
Context (GLITCHTIP_UPTIME_ALLOW_PRIVATE_IPS : bool) (getaddrinfo : ustr -> res (list ustr)) (URLValidator : ustr -> bool).

(** The addresses of a host; a failing lookup is let through. *)
Definition check_resolved (hostname : ustr) : res unit :=
  match getaddrinfo hostname with
  | Raise OSError => Ok tt
  | Raise e => Raise e
  | Ok infos => let* b := any_blocked infos in if (b : bool) then Raise ValueError else Ok tt
  end.

Definition check_http_host (url : ustr) : res unit :=
  let* hostname := urlparse_hostname url in
  match hostname with
  | None => Ok tt
  | Some h => match is_ip_blocked h with Ok true => Raise ValueError | _ => check_resolved h end
  end.

(** The address of a port monitor as host and port. *)
Definition normal_port_url (url : ustr) : res ustr :=
  let url := replace_first (u "http://") (u "//") url in
  let url := if startswith (u "//") url then url else u "//" ++ url in
  let* hostname := urlparse_hostname url in
  let* port := urlparse_port url in
  match hostname, port with
  | Some h, Some p => if truthy h && negb (p =? 0) then Ok (h ++ u ":" ++ str_of_Z p) else Raise ValueError
  | _, _ => Raise ValueError
  end.

(** [MonitorIn.validate]; every refusal, answered by 422, is a [ValueError]. *)
Definition validate (m : MonitorIn) : res MonitorIn :=
  let ty := mi_type m in
  if negb (truthy (mi_url m)) && (is_http ty || bool_decide (ty = SSL)) then Raise ValueError else
  let* _ := if is_http ty then
              if negb (URLValidator (mi_url m)) then Raise ValueError
              else if GLITCHTIP_UPTIME_ALLOW_PRIVATE_IPS then Ok tt else check_http_host (mi_url m)
            else Ok tt in
  if bool_decide (mi_expected_status m = None) && bool_decide (ty ∈ [GET; POST]) then Raise ValueError else
  if bool_decide (ty = PORT) then
    let* url := normal_port_url (mi_url m) in
    let m := with_url url m in
    let* _ := if GLITCHTIP_UPTIME_ALLOW_PRIVATE_IPS then Ok tt else check_resolved (default [] (head (split_on 58 (mi_url m)))) in
    Ok m
  else Ok m.

(** ** The tables *)

Record MonitorRow := { mr_org : Z; mr_project : option Z; mr_endpoint : option Z; mr_in : MonitorIn }.
Record StatusPage := { sp_org : Z; sp_name : ustr; sp_public : bool; sp_monitors : list Z }.
Record CheckRow := { ck_monitor : Z; ck_start : Z; ck_is_change : bool }.

(** [probes] are the monitors put on the queue to be checked. *)
Record Monitors := { mr_rows : gmap Z MonitorRow; mr_next : Z; sp_rows : gmap Z StatusPage; sp_next : Z; ck_rows : list CheckRow; probes : list Z }.

Definition with_monitors m t := {| mr_rows := m; mr_next := mr_next t; sp_rows := sp_rows t; sp_next := sp_next t; ck_rows := ck_rows t; probes := probes t |}.

(** What the columns hold beyond the payload's checks: a status of 15 bits, a body of 2000
    characters. *)
Definition monitor_fits (m : MonitorIn) : bool :=
  match mi_expected_status m with Some n => (0 <=? n) && (n <? 2 ^ 15) | None => true end && (len (mi_expected_body m) <=? 2000).

(** [Monitor.save], with the UUID for a heartbeat that has none. *)
Definition save (uuid4 : Z) (i : Z) (r : MonitorRow) (t : Monitors) : Monitors :=
  let heartbeat := bool_decide (mi_type (mr_in r) = HEARTBEAT) in
  let endpoint := if heartbeat then Some (default uuid4 (mr_endpoint r)) else mr_endpoint r in
  {| mr_rows := <[i := {| mr_org := mr_org r; mr_project := mr_project r; mr_endpoint := endpoint; mr_in := mr_in r |}]> (mr_rows t);
     mr_next := mr_next t; sp_rows := sp_rows t; sp_next := sp_next t; ck_rows := ck_rows t;
     probes := if heartbeat then probes t else probes t ++ [i] |}.

(** The organization of a slug of which the user is a member. *)
Definition member_org (s : State) (user : Z) (organization_slug : ustr) : option (Z * Organization) := org_with_role s user organization_slug MEMBER.

(** [get_monitor_queryset] *)
Definition monitor_visible (s : State) (user : Z) (organization_slug : ustr) (r : MonitorRow) : bool :=
  match orgs s !! mr_org r with
  | Some o => ustr_eqb (slug o) organization_slug && bool_decide (is_Some (role_in s (mr_org r) user))
  | None => false
  end.

Definition get_monitor (s : State) (user : Z) (organization_slug : ustr) (id : Z) (t : Monitors) : option MonitorRow :=
  match mr_rows t !! id with Some r => if monitor_visible s user organization_slug r then Some r else None | None => None end.

Definition list_monitors (s : State) (user : Z) (organization_slug : ustr) (t : Monitors) : list (Z * MonitorRow) :=
  filter (fun kv => monitor_visible s user organization_slug kv.2) (map_to_list (mr_rows t)).

(** [int(project_id)] of a filter by id, for ASCII digits. *)
Definition id_of_text (s : ustr) : res Z := if truthy s && forallb is_digit s then Ok (digits_value s) else Raise ValueError.

Definition project_in (s : State) (org id : Z) : option Z :=
  match projects s !! id with Some p => if p_org p =? org then Some id else None | None => None end.

Definition create_monitor (s : State) (user : Z) (uuid4 : Z) (organization_slug : ustr) (m : MonitorIn) (t : Monitors) : Z * Monitors :=
  match validate m with
  | Raise _ => (422, t)
  | Ok m =>
      match member_org s user organization_slug with
      | None => (404, t)
      | Some (o, _) =>
          match (if otruthy (mi_project m) then let* id := id_of_text (default [] (mi_project m)) in Ok (project_in s o id) else Ok None) with
          | Raise _ => (500, t)
          | Ok project =>
              if negb (monitor_fits m) then (500, t) else
              let i := mr_next t in
              let t := save uuid4 i {| mr_org := o; mr_project := project; mr_endpoint := None; mr_in := m |} t in
              (201, {| mr_rows := mr_rows t; mr_next := i + 1; sp_rows := sp_rows t; sp_next := sp_next t; ck_rows := ck_rows t; probes := probes t |})
          end
      end
  end.

(** [setattr(monitor, "project", "")] raises: an empty text is not a project. *)
Definition update_monitor (s : State) (user : Z) (uuid4 : Z) (organization_slug : ustr) (id : Z) (m : MonitorIn) (t : Monitors) : Z * Monitors :=
  match validate m with
  | Raise _ => (422, t)
  | Ok m =>
      match get_monitor s user organization_slug id t with
      | None => (404, t)
      | Some r =>
          match (match mi_project m with
                 | None => Ok None
                 | Some [] => Raise ValueError
                 | Some p => let* id := id_of_text p in Ok (project_in s (mr_org r) id)
                 end) with
          | Raise _ => (500, t)
          | Ok project =>
              if negb (monitor_fits m) then (500, t)
              else (200, save uuid4 id {| mr_org := mr_org r; mr_project := project; mr_endpoint := mr_endpoint r; mr_in := m |} t)
          end
      end
  end.

(** With its checks and its places on status pages. *)
Definition delete_monitor (s : State) (user : Z) (organization_slug : ustr) (id : Z) (t : Monitors) : Z * Monitors :=
  match get_monitor s user organization_slug id t with
  | None => (404, t)
  | Some _ =>
      (204, {| mr_rows := delete id (mr_rows t); mr_next := mr_next t;
               sp_rows := (fun p => {| sp_org := sp_org p; sp_name := sp_name p; sp_public := sp_public p;
                                       sp_monitors := filter (fun i => i <> id) (sp_monitors p) |}) <$> sp_rows t;
               sp_next := sp_next t; ck_rows := filter (fun c => ck_monitor c <> id) (ck_rows t); probes := probes t |})
  end.

(** In the order of the rows; the endpoint gives the newest first. *)
Definition list_monitor_checks (s : State) (user : Z) (organization_slug : ustr) (id : Z) (is_change : option bool) (t : Monitors) : list CheckRow :=
  match get_monitor s user organization_slug id t with
  | None => []
  | Some _ => filter (fun c => ck_monitor c = id /\ default (ck_is_change c) is_change = ck_is_change c) (ck_rows t)
  end.

(** The slug of the organization is not used. *)
Definition list_status_pages (s : State) (user : Z) (organization_slug : ustr) (t : Monitors) : list (Z * StatusPage) :=
  filter (fun kv => is_Some (role_in s (sp_org kv.2) user)) (map_to_list (sp_rows t)).

Definition create_status_page (s : State) (user : Z) (organization_slug name : ustr) (is_public : bool) (t : Monitors) : Z * Monitors :=
  match member_org s user organization_slug with
  | None => (404, t)
  | Some (o, _) =>
      (201, {| mr_rows := mr_rows t; mr_next := mr_next t;
               sp_rows := <[sp_next t := {| sp_org := o; sp_name := name; sp_public := is_public; sp_monitors := [] |}]> (sp_rows t);
               sp_next := sp_next t + 1; ck_rows := ck_rows t; probes := probes t |})
  end.

Inductive MonitorRequest :=
  | CreateMonitor (organization_slug : ustr) (m : MonitorIn)
  | UpdateMonitor (organization_slug : ustr) (id : Z) (m : MonitorIn)
  | DeleteMonitor (organization_slug : ustr) (id : Z)
  | CreateStatusPage (organization_slug name : ustr) (is_public : bool).

Definition handle_monitor (s : State) (user uuid4 : Z) (r : MonitorRequest) (t : Monitors) : Z * Monitors :=
  match r with
  | CreateMonitor o m => create_monitor s user uuid4 o m t
  | UpdateMonitor o i m => update_monitor s user uuid4 o i m t
  | DeleteMonitor o i => delete_monitor s user o i t
  | CreateStatusPage o n p => create_status_page s user o n p t
  end.
End api.

(** ** What is accepted *)

Section accepted.
Context (getaddrinfo : ustr -> res (list ustr)) (URLValidator : ustr -> bool).

(** None of the addresses of a host is internal, or it has none now. *)
Definition resolves_public (h : ustr) : Prop :=
  getaddrinfo h = Raise OSError \/ exists infos, getaddrinfo h = Ok infos /\ Forall (fun a => is_ip_blocked a = Ok false) infos.

Lemma check_resolved_ok h : check_resolved getaddrinfo h = Ok tt -> resolves_public h.
Proof.
  unfold check_resolved, resolves_public. destruct (getaddrinfo h) as [infos|[]]; try done; [|by left]. intros H. right. exists infos. split; [done|].
  induction infos as [|a infos IH]; [constructor|]. cbn in H. destruct (is_ip_blocked a) as [[]|] eqn:E; cbn in H; try done. constructor; auto.
Qed.

Lemma port_of_bounds netloc p : port_of netloc = Ok (Some p) -> 0 <= p <= 65535.
Proof.
  unfold port_of. set (port := match partition 91 _ with (_, true, _) => _ | _ => _ end). clearbody port.
  destruct (truthy port); cbn; [|done]. destruct (forallb is_digit port) eqn:Ed; cbn; [|done].
  destruct (Z.ltb_spec 65535 (digits_value port)); [done|]. intros [= <-]. split; [|lia].
  assert (forall a, 0 <= a -> 0 <= fold_left (fun a c => a * 10 + (c - 48)) port a) as Hd; [|by apply (Hd 0)].
  clear - Ed. induction port as [|c port IH]; intros a Ha; cbn; [done|]. cbn in Ed. apply andb_prop in Ed as [Hc Ed].
  apply IH; [done|]. unfold is_digit, in_range in Hc. lia.
Qed.

Lemma normal_port_url_ok url url' :
  normal_port_url url = Ok url' -> exists h p, url' = h ++ u ":" ++ str_of_Z p /\ truthy h = true /\ 0 < p <= 65535.
Proof.
  unfold normal_port_url. set (x := if startswith _ _ then _ else _). clearbody x.
  destruct (urlparse_hostname x) as [[h|]|]; cbn [res_bind]; try done; unfold urlparse_port;
    destruct (startswith (u "//") _); cbn [res_bind]; try done;
    destruct (port_of _) as [[p|]|] eqn:E; cbn [res_bind]; try done.
  apply port_of_bounds in E. destruct (truthy h) eqn:Eh; cbn; [|done]. destruct (Z.eqb_spec p 0); cbn; [done|]. intros [= <-].
  exists h, p. split_and!; [done|done|lia|lia].
Qed.

(** Without leave for private addresses, a saved address of an HTTP monitor is a valid URL
    whose host is not an internal address and has none among its own; a port monitor is saved
    as a host and a port from 1 to 65535, and the part before the first colon resolves to no
    internal address. Nothing else of the payload is changed. *)
Theorem accepted_target_public m m' :
  validate false getaddrinfo URLValidator m = Ok m' ->
  m' = with_url (mi_url m') m
  /\ (is_http (mi_type m) = true -> mi_url m' = mi_url m /\ URLValidator (mi_url m) = true
      /\ exists ho, urlparse_hostname (mi_url m) = Ok ho /\ (forall h, ho = Some h -> is_ip_blocked h <> Ok true /\ resolves_public h))
  /\ (mi_type m = PORT -> (exists h p, mi_url m' = h ++ u ":" ++ str_of_Z p /\ truthy h = true /\ 0 < p <= 65535)
      /\ resolves_public (default [] (head (split_on 58 (mi_url m'))))).
Proof.
  unfold validate. destruct (negb (truthy (mi_url m)) && _); [done|].
  destruct (is_http (mi_type m)) eqn:Eh.
  - destruct (URLValidator (mi_url m)) eqn:Ev; cbn [negb res_bind]; [|done]. unfold check_http_host.
    destruct (urlparse_hostname (mi_url m)) as [ho|] eqn:Eu; cbn [res_bind]; [|done]. intros H.
    assert (mi_type m <> PORT) as Hp by (intros Hp; by rewrite Hp in Eh). rewrite (bool_decide_eq_false_2 (mi_type m = PORT)) in H by done.
    set (c := match ho with Some _ => _ | None => _ end) in H. destruct c as [[]|] eqn:Ec; cbn [res_bind] in H; [|done].
    destruct (bool_decide (mi_expected_status m = None) && _); [done|]. injection H as <-. split; [by destruct m|]. split; [|done].
    intros _. split_and!; [done..|]. exists ho. split; [done|]. intros h ->. subst c.
    destruct (is_ip_blocked h) as [[]|]; [done|split; [done|by apply check_resolved_ok]..].
  - cbn [res_bind]. destruct (bool_decide (mi_expected_status m = None) && _); [done|]. destruct (decide (mi_type m = PORT)) as [Hp|Hp].
    + rewrite bool_decide_eq_true_2 by done. destruct (normal_port_url (mi_url m)) as [url'|] eqn:En; cbn [res_bind]; [|done].
      destruct (check_resolved _ _) as [[]|] eqn:Ec; cbn [res_bind]; [|done]. intros [= <-]. split; [done|]. split; [done|]. intros _.
      split; [by eapply normal_port_url_ok|by apply check_resolved_ok].
    + rewrite bool_decide_eq_false_2 by done. intros [= <-]. split; [by destruct m|]. done.
Qed.
End accepted.

(** ** Tenants *)

Record monitors_ok (s : State) (t : Monitors) : Prop := {
  mo_ids : forall i, mr_next t <= i -> mr_rows t !! i = None;
  mo_pages : forall i, sp_next t <= i -> sp_rows t !! i = None;
  mo_project : forall i r, mr_rows t !! i = Some r -> forall p, mr_project r = Some p -> exists q, projects s !! p = Some q /\ p_org q = mr_org r;
  mo_endpoint : forall i r, mr_rows t !! i = Some r -> mi_type (mr_in r) = HEARTBEAT -> is_Some (mr_endpoint r) }.

Lemma project_in_Some s o i p : project_in s o i = Some p -> exists q, projects s !! p = Some q /\ p_org q = o.
Proof. unfold project_in. destruct (projects s !! i) as [q|] eqn:E; [|done]. destruct (Z.eqb_spec (p_org q) o); [|done]. intros [= <-]. eauto. Qed.

(** Saving a monitor of an organization with a project of it. *)
Lemma monitor_save_ok s uuid4 i r t :
  monitors_ok s t -> i < mr_next t -> (forall p, mr_project r = Some p -> exists q, projects s !! p = Some q /\ p_org q = mr_org r) ->
  monitors_ok s (save uuid4 i r t).
Proof.
  intros [] Hi Hp. constructor; cbn; [|done|..].
  - intros j Hj. rewrite lookup_insert_ne by lia. auto.
  - intros j x [[<- <-]|[_ ?]]%lookup_insert_Some; [done|eauto].
  - intros j x [[<- <-]|[_ ?]]%lookup_insert_Some; [|eauto]. cbn. intros H. rewrite bool_decide_eq_true_2 by done. by eexists.
Qed.

Lemma get_monitor_Some s user o i t r : get_monitor s user o i t = Some r -> mr_rows t !! i = Some r /\ is_Some (role_in s (mr_org r) user).
Proof.
  unfold get_monitor, monitor_visible. destruct (mr_rows t !! i) as [x|]; [|done]. destruct (orgs s !! mr_org x); [|done].
  destruct (ustr_eqb _ _); [|done]. destruct (bool_decide _) eqn:E; [|done]. intros [= <-]. by apply bool_decide_eq_true in E.
Qed.

Section requests.
Context (allow : bool) (getaddrinfo : ustr -> res (list ustr)) (URLValidator : ustr -> bool).
Notation handle := (handle_monitor allow getaddrinfo URLValidator).

(** A monitor is tied to a project of its own organization or to none, and a heartbeat has
    an endpoint, whatever requests are made. *)
Theorem monitors_stay_consistent s user uuid4 r t : monitors_ok s t -> monitors_ok s (handle s user uuid4 r t).2.
Proof.
  intros Ht. assert (forall i x, mr_rows t !! i = Some x -> i < mr_next t) as Hlt.
  { intros i x Hi. destruct (Z.lt_ge_cases i (mr_next t)); [done|]. by rewrite (mo_ids _ _ Ht) in Hi. }
  destruct r as [o m|o i m|o i|o n p]; cbn.
  - unfold create_monitor. destruct (validate _ _ _ m) as [m'|]; [|done]. destruct (member_org s user o) as [[x y]|]; [|done].
    set (pr := if otruthy _ then _ else _). destruct pr as [project|] eqn:Ep; [|done]. destruct (monitor_fits m'); cbn; [|done].
    assert (forall q, project = Some q -> exists z, projects s !! q = Some z /\ p_org z = x) as Hq.
    { intros q ->. subst pr. destruct (otruthy (mi_project m')); [|done]. destruct (id_of_text _); cbn in Ep; [|done].
      injection Ep as Ep. by apply project_in_Some in Ep. }
    destruct Ht. constructor; cbn; [|done|..].
    + intros j Hj. rewrite lookup_insert_ne by lia. apply mo_ids0. lia.
    + intros j z [[<- <-]|[_ ?]]%lookup_insert_Some; [done|eauto].
    + intros j z [[<- <-]|[_ ?]]%lookup_insert_Some; [|eauto]. cbn. intros H. rewrite bool_decide_eq_true_2 by done. by eexists.
  - unfold update_monitor. destruct (validate _ _ _ m) as [m'|]; [|done]. destruct (get_monitor s user o i t) as [x|] eqn:Eg; [|done].
    set (pr := match mi_project m' with Some _ => _ | None => _ end). destruct pr as [project|] eqn:Ep; [|done].
    destruct (monitor_fits m'); cbn; [|done]. apply get_monitor_Some in Eg as [Hx _]. apply monitor_save_ok; [done|by eapply Hlt|]. cbn. intros q ->.
    subst pr. destruct (mi_project m') as [[|c l]|]; try done. destruct (id_of_text _); cbn in Ep; [|done]. injection Ep as Ep. by apply project_in_Some in Ep.
  - unfold delete_monitor. destruct (get_monitor s user o i t) as [x|]; [|done]. destruct Ht. constructor; cbn.
    + intros j Hj. apply lookup_delete_None. auto.
    + intros j Hj. rewrite lookup_fmap. by rewrite mo_pages0.
    + intros j z [_ ?]%lookup_delete_Some. eauto.
    + intros j z [_ ?]%lookup_delete_Some. eauto.
  - unfold create_status_page. destruct (member_org s user o) as [[x y]|]; [|done]. destruct Ht. constructor; cbn; [done| |done..].
    intros j Hj. rewrite lookup_insert_ne by lia. apply mo_pages0. lia.
Qed.

(** No request of a user changes a monitor of an organization the user is not in, or
    removes its checks. *)
Theorem foreign_monitors_untouched s user uuid4 r t i x :
  monitors_ok s t -> mr_rows t !! i = Some x -> role_in s (mr_org x) user = None ->
  let t' := (handle s user uuid4 r t).2 in
  mr_rows t' !! i = Some x /\ (forall c, ck_monitor c = i -> c ∈ ck_rows t' <-> c ∈ ck_rows t).
Proof.
  intros Ht Hi Hx. assert (forall o j y, get_monitor s user o j t = Some y -> j <> i) as Hne.
  { intros o j y [H1 [z H2]]%get_monitor_Some ->. congruence. }
  assert (mr_next t <> i) as Hn by (intros <-; by rewrite (mo_ids _ _ Ht) in Hi).
  destruct r as [o m|o j m|o j|o n p]; cbn.
  - unfold create_monitor. destruct (validate _ _ _ m) as [m'|]; [|done]. destruct (member_org s user o) as [[y z]|]; [|done].
    destruct (if otruthy _ then _ else _) as [project|]; [|done]. destruct (monitor_fits m'); cbn; [|done]. by rewrite lookup_insert_ne.
  - unfold update_monitor. destruct (validate _ _ _ m) as [m'|]; [|done]. destruct (get_monitor s user o j t) as [y|] eqn:Eg; [|done].
    destruct (match mi_project m' with Some _ => _ | None => _ end) as [project|]; [|done]. destruct (monitor_fits m'); cbn; [|done].
    rewrite lookup_insert_ne; [done|by eapply Hne].
  - unfold delete_monitor. destruct (get_monitor s user o j t) as [y|] eqn:Eg; [|done]. cbn. apply Hne in Eg. rewrite lookup_delete_ne by done.
    split; [done|]. intros c Hc. rewrite list_elem_of_filter. naive_solver.
  - unfold create_status_page. by destruct (member_org s user o) as [[y z]|].
Qed.
End requests.

(** ** Witnesses and examples *)

Definition http_monitor (url : string) : MonitorIn :=
  {| mi_type := GET; mi_name := u "m"; mi_url := u url; mi_expected_status := Some 200; mi_expected_body := []; mi_interval := 60; mi_timeout := None;
     mi_threshold := 1; mi_project := Some (u "1") |}.
Arguments http_monitor _%_string.
Definition monitor_of (ty : MonitorType) (m : MonitorIn) : MonitorIn :=
  {| mi_type := ty; mi_name := mi_name m; mi_url := mi_url m; mi_expected_status := mi_expected_status m; mi_expected_body := mi_expected_body m;
     mi_interval := mi_interval m; mi_timeout := mi_timeout m; mi_threshold := mi_threshold m; mi_project := mi_project m |}.
Definition web_dns (h : ustr) : res (list ustr) := if ustr_eqb h (u "site.example") then Ok [u "93.184.216.34"] else Raise OSError.
Definition try_validate (m : MonitorIn) := validate false web_dns (fun _ => true) m.

Definition ex_monitors : Monitors :=
  {| mr_rows := {[1 := {| mr_org := 1; mr_project := Some 1; mr_endpoint := None; mr_in := http_monitor "https://site.example/" |}]}; mr_next := 2;
     sp_rows := {[1 := {| sp_org := 1; sp_name := u "p"; sp_public := false; sp_monitors := [1] |}]}; sp_next := 2;
     ck_rows := [{| ck_monitor := 1; ck_start := 5; ck_is_change := true |}]; probes := [] |}.

Lemma ex_monitors_ok : monitors_ok ex_state ex_monitors.
Proof.
  constructor; cbn.
  - intros i Hi. apply lookup_singleton_ne. lia.
  - intros i Hi. apply lookup_singleton_ne. lia.
  - intros i r [<- <-]%lookup_singleton_Some p [= <-]. by eexists.
  - by intros i r [<- <-]%lookup_singleton_Some.
Qed.

Lemma accepted_target_public_witness :
  let m := monitor_of PORT (http_monitor "http://site.example:5432") in
  let m' := with_url (u "site.example:5432") m in
  m' = with_url (mi_url m') m
  /\ (is_http (mi_type m) = true -> mi_url m' = mi_url m /\ true = true
      /\ exists ho, urlparse_hostname (mi_url m) = Ok ho /\ (forall h, ho = Some h -> is_ip_blocked h <> Ok true /\ resolves_public web_dns h))
  /\ (mi_type m = PORT -> (exists h p, mi_url m' = h ++ u ":" ++ str_of_Z p /\ truthy h = true /\ 0 < p <= 65535)
      /\ resolves_public web_dns (default [] (head (split_on 58 (mi_url m'))))).
Proof. apply (accepted_target_public web_dns (fun _ => true)). vm_compute. reflexivity. Defined.

Lemma monitors_stay_consistent_witness :
  monitors_ok ex_state (handle_monitor false web_dns (fun _ => true) ex_state 1 7 (CreateMonitor (u "o") (http_monitor "https://site.example/")) ex_monitors).2.
Proof. apply (monitors_stay_consistent false web_dns (fun _ => true) ex_state 1 7), ex_monitors_ok. Defined.

Lemma foreign_monitors_untouched_witness :
  let t' := (handle_monitor false web_dns (fun _ => true) ex_state 4 7 (DeleteMonitor (u "o") 1) ex_monitors).2 in
  mr_rows t' !! 1 = mr_rows ex_monitors !! 1 /\ (forall c, ck_monitor c = 1 -> c ∈ ck_rows t' <-> c ∈ ck_rows ex_monitors).
Proof.
  apply (foreign_monitors_untouched false web_dns (fun _ => true) ex_state 4 7 (DeleteMonitor (u "o") 1) ex_monitors 1
    {| mr_org := 1; mr_project := Some 1; mr_endpoint := None; mr_in := http_monitor "https://site.example/" |} ex_monitors_ok); by vm_compute.
Defined.

(** The list of an organization has the pages of every organization of the user. *)
Example status_pages_of_other_organization :
  let t := {| mr_rows := mr_rows ex_monitors; mr_next := 2; sp_rows := {[1 := {| sp_org := 2; sp_name := u "q"; sp_public := false; sp_monitors := [] |}]};
              sp_next := 2; ck_rows := []; probes := [] |} in
  list_status_pages ex_state 4 (u "o") t = [(1, {| sp_org := 2; sp_name := u "q"; sp_public := false; sp_monitors := [] |})].
Proof. by vm_compute. Qed.

(** The host of an IPv6 address with a port is cut at its first colon, so that no address is
    checked; monitors of certificates are not checked at all. *)
Example unchecked_targets :
  try_validate (monitor_of PORT (http_monitor "[::1]:5432")) = Ok (with_url (u "::1:5432") (monitor_of PORT (http_monitor "[::1]:5432")))
  /\ try_validate (monitor_of SSL (http_monitor "https://10.0.0.1/")) = Ok (monitor_of SSL (http_monitor "https://10.0.0.1/"))
  /\ try_validate (http_monitor "https://10.0.0.1/") = Raise ValueError.
Proof. split_and!; by vm_compute. Qed.

(** An empty project is an error on a change, and ignored on creation. *)
Example empty_project_fails :
  let m := {| mi_type := GET; mi_name := u "m"; mi_url := u "https://site.example/"; mi_expected_status := Some 200; mi_expected_body := [];
              mi_interval := 60; mi_timeout := None; mi_threshold := 1; mi_project := Some [] |} in
  (update_monitor false web_dns (fun _ => true) ex_state 1 7 (u "o") 1 m ex_monitors).1 = 500
  /\ (create_monitor false web_dns (fun _ => true) ex_state 1 7 (u "o") m ex_monitors).1 = 201.
Proof. split; by vm_compute. Qed.
