(* ===== verification/ReleaseApi.v ===== *)
(** * Releases: endpoints and removal

    [apps/releases/api.py] with its schemas, the tables of [apps/releases/models.py] and
    [apps/sourcecode/models.py], and the removal of old releases in
    [apps/releases/maintenance.py]. Organizations, members and projects are those of
    [Membership]; a handler gives the status of its response, 500 for an exception that leaves
    it, and the new tables. There is no transaction around a request. *)
From S2P Require Import Prelude PyStr PyValue BitField Membership.

(** ** The tables *)

Record Commit := { c_id : ustr; c_message : ustr; c_author_name : ustr; c_author_email : ustr }.

(** [re_commits] is the entry [commits] of [data]. *)
Record ReleaseRow := { re_org : Z; re_version : ustr; re_ref : option ustr; re_released : option Z; re_created : Z; re_commits : option (list Commit);
  commit_count : Z; deploy_count : Z }.

Record DeployRow := { dp_release : Z; dp_environment : ustr; dp_url : ustr; dp_started : option Z; dp_finished : option Z }.

Record Bundle := { bu_org : Z; bu_debug_id : option ustr; bu_release : option Z; bu_file : Z }.

(** What else refers to releases: issues by the release they were first seen and resolved in,
    their index rows by the last one, and events. *)
Record Tables := {
  rel : gmap Z ReleaseRow; next_rel : Z; links : gset (Z * Z); release_projects : gset (Z * Z); bundles : gmap Z Bundle; deploys : gmap Z DeployRow;
  next_deploy : Z; first_release : gmap Z Z; resolved_in : gmap Z Z; last_release : gmap Z Z; event_release : gmap Z Z;
  assembling : list (Z * ustr * ustr * list ustr) }.

Definition with_rel m t := {| rel := m; next_rel := next_rel t; links := links t; release_projects := release_projects t; bundles := bundles t; deploys := deploys t;
  next_deploy := next_deploy t; first_release := first_release t; resolved_in := resolved_in t; last_release := last_release t; event_release := event_release t;
  assembling := assembling t |}.
Definition with_links m t := {| rel := rel t; next_rel := next_rel t; links := m; release_projects := release_projects t; bundles := bundles t; deploys := deploys t;
  next_deploy := next_deploy t; first_release := first_release t; resolved_in := resolved_in t; last_release := last_release t; event_release := event_release t;
  assembling := assembling t |}.
Definition with_bundles m t := {| rel := rel t; next_rel := next_rel t; links := links t; release_projects := release_projects t; bundles := m; deploys := deploys t;
  next_deploy := next_deploy t; first_release := first_release t; resolved_in := resolved_in t; last_release := last_release t; event_release := event_release t;
  assembling := assembling t |}.
Definition new_release r t := {| rel := <[next_rel t := r]> (rel t); next_rel := next_rel t + 1; links := links t; release_projects := release_projects t;
  bundles := bundles t; deploys := deploys t; next_deploy := next_deploy t; first_release := first_release t; resolved_in := resolved_in t;
  last_release := last_release t; event_release := event_release t; assembling := assembling t |}.
Definition new_deploy d t := {| rel := rel t; next_rel := next_rel t; links := links t; release_projects := release_projects t; bundles := bundles t;
  deploys := <[next_deploy t := d]> (deploys t); next_deploy := next_deploy t + 1; first_release := first_release t; resolved_in := resolved_in t;
  last_release := last_release t; event_release := event_release t; assembling := assembling t |}.
Definition with_assembling j t := {| rel := rel t; next_rel := next_rel t; links := links t; release_projects := release_projects t; bundles := bundles t;
  deploys := deploys t; next_deploy := next_deploy t; first_release := first_release t; resolved_in := resolved_in t; last_release := last_release t;
  event_release := event_release t; assembling := assembling t ++ [j] |}.

(** ** Payloads, as validated *)

Record ReleaseUpdate := { up_ref : option ustr; up_released : option Z }.

(** A field that is not set has its default: no reference, the present time. *)
Definition validate_update (now : Z) (ref : option (option ustr)) (released : option (option Z)) : ReleaseUpdate :=
  {| up_ref := default None ref; up_released := default (Some now) released |}.

Record DeployIn := { di_environment : ustr; di_url : ustr; di_started : option Z; di_finished : option Z }.

(** Columns of limited length and small integers that are not negative. *)
Definition fits (n : Z) (s : ustr) : bool := len s <=? n.
Definition ofits (n : Z) (o : option ustr) : bool := match o with Some s => fits n s | None => true end.
Definition MAX_SMALL : Z := 32767.

(** ** Queries *)

Definition member_of (s : State) (user o : Z) (organization_slug : ustr) : bool :=
  match orgs s !! o with Some x => ustr_eqb (slug x) organization_slug && bool_decide (is_Some (role_in s o user)) | None => false end.

(** The release is linked to a project of this slug. *)
Definition in_project (s : State) (project_slug : ustr) (i : Z) (t : Tables) : bool :=
  existsb (fun l : Z * Z => (l.1 =? i) && bool_decide (p_slug <$> projects s !! l.2 = Some project_slug)) (elements (links t)).

(** A filter that is only there for a value that is not empty. *)
Definition if_given (o : option ustr) (p : ustr -> bool) : bool := match o with Some [] | None => true | Some s => p s end.
Definition if_id (o : option Z) (p : Z -> bool) : bool := match o with Some i => (i =? 0) || p i | None => true end.

Definition release_matches (s : State) (organization_slug : ustr) (user : Z) (id : option Z) (version project_slug : option ustr) (t : Tables) (i : Z) (r : ReleaseRow) : bool :=
  member_of s user (re_org r) organization_slug && if_id id (fun j => i =? j) && if_given version (fun v => ustr_eqb (re_version r) v)
  && if_given project_slug (fun p => in_project s p i t).

Definition get_releases_queryset (s : State) (organization_slug : ustr) (user : Z) (id : option Z) (version project_slug : option ustr) (t : Tables) : list (Z * ReleaseRow) :=
  filter (fun kv => release_matches s organization_slug user id version project_slug t kv.1 kv.2) (map_to_list (rel t)).

Definition file_matches (s : State) (organization_slug : ustr) (user : Z) (version project_slug : option ustr) (id : option Z) (t : Tables) (j : Z) (b : Bundle) : bool :=
  match bu_release b with
  | Some i =>
      match rel t !! i with
      | Some r => member_of s user (re_org r) organization_slug && if_given version (fun v => ustr_eqb (re_version r) v)
                  && if_given project_slug (fun p => in_project s p i t) && if_id id (fun k => j =? k)
      | None => false
      end
  | None => false
  end.

Definition get_release_files_queryset (s : State) (organization_slug : ustr) (user : Z) (version project_slug : option ustr) (id : option Z) (t : Tables) : list (Z * Bundle) :=
  filter (fun kv => file_matches s organization_slug user version project_slug id t kv.1 kv.2) (map_to_list (bundles t)).

(** [aget_object_or_404]: the row, or the status of the response. *)
Definition get_or_404 {A} (l : list A) : Z + A := match l with [] => inl 404 | [x] => inr x | _ => inl 500 end.

(** ** Handlers *)

Abbreviation reply := (Z * Tables)%type.

Definition granted (permissions : list string) (a : Auth) (t : Tables) (k : reply) : reply :=
  match has_permission (map u permissions) a with Ok true => k | Ok false => (403, t) | Raise _ => (500, t) end.
Arguments granted (_)%_list _ _ _.

Definition one_release (l : list (Z * ReleaseRow)) (t : Tables) (k : Z -> ReleaseRow -> reply) : reply :=
  match get_or_404 l with inl n => (n, t) | inr (i, r) => k i r end.

(** [aget_or_create]; texts that do not fit raise. *)
Definition get_or_create_release (now o : Z) (version : ustr) (p : ReleaseUpdate) (t : Tables) : res (Z * Tables) :=
  match find_row (fun _ r => (re_org r =? o) && ustr_eqb (re_version r) version) (rel t) with
  | Some (i, _) => Ok (i, t)
  | None =>
      if negb (fits 255 version && ofits 255 (up_ref p)) then Raise DataError
      else Ok (next_rel t, new_release {| re_org := o; re_version := version; re_ref := up_ref p; re_released := up_released p; re_created := now; re_commits := None;
                                          commit_count := 0; deploy_count := 0 |} t)
  end.

Definition link (i : Z) (ps : list Z) (t : Tables) : Tables := with_links (list_to_set (map (pair i) ps) ∪ links t) t.

(** The created release is read again. *)
Definition read_back (s : State) (a : Auth) (organization_slug : ustr) (i : Z) (project_slug : option ustr) (status : Z) (t : Tables) : reply :=
  match get_releases_queryset s organization_slug (auth_user a) (Some i) None project_slug t with [_] => (status, t) | _ => (500, t) end.

Definition projects_of (s : State) (o : Z) (slugs : list ustr) : list Z :=
  map fst (filter (fun kv => (p_org kv.2 =? o) && bool_decide (p_slug kv.2 ∈ slugs)) (map_to_list (projects s))).

Definition create_release (now : Z) (s : State) (a : Auth) (organization_slug version : ustr) (p : ReleaseUpdate) (project_slugs : list ustr) (t : Tables) : reply :=
  granted ["project:releases"]%string a t
    match org_with_role s (auth_user a) organization_slug MEMBER with
    | None => (404, t)
    | Some (o, _) =>
        match projects_of s o project_slugs with
        | [] => (422, t)
        | ps =>
            match get_or_create_release now o version p t with
            | Raise _ => (500, t)
            | Ok (i, t) => read_back s a organization_slug i None 201 (link i ps t)
            end
        end
    end.

Definition create_project_release (now : Z) (s : State) (a : Auth) (organization_slug project_slug version : ustr) (p : ReleaseUpdate) (t : Tables) : reply :=
  granted ["project:releases"]%string a t
    match get_project s (auth_user a) organization_slug project_slug MEMBER with
    | None => (404, t)
    | Some (project, x) =>
        match get_or_create_release now (p_org x) version p t with
        | Raise _ => (500, t)
        | Ok (i, t) => read_back s a organization_slug i None 201 (link i [project] t)
        end
    end.

Definition set_update (p : ReleaseUpdate) (r : ReleaseRow) : ReleaseRow :=
  {| re_org := re_org r; re_version := re_version r; re_ref := up_ref p; re_released := up_released p; re_created := re_created r; re_commits := re_commits r;
     commit_count := commit_count r; deploy_count := deploy_count r |}.

(** [update_release], and [update_project_release] with the slug of a project. *)
Definition update_release (s : State) (a : Auth) (organization_slug : ustr) (project_slug : option ustr) (version : ustr) (p : ReleaseUpdate) (t : Tables) : reply :=
  granted ["project:releases"]%string a t
    (one_release (get_releases_queryset s organization_slug (auth_user a) None (Some version) project_slug t) t (fun i r =>
       if negb (ofits 255 (up_ref p)) then (500, t)
       else read_back s a organization_slug i project_slug 200 (with_rel (<[i := set_update p r]> (rel t)) t))).

(** *** Deletion *)

Definition unset (ids : gset Z) (m : gmap Z Z) : gmap Z Z := filter (fun kv => kv.2 ∉ ids) m.

Definition no_release (ids : gset Z) (b : Bundle) : Bundle :=
  match bu_release b with
  | Some i => if bool_decide (i ∈ ids) then {| bu_org := bu_org b; bu_debug_id := bu_debug_id b; bu_release := None; bu_file := bu_file b |} else b
  | None => b
  end.

(** The check [debug_id_or_release_required] when the release of bundles is set to null. *)
Definition needs_release (ids : gset Z) (t : Tables) : bool :=
  existsb (fun kv : Z * Bundle => match bu_debug_id kv.2, bu_release kv.2 with None, Some i => bool_decide (i ∈ ids) | _, _ => false end) (map_to_list (bundles t)).

(** [QuerySet.delete] of releases: dependent rows go, references are set to null, but for those
    of the index rows, which have no constraint. *)
Definition delete_releases (ids : gset Z) (t : Tables) : res Tables :=
  if needs_release ids t then Raise IntegrityError
  else Ok {| rel := filter (fun kv => kv.1 ∉ ids) (rel t); next_rel := next_rel t; links := filter (fun l => l.1 ∉ ids) (links t);
             release_projects := filter (fun l => l.1 ∉ ids) (release_projects t); bundles := no_release ids <$> bundles t;
             deploys := filter (fun kv => dp_release kv.2 ∉ ids) (deploys t); next_deploy := next_deploy t; first_release := unset ids (first_release t);
             resolved_in := unset ids (resolved_in t); last_release := last_release t; event_release := unset ids (event_release t); assembling := assembling t |}.

(** [delete_organization_release], and [delete_project_release] with a project. *)
Definition delete_release (s : State) (a : Auth) (organization_slug : ustr) (project_slug : option ustr) (version : ustr) (t : Tables) : reply :=
  granted ["project:releases"]%string a t
    match get_releases_queryset s organization_slug (auth_user a) None (Some version) project_slug t with
    | [] => (404, t)
    | l => match delete_releases (list_to_set (map fst l)) t with Ok t => (204, t) | Raise _ => (500, t) end
    end.

(** *** Files *)

Definition delete_release_file (s : State) (a : Auth) (organization_slug : ustr) (project_slug : option ustr) (version : ustr) (file_id : Z) (t : Tables) : reply :=
  granted ["project:releases"]%string a t
    match get_release_files_queryset s organization_slug (auth_user a) (Some version) project_slug (Some file_id) t with
    | [] => (404, t)
    | l => (204, with_bundles (filter (fun kv => kv.1 ∉ (map fst l)) (bundles t)) t)
    end.

Definition get_release_file (s : State) (a : Auth) (organization_slug project_slug version : ustr) (file_id : Z) (t : Tables) : Z + (Z * Bundle) :=
  match has_permission [u "project:releases"] a with
  | Ok true => get_or_404 (get_release_files_queryset s organization_slug (auth_user a) (Some version) (Some project_slug) (Some file_id) t)
  | Ok false => inl 403
  | Raise _ => inl 500
  end.

(** *** Deploys and commits *)

Definition deploy_permissions : list string := ["project:releases"; "project:write"; "project:admin"]%string.

Definition set_deploy_count (n : Z) (r : ReleaseRow) : ReleaseRow :=
  {| re_org := re_org r; re_version := re_version r; re_ref := re_ref r; re_released := re_released r; re_created := re_created r; re_commits := re_commits r;
     commit_count := commit_count r; deploy_count := n |}.

(** The count is raised in a statement of its own. *)
Definition create_deploy (s : State) (a : Auth) (organization_slug version : ustr) (p : DeployIn) (t : Tables) : reply :=
  granted deploy_permissions a t
    (one_release (get_releases_queryset s organization_slug (auth_user a) None (Some version) None t) t (fun i r =>
       if negb (fits 64 (di_environment p) && fits 200 (di_url p)) then (500, t)
       else
         let t := new_deploy {| dp_release := i; dp_environment := di_environment p; dp_url := di_url p; dp_started := di_started p; dp_finished := di_finished p |} t in
         if MAX_SMALL <? deploy_count r + 1 then (500, t)
         else (201, with_rel (<[i := set_deploy_count (deploy_count r + 1) r]> (rel t)) t))).

Definition list_deploys (s : State) (a : Auth) (organization_slug version : ustr) (t : Tables) : Z + list (Z * DeployRow) :=
  match has_permission (map u deploy_permissions) a with
  | Ok true =>
      match get_or_404 (get_releases_queryset s organization_slug (auth_user a) None (Some version) None t) with
      | inl n => inl n
      | inr (i, _) => inr (filter (fun kv => dp_release kv.2 = i) (map_to_list (deploys t)))
      end
  | Ok false => inl 403
  | Raise _ => inl 500
  end.

Definition set_commits (l : list Commit) (r : ReleaseRow) : ReleaseRow :=
  {| re_org := re_org r; re_version := re_version r; re_ref := re_ref r; re_released := re_released r; re_created := re_created r; re_commits := Some (take 1000 l);
     commit_count := len l; deploy_count := deploy_count r |}.

Definition create_commits (s : State) (a : Auth) (organization_slug version : ustr) (payload : list Commit) (t : Tables) : reply :=
  granted deploy_permissions a t
    (one_release (get_releases_queryset s organization_slug (auth_user a) None (Some version) None t) t (fun i r =>
       if MAX_SMALL <? len payload then (500, t)
       else read_back s a organization_slug i None 200 (with_rel (<[i := set_commits payload r]> (rel t)) t))).

Definition list_commits (s : State) (a : Auth) (organization_slug version : ustr) (t : Tables) : Z + list Commit :=
  match has_permission (map u deploy_permissions) a with
  | Ok true =>
      match get_or_404 (get_releases_queryset s organization_slug (auth_user a) None (Some version) None t) with
      | inl n => inl n
      | inr (_, r) => inr (default [] (re_commits r))
      end
  | Ok false => inl 403
  | Raise _ => inl 500
  end.

(** [assemble_release] and [artifact_bundle_assemble]: the chunks that are missing, or the job. *)
Definition assemble (permissions : list string) (blobs : gset ustr) (s : State) (a : Auth) (organization_slug version checksum : ustr) (chunks : list ustr) (t : Tables) :
    (Z + gset ustr) * Tables :=
  match has_permission (map u permissions) a with
  | Ok true =>
      match org_with_role s (auth_user a) organization_slug MEMBER with
      | None => (inl 404, t)
      | Some (o, _) =>
          let missing_chunks : gset ustr := list_to_set chunks ∖ blobs in
          if bool_decide (missing_chunks = ∅) then (inr ∅, with_assembling (o, version, checksum, chunks) t) else (inr missing_chunks, t)
      end
  | Ok false => (inl 403, t)
  | Raise _ => (inl 500, t)
  end.

(** ** The removal of old releases *)

Inductive outcome := Done (total_deleted : Z) | Skipped (total_deleted : Z) | Crashed.

Section cleanup.
(** What other processes do before the releases of a batch are deleted. *)
Context (others : Tables -> Tables).

Definition old (cutoff : Z) (kv : Z * ReleaseRow) : bool := re_created kv.2 <? cutoff.

(** The ids of the next batch, in order. *)
Definition batch (cutoff : Z) (t : Tables) : list Z :=
  take 1000 (merge_sort Z.le (map fst (filter (fun kv => old cutoff kv = true) (map_to_list (rel t))))).

(** References to the releases are set to null; then the deploys and the rows of
    [ReleaseProject] are deleted. *)
Definition unlink_batch (ids : gset Z) (t : Tables) : Tables :=
  {| rel := rel t; next_rel := next_rel t; links := links t; release_projects := filter (fun l => l.1 ∉ ids) (release_projects t);
     bundles := no_release ids <$> bundles t; deploys := filter (fun kv => dp_release kv.2 ∉ ids) (deploys t); next_deploy := next_deploy t;
     first_release := unset ids (first_release t); resolved_in := unset ids (resolved_in t); last_release := unset ids (last_release t);
     event_release := unset ids (event_release t); assembling := assembling t |}.

(** The steps before the one that violates the check of the bundles are done. *)
Definition unlink_issues (ids : gset Z) (t : Tables) : Tables :=
  {| rel := rel t; next_rel := next_rel t; links := links t; release_projects := release_projects t; bundles := bundles t; deploys := deploys t;
     next_deploy := next_deploy t; first_release := unset ids (first_release t); resolved_in := unset ids (resolved_in t);
     last_release := unset ids (last_release t); event_release := unset ids (event_release t); assembling := assembling t |}.

Definition refers (ids : gset Z) (m : gmap Z Z) : bool := existsb (fun kv : Z * Z => bool_decide (kv.2 ∈ ids)) (map_to_list m).

(** A foreign key that refers to the releases keeps the database from deleting them. *)
Definition referenced (ids : gset Z) (t : Tables) : bool :=
  existsb (fun l : Z * Z => bool_decide (l.1 ∈ ids)) (elements (links t)) || existsb (fun l : Z * Z => bool_decide (l.1 ∈ ids)) (elements (release_projects t))
  || existsb (fun kv : Z * Bundle => match bu_release kv.2 with Some i => bool_decide (i ∈ ids) | None => false end) (map_to_list (bundles t))
  || existsb (fun kv : Z * DeployRow => bool_decide (dp_release kv.2 ∈ ids)) (map_to_list (deploys t))
  || refers ids (first_release t) || refers ids (resolved_in t) || refers ids (event_release t).

Fixpoint cleanup_loop (fuel : nat) (cutoff total_deleted : Z) (t : Tables) : option (outcome * Tables) :=
  match fuel with
  | O => None
  | S fuel =>
      match batch cutoff t with
      | [] => Some (Done total_deleted, t)
      | l =>
          let ids : gset Z := list_to_set l in
          if needs_release ids t then Some (Crashed, unlink_issues ids t) else
          let t := others (unlink_batch ids t) in
          if referenced ids t then Some (Skipped total_deleted, t)
          else cleanup_loop fuel cutoff (total_deleted + len (filter (fun kv => kv.1 ∈ ids) (map_to_list (rel t))))
                 (with_rel (filter (fun kv => kv.1 ∉ ids) (rel t)) t)
      end
  end.

Definition cleanup_old_releases (fuel : nat) (now retention_days : Z) (t : Tables) : option (outcome * Tables) :=
  cleanup_loop fuel (now - retention_days * 86400) 0 t.
End cleanup.

(** ** Requests *)

Inductive Request :=
  | CreateRelease (organization_slug version : ustr) (p : ReleaseUpdate) (project_slugs : list ustr)
  | CreateProjectRelease (organization_slug project_slug version : ustr) (p : ReleaseUpdate)
  | UpdateRelease (organization_slug : ustr) (project_slug : option ustr) (version : ustr) (p : ReleaseUpdate)
  | DeleteRelease (organization_slug : ustr) (project_slug : option ustr) (version : ustr)
  | DeleteFile (organization_slug : ustr) (project_slug : option ustr) (version : ustr) (file_id : Z)
  | CreateDeploy (organization_slug version : ustr) (p : DeployIn)
  | CreateCommits (organization_slug version : ustr) (payload : list Commit).

Definition handle (now : Z) (s : State) (a : Auth) (r : Request) (t : Tables) : reply :=
  match r with
  | CreateRelease o v p l => create_release now s a o v p l t
  | CreateProjectRelease o x v p => create_project_release now s a o x v p t
  | UpdateRelease o x v p => update_release s a o x v p t
  | DeleteRelease o x v => delete_release s a o x v t
  | DeleteFile o x v i => delete_release_file s a o x v i t
  | CreateDeploy o v p => create_deploy s a o v p t
  | CreateCommits o v l => create_commits s a o v l t
  end.

(** ** The tables stay consistent *)

Definition deploys_of (i : Z) (m : gmap Z DeployRow) : Z := Z.of_nat (size (filter (fun kv => dp_release kv.2 = i) m)).

Definition row_ok (m : gmap Z DeployRow) (i : Z) (r : ReleaseRow) : Prop :=
  deploy_count r = Z.min (deploys_of i m) MAX_SMALL /\ len (default [] (re_commits r)) <= commit_count r <= MAX_SMALL /\ len (default [] (re_commits r)) <= 1000.

Definition bundle_ok (t : Tables) (b : Bundle) : Prop := match bu_release b with Some i => is_Some (rel t !! i) | None => bu_debug_id b <> None end.

Record tables_ok (s : State) (t : Tables) : Prop := {
  ok_ids : forall i, next_rel t <= i -> rel t !! i = None;
  ok_versions : forall i j r r', rel t !! i = Some r -> rel t !! j = Some r' -> re_org r = re_org r' -> re_version r = re_version r' -> i = j;
  ok_links : forall i p, (i, p) ∈ links t -> exists r q, rel t !! i = Some r /\ projects s !! p = Some q /\ p_org q = re_org r;
  ok_bundles : forall j b, bundles t !! j = Some b -> bundle_ok t b;
  ok_deploys : forall j d, deploys t !! j = Some d -> is_Some (rel t !! dp_release d);
  ok_deploy_ids : forall j, next_deploy t <= j -> deploys t !! j = None;
  ok_rows : forall i r, rel t !! i = Some r -> row_ok (deploys t) i r;
  ok_first : forall k i, first_release t !! k = Some i -> is_Some (rel t !! i);
  ok_resolved : forall k i, resolved_in t !! k = Some i -> is_Some (rel t !! i);
  ok_events : forall k i, event_release t !! k = Some i -> is_Some (rel t !! i) }.

Lemma deploys_of_none i m : (forall j d, m !! j = Some d -> dp_release d <> i) -> deploys_of i m = 0.
Proof.
  intros H. unfold deploys_of. replace (filter _ m) with (∅ : gmap Z DeployRow); [done|]. apply map_eq. intros j. rewrite lookup_empty. symmetry. apply map_lookup_filter_None. right. intros d Hj. by apply (H j).
Qed.

Lemma deploys_of_insert i j d m : m !! j = None -> deploys_of i (<[j := d]> m) = deploys_of i m + (if dp_release d =? i then 1 else 0).
Proof.
  intros Hj. unfold deploys_of. destruct (Z.eqb_spec (dp_release d) i) as [He|He].
  - rewrite map_filter_insert_True by done. rewrite map_size_insert_None; [lia|]. apply map_lookup_filter_None. by left.
  - rewrite map_filter_insert_False by done. rewrite delete_id by done. lia.
Qed.

Lemma deploys_of_filter i (P : Z * DeployRow -> Prop) `{!forall x, Decision (P x)} m :
  (forall j d, m !! j = Some d -> dp_release d = i -> P (j, d)) -> deploys_of i (filter P m) = deploys_of i m.
Proof.
  intros HP. unfold deploys_of. do 2 f_equal. apply map_eq. intros j. apply option_eq. intros d. rewrite !map_lookup_filter_Some. naive_solver.
Qed.

(** A new row keeps the ones there are. *)
Lemma kept_insert {A} (i : Z) (r : A) (m : gmap Z A) j : is_Some (m !! j) -> is_Some (<[i := r]> m !! j).
Proof. intros H. apply lookup_insert_is_Some'. by right. Qed.

Lemma new_release_ok s t r :
  tables_ok s t -> (forall i r', rel t !! i = Some r' -> re_org r' = re_org r -> re_version r' <> re_version r) -> re_commits r = None ->
  commit_count r = 0 -> deploy_count r = 0 -> tables_ok s (new_release r t).
Proof.
  intros [] Hv H1 H2 H3. pose proof (fun j => kept_insert (next_rel t) r (rel t) j) as Hk. pose proof (ok_ids0 _ (Z.le_refl _)) as Hn. constructor; cbn; eauto.
  - intros i Hi. rewrite lookup_insert_ne by lia. apply ok_ids0. lia.
  - intros i j r1 r2 [[<- <-]|[_ Hi]]%lookup_insert_Some [[<- <-]|[_ Hj]]%lookup_insert_Some Ho Hver; [done|by destruct (Hv _ _ Hj)|by destruct (Hv _ _ Hi)|eauto].
  - intros i p (r' & q & Hi & Hq)%ok_links0. exists r', q. split; [|done]. rewrite lookup_insert_ne; [done|]. intros <-. by rewrite Hn in Hi.
  - intros j b Hb. apply ok_bundles0 in Hb. unfold bundle_ok in *. cbn. destruct (bu_release b); eauto.
  - intros i r' [[<- <-]|[_ Hi]]%lookup_insert_Some; [|eauto]. split; [|by rewrite H1, H2]. rewrite H3, deploys_of_none; [done|].
    intros j d Hd He. apply ok_deploys0 in Hd as [x Hx]. rewrite He in Hx. by rewrite Hn in Hx.
Qed.

Lemma set_row_ok s t i r r' :
  tables_ok s t -> rel t !! i = Some r -> re_org r' = re_org r -> re_version r' = re_version r -> row_ok (deploys t) i r' ->
  tables_ok s (with_rel (<[i := r']> (rel t)) t).
Proof.
  intros [] Hi Ho Hv Hr. pose proof (fun j => kept_insert i r' (rel t) j) as Hk.
  assert (forall j x, <[i := r']> (rel t) !! j = Some x -> exists y, rel t !! j = Some y /\ re_org x = re_org y /\ re_version x = re_version y) as Hold.
  { intros j x [[<- <-]|[_ ?]]%lookup_insert_Some; eauto. }
  constructor; cbn; eauto.
  - intros j Hj. destruct (decide (j = i)) as [->|]; [by rewrite ok_ids0 in Hi|]. rewrite lookup_insert_ne by done. auto.
  - intros j k x y (x' & Hx & -> & ->)%Hold (y' & Hy & -> & ->)%Hold. eauto.
  - intros j p (x & q & Hj & Hq & Hpo)%ok_links0. destruct (decide (j = i)) as [->|].
    + rewrite Hi in Hj. injection Hj as <-. exists r', q. rewrite lookup_insert_eq. by rewrite Ho.
    + exists x, q. by rewrite lookup_insert_ne.
  - intros j b Hb. apply ok_bundles0 in Hb. unfold bundle_ok in *. cbn. destruct (bu_release b); eauto.
  - intros j x [[<- <-]|[_ ?]]%lookup_insert_Some; eauto.
Qed.

Lemma link_ok s t i r ps :
  tables_ok s t -> rel t !! i = Some r -> (forall p, p ∈ ps -> exists q, projects s !! p = Some q /\ p_org q = re_org r) -> tables_ok s (link i ps t).
Proof.
  intros [] Hi Hp. constructor; cbn; try done. intros j p [H|H]%elem_of_union; [|eauto].
  apply elem_of_list_to_set, list_elem_of_fmap in H as (x & [= -> ->] & Hx). destruct (Hp _ Hx) as (q & ? & ?). by exists r, q.
Qed.

Lemma new_deploy_ok s t i r d :
  tables_ok s t -> rel t !! i = Some r -> dp_release d = i -> MAX_SMALL <= deploy_count r -> tables_ok s (new_deploy d t).
Proof.
  intros [] Hi Hd Hc. constructor; cbn; eauto.
  - intros j x [[<- <-]|[_ ?]]%lookup_insert_Some; [rewrite Hd; eauto|eauto].
  - intros j Hj. rewrite lookup_insert_ne by lia. apply ok_deploy_ids0. lia.
  - intros j x Hx. destruct (ok_rows0 _ _ Hx) as (H1 & H2). split; [|done]. rewrite deploys_of_insert by (apply ok_deploy_ids0; lia). rewrite H1.
    destruct (Z.eqb_spec (dp_release d) j) as [E|]; [|lia]. rewrite Hd in E. subst j. rewrite Hi in Hx. injection Hx as <-. lia.
Qed.

Lemma counted_deploy_ok s t i r d :
  tables_ok s t -> rel t !! i = Some r -> dp_release d = i -> deploy_count r + 1 <= MAX_SMALL ->
  tables_ok s (with_rel (<[i := set_deploy_count (deploy_count r + 1) r]> (rel (new_deploy d t))) (new_deploy d t)).
Proof.
  intros Ht Hi Hd Hc. pose proof (ok_rows _ _ Ht _ _ Hi) as (Hn & Hcom). pose proof (ok_deploy_ids _ _ Ht _ (Z.le_refl _)) as Hnone.
  pose proof (fun j => kept_insert i (set_deploy_count (deploy_count r + 1) r) (rel t) j) as Hk. destruct Ht. constructor; cbn; eauto.
  - intros j Hj. destruct (decide (j = i)) as [->|]; [by rewrite ok_ids0 in Hi|]. rewrite lookup_insert_ne by done. auto.
  - intros j k x y [[<- <-]|[_ Hj]]%lookup_insert_Some [[<- <-]|[_ Hk2]]%lookup_insert_Some; cbn; eauto.
  - intros j p (x & q & Hj & Hq & Hpo)%ok_links0. destruct (decide (j = i)) as [->|]; [|exists x, q; by rewrite lookup_insert_ne].
    rewrite Hi in Hj. injection Hj as <-. eexists _, q. by rewrite lookup_insert_eq.
  - intros j b Hb. apply ok_bundles0 in Hb. unfold bundle_ok in *. cbn. destruct (bu_release b); eauto.
  - intros j x [[<- <-]|[_ Hj]]%lookup_insert_Some; [rewrite Hd; eauto|eauto].
  - intros j Hj. rewrite lookup_insert_ne by lia. apply ok_deploy_ids0. lia.
  - intros j x [[<- <-]|[Hne Hj]]%lookup_insert_Some.
    + split; [|done]. cbn. rewrite deploys_of_insert, Hd, Z.eqb_refl by done. unfold MAX_SMALL in *. lia.
    + destruct (ok_rows0 _ _ Hj) as [Hx ?]. split; [|done]. rewrite deploys_of_insert by done. destruct (Z.eqb_spec (dp_release d) j) as [E|]; [congruence|]. by rewrite Z.add_0_r.
Qed.

Lemma unset_Some ids m k i : unset ids m !! k = Some i <-> m !! k = Some i /\ i ∉ ids.
Proof. unfold unset. by rewrite map_lookup_filter_Some. Qed.

Lemma needs_release_false ids t j b i :
  needs_release ids t = false -> bundles t !! j = Some b -> bu_release b = Some i -> i ∈ ids -> bu_debug_id b <> None.
Proof.
  intros H Hj Hi Hin He. assert (needs_release ids t = true) as E; [|by rewrite E in H]. apply existsb_exists. exists (j, b).
  split; [by apply list_elem_of_In, elem_of_map_to_list|]. cbn. rewrite He, Hi. by apply bool_decide_eq_true.
Qed.

Lemma no_release_ok ids t t' j b :
  needs_release ids t = false -> bundle_ok t b -> bundles t !! j = Some b -> (forall i, i ∉ ids -> is_Some (rel t !! i) -> is_Some (rel t' !! i)) ->
  bundle_ok t' (no_release ids b).
Proof.
  intros Hn Hb Hj Hr. unfold bundle_ok, no_release in *. destruct (bu_release b) as [i|] eqn:E; [|by rewrite E].
  case_bool_decide as Hi; cbn; [by eapply needs_release_false|]. rewrite E. auto.
Qed.

Lemma delete_releases_ok s t ids t' : tables_ok s t -> delete_releases ids t = Ok t' -> tables_ok s t'.
Proof.
  unfold delete_releases. intros Ht. destruct (needs_release ids t) eqn:En; [done|]. intros [= <-].
  assert (forall i, i ∉ ids -> is_Some (rel t !! i) -> is_Some (filter (fun kv => kv.1 ∉ ids) (rel t) !! i)) as Hk.
  { intros i Hi [r Hr]. exists r. by apply map_lookup_filter_Some. }
  destruct Ht. constructor; cbn.
  - intros i Hi. apply map_lookup_filter_None. left. auto.
  - intros i j r r' [? _]%map_lookup_filter_Some [? _]%map_lookup_filter_Some. eauto.
  - intros i p [Hi Hl]%elem_of_filter. apply ok_links0 in Hl as (r & q & Hr & Hq). exists r, q. split; [|done]. by apply map_lookup_filter_Some.
  - intros j b. rewrite lookup_fmap. intros (b0 & Hb & ->)%fmap_Some_1. eapply no_release_ok; eauto.
  - intros j d [Hd Hi]%map_lookup_filter_Some. apply Hk; eauto.
  - intros j Hj. apply map_lookup_filter_None. left. auto.
  - intros i r [Hr Hi]%map_lookup_filter_Some. destruct (ok_rows0 _ _ Hr) as [H1 ?]. split; [|done]. rewrite deploys_of_filter; [done|]. intros j d _ <-. done.
  - intros k i [Hi ?]%unset_Some. apply Hk; eauto.
  - intros k i [Hi ?]%unset_Some. apply Hk; eauto.
  - intros k i [Hi ?]%unset_Some. apply Hk; eauto.
Qed.

Lemma delete_bundles_ok s t (P : Z * Bundle -> Prop) `{!forall x, Decision (P x)} : tables_ok s t -> tables_ok s (with_bundles (filter P (bundles t)) t).
Proof. intros []. constructor; cbn; try done. intros j b [Hb _]%map_lookup_filter_Some. by apply ok_bundles0 in Hb. Qed.

(** *** What a request leaves alone *)

Record untouched (i : Z) (t t' : Tables) : Prop := {
  un_row : rel t' !! i = rel t !! i; un_links : forall p, (i, p) ∈ links t' <-> (i, p) ∈ links t;
  un_bundles : forall j b, bu_release b = Some i -> bundles t' !! j = Some b <-> bundles t !! j = Some b;
  un_deploys : forall j d, dp_release d = i -> deploys t' !! j = Some d <-> deploys t !! j = Some d }.

Lemma rel_untouched_refl i t : untouched i t t.
Proof. done. Qed.

Lemma delete_releases_untouched t ids t' i : delete_releases ids t = Ok t' -> i ∉ ids -> untouched i t t'.
Proof.
  unfold delete_releases. destruct (needs_release ids t); [done|]. intros [= <-] Hi. constructor; cbn.
  - apply option_eq. intros r. rewrite map_lookup_filter_Some. naive_solver.
  - intros p. rewrite elem_of_filter. naive_solver.
  - intros j b Hb. rewrite lookup_fmap, fmap_Some. split.
    + intros (b0 & H & ->). unfold no_release in *. destruct (bu_release b0) as [k|] eqn:E; [|done]. case_bool_decide; [done|]. done.
    + intros H. exists b. split; [done|]. unfold no_release. rewrite Hb. by rewrite bool_decide_eq_false_2.
  - intros j d <-. rewrite map_lookup_filter_Some. naive_solver.
Qed.

Section effects.
Context (s : State) (a : Auth).

Lemma member_of_role user o organization_slug : member_of s user o organization_slug = true -> role_in s o user <> None.
Proof. unfold member_of. destruct (orgs s !! o); [|done]. intros [_ H%bool_decide_eq_true]%andb_prop Hn. rewrite Hn in H. by destruct H. Qed.

Lemma queryset_in o user id v x t i r :
  (i, r) ∈ get_releases_queryset s o user id v x t -> rel t !! i = Some r /\ role_in s (re_org r) user <> None.
Proof.
  intros [H1 H2%elem_of_map_to_list]%list_elem_of_filter. split; [done|]. unfold release_matches in H1. cbn in H1.
  apply Is_true_true in H1. repeat apply andb_prop in H1 as [H1 _]. by eapply member_of_role.
Qed.

Lemma one_release_reply (P : Tables -> Prop) o id v x t k :
  P t -> (forall i r, rel t !! i = Some r -> role_in s (re_org r) (auth_user a) <> None -> P (k i r).2) ->
  P (one_release (get_releases_queryset s o (auth_user a) id v x t) t k).2.
Proof.
  intros H1 H2. unfold one_release, get_or_404. destruct (get_releases_queryset _ _ _ _ _ _ _) as [|[i r] [|]] eqn:E; [done| |done].
  assert ((i, r) ∈ get_releases_queryset s o (auth_user a) id v x t) as [? ?]%queryset_in by (rewrite E; apply list_elem_of_here). by apply H2.
Qed.

Lemma rel_granted_reply (P : Tables -> Prop) l t k : P t -> P k.2 -> P (granted l a t k).2.
Proof. intros ? ?. unfold granted. by destruct (has_permission _ _) as [[]|]. Qed.

Lemma read_back_tables o i x n t : (read_back s a o i x n t).2 = t.
Proof. unfold read_back. by destruct (get_releases_queryset _ _ _ _ _ _ _) as [|? [|]]. Qed.

Lemma get_or_create_ok now o version p t i t' :
  tables_ok s t -> get_or_create_release now o version p t = Ok (i, t') ->
  tables_ok s t' /\ (exists r, rel t' !! i = Some r /\ re_org r = o) /\ forall j, is_Some (rel t !! j) -> untouched j t t'.
Proof.
  intros Ht. unfold get_or_create_release. destruct (find_row _ _) as [[k r]|] eqn:E.
  - intros [= <- <-]. apply find_row_Some in E as [Hk [Ho _]%andb_prop]. split; [done|]. split; [exists r; split; [done|lia]|]. intros j _. apply rel_untouched_refl.
  - destruct (negb _); [done|]. intros [= <- <-]. split_and!.
    + apply new_release_ok; [done| |done..]. cbn. intros j r Hj Ho Hv. apply (find_row_None _ _ E) in Hj. rewrite Ho, Hv, Z.eqb_refl, ustr_eqb_refl in Hj. done.
    + eexists. split; [apply lookup_insert_eq|done].
    + intros j Hj. constructor; cbn; try done. rewrite lookup_insert_ne; [done|]. intros <-. rewrite (ok_ids _ _ Ht) in Hj by done. by destruct Hj.
Qed.

Definition fine (t t' : Tables) : Prop :=
  tables_ok s t' /\ forall i r, rel t !! i = Some r -> role_in s (re_org r) (auth_user a) = None -> untouched i t t'.

Lemma rel_fine_refl t : tables_ok s t -> fine t t.
Proof. intros H. split; [done|]. intros. apply rel_untouched_refl. Qed.

Lemma create_fine now o version p ps t i t' :
  tables_ok s t -> role_in s o (auth_user a) <> None -> (forall p, p ∈ ps -> exists q, projects s !! p = Some q /\ p_org q = o) ->
  get_or_create_release now o version p t = Ok (i, t') -> fine t (link i ps t').
Proof.
  intros Ht Ho Hp H. destruct (get_or_create_ok _ _ _ _ _ _ _ Ht H) as (Ht' & (r & Hr & Hro) & Hu). split.
  - apply (link_ok s t' i r); [done..|]. by rewrite Hro.
  - intros j x Hj Hx. destruct (Hu j) as [H1 H2 H3 H4]; [by rewrite Hj|]. constructor; [done| |done..]. intros q. rewrite <- H2. cbn. rewrite elem_of_union.
    split; [intros [Hin|]; [exfalso|done]|by right]. apply elem_of_list_to_set, list_elem_of_fmap in Hin as (y & [= -> _] & _).
    rewrite H1 in Hr. rewrite Hj in Hr. injection Hr as ->. congruence.
Qed.

(** Changing the row of a release of the user's. *)
Lemma set_row_fine t i r r' :
  tables_ok s t -> rel t !! i = Some r -> role_in s (re_org r) (auth_user a) <> None -> re_org r' = re_org r -> re_version r' = re_version r ->
  row_ok (deploys t) i r' -> fine t (with_rel (<[i := r']> (rel t)) t).
Proof.
  intros Ht Hi Ho H1 H2 H3. split; [by eapply set_row_ok|]. intros j x Hj Hx. constructor; cbn; try done. apply lookup_insert_ne. intros <-. congruence.
Qed.
End effects.

Lemma projects_of_in s o slugs p : p ∈ projects_of s o slugs -> exists q, projects s !! p = Some q /\ p_org q = o.
Proof.
  intros ((k & q) & -> & Hin)%list_elem_of_fmap. apply list_elem_of_filter in Hin as [Hp%Is_true_true Hin%elem_of_map_to_list].
  apply andb_prop in Hp as [Hp _]. exists q. split; [done|]. by apply Z.eqb_eq.
Qed.

Lemma org_with_role_Some s user sl least o x : org_with_role s user sl least = Some (o, x) -> role_in s o user <> None.
Proof. intros [_ H]%find_row_Some. apply andb_prop in H as [_ H]. by destruct (role_in s o user). Qed.

Lemma get_project_role s user sl psl least p x : get_project s user sl psl least = Some (p, x) -> projects s !! p = Some x /\ role_in s (p_org x) user <> None.
Proof.
  intros [H1 H2]%find_row_Some. split; [done|]. apply andb_prop in H2 as [_ H2]. destruct (orgs s !! p_org x); [|done]. apply andb_prop in H2 as [_ H2].
  by destruct (role_in s (p_org x) user).
Qed.

Lemma row_ok_update m i r p : row_ok m i r -> row_ok m i (set_update p r).
Proof. done. Qed.

Lemma deploys_bound m i r : row_ok m i r -> deploy_count r <= MAX_SMALL.
Proof. intros [-> _]. lia. Qed.

Lemma create_deploy_fine s a i r p t :
  tables_ok s t -> rel t !! i = Some r -> role_in s (re_org r) (auth_user a) <> None ->
  let t' := new_deploy {| dp_release := i; dp_environment := di_environment p; dp_url := di_url p; dp_started := di_started p; dp_finished := di_finished p |} t in
  fine s a t (if MAX_SMALL <? deploy_count r + 1 then t' else with_rel (<[i := set_deploy_count (deploy_count r + 1) r]> (rel t')) t').
Proof.
  intros Ht Hi Ho t'. assert (forall j x, rel t !! j = Some x -> role_in s (re_org x) (auth_user a) = None -> j <> i) as Hne by (intros j x Hj Hx ->; congruence).
  assert (forall j x y, j <> i -> dp_release y = j -> deploys t' !! x = Some y <-> deploys t !! x = Some y) as Hd.
  { intros j x y Hj Hy. cbn. rewrite lookup_insert_Some. split; [|intros H; right; split; [|done]].
    - intros [[_ <-]|[_ ?]]; [cbn in Hy; congruence|done].
    - intros <-. by rewrite (ok_deploy_ids _ _ Ht) in H. }
  destruct (Z.ltb_spec MAX_SMALL (deploy_count r + 1)).
  - split; [eapply new_deploy_ok; [done|exact Hi|done|lia]|]. intros j x Hj Hx. constructor; cbn; [done..|]. intros k d Hk. by eapply Hd; [eapply Hne|].
  - split; [by apply counted_deploy_ok|]. intros j x Hj Hx. pose proof (Hne _ _ Hj Hx). constructor; cbn; [by apply lookup_insert_ne|done..|]. intros k d Hk. by eapply Hd.
Qed.

Lemma create_commits_row m i r l : row_ok m i r -> len l <= MAX_SMALL -> row_ok m i (set_commits l r).
Proof. intros (H & _) Hl. split; [done|]. cbn. unfold len in *. rewrite length_take. lia. Qed.

Lemma delete_release_fine s a o x v t : tables_ok s t -> fine s a t (delete_release s a o x v t).2.
Proof.
  intros Ht. unfold delete_release. apply rel_granted_reply; [by apply rel_fine_refl|].
  set (l := get_releases_queryset s o (auth_user a) None (Some v) x t). destruct l as [|y l'] eqn:E; [by apply rel_fine_refl|]. rewrite <- E.
  destruct (delete_releases _ t) as [t'|] eqn:Ed; [|by apply rel_fine_refl]. split; [by eapply delete_releases_ok|].
  intros i r Hi Hr. eapply delete_releases_untouched; [done|]. intros ((k & r') & -> & Hin)%elem_of_list_to_set%list_elem_of_fmap.
  subst l. apply queryset_in in Hin as [Hk Hn]. cbn in Hi. congruence.
Qed.

Lemma delete_release_file_fine s a o x v j t : tables_ok s t -> fine s a t (delete_release_file s a o x v j t).2.
Proof.
  intros Ht. unfold delete_release_file. apply rel_granted_reply; [by apply rel_fine_refl|].
  set (l := get_release_files_queryset s o (auth_user a) (Some v) x (Some j) t). destruct l as [|y l'] eqn:E; [by apply rel_fine_refl|]. rewrite <- E.
  split; [by apply delete_bundles_ok|]. intros i r Hi Hr. constructor; cbn; try done. intros k b Hb. rewrite map_lookup_filter_Some. cbn.
  split; [by intros [? _]|]. intros Hk. split; [done|]. intros ((k' & b') & -> & Hin)%list_elem_of_fmap. subst l.
  apply list_elem_of_filter in Hin as [Hm%Is_true_true Hin%elem_of_map_to_list]. cbn in *. rewrite Hk in Hin. injection Hin as <-.
  unfold file_matches in Hm. rewrite Hb, Hi in Hm. repeat apply andb_prop in Hm as [Hm _]. by apply member_of_role in Hm.
Qed.

Lemma rel_handle_fine now s a r t : tables_ok s t -> fine s a t (handle now s a r t).2.
Proof.
  intros Ht. pose proof (rel_fine_refl s a t Ht) as Hsame. destruct r as [o v p l|o x v p|o x v p|o x v|o x v i|o v p|o v l]; cbn [handle].
  - unfold create_release. apply rel_granted_reply; [done|]. destruct (org_with_role _ _ _ _) as [[k y]|] eqn:Eo; [|done]. pose proof (projects_of_in s k l) as Hp.
    destruct (projects_of s k l) as [|p0 ps]; [done|]. destruct (get_or_create_release _ _ _ _ _) as [[i t']|] eqn:E; [|done]. rewrite read_back_tables.
    eapply create_fine; [done|by eapply org_with_role_Some|done|done].
  - unfold create_project_release. apply rel_granted_reply; [done|]. destruct (get_project _ _ _ _ _) as [[k y]|] eqn:Ep; [|done]. apply get_project_role in Ep as [H1 H2].
    destruct (get_or_create_release _ _ _ _ _) as [[i t']|] eqn:E; [|done]. rewrite read_back_tables.
    eapply create_fine; [done|done| |done]. intros q ->%list_elem_of_singleton. by exists y.
  - unfold update_release. apply rel_granted_reply; [done|]. apply one_release_reply; [done|]. intros i r Hi Ho. destruct (negb _); [done|]. rewrite read_back_tables.
    eapply set_row_fine; [done..|]. by apply row_ok_update, (ok_rows _ _ Ht).
  - by apply delete_release_fine.
  - by apply delete_release_file_fine.
  - unfold create_deploy. apply rel_granted_reply; [done|]. apply one_release_reply; [done|]. intros i r Hi Ho. destruct (negb _); [done|].
    pose proof (create_deploy_fine s a i r p t Ht Hi Ho) as H. cbn zeta in H |- *. by destruct (MAX_SMALL <? deploy_count r + 1).
  - unfold create_commits. apply rel_granted_reply; [done|]. apply one_release_reply; [done|]. intros i r Hi Ho. destruct (Z.ltb_spec MAX_SMALL (len l)); [done|]. rewrite read_back_tables.
    eapply set_row_fine; [done..|]. apply create_commits_row; [by apply (ok_rows _ _ Ht)|done].
Qed.

(** Every request keeps the tables consistent: versions are unique in an organization, links
    join a release with a project of its organization, deploys, bundles, issues and events refer
    to releases that are there, a bundle has a debug id or a release, the number of deploys is
    counted exactly up to the width of the column, and at most a thousand commits are kept. *)
Theorem releases_consistent now s a r t : tables_ok s t -> tables_ok s (handle now s a r t).2.
Proof. intros Ht. by apply rel_handle_fine. Qed.

(** No request reads or changes a release of an organization its user is no member of: its
    row, links, bundles and deploys stay. *)
Theorem foreign_releases_untouched now s a r t i x :
  tables_ok s t -> rel t !! i = Some x -> role_in s (re_org x) (auth_user a) = None ->
  let t' := (handle now s a r t).2 in
  rel t' !! i = Some x /\ (forall p, (i, p) ∈ links t' <-> (i, p) ∈ links t)
  /\ (forall j b, bu_release b = Some i -> bundles t' !! j = Some b <-> bundles t !! j = Some b)
  /\ (forall j d, dp_release d = i -> deploys t' !! j = Some d <-> deploys t !! j = Some d).
Proof. intros Ht Hi Hx t'. destruct (rel_handle_fine now s a r t Ht) as [_ H]. destruct (H i x Hi Hx) as [H1 H2 H3 H4]. subst t'. by rewrite H1. Qed.

Lemma singleton_list {A} (l : list A) x : NoDup l -> (forall y, y ∈ l -> y = x) -> x ∈ l -> l = [x].
Proof.
  intros Hn Hu Hx. destruct l as [|y [|z l]]; [by apply elem_of_nil in Hx|f_equal; apply Hu, list_elem_of_here|].
  exfalso. apply NoDup_cons in Hn as [Hn _]. apply Hn. rewrite (Hu y), <- (Hu z); [apply list_elem_of_here|set_solver..].
Qed.

(** Among releases of which one row changed to one of the same organization and version, the
    same is found. *)
Lemma queryset_update s o user v x t i r r' :
  get_releases_queryset s o user None v x t = [(i, r)] -> re_org r' = re_org r -> re_version r' = re_version r ->
  get_releases_queryset s o user None v x (with_rel (<[i := r']> (rel t)) t) = [(i, r')].
Proof.
  intros Hq Ho Hv. assert (forall j y, (j, y) ∈ get_releases_queryset s o user None v x t <-> (j, y) = (i, r)) as Hall by (intros; by rewrite Hq, list_elem_of_singleton).
  unfold get_releases_queryset in *. pose proof (proj2 (Hall i r) eq_refl) as [Hm Hi%elem_of_map_to_list]%list_elem_of_filter. cbn in Hm.
  assert (forall j y, release_matches s o user None v x (with_rel (<[i := r']> (rel t)) t) j y = release_matches s o user None v x t j y) as Hsame by done.
  apply singleton_list.
  - apply NoDup_filter. apply NoDup_map_to_list.
  - intros [j y] [Hj Hin%elem_of_map_to_list]%list_elem_of_filter. cbn in Hin. apply lookup_insert_Some in Hin as [[<- <-]|[Hne Hin]]; [done|].
    assert ((j, y) = (i, r)) as [= -> ->]; [|done]. apply Hall, list_elem_of_filter. split; [exact Hj|by apply elem_of_map_to_list].
  - apply list_elem_of_filter. split; [|apply elem_of_map_to_list; cbn; apply lookup_insert_eq]. cbn. unfold release_matches in *. by rewrite Ho, Hv.
Qed.

(** The commits a client sets for a release are those it reads afterwards, up to the first
    thousand. *)
Theorem commits_roundtrip s a o v l t t' :
  create_commits s a o v l t = (200, t') -> list_commits s a o v t' = inr (take 1000 l).
Proof.
  unfold create_commits, list_commits, granted, one_release. destruct (has_permission _ _) as [[]|]; [|done..].
  destruct (get_releases_queryset s o (auth_user a) None (Some v) None t) as [|[i r] [|]] eqn:Eq; cbn [get_or_404]; [done| |done].
  destruct (MAX_SMALL <? len l); [done|]. intros H. pose proof (f_equal snd H) as Ht. rewrite read_back_tables in Ht. cbn in Ht. subst t'.
  rewrite (queryset_update _ _ _ _ _ _ _ _ (set_commits l r) Eq) by done. done.
Qed.

(** ** What the removal of old releases does *)

Definition old_releases (cutoff : Z) (t : Tables) : gset Z := dom (filter (fun kv => old cutoff kv = true) (rel t)).

Lemma elem_of_old cutoff t i : i ∈ old_releases cutoff t <-> exists r, rel t !! i = Some r /\ re_created r < cutoff.
Proof.
  unfold old_releases. rewrite elem_of_dom. unfold is_Some. setoid_rewrite map_lookup_filter_Some. unfold old. cbn.
  split; intros (r & H & Hc); exists r; (split; [done|lia]).
Qed.

Lemma elem_of_batch cutoff t i : i ∈ batch cutoff t -> i ∈ old_releases cutoff t.
Proof.
  intros H%elem_of_take. destruct H as (j & H & _). apply list_elem_of_lookup_2 in H. rewrite merge_sort_Permutation in H.
  apply list_elem_of_fmap in H as ([k r] & -> & Hin). apply list_elem_of_filter in Hin as [Ho Hin%elem_of_map_to_list]. apply elem_of_old. exists r.
  unfold old in Ho. cbn in *. split; [done|lia].
Qed.

Lemma batch_nil cutoff t : batch cutoff t = [] -> old_releases cutoff t = ∅.
Proof.
  unfold batch. intros H. apply set_eq. intros i. rewrite elem_of_old. split; [|set_solver]. intros (r & Hr & Hc). exfalso.
  assert (merge_sort Z.le (map fst (filter (fun kv => old cutoff kv = true) (map_to_list (rel t)))) = []) as Hm by (by destruct (merge_sort _ _)).
  pose proof (merge_sort_Permutation Z.le (map fst (filter (fun kv => old cutoff kv = true) (map_to_list (rel t))))) as Hp. rewrite Hm in Hp.
  apply Permutation_nil_l in Hp. assert (i ∈ (∅ : gset Z)); [|set_solver].
  assert (i ∈ map fst (filter (fun kv => old cutoff kv = true) (map_to_list (rel t)))) as Hin; [|rewrite <- Hp in Hin; by apply elem_of_nil in Hin].
  apply list_elem_of_fmap. exists (i, r). split; [done|]. apply list_elem_of_filter. split; [unfold old; cbn; lia|by apply elem_of_map_to_list].
Qed.

(** Releases and all that refers to them removed. *)
Definition purge (ids : gset Z) (t : Tables) : Tables := with_rel (filter (fun kv => kv.1 ∉ ids) (rel t)) (unlink_batch ids t).

Lemma filter_notin {A} (f : Z * A -> Z) (a b : gset Z) (m : gmap Z A) :
  filter (fun kv => f kv ∉ a) (filter (fun kv => f kv ∉ b) m) = filter (fun kv => f kv ∉ b ∪ a) m.
Proof. apply map_eq. intros i. apply option_eq. intros x. rewrite !map_lookup_filter_Some. set_solver. Qed.

Lemma filter_links (a b : gset Z) (m : gset (Z * Z)) : filter (fun l => l.1 ∉ a) (filter (fun l => l.1 ∉ b) m) = filter (fun l => l.1 ∉ b ∪ a) m.
Proof. apply set_eq. intros i. rewrite !elem_of_filter. set_solver. Qed.

Lemma no_release_twice (a b : gset Z) x : no_release a (no_release b x) = no_release (b ∪ a) x.
Proof.
  unfold no_release. destruct (bu_release x) as [i|] eqn:E; [|by rewrite E]. destruct (decide (i ∈ b)) as [Hb|Hb].
  - rewrite (bool_decide_eq_true_2 (i ∈ b)), (bool_decide_eq_true_2 (i ∈ b ∪ a)) by set_solver. done.
  - rewrite (bool_decide_eq_false_2 (i ∈ b)) by done. rewrite E. destruct (decide (i ∈ a)).
    + by rewrite !bool_decide_eq_true_2 by set_solver.
    + by rewrite !bool_decide_eq_false_2 by set_solver.
Qed.

Lemma purge_purge (a b : gset Z) t : purge a (purge b t) = purge (b ∪ a) t.
Proof.
  unfold purge, unlink_batch, with_rel, unset; cbn. rewrite (filter_links a b), !(filter_notin snd a b), (filter_notin fst a b), (filter_notin (fun kv => dp_release kv.2) a b).
  f_equal. rewrite <- map_fmap_compose. apply map_fmap_ext. intros i x _. apply no_release_twice.
Qed.

Lemma gmap_filter_all {A} (P : Z * A -> Prop) `{!forall x, Decision (P x)} (m : gmap Z A) : (forall i x, P (i, x)) -> filter P m = m.
Proof. intros HP. apply map_eq. intros i. apply option_eq. intros x. rewrite map_lookup_filter_Some. naive_solver. Qed.

Lemma purge_empty t : purge ∅ t = t.
Proof.
  unfold purge, unlink_batch, with_rel, unset; cbn. rewrite !gmap_filter_all by (intros ? ?; apply not_elem_of_empty).
  replace (filter _ (release_projects t)) with (release_projects t); [|apply set_eq; intros l; rewrite elem_of_filter; by split; [split; [apply not_elem_of_empty|]|intros [_ ?]]].
  replace (no_release ∅ <$> bundles t) with (bundles t); [by destruct t|]. symmetry. rewrite <- (map_fmap_id (bundles t)) at 2. apply map_fmap_ext.
  intros i b _. unfold no_release. by destruct (bu_release b).
Qed.

Lemma refers_unset ids m : refers ids (unset ids m) = false.
Proof.
  unfold refers. apply not_true_iff_false. rewrite existsb_exists. intros ([k i] & Hin%list_elem_of_In%elem_of_map_to_list & Hi%bool_decide_eq_true).
  apply unset_Some in Hin as [_ Hn]. done.
Qed.

Lemma unlinked_not_referenced ids t : (forall i p, (i, p) ∈ links t -> i ∉ ids) -> referenced ids (unlink_batch ids t) = false.
Proof.
  intros Hl. unfold referenced. cbn. rewrite !refers_unset, !orb_false_r. apply not_true_iff_false. rewrite !orb_true_iff, !existsb_exists.
  intros [[[H|H]|H]|H]; destruct H as ([k x] & Hin%list_elem_of_In & Hi); cbn in Hi.
  - apply elem_of_elements, Hl in Hin. by apply bool_decide_eq_true in Hi.
  - apply elem_of_elements, elem_of_filter in Hin as [Hn _]. by apply bool_decide_eq_true in Hi.
  - apply elem_of_map_to_list in Hin. rewrite lookup_fmap in Hin. apply fmap_Some_1 in Hin as (b & _ & ->). unfold no_release in Hi.
    destruct (bu_release b) as [i|] eqn:E; [|by rewrite E in Hi]. case_bool_decide as Hx; [done|]. rewrite E in Hi. by apply bool_decide_eq_true in Hi.
  - apply elem_of_map_to_list, map_lookup_filter_Some in Hin as [_ Hn]. by apply bool_decide_eq_true in Hi.
Qed.

Lemma old_purge cutoff ids t : old_releases cutoff (purge ids t) = old_releases cutoff t ∖ ids.
Proof.
  apply set_eq. intros i. rewrite elem_of_difference, !elem_of_old. cbn. setoid_rewrite map_lookup_filter_Some. cbn. naive_solver.
Qed.

(** What keeps the removal from failing: old releases are linked to no project, and bundles of
    old releases have debug ids. *)
Definition removable (cutoff : Z) (t : Tables) : Prop :=
  (forall i p, (i, p) ∈ links t -> i ∉ old_releases cutoff t) /\
  forall j b i, bundles t !! j = Some b -> bu_release b = Some i -> i ∈ old_releases cutoff t -> bu_debug_id b <> None.

Lemma purge_removable cutoff ids t : removable cutoff t -> removable cutoff (purge ids t).
Proof.
  intros [H1 H2]. split; intros *; rewrite old_purge; cbn.
  - intros H%H1. set_solver.
  - rewrite lookup_fmap. intros (b0 & Hb & ->)%fmap_Some_1 Hr Hi. unfold no_release in *. destruct (bu_release b0) as [k|] eqn:E; [|congruence].
    case_bool_decide; [done|]. eapply H2; [done..|]. set_solver.
Qed.

Lemma removable_needs cutoff ids t : removable cutoff t -> ids ⊆ old_releases cutoff t -> needs_release ids t = false.
Proof.
  intros [_ H] Hs. apply not_true_iff_false. unfold needs_release. rewrite existsb_exists. intros ([j b] & Hin%list_elem_of_In%elem_of_map_to_list & Hb). cbn in Hb.
  destruct (bu_debug_id b) eqn:Ed; [done|]. destruct (bu_release b) as [i|] eqn:Er; [|done]. apply bool_decide_eq_true in Hb. eapply H in Hin; [|done|by apply Hs]. done.
Qed.

Lemma cleanup_loop_ends cutoff fuel : forall total t,
  removable cutoff t -> (size (old_releases cutoff t) < fuel)%nat ->
  exists n, cleanup_loop (fun t => t) fuel cutoff total t = Some (Done n, purge (old_releases cutoff t) t).
Proof.
  induction fuel as [|fuel IH]; [lia|]. intros total t Hr Hf. cbn [cleanup_loop]. destruct (batch cutoff t) as [|x l] eqn:Eb.
  - exists total. by rewrite (batch_nil _ _ Eb), purge_empty.
  - rewrite <- Eb. set (ids := list_to_set (batch cutoff t) : gset Z).
    assert (ids ⊆ old_releases cutoff t) as Hs. { intros i Hi%elem_of_list_to_set. by apply elem_of_batch. }
    rewrite (removable_needs cutoff) by done. rewrite unlinked_not_referenced by (intros i p Hp%Hr; set_solver).
    assert (x ∈ ids) as Hx by (subst ids; rewrite Eb; set_solver).
    change (with_rel (filter (fun kv => kv.1 ∉ ids) (rel (unlink_batch ids t))) (unlink_batch ids t)) with (purge ids t).
    destruct (IH (total + len (filter (fun kv => kv.1 ∈ ids) (map_to_list (rel (unlink_batch ids t))))) (purge ids t)) as [n ->].
    + by apply purge_removable.
    + rewrite old_purge, size_difference by done. assert (size ids <> 0)%nat by (intros E%size_empty_iff; set_solver).
      assert (size ids <= size (old_releases cutoff t))%nat by (by apply subseteq_size). lia.
    + exists n. rewrite purge_purge, old_purge. do 3 f_equal. apply set_eq. intros i. rewrite elem_of_union, elem_of_difference. destruct (decide (i ∈ ids)); naive_solver.
Qed.

(** The removal of old releases ends and removes exactly the releases older than the
    retention with everything that refers to them, provided that none of them is linked to a
    project and their bundles have debug ids. *)
Theorem cleanup_removes_old fuel now retention_days t :
  let cutoff := now - retention_days * 86400 in
  removable cutoff t -> (size (old_releases cutoff t) < fuel)%nat ->
  exists n, cleanup_old_releases (fun t => t) fuel now retention_days t = Some (Done n, purge (old_releases cutoff t) t).
Proof. intros cutoff Hr Hf. by apply cleanup_loop_ends. Qed.

(** As soon as one of the first thousand old releases is linked to a project, and every
    release the ingest makes is, the removal removes nothing, so that the next run meets the same
    batch, but takes the releases of this batch from their events and issues. *)
Theorem linked_release_stays fuel now retention_days t i p :
  let cutoff := now - retention_days * 86400 in
  i ∈ batch cutoff t -> (i, p) ∈ links t -> needs_release (list_to_set (batch cutoff t)) t = false ->
  let t' := unlink_batch (list_to_set (batch cutoff t)) t in
  cleanup_old_releases (fun t => t) (S fuel) now retention_days t = Some (Skipped 0, t')
  /\ rel t' = rel t /\ (i, p) ∈ links t'
  /\ (forall k j, j ∈ batch cutoff t -> event_release t' !! k <> Some j /\ first_release t' !! k <> Some j /\ resolved_in t' !! k <> Some j /\ last_release t' !! k <> Some j).
Proof.
  intros cutoff Hi Hl Hn t'. split; [|split; [done|split; [done|]]].
  - unfold cleanup_old_releases. cbn [cleanup_loop]. fold cutoff.
    assert (referenced (list_to_set (batch cutoff t)) t' = true) as Href.
    { unfold referenced. rewrite !orb_true_iff. do 6 left. apply existsb_exists. exists (i, p). split; [by apply list_elem_of_In, elem_of_elements|].
      by apply bool_decide_eq_true, elem_of_list_to_set. }
    subst t'. destruct (batch cutoff t) as [|x l]; [by apply elem_of_nil in Hi|]. by rewrite Hn, Href.
  - intros k j Hj. assert (forall m, unset (list_to_set (batch cutoff t)) m !! k <> Some j) as H; [|split_and!; apply H].
    intros m [_ H]%unset_Some. apply H. by apply elem_of_list_to_set.
Qed.

(** ** Examples *)

Definition demo_state : State :=
  {| orgs := {[1 := {| slug := u "o"; org_name := u "O"; open_membership := true; is_deleted := false |}]}; next_org := 2;
     org_users := {[1 := {| org := 1; ou_user := Some 7; role := OWNER; email := None |}]}; next_ou := 2; owners := {[1 := 1]}; teams := ∅; next_team := 1;
     projects := {[3 := {| p_org := 1; p_slug := u "web" |}]}; users := ∅; attempts := ∅; jobs := [] |}.

Definition a_release (version : ustr) (created : Z) : ReleaseRow :=
  {| re_org := 1; re_version := version; re_ref := None; re_released := Some 5; re_created := created; re_commits := None; commit_count := 0; deploy_count := 0 |}.

(** Releases 1 and 2, the first linked to the project, with two bundles that have no debug id
    and an event. *)
Definition demo_tables : Tables :=
  {| rel := {[1 := a_release (u "1.0") 100; 2 := a_release (u "2.0") 900000]}; next_rel := 3; links := {[(1, 3)]}; release_projects := ∅;
     bundles := {[1 := {| bu_org := 1; bu_debug_id := None; bu_release := Some 2; bu_file := 11 |}; 2 := {| bu_org := 1; bu_debug_id := None; bu_release := Some 2; bu_file := 12 |}]};
     deploys := ∅; next_deploy := 1; first_release := ∅; resolved_in := ∅; last_release := {[50 := 1]}; event_release := {[60 := 1]}; assembling := [] |}.

Lemma demo_rel i r : rel demo_tables !! i = Some r -> (i = 1 /\ r = a_release (u "1.0") 100) \/ (i = 2 /\ r = a_release (u "2.0") 900000).
Proof.
  change (rel demo_tables) with (<[1 := a_release (u "1.0") 100]> ({[2 := a_release (u "2.0") 900000]} : gmap Z ReleaseRow)).
  intros [[<- <-]|[_ [<- <-]%lookup_singleton_Some]]%lookup_insert_Some; auto.
Qed.

Lemma demo_ok : tables_ok demo_state demo_tables.
Proof.
  constructor.
  - intros i Hi. destruct (rel demo_tables !! i) as [r|] eqn:E; [|done]. apply demo_rel in E. change (next_rel demo_tables) with 3 in Hi. lia.
  - intros i j r r' [[-> ->]|[-> ->]]%demo_rel [[-> ->]|[-> ->]]%demo_rel; [done|discriminate..|done].
  - intros i p H. change (links demo_tables) with ({[(1, 3)]} : gset (Z * Z)) in H. apply elem_of_singleton in H as [= -> ->].
    exists (a_release (u "1.0") 100), {| p_org := 1; p_slug := u "web" |}. split; [|split]; by_compute.
  - intros j b H. change (bundles demo_tables) with (<[1 := {| bu_org := 1; bu_debug_id := None; bu_release := Some 2; bu_file := 11 |}]>
      ({[2 := {| bu_org := 1; bu_debug_id := None; bu_release := Some 2; bu_file := 12 |}]} : gmap Z Bundle)) in H.
    apply lookup_insert_Some in H as [[_ <-]|[_ [_ <-]%lookup_singleton_Some]]; exists (a_release (u "2.0") 900000); by_compute.
  - intros j d H. change (deploys demo_tables) with (∅ : gmap Z DeployRow) in H. by rewrite lookup_empty in H.
  - intros j _. apply lookup_empty.
  - intros i r [[-> ->]|[-> ->]]%demo_rel; repeat split; vm_compute; congruence.
  - intros k i H. change (first_release demo_tables) with (∅ : gmap Z Z) in H. by rewrite lookup_empty in H.
  - intros k i H. change (resolved_in demo_tables) with (∅ : gmap Z Z) in H. by rewrite lookup_empty in H.
  - intros k i H. change (event_release demo_tables) with ({[60 := 1]} : gmap Z Z) in H. apply lookup_singleton_Some in H as [<- <-].
    exists (a_release (u "1.0") 100). by_compute.
Qed.

Lemma releases_consistent_witness :
  tables_ok demo_state (handle 1000 demo_state (session 7) (CreateRelease (u "o") (u "3.0") {| up_ref := None; up_released := None |} [u "web"]) demo_tables).2.
Proof. apply (releases_consistent 1000 demo_state (session 7)). exact demo_ok. Defined.

Lemma foreign_releases_untouched_witness :
  let t' := (handle 1000 demo_state (session 8) (DeleteRelease (u "o") None (u "1.0")) demo_tables).2 in
  rel t' !! 1 = Some (a_release (u "1.0") 100) /\ (forall p, (1, p) ∈ links t' <-> (1, p) ∈ links demo_tables)
  /\ (forall j b, bu_release b = Some 1 -> bundles t' !! j = Some b <-> bundles demo_tables !! j = Some b)
  /\ (forall j d, dp_release d = 1 -> deploys t' !! j = Some d <-> deploys demo_tables !! j = Some d).
Proof. apply (foreign_releases_untouched 1000 demo_state (session 8) _ demo_tables 1 _ demo_ok); by_compute. Defined.

Lemma commits_roundtrip_witness :
  let c := {| c_id := u "abc"; c_message := u "fix"; c_author_name := []; c_author_email := [] |} in
  list_commits demo_state (session 7) (u "o") (u "1.0") (create_commits demo_state (session 7) (u "o") (u "1.0") [c] demo_tables).2 = inr [c].
Proof.
  intros c. apply (commits_roundtrip demo_state (session 7) (u "o") (u "1.0") [c] demo_tables). by rewrite (surjective_pairing (create_commits _ _ _ _ _ _)).
Defined.

Lemma demo_old i : i ∈ old_releases 113600 demo_tables <-> i = 1.
Proof.
  rewrite elem_of_old. split; [|intros ->; exists (a_release (u "1.0") 100); split; [by_compute|cbn; lia]].
  intros (r & [[-> ->]|[-> ->]]%demo_rel & H); [done|cbn in H; lia].
Qed.

Lemma cleanup_removes_old_witness :
  let t := with_links ∅ demo_tables in
  exists n, cleanup_old_releases (fun t => t) 2 200000 1 t = Some (Done n, purge (old_releases 113600 t) t).
Proof.
  intros t. apply (cleanup_removes_old 2 200000 1 t).
  - split.
    + intros i p H. by apply elem_of_empty in H.
    + intros j b i Hb Hr Hi%demo_old. subst i. exfalso. change (bundles t !! j = Some b) with (bundles demo_tables !! j = Some b) in Hb.
      change (bundles demo_tables) with (<[1 := {| bu_org := 1; bu_debug_id := None; bu_release := Some 2; bu_file := 11 |}]>
        ({[2 := {| bu_org := 1; bu_debug_id := None; bu_release := Some 2; bu_file := 12 |}]} : gmap Z Bundle)) in Hb.
      apply lookup_insert_Some in Hb as [[_ <-]|[_ [_ <-]%lookup_singleton_Some]]; discriminate.
  - by vm_compute.
Defined.

Lemma linked_release_stays_witness :
  let t := demo_tables in let t' := unlink_batch (list_to_set (batch 113600 t)) t in
  cleanup_old_releases (fun t => t) 1 200000 1 t = Some (Skipped 0, t') /\ rel t' = rel t /\ (1, 3) ∈ links t'
  /\ (forall k j, j ∈ batch 113600 t -> event_release t' !! k <> Some j /\ first_release t' !! k <> Some j /\ resolved_in t' !! k <> Some j /\ last_release t' !! k <> Some j).
Proof.
  intros t. apply (linked_release_stays 0 200000 1 t 1 3).
  - apply (bool_decide_eq_true_1 (1 ∈ batch 113600 t)). by_compute.
  - apply (bool_decide_eq_true_1 ((1, 3) ∈ links t)). by_compute.
  - by_compute.
Defined.

(** Deleting the file 0 of a release deletes all its files. *)
Example file_zero_deletes_all :
  let r := delete_release_file demo_state (session 7) (u "o") None (u "2.0") 0 demo_tables in (r.1, size (bundles r.2)) = (204, 0%nat).
Proof. by_compute. Qed.

(** A release with a file that has no debug id cannot be deleted, nor can the removal pass it. *)
Example bundle_keeps_release :
  (fst (delete_release demo_state (session 7) (u "o") None (u "2.0") demo_tables), fst <$> cleanup_old_releases (fun t => t) 5 5000000 1 (with_links ∅ demo_tables))
  = (500, Some Crashed).
Proof. by_compute. Qed.

(** Setting the reference of a release sets its date to the present, too; setting the date takes
    the reference away. *)
Example update_resets_the_rest :
  let t1 := (update_release demo_state (session 7) (u "o") None (u "1.0") (validate_update 777 (Some (Some (u "main"))) None) demo_tables).2 in
  let t2 := (update_release demo_state (session 7) (u "o") None (u "1.0") (validate_update 778 None (Some (Some 6))) t1).2 in
  ((fun r => (re_ref r, re_released r)) <$> rel t1 !! 1,
   (fun r => (re_ref r, re_released r)) <$> rel t2 !! 1) = (Some (Some (u "main"), Some 777), Some (None, Some 6)).
Proof. by_compute. Qed.

(** Deleted through the API, a release stays the last one of an issue's index row. *)
Example last_release_dangles :
  let t := (delete_release demo_state (session 7) (u "o") None (u "1.0") demo_tables).2 in (rel t !! 1, last_release t !! 50, event_release t !! 60) = (None, Some 1, None).
Proof. by_compute. Qed.
