(* ===== verification/ProjectApi.v ===== *)
(** * The endpoints of projects

    [apps/projects/api.py] with its models, and [apps/environments/api.py]: projects, their
    keys, the notifications a user wants of them and the environments of a project.
    Organizations, members, teams and the slugs of projects are those of [Membership], the rest
    of a project is here. A handler gives the status of its response, 500 for an exception that
    leaves it, and the new state; there is no transaction around a request. *)
From S2P Require Import Prelude PyStr PyValue BitField Membership.

(** ** The tables *)

(** Of a project, what is not in [Membership.Project]. *)
Record Info := { pj_name : ustr; pj_platform : option ustr; event_throttle_rate : Z; pj_deleted : bool }.

Record KeyRow := { ky_project : Z; ky_name : ustr; ky_public : ustr; rate_limit_count : option Z; rate_limit_window : option Z }.

Record Environment := { en_org : Z; en_name : ustr }.
Record EnvironmentProject := { ep_project : Z; ep_environment : Z; is_hidden : bool }.

(** [user_alerts] by user and project; [deleting] has the projects whose deletion was put on
    the queue. *)
Record Tables := { info : gmap Z Info; next_project : Z; keys : gmap Z KeyRow; next_key : Z; user_alerts : gmap (Z * Z) Z;
  environments : gmap Z Environment; env_projects : gmap Z EnvironmentProject; deleting : list Z }.

Definition with_info m t := {| info := m; next_project := next_project t; keys := keys t; next_key := next_key t; user_alerts := user_alerts t;
  environments := environments t; env_projects := env_projects t; deleting := deleting t |}.
Definition with_keys m t := {| info := info t; next_project := next_project t; keys := m; next_key := next_key t; user_alerts := user_alerts t;
  environments := environments t; env_projects := env_projects t; deleting := deleting t |}.
Definition with_user_alerts m t := {| info := info t; next_project := next_project t; keys := keys t; next_key := next_key t; user_alerts := m;
  environments := environments t; env_projects := env_projects t; deleting := deleting t |}.
Definition with_env_projects m t := {| info := info t; next_project := next_project t; keys := keys t; next_key := next_key t; user_alerts := user_alerts t;
  environments := environments t; env_projects := m; deleting := deleting t |}.
Definition with_deleting j t := {| info := info t; next_project := next_project t; keys := keys t; next_key := next_key t; user_alerts := user_alerts t;
  environments := environments t; env_projects := env_projects t; deleting := deleting t ++ [j] |}.
Definition new_info i t := {| info := <[next_project t := i]> (info t); next_project := next_project t + 1; keys := keys t; next_key := next_key t;
  user_alerts := user_alerts t; environments := environments t; env_projects := env_projects t; deleting := deleting t |}.
Definition new_key k t := {| info := info t; next_project := next_project t; keys := <[next_key t := k]> (keys t); next_key := next_key t + 1;
  user_alerts := user_alerts t; environments := environments t; env_projects := env_projects t; deleting := deleting t |}.

Definition with_projects m s := {| orgs := orgs s; next_org := next_org s; org_users := org_users s; next_ou := next_ou s; owners := owners s; teams := teams s;
  next_team := next_team s; projects := m; users := users s; attempts := attempts s; jobs := jobs s |}.

Definition World : Type := State * Tables.
Abbreviation reply := (Z * World)%type.

(** ** Payloads, as validated: [None] is a field that is not set, [Some None] one set to null *)

Record ProjectIn := { in_name : ustr; in_slug : option (option ustr); in_platform : option (option ustr); in_rate : option (option Z) }.

Record ProjectKeyIn := { kin_name : option ustr; kin_rate_limit : option (Z * Z) }.

(** What the columns hold; a small integer is not negative. *)
Definition fits (n : Z) (s : ustr) : bool := len s <=? n.
Definition ofits (n : Z) (o : option ustr) : bool := match o with Some s => fits n s | None => true end.
Definition small (n : Z) : bool := (0 <=? n) && (n <=? 32767).

Definition info_fits (i : Info) : bool := fits 64 (pj_name i) && ofits 64 (pj_platform i) && small (event_throttle_rate i).

(** [setattr] of the fields that are set; a rate of null is refused by the column. *)
Definition set_fields (p : ProjectIn) (i : Info) : option Info :=
  match in_rate p with
  | Some None => None
  | r => Some {| pj_name := in_name p; pj_platform := default (pj_platform i) (in_platform p);
                 event_throttle_rate := match r with Some (Some n) => n | _ => event_throttle_rate i end; pj_deleted := pj_deleted i |}
  end.

(** ** Queries *)

Definition granted (permissions : list string) (a : Auth) (w : World) (k : reply) : reply :=
  match has_permission (map u permissions) a with Ok true => k | Ok false => (403, w) | Raise _ => (500, w) end.
Arguments granted (_)%_list _ _ _.

(** A project that is not deleted, in an organization that is not deleted, of the user. *)
Definition project_visible (w : World) (user i : Z) (p : Project) : bool :=
  match info w.2 !! i with Some x => negb (pj_deleted x) | None => false end &&
  match orgs w.1 !! p_org p with Some o => negb (is_deleted o) && bool_decide (is_Some (role_in w.1 (p_org p) user)) | None => false end.

Definition in_team (w : World) (team_slug : ustr) (i : Z) : bool :=
  existsb (fun kt : Z * Team => ustr_eqb (t_slug kt.2) team_slug && bool_decide (i ∈ team_projects kt.2)) (map_to_list (teams w.1)).

Definition in_org (w : World) (organization_slug : ustr) (p : Project) : bool :=
  match orgs w.1 !! p_org p with Some o => ustr_eqb (slug o) organization_slug | None => false end.

(** [get_projects_queryset] *)
Definition get_projects (w : World) (user : Z) (organization_slug team_slug : option ustr) : list (Z * Project) :=
  filter (fun kv => project_visible w user kv.1 kv.2 && match organization_slug with Some o => in_org w o kv.2 | None => true end
                    && match team_slug with Some t => in_team w t kv.1 | None => true end) (map_to_list (projects w.1)).

Definition find_project (w : World) (user : Z) (organization_slug project_slug : ustr) : option (Z * Project) :=
  find_row (fun i p => ustr_eqb (p_slug p) project_slug && project_visible w user i p && in_org w organization_slug p) (projects w.1).

(** The keys of a project, deleted or not, in an organization in which the user has at least a
    role. *)
Definition key_visible (w : World) (user : Z) (organization_slug project_slug : ustr) (least : Z) (k : KeyRow) : bool :=
  match projects w.1 !! ky_project k with
  | Some p => ustr_eqb (p_slug p) project_slug && in_org w organization_slug p && match role_in w.1 (p_org p) user with Some r => least <=? r | None => false end
  | None => false
  end.

Definition get_project_keys (w : World) (user : Z) (organization_slug project_slug : ustr) : list (Z * KeyRow) :=
  filter (fun kv => key_visible w user organization_slug project_slug MEMBER kv.2) (map_to_list (keys w.2)).

Definition get_key (w : World) (user : Z) (organization_slug project_slug : ustr) (least : Z) (key_id : ustr) : option (Z * KeyRow) :=
  find_row (fun _ k => ustr_eqb (ky_public k) key_id && key_visible w user organization_slug project_slug least k) (keys w.2).

(** ** Projects *)

(** What the field of the slug writes on a change, of the old slug and the one of the payload. *)
Section handlers.
Context (changed_slug : ustr -> option (option ustr) -> ustr).

Definition slug_taken (o : Z) (other : Z -> bool) (sl : ustr) (w : World) : bool :=
  bool_decide (is_Some (find_row (fun i p => other i && (p_org p =? o) && ustr_eqb (p_slug p) sl) (projects w.1))).

Definition update_project (a : Auth) (organization_slug project_slug : ustr) (p : ProjectIn) (w : World) : reply :=
  granted ["project:write"; "project:admin"]%string a w
    match find_project w (auth_user a) organization_slug project_slug with
    | None => (404, w)
    | Some (i, x) =>
        match info w.2 !! i with
        | None => (404, w)
        | Some old =>
            let sl := changed_slug (p_slug x) (in_slug p) in
            match set_fields p old with
            | Some new =>
                if negb (info_fits new && fits 50 sl) || slug_taken (p_org x) (fun j => negb (j =? i)) sl w then (500, w)
                else (200, (with_projects (<[i := {| p_org := p_org x; p_slug := sl |}]> (projects w.1)) w.1, with_info (<[i := new]> (info w.2)) w.2))
            | None => (500, w)
            end
        end
    end.

(** [Project.delete] marks the row and leaves the rest to a task. *)
Definition mark_deleted (i : Info) : Info := {| pj_name := pj_name i; pj_platform := pj_platform i; event_throttle_rate := event_throttle_rate i; pj_deleted := true |}.

Definition delete_project (a : Auth) (organization_slug project_slug : ustr) (w : World) : reply :=
  granted ["project:admin"]%string a w
    match find_project w (auth_user a) organization_slug project_slug with
    | None => (404, w)
    | Some (i, x) =>
        if match role_in w.1 (p_org x) (auth_user a) with Some r => ADMIN <=? r | None => false end
        then (204, (w.1, with_deleting i (with_info (alter mark_deleted i (info w.2)) w.2)))
        else (404, w)
    end.

Definition add_to_team (team i : Z) (s : State) : State :=
  with_teams (alter (fun t => {| t_org := t_org t; t_slug := t_slug t; members := members t; team_projects := {[i]} ∪ team_projects t |}) team (teams s)) s.

(** A key gets a new UUID; one that is in use raises. *)
Definition insert_key (k : KeyRow) (t : Tables) : res Tables :=
  if bool_decide (is_Some (find_row (fun _ x => ustr_eqb (ky_public x) (ky_public k)) (keys t))) then Raise IntegrityError else Ok (new_key k t).

(** [Project.save] of a new project with the slug the field generated; the key of the project
    is made after it. *)
Definition insert_project (o : Z) (new_slug : ustr) (i : Info) (public_key : ustr) (w : World) : res Z * World :=
  if negb (info_fits i && fits 50 new_slug) then (Raise DataError, w)
  else if slug_taken o (fun _ => true) new_slug w then (Raise IntegrityError, w)
  else
    let id := next_project w.2 in
    let w := (with_projects (<[id := {| p_org := o; p_slug := new_slug |}]> (projects w.1)) w.1, new_info i w.2) in
    match insert_key {| ky_project := id; ky_name := []; ky_public := public_key; rate_limit_count := None; rate_limit_window := None |} w.2 with
    | Ok t => (Ok id, (w.1, t))
    | Raise e => (Raise e, w)
    end.

Definition create_project (a : Auth) (organization_slug team_slug : ustr) (p : ProjectIn) (new_slug public_key : ustr) (w : World) : reply :=
  granted ["project:write"; "project:admin"]%string a w
    match find_row (fun _ t => ustr_eqb (t_slug t) team_slug &&
            match orgs w.1 !! t_org t with
            | Some o => ustr_eqb (slug o) organization_slug && match role_in w.1 (t_org t) (auth_user a) with Some r => ADMIN <=? r | None => false end
            | None => false
            end) (teams w.1), org_with_role w.1 (auth_user a) organization_slug ADMIN with
    | Some (team, _), Some (o, _) =>
        match set_fields p {| pj_name := []; pj_platform := None; event_throttle_rate := 0; pj_deleted := false |} with
        | None => (500, w)
        | Some i =>
            match insert_project o new_slug i public_key w with
            | (Raise _, w) => (500, w)
            | (Ok id, w) =>
                let w := (add_to_team team id w.1, w.2) in
                match projects w.1 !! id with
                | Some x => if project_visible w (auth_user a) id x then (201, w) else (500, w)
                | None => (500, w)
                end
            end
        end
    | _, _ => (404, w)
    end.

(** The filters [team:slug] and [!team:slug] of a query. *)
Definition team_filter (w : World) (part : ustr) (i : Z) : bool :=
  match split_on 58 part with
  | name :: ((_ :: _) as values) =>
      let value := join (u ":") values in
      if ustr_eqb name (u "team") then in_team w value i
      else if ustr_eqb name (u "!team") then negb (in_team w value i)
      else true
  | _ => true
  end.

Definition list_organization_projects (user : Z) (organization_slug : ustr) (query_parts : list ustr) (w : World) : list (Z * Project) :=
  filter (fun kv => forallb (fun part => team_filter w part kv.1) query_parts) (get_projects w user (Some organization_slug) None).

(** ** Keys *)

(** The payload is not used. *)
Definition update_project_key (a : Auth) (organization_slug project_slug key_id : ustr) (p : ProjectKeyIn) (w : World) : reply :=
  granted ["project:write"; "project:admin"]%string a w
    match get_key w (auth_user a) organization_slug project_slug MEMBER key_id with Some _ => (200, w) | None => (404, w) end.

Definition key_of (project : Z) (p : ProjectKeyIn) (public_key : ustr) : option KeyRow :=
  match kin_name p with
  | Some n => if fits 64 n && match kin_rate_limit p with Some (c, x) => small c && small x | None => true end
              then Some {| ky_project := project; ky_name := n; ky_public := public_key; rate_limit_count := fst <$> kin_rate_limit p;
                           rate_limit_window := snd <$> kin_rate_limit p |}
              else None
  | None => None
  end.

Definition create_project_key (a : Auth) (organization_slug project_slug : ustr) (p : ProjectKeyIn) (public_key : ustr) (w : World) : reply :=
  granted ["project:write"; "project:admin"]%string a w
    match find_project w (auth_user a) organization_slug project_slug with
    | None => (404, w)
    | Some (i, _) =>
        match key_of i p public_key with
        | Some k => match insert_key k w.2 with Ok t => (201, (w.1, t)) | Raise _ => (500, w) end
        | None => (500, w)
        end
    end.

Definition delete_project_key (a : Auth) (organization_slug project_slug key_id : ustr) (w : World) : reply :=
  granted ["project:admin"]%string a w
    match get_key w (auth_user a) organization_slug project_slug ADMIN key_id with
    | Some (i, _) => (204, (w.1, with_keys (delete i (keys w.2)) w.2))
    | None => (404, w)
    end.
End handlers.

(** ** Notifications *)

(** [user_id] is the user's own or [me], which is [None]; the entries of the payload have their
    project as a number, if it is one. *)
Definition own (a : Auth) (user_id : option Z) : bool := match user_id with Some i => i =? auth_user a | None => true end.

Definition user_notification_alerts (a : Auth) (user_id : option Z) (w : World) : option (list (Z * Z)) :=
  if own a user_id then Some (map (fun kv : (Z * Z) * Z => (kv.1.2, kv.2)) (filter (fun kv => kv.1.1 = auth_user a) (map_to_list (user_alerts w.2)))) else None.

Definition update_user_notification_alerts (a : Auth) (user_id : option Z) (items : list (option Z * Z)) (w : World) : reply :=
  if negb (own a user_id) then (404, w) else
  match items with
  | [(project, alert_status)] =>
      if negb (bool_decide (alert_status ∈ [1; 0; -1])) then (422, w) else
      match project with
      | None => (500, w)
      | Some i =>
          if alert_status =? -1 then (204, (w.1, with_user_alerts (delete (auth_user a, i) (user_alerts w.2)) w.2))
          else if bool_decide (is_Some (projects w.1 !! i)) then (204, (w.1, with_user_alerts (<[(auth_user a, i) := alert_status]> (user_alerts w.2)) w.2))
          else (500, w)
      end
  | _ => (422, w)
  end.

(** ** Environments *)

Definition env_of_user (w : World) (user : Z) (organization_slug : ustr) (e : Environment) : bool :=
  match orgs w.1 !! en_org e with Some o => ustr_eqb (slug o) organization_slug && bool_decide (is_Some (role_in w.1 (en_org e) user)) | None => false end.

(** [None] for every visibility; else one row for each link of the kind. *)
Definition list_environments (user : Z) (organization_slug : ustr) (hidden : option bool) (w : World) : list (Z * Environment) :=
  let l := filter (fun kv => env_of_user w user organization_slug kv.2) (map_to_list (environments w.2)) in
  match hidden with
  | None => l
  | Some b => flat_map (fun kv => map (fun _ => kv) (filter (fun x => ep_environment x.2 = kv.1 /\ is_hidden x.2 = b) (map_to_list (env_projects w.2)))) l
  end.

Definition env_project_matches (w : World) (user : Z) (organization_slug project_slug : ustr) (x : EnvironmentProject) : bool :=
  bool_decide (p_slug <$> projects w.1 !! ep_project x = Some project_slug) &&
  match environments w.2 !! ep_environment x with Some e => env_of_user w user organization_slug e | None => false end.

Definition list_environment_projects (user : Z) (organization_slug project_slug : ustr) (hidden : option bool) (w : World) : list (Z * EnvironmentProject) :=
  filter (fun kv => env_project_matches w user organization_slug project_slug kv.2 && match hidden with Some b => eqb (is_hidden kv.2) b | None => true end)
    (map_to_list (env_projects w.2)).

(** The name of the payload is set on the link, which has no such column. *)
Definition update_environment_project (a : Auth) (organization_slug project_slug name : ustr) (hidden : bool) (w : World) : reply :=
  granted ["project:write"; "project:admin"]%string a w
    match filter (fun kv => env_project_matches w (auth_user a) organization_slug project_slug kv.2 && bool_decide (en_name <$> environments w.2 !! ep_environment kv.2 = Some name))
            (map_to_list (env_projects w.2)) with
    | [] => (404, w)
    | [(i, x)] => (200, (w.1, with_env_projects (<[i := {| ep_project := ep_project x; ep_environment := ep_environment x; is_hidden := hidden |}]> (env_projects w.2)) w.2))
    | _ => (500, w)
    end.

(** ** Requests *)

Inductive Request :=
  | UpdateProject (organization_slug project_slug : ustr) (p : ProjectIn)
  | DeleteProject (organization_slug project_slug : ustr)
  | CreateProject (organization_slug team_slug : ustr) (p : ProjectIn) (new_slug public_key : ustr)
  | UpdateKey (organization_slug project_slug key_id : ustr) (p : ProjectKeyIn)
  | CreateKey (organization_slug project_slug : ustr) (p : ProjectKeyIn) (public_key : ustr)
  | DeleteKey (organization_slug project_slug key_id : ustr)
  | UpdateAlerts (user_id : option Z) (items : list (option Z * Z))
  | UpdateEnvironment (organization_slug project_slug name : ustr) (hidden : bool).

Definition handle (changed_slug : ustr -> option (option ustr) -> ustr) (a : Auth) (r : Request) (w : World) : reply :=
  match r with
  | UpdateProject o x p => update_project changed_slug a o x p w
  | DeleteProject o x => delete_project a o x w
  | CreateProject o t p sl k => create_project a o t p sl k w
  | UpdateKey o x k p => update_project_key a o x k p w
  | CreateKey o x p k => create_project_key a o x p k w
  | DeleteKey o x k => delete_project_key a o x k w
  | UpdateAlerts i l => update_user_notification_alerts a i l w
  | UpdateEnvironment o x n h => update_environment_project a o x n h w
  end.

(** ** The state stays consistent *)

Record world_ok (w : World) : Prop := {
  ok_members : wf w.1;
  ok_ids : forall i, next_project w.2 <= i -> projects w.1 !! i = None /\ info w.2 !! i = None;
  ok_dom : forall i, is_Some (projects w.1 !! i) <-> is_Some (info w.2 !! i);
  ok_slugs : forall i j p q, projects w.1 !! i = Some p -> projects w.1 !! j = Some q -> p_org p = p_org q -> p_slug p = p_slug q -> i = j;
  ok_orgs : forall i p, projects w.1 !! i = Some p -> is_Some (orgs w.1 !! p_org p);
  ok_info : forall i x, info w.2 !! i = Some x -> info_fits x = true;
  ok_key_ids : forall k, next_key w.2 <= k -> keys w.2 !! k = None;
  ok_keys : forall k x, keys w.2 !! k = Some x -> is_Some (projects w.1 !! ky_project x);
  ok_public : forall k l x y, keys w.2 !! k = Some x -> keys w.2 !! l = Some y -> ky_public x = ky_public y -> k = l;
  ok_alerts : forall k st, user_alerts w.2 !! k = Some st -> (st = 0 \/ st = 1) /\ is_Some (projects w.1 !! k.2);
  ok_teams : forall t x i, teams w.1 !! t = Some x -> i ∈ team_projects x -> exists p, projects w.1 !! i = Some p /\ p_org p = t_org x }.

(** What is left of a project: its row, its keys and its teams. *)
Record untouched (i : Z) (w w' : World) : Prop := {
  un_row : projects w'.1 !! i = projects w.1 !! i; un_info : info w'.2 !! i = info w.2 !! i;
  un_keys : forall k x, ky_project x = i -> keys w'.2 !! k = Some x <-> keys w.2 !! k = Some x;
  un_teams : forall t, (exists x, teams w'.1 !! t = Some x /\ i ∈ team_projects x) <-> exists x, teams w.1 !! t = Some x /\ i ∈ team_projects x }.

Lemma prj_untouched_refl i w : untouched i w w.
Proof. done. Qed.

Lemma prj_untouched_trans i w1 w2 w3 : untouched i w1 w2 -> untouched i w2 w3 -> untouched i w1 w3.
Proof. intros [A1 A2 A3 A4] [B1 B2 B3 B4]. constructor; [congruence..| |]. - intros k x Hx. by rewrite B3, A3. - intros t. by rewrite B4, A4. Qed.

Lemma kept_rows {A} (i : Z) (x : A) (m : gmap Z A) j : is_Some (m !! j) -> is_Some (<[i := x]> m !! j).
Proof. intros H. apply lookup_insert_is_Some'. by right. Qed.

Lemma with_projects_wf m s : wf s -> wf (with_projects m s).
Proof. intros []. by constructor. Qed.

(** Changing the rows of a project. *)
Lemma change_project_ok w i p p' x' :
  world_ok w -> projects w.1 !! i = Some p -> p_org p' = p_org p -> info_fits x' = true ->
  (forall j q, projects w.1 !! j = Some q -> j <> i -> p_org q = p_org p -> p_slug q <> p_slug p') ->
  world_ok (with_projects (<[i := p']> (projects w.1)) w.1, with_info (<[i := x']> (info w.2)) w.2).
Proof.
  intros [] Hi Ho Hx Hs. pose proof (fun j => kept_rows i p' (projects w.1) j) as Hk. constructor; cbn; try (by eauto).
  - by apply with_projects_wf.
  - intros j Hj. destruct (ok_ids0 _ Hj) as [H1 H2]. assert (j <> i) by (intros ->; congruence). by rewrite !lookup_insert_ne.
  - intros j. rewrite !lookup_insert_is_Some'. by rewrite ok_dom0.
  - intros j k q r [[<- <-]|[Hne Hj]]%lookup_insert_Some [[<- <-]|[Hne' Hj']]%lookup_insert_Some Hor Hsl; [done| | |eauto].
    + destruct (Hs k r); congruence.
    + destruct (Hs j q); congruence.
  - intros j q [[<- <-]|[_ Hj]]%lookup_insert_Some; [rewrite Ho|]; eauto.
  - intros j x [[<- <-]|[_ Hj]]%lookup_insert_Some; eauto.
  - intros k st Hst. destruct (ok_alerts0 _ _ Hst). auto.
  - intros t x j Ht Hin. destruct (ok_teams0 _ _ _ Ht Hin) as (q & Hq & Hqo). destruct (decide (j = i)) as [->|].
    + exists p'. rewrite lookup_insert_eq. split; [done|congruence].
    + exists q. by rewrite lookup_insert_ne.
Qed.

Lemma mark_deleted_ok w i : world_ok w -> world_ok (w.1, with_deleting i (with_info (alter mark_deleted i (info w.2)) w.2)).
Proof.
  intros []. constructor; cbn; try done.
  - intros j Hj. destruct (ok_ids0 _ Hj) as [? H]. split; [done|]. by apply lookup_alter_None.
  - intros j. by rewrite lookup_alter_is_Some.
  - intros j x [(-> & y & Hy & ->)|[_ Hy]]%lookup_alter_Some; [|eauto]. apply ok_info0 in Hy. done.
Qed.

Lemma new_project_ok w p x :
  world_ok w -> is_Some (orgs w.1 !! p_org p) -> info_fits x = true -> (forall j q, projects w.1 !! j = Some q -> p_org q = p_org p -> p_slug q <> p_slug p) ->
  world_ok (with_projects (<[next_project w.2 := p]> (projects w.1)) w.1, new_info x w.2).
Proof.
  intros [] Ho Hx Hs. pose proof (fun j => kept_rows (next_project w.2) p (projects w.1) j) as Hk. pose proof (ok_ids0 _ (Z.le_refl _)) as [Hn _].
  constructor; cbn; try (by eauto).
  - by apply with_projects_wf.
  - intros j Hj. destruct (ok_ids0 j) as [H1 H2]; [lia|]. by rewrite !lookup_insert_ne by lia.
  - intros j. rewrite !lookup_insert_is_Some'. by rewrite ok_dom0.
  - intros j k q r [[<- <-]|[Hne Hj]]%lookup_insert_Some [[<- <-]|[Hne' Hj']]%lookup_insert_Some Hor Hsl; [done| | |eauto].
    + by destruct (Hs _ _ Hj').
    + by destruct (Hs _ _ Hj).
  - intros j q [[<- <-]|[_ Hj]]%lookup_insert_Some; eauto.
  - intros j y [[<- <-]|[_ Hj]]%lookup_insert_Some; eauto.
  - intros k st Hst. destruct (ok_alerts0 _ _ Hst). auto.
  - intros t y j Ht Hin. destruct (ok_teams0 _ _ _ Ht Hin) as (q & Hq & Hqo). exists q. rewrite lookup_insert_ne; [done|]. intros <-. congruence.
Qed.

Lemma insert_key_ok w k t :
  world_ok w -> is_Some (projects w.1 !! ky_project k) -> insert_key k w.2 = Ok t ->
  world_ok (w.1, t) /\ forall i, i <> ky_project k -> untouched i w (w.1, t).
Proof.
  unfold insert_key. intros [] Hp. destruct (find_row _ _) as [y|] eqn:E; [by rewrite bool_decide_eq_true_2 by (by eexists)|].
  rewrite bool_decide_eq_false_2 by (by intros [? ?]). intros [= <-]. assert (forall l x, keys w.2 !! l = Some x -> ky_public x <> ky_public k) as Hu.
  { intros l x Hl He. apply (find_row_None _ _ E) in Hl. by rewrite He, ustr_eqb_refl in Hl. }
  split.
  - constructor; cbn; try done.
    + intros l Hl. rewrite lookup_insert_ne by lia. apply ok_key_ids0. lia.
    + intros l x [[<- <-]|[_ Hl]]%lookup_insert_Some; eauto.
    + intros l m x y [[<- <-]|[_ Hl]]%lookup_insert_Some [[<- <-]|[_ Hm]]%lookup_insert_Some He; [done| | |eauto].
      * by destruct (Hu _ _ Hm).
      * by destruct (Hu _ _ Hl).
  - intros i Hi. constructor; cbn; try done. intros l x Hx. rewrite lookup_insert_Some. split; [intros [[_ <-]|[_ ?]]; [congruence|done]|].
    intros Hl. right. split; [|done]. intros <-. by rewrite ok_key_ids0 in Hl.
Qed.

Lemma add_to_team_ok w team x i p :
  world_ok w -> teams w.1 !! team = Some x -> projects w.1 !! i = Some p -> p_org p = t_org x ->
  world_ok (add_to_team team i w.1, w.2) /\ forall j, j <> i -> untouched j w (add_to_team team i w.1, w.2).
Proof.
  intros [] Ht Hi Ho. split.
  - constructor; cbn; try done.
    + destruct ok_members0. constructor; cbn; try done.
      * intros j Hj. apply lookup_alter_None. auto.
      * intros j y [(-> & z & Hz & ->)|[_ Hz]]%lookup_alter_Some; [exact (wf_team _ _ Hz)|exact (wf_team _ _ Hz)].
      * intros j k y z Hj Hk. apply lookup_alter_Some in Hj as [(-> & y' & Hy & ->)|[_ Hy]]; apply lookup_alter_Some in Hk as [(-> & z' & Hz & ->)|[_ Hz]]; cbn; eauto.
    + intros t y j [(-> & z & Hz & ->)|[_ Hz]]%lookup_alter_Some Hj; [|eauto]. cbn in *. apply elem_of_union in Hj as [->%elem_of_singleton|Hj]; [|eauto].
      exists p. split; [done|]. congruence.
  - intros j Hj. constructor; cbn; try done. intros t. split.
    + intros (y & [(-> & z & Hz & ->)|[_ Hz]]%lookup_alter_Some & Hin); [|by exists y]. cbn in Hin. exists z. split; [done|set_solver].
    + intros (y & Hy & Hin). destruct (decide (t = team)) as [->|Hne]; [|exists y; by rewrite lookup_alter_ne].
      eexists. rewrite lookup_alter_eq, Hy. split; [done|]. cbn. set_solver.
Qed.

(** *** What a request does *)

Section effects.
Context (changed_slug : ustr -> option (option ustr) -> ustr) (a : Auth).

Definition fine (w w' : World) : Prop :=
  world_ok w' /\ forall i p, projects w.1 !! i = Some p -> role_in w.1 (p_org p) (auth_user a) = None -> untouched i w w'.

Lemma prj_fine_refl w : world_ok w -> fine w w.
Proof. intros H. split; [done|]. intros. apply prj_untouched_refl. Qed.

Lemma prj_granted_reply (P : World -> Prop) l w k : P w -> P k.2 -> P (granted l a w k).2.
Proof. intros ? ?. unfold granted. by destruct (has_permission _ _) as [[]|]. Qed.

Lemma find_project_Some w user o x i p :
  find_project w user o x = Some (i, p) -> projects w.1 !! i = Some p /\ project_visible w user i p = true /\ role_in w.1 (p_org p) user <> None.
Proof.
  intros [H1 H2]%find_row_Some. apply andb_prop in H2 as [H2 _]. apply andb_prop in H2 as [_ H2]. split_and!; [done|done|].
  unfold project_visible in H2. apply andb_prop in H2 as [_ H2]. destruct (orgs w.1 !! p_org p); [|done]. apply andb_prop in H2 as [_ H2%bool_decide_eq_true].
  intros E. rewrite E in H2. by destruct H2.
Qed.

Lemma key_visible_role w user o x least k : key_visible w user o x least k = true -> exists p, projects w.1 !! ky_project k = Some p /\ role_in w.1 (p_org p) user <> None.
Proof.
  unfold key_visible. destruct (projects w.1 !! ky_project k) as [p|]; [|done]. intros [_ H]%andb_prop. exists p. split; [done|]. by destruct (role_in _ _ _).
Qed.

Lemma slug_free o other sl w j q : slug_taken o other sl w = false -> projects w.1 !! j = Some q -> other j = true -> p_org q = o -> p_slug q <> sl.
Proof.
  intros H%bool_decide_eq_false Hj Ho Hq He. apply H. destruct (find_row _ _) as [y|] eqn:E; [by eexists|]. apply (find_row_None _ _ E) in Hj.
  by rewrite Ho, Hq, Z.eqb_refl, He, ustr_eqb_refl in Hj.
Qed.

Lemma update_project_fine o x p w : world_ok w -> fine w (update_project changed_slug a o x p w).2.
Proof.
  intros Hw. unfold update_project. apply prj_granted_reply; [by apply prj_fine_refl|]. destruct (find_project _ _ _ _) as [[i q]|] eqn:E; [|by apply prj_fine_refl].
  apply find_project_Some in E as (Hi & _ & Hr). destruct (info w.2 !! i) as [old|]; [|by apply prj_fine_refl]. destruct (set_fields p old) as [new|]; [|by apply prj_fine_refl].
  destruct (_ || _) eqn:Ef; [by apply prj_fine_refl|]. apply orb_false_elim in Ef as [Hf Hs]. apply negb_false_iff, andb_prop in Hf as [Hf _]. cbn [snd]. split.
  - eapply change_project_ok; [done|done|done|done|]. intros j r Hj Hne Ho. eapply slug_free; [done|done|lia|done].
  - intros j r Hj Hn. assert (i <> j) by (intros ->; congruence). constructor; cbn; try done; by apply lookup_insert_ne.
Qed.

Lemma delete_project_fine o x w : world_ok w -> fine w (delete_project a o x w).2.
Proof.
  intros Hw. unfold delete_project. apply prj_granted_reply; [by apply prj_fine_refl|]. destruct (find_project _ _ _ _) as [[i q]|] eqn:E; [|by apply prj_fine_refl].
  apply find_project_Some in E as (Hi & _ & Hr). destruct (match role_in _ _ _ with Some _ => _ | None => _ end); [|by apply prj_fine_refl].
  split; [by apply mark_deleted_ok|]. intros j r Hj Hn. assert (i <> j) by (intros ->; congruence). constructor; cbn; try done. by apply lookup_alter_ne.
Qed.

(** The new project is there with its key and its team, whatever else fails. *)
Lemma insert_project_ok o sl x k w r w' :
  world_ok w -> is_Some (orgs w.1 !! o) -> insert_project o sl x k w = (r, w') ->
  world_ok w' /\ (forall i, i <> next_project w.2 -> untouched i w w') /\ teams w'.1 = teams w.1 /\
  forall id, r = Ok id -> id = next_project w.2 /\ projects w'.1 !! id = Some {| p_org := o; p_slug := sl |} /\ info w'.2 !! id = Some x
    /\ keys w'.2 !! next_key w.2 = Some {| ky_project := id; ky_name := []; ky_public := k; rate_limit_count := None; rate_limit_window := None |}.
Proof.
  intros Hw Ho. unfold insert_project. destruct (negb _) eqn:Ef; [by intros [= <- <-]|]. destruct (slug_taken _ _ _ _) eqn:Es; [by intros [= <- <-]|].
  apply negb_false_iff, andb_prop in Ef as [Ef _]. cbn zeta.
  set (w1 := (with_projects _ w.1, new_info x w.2) : World). assert (world_ok w1) as H1.
  { apply new_project_ok; [done|done|done|]. intros j q Hj Hq. eapply slug_free; [done|done|done|done]. }
  assert (forall i, i <> next_project w.2 -> untouched i w w1) as Hu.
  { intros i Hi. constructor; cbn; try done; by apply lookup_insert_ne. }
  destruct (insert_key _ w1.2) as [t|e] eqn:Ek; intros [= <- <-].
  - pose proof Ek as Ek'. eapply insert_key_ok in Ek; [|exact H1|cbn; rewrite lookup_insert_eq; by eexists]. destruct Ek as [H2 H3]. split_and!; [done| |done|].
    + intros i Hi. eapply prj_untouched_trans; [by apply Hu|]. by apply H3.
    + intros id [= <-]. split; [done|]. unfold insert_key in Ek'. case_bool_decide; [done|]. injection Ek' as <-. cbn. by rewrite !lookup_insert_eq.
  - split_and!; [done|done|done|done].
Qed.

Lemma create_project_fine o t p sl k w : world_ok w -> fine w (create_project a o t p sl k w).2.
Proof.
  intros Hw. unfold create_project. apply prj_granted_reply; [by apply prj_fine_refl|].
  destruct (find_row _ (teams w.1)) as [[team tm]|] eqn:Et; [|by apply prj_fine_refl]. destruct (org_with_role _ _ _ _) as [[oid ox]|] eqn:Eo; [|by apply prj_fine_refl].
  destruct (set_fields p _) as [x|]; [|by apply prj_fine_refl]. apply find_row_Some in Et as [Ht [_ Htm]%andb_prop]. apply find_row_Some in Eo as [Ho [Hos%ustr_eqb_eq _]%andb_prop].
  assert (t_org tm = oid) as Horg.
  { destruct (orgs w.1 !! t_org tm) as [y|] eqn:Ey; [|done]. apply andb_prop in Htm as [Hy%ustr_eqb_eq _]. eapply (wf_slugs _ (ok_members _ Hw)); [done..|congruence]. }
  destruct (insert_project _ _ _ _ _) as [r w'] eqn:E. destruct (insert_project_ok _ _ _ _ _ _ _ Hw (ex_intro _ _ Ho) E) as (H1 & H2 & H3 & H4).
  assert (forall i q, projects w.1 !! i = Some q -> i <> next_project w.2) as Hne by (intros i q Hi ->; by rewrite (proj1 (ok_ids _ Hw _ (Z.le_refl _))) in Hi).
  destruct r as [id|e]; [|split; [done|]; intros i q Hi _; by eapply H2, Hne]. destruct (H4 id eq_refl) as (-> & Hp & _).
  rewrite <- H3 in Ht. destruct (add_to_team_ok w' team tm _ _ H1 Ht Hp) as [H5 H6]; [done|]. cbn [projects add_to_team with_teams fst]. rewrite Hp.
  destruct (project_visible _ _ _ _); (split; [done|]; intros i q Hi _; eapply prj_untouched_trans; [by eapply H2, Hne|]; by eapply H6, Hne).
Qed.

Lemma create_key_fine o x p k w : world_ok w -> fine w (create_project_key a o x p k w).2.
Proof.
  intros Hw. unfold create_project_key. apply prj_granted_reply; [by apply prj_fine_refl|]. destruct (find_project _ _ _ _) as [[i q]|] eqn:E; [|by apply prj_fine_refl].
  apply find_project_Some in E as (Hi & _ & Hr). destruct (key_of i p k) as [y|] eqn:Ey; [|by apply prj_fine_refl].
  assert (ky_project y = i) as Hy. { unfold key_of in Ey. destruct (kin_name p); [|done]. destruct (_ && _); [|done]. by injection Ey as <-. }
  destruct (insert_key y w.2) as [t|] eqn:Ek; [|by apply prj_fine_refl]. cbn [snd]. eapply insert_key_ok in Ek as [H1 H2]; [|done|rewrite Hy; by eexists]. split; [done|].
  intros j r Hj Hn. apply H2. rewrite Hy. intros ->. congruence.
Qed.

Lemma delete_key_fine o x k w : world_ok w -> fine w (delete_project_key a o x k w).2.
Proof.
  intros Hw. unfold delete_project_key. apply prj_granted_reply; [by apply prj_fine_refl|]. destruct (get_key _ _ _ _ _ _) as [[i y]|] eqn:E; [|by apply prj_fine_refl].
  apply find_row_Some in E as [Hi [_ (q & Hq & Hr)%key_visible_role]%andb_prop]. split.
  - destruct Hw. constructor; cbn; try done.
    + intros l Hl. apply lookup_delete_None. auto.
    + intros l z [_ Hz]%lookup_delete_Some. eauto.
    + intros l m z z' [_ Hz]%lookup_delete_Some [_ Hz']%lookup_delete_Some. eauto.
  - intros j r Hj Hn. constructor; cbn; try done. intros l z Hz. rewrite lookup_delete_Some. split; [by intros [_ ?]|]. intros Hl. split; [|done].
    intros <-. rewrite Hi in Hl. injection Hl as <-. rewrite Hz in Hq. congruence.
Qed.

Lemma update_alerts_fine i l w : world_ok w -> fine w (update_user_notification_alerts a i l w).2.
Proof.
  intros Hw. unfold update_user_notification_alerts. destruct (negb _); [by apply prj_fine_refl|]. destruct l as [|[p st] [|]]; [by apply prj_fine_refl| |by apply prj_fine_refl].
  case_bool_decide as Hs; cbn; [|by apply prj_fine_refl]. destruct p as [p|]; [|by apply prj_fine_refl]. destruct (Z.eqb_spec st (-1)) as [->|Hne].
  - split; [|done]. destruct Hw. constructor; cbn; try done. intros k st [_ Hst]%lookup_delete_Some. eauto.
  - case_bool_decide as Hp; [|by apply prj_fine_refl]. split; [|done]. destruct Hw. constructor; cbn; try done.
    intros k y [[<- <-]|[_ Hy]]%lookup_insert_Some; [|eauto]. split; [|done]. rewrite !elem_of_cons, elem_of_nil in Hs. lia.
Qed.

Lemma prj_handle_fine r w : world_ok w -> fine w (handle changed_slug a r w).2.
Proof.
  intros Hw. destruct r as [o x p|o x|o t p sl k|o x k p|o x p k|o x k|i l|o x n h]; cbn [handle].
  - by apply update_project_fine.
  - by apply delete_project_fine.
  - by apply create_project_fine.
  - unfold update_project_key. apply prj_granted_reply; [by apply prj_fine_refl|]. destruct (get_key _ _ _ _ _ _); by apply prj_fine_refl.
  - by apply create_key_fine.
  - by apply delete_key_fine.
  - by apply update_alerts_fine.
  - unfold update_environment_project. apply prj_granted_reply; [by apply prj_fine_refl|].
    destruct (filter _ (map_to_list _)) as [|[i y] [|]]; [by apply prj_fine_refl| |by apply prj_fine_refl]. split; [|done]. destruct Hw. by constructor.
Qed.
End effects.

(** Every request keeps the tables of projects consistent: slugs are unique in an organization,
    what columns hold fits, keys are unique and belong to projects, a team has projects of its
    organization only, and a user's notifications are on or off for projects there are. *)
Theorem projects_consistent changed_slug a r w : world_ok w -> world_ok (handle changed_slug a r w).2.
Proof. intros Hw. by apply prj_handle_fine. Qed.

(** No request changes a project of an organization its user is no member of, its keys or
    its teams. *)
Theorem foreign_projects_untouched changed_slug a r w i p :
  world_ok w -> projects w.1 !! i = Some p -> role_in w.1 (p_org p) (auth_user a) = None ->
  let w' := (handle changed_slug a r w).2 in
  projects w'.1 !! i = Some p /\ info w'.2 !! i = info w.2 !! i
  /\ (forall k x, ky_project x = i -> keys w'.2 !! k = Some x <-> keys w.2 !! k = Some x)
  /\ (forall t, (exists x, teams w'.1 !! t = Some x /\ i ∈ team_projects x) <-> exists x, teams w.1 !! t = Some x /\ i ∈ team_projects x).
Proof. intros Hw Hi Hr w'. destruct (prj_handle_fine changed_slug a r w Hw) as [_ H]. destruct (H i p Hi Hr) as [H1 H2 H3 H4]. subst w'. by rewrite H1. Qed.

(** A project that is created is there with the slug and the fields of the payload, one key of
    its own and in the team it was created for; its creator is an admin of the organization. *)
Theorem create_project_complete a o t p sl k w w' :
  world_ok w -> create_project a o t p sl k w = (201, w') ->
  let id := next_project w.2 in
  exists oid x team tm, projects w'.1 !! id = Some {| p_org := oid; p_slug := sl |} /\ slug <$> orgs w.1 !! oid = Some o
    /\ info w'.2 !! id = Some x /\ pj_name x = in_name p /\ pj_deleted x = false
    /\ (forall l y, keys w'.2 !! l = Some y /\ ky_project y = id <-> l = next_key w.2 /\ y = {| ky_project := id; ky_name := []; ky_public := k; rate_limit_count := None; rate_limit_window := None |})
    /\ teams w'.1 !! team = Some tm /\ t_slug tm = t /\ id ∈ team_projects tm
    /\ exists r, role_in w.1 oid (auth_user a) = Some r /\ ADMIN <= r.
Proof.
  intros Hw. unfold create_project, granted. destruct (has_permission _ _) as [[]|]; [|done..].
  destruct (find_row _ (teams w.1)) as [[team tm]|] eqn:Et; [|done]. destruct (org_with_role _ _ _ _) as [[oid ox]|] eqn:Eo; [|done].
  destruct (set_fields p _) as [x|] eqn:Ex; [|done]. apply find_row_Some in Et as [Ht [Hts%ustr_eqb_eq _]%andb_prop]. apply find_row_Some in Eo as [Ho [Hos%ustr_eqb_eq Hrole]%andb_prop].
  destruct (insert_project _ _ _ _ _) as [r w1] eqn:E. destruct (insert_project_ok _ _ _ _ _ _ _ Hw (ex_intro _ _ Ho) E) as (H1 & H2 & H3 & H4).
  destruct r as [id|e]; [|done]. destruct (H4 id eq_refl) as (-> & Hp & Hinfo & Hkey). cbn [projects add_to_team with_teams fst]. rewrite Hp.
  destruct (project_visible _ _ _ _); [|done]. intros [= <-]. exists oid, x, team, {| t_org := t_org tm; t_slug := t_slug tm; members := members tm; team_projects := {[next_project w.2]} ∪ team_projects tm |}.
  cbn. rewrite Ho, H3, lookup_alter_eq, Ht. split_and!; [done|cbn; congruence|done| | | |done|done|set_solver|].
  - unfold set_fields in Ex. destruct (in_rate p) as [[|]|]; by simplify_eq.
  - unfold set_fields in Ex. destruct (in_rate p) as [[|]|]; by simplify_eq.
  - intros l y. split; [|by intros [-> ->]]. intros [Hl Hy]. destruct (decide (l = next_key w.2)) as [->|Hne]; [split; [done|congruence]|]. exfalso.
    assert (keys w1.2 = <[next_key w.2 := {| ky_project := next_project w.2; ky_name := []; ky_public := k; rate_limit_count := None; rate_limit_window := None |}]> (keys w.2)) as Hk.
    { unfold insert_project in E. destruct (negb _); [done|]. destruct (slug_taken _ _ _ _); [done|]. cbn zeta in E. unfold insert_key in E. case_bool_decide; [done|]. by injection E as <-. }
    rewrite Hk, lookup_insert_ne in Hl by done. apply (ok_keys _ Hw) in Hl as [q Hq]. rewrite Hy in Hq. by rewrite (proj1 (ok_ids _ Hw _ (Z.le_refl _))) in Hq.
  - destruct (role_in w.1 oid (auth_user a)) as [r|]; [|done]. exists r. split; [done|lia].
Qed.

(** ** Examples *)

Definition demo_info : Info := {| pj_name := u "X"; pj_platform := None; event_throttle_rate := 0; pj_deleted := false |}.
Definition demo_key : KeyRow := {| ky_project := 1; ky_name := []; ky_public := u "k1"; rate_limit_count := None; rate_limit_window := None |}.

(** The project of [ex_state] with a key and two environments, of which one is linked twice. *)
Definition demo_world : World :=
  (ex_state, {| info := {[1 := demo_info]}; next_project := 2; keys := {[1 := demo_key]}; next_key := 2; user_alerts := ∅;
                environments := {[1 := {| en_org := 1; en_name := u "prod" |}]};
                env_projects := {[1 := {| ep_project := 1; ep_environment := 1; is_hidden := false |}; 2 := {| ep_project := 9; ep_environment := 1; is_hidden := false |}]};
                deleting := [] |}).

Lemma demo_projects i p : projects demo_world.1 !! i = Some p -> i = 1 /\ p = {| p_org := 1; p_slug := u "x" |}.
Proof. change (projects demo_world.1) with ({[1 := {| p_org := 1; p_slug := u "x" |}]} : gmap Z Project). by intros [<- <-]%lookup_singleton_Some. Qed.

Lemma demo_infos i x : info demo_world.2 !! i = Some x -> i = 1 /\ x = demo_info.
Proof. change (info demo_world.2) with ({[1 := demo_info]} : gmap Z Info). by intros [<- <-]%lookup_singleton_Some. Qed.

Lemma demo_keys k x : keys demo_world.2 !! k = Some x -> k = 1 /\ x = demo_key.
Proof. change (keys demo_world.2) with ({[1 := demo_key]} : gmap Z KeyRow). by intros [<- <-]%lookup_singleton_Some. Qed.

Lemma demo_world_ok : world_ok demo_world.
Proof.
  assert (is_Some (projects demo_world.1 !! 1)) as Hp by (exists {| p_org := 1; p_slug := u "x" |}; by_compute). constructor.
  - exact ex_wf.
  - intros i Hi. change (next_project demo_world.2) with 2 in Hi. split.
    + destruct (projects demo_world.1 !! i) eqn:E; [|done]. apply demo_projects in E as [-> _]. lia.
    + destruct (info demo_world.2 !! i) eqn:E; [|done]. apply demo_infos in E as [-> _]. lia.
  - intros i. split; intros [x E]; [apply demo_projects in E as [-> _]; exists demo_info; by_compute|apply demo_infos in E as [-> _]; exact Hp].
  - by intros i j p q [-> ->]%demo_projects [-> ->]%demo_projects.
  - intros i p [-> ->]%demo_projects. eexists. by_compute.
  - intros i x [-> ->]%demo_infos. by_compute.
  - intros k Hk. change (next_key demo_world.2) with 2 in Hk. destruct (keys demo_world.2 !! k) eqn:E; [|done]. apply demo_keys in E as [-> _]. lia.
  - intros k x [-> ->]%demo_keys. exact Hp.
  - by intros k l x y [-> ->]%demo_keys [-> ->]%demo_keys.
  - intros k st H. change (user_alerts demo_world.2) with (∅ : gmap (Z * Z) Z) in H. by rewrite lookup_empty in H.
  - intros t x i Ht Hi. change (teams demo_world.1) with ({[1 := {| t_org := 1; t_slug := u "t"; members := {[1]}; team_projects := {[1]} |}]} : gmap Z Team) in Ht.
    apply lookup_singleton_Some in Ht as [<- <-]. cbn in Hi. apply elem_of_singleton in Hi as ->. exists {| p_org := 1; p_slug := u "x" |}. split; by_compute.
Qed.

Definition keep_slug (old : ustr) (o : option (option ustr)) : ustr := match o with Some (Some s) => s | _ => old end.
Definition rename : ProjectIn := {| in_name := u "Y"; in_slug := None; in_platform := None; in_rate := Some (Some 5) |}.

Lemma projects_consistent_witness : world_ok (handle keep_slug (session 1) (CreateProject (u "o") (u "t") rename (u "y") (u "k2")) demo_world).2.
Proof. apply (projects_consistent keep_slug (session 1)). exact demo_world_ok. Defined.

Lemma foreign_projects_untouched_witness :
  let w' := (handle keep_slug (session 4) (DeleteProject (u "o") (u "x")) demo_world).2 in
  projects w'.1 !! 1 = Some {| p_org := 1; p_slug := u "x" |} /\ info w'.2 !! 1 = info demo_world.2 !! 1
  /\ (forall k x, ky_project x = 1 -> keys w'.2 !! k = Some x <-> keys demo_world.2 !! k = Some x)
  /\ (forall t, (exists x, teams w'.1 !! t = Some x /\ 1 ∈ team_projects x) <-> exists x, teams demo_world.1 !! t = Some x /\ 1 ∈ team_projects x).
Proof. apply (foreign_projects_untouched keep_slug (session 4) (DeleteProject (u "o") (u "x")) demo_world 1 _ demo_world_ok); by_compute. Defined.

Lemma create_project_complete_witness :
  let w' := (create_project (session 1) (u "o") (u "t") rename (u "y") (u "k2") demo_world).2 in
  exists oid x team tm, projects w'.1 !! 2 = Some {| p_org := oid; p_slug := u "y" |} /\ slug <$> orgs demo_world.1 !! oid = Some (u "o")
    /\ info w'.2 !! 2 = Some x /\ pj_name x = u "Y" /\ pj_deleted x = false
    /\ (forall l y, keys w'.2 !! l = Some y /\ ky_project y = 2 <-> l = 2 /\ y = {| ky_project := 2; ky_name := []; ky_public := u "k2"; rate_limit_count := None; rate_limit_window := None |})
    /\ teams w'.1 !! team = Some tm /\ t_slug tm = u "t" /\ 2 ∈ team_projects tm
    /\ exists r, role_in demo_world.1 oid 1 = Some r /\ ADMIN <= r.
Proof.
  apply (create_project_complete (session 1) (u "o") (u "t") rename (u "y") (u "k2") demo_world); [exact demo_world_ok|].
  rewrite (surjective_pairing (create_project _ _ _ _ _ _ _)). f_equal; by_compute.
Defined.

(** A plain member, who may not delete a project, changes its name and its rate and makes a key. *)
Example member_changes_project :
  let w := (update_project keep_slug (session 3) (u "o") (u "x") {| in_name := u "Z"; in_slug := None; in_platform := None; in_rate := Some (Some 100) |} demo_world).2 in
  ((delete_project (session 3) (u "o") (u "x") w).1, (fun x => (pj_name x, event_throttle_rate x)) <$> info w.2 !! 1,
   (create_project_key (session 3) (u "o") (u "x") {| kin_name := Some (u "n"); kin_rate_limit := None |} (u "k2") w).1) = (404, Some (u "Z", 100), 201).
Proof. by_compute. Qed.

(** A rate above 100 percent is taken, a negative one ends in an exception. *)
Example throttle_unchecked :
  (let set n := update_project keep_slug (session 1) (u "o") (u "x") {| in_name := u "X"; in_slug := None; in_platform := None; in_rate := Some (Some n) |} demo_world in
   ((set 500).1, event_throttle_rate <$> info (set 500).2.2 !! 1, (set (-1)).1)) = (200, Some 500, 500).
Proof. by_compute. Qed.

(** A change of a key answers 200 and changes nothing; a key without a name is an exception. *)
Example key_change_ignored :
  let r := update_project_key (session 1) (u "o") (u "x") (u "k1") {| kin_name := Some (u "new"); kin_rate_limit := Some (10, 60) |} demo_world in
  (r.1, keys r.2.2 !! 1, (create_project_key (session 1) (u "o") (u "x") {| kin_name := None; kin_rate_limit := None |} (u "k2") demo_world).1) = (200, Some demo_key, 500).
Proof. by_compute. Qed.

(** An environment is listed once for each of its projects. *)
Example environment_repeated : map fst (list_environments 1 (u "o") (Some false) demo_world) = [1; 1].
Proof. by_compute. Qed.

(** A user sets the notifications of a project of another organization. *)
Example foreign_project_alert :
  let r := update_user_notification_alerts (session 4) None [(Some 1, 1)] demo_world in (r.1, user_alerts r.2.2 !! (4, 1)) = (204, Some 1).
Proof. by_compute. Qed.
