(* ===== verification/Comments.v ===== *)
(** * Comments and hashes of issues

    [issue_events/api/comments.py] and [issue_events/api/hashes.py]: the comments of an issue
    and the hashes by which events are grouped to it. Organizations, members and projects are
    those of [Membership]; a handler gives the status of its response and the new tables. *)
From S2P Require Import Prelude PyStr PyValue BitField Membership.

(** ** The tables *)

Record CommentRow := { cm_issue : Z; cm_user : option Z; cm_text : ustr }.
Record HashRow := { hs_issue : Z; hs_project : Z; hs_value : ustr }.
Record EventRow := { ev_issue : Z; ev_hashes : list ustr }.

(** [issue_project] has the project of each issue; events by their ids, which grow with time. *)
Record Tables := { issue_project : gmap Z Z; comments : gmap Z CommentRow; next_comment : Z; hashes : gmap Z HashRow; events : gmap Z EventRow }.

Definition with_comments m t := {| issue_project := issue_project t; comments := m; next_comment := next_comment t; hashes := hashes t; events := events t |}.
Definition with_hashes m t := {| issue_project := issue_project t; comments := comments t; next_comment := next_comment t; hashes := m; events := events t |}.
Definition new_comment c t := {| issue_project := issue_project t; comments := <[next_comment t := c]> (comments t); next_comment := next_comment t + 1;
  hashes := hashes t; events := events t |}.

(** [issue__project__organization] *)
Definition issue_org (s : State) (issue : Z) (t : Tables) : option Z :=
  match issue_project t !! issue with Some p => p_org <$> projects s !! p | None => None end.

Definition issue_of_user (s : State) (user issue : Z) (t : Tables) : bool :=
  match issue_org s issue t with Some o => bool_decide (is_Some (role_in s o user)) | None => false end.

Abbreviation reply := (Z * Tables)%type.

Definition granted (permissions : list string) (a : Auth) (t : Tables) (k : reply) : reply :=
  match has_permission (map u permissions) a with Ok true => k | Ok false => (403, t) | Raise _ => (500, t) end.
Arguments granted (_)%_list _ _ _.

(** ** Comments *)

Definition comment_matches (s : State) (user issue : Z) (t : Tables) (c : CommentRow) : bool := (cm_issue c =? issue) && issue_of_user s user (cm_issue c) t.

Definition get_queryset (s : State) (user issue : Z) (t : Tables) : list (Z * CommentRow) :=
  filter (fun kv => comment_matches s user issue t kv.2) (map_to_list (comments t)).

Definition get_comment (s : State) (user issue comment_id : Z) (t : Tables) : option CommentRow :=
  match comments t !! comment_id with Some c => if comment_matches s user issue t c then Some c else None | None => None end.

Definition list_comments (s : State) (a : Auth) (issue : Z) (t : Tables) : Z + list (Z * CommentRow) :=
  match has_permission [u "event:read"; u "event:admin"] a with
  | Ok true => inr (get_queryset s (auth_user a) issue t)
  | Ok false => inl 403
  | Raise _ => inl 500
  end.

Definition add_comment (s : State) (a : Auth) (issue : Z) (text : ustr) (t : Tables) : reply :=
  granted ["event:write"; "event:admin"]%string a t
    (if issue_of_user s (auth_user a) issue t then (201, new_comment {| cm_issue := issue; cm_user := Some (auth_user a); cm_text := text |} t) else (400, t)).

Definition update_comment (s : State) (a : Auth) (issue comment_id : Z) (text : ustr) (t : Tables) : reply :=
  granted ["event:write"; "event:admin"]%string a t
    match get_comment s (auth_user a) issue comment_id t with
    | None => (400, t)
    | Some c => (200, with_comments (<[comment_id := {| cm_issue := cm_issue c; cm_user := cm_user c; cm_text := text |}]> (comments t)) t)
    end.

Definition delete_comment (s : State) (a : Auth) (issue comment_id : Z) (t : Tables) : reply :=
  granted ["event:admin"]%string a t
    match get_comment s (auth_user a) issue comment_id t with None => (400, t) | Some _ => (204, with_comments (delete comment_id (comments t)) t) end.

(** ** Hashes *)

Definition hash_matches (s : State) (o issue : Z) (t : Tables) (h : HashRow) : bool := (hs_issue h =? issue) && bool_decide (issue_org s (hs_issue h) t = Some o).

(** The newest event with a hash whose issue is of its project. *)
Definition latest_event (h : HashRow) (t : Tables) : option Z :=
  match reverse (merge_sort Z.le (map fst (filter (fun kv : Z * EventRow => hs_value h ∈ ev_hashes kv.2 /\ issue_project t !! ev_issue kv.2 = Some (hs_project h))
                                              (map_to_list (events t))))) with
  | [] => None
  | i :: _ => Some i
  end.

Definition list_issue_hashes (s : State) (a : Auth) (organization_slug : ustr) (issue : Z) (t : Tables) : Z + list (ustr * option Z) :=
  match has_permission [u "event:read"] a with
  | Ok true =>
      match org_with_role s (auth_user a) organization_slug MEMBER with
      | None => inl 404
      | Some (o, _) => inr (map (fun kv => (hs_value kv.2, latest_event kv.2 t)) (filter (fun kv => hash_matches s o issue t kv.2) (map_to_list (hashes t))))
      end
  | Ok false => inl 403
  | Raise _ => inl 500
  end.

Definition delete_hash (s : State) (a : Auth) (organization_slug : ustr) (issue : Z) (ids : list ustr) (t : Tables) : reply :=
  granted ["event:admin"]%string a t
    match org_with_role s (auth_user a) organization_slug MEMBER with
    | None => (404, t)
    | Some (o, _) => (202, with_hashes (filter (fun kv => negb (bool_decide (hs_value kv.2 ∈ ids) && hash_matches s o issue t kv.2)) (hashes t)) t)
    end.

(** ** What holds *)

Inductive Request :=
  | AddComment (issue : Z) (text : ustr)
  | UpdateComment (issue comment_id : Z) (text : ustr)
  | DeleteComment (issue comment_id : Z)
  | DeleteHash (organization_slug : ustr) (issue : Z) (ids : list ustr).

Definition handle (s : State) (a : Auth) (r : Request) (t : Tables) : reply :=
  match r with
  | AddComment i x => add_comment s a i x t
  | UpdateComment i c x => update_comment s a i c x t
  | DeleteComment i c => delete_comment s a i c t
  | DeleteHash o i l => delete_hash s a o i l t
  end.

Lemma comment_granted_reply (P : Tables -> Prop) l a t k : P t -> P k.2 -> P (granted l a t k).2.
Proof. intros ? ?. unfold granted. by destruct (has_permission _ _) as [[]|]. Qed.

Lemma get_comment_Some s user issue i t c : get_comment s user issue i t = Some c -> comments t !! i = Some c /\ cm_issue c = issue /\ issue_of_user s user issue t = true.
Proof.
  unfold get_comment. destruct (comments t !! i) as [x|]; [|done]. destruct (comment_matches s user issue t x) eqn:E; [|done]. intros [= <-].
  apply andb_prop in E as [E1%Z.eqb_eq E2]. by rewrite E1 in E2.
Qed.

Lemma org_role s user sl o x : org_with_role s user sl MEMBER = Some (o, x) -> role_in s o user <> None.
Proof. intros [_ H]%find_row_Some. apply andb_prop in H as [_ H]. by destruct (role_in s o user). Qed.

(** Every request leaves the comments and hashes of issues alone whose organization its user
    is no member of, and those of every issue but its own. *)
Theorem other_issues_untouched s a r t issue :
  (forall i, next_comment t <= i -> comments t !! i = None) ->
  issue_of_user s (auth_user a) issue t = false \/ (match r with AddComment i _ | UpdateComment i _ _ | DeleteComment i _ | DeleteHash _ i _ => i <> issue end) ->
  let t' := (handle s a r t).2 in
  (forall i c, cm_issue c = issue -> comments t' !! i = Some c <-> comments t !! i = Some c)
  /\ (forall i h, hs_issue h = issue -> hashes t' !! i = Some h <-> hashes t !! i = Some h).
Proof.
  intros Hids Hi. set (kept := fun t' : Tables => (forall i c, cm_issue c = issue -> comments t' !! i = Some c <-> comments t !! i = Some c)
    /\ (forall i h, hs_issue h = issue -> hashes t' !! i = Some h <-> hashes t !! i = Some h)).
  change (kept (handle s a r t).2). destruct r as [k x|k j x|k j|o k l]; cbn [handle].
  - unfold add_comment. apply (comment_granted_reply kept); [done|]. destruct (issue_of_user s (auth_user a) k t) eqn:E; [|done]. split; [|done].
    intros i c Hc. cbn. rewrite lookup_insert_Some. split; [|intros H; right; split; [intros <-; by rewrite Hids in H|done]].
    intros [[_ <-]|[_ ?]]; [|done]. cbn in Hc. subst k. destruct Hi; congruence.
  - unfold update_comment. apply (comment_granted_reply kept); [done|]. destruct (get_comment _ _ _ _ _) as [d|] eqn:E; [|done]. split; [|done].
    apply get_comment_Some in E as (Hd & Hk & Hu). assert (k <> issue) as Hne by (destruct Hi; congruence). intros i c Hc. cbn. rewrite lookup_insert_Some. split.
    + intros [[_ <-]|[_ ?]]; [|done]. cbn in Hc. congruence.
    + intros H. right. split; [|done]. intros <-. congruence.
  - unfold delete_comment. apply (comment_granted_reply kept); [done|]. destruct (get_comment _ _ _ _ _) as [d|] eqn:E; [|done]. split; [|done].
    apply get_comment_Some in E as (Hd & Hk & Hu). assert (k <> issue) as Hne by (destruct Hi; congruence). intros i c Hc. cbn. rewrite lookup_delete_Some.
    split; [by intros [_ ?]|]. intros H. split; [|done]. intros <-. congruence.
  - unfold delete_hash. apply (comment_granted_reply kept); [done|]. destruct (org_with_role _ _ _ _) as [[o' y]|] eqn:E; [|done]. split; [done|].
    apply org_role in E. intros i h Hh. cbn. rewrite map_lookup_filter_Some. cbn. split; [by intros [? _]|]. intros H. split; [done|].
    unfold hash_matches. rewrite Hh. destruct (Z.eqb_spec issue k) as [<-|]; [|by rewrite andb_false_r].
    destruct Hi as [Hi|Hi]; [|done]. unfold issue_of_user in Hi. destruct (issue_org s issue t) as [o2|]; [|by rewrite andb_false_r].
    case_bool_decide as Hr; [done|]. rewrite (bool_decide_eq_false_2 (Some o2 = Some o')); [by rewrite !andb_false_r|]. intros [= <-]. apply Hr. by destruct (role_in s o2 (auth_user a)).
Qed.

(** A comment that was added is listed from then on with its author and text, changed by
    whoever may change it without changing its author, and gone after it was deleted. *)
Theorem comment_lifecycle s a b issue text text2 t :
  auth_token a = None -> auth_token b = None -> issue_of_user s (auth_user a) issue t = true -> issue_of_user s (auth_user b) issue t = true ->
  let i := next_comment t in
  let '(n1, t1) := add_comment s a issue text t in
  let '(n2, t2) := update_comment s b issue i text2 t1 in
  let '(n3, t3) := delete_comment s b issue i t2 in
  (n1, n2, n3) = (201, 200, 204)
  /\ comments t1 !! i = Some {| cm_issue := issue; cm_user := Some (auth_user a); cm_text := text |}
  /\ comments t2 !! i = Some {| cm_issue := issue; cm_user := Some (auth_user a); cm_text := text2 |} /\ comments t3 !! i = None.
Proof.
  intros Ha Hb Hia Hib i. unfold add_comment, granted, has_permission. rewrite Ha, Hia. unfold update_comment, delete_comment, granted, has_permission, get_comment. rewrite Hb.
  cbn. rewrite lookup_insert_eq. unfold comment_matches. cbn. rewrite Z.eqb_refl. change (issue_of_user s (auth_user b) issue (new_comment _ t)) with (issue_of_user s (auth_user b) issue t).
  rewrite Hib. cbn. rewrite lookup_insert_eq. cbn. rewrite Z.eqb_refl. change (issue_of_user s (auth_user b) issue (with_comments _ _)) with (issue_of_user s (auth_user b) issue t).
  rewrite Hib. cbn. split_and!; first [done|apply lookup_insert_eq|apply lookup_delete_eq].
Qed.

Definition demo : Tables :=
  {| issue_project := {[5 := 1]}; comments := {[1 := {| cm_issue := 5; cm_user := Some 1; cm_text := u "hi" |}]}; next_comment := 2;
     hashes := {[1 := {| hs_issue := 5; hs_project := 1; hs_value := u "aa" |}]}; events := {[10 := {| ev_issue := 5; ev_hashes := [u "aa"] |}; 11 := {| ev_issue := 5; ev_hashes := [u "aa"] |}]} |}.

Lemma other_issues_untouched_witness :
  let t' := (handle ex_state (session 4) (DeleteComment 5 1) demo).2 in
  (forall i c, cm_issue c = 5 -> comments t' !! i = Some c <-> comments demo !! i = Some c)
  /\ (forall i h, hs_issue h = 5 -> hashes t' !! i = Some h <-> hashes demo !! i = Some h).
Proof.
  apply (other_issues_untouched ex_state (session 4) (DeleteComment 5 1) demo 5).
  - intros i Hi. change (comments demo) with ({[1 := {| cm_issue := 5; cm_user := Some 1; cm_text := u "hi" |}]} : gmap Z CommentRow).
    change (next_comment demo) with 2 in Hi. apply lookup_singleton_ne. lia.
  - left. by_compute.
Defined.

Lemma comment_lifecycle_witness :
  let '(n1, t1) := add_comment ex_state (session 1) 5 (u "a") demo in
  let '(n2, t2) := update_comment ex_state (session 3) 5 2 (u "b") t1 in
  let '(n3, t3) := delete_comment ex_state (session 3) 5 2 t2 in
  (n1, n2, n3) = (201, 200, 204)
  /\ comments t1 !! 2 = Some {| cm_issue := 5; cm_user := Some 1; cm_text := u "a" |}
  /\ comments t2 !! 2 = Some {| cm_issue := 5; cm_user := Some 1; cm_text := u "b" |} /\ comments t3 !! 2 = None.
Proof. apply (comment_lifecycle ex_state (session 1) (session 3) 5 (u "a") (u "b") demo); by_compute. Defined.

(** The newest event of a hash. *)
Example hash_listed : list_issue_hashes ex_state (session 3) (u "o") 5 demo = inr [(u "aa", Some 11)].
Proof. by_compute. Qed.
