(* ===== verification/Reconcile.v ===== *)
(** * The governed organization of Creator Signal

    [creativesignal/]: the mode in which ZITADEL is the only way to sign in ([auth.py],
    [middleware.py], the openness of registration in [apps/users/utils.py]) and the command
    that brings the organization, its operator, team, projects and keys to their prescribed
    state ([zitadel/reconcile.py] with the receiver of [signals.py]).

    A UUID is its hexadecimal text. New rows get an id that is not in use. The times of rows
    and the modes of files are left out; so is the check that the migrations ran. *)
From S2P Require Import Prelude PyStr PyValue.

(** ** Signing in *)

Definition PASSWORD_AUTH_PATHS : list ustr :=
  map u ["/_allauth/browser/v1/account/password/change"; "/_allauth/browser/v1/auth/login"; "/_allauth/browser/v1/auth/password/request";
         "/_allauth/browser/v1/auth/password/reset"; "/_allauth/browser/v1/auth/reauthenticate"; "/_allauth/browser/v1/auth/signup"]%string.

(** The status of the reply, or [None] to let the request through. *)
Definition process_request (sso_only : bool) (path : ustr) : option Z :=
  if negb sso_only || bool_decide (path ∉ PASSWORD_AUTH_PATHS) then None else Some 403.

Definition first_user_bootstrap_allowed (sso_only : bool) : bool := negb sso_only.

(** [is_user_registration_open] and [is_social_apps_user_registration_open] with their setting. *)
Definition registration_open (enabled sso_only users_exist : bool) : bool := enabled || (first_user_bootstrap_allowed sso_only && negb users_exist).

(** ** What is prescribed *)

Record ProjectDefinition := { project_id : Z; d_name : ustr; d_slug : ustr; d_platform : ustr; d_public_key : ustr; dsn_file : ustr }.

Definition definition (id : Z) (name slug platform key file : string) : ProjectDefinition :=
  {| project_id := id; d_name := u name; d_slug := u slug; d_platform := u platform; d_public_key := u key; dsn_file := u file |}.
Arguments definition _ (_ _ _ _ _)%_string.

Definition PROJECTS : list ProjectDefinition :=
  [definition 41401 "Sales Pulse web" "sales-pulse-web" "javascript-nextjs" "aaaaaaaaaaaa4aaa8aaaaaaaaaaaaaa1" "sales-pulse-web.dsn";
   definition 41402 "Sales Pulse worker" "sales-pulse-worker" "javascript-node" "aaaaaaaaaaaa4aaa8aaaaaaaaaaaaaa2" "sales-pulse-worker.dsn";
   definition 41403 "Creator Signal public site" "creator-signal-public-site" "javascript-nextjs" "aaaaaaaaaaaa4aaa8aaaaaaaaaaaaaa3"
     "creator-signal-public-site.dsn";
   definition 41404 "Creator Signal Instatic Admin browser" "creator-signal-instatic-admin-browser" "javascript" "aaaaaaaaaaaa4aaa8aaaaaaaaaaaaaa4"
     "creator-signal-instatic-admin-browser.dsn";
   definition 41405 "Sales Pulse Admin browser" "sales-pulse-admin-browser" "javascript-nextjs" "aaaaaaaaaaaa4aaa8aaaaaaaaaaaaaa5"
     "sales-pulse-admin-browser.dsn";
   definition 41406 "Sales Pulse Admin server" "sales-pulse-admin-server" "javascript-node" "aaaaaaaaaaaa4aaa8aaaaaaaaaaaaaa6"
     "sales-pulse-admin-server.dsn";
   definition 41407 "Sales Pulse browser extension" "sales-pulse-browser-extension" "javascript" "aaaaaaaaaaaa4aaa8aaaaaaaaaaaaaa7"
     "sales-pulse-extension.dsn";
   definition 41408 "Creator Signal Instatic server" "creator-signal-instatic-server" "javascript-node" "aaaaaaaaaaaa4aaa8aaaaaaaaaaaaaa8"
     "creator-signal-instatic-server.dsn"].

Record ReconcileConfig := { client_id : ustr; client_secret : ustr; operator_email : ustr; operator_subject : ustr; discovery_url : ustr }.

(** ** The tables *)

Record SocialApp := { sa_provider : ustr; sa_provider_id : ustr; sa_name : ustr; sa_client_id : ustr; sa_secret : ustr; sa_server_url : ustr }.
Record User := { us_email : ustr; is_active : bool; is_staff : bool; is_superuser : bool; password : ustr }.
Record EmailAddress := { em_user : Z; em_email : ustr; em_verified : bool; em_primary : bool }.
Record SocialAccount := { ac_provider : ustr; ac_uid : ustr; ac_user : Z; ac_email : ustr }.
Record Organization := { or_slug : ustr; or_name : ustr; or_open : bool; or_deleted : bool }.
Record OrganizationUser := { ou_org : Z; ou_user : option Z; ou_role : Z }.
Record Team := { tm_org : Z; tm_slug : ustr; tm_members : gset Z; tm_projects : gset Z }.
Record Project := { pr_org : Z; pr_slug : ustr; pr_name : ustr; pr_platform : ustr; pr_deleted : bool }.
Record ProjectKey := { pk_project : Z; pk_name : ustr; pk_public_key : ustr }.

(** [owners] by organization, [org_apps] by social app. *)
Record Database := {
  social_apps : gmap Z SocialApp; users : gmap Z User; emails : gmap Z EmailAddress; accounts : gmap Z SocialAccount; orgs : gmap Z Organization;
  org_users : gmap Z OrganizationUser; owners : gmap Z Z; org_apps : gmap Z Z; teams : gmap Z Team; projects : gmap Z Project; keys : gmap Z ProjectKey }.

Inductive error := RuntimeError (message : string) | MultipleObjectsReturned | IntegrityError.

Inductive outcome (A : Type) := Done (a : A) | Failed (e : error).
Arguments Done {A} _.
Arguments Failed {A} _.

Definition andthen {A B} (m : outcome A) (k : A -> outcome B) : outcome B := match m with Done a => k a | Failed e => Failed e end.
Notation "'do*' x ':=' m 'in' k" := (andthen m (fun x => k)) (at level 200, x pattern, right associativity).

(** ** Queries *)

Definition lower_id {A} (p : A -> bool) (i : Z) (x : A) (best : option (Z * A)) : option (Z * A) :=
  if p x then match best with Some (j, _) => if i <? j then Some (i, x) else best | None => Some (i, x) end else best.

(** [.filter(...).first()], in the order of ids. *)
Definition first_row {A} (p : A -> bool) (m : gmap Z A) : option (Z * A) := map_fold (lower_id p) None m.

(** [update_or_create]: of several rows none is changed. *)
Definition update_or_create {A} (p : A -> bool) (upd : A -> A) (new : A) (m : gmap Z A) : outcome (Z * gmap Z A) :=
  match first_row p m with
  | None => let i := fresh (dom m) in Done (i, <[i := new]> m)
  | Some (i, x) => match first_row p (delete i m) with Some _ => Failed MultipleObjectsReturned | None => Done (i, <[i := upd x]> m) end
  end.

(** ** The steps *)

Definition PROVIDER_ID : ustr := u "zitadel".
Definition ORGANIZATION_SLUG : ustr := u "creator-signal".
Definition TEAM_SLUG : ustr := u "creator-signal-operators".
Definition OWNER : Z := 3.

Definition is_app (a : SocialApp) : bool := ustr_eqb (sa_provider a) (u "openid_connect") && ustr_eqb (sa_provider_id a) PROVIDER_ID.
Definition app_of (c : ReconcileConfig) : SocialApp :=
  {| sa_provider := u "openid_connect"; sa_provider_id := PROVIDER_ID; sa_name := u "Creator Signal ZITADEL"; sa_client_id := client_id c;
     sa_secret := client_secret c; sa_server_url := discovery_url c |}.

Definition is_operator (c : ReconcileConfig) (x : User) : bool := ustr_eqb (us_email x) (operator_email c).
(** [set_unusable_password]: a mark and a random text, a new one each time. *)
Definition UNUSABLE_PASSWORD_PREFIX : ustr := u "!".
Definition operator_of (c : ReconcileConfig) (random : ustr) : User :=
  {| us_email := operator_email c; is_active := true; is_staff := false; is_superuser := false; password := UNUSABLE_PASSWORD_PREFIX ++ random |}.

Definition is_email (c : ReconcileConfig) (user : Z) (e : EmailAddress) : bool := (em_user e =? user) && ustr_eqb (em_email e) (operator_email c).
Definition email_of (c : ReconcileConfig) (user : Z) : EmailAddress :=
  {| em_user := user; em_email := operator_email c; em_verified := true; em_primary := true |}.
(** One primary address of a user, one verified row of an address. *)
Definition email_clashes (c : ReconcileConfig) (user : Z) (e : EmailAddress) : bool :=
  negb (is_email c user e) && ((em_user e =? user) && em_primary e || ustr_eqb (em_email e) (operator_email c) && em_verified e).

Definition is_account (c : ReconcileConfig) (a : SocialAccount) : bool := ustr_eqb (ac_provider a) PROVIDER_ID && ustr_eqb (ac_uid a) (operator_subject c).
Definition account_of (c : ReconcileConfig) (user : Z) : SocialAccount :=
  {| ac_provider := PROVIDER_ID; ac_uid := operator_subject c; ac_user := user; ac_email := operator_email c |}.
Definition other_subject (c : ReconcileConfig) (user : Z) (a : SocialAccount) : bool :=
  ustr_eqb (ac_provider a) PROVIDER_ID && (ac_user a =? user) && negb (ustr_eqb (ac_uid a) (operator_subject c)).

Definition is_org (o : Organization) : bool := ustr_eqb (or_slug o) ORGANIZATION_SLUG.
Definition the_org : Organization := {| or_slug := ORGANIZATION_SLUG; or_name := u "Creator Signal"; or_open := false; or_deleted := false |}.

Definition is_membership (user o : Z) (x : OrganizationUser) : bool := (ou_org x =? o) && bool_decide (ou_user x = Some user).
Definition membership_of (user o : Z) : OrganizationUser := {| ou_org := o; ou_user := Some user; ou_role := OWNER |}.

Definition is_team (o : Z) (t : Team) : bool := (tm_org t =? o) && ustr_eqb (tm_slug t) TEAM_SLUG.
Definition add_member (x : Z) (t : Team) : Team := {| tm_org := tm_org t; tm_slug := tm_slug t; tm_members := tm_members t ∪ {[x]}; tm_projects := tm_projects t |}.
Definition add_project (x : Z) (t : Team) : Team := {| tm_org := tm_org t; tm_slug := tm_slug t; tm_members := tm_members t; tm_projects := tm_projects t ∪ {[x]} |}.

(** [add_zitadel_user_to_operator_team], after a membership was saved. *)
Definition add_zitadel_user_to_operator_team (sso_only : bool) (accounts : gmap Z SocialAccount) (orgs : gmap Z Organization) (id : Z) (x : OrganizationUser)
    (teams : gmap Z Team) : gmap Z Team :=
  match ou_user x with
  | Some user =>
      if sso_only && bool_decide (is_Some (first_row (fun a => (ac_user a =? user) && ustr_eqb (ac_provider a) PROVIDER_ID) accounts))
         && match orgs !! ou_org x with Some o => is_org o | None => false end then
        match first_row (is_team (ou_org x)) teams with Some (t, _) => alter (add_member id) t teams | None => teams end
      else teams
  | None => teams
  end.

(** *** One project *)

Definition project_by_slug (o : Z) (d : ProjectDefinition) (p : Project) : bool := (pr_org p =? o) && ustr_eqb (pr_slug p) (d_slug d).

(** The prescribed fields; that a project is deleted stays. *)
Definition set_project (d : ProjectDefinition) (p : Project) : Project :=
  {| pr_org := pr_org p; pr_slug := d_slug d; pr_name := d_name d; pr_platform := d_platform d; pr_deleted := pr_deleted p |}.
Definition new_project (o : Z) (d : ProjectDefinition) : Project :=
  {| pr_org := o; pr_slug := d_slug d; pr_name := d_name d; pr_platform := d_platform d; pr_deleted := false |}.

Definition reconcile_project_row (o : Z) (d : ProjectDefinition) (m : gmap Z Project) : outcome (Z * gmap Z Project) :=
  let by_slug := first_row (project_by_slug o d) m in
  let by_id := match m !! project_id d with Some p => if pr_org p =? o then Some (project_id d, p) else None | None => None end in
  match by_slug, by_id with
  | Some (i, p), Some (j, _) => if i =? j then Done (i, <[i := set_project d p]> m) else Failed (RuntimeError "project identity conflict")
  | Some (i, p), None => Done (i, <[i := set_project d p]> m)
  | None, Some (j, p) => Done (j, <[j := set_project d p]> m)
  | None, None => if bool_decide (is_Some (m !! project_id d)) then Failed IntegrityError else Done (project_id d, <[project_id d := new_project o d]> m)
  end.

(** The first key of the project takes the prescribed one, which no other key may have. *)
Definition reconcile_key (project : Z) (d : ProjectDefinition) (m : gmap Z ProjectKey) : outcome (gmap Z ProjectKey) :=
  let key := {| pk_project := project; pk_name := u "default"; pk_public_key := d_public_key d |} in
  let i := match first_row (fun k => pk_project k =? project) m with Some (i, _) => i | None => fresh (dom m) end in
  if bool_decide (is_Some (first_row (fun k => ustr_eqb (pk_public_key k) (d_public_key d)) (delete i m))) then Failed IntegrityError
  else Done (<[i := key]> m).

Section reconcile.
(** [GLITCHTIP_URL]: its scheme, and its host with what follows. *)
Context (scheme netloc : ustr).

Definition get_dsn (k : ustr) (project : Z) : ustr := scheme ++ u "://" ++ k ++ u "@" ++ netloc ++ u "/" ++ str_of_Z project.

(** The text of a private file. *)
Definition private_text (s : ustr) : ustr := rstrip s ++ [10].

Abbreviation files := (adict ustr ustr).

(** The loop body: the tables of projects, keys and teams, and the file that is written. *)
Definition reconcile_project (o team : Z) (d : ProjectDefinition) (s : gmap Z Project * gmap Z ProjectKey * gmap Z Team) (f : files) :
    outcome (gmap Z Project * gmap Z ProjectKey * gmap Z Team * files) :=
  let '(ps, ks, ts) := s in
  do* (i, ps) := reconcile_project_row o d ps in
  let ts := alter (add_project i) team ts in
  do* ks := reconcile_key i d ks in
  Done (ps, ks, ts, aset (dsn_file d) (private_text (get_dsn (d_public_key d) i)) f).

(** The loop, with the files written when it failed. *)
Fixpoint reconcile_projects (o team : Z) (l : list ProjectDefinition) (s : gmap Z Project * gmap Z ProjectKey * gmap Z Team) (f : files) :
    outcome (gmap Z Project * gmap Z ProjectKey * gmap Z Team) * files :=
  match l with
  | [] => (Done s, f)
  | d :: l =>
      match reconcile_project o team d s f with
      | Failed e => (Failed e, f)
      | Done (ps, ks, ts, f) => reconcile_projects o team l (ps, ks, ts) f
      end
  end.

(** The tables before the loop, with the ids of the organization and the team. *)
Definition reconcile_people (sso_only : bool) (c : ReconcileConfig) (random : ustr) (s : Database) : outcome (Z * Z * Database) :=
  do* (app, social_apps) := update_or_create is_app (fun _ => app_of c) (app_of c) (social_apps s) in
  do* (user, users) := update_or_create (is_operator c) (fun _ => operator_of c random) (operator_of c random) (users s) in
  if bool_decide (is_Some (first_row (email_clashes c user) (emails s))) then Failed IntegrityError else
  do* (_, emails) := update_or_create (is_email c user) (fun _ => email_of c user) (email_of c user) (emails s) in
  if match first_row (is_account c) (accounts s) with Some (_, a) => negb (ac_user a =? user) | None => false end
  then Failed (RuntimeError "ZITADEL operator subject is already linked to another GlitchTip user") else
  if bool_decide (is_Some (first_row (other_subject c user) (accounts s)))
  then Failed (RuntimeError "GlitchTip operator is already linked to a different ZITADEL subject") else
  do* (_, accounts) := update_or_create (is_account c) (fun _ => account_of c user) (account_of c user) (accounts s) in
  do* (o, orgs) := update_or_create is_org (fun _ => the_org) the_org (orgs s) in
  do* (member, org_users) := update_or_create (is_membership user o) (fun _ => membership_of user o) (membership_of user o) (org_users s) in
  let teams := add_zitadel_user_to_operator_team sso_only accounts orgs member (membership_of user o) (teams s) in
  do* (team, teams) := update_or_create (is_team o) (add_member member)
                         {| tm_org := o; tm_slug := TEAM_SLUG; tm_members := {[member]}; tm_projects := ∅ |} teams in
  Done (o, team, {| social_apps := social_apps; users := users; emails := emails; accounts := accounts; orgs := orgs; org_users := org_users;
                    owners := <[o := member]> (owners s); org_apps := <[app := o]> (org_apps s); teams := teams; projects := projects s; keys := keys s |}).

(** [validate_runtime] *)
Record Settings := { SSO_ONLY : bool; USER_REGISTRATION : bool; SOCIAL_APPS_USER_REGISTRATION : bool; ORGANIZATION_CREATION : bool }.
Definition runtime_ok (v : Settings) : bool :=
  SSO_ONLY v && negb (USER_REGISTRATION v) && SOCIAL_APPS_USER_REGISTRATION v && negb (ORGANIZATION_CREATION v).

(** [status] is the JSON of the status, which does not depend on the tables. A failure rolls
    the tables back, not the files. *)
Definition reconcile (v : Settings) (c : ReconcileConfig) (status random : ustr) (s : Database) (f : files) : outcome unit * Database * files :=
  if negb (runtime_ok v) then (Failed (RuntimeError "unsafe Creator Signal GlitchTip authentication settings"), s, f) else
  match reconcile_people (SSO_ONLY v) c random s with
  | Failed e => (Failed e, s, f)
  | Done (o, team, s1) =>
      match reconcile_projects o team PROJECTS (projects s1, keys s1, teams s1) f with
      | (Failed e, f) => (Failed e, s, f)
      | (Done (ps, ks, ts), f) =>
          (Done tt, {| social_apps := social_apps s1; users := users s1; emails := emails s1; accounts := accounts s1; orgs := orgs s1;
                       org_users := org_users s1; owners := owners s1; org_apps := org_apps s1; teams := ts; projects := ps; keys := ks |},
           aset (u "status.json") (private_text status) f)
      end
  end.
End reconcile.

(** ** First rows and upserts *)

Section rows.
Context {A : Type} (p : A -> bool).
Implicit Types m : gmap Z A.

Definition lowest (m : gmap Z A) (o : option (Z * A)) : Prop :=
  match o with
  | Some (i, x) => m !! i = Some x /\ p x = true /\ forall j y, m !! j = Some y -> p y = true -> i <= j
  | None => forall j y, m !! j = Some y -> p y = false
  end.

Lemma first_row_lowest m : lowest m (first_row p m).
Proof.
  unfold first_row. apply (map_fold_weak_ind (fun r m => lowest m r)); [done|]. intros i x m' r Hi IH. unfold lower_id.
  destruct (p x) eqn:Ep; [destruct r as [[j y]|]|]; cbn in *.
  - destruct IH as (H1 & H2 & H3). assert (i <> j) as Hne by congruence. destruct (Z.ltb_spec i j); cbn.
    + rewrite lookup_insert_eq. split_and!; [done..|]. intros k z [[<- <-]|[_ ?]]%lookup_insert_Some ?; [lia|]. specialize (H3 k z). naive_solver lia.
    + rewrite lookup_insert_ne by done. split_and!; [done..|]. intros k z [[<- <-]|[_ ?]]%lookup_insert_Some ?; [lia|eauto].
  - rewrite lookup_insert_eq. split_and!; [done..|]. intros k z [[<- <-]|[_ Hk]]%lookup_insert_Some ?; [lia|]. rewrite (IH _ _ Hk) in *. done.
  - destruct r as [[j y]|]; cbn in *.
    + destruct IH as (H1 & H2 & H3). rewrite lookup_insert_ne by congruence. split_and!; [done..|].
      intros k z [[<- <-]|[_ ?]]%lookup_insert_Some ?; [congruence|eauto].
    + intros k z [[<- <-]|[_ ?]]%lookup_insert_Some; eauto.
Qed.

Lemma first_row_Some m i x :
  first_row p m = Some (i, x) <-> m !! i = Some x /\ p x = true /\ forall j y, m !! j = Some y -> p y = true -> i <= j.
Proof.
  pose proof (first_row_lowest m) as H. split; [intros E; by rewrite E in H|]. intros (H1 & H2 & H3).
  destruct (first_row p m) as [[j y]|]; cbn in H.
  - destruct H as (H4 & H5 & H6). pose proof (H3 _ _ H4 H5). pose proof (H6 _ _ H1 H2). assert (j = i) as -> by lia. congruence.
  - by rewrite (H _ _ H1) in H2.
Qed.

Lemma first_row_None m : first_row p m = None <-> forall j y, m !! j = Some y -> p y = false.
Proof.
  pose proof (first_row_lowest m) as H. split; [intros E; by rewrite E in H|]. intros H1.
  destruct (first_row p m) as [[j y]|]; [|done]. destruct H as (H2 & H3 & _). by rewrite (H1 _ _ H2) in H3.
Qed.

(** Row [i] is the only one that meets [p]. *)
Definition only (i : Z) (x : A) (m : gmap Z A) : Prop := m !! i = Some x /\ p x = true /\ forall j y, m !! j = Some y -> p y = true -> j = i.

Lemma only_first i x m : only i x m -> first_row p m = Some (i, x) /\ first_row p (delete i m) = None.
Proof.
  intros (H1 & H2 & H3). split.
  - apply first_row_Some. split_and!; [done..|]. intros j y Hj Hy. rewrite (H3 _ _ Hj Hy). lia.
  - apply first_row_None. intros j y [Hne Hj]%lookup_delete_Some. destruct (p y) eqn:E; [|done]. by rewrite (H3 _ _ Hj E) in Hne.
Qed.

Context (upd : A -> A) (new : A).

(** An upsert makes or changes the only row that meets the condition, and leaves the others. *)
Lemma update_or_create_spec m i m' :
  (forall x, p x = true -> p (upd x) = true) -> p new = true -> update_or_create p upd new m = Done (i, m') ->
  exists y, only i y m' /\ m' = <[i := y]> m /\ (y = new /\ (forall j z, m !! j = Some z -> p z = false) \/ exists x, only i x m /\ y = upd x).
Proof.
  intros Hu Hn. unfold update_or_create. destruct (first_row p m) as [[j x]|] eqn:E.
  - apply first_row_Some in E as (H1 & H2 & _). destruct (first_row p (delete j m)) eqn:Ed; [done|]. intros [= <- <-].
    assert (only j x m) as Ho.
    { split_and!; [done..|]. intros k y Hk Hy. destruct (decide (k = j)) as [|Hne]; [done|]. pose proof (proj1 (first_row_None _) Ed k y) as H.
      rewrite lookup_delete_ne in H by done. by rewrite H in Hy. }
    exists (upd x). split_and!; [|done|right; eauto]. split_and!; [apply lookup_insert_eq|auto|].
    intros k y [[<- <-]|[_ Hk]]%lookup_insert_Some Hy; [done|]. exact (proj2 (proj2 Ho) k y Hk Hy).
  - pose proof (proj1 (first_row_None _) E) as Hall. intros [= <- <-]. exists new. split_and!; [|done|left; done]. split_and!; [apply lookup_insert_eq|done|].
    intros k y [[<- <-]|[_ Hk]]%lookup_insert_Some Hy; [done|]. by rewrite (Hall _ _ Hk) in Hy.
Qed.

Lemma update_or_create_only m i x : only i x m -> update_or_create p upd new m = Done (i, <[i := upd x]> m).
Proof. intros Ho. unfold update_or_create. by destruct (only_first _ _ _ Ho) as [-> ->]. Qed.

Lemma update_or_create_settled m i x : only i x m -> upd x = x -> update_or_create p upd new m = Done (i, m).
Proof. intros Ho Hu. rewrite (update_or_create_only _ _ _ Ho), Hu, insert_id; [done|apply Ho]. Qed.
End rows.

(** ** The loop over the projects *)

Section loop.
Context (scheme netloc : ustr) (o team : Z).
Implicit Types (ps : gmap Z Project) (ks : gmap Z ProjectKey) (ts : gmap Z Team).

Definition key_of (i : Z) (d : ProjectDefinition) : ProjectKey := {| pk_project := i; pk_name := u "default"; pk_public_key := d_public_key d |}.

(** Project [i] with key [k] is as [d] prescribes. *)
Definition settled_as (i k : Z) (d : ProjectDefinition) ps ks ts : Prop :=
  (exists p, only (project_by_slug o d) i p ps /\ set_project d p = p)
  /\ (forall q, ps !! project_id d = Some q -> pr_org q = o -> i = project_id d)
  /\ first_row (fun x => pk_project x =? i) ks = Some (k, key_of i d)
  /\ first_row (fun x => ustr_eqb (pk_public_key x) (d_public_key d)) (delete k ks) = None
  /\ exists t, ts !! team = Some t /\ i ∈ tm_projects t.

Definition dsn_text (i : Z) (d : ProjectDefinition) : ustr := private_text (get_dsn scheme netloc (d_public_key d) i).

(** What the tables must be like: one project of a slug in an organization, and no prescribed
    id on a project with the slug of another definition. *)
Definition slugs_unique ps : Prop :=
  forall i j p q, ps !! i = Some p -> ps !! j = Some q -> pr_org p = pr_org q -> pr_slug p = pr_slug q -> i = j.

Lemma by_slug_spec d p : project_by_slug o d p = true <-> pr_org p = o /\ pr_slug p = d_slug d.
Proof. unfold project_by_slug. rewrite andb_true_iff, Z.eqb_eq, ustr_eqb_eq. done. Qed.

Lemma only_by_slug d i p ps : slugs_unique ps -> ps !! i = Some p -> project_by_slug o d p = true -> only (project_by_slug o d) i p ps.
Proof.
  intros Hu Hi Hp. split_and!; [done..|]. intros j q Hj Hq. apply by_slug_spec in Hp as [], Hq as []. eapply Hu; [done..|congruence|congruence].
Qed.

(** The row a definition takes: the one of its slug, else the one of its id, else a new one. *)
Lemma project_row_cases d ps i ps' :
  slugs_unique ps -> reconcile_project_row o d ps = Done (i, ps') ->
  exists p, ps' = <[i := set_project d p]> ps /\ pr_org p = o
    /\ (forall q, ps !! project_id d = Some q -> pr_org q = o -> i = project_id d)
    /\ (forall j q, ps !! j = Some q -> project_by_slug o d q = true -> j = i)
    /\ (ps !! i = Some p /\ (pr_slug p = d_slug d \/ i = project_id d) \/ ps !! i = None /\ i = project_id d).
Proof.
  intros Hu. unfold reconcile_project_row. destruct (first_row (project_by_slug o d) ps) as [[j p]|] eqn:E.
  - apply first_row_Some in E as (Hj & Hp & _). pose proof (only_by_slug _ _ _ _ Hu Hj Hp) as (_ & _ & Ho). apply by_slug_spec in Hp as [Hpo Hps].
    destruct (ps !! project_id d) as [q|] eqn:Eq; [destruct (Z.eqb_spec (pr_org q) o)|]; [destruct (Z.eqb_spec j (project_id d)); [|done]|..];
      intros [= <- <-]; exists p; split_and!; try done; auto; naive_solver.
  - pose proof (proj1 (first_row_None _ _) E) as Hn.
    assert (forall i j q, ps !! j = Some q -> project_by_slug o d q = true -> j = i) as Hnone by (intros i' j q Hj Hq; by rewrite (Hn _ _ Hj) in Hq).
    destruct (ps !! project_id d) as [q|] eqn:Eq; cbn.
    + destruct (Z.eqb_spec (pr_org q) o); [|done]. intros [= <- <-]. exists q. split_and!; try done; eauto.
    + intros [= <- <-]. exists (new_project o d). split_and!; try done; eauto.
Qed.

Lemma reconcile_key_spec i d ks ks' :
  reconcile_key i d ks = Done ks' ->
  exists k, ks' = <[k := key_of i d]> ks /\ first_row (fun x => pk_project x =? i) ks' = Some (k, key_of i d)
    /\ first_row (fun x => ustr_eqb (pk_public_key x) (d_public_key d)) (delete k ks') = None
    /\ (forall x, ks !! k = Some x -> pk_project x = i).
Proof.
  unfold reconcile_key. set (k := match first_row (fun x => pk_project x =? i) ks with Some (k, _) => k | None => _ end).
  destruct (bool_decide _) eqn:E; [done|]. intros [= <-]. exists k. split; [done|].
  apply bool_decide_eq_false in E. rewrite delete_insert_eq. split_and!; [|by apply eq_None_not_Some|].
  - apply first_row_Some. rewrite lookup_insert_eq. split_and!; [done|cbn; lia|]. intros j y [[<- <-]|[Hne Hj]]%lookup_insert_Some Hy; [lia|].
    subst k. destruct (first_row _ ks) as [[k x]|] eqn:Ef; [apply first_row_Some in Ef as (_ & _ & H); eauto|].
    by rewrite (proj1 (first_row_None _ _) Ef _ _ Hj) in Hy.
  - subst k. intros x Hx. destruct (first_row _ ks) as [[k y]|] eqn:Ef; [apply first_row_Some in Ef as (H & H2 & _)|].
    + rewrite H in Hx. injection Hx as <-. lia.
    + exfalso. apply (is_fresh (dom ks)). apply elem_of_dom. by eexists.
Qed.

(** Definitions that share no slug, id, key or file. *)
Definition distinct (d d' : ProjectDefinition) : Prop :=
  d_slug d <> d_slug d' /\ project_id d <> project_id d' /\ d_public_key d <> d_public_key d' /\ dsn_file d <> dsn_file d'.
Definition no_swap (l : list ProjectDefinition) ps : Prop :=
  forall d d' p, d ∈ l -> d' ∈ l -> ps !! project_id d' = Some p -> pr_org p = o -> pr_slug p = d_slug d -> d_slug d = d_slug d'.

(** The team but for its projects. *)
Definition same_teams ts ts' : Prop :=
  (forall t, ts !! team = Some t -> exists t', ts' !! team = Some t' /\ tm_org t' = tm_org t /\ tm_slug t' = tm_slug t /\ tm_members t' = tm_members t)
  /\ forall j, j <> team -> ts' !! j = ts !! j.

Lemma same_teams_refl ts : same_teams ts ts.
Proof. split; eauto. Qed.

Lemma same_teams_trans t1 t2 t3 : same_teams t1 t2 -> same_teams t2 t3 -> same_teams t1 t3.
Proof.
  intros [H1 H2] [H3 H4]. split; [|intros j Hj; by rewrite H4, H2].
  intros t Ht. destruct (H1 _ Ht) as (t' & Ht' & ? & ? & ?). destruct (H3 _ Ht') as (t'' & ? & ? & ? & ?).
  exists t''. split_and!; [done|congruence..].
Qed.

Lemma same_teams_add i ts : same_teams ts (alter (add_project i) team ts).
Proof.
  split; [|intros j Hj; by rewrite lookup_alter_ne]. intros t Ht. exists (add_project i t). by rewrite lookup_alter_eq, Ht.
Qed.

Lemma aset_id (k v : ustr) (f : adict ustr ustr) : aget k f = Some v -> aset k v f = f.
Proof.
  unfold aget. induction f as [|[k' v'] f IH]; simpl; [done|]. destruct (decide (k' = k)) as [->|Hne]; [by intros [= ->]|]. intros H. by rewrite IH.
Qed.

Lemma project_step d ps ks ts f ps' ks' ts' f' :
  slugs_unique ps -> is_Some (ts !! team) -> reconcile_project scheme netloc o team d (ps, ks, ts) f = Done (ps', ks', ts', f') ->
  exists i k p, settled_as i k d ps' ks' ts' /\ f' = aset (dsn_file d) (dsn_text i d) f /\ slugs_unique ps' /\ same_teams ts ts'
    /\ ps' = <[i := set_project d p]> ps /\ pr_org p = o /\ ks' = <[k := key_of i d]> ks /\ (forall x, ks !! k = Some x -> pk_project x = i)
    /\ ts' = alter (add_project i) team ts
    /\ (ps !! i = Some p /\ (pr_slug p = d_slug d \/ i = project_id d) \/ ps !! i = None /\ i = project_id d).
Proof.
  intros Hu [t Ht]. unfold reconcile_project. destruct (reconcile_project_row o d ps) as [[i ps1]|] eqn:E; [|done]. cbn [andthen].
  destruct (reconcile_key i d ks) as [ks1|] eqn:Ek; [|done]. cbn [andthen]. intros [= <- <- <- <-].
  apply (project_row_cases _ _ _ _ Hu) in E as (p & -> & Hp & Hid & Hother & Hcase).
  apply reconcile_key_spec in Ek as (k & -> & Hk1 & Hk2 & Hk3). exists i, k, p.
  assert (slugs_unique (<[i := set_project d p]> ps)) as Hu'.
  { intros a b x y [[<- <-]|[Ha Hx]]%lookup_insert_Some [[<- <-]|[Hb Hy]]%lookup_insert_Some Horg Hslug; [done|..]; [symmetry| |by eapply Hu].
    - eapply Hother; [exact Hy|]. apply by_slug_spec. cbn in *. split; congruence.
    - eapply Hother; [exact Hx|]. apply by_slug_spec. cbn in *. split; congruence. }
  split_and!; try done; [|apply same_teams_add].
  split_and!; try done.
  - exists (set_project d p). split; [|done]. apply only_by_slug; [done|apply lookup_insert_eq|]. by apply by_slug_spec.
  - intros q Hq Ho. destruct (decide (i = project_id d)) as [|Hne]; [done|]. rewrite lookup_insert_ne in Hq by done. eauto.
  - exists (add_project i t). rewrite lookup_alter_eq, Ht. split; [done|]. cbn. set_solver.
Qed.

(** A step leaves the projects of other definitions settled. *)
Lemma project_step_keeps d d' i k ps ks ts f ps' ks' ts' f' :
  slugs_unique ps -> settled_as i k d ps ks ts -> distinct d d' -> i <> project_id d' ->
  reconcile_project scheme netloc o team d' (ps, ks, ts) f = Done (ps', ks', ts', f') -> settled_as i k d ps' ks' ts'.
Proof.
  intros Hu ((p & (Hp1 & Hp2 & Hp3) & Hset) & Hid & Hk1 & Hk2 & t & Ht & Hti) (Hs & Hi & Hk & _) Hne E.
  apply project_step in E as (j & k' & q & _ & _ & _ & _ & -> & Hq & -> & Hk' & -> & Hcase); [|done|by eexists].
  pose proof Hp2 as [Hpo Hps]%by_slug_spec.
  assert (j <> i) as Hji by (intros ->; destruct Hcase as [[H1 [H2|H2]]|[H1 H2]]; congruence).
  apply first_row_Some in Hk1 as (Hk1 & Hk3 & Hk4). assert (k' <> k) as Hkk by (intros ->; apply Hk' in Hk1; cbn in Hk1; congruence).
  split_and!.
  - exists p. split; [|done]. split_and!; [by rewrite lookup_insert_ne|done|]. intros a x [[<- <-]|[_ Ha]]%lookup_insert_Some Hx; [|eauto].
    apply by_slug_spec in Hx as [_ Hx]. cbn in Hx. congruence.
  - intros x [[Hj <-]|[_ Hx]]%lookup_insert_Some Ho; [|eauto]. destruct Hcase as [[H1 _]|[_ H2]]; [|congruence]. rewrite Hj in H1. eauto.
  - apply first_row_Some. rewrite lookup_insert_ne by done. split_and!; [done..|].
    intros a x [[<- <-]|[_ Ha]]%lookup_insert_Some Hx; [cbn in Hx; lia|eauto].
  - apply first_row_None. intros a x [Hak [[<- <-]|[_ Ha]]%lookup_insert_Some]%lookup_delete_Some.
    + cbn. destruct (ustr_eqb _ _) eqn:E; [|done]. apply ustr_eqb_eq in E. congruence.
    + apply (proj1 (first_row_None _ _) Hk2 a). by rewrite lookup_delete_ne.
  - exists (add_project j t). rewrite lookup_alter_eq, Ht. split; [done|]. cbn. set_solver.
Qed.

Fixpoint pairwise (l : list ProjectDefinition) : Prop :=
  match l with [] => True | d :: l => Forall (distinct d) l /\ pairwise l end.

(** A project that took definition [d] has none of the ids of the others. *)
Lemma taken_apart d d' l i ps ps' p :
  no_swap l ps -> d ∈ l -> d' ∈ l -> distinct d d' -> pr_org p = o ->
  ps' = <[i := set_project d p]> ps -> (ps !! i = Some p /\ (pr_slug p = d_slug d \/ i = project_id d) \/ ps !! i = None /\ i = project_id d) ->
  i <> project_id d'.
Proof.
  intros Hn Hd Hd' (Hs & Hi & _) Hp _ [[H [Hslug | ->]] | [_ ->]]; [|done..]. intros ->. by apply Hs, (Hn d d' p).
Qed.

Lemma no_swap_step d l i p ps : no_swap (d :: l) ps -> Forall (fun d' => i <> project_id d') l -> no_swap l (<[i := set_project d p]> ps).
Proof.
  intros Hn Hl a b q Ha Hb [[Hib _]|[_ Hq]]%lookup_insert_Some Ho Hs; [|by apply (Hn a b q); [right..| | |]].
  rewrite Forall_forall in Hl. by apply Hl in Hib.
Qed.

Lemma projects_settle l ps ks ts f ps' ks' ts' f' :
  pairwise l -> slugs_unique ps -> no_swap l ps -> is_Some (ts !! team) ->
  reconcile_projects scheme netloc o team l (ps, ks, ts) f = (Done (ps', ks', ts'), f') ->
  (forall d, d ∈ l -> exists i k, settled_as i k d ps' ks' ts' /\ aget (dsn_file d) f' = Some (dsn_text i d))
  /\ (forall d i k, settled_as i k d ps ks ts -> Forall (fun d' => distinct d d' /\ i <> project_id d') l -> settled_as i k d ps' ks' ts')
  /\ (forall name, Forall (fun d' => name <> dsn_file d') l -> aget name f' = aget name f) /\ same_teams ts ts'.
Proof.
  revert ps ks ts f. induction l as [|d l IH]; intros ps ks ts f Hpw Hu Hn Ht; cbn [reconcile_projects].
  - intros [= <- <- <- <-]. split_and!; [by intros d ?%elem_of_nil|auto|auto|apply same_teams_refl].
  - destruct (reconcile_project scheme netloc o team d (ps, ks, ts) f) as [[[[ps1 ks1] ts1] f1]|] eqn:E; [|done]. intros H.
    pose proof (project_step _ _ _ _ _ _ _ _ _ Hu Ht E) as (i & k & p & Hd & -> & Hu1 & Hts & Hps & Hp & _ & _ & _ & Hcase).
    destruct Hpw as [Hdl Hpw]. assert (Forall (fun d' => i <> project_id d') l) as Hapart.
    { apply Forall_forall. intros d' Hd'. rewrite Forall_forall in Hdl. eapply taken_apart; [exact Hn|left|by right|by apply Hdl|done..]. }
    assert (is_Some (ts1 !! team)) as Ht1 by (destruct Ht as [t Ht]; destruct (proj1 Hts _ Ht) as (t' & -> & _); by eexists).
    assert (no_swap l ps1) as Hn1 by (rewrite Hps; by eapply no_swap_step).
    destruct (IH _ _ _ _ Hpw Hu1 Hn1 Ht1 H) as (H1 & H2 & H3 & H4). split_and!.
    + intros a [->|Ha]%elem_of_cons; [|by apply H1]. exists i, k. split; [apply H2; [done|]|].
      * rewrite Forall_forall in Hdl, Hapart |- *. auto.
      * rewrite H3, aget_aset_eq; [done|]. eapply Forall_impl; [exact Hdl|]. by intros b (_ & _ & _ & ?).
    + intros a i' k' Ha [[Hda Hi'] Hl]%Forall_cons. apply H2; [|done]. eapply (project_step_keeps a d); [exact Hu|exact Ha|done|done|exact E].
    + intros name [Hname Hl]%Forall_cons. rewrite H3 by done. rewrite aget_aset_ne; [done|congruence].
    + by eapply same_teams_trans.
Qed.

Lemma settled_step d i k ps ks ts f :
  settled_as i k d ps ks ts -> aget (dsn_file d) f = Some (dsn_text i d) ->
  reconcile_project scheme netloc o team d (ps, ks, ts) f = Done (ps, ks, ts, f).
Proof.
  intros ((p & Hp & Hset) & Hid & Hk1 & Hk2 & t & Ht & Hti) Hf. unfold reconcile_project, reconcile_project_row, reconcile_key.
  destruct (only_first _ _ _ _ Hp) as [-> _].
  assert (match (match ps !! project_id d with Some q => if pr_org q =? o then Some (project_id d, q) else None | None => None end) with
          | Some (j, _) => if i =? j then Done (i, <[i := set_project d p]> ps) else Failed (RuntimeError "project identity conflict")
          | None => Done (i, <[i := set_project d p]> ps) end = Done (i, ps)) as ->.
  { rewrite Hset, (insert_id ps i p) by apply Hp. destruct (ps !! project_id d) as [q|]; [|done].
    destruct (Z.eqb_spec (pr_org q) o); [|done]. by rewrite (Hid q), Z.eqb_refl. }
  cbn [andthen]. rewrite Hk1, Hk2. cbn [andthen]. apply first_row_Some in Hk1 as (Hk1 & _ & _).
  change ({| pk_project := i; pk_name := u "default"; pk_public_key := d_public_key d |}) with (key_of i d). rewrite bool_decide_eq_false_2 by (by intros []).
  rewrite (insert_id ks k) by done. cbn [andthen]. unfold dsn_text in Hf. rewrite (aset_id _ _ f Hf). repeat f_equal.
  apply map_eq. intros j. destruct (decide (j = team)) as [->|]; [|by rewrite lookup_alter_ne]. rewrite lookup_alter_eq, Ht. cbn. f_equal.
  destruct t as [a b m q]. cbn in *. unfold add_project. cbn. f_equal. set_solver.
Qed.

Lemma settled_loop l ps ks ts f :
  (forall d, d ∈ l -> exists i k, settled_as i k d ps ks ts /\ aget (dsn_file d) f = Some (dsn_text i d)) ->
  reconcile_projects scheme netloc o team l (ps, ks, ts) f = (Done (ps, ks, ts), f).
Proof.
  induction l as [|d l IH]; intros H; [done|]. cbn [reconcile_projects]. destruct (H d (list_elem_of_here _ _)) as (i & k & H1 & H2).
  rewrite (settled_step d i k) by done. apply IH. intros d' Hd'. apply H. by right.
Qed.
End loop.

(** ** The tables before the loop *)

Section people.
Context (sso_only : bool) (c : ReconcileConfig).

(** Everyone and everything is as prescribed, with no second row beside. *)
Definition settled_people (random : ustr) (o team : Z) (s : Database) : Prop :=
  exists app user member,
    only is_app app (app_of c) (social_apps s) /\ only (is_operator c) user (operator_of c random) (users s)
    /\ first_row (email_clashes c user) (emails s) = None /\ (exists e, only (is_email c user) e (email_of c user) (emails s))
    /\ first_row (other_subject c user) (accounts s) = None /\ (exists a, only (is_account c) a (account_of c user) (accounts s))
    /\ only is_org o the_org (orgs s) /\ only (is_membership user o) member (membership_of user o) (org_users s)
    /\ owners s !! o = Some member /\ org_apps s !! app = Some o
    /\ exists t, only (is_team o) team t (teams s) /\ member ∈ tm_members t.

(** An upsert with constant data leaves exactly that row. *)
Lemma upsert_constant {A} (p : A -> bool) (new : A) m i m' :
  p new = true -> update_or_create p (fun _ => new) new m = Done (i, m') -> only p i new m' /\ m' = <[i := new]> m.
Proof.
  intros Hn H. apply update_or_create_spec in H as (y & Ho & Hm & Hy); [|done|done].
  assert (y = new) as -> by (destruct Hy as [[? _]|(x & _ & ?)]; done). done.
Qed.

(** A row that does not meet a condition does not make one meet it. *)
Lemma none_insert {A} (q : A -> bool) m i (y : A) : first_row q m = None -> q y = false -> first_row q (<[i := y]> m) = None.
Proof.
  intros Hm Hy. apply first_row_None. intros j x [[<- <-]|[_ Hj]]%lookup_insert_Some; [done|]. by apply (proj1 (first_row_None _ _) Hm j).
Qed.

Lemma bool_decide_none {A} (x : option A) : bool_decide (is_Some x) = false -> x = None.
Proof. intros H%bool_decide_eq_false. by apply eq_None_not_Some. Qed.

Lemma is_team_new o members projects : is_team o {| tm_org := o; tm_slug := TEAM_SLUG; tm_members := members; tm_projects := projects |} = true.
Proof. unfold is_team. cbn [tm_org tm_slug]. rewrite Z.eqb_refl, ustr_eqb_refl. reflexivity. Qed.

Lemma people_settle random s o team s1 :
  reconcile_people sso_only c random s = Done (o, team, s1) -> settled_people random o team s1 /\ projects s1 = projects s /\ keys s1 = keys s.
Proof.
  unfold reconcile_people. destruct (update_or_create is_app _ _ _) as [[app m1]|] eqn:E1; [|done]. cbn [andthen].
  destruct (update_or_create (is_operator c) _ _ _) as [[user m2]|] eqn:E2; [|done]. cbn [andthen].
  destruct (bool_decide (is_Some (first_row (email_clashes c user) (emails s)))) eqn:Ec; [done|].
  destruct (update_or_create (is_email c user) _ _ _) as [[e m3]|] eqn:E3; [|done]. cbn [andthen].
  destruct (match first_row (is_account c) (accounts s) with Some _ => _ | None => _ end); [done|].
  destruct (bool_decide (is_Some (first_row (other_subject c user) (accounts s)))) eqn:Es; [done|].
  destruct (update_or_create (is_account c) _ _ _) as [[a m4]|] eqn:E4; [|done]. cbn [andthen].
  destruct (update_or_create is_org _ _ _) as [[o' m5]|] eqn:E5; [|done]. cbn [andthen].
  destruct (update_or_create (is_membership user o') _ _ _) as [[member m6]|] eqn:E6; [|done]. cbn [andthen].
  destruct (update_or_create (is_team o') _ _ _) as [[team' m7]|] eqn:E7; [|done]. cbn [andthen]. intros [= <- <- <-]. split; [|done].
  assert (is_email c user (email_of c user) = true) as He by (unfold is_email; cbn; by rewrite Z.eqb_refl, ustr_eqb_refl).
  assert (is_account c (account_of c user) = true) as Ha by (unfold is_account; cbn; by rewrite !ustr_eqb_refl).
  apply upsert_constant in E1 as [H1 _]; [|done]. apply upsert_constant in E2 as [H2 _]; [|unfold is_operator; cbn; apply ustr_eqb_refl].
  apply upsert_constant in E3 as [H3 ->]; [|done]. apply upsert_constant in E4 as [H4 ->]; [|done]. apply upsert_constant in E5 as [H5 _]; [|done].
  apply upsert_constant in E6 as [H6 _]; [|unfold is_membership; cbn; by rewrite Z.eqb_refl, bool_decide_eq_true_2].
  apply update_or_create_spec in E7 as (t & Ht & _ & Hnew); [|intros x Hx; exact Hx|apply is_team_new].
  exists app, user, member. cbn. split_and!; eauto.
  - apply none_insert; [by apply bool_decide_none|]. unfold email_clashes. by rewrite He.
  - apply none_insert; [by apply bool_decide_none|]. unfold other_subject. cbn [ac_provider ac_user ac_uid account_of]. rewrite !ustr_eqb_refl. apply andb_false_r.
  - by rewrite lookup_insert_eq.
  - by rewrite lookup_insert_eq.
  - exists t. split; [done|]. destruct Hnew as [[-> _]|(x & _ & ->)]; cbn; set_solver.
Qed.

(** A team that has the member already stays as it is. *)
Lemma signal_settled o team member user t accounts orgs teams :
  only (is_team o) team t teams -> member ∈ tm_members t ->
  add_zitadel_user_to_operator_team sso_only accounts orgs member (membership_of user o) teams = teams.
Proof.
  intros Ht Hm. unfold add_zitadel_user_to_operator_team. cbn. destruct (_ && _); [|done]. destruct (only_first _ _ _ _ Ht) as [-> _].
  apply map_eq. intros j. destruct (decide (j = team)) as [->|]; [|by rewrite lookup_alter_ne]. destruct Ht as (Ht & _). rewrite lookup_alter_eq, Ht. cbn. f_equal.
  destruct t. unfold add_member. cbn in *. f_equal. set_solver.
Qed.

(** The operator gets another unusable password, nothing else changes. *)
Definition with_users (m : gmap Z User) (s : Database) : Database :=
  {| social_apps := social_apps s; users := m; emails := emails s; accounts := accounts s; orgs := orgs s; org_users := org_users s;
     owners := owners s; org_apps := org_apps s; teams := teams s; projects := projects s; keys := keys s |}.
Definition password_renewed (random : ustr) (s s' : Database) : Prop :=
  exists user x, only (is_operator c) user (operator_of c x) (users s) /\ s' = with_users (<[user := operator_of c random]> (users s)) s.

Lemma people_settled random again o team s :
  settled_people random o team s -> exists s', reconcile_people sso_only c again s = Done (o, team, s') /\ password_renewed again s s'.
Proof.
  intros (app & user & member & H1 & H2 & Hc & (e & H3) & Hs & (a & H4) & H5 & H6 & Ho & Happ & t & H7 & Hm). unfold reconcile_people.
  rewrite (update_or_create_settled _ _ _ _ _ _ H1) by done. cbn [andthen]. rewrite (update_or_create_only _ _ _ _ _ _ H2). cbn [andthen].
  rewrite Hc, bool_decide_eq_false_2 by (by intros []). rewrite (update_or_create_settled _ _ _ _ _ _ H3) by done. cbn [andthen].
  destruct (only_first _ _ _ _ H4) as [-> _]. cbn [ac_user account_of]. rewrite Z.eqb_refl. cbn [negb].
  rewrite Hs, bool_decide_eq_false_2 by (by intros []). rewrite (update_or_create_settled _ _ _ _ _ _ H4) by done. cbn [andthen].
  rewrite (update_or_create_settled _ _ _ _ _ _ H5) by done. cbn [andthen]. rewrite (update_or_create_settled _ _ _ _ _ _ H6) by done. cbn [andthen].
  rewrite (signal_settled _ _ _ _ _ _ _ _ H7 Hm).
  assert (add_member member t = t) as Hadd by (destruct t; unfold add_member; cbn in *; f_equal; set_solver).
  rewrite (update_or_create_settled _ _ _ _ _ _ H7) by done. cbn [andthen]. rewrite (insert_id (owners s)), (insert_id (org_apps s)) by done. eexists. split; [done|]. by exists user, random.
Qed.
End people.

(** ** The command *)

Definition with_loop (ps : gmap Z Project) (ks : gmap Z ProjectKey) (ts : gmap Z Team) (s : Database) : Database :=
  {| social_apps := social_apps s; users := users s; emails := emails s; accounts := accounts s; orgs := orgs s; org_users := org_users s;
     owners := owners s; org_apps := org_apps s; teams := ts; projects := ps; keys := ks |}.

Lemma settled_people_loop c random o team s ps ks ts : settled_people c random o team s -> same_teams team (teams s) ts -> settled_people c random o team (with_loop ps ks ts s).
Proof.
  intros (app & user & member & H1 & H2 & Hc & H3 & Hs & H4 & H5 & H6 & Ho & Happ & t & (Ht & Hp & Hother) & Hm) [Hsame Hrest].
  exists app, user, member. cbn. split_and!; try done. destruct (Hsame _ Ht) as (t' & Ht' & Horg & Hslug & Hmem). exists t'.
  assert (is_team o t' = true) as Hp' by (unfold is_team; by rewrite Horg, Hslug).
  split; [|by rewrite Hmem]. split_and!; [done..|]. intros j y Hj Hy. destruct (decide (j = team)) as [|Hne]; [done|]. rewrite Hrest in Hj by done. eauto.
Qed.

Lemma PROJECTS_pairwise : pairwise PROJECTS.
Proof. cbn. repeat split; repeat constructor; vm_compute; discriminate. Qed.

Section command.
Context (scheme netloc : ustr) (v : Settings) (c : ReconcileConfig) (status : ustr).

(** The organization, its operator and its projects are as prescribed, with the DSNs of the
    projects' keys in the files. *)
Definition governed (random : ustr) (s : Database) (f : adict ustr ustr) : Prop :=
  exists o team, settled_people c random o team s
    /\ (forall d, d ∈ PROJECTS -> exists i k, settled_as o team i k d (projects s) (keys s) (teams s)
          /\ aget (dsn_file d) f = Some (dsn_text scheme netloc i d))
    /\ aget (u "status.json") f = Some (private_text status).

(** No project of a prescribed id has the slug of another definition. *)
Definition identities_apart (s : Database) : Prop := forall o, no_swap o PROJECTS (projects s).

Lemma governed_run random s f s' f' :
  slugs_unique (projects s) -> identities_apart s -> reconcile scheme netloc v c status random s f = (Done tt, s', f') -> runtime_ok v = true /\ governed random s' f'.
Proof.
  intros Hu Hn. unfold reconcile. destruct (runtime_ok v); cbn [negb]; [|done].
  destruct (reconcile_people (SSO_ONLY v) c random s) as [[[o team] s1]|] eqn:Ep; [|done].
  apply people_settle in Ep as (Hp & Hproj & Hkeys). rewrite Hproj, Hkeys.
  assert (is_Some (teams s1 !! team)) as Ht by (destruct Hp as (? & ? & ? & _ & _ & _ & _ & _ & _ & _ & _ & _ & _ & t & (Ht & _) & _); by eexists).
  destruct (reconcile_projects _ _ o team PROJECTS _ f) as [[[[ps ks] ts]|] f1] eqn:El; [|done]. intros [= <- <-]. split; [done|].
  apply projects_settle in El as (H1 & _ & _ & H4); [|apply PROJECTS_pairwise|done|apply Hn|done]. exists o, team. split_and!.
  - by apply (settled_people_loop c random o team s1 ps ks ts).
  - intros d Hd. destruct (H1 d Hd) as (i & k & Hs & Hf). exists i, k. split; [done|]. rewrite aget_aset_ne; [done|]. intros He.
    assert (Forall (fun x => u "status.json" <> dsn_file x) PROJECTS) as Hall by (repeat constructor; vm_compute; discriminate).
    rewrite Forall_forall in Hall. by apply (Hall d).
  - apply aget_aset_eq.
Qed.

(** When the command succeeds, the sign-in provider has the given credentials, the operator
    is an active user without password and rights of staff, linked to the given subject and
    owner of the closed organization; each prescribed project is one of it, with its slug,
    name, platform and first key, in the operators' team, and the file of each holds the DSN
    of that key. *)
Theorem reconcile_governs random s f s' f' :
  slugs_unique (projects s) -> identities_apart s -> reconcile scheme netloc v c status random s f = (Done tt, s', f') -> governed random s' f'.
Proof. intros Hu Hn H. by eapply governed_run. Qed.

(** C36: The command is idempotent, but for the operator's unusable password, which is another
    random text after each run: after a success a second run succeeds and changes nothing
    else in the tables (their times apart) and no file. A slug is of one project of an
    organization, as the database demands, and before the first run no project may have the
    id that is prescribed for one and the slug that is prescribed for another (the first run
    then ends as well, but loses one of the two). *)
Theorem reconcile_idempotent random again s f s' f' :
  slugs_unique (projects s) -> identities_apart s -> reconcile scheme netloc v c status random s f = (Done tt, s', f') ->
  exists s'', reconcile scheme netloc v c status again s' f' = (Done tt, s'', f') /\ password_renewed c again s' s''.
Proof.
  intros Hu Hn H. apply governed_run in H as (Hv & o & team & Hp & Hd & Hf); [|done..]. unfold reconcile. rewrite Hv. cbn [negb].
  destruct (people_settled (SSO_ONLY v) c random again o team s' Hp) as (s'' & E & user & x & Huser & ->). rewrite E.
  cbn [with_users projects keys teams]. rewrite (settled_loop scheme netloc o team PROJECTS) by done.
  rewrite (aset_id _ _ f' Hf). eexists. split; [done|]. by exists user, x.
Qed.
End command.

(** ** Witnesses and examples *)

Definition ex_settings : Settings := {| SSO_ONLY := true; USER_REGISTRATION := false; SOCIAL_APPS_USER_REGISTRATION := true; ORGANIZATION_CREATION := false |}.
Definition ex_config : ReconcileConfig :=
  {| client_id := u "id"; client_secret := u "s"; operator_email := u "op@x.example"; operator_subject := u "42"; discovery_url := u "https://auth.x.example" |}.
Definition empty_db : Database :=
  {| social_apps := ∅; users := ∅; emails := ∅; accounts := ∅; orgs := ∅; org_users := ∅; owners := ∅; org_apps := ∅; teams := ∅; projects := ∅; keys := ∅ |}.

(** The organization with the given projects. *)
Definition db_with (ps : gmap Z Project) : Database :=
  {| social_apps := ∅; users := ∅; emails := ∅; accounts := ∅; orgs := {[5 := the_org]}; org_users := ∅; owners := ∅; org_apps := ∅; teams := ∅;
     projects := ps; keys := ∅ |}.
Definition project_row (slug : string) (deleted : bool) : Project :=
  {| pr_org := 5; pr_slug := u slug; pr_name := []; pr_platform := []; pr_deleted := deleted |}.
Arguments project_row _%_string _.

Definition run (s : Database) := reconcile (u "https") (u "e.example") ex_settings ex_config (u "{}") (u "r1") s [].
Definition status_of (r : outcome unit * Database * adict ustr ustr) : outcome unit := r.1.1.

Lemma empty_run : run empty_db = (Done tt, (run empty_db).1.2, (run empty_db).2).
Proof. assert (status_of (run empty_db) = Done tt) as H by by_compute. revert H. unfold status_of. by destruct (run empty_db) as [[r s] f]; intros [= ->]. Qed.

Lemma empty_slugs_unique : slugs_unique (projects empty_db).
Proof. intros i j p q H. cbn in H. by rewrite lookup_empty in H. Qed.

Lemma empty_identities_apart : identities_apart empty_db.
Proof. intros o d d' p _ _ H. cbn in H. by rewrite lookup_empty in H. Qed.

Lemma reconcile_governs_witness : governed (u "https") (u "e.example") ex_config (u "{}") (u "r1") (run empty_db).1.2 (run empty_db).2.
Proof.
  apply (reconcile_governs (u "https") (u "e.example") ex_settings ex_config (u "{}") (u "r1") empty_db []);
    [apply empty_slugs_unique|apply empty_identities_apart|apply empty_run].
Defined.

Lemma reconcile_idempotent_witness :
  exists s'', reconcile (u "https") (u "e.example") ex_settings ex_config (u "{}") (u "r2") (run empty_db).1.2 (run empty_db).2 = (Done tt, s'', (run empty_db).2)
    /\ password_renewed ex_config (u "r2") (run empty_db).1.2 s''.
Proof.
  apply (reconcile_idempotent (u "https") (u "e.example") ex_settings ex_config (u "{}") (u "r1") (u "r2") empty_db []);
    [apply empty_slugs_unique|apply empty_identities_apart|apply empty_run].
Defined.

Example first_dsn : aget (u "sales-pulse-web.dsn") (run empty_db).2 = Some (u "https://aaaaaaaaaaaa4aaa8aaaaaaaaaaaaaa1@e.example/41401" ++ [10]).
Proof. by_compute. Qed.

(** A project of the id of one definition and the slug of an earlier one is taken by both: it
    ends as the later one, and the file of the earlier one holds a key that is gone. A second
    run then makes the earlier one. *)
Example swapped_identity_loses_project :
  let r := run (db_with {[41402 := project_row "sales-pulse-web" false]}) in
  status_of r = Done tt
  /\ (pr_slug <$> projects r.1.2 !! 41402) = Some (u "sales-pulse-worker") /\ projects r.1.2 !! 41401 = None
  /\ aget (u "sales-pulse-web.dsn") r.2 = Some (u "https://aaaaaaaaaaaa4aaa8aaaaaaaaaaaaaa1@e.example/41402" ++ [10])
  /\ first_row (fun k => ustr_eqb (pk_public_key k) (u "aaaaaaaaaaaa4aaa8aaaaaaaaaaaaaa1")) (keys r.1.2) = None
  /\ (pr_slug <$> projects (run r.1.2).1.2 !! 41401) = Some (u "sales-pulse-web").
Proof. cbn zeta. split_and!; by_compute. Qed.

(** A conflict rolls the tables back and leaves the files that were written. *)
Example files_outlive_rollback :
  let s := db_with {[41402 := project_row "a" false; 7 := project_row "sales-pulse-worker" false]} in
  status_of (run s) = Failed (RuntimeError "project identity conflict") /\ keys (run s).1.2 = ∅
  /\ is_Some (aget (u "sales-pulse-web.dsn") (run s).2).
Proof. cbn zeta. split; [by_compute|]. split; [by_compute|]. eexists. by_compute. Qed.

(** A deleted project is used as it is: its DSN is written, the project stays deleted. *)
Example deleted_project_stays :
  let r := run (db_with {[41401 := project_row "sales-pulse-web" true]}) in
  status_of r = Done tt /\ (pr_deleted <$> projects r.1.2 !! 41401) = Some true.
Proof. cbn zeta. split; by_compute. Qed.

Example eight_projects : length PROJECTS = 8%nat.
Proof. done. Qed.
