(* ===== verification/IssueAdmin.v ===== *)
(** * Managing issues

    [issue_events/services.py] (which issues a request is about, with the search language),
    [issue_events/api/issues.py] (status, assignment, merging and deletion),
    [issue_events/tasks.py] (their continuation in the background) and
    [issue_events/maintenance.py] (deletion in batches). *)
From S2P Require Import Prelude PyStr PyValue Regex EventAuth.

(** ** The search language *)

(** *** [shlex.split] *)

Inductive lexer := Blank | Word | Quote (q : Z) | Escape (back : option Z).

Definition DQUOTE : Z := 34.
Definition BACKSLASH : Z := 92.
Definition is_quote (c : Z) : bool := (c =? DQUOTE) || (c =? 39).
Definition is_blank (c : Z) : bool := (c =? 32) || (c =? 9) || (c =? 13) || (c =? 10).

(** The token read so far is reversed; [quoted] tells an empty one from none. [None] for the
    [ValueError] of a quotation or an escape that is not closed. *)
Fixpoint shlex_go (st : lexer) (token : ustr) (quoted : bool) (s : ustr) : option (list ustr) :=
  match st, s with
  | Blank, [] => Some []
  | Blank, c :: s =>
      if is_blank c then shlex_go Blank [] false s
      else if c =? BACKSLASH then shlex_go (Escape None) [] false s
      else if is_quote c then shlex_go (Quote c) [] false s
      else shlex_go Word [c] false s
  | Word, [] => Some (if quoted || truthy token then [rev token] else [])
  | Word, c :: s =>
      if is_blank c then if quoted || truthy token then cons (rev token) <$> shlex_go Blank [] false s else shlex_go Blank [] false s
      else if is_quote c then shlex_go (Quote c) token quoted s
      else if c =? BACKSLASH then shlex_go (Escape None) token quoted s
      else shlex_go Word (c :: token) quoted s
  | Quote _, [] => None
  | Quote q, c :: s =>
      if c =? q then shlex_go Word token true s
      else if (c =? BACKSLASH) && (q =? DQUOTE) then shlex_go (Escape (Some q)) token true s
      else shlex_go (Quote q) (c :: token) true s
  | Escape _, [] => None
  | Escape back, c :: s =>
      match back with
      | Some q => shlex_go (Quote q) (c :: if negb (c =? BACKSLASH) && negb (c =? q) then BACKSLASH :: token else token) quoted s
      | None => shlex_go Word (c :: token) quoted s
      end
  end.

Definition shlex_split (s : ustr) : option (list ustr) := shlex_go Blank [] false s.

(** [s.split()] *)
Definition split_words (s : ustr) : list ustr := filter (fun w => truthy w = true) (re_split (RClass is_space) s).

(** *** Conditions *)

Definition status_labels : adict ustr Z := [(u "unresolved", 0); (u "resolved", 1); (u "ignored", 2)].
Definition level_labels : adict ustr Z := [(u "sample", 0); (u "debug", 1); (u "info", 2); (u "warning", 3); (u "error", 4); (u "fatal", 5)].

(** What a word of the query asks for; an unknown status or level asks for none. *)
Inductive condition :=
| IsStatus (s : option Z)
| HasTag (key : ustr)
| IsLevel (l : option Z)
| TagIs (key value : ustr)
| Text (s : ustr).

(** [part.split(":", 1)] *)
Fixpoint split_colon (s : ustr) : option (ustr * ustr) :=
  match s with [] => None | c :: s => if c =? 58 then Some ([], s) else (fun ab => (c :: ab.1, ab.2)) <$> split_colon s end.

Definition strip_quotes (s : ustr) : ustr := let q c := c =? DQUOTE in rstrip_by q (lstrip_by q s).

(** The loop over the words: the first without a colon begins the text. *)
Fixpoint conditions (queries : list ustr) : list condition :=
  match queries with
  | [] => []
  | q :: rest =>
      match split_colon q with
      | Some (name, v) =>
          let v := strip_quotes v in
          (if ustr_eqb name (u "is") then IsStatus (aget v status_labels)
           else if ustr_eqb name (u "has") then HasTag v
           else if ustr_eqb name (u "level") then IsLevel (aget v level_labels)
           else TagIs name v) :: conditions rest
      | None => [Text (join (u " ") (q :: rest))]
      end
  end.

Definition parse_query (query : ustr) : list condition := conditions (default (split_words query) (shlex_split query)).

(** *** Times relative to now *)

Definition MINUTE : Z := 60 * 1000000.

Definition RELATIVE_TIME_REGEX : regex :=
  RSeq (RLit "now") (RSeq (RStar true (RClass is_space)) (RSeq (RLit "-") (RSeq (RStar true (RClass is_space)) (RSeq (RPlus (RClass is_digit))
    (RSeq (RStar true (RClass is_space)) (RSeq (RClass (one_of "mhd")) (RSeq (RStar true (RClass is_space)) REnd))))))).

(** The first microsecond a [datetime] can hold. *)
Definition MIN_DATETIME : Z := - 62135596800000000.

(** The first run of digits. *)
Fixpoint drop_to_digit (s : ustr) : ustr := match s with [] => [] | c :: r => if is_digit c then s else drop_to_digit r end.
Fixpoint span_digits (s : ustr) : ustr := match s with c :: r => if is_digit c then c :: span_digits r else [] | [] => [] end.

(** A time, or [None] for a text that is handed on as it is. *)
Definition relative_to_datetime (now : Z) (v : ustr) : res (option Z) :=
  if ustr_eqb v (u "now") then Ok (Some now)
  else
    match re_match RELATIVE_TIME_REGEX v with
    | None => Ok None
    | Some _ =>
        let spaces_stripped := replace (u " ") [] v in
        let numbers := digits_value (span_digits (drop_to_digit spaces_stripped)) in
        let unit := match last spaces_stripped with
                    | Some c => if c =? 109 then MINUTE else if c =? 104 then 60 * MINUTE else if c =? 100 then 24 * 60 * MINUTE else 0
                    | None => 0
                    end in
        if (unit =? 0) then Ok (Some now)
        else if (999999999 * 24 * 60 * MINUTE <? numbers * unit) || (now - numbers * unit <? MIN_DATETIME) then Raise OverflowError
        else Ok (Some (now - numbers * unit))
    end.

(** ** The tables *)

Record Issue := {
  project : Z; title : ustr; first_seen : Z; resolved_in_release : option Z; assigned_to_org_user : option Z; assigned_to_team : option Z; is_deleted : bool }.

(** The row of [IssueIndex] of an issue. *)
Record Leaf := { l_org : Z; status : Z; count : Z; last_seen : Z; level : Z }.

Record IssueTag := { tag_issue : Z; tag_key : ustr; tag_value : ustr; tag_count : Z }.
Record IssueAggregate := { agg_issue : Z; agg_date : Z; agg_count : Z }.
Record IssueEvent := { ev_id : Z; ev_event_id : option Z; ev_issue : Z; ev_org : Z }.
Record IssueHash := { h_value : ustr; h_issue : Z }.
Record ProjectRow := { pr_org : Z; pr_slug : ustr }.
(** A member; its email is the user's. *)
Record Member := { m_id : Z; m_org : Z; m_user : option Z; m_email : option ustr }.
Record TeamRow := { tm_id : Z; tm_org : Z; tm_slug : ustr }.
Record ReleaseRow := { r_id : Z; r_version : ustr; r_org : Z; r_projects : list Z; r_created : Z }.

Record Filters := {
  f_ids : option (list Z); f_start : option Z; f_end : option Z; f_projects : option (list Z); f_environment : list ustr; f_query : option ustr }.

(** What the tasks are given. *)
Record TaskArgs := {
  k_slug : ustr; k_user : Z; k_filters : Filters; k_exclude : list Z; k_max_id : Z;
  k_status : option Z; k_merge : option Z; k_assign : option (option Z * option Z) }.
Inductive Task := DeleteTask (ids : list Z) | UpdateTask (k : TaskArgs).

Record Tables := {
  issues : gmap Z Issue; leafs : gmap Z Leaf; tags : list IssueTag; aggregates : list IssueAggregate; events : list IssueEvent; hashes : list IssueHash;
  comments : list Z; reports : list Z; notified : list (Z * Z);
  projects : gmap Z ProjectRow; orgs : gmap Z ustr; members : list Member; teams : list TeamRow; releases : list ReleaseRow; queue : list Task }.

Definition with_issues (m : gmap Z Issue) (s : Tables) : Tables :=
  {| issues := m; leafs := leafs s; tags := tags s; aggregates := aggregates s; events := events s; hashes := hashes s; comments := comments s;
     reports := reports s; notified := notified s; projects := projects s; orgs := orgs s; members := members s; teams := teams s; releases := releases s; queue := queue s |}.
Definition with_leafs (m : gmap Z Leaf) (s : Tables) : Tables :=
  {| issues := issues s; leafs := m; tags := tags s; aggregates := aggregates s; events := events s; hashes := hashes s; comments := comments s;
     reports := reports s; notified := notified s; projects := projects s; orgs := orgs s; members := members s; teams := teams s; releases := releases s; queue := queue s |}.
Definition with_events (l : list IssueEvent) (s : Tables) : Tables :=
  {| issues := issues s; leafs := leafs s; tags := tags s; aggregates := aggregates s; events := l; hashes := hashes s; comments := comments s;
     reports := reports s; notified := notified s; projects := projects s; orgs := orgs s; members := members s; teams := teams s; releases := releases s; queue := queue s |}.
Definition with_hashes (l : list IssueHash) (s : Tables) : Tables :=
  {| issues := issues s; leafs := leafs s; tags := tags s; aggregates := aggregates s; events := events s; hashes := l; comments := comments s;
     reports := reports s; notified := notified s; projects := projects s; orgs := orgs s; members := members s; teams := teams s; releases := releases s; queue := queue s |}.
Definition enqueue (t : Task) (s : Tables) : Tables :=
  {| issues := issues s; leafs := leafs s; tags := tags s; aggregates := aggregates s; events := events s; hashes := hashes s; comments := comments s;
     reports := reports s; notified := notified s; projects := projects s; orgs := orgs s; members := members s; teams := teams s; releases := releases s; queue := queue s ++ [t] |}.

(** [UPDATE ... WHERE id IN (ids)] *)
Definition update_issues_where (ids : list Z) (f : Issue -> Issue) (s : Tables) : Tables :=
  with_issues (map_imap (fun i x => Some (if bool_decide (i ∈ ids) then f x else x)) (issues s)) s.
Definition update_leafs_where (ids : list Z) (o : Z) (f : Leaf -> Leaf) (s : Tables) : Tables :=
  with_leafs (map_imap (fun i x => Some (if bool_decide (i ∈ ids) && (l_org x =? o) then f x else x)) (leafs s)) s.

Definition mark_deleted (i : Issue) : Issue :=
  {| project := project i; title := title i; first_seen := first_seen i; resolved_in_release := resolved_in_release i;
     assigned_to_org_user := assigned_to_org_user i; assigned_to_team := assigned_to_team i; is_deleted := true |}.
Definition assign (u t : option Z) (i : Issue) : Issue :=
  {| project := project i; title := title i; first_seen := first_seen i; resolved_in_release := resolved_in_release i;
     assigned_to_org_user := u; assigned_to_team := t; is_deleted := is_deleted i |}.
Definition set_status (st : Z) (l : Leaf) : Leaf := {| l_org := l_org l; status := st; count := count l; last_seen := last_seen l; level := level l |}.
Definition add_count (n : Z) (l : Leaf) : Leaf := {| l_org := l_org l; status := status l; count := count l + n; last_seen := last_seen l; level := level l |}.

(** ** Which issues *)

Section issues.
(** The order in which the database returns ids, the text search of the index, the match of
    a title with a pattern, and the number a text stands for. *)
Context (scan : list Z -> list Z) (fts : Z -> ustr -> bool) (ilike : ustr -> ustr -> bool) (py_int : ustr -> option Z).

Definition is_member (s : Tables) (user o : Z) : bool := existsb (fun m => (m_org m =? o) && bool_decide (m_user m = Some user)) (members s).

Definition org_of (s : Tables) (i : Issue) : option Z := pr_org <$> projects s !! project i.

(** The organization of a slug. *)
Definition org_by_slug (s : Tables) (sl : ustr) : option Z :=
  fst <$> find_first (fun kv : Z * ustr => ustr_eqb kv.2 sl) (map_to_list (orgs s)).

Abbreviation query := (Z -> Issue -> bool).

(** [get_queryset]; [None] for the error 404. *)
Definition get_queryset (s : Tables) (user : Z) (organization_slug project_slug : option ustr) : option query :=
  let in_project (i : Issue) := match project_slug with Some p => bool_decide (pr_slug <$> projects s !! project i = Some p) | None => true end in
  match organization_slug with
  | Some sl =>
      match find_first (fun kv : Z * ustr => ustr_eqb kv.2 sl && is_member s user kv.1) (map_to_list (orgs s)) with
      | Some (o, _) => Some (fun id i => bool_decide (org_of s i = Some o) && in_project i && bool_decide (l_org <$> leafs s !! id = Some o))
      | None => None
      end
  | None => Some (fun id i => match org_of s i with Some o => is_member s user o | None => false end && in_project i)
  end.

Definition has_tag (s : Tables) (id : Z) (p : IssueTag -> bool) : bool := existsb (fun t => (tag_issue t =? id) && p t) (tags s).

Definition holds (s : Tables) (organization_id : option Z) (id : Z) (i : Issue) (c : condition) : bool :=
  match c with
  | IsStatus st => match st, leafs s !! id with Some st, Some l => status l =? st | _, _ => false end
  | IsLevel lv => match lv, leafs s !! id with Some lv, Some l => level l =? lv | _, _ => false end
  | HasTag k => has_tag s id (fun t => ustr_eqb (tag_key t) k)
  | TagIs k v => has_tag s id (fun t => ustr_eqb (tag_key t) k && ustr_eqb (tag_value t) v)
  | Text q =>
      let indexed := match leafs s !! id with
                     | Some l => fts id q && match organization_id with Some o => l_org l =? o | None => true end
                     | None => false
                     end in
      if bool_decide (42 ∈ q) then ilike (title i) (37 :: replace (u "*") (u "%") q ++ [37]) || indexed else indexed
  end.

Definition within (s : Tables) (f : Filters) (id : Z) (i : Issue) : bool :=
  match f_ids f with Some l => bool_decide (id ∈ l) | None => true end &&
  match f_start f with Some t => t <=? first_seen i | None => true end &&
  match f_end f with Some t => first_seen i <=? t | None => true end &&
  match f_projects f with Some l => bool_decide (project i ∈ l) | None => true end &&
  match f_environment f with [] => true | l => has_tag s id (fun t => ustr_eqb (tag_key t) (u "environment") && bool_decide (tag_value t ∈ l)) end.

(** The version nibble of a UUID of the usual variant. *)
Definition is_uuid7 (n : Z) : bool := (Z.land (Z.shiftr n 76) 15 =? 7) && (Z.land (Z.shiftr n 62) 3 =? 2).

(** [filter_issue_list] *)
Definition filter_issue_list (s : Tables) (q : query) (f : Filters) (event_id organization_id : option Z) : query :=
  fun id i =>
    q id i && within s f id i &&
    match event_id with
    | Some e =>
        existsb (fun ev => (ev_issue ev =? id) &&
          if is_uuid7 e then ev_id ev =? e
          else bool_decide (ev_event_id ev = Some e) && match organization_id with Some o => ev_org ev =? o | None => true end) (events s)
    | None =>
        match f_query f with
        | Some t => if truthy t then forallb (holds s organization_id id i) (parse_query t) else true
        | None => true
        end
    end.

(** The ids of the rows of a query. *)
Definition rows (s : Tables) (q : query) : list Z :=
  filter (fun id => match issues s !! id with Some i => q id i | None => false end = true) (scan (map fst (map_to_list (issues s)))).

(** [list_issues] and [list_project_issues] before sorting and paging. *)
Definition event_of_query (s : Tables) (organization_slug : ustr) (f : Filters) : option Z * option Z :=
  match f_query f with
  | Some t =>
      if truthy t then
        let e := uuid_of t in
        (e, if match e with Some n => is_uuid7 n | None => false end then None else org_by_slug s organization_slug)
      else (None, None)
  | None => (None, None)
  end.

Definition list_issues (user : Z) (organization_slug : ustr) (f : Filters) (s : Tables) : option (list Z) :=
  match get_queryset s user (Some organization_slug) None with
  | None => None
  | Some q =>
      let '(e, o) := event_of_query s organization_slug f in
      Some (rows s (filter_issue_list s (fun id i => q id i && negb (is_deleted i)) f e o))
  end.

Definition list_project_issues (user : Z) (organization_slug project_slug : ustr) (f : Filters) (s : Tables) : option (list Z) :=
  match get_queryset s user (Some organization_slug) (Some project_slug) with
  | None => None
  | Some q => let '(e, o) := event_of_query s organization_slug f in Some (rows s (filter_issue_list s q f e o))
  end.

Definition get_issue (user id : Z) (s : Tables) : option Issue :=
  match get_queryset s user None None, issues s !! id with
  | Some q, Some i => if q id i then Some i else None
  | _, _ => None
  end.

(** ** Changing one issue *)

Abbreviation response := (Z * Tables)%type.

(** The payload: a status, the release of [statusDetails], an assignee that is set, maybe to
    none, and a merge. *)
Record Update := {
  p_status : option Z; p_in_release : option ustr; p_in_next_release : bool; p_assigned_to : option (option ustr); p_merge : option Z }.

(** [resolve_assignee]: the member and the team, or the status of the error. *)
Definition resolve_assignee (s : Tables) (assigned_to : option ustr) (o : Z) : Z + (option Z * option Z) :=
  let member p := match find_first (fun m => (m_org m =? o) && bool_decide (is_Some (m_user m)) && p m) (members s) with
                  | Some m => inr (Some (m_id m), None)
                  | None => inl 404
                  end in
  match assigned_to with
  | None | Some [] => inr (None, None)
  | Some a =>
      if startswith (u "team:") a then
        match find_first (fun t => ustr_eqb (tm_slug t) (drop 5 a) && (tm_org t =? o)) (teams s) with Some t => inr (None, Some (tm_id t)) | None => inl 404 end
      else if startswith (u "user:") a then
        match py_int (drop 5 a) with Some n => member (fun m => bool_decide (m_user m = Some n)) | None => inl 400 end
      else member (fun m => bool_decide (m_email m = Some a))
  end.







(** ** Changing many issues *)

Definition limit : nat := 50.

(** [qs.order_by("-id").first()] *)
Definition newest (l : list Z) : option Z := foldr (fun i acc => match acc with Some j => Some (Z.max i j) | None => Some i end) None l.

(** The hashes and at most a thousand of the events of issues become those of [target], whose
    count grows by the events if its row of the index is one of organization [o]. *)
Definition moved_events (s : Tables) (ids : list Z) : list Z := take 1000 (map ev_id (filter (fun e => ev_issue e ∈ ids) (events s))).
Definition move_hashes (ids : list Z) (target : Z) (s : Tables) : Tables :=
  with_hashes (map (fun h => if bool_decide (h_issue h ∈ ids) then {| h_value := h_value h; h_issue := target |} else h) (hashes s)) s.
Definition move_events (evs : list Z) (target : Z) (s : Tables) : Tables :=
  with_events (map (fun e => if bool_decide (ev_id e ∈ evs) then {| ev_id := ev_id e; ev_event_id := ev_event_id e; ev_issue := target; ev_org := ev_org e |} else e) (events s)) s.

(** The merge of [update_issues]. *)
Definition merge_into (ids : list Z) (target : Z) (s : Tables) : Tables :=
  let removed := filter (fun i => i <> target) ids in
  let s := update_issues_where removed mark_deleted s in
  let s := move_hashes removed target s in
  let evs := moved_events s removed in
  let s := move_events evs target s in
  match issues s !! target ≫= org_of s with
  | Some o => update_leafs_where [target] o (add_count (Z.of_nat (length evs))) s
  | None => s
  end.

(** The issues up to the newest one when the request began. *)
Definition selected (q : query) (f : Filters) (max_id : Z) (s : Tables) : list Z :=
  rows s (fun id i => filter_issue_list s q f None None id i && (id <=? max_id)).

(** A task for the issues after the first fifty. *)
Definition later (k : TaskArgs) (s : Tables) : Tables := if (length (k_exclude k) =? limit)%nat then enqueue (UpdateTask k) s else s.

(** The status, then the assignee, then the merge, each for the first fifty at once. *)
Definition update_issues_upto (user : Z) (organization_slug : ustr) (f : Filters) (p : Update) (q : query) (max_id : Z) (s : Tables) : response :=
  let ids := take limit (selected q f max_id s) in
  let task merge assign := {| k_slug := organization_slug; k_user := user; k_filters := f; k_exclude := ids;
                              k_max_id := max_id; k_status := p_status p; k_merge := merge; k_assign := assign |} in
  let o := org_by_slug s organization_slug in
  let s := match p_status p, o with
           | Some st, Some o => later (task (p_merge p) None) (update_leafs_where ids o (set_status st) s)
           | _, _ => s
           end in
  let assigned := match p_assigned_to p, o with
                  | Some a, Some o =>
                      match resolve_assignee s a o with
                      | inl e => inl e
                      | inr r => inr (Some r, later (task (p_merge p) (Some r)) (update_issues_where ids (assign r.1 r.2) s))
                      end
                  | _, _ => inr (None, s)
                  end in
  match assigned with
  | inl e => (e, s)
  | inr (a, s) =>
      match p_merge p with
      | Some m =>
          if m =? 0 then (200, s)
          else match newest (selected q f max_id s) with
               | Some target => (200, later (task (Some target) a) (merge_into ids target s))
               | None => (200, s)
               end
      | None => (200, s)
      end
  end.

(** [update_issues] *)
Definition update_issues (user : Z) (organization_slug : ustr) (f : Filters) (p : Update) (s : Tables) : response :=
  match get_queryset s user (Some organization_slug) None with
  | None => (404, s)
  | Some q =>
      match newest (rows s (filter_issue_list s q f None None)) with
      | None => (200, s)
      | Some max_id => if max_id =? 0 then (200, s) else update_issues_upto user organization_slug f p q max_id s
      end
  end.

(** *** [update_issues_task] *)

(** What [IssueFilters] makes of the dictionary of the request's filters. *)
Context (reload : Filters -> Filters).

(** The issues the task is about. *)
Definition remaining (k : TaskArgs) (s : Tables) : list Z :=
  match get_queryset s (k_user k) (Some (k_slug k)) None with
  | Some q => rows s (fun id i => filter_issue_list s q (reload (k_filters k)) None None id i && negb (bool_decide (id ∈ k_exclude k)) && (id <=? k_max_id k))
  | None => []
  end.

Definition chunk_size : nat := 1000.

(** [.exclude(index__status=st)] *)
Definition other_status (st : option Z) (s : Tables) (ids : list Z) : list Z :=
  match st with
  | Some st => filter (fun id => match leafs s !! id with Some l => negb (status l =? st) | None => true end = true) ids
  | None => ids
  end.

(** The three loops; [None] when they have not ended after the given number of rounds. *)
Fixpoint status_loop (fuel : nat) (k : TaskArgs) (o st : Z) (s : Tables) : option Tables :=
  match fuel with
  | O => None
  | S n =>
      match take chunk_size (other_status (Some st) s (remaining k s)) with
      | [] => Some s
      | ids => status_loop n k o st (update_leafs_where ids o (set_status st) s)
      end
  end.

Fixpoint assign_loop (fuel : nat) (k : TaskArgs) (a : option Z * option Z) (s : Tables) : option Tables :=
  match fuel with
  | O => None
  | S n =>
      match take chunk_size (other_status (k_status k) s (remaining k s)) with
      | [] => Some s
      | ids => assign_loop n k a (update_issues_where ids (assign a.1 a.2) s)
      end
  end.

Fixpoint merge_loop (fuel : nat) (k : TaskArgs) (o target : Z) (updated : Z) (s : Tables) : option Tables :=
  match fuel with
  | O => None
  | S n =>
      match take chunk_size (filter (fun id => id <> target) (other_status (k_status k) s (remaining k s))) with
      | [] => Some (update_leafs_where [target] o (add_count updated) s)
      | ids =>
          let s := move_hashes ids target (update_issues_where ids mark_deleted s) in
          let evs := moved_events s ids in
          merge_loop n k o target (updated + Z.of_nat (length evs)) (move_events evs target s)
      end
  end.

(** The task; a slug the user has no organization of ends it with an error. *)
Definition update_issues_task (fuel : nat) (k : TaskArgs) (s : Tables) : option Tables :=
  match get_queryset s (k_user k) (Some (k_slug k)) None, org_by_slug s (k_slug k) with
  | Some _, Some o =>
      s ← match k_status k with Some st => status_loop fuel k o st s | None => Some s end;
      s ← match k_assign k with Some a => assign_loop fuel k a s | None => Some s end;
      match k_merge k with
      | Some m => if (m =? 0) then Some s else if bool_decide (is_Some (issues s !! m)) then merge_loop fuel k o m 0 s else Some s
      | None => Some s
      end
  | _, _ => Some s
  end.

(** ** Deleting issues in batches *)

Definition without {A} (issue_of : A -> Z) (ids : list Z) (l : list A) : list A := filter (fun x => issue_of x ∉ ids) l.

(** [raw_delete_in_batches] of events; a batch is deleted by its ids. *)
Fixpoint raw_delete_in_batches (fuel : nat) (p : IssueEvent -> bool) (batch_size : nat) (s : Tables) : option Tables :=
  match fuel with
  | O => None
  | S n =>
      match take batch_size (merge_sort Z.le (map ev_id (filter (fun e => p e = true) (events s)))) with
      | [] => Some s
      | ids => raw_delete_in_batches n p batch_size (with_events (without ev_id ids (events s)) s)
      end
  end.

(** All that is deleted before the issues of a batch, the events apart. *)
Definition delete_dependents (ids : list Z) (s : Tables) : Tables :=
  {| issues := issues s; leafs := filter (fun kv => kv.1 ∉ ids) (leafs s); tags := without tag_issue ids (tags s); aggregates := without agg_issue ids (aggregates s);
     events := events s; hashes := without h_issue ids (hashes s); comments := without (fun i => i) ids (comments s); reports := without (fun i => i) ids (reports s);
     notified := without snd ids (notified s);
     projects := projects s; orgs := orgs s; members := members s; teams := teams s; releases := releases s; queue := queue s |}.

(** The rows with a foreign key the database enforces. *)
Definition referenced (s : Tables) (id : Z) : bool :=
  bool_decide (id ∈ map h_issue (hashes s)) || bool_decide (id ∈ comments s) || bool_decide (id ∈ reports s) || bool_decide (id ∈ map snd (notified s)).

Definition delete_rows (ids : list Z) (s : Tables) : Tables := with_issues (filter (fun kv => kv.1 ∉ ids) (issues s)) s.

(** [delete_issues_in_batches]: [arrivals n] is what others write in the [n]th round between
    the deletion of the rows of a batch and of its issues. A row that still refers to an
    issue of the batch, the [IntegrityError], ends the loop. *)
Context (arrivals : nat -> Tables -> Tables).

Definition batch (q : Tables -> query) (batch_size : nat) (s : Tables) : list Z :=
  take batch_size (merge_sort Z.le (rows s (q s))).

Fixpoint delete_issues_in_batches (fuel : nat) (q : Tables -> query) (batch_size round : nat) (total_deleted : nat) (s : Tables) : option (nat * Tables) :=
  match fuel with
  | O => None
  | S n =>
      match batch q batch_size s with
      | [] => Some (total_deleted, s)
      | ids =>
          s ← raw_delete_in_batches (S (length (events s))) (fun e => bool_decide (ev_issue e ∈ ids)) 1000 s;
          let s := arrivals round (delete_dependents ids s) in
          if existsb (referenced s) ids then Some (total_deleted, s)
          else delete_issues_in_batches n q batch_size (S round) (total_deleted + length (filter (fun i => is_Some (issues s !! i)) ids)) (delete_rows ids s)
      end
  end.

Definition delete_issue_task (fuel : nat) (ids : list Z) (s : Tables) : option (nat * Tables) :=
  delete_issues_in_batches fuel (fun _ id _ => bool_decide (id ∈ ids)) 1000 0 0 s.

(** [cleanup_old_issues] *)
Definition buffer_days : Z := 7.
Definition cleanup_old_issues (fuel : nat) (now retention_days : Z) (s : Tables) : option (nat * Tables) :=
  delete_issues_in_batches fuel (fun s id _ => match leafs s !! id with Some l => last_seen l <? now - (retention_days + buffer_days) * (24 * 60 * MINUTE) | None => false end) 1000 0 0 s.

(** The issues and events of a project, before its other rows. *)
Definition delete_project_issues (fuel : nat) (organization_id project_id : Z) (s : Tables) : option (nat * Tables) :=
  s ← raw_delete_in_batches fuel (fun e => (ev_org e =? organization_id) && bool_decide (project <$> issues s !! ev_issue e = Some project_id)) 1000 s;
  delete_issues_in_batches fuel (fun _ _ i => project i =? project_id) 1000 0 0 s.

(** ** Tags and statistics of issues *)

Definition larger (a b : ustr * ustr * Z) : Prop := b.2 <= a.2.
Instance larger_dec : RelDecision larger := fun a b => Z_le_dec b.2 a.2.

(** The totals of the tags of an issue, the largest first. *)
Definition tag_totals (s : Tables) (p : IssueTag -> bool) : list (ustr * ustr * Z) :=
  let ts := filter (fun t => p t = true) (tags s) in
  let total kv := foldr (fun t n => if bool_decide ((tag_key t, tag_value t) = kv) then tag_count t + n else n) 0 ts in
  take 100000 (merge_sort larger (map (fun kv => (kv, total kv)) (remove_dups (map (fun t => (tag_key t, tag_value t)) ts)))).

Record TagSummary := { key : ustr; topValues : list (ustr * Z); uniqueValues : nat; totalValues : Z }.

(** [list_issue_tags]; [None] for the error 404. *)
Definition list_issue_tags (user id : Z) (tag : option ustr) (s : Tables) : option (list TagSummary) :=
  match get_issue user id s with
  | None => None
  | Some _ =>
      let asked t := match tag with Some k => if truthy k then ustr_eqb (tag_key t) k else true | None => true end in
      let qs := tag_totals s (fun t => (tag_issue t =? id) && asked t) in
      Some (map (fun k =>
        let groups := filter (fun g => g.1.1 = k) qs in
        {| key := k; topValues := map (fun g => (g.1.2, g.2)) groups; uniqueValues := length groups; totalValues := foldr (fun g n => g.2 + n) 0 groups |})
        (remove_dups (map (fun g => g.1.1) qs)))
  end.

Inductive period := P24h | P14d.
Definition DAY : Z := 24 * 60 * MINUTE.
Definition seconds (t : Z) : Z := t / 1000000.

Record IssueStats := { st_id : Z; st_count : Z; st_first_seen : Z; st_last_seen : Z; st_series : list (Z * Z) }.

(** The series of an issue: by the hour as stored, or summed by day. *)
Definition series (s : Tables) (now : Z) (p : period) (id : Z) : list (Z * Z) :=
  match p with
  | P24h => map (fun a => (seconds (agg_date a), agg_count a)) (filter (fun a => agg_issue a = id /\ now - DAY <= agg_date a) (aggregates s))
  | P14d =>
      let rs := filter (fun a => agg_issue a = id /\ now - 14 * DAY <= agg_date a) (aggregates s) in
      let day a := agg_date a - agg_date a mod DAY in
      map (fun d => (seconds d, foldr (fun a n => if day a =? d then agg_count a + n else n) 0 rs)) (merge_sort Z.le (remove_dups (map day rs)))
  end.

(** [issue_stats]; [None] for an error. *)
Definition issue_stats (user : Z) (organization_slug : ustr) (groups : list Z) (p : period) (now : Z) (s : Tables) : option (list IssueStats) :=
  match find_first (fun kv : Z * ustr => ustr_eqb kv.2 organization_slug && is_member s user kv.1) (map_to_list (orgs s)) with
  | None => None
  | Some (o, _) =>
      mapM (fun id => i ← issues s !! id; l ← leafs s !! id;
                      Some {| st_id := id; st_count := count l; st_first_seen := first_seen i; st_last_seen := last_seen l; st_series := series s now p id |})
           (take 200 (rows s (fun id i => bool_decide (org_of s i = Some o) && bool_decide (id ∈ groups))))
  end.

End issues.

(** ** Whose issues a request changes *)


Section tenants.
Context (scan : list Z -> list Z) (fts : Z -> ustr -> bool) (ilike : ustr -> ustr -> bool) (py_int : ustr -> option Z).














(** *** What a member sees *)



(** An issue of an organization the user is no member of. *)
Context (s : Tables) (user id : Z).



Lemma filter_issue_list_sub s' q f e o id' i : filter_issue_list fts ilike s' q f e o id' i = true -> q id' i = true.
Proof. unfold filter_issue_list. intros H. by bool_split. Qed.


Lemma newest_in l x : newest l = Some x -> x ∈ l.
Proof.
  revert x. induction l as [|i l IH]; [done|]. simpl. intros x. destruct (newest l) as [j|] eqn:E; intros [= <-]; [|by left].
  destruct (Z.max_spec i j) as [[_ ->]|[_ ->]]; [right; by apply IH|by left].
Qed.





End tenants.


(** ** Deletion in batches *)

Section deletion.
Context (scan : list Z -> list Z).
Hypothesis scan_perm : forall l, scan l ≡ₚ l.

Lemma elem_of_rows s q id : id ∈ rows scan s q <-> exists i, issues s !! id = Some i /\ q id i = true.
Proof.
  unfold rows. rewrite list_elem_of_filter, scan_perm, list_elem_of_fmap. split.
  - intros [H _]. destruct (issues s !! id) as [i|]; [by exists i|done].
  - intros (i & Hi & H). rewrite Hi. split; [done|]. exists (id, i). split; [done|]. by apply elem_of_map_to_list.
Qed.

Lemma with_events_same s : with_events (events s) s = s.
Proof. by destruct s. Qed.

Lemma nodup_without {A} (f g : A -> Z) ids l : NoDup (map f l) -> NoDup (map f (without g ids l)).
Proof.
  intros H. eapply sublist_NoDup; [exact H|]. change (fmap f (without g ids l) `sublist_of` fmap f l). apply fmap_sublist, sublist_filter.
Qed.

(** A filter that drops an element drops the length. *)
Lemma filter_shorter {A} (f : A -> Z) (x : Z) (P Q : A -> Prop) `{!forall x, Decision (P x), !forall x, Decision (Q x)} l :
  (forall e, Q e -> P e) -> x ∈ map f (filter P l) -> (forall e, Q e -> f e <> x) -> (length (filter Q l) < length (filter P l))%nat.
Proof.
  intros HQP (e & -> & [He Hin]%list_elem_of_filter)%list_elem_of_fmap Hx. apply elem_of_Permutation in Hin as [l' ->].
  assert (length (filter Q l') <= length (filter P l'))%nat.
  { clear -HQP. induction l' as [|y l IH]; [simpl; lia|]. rewrite !filter_cons. repeat case_decide; simpl; try lia. exfalso; auto. }
  rewrite !filter_cons, (decide_True (P := P e)) by done. rewrite decide_False by (intros ?; by eapply Hx). simpl. lia.
Qed.

Lemma raw_delete_ends p b fuel s :
  (0 < b)%nat -> NoDup (map ev_id (events s)) -> (length (filter (fun e => p e = true) (events s)) < fuel)%nat ->
  raw_delete_in_batches fuel p b s = Some (with_events (filter (fun e => p e <> true) (events s)) s).
Proof.
  intros Hb. revert s. induction fuel as [|n IH]; [lia|]. intros s Hn Hl. cbn [raw_delete_in_batches].
  set (hit := filter (fun e => p e = true) (events s)) in *. set (ids := take b (merge_sort Z.le (map ev_id hit))).
  assert (forall e, e ∈ events s -> ev_id e ∈ ids -> p e = true) as Hids.
  { intros e He H%subseteq_take. rewrite merge_sort_Permutation in H. apply list_elem_of_fmap in H as (e' & Ee & [Hp He']%list_elem_of_filter).
    by assert (e = e') as -> by (by eapply (nodup_map_inj ev_id)). }
  destruct ids as [|x ids'] eqn:E.
  - assert (hit = []) as Hh.
    { apply length_zero_iff_nil. apply (f_equal length) in E. unfold ids in E. rewrite length_take in E.
      rewrite merge_sort_Permutation, length_map in E. simpl in E. lia. }
    rewrite <- (with_events_same s) at 1. do 2 f_equal. symmetry. apply filter_all, Forall_forall. intros e He Hp.
    apply (not_elem_of_nil e). rewrite <- Hh. by apply list_elem_of_filter.
  - rewrite <- E in *. assert (filter (fun e => p e <> true) (without ev_id ids (events s)) = filter (fun e => p e <> true) (events s)) as Hf.
    { unfold without. rewrite list_filter_filter. apply list_filter_iff_elem. intros e He. split; [by intros [? ?]|]. intros Hp. split; [done|]. intros ?. by apply Hp, Hids. }
    rewrite IH; cbn [events with_events].
    + by rewrite Hf.
    + by apply nodup_without.
    + fold hit. enough (length (filter (fun e => p e = true) (without ev_id ids (events s))) < length hit)%nat by lia.
      assert (x ∈ ids) as Hx by (rewrite E; left). unfold without. rewrite list_filter_filter. apply (filter_shorter ev_id x).
      * by intros e [? _].
      * apply subseteq_take in Hx. by rewrite merge_sort_Permutation in Hx.
      * intros e [_ He] <-. done.
Qed.

(** What is to be left when issues are gone. *)
Definition removed (ids : list Z) (s : Tables) : Tables :=
  {| issues := filter (fun kv => kv.1 ∉ ids) (issues s); leafs := filter (fun kv => kv.1 ∉ ids) (leafs s);
     tags := without tag_issue ids (tags s); aggregates := without agg_issue ids (aggregates s); events := without ev_issue ids (events s);
     hashes := without h_issue ids (hashes s); comments := without (fun i => i) ids (comments s); reports := without (fun i => i) ids (reports s);
     notified := without snd ids (notified s);
     projects := projects s; orgs := orgs s; members := members s; teams := teams s; releases := releases s; queue := queue s |}.

Lemma without_app {A} (f : A -> Z) a b l : without f b (without f a l) = without f (a ++ b) l.
Proof. unfold without. rewrite list_filter_filter. apply list_filter_iff. intros x. set_solver. Qed.

Lemma keys_app {A} a b (m : gmap Z A) : filter (fun kv => kv.1 ∉ b) (filter (fun kv => kv.1 ∉ a) m) = filter (fun kv => kv.1 ∉ a ++ b) m.
Proof. rewrite map_filter_filter. apply map_filter_ext. intros i x _. set_solver. Qed.

Lemma removed_app a b s : removed b (removed a s) = removed (a ++ b) s.
Proof. unfold removed. cbn -[without]. by rewrite !without_app, !keys_app. Qed.

Lemma removed_perm a b s : a ≡ₚ b -> removed a s = removed b s.
Proof.
  intros H. assert (forall A (f : A -> Z) l, without f a l = without f b l) as Hw by (intros; apply list_filter_iff; intros; by rewrite H).
  assert (forall A (m : gmap Z A), filter (fun kv => kv.1 ∉ a) m = filter (fun kv => kv.1 ∉ b) m) as Hm by (intros; apply map_filter_ext; intros; by rewrite H).
  unfold removed. by rewrite !Hw, !Hm.
Qed.

Lemma removed_nil s : removed [] s = s.
Proof.
  assert (forall A (f : A -> Z) l, without f [] l = l) as Hw by (intros; apply filter_all, Forall_forall; set_solver).
  assert (forall A (m : gmap Z A), filter (fun kv => kv.1 ∉ []) m = m) as Hm by (intros; apply map_filter_id; set_solver).
  unfold removed. rewrite !Hw, !Hm. by destruct s.
Qed.

(** Nothing refers to the issues of a batch once its rows are deleted. *)
Lemma unreferenced ids s : existsb (referenced (delete_dependents ids s)) ids = false.
Proof.
  apply not_true_is_false. intros (i & Hi%list_elem_of_In & H)%existsb_exists. unfold referenced in H. cbn in H. unfold without in H. bool_split;
    repeat match goal with H : _ ∈ map _ _ |- _ => apply list_elem_of_fmap in H as (? & -> & H) end;
    match goal with H : _ ∈ filter _ _ |- _ => apply list_elem_of_filter in H as [? ?] end; done.
Qed.

(** A choice of issues by their own rows. *)
Context (sel : Z -> Issue -> option Leaf -> bool).
Definition by_row (s : Tables) (id : Z) (i : Issue) : bool := sel id i (leafs s !! id).
Definition chosen (s : Tables) : list Z := rows scan s (by_row s).

Lemma NoDup_chosen s : NoDup (chosen s).
Proof. apply NoDup_filter. rewrite scan_perm. apply NoDup_fst_map_to_list. Qed.

Lemma chosen_removed ids s : chosen s ≡ₚ filter (fun i => i ∈ ids) (chosen s) ++ chosen (removed ids s).
Proof.
  apply NoDup_Permutation; [apply NoDup_chosen| |].
  - apply NoDup_app. split; [apply NoDup_filter, NoDup_chosen|]. split; [|apply NoDup_chosen].
    intros x [Hx _]%list_elem_of_filter (i & Hi & _)%elem_of_rows. cbn in Hi. by apply map_lookup_filter_Some in Hi as [_ ?].
  - intros x. rewrite elem_of_app, list_elem_of_filter. unfold chosen, by_row. rewrite !elem_of_rows. cbn. setoid_rewrite map_lookup_filter_Some. cbn. split.
    + intros (i & Hi & H). destruct (decide (x ∈ ids)); [left; eauto|right]. exists i. split; [done|].
      rewrite <- H. f_equal. apply option_eq. intros l. rewrite map_lookup_filter_Some. naive_solver.
    + intros [[_ H]|(i & [Hi Hx] & H)]; [done|]. exists i. split; [done|]. rewrite <- H. f_equal. apply option_eq. intros l. rewrite map_lookup_filter_Some. naive_solver.
Qed.

Lemma delete_batches_loop b fuel r n s :
  (0 < b)%nat -> NoDup (map ev_id (events s)) -> (length (chosen s) < fuel)%nat ->
  delete_issues_in_batches scan (fun _ s => s) fuel by_row b r n s = Some ((n + length (chosen s))%nat, removed (chosen s) s).
Proof.
  intros Hb. revert r n s. induction fuel as [|fuel IH]; [lia|]. intros r n s Hn Hl. cbn [delete_issues_in_batches]. unfold batch. fold (chosen s).
  set (ids := take b (merge_sort Z.le (chosen s))). destruct ids as [|x ids'] eqn:E.
  - assert (chosen s = []) as ->; [|by rewrite Nat.add_0_r, removed_nil].
    apply length_zero_iff_nil. apply (f_equal length) in E. unfold ids in E. rewrite length_take, merge_sort_Permutation in E. simpl in E. lia.
  - rewrite <- E in *. rewrite raw_delete_ends; [|lia|done|by apply Nat.lt_succ_r, length_filter].
    cbn [mbind option_bind]. rewrite unreferenced.
    set (s1 := delete_rows ids _). assert (s1 = removed ids s) as -> .
    { unfold s1, removed, delete_rows, delete_dependents, with_issues, with_events. cbn. f_equal. apply list_filter_iff. intros e. by rewrite bool_decide_eq_true. }
    assert (ids ⊆ chosen s) as Hsub by (intros y Hy%subseteq_take; by rewrite merge_sort_Permutation in Hy).
    assert (chosen s ≡ₚ ids ++ chosen (removed ids s)) as Hp.
    { rewrite chosen_removed at 1. apply Permutation_app_tail, NoDup_Permutation; [apply NoDup_filter, NoDup_chosen| |].
      - eapply sublist_NoDup; [|apply sublist_take]. rewrite merge_sort_Permutation. apply NoDup_chosen.
      - intros y. rewrite list_elem_of_filter. set_solver. }
    rewrite filter_all.
    + rewrite IH; [|by apply nodup_without|]; pose proof (Permutation_length Hp) as Hlen; rewrite length_app in Hlen.
      * rewrite removed_app, (removed_perm _ _ _ Hp). do 2 f_equal. lia.
      * assert (0 < length ids)%nat by (rewrite E; simpl; lia). lia.
    + apply Forall_forall. intros y (i & Hi & _)%Hsub%elem_of_rows. cbn. by rewrite Hi.
Qed.
End deletion.

(** C21: The deletion of issues in batches ends and leaves the tables without exactly the chosen
    issues and all their leaves, tags, counts, events, hashes, comments, reports and
    notifications, and tells their number, when nobody else writes meanwhile. *)
Theorem batch_deletion_exact scan (sel : Z -> Issue -> option Leaf -> bool) (batch_size fuel : nat) (s : Tables) :
  (forall l, scan l ≡ₚ l) -> (0 < batch_size)%nat -> NoDup (map ev_id (events s)) -> (size (issues s) < fuel)%nat ->
  let ids := rows scan s (by_row sel s) in
  delete_issues_in_batches scan (fun _ s => s) fuel (by_row sel) batch_size 0 0 s = Some (length ids, removed ids s).
Proof.
  intros Hs Hb Hn Hf. cbn zeta. rewrite delete_batches_loop; [done..|]. unfold chosen, rows.
  eapply Nat.le_lt_trans; [apply length_filter|]. rewrite Hs, length_map, length_map_to_list. exact Hf.
Qed.

(** ** A status for many issues *)

Section bulk.
Context (scan : list Z -> list Z) (fts : Z -> ustr -> bool) (ilike : ustr -> ustr -> bool) (reload : Filters -> Filters).
Hypothesis scan_perm : forall l, scan l ≡ₚ l.

(** States that differ in statuses and tasks. *)
Record same_but_status (s s' : Tables) : Prop := {
  sb_issues : issues s' = issues s; sb_tags : tags s' = tags s; sb_events : events s' = events s; sb_projects : projects s' = projects s;
  sb_orgs : orgs s' = orgs s; sb_members : members s' = members s; sb_leaf : forall id, l_org <$> leafs s' !! id = l_org <$> leafs s !! id }.

Lemma lookup_update_leafs ids o f s id :
  leafs (update_leafs_where ids o f s) !! id = (fun l => if bool_decide (id ∈ ids) && (l_org l =? o) then f l else l) <$> leafs s !! id.
Proof. cbn. rewrite map_lookup_imap. by destruct (leafs s !! id). Qed.

Lemma set_status_same ids o st s : same_but_status s (update_leafs_where ids o (set_status st) s).
Proof. split; try done. intros id. rewrite lookup_update_leafs. destruct (leafs s !! id) as [l|]; [|done]. simpl. by case_match. Qed.

Lemma later_same k s s' : same_but_status s s' -> same_but_status s (later k s').
Proof. intros []. unfold later. destruct (_ =? _)%nat; by split. Qed.

Lemma same_trans s1 s2 s3 : same_but_status s1 s2 -> same_but_status s2 s3 -> same_but_status s1 s3.
Proof. intros [] []. split; intros; etrans; eauto. Qed.

(** The same questions have the same answers. *)
Lemma get_queryset_same s s' user sl p : same_but_status s s' ->
  match get_queryset s user sl p, get_queryset s' user sl p with
  | Some q, Some q' => forall id i, q' id i = q id i
  | None, None => True
  | _, _ => False
  end.
Proof.
  intros [Hi Ht He Hp Ho Hm Hl]. unfold get_queryset, is_member, org_of. rewrite Ho, Hm, Hp. destruct sl as [sl|]; [|done].
  destruct (find_first _ _) as [[o v]|]; [|done]. intros id i. by rewrite Hl.
Qed.

Lemma filter_same s s' q q' f id i : same_but_status s s' -> leafs s' !! id = leafs s !! id -> q' id i = q id i ->
  filter_issue_list fts ilike s' q' f None None id i = filter_issue_list fts ilike s q f None None id i.
Proof.
  intros [Hi Ht He Hp Ho Hm _] Hl Hq. unfold filter_issue_list, within, has_tag. rewrite Hq, Ht. do 2 f_equal.
  destruct (f_query f) as [t|]; [|done]. destruct (truthy t); [|done].
  induction (parse_query t) as [|c cs IH]; [done|]. cbn [forallb]. rewrite IH. f_equal. unfold holds, has_tag. by rewrite Hl, Ht.
Qed.

Lemma remaining_spec k s id :
  id ∈ remaining scan fts ilike reload k s <->
  exists q i, get_queryset s (k_user k) (Some (k_slug k)) None = Some q /\ issues s !! id = Some i /\
              filter_issue_list fts ilike s q (reload (k_filters k)) None None id i = true /\ id ∉ k_exclude k /\ id <= k_max_id k.
Proof.
  unfold remaining. destruct (get_queryset _ _ _ _) as [q|]; [|split; [by intros ?%not_elem_of_nil|naive_solver]].
  rewrite elem_of_rows by done. split.
  - intros (i & Hi & H). bool_split. exists q, i. by split_and!.
  - intros (q' & i & [= <-] & Hi & Hf & He & Hm). exists i. split; [done|]. rewrite Hf, bool_decide_false by done. by apply Z.leb_le.
Qed.

Lemma remaining_same k s s' id : same_but_status s s' -> leafs s' !! id = leafs s !! id ->
  id ∈ remaining scan fts ilike reload k s -> id ∈ remaining scan fts ilike reload k s'.
Proof.
  intros Hs Hl. rewrite !remaining_spec. intros (q & i & Hq & Hi & Hf & He & Hm).
  pose proof (get_queryset_same _ _ (k_user k) (Some (k_slug k)) None Hs) as H. rewrite Hq in H.
  destruct (get_queryset s' _ _ _) as [q'|] eqn:Hq'; [|done]. exists q', i. split_and!; try done; [by rewrite (sb_issues _ _ Hs)|].
  by rewrite (filter_same _ _ _ _ _ _ _ Hs Hl (H id i)).
Qed.

(** The issues whose status is still to change. *)
Definition todo (k : TaskArgs) (st : Z) (s : Tables) : list Z := other_status (Some st) s (remaining scan fts ilike reload k s).

Lemma todo_spec k st s id : id ∈ todo k st s <-> id ∈ remaining scan fts ilike reload k s /\ status <$> leafs s !! id <> Some st.
Proof.
  unfold todo, other_status. rewrite list_elem_of_filter. destruct (leafs s !! id) as [l|]; simpl; [|naive_solver].
  rewrite negb_true_iff, Z.eqb_neq. split; intros [H1 H2]; split; try done; congruence.
Qed.

Lemma NoDup_rows s q : NoDup (rows scan s q).
Proof. apply NoDup_filter. rewrite scan_perm. apply NoDup_fst_map_to_list. Qed.

Lemma NoDup_todo k st s : NoDup (todo k st s).
Proof. apply NoDup_filter. unfold remaining. destruct (get_queryset _ _ _ _); [apply NoDup_rows|constructor]. Qed.

(** The leaf of an issue the user sees is in the partition of the organization. *)
Definition unique_slugs (s : Tables) : Prop := forall o1 o2 sl, orgs s !! o1 = Some sl -> orgs s !! o2 = Some sl -> o1 = o2.

Lemma org_by_slug_spec s sl o : org_by_slug s sl = Some o -> orgs s !! o = Some sl.
Proof.
  unfold org_by_slug. destruct (find_first _ _) as [[o' v]|] eqn:E; [|done]. intros [= <-].
  apply find_first_Some in E as [Hin Hv%ustr_eqb_eq]. apply elem_of_map_to_list in Hin. simpl in Hv. by subst.
Qed.

Lemma seen_leaf s user sl o q id i : unique_slugs s -> org_by_slug s sl = Some o ->
  get_queryset s user (Some sl) None = Some q -> q id i = true -> exists l, leafs s !! id = Some l /\ l_org l = o.
Proof.
  intros Hu Ho. unfold get_queryset. destruct (find_first _ _) as [[o' v]|] eqn:E; [|done]. intros [= <-] H. bool_split.
  apply find_first_Some in E as [Hin E]. bool_split. apply elem_of_map_to_list in Hin. simpl in *.
  match goal with H : ustr_eqb _ _ = true |- _ => apply ustr_eqb_eq in H as -> end.
  assert (o' = o) as -> by (eapply Hu; [done|by apply org_by_slug_spec]).
  destruct (leafs s !! id) as [l|]; simplify_eq/=. eauto.
Qed.

(** One round of the loop. *)
Lemma todo_step k o st s ids : (forall id, id ∈ remaining scan fts ilike reload k s -> exists l, leafs s !! id = Some l /\ l_org l = o) ->
  ids ⊆ todo k st s -> forall id, id ∈ todo k st (update_leafs_where ids o (set_status st) s) <-> id ∈ todo k st s /\ id ∉ ids.
Proof.
  intros Ho Hids id. set (s1 := update_leafs_where _ _ _ _). pose proof (set_status_same ids o st s) as Hs. fold s1 in Hs.
  assert (same_but_status s1 s) as Hs' by (destruct Hs; by split).
  destruct (decide (id ∈ ids)) as [Hin|Hin].
  - split; [|by intros [_ ?]]. intros [_ Hne]%todo_spec. destruct Hne. pose proof (proj1 (todo_spec _ _ _ _) (Hids _ Hin)) as [Hr _].
    destruct (Ho _ Hr) as (l & Hl & Hlo). unfold s1. rewrite lookup_update_leafs, Hl. simpl. rewrite bool_decide_true by done.
    rewrite Hlo, Z.eqb_refl. done.
  - assert (leafs s1 !! id = leafs s !! id) as Hl.
    { unfold s1. rewrite lookup_update_leafs. destruct (leafs s !! id); simpl; [|done]. by rewrite bool_decide_false. }
    rewrite !todo_spec, Hl. split; intros [Hr Hn].
    + split; [|done]. split; [|done]. by eapply remaining_same.
    + split; [|by apply Hr]. eapply remaining_same; [done|done|apply Hr].
Qed.

Lemma status_loop_ends k o st fuel s :
  (forall s', same_but_status s s' -> forall id, id ∈ remaining scan fts ilike reload k s' -> exists l, leafs s' !! id = Some l /\ l_org l = o) ->
  (length (todo k st s) < fuel)%nat ->
  exists s', status_loop scan fts ilike reload fuel k o st s = Some s' /\ same_but_status s s' /\ 
    (forall id, id ∈ todo k st s -> status <$> leafs s' !! id = Some st) /\ (forall id, id ∉ todo k st s -> leafs s' !! id = leafs s !! id).
Proof.
  revert s. induction fuel as [|fuel IH]; [lia|]. intros s Ho Hl. cbn [status_loop]. fold (todo k st s).
  set (ids := take chunk_size (todo k st s)). destruct ids as [|x ids'] eqn:E.
  - exists s. assert (todo k st s = []) as -> by (destruct (todo k st s); done). split_and!; try done. intros id []%not_elem_of_nil.
  - rewrite <- E in *. set (s1 := update_leafs_where _ _ _ _). pose proof (set_status_same ids o st s) as Hs. fold s1 in Hs.
    assert (forall id, id ∈ todo k st s1 <-> id ∈ todo k st s /\ id ∉ ids) as Hstep.
    { apply todo_step; [by apply Ho|]. intros y. apply subseteq_take. }
    assert (todo k st s ≡ₚ ids ++ todo k st s1) as Hp.
    { apply NoDup_Permutation; [apply NoDup_todo| |].
      - apply NoDup_app. split; [eapply sublist_NoDup; [apply NoDup_todo|apply sublist_take]|]. split; [|apply NoDup_todo]. intros y Hy [_ ?]%Hstep. done.
      - intros y. rewrite elem_of_app, Hstep. split; [|intros [Hy%subseteq_take|[? _]]; done]. intros Hy. destruct (decide (y ∈ ids)); auto. }
    apply Permutation_length in Hp. rewrite length_app in Hp. assert (0 < length ids)%nat by (rewrite E; simpl; lia).
    destruct (IH s1) as (s' & Hl' & Hs' & Hd & Hk); [intros ??; apply Ho; by eapply same_trans|lia|].
    exists s'. split; [done|]. split; [by eapply same_trans|].
    assert (forall id, id ∉ ids -> leafs s1 !! id = leafs s !! id) as Hoff.
    { intros id Hin. unfold s1. rewrite lookup_update_leafs. destruct (leafs s !! id); simpl; [|done]. by rewrite bool_decide_false. }
    split; intros id Hid.
    + destruct (decide (id ∈ ids)) as [Hin|Hin]; [|by apply Hd, Hstep]. rewrite Hk by (intros [_ ?]%Hstep; done).
      apply todo_spec in Hid as [Hr _]. destruct (Ho s ltac:(by split) _ Hr) as (l & Hll & Hlo). unfold s1. rewrite lookup_update_leafs, Hll. simpl.
      rewrite bool_decide_true by done. by rewrite Hlo, Z.eqb_refl.
    + rewrite Hk by (intros [? _]%Hstep; done). apply Hoff. by intros ?%subseteq_take.
Qed.

Lemma newest_max l m : newest l = Some m -> forall x, x ∈ l -> x <= m.
Proof.
  revert m. induction l as [|i l IH]; [done|]. simpl. intros m H x [->|Hx]%elem_of_cons; destruct (newest l) as [j|] eqn:E; simplify_eq; [lia|lia| |].
  - specialize (IH _ eq_refl _ Hx). lia.
  - by destruct l as [|y l]; [apply not_elem_of_nil in Hx|simpl in E; destruct (newest l)].
Qed.

Lemma remaining_leaf k s o : unique_slugs s -> org_by_slug s (k_slug k) = Some o ->
  forall s', same_but_status s s' -> forall id, id ∈ remaining scan fts ilike reload k s' -> exists l, leafs s' !! id = Some l /\ l_org l = o.
Proof.
  intros Hu Ho s' [] id. rewrite remaining_spec. intros (q & i & Hq & Hi & Hf & _). eapply (seen_leaf s' (k_user k) (k_slug k)); [| |exact Hq|by eapply filter_issue_list_sub].
  - unfold unique_slugs. by rewrite sb_orgs0.
  - unfold org_by_slug. by rewrite sb_orgs0.
Qed.

(** The task that a request for a status leaves, run on its own. *)
Definition run_queue (fuel : nat) (s : Tables) : option Tables :=
  match queue s with [UpdateTask k] => update_issues_task scan fts ilike reload fuel k s | _ => Some s end.

Definition only_status (st : Z) : Update := {| p_status := Some st; p_in_release := None; p_in_next_release := false; p_assigned_to := None; p_merge := None |}.

Definition status_task (user : Z) (sl : ustr) (f : Filters) (st : Z) (q : Z -> Issue -> bool) (mx : Z) (s : Tables) : TaskArgs :=
  {| k_slug := sl; k_user := user; k_filters := f; k_exclude := take limit (selected scan fts ilike q f mx s); k_max_id := mx;
     k_status := Some st; k_merge := None; k_assign := None |}.

Section request.
Context (py_int : ustr -> option Z) (user : Z) (sl : ustr) (f : Filters) (st o : Z) (q : Z -> Issue -> bool) (mx : Z) (s : Tables).
Hypothesis (Hqu : queue s = []) (Ho : org_by_slug s sl = Some o) (Hu : unique_slugs s) (Hq : get_queryset s user (Some sl) None = Some q).
Hypothesis Hw : forall s q f id i, filter_issue_list fts ilike s q f None None id i = true -> filter_issue_list fts ilike s q (reload f) None None id i = true.
Local Abbreviation k := (status_task user sl f st q mx s).

(** What the request itself does. *)
Definition requested : Tables := later k (update_leafs_where (k_exclude k) o (set_status st) s).

Lemma requested_spec : update_issues_upto scan fts ilike py_int user sl f (only_status st) q mx s = (200, requested).
Proof. unfold update_issues_upto. by rewrite Ho. Qed.

Lemma requested_same : same_but_status s requested.
Proof. apply later_same, set_status_same. Qed.

Lemma requested_leafs : leafs requested = leafs (update_leafs_where (k_exclude k) o (set_status st) s).
Proof. unfold requested, later. by destruct (_ =? _)%nat. Qed.

Lemma requested_queue : queue requested = if (length (k_exclude k) =? limit)%nat then [UpdateTask k] else [].
Proof. unfold requested, later. destruct (_ =? _)%nat; cbn; by rewrite Hqu. Qed.

(** The first fifty have the status, and the others are the task's. *)
Lemma first_or_rest id : id ∈ rows scan s (filter_issue_list fts ilike s q f None None) -> id <= mx ->
  status <$> leafs requested !! id = Some st \/ queue requested = [UpdateTask k] /\ id ∈ remaining scan fts ilike reload k requested.
Proof.
  intros Hid Hm. rewrite requested_leafs, requested_queue. apply elem_of_rows in Hid as (i & Hi & Hf); [|done].
  assert (id ∈ selected scan fts ilike q f mx s) as Hsel.
  { apply elem_of_rows; [done|]. exists i. split; [done|]. rewrite Hf. by apply Z.leb_le. }
  destruct (decide (id ∈ k_exclude k)) as [Hin|Hin].
  - left. destruct (seen_leaf s user sl o q id i) as (l & Hl & Hlo); [done..|by eapply filter_issue_list_sub|].
    rewrite lookup_update_leafs, Hl. simpl. rewrite bool_decide_true by done. by rewrite Hlo, Z.eqb_refl.
  - right. assert (length (k_exclude k) = limit) as ->.
    { cbn [k_exclude status_task] in *. rewrite length_take. destruct (decide (limit <= length (selected scan fts ilike q f mx s))%nat); [lia|].
      destruct Hin. by rewrite take_ge by lia. }
    rewrite Nat.eqb_refl. split; [done|]. apply (remaining_same k s); [apply requested_same| |].
    + rewrite requested_leafs, lookup_update_leafs. destruct (leafs s !! id); simpl; [|done]. by rewrite bool_decide_false.
    + apply remaining_spec. exists q, i. split_and!; try done. by apply Hw.
Qed.

Lemma task_completes fuel : (size (issues s) < fuel)%nat ->
  exists s2, run_queue fuel requested = Some s2 /\
    forall id, id ∈ rows scan s (filter_issue_list fts ilike s q f None None) -> id <= mx -> status <$> leafs s2 !! id = Some st.
Proof.
  intros Hf. unfold run_queue. destruct (length (k_exclude k) =? limit)%nat eqn:E; pose proof requested_queue as Hr; rewrite E in Hr; rewrite Hr.
  2: { exists requested. split; [done|]. intros id Hid Hm. destruct (first_or_rest id Hid Hm) as [?|[Hr' _]]; [done|by rewrite Hr in Hr']. }
  assert (org_by_slug requested sl = Some o) as Ho' by (unfold org_by_slug; by rewrite (sb_orgs _ _ requested_same)).
  pose proof (get_queryset_same _ _ user (Some sl) None requested_same) as Hg. rewrite Hq in Hg.
  destruct (status_loop_ends k o st fuel requested) as (s2 & Hl & Hs & Hd & Hk).
  - intros s' Hs'. apply (remaining_leaf k s o); [done|done|]. eapply same_trans; [apply requested_same|done].
  - eapply Nat.le_lt_trans; [apply length_filter|]. unfold remaining. destruct (get_queryset requested _ _ _); [|simpl; lia].
    eapply Nat.le_lt_trans; [apply length_filter|]. rewrite scan_perm, length_map, length_map_to_list, (sb_issues _ _ requested_same). done.
  - exists s2. split.
    + unfold update_issues_task. cbn [k_slug k_user k_status k_assign k_merge status_task]. rewrite Ho'.
      destruct (get_queryset requested _ _ _); [|done]. by rewrite Hl.
    + intros id Hid Hm. destruct (decide (id ∈ todo k st requested)) as [Ht|Ht]; [by apply Hd|]. rewrite Hk by done.
      destruct (first_or_rest id Hid Hm) as [?|[_ Hrem]]; [done|]. destruct (decide (status <$> leafs requested !! id = Some st)); [done|].
      destruct Ht. by apply todo_spec.
Qed.
End request.
End bulk.

(** C28: A status asked for many issues reaches every one the filters select: the first fifty at
    once and the others by the task, which ends. *)
Theorem bulk_status_complete scan fts ilike py_int reload (user : Z) (sl : ustr) (f : Filters) (st o : Z) (q : Z -> Issue -> bool) (s : Tables) (fuel : nat) :
  (forall l, scan l ≡ₚ l) ->
  (forall s q f id i, filter_issue_list fts ilike s q f None None id i = true -> filter_issue_list fts ilike s q (reload f) None None id i = true) ->
  unique_slugs s -> queue s = [] -> (forall id, is_Some (issues s !! id) -> 0 < id) -> (size (issues s) < fuel)%nat ->
  org_by_slug s sl = Some o -> get_queryset s user (Some sl) None = Some q ->
  exists s2, run_queue scan fts ilike reload fuel (update_issues scan fts ilike py_int user sl f (only_status st) s).2 = Some s2 /\
    forall id, id ∈ rows scan s (filter_issue_list fts ilike s q f None None) -> status <$> leafs s2 !! id = Some st.
Proof.
  intros Hp Hw Hu Hqu Hpos Hf Ho Hq. unfold update_issues. rewrite Hq. set (l := rows scan s _).
  destruct (newest l) as [mx|] eqn:Em.
  - assert (mx =? 0 = false) as ->.
    { apply Z.eqb_neq. apply newest_in in Em. apply elem_of_rows in Em as (i & Hi & _); [|done]. specialize (Hpos mx ltac:(eauto)). lia. }
    rewrite (requested_spec _ _ _ _ _ _ _ _ o) by done. cbn [snd].
    destruct (task_completes scan fts ilike reload Hp user sl f st o q mx s Hqu Ho Hu Hq Hw fuel Hf) as (s2 & Hs2 & Hd).
    exists s2. split; [done|]. intros id Hid. apply Hd; [done|]. by eapply newest_max.
  - exists s. unfold run_queue. cbn. rewrite Hqu. split; [done|]. intros id Hid. destruct l as [|x l']; [by apply not_elem_of_nil in Hid|].
    simpl in Em. by destruct (newest l').
Qed.

(** ** Loops of the task that do not end *)

Section endless.
Context (scan : list Z -> list Z) (fts : Z -> ustr -> bool) (ilike : ustr -> ustr -> bool) (reload : Filters -> Filters).
Hypothesis scan_perm : forall l, scan l ≡ₚ l.

(** What the queries look at. *)
Record looks_same (s s' : Tables) : Prop := {
  ls_issues : forall id i, issues s !! id = Some i -> exists i', issues s' !! id = Some i' /\ project i' = project i /\ title i' = title i /\ first_seen i' = first_seen i;
  ls_leafs : leafs s' = leafs s; ls_tags : tags s' = tags s; ls_projects : projects s' = projects s; ls_orgs : orgs s' = orgs s; ls_members : members s' = members s }.

Lemma remaining_kept k s s' id : looks_same s s' -> id ∈ remaining scan fts ilike reload k s -> id ∈ remaining scan fts ilike reload k s'.
Proof.
  intros [Hi Hl Ht Hp Ho Hm]. rewrite !remaining_spec by done. intros (q & i & Hq & Hii & Hf & He & Hmx).
  destruct (Hi _ _ Hii) as (i' & Hi' & Hpr & Hti & Hfs). unfold get_queryset in *. unfold is_member. rewrite Ho, Hm.
  destruct (find_first _ _) as [[o v]|] eqn:E; [|done]. simplify_eq. eexists _, i'. split; [done|]. split_and!; try done. etrans; [|exact Hf].
  unfold filter_issue_list, within, org_of, has_tag. rewrite Hpr, Hl, Hp, Hfs, Ht. f_equal.
  destruct (f_query _) as [t|]; [|done]. destruct (truthy t); [|done].
  induction (parse_query t) as [|c cs IH]; [done|]. cbn [forallb]. rewrite IH. f_equal. unfold holds, has_tag. by rewrite Hl, Ht, Hti.
Qed.

Lemma issues_where_looks ids f s : (forall i, project (f i) = project i /\ title (f i) = title i /\ first_seen (f i) = first_seen i) ->
  looks_same s (update_issues_where ids f s).
Proof.
  intros Hf. split; try done. intros id i Hi. cbn. rewrite map_lookup_imap, Hi. simpl. eexists. split; [done|]. by case_bool_decide.
Qed.

(** The assignment of an issue after the first fifty never ends: the loop asks for the same
    rows again and again. *)
Lemma assignment_never_ends k a s id fuel : k_status k = None -> id ∈ remaining scan fts ilike reload k s -> assign_loop scan fts ilike reload fuel k a s = None.
Proof.
  intros Hk. revert s. induction fuel as [|n IH]; [done|]. intros s Hid. cbn [assign_loop]. rewrite Hk. cbn [other_status].
  destruct (take chunk_size _) as [|x l] eqn:E; [|apply IH, (remaining_kept k s); [by apply issues_where_looks|done]].
  by destruct (remaining scan fts ilike reload k s); [apply not_elem_of_nil in Hid|].
Qed.

(** Nor does the merge: the issues it marks as deleted are still found. *)
Lemma merge_never_ends k o target n s id fuel : k_status k = None -> id <> target -> id ∈ remaining scan fts ilike reload k s ->
  merge_loop scan fts ilike reload fuel k o target n s = None.
Proof.
  intros Hk Hne. revert n s. induction fuel as [|m IH]; [done|]. intros n s Hid. cbn [merge_loop]. rewrite Hk. cbn [other_status].
  destruct (take chunk_size _) as [|x l] eqn:E.
  - assert (id ∈ filter (fun i => i <> target) (remaining scan fts ilike reload k s)) as H by (by apply list_elem_of_filter).
    destruct (filter _ _); [by apply not_elem_of_nil in H|done].
  - apply IH, (remaining_kept k s); [|done]. by destruct (issues_where_looks (x :: l) mark_deleted s).
Qed.
End endless.

(** The task that deletes issues, and the cleanup of old ones. *)
Lemma delete_issue_task_exact scan fuel ids0 s :
  (forall l, scan l ≡ₚ l) -> NoDup (map ev_id (events s)) -> (length (rows scan s (fun id _ => bool_decide (id ∈ ids0))) < fuel)%nat ->
  delete_issue_task scan (fun _ s => s) fuel ids0 s = Some (length (rows scan s (fun id _ => bool_decide (id ∈ ids0))), removed (rows scan s (fun id _ => bool_decide (id ∈ ids0))) s).
Proof. intros Hs Hn Hf. by apply (delete_batches_loop scan Hs (fun id _ _ => bool_decide (id ∈ ids0)) 1000 fuel 0 0 s); [lia|..]. Qed.

Definition old_leaf (now retention_days : Z) (l : option Leaf) : bool :=
  match l with Some l => last_seen l <? now - (retention_days + buffer_days) * (24 * 60 * MINUTE) | None => false end.

Lemma cleanup_old_issues_exact scan fuel now days s :
  (forall l, scan l ≡ₚ l) -> NoDup (map ev_id (events s)) -> (length (rows scan s (fun id _ => old_leaf now days (leafs s !! id))) < fuel)%nat ->
  cleanup_old_issues scan (fun _ s => s) fuel now days s =
    Some (length (rows scan s (fun id _ => old_leaf now days (leafs s !! id))), removed (rows scan s (fun id _ => old_leaf now days (leafs s !! id))) s).
Proof. intros Hs Hn Hf. by apply (delete_batches_loop scan Hs (fun _ _ l => old_leaf now days l) 1000 fuel 0 0 s); [lia|..]. Qed.

(** ** The tasks a request leaves *)

Section continued.
Context (scan : list Z -> list Z) (fts : Z -> ustr -> bool) (ilike : ustr -> ustr -> bool) (py_int : ustr -> option Z) (reload : Filters -> Filters).

Definition run_task (fuel : nat) (t : Task) (s : Tables) : option Tables :=
  match t with
  | DeleteTask ids => snd <$> delete_issue_task scan (fun _ s => s) fuel ids s
  | UpdateTask k => update_issues_task scan fts ilike reload fuel k s
  end.

Context (user id : Z).

























End continued.


(** ** Examples *)

Module Samples.
Definition issue (p : Z) : Issue := {| project := p; title := u "title"; first_seen := 0; resolved_in_release := None; assigned_to_org_user := None; assigned_to_team := None; is_deleted := false |}.
Definition leaf (o : Z) : Leaf := {| l_org := o; status := 0; count := 1; last_seen := 5; level := 4 |}.
Definition filters (p : option (list Z)) : Filters := {| f_ids := None; f_start := None; f_end := None; f_projects := p; f_environment := []; f_query := None |}.

(** Issues of project 10, an old one of project 11, and one of another organization; user 7
    is a member of the first organization. *)
Definition tables (n : nat) : Tables :=
  {| issues := <[1 := issue 11]> (<[900 := issue 20]> (list_to_map (map (fun i => (Z.of_nat i, issue 10)) (seq 2 n))));
     leafs := <[1 := leaf 1]> (<[900 := leaf 2]> (list_to_map (map (fun i => (Z.of_nat i, leaf 1)) (seq 2 n))));
     tags := []; aggregates := []; events := [{| ev_id := 70; ev_event_id := None; ev_issue := 2; ev_org := 1 |}; {| ev_id := 71; ev_event_id := None; ev_issue := 900; ev_org := 2 |}];
     hashes := [{| h_value := u "a"; h_issue := 2 |}; {| h_value := u "b"; h_issue := 900 |}]; comments := [2]; reports := []; notified := [(1, 3)];
     projects := <[10 := {| pr_org := 1; pr_slug := u "web" |}]> (<[11 := {| pr_org := 1; pr_slug := u "api" |}]> {[20 := {| pr_org := 2; pr_slug := u "x" |}]});
     orgs := <[1 := u "acme"]> {[2 := u "other"]}; members := [{| m_id := 5; m_org := 1; m_user := Some 7; m_email := Some (u "a@b.c") |}]; teams := []; releases := []; queue := [] |}.

Definition no_search (_ : Z) (_ : ustr) : bool := false.
Definition no_pattern (_ _ : ustr) : bool := false.
Definition no_number (_ : ustr) : option Z := None.
Definition same {A} (l : A) : A := l.

(** Pydantic reads the filters by their aliases, so that those with one are lost. *)
Definition by_alias (f : Filters) : Filters :=
  {| f_ids := None; f_start := None; f_end := None; f_projects := None; f_environment := f_environment f; f_query := f_query f |}.

Definition merge_update (m : Z) : Update := {| p_status := Some 1; p_in_release := None; p_in_next_release := false; p_assigned_to := None; p_merge := Some m |}.
End Samples.
Import Samples.

(** The task a status leaves carries the number the client wrote, here an issue of another
    organization, as the issue to merge into. Run alone it merges nothing; but when an event
    reopens issue 12 between its loops, that issue is merged there (over and over, since its
    status stays). *)
Definition before_merge : Tables := with_hashes ({| h_value := u "c"; h_issue := 12 |} :: hashes (tables 60)) (tables 60).
Definition merge_request : Tables := (update_issues same no_search no_pattern no_number 7 (u "acme") (filters None) (merge_update 900) before_merge).2.
Definition hashes_of (id : Z) (s : Tables) : list ustr := map h_value (filter (fun h => h_issue h = id) (hashes s)).

Example client_chooses_merge :
  match queue merge_request with
  | UpdateTask k :: _ =>
      k_merge k = Some 900
      /\ hashes_of 900 <$> run_task same no_search no_pattern by_alias 100 (UpdateTask k) merge_request = Some [u "b"]
      /\ (s ← status_loop same no_search no_pattern by_alias 100 k 1 1 merge_request;
          let s := update_leafs_where [12] 1 (set_status 0) s in
          let ids := filter (fun id => id <> 900) (other_status (k_status k) s (remaining same no_search no_pattern by_alias k s)) in
          Some (ids, hashes_of 900 (move_hashes ids 900 s), merge_loop same no_search no_pattern by_alias 50 k 1 900 0 s)) = Some ([12], [u "c"; u "b"], None)
  | _ => False
  end.
Proof. vm_compute. repeat split; reflexivity. Qed.

(** The task forgets the filter on projects and resolves an issue of another one. *)
Example task_forgets_projects :
  let s1 := (update_issues same no_search no_pattern no_number 7 (u "acme") (filters (Some [10])) (only_status 1) (tables 60)).2 in
  status <$> leafs s1 !! 1 = Some 0 /\ (s2 ← run_queue same no_search no_pattern by_alias 100 s1; status <$> leafs s2 !! 1) = Some 1.
Proof. vm_compute. split; reflexivity. Qed.

(** The issues of a project are listed with deleted ones, those of an organization without. *)
Example project_lists_deleted :
  let s := update_issues_where [2] mark_deleted (tables 1) in
  list_project_issues same no_search no_pattern 7 (u "acme") (u "web") (filters None) s = Some [2] /\
  list_issues same no_search no_pattern 7 (u "acme") (filters None) s = Some [1].
Proof. vm_compute. split; reflexivity. Qed.

(** A tab after the unit makes a relative time now. *)
Example trailing_tab_is_now :
  relative_to_datetime (3600 * 1000000) (u "now-1h") = Ok (Some 0) /\ relative_to_datetime (3600 * 1000000) (u "now-1h" ++ [9]) = Ok (Some (3600 * 1000000)).
Proof. vm_compute. split; reflexivity. Qed.

(** An event that arrives during the deletion keeps its issue's number: no key of the database
    refers to issues from events, so that the deletion goes on. *)
Example arriving_event_is_orphaned :
  match delete_issues_in_batches same (fun _ s => with_events (events s ++ [{| ev_id := 99; ev_event_id := None; ev_issue := 2; ev_org := 1 |}]) s) 9
          (fun _ id _ => id =? 2) 1000 0 0 (tables 1) with
  | Some (n, s) => n = 1%nat /\ issues s !! 2 = None /\ map ev_issue (events s) = [900; 2]
  | None => False
  end.
Proof. vm_compute. repeat split; reflexivity. Qed.

Example query_parsed :
  parse_query (u "is:unresolved browser.name:'Mobile Safari' level:error type error") =
  [IsStatus (Some 0); TagIs (u "browser.name") (u "Mobile Safari"); IsLevel (Some 4); Text (u "type error")].
Proof. vm_compute. reflexivity. Qed.


Lemma batch_deletion_exact_witness :
  delete_issues_in_batches same (fun _ s => s) 9 (by_row (fun _ _ l => match l with Some l => last_seen l <? 9 | None => false end)) 2 0 0 (tables 3) =
  Some (5%nat, removed (rows same (tables 3) (by_row (fun _ _ l => match l with Some l => last_seen l <? 9 | None => false end) (tables 3))) (tables 3)).
Proof.
  rewrite (batch_deletion_exact same (fun _ _ l => match l with Some l => last_seen l <? 9 | None => false end) 2 9 (tables 3)).
  - vm_compute. reflexivity.
  - reflexivity.
  - lia.
  - refine (proj1 (bool_decide_eq_true _) _). vm_compute. reflexivity.
  - vm_compute. lia.
Defined.

Lemma by_alias_widens s q f id i :
  filter_issue_list no_search no_pattern s q f None None id i = true -> filter_issue_list no_search no_pattern s q (by_alias f) None None id i = true.
Proof. unfold filter_issue_list, within, by_alias. cbn. intros H. bool_split. repeat match goal with H : _ = true |- _ => rewrite H end. done. Qed.

Lemma bulk_status_complete_witness :
  exists s2, run_queue same no_search no_pattern by_alias 100 (update_issues same no_search no_pattern no_number 7 (u "acme") (filters None) (only_status 1) (tables 60)).2 = Some s2 /\
    forall id, id ∈ rows same (tables 60) (filter_issue_list no_search no_pattern (tables 60) (default (fun _ _ => false) (get_queryset (tables 60) 7 (Some (u "acme")) None)) (filters None) None None) ->
      status <$> leafs s2 !! id = Some 1.
Proof.
  apply (bulk_status_complete _ _ _ _ _ _ _ _ _ 1).
  - reflexivity.
  - apply by_alias_widens.
  - intros o1 o2 sl. cbn [tables orgs]. rewrite !lookup_insert_Some, !lookup_singleton_Some. intros [[<- <-]|[_ [<- <-]]] [[<- E]|[_ [<- E]]]; try reflexivity; discriminate E.
  - reflexivity.
  - intros id H. assert (map_Forall (fun i _ => 0 < i) (issues (tables 60))) as Hm by (refine (proj1 (bool_decide_eq_true _) _); vm_compute; reflexivity).
    destruct H as [i Hi]. exact (Hm _ _ Hi).
  - vm_compute. lia.
  - vm_compute. reflexivity.
  - vm_compute. reflexivity.
Defined.
