(* ===== verification/Cursor.v ===== *)
(** * Cursors

    The cursors of [logs/api.py]: base64, UTF-8, the query strings of [urllib.parse] and the
    text of a UUID, as far as the code uses them. *)
From S2P Require Import Prelude PyStr PyValue UrlValidation PartitionManager EventAuth Logs.

(** ** base64 *)

Definition b64_digit (n : Z) : Z :=
  if n <? 26 then 65 + n else if n <? 52 then 71 + n else if n <? 62 then n - 4 else if n =? 62 then 43 else 47.

Definition b64_value (c : Z) : option Z :=
  if is_upper c then Some (c - 65) else if is_lower c then Some (c - 71) else if is_digit c then Some (c + 4)
  else if c =? 43 then Some 62 else if c =? 47 then Some 63 else None.

Definition PAD : Z := 61.

(** [b64encode] *)
Fixpoint b64encode (bs : list Z) : ustr :=
  match bs with
  | [] => []
  | [a] => [b64_digit (a / 4); b64_digit (a mod 4 * 16); PAD; PAD]
  | [a; b] => [b64_digit (a / 4); b64_digit (a mod 4 * 16 + b / 16); b64_digit (b mod 16 * 4); PAD]
  | a :: b :: c :: rest => b64_digit (a / 4) :: b64_digit (a mod 4 * 16 + b / 16) :: b64_digit (b mod 16 * 4 + c / 64) :: b64_digit (c mod 64) :: b64encode rest
  end.

(** [binascii.a2b_base64] that is not strict: other characters are skipped, and enough padding
    ends the text. [None] for an incomplete group. *)
Fixpoint a2b (quad_pos leftchar pads : Z) (s : ustr) : option (list Z) :=
  match s with
  | [] => if quad_pos =? 0 then Some [] else None
  | c :: s =>
      if c =? PAD then
        if 2 <=? quad_pos then if 4 <=? quad_pos + (pads + 1) then Some [] else a2b quad_pos leftchar (pads + 1) s
        else a2b quad_pos leftchar pads s
      else
        match b64_value c with
        | None => a2b quad_pos leftchar pads s
        | Some v =>
            if quad_pos =? 0 then a2b 1 v 0 s
            else if quad_pos =? 1 then cons (leftchar * 4 + v / 16) <$> a2b 2 (v mod 16) 0 s
            else if quad_pos =? 2 then cons (leftchar * 16 + v / 4) <$> a2b 3 (v mod 4) 0 s
            else cons (leftchar * 64 + v) <$> a2b 0 0 0 s
        end
  end.

(** [b64decode] of a text, which must be ASCII. *)
Definition b64decode (s : ustr) : option (list Z) := if forallb (fun c => c <? 128) s then a2b 0 0 0 s else None.

(** ** UTF-8 *)

(** How many bytes follow a first byte, and what the first of them may be. *)
Definition utf8_lead (b : Z) : option (nat * Z * Z) :=
  if in_range 194 223 b then Some (1%nat, 128, 191)
  else if b =? 224 then Some (2%nat, 160, 191)
  else if b =? 237 then Some (2%nat, 128, 159)
  else if in_range 225 239 b then Some (2%nat, 128, 191)
  else if b =? 240 then Some (3%nat, 144, 191)
  else if in_range 241 243 b then Some (3%nat, 128, 191)
  else if b =? 244 then Some (3%nat, 128, 143)
  else None.

(** The bytes of a character that begin a text: how many fit, up to the number wanted. *)
Fixpoint continuation (need : nat) (lo hi : Z) (bs : list Z) : nat :=
  match need, bs with
  | S n, b :: bs => if in_range lo hi b then S (continuation n 128 191 bs) else 0%nat
  | _, _ => 0%nat
  end.

Definition payload (b : Z) (need : nat) : Z := match need with 1%nat => b - 192 | 2%nat => b - 224 | _ => b - 240 end.

(** [bs.decode(errors="replace")] with [strict] off, else [None] for a [UnicodeDecodeError];
    [skip] counts the bytes already taken. *)
Fixpoint decode (strict : bool) (skip : nat) (bs : list Z) : option ustr :=
  match bs with
  | [] => Some []
  | b :: rest =>
      match skip with
      | S k => decode strict k rest
      | O =>
          if b <? 128 then cons b <$> decode strict 0 rest
          else
            let bad k := if strict then None else cons 65533 <$> decode strict k rest in
            match utf8_lead b with
            | None => bad 0%nat
            | Some (need, lo, hi) =>
                let k := continuation need lo hi rest in
                if (k =? need)%nat then cons (foldl (fun acc x => acc * 64 + (x - 128)) (payload b need) (take need rest)) <$> decode strict need rest
                else bad k
            end
      end
  end.

(** ** Query strings *)

(** The hexadecimal digits that [unquote] knows. *)
Definition hex_pair (a b : Z) : option Z := if is_hex a && is_hex b then Some (16 * hex_value a + hex_value b) else None.

(** [unquote_to_bytes] of ASCII. *)
Fixpoint unquote_bytes (skip : nat) (s : ustr) : list Z :=
  match s with
  | [] => []
  | c :: r =>
      match skip with
      | S k => unquote_bytes k r
      | O =>
          match r with
          | a :: b :: _ => if c =? 37 then match hex_pair a b with Some v => v :: unquote_bytes 2 r | None => c :: unquote_bytes 0 r end else c :: unquote_bytes 0 r
          | _ => c :: unquote_bytes 0 r
          end
      end
  end.

(** [unquote(s, errors="replace")]: each run of ASCII characters is decoded on its own. *)
Fixpoint unquote_runs (run : ustr) (s : ustr) : ustr :=
  let flush := default [] (decode false 0 (unquote_bytes 0 (rev run))) in
  match s with
  | [] => flush
  | c :: r => if c <? 128 then unquote_runs (c :: run) r else flush ++ c :: unquote_runs [] r
  end.
Definition unquote (s : ustr) : ustr := if existsb (fun c => c =? 37) s then unquote_runs [] s else s.

(** [parse_qs(s, keep_blank_values=True)] as the list of its pairs. *)
Definition plus_to_space (s : ustr) : ustr := replace (u "+") (u " ") s.
Definition parse_qsl (qs : ustr) : list (ustr * ustr) :=
  map (fun name_value => let '(n, _, v) := partition 61 name_value in (unquote (plus_to_space n), unquote (plus_to_space v)))
      (filter (fun s => truthy s = true) (split_on 38 qs)).

(** ** The cursor of a page of logs *)

Definition decode_cursor (cursor_str : ustr) : option Z :=
  if negb (truthy cursor_str) then None
  else
    decoded ← b64decode cursor_str ≫= decode true 0;
    position ← snd <$> find_first (fun kv : ustr * ustr => ustr_eqb kv.1 (u "p")) (parse_qsl decoded);
    if truthy position then uuid_of position else None.

Definition encode_cursor (position : Z) : ustr := b64encode (u "p=" ++ uuid_str position).

Example cursor_text : decode_cursor (encode_cursor 7) = Some 7 /\ decode_cursor (u "nonsense!") = None.
Proof. vm_compute. split; reflexivity. Qed.

(** ** Round trip *)

Lemma b64_value_digit n : 0 <= n < 64 -> b64_value (b64_digit n) = Some n /\ b64_digit n <> PAD /\ b64_digit n < 128.
Proof.
  intros Hn. assert (Forall (fun n => b64_value (b64_digit n) = Some n /\ b64_digit n <> PAD /\ b64_digit n < 128) (map Z.of_nat (seq 0 64))) as H.
  { refine (proj1 (bool_decide_eq_true _) _). vm_compute. reflexivity. }
  apply (proj1 (Forall_forall _ _) H). apply list_elem_of_fmap. exists (Z.to_nat n). split; [lia|]. apply elem_of_seq. lia.
Qed.

Lemma a2b_digit quad_pos leftchar pads n s : 0 <= n < 64 ->
  a2b quad_pos leftchar pads (b64_digit n :: s) =
    if quad_pos =? 0 then a2b 1 n 0 s
    else if quad_pos =? 1 then cons (leftchar * 4 + n / 16) <$> a2b 2 (n mod 16) 0 s
    else if quad_pos =? 2 then cons (leftchar * 16 + n / 4) <$> a2b 3 (n mod 4) 0 s
    else cons (leftchar * 64 + n) <$> a2b 0 0 0 s.
Proof.
  intros Hn. destruct (b64_value_digit n Hn) as (Hv & Hp & _). cbn [a2b]. by rewrite (proj2 (Z.eqb_neq _ _) Hp), Hv.
Qed.

Definition is_byte (b : Z) : Prop := 0 <= b < 256.

Ltac byte_bounds :=
  repeat match goal with
  | H : is_byte ?a |- _ => unfold is_byte in H
  | |- context [?a / ?k] => lazymatch goal with H : a = k * (a / k) + _ |- _ => fail | _ => pose proof (Z.div_mod a k ltac:(lia)); pose proof (Z.mod_pos_bound a k ltac:(lia)) end
  end.

(** A group of three bytes is read back. *)
Lemma a2b_group a b c s : is_byte a -> is_byte b -> is_byte c ->
  a2b 0 0 0 (b64_digit (a / 4) :: b64_digit (a mod 4 * 16 + b / 16) :: b64_digit (b mod 16 * 4 + c / 64) :: b64_digit (c mod 64) :: s)
  = (fun l => a :: b :: c :: l) <$> a2b 0 0 0 s.
Proof.
  intros Ha Hb Hc. byte_bounds. rewrite a2b_digit by lia. cbn [Z.eqb Pos.eqb]. rewrite a2b_digit by lia. cbn [Z.eqb Pos.eqb].
  rewrite a2b_digit by lia. cbn [Z.eqb Pos.eqb]. rewrite a2b_digit by lia. cbn [Z.eqb Pos.eqb].
  destruct (a2b 0 0 0 s) as [l|]; cbn; [|done]. do 2 f_equal; [|f_equal; [|f_equal]].
  - replace ((a mod 4 * 16 + b / 16) / 16) with (a mod 4) by (apply (Z.div_unique _ _ _ (b / 16)); lia). lia.
  - replace ((a mod 4 * 16 + b / 16) mod 16) with (b / 16) by (apply (Z.mod_unique _ _ (a mod 4)); lia).
    replace ((b mod 16 * 4 + c / 64) / 4) with (b mod 16) by (apply (Z.div_unique _ _ _ (c / 64)); lia). lia.
  - replace ((b mod 16 * 4 + c / 64) mod 4) with (c / 64) by (apply (Z.mod_unique _ _ (b mod 16)); lia). lia.
Qed.

Lemma a2b_two_pads l : a2b 2 l 0 [PAD; PAD] = Some [].
Proof. done. Qed.

Lemma a2b_one_pad l : a2b 3 l 0 [PAD] = Some [].
Proof. done. Qed.

Lemma a2b_b64encode n bs : (length bs <= n)%nat -> Forall is_byte bs -> a2b 0 0 0 (b64encode bs) = Some bs.
Proof.
  revert bs. induction n as [|n IH]; intros bs Hn Hbs; [destruct bs; [done|simpl in Hn; lia]|].
  destruct bs as [|a [|b [|c rest]]]; [done| | |]; inv Hbs.
  - cbn [b64encode]. byte_bounds. rewrite a2b_digit by lia. cbn [Z.eqb Pos.eqb]. rewrite a2b_digit by lia. cbn [Z.eqb Pos.eqb]. rewrite a2b_two_pads. cbn. do 2 f_equal.
    rewrite Z.div_mul by lia. lia.
  - inv H2. cbn [b64encode]. byte_bounds. rewrite a2b_digit by lia. cbn [Z.eqb Pos.eqb]. rewrite a2b_digit by lia. cbn [Z.eqb Pos.eqb]. rewrite a2b_digit by lia. cbn [Z.eqb Pos.eqb]. rewrite a2b_one_pad. cbn.
    replace ((a mod 4 * 16 + b / 16) / 16) with (a mod 4) by (apply (Z.div_unique _ _ _ (b / 16)); lia).
    replace ((a mod 4 * 16 + b / 16) mod 16) with (b / 16) by (apply (Z.mod_unique _ _ (a mod 4)); lia). rewrite Z.div_mul by lia. do 2 f_equal; [lia|f_equal; lia].
  - inv H2. inv H4. cbn [b64encode]. rewrite a2b_group by done. rewrite IH; [done|simpl in Hn; lia|done].
Qed.

Lemma b64encode_ascii n bs : (length bs <= n)%nat -> Forall is_byte bs -> forallb (fun c => c <? 128) (b64encode bs) = true.
Proof.
  assert (forall m, 0 <= m < 64 -> b64_digit m <? 128 = true) as Hd by (intros m Hm; apply Z.ltb_lt; by apply b64_value_digit).
  revert bs. induction n as [|n IH]; intros bs Hn Hbs; [destruct bs; [done|simpl in Hn; lia]|].
  destruct bs as [|a [|b [|c rest]]]; [done| | |]; inv Hbs; try (inv H2); try (inv H4); cbn [b64encode forallb]; byte_bounds; rewrite ?Hd by lia; try done.
  rewrite IH; [done|simpl in Hn; lia|done].
Qed.

Lemma b64_roundtrip bs : Forall is_byte bs -> b64decode (b64encode bs) = Some bs.
Proof. intros H. unfold b64decode. rewrite (b64encode_ascii (length bs)) by done. by apply (a2b_b64encode (length bs)). Qed.

(** *** The text of a UUID *)

Lemma replace_not_in old new s c : c ∈ old -> c ∉ s -> replace old new s = s.
Proof.
  intros Hc. unfold replace. induction s as [|x s IH]; intros Hs; [done|]. cbn [replace_go].
  destruct (startswith old (x :: s)) eqn:E.
  - exfalso. apply Hs. clear -Hc E. revert E. generalize (x :: s) as t. induction old as [|a old IH]; [by apply not_elem_of_nil in Hc|].
    intros [|y t] E; [done|]. simpl in E. apply andb_true_iff in E as [->%Z.eqb_eq E].
    apply elem_of_cons in Hc as [->|Hc]; [left|right; by apply IH].
  - rewrite IH; [done|]. intros H. apply Hs. by right.
Qed.

(** What a character of [str(uuid)] can be. *)
Definition uuid_char (c : Z) : Prop := c = 45 \/ (c <> 120 /\ c <> 95 /\ is_space c = false /\ c <> 43 /\ c <> 88 /\ is_hex c = true).

Lemma hex_char_class w n c : c ∈ hex w n -> is_hex c = true.
Proof.
  revert n. induction w as [|w IH]; intros n; cbn [hex]; [by intros ?%elem_of_nil|].
  intros [H|H%list_elem_of_singleton]%elem_of_app; [by eapply IH|].
  pose proof (Z.mod_pos_bound n 16 ltac:(lia)) as Hd. rewrite H. apply (hex_digit_char (n mod 16) Hd).
Qed.

Lemma uuid_str_chars x c : c ∈ uuid_str x -> uuid_char c.
Proof.
  assert (forall w n, c ∈ hex w n -> uuid_char c) as Hh.
  { intros w n H. right. pose proof (hex_chars w n c H). pose proof (hex_char_class w n c H). tauto. }
  unfold uuid_str. change (u "-") with [45]. rewrite !elem_of_app, !list_elem_of_singleton. intros [H|[H|[H|[H|[H|[H|[H|[H|H]]]]]]]]; first [by eapply Hh|by left].
Qed.

Lemma not_uuid_char x k : k <> 45 -> is_hex k = false -> k ∉ uuid_str x.
Proof. intros H1 H2 H%uuid_str_chars. destruct H as [H|H]; [done|]. destruct H as (_ & _ & _ & _ & _ & H). by rewrite H in H2. Qed.

Lemma rstrip_id p s : (forall c, c ∈ s -> p c = false) -> rstrip_by p s = s.
Proof.
  intros H. unfold rstrip_by. rewrite lstrip_id; [apply rev_involutive|]. intros c Hc. apply H. apply list_elem_of_In, in_rev. by apply list_elem_of_In.
Qed.

Lemma filter_hex w n : filter (fun x => x <> 45) (hex w n) = hex w n.
Proof. apply filter_all, Forall_forall. intros c H. by apply hex_chars in H as (? & _). Qed.

(** The number is read back from its five groups. *)
Lemma uuid_groups x : 0 <= x < 2 ^ 128 ->
  ((((x / 2 ^ 96 mod 2 ^ 32) * 2 ^ 16 + x / 2 ^ 80 mod 2 ^ 16) * 2 ^ 16 + x / 2 ^ 64 mod 2 ^ 16) * 2 ^ 16 + x / 2 ^ 48 mod 2 ^ 16) * 2 ^ 48 + x mod 2 ^ 48 = x.
Proof.
  intros Hx. rewrite (Z.mod_small (x / 2 ^ 96)) by (split; [apply Z.div_pos; lia|apply Z.div_lt_upper_bound; lia]).
  assert (forall k, 0 <= k -> x / 2 ^ (k + 16) * 2 ^ 16 + x / 2 ^ k mod 2 ^ 16 = x / 2 ^ k) as Hs.
  { intros k Hk. rewrite Z.pow_add_r, <- Z.div_div by lia. pose proof (Z.div_mod (x / 2 ^ k) (2 ^ 16) ltac:(lia)). lia. }
  pose proof (Hs 80 ltac:(lia)) as H1. pose proof (Hs 64 ltac:(lia)) as H2. pose proof (Hs 48 ltac:(lia)) as H3.
  change (80 + 16) with 96 in H1. change (64 + 16) with 80 in H2. change (48 + 16) with 64 in H3. rewrite H1, H2, H3. pose proof (Z.div_mod x (2 ^ 48) ltac:(lia)). lia.
Qed.

Lemma uuid_of_str x : 0 <= x < 2 ^ 128 -> uuid_of (uuid_str x) = Some x.
Proof.
  intros Hx. unfold uuid_of. assert (58 ∉ uuid_str x) as Hc by (apply not_uuid_char; [lia|reflexivity]).
  assert (58 ∈ u "urn:" /\ 58 ∈ u "uuid:") as [H1 H2].
  { split; apply list_elem_of_In; vm_compute; tauto. }
  rewrite (replace_not_in _ _ _ _ H1 Hc), (replace_not_in _ _ _ _ H2 Hc).
  assert (forall c, c ∈ uuid_str x -> one_of "{}" c = false) as Hb.
  { intros c Hin. apply bool_decide_eq_false. intros [H|[H|[]]]%list_elem_of_In; subst c; revert Hin; by apply not_uuid_char. }
  rewrite lstrip_id by done. rewrite rstrip_id by done. change (u "-") with [45]. rewrite replace_char_nil. unfold uuid_str.
  change (u "-") with [45]. rewrite !filter_app, !filter_hex. change (filter (fun x => x <> 45) [45]) with (@nil Z). rewrite !app_nil_l.
  set (digits := hex 8 _ ++ _). assert (forall c, c ∈ digits -> exists w n, c ∈ hex w n) as Hd by (unfold digits; intros c; rewrite !elem_of_app; intros [H|[H|[H|[H|H]]]]; eauto).
  assert (len digits =? 32 = true) as -> by (unfold digits, len; rewrite !length_app, !length_hex; reflexivity).
  rewrite int16_plain by (intros c Hin; destruct (Hd c Hin) as (w & n & H%hex_chars); tauto). unfold digits.
  rewrite !hex_digits_hex by lia. rewrite <- (app_nil_r (hex 12 x)), hex_digits_hex by lia. cbn [hex_digits]. rewrite !Z.shiftr_div_pow2 by lia.
  change (16 ^ Z.of_nat 8) with (2 ^ 32). change (16 ^ Z.of_nat 4) with (2 ^ 16). change (16 ^ Z.of_nat 12) with (2 ^ 48). rewrite Z.mul_0_l, Z.add_0_l.
  rewrite uuid_groups by done. by rewrite (proj2 (Z.leb_le _ _)), (proj2 (Z.ltb_lt _ _)) by lia.
Qed.

(** *** Of a cursor *)

Lemma decode_ascii strict s : (forall c, c ∈ s -> c < 128) -> decode strict 0 s = Some s.
Proof.
  induction s as [|c s IH]; intros H; [done|]. cbn [decode]. rewrite (proj2 (Z.ltb_lt c 128)) by (apply H; left).
  rewrite IH; [done|]. intros x Hx. apply H. by right.
Qed.

Lemma split_on_absent sep s : sep ∉ s -> split_on sep s = [s].
Proof.
  induction s as [|c s IH]; intros H; [done|]. apply not_elem_of_cons in H as [Hc Hs]. cbn [split_on]. rewrite IH by done.
  by rewrite (proj2 (Z.eqb_neq c sep)).
Qed.

Lemma unquote_plain s : 37 ∉ s -> unquote s = s.
Proof.
  intros H. unfold unquote. destruct (existsb _ s) eqn:E; [|done]. apply existsb_exists in E as (c & Hc & ->%Z.eqb_eq).
  by apply list_elem_of_In in Hc.
Qed.

Lemma uuid_char_byte x c : c ∈ uuid_str x -> 0 <= c < 128.
Proof.
  intros H%uuid_str_chars. destruct H as [->|(_ & _ & _ & _ & _ & H)]; [lia|]. unfold is_hex, is_digit, PyStr.in_range, lower_char, is_upper, PyStr.in_range in H.
  repeat match type of H with context [if ?b then _ else _] => destruct b eqn:? end; lia.
Qed.

Lemma replace_char_absent c new s : c ∉ s -> replace [c] new s = s.
Proof. apply replace_not_in. left. Qed.

Lemma parse_cursor_text x : parse_qsl (112 :: 61 :: uuid_str x) = [(u "p", uuid_str x)].
Proof.
  unfold parse_qsl. rewrite split_on_absent.
  2: { rewrite !not_elem_of_cons. split_and!; [lia|lia|]. by apply not_uuid_char. }
  cbn [filter truthy map]. change (filter (fun s => truthy s = true) [112 :: 61 :: uuid_str x]) with [112 :: 61 :: uuid_str x].
  cbn [map]. change (partition 61 (112 :: 61 :: uuid_str x)) with ([112], true, uuid_str x). cbv beta iota zeta. unfold plus_to_space.
  change (u "+") with [43]. rewrite (replace_char_absent 43 _ (uuid_str x)) by (by apply not_uuid_char).
  by rewrite (unquote_plain (uuid_str x)) by (by apply not_uuid_char).
Qed.

Lemma decode_encode_cursor (id : Z) : 0 <= id < 2 ^ 128 -> decode_cursor (encode_cursor id) = Some id.
Proof.
  intros Hid. unfold decode_cursor, encode_cursor. change (u "p=" ++ uuid_str id) with (112 :: 61 :: uuid_str id). set (text := 112 :: 61 :: uuid_str id).
  assert (forall c, c ∈ text -> 0 <= c < 128) as Hb.
  { intros c [->|[->|H]%elem_of_cons]%elem_of_cons; [lia|lia|]. by eapply uuid_char_byte. }
  assert (truthy (b64encode text) = true) as -> by (unfold text; by destruct (uuid_str id)).
  cbn [negb]. rewrite b64_roundtrip by (apply Forall_forall; intros c Hc; specialize (Hb c Hc); unfold is_byte; lia). cbn [mbind option_bind].
  rewrite decode_ascii by (intros c Hc; by apply Hb). cbn [mbind option_bind]. unfold text. rewrite parse_cursor_text.
  change (find_first _ [(u "p", uuid_str id)]) with (Some (u "p", uuid_str id)). cbn [fmap option_fmap option_map mbind option_bind snd].
  assert (truthy (uuid_str id) = true) as -> by (unfold uuid_str; destruct (hex 8 _) eqn:E; [by apply (f_equal length) in E; rewrite length_hex in E|done]).
  by apply uuid_of_str.
Qed.

(** C31: The cursor a page ends with is read back on the next request as the id of the page's
    last log, for every id. *)
Theorem cursor_roundtrip (id : Z) : 0 <= id < 2 ^ 128 -> decode_cursor (encode_cursor id) = Some id.
Proof. apply decode_encode_cursor. Qed.

Lemma cursor_roundtrip_witness : decode_cursor (encode_cursor (2 ^ 127 + 5)) = Some (2 ^ 127 + 5).
Proof. apply cursor_roundtrip. lia. Defined.
