(* ===== verification/LogQuery.v ===== *)
(** * Searching logs

    [logs/api.py]: the SQL of a search and what it selects, the table of recent logs and the
    files of older ones, pages and their cursors, single logs, counts, statistics and the
    names logs use. *)
From S2P Require Import Prelude PyStr PyValue PyDate EventAuth PartitionManager Compaction ColdStorage Logs Cursor.

Definition DEFAULT_LOOKBACK_DAYS : Z := 7.

(** ** Rows *)

(** A row as the database or a file gives it; the span id is a number or, in files, a text. *)
Record RawRow := {
  w_id : Z; w_trace_id : option Z; w_organization_id : Z; w_project_id : Z; w_span_id : option Z + ustr; w_level : Z; w_severity_number : option Z;
  w_body : option ustr; w_service : option ustr; w_environment : option ustr; w_host : option ustr; w_data : value }.

Record LogEventRow := {
  id : Z; trace_id : option Z; organization_id : Z; project_id : Z; span_id : option Z; level : Z; severity_number : option Z;
  body : ustr; service : ustr; environment : ustr; host : ustr; data : value }.

(** ** Searches *)

(** The arguments of a query; an empty list or text is none. *)
Record Search := {
  s_organization : Z; s_start : Z; s_end : Z; s_projects : list Z; s_levels : list Z;
  s_service : ustr; s_environment : ustr; s_host : ustr; s_trace : ustr; s_query : ustr }.

Inductive column := ColOrganization | ColId | ColProject | ColLevel | ColService | ColEnvironment | ColHost | ColTrace | ColBody.
Inductive comparison := Equal | AtLeast | Below | OneOf | Ilike.
Inductive param := PInt (n : Z) | PText (s : ustr) | PUuid (n : Z).

(** A condition with its number of placeholders, or with the numbers of its parameters. *)
Record clause (A : Type) := Clause { c_column : column; c_comparison : comparison; c_args : A }.
Arguments Clause {A} _ _ _.
Arguments c_column {A} _.
Arguments c_comparison {A} _.
Arguments c_args {A} _.

(** [query.replace(...)], so that the text is searched for as it is. *)
Definition escape (query : ustr) : ustr :=
  replace (u "_") (u "\_") (replace (u "%") (u "\%") (replace (u "\") (u "\\") query)).

(** *** [_build_hot_where] *)

Abbreviation hot_sql := (list (clause nat) * list param)%type.

Definition and_hot (col : column) (cmp : comparison) (vals : list param) (q : hot_sql) : hot_sql := (q.1 ++ [Clause col cmp (length vals)], q.2 ++ vals).
Definition when {A} (b : bool) (f : A -> A) (x : A) : A := if b then f x else x.

Definition build_hot_where (s : Search) (cursor_position : option Z) : hot_sql :=
  let '(start_uuid, end_uuid) := get_range_for_date (s_start s) (s_end s) in
  let q := and_hot ColOrganization Equal [PInt (s_organization s)] ([], []) in
  let q := and_hot ColId Below [PUuid end_uuid] (and_hot ColId AtLeast [PUuid start_uuid] q) in
  let q := when (bool_decide (s_projects s <> [])) (and_hot ColProject OneOf (map PInt (s_projects s))) q in
  let q := when (bool_decide (s_levels s <> [])) (and_hot ColLevel OneOf (map PInt (s_levels s))) q in
  let q := when (truthy (s_service s)) (and_hot ColService Equal [PText (s_service s)]) q in
  let q := when (truthy (s_environment s)) (and_hot ColEnvironment Equal [PText (s_environment s)]) q in
  let q := when (truthy (s_host s)) (and_hot ColHost Equal [PText (s_host s)]) q in
  let q := when (truthy (s_trace s)) (and_hot ColTrace Equal [PText (s_trace s)]) q in
  let q := when (truthy (s_query s)) (and_hot ColBody Ilike [PText (u "%" ++ escape (s_query s) ++ u "%")]) q in
  match cursor_position with Some c => and_hot ColId Below [PUuid c] q | None => q end.

(** *** The conditions for files, with numbered parameters *)

Abbreviation cold_sql := (list (clause (list nat)) * list param)%type.

(** A parameter is appended and named by the new length. *)
Definition and_cold (col : column) (cmp : comparison) (val : param) (q : cold_sql) : cold_sql :=
  let params := q.2 ++ [val] in (q.1 ++ [Clause col cmp [length params]], params).
(** The numbers of a list are told before its values are appended. *)
Definition and_cold_in (col : column) (vals : list param) (q : cold_sql) : cold_sql :=
  let placeholders := map (fun i => length q.2 + i + 1)%nat (seq 0 (length vals)) in
  (q.1 ++ [Clause col OneOf placeholders], q.2 ++ vals).

Definition build_cold_where (s : Search) (cursor_position : option Z) : cold_sql :=
  let '(start_uuid, end_uuid) := get_range_for_date (s_start s) (s_end s) in
  let params := [PInt (s_organization s); PUuid start_uuid; PUuid end_uuid] in
  let q := ([Clause ColOrganization Equal [1%nat]; Clause ColId AtLeast [length params - 1]%nat; Clause ColId Below [length params]], params) in
  let q := when (bool_decide (s_projects s <> [])) (and_cold_in ColProject (map PInt (s_projects s))) q in
  let q := when (bool_decide (s_levels s <> [])) (and_cold_in ColLevel (map PInt (s_levels s))) q in
  let q := when (truthy (s_service s)) (and_cold ColService Equal (PText (s_service s))) q in
  let q := when (truthy (s_environment s)) (and_cold ColEnvironment Equal (PText (s_environment s))) q in
  let q := when (truthy (s_host s)) (and_cold ColHost Equal (PText (s_host s))) q in
  let q := if truthy (s_trace s) then match uuid_of (s_trace s) with Some t => and_cold ColTrace Equal (PUuid t) q | None => q end else q in
  let q := when (truthy (s_query s)) (and_cold ColBody Ilike (PText (u "%" ++ escape (s_query s) ++ u "%"))) q in
  match cursor_position with Some c => and_cold ColId Below (PUuid c) q | None => q end.

(** *** What the conditions select *)

Section search.
(** How the database tells characters apart when case does not matter, and the texts
    PostgreSQL reads as a UUID. *)
Context (fold_char : Z -> Z) (pg_uuid : ustr -> option Z).

Inductive token := Any | One | Lit (c : Z).

(** The pattern of [LIKE]; DuckDB knows no escape character unless one is named. *)
Fixpoint tokens (escapes : bool) (pattern : ustr) : list token :=
  match pattern with
  | [] => []
  | c :: p =>
      if escapes && (c =? 92) then match p with x :: p => Lit x :: tokens escapes p | [] => [Lit 92] end
      else (if c =? 37 then Any else if c =? 95 then One else Lit c) :: tokens escapes p
  end.

Definition same_char (a b : Z) : bool := fold_char a =? fold_char b.

Fixpoint like (p : list token) : ustr -> bool :=
  match p with
  | [] => fun s => negb (truthy s)
  | Lit c :: p => fun s => match s with x :: s => same_char c x && like p s | [] => false end
  | One :: p => fun s => match s with _ :: s => like p s | [] => false end
  | Any :: p => fix any s := like p s || match s with _ :: s => any s | [] => false end
  end.

Definition int_of_column (r : RawRow) (col : column) : option Z :=
  match col with
  | ColOrganization => Some (w_organization_id r) | ColId => Some (w_id r) | ColProject => Some (w_project_id r) | ColLevel => Some (w_level r)
  | ColTrace => w_trace_id r | _ => None
  end.
Definition text_of_column (r : RawRow) (col : column) : option ustr :=
  match col with ColService => w_service r | ColEnvironment => w_environment r | ColHost => w_host r | ColBody => w_body r | _ => None end.

(** A condition that is true: one on NULL is not. *)
Definition test (escapes : bool) (r : RawRow) (col : column) (cmp : comparison) (args : list param) : bool :=
  let int_is (f : Z -> Z -> bool) (p : param) := match int_of_column r col, p with Some x, PInt n | Some x, PUuid n => f x n | _, _ => false end in
  match cmp, args with
  | Equal, [PText t] => bool_decide (text_of_column r col = Some t)
  | Equal, [p] => int_is Z.eqb p
  | AtLeast, [p] => int_is (fun x n => n <=? x) p
  | Below, [p] => int_is Z.ltb p
  | OneOf, ps => existsb (int_is Z.eqb) ps
  | Ilike, [PText pat] => match text_of_column r col with Some t => like (tokens escapes pat) t | None => false end
  | _, _ => false
  end.

(** PostgreSQL reads the parameter of a trace as a UUID, [None] for a [DataError]. *)
Definition bind_param (col : column) (p : param) : option param :=
  match col, p with ColTrace, PText t => PUuid <$> pg_uuid t | _, _ => Some p end.

(** The placeholders take the parameters one after the other. *)
Fixpoint bind (cs : list (clause nat)) (ps : list param) : option (list (clause (list param))) :=
  match cs with
  | [] => Some []
  | c :: cs =>
      vals ← mapM (bind_param (c_column c)) (take (c_args c) ps);
      rest ← bind cs (drop (c_args c) ps);
      Some (Clause (c_column c) (c_comparison c) vals :: rest)
  end.

Definition selects_hot (bound : list (clause (list param))) (r : RawRow) : bool :=
  forallb (fun c => test true r (c_column c) (c_comparison c) (c_args c)) bound.

(** [$n] is the [n]th parameter. *)
Definition selects_cold (q : cold_sql) (r : RawRow) : bool :=
  forallb (fun c => test false r (c_column c) (c_comparison c) (omap (fun n => q.2 !! (n - 1)%nat) (c_args c))) q.1.
End search.

(** ** The tiers *)

Section tiers.
Context (fold_char : Z -> Z) (pg_uuid : ustr -> option Z) (loads : ustr -> option value) (parse_int : ustr -> option Z).
Context (slot : bool) (reading : Path -> Reading) (can_delete : Path -> bool) (HOT_STORAGE_DAYS : Z).

Definition parse_json_field (v : value) : value :=
  match v with VDict _ => v | VStr s => default (VDict []) (loads s) | _ => VDict [] end.

Definition _row_to_log_event (r : RawRow) : res LogEventRow :=
  let* span := match w_span_id r with
               | inl n => Ok n
               | inr t => if truthy t then match parse_int t with Some n => Ok (Some n) | None => Raise ValueError end else Ok None
               end in
  Ok {| id := w_id r; trace_id := w_trace_id r; organization_id := w_organization_id r; project_id := w_project_id r; span_id := span; level := w_level r;
        severity_number := w_severity_number r; body := default [] (w_body r); service := default [] (w_service r); environment := default [] (w_environment r);
        host := default [] (w_host r); data := parse_json_field (w_data r) |}.

(** The table of recent logs, and the organization's files. *)
Record Store := { table : list RawRow; files : OrgDir RawRow; duckdb : bool }.

Definition query_hot_storage (s : Search) (limit : Z) (cursor_position : option Z) (st : Store) : res (list LogEventRow) :=
  let q := build_hot_where s cursor_position in
  match bind pg_uuid q.1 q.2 with
  | None => Raise DataError
  | Some bound => res_map _row_to_log_event (slice_to limit (newest_first w_id (filter (fun r => selects_hot fold_char bound r = true) (table st))))
  end.

Definition newest_logs : list LogEventRow -> list LogEventRow := newest_first id.

Definition query_cold_storage (s : Search) (limit : Z) (cursor_position : option Z) (st : Store) : res (list LogEventRow) * Store :=
  if negb (duckdb st) then (Ok [], st)
  else
    let '(r, o) := query_cold_parquet_files w_id reading can_delete slot (Some (s_start s, s_end s))
                     (selects_cold fold_char (build_cold_where s cursor_position)) limit (files st) in
    (res_bind r (fun rows => res_bind (res_map _row_to_log_event rows) (fun ls => Ok (slice_to limit (newest_logs ls)))),
     {| table := table st; files := o; duckdb := duckdb st |}).

Definition between (a b : Z) (s : Search) : Search :=
  {| s_organization := s_organization s; s_start := a; s_end := b; s_projects := s_projects s; s_levels := s_levels s; s_service := s_service s;
     s_environment := s_environment s; s_host := s_host s; s_trace := s_trace s; s_query := s_query s |}.

(** The tiers that can hold logs before the cursor. *)
Definition tiers (hot_cutoff : Z) (s : Search) (cursor_position : option Z) : res (bool * bool) :=
  let needs_hot := hot_cutoff <? s_end s in
  let needs_cold := s_start s <? hot_cutoff in
  match cursor_position with
  | Some c =>
      if needs_hot && needs_cold then
        let* cursor_time := extract_datetime c in
        Ok (negb (cursor_time <=? hot_cutoff), needs_cold)
      else Ok (needs_hot, needs_cold)
  | None => Ok (needs_hot, needs_cold)
  end.

Definition hot_cutoff (now : Z) : Z := now - HOT_STORAGE_DAYS * ONE_DAY.

(** [query_logs_combined] *)
Definition query_logs_combined (now : Z) (s : Search) (limit : Z) (cursor_position : option Z) (st : Store) : res (list LogEventRow) * Store :=
  let cut := hot_cutoff now in
  let query_hot := query_hot_storage (between (Z.max (s_start s) cut) (s_end s) s) limit cursor_position in
  let query_cold := query_cold_storage (between (s_start s) (Z.min (s_end s) cut) s) limit cursor_position in
  let sorted rs := slice_to limit (newest_logs rs) in
  match tiers cut s cursor_position with
  | Raise e => (Raise e, st)
  | Ok (needs_hot, needs_cold) =>
      if needs_hot then
        match query_hot st with
        | Raise e => (Raise e, st)
        | Ok hot_results =>
            if needs_cold && negb (limit <=? len hot_results) then
              let '(r, st) := query_cold st in
              (res_bind r (fun cold_results => Ok (sorted (hot_results ++ cold_results))), st)
            else (Ok (sorted hot_results), st)
        end
      else if needs_cold then
        let '(r, st) := query_cold st in (res_bind r (fun rs => Ok (sorted rs)), st)
      else (Ok [], st)
  end.

(** ** One log *)

Definition _get_log_from_hot (organization_id log_id : Z) (st : Store) : res (option LogEventRow) :=
  match find_first (fun r => (w_id r =? log_id) && (w_organization_id r =? organization_id)) (table st) with
  | Some r => res_bind (_row_to_log_event r) (fun l => Ok (Some l))
  | None => Ok None
  end.

(** The files of a date; one that is missing is passed over. *)
Fixpoint find_log (organization_id log_id : Z) (ps : list Path) (o : OrgDir RawRow) : res (option LogEventRow) :=
  match ps with
  | [] => Ok None
  | p :: rest =>
      match reading p with
      | Readable =>
          match find_first (fun r => (w_id r =? log_id) && (w_organization_id r =? organization_id)) (read_path o p) with
          | Some r => res_bind (_row_to_log_event r) (fun l => Ok (Some l))
          | None => find_log organization_id log_id rest o
          end
      | Missing => find_log organization_id log_id rest o
      | Corrupt | Broken => Raise OSError
      end
  end.

Definition _get_log_from_cold (organization_id log_id log_time : Z) (st : Store) : res (option LogEventRow) :=
  if duckdb st then find_log organization_id log_id (get_parquet_paths_for_date (date_name (log_time / ONE_DAY)) (files st)) (files st) else Ok None.

Definition get_log_by_id (now organization_id log_id : Z) (st : Store) : res (option LogEventRow) :=
  let* log_time := extract_datetime log_id in
  let* result := if hot_cutoff now <? log_time then _get_log_from_hot organization_id log_id st else Ok None in
  match result with Some l => Ok (Some l) | None => _get_log_from_cold organization_id log_id log_time st end.

(** ** Counts *)

Definition count_hot_storage (s : Search) (max_hits : Z) (st : Store) : res Z :=
  let q := build_hot_where s None in
  match bind pg_uuid q.1 q.2 with
  | None => Raise DataError
  | Some bound => Ok (len (slice_to max_hits (filter (fun r => selects_hot fold_char bound r = true) (table st))))
  end.

(** The loop over the files; one that cannot be counted is skipped. *)
Fixpoint count_files (matches : RawRow -> bool) (max_hits total : Z) (ps : list Path) (o : OrgDir RawRow) : Z :=
  match ps with
  | [] => total
  | p :: rest =>
      if max_hits <=? total then total
      else
        match reading p with
        | Readable => count_files matches max_hits (total + len (slice_to (max_hits - total) (filter (fun r => matches r = true) (read_path o p)))) rest o
        | _ => count_files matches max_hits total rest o
        end
  end.

Definition count_cold_storage (s : Search) (max_hits : Z) (st : Store) : Z :=
  if duckdb st then
    Z.min (count_files (selects_cold fold_char (build_cold_where s None)) max_hits 0 (enumerate_org_parquet_files (Some (s_start s, s_end s)) (files st)) (files st)) max_hits
  else 0.

(** ** A page *)

Record Filters := {
  f_project : list Z; f_level : list ustr; f_service : ustr; f_environment : ustr; f_host : ustr; f_trace_id : ustr; f_query : ustr;
  f_start : option Z; f_end : option Z; f_cursor : ustr; f_limit : Z }.

Record Page := { results : list LogEventRow; has_next : bool; next_cursor : option ustr; hits : Z }.

Definition search_of (now organization_id : Z) (f : Filters) : Search :=
  {| s_organization := organization_id; s_start := default (now - DEFAULT_LOOKBACK_DAYS * ONE_DAY) (f_start f); s_end := default now (f_end f); s_projects := f_project f;
     s_levels := default [] (parse_level_filters (f_level f)); s_service := f_service f; s_environment := f_environment f; s_host := f_host f; s_trace := f_trace_id f; s_query := f_query f |}.

Definition MAX_HITS : Z := 1000.

Definition count_hits (s : Search) (st : Store) : res Z :=
  let* hot := count_hot_storage s MAX_HITS st in
  Ok (if hot <? MAX_HITS then hot + count_cold_storage s (MAX_HITS - hot) st else hot).

(** [list_logs] *)
Definition list_logs (now organization_id : Z) (f : Filters) (st : Store) : res Page * Store :=
  let s := search_of now organization_id f in
  let cursor_position := decode_cursor (f_cursor f) in
  let limit := f_limit f in
  let '(r, st) := query_logs_combined now s (limit + 1) cursor_position st in
  (let* rs := r in
   let page := slice_to limit rs in
   let* n := match cursor_position with None => count_hits s st | Some _ => Ok (len page) end in
   let more := limit <? len rs in
   Ok {| results := page; has_next := more; next_cursor := if more then (fun l => encode_cursor (id l)) <$> last page else None; hits := n |}, st).

(** ** Statistics *)

Record StatRow := { t_organization : Z; t_project : Z; t_date : Z; t_level : Z; t_service_bucket : Z; t_environment_bucket : Z; t_count : Z }.

Definition HOUR : Z := 3600 * 1000000.
Definition any_of (l : list Z) (x : Z) : bool := match l with [] => true | _ => bool_decide (x ∈ l) end.

Definition stat_rows (organization_id start_dt end_dt : Z) (projects levels service_buckets environment_buckets : list Z) (rows : list StatRow) : list StatRow :=
  filter (fun r => (t_organization r =? organization_id) && (start_dt <=? t_date r) && (t_date r <? end_dt) && any_of projects (t_project r) && any_of levels (t_level r) &&
                   any_of service_buckets (t_service_bucket r) && any_of environment_buckets (t_environment_bucket r) = true) rows.

Definition hour_of (r : StatRow) : Z := t_date r / HOUR * HOUR.

(** The total of an hour and a level, 0 for a group without rows. *)
Definition total (rows : list StatRow) (h lv : Z) : Z := zsum (map t_count (filter (fun r => hour_of r = h /\ t_level r = lv) rows)).

Definition level_names : list ustr := [u "trace"; u "debug"; u "info"; u "warn"; u "error"; u "fatal"].

(** [LogLevel(level).label] *)
Definition level_name (lv : Z) : res ustr := if lv <? 0 then Raise ValueError else match level_names !! Z.to_nat lv with Some n => Ok n | None => Raise ValueError end.

Definition sorted_set (l : list Z) : list Z := merge_sort Z.le (remove_dups l).

Definition query_log_stats (rows : list StatRow) : res (list Z * list (ustr * list Z)) :=
  let intervals := sorted_set (map hour_of rows) in
  let* series := res_map (fun lv => let* n := level_name lv in Ok (n, map (fun h => total rows h lv) intervals)) (sorted_set (map t_level rows)) in
  Ok (intervals, series).

(** [get_log_stats]: at most ninety days. *)
Definition get_log_stats (md5_byte : ustr -> Z) (now organization_id : Z) (f_start f_end : option Z) (projects : list Z) (levels services environments : list ustr) (rows : list StatRow)
    : res (list Z * list (ustr * list Z)) :=
  let start_dt := default (now - DEFAULT_LOOKBACK_DAYS * ONE_DAY) f_start in
  let end_dt := default now f_end in
  let start_dt := if 90 * ONE_DAY <? end_dt - start_dt then end_dt - 90 * ONE_DAY else start_dt in
  let buckets names := res_map (fun n => compute_hash_bucket md5_byte (VStr n)) names in
  let* service_buckets := buckets services in
  let* environment_buckets := buckets environments in
  query_log_stats (stat_rows organization_id start_dt end_dt projects (default [] (parse_level_filters levels)) service_buckets environment_buckets rows).

(** ** Names *)

Record Resource := { n_organization : Z; n_type : ustr; n_name : ustr; n_last_seen : Z }.

Definition more_recent (a b : Resource) : Prop := n_last_seen b <= n_last_seen a.
Instance more_recent_dec : RelDecision more_recent := fun a b => Z_le_dec (n_last_seen b) (n_last_seen a).

Definition list_log_resources (organization_id : Z) (resource_type : ustr) (rows : list Resource) : list Resource :=
  take 100 (merge_sort more_recent (filter (fun r => (n_organization r =? organization_id) && (negb (truthy resource_type) || ustr_eqb (n_type r) resource_type) = true) rows)).

(** ** Requests *)

(** An organization is looked up by its slug among those of the user. *)
Definition of_member {A} (organizations : list (Z * ustr * list Z)) (user : Z) (organization_slug : ustr) (f : Z -> res A) : option (res A) :=
  match find_first (fun o => ustr_eqb o.1.2 organization_slug && bool_decide (user ∈ o.2)) organizations with
  | Some o => Some (f o.1.1)
  | None => None
  end.

(** [get_log]; [None] for the error 404. *)
Definition get_log (organizations : list (Z * ustr * list Z)) (now user : Z) (organization_slug : ustr) (log_id : Z) (st : Store) : option (res LogEventRow) :=
  match of_member organizations user organization_slug (fun o => get_log_by_id now o log_id st) with
  | Some (Ok (Some l)) => Some (Ok l)
  | Some (Ok None) | None => None
  | Some (Raise e) => Some (Raise e)
  end.
End tiers.

(** ** What a search selects *)

Lemma replace_char c new s : replace [c] new s = concat (map (fun x => if x =? c then new else [x]) s).
Proof.
  unfold replace. induction s as [|x s IH]; [done|]. cbn [replace_go map concat startswith length Nat.sub]. rewrite andb_true_r, IH.
  rewrite (Z.eqb_sym c x). by destruct (x =? c).
Qed.

Section meaning.
Context (fold_char : Z -> Z) (pg_uuid : ustr -> option Z).

(** *** Searching for a text *)

Definition escaped (c : Z) : ustr := if (c =? 92) || (c =? 37) || (c =? 95) then [92; c] else [c].

Lemma escape_chars q : escape q = concat (map escaped q).
Proof.
  unfold escape. change (u "_") with [95]. change (u "%") with [37]. change (u "\") with [92]. change (u "\_") with [92; 95]. change (u "\%") with [92; 37]. change (u "\\") with [92; 92].
  rewrite !replace_char. induction q as [|c q IH]; [done|]. cbn [map concat]. rewrite map_app, concat_app, map_app, concat_app, IH. f_equal.
  unfold escaped. destruct (Z.eqb_spec c 92) as [->|]; [done|]. cbn [map concat app orb]. destruct (Z.eqb_spec c 37) as [->|]; [done|]. cbn [map concat app orb].
  destruct (Z.eqb_spec c 95) as [->|]; done.
Qed.

(** The pattern stands for the text, wherever it occurs. *)
Definition anywhere (q : ustr) : list token := Any :: map Lit q ++ [Any].

Lemma tokens_escaped q p : tokens true (escape q ++ p) = map Lit q ++ tokens true p.
Proof.
  rewrite escape_chars. induction q as [|c q IH]; [done|]. cbn [map concat]. rewrite <- app_assoc. unfold escaped at 1.
  destruct ((c =? 92) || (c =? 37) || (c =? 95)) eqn:E; cbn [app tokens andb Z.eqb Pos.eqb]; rewrite IH; [done|].
  apply orb_false_iff in E as [E E3]. apply orb_false_iff in E as [E1 E2]. by rewrite E1, E2, E3.
Qed.

Lemma tokens_hot q : tokens true (u "%" ++ escape q ++ u "%") = anywhere q.
Proof. change (u "%") with [37]. cbn [app tokens andb Z.eqb Pos.eqb]. by rewrite tokens_escaped. Qed.

(** In the files the escaped characters keep their meaning, after a backslash that must be there. *)
Definition unescaped (c : Z) : list token := if c =? 92 then [Lit 92; Lit 92] else if c =? 37 then [Lit 92; Any] else if c =? 95 then [Lit 92; One] else [Lit c].
Definition anywhere_cold (q : ustr) : list token := Any :: concat (map unescaped q) ++ [Any].

Lemma tokens_files q : tokens false (u "%" ++ escape q ++ u "%") = anywhere_cold q.
Proof.
  change (u "%") with [37]. cbn [app tokens andb Z.eqb Pos.eqb]. unfold anywhere_cold. f_equal. rewrite escape_chars.
  induction q as [|c q IH]; [done|]. cbn [map concat]. rewrite <- !app_assoc, <- IH. clear IH. unfold escaped at 1, unescaped.
  destruct (Z.eqb_spec c 92) as [->|H1]; [done|]. destruct (Z.eqb_spec c 37) as [->|H2]; [done|]. destruct (Z.eqb_spec c 95) as [->|H3]; [done|].
  cbn [orb app tokens andb]. by rewrite (proj2 (Z.eqb_neq _ _) H2), (proj2 (Z.eqb_neq _ _) H3).
Qed.

(** Without special characters the files are searched in the same way. *)
Definition plain (q : ustr) : Prop := forall c, c ∈ q -> c <> 92 /\ c <> 37 /\ c <> 95.

Lemma anywhere_plain q : plain q -> anywhere_cold q = anywhere q.
Proof.
  intros Hq. unfold anywhere_cold, anywhere. do 2 f_equal. induction q as [|c q IH]; [done|]. destruct (Hq c) as (H1 & H2 & H3); [left|].
  cbn [map concat]. unfold unescaped at 1. rewrite (proj2 (Z.eqb_neq _ _) H1), (proj2 (Z.eqb_neq _ _) H2), (proj2 (Z.eqb_neq _ _) H3).
  cbn [app]. f_equal. apply IH. intros x Hx. apply Hq. by right.
Qed.

Abbreviation same := (fun a b => same_char fold_char a b = true).

Lemma like_rest s : like fold_char [Any] s = true.
Proof. induction s as [|c s IH]; [done|]. cbn in *. by rewrite IH. Qed.

Lemma like_lits q s : like fold_char (map Lit q ++ [Any]) s = true <-> exists m b, s = m ++ b /\ Forall2 same q m.
Proof.
  revert s. induction q as [|c q IH]; intros s.
  - cbn [map app]. rewrite like_rest. split; [|done]. intros _. by exists [], s.
  - cbn [map app like]. destruct s as [|x s]; [split; [done|]; intros (m & b & E & H); inv H; done|]. rewrite andb_true_iff, IH. split.
    + intros [Hc (m & b & -> & Hm)]. exists (x :: m), b. split; [done|]. by constructor.
    + intros (m & b & E & H). inv H. simplify_eq/=. split; [done|]. by eexists _, _.
Qed.

(** The text occurs in the body, case apart. *)
Lemma like_anywhere q s : like fold_char (anywhere q) s = true <-> exists a m b, s = a ++ m ++ b /\ Forall2 same q m.
Proof.
  assert (forall s, like fold_char (anywhere q) s = like fold_char (map Lit q ++ [Any]) s || match s with _ :: s => like fold_char (anywhere q) s | [] => false end) as Hstep by (by intros []).
  induction s as [|x s IH]; rewrite Hstep, orb_true_iff, like_lits.
  - split; [intros [(m & b & E & H)|]; [by exists [], m, b|done]|]. intros (a & m & b & E & H). destruct a; [|done]. left. by exists m, b.
  - rewrite IH. split.
    + intros [(m & b & E & H)|(a & m & b & -> & H)]; [by exists [], m, b|by exists (x :: a), m, b].
    + intros ([|y a] & m & b & E & H); [left; by exists m, b|right]. simplify_eq/=. by exists a, m, b.
Qed.

(** *** The conditions one by one *)

Definition wf_hot (q : list (clause nat) * list param) : Prop := list_sum (map c_args q.1) = length q.2.

(** A query for the table means the rows of [f]. *)
Definition means_hot (q : list (clause nat) * list param) (f : RawRow -> bool) : Prop :=
  wf_hot q /\ exists bound, bind pg_uuid q.1 q.2 = Some bound /\ forall r, selects_hot fold_char bound r = f r.

Lemma bind_app cs ps c vals : list_sum (map c_args cs) = length ps -> c_args c = length vals ->
  bind pg_uuid (cs ++ [c]) (ps ++ vals) =
    (bound ← bind pg_uuid cs ps; vals' ← mapM (bind_param pg_uuid (c_column c)) vals; Some (bound ++ [Clause (c_column c) (c_comparison c) vals'])).
Proof.
  revert ps. induction cs as [|d cs IH]; intros ps Hs Hc.
  - destruct ps; [|done]. cbn [app bind]. rewrite Hc, firstn_all. by destruct (mapM _ vals).
  - cbn [app bind]. cbn [map list_sum foldr] in Hs. simpl in Hs. rewrite take_app_le, drop_app_le by lia. destruct (mapM _ (take _ ps)); [|done]. cbn [mbind option_bind].
    rewrite IH; [|rewrite length_drop; unfold list_sum in *; lia|done]. destruct (bind pg_uuid cs _); [|done]. cbn [mbind option_bind]. by destruct (mapM _ vals).
Qed.

Lemma means_and_hot col cmp vals vals' q f : means_hot q f -> mapM (bind_param pg_uuid col) vals = Some vals' ->
  means_hot (and_hot col cmp vals q) (fun r => f r && test fold_char true r col cmp vals').
Proof.
  intros [Hw (bound & Hb & Hf)] Hv. split.
  - unfold wf_hot, and_hot in *. cbn [fst snd]. rewrite map_app, list_sum_app, length_app. cbn [map list_sum foldr c_args]. simpl. lia.
  - unfold and_hot. cbn [fst snd]. rewrite bind_app by done. cbn [c_column c_comparison]. rewrite Hb, Hv. eexists. split; [done|].
    intros r. unfold selects_hot. rewrite forallb_app. cbn [forallb c_column c_comparison c_args]. rewrite andb_true_r. by rewrite <- Hf.
Qed.

Lemma means_when_hot b col cmp vals vals' q f : means_hot q f -> (b = true -> mapM (bind_param pg_uuid col) vals = Some vals') ->
  means_hot (when b (and_hot col cmp vals) q) (fun r => f r && (negb b || test fold_char true r col cmp vals')).
Proof.
  intros Hq Hv. destruct b; [by apply means_and_hot, Hv|]. cbn. destruct Hq as [Hw (bound & Hb & Hf)]. split; [done|].
  exists bound. split; [done|]. intros r. by rewrite andb_true_r.
Qed.

Lemma means_hot_ext q f g : means_hot q f -> (forall r, f r = g r) -> means_hot q g.
Proof. intros [Hw (bound & Hb & Hf)] H. split; [done|]. exists bound. split; [done|]. intros r. by rewrite Hf, H. Qed.

(** A query for the files means the rows of [f], and its numbers are in range. *)
Definition means_cold (q : list (clause (list nat)) * list param) (f : RawRow -> bool) : Prop :=
  (forall c n, c ∈ q.1 -> n ∈ c_args c -> (1 <= n <= length q.2)%nat) /\ forall r, selects_cold fold_char q r = f r.

Lemma omap_lookup_app (l vals : list param) (ns : list nat) : (forall n, n ∈ ns -> (1 <= n <= length l)%nat) ->
  omap (fun n => (l ++ vals) !! (n - 1)%nat) ns = omap (fun n => l !! (n - 1)%nat) ns.
Proof.
  induction ns as [|n ns IH]; intros H; [done|]. cbn. rewrite lookup_app_l by (specialize (H n ltac:(left)); lia).
  by rewrite IH by (intros m Hm; apply H; by right).
Qed.

Lemma selects_cold_app cs l vals c r : (forall d n, d ∈ cs -> n ∈ c_args d -> (1 <= n <= length l)%nat) ->
  selects_cold fold_char (cs ++ [c], l ++ vals) r =
    selects_cold fold_char (cs, l) r && test fold_char false r (c_column c) (c_comparison c) (omap (fun n => (l ++ vals) !! (n - 1)%nat) (c_args c)).
Proof.
  intros H. unfold selects_cold. cbn [fst snd]. rewrite forallb_app. cbn [forallb]. rewrite andb_true_r. f_equal.
  induction cs as [|d cs IH]; [done|]. cbn [forallb]. rewrite omap_lookup_app by (intros n Hn; apply (H d n); [left|done]).
  f_equal. apply IH. intros e n He. apply H. by right.
Qed.

Lemma means_and_cold col cmp v q f : means_cold q f -> means_cold (and_cold col cmp v q) (fun r => f r && test fold_char false r col cmp [v]).
Proof.
  intros [Hb Hf]. unfold and_cold. split.
  - cbn [fst snd]. intros c n [Hc|Hc%list_elem_of_singleton]%elem_of_app Hn; rewrite length_app; simpl.
    + specialize (Hb c n Hc Hn). lia.
    + subst c. cbn [c_args] in Hn. apply list_elem_of_singleton in Hn. rewrite length_app in Hn. simpl in Hn. lia.
  - intros r. rewrite selects_cold_app by done. cbn [c_column c_comparison c_args]. rewrite <- Hf. destruct q as [cs l]. cbn [fst snd]. f_equal. cbn [omap list_omap].
    rewrite length_app. cbn [length]. replace (length l + 1 - 1)%nat with (length l) by lia. by rewrite lookup_app_r, Nat.sub_diag by lia.
Qed.

Lemma means_when_cold b col cmp v q f : means_cold q f -> means_cold (when b (and_cold col cmp v) q) (fun r => f r && (negb b || test fold_char false r col cmp [v])).
Proof.
  intros Hq. destruct b; [by apply means_and_cold|]. cbn. destruct Hq as [Hb Hf]. split; [done|]. intros r. by rewrite andb_true_r.
Qed.

Lemma omap_seq (l vals : list param) : omap (fun n => (l ++ vals) !! (n - 1)%nat) (map (fun i => length l + i + 1)%nat (seq 0 (length vals))) = vals.
Proof.
  assert (forall k (ws : list param), (forall i, (i < length ws)%nat -> (l ++ vals) !! (length l + (k + i))%nat = ws !! i) ->
    omap (fun n => (l ++ vals) !! (n - 1)%nat) (map (fun i => length l + i + 1)%nat (seq k (length ws))) = ws) as H.
  { intros k ws. revert k. induction ws as [|w ws IH]; intros k Hk; [done|]. cbn. replace (length l + k + 1 - 1)%nat with (length l + (k + 0))%nat by lia.
    rewrite (Hk 0%nat) by (simpl; lia). cbn. f_equal. apply IH. intros i Hi. etrans; [|apply (Hk (S i)); simpl; lia]. f_equal. lia. }
  apply (H 0%nat). intros i Hi. rewrite lookup_app_r by lia. f_equal. lia.
Qed.

Lemma means_when_cold_in b col vals q f : means_cold q f -> means_cold (when b (and_cold_in col vals) q) (fun r => f r && (negb b || test fold_char false r col OneOf vals)).
Proof.
  intros [Hb Hf]. destruct b; [|cbn; split; [done|]; intros r; by rewrite andb_true_r]. cbn [when negb orb]. unfold and_cold_in. split.
  - cbn [fst snd]. intros c n [Hc|Hc%list_elem_of_singleton]%elem_of_app Hn; rewrite length_app.
    + specialize (Hb c n Hc Hn). lia.
    + subst c. cbn [c_args] in Hn. apply list_elem_of_fmap in Hn as (i & -> & Hi%elem_of_seq). lia.
  - intros r. rewrite selects_cold_app by done. cbn [c_column c_comparison c_args]. rewrite <- Hf. destruct q as [cs l]. cbn [fst snd]. by rewrite omap_seq.
Qed.

(** *** All conditions *)

Definition text_is (t : ustr) (v : option ustr) : bool := negb (truthy t) || bool_decide (v = Some t).
Definition contains (pattern : ustr -> list token) (q : ustr) (v : option ustr) : bool :=
  negb (truthy q) || match v with Some t => like fold_char (pattern q) t | None => false end.
Definition contains_text : ustr -> option ustr -> bool := contains anywhere.
Definition before (cursor_position : option Z) (n : Z) : bool := match cursor_position with Some c => n <? c | None => true end.

(** What a search asks of a row, the time and the cursor apart. *)
Definition matches (s : Search) (r : RawRow) : bool :=
  (w_organization_id r =? s_organization s) && any_of (s_projects s) (w_project_id r) && any_of (s_levels s) (w_level r) &&
  text_is (s_service s) (w_service r) && text_is (s_environment s) (w_environment r) && text_is (s_host s) (w_host r) &&
  (negb (truthy (s_trace s)) || bool_decide (w_trace_id r = uuid_of (s_trace s))) && contains_text (s_query s) (w_body r).

(** The same with other conditions on the trace and the text. *)
Definition matches_by (trace text : RawRow -> bool) (s : Search) (r : RawRow) : bool :=
  (w_organization_id r =? s_organization s) && any_of (s_projects s) (w_project_id r) && any_of (s_levels s) (w_level r) &&
  text_is (s_service s) (w_service r) && text_is (s_environment s) (w_environment r) && text_is (s_host s) (w_host r) && trace r && text r.

(** The condition on the trace: PostgreSQL compares with the UUID it reads; for the files a
    text that Python reads as none is no condition. *)
Definition hot_trace (t : ustr) (r : RawRow) : bool := negb (truthy t) || bool_decide (w_trace_id r = pg_uuid t).
Definition cold_trace (t : ustr) (r : RawRow) : bool := negb (truthy t) || match uuid_of t with Some n => bool_decide (w_trace_id r = Some n) | None => true end.

(** In the range of ids of two times. *)
Definition in_time (s : Search) (n : Z) : bool := let '(a, b) := get_range_for_date (s_start s) (s_end s) in (a <=? n) && (n <? b).

Definition wanted (s : Search) (cursor_position : option Z) (r : RawRow) : bool := in_time s (w_id r) && before cursor_position (w_id r) && matches s r.

Definition wanted_by (trace text : RawRow -> bool) (s : Search) (cursor_position : option Z) (r : RawRow) : bool :=
  in_time s (w_id r) && before cursor_position (w_id r) && matches_by trace text s r.

(** A trace id that both sides read alike. *)
Definition trace_ok (s : Search) : Prop := s_trace s <> [] -> exists n, uuid_of (s_trace s) = Some n /\ pg_uuid (s_trace s) = Some n.

Lemma mapM_ints col l : col <> ColTrace -> mapM (bind_param pg_uuid col) (map PInt l) = Some (map PInt l).
Proof. intros Hc. induction l as [|x l IH]; [done|]. cbn [map mapM]. rewrite IH. by destruct col. Qed.

Lemma test_ints e r col l x : int_of_column r col = Some x -> negb (bool_decide (l <> [])) || test fold_char e r col OneOf (map PInt l) = any_of l x.
Proof.
  intros Hx. destruct l as [|y l]; [done|]. rewrite bool_decide_true by done. cbn [negb orb]. unfold any_of.
  generalize (y :: l) as m. clear -Hx. intros m. unfold test. apply eq_true_iff_eq. rewrite bool_decide_eq_true, existsb_exists, Hx. split.
  - intros (p & Hp & H). apply in_map_iff in Hp as (z & <- & Hz). apply Z.eqb_eq in H as ->. by apply list_elem_of_In.
  - intros Hm. exists (PInt x). split; [|apply Z.eqb_refl]. apply in_map, list_elem_of_In, Hm.
Qed.

Lemma test_text e r col t : negb (truthy t) || test fold_char e r col Equal [PText t] = text_is t (text_of_column r col).
Proof. done. Qed.

Lemma test_body e r q pat p : tokens e pat = p q -> negb (truthy q) || test fold_char e r ColBody Ilike [PText pat] = contains p q (w_body r).
Proof. intros Ht. unfold contains. cbn. by rewrite Ht. Qed.

Lemma test_uuid e r n : test fold_char e r ColTrace Equal [PUuid n] = bool_decide (w_trace_id r = Some n).
Proof. cbn. destruct (w_trace_id r) as [x|]; [|done]. apply eq_true_iff_eq. rewrite Z.eqb_eq, bool_decide_eq_true. split; congruence. Qed.

(** The conditions in the order of the SQL. *)
Lemma conjuncts s a b cursor_position r (trace text : RawRow -> bool) :
  true && (w_organization_id r =? s_organization s) && (a <=? w_id r) && (w_id r <? b) && any_of (s_projects s) (w_project_id r) && any_of (s_levels s) (w_level r) &&
  text_is (s_service s) (w_service r) && text_is (s_environment s) (w_environment r) && text_is (s_host s) (w_host r) &&
  trace r && text r && before cursor_position (w_id r)
  = (a <=? w_id r) && (w_id r <? b) && before cursor_position (w_id r) && matches_by trace text s r.
Proof. unfold matches_by. destruct (w_organization_id r =? s_organization s), (a <=? w_id r), (w_id r <? b), (before cursor_position (w_id r)); cbn; rewrite ?andb_false_r, ?andb_true_r; done. Qed.

Lemma means_cold_ext q f g : means_cold q f -> (forall r, f r = g r) -> means_cold q g.
Proof. intros [Hb Hf] H. split; [done|]. intros r. by rewrite Hf, H. Qed.

(** The conditions for the table before that on the trace. *)
Definition hot_prefix (s : Search) (a b : Z) : list (clause nat) * list param :=
  when (truthy (s_host s)) (and_hot ColHost Equal [PText (s_host s)])
    (when (truthy (s_environment s)) (and_hot ColEnvironment Equal [PText (s_environment s)])
      (when (truthy (s_service s)) (and_hot ColService Equal [PText (s_service s)])
        (when (bool_decide (s_levels s <> [])) (and_hot ColLevel OneOf (map PInt (s_levels s)))
          (when (bool_decide (s_projects s <> [])) (and_hot ColProject OneOf (map PInt (s_projects s)))
            (and_hot ColId Below [PUuid b] (and_hot ColId AtLeast [PUuid a] (and_hot ColOrganization Equal [PInt (s_organization s)] ([], [])))))))).

Lemma hot_prefix_spec s a b : means_hot (hot_prefix s a b) (fun r =>
  true && (w_organization_id r =? s_organization s) && (a <=? w_id r) && (w_id r <? b) && any_of (s_projects s) (w_project_id r) && any_of (s_levels s) (w_level r) &&
  text_is (s_service s) (w_service r) && text_is (s_environment s) (w_environment r) && text_is (s_host s) (w_host r)).
Proof.
  assert (means_hot ([], []) (fun _ => true)) as H by (split; [done|by exists []]). unfold hot_prefix.
  eapply (means_and_hot ColOrganization Equal [PInt (s_organization s)]) in H; [|done].
  eapply (means_and_hot ColId AtLeast [PUuid a]) in H; [|done]. eapply (means_and_hot ColId Below [PUuid b]) in H; [|done].
  eapply (means_when_hot (bool_decide (s_projects s <> [])) ColProject OneOf (map PInt (s_projects s))) in H; [|intros _; by apply mapM_ints].
  eapply (means_when_hot (bool_decide (s_levels s <> [])) ColLevel OneOf (map PInt (s_levels s))) in H; [|intros _; by apply mapM_ints].
  eapply (means_when_hot (truthy (s_service s)) ColService Equal [PText (s_service s)]) in H; [|done].
  eapply (means_when_hot (truthy (s_environment s)) ColEnvironment Equal [PText (s_environment s)]) in H; [|done].
  eapply (means_when_hot (truthy (s_host s)) ColHost Equal [PText (s_host s)]) in H; [|done].
  eapply means_hot_ext; [exact H|]. intros r. cbn beta.
  by rewrite (test_ints true r ColProject _ (w_project_id r)), (test_ints true r ColLevel _ (w_level r)), !test_text.
Qed.

Lemma hot_where_prefix s cursor_position : build_hot_where s cursor_position =
  let '(a, b) := get_range_for_date (s_start s) (s_end s) in
  let q := when (truthy (s_query s)) (and_hot ColBody Ilike [PText (u "%" ++ escape (s_query s) ++ u "%")])
             (when (truthy (s_trace s)) (and_hot ColTrace Equal [PText (s_trace s)]) (hot_prefix s a b)) in
  match cursor_position with Some c => and_hot ColId Below [PUuid c] q | None => q end.
Proof. unfold build_hot_where. by destruct (get_range_for_date _ _). Qed.

(** A parameter that cannot be read is an error, whatever follows. *)
Definition unbound (q : list (clause nat) * list param) : Prop := wf_hot q /\ bind pg_uuid q.1 q.2 = None.

Lemma unbound_and col cmp vals q : unbound q -> unbound (and_hot col cmp vals q).
Proof.
  intros [Hw Hb]. split.
  - unfold wf_hot, and_hot in *. cbn [fst snd]. rewrite map_app, list_sum_app, length_app. cbn [map list_sum foldr c_args]. simpl. lia.
  - unfold and_hot. cbn [fst snd]. rewrite bind_app by done. by rewrite Hb.
Qed.

Lemma hot_unbound s cursor_position : truthy (s_trace s) = true -> pg_uuid (s_trace s) = None ->
  bind pg_uuid (build_hot_where s cursor_position).1 (build_hot_where s cursor_position).2 = None.
Proof.
  intros Ht Hp. rewrite hot_where_prefix. destruct (get_range_for_date _ _) as [a b]. cbn zeta. rewrite Ht. cbn [when].
  destruct (hot_prefix_spec s a b) as [Hw (bound & Hb & _)].
  assert (unbound (and_hot ColTrace Equal [PText (s_trace s)] (hot_prefix s a b))) as H.
  { split.
    - unfold wf_hot, and_hot in *. cbn [fst snd]. rewrite map_app, list_sum_app, length_app. cbn [map list_sum foldr c_args]. simpl. lia.
    - unfold and_hot. cbn [fst snd]. rewrite bind_app by done. rewrite Hb. cbn. by rewrite Hp. }
  assert (unbound (when (truthy (s_query s)) (and_hot ColBody Ilike [PText (u "%" ++ escape (s_query s) ++ u "%")]) (and_hot ColTrace Equal [PText (s_trace s)] (hot_prefix s a b)))) as H2
    by (destruct (truthy (s_query s)); [by apply unbound_and|done]).
  destruct cursor_position as [c|]; [by apply (unbound_and ColId Below [PUuid c])|apply H2].
Qed.

(** What the SQL for the table selects. *)
Lemma hot_where_means s cursor_position : (truthy (s_trace s) = true -> is_Some (pg_uuid (s_trace s))) ->
  means_hot (build_hot_where s cursor_position) (wanted_by (hot_trace (s_trace s)) (fun r => contains_text (s_query s) (w_body r)) s cursor_position).
Proof.
  intros Ht. rewrite hot_where_prefix. unfold wanted_by, in_time. destruct (get_range_for_date _ _) as [a b]. cbn zeta. pose proof (hot_prefix_spec s a b) as H.
  eapply (means_when_hot (truthy (s_trace s)) ColTrace Equal [PText (s_trace s)] [PUuid (default 0 (pg_uuid (s_trace s)))]) in H.
  2: { intros Hs. destruct (Ht Hs) as [n Hp]. cbn. by rewrite Hp. }
  eapply (means_when_hot (truthy (s_query s)) ColBody Ilike [PText (u "%" ++ escape (s_query s) ++ u "%")]) in H; [|done].
  assert (forall q f, means_hot q f -> means_hot (match cursor_position with Some c => and_hot ColId Below [PUuid c] q | None => q end) (fun r => f r && before cursor_position (w_id r))) as Hcur.
  { intros q f Hq. destruct cursor_position as [c|]; [by apply (means_and_hot ColId Below [PUuid c] [PUuid c])|].
    eapply means_hot_ext; [exact Hq|]. intros r. by rewrite andb_true_r. }
  eapply means_hot_ext; [apply Hcur, H|]. intros r. cbn beta. rewrite test_uuid, (test_body true r (s_query s) _ anywhere) by (by rewrite tokens_hot).
  replace (negb (truthy (s_trace s)) || bool_decide (w_trace_id r = Some (default 0 (pg_uuid (s_trace s))))) with (hot_trace (s_trace s) r).
  - exact (conjuncts s a b cursor_position r (hot_trace (s_trace s)) (fun r => contains_text (s_query s) (w_body r))).
  - unfold hot_trace. destruct (truthy (s_trace s)); [|done]. by destruct (Ht eq_refl) as [n ->].
Qed.

(** What the SQL for the files selects. *)
Lemma cold_where_means s cursor_position :
  means_cold (build_cold_where s cursor_position) (wanted_by (cold_trace (s_trace s)) (fun r => contains anywhere_cold (s_query s) (w_body r)) s cursor_position).
Proof.
  unfold build_cold_where, wanted_by, in_time. destruct (get_range_for_date _ _) as [a b].
  assert (means_cold ([Clause ColOrganization Equal [1%nat]; Clause ColId AtLeast [2%nat]; Clause ColId Below [3%nat]], [PInt (s_organization s); PUuid a; PUuid b])
            (fun r => true && test fold_char true r ColOrganization Equal [PInt (s_organization s)] && test fold_char true r ColId AtLeast [PUuid a] && test fold_char true r ColId Below [PUuid b])) as H.
  { split; [|intros r; unfold selects_cold; cbn; by rewrite andb_true_r, andb_assoc].
    intros c n Hc Hn. cbn [fst snd length] in *. repeat (apply elem_of_cons in Hc as [->|Hc]; [apply list_elem_of_singleton in Hn; lia|]). by apply elem_of_nil in Hc. }
  eapply (means_when_cold_in (bool_decide (s_projects s <> [])) ColProject (map PInt (s_projects s))) in H.
  eapply (means_when_cold_in (bool_decide (s_levels s <> [])) ColLevel (map PInt (s_levels s))) in H.
  eapply (means_when_cold (truthy (s_service s)) ColService Equal (PText (s_service s))) in H.
  eapply (means_when_cold (truthy (s_environment s)) ColEnvironment Equal (PText (s_environment s))) in H.
  eapply (means_when_cold (truthy (s_host s)) ColHost Equal (PText (s_host s))) in H.
  assert (forall q f, means_cold q f -> means_cold (if truthy (s_trace s) then match uuid_of (s_trace s) with Some t => and_cold ColTrace Equal (PUuid t) q | None => q end else q)
    (fun r => f r && cold_trace (s_trace s) r)) as Htr.
  { intros q f Hf. unfold cold_trace. destruct (truthy (s_trace s)); [|eapply means_cold_ext; [exact Hf|]; intros r; cbn; by rewrite andb_true_r].
    destruct (uuid_of (s_trace s)) as [n|]; [|eapply means_cold_ext; [exact Hf|]; intros r; cbn; by rewrite andb_true_r].
    eapply means_cold_ext; [by apply (means_and_cold ColTrace Equal (PUuid n))|]. intros r. cbn beta. by rewrite test_uuid. }
  apply Htr in H. eapply (means_when_cold (truthy (s_query s)) ColBody Ilike (PText (u "%" ++ escape (s_query s) ++ u "%"))) in H.
  assert (forall q f, means_cold q f -> means_cold (match cursor_position with Some c => and_cold ColId Below (PUuid c) q | None => q end) (fun r => f r && before cursor_position (w_id r))) as Hcur.
  { intros q f Hf. destruct cursor_position as [c|]; [by apply (means_and_cold ColId Below (PUuid c))|].
    eapply means_cold_ext; [exact Hf|]. intros r. by rewrite andb_true_r. }
  eapply means_cold_ext; [apply Hcur, H|]. intros r. cbn beta.
  rewrite (test_ints false r ColProject _ (w_project_id r)), (test_ints false r ColLevel _ (w_level r)), !test_text by done.
  rewrite (test_body false r (s_query s) _ anywhere_cold) by (by rewrite tokens_files).
  exact (conjuncts s a b cursor_position r (cold_trace (s_trace s)) (fun r => contains anywhere_cold (s_query s) (w_body r))).
Qed.

(** The SQL for the table selects the rows wanted. *)
Lemma hot_where_spec s cursor_position : trace_ok s -> means_hot (build_hot_where s cursor_position) (wanted s cursor_position).
Proof.
  intros Ht. eapply means_hot_ext; [apply hot_where_means|].
  - intros Hs. destruct Ht as (n & _ & Hp); [by destruct (s_trace s)|by exists n].
  - intros r. unfold wanted_by, wanted, matches_by, matches, hot_trace. destruct (s_trace s) as [|c t] eqn:E; [done|].
    destruct Ht as (n & Hu & Hp); [by rewrite E|]. rewrite E in Hu, Hp. by rewrite Hu, Hp.
Qed.

(** The SQL for the files selects the same rows, if the text searched for has none of the
    characters that are special in patterns. *)
Lemma cold_where_spec s cursor_position : trace_ok s -> plain (s_query s) -> means_cold (build_cold_where s cursor_position) (wanted s cursor_position).
Proof.
  intros Ht Hq. eapply means_cold_ext; [apply cold_where_means|]. intros r. unfold wanted_by, wanted, matches_by, matches, contains_text, contains, cold_trace.
  rewrite anywhere_plain by done. destruct (s_trace s) as [|c t] eqn:E; [done|]. destruct Ht as (n & Hu & _); [by rewrite E|]. rewrite E in Hu. by rewrite Hu.
Qed.
End meaning.

(** ** Searching both tiers *)

Lemma StronglySorted_map {A B} (R : B -> B -> Prop) (f : A -> B) (l : list A) : StronglySorted (fun x y => R (f x) (f y)) l -> StronglySorted R (map f l).
Proof. induction 1 as [|x l Hs IH Hx]; constructor; [done|]. by apply Forall_map. Qed.

Lemma res_map_ok {A B} (f : A -> res B) (g : A -> B) l : (forall x, x ∈ l -> f x = Ok (g x)) -> res_map f l = Ok (map g l).
Proof.
  induction l as [|x l IH]; intros H; [done|]. cbn [res_map]. rewrite (H x) by left. cbn [res_bind].
  rewrite IH; [done|]. intros y Hy. apply H. by right.
Qed.

Abbreviation later := (fun a b : RawRow => w_id b < w_id a).

(** An id that the time is read back from. *)
Definition key_ok (n : Z) : Prop := extract_datetime n = Ok (Z.shiftr n 80 * 1000).

Section combined.
Context (fold_char : Z -> Z) (pg_uuid : ustr -> option Z) (loads : ustr -> option value) (parse_int : ustr -> option Z) (can_delete : Path -> bool) (HOT_STORAGE_DAYS : Z).
Context (clean : RawRow -> LogEventRow) (now : Z) (s : Search) (st : Store) (limit : Z).

Abbreviation cut := (hot_cutoff HOT_STORAGE_DAYS now).
Abbreviation older := (between (s_start s) (Z.min (s_end s) cut) s).
Abbreviation newer_part := (between (Z.max (s_start s) cut) (s_end s) s).
Abbreviation paths := (enumerate_org_parquet_files (Some (s_start older, s_end older)) (files st)).
Abbreviation query_combined := (query_logs_combined fold_char pg_uuid loads parse_int true (fun _ => Readable) can_delete HOT_STORAGE_DAYS now s limit).

(** The stores are sound: ids are distinct, files follow the time, and rows can be read. *)
Record sound : Prop := {
  so_duckdb : duckdb st = true; so_limit : 0 <= limit;
  so_table : NoDup (map w_id (table st));
  so_order : time_ordered w_id (files st) paths; so_files : forall p, p ∈ paths -> NoDup (map w_id (read_path (files st) p));
  so_clean : forall r, r ∈ table st \/ r ∈ read_paths (files st) paths -> _row_to_log_event loads parse_int r = Ok (clean r) /\ id (clean r) = w_id r;
  so_trace : trace_ok pg_uuid s; so_query : plain (s_query s);
  so_cut : time_ok cut }.

(** No log is of the millisecond at which the tiers meet. *)
Definition clear_of_cut : Prop := forall r, r ∈ table st -> Z.shiftr (w_id r) 80 <> cut / 1000 /\ Z.shiftr (w_id r) 80 <> cut / 1000 - 1.

Hypothesis Hsound : sound.

(** The rows each tier has for the search: of the table only those younger than the limit of
    hot storage, of the files only those older. *)
Definition hot_part : list RawRow := if cut <? s_end s then filter (fun r => in_time newer_part (w_id r) = true) (table st) else [].
Definition cold_part : list RawRow := if s_start s <? cut then filter (fun r => in_time older (w_id r) = true) (read_paths (files st) paths) else [].
Definition stored : list RawRow := hot_part ++ cold_part.

Definition asked (c : option Z) (r : RawRow) : bool := before c (w_id r) && matches fold_char s r.

(** The answer a search is to have: the newest of all that match. *)
Definition answer (c : option Z) : list RawRow := newest_first w_id (filter (fun r => asked c r = true) stored).

Lemma matches_between a b r : matches fold_char (between a b s) r = matches fold_char s r.
Proof. done. Qed.

Lemma filter_wanted a b c (l : list RawRow) :
  filter (fun r => wanted fold_char (between a b s) c r = true) l = filter (fun r => asked c r = true) (filter (fun r => in_time (between a b s) (w_id r) = true) l).
Proof.
  rewrite list_filter_filter. apply list_filter_iff. intros r. unfold wanted, asked. rewrite matches_between.
  destruct (in_time _ _), (before _ _), (matches _ _ _); cbn; naive_solver.
Qed.

Abbreviation hot_rows c := (newest_first w_id (filter (fun r => wanted fold_char newer_part c r = true) (table st))).
Abbreviation cold_rows c := (newest_first w_id (filter (fun r => wanted fold_char older c r = true) (read_paths (files st) paths))).

Lemma elem_newest (l : list RawRow) r : r ∈ newest_first w_id l <-> r ∈ l.
Proof. unfold newest_first. by rewrite merge_sort_Permutation. Qed.

Lemma hot_sorted c : StronglySorted later (hot_rows c).
Proof.
  apply newest_first_sorted. eapply sublist_NoDup; [apply (so_table Hsound)|]. apply (fmap_sublist w_id), sublist_filter.
Qed.

Lemma newest_logs_clean (l : list RawRow) : StronglySorted later l -> (forall r, r ∈ l -> r ∈ table st \/ r ∈ read_paths (files st) paths) ->
  newest_logs (map clean l) = map clean l.
Proof.
  intros Hs Hin. apply newest_first_unique; [done|]. apply StronglySorted_map. clear -Hs Hin Hsound.
  induction Hs as [|r l Hs IH Hr]; constructor.
  - apply IH. intros x Hx. apply Hin. by right.
  - apply Forall_forall. intros x Hx. pose proof (proj1 (Forall_forall _ _) Hr x Hx) as Hlt. cbn in Hlt |- *. destruct (so_clean Hsound x) as [_ ->]; [apply Hin; by right|].
    destruct (so_clean Hsound r) as [_ ->]; [apply Hin; left|]. done.
Qed.

Lemma query_hot c :
  query_hot_storage fold_char pg_uuid loads parse_int newer_part limit c st = Ok (map clean (take (Z.to_nat limit) (hot_rows c))).
Proof.
  unfold query_hot_storage. destruct (hot_where_spec fold_char pg_uuid newer_part c (so_trace Hsound)) as [_ (bound & -> & Hb)].
  rewrite slice_to_nonneg by apply (so_limit Hsound).
  rewrite (list_filter_iff _ (fun r => wanted fold_char newer_part c r = true)) by (intros r; by rewrite Hb).
  apply res_map_ok. intros r Hr%subseteq_take. apply elem_newest, list_elem_of_filter in Hr as [_ Hr]. apply (so_clean Hsound). by left.
Qed.

Lemma query_cold c :
  query_cold_storage fold_char loads parse_int true (fun _ => Readable) can_delete older limit c st = (Ok (map clean (take (Z.to_nat limit) (cold_rows c))), st)
  /\ StronglySorted later (cold_rows c).
Proof.
  assert ({| table := table st; files := files st; duckdb := true |} = st) as Est by (rewrite <- (so_duckdb Hsound); clear; by destruct st).
  unfold query_cold_storage. rewrite (so_duckdb Hsound). cbn [negb].
  destruct (cold_where_spec fold_char pg_uuid older c (so_trace Hsound) (so_query Hsound)) as [_ Hc].
  destruct (query_parquet_newest w_id can_delete (Some (s_start older, s_end older)) (selects_cold fold_char (build_cold_where older c)) limit (files st) (so_limit Hsound) (so_order Hsound) (so_files Hsound)) as (Hs & rows & E & Ht & Hsub).
  rewrite (list_filter_iff _ (fun r => wanted fold_char older c r = true)) in Hs, Ht, Hsub by (intros r; by rewrite Hc).
  split; [|done]. rewrite E. cbn [res_bind].
  assert (forall r, r ∈ rows -> r ∈ read_paths (files st) paths) as Hin.
  { intros r Hr. eapply sublist_subseteq in Hsub. apply Hsub, elem_newest, list_elem_of_filter in Hr as [_ Hr]. done. }
  rewrite (res_map_ok _ clean) by (intros r Hr; apply (so_clean Hsound); right; by apply Hin). cbn [res_bind].
  rewrite newest_logs_clean; [|by eapply StronglySorted_sublist|intros r Hr; right; by apply Hin].
  rewrite slice_to_nonneg by apply (so_limit Hsound). rewrite <- (fmap_take clean). rewrite Est. unfold fmap. do 3 f_equal. exact Ht.
Qed.

(** The key of the cut separates the tiers. *)
Abbreviation cut_key := (uuid7_for_timestamp cut true).

Lemma hot_above r c : s_start s < cut -> wanted fold_char newer_part c r = true -> cut_key <= w_id r.
Proof.
  intros Hs H. unfold wanted, in_time in H. cbn [s_start s_end between] in H. rewrite Z.max_r in H by lia. cbn [get_range_for_date] in H. bool_split. lia.
Qed.

Lemma cold_below r c : cut < s_end s -> wanted fold_char older c r = true -> w_id r < cut_key.
Proof.
  intros Hs H. unfold wanted, in_time in H. cbn [s_start s_end between] in H. rewrite Z.min_r in H by lia. cbn [get_range_for_date] in H. bool_split. lia.
Qed.

(** With a cursor no younger than the cut, the table has nothing more to give. *)
Lemma hot_exhausted c t : clear_of_cut -> s_start s < cut -> key_ok c -> extract_datetime c = Ok t -> t <= cut -> hot_rows (Some c) = [].
Proof.
  intros Hclear Hs Hk Ht Hle. unfold key_ok in Hk. assert (Z.shiftr c 80 * 1000 = t) as <- by congruence.
  rewrite filter_none; [done|]. apply Forall_forall. intros r Hr Hw. pose proof (hot_above r _ Hs Hw) as Ha.
  unfold wanted in Hw. cbn [before] in Hw. bool_split. destruct (Hclear r Hr) as [Hc1 Hc2]. rewrite !Z.shiftr_div_pow2 in * by lia.
  destruct (timestamp_ms_bounds cut (so_cut Hsound)) as [[Hlo _] _].
  assert (timestamp_ms cut <= w_id r / 2 ^ 80).
  { apply Z.div_le_lower_bound; [lia|]. unfold uuid7_for_timestamp in Ha. rewrite uuid_int_sum in Ha by lia. destruct (so_cut Hsound).
    assert (cut / 1000 < 2 ^ 32 * 1000) by (apply Z.div_lt_upper_bound; lia). change (Z.shiftl 1 48) with (2 ^ 48) in Ha.
    destruct (timestamp_ms_bounds cut (so_cut Hsound)) as [[_ Hhi] _]. lia. }
  assert (w_id r / 2 ^ 80 <= c / 2 ^ 80) by (apply Z.div_le_mono; lia).
  assert (c / 2 ^ 80 <= cut / 1000) by (apply Z.div_le_lower_bound; lia). lia.
Qed.

(** The answer is the table's rows and then the files'. *)
Lemma answer_split c : answer c = (if cut <? s_end s then hot_rows c else []) ++ (if s_start s <? cut then cold_rows c else []).
Proof.
  unfold answer, stored, hot_part, cold_part. rewrite filter_app. destruct (query_cold c) as [_ Hcs]. pose proof (hot_sorted c) as Hhs.
  assert (forall a b l, filter (fun r => asked c r = true) (filter (fun r => in_time (between a b s) (w_id r) = true) l) = filter (fun r => wanted fold_char (between a b s) c r = true) l) as Hf
    by (intros; by rewrite filter_wanted).
  destruct (Z.ltb_spec cut (s_end s)) as [He|He], (Z.ltb_spec (s_start s) cut) as [Hs|Hs]; rewrite ?Hf; cbn [filter app]; rewrite ?app_nil_r; try done.
  apply newest_first_unique; [unfold newest_first; by rewrite !merge_sort_Permutation|]. apply StronglySorted_app_2; [|done..].
  intros a b Ha Hb. apply (proj1 (elem_newest _ _)), list_elem_of_filter in Ha as [Ha _], Hb as [Hb _].
  pose proof (hot_above _ _ Hs Ha). pose proof (cold_below _ _ He Hb). lia.
Qed.

Lemma take_clean n (l : list RawRow) : take n (map clean l) = map clean (take n l).
Proof. symmetry. apply (fmap_take clean). Qed.

Lemma in_stores c n (l : list RawRow) : l = hot_rows c \/ l = cold_rows c -> forall r, r ∈ take n l -> r ∈ table st \/ r ∈ read_paths (files st) paths.
Proof.
  intros [-> | ->] r Hr%subseteq_take; apply (proj1 (elem_newest _ _)), list_elem_of_filter in Hr as [_ Hr]; [by left|by right].
Qed.

Lemma sorted_take n (l : list RawRow) : StronglySorted later l -> StronglySorted later (take n l).
Proof. intros H. eapply StronglySorted_sublist; [apply sublist_take|done]. Qed.

Abbreviation lim := (Z.to_nat limit).

Lemma sort_cut (l : list RawRow) : StronglySorted later l -> (forall r, r ∈ l -> r ∈ table st \/ r ∈ read_paths (files st) paths) ->
  slice_to limit (newest_logs (map clean l)) = map clean (take lim l).
Proof. intros Hs Hin. rewrite newest_logs_clean by done. rewrite slice_to_nonneg by apply (so_limit Hsound). apply take_clean. Qed.

(** Only the table, only the files, or the table first. *)
Lemma both_tiers c : cut < s_end s -> s_start s < cut ->
  match query_hot_storage fold_char pg_uuid loads parse_int newer_part limit c st with
  | Raise e => (Raise e, st)
  | Ok hot_results =>
      if true && negb (limit <=? len hot_results) then
        let '(r, st') := query_cold_storage fold_char loads parse_int true (fun _ => Readable) can_delete older limit c st in
        (res_bind r (fun cold_results => Ok (slice_to limit (newest_logs (hot_results ++ cold_results)))), st')
      else (Ok (slice_to limit (newest_logs hot_results)), st)
  end = (Ok (map clean (take lim (answer c))), st).
Proof.
  intros He Hs. rewrite query_hot. destruct (query_cold c) as [-> Hcs]. pose proof (hot_sorted c) as Hhs. cbn [andb].
  rewrite answer_split, (proj2 (Z.ltb_lt _ _) He), (proj2 (Z.ltb_lt _ _) Hs). unfold len. rewrite length_map, length_take.
  pose proof (so_limit Hsound). destruct (Z.leb_spec limit (Z.of_nat (lim `min` length (hot_rows c)))) as [Hl|Hl]; cbn [negb].
  - rewrite sort_cut; [|by apply sorted_take|by apply (in_stores c); left]. rewrite take_take, Nat.min_id. rewrite take_app_le by lia. done.
  - rewrite (take_ge (hot_rows c) lim) by lia. cbn [res_bind]. rewrite <- map_app. rewrite sort_cut.
    + rewrite !take_app, take_take. do 5 f_equal. lia.
    + apply StronglySorted_app_2; [|done|by apply sorted_take]. intros a b Ha Hb%subseteq_take.
      apply (proj1 (elem_newest _ _)), list_elem_of_filter in Ha as [Ha _], Hb as [Hb _].
      pose proof (hot_above _ _ Hs Ha). pose proof (cold_below _ _ He Hb). lia.
    + intros r [Hr|Hr]%elem_of_app; [|by apply (in_stores c lim (cold_rows c)); [right|]].
      apply (in_stores c (length (hot_rows c)) (hot_rows c)); [by left|]. by rewrite firstn_all.
Qed.

Lemma cold_only c : s_start s < cut -> hot_rows c = [] \/ s_end s <= cut ->
  (let '(r, st') := query_cold_storage fold_char loads parse_int true (fun _ => Readable) can_delete older limit c st in
   (res_bind r (fun rs => Ok (slice_to limit (newest_logs rs))), st')) = (Ok (map clean (take lim (answer c))), st).
Proof.
  intros Hs Hh. destruct (query_cold c) as [-> Hcs]. cbn [res_bind]. rewrite sort_cut; [|by apply sorted_take|by apply (in_stores c); right].
  rewrite take_take, Nat.min_id, answer_split, (proj2 (Z.ltb_lt _ _) Hs). do 4 f_equal.
  destruct Hh as [-> | Hh]; [by destruct (cut <? s_end s)|]. by rewrite (proj2 (Z.ltb_ge _ _) Hh).
Qed.

Lemma hot_only c : cut < s_end s -> cut <= s_start s ->
  match query_hot_storage fold_char pg_uuid loads parse_int newer_part limit c st with
  | Raise e => (Raise e, st)
  | Ok hot_results => (Ok (slice_to limit (newest_logs hot_results)), st)
  end = (Ok (map clean (take lim (answer c))), st).
Proof.
  intros He Hs. rewrite query_hot, sort_cut; [|apply sorted_take, hot_sorted|by apply (in_stores c); left].
  by rewrite take_take, Nat.min_id, answer_split, (proj2 (Z.ltb_lt _ _) He), (proj2 (Z.ltb_ge _ _) Hs), app_nil_r.
Qed.

Lemma combined_spec c : clear_of_cut -> (forall n, c = Some n -> key_ok n) -> query_combined c st = (Ok (map clean (take lim (answer c))), st).
Proof.
  intros Hclear Hk. unfold query_logs_combined, tiers. destruct (Z.ltb_spec cut (s_end s)) as [He|He], (Z.ltb_spec (s_start s) cut) as [Hs|Hs]; cbn [andb].
  - destruct c as [n|]; [|by apply both_tiers]. specialize (Hk n eq_refl). pose proof Hk as Hk'. unfold key_ok in Hk. rewrite Hk. cbn [res_bind].
    destruct (Z.leb_spec (Z.shiftr n 80 * 1000) cut) as [Hle|Hgt]; cbn [negb]; [|by apply both_tiers].
    apply cold_only; [done|]. left. by eapply hot_exhausted.
  - destruct c; by apply hot_only.
  - destruct c; (apply cold_only; [done|by right]).
  - rewrite answer_split, (proj2 (Z.ltb_ge _ _) He), (proj2 (Z.ltb_ge _ _) Hs). destruct c; by destruct lim.
Qed.

Lemma answer_sorted c : StronglySorted later (answer c).
Proof.
  rewrite answer_split. destruct (query_cold c) as [_ Hcs]. pose proof (hot_sorted c) as Hhs.
  destruct (Z.ltb_spec cut (s_end s)) as [He|He], (Z.ltb_spec (s_start s) cut) as [Hs|Hs]; rewrite ?app_nil_r; try done; [|constructor].
  apply StronglySorted_app_2; [|done..]. intros a b Ha Hb.
  apply (proj1 (elem_newest _ _)), list_elem_of_filter in Ha as [Ha _], Hb as [Hb _].
  pose proof (hot_above _ _ Hs Ha). pose proof (cold_below _ _ He Hb). lia.
Qed.

Lemma answer_in c r : r ∈ answer c -> r ∈ table st \/ r ∈ read_paths (files st) paths.
Proof.
  unfold answer, stored, hot_part, cold_part. intros [_ Hr]%elem_newest%list_elem_of_filter. apply elem_of_app in Hr as [Hr|Hr];
    (destruct (_ <? _); [apply list_elem_of_filter in Hr as [_ Hr]; auto|by apply not_elem_of_nil in Hr]).
Qed.

(** A cursor cuts the answer. *)
Lemma answer_before x : answer (Some x) = filter (fun r => w_id r < x) (answer None).
Proof.
  apply newest_first_unique.
  - unfold answer at 1. unfold newest_first. rewrite merge_sort_Permutation, list_filter_filter.
    apply reflexive_eq, list_filter_iff. intros r. unfold asked. cbn [before andb]. rewrite andb_true_iff, Z.ltb_lt. tauto.
  - eapply StronglySorted_sublist; [apply sublist_filter|apply answer_sorted].
Qed.
End combined.

Lemma filter_last_sorted (l1 l2 : list RawRow) x : StronglySorted later (l1 ++ x :: l2) -> filter (fun r => w_id r < w_id x) (l1 ++ x :: l2) = l2.
Proof.
  intros H. induction l1 as [|y l1 IH]; cbn [app] in *; apply StronglySorted_inv in H as [Hs Hx].
  - rewrite filter_cons, decide_False by lia. apply filter_all. exact Hx.
  - rewrite filter_cons, decide_False, IH; [done|done|]. pose proof (proj1 (Forall_forall _ _) Hx x ltac:(set_solver)). cbn in *. lia.
Qed.

(** ** Walking through the pages *)

Definition with_cursor (c : ustr) (f : Filters) : Filters :=
  {| f_project := f_project f; f_level := f_level f; f_service := f_service f; f_environment := f_environment f; f_host := f_host f; f_trace_id := f_trace_id f;
     f_query := f_query f; f_start := f_start f; f_end := f_end f; f_cursor := c; f_limit := f_limit f |}.

Section pages.
Context (fold_char : Z -> Z) (pg_uuid : ustr -> option Z) (loads : ustr -> option value) (parse_int : ustr -> option Z) (can_delete : Path -> bool) (HOT_STORAGE_DAYS : Z).
Context (now organization : Z) (st : Store).

Abbreviation list_page f := (list_logs fold_char pg_uuid loads parse_int true (fun _ => Readable) can_delete HOT_STORAGE_DAYS now organization f st).1.

(** A client that asks for the next page as long as there is one, [None] when [fuel] pages
    are not enough. *)
Fixpoint walk (fuel : nat) (f : Filters) : option (res (list LogEventRow)) :=
  match fuel with
  | O => None
  | S n =>
      match list_page f with
      | Raise e => Some (Raise e)
      | Ok p =>
          match next_cursor p with
          | None => Some (Ok (results p))
          | Some c => (fun r => res_bind r (fun rest => Ok (results p ++ rest))) <$> walk n (with_cursor c f)
          end
      end
  end.

Context (clean : RawRow -> LogEventRow) (f : Filters).
Abbreviation s := (search_of now organization f).
Abbreviation all := (answer fold_char HOT_STORAGE_DAYS now s st).
Hypothesis Hsound : sound pg_uuid loads parse_int HOT_STORAGE_DAYS clean now s st (f_limit f + 1).
Hypothesis Hclear : clear_of_cut HOT_STORAGE_DAYS now st.
Hypothesis Hlimit : 1 <= f_limit f.
Hypothesis Hkeys : forall r, r ∈ all None -> key_ok (w_id r) /\ 0 <= w_id r < 2 ^ 128.


Lemma count_hits_ok : exists n, count_hits fold_char pg_uuid (fun _ => Readable) s st = Ok n.
Proof.
  unfold count_hits, count_hot_storage. destruct (hot_where_spec fold_char pg_uuid s None) as [_ (bound & -> & _)]; [apply (so_trace _ _ _ _ _ _ _ _ _ Hsound)|].
  by eexists.
Qed.

(** A page: the first rows of the answer, and a cursor if there are more. *)
Lemma page_spec c text : (forall n, c = Some n -> key_ok n) -> decode_cursor text = c ->
  exists p, list_page (with_cursor text f) = Ok p /\ results p = map clean (take (Z.to_nat (f_limit f)) (all c)) /\
    next_cursor p = if (Z.to_nat (f_limit f) <? length (all c))%nat
                    then (fun r => encode_cursor (w_id r)) <$> last (take (Z.to_nat (f_limit f)) (all c)) else None.
Proof.
  intros Hk Hc. unfold list_logs. cbn [f_cursor with_cursor f_limit]. change (search_of now organization (with_cursor text f)) with s. rewrite Hc.
  rewrite (combined_spec _ _ _ _ _ _ clean _ _ _ _ Hsound c Hclear Hk). cbn [fst res_bind].
  set (L := f_limit f) in *. assert (slice_to L (map clean (take (Z.to_nat (L + 1)) (all c))) = map clean (take (Z.to_nat L) (all c))) as Hp.
  { rewrite slice_to_nonneg by lia. rewrite take_clean, take_take. do 2 f_equal. lia. }
  assert (L <? len (map clean (take (Z.to_nat (L + 1)) (all c))) = (Z.to_nat L <? length (all c))%nat) as Hm.
  { unfold len. rewrite length_map, length_take. apply eq_true_iff_eq. rewrite Z.ltb_lt, Nat.ltb_lt. lia. }
  rewrite Hp, Hm. destruct (match c with Some _ => _ | None => _ end) as [n|] eqn:En.
  2: { destruct c; [done|]. destruct count_hits_ok as [m Em]. by rewrite Em in En. }
  cbn [res_bind]. eexists. split; [done|]. cbn [results next_cursor]. split; [done|]. destruct (_ <? _)%nat; [|done].
  change (map clean ?l) with (clean <$> l). rewrite fmap_last. destruct (last (take _ (all c))) as [r|] eqn:El; [|done]. cbn [fmap option_fmap option_map]. apply (f_equal (fun x => Some (encode_cursor x))).
  apply (so_clean _ _ _ _ _ _ _ _ _ Hsound). eapply answer_in. apply last_Some_elem_of in El. by apply subseteq_take in El.
Qed.

Lemma walk_from n c text : (length (all c) < n)%nat -> (forall m, c = Some m -> key_ok m) -> decode_cursor text = c ->
  walk n (with_cursor text f) = Some (Ok (map clean (all c))).
Proof.
  revert c text. induction n as [|n IH]; intros c text Hn Hk Hc; [lia|]. cbn [walk].
  destruct (page_spec c text Hk Hc) as (p & -> & Hr & Hx). rewrite Hx, Hr. destruct (Nat.ltb_spec (Z.to_nat (f_limit f)) (length (all c))) as [Hm|Hm].
  2: { by rewrite take_ge by lia. }
  set (L := Z.to_nat (f_limit f)) in *. destruct (last (take L (all c))) as [r|] eqn:El.
  2: { apply last_None in El. apply (f_equal length) in El. rewrite length_take in El. unfold L in *. simpl in El. lia. }
  apply last_Some in El as [l El]. cbn [fmap option_fmap option_map].
  assert (all (Some (w_id r)) = drop L (all c)) as Hd.
  { assert (all c = l ++ r :: drop L (all c)) as Ec by (rewrite <- (take_drop L (all c)) at 1; rewrite El, <- app_assoc; done).
    pose proof (answer_sorted fold_char pg_uuid loads parse_int can_delete HOT_STORAGE_DAYS clean now s st _ Hsound c) as Hs. rewrite Ec in Hs. apply filter_last_sorted in Hs. rewrite <- Ec in Hs. rewrite <- Hs.
    rewrite (answer_before fold_char pg_uuid loads parse_int can_delete HOT_STORAGE_DAYS clean now s st _ Hsound). destruct c as [x|]; [|done].
    rewrite (answer_before fold_char pg_uuid loads parse_int can_delete HOT_STORAGE_DAYS clean now s st _ Hsound x), list_filter_filter. apply list_filter_iff_elem. intros y Hy. split; [|by intros [? _]].
    intros Hlt. split; [done|]. assert (r ∈ all (Some x)) as Hin by (rewrite Ec; set_solver).
    rewrite (answer_before fold_char pg_uuid loads parse_int can_delete HOT_STORAGE_DAYS clean now s st _ Hsound) in Hin. apply list_elem_of_filter in Hin as [Hin _]. lia. }
  assert (r ∈ all None) as Hnone.
  { assert (r ∈ all c) as H by (apply (subseteq_take L); rewrite El; set_solver). destruct c as [x|]; [|done].
    rewrite (answer_before fold_char pg_uuid loads parse_int can_delete HOT_STORAGE_DAYS clean now s st _ Hsound) in H. by apply list_elem_of_filter in H as [_ H]. }
  destruct (Hkeys r Hnone) as [Hkr Hrange].
  change (with_cursor ?t (with_cursor _ f)) with (with_cursor t f). rewrite (IH (Some (w_id r))).
  - cbn [fmap option_fmap option_map res_bind]. do 2 f_equal. rewrite Hd, <- map_app. by rewrite take_drop.
  - rewrite Hd, length_drop. unfold L in *. lia.
  - by intros m [= <-].
  - by apply decode_encode_cursor.
Qed.
End pages.

(** C22: Whoever asks for the pages of a search one after the other, while nothing is written
    and the clock stands still, gets every log that matches and lies where the search looks
    exactly once, newest first: of the table those younger than the limit of hot storage, of
    the files those older. (A log of the table past that limit that is not yet archived is
    in no page.) The search text has no percent sign, underscore or backslash, and a trace
    id, if there is one, is read alike by both databases; ids are distinct and UUIDs of
    version 7; DuckDB is there, the files can be read and follow each other in time, and so
    can their rows; no log of the table is of the millisecond at which the two meet, or of
    the one before. *)
Theorem pages_complete fold_char pg_uuid loads parse_int can_delete HOT_STORAGE_DAYS now organization st clean f fuel :
  let s := search_of now organization f in
  sound pg_uuid loads parse_int HOT_STORAGE_DAYS clean now s st (f_limit f + 1) ->
  clear_of_cut HOT_STORAGE_DAYS now st -> 1 <= f_limit f -> f_cursor f = [] ->
  (forall r, r ∈ stored HOT_STORAGE_DAYS now s st -> key_ok (w_id r) /\ 0 <= w_id r < 2 ^ 128) ->
  (length (stored HOT_STORAGE_DAYS now s st) < fuel)%nat ->
  walk fold_char pg_uuid loads parse_int can_delete HOT_STORAGE_DAYS now organization st fuel f =
    Some (Ok (map clean (newest_first w_id (filter (fun r => matches fold_char s r = true) (stored HOT_STORAGE_DAYS now s st))))).
Proof.
  cbv zeta. intros Hs Hclear Hl Hc Hk Hf. assert (with_cursor [] f = f) as Ef by (rewrite <- Hc; by destruct f).
  assert (answer fold_char HOT_STORAGE_DAYS now (search_of now organization f) st None = newest_first w_id (filter (fun r => matches fold_char (search_of now organization f) r = true) (stored HOT_STORAGE_DAYS now (search_of now organization f) st))) as Ea by done.
  assert (forall r, r ∈ answer fold_char HOT_STORAGE_DAYS now (search_of now organization f) st None -> r ∈ stored HOT_STORAGE_DAYS now (search_of now organization f) st) as Hin.
  { intros r [_ Hr]%elem_newest%list_elem_of_filter. done. }
  rewrite <- Ea, <- Ef at 1. apply walk_from; [done|done|done|by intros r Hr; apply Hk, Hin| |done|done].
  eapply Nat.le_lt_trans; [|exact Hf]. rewrite Ea. unfold newest_first. rewrite merge_sort_Permutation. apply length_filter.
Qed.

(** C30: The SQL for the table, with its placeholders, and the SQL for the files, with its
    numbered parameters, select the rows in the range of ids and before the cursor that have
    what the search asks for, whatever texts it holds. In the table the text is searched for
    as it is; in the files a percent sign, underscore or backslash in it is not (there the
    escaping of such a character is itself searched for). A trace id PostgreSQL cannot read
    is an error for the table; for the files one Python cannot read is no condition. For a
    text without those characters and a trace id both read alike the two select the same. *)
Theorem sql_selects_wanted fold_char pg_uuid s cursor_position :
  match bind pg_uuid (build_hot_where s cursor_position).1 (build_hot_where s cursor_position).2 with
  | Some bound =>
      forall r, selects_hot fold_char bound r = wanted_by (hot_trace pg_uuid (s_trace s)) (fun r => contains fold_char anywhere (s_query s) (w_body r)) s cursor_position r
  | None => s_trace s <> [] /\ pg_uuid (s_trace s) = None
  end
  /\ (forall r, selects_cold fold_char (build_cold_where s cursor_position) r =
        wanted_by (cold_trace (s_trace s)) (fun r => contains fold_char anywhere_cold (s_query s) (w_body r)) s cursor_position r)
  /\ (trace_ok pg_uuid s -> plain (s_query s) ->
      exists bound, bind pg_uuid (build_hot_where s cursor_position).1 (build_hot_where s cursor_position).2 = Some bound
        /\ forall r, selects_hot fold_char bound r = selects_cold fold_char (build_cold_where s cursor_position) r).
Proof.
  split_and!.
  - destruct (truthy (s_trace s)) eqn:Et, (pg_uuid (s_trace s)) as [n|] eqn:Ep.
    2: { rewrite hot_unbound by done. split; [by intros E; rewrite E in Et|done]. }
    all: destruct (hot_where_means fold_char pg_uuid s cursor_position) as [_ (bound & -> & Hf)]; [by intros E; rewrite E in Et || (exists n)|exact Hf].
  - apply cold_where_means.
  - intros Ht Hq. destruct (hot_where_spec fold_char pg_uuid s cursor_position Ht) as [_ (bound & Hb & Hf)].
    destruct (cold_where_spec fold_char pg_uuid s cursor_position Ht Hq) as [_ Hc]. exists bound. split; [done|]. intros r. by rewrite Hf, Hc.
Qed.

(** What the texts mean: one in the table occurs in the body, case apart; the same text with a
    percent sign asks the files for a backslash and the rest after it. *)
Example searched_texts :
  like lower_char (anywhere (u "100%")) (u "load at 100% now") = true
  /\ like lower_char (anywhere_cold (u "100%")) (u "load at 100% now") = false
  /\ like lower_char (anywhere_cold (u "100%")) (u "load at 100\ of it") = true.
Proof. split_and!; by_compute. Qed.

(** Every cell of the statistics is the sum of the counts of its hour and level. *)
Lemma zsum_split {A} (g : A -> Z) (key : A -> Z) (ks : list Z) (l : list A) : NoDup ks -> (forall x, x ∈ l -> key x ∈ ks) ->
  zsum (map (fun k => zsum (map g (filter (fun x => key x = k) l))) ks) = zsum (map g l).
Proof.
  intros Hks. induction l as [|x l IH]; intros Hl.
  - clear. induction ks as [|k ks IH]; [done|]. cbn [map]. rewrite zsum_cons, IH. done.
  - cbn [map]. rewrite zsum_cons, <- IH by (intros y Hy; apply Hl; by right). assert (key x ∈ ks) as Hx by (apply Hl; left). clear IH Hl.
    induction Hks as [|k ks Hk Hks IH]; [by apply not_elem_of_nil in Hx|]. cbn [map]. rewrite !zsum_cons, filter_cons.
    apply elem_of_cons in Hx as [Hx|Hx].
    + rewrite decide_True by done. cbn [map]. rewrite zsum_cons. subst k.
      assert (map (fun k => zsum (map g (filter (fun y => key y = k) (x :: l)))) ks = map (fun k => zsum (map g (filter (fun y => key y = k) l))) ks) as ->; [|lia].
      apply map_ext_in. intros k Hin. rewrite filter_cons, decide_False; [done|]. intros E. apply Hk. rewrite E. by apply list_elem_of_In.
    + rewrite decide_False by (intros E; by rewrite E in Hx). rewrite (IH Hx). lia.
Qed.

Lemma elem_sorted_set l x : x ∈ sorted_set l <-> x ∈ l.
Proof. unfold sorted_set. by rewrite merge_sort_Permutation, elem_of_remove_dups. Qed.

Lemma series_sum rows lv : zsum (map (fun h => total rows h lv) (sorted_set (map hour_of rows))) = zsum (map t_count (filter (fun r => t_level r = lv) rows)).
Proof.
  rewrite <- (zsum_split t_count hour_of (sorted_set (map hour_of rows)) (filter (fun r => t_level r = lv) rows)).
  - f_equal. apply map_ext. intros h. unfold total. do 2 f_equal. rewrite list_filter_filter. apply list_filter_iff. tauto.
  - unfold sorted_set. rewrite merge_sort_Permutation. apply NoDup_remove_dups.
  - intros r [_ Hr]%list_elem_of_filter. apply elem_sorted_set. by apply list_elem_of_fmap_2.
Qed.

(** ** Examples *)

Module Samples.
Definition noon : Z := days_from_civil 2025 1 15 * ONE_DAY.
Definition at_hours (h n : Z) : Z := uuid_int (timestamp_ms (noon + h * HOUR)) 0 n.
Definition row (h n : Z) (b : string) : RawRow :=
  {| w_id := at_hours h n; w_trace_id := None; w_organization_id := 1; w_project_id := 3; w_span_id := inr []; w_level := 2; w_severity_number := None; w_body := Some (u b);
     w_service := Some (u "web"); w_environment := None; w_host := None; w_data := VNone |}.
Definition org_files : OrgDir RawRow := set_file (DayPath (u "20250113.parquet")) (Some [row (-38) 1 "old"; row (-37) 2 "older error"; row (-37) 3 "100% slow"]) empty_org.
Definition store : Store := {| table := [row (-1) 4 "new error"; row (-2) 5 "100% slow"; row (-3) 6 "fine"]; files := org_files; duckdb := true |}.
Definition filters (q c : ustr) : Filters :=
  {| f_project := [3]; f_level := []; f_service := u "web"; f_environment := []; f_host := []; f_trace_id := []; f_query := q; f_start := None; f_end := None; f_cursor := c; f_limit := 2 |}.
Definition no_json (_ : ustr) : option value := None.
Definition no_int (_ : ustr) : option Z := None.
Definition readable (_ : Path) : Reading := Readable.
Definition kept (_ : Path) : bool := false.
Definition list_page (q c : ustr) (st : Store) : res Page := (list_logs lower_char uuid_of no_json no_int true readable kept 1 noon 1 (filters q c) st).1.
Definition ids (r : res Page) : res (list Z) := res_bind r (fun p => Ok (map id (results p))).
End Samples.
Import Samples.

Example pages_of_two :
  ids (list_page [] [] store) = Ok [at_hours (-1) 4; at_hours (-2) 5] /\
  ids (list_page [] (encode_cursor (at_hours (-2) 5)) store) = Ok [at_hours (-3) 6; at_hours (-37) 3] /\
  ids (list_page (u "ERROR") [] store) = Ok [at_hours (-1) 4; at_hours (-37) 2].
Proof. vm_compute. repeat split; reflexivity. Qed.

(** DuckDB knows no escape character: a text with a percent sign is found in the table only. *)
Example percent_sign : ids (list_page (u "100%") [] store) = Ok [at_hours (-2) 5].
Proof. vm_compute. reflexivity. Qed.

(** A cursor that is not a UUIDv7 ends in an error. *)
Example foreign_cursor : list_page [] (encode_cursor 7) store = Raise ValueError.
Proof. vm_compute. reflexivity. Qed.

(** So does a log id in the path. *)
Example foreign_log_id : get_log_by_id no_json no_int readable 1 noon 1 7 store = Raise ValueError.
Proof. vm_compute. reflexivity. Qed.

(** A log of the table that is past the limit of hot storage and not yet archived is in no
    list, although it is counted, and is not found by its id. *)
Example waiting_log_hidden :
  let st := {| table := [row (-25) 4 "waiting"]; files := empty_org; duckdb := true |} in
  res_bind (list_page [] [] st) (fun p => Ok (map id (results p), hits p)) = Ok ([], 1) /\
  get_log_by_id no_json no_int readable 1 noon 1 (at_hours (-25) 4) st = Ok None.
Proof. vm_compute. split; reflexivity. Qed.

(** A trace id that is none is an error for the table and no condition for the files. *)
Example bad_trace_id :
  let f := {| f_project := []; f_level := []; f_service := []; f_environment := []; f_host := []; f_trace_id := u "abc"; f_query := []; f_start := Some (noon - 48 * HOUR);
              f_end := Some (noon - 30 * HOUR); f_cursor := u "cA=="; f_limit := 9 |} in
  let page f := (list_logs lower_char uuid_of no_json no_int true readable kept 1 noon 1 f store).1 in
  page f = Raise DataError /\
  ids (page (with_cursor (encode_cursor (at_hours (-20) 0)) f)) = Ok [at_hours (-37) 3; at_hours (-37) 2; at_hours (-38) 1].
Proof. vm_compute. split; reflexivity. Qed.

(** ** Witnesses *)

Definition sample_clean (r : RawRow) : LogEventRow :=
  match _row_to_log_event no_json no_int r with
  | Ok l => l
  | Raise _ => {| id := 0; trace_id := None; organization_id := 0; project_id := 0; span_id := None; level := 0; severity_number := None; body := []; service := [];
                  environment := []; host := []; data := VNone |}
  end.

Ltac each_in H := apply list_elem_of_In in H; repeat destruct H as [<-|H]; try match goal with F : In _ _ |- _ => destruct F end.

Lemma sample_old : read_paths (files store) [DayPath (u "20250113.parquet")] = [row (-38) 1 "old"; row (-37) 2 "older error"; row (-37) 3 "100% slow"].
Proof. vm_compute. reflexivity. Qed.

Lemma sample_clean_all r : r ∈ table store \/ r ∈ [row (-38) 1 "old"; row (-37) 2 "older error"; row (-37) 3 "100% slow"] ->
  _row_to_log_event no_json no_int r = Ok (sample_clean r) /\ id (sample_clean r) = w_id r.
Proof.
  intros [H|H]; each_in H; split; vm_compute; reflexivity.
Qed.

Lemma sample_sound : sound uuid_of no_json no_int 1 sample_clean noon (search_of noon 1 (filters [] [])) store 3.
Proof.
  assert (enumerate_org_parquet_files
            (Some (s_start (between (s_start (search_of noon 1 (filters [] []))) (Z.min (s_end (search_of noon 1 (filters [] []))) (hot_cutoff 1 noon)) (search_of noon 1 (filters [] []))),
                   s_end (between (s_start (search_of noon 1 (filters [] []))) (Z.min (s_end (search_of noon 1 (filters [] []))) (hot_cutoff 1 noon)) (search_of noon 1 (filters [] []))))) (files store)
          = [DayPath (u "20250113.parquet")]) as Hp by (vm_compute; reflexivity).
  split.
  - reflexivity.
  - lia.
  - refine (proj1 (bool_decide_eq_true _) _). vm_compute. reflexivity.
  - rewrite Hp. constructor; constructor.
  - rewrite Hp. intros p ->%list_elem_of_singleton. refine (proj1 (bool_decide_eq_true _) _). vm_compute. reflexivity.
  - rewrite Hp. intros r [H|H]; apply sample_clean_all; [by left|right; by rewrite sample_old in H].
  - intros H. by destruct H.
  - intros c []%not_elem_of_nil.
  - split; vm_compute; congruence.
Qed.

Lemma pages_complete_witness :
  exists rows, walk lower_char uuid_of no_json no_int kept 1 noon 1 store 9 (filters [] []) = Some (Ok (map sample_clean rows)) /\
    map w_id rows = [at_hours (-1) 4; at_hours (-2) 5; at_hours (-3) 6; at_hours (-37) 3; at_hours (-37) 2; at_hours (-38) 1].
Proof.
  eexists. split.
  - apply (pages_complete lower_char uuid_of no_json no_int kept 1 noon 1 store sample_clean (filters [] []) 9).
    + apply sample_sound.
    + intros r H. each_in H; split; vm_compute; congruence.
    + cbn. lia.
    + reflexivity.
    + intros r H. assert (stored 1 noon (search_of noon 1 (filters [] [])) store =
        [row (-1) 4 "new error"; row (-2) 5 "100% slow"; row (-3) 6 "fine"; row (-38) 1 "old"; row (-37) 2 "older error"; row (-37) 3 "100% slow"]) as E by (vm_compute; reflexivity).
      rewrite E in H. each_in H; (split; [vm_compute; reflexivity|vm_compute; split; congruence]).
    + vm_compute. lia.
  - vm_compute. reflexivity.
Defined.

Lemma sql_selects_wanted_witness :
  let s := search_of noon 1 (filters (u "50%") []) in
  (match bind uuid_of (build_hot_where s None).1 (build_hot_where s None).2 with
   | Some bound => forall r, selects_hot lower_char bound r = wanted_by (hot_trace uuid_of (s_trace s)) (fun r => contains lower_char anywhere (s_query s) (w_body r)) s None r
   | None => s_trace s <> [] /\ uuid_of (s_trace s) = None
   end)
  /\ (forall r, selects_cold lower_char (build_cold_where s None) r =
        wanted_by (cold_trace (s_trace s)) (fun r => contains lower_char anywhere_cold (s_query s) (w_body r)) s None r).
Proof.
  intros s. destruct (sql_selects_wanted lower_char uuid_of s None) as (H1 & H2 & _). split; [exact H1|exact H2].
Defined.
