(* ===== verification/Usage.v ===== *)
(** * Usage of an organization

    The counting of what an organization uses, [EventCounts] and the periods of
    [apps/organizations_ext/models.py], the billing cycles of [apps/stripe/utils.py] and the
    usage endpoints of [apps/stripe/api.py].

    Times are microseconds, floats are ticks of 2^-80 ([PyFloat]). The addition of months
    (dateutil's [relativedelta]) is a parameter. *)
From S2P Require Import Prelude PyStr PyFloat PyDate.

(** ** Event counts *)

Record EventCounts := {
  issue_event_count : Z; transaction_count : Z; log_count : Z; uptime_check_event_count : Z; file_size : Z }.

Definition no_counts : EventCounts :=
  {| issue_event_count := 0; transaction_count := 0; log_count := 0; uptime_check_event_count := 0; file_size := 0 |}.

(** [float(n)] and the literal [0.1]. *)
Definition ONE : Z := 2 ^ 80.
Definition float_of_int (n : Z) : Z := to_double (n * ONE) 1.
Definition tenth : Z := to_double ONE 10.

(** A signed sum of floats, rounded. *)
Definition fadd (a b : Z) : Z := Z.sgn (a + b) * to_double (Z.abs (a + b)) 1.

(** [billed] of a category of weight 0.1; the others are ints. *)
Definition billed_tenth (n : Z) : Z := to_double (float_of_int n * tenth) ONE.

(** One float added by [sum], which keeps the error of the additions aside. *)
Definition cs_add (s : Z * Z) (x : Z) : Z * Z :=
  let '(hi, lo) := s in
  let t := fadd hi x in
  let c := if Z.abs x <=? Z.abs hi then fadd (fadd hi (- t)) x else fadd (fadd x (- t)) hi in
  (t, fadd lo c).

(** [sum(getattr(self, f) * w for f, w in USAGE_WEIGHTS.items())]: the first two terms are
    ints, the third turns the sum to a float. *)
Definition weighted_sum (c : EventCounts) : Z :=
  let r0 := fadd (float_of_int (issue_event_count c + transaction_count c)) (billed_tenth (log_count c)) in
  let '(hi, lo) := cs_add (cs_add (r0, 0) (billed_tenth (uptime_check_event_count c))) (float_of_int (file_size c)) in
  fadd hi lo.

Definition total_event_count (c : EventCounts) : Z := weighted_sum c / ONE.

(** ** The tables *)

(** A row of an hourly statistics table: organization, hour and count. *)
Record HourRow := { h_org : Z; h_date : Z; h_count : Z }.

(** A debug file or bundle with the size of its blob, [None] for a null. *)
Record SymbolRow := { y_org : Z; y_created : Z; y_size : option Z }.

Record Tables := {
  issue_hours : list HourRow; transaction_hours : list HourRow; log_hours : list HourRow; uptime_hours : list HourRow;
  symbol_bundles : list SymbolRow; info_files : list SymbolRow }.

Definition in_window (window : option (Z * Z)) (d : Z) : bool :=
  match window with Some (start, stop) => (start <=? d) && (d <? stop) | None => true end.

Definition sum_hours (org : Z) (window : option (Z * Z)) (rows : list HourRow) : Z :=
  zsum (map h_count (filter (fun r => h_org r = org /\ in_window window (h_date r) = true) rows)).

Definition sum_sizes (org : Z) (window : option (Z * Z)) (rows : list SymbolRow) : Z :=
  zsum (omap y_size (filter (fun r => y_org r = org /\ in_window window (y_created r) = true) rows)).

(** [int(bytes / 1000000)] *)
Definition megabytes (n : Z) : Z := to_double (n * ONE) 1000000 / ONE.

Definition get_event_counts (t : Tables) (org_id : Z) (window : option (Z * Z)) : EventCounts :=
  {| issue_event_count := sum_hours org_id window (issue_hours t);
     transaction_count := sum_hours org_id window (transaction_hours t);
     log_count := sum_hours org_id window (log_hours t);
     uptime_check_event_count := sum_hours org_id window (uptime_hours t);
     file_size := megabytes (sum_sizes org_id window (symbol_bundles t) + sum_sizes org_id window (info_files t)) |}.

(** ** Periods *)

Definition _MAX_CYCLE_MONTHS : Z := 120.
Definition SELF_HOSTED_USAGE_WINDOW_DAYS : Z := 30.

Definition rolling_period (now periods_ago : Z) : Z * Z :=
  let window := SELF_HOSTED_USAGE_WINDOW_DAYS * ONE_DAY in
  let stop := now - window * periods_ago in
  (stop - window, stop).

(** The number of the calendar month, counted from year 0. *)
Definition month_index (t : Z) : Z := let '(y, m, _) := civil_from_days (t / ONE_DAY) in y * 12 + m.

(** What organization and primary subscription say about periods. *)
Record SubscriptionDates := {
  current_period_start : Z; current_period_end : Z; subscription_cycle_start : option Z; subscription_cycle_end : option Z }.

Section cycles.
(** [t + relativedelta(months=n)] *)
Context (add_months : Z -> Z -> Z).

(** The loop of [compute_cycle]; [remaining] months are left of its cap. *)
Fixpoint cycle_loop (period_start now : Z) (remaining : nat) (month cycle_start cycle_end : Z) : Z * Z :=
  match remaining with
  | O => (cycle_start, cycle_end)
  | S remaining =>
      if cycle_end <? now then
        cycle_loop period_start now remaining (month + 1) (add_months period_start (month + 1)) (add_months period_start (month + 1 + 1))
      else (cycle_start, cycle_end)
  end.

Definition compute_cycle (now period_start period_end : Z) (is_annual : bool) : Z * Z :=
  if negb is_annual then (period_start, period_end)
  else cycle_loop period_start now (Z.to_nat _MAX_CYCLE_MONTHS) 0 period_start (add_months period_start 1).

Definition compute_cycle_n_ago (s : SubscriptionDates) (periods_ago : Z) : option (Z * Z) :=
  match subscription_cycle_start s, subscription_cycle_end s with
  | Some start, Some _ =>
      let cycle_start := add_months start (- periods_ago) in
      let cycle_end := add_months start (- (periods_ago - 1)) in
      if cycle_start <? current_period_start s then None else Some (cycle_start, cycle_end)
  | _, _ => Some (add_months (current_period_start s) (- periods_ago), add_months (current_period_start s) (- (periods_ago - 1)))
  end.

Definition get_free_tier_cycle (now created periods_ago : Z) : Z * Z :=
  let current_index :=
    if now <? created then 0
    else
      let current_index := month_index now - month_index created in
      if now <? add_months created current_index then current_index - 1 else current_index in
  let index := current_index - periods_ago in
  (add_months created index, add_months created (index + 1)).

Definition get_current_period_dates (BILLING_ENABLED : bool) (now created : Z) (sub : option SubscriptionDates) (periods_ago : Z)
    : option (Z * Z) :=
  if negb BILLING_ENABLED then Some (rolling_period now periods_ago)
  else
    match sub with
    | Some s =>
        if periods_ago =? 0 then
          Some (default (current_period_start s) (subscription_cycle_start s), default (current_period_end s) (subscription_cycle_end s))
        else compute_cycle_n_ago s periods_ago
    | None => Some (get_free_tier_cycle now created periods_ago)
    end.

(** ** The usage endpoints *)

Inductive Answer (A : Type) := NotFound | BadRequest | Answered (a : A).

Record UsageRequest := {
  (** the organization of the slug with a membership of the user *)
  r_org : option Z; r_created : Z; r_sub : option SubscriptionDates; r_periods_ago : Z }.

Record Usage := { u_total : Z; u_events : Z; u_transactions : Z; u_uptime : Z; u_logs : Z; u_files : Z }.

Definition usage_response (c : EventCounts) : Usage :=
  {| u_total := total_event_count c; u_events := issue_event_count c; u_transactions := transaction_count c;
     u_uptime := billed_tenth (uptime_check_event_count c); u_logs := billed_tenth (log_count c); u_files := file_size c |}.

Definition subscription_events_count_for_period (BILLING_ENABLED : bool) (GLITCHTIP_RETENTION_DAYS now : Z) (t : Tables) (r : UsageRequest)
    : Answer Usage :=
  let retention_days := Z.max 30 GLITCHTIP_RETENTION_DAYS in
  if retention_days <? r_periods_ago r * 30 then BadRequest _
  else
    match r_org r with
    | None => NotFound _
    | Some org =>
        match get_current_period_dates BILLING_ENABLED now (r_created r) (r_sub r) (r_periods_ago r) with
        | None => Answered _ (usage_response no_counts)
        | Some period => Answered _ (usage_response (get_event_counts t org (Some period)))
        end
    end.

(** The sums per day of one table, as the dictionary [{day: total}]. *)
Definition collect (org : Z) (window : Z * Z) (rows : list HourRow) (day : Z) : Z :=
  zsum (map h_count (filter (fun r => (h_org r = org /\ in_window (Some window) (h_date r) = true) /\ h_date r / ONE_DAY = day) rows)).

Record DayEntry := { d_date : Z; d_events : Z; d_transactions : Z; d_uptime : Z; d_logs : Z }.

Definition day_counts (org : Z) (window : Z * Z) (t : Tables) (day : Z) : EventCounts :=
  {| issue_event_count := collect org window (issue_hours t) day; transaction_count := collect org window (transaction_hours t) day;
     log_count := collect org window (log_hours t) day; uptime_check_event_count := collect org window (uptime_hours t) day; file_size := 0 |}.

Definition day_entry (org : Z) (window : Z * Z) (t : Tables) (day : Z) : DayEntry :=
  let c := day_counts org window t day in
  {| d_date := day; d_events := issue_event_count c; d_transactions := transaction_count c;
     d_uptime := billed_tenth (uptime_check_event_count c); d_logs := billed_tenth (log_count c) |}.

(** The days of the loop, from the first to the smaller of today and the last. *)
Definition days_shown (now : Z) (window : Z * Z) : list Z :=
  let period_start_date := window.1 / ONE_DAY in
  let period_end_date := Z.min (window.2 / ONE_DAY) (now / ONE_DAY) in
  seqZ period_start_date (period_end_date + 1 - period_start_date).

Definition subscription_events_count_daily (BILLING_ENABLED : bool) (now : Z) (t : Tables) (r : UsageRequest) : Answer (list DayEntry) :=
  match r_org r with
  | None => NotFound _
  | Some org =>
      match get_current_period_dates BILLING_ENABLED now (r_created r) (r_sub r) 0 with
      | None => Answered _ []
      | Some window => Answered _ (map (day_entry org window t) (days_shown now window))
      end
  end.
End cycles.

(** ** Calendar months *)

(** The first day of the month with this index. *)
Definition month_first (i : Z) : Z :=
  let y := (i - 3) / 12 in
  365 * y + y / 4 - y / 100 + y / 400 + (153 * ((i - 3) mod 12) + 2) / 5 - 719468.

Lemma days_month_first y m d : 1 <= m <= 12 -> days_from_civil y m d = month_first (12 * y + m) + (d - 1).
Proof.
  intros Hm. unfold days_from_civil, month_first.
  replace ((12 * y + m - 3) / 12) with (if m <=? 2 then y - 1 else y) by (destruct (m <=? 2) eqn:E; dlia).
  replace ((12 * y + m - 3) mod 12) with (if m <=? 2 then m + 9 else m - 3) by (destruct (m <=? 2) eqn:E; dlia).
  set (Y := if m <=? 2 then y - 1 else y). set (mp := if m <=? 2 then m + 9 else m - 3). clearbody Y mp.
  assert (Y / 4 = (Y - Y / 400 * 400) / 4 + Y / 400 * 100) by dlia.
  assert (Y / 100 = (Y - Y / 400 * 400) / 100 + Y / 400 * 4) by dlia. lia.
Qed.

Lemma month_first_next y m : 1 <= m <= 12 -> month_first (12 * y + m) + days_in_month y m <= month_first (12 * y + m + 1).
Proof.
  intros Hm. unfold month_first, days_in_month.
  assert (m = 2 \/ m <> 2) as [->|H2] by lia.
  - replace ((12 * y + 2 - 3) / 12) with (y - 1) by dlia. replace ((12 * y + 2 - 3) mod 12) with 11 by dlia.
    replace ((12 * y + 2 + 1 - 3) / 12) with y by dlia. replace ((12 * y + 2 + 1 - 3) mod 12) with 0 by dlia.
    change (2 =? 2) with true. cbn iota. destruct (_ && _) eqn:E; [|dlia]. bool_split; dlia.
  - replace ((12 * y + m + 1 - 3) / 12) with ((12 * y + m - 3) / 12) by dlia.
    replace ((12 * y + m + 1 - 3) mod 12) with ((12 * y + m - 3) mod 12 + 1) by dlia.
    replace ((12 * y + m - 3) mod 12) with (if m <=? 2 then m + 9 else m - 3) by (destruct (m <=? 2) eqn:E; dlia).
    replace (m =? 2) with false by lia.
    assert (m = 1 \/ m = 3 \/ m = 4 \/ m = 5 \/ m = 6 \/ m = 7 \/ m = 8 \/ m = 9 \/ m = 10 \/ m = 11 \/ m = 12) as Hc by lia.
    generalize ((12 * y + m - 3) / 12) as q. intros q.
    repeat destruct Hc as [->|Hc]; [..|subst m]; cbv [Z.leb Z.eqb Z.compare Pos.compare Pos.compare_cont orb Pos.eqb]; dlia.
Qed.

Lemma month_first_mono i j : i <= j -> month_first i <= month_first j.
Proof.
  intros H. replace j with (i + Z.of_nat (Z.to_nat (j - i))) by lia. generalize (Z.to_nat (j - i)) as n. clear H j.
  induction n as [|n IH]; [by rewrite Z.add_0_r|]. etrans; [exact IH|]. set (k := i + Z.of_nat n) in *.
  replace (i + Z.of_nat (S n)) with (k + 1) by lia. pose proof (month_first_next ((k - 1) / 12) ((k - 1) mod 12 + 1) ltac:(dlia)) as H.
  replace (12 * ((k - 1) / 12) + ((k - 1) mod 12 + 1)) with k in H by dlia.
  assert (28 <= days_in_month ((k - 1) / 12) ((k - 1) mod 12 + 1)) by (unfold days_in_month; repeat case_match; lia). lia.
Qed.

Lemma month_days_of i a : month_first i <= a < month_first (i + 1) -> forall j, month_first j <= a < month_first (j + 1) -> i = j.
Proof.
  intros Hi j Hj. destruct (decide (i + 1 <= j)) as [H|]; [pose proof (month_first_mono _ _ H); lia|].
  destruct (decide (j + 1 <= i)) as [H|]; [pose proof (month_first_mono _ _ H); lia|lia].
Qed.

Lemma month_index_spec t : month_first (month_index t) <= t / ONE_DAY < month_first (month_index t + 1).
Proof.
  unfold month_index. pose proof (civil_spec (t / ONE_DAY)) as H. destruct (civil_from_days (t / ONE_DAY)) as [[y m] d].
  destruct H as (Hm & Hd & E & _). rewrite (days_month_first _ _ _ Hm) in E. pose proof (month_first_next y m Hm).
  replace (y * 12 + m) with (12 * y + m) by ring. lia.
Qed.

(** Later months have later times. *)
Lemma month_index_lt a b : month_index a < month_index b -> a < b.
Proof.
  intros H. pose proof (month_index_spec a). pose proof (month_index_spec b).
  pose proof (month_first_mono (month_index a + 1) (month_index b) ltac:(lia)).
  assert (a / ONE_DAY < b / ONE_DAY) by lia. destruct (decide (b <= a)) as [Hba|]; [|lia].
  pose proof (Z.div_le_mono b a ONE_DAY ltac:(done) Hba). lia.
Qed.

(** The addition of months that clamps the day. *)
Definition calendar_add_months (t n : Z) : Z :=
  let '(y, m, d) := civil_from_days (t / ONE_DAY) in
  let i := y * 12 + m - 1 + n in
  let y' := i / 12 in
  let m' := i mod 12 + 1 in
  days_from_civil y' m' (Z.min d (days_in_month y' m')) * ONE_DAY + t mod ONE_DAY.

Lemma calendar_add_months_index t n : month_index (calendar_add_months t n) = month_index t + n.
Proof.
  symmetry. apply (month_days_of _ (calendar_add_months t n / ONE_DAY)); [|apply month_index_spec].
  unfold calendar_add_months. unfold month_index. pose proof (civil_spec (t / ONE_DAY)) as H. destruct (civil_from_days (t / ONE_DAY)) as [[y m] d].
  destruct H as (Hm & Hd & _). set (i := y * 12 + m - 1 + n). set (y' := i / 12). set (m' := i mod 12 + 1).
  assert (1 <= m' <= 12) as Hm' by (subst m'; dlia). assert (y * 12 + m + n = 12 * y' + m') as -> by (subst i y' m'; dlia).
  rewrite Z.div_add_l, (Z.div_small (t mod ONE_DAY)), Z.add_0_r by (try apply Z.mod_pos_bound; done).
  rewrite days_month_first by done. pose proof (month_first_next y' m' Hm').
  assert (28 <= days_in_month y' m') by (unfold days_in_month; repeat case_match; lia). lia.
Qed.

(** ** Cycles *)

Section cycle_lemmas.
Context (add_months : Z -> Z -> Z).
Hypothesis add_months_index : forall t n, month_index (add_months t n) = month_index t + n.

Lemma add_months_lt t a b : a < b -> add_months t a < add_months t b.
Proof. intros H. apply month_index_lt. rewrite !add_months_index. lia. Qed.

Lemma cycle_loop_covers ps now remaining month :
  0 <= month -> now <= add_months ps (month + Z.of_nat remaining + 1) ->
  month = 0 \/ add_months ps month < now ->
  exists k, month <= k <= month + Z.of_nat remaining /\
    cycle_loop add_months ps now remaining month (add_months ps month) (add_months ps (month + 1)) = (add_months ps k, add_months ps (k + 1)) /\
    now <= add_months ps (k + 1) /\ (k = 0 \/ add_months ps k < now).
Proof.
  revert month. induction remaining as [|n IH]; intros month Hm Hend Hstart; simpl.
  - exists month. rewrite Z.add_0_r in Hend. split_and!; [lia|lia|done|done|done].
  - destruct (_ <? now) eqn:E; bool_split.
    + destruct (IH (month + 1)) as (k & ? & ? & ? & ?); [lia|by replace (month + 1 + Z.of_nat n + 1) with (month + Z.of_nat (S n) + 1) by lia|by right|].
      exists k. split_and!; [lia|lia|done|done|done].
    + exists month. split_and!; [lia|lia|done|done|done].
Qed.

(** The virtual monthly cycle of an annual plan: when at most 121 months have passed since
    the start of the paid year, [compute_cycle] gives a month, a whole number of months after
    the start, that the present lies in; a monthly plan keeps Stripe's period. *)
Theorem annual_cycle_covers_now (now period_start period_end : Z) :
  add_months period_start 0 = period_start ->
  period_start <= now <= add_months period_start (_MAX_CYCLE_MONTHS + 1) ->
  compute_cycle add_months now period_start period_end false = (period_start, period_end) /\
  exists k, 0 <= k <= _MAX_CYCLE_MONTHS /\
    compute_cycle add_months now period_start period_end true = (add_months period_start k, add_months period_start (k + 1)) /\
    add_months period_start k <= now <= add_months period_start (k + 1) /\ add_months period_start k < add_months period_start (k + 1).
Proof.
  intros H0 [Hs He]. split; [done|]. unfold compute_cycle. cbn [negb].
  destruct (cycle_loop_covers period_start now (Z.to_nat _MAX_CYCLE_MONTHS) 0) as (k & Hk & E & Hn & Hb); [lia|exact He|by left|].
  rewrite H0 in E. exists k. split_and!; [lia|unfold _MAX_CYCLE_MONTHS in *; lia|exact E| |done|apply add_months_lt; lia].
  destruct Hb as [->|?]; [by rewrite H0|lia].
Qed.

Lemma free_cycle_now now created : created <= now ->
  let '(start, stop) := get_free_tier_cycle add_months now created 0 in start <= now < stop.
Proof.
  intros H. unfold get_free_tier_cycle. replace (now <? created) with false by lia. rewrite !Z.sub_0_r.
  destruct (now <? _) eqn:E; bool_split.
  - rewrite Z.sub_add. split; [|done]. apply Z.lt_le_incl, month_index_lt. rewrite add_months_index. lia.
  - split; [done|]. apply month_index_lt. rewrite add_months_index. lia.
Qed.


(** The usage cycles of an organization without a subscription: the current one contains
    the present, each starts where the one before it stops, and none is empty, so every moment
    since the sign-up is in exactly one. *)
Theorem free_tier_cycles (now created : Z) : created <= now ->
  (let '(start, stop) := get_free_tier_cycle add_months now created 0 in start <= now < stop) /\
  forall n, (get_free_tier_cycle add_months now created (n + 1)).2 = (get_free_tier_cycle add_months now created n).1 /\
    (get_free_tier_cycle add_months now created n).1 < (get_free_tier_cycle add_months now created n).2.
Proof.
  intros H. split; [by apply free_cycle_now|]. intros n. unfold get_free_tier_cycle. cbn [fst snd]. split; [f_equal; lia|apply add_months_lt; lia].
Qed.
End cycle_lemmas.

(** ** The daily series *)

Lemma zsum_day_split (l : list HourRow) (days : list Z) : NoDup days -> (forall r, r ∈ l -> h_date r / ONE_DAY ∈ days) ->
  zsum (map (fun day => zsum (map h_count (filter (fun r => h_date r / ONE_DAY = day) l))) days) = zsum (map h_count l).
Proof.
  intros Hnd. induction l as [|r l IH]; intros Hin.
  - clear. induction days; [done|]. by rewrite map_cons, zsum_cons, IHdays.
  - rewrite map_cons, zsum_cons, <- IH by (intros; apply Hin; by right). clear IH.
    assert (h_date r / ONE_DAY ∈ days) as Hr by (apply Hin; left). clear Hin.
    induction days as [|day days IH]; [by apply elem_of_nil in Hr|]. apply NoDup_cons in Hnd as [Hd Hnd].
    rewrite !map_cons, !zsum_cons, filter_cons. destruct (decide (h_date r / ONE_DAY = day)) as [E|E].
    + rewrite map_cons, zsum_cons, <- !Z.add_assoc. f_equal. f_equal. f_equal. apply list_fmap_ext. intros i d Hi. rewrite filter_cons, decide_False; [done|].
      intros E'. apply Hd. rewrite <- E, E'. by apply list_elem_of_lookup_2 in Hi.
    + rewrite IH; [lia|done|]. by apply elem_of_cons in Hr as [Hr|Hr].
Qed.

(** No row of the organization in the window is of a later day than today. *)
Definition no_future (now org : Z) (window : Z * Z) (rows : list HourRow) : Prop :=
  forall r, r ∈ rows -> h_org r = org -> in_window (Some window) (h_date r) = true -> h_date r / ONE_DAY <= now / ONE_DAY.

Lemma collect_sums now org window rows : no_future now org window rows ->
  zsum (map (collect org window rows) (days_shown now window)) = sum_hours org (Some window) rows.
Proof.
  intros Hf. unfold sum_hours. set (l := filter _ rows). rewrite <- (zsum_day_split l (days_shown now window)).
  - f_equal. apply map_ext. intros day. unfold collect. do 2 f_equal. subst l. rewrite list_filter_filter. apply list_filter_iff. naive_solver.
  - apply NoDup_seqZ.
  - intros r [[Ho Hw] Hr]%list_elem_of_filter. specialize (Hf r Hr Ho Hw). unfold in_window in Hw. bool_split.
    unfold days_shown. apply elem_of_seqZ.
    pose proof (Z.div_le_mono window.1 (h_date r) ONE_DAY). pose proof (Z.div_le_mono (h_date r) window.2 ONE_DAY).
    destruct window as [start stop]; cbn [fst snd] in *. bool_split. assert (0 < ONE_DAY) by done. lia.
Qed.

(** The daily series of the current period: the raw counts of its days add up to the
    counts of the period in every category, as long as no row lies in the future; the entries
    are the billed values of those counts. *)
Theorem daily_series_adds_up add_months BILLING_ENABLED now t r org window entries :
  r_org r = Some org -> get_current_period_dates add_months BILLING_ENABLED now (r_created r) (r_sub r) 0 = Some window ->
  no_future now org window (issue_hours t) -> no_future now org window (transaction_hours t) ->
  no_future now org window (log_hours t) -> no_future now org window (uptime_hours t) ->
  subscription_events_count_daily add_months BILLING_ENABLED now t r = Answered _ entries ->
  let c := get_event_counts t org (Some window) in
  let days := days_shown now window in
  map d_date entries = days /\
  zsum (map d_events entries) = issue_event_count c /\ zsum (map d_transactions entries) = transaction_count c /\
  exists logs checks, zsum logs = log_count c /\ map d_logs entries = map billed_tenth logs /\
    zsum checks = uptime_check_event_count c /\ map d_uptime entries = map billed_tenth checks.
Proof.
  intros Ho Hw H1 H2 H3 H4 E. unfold subscription_events_count_daily in E. rewrite Ho, Hw in E.
  set (days := days_shown now window) in *. injection E as <-. cbn zeta. rewrite !map_map. cbn [day_entry d_date d_events d_transactions d_uptime d_logs day_counts issue_event_count transaction_count log_count uptime_check_event_count].
  split_and!; [by rewrite map_id|by apply collect_sums|by apply collect_sums|].
  exists (map (collect org window (log_hours t)) days), (map (collect org window (uptime_hours t)) days). rewrite !map_map.
  split_and!; [by apply collect_sums|done|by apply collect_sums|done].
Qed.

(** ** The floats of the total *)

Lemma fadd_err a b : Z.abs (a + b) < 2 ^ 124 -> Z.abs (fadd a b - (a + b)) <= 2 ^ 70.
Proof.
  intros H. unfold fadd. pose proof (to_double_error (Z.abs (a + b)) 1 ltac:(lia)) as He.
  pose proof (spacing_le (Z.abs (a + b)) 1 123 ltac:(lia) ltac:(lia) ltac:(lia)) as Hs. rewrite Z.mul_1_l in Hs. specialize (Hs H).
  change (2 ^ (123 - 52)) with (2 * 2 ^ 70) in Hs. rewrite Z.mul_1_r, Z.mul_1_l in He.
  pose proof (to_double_nonneg (Z.abs (a + b)) 1 ltac:(lia) ltac:(lia)).
  set (d := to_double _ _) in *. set (p := 2 ^ 70) in *. clearbody d p.
  destruct (Z.sgn_spec (a + b)) as [[? ->]|[[? ->]|[? ->]]]; lia.
Qed.

Lemma cs_add_err hi lo x : Z.abs hi < 2 ^ 122 -> Z.abs x < 2 ^ 122 -> Z.abs lo <= 2 ^ 100 ->
  let '(h, l) := cs_add (hi, lo) x in
  Z.abs (h + l - (hi + lo + x)) <= 3 * 2 ^ 70 /\ Z.abs (h - (hi + x)) <= 2 ^ 70 /\ Z.abs (l - lo) <= 4 * 2 ^ 70.
Proof.
  intros Hh Hx Hl. unfold cs_add.
  change (2 ^ 122) with (2 ^ 52 * 2 ^ 70) in *. change (2 ^ 100) with (2 ^ 30 * 2 ^ 70) in *.
  pose proof (fadd_err hi x) as E1. change (2 ^ 124) with (2 ^ 54 * 2 ^ 70) in *.
  assert (forall a b, Z.abs (a + b) < 2 ^ 54 * 2 ^ 70 -> Z.abs (fadd a b - (a + b)) <= 2 ^ 70) as F by exact fadd_err.
  set (p := 2 ^ 70) in *. assert (0 < p) by done. clearbody p.
  specialize (E1 ltac:(lia)). set (t := fadd hi x) in *. clearbody t.
  destruct (_ <=? _).
  - pose proof (F hi (- t) ltac:(lia)) as E2. set (v := fadd hi (- t)) in *. clearbody v.
    pose proof (F v x ltac:(lia)) as E3. set (w := fadd v x) in *. clearbody w.
    pose proof (F lo w ltac:(lia)) as E4. lia.
  - pose proof (F x (- t) ltac:(lia)) as E2. set (v := fadd x (- t)) in *. clearbody v.
    pose proof (F v hi ltac:(lia)) as E3. set (w := fadd v hi) in *. clearbody w.
    pose proof (F lo w ltac:(lia)) as E4. lia.
Qed.

(** A count in the range of the theorem. *)
Definition small (n : Z) : Prop := 0 <= n < 2 ^ 40.

Lemma float_of_int_exact n : 0 <= n < 2 ^ 53 -> float_of_int n = n * ONE.
Proof. intros H. apply to_double_exact; [lia|done]. Qed.

Lemma billed_tenth_err n : small n -> Z.abs (10 * billed_tenth n - n * ONE) <= 2 ^ 68 /\ 0 <= billed_tenth n.
Proof.
  intros [H0 H1]. unfold billed_tenth. rewrite float_of_int_exact by (change (2 ^ 53) with (2 ^ 13 * 2 ^ 40); lia).
  assert (tenth = 120892581961462924181504) as -> by by_compute.
  split; [|apply to_double_nonneg; [unfold ONE; nia|done]].
  pose proof (to_double_error (n * ONE * 120892581961462924181504) ONE ltac:(done)) as He.
  pose proof (spacing_le (n * ONE * 120892581961462924181504) ONE 116 ltac:(unfold ONE; nia) ltac:(done) ltac:(lia)) as Hs.
  specialize (Hs ltac:(change (2 ^ (116 + 1)) with (2 ^ 40 * 2 ^ 77); unfold ONE; change (2 ^ 77) with 151115727451828646838272; nia)).
  set (b := to_double _ _) in *. set (s := spacing _ _) in *. clearbody b s.
  assert (2 * Z.abs (b - n * 120892581961462924181504) <= s) as Hb.
  { apply (Z.mul_le_mono_pos_l _ _ ONE); [done|]. revert He. unfold ONE. lia. }
  revert Hs Hb H1. unfold ONE. change (2 ^ (116 - 52)) with (2 ^ 64). lia.
Qed.

(** The exact total in tenths. *)
Definition tenths (c : EventCounts) : Z :=
  10 * (issue_event_count c + transaction_count c + file_size c) + log_count c + uptime_check_event_count c.

Definition small_counts (c : EventCounts) : Prop :=
  small (issue_event_count c) /\ small (transaction_count c) /\ small (log_count c) /\ small (uptime_check_event_count c) /\ small (file_size c).

Lemma weighted_sum_err c : small_counts c -> Z.abs (10 * weighted_sum c - tenths c * ONE) <= 2 ^ 78.
Proof.
  intros (Hi & Ht & Hl & Hu & Hf). unfold weighted_sum, tenths.
  destruct (billed_tenth_err _ Hl) as [El Bl]. destruct (billed_tenth_err _ Hu) as [Eu Bu].
  set (l := billed_tenth (log_count c)) in *. set (w := billed_tenth (uptime_check_event_count c)) in *. clearbody l w.
  unfold small in *. rewrite !float_of_int_exact by (change (2 ^ 53) with (2 ^ 13 * 2 ^ 40); lia).
  change (2 ^ 40) with 1099511627776 in *. unfold ONE in *.
  pose proof (fadd_err ((issue_event_count c + transaction_count c) * 2 ^ 80) l ltac:(lia)) as E0.
  set (r0 := fadd _ l) in *. clearbody r0.
  pose proof (cs_add_err r0 0 w ltac:(lia) ltac:(lia) ltac:(lia)) as E1. destruct (cs_add (r0, 0) w) as [h1 l1]. destruct E1 as (E1 & E1h & E1l).
  pose proof (cs_add_err h1 l1 (file_size c * 2 ^ 80) ltac:(lia) ltac:(lia) ltac:(lia)) as E2.
  destruct (cs_add (h1, l1) _) as [h2 l2]. destruct E2 as (E2 & E2h & E2l).
  pose proof (fadd_err h2 l2 ltac:(lia)) as E3. lia.
Qed.

(** C23: the billed total is the floor of the exact weighted sum, however the floats round: with
    counts below 2^40 it never exceeds the exact sum, misses it by at most one, and is exactly
    its floor unless the sum is whole. *)
Theorem total_within_one (c : EventCounts) : small_counts c ->
  10 * total_event_count c <= tenths c <= 10 * total_event_count c + 10 /\
  (tenths c mod 10 <> 0 -> total_event_count c = tenths c / 10).
Proof.
  intros H. pose proof (weighted_sum_err c H) as E. unfold total_event_count. set (r := weighted_sum c) in *. clearbody r.
  set (T := tenths c) in *. clearbody T. unfold ONE in *. clear H. split; [split; dlia|]. intros Hm. dlia.
Qed.

(** ** Witnesses and findings *)

Lemma total_within_one_witness :
  let c := {| issue_event_count := 5; transaction_count := 0; log_count := 43; uptime_check_event_count := 8; file_size := 2 |} in
  small_counts c /\ total_event_count c = 12 /\ 10 * total_event_count c <= tenths c <= 10 * total_event_count c + 10.
Proof.
  cbn zeta. split; [unfold small_counts, small; cbn; lia|]. split; [by_compute|].
  apply (total_within_one {| issue_event_count := 5; transaction_count := 0; log_count := 43; uptime_check_event_count := 8; file_size := 2 |}).
  unfold small_counts, small; cbn; lia.
Defined.

Definition day (y m d : Z) : Z := days_from_civil y m d * ONE_DAY.

Lemma annual_cycle_covers_now_witness :
  exists k, 0 <= k <= _MAX_CYCLE_MONTHS /\
    compute_cycle calendar_add_months (day 2025 4 10) (day 2025 1 31) (day 2026 1 31) true
      = (calendar_add_months (day 2025 1 31) k, calendar_add_months (day 2025 1 31) (k + 1)).
Proof.
  destruct (annual_cycle_covers_now calendar_add_months calendar_add_months_index (day 2025 4 10) (day 2025 1 31) (day 2026 1 31))
    as [_ (k & Hk & E & _)]; [by_compute|split; vm_compute; discriminate|]. exists k. split; [exact Hk|exact E].
Defined.

Lemma free_tier_cycles_witness :
  get_free_tier_cycle calendar_add_months (day 2025 3 10) (day 2024 1 31) 0 = (day 2025 2 28, day 2025 3 31) /\
  forall n, (get_free_tier_cycle calendar_add_months (day 2025 3 10) (day 2024 1 31) (n + 1)).2
    = (get_free_tier_cycle calendar_add_months (day 2025 3 10) (day 2024 1 31) n).1.
Proof.
  split; [by_compute|]. intros n.
  apply (free_tier_cycles calendar_add_months calendar_add_months_index (day 2025 3 10) (day 2024 1 31)). vm_compute; discriminate.
Defined.

Definition hour (d count : Z) : HourRow := {| h_org := 1; h_date := d; h_count := count |}.

Definition sample_tables : Tables :=
  {| issue_hours := [hour (day 2025 3 1 + ONE_HOUR) 5; hour (day 2025 3 9) 2; hour (day 2025 2 1) 9]; transaction_hours := [];
     log_hours := [hour (day 2025 3 2) 43]; uptime_hours := [hour (day 2025 3 2) 8];
     symbol_bundles := [{| y_org := 1; y_created := day 2025 3 3; y_size := Some 2500000 |}]; info_files := [] |}.

Definition sample_request : UsageRequest :=
  {| r_org := Some 1; r_created := day 2024 1 31; r_sub := None; r_periods_ago := 0 |}.

Definition sample_window : Z * Z := (day 2025 2 28, day 2025 3 31).

Lemma daily_series_adds_up_witness :
  zsum (map d_events (map (day_entry 1 sample_window sample_tables) (days_shown (day 2025 3 10) sample_window))) = 7.
Proof.
  assert (forall rows, forallb (fun r => h_date r / ONE_DAY <=? day 2025 3 10 / ONE_DAY) rows = true -> no_future (day 2025 3 10) 1 sample_window rows) as Hf.
  { intros rows H r Hr _ _. apply Z.leb_le. apply list_elem_of_In in Hr. exact (proj1 (List.forallb_forall _ _) H r Hr). }
  destruct (daily_series_adds_up calendar_add_months true (day 2025 3 10) sample_tables sample_request 1 sample_window
    (map (day_entry 1 sample_window sample_tables) (days_shown (day 2025 3 10) sample_window))) as (_ & E & _).
  - reflexivity.
  - by_compute.
  - apply Hf. by_compute.
  - apply Hf. by_compute.
  - apply Hf. by_compute.
  - apply Hf. by_compute.
  - by_compute.
  - rewrite E. by_compute.
Defined.

(** The daily series leaves the files out, which the total of the period counts. *)
Example daily_series_without_files :
  let c := get_event_counts sample_tables 1 (Some sample_window) in
  total_event_count c = 14 /\ file_size c = 2 /\ issue_event_count c = 7 /\
  Forall (fun d => file_size (day_counts 1 sample_window sample_tables d) = 0) (days_shown (day 2025 3 10) sample_window).
Proof. cbn zeta. split_and!; [by_compute..|]. by apply Forall_forall. Qed.

(** A monthly subscription has no usage history: its stored cycle is Stripe's period, and
    every earlier one starts before the period, which is taken for the start of the plan. *)
Lemma monthly_history_lost add_months now s e n :
  (forall t n, month_index (add_months t n) = month_index t + n) -> 0 < n ->
  compute_cycle add_months now s e false = (s, e) /\
  compute_cycle_n_ago add_months
    {| current_period_start := s; current_period_end := e; subscription_cycle_start := Some s; subscription_cycle_end := Some e |} n = None.
Proof.
  intros H Hn. split; [done|]. unfold compute_cycle_n_ago. cbn [subscription_cycle_start subscription_cycle_end current_period_start].
  assert (add_months s (- n) < s) as Hlt by (apply month_index_lt; rewrite H; lia). by replace (add_months s (- n) <? s) with true by lia.
Qed.

(** The first month of an annual plan that starts on the 31st is lost in February: the cycle
    before is counted back from the 28th. *)
Example clamped_history_lost :
  let start := day 2025 1 31 in
  let cycle := compute_cycle calendar_add_months (day 2025 3 10) start (day 2026 1 31) true in
  cycle = (day 2025 2 28, day 2025 3 31) /\
  compute_cycle_n_ago calendar_add_months
    {| current_period_start := start; current_period_end := day 2026 1 31; subscription_cycle_start := Some cycle.1; subscription_cycle_end := Some cycle.2 |} 1 = None.
Proof. split; by_compute. Qed.
