(* ===== verification/PyHash.v ===== *)
(** * Hashes of the standard library

    SHA-256 and HMAC as [hashlib] and [hmac] compute them, on lists of bytes. *)
From S2P Require Import Prelude PyStr.

Definition word (x : Z) : Z := Z.land x 4294967295.
Definition rotr (n x : Z) : Z := Z.lor (Z.shiftr x n) (word (Z.shiftl x (32 - n))).
Definition xor3 (a b c : Z) : Z := Z.lxor (Z.lxor a b) c.

Definition round_constants : list Z :=
  [1116352408; 1899447441; 3049323471; 3921009573; 961987163; 1508970993; 2453635748; 2870763221; 3624381080; 310598401;
   607225278; 1426881987; 1925078388; 2162078206; 2614888103; 3248222580; 3835390401; 4022224774; 264347078; 604807628;
   770255983; 1249150122; 1555081692; 1996064986; 2554220882; 2821834349; 2952996808; 3210313671; 3336571891; 3584528711;
   113926993; 338241895; 666307205; 773529912; 1294757372; 1396182291; 1695183700; 1986661051; 2177026350; 2456956037;
   2730485921; 2820302411; 3259730800; 3345764771; 3516065817; 3600352804; 4094571909; 275423344; 430227734; 506948616;
   659060556; 883997877; 958139571; 1322822218; 1537002063; 1747873779; 1955562222; 2024104815; 2227730452; 2361852424;
   2428436474; 2756734187; 3204031479; 3329325298].

Definition initial_state : list Z :=
  [1779033703; 3144134277; 1013904242; 2773480762; 1359893119; 2600822924; 528734635; 1541459225].

(** The message schedule, the latest word first. *)
Fixpoint extend (n : nat) (w : list Z) : list Z :=
  match n with
  | O => w
  | S n =>
      let at_ i := nth i w 0 in
      let s0 := xor3 (rotr 7 (at_ 14%nat)) (rotr 18 (at_ 14%nat)) (Z.shiftr (at_ 14%nat) 3) in
      let s1 := xor3 (rotr 17 (at_ 1%nat)) (rotr 19 (at_ 1%nat)) (Z.shiftr (at_ 1%nat) 10) in
      extend n (word (at_ 15%nat + s0 + at_ 6%nat + s1) :: w)
  end.

Definition round (s : list Z) (kw : Z * Z) : list Z :=
  match s with
  | [a; b; c; d; e; f; g; h] =>
      let s1 := xor3 (rotr 6 e) (rotr 11 e) (rotr 25 e) in
      let ch := Z.lxor (Z.land e f) (Z.land (4294967295 - e) g) in
      let t1 := word (h + s1 + ch + kw.1 + kw.2) in
      let s0 := xor3 (rotr 2 a) (rotr 13 a) (rotr 22 a) in
      let maj := xor3 (Z.land a b) (Z.land a c) (Z.land b c) in
      [word (t1 + (s0 + maj)); a; b; c; word (d + t1); e; f; g]
  | _ => s
  end.

Definition compress (s block : list Z) : list Z :=
  let w := rev (extend 48 (rev block)) in
  zip_with (fun a b => word (a + b)) s (foldl round s (zip round_constants w)).

Fixpoint words_of (bs : list Z) : list Z :=
  match bs with a :: b :: c :: d :: bs => (((a * 256 + b) * 256 + c) * 256 + d) :: words_of bs | _ => [] end.

Fixpoint big_endian (n : nat) (x : Z) : list Z :=
  match n with O => [] | S n => big_endian n (x / 256) ++ [x mod 256] end.

(** The message with its padding, a multiple of 64 bytes. *)
Definition padded (msg : list Z) : list Z :=
  msg ++ [128] ++ repeat 0 (Z.to_nat ((55 - len msg) mod 64)) ++ big_endian 8 (8 * len msg).

Fixpoint blocks (n : nat) (ws : list Z) : list (list Z) :=
  match n with O => [] | S n => take 16 ws :: blocks n (drop 16 ws) end.

Definition sha256 (msg : list Z) : list Z :=
  let ws := words_of (padded msg) in
  concat (map (big_endian 4) (foldl compress initial_state (blocks (length ws / 16)%nat ws))).

(** [hmac.new(key, msg, digestmod="sha256").digest()] *)
Definition hmac_sha256 (key msg : list Z) : list Z :=
  let key := if 64 <? len key then sha256 key else key in
  let key := key ++ repeat 0 (64 - length key) in
  sha256 (map (Z.lxor 92) key ++ sha256 (map (Z.lxor 54) key ++ msg)).

Definition hexdigest (bs : list Z) : ustr :=
  let digit n := if n <? 10 then 48 + n else 87 + n in
  concat (map (fun b => [digit (b / 16); digit (b mod 16)]) bs).

(** The test vectors of FIPS 180-2 and RFC 4231. *)
Example sha256_abc : hexdigest (sha256 (u "abc")) = u "ba7816bf8f01cfea414140de5dae2223b00361a396177a9cb410ff61f20015ad".
Proof. by_compute. Qed.

Example sha256_two_blocks : hexdigest (sha256 (u "abcdbcdecdefdefgefghfghighijhijkijkljklmklmnlmnomnopnopq"))
  = u "248d6a61d20638b8e5c026930c3e6039a33ce45964ff2167f6ecedd419db06c1".
Proof. by_compute. Qed.

Example hmac_jefe : hexdigest (hmac_sha256 (u "Jefe") (u "what do ya want for nothing?"))
  = u "5bdcc146bf60754e6a042426089575c75a003f089d2739839dec58b964ec3843".
Proof. by_compute. Qed.

Example hmac_long_key : hexdigest (hmac_sha256 (repeat 170 131) (u "Test Using Larger Than Block-Size Key - Hash Key First"))
  = u "60e431591ee0b67f0d8a26aacbf5b77f8e0bc6213728c5140546040f0ee37f54".
Proof. by_compute. Qed.
