(* ===== verification/OAuth.v ===== *)
(** * The OAuth authorization server

    [apps/oauth/] ([provider.py], [mcp_provider.py], [views.py], [models.py]) with
    [apps/mcp/auth.py]: clients that register themselves, the consent of a user, authorization
    codes in the cache, access tokens in the cache and refresh tokens in a table, both kept as
    hashes only; the API tokens of [BitField] are accepted beside them.

    The MCP library calls the provider: it loads a code or a refresh token for the client that
    presents it, checks it, and exchanges what was loaded. Random tokens are arguments,
    signed data is known by what was signed, and the definitions take any hash, of which
    [_hash_token] is the one in use. Times are seconds. *)
From S2P Require Import Prelude PyStr PyValue PyHash.
From S2P Require BitField.

Definition ACCESS_TOKEN_LIFETIME : Z := 28800.
Definition REFRESH_TOKEN_LIFETIME : Z := 2592000.
Definition AUTH_CODE_LIFETIME : Z := 300.
Definition SIGNED_DATA_MAX_AGE : Z := 600.

(** [s.split()] *)
Fixpoint words_go (cur s : ustr) : list ustr :=
  match s with
  | [] => match cur with [] => [] | _ => [cur] end
  | c :: s => if is_space c then match cur with [] => words_go [] s | _ => cur :: words_go [] s end else words_go (cur ++ [c]) s
  end.
Definition words (s : ustr) : list ustr := words_go [] s.

(** ** Data *)

(** Of a registered client, what the provider reads. *)
Record Client := { client_id : ustr; scope : option ustr; client_secret_expires_at : option Z }.

Record Params := { state : option ustr; scopes : option (list ustr); code_challenge : ustr; redirect_uri : ustr; explicit : bool; resource : option ustr }.

(** The signed request for consent. *)
Record Payload := { pl_client : ustr; pl_state : option ustr; pl_scopes : option (list ustr); pl_challenge : ustr; pl_redirect : ustr; pl_explicit : bool;
  pl_resource : option ustr }.

Record Grant := { g_client : ustr; g_user : Z; g_scopes : list ustr; g_expires_at : Z; g_challenge : ustr; g_redirect : ustr; g_explicit : bool;
  g_resource : option ustr }.

Record AuthorizationCode := { code : ustr; ac_scopes : list ustr; ac_expires_at : Z; ac_client : ustr; ac_challenge : ustr; ac_redirect : ustr;
  ac_explicit : bool; ac_resource : option ustr }.

Record AccessData := { ad_user : Z; ad_client : ustr; ad_scopes : list ustr; ad_expires_at : Z; ad_resource : option ustr }.

Record OAuthRefreshToken := { token_prefix : ustr; token_digest : ustr; application_id : ustr; rt_user : Z; access_token_digest : ustr; rt_scopes : ustr;
  rt_expires_at : option Z; is_revoked : bool }.

Record RefreshToken := { token : ustr; rf_client : ustr; rf_scopes : list ustr; rf_expires_at : option Z }.

(** [client_id] of an access token is the user's id. *)
Record AccessToken := { at_user : Z; at_scopes : list ustr; at_expires_at : option Z; at_resource : option ustr }.

(** The cache has its entries with the time they expire at, by the digest of the secret. *)
Record Store := { apps : gmap ustr Client; grants : gmap ustr (Grant * Z); access : gmap ustr (AccessData * Z); refresh : gmap Z OAuthRefreshToken; next_id : Z }.

Definition with_grants m s := {| apps := apps s; grants := m; access := access s; refresh := refresh s; next_id := next_id s |}.
Definition with_access m s := {| apps := apps s; grants := grants s; access := m; refresh := refresh s; next_id := next_id s |}.
Definition with_refresh m s := {| apps := apps s; grants := grants s; access := access s; refresh := m; next_id := next_id s |}.
Definition new_refresh r s := {| apps := apps s; grants := grants s; access := access s; refresh := <[next_id s := r]> (refresh s); next_id := next_id s + 1 |}.

(** The rows of [apps/api_tokens/models.py] and the flag [is_active] of the users. *)
Record ApiTokens := { api_tokens : BitField.Tokens; user_active : Z -> bool }.

(** [validate_token] of [apps/mcp/auth.py]: the user and the scopes of the API token with a
    text, [None] for its [ValueError]. The flags of a row have the field's keys, for which
    [get_scopes] does not fail. *)
Definition validate_token (api : ApiTokens) (text : ustr) : option (Z * list ustr) :=
  first_some (fun kv : Z * BitField.APIToken =>
    if ustr_eqb (BitField.token kv.2) text && user_active api (BitField.user_id kv.2)
    then match BitField.get_scopes kv.2 with Ok l => Some (BitField.user_id kv.2, l) | Raise _ => None end
    else None) (map_to_list (BitField.rows (api_tokens api))).

Lemma validate_token_row api text user l :
  validate_token api text = Some (user, l) ->
  exists id row, BitField.rows (api_tokens api) !! id = Some row /\ BitField.token row = text /\ BitField.user_id row = user
    /\ user_active api user = true /\ BitField.get_scopes row = Ok l.
Proof.
  unfold validate_token. intros H. apply first_some_Some in H as ([id row] & Hin & H). apply elem_of_map_to_list in Hin. cbn [fst snd] in H.
  destruct (ustr_eqb _ _) eqn:E; [|done]. apply ustr_eqb_eq in E. destruct (user_active _ _) eqn:Ea; [|done]. cbn [andb] in H.
  destruct (BitField.get_scopes row) as [l'|] eqn:El; [|done]. injection H as <- <-. by exists id, row.
Qed.

(** [cache.get]: an entry until it expires. *)
Definition cached {A} (now : Z) (k : ustr) (m : gmap ustr (A * Z)) : option A :=
  match m !! k with Some (x, expiry) => if now <? expiry then Some x else None | None => None end.

(** The hash of an ASCII token. *)
Definition _hash_token (token : ustr) : ustr := hexdigest (sha256 token).

Section provider.
Context (hash : ustr -> ustr).

Definition _token_prefix (token : ustr) : ustr := take 8 token.

(** ** Clients and consent *)

Definition get_client (now : Z) (id : ustr) (s : Store) : option Client :=
  match apps s !! id with
  | Some c => match client_secret_expires_at c with
              | Some t => if negb (t =? 0) && (t <? now) then None else Some c
              | None => Some c
              end
  | None => None
  end.

Definition register_client (c : Client) (s : Store) : res Store :=
  if bool_decide (is_Some (apps s !! client_id c)) then Raise IntegrityError
  else Ok {| apps := <[client_id c := c]> (apps s); grants := grants s; access := access s; refresh := refresh s; next_id := next_id s |}.

Definition empty_scopes (o : option (list ustr)) : bool := match o with Some (_ :: _) => false | _ => true end.

(** What is signed; without requested scopes those of the client. *)
Definition authorize (c : Client) (p : Params) : Payload :=
  {| pl_client := client_id c; pl_state := state p;
     pl_scopes := if empty_scopes (scopes p) && otruthy (scope c) then Some (words (default [] (scope c))) else scopes p;
     pl_challenge := code_challenge p; pl_redirect := redirect_uri p; pl_explicit := explicit p; pl_resource := resource p |}.

Definition grant_of (now user : Z) (d : Payload) : Grant :=
  {| g_client := pl_client d; g_user := user; g_scopes := default [] (pl_scopes d); g_expires_at := now + AUTH_CODE_LIFETIME; g_challenge := pl_challenge d;
     g_redirect := pl_redirect d; g_explicit := pl_explicit d; g_resource := pl_resource d |}.

(** [oauth_consent] of a user who approves: the address the browser is sent to. *)
Definition oauth_consent (now user : Z) (d : Payload) (new_code : ustr) (s : Store) : ustr * Store :=
  let separator := if contains (u "?") (pl_redirect d) then u "&" else u "?" in
  (pl_redirect d ++ separator ++ u "code=" ++ new_code ++ (if otruthy (pl_state d) then u "&state=" ++ default [] (pl_state d) else []),
   with_grants (<[hash new_code := (grant_of now user d, now + AUTH_CODE_LIFETIME)]> (grants s)) s).

(** ** Codes *)

Definition load_authorization_code (now : Z) (client : ustr) (authorization_code : ustr) (s : Store) : option AuthorizationCode :=
  match cached now (hash authorization_code) (grants s) with
  | Some g =>
      if negb (ustr_eqb (g_client g) client) then None
      else Some {| code := authorization_code; ac_scopes := g_scopes g; ac_expires_at := g_expires_at g; ac_client := g_client g; ac_challenge := g_challenge g;
                   ac_redirect := g_redirect g; ac_explicit := g_explicit g; ac_resource := g_resource g |}
  | None => None
  end.

(** The reading of the grant in [exchange_authorization_code]: its user, or a [TokenError]. *)
Definition read_grant (now : Z) (c : AuthorizationCode) (s : Store) : option Z := g_user <$> cached now (hash (code c)) (grants s).

Definition store_access (now user : Z) (client : ustr) (token_ : ustr) (l : list ustr) (r : option ustr) (s : Store) : Store :=
  with_access (<[hash token_ := ({| ad_user := user; ad_client := client; ad_scopes := l; ad_expires_at := now + ACCESS_TOKEN_LIFETIME; ad_resource := r |},
    now + ACCESS_TOKEN_LIFETIME)]> (access s)) s.

(** The row of a refresh token; its application must be there. *)
Definition create_refresh (now user : Z) (client access_str refresh_str : ustr) (l : list ustr) (s : Store) : res unit * Store :=
  if bool_decide (is_Some (apps s !! client)) then
    (Ok tt, new_refresh {| token_prefix := _token_prefix refresh_str; token_digest := hash refresh_str; application_id := client; rt_user := user;
       access_token_digest := hash access_str; rt_scopes := join (u " ") l; rt_expires_at := Some (now + REFRESH_TOKEN_LIFETIME); is_revoked := false |} s)
  else (Raise IntegrityError, s).

(** The rest of [exchange_authorization_code], after the grant was read. *)
Definition finish_code (now : Z) (client : ustr) (c : AuthorizationCode) (user : Z) (access_str refresh_str : ustr) (s : Store) : res unit * Store :=
  let s := with_grants (delete (hash (code c)) (grants s)) s in
  let s := store_access now user client access_str (ac_scopes c) (ac_resource c) s in
  create_refresh now user client access_str refresh_str (ac_scopes c) s.

(** [None] is the [TokenError]. *)
Definition exchange_authorization_code (now : Z) (client : ustr) (c : AuthorizationCode) (access_str refresh_str : ustr) (s : Store) : option (res unit) * Store :=
  match read_grant now c s with
  | None => (None, s)
  | Some user => let '(r, s) := finish_code now client c user access_str refresh_str s in (Some r, s)
  end.

(** ** Refresh tokens *)

(** The row of a plaintext, of an application if one is given, not revoked. *)
Definition refresh_matches (plaintext : ustr) (app : option ustr) (r : OAuthRefreshToken) : bool :=
  ustr_eqb (token_prefix r) (_token_prefix plaintext) && match app with Some a => ustr_eqb (application_id r) a | None => true end
  && negb (is_revoked r) && ustr_eqb (token_digest r) (hash plaintext).

Definition _find_refresh_token (plaintext : ustr) (app : option ustr) (s : Store) : option (Z * OAuthRefreshToken) :=
  find_first (fun kv => refresh_matches plaintext app kv.2) (map_to_list (refresh s)).

Definition load_refresh_token (now : Z) (client refresh_token : ustr) (s : Store) : option RefreshToken :=
  match _find_refresh_token refresh_token (Some client) s with
  | Some (_, r) =>
      if match rt_expires_at r with Some t => negb (t =? 0) && (t <? now) | None => false end then None
      else Some {| token := refresh_token; rf_client := application_id r; rf_scopes := words (rt_scopes r); rf_expires_at := rt_expires_at r |}
  | None => None
  end.

Definition set_revoked (r : OAuthRefreshToken) : OAuthRefreshToken :=
  {| token_prefix := token_prefix r; token_digest := token_digest r; application_id := application_id r; rt_user := rt_user r;
     access_token_digest := access_token_digest r; rt_scopes := rt_scopes r; rt_expires_at := rt_expires_at r; is_revoked := true |}.

(** With the access token it is paired with. *)
Definition revoke_row (i : Z) (r : OAuthRefreshToken) (s : Store) : Store :=
  with_access (delete (access_token_digest r) (access s)) (with_refresh (alter set_revoked i (refresh s)) s).

(** The rest of [exchange_refresh_token], after the row was read. *)
Definition finish_refresh (now : Z) (client : ustr) (f : RefreshToken) (asked : list ustr) (i : Z) (old_rt : OAuthRefreshToken) (access_str refresh_str : ustr) (s : Store) :
    res unit * Store :=
  let s := revoke_row i old_rt s in
  let effective_scopes := match asked with [] => rf_scopes f | _ => asked end in
  let s := store_access now (rt_user old_rt) client access_str effective_scopes None s in
  create_refresh now (rt_user old_rt) client access_str refresh_str effective_scopes s.

Definition exchange_refresh_token (now : Z) (client : ustr) (f : RefreshToken) (asked : list ustr) (access_str refresh_str : ustr) (s : Store) : option (res unit) * Store :=
  match _find_refresh_token (token f) None s with
  | None => (None, s)
  | Some (i, r) => let '(x, s) := finish_refresh now client f asked i r access_str refresh_str s in (Some x, s)
  end.

(** ** Access tokens *)

(** The table of API tokens, and who is active. *)
Context (api : ApiTokens).

Definition load_access_token (now : Z) (t : ustr) (s : Store) : option AccessToken * Store :=
  let fallback :=
    match validate_token api t with
    | Some (user, l) => Some {| at_user := user; at_scopes := l; at_expires_at := None; at_resource := None |}
    | None => None
    end in
  match cached now (hash t) (access s) with
  | Some a =>
      if now <? ad_expires_at a
      then (Some {| at_user := ad_user a; at_scopes := ad_scopes a; at_expires_at := Some (ad_expires_at a); at_resource := ad_resource a |}, s)
      else (fallback, with_access (delete (hash t) (access s)) s)
  | None => (fallback, s)
  end.

(** [revoke_token] of an access token: the refresh tokens paired with it, too. *)
Definition revoke_access (t : ustr) (s : Store) : Store :=
  with_refresh ((fun r => if ustr_eqb (access_token_digest r) (hash t) then set_revoked r else r) <$> refresh s)
    (with_access (delete (hash t) (access s)) s).

Definition revoke_refresh (f : RefreshToken) (s : Store) : Store :=
  match _find_refresh_token (token f) None s with Some (i, r) => revoke_row i r s | None => s end.
End provider.

(** The user a tool of the MCP server acts for: the token of the request must be there and have
    one of the scopes. *)
Definition _check_scopes (required_scopes : list ustr) (access_token : option AccessToken) : res Z :=
  match access_token with
  | None => Raise ValueError
  | Some a => if negb (existsb (fun x => bool_decide (x ∈ required_scopes)) (at_scopes a)) then Raise ValueError else Ok (at_user a)
  end.

(** ** Scopes as text *)

Definition wordy (s : ustr) : Prop := s <> [] /\ Forall (fun c => is_space c = false) s.

Lemma words_go_word cur s rest : Forall (fun c => is_space c = false) s -> words_go cur (s ++ rest) = words_go (cur ++ s) rest.
Proof.
  revert cur. induction s as [|c s IH]; intros cur Hs; [by rewrite app_nil_r|]. apply Forall_cons in Hs as [Hc Hs]. cbn. rewrite Hc.
  rewrite IH by done. by rewrite <- app_assoc.
Qed.

(** Scopes that are words are read back from their text. *)
Lemma words_join l : Forall wordy l -> words (join (u " ") l) = l.
Proof.
  unfold words. induction l as [|x l IH]; intros H; [done|]. apply Forall_cons in H as [[Hne Hx] Hl]. destruct l as [|y l].
  - cbn. rewrite <- (app_nil_r x) at 1. rewrite words_go_word by done. cbn. by destruct x.
  - change (join (u " ") (x :: y :: l)) with (x ++ [32] ++ join (u " ") (y :: l)). rewrite words_go_word by done. cbn [words_go app is_space].
    change (is_space 32) with true. cbn iota. destruct x as [|c x]; [done|]. cbn [app]. f_equal. by apply IH.
Qed.

Lemma words_go_wordy cur s : Forall (fun c => is_space c = false) cur -> Forall wordy (words_go cur s).
Proof.
  revert cur. induction s as [|c s IH]; intros cur Hc; cbn.
  - destruct cur; [constructor|]. constructor; [by split|constructor].
  - destruct (is_space c) eqn:E.
    + destruct cur as [|x cur]; [by apply IH|]. constructor; [done|]. by apply IH.
    + apply IH. apply Forall_app. split; [done|]. constructor; [done|constructor].
Qed.

Lemma words_wordy s : Forall wordy (words s).
Proof. by apply words_go_wordy. Qed.

(** ** Interleaved requests *)

(** What happened: the requests signed, the consents with the digest of their code, and the
    codes and refresh tokens on their way through an exchange. *)
Inductive Event :=
  | Signed (d : Payload) (t : Z)
  | Consented (user : Z) (digest : ustr) (g : Grant)
  | CodeLoaded (client : ustr) (c : AuthorizationCode)
  | GrantRead (client : ustr) (c : AuthorizationCode) (user : Z)
  | RefreshLoaded (client : ustr) (f : RefreshToken)
  | RowRead (client : ustr) (f : RefreshToken) (asked : list ustr) (i : Z) (r : OAuthRefreshToken).

Record World := { st : Store; now : Z; log : list Event }.

Section world.
Context (hash : ustr -> ustr).

(** A step of a request, any of which may be between the steps of another. The random tokens
    were never drawn before, requested scopes are words, and those asked of a refresh are
    among the token's, which the MCP library checks. *)
Inductive step (w : World) : World -> Prop :=
  | Tick t : now w <= t -> step w {| st := st w; now := t; log := log w |}
  | Register c s : register_client c (st w) = Ok s -> step w {| st := s; now := now w; log := log w |}
  | Authorize id c p : get_client (now w) id (st w) = Some c -> Forall wordy (default [] (scopes p)) ->
      step w {| st := st w; now := now w; log := Signed (authorize c p) (now w) :: log w |}
  | Consent user d t new_code : Signed d t ∈ log w -> now w - t <= SIGNED_DATA_MAX_AGE -> (forall v g, Consented v (hash new_code) g ∉ log w) ->
      step w {| st := (oauth_consent hash (now w) user d new_code (st w)).2; now := now w; log := Consented user (hash new_code) (grant_of (now w) user d) :: log w |}
  | LoadCode client k c : load_authorization_code hash (now w) client k (st w) = Some c ->
      step w {| st := st w; now := now w; log := CodeLoaded client c :: log w |}
  | ReadGrant client c user : CodeLoaded client c ∈ log w -> read_grant hash (now w) c (st w) = Some user ->
      step w {| st := st w; now := now w; log := GrantRead client c user :: log w |}
  | FinishCode client c user a r : GrantRead client c user ∈ log w -> (forall i x, refresh (st w) !! i = Some x -> token_digest x <> hash r) ->
      step w {| st := (finish_code hash (now w) client c user a r (st w)).2; now := now w; log := log w |}
  | LoadRefresh client t f : load_refresh_token hash (now w) client t (st w) = Some f ->
      step w {| st := st w; now := now w; log := RefreshLoaded client f :: log w |}
  | ReadRow client f asked i r : RefreshLoaded client f ∈ log w -> asked ⊆ rf_scopes f -> _find_refresh_token hash (token f) None (st w) = Some (i, r) ->
      step w {| st := st w; now := now w; log := RowRead client f asked i r :: log w |}
  | FinishRefresh client f asked i r a t : RowRead client f asked i r ∈ log w -> (forall j x, refresh (st w) !! j = Some x -> token_digest x <> hash t) ->
      step w {| st := (finish_refresh hash (now w) client f asked i r a t (st w)).2; now := now w; log := log w |}
  | LoadAccess api t : step w {| st := (load_access_token hash api (now w) t (st w)).2; now := now w; log := log w |}
  | RevokeAccess t : step w {| st := revoke_access hash t (st w); now := now w; log := log w |}
  | RevokeRefresh f : step w {| st := revoke_refresh hash f (st w); now := now w; log := log w |}.

Inductive reachable : World -> Prop :=
  | Start t : reachable {| st := {| apps := ∅; grants := ∅; access := ∅; refresh := ∅; next_id := 1 |}; now := t; log := [] |}
  | Step w w' : reachable w -> step w w' -> reachable w'.

(** The user consented that the client has these scopes. *)
Definition covered (l : list Event) (user : Z) (client : ustr) (sc : list ustr) : Prop :=
  exists k g, Consented user k g ∈ l /\ g_client g = client /\ sc ⊆ g_scopes g.

(** Rows that differ in nothing but their revocation. *)
Definition same_row (r r' : OAuthRefreshToken) : Prop := set_revoked r = set_revoked r'.

Record log_ok (s : Store) (l : list Event) : Prop := {
  ok_signed : forall d t, Signed d t ∈ l -> Forall wordy (default [] (pl_scopes d));
  ok_consent : forall v k g, Consented v k g ∈ l -> g_user g = v /\ Forall wordy (g_scopes g);
  ok_code_once : forall v v' k g g', Consented v k g ∈ l -> Consented v' k g' ∈ l -> v = v' /\ g = g';
  ok_loaded : forall client c, CodeLoaded client c ∈ l -> exists v g, Consented v (hash (code c)) g ∈ l /\ g_client g = client /\ g_scopes g = ac_scopes c;
  ok_read : forall client c v, GrantRead client c v ∈ l -> exists g, Consented v (hash (code c)) g ∈ l /\ g_client g = client /\ g_scopes g = ac_scopes c;
  ok_refresh_loaded : forall client f, RefreshLoaded client f ∈ l ->
    exists i r, refresh s !! i = Some r /\ application_id r = client /\ token_digest r = hash (token f) /\ rf_scopes f = words (rt_scopes r);
  ok_row_read : forall client f asked i r0, RowRead client f asked i r0 ∈ l -> asked ⊆ rf_scopes f /\
    exists r, refresh s !! i = Some r /\ same_row r r0 /\ application_id r = client /\ rf_scopes f = words (rt_scopes r) }.

Record store_ok (s : Store) (l : list Event) : Prop := {
  ok_grants : forall k g e, grants s !! k = Some (g, e) -> Consented (g_user g) k g ∈ l;
  ok_access : forall k a e, access s !! k = Some (a, e) -> covered l (ad_user a) (ad_client a) (ad_scopes a);
  ok_ids : forall i r, refresh s !! i = Some r -> i < next_id s;
  ok_digests : forall i j r r', refresh s !! i = Some r -> refresh s !! j = Some r' -> token_digest r = token_digest r' -> i = j;
  ok_rows : forall i r, refresh s !! i = Some r -> covered l (rt_user r) (application_id r) (words (rt_scopes r)) }.

Lemma covered_mono l l' user client sc : (forall e, e ∈ l -> e ∈ l') -> covered l user client sc -> covered l' user client sc.
Proof. intros Hl (k & g & H & ? & ?). exists k, g. auto. Qed.

Lemma covered_subset l user client sc sc' : sc' ⊆ sc -> covered l user client sc -> covered l user client sc'.
Proof. intros Hs (k & g & ? & ? & H). exists k, g. split_and!; [done..|]. set_solver. Qed.

(** *** The primitives keep the store *)

Lemma store_ok_mono s l l' : (forall e, e ∈ l -> e ∈ l') -> store_ok s l -> store_ok s l'.
Proof. intros Hl []. constructor; eauto using covered_mono. Qed.

Lemma store_access_ok now_ user client t sc r s l : store_ok s l -> covered l user client sc -> store_ok (store_access hash now_ user client t sc r s) l.
Proof. intros [] Hc. constructor; cbn; try done. intros k a e [[<- [= <- _]]|[_ H]]%lookup_insert_Some; [done|eauto]. Qed.

Lemma create_refresh_ok now_ user client a t sc s l :
  store_ok s l -> covered l user client (words (join (u " ") sc)) -> (forall i x, refresh s !! i = Some x -> token_digest x <> hash t) ->
  store_ok (create_refresh hash now_ user client a t sc s).2 l.
Proof.
  intros [] Hc Hf. unfold create_refresh. destruct (bool_decide _); [|by constructor]. constructor; cbn; try done.
  - intros i r [[<- _]|[_ H]]%lookup_insert_Some; [lia|]. apply ok_ids0 in H. lia.
  - intros i j r r' [[<- <-]|[_ H]]%lookup_insert_Some [[<- <-]|[_ H']]%lookup_insert_Some Hd; [done|..]; [exfalso; by apply (Hf j r' H')|exfalso; by apply (Hf i r H)|eauto].
  - intros i r [[<- <-]|[_ H]]%lookup_insert_Some; [done|eauto].
Qed.

(** Rows that are only marked as revoked. *)
Definition marked (m m' : gmap Z OAuthRefreshToken) : Prop := forall i, set_revoked <$> m' !! i = set_revoked <$> m !! i.

Lemma marked_Some m m' i r' : marked m m' -> m' !! i = Some r' -> exists r, m !! i = Some r /\ same_row r' r.
Proof. intros H Hi. specialize (H i). rewrite Hi in H. cbn in H. destruct (m !! i) as [r|]; [|done]. exists r. split; [done|]. by apply (inj Some) in H. Qed.

Lemma marked_sym m m' : marked m m' -> marked m' m.
Proof. intros H i. by rewrite H. Qed.

Lemma same_row_fields r r' : same_row r r' ->
  token_digest r = token_digest r' /\ application_id r = application_id r' /\ rt_user r = rt_user r' /\ rt_scopes r = rt_scopes r'.
Proof. by intros [=]. Qed.

Lemma marked_ok m s l : store_ok s l -> marked (refresh s) m -> store_ok (with_refresh m s) l.
Proof.
  intros [] Hm. constructor; cbn; try done.
  - intros i r (r0 & H & _)%(marked_Some _ _ _ _ Hm). eauto.
  - intros i j r r' (r0 & H & Hr)%(marked_Some _ _ _ _ Hm) (r1 & H' & Hr')%(marked_Some _ _ _ _ Hm) Hd.
    apply same_row_fields in Hr as (Hr & _), Hr' as (Hr' & _). eapply ok_digests0; [done..|congruence].
  - intros i r (r0 & H & Hr)%(marked_Some _ _ _ _ Hm). apply same_row_fields in Hr as (_ & -> & -> & ->). eauto.
Qed.

Lemma delete_access_ok k s l : store_ok s l -> store_ok (with_access (delete k (access s)) s) l.
Proof. intros []. constructor; cbn; try done. intros k' a e [_ H]%lookup_delete_Some. eauto. Qed.

Lemma delete_grant_ok k s l : store_ok s l -> store_ok (with_grants (delete k (grants s)) s) l.
Proof. intros []. constructor; cbn; try done. intros k' a e [_ H]%lookup_delete_Some. eauto. Qed.

Lemma marked_alter i m : marked m (alter set_revoked i m).
Proof. intros j. destruct (decide (j = i)) as [->|]; [rewrite lookup_alter_eq; by destruct (m !! i)|by rewrite lookup_alter_ne]. Qed.

Lemma revoke_row_ok i r s l : store_ok s l -> store_ok (revoke_row i r s) l.
Proof. intros H. unfold revoke_row. apply (delete_access_ok _ (with_refresh (alter set_revoked i (refresh s)) s)), marked_ok; [done|apply marked_alter]. Qed.

(** *** The log stays true *)

Definition rows_kept (s s' : Store) : Prop := forall i r, refresh s !! i = Some r -> exists r', refresh s' !! i = Some r' /\ same_row r' r.

Lemma rows_kept_refl s : rows_kept s s.
Proof. intros i r H. by exists r. Qed.

Lemma rows_kept_same s s' : refresh s = refresh s' -> rows_kept s s'.
Proof. intros E i r H. rewrite E in H. by exists r. Qed.

Lemma rows_kept_marked s s' : marked (refresh s) (refresh s') -> rows_kept s s'.
Proof. intros H i r Hi. apply (marked_Some _ _ _ _ (marked_sym _ _ H)) in Hi as (r' & Hr & Hs). by exists r'. Qed.

Lemma rows_kept_trans s1 s2 s3 : rows_kept s1 s2 -> rows_kept s2 s3 -> rows_kept s1 s3.
Proof. intros H1 H2 i r (r' & (r'' & H & Hs')%H2 & Hs)%H1. exists r''. split; [done|]. unfold same_row in *. congruence. Qed.

Lemma rows_kept_create now_ user client a t sc s l : store_ok s l -> rows_kept s (create_refresh hash now_ user client a t sc s).2.
Proof.
  intros Hs. unfold create_refresh. destruct (bool_decide _); [|by apply rows_kept_same]. intros i r H. cbn. exists r. split; [|done].
  rewrite lookup_insert_ne; [done|]. intros <-. apply (ok_ids _ _ Hs) in H. lia.
Qed.

Lemma log_ok_rows s s' l : log_ok s l -> rows_kept s s' -> log_ok s' l.
Proof.
  intros [] Hk. constructor; [done..| |].
  - intros client f (i & r & Hi & H1 & H2 & H3)%ok_refresh_loaded0. destruct (Hk _ _ Hi) as (r' & Hr & Hs). exists i, r'.
    apply same_row_fields in Hs as (-> & -> & _ & ->). done.
  - intros client f asked i r0 (Ha & r & Hi & H1 & H2 & H3)%ok_row_read0. split; [done|]. destruct (Hk _ _ Hi) as (r' & Hr & Hs). exists r'.
    pose proof (same_row_fields _ _ Hs) as (_ & -> & _ & ->). split; [done|]. split; [|done]. unfold same_row in *. congruence.
Qed.

(** What an event needs to be added to the log. *)
Definition admissible (s : Store) (l : list Event) (e : Event) : Prop :=
  match e with
  | Signed d _ => Forall wordy (default [] (pl_scopes d))
  | Consented v k g => g_user g = v /\ Forall wordy (g_scopes g) /\ forall v' g', Consented v' k g' ∉ l
  | CodeLoaded client c => exists v g, Consented v (hash (code c)) g ∈ l /\ g_client g = client /\ g_scopes g = ac_scopes c
  | GrantRead client c v => exists g, Consented v (hash (code c)) g ∈ l /\ g_client g = client /\ g_scopes g = ac_scopes c
  | RefreshLoaded client f => exists i r, refresh s !! i = Some r /\ application_id r = client /\ token_digest r = hash (token f) /\ rf_scopes f = words (rt_scopes r)
  | RowRead client f asked i r0 => asked ⊆ rf_scopes f /\
      exists r, refresh s !! i = Some r /\ same_row r r0 /\ application_id r = client /\ rf_scopes f = words (rt_scopes r)
  end.

Lemma log_ok_cons s l e : log_ok s l -> admissible s l e -> log_ok s (e :: l).
Proof.
  intros [] He. constructor.
  - intros d t [<-|H]%elem_of_cons; [done|eauto].
  - intros v k g [<-|H]%elem_of_cons; [by destruct He as (? & ? & _)|eauto].
  - intros v v' k g g' [<-|H]%elem_of_cons [H'|H']%elem_of_cons; [by injection H' as -> ->| |subst e|eauto].
    + destruct He as (_ & _ & Hn). by apply Hn in H'.
    + destruct He as (_ & _ & Hn). by apply Hn in H.
  - intros client c [<-|H]%elem_of_cons; [destruct He as (v & g & H & ?)|apply ok_loaded0 in H as (v & g & H & ?)]; exists v, g; (split; [by right|done]).
  - intros client c v [<-|H]%elem_of_cons; [destruct He as (g & H & ?)|apply ok_read0 in H as (g & H & ?)]; exists g; (split; [by right|done]).
  - intros client f [<-|H]%elem_of_cons; [done|eauto].
  - intros client f asked i r0 [<-|H]%elem_of_cons; [done|eauto].
Qed.

Lemma log_ok_code_scopes s l client c v : log_ok s l -> GrantRead client c v ∈ l -> covered l v client (ac_scopes c) /\ Forall wordy (ac_scopes c).
Proof.
  intros Hl H. apply (ok_read _ _ Hl) in H as (g & Hg & <- & <-). split; [by exists (hash (code c)), g|]. by apply (ok_consent _ _ Hl) in Hg as [_ ?].
Qed.

(** ** No token without consent *)

Record inv (w : World) : Prop := { inv_store : store_ok (st w) (log w); inv_log : log_ok (st w) (log w) }.

(** A step that only adds to the log. *)
Lemma inv_event w e t : inv w -> admissible (st w) (log w) e -> inv {| st := st w; now := t; log := e :: log w |}.
Proof. intros [Hs Hl] He. constructor; cbn; [|by apply log_ok_cons]. eapply store_ok_mono; [|done]. intros x Hx. by right. Qed.

(** A step that only changes the store. *)
Lemma inv_change w s t : inv w -> store_ok s (log w) -> rows_kept (st w) s -> inv {| st := s; now := t; log := log w |}.
Proof. intros [Hs Hl] H1 H2. constructor; cbn; [done|by eapply log_ok_rows]. Qed.

Lemma cached_Some {A} (t : Z) (k : ustr) (m : gmap ustr (A * Z)) x : cached t k m = Some x -> exists e, m !! k = Some (x, e).
Proof. unfold cached. destruct (m !! k) as [[y e]|]; [|done]. destruct (t <? e); [|done]. intros [= ->]. by exists e. Qed.

Lemma consent_inv w user d t new_code :
  inv w -> Signed d t ∈ log w -> (forall v g, Consented v (hash new_code) g ∉ log w) ->
  inv {| st := (oauth_consent hash (now w) user d new_code (st w)).2; now := now w; log := Consented user (hash new_code) (grant_of (now w) user d) :: log w |}.
Proof.
  intros [Hs Hl] Hd Hn. pose proof (ok_signed _ _ Hl _ _ Hd) as Hw.
  assert (inv {| st := st w; now := now w; log := Consented user (hash new_code) (grant_of (now w) user d) :: log w |}) as [Hs' Hl'] by (by apply inv_event).
  constructor; cbn in *; [|eapply log_ok_rows; [done|]; by apply rows_kept_same]. destruct Hs'. constructor; cbn; try done.
  intros k g e [[<- [= <- _]]|[_ H]]%lookup_insert_Some; [by left|eauto].
Qed.

Lemma load_code_admissible w client k c : inv w -> load_authorization_code hash (now w) client k (st w) = Some c -> admissible (st w) (log w) (CodeLoaded client c).
Proof.
  intros [Hs _]. unfold load_authorization_code. destruct (cached _ _ _) as [g|] eqn:E; [|done]. apply cached_Some in E as [e E].
  destruct (ustr_eqb (g_client g) client) eqn:Ec; [|done]. apply ustr_eqb_eq in Ec. intros [= <-]. apply (ok_grants _ _ Hs) in E. by exists (g_user g), g.
Qed.

Lemma read_grant_admissible w client c user :
  inv w -> CodeLoaded client c ∈ log w -> read_grant hash (now w) c (st w) = Some user -> admissible (st w) (log w) (GrantRead client c user).
Proof.
  intros [Hs Hl] Hc Hr. apply (ok_loaded _ _ Hl) in Hc as (v & g & Hg & H1 & H2). unfold read_grant in Hr.
  destruct (cached _ _ _) as [g'|] eqn:E; [|done]. injection Hr as <-. apply cached_Some in E as [e E]. apply (ok_grants _ _ Hs) in E.
  destruct (ok_code_once _ _ Hl _ _ _ _ _ Hg E) as [-> ->]. by exists g'.
Qed.

(** Issuing a pair of tokens. *)
Lemma issue_inv w s t user client a r sc res_ :
  inv w -> store_ok s (log w) -> rows_kept (st w) s -> covered (log w) user client sc -> Forall wordy sc ->
  (forall i x, refresh s !! i = Some x -> token_digest x <> hash r) ->
  inv {| st := (create_refresh hash t user client a r sc (store_access hash t user client a sc res_ s)).2; now := now w; log := log w |}.
Proof.
  intros Hw Hs Hk Hc Hsc Hf. pose proof (store_access_ok t user client a sc res_ s (log w) Hs Hc) as H1.
  apply inv_change; [done| |].
  - apply create_refresh_ok; [done|by rewrite words_join|done].
  - eapply rows_kept_trans; [exact Hk|]. exact (rows_kept_create t user client a r sc _ _ H1).
Qed.

Lemma find_refresh_Some t app s i r :
  _find_refresh_token hash t app s = Some (i, r) -> refresh s !! i = Some r /\ token_digest r = hash t /\ is_revoked r = false
    /\ forall a, app = Some a -> application_id r = a.
Proof.
  intros [H1 H2]%find_first_Some. apply elem_of_map_to_list in H1. unfold refresh_matches in H2. cbn in H2.
  apply andb_prop in H2 as [H2 H3%ustr_eqb_eq]. apply andb_prop in H2 as [H2 H4]. apply andb_prop in H2 as [_ H5]. split_and!; [done|done|by destruct (is_revoked r)|].
  intros a ->. by apply ustr_eqb_eq.
Qed.

Lemma load_refresh_admissible w client t f : load_refresh_token hash (now w) client t (st w) = Some f -> admissible (st w) (log w) (RefreshLoaded client f).
Proof.
  unfold load_refresh_token. destruct (_find_refresh_token _ _ _ _) as [[i r]|] eqn:E; [|done]. apply find_refresh_Some in E as (H1 & H2 & _ & H3).
  destruct (match rt_expires_at r with Some _ => _ | None => _ end); [done|]. intros [= <-]. exists i, r. cbn. auto.
Qed.

Lemma row_read_admissible w client f asked i r :
  inv w -> RefreshLoaded client f ∈ log w -> asked ⊆ rf_scopes f -> _find_refresh_token hash (token f) None (st w) = Some (i, r) ->
  admissible (st w) (log w) (RowRead client f asked i r).
Proof.
  intros [Hs Hl] Hf Ha (H1 & H2 & _)%find_refresh_Some. apply (ok_refresh_loaded _ _ Hl) in Hf as (j & r' & Hj & Happ & Hd & Hsc).
  assert (i = j) as -> by (eapply (ok_digests _ _ Hs); [done..|congruence]). split; [done|]. rewrite Hj in H1. injection H1 as <-. by exists r'.
Qed.

Lemma finish_refresh_inv w client f asked i r a t :
  inv w -> RowRead client f asked i r ∈ log w -> (forall j x, refresh (st w) !! j = Some x -> token_digest x <> hash t) ->
  inv {| st := (finish_refresh hash (now w) client f asked i r a t (st w)).2; now := now w; log := log w |}.
Proof.
  intros Hw Hr Hf. pose proof (ok_row_read _ _ (inv_log _ Hw) _ _ _ _ _ Hr) as (Hasked & r' & Hi & Hsame & <- & Hsc).
  pose proof (same_row_fields _ _ Hsame) as (_ & _ & Huser & _). pose proof (ok_rows _ _ (inv_store _ Hw) _ _ Hi) as Hcov. rewrite <- Hsc, Huser in Hcov.
  unfold finish_refresh. apply issue_inv; [done|by apply revoke_row_ok, Hw|apply rows_kept_marked, marked_alter|..].
  - destruct asked; [done|]. by eapply covered_subset.
  - assert (Forall wordy (rf_scopes f)) as Hwordy by (rewrite Hsc; apply words_wordy). destruct asked; [done|]. rewrite Forall_forall in Hwordy |- *. set_solver.
  - cbn. intros j x H. apply (marked_Some _ _ _ _ (marked_alter i (refresh (st w)))) in H as (y & Hy & Hs). apply same_row_fields in Hs as (-> & _). eauto.
Qed.

Lemma step_inv w w' : inv w -> step w w' -> inv w'.
Proof.
  intros Hw Hstep. pose proof (inv_store _ Hw) as Hs. destruct Hstep as [t _|c s Hc|id c p _ Hp|user d t k Hd _ Hk|client k c Hc|client c user Hc Hr|client c user a r Hc Hr
    |client t f Hf|client f asked i r Hf Ha Hr|client f asked i r a t Hr Hf|api t|t|f].
  - apply (inv_change _ _ _ Hw Hs). by apply rows_kept_same.
  - unfold register_client in Hc. destruct (bool_decide _); [done|]. injection Hc as <-. apply inv_change; [done| |by apply rows_kept_same]. destruct Hs. by constructor.
  - apply inv_event; [done|]. cbn. destruct (empty_scopes (scopes p) && otruthy (scope c)); [apply words_wordy|done].
  - by eapply consent_inv.
  - apply inv_event; [done|]. by eapply load_code_admissible.
  - apply inv_event; [done|]. by apply read_grant_admissible.
  - destruct (log_ok_code_scopes _ _ _ _ _ (inv_log _ Hw) Hc) as [Hcov Hwordy]. unfold finish_code.
    apply issue_inv; [done|by apply delete_grant_ok|by apply rows_kept_same|done..].
  - apply inv_event; [done|]. by eapply load_refresh_admissible.
  - apply inv_event; [done|]. by apply row_read_admissible.
  - by apply finish_refresh_inv.
  - unfold load_access_token. destruct (cached _ _ _) as [x|]; [destruct (_ <? _)|]; (apply inv_change; [done| |by apply rows_kept_same]); try done. by apply delete_access_ok.
  - apply inv_change; [done| |].
    + apply (marked_ok _ (with_access (delete (hash t) (access (st w))) (st w))); [by apply delete_access_ok|]. intros i. cbn. rewrite lookup_fmap. destruct (refresh (st w) !! i); [|done]. cbn. by destruct (ustr_eqb _ _).
    + apply rows_kept_marked. intros i. cbn. rewrite lookup_fmap. destruct (refresh (st w) !! i); [|done]. cbn. by destruct (ustr_eqb _ _).
  - unfold revoke_refresh. destruct (_find_refresh_token _ _ _ _) as [[i r]|]; (apply inv_change; [done| |]); try done; try (by apply rows_kept_same); [by apply revoke_row_ok|].
    apply rows_kept_marked, marked_alter.
Qed.

Lemma reachable_inv w : reachable w -> inv w.
Proof.
  induction 1 as [t|w w' _ IH Hs]; [|by eapply step_inv]. constructor; constructor; cbn; try (by intros * ?%elem_of_nil); try (intros *; by rewrite lookup_empty).
  all: by intros * H; rewrite lookup_empty in H.
Qed.

Lemma loaded_token_origin w api t a :
  inv w -> (load_access_token hash api (now w) t (st w)).1 = Some a ->
  validate_token api t = Some (at_user a, at_scopes a) \/ exists client, covered (log w) (at_user a) client (at_scopes a).
Proof.
  intros Hw. unfold load_access_token. destruct (cached _ _ _) as [x|] eqn:E; [destruct (_ <? _)|]; cbn.
  - intros [= <-]. right. apply cached_Some in E as [e E]. eexists. by apply (ok_access _ _ (inv_store _ Hw)) in E.
  - destruct (validate_token api t) as [[v l]|]; [|done]. intros [= <-]. by left.
  - destruct (validate_token api t) as [[v l]|]; [|done]. intros [= <-]. by left.
Qed.

(** The text is an API token of the user, who is active, with exactly these scopes. *)
Definition api_token_of (api : ApiTokens) (t : ustr) (user : Z) (l : list ustr) : Prop :=
  exists id row, BitField.rows (api_tokens api) !! id = Some row /\ BitField.token row = t /\ BitField.user_id row = user
    /\ user_active api user = true /\ BitField.get_scopes row = Ok l.

(** C32: Let random codes and tokens never repeat, requested scopes be words without white
    space, and the MCP library let a refresh ask only for scopes of its token.  Then, however
    the requests of clients and users interleave and API tokens and users change, an access
    token that is accepted either is the text of an API token of the table, whose user is
    active, with that token's scopes, or was issued by the consent of its user to a client,
    with no scope that was not consented to; and a refresh token of the table that is found
    was issued by such a consent, to its own client. *)
Theorem tokens_have_consent w :
  reachable w ->
  (forall api t a, (load_access_token hash api (now w) t (st w)).1 = Some a ->
     api_token_of api t (at_user a) (at_scopes a) \/ exists client, covered (log w) (at_user a) client (at_scopes a))
  /\ forall t app i r, _find_refresh_token hash t app (st w) = Some (i, r) -> covered (log w) (rt_user r) (application_id r) (words (rt_scopes r)).
Proof.
  intros Hw%reachable_inv. split.
  - intros api t a H. destruct (loaded_token_origin w api t a Hw H) as [Hv|?]; [left|by right]. by apply validate_token_row.
  - intros t app i r (H & _)%find_refresh_Some. by apply (ok_rows _ _ (inv_store _ Hw)) in H.
Qed.

(** A tool that asks for scopes acts for a user only with an API token of theirs, while they
    are active, that has one of the scopes, or after they consented to one of them, and never
    without a token. *)
Theorem tool_needs_consent w api t required user :
  reachable w -> _check_scopes required (load_access_token hash api (now w) t (st w)).1 = Ok user ->
  exists sc, sc ∈ required /\ ((exists l, api_token_of api t user l /\ sc ∈ l) \/ exists client, covered (log w) user client [sc]).
Proof.
  intros Hw%reachable_inv H. unfold _check_scopes in H. destruct (load_access_token _ _ _ _ _).1 as [a|] eqn:E; [|done].
  destruct (existsb _ _) eqn:Ex; [|done]. injection H as <-. apply existsb_exists in Ex as (sc & Hin%list_elem_of_In & Hr%bool_decide_eq_true).
  exists sc. split; [done|]. destruct (loaded_token_origin _ _ _ _ Hw E) as [Hv%validate_token_row|(client & Hc)]; [left; by exists (at_scopes a)|].
  right. exists client. eapply covered_subset; [|done]. intros x ->%list_elem_of_singleton. done.
Qed.
End world.

(** ** Exchanges in sequence *)

Section exchanges.
Context (hash : ustr -> ustr) (api : ApiTokens).

Lemma find_refresh_None t app s :
  (forall i r, refresh s !! i = Some r -> token_digest r = hash t -> is_revoked r = true) -> _find_refresh_token hash t app s = None.
Proof.
  intros H. destruct (_find_refresh_token _ _ _ _) as [[i r]|] eqn:E; [|done]. exfalso. apply find_refresh_Some in E as (H1 & H2 & H3 & _).
  rewrite (H _ _ H1 H2) in H3. done.
Qed.

(** The one row of a digest is found. *)
Lemma find_refresh_unique t app s i r :
  refresh s !! i = Some r -> refresh_matches hash t app r = true -> (forall j r', refresh s !! j = Some r' -> token_digest r' = hash t -> j = i) ->
  _find_refresh_token hash t app s = Some (i, r).
Proof.
  intros Hi Hm Hu. unfold _find_refresh_token. destruct (find_first _ _) as [[j r']|] eqn:E.
  - pose proof (find_refresh_Some _ _ _ _ _ _ E) as (H1 & H2 & _). assert (j = i) as -> by eauto. rewrite Hi in H1. by injection H1 as <-.
  - exfalso. apply elem_of_map_to_list in Hi. apply (proj1 (find_first_None _ _) E) in Hi. cbn in Hi. by rewrite Hm in Hi.
Qed.

Lemma refresh_matches_new t user client d sc e :
  refresh_matches hash t (Some client) {| token_prefix := _token_prefix t; token_digest := hash t; application_id := client; rt_user := user; access_token_digest := d;
    rt_scopes := sc; rt_expires_at := e; is_revoked := false |} = true.
Proof. unfold refresh_matches. cbn [token_prefix application_id is_revoked token_digest]. by rewrite !ustr_eqb_refl. Qed.

(** A refresh rotates the pair of tokens, whatever happened before: if no new token was
    drawn before and the application is there, the exchange succeeds, the old refresh token is
    not found for any client, its access token is gone, the new refresh token is the client's
    and the new access token is accepted, of the same user, with the scopes asked for or those
    of the old token. *)
Theorem refresh_rotates w client f asked a t i r :
  reachable hash w -> _find_refresh_token hash (token f) None (st w) = Some (i, r) -> is_Some (apps (st w) !! client) ->
  (forall j x, refresh (st w) !! j = Some x -> token_digest x <> hash t) -> hash a <> access_token_digest r ->
  exists s, exchange_refresh_token hash (now w) client f asked a t (st w) = (Some (Ok tt), s)
    /\ (forall now' c, load_refresh_token hash now' c (token f) s = None)
    /\ access s !! access_token_digest r = None
    /\ option_map rf_client (load_refresh_token hash (now w) client t s) = Some client
    /\ option_map (fun x => (at_user x, at_scopes x)) (load_access_token hash api (now w) a s).1
       = Some (rt_user r, match asked with [] => rf_scopes f | _ => asked end).
Proof.
  intros Hw%reachable_inv Hfind Happ Hfresh Ha. pose proof (find_refresh_Some _ _ _ _ _ _ Hfind) as (Hi & Hd & _).
  unfold exchange_refresh_token. rewrite Hfind. unfold finish_refresh, create_refresh. rewrite bool_decide_eq_true_2 by done. eexists. split; [reflexivity|].
  pose proof (ok_ids _ _ (inv_store _ _ Hw) _ _ Hi) as Hlt.
  assert (refresh_is_old : forall j x, alter set_revoked i (refresh (st w)) !! j = Some x -> exists y, refresh (st w) !! j = Some y /\ token_digest x = token_digest y).
  { intros j x H. apply (marked_Some _ _ _ _ (marked_alter i (refresh (st w)))) in H as (y & Hy & Hs). exists y. split; [done|]. by apply same_row_fields in Hs as (-> & _). }
  split_and!.
  - intros now' c. unfold load_refresh_token. rewrite find_refresh_None; [done|]. cbn. intros j x [[<- <-]|[_ H]]%lookup_insert_Some Hx; [by apply Hfresh in Hi; cbn in Hx; congruence|].
    destruct (decide (j = i)) as [->|Hne]; [rewrite lookup_alter_eq, Hi in H; by injection H as <-|]. rewrite lookup_alter_ne in H by done.
    exfalso. apply Hne. eapply (ok_digests _ _ (inv_store _ _ Hw)); [done..|congruence].
  - cbn. rewrite lookup_insert_ne by done. apply lookup_delete_eq.
  - unfold load_refresh_token. erewrite find_refresh_unique; [|cbn; apply lookup_insert_eq|apply refresh_matches_new|].
    + cbn [rt_expires_at]. assert ((now w + REFRESH_TOKEN_LIFETIME <? now w) = false) as -> by (unfold REFRESH_TOKEN_LIFETIME; lia). by rewrite andb_false_r.
    + cbn. intros j x [[<- _]|[_ H]]%lookup_insert_Some Hx; [done|]. apply refresh_is_old in H as (y & Hy & E). exfalso. apply (Hfresh _ _ Hy). congruence.
  - unfold load_access_token, cached. cbn. rewrite lookup_insert_eq. assert ((now w <? now w + ACCESS_TOKEN_LIFETIME) = true) as E by (unfold ACCESS_TOKEN_LIFETIME; lia).
    rewrite E. cbn. rewrite E. done.
Qed.

(** After an access token was revoked it is accepted no more, unless it is an API token, and
    no refresh token that was paired with it is found. *)
Theorem revoked_access_dies t s now' :
  let s' := revoke_access hash t s in
  (load_access_token hash api now' t s').1
    = match validate_token api t with Some (user, l) => Some {| at_user := user; at_scopes := l; at_expires_at := None; at_resource := None |} | None => None end
  /\ forall t2 app i r, _find_refresh_token hash t2 app s' = Some (i, r) -> access_token_digest r <> hash t.
Proof.
  cbn. split.
  - unfold load_access_token, cached. cbn. by rewrite lookup_delete_eq.
  - intros t2 app i r (H & _ & Hr & _)%find_refresh_Some. cbn in H. rewrite lookup_fmap in H. destruct (refresh s !! i) as [r0|]; [|done]. cbn in H. injection H as <-.
    destruct (ustr_eqb (access_token_digest r0) (hash t)) eqn:E; [done|]. intros Hx. by rewrite Hx, ustr_eqb_refl in E.
Qed.

(** The whole of a login: a user consents to the request of a client, the client exchanges the
    code in time, and from then on its access token acts as the user with exactly the consented
    scopes, until it expires; the code is used up and no other client could load it. *)
Theorem consent_to_token s user d new_code a r t0 t1 t2 :
  is_Some (apps s !! pl_client d) -> t0 <= t1 < t0 + AUTH_CODE_LIFETIME -> t1 <= t2 ->
  let s1 := (oauth_consent hash t0 user d new_code s).2 in
  (forall client, client <> pl_client d -> load_authorization_code hash t1 client new_code s1 = None) /\
  exists c s2, load_authorization_code hash t1 (pl_client d) new_code s1 = Some c
    /\ exchange_authorization_code hash t1 (pl_client d) c a r s1 = (Some (Ok tt), s2)
    /\ (forall t client, load_authorization_code hash t client new_code s2 = None)
    /\ (t2 < t1 + ACCESS_TOKEN_LIFETIME ->
        (load_access_token hash api t2 a s2).1
        = Some {| at_user := user; at_scopes := default [] (pl_scopes d); at_expires_at := Some (t1 + ACCESS_TOKEN_LIFETIME); at_resource := pl_resource d |})
    /\ (t1 + ACCESS_TOKEN_LIFETIME <= t2 -> validate_token api a = None -> (load_access_token hash api t2 a s2).1 = None).
Proof.
  intros Happ Ht0 Ht1 s1.
  assert (cached t1 (hash new_code) (grants s1) = Some (grant_of t0 user d)) as Hc.
  { unfold cached, s1. cbn. rewrite lookup_insert_eq. by assert ((t1 <? t0 + AUTH_CODE_LIFETIME) = true) as -> by lia. }
  split; [intros client Hne; unfold load_authorization_code; rewrite Hc; cbn; destruct (ustr_eqb _ _) eqn:E; [apply ustr_eqb_eq in E; congruence|done]|].
  eexists _, _. split; [unfold load_authorization_code; rewrite Hc; cbn; by rewrite ustr_eqb_refl|].
  split; [unfold exchange_authorization_code, read_grant; cbn [code]; rewrite Hc; cbn; unfold finish_code, create_refresh; cbn; by rewrite bool_decide_eq_true_2|].
  split_and!.
  - intros t client. unfold load_authorization_code, cached. cbn. by rewrite lookup_delete_eq.
  - intros Hlt. unfold load_access_token, cached. cbn. rewrite lookup_insert_eq. assert ((t2 <? t1 + ACCESS_TOKEN_LIFETIME) = true) as E by lia. rewrite E. cbn. rewrite E. done.
  - intros Hlt Hv. unfold load_access_token, cached. cbn. rewrite lookup_insert_eq. assert ((t2 <? t1 + ACCESS_TOKEN_LIFETIME) = false) as -> by lia. by rewrite Hv.
Qed.
End exchanges.

(** ** Concrete runs *)

Definition demo_client : Client := {| client_id := u "cli"; scope := Some (u "event:read org:read"); client_secret_expires_at := None |}.
Definition demo_params : Params := {| state := Some (u "xyz"); scopes := None; code_challenge := u "ch"; redirect_uri := u "http://localhost/cb"; explicit := true; resource := None |}.
Definition demo_hash (t : ustr) : ustr := u "h" ++ t.
Definition no_api_token : ApiTokens := {| api_tokens := {| BitField.rows := ∅; BitField.next_id := 1 |}; user_active := fun _ => true |}.

Definition demo_request : Payload := authorize demo_client demo_params.

(** The client is registered, the user 7 consents at 10 and the client loads the code. *)
Definition demo_consented (hash : ustr -> ustr) : Store :=
  (oauth_consent hash 10 7 demo_request (u "code1")
     {| apps := {[u "cli" := demo_client]}; grants := ∅; access := ∅; refresh := ∅; next_id := 1 |}).2.

Definition demo_code : AuthorizationCode :=
  {| code := u "code1"; ac_scopes := [u "event:read"; u "org:read"]; ac_expires_at := 310; ac_client := u "cli"; ac_challenge := u "ch";
     ac_redirect := u "http://localhost/cb"; ac_explicit := true; ac_resource := None |}.

Definition demo_log : list Event :=
  [GrantRead (u "cli") demo_code 7; CodeLoaded (u "cli") demo_code; Consented 7 (u "hcode1") (grant_of 10 7 demo_request); Signed demo_request 10].

Definition demo_world : World :=
  {| st := (finish_code demo_hash 10 (u "cli") demo_code 7 (u "access1") (u "refresh1") (demo_consented demo_hash)).2; now := 10; log := demo_log |}.

Lemma demo_reachable : reachable demo_hash demo_world.
Proof.
  set (s0 := {| apps := {[u "cli" := demo_client]}; grants := ∅; access := ∅; refresh := ∅; next_id := 1 |} : Store).
  assert (reachable demo_hash {| st := s0; now := 10; log := [] |}) as H0.
  { eapply Step; [apply (Start _ 10)|]. apply (Register _ {| st := _; now := _; log := _ |} demo_client). by_compute. }
  assert (reachable demo_hash {| st := s0; now := 10; log := [Signed demo_request 10] |}) as H1.
  { eapply Step; [exact H0|]. apply (Authorize _ {| st := s0; now := 10; log := [] |} (u "cli") demo_client demo_params); [by_compute|constructor]. }
  assert (reachable demo_hash {| st := demo_consented demo_hash; now := 10; log := drop 2 demo_log |}) as H2.
  { eapply Step; [exact H1|]. apply (Consent _ {| st := s0; now := 10; log := [Signed demo_request 10] |} 7 demo_request 10 (u "code1")); [by left|cbn; unfold SIGNED_DATA_MAX_AGE; lia|].
    intros v g H. apply elem_of_cons in H as [H|H]; [discriminate|by apply elem_of_nil in H]. }
  assert (reachable demo_hash {| st := demo_consented demo_hash; now := 10; log := drop 1 demo_log |}) as H3.
  { eapply Step; [exact H2|]. apply (LoadCode _ {| st := demo_consented demo_hash; now := 10; log := drop 2 demo_log |} (u "cli") (u "code1") demo_code). by_compute. }
  assert (reachable demo_hash {| st := demo_consented demo_hash; now := 10; log := demo_log |}) as H4.
  { eapply Step; [exact H3|]. apply (ReadGrant _ {| st := demo_consented demo_hash; now := 10; log := drop 1 demo_log |} (u "cli") demo_code 7); [by left|by_compute]. }
  eapply Step; [exact H4|]. apply (FinishCode _ {| st := demo_consented demo_hash; now := 10; log := demo_log |} (u "cli") demo_code 7 (u "access1") (u "refresh1")); [by left|].
  intros i x H. cbn in H. rewrite lookup_empty in H. discriminate.
Qed.

(** A token of user 5 that may read issues; all but user 6 are active. *)
Definition some_api_tokens : ApiTokens :=
  let row user text := {| BitField.token := text; BitField.user_id := user; BitField.label := [];
                          BitField.scopes := BitField.to_python BitField.scopes_field 128 |} in
  {| api_tokens := {| BitField.rows := {[1 := row 5 (u "api5"); 2 := row 6 (u "api6")]}; BitField.next_id := 3 |};
     user_active := fun user => negb (user =? 6) |}.

Example active_users_only :
  (validate_token some_api_tokens (u "api5"), validate_token some_api_tokens (u "api6")) = (Some (5, [u "event:read"]), None).
Proof. by_compute. Qed.

Lemma tokens_have_consent_witness :
  let a := {| at_user := 7; at_scopes := [u "event:read"; u "org:read"]; at_expires_at := Some 28810; at_resource := None |} in
  let b := {| at_user := 5; at_scopes := [u "event:read"]; at_expires_at := None; at_resource := None |} in
  (api_token_of some_api_tokens (u "access1") (at_user a) (at_scopes a) \/ exists client, covered (log demo_world) (at_user a) client (at_scopes a))
  /\ (api_token_of some_api_tokens (u "api5") (at_user b) (at_scopes b) \/ exists client, covered (log demo_world) (at_user b) client (at_scopes b)).
Proof.
  intros a b. split.
  - apply (proj1 (tokens_have_consent demo_hash demo_world demo_reachable) some_api_tokens (u "access1")). by_compute.
  - apply (proj1 (tokens_have_consent demo_hash demo_world demo_reachable) some_api_tokens (u "api5")). by_compute.
Defined.

Lemma tool_needs_consent_witness :
  exists sc, sc ∈ [u "event:read"; u "event:write"]
    /\ ((exists l, api_token_of no_api_token (u "access1") 7 l /\ sc ∈ l) \/ exists client, covered (log demo_world) 7 client [sc]).
Proof. apply (tool_needs_consent demo_hash demo_world no_api_token (u "access1")); [exact demo_reachable|by_compute]. Defined.

Lemma refresh_rotates_witness :
  let f := {| token := u "refresh1"; rf_client := u "cli"; rf_scopes := [u "event:read"; u "org:read"]; rf_expires_at := None |} in
  exists s, exchange_refresh_token demo_hash 10 (u "cli") f [u "org:read"] (u "access2") (u "refresh2") (st demo_world) = (Some (Ok tt), s)
    /\ (forall now' c, load_refresh_token demo_hash now' c (u "refresh1") s = None)
    /\ access s !! u "haccess1" = None
    /\ option_map rf_client (load_refresh_token demo_hash 10 (u "cli") (u "refresh2") s) = Some (u "cli")
    /\ option_map (fun x => (at_user x, at_scopes x)) (load_access_token demo_hash no_api_token 10 (u "access2") s).1 = Some (7, [u "org:read"]).
Proof.
  apply (refresh_rotates demo_hash no_api_token demo_world (u "cli")
    {| token := u "refresh1"; rf_client := u "cli"; rf_scopes := [u "event:read"; u "org:read"]; rf_expires_at := None |} [u "org:read"] (u "access2") (u "refresh2") 1
    {| token_prefix := u "refresh1"; token_digest := u "hrefresh1"; application_id := u "cli"; rt_user := 7; access_token_digest := u "haccess1";
       rt_scopes := u "event:read org:read"; rt_expires_at := Some 2592010; is_revoked := false |}).
  - exact demo_reachable.
  - by_compute.
  - exists demo_client. by_compute.
  - intros j x H. change (<[1 := {| token_prefix := u "refresh1"; token_digest := u "hrefresh1"; application_id := u "cli"; rt_user := 7; access_token_digest := u "haccess1";
       rt_scopes := u "event:read org:read"; rt_expires_at := Some 2592010; is_revoked := false |}]> (∅ : gmap Z OAuthRefreshToken) !! j = Some x) in H.
    apply lookup_insert_Some in H as [[_ <-]|[_ H]]; [by vm_compute|]. rewrite lookup_empty in H. discriminate.
  - by vm_compute.
Defined.

Lemma consent_to_token_witness :
  let s := {| apps := {[u "cli" := demo_client]}; grants := ∅; access := ∅; refresh := ∅; next_id := 1 |} in
  load_authorization_code _hash_token 20 (u "other") (u "code1") (demo_consented _hash_token) = None
  /\ is_Some (load_authorization_code _hash_token 20 (u "cli") (u "code1") (demo_consented _hash_token)).
Proof.
  intros s. destruct (consent_to_token _hash_token no_api_token s 7 demo_request (u "code1") (u "access1") (u "refresh1") 10 20 20) as [H1 (c & _ & H2 & _)].
  - exists demo_client. by_compute.
  - unfold AUTH_CODE_LIFETIME. lia.
  - lia.
  - split; [by apply H1|]. exists c. exact H2.
Defined.

(** Two exchanges that read the grant before either deletes it both get tokens. *)
Example code_used_twice :
  let s := demo_consented _hash_token in
  let '(r1, s1) := finish_code _hash_token 11 (u "cli") demo_code 7 (u "access1") (u "refresh1") s in
  let '(r2, s2) := finish_code _hash_token 11 (u "cli") demo_code 7 (u "access2") (u "refresh2") s1 in
  (read_grant _hash_token 11 demo_code s, r1, r2, map (fun t => at_user <$> (load_access_token _hash_token no_api_token 12 t s2).1) [u "access1"; u "access2"],
    map (fun t => rf_client <$> load_refresh_token _hash_token 12 (u "cli") t s2) [u "refresh1"; u "refresh2"])
  = (Some 7, Ok tt, Ok tt, [Some 7; Some 7], [Some (u "cli"); Some (u "cli")]).
Proof. by_compute. Qed.

(** The state a client chose goes into the address as it is. *)
Example state_unescaped :
  (oauth_consent _hash_token 10 7 {| pl_client := u "cli"; pl_state := Some (u "a&code=b#c"); pl_scopes := None; pl_challenge := []; pl_redirect := u "http://x/cb"; pl_explicit := true;
     pl_resource := None |} (u "code1") {| apps := ∅; grants := ∅; access := ∅; refresh := ∅; next_id := 1 |}).1
  = u "http://x/cb?code=code1&state=a&code=b#c".
Proof. by_compute. Qed.

(** The resource a token was asked for is not kept when it is refreshed. *)
Example refresh_drops_resource :
  let c := {| code := u "code1"; ac_scopes := []; ac_expires_at := 310; ac_client := u "cli"; ac_challenge := []; ac_redirect := []; ac_explicit := true;
              ac_resource := Some (u "https://mcp") |} in
  let s1 := (finish_code _hash_token 11 (u "cli") c 7 (u "access1") (u "refresh1") (demo_consented _hash_token)).2 in
  let f := {| token := u "refresh1"; rf_client := u "cli"; rf_scopes := []; rf_expires_at := None |} in
  let s2 := (exchange_refresh_token _hash_token 12 (u "cli") f [] (u "access2") (u "refresh2") s1).2 in
  (at_resource <$> (load_access_token _hash_token no_api_token 12 (u "access1") s1).1, at_resource <$> (load_access_token _hash_token no_api_token 12 (u "access2") s2).1)
  = (Some (Some (u "https://mcp")), Some None).
Proof. by_compute. Qed.

(** A token keeps working when the user is no longer active; an API token does not. *)
Example inactive_user_keeps_token :
  let api := {| api_tokens := {| BitField.rows := {[1 := {| BitField.token := u "api7"; BitField.user_id := 7; BitField.label := [];
                  BitField.scopes := BitField.to_python BitField.scopes_field 128 |}]}; BitField.next_id := 2 |};
                user_active := fun _ => false |} in
  let s := (finish_code _hash_token 11 (u "cli") demo_code 7 (u "access1") (u "refresh1") (demo_consented _hash_token)).2 in
  (_check_scopes [u "event:read"] (load_access_token _hash_token api 12 (u "access1") s).1,
   _check_scopes [u "event:write"] (load_access_token _hash_token api 12 (u "access1") s).1,
   _check_scopes [u "event:read"] (load_access_token _hash_token api 12 (u "api7") s).1)
  = (Ok 7, Raise ValueError, Raise ValueError).
Proof. by_compute. Qed.
