(* ===== verification/Stripe.v ===== *)
(** * Stripe: tables and webhooks

    [apps/stripe/views.py] with the tables of [apps/stripe/models.py] and the helpers of
    [apps/stripe/utils.py]: the signature of a webhook, the protection against repeated and
    late events, and what product, price, subscription and meter events do.

    Times are microseconds, Stripe's own are seconds; a text of bytes is a list of their
    values. The answers of Stripe's API, Pydantic's reading of a body, and which outside call
    fails are in the environment of a request. *)
From S2P Require Import Prelude PyStr PyValue PyDate UrlValidation PyHash Cursor Usage.

(** ** What Stripe sends *)

Notation metadata := (adict ustr ustr).

(** [price.product], which Stripe can expand to an object. *)
Inductive ProductRef := PId (id : ustr) | PObject | PNull.

(** The fields read of [recurring] are texts or null. *)
Record Price := {
  price_id : ustr; price_product : ProductRef; recurring : option (adict ustr (option ustr)); unit_amount : option Z;
  price_metadata : option metadata; price_nickname : option ustr }.

Record Product := {
  product_id : ustr; product_name : ustr; description : option ustr; marketing_features : list value; product_metadata : metadata }.

Record SubscriptionItem := { item_id : ustr; item_price : Price; item_period_start : Z; item_period_end : Z }.

Record Subscription := {
  sub_id : ustr; items : list SubscriptionItem; sub_created : Z; status : ustr; sub_metadata : option metadata; start_date : Z;
  collection_method : ustr; customer : ustr }.

Record Customer := { customer_id : ustr; email : option ustr; customer_metadata : option metadata }.

Inductive Object := OProduct (p : Product) | OPrice (p : Price) | OSubscription (s : Subscription).

Definition object_id (o : Object) : ustr :=
  match o with OProduct p => product_id p | OPrice p => price_id p | OSubscription s => sub_id s end.

Record StripeEvent := { event_id : ustr; event_created : Z; event_object : Object; event_type : ustr }.

Record MeterErrorType := { code : ustr; error_count : Z; sample_errors : list ustr }.
Record MeterErrorData := { developer_message_summary : ustr; reason : option (list MeterErrorType) }.
Record ThinEvent := { thin_id : ustr; thin_type : ustr; thin_data : option MeterErrorData; related_object : option ustr }.

(** ** Tables *)

Record ProductRow := {
  pr_name : ustr; pr_description : ustr; pr_default_price : option ustr; pr_events : Z; pr_public : bool; pr_overage : bool;
  pr_features : list value }.

(** [pc_price] is in cents. *)
Record PriceRow := {
  pc_price : Z; pc_nickname : ustr; pc_product : ustr; pc_no_throttle : bool; pc_public : bool; pc_metered : bool; pc_meter : ustr;
  pc_interval : ustr }.

Record SubRow := {
  s_created : Z; s_period_start : Z; s_period_end : Z; s_price : ustr; s_org : option Z; s_status : ustr; s_method : ustr;
  s_start : Z; s_cycle_start : option Z; s_cycle_end : option Z; s_metered_item : ustr; s_units_reported : Z; s_overage_start : option Z }.

Record OrgRow := {
  o_customer : ustr; o_primary : option ustr; o_metered : bool; o_cap : Z; o_created : Z; o_slug : ustr; o_rate : Z;
  o_users : list Z; o_owners : list Z }.

Record DB := { products : gmap ustr ProductRow; prices : gmap ustr PriceRow; subs : gmap ustr SubRow; orgs : gmap Z OrgRow }.

Definition ACTIVE_SUBSCRIPTION_STATUSES : list ustr := [u "active"; u "past_due"; u "trialing"].
Definition is_active (st : ustr) : bool := bool_decide (st ∈ ACTIVE_SUBSCRIPTION_STATUSES).

(** ** Effects and exceptions *)

Inductive Effect :=
  | ThrottleCheck (org : Z) (bypass_cache : bool)
  | Forwarded (url : ustr) (signature : option ustr) (body : list Z)
  | WelcomeSent (to license_key : ustr)
  | Post (endpoint : ustr) (data : list (ustr * ustr))
  | Delete (endpoint : ustr)
  | MeterReport (meter event_type summary codes samples : ustr).

(** [mark_welcome_sent] *)
Definition WelcomeMarked (subscription : ustr) : Effect := Post (u "subscriptions/" ++ subscription) [(u "metadata[welcome_sent]", u "true")].

(** [cache] holds values with their expiry; [None] is a stored [None]. *)
Record Backend := { db : DB; cache : gmap ustr (option Z * Z); effects : list Effect }.

Definition M (A : Type) : Type := Backend -> Backend * res A.
Definition ret {A} (a : A) : M A := fun w => (w, Ok a).
Definition raise {A} (e : exn) : M A := fun w => (w, Raise e).
Definition lift {A} (r : res A) : M A := fun w => (w, r).
Definition bindM {A B} (m : M A) (k : A -> M B) : M B :=
  fun w => match m w with (w, Ok a) => k a w | (w, Raise e) => (w, Raise e) end.
Notation "'let!' x ':=' m 'in' k" := (bindM m (fun x => k)) (at level 200, x pattern, right associativity) : gt_scope.
Notation "m ';;;' k" := (bindM m (fun _ => k)) (at level 199, right associativity) : gt_scope.

Definition get_db : M DB := fun w => (w, Ok (db w)).
(** One statement of the database, a transaction of its own. *)
Definition execute (f : DB -> res DB) : M unit :=
  fun w => match f (db w) with
           | Ok d => ({| db := d; cache := cache w; effects := effects w |}, Ok tt)
           | Raise e => (w, Raise e)
           end.
Definition emit (e : Effect) : M unit := fun w => ({| db := db w; cache := cache w; effects := effects w ++ [e] |}, Ok tt).
(** A call that happens or raises. *)
Definition call (ok : bool) (e : Effect) : M unit := if ok then emit e else raise OSError.

(** [try: m  except Exception: handler; raise] *)
Definition on_error {A} (m : M A) (handler : M unit) : M A :=
  fun w => match m w with
           | (w, Ok a) => (w, Ok a)
           | (w, Raise e) => match handler w with (w, Ok _) => (w, Raise e) | (w, Raise e) => (w, Raise e) end
           end.

(** ** Environment of a request *)

Record Env := {
  now : Z; STRIPE_REGION : ustr; STRIPE_REGION_DOMAINS : adict ustr ustr; EMAIL_ENABLED : bool;
  webhook_secret : option ustr -> list Z; STRIPE_WEBHOOK_TOLERANCE : Z;
  get_customer : ustr -> res Customer; get_product : ustr -> res Product; get_v2_event : ustr -> res ThinEvent;
  add_months : Z -> Z -> Z; forward_ok : bool; email_ok : bool; mark_ok : bool; enqueue_ok : bool }.

(** ** Reading texts *)

Fixpoint int_digits (after_digit : bool) (s : ustr) (acc : Z) : option Z :=
  match s with
  | [] => if after_digit then Some acc else None
  | c :: s =>
      if is_digit c then int_digits true s (10 * acc + (c - 48))
      else if (c =? 95) && after_digit then int_digits false s acc
      else None
  end.

(** [int(s)] of a text with ASCII digits, [None] for a [ValueError]. *)
Definition int_text (s : ustr) : option Z :=
  match strip s with
  | 45 :: s => Z.opp <$> int_digits false s 0
  | 43 :: s => int_digits false s 0
  | s => int_digits false s 0
  end.

Definition mget (k : string) (m : option metadata) : option ustr := d ← m; aget (u k) d.
Definition mget_str (k : string) (m : option metadata) : ustr := default [] (mget k m).
Arguments mget _%_string _.
Arguments mget_str _%_string _.

Definition is_true_text (s : ustr) : bool := ustr_eqb (lower s) (u "true").

(** [recurring.get(k)] *)
Definition rget (k : string) (p : Price) : option ustr :=
  match recurring p with Some d => default None (aget (u k) d) | None => None end.
Arguments rget _%_string _.

Definition is_metered_price (p : Price) : bool :=
  bool_decide (rget "usage_type" p = Some (u "metered")) || otruthy (rget "meter" p).

(** [recurring.get("interval", "month")]; a null there violates the column. *)
Definition interval_of (p : Price) : res ustr :=
  match (d ← recurring p; aget (u "interval") d) with
  | None => Ok (u "month")
  | Some (Some s) => Ok s
  | Some None => Raise IntegrityError
  end.

Fixpoint select_items (base metered : option SubscriptionItem) (l : list SubscriptionItem) : option SubscriptionItem * option SubscriptionItem :=
  match l with
  | [] => (base, metered)
  | i :: l =>
      if is_metered_price (item_price i) then select_items base (match metered with Some m => Some m | None => Some i end) l
      else select_items (match base with Some b => Some b | None => Some i end) metered l
  end.

Definition select_subscription_items (l : list SubscriptionItem) : option SubscriptionItem * option SubscriptionItem :=
  let '(base, metered) := select_items None None l in
  (match base with Some b => Some b | None => head l end, metered).

(** Datetimes are of the years 1 to 9999. *)
Definition unix_to_datetime (timestamp : Z) : res Z :=
  if (-62135596800 <=? timestamp) && (timestamp <=? 253402300799) then Ok (timestamp * 1000000) else Raise ValueError.

(** ** Statements *)

(** A text of at most [n] characters. *)
Definition fits (n : Z) (s : ustr) : bool := len s <=? n.
Definition BIGINT : Z := 2 ^ 63.

(** The [CHECK] of a [PositiveBigIntegerField] and its width. *)
Definition positive_big (n : Z) : res unit :=
  if BIGINT <=? n then Raise DataError else if n <? 0 then Raise IntegrityError else Ok tt.

Definition price_ref (p : ProductRef) : option ustr := match p with PId i => Some i | _ => None end.

Record ProductFields := {
  f_name : ustr; f_description : option ustr; f_events : Z; f_public : bool; f_overage : bool; f_features : list value }.

(** [StripeProduct.objects.aupdate_or_create(stripe_id=id, defaults=fields)] *)
Definition upsert_product (id : ustr) (f : ProductFields) (d : DB) : res DB :=
  match f_description f with
  | None => Raise IntegrityError
  | Some text =>
      let* _ := positive_big (f_events f) in
      if negb (fits 30 id) then Raise DataError
      else
        let row := {| pr_name := f_name f; pr_description := text; pr_default_price := products d !! id ≫= pr_default_price;
                      pr_events := f_events f; pr_public := f_public f; pr_overage := f_overage f; pr_features := f_features f |} in
        Ok {| products := <[id := row]> (products d); prices := prices d; subs := subs d; orgs := orgs d |}
  end.

(** [DecimalField(max_digits=10, decimal_places=2)] *)
Definition decimal_ok (cents : Z) : bool := Z.abs cents <? 10 ^ 10.

Definition price_row_ok (id : ustr) (r : PriceRow) : bool :=
  fits 30 id && decimal_ok (pc_price r) && fits 255 (pc_nickname r) && fits 255 (pc_meter r) && fits 20 (pc_interval r).

(** [StripePrice.objects.aupdate_or_create] with every field. *)
Definition upsert_price (id : ustr) (r : PriceRow) (d : DB) : res DB :=
  if negb (price_row_ok id r) then Raise DataError
  else
    match products d !! pc_product r with
    | None => Raise IntegrityError
    | Some _ => Ok {| products := products d; prices := <[id := r]> (prices d); subs := subs d; orgs := orgs d |}
    end.

Definition sub_row_ok (id : ustr) (r : SubRow) : bool :=
  fits 30 id && fits 18 (s_status r) && fits 20 (s_method r) && fits 255 (s_metered_item r).

(** Both foreign keys of a subscription. *)
Definition sub_keys_ok (r : SubRow) (d : DB) : bool :=
  bool_decide (is_Some (prices d !! s_price r)) && match s_org r with Some o => bool_decide (is_Some (orgs d !! o)) | None => true end.

(** [StripeSubscription.objects.aupdate_or_create]: the overage counter is not among its fields. *)
Definition upsert_sub (id : ustr) (r : SubRow) (d : DB) : res DB :=
  if negb (sub_row_ok id r) then Raise DataError
  else if negb (sub_keys_ok r d) then Raise IntegrityError
  else
    let old := subs d !! id in
    let r := {| s_created := s_created r; s_period_start := s_period_start r; s_period_end := s_period_end r; s_price := s_price r;
                s_org := s_org r; s_status := s_status r; s_method := s_method r; s_start := s_start r; s_cycle_start := s_cycle_start r;
                s_cycle_end := s_cycle_end r; s_metered_item := s_metered_item r;
                s_units_reported := default 0 (s_units_reported <$> old); s_overage_start := old ≫= s_overage_start |} in
    Ok {| products := products d; prices := prices d; subs := <[id := r]> (subs d); orgs := orgs d |}.

Definition update_org (org : Z) (f : OrgRow -> OrgRow) (d : DB) : res DB :=
  Ok {| products := products d; prices := prices d; subs := subs d; orgs := alter f org (orgs d) |}.

Definition set_primary (p : option ustr) (o : OrgRow) : OrgRow :=
  {| o_customer := o_customer o; o_primary := p; o_metered := o_metered o; o_cap := o_cap o; o_created := o_created o; o_slug := o_slug o;
     o_rate := o_rate o; o_users := o_users o; o_owners := o_owners o |}.

(** ** Products and prices *)

(** [[f["name"] for f in features if f.get("name")]] *)
Fixpoint feature_names (l : list value) : res (list value) :=
  match l with
  | [] => Ok []
  | f :: l =>
      let* name := vget "name" f in
      let* rest := feature_names l in
      Ok (if vtruthy name then name :: rest else rest)
  end.

(** [int(metadata.get("events", 0))] *)
Definition events_of (m : metadata) : res Z :=
  match mget "events" (Some m) with
  | None => Ok 0
  | Some s => match int_text s with Some n => Ok n | None => Raise ValueError end
  end.

Definition product_type (m : metadata) : ustr := lower (mget_str "product_type" (Some m)).
Definition is_overage (m : metadata) : bool := ustr_eqb (product_type m) (u "overage").

(** Neither a hosted plan nor the overage product. *)
Definition not_sold (m : metadata) : bool :=
  negb (is_overage m) && (bool_decide (mget "events" (Some m) = None) || negb (ustr_eqb (product_type m) (u "hosted"))).

Definition update_product (product : Product) : M unit :=
  let m := product_metadata product in
  if not_sold m then ret tt
  else
    let! events := lift (events_of m) in
    let! features := lift (feature_names (marketing_features product)) in
    execute (upsert_product (product_id product)
      {| f_name := product_name product; f_description := description product; f_events := events;
         f_public := bool_decide (mget "is_public" (Some m) = Some (u "true")); f_overage := is_overage m; f_features := features |}).

Definition unit_amount_truthy (p : Price) : bool := match unit_amount p with Some n => negb (n =? 0) | None => false end.

(** Whether the product of a price is known. *)
Definition product_known (p : Price) (d : DB) : option ustr :=
  i ← price_ref (price_product p); _ ← products d !! i; Some i.

Definition update_price (price : Price) : M unit :=
  let metered := is_metered_price price in
  let! d := get_db in
  match negb (unit_amount_truthy price) && negb metered, product_known price d with
  | false, Some product =>
      let m := price_metadata price in
      let! interval := lift (interval_of price) in
      execute (upsert_price (price_id price)
        {| pc_price := default 0 (unit_amount price); pc_nickname := default [] (price_nickname price); pc_product := product;
           pc_no_throttle := is_true_text (mget_str "no_throttle" m); pc_public := is_true_text (mget_str "is_public" m);
           pc_metered := metered; pc_meter := default [] (rget "meter" price); pc_interval := interval |})
  | _, _ => ret tt
  end.

(** ** Subscriptions *)

(** [(active subscriptions of the organization).order_by("-price__product__events",
    "-created").first()]; SQL leaves ties open, here the first of the table wins. *)
Definition plan_events (d : DB) (r : SubRow) : Z :=
  default 0 (p ← prices d !! s_price r; pr_events <$> products d !! pc_product p).

Definition sub_key (d : DB) (kv : ustr * SubRow) : Z * Z := (plan_events d kv.2, s_created kv.2).
Definition key_lt (a b : Z * Z) : bool := (a.1 <? b.1) || ((a.1 =? b.1) && (a.2 <? b.2)).

Definition better (d : DB) (best : option (ustr * SubRow)) (kv : ustr * SubRow) : option (ustr * SubRow) :=
  match best with
  | Some b => if key_lt (sub_key d b) (sub_key d kv) then Some kv else best
  | None => Some kv
  end.

Definition active_subs (d : DB) (org : Z) : list (ustr * SubRow) :=
  filter (fun kv => s_org kv.2 = Some org /\ is_active (s_status kv.2) = true) (map_to_list (subs d)).

Definition get_primary_subscription (d : DB) (org : Z) : option ustr := fst <$> foldl (better d) None (active_subs d org).

Section request.
Context (env : Env).

Definition handle_support_subscription (s : Subscription) (customer_obj : Customer) : M bool :=
  if truthy (mget_str "welcome_sent" (sub_metadata s)) then ret true
  else
    match items s with
    | [] => raise IndexError
    | i :: _ =>
        match price_product (item_price i) with
        | PId product_id =>
            if negb (truthy product_id) then ret false
            else
              let! product := lift (get_product env product_id) in
              if negb (ustr_eqb (lower (mget_str "product_type" (Some (product_metadata product)))) (u "support")) then ret false
              else if negb (is_active (status s)) then ret true
              else if negb (EMAIL_ENABLED env) then ret true
              else if negb (otruthy (email customer_obj)) then ret true
              else
                call (email_ok env) (WelcomeSent (default [] (email customer_obj)) (sub_id s)) ;;;
                call (mark_ok env) (WelcomeMarked (sub_id s)) ;;;
                ret true
        | _ => ret false
        end
    end.

(** [int(org_id_raw)], with 0 and what is no number as [None]. *)
Definition organization_id_of (m : option metadata) : option Z :=
  match match mget "organization_id" m with Some s => Some s | None => mget "djstripe_subscriber" m end with
  | Some raw => match int_text raw with Some n => if n =? 0 then None else Some n | None => None end
  | None => None
  end.

Record WebhookRequest := { from_region : option ustr; signature_header : option ustr; path : ustr; body : list Z }.

(** A webhook of another region's customer. *)
Definition forward (region : ustr) (h : WebhookRequest) : M unit :=
  if otruthy (from_region h) then ret tt
  else
    match aget region (STRIPE_REGION_DOMAINS env) with
    | Some forward_region =>
        if truthy forward_region then call (forward_ok env) (Forwarded (forward_region ++ path h) (signature_header h) (body h)) else ret tt
    | None => ret tt
    end.

Definition is_annual_price (p : Price) : bool := bool_decide (rget "interval" p = Some (u "year")).

(** The row a subscription of Stripe stands for; counters are not written. *)
Definition sub_row (s : Subscription) (base : SubscriptionItem) (metered : option SubscriptionItem) (org : Z) : res SubRow :=
  let* period_start := unix_to_datetime (item_period_start base) in
  let* period_end := unix_to_datetime (item_period_end base) in
  let '(cycle_start, cycle_end) := compute_cycle (add_months env) (now env) period_start period_end (is_annual_price (item_price base)) in
  let* created := unix_to_datetime (sub_created s) in
  let* start := unix_to_datetime (start_date s) in
  Ok {| s_created := created; s_period_start := period_start; s_period_end := period_end; s_price := price_id (item_price base);
        s_org := Some org; s_status := status s; s_method := collection_method s; s_start := start; s_cycle_start := Some cycle_start;
        s_cycle_end := Some cycle_end; s_metered_item := default [] (item_id <$> metered); s_units_reported := 0; s_overage_start := None |}.

(** What follows the stored subscription. [organization] was read before. *)
Definition set_primary_of (sid : ustr) (st : ustr) (org : Z) (organization : OrgRow) : M unit :=
  if is_active st then
    let! d := get_db in
    let primary := get_primary_subscription d org in
    (if bool_decide (primary <> None) && negb (bool_decide (primary = o_primary organization))
     then execute (update_org org (set_primary primary)) else ret tt) ;;;
    call (enqueue_ok env) (ThrottleCheck org true)
  else if bool_decide (o_primary organization = Some sid) then execute (update_org org (set_primary None))
  else ret tt.

Definition store_subscription (s : Subscription) (org : Z) (organization : OrgRow) : M unit :=
  match select_subscription_items (items s) with
  | (None, _) => ret tt
  | (Some base, metered) =>
      let! row := lift (sub_row s base metered org) in
      execute (upsert_sub (sub_id s) row) ;;;
      set_primary_of (sub_id s) (status s) org organization
  end.

Definition update_subscription (s : Subscription) (h : WebhookRequest) : M unit :=
  let! customer_obj := lift (get_customer env (customer s)) in
  let m := customer_metadata customer_obj in
  match organization_id_of m with
  | None => let! _ := handle_support_subscription s customer_obj in ret tt
  | Some organization_id =>
      let region := mget_str "region" m in
      if negb (ustr_eqb region (STRIPE_REGION env)) then forward region h
      else
        let! d := get_db in
        match orgs d !! organization_id with
        | None => ret tt
        | Some organization => store_subscription s organization_id organization
        end
  end.

(** ** The cache *)

Definition TIMEOUT : Z := 600 * 1000000.

Definition cache_lookup (key : ustr) (w : Backend) : option (option Z) :=
  match cache w !! key with
  | Some (v, expiry) => if now env <? expiry then Some v else None
  | None => None
  end.

Definition cache_store (key : ustr) (v : option Z) (w : Backend) : Backend :=
  {| db := db w; cache := <[key := (v, now env + TIMEOUT)]> (cache w); effects := effects w |}.

Definition cache_add (key : ustr) : M bool :=
  fun w => match cache_lookup key w with Some _ => (w, Ok false) | None => (cache_store key None w, Ok true) end.

Definition cache_get_or_set (key : ustr) (v : Z) : M (option Z) :=
  fun w => match cache_lookup key w with Some old => (w, Ok old) | None => (cache_store key (Some v) w, Ok (Some v)) end.

Definition cache_delete (key : ustr) : M unit :=
  fun w => ({| db := db w; cache := delete key (cache w); effects := effects w |}, Ok tt).

Definition dedup_key (id : ustr) : ustr := u "stripe" ++ id.

(** ** The signature *)

(** [for part in sig_header.split(","): key, value = part.strip().split("=", 1)] *)
Fixpoint signature_parts (l : list ustr) (parts : adict ustr ustr) : res (adict ustr ustr) :=
  match l with
  | [] => Ok parts
  | part :: l =>
      match partition 61 (strip part) with
      | (key, true, value) => signature_parts l (aset (strip key) (strip value) parts)
      | _ => Raise ValueError
      end
  end.

Definition signed_payload (timestamp : Z) (payload : list Z) : list Z := str_of_Z timestamp ++ u "." ++ payload.

(** The last part of the check; [secret] is not empty. *)
Definition check_signature (secret payload : list Z) (timestamp : Z) (signature : ustr) : res bool :=
  if STRIPE_WEBHOOK_TOLERANCE env <? now env - timestamp * 1000000 then Ok false
  else
    match decode true 0 payload with
    | None => Raise ValueError
    | Some _ => Ok (ustr_eqb signature (hexdigest (hmac_sha256 secret (signed_payload timestamp payload))))
    end.

Definition verify_stripe_signature (payload : list Z) (sig_header : ustr) (event_type : option ustr) : res bool :=
  let secret := webhook_secret env event_type in
  match secret with
  | [] => Ok false
  | _ =>
      let* parts := signature_parts (split_on 44 sig_header) [] in
      match aget (u "t") parts with
      | None => Ok false
      | Some t =>
          match int_text t with
          | None => Raise ValueError
          | Some timestamp =>
              match aget (u "v1") parts with
              | Some signature =>
                  if (timestamp =? 0) || negb (truthy signature) then Raise ValueError else check_signature secret payload timestamp signature
              | None => Raise ValueError
              end
          end
      end
  end.

(** ** The view *)

(** [re.fullmatch(r"evt_\w+", event_id)] *)
Definition v2_event_id (s : ustr) : bool :=
  startswith (u "evt_") s && (4 <? len s) && forallb is_word (drop 4 s).

Definition fetch_v2_event (id : ustr) : res ThinEvent := if v2_event_id id then get_v2_event env id else Raise ValueError.

Definition meter_report (event : ThinEvent) (data : option MeterErrorData) : Effect :=
  let reason := match data with Some d => reason d | None => None end in
  let types := default [] reason in
  MeterReport (default (u "unknown") (related_object event)) (thin_type event) (default [] (developer_message_summary <$> data))
    (join (u ", ") (map (fun t => code t ++ u " x" ++ str_of_Z (error_count t)) types))
    (join (u "; ") (concat (map (fun t => take 2 (sample_errors t)) types))).

Section parsers.
(** Pydantic's reading of the body, [None] for a [ValidationError]. *)
Context (parse_event : list Z -> option StripeEvent) (parse_thin : list Z -> option ThinEvent).

Definition handle_meter_error_event (payload : list Z) : M Z :=
  match parse_thin payload with
  | None => ret 200
  | Some event =>
      if negb (startswith (u "v1.billing.meter.") (thin_type event)) then ret 200
      else
        let! added := cache_add (dedup_key (thin_id event)) in
        if negb added then ret 200
        else
          let! data :=
            match thin_data event with
            | Some d => ret (Some d)
            | None => on_error (let! e := lift (fetch_v2_event (thin_id event)) in ret (thin_data e)) (cache_delete (dedup_key (thin_id event)))
            end in
          emit (meter_report event data) ;;;
          ret 200
  end.

(** [update_product] on an object without a name. *)
Definition update_no_product (m : option metadata) : M unit :=
  match m with
  | Some m => if not_sold m then ret tt else raise AttributeError
  | None => raise AttributeError
  end.

(** The event types; an object of another kind lacks the attributes that are read. *)
Definition handle_event (event : StripeEvent) (h : WebhookRequest) : M unit :=
  let t := event_type event in
  if bool_decide (t ∈ [u "product.updated"; u "product.created"]) then
    match event_object event with
    | OProduct p => update_product p
    | OPrice p => update_no_product (price_metadata p)
    | OSubscription s => update_no_product (sub_metadata s)
    end
  else if bool_decide (t ∈ [u "customer.subscription.updated"; u "customer.subscription.created"; u "customer.subscription.deleted"]) then
    match event_object event with OSubscription s => update_subscription s h | _ => raise AttributeError end
  else if bool_decide (t ∈ [u "price.updated"; u "price.created"]) then
    match event_object event with OPrice p => update_price p | _ => raise AttributeError end
  else ret tt.

(** The part of the view after the signature. [None < event.created] is a [TypeError]. *)
Definition process_event (event : StripeEvent) (h : WebhookRequest) : M Z :=
  let! last_event_for_object := cache_get_or_set (dedup_key (object_id (event_object event))) (event_created event) in
  match last_event_for_object with
  | None => raise TypeError
  | Some last =>
      if event_created event <? last then ret 200
      else
        let! added := cache_add (dedup_key (event_id event)) in
        if negb added then ret 200
        else
          on_error (handle_event event h) (cache_delete (dedup_key (event_id event))) ;;;
          ret 200
  end.

(** The answer's status; an exception becomes a 500. *)
Definition stripe_webhook_view (url_type : option ustr) (h : WebhookRequest) : M Z :=
  match signature_header h with
  | None => ret 403
  | Some sig_header =>
      if negb (truthy sig_header) then ret 403
      else
        match verify_stripe_signature (body h) sig_header url_type with
        | Ok true =>
            if bool_decide (url_type = Some (u "meter")) then handle_meter_error_event (body h)
            else
              match parse_event (body h) with
              | None => ret 200
              | Some event => process_event event h
              end
        | _ => ret 403
        end
  end.
End parsers.
End request.

(** ** What the operations leave alone *)

(** [m] touches only the database, which it reads alone: its answer and the new database
    depend on the old one only, and the cache stays. *)
Record local {A} (m : M A) : Prop := {
  keeps_cache : forall w, cache (m w).1 = cache w;
  reads_db : forall w w', db w = db w' -> db (m w).1 = db (m w').1 /\ (m w).2 = (m w').2 }.

Lemma local_ret {A} (a : A) : local (ret a).
Proof. split; [done|]. intros w w' H. by split. Qed.

Lemma local_raise {A} e : local (@raise A e).
Proof. split; [done|]. intros w w' H. by split. Qed.

Lemma local_lift {A} (r : res A) : local (lift r).
Proof. split; [done|]. intros w w' H. by split. Qed.

Lemma local_get_db : local get_db.
Proof. split; [done|]. intros w w' H. cbn. by rewrite H. Qed.

Lemma local_execute f : local (execute f).
Proof. split; unfold execute; [intros w; by destruct (f (db w))|]. intros w w' H. rewrite H. by destruct (f (db w')). Qed.

Lemma local_emit e : local (emit e).
Proof. split; [done|]. intros w w' H. by split. Qed.

Lemma local_call ok e : local (call ok e).
Proof. destruct ok; [apply local_emit|apply local_raise]. Qed.

Lemma local_bind {A B} (m : M A) (k : A -> M B) : local m -> (forall a, local (k a)) -> local (bindM m k).
Proof.
  intros Hm Hk. split; unfold bindM.
  - intros w. pose proof (keeps_cache _ Hm w) as H. destruct (m w) as [w1 [a|e]]; [|done]. by rewrite (keeps_cache _ (Hk a)).
  - intros w w' H. destruct (reads_db _ Hm w w' H) as [Hd Hr]. destruct (m w) as [w1 r1], (m w') as [w2 r2]. cbn in *. subst r2.
    destruct r1 as [a|e]; [|done]. by apply (reads_db _ (Hk a)).
Qed.

Create HintDb stripe discriminated.
#[export] Hint Resolve local_ret local_raise local_lift local_get_db local_execute local_emit local_call local_bind : stripe.

Ltac local_tac := repeat first [progress intros | case_match | solve [auto with stripe nocore] | apply local_bind].

Lemma local_update_product p : local (update_product p).
Proof. unfold update_product. local_tac. Qed.

Lemma local_update_price p : local (update_price p).
Proof. unfold update_price. local_tac. Qed.

Lemma local_set_primary_of env sid st org o : local (set_primary_of env sid st org o).
Proof. unfold set_primary_of. local_tac. Qed.

#[export] Hint Resolve local_set_primary_of : stripe.

Lemma local_store_subscription env s org o : local (store_subscription env s org o).
Proof. unfold store_subscription. local_tac. Qed.

#[export] Hint Resolve local_store_subscription : stripe.

Lemma local_update_subscription env s h : local (update_subscription env s h).
Proof. unfold update_subscription, handle_support_subscription, forward. local_tac. Qed.

#[export] Hint Resolve local_update_product local_update_price local_update_subscription : stripe.

Lemma local_handle_event env ev h : local (handle_event env ev h).
Proof. unfold handle_event, update_no_product. local_tac. Qed.

(** ** Forged webhooks *)

(** A signature that the holder of the secret made over this body, not longer ago than the
    tolerance. *)
Definition authentic (env : Env) (url_type : option ustr) (h : WebhookRequest) : Prop :=
  exists header parts t timestamp,
    signature_header h = Some header /\ webhook_secret env url_type <> [] /\
    signature_parts (split_on 44 header) [] = Ok parts /\ aget (u "t") parts = Some t /\ int_text t = Some timestamp /\ timestamp <> 0 /\
    aget (u "v1") parts = Some (hexdigest (hmac_sha256 (webhook_secret env url_type) (signed_payload timestamp (body h)))) /\
    now env <= timestamp * 1000000 + STRIPE_WEBHOOK_TOLERANCE env /\ is_Some (decode true 0 (body h)).

Lemma verify_authentic env url_type h header :
  signature_header h = Some header -> verify_stripe_signature env (body h) header url_type = Ok true -> authentic env url_type h.
Proof.
  intros Hh H. unfold verify_stripe_signature in H. destruct (webhook_secret env url_type) as [|c secret] eqn:Es; [done|].
  destruct (signature_parts _ _) as [parts|] eqn:Ep; [|done]. cbn [res_bind] in H.
  destruct (aget (u "t") parts) as [t|] eqn:Et; [|done]. destruct (int_text t) as [ts|] eqn:Ei; [|done].
  destruct (aget (u "v1") parts) as [sig|] eqn:Ev; [|done]. destruct (_ || _) eqn:Ez; [done|]. bool_split.
  unfold check_signature in H. destruct (_ <? _) eqn:En; [done|]. bool_split. destruct (decode _ _ _) eqn:Ed; [|done].
  injection H as H. apply ustr_eqb_eq in H. subst sig.
  exists header, parts, t, ts. rewrite Es. split_and!; try done. lia.
Qed.

(** C12: only webhooks signed with the endpoint's secret over this very body, within the
    tolerance, are processed; any other request is answered 403 and changes neither the
    database nor the cache and sends nothing. *)
Theorem forged_webhooks_refused env parse_event parse_thin url_type h w :
  ~ authentic env url_type h -> stripe_webhook_view env parse_event parse_thin url_type h w = (w, Ok 403).
Proof.
  intros H. unfold stripe_webhook_view. destruct (signature_header h) as [header|] eqn:Eh; [|done]. destruct (negb _); [done|].
  destruct (verify_stripe_signature _ _ _ _) as [[]|] eqn:Ev; [|done|done]. destruct H. by eapply verify_authentic.
Qed.

(** ** Repeated webhooks *)

Lemma on_error_ok {A} (m : M A) handler w w1 a : on_error m handler w = (w1, Ok a) -> m w = (w1, Ok a).
Proof. unfold on_error. destruct (m w) as [w2 [b|e]]; [by intros [= -> ->]|]. destruct (handler w2) as [w3 [|]]; discriminate. Qed.

Lemma cache_get_local {A} (m : M A) env key w : local m -> cache_lookup env key (m w).1 = cache_lookup env key w.
Proof. intros H. unfold cache_lookup. by rewrite (keeps_cache _ H). Qed.

Lemma cache_get_set env env' key key' v w :
  cache_lookup env' key (cache_store env key' v w) = if decide (key' = key) then (if now env' <? now env + TIMEOUT then Some v else None) else cache_lookup env' key w.
Proof.
  unfold cache_lookup, cache_store. cbn [cache]. destruct (decide (key' = key)) as [->|Hn]; [by rewrite lookup_insert_eq|by rewrite lookup_insert_ne].
Qed.

(** The object's key after it was read. *)
Lemma get_or_set_spec env key v w : exists w1 x, cache_get_or_set env key v w = (w1, Ok x) /\ db w1 = db w /\ effects w1 = effects w /\
  (forall k, k <> key -> forall env', cache_lookup env' k w1 = cache_lookup env' k w) /\
  ((cache_lookup env key w = Some x /\ w1 = w) \/ (cache_lookup env key w = None /\ x = Some v /\ w1 = cache_store env key (Some v) w)).
Proof.
  unfold cache_get_or_set. destruct (cache_lookup env key w) as [old|] eqn:E.
  - exists w, old. split_and!; [done..|by left].
  - exists (cache_store env key (Some v) w), (Some v). split_and!; [done|done|done| |by right].
    intros k Hk env'. rewrite cache_get_set. by destruct (decide (key = k)); [subst|].
Qed.

(** What an event did if its delivery changed the database or sent something: its handler
    ran, and the key of the event was added. *)
Lemma process_event_ran env ev h w w1 :
  process_event env ev h w = (w1, Ok 200) -> (db w1 <> db w \/ effects w1 <> effects w) ->
  dedup_key (event_id ev) <> dedup_key (object_id (event_object ev)) /\
  (forall env', now env <= now env' < now env + TIMEOUT -> is_Some (cache_lookup env' (dedup_key (event_id ev)) w1)) /\
  exists last, last <= event_created ev /\
    (forall env' x, cache_lookup env' (dedup_key (object_id (event_object ev))) w1 = Some x -> x = Some last \/ x = Some (event_created ev) \/ now env' < now env).
Proof.
  intros H Hc. unfold process_event, bindM in H.
  destruct (get_or_set_spec env (dedup_key (object_id (event_object ev))) (event_created ev) w) as (wa & x & E & Hdb & Hef & Hother & Hval).
  rewrite E in H. destruct x as [last|]; [|discriminate].
  destruct (event_created ev <? last) eqn:El; [injection H as <-; by destruct Hc|]. bool_split.
  destruct (cache_add env (dedup_key (event_id ev)) wa) as [wb [added|]] eqn:Ea; [|discriminate].
  destruct added; cbn [negb] in H; [|unfold ret in H; injection H as <-; unfold cache_add in Ea; destruct (cache_lookup _ _ _); injection Ea as <-; [by destruct Hc|discriminate]].
  unfold cache_add in Ea. destruct (cache_lookup env (dedup_key (event_id ev)) wa) eqn:Eg; [discriminate|]. injection Ea as <-.
  destruct (on_error _ _ _) as [wc [[]|]] eqn:Eo; [|discriminate]. injection H as <-. apply on_error_ok in Eo.
  assert (forall env' k, cache_lookup env' k wc = cache_lookup env' k (cache_store env (dedup_key (event_id ev)) None wa)) as Hk.
  { intros env' k. transitivity (cache_lookup env' k (handle_event env ev h (cache_store env (dedup_key (event_id ev)) None wa)).1); [by rewrite Eo|].
    apply cache_get_local, local_handle_event. }
  assert (dedup_key (event_id ev) <> dedup_key (object_id (event_object ev))) as Hne.
  { intros Heq. rewrite Heq in Eg. destruct Hval as [[Hv ->]|(Hv & _ & ->)]; [congruence|].
    rewrite cache_get_set, decide_True in Eg by done. by replace (now env <? now env + TIMEOUT) with true in Eg by (unfold TIMEOUT; lia). }
  split_and!; [done| |].
  - intros env' Hn. rewrite Hk, cache_get_set, decide_True by done. by replace (now env' <? now env + TIMEOUT) with true by lia.
  - exists last. split; [done|]. intros env' y Hy. rewrite Hk, cache_get_set, decide_False in Hy by done.
    destruct Hval as [[Hv ->]|(Hv & [= ->] & ->)].
    + unfold cache_lookup in Hv, Hy. destruct (cache w !! _) as [[v expiry]|]; [|done].
      destruct (now env <? expiry); [|done]. destruct (now env' <? expiry); [|done]. left. congruence.
    + rewrite cache_get_set, decide_True in Hy by done. destruct (_ <? _); [|].
      * injection Hy as <-. auto.
      * discriminate.
Qed.

(** An event that was processed is not processed again: a second delivery of it within ten
    minutes is answered 200 and changes no row and sends nothing. *)
Theorem replayed_event_ignored env1 env2 ev h1 h2 w w1 :
  process_event env1 ev h1 w = (w1, Ok 200) -> (db w1 <> db w \/ effects w1 <> effects w) ->
  now env1 <= now env2 < now env1 + TIMEOUT ->
  exists w2, process_event env2 ev h2 w1 = (w2, Ok 200) /\ db w2 = db w1 /\ effects w2 = effects w1.
Proof.
  intros H Hc Hn. destruct (process_event_ran env1 ev h1 w w1 H Hc) as (Hne & Hkey & last & Hl & Hlast). clear H Hc.
  unfold process_event, bindM.
  destruct (get_or_set_spec env2 (dedup_key (object_id (event_object ev))) (event_created ev) w1) as (wa & x & E & Hdb & Hef & Hother & Hval).
  rewrite E. assert (exists n, x = Some n /\ n <= event_created ev) as (n & -> & Hle).
  { destruct Hval as [[Hv _]|(_ & -> & _)]; [|by exists (event_created ev)].
    destruct (Hlast env2 x Hv) as [->|[->|]]; [by exists last|by exists (event_created ev)|lia]. }
  replace (event_created ev <? n) with false by lia. unfold cache_add.
  rewrite (Hother _ Hne env2). destruct (Hkey env2 Hn) as [y ->]. cbn. by exists wa.
Qed.

(** ** Failed deliveries *)

Lemma sub_row_again env1 env2 s base metered org r1 :
  sub_row env1 s base metered org = Ok r1 ->
  exists r2, sub_row env2 s base metered org = Ok r2 /\ s_price r2 = s_price r1 /\ sub_row_ok (sub_id s) r2 = sub_row_ok (sub_id s) r1 /\
    s_org r2 = Some org /\ s_status r2 = status s /\ s_org r1 = Some org.
Proof.
  unfold sub_row. destruct (unix_to_datetime (item_period_start base)) as [ps|]; [|done].
  destruct (unix_to_datetime (item_period_end base)) as [pe|]; [|done]. cbn [res_bind].
  destruct (compute_cycle _ _ _ _ _) as [a b]. destruct (compute_cycle (add_months env2) _ _ _ _) as [a' b'].
  destruct (unix_to_datetime (sub_created s)); [|done]. destruct (unix_to_datetime (start_date s)); [|done].
  cbn [res_bind]. intros [= <-]. by eexists.
Qed.

Lemma upsert_sub_ok id r d d' : upsert_sub id r d = Ok d' ->
  sub_row_ok id r = true /\ sub_keys_ok r d = true /\ products d' = products d /\ prices d' = prices d /\ orgs d' = orgs d /\
  exists row, subs d' = <[id := row]> (subs d) /\ s_org row = s_org r /\ s_status row = s_status r /\ s_price row = s_price r.
Proof.
  unfold upsert_sub. destruct (sub_row_ok id r); [|done]. destruct (sub_keys_ok r d) eqn:E; [|done]. cbn [negb].
  intros [= <-]. split_and!; try done. by eexists.
Qed.

(** The second write of a row is as good as the only one. *)
Lemma upsert_sub_again id r1 r2 d d1 : upsert_sub id r1 d = Ok d1 ->
  sub_row_ok id r2 = sub_row_ok id r1 -> s_price r2 = s_price r1 -> s_org r2 = s_org r1 ->
  exists d2, upsert_sub id r2 d = Ok d2 /\ upsert_sub id r2 d1 = Ok d2.
Proof.
  intros H Hok Hp Ho. unfold upsert_sub, sub_keys_ok in *. rewrite Hok, Hp, Ho. destruct (sub_row_ok id r1); [|done]. cbn [negb] in *.
  destruct (bool_decide _ && _) eqn:E in H; [|done]. injection H as <-. cbn [prices products subs orgs]. rewrite E. cbn [negb].
  eexists. split; [reflexivity|]. by rewrite lookup_insert_eq, insert_insert_eq.
Qed.

(** Writing the primary subscription of [org] over any. *)
Definition primary_over (org : Z) (d d' : DB) : Prop :=
  products d' = products d /\ prices d' = prices d /\ subs d' = subs d /\ (orgs d' = orgs d \/ exists p, orgs d' = alter (set_primary p) org (orgs d)).

Lemma get_primary_over org o d d' : primary_over o d d' -> get_primary_subscription d' org = get_primary_subscription d org.
Proof.
  intros (H1 & H2 & H3 & _). unfold get_primary_subscription, active_subs. rewrite H3. f_equal.
  assert (forall b kv, better d' b kv = better d b kv) as Hb.
  { intros b kv. unfold better, sub_key, plan_events. by rewrite H1, H2. }
  generalize (filter (fun kv : ustr * SubRow => s_org kv.2 = Some org /\ is_active (s_status kv.2) = true) (map_to_list (subs d))) as l.
  intros l. generalize (@None (ustr * SubRow)) as b. induction l as [|kv l IH]; intros b; [done|]. cbn [foldl]. by rewrite Hb, IH.
Qed.

Lemma foldl_better_Some d l b : b <> None \/ l <> [] -> foldl (better d) b l <> None.
Proof.
  revert b. induction l as [|kv l IH]; intros b H; [by destruct H|]. cbn [foldl]. apply IH. left. unfold better.
  destruct b; [by destruct (key_lt _ _)|done].
Qed.

Lemma get_primary_exists d org id r : subs d !! id = Some r -> s_org r = Some org -> is_active (s_status r) = true ->
  get_primary_subscription d org <> None.
Proof.
  intros H1 H2 H3. unfold get_primary_subscription. assert (active_subs d org <> []) as Hn.
  { intros E. assert ((id, r) ∈ active_subs d org) as Hin; [|rewrite E in Hin; by apply elem_of_nil in Hin].
    apply list_elem_of_filter. split; [done|]. by apply elem_of_map_to_list. }
  pose proof (foldl_better_Some d (active_subs d org) None (or_intror Hn)). by destruct (foldl _ _ _).
Qed.

(** The database with [org]'s primary subscription. *)
Definition with_primary (p : option ustr) (org : Z) (d : DB) : DB :=
  {| products := products d; prices := prices d; subs := subs d; orgs := alter (set_primary p) org (orgs d) |}.

Lemma set_primary_same o : set_primary (o_primary o) o = o.
Proof. by destruct o. Qed.

Lemma with_primary_same org o d : orgs d !! org = Some o -> with_primary (o_primary o) org d = d.
Proof.
  intros H. destruct d as [a b c e]. unfold with_primary. cbn in *. f_equal. apply map_eq. intros k. rewrite lookup_alter. case_decide as E; [|done].
  subst k. rewrite H. cbn. by rewrite set_primary_same.
Qed.

Lemma with_primary_over p org d d' : primary_over org d d' -> with_primary p org d' = with_primary p org d.
Proof.
  intros (H1 & H2 & H3 & H4). unfold with_primary. rewrite H1, H2, H3. f_equal.
  destruct H4 as [->|[q ->]]; [done|]. apply map_eq. intros k.
  destruct (decide (org = k)) as [->|]; [rewrite !lookup_alter_eq; by destruct (orgs d !! k)|by rewrite !lookup_alter_ne].
Qed.

(** The database and answer of the step after an active subscription was stored. *)
Lemma set_primary_active env sid st org o w : is_active st = true -> orgs (db w) !! org = Some o -> get_primary_subscription (db w) org <> None ->
  db (set_primary_of env sid st org o w).1 = with_primary (get_primary_subscription (db w) org) org (db w) /\
  (set_primary_of env sid st org o w).2 = if enqueue_ok env then Ok tt else Raise OSError.
Proof.
  intros Ha Ho Hp. unfold set_primary_of. rewrite Ha. unfold bindM, get_db, call. cbv beta iota zeta.
  rewrite !(bool_decide_eq_true_2 _ Hp). cbn [andb].
  destruct (bool_decide (get_primary_subscription (db w) org = o_primary o)) eqn:E; cbn [negb]; bool_split.
  - unfold ret. rewrite E, (with_primary_same org o) by done. by destruct (enqueue_ok env).
  - unfold execute, update_org. by destruct (enqueue_ok env).
Qed.

(** What a failure leaves behind: either nothing, or the stored subscription of an active
    plan and perhaps the primary subscription. *)
Lemma store_subscription_failed env s org o w w1 e : orgs (db w) !! org = Some o ->
  store_subscription env s org o w = (w1, Raise e) ->
  db w1 = db w \/
  exists base metered r d1, select_subscription_items (items s) = (Some base, metered) /\ sub_row env s base metered org = Ok r /\
    upsert_sub (sub_id s) r (db w) = Ok d1 /\ is_active (status s) = true /\ db w1 = with_primary (get_primary_subscription d1 org) org d1.
Proof.
  intros Ho H. unfold store_subscription in H. destruct (select_subscription_items (items s)) as [[base|] metered]; [|discriminate].
  unfold bindM at 1, lift in H. destruct (sub_row env s base metered org) as [r|] eqn:Er; [|injection H as <- _; by left].
  unfold bindM, execute in H. destruct (upsert_sub (sub_id s) r (db w)) as [d1|] eqn:Eu; [|injection H as <- _; by left].
  right. exists base, metered, r, d1. destruct (is_active (status s)) eqn:Ea.
  - split_and!; try done. destruct (upsert_sub_ok _ _ _ _ Eu) as (_ & _ & _ & _ & Horgs & row & Hsubs & Hro & Hrs & _).
    unfold sub_row in Er. destruct (unix_to_datetime _); [|done]. destruct (unix_to_datetime _); [|done]. cbn [res_bind] in Er.
    destruct (compute_cycle _ _ _ _ _). destruct (unix_to_datetime _); [|done]. destruct (unix_to_datetime _); [|done]. injection Er as <-. cbn in Hro, Hrs.
    set (w2 := {| db := d1; cache := cache w; effects := effects w |}) in *.
    destruct (set_primary_active env (sub_id s) (status s) org o w2) as [Hd _]; [done|cbn; by rewrite Horgs| |by rewrite H in Hd].
    apply (get_primary_exists _ org (sub_id s) row); [cbn; rewrite Hsubs; apply lookup_insert_eq|done|by rewrite Hrs].
  - exfalso. unfold set_primary_of in H. rewrite Ea in H. destruct (bool_decide _); discriminate.
Qed.

Lemma upsert_with_primary id r p org d d' : upsert_sub id r d = Ok d' -> upsert_sub id r (with_primary p org d) = Ok (with_primary p org d').
Proof.
  unfold upsert_sub. destruct (negb (sub_row_ok id r)); [done|].
  assert (sub_keys_ok r (with_primary p org d) = sub_keys_ok r d) as ->.
  { unfold sub_keys_ok. cbn. f_equal. destruct (s_org r) as [o|]; [|done]. apply bool_decide_ext.
    destruct (decide (org = o)) as [->|]; [rewrite lookup_alter_eq; by rewrite fmap_is_Some|by rewrite lookup_alter_ne]. }
  destruct (negb _); [done|]. by intros [= <-].
Qed.

(** The write of a subscription and what follows it, when the subscription is active. *)
Lemma store_active env s org o w base metered r d2 :
  select_subscription_items (items s) = (Some base, metered) -> sub_row env s base metered org = Ok r ->
  upsert_sub (sub_id s) r (db w) = Ok d2 -> is_active (status s) = true -> s_org r = Some org -> s_status r = status s ->
  orgs (db w) !! org = Some o ->
  db (store_subscription env s org o w).1 = with_primary (get_primary_subscription d2 org) org d2 /\
  (store_subscription env s org o w).2 = if enqueue_ok env then Ok tt else Raise OSError.
Proof.
  intros Hi Hr Hu Ha Hro Hrs Ho. unfold store_subscription. rewrite Hi. unfold bindM at 1 3, lift. rewrite Hr. unfold bindM at 1 2, execute at 1 2. rewrite Hu.
  destruct (upsert_sub_ok _ _ _ _ Hu) as (_ & _ & _ & _ & Horgs & row & Hsubs & Eo & Es & _).
  apply set_primary_active; cbn [db]; [done|by rewrite Horgs|].
  apply (get_primary_exists _ org (sub_id s) row); [rewrite Hsubs; apply lookup_insert_eq|congruence|congruence].
Qed.

Lemma with_primary_lookup p org d o : orgs (with_primary p org d) !! org = Some o -> exists o0, orgs d !! org = Some o0 /\ o = set_primary p o0.
Proof. cbn. rewrite lookup_alter_eq. intros (o0 & H & E)%fmap_Some. by exists o0. Qed.

Lemma store_subscription_retry env1 env2 s org o o1 w w1 w' e :
  orgs (db w) !! org = Some o -> store_subscription env1 s org o w = (w1, Raise e) ->
  db w' = db w1 -> orgs (db w1) !! org = Some o1 ->
  db (store_subscription env2 s org o1 w').1 = db (store_subscription env2 s org o w).1 /\
  (store_subscription env2 s org o1 w').2 = (store_subscription env2 s org o w).2.
Proof.
  intros Ho H Hw' Ho1. destruct (store_subscription_failed _ _ _ _ _ _ _ Ho H) as [Heq|(base & metered & r1 & d1 & Hi & Hr & Hu & Ha & Hd)].
  - assert (o1 = o) as -> by (rewrite Heq, Ho in Ho1; congruence). apply (reads_db _ (local_store_subscription env2 s org o)). congruence.
  - destruct (sub_row_again env1 env2 s base metered org r1 Hr) as (r2 & Hr2 & Hp & Hok & Hro & Hrs & Hro1).
    destruct (upsert_sub_again _ _ _ _ _ Hu Hok Hp ltac:(congruence)) as (d2 & Hu2 & Hu1).
    destruct (store_active env2 s org o w base metered r2 d2 Hi Hr2 Hu2 Ha Hro Hrs Ho) as [-> ->].
    apply (upsert_with_primary _ _ (get_primary_subscription d1 org) org) in Hu1. rewrite <- Hd, <- Hw' in Hu1.
    destruct (store_active env2 s org o1 w' base metered r2 _ Hi Hr2 Hu1 Ha Hro Hrs) as [-> ->]; [by rewrite Hw'|].
    split; [|done]. rewrite (get_primary_over org org d2) by (split_and!; [done|done|done|right; by eexists]).
    apply with_primary_over. split_and!; [done|done|done|right; by eexists].
Qed.

(** Stripe answers a later request for a customer as it answered an earlier one. *)
Definition same_answers (env1 env2 : Env) : Prop :=
  STRIPE_REGION env2 = STRIPE_REGION env1 /\ forall c x, get_customer env1 c = Ok x -> get_customer env2 c = Ok x.

Lemma execute_failed f w w1 e : execute f w = (w1, Raise e) -> w1 = w.
Proof. unfold execute. destruct (f (db w)); [discriminate|]. by intros [= <- _]. Qed.

(** A handler that fails before it wrote anything. *)
Definition fails_clean (m : M unit) : Prop := forall w w1 e, m w = (w1, Raise e) -> db w1 = db w.

Lemma fails_clean_call ok e : fails_clean (call ok e).
Proof. intros w w1 x. destruct ok; [discriminate|]. by intros [= <- _]. Qed.

Lemma fails_clean_product p : fails_clean (update_product p).
Proof.
  intros w w1 e. unfold update_product. destruct (not_sold _); [discriminate|]. unfold bindM, lift.
  destruct (events_of _); [|by intros [= <- _]]. destruct (feature_names _); [|by intros [= <- _]]. by intros ->%execute_failed.
Qed.

Lemma fails_clean_price p : fails_clean (update_price p).
Proof.
  intros w w1 e. unfold update_price, bindM, get_db. destruct (_ && _); [discriminate|]. destruct (product_known _ _); [|discriminate].
  unfold lift. destruct (interval_of p); [|by intros [= <- _]]. by intros ->%execute_failed.
Qed.

Lemma fails_clean_forward env region h : fails_clean (forward env region h).
Proof.
  intros w w1 e. unfold forward. destruct (otruthy _); [discriminate|]. destruct (aget _ _); [|discriminate].
  destruct (truthy _); [apply fails_clean_call|discriminate].
Qed.

(** A support license touches no table at all. *)
Lemma support_db env s c w : db (handle_support_subscription env s c w).1 = db w.
Proof.
  unfold handle_support_subscription. destruct (truthy _); [done|]. destruct (items s) as [|i l]; [done|].
  destruct (price_product _) as [p| |]; [|done..]. destruct (negb _); [done|]. unfold bindM at 1, lift.
  destruct (get_product env p); [|done]. destruct (negb (ustr_eqb _ _)); [done|]. destruct (negb (is_active _)); [done|].
  destruct (negb (EMAIL_ENABLED env)); [done|]. destruct (negb (otruthy _)); [done|]. unfold bindM, call. by destruct (email_ok env), (mark_ok env).
Qed.

Lemma support_then_ret env s c w w1 e : (let! _ := handle_support_subscription env s c in ret tt) w = (w1, Raise e) -> db w1 = db w.
Proof.
  unfold bindM. pose proof (support_db env s c w) as Hs. destruct (handle_support_subscription env s c w) as [w2 [b|x]]; [discriminate|].
  by intros [= <- _].
Qed.

(** A subscription of an organization of this region. *)
Definition ours (env : Env) (s : Subscription) (d : DB) (org : Z) (o : OrgRow) : Prop :=
  exists c, get_customer env (customer s) = Ok c /\ organization_id_of (customer_metadata c) = Some org /\
    mget_str "region" (customer_metadata c) = STRIPE_REGION env /\ orgs d !! org = Some o.

Lemma update_ours env s h w org o : ours env s (db w) org o -> update_subscription env s h w = store_subscription env s org o w.
Proof.
  intros (c & Hc & Hi & Hr & Ho). unfold update_subscription, bindM, lift. rewrite Hc. cbv zeta. rewrite Hi, Hr, ustr_eqb_refl. cbn [negb].
  unfold get_db. by rewrite Ho.
Qed.

Lemma update_subscription_failed env s h w w1 e : update_subscription env s h w = (w1, Raise e) ->
  db w1 = db w \/ exists org o, ours env s (db w) org o /\ store_subscription env s org o w = (w1, Raise e).
Proof.
  unfold update_subscription. unfold bindM at 1, lift. destruct (get_customer env (customer s)) as [c|] eqn:Ec; [|intros [= <- _]; by left].
  cbv zeta. destruct (organization_id_of _) as [org|] eqn:Eo; [|intros H; left; by eapply support_then_ret].
  destruct (negb _) eqn:Er; [intros H; left; by eapply fails_clean_forward|]. unfold bindM at 1, get_db. destruct (orgs (db w) !! org) as [o|] eqn:El; [|discriminate].
  intros H. right. exists org, o. split; [|done]. exists c. split_and!; try done. apply negb_false_iff in Er. by apply ustr_eqb_eq in Er.
Qed.

Lemma fails_clean_no_product m : fails_clean (update_no_product m).
Proof. intros w w1 e. unfold update_no_product. destruct m as [m|]; [destruct (not_sold m); [discriminate|]|]; by intros [= <- _]. Qed.

Lemma handle_event_failed env ev h w w1 e : handle_event env ev h w = (w1, Raise e) ->
  db w1 = db w \/ exists s org o, (forall env' w', handle_event env' ev h w' = update_subscription env' s h w') /\ ours env s (db w) org o /\
    store_subscription env s org o w = (w1, Raise e).
Proof.
  intros H. unfold handle_event in H. cbv zeta in H. destruct (bool_decide _) eqn:E1 in H.
  { left. destruct (event_object ev); [by eapply fails_clean_product|by eapply fails_clean_no_product..]. }
  destruct (bool_decide _) eqn:E2 in H.
  - destruct (event_object ev) as [p|p|s] eqn:Eo; [injection H as <- _; by left|injection H as <- _; by left|].
    destruct (update_subscription_failed _ _ _ _ _ _ H) as [|(org & o & Ho & Hs)]; [by left|]. right. exists s, org, o. split; [|done].
    intros env' w'. unfold handle_event. cbv zeta. by rewrite E1, E2, Eo.
  - destruct (bool_decide _) eqn:E3 in H; [|discriminate].
    destruct (event_object ev); [injection H as <- _; by left|left; by eapply fails_clean_price|injection H as <- _; by left].
Qed.

Lemma handle_event_retry env1 env2 ev h w w1 w' e :
  same_answers env1 env2 -> handle_event env1 ev h w = (w1, Raise e) -> db w' = db w1 ->
  db (handle_event env2 ev h w').1 = db (handle_event env2 ev h w).1 /\ (handle_event env2 ev h w').2 = (handle_event env2 ev h w).2.
Proof.
  intros [Hregion Hsame] H Hw'. destruct (handle_event_failed _ _ _ _ _ _ H) as [Heq|(s & org & o & Hh & (c & Hc & Hi & Hr & Ho) & Hs)].
  { apply (reads_db _ (local_handle_event env2 ev h)). congruence. }
  assert (exists o1, orgs (db w1) !! org = Some o1) as [o1 Ho1].
  { destruct (store_subscription_failed _ _ _ _ _ _ _ Ho Hs) as [->|(b & m & r & d1 & _ & _ & Hu & _ & ->)]; [by exists o|].
    destruct (upsert_sub_ok _ _ _ _ Hu) as (_ & _ & _ & _ & Horgs & _). cbn. rewrite lookup_alter_eq, Horgs, Ho. by eexists. }
  rewrite !Hh.
  rewrite (update_ours env2 s h w org o) by (exists c; rewrite Hregion; auto).
  rewrite (update_ours env2 s h w' org o1) by (exists c; rewrite Hregion, Hw'; auto).
  by apply (store_subscription_retry env1 env2 s org o o1 w w1 w' e).
Qed.

Lemma cache_get_later env1 env2 k w : now env1 <= now env2 -> cache_lookup env1 k w = None -> cache_lookup env2 k w = None.
Proof.
  intros Hn. unfold cache_lookup. destruct (cache w !! k) as [[v expiry]|]; [|done]. destruct (now env1 <? expiry) eqn:E; [done|]. intros _.
  by replace (now env2 <? expiry) with false by lia.
Qed.

(** What the view makes of the event's handler. *)
Definition answered (r : res unit) : res Z := match r with Ok _ => Ok 200 | Raise e => Raise e end.

(** A delivery of an event that is not marked as processed. *)
Lemma process_fresh env ev h w :
  dedup_key (event_id ev) <> dedup_key (object_id (event_object ev)) -> cache_lookup env (dedup_key (event_id ev)) w = None ->
  exists wz, db wz = db w /\
    (db (process_event env ev h w).1, (process_event env ev h w).2) =
    match default (Some (event_created ev)) (cache_lookup env (dedup_key (object_id (event_object ev))) w) with
    | None => (db w, Raise TypeError)
    | Some last => if event_created ev <? last then (db w, Ok 200) else (db (handle_event env ev h wz).1, answered (handle_event env ev h wz).2)
    end.
Proof.
  intros Hne Hfree. unfold process_event, bindM.
  destruct (get_or_set_spec env (dedup_key (object_id (event_object ev))) (event_created ev) w) as (wa & x & E & Hdb & _ & Hother & Hval).
  rewrite E. assert (default (Some (event_created ev)) (cache_lookup env (dedup_key (object_id (event_object ev))) w) = x) as ->
    by (destruct Hval as [[-> _]|(-> & -> & _)]; done).
  exists (cache_store env (dedup_key (event_id ev)) None wa). split; [done|]. destruct x as [last|]; [|]. 2: { cbn. by rewrite Hdb. }
  destruct (event_created ev <? last); [cbn; by rewrite Hdb|]. unfold cache_add. rewrite (Hother _ Hne), Hfree. cbn [negb]. unfold on_error.
  by destruct (handle_event env ev h _) as [wc [[]|x]].
Qed.

(** A delivery that ends in an error ran the handler and freed the event's key, or found a
    foreign value in the cache. *)
Lemma process_event_failed env ev h w w1 e : process_event env ev h w = (w1, Raise e) ->
  w1 = w \/
  dedup_key (event_id ev) <> dedup_key (object_id (event_object ev)) /\ cache_lookup env (dedup_key (event_id ev)) w = None /\
  (exists wb wc, db wb = db w /\ handle_event env ev h wb = (wc, Raise e) /\ db w1 = db wc) /\
  forall env', now env <= now env' ->
    cache_lookup env' (dedup_key (event_id ev)) w1 = None /\
    default (Some (event_created ev)) (cache_lookup env' (dedup_key (object_id (event_object ev))) w1)
    = default (Some (event_created ev)) (cache_lookup env' (dedup_key (object_id (event_object ev))) w) /\
    forall x, cache_lookup env' (dedup_key (object_id (event_object ev))) w = Some x -> exists n, x = Some n /\ n <= event_created ev.
Proof.
  intros H. unfold process_event, bindM in H.
  set (D := dedup_key (event_id ev)) in *. set (K := dedup_key (object_id (event_object ev))) in *. clearbody D K.
  destruct (get_or_set_spec env K (event_created ev) w) as (wa & x & E & Hdb & Hef & Hother & Hval).
  rewrite E in H. destruct x as [last|]; [|injection H as <- _; left; destruct Hval as [[_ ->]|(_ & ? & _)]; done].
  destruct (event_created ev <? last) eqn:El; [discriminate|]. bool_split.
  unfold cache_add in H. destruct (cache_lookup env D wa) eqn:Eg; [discriminate|]. cbn [negb] in H.
  unfold on_error in H. destruct (handle_event env ev h _) as [wc [[]|x]] eqn:Eh; [discriminate|]. cbn in H. injection H as <- ->.
  right.
  assert (D <> K) as Hne.
  { intros Heq. rewrite Heq in Eg. destruct Hval as [[Hv ->]|(Hv & _ & ->)]; [congruence|].
    rewrite cache_get_set, decide_True in Eg by done. by replace (now env <? now env + TIMEOUT) with true in Eg by (unfold TIMEOUT; lia). }
  split_and!; [done|by rewrite <- (Hother _ Hne)|exists (cache_store env D None wa), wc; split_and!; [exact Hdb|exact Eh|done]|].
  intros env' Hn. pose proof (keeps_cache _ (local_handle_event env ev h) (cache_store env D None wa)) as Hc. rewrite Eh in Hc. cbn in Hc.
  unfold cache_lookup at 1 2. cbn [cache]. rewrite Hc, lookup_delete_eq, lookup_delete_ne, lookup_insert_ne by done. split; [done|].
  destruct Hval as [[Hv ->]|(Hv & _ & ->)].
  { split; [done|]. unfold cache_lookup in Hv |- *. destruct (cache w !! K) as [[v expiry]|]; [|done]. destruct (now env <? expiry); [|done].
    destruct (now env' <? expiry); [|done]. intros y [= <-]. exists last. split; [congruence|done]. }
  fold (cache_lookup env' K (cache_store env K (Some (event_created ev)) w)).
  rewrite cache_get_set, decide_True, (cache_get_later _ _ _ _ Hn Hv) by done. split; [by destruct (_ <? _)|]. done.
Qed.

(** C13: a delivery that fails costs nothing: however far it got, when Stripe delivers the event
    again the database becomes, and the answer is, what they would have been had the failed
    delivery never happened. *)
Theorem failed_delivery_retried env1 env2 ev h w w1 e :
  process_event env1 ev h w = (w1, Raise e) -> same_answers env1 env2 -> now env1 <= now env2 ->
  db (process_event env2 ev h w1).1 = db (process_event env2 ev h w).1 /\
  (process_event env2 ev h w1).2 = (process_event env2 ev h w).2.
Proof.
  intros H Hsame Hn. destruct (process_event_failed _ _ _ _ _ _ H) as [->|(Hne & Hfree & (wb & wc & Hb & Hh & Hd) & Hcache)]; [done|].
  destruct (Hcache env2 Hn) as (Hfree1 & Hval & Hint).
  destruct (process_fresh env2 ev h w Hne (cache_get_later _ _ _ _ Hn Hfree)) as (z & Hz & E).
  destruct (process_fresh env2 ev h w1 Hne Hfree1) as (z1 & Hz1 & E1). rewrite Hval in E1.
  assert (exists last, default (Some (event_created ev)) (cache_lookup env2 (dedup_key (object_id (event_object ev))) w) = Some last /\ last <= event_created ev) as (last & Hl & Hle).
  { destruct (cache_lookup env2 (dedup_key (object_id (event_object ev))) w) as [x|] eqn:Ex; [|exists (event_created ev); split; [reflexivity|lia]]. destruct (Hint x eq_refl) as (n & -> & Hn0). exists n; split; [reflexivity|exact Hn0]. }
  rewrite Hl in E, E1.
  destruct (handle_event_retry env1 env2 ev h wb wc z1 e Hsame Hh) as [E2 E3]; [congruence|].
  destruct (reads_db _ (local_handle_event env2 ev h) wb z) as [E4 E5]; [congruence|].
  replace (event_created ev <? last) with false in E, E1 by lia. injection E as -> ->. injection E1 as -> ->. by rewrite E2, E3, E4, E5.
Qed.
