(* ===== verification/StripeSync.v ===== *)
(** * Stripe: synchronisation and maintenance

    The [sync_from_stripe] methods of [apps/stripe/models.py] and what they call, with
    [update_subscription_cycles] of [apps/stripe/maintenance.py] and the paging and retrying
    of [apps/stripe/client.py]. *)
From S2P Require Import Prelude PyStr PyValue PyDate UrlValidation PyHash Cursor Usage Stripe.

(** A loop of effects. *)
Fixpoint each {A} (f : A -> M unit) (l : list A) : M unit :=
  match l with [] => ret tt | x :: l => f x ;;; each f l end.

(** ** Products *)

(** A product with its price expanded. *)
Record ProductExpandedPrice := { x_product : Product; x_default_price : option Price }.

Definition is_plan (x : ProductExpandedPrice) : bool := negb (not_sold (product_metadata (x_product x))).

(** [_price_kwargs], with the product of the price. *)
Definition _price_kwargs (p : Price) (product : ustr) : res PriceRow :=
  let m := price_metadata p in
  let* interval := interval_of p in
  Ok {| pc_price := default 0 (unit_amount p); pc_nickname := default [] (price_nickname p); pc_product := product;
        pc_no_throttle := is_true_text (mget_str "no_throttle" m); pc_public := is_true_text (mget_str "is_public" m);
        pc_metered := is_metered_price p; pc_meter := default [] (rget "meter" p); pc_interval := interval |}.

Definition product_fields (p : Product) : res ProductFields :=
  let m := product_metadata p in
  let* events := events_of m in
  let* features := feature_names (marketing_features p) in
  Ok {| f_name := product_name p; f_description := Some (default [] (description p)); f_events := events;
        f_public := is_true_text (mget_str "is_public" (Some m)); f_overage := is_overage m; f_features := features |}.

Fixpoint mapM_res {A B} (f : A -> res B) (l : list A) : res (list B) :=
  match l with
  | [] => Ok []
  | x :: l => let* y := f x in let* rest := mapM_res f l in Ok (y :: rest)
  end.

(** One [INSERT ... ON CONFLICT DO UPDATE] of many rows, which may not have a key twice. *)
Fixpoint upsert_rows {A} (upsert : ustr -> A -> DB -> res DB) (rows : list (ustr * A)) (d : DB) : res DB :=
  match rows with
  | [] => Ok d
  | (i, r) :: rows => let* d := upsert i r d in upsert_rows upsert rows d
  end.

Definition bulk_upsert {A} (upsert : ustr -> A -> DB -> res DB) (rows : list (ustr * A)) (d : DB) : res DB :=
  if bool_decide (NoDup rows.*1) then upsert_rows upsert rows d else Raise OperationalError.

Definition set_default_price (p : ustr) (r : ProductRow) : ProductRow :=
  {| pr_name := pr_name r; pr_description := pr_description r; pr_default_price := Some p; pr_events := pr_events r; pr_public := pr_public r;
     pr_overage := pr_overage r; pr_features := pr_features r |}.

(** [product.asave(update_fields=["default_price_id"])] *)
Definition save_default_price (product price : ustr) (d : DB) : res DB :=
  match prices d !! price with
  | Some _ => Ok {| products := alter (set_default_price price) product (products d); prices := prices d; subs := subs d; orgs := orgs d |}
  | None => Raise IntegrityError
  end.

Definition sync_products_page (page : list ProductExpandedPrice) : M (list ustr) :=
  let plans := filter (fun x => is_plan x = true) page in
  let! rows := lift (mapM_res (fun x => let* f := product_fields (x_product x) in Ok (product_id (x_product x), f)) plans) in
  let! price_rows := lift (mapM_res (fun xp => let* r := _price_kwargs xp.2 (product_id (x_product xp.1)) in Ok (price_id xp.2, r))
                             (omap (fun x => p ← x_default_price x; Some (x, p)) plans)) in
  execute (bulk_upsert upsert_product rows) ;;;
  execute (bulk_upsert upsert_price price_rows) ;;;
  each (fun ip => execute (save_default_price ip.1 ip.2)) (map (fun kr => (pc_product kr.2, kr.1)) price_rows) ;;;
  ret rows.*1.

(** Whether the default price of a product falls with the products [gone]. *)
Definition falls (d : DB) (gone : gset ustr) (r : ProductRow) : bool :=
  match p ← pr_default_price r; prices d !! p with
  | Some pr => bool_decide (pc_product pr ∈ gone)
  | None => false
  end.

(** Both foreign keys between products and prices cascade. *)
Definition cascade (d : DB) (gone : gset ustr) : gset ustr :=
  gone ∪ dom (filter (fun kv => falls d gone kv.2 = true) (products d)).

Definition cascaded (d : DB) (gone : gset ustr) : gset ustr := Nat.iter (size (products d)) (cascade d) gone.

(** [products.adelete()]; a subscription restricts the deletion of its price. *)
Definition delete_products (gone : gset ustr) (d : DB) : res DB :=
  let gone := cascaded d gone in
  let kept := filter (fun kv => pc_product kv.2 ∉ gone) (prices d) in
  if bool_decide (map_Forall (fun _ r => is_Some (kept !! s_price r)) (subs d)) then
    Ok {| products := filter (fun kv => kv.1 ∉ gone) (products d); prices := kept; subs := subs d; orgs := orgs d |}
  else Raise IntegrityError.

(** The products of prices that subscriptions refer to. *)
Definition referenced_product_ids (d : DB) : list ustr :=
  omap (fun kr => pc_product <$> prices d !! s_price kr.2) (map_to_list (subs d)).

Definition stale_products (stripe_ids : list ustr) (d : DB) : gset ustr :=
  dom (filter (fun kv => kv.1 ∉ stripe_ids /\ kv.1 ∉ referenced_product_ids d) (products d)).

(** The pages of a list of Stripe, each of which may fail. *)
Definition Pages (A : Type) : Type := list (res (list A)).

Fixpoint product_pages (pages : Pages ProductExpandedPrice) (stripe_ids : list ustr) : M (list ustr) :=
  match pages with
  | [] => ret stripe_ids
  | page :: pages =>
      let! page := lift page in
      let! ids := sync_products_page page in
      product_pages pages (stripe_ids ++ ids)
  end.

Definition sync_products (pages : Pages ProductExpandedPrice) : M unit :=
  let! stripe_ids := product_pages pages [] in
  execute (fun d => delete_products (stale_products stripe_ids d) d).

(** ** Prices *)

Fixpoint sync_prices (pages : Pages Price) : M unit :=
  match pages with
  | [] => ret tt
  | page :: pages =>
      let! page := lift page in
      let! d := get_db in
      let! rows := lift (mapM_res (fun pk => let* r := _price_kwargs pk.1 pk.2 in Ok (price_id pk.1, r))
                           (omap (fun p => k ← product_known p d; Some (p, k)) page)) in
      execute (bulk_upsert upsert_price rows) ;;;
      sync_prices pages
  end.

(** ** Subscriptions *)

(** A subscription with its customer expanded. *)
Record SubscriptionExpandCustomer := { x_subscription : Subscription; x_customer : Customer }.

(** [int(metadata.get("organization_id", metadata.get("djstripe_subscriber")))] *)
Definition organization_of (m : option metadata) : option Z :=
  s ← match mget "organization_id" m with Some s => Some s | None => mget "djstripe_subscriber" m end; int_text s.

Definition set_customer (c : ustr) (o : OrgRow) : OrgRow :=
  {| o_customer := c; o_primary := o_primary o; o_metered := o_metered o; o_cap := o_cap o; o_created := o_created o; o_slug := o_slug o;
     o_rate := o_rate o; o_users := o_users o; o_owners := o_owners o |}.

(** [organization.asave(update_fields=["stripe_customer_id"])] *)
Definition save_customer (org : Z) (c : ustr) (d : DB) : res DB := if fits 28 c then update_org org (set_customer c) d else Raise DataError.

(** The update of a price from a subscription's item writes three fields. *)
Definition touch_price (p : Price) (d : DB) : res DB :=
  match price_ref (price_product p) with
  | None => Raise IntegrityError
  | Some product =>
      let old := prices d !! price_id p in
      upsert_price (price_id p)
        {| pc_price := default 0 (unit_amount p); pc_nickname := default [] (price_nickname p); pc_product := product;
           pc_no_throttle := default false (pc_no_throttle <$> old); pc_public := default false (pc_public <$> old);
           pc_metered := default false (pc_metered <$> old); pc_meter := default [] (pc_meter <$> old);
           pc_interval := default (u "month") (pc_interval <$> old) |} d
  end.

(** [try: m  except IntegrityError] *)
Definition integrity_ok (m : M unit) : M bool :=
  fun w => match m w with
           | (w, Ok _) => (w, Ok true)
           | (w, Raise IntegrityError) => (w, Ok false)
           | (w, Raise e) => (w, Raise e)
           end.

(** What the loop over subscriptions has seen. *)
Record Seen := { organization_ids : list Z; active_organization_ids : list Z; known_price_ids : list ustr }.

Section sync.
Context (env : Env).

(** An unseen organization. *)
Definition see_organization (org : Z) (customer : ustr) (s : Seen) : M Seen :=
  if bool_decide (org ∈ organization_ids s) then ret s
  else
    let! d := get_db in
    match orgs d !! org with
    | None => ret {| organization_ids := org :: organization_ids s; active_organization_ids := active_organization_ids s; known_price_ids := known_price_ids s |}
    | Some o =>
        (if truthy (o_customer o) then ret tt else execute (save_customer org customer)) ;;;
        ret {| organization_ids := org :: organization_ids s; active_organization_ids := org :: active_organization_ids s;
               known_price_ids := known_price_ids s |}
    end.

(** An unseen price; [false] skips the subscription. *)
Definition see_price (p : Price) (s : Seen) : M (Seen * bool) :=
  if bool_decide (price_id p ∈ known_price_ids s) then ret (s, true)
  else
    let! ok := integrity_ok (execute (touch_price p)) in
    if ok then ret ({| organization_ids := organization_ids s; active_organization_ids := active_organization_ids s;
                       known_price_ids := price_id p :: known_price_ids s |}, true)
    else ret (s, false).

(** One subscription of a page: what is seen and the row to write. *)
Definition sync_subscription (x : SubscriptionExpandCustomer) (s : Seen) : M (Seen * option (ustr * SubRow)) :=
  let m := customer_metadata (x_customer x) in
  if bool_decide (m = None) || negb (ustr_eqb (mget_str "region" m) (STRIPE_REGION env)) then ret (s, None)
  else
    match organization_of m with
    | None => ret (s, None)
    | Some org =>
        match select_subscription_items (items (x_subscription x)) with
        | (None, _) => ret (s, None)
        | (Some base, metered) =>
            let! s := see_organization org (customer_id (x_customer x)) s in
            if negb (bool_decide (org ∈ active_organization_ids s)) then ret (s, None)
            else
              let! (s, ok) := see_price (item_price base) s in
              if negb ok then ret (s, None)
              else
                let! row := lift (sub_row env (x_subscription x) base metered org) in
                ret (s, Some (sub_id (x_subscription x), row))
        end
    end.

Fixpoint sync_subscription_page (page : list SubscriptionExpandCustomer) (s : Seen) (rows : list (ustr * SubRow))
    : M (Seen * list (ustr * SubRow)) :=
  match page with
  | [] => ret (s, rows)
  | x :: page =>
      let! (s, row) := sync_subscription x s in
      sync_subscription_page page s (rows ++ match row with Some r => [r] | None => [] end)
  end.

Fixpoint subscription_pages (pages : Pages SubscriptionExpandCustomer) (s : Seen) : M Seen :=
  match pages with
  | [] => ret s
  | page :: pages =>
      let! page := lift page in
      let! (s, rows) := sync_subscription_page page s [] in
      execute (bulk_upsert upsert_sub rows) ;;;
      subscription_pages pages s
  end.

(** One [UPDATE] for the organizations whose primary subscription is another. *)
Definition set_primary_subscriptions_for_organizations (ids : list Z) (d : DB) : res DB :=
  Ok {| products := products d; prices := prices d; subs := subs d;
        orgs := map_imap (fun org o => Some (if bool_decide (org ∈ ids) then set_primary (get_primary_subscription d org) o else o)) (orgs d) |}.

(** ** Outdated subscriptions *)

(** Stripe's answer for a subscription; [Ok None] is a 404. *)
Context (fetch_subscription : ustr -> res (option Subscription)).

(** [subscription.asave(update_fields=[...])]: price, organization and counters stay. *)
Definition write_dates (r cur : SubRow) : SubRow :=
  {| s_created := s_created r; s_period_start := s_period_start r; s_period_end := s_period_end r; s_price := s_price cur; s_org := s_org cur;
     s_status := s_status r; s_method := s_method r; s_start := s_start r; s_cycle_start := s_cycle_start r; s_cycle_end := s_cycle_end r;
     s_metered_item := s_metered_item r; s_units_reported := s_units_reported cur; s_overage_start := s_overage_start cur |}.

Definition save_sub (id : ustr) (r : SubRow) (d : DB) : res DB :=
  if sub_row_ok id r then Ok {| products := products d; prices := prices d; subs := alter (write_dates r) id (subs d); orgs := orgs d |}
  else Raise DataError.

Definition refreshed (interval : ustr) (s : Subscription) (base : SubscriptionItem) (metered : option SubscriptionItem) (r : SubRow) : res SubRow :=
  let* created := unix_to_datetime (sub_created s) in
  let* period_start := unix_to_datetime (item_period_start base) in
  let* period_end := unix_to_datetime (item_period_end base) in
  let* start := unix_to_datetime (start_date s) in
  let is_annual := ustr_eqb interval (u "year") || is_annual_price (item_price base) in
  let '(cycle_start, cycle_end) := compute_cycle (add_months env) (now env) period_start period_end is_annual in
  Ok {| s_created := created; s_period_start := period_start; s_period_end := period_end; s_price := s_price r; s_org := s_org r;
        s_status := status s; s_method := collection_method s; s_start := start; s_cycle_start := Some cycle_start; s_cycle_end := Some cycle_end;
        s_metered_item := default [] (item_id <$> metered); s_units_reported := s_units_reported r; s_overage_start := s_overage_start r |}.

Definition update_outdated (kr : ustr * SubRow) : M unit :=
  let! found := lift (fetch_subscription kr.1) in
  match found with
  | None => ret tt
  | Some s =>
      match select_subscription_items (items s) with
      | (None, _) => ret tt
      | (Some base, metered) =>
          let! d := get_db in
          let! row := lift (refreshed (default [] (pc_interval <$> prices d !! s_price kr.2)) s base metered kr.2) in
          execute (save_sub kr.1 row)
      end
  end.

Definition outdated (d : DB) : list (ustr * SubRow) :=
  filter (fun kr => is_active (s_status kr.2) = true /\ s_period_end kr.2 < now env - 2 * ONE_DAY) (map_to_list (subs d)).

Definition update_outdated_subscriptions : M unit :=
  let! d := get_db in each update_outdated (outdated d).

(** Organizations whose primary subscription is not active lose it. *)
Definition inactive_primary (d : DB) (o : OrgRow) : bool :=
  match p ← o_primary o; subs d !! p with Some r => negb (is_active (s_status r)) | None => false end.

Definition remove_inactive_primary_subscriptions (d : DB) : res DB :=
  Ok {| products := products d; prices := prices d; subs := subs d;
        orgs := (fun o => if inactive_primary d o then set_primary None o else o) <$> orgs d |}.

Definition sync_subscriptions (pages : Pages SubscriptionExpandCustomer) : M unit :=
  let! s := subscription_pages pages {| organization_ids := []; active_organization_ids := []; known_price_ids := [] |} in
  execute (set_primary_subscriptions_for_organizations (active_organization_ids s)) ;;;
  update_outdated_subscriptions ;;;
  execute remove_inactive_primary_subscriptions.

(** [maintenance.py] *)
Definition sync_stripe_models (BILLING_ENABLED : bool) (products : Pages ProductExpandedPrice) (prices : Pages Price)
    (subscriptions : Pages SubscriptionExpandCustomer) : M unit :=
  if BILLING_ENABLED then
    sync_products products ;;; sync_prices prices ;;; sync_subscriptions subscriptions
  else ret tt.

Definition stale_cycle (d : DB) (r : SubRow) : bool :=
  is_active (s_status r) && match s_cycle_end r with Some e => e <? now env | None => false end
  && match prices d !! s_price r with Some p => ustr_eqb (pc_interval p) (u "year") | None => false end.

Definition set_cycle (c : Z * Z) (r : SubRow) : SubRow :=
  {| s_created := s_created r; s_period_start := s_period_start r; s_period_end := s_period_end r; s_price := s_price r; s_org := s_org r;
     s_status := s_status r; s_method := s_method r; s_start := s_start r; s_cycle_start := Some c.1; s_cycle_end := Some c.2;
     s_metered_item := s_metered_item r; s_units_reported := s_units_reported r; s_overage_start := s_overage_start r |}.

Definition save_cycle (id : ustr) (c : Z * Z) (d : DB) : res DB :=
  Ok {| products := products d; prices := prices d; subs := alter (set_cycle c) id (subs d); orgs := orgs d |}.

Definition update_subscription_cycles (BILLING_ENABLED : bool) : M unit :=
  if negb BILLING_ENABLED then ret tt
  else
    let! d := get_db in
    each (fun kr => execute (save_cycle kr.1 (compute_cycle (add_months env) (now env) (s_period_start kr.2) (s_period_end kr.2) true)))
      (filter (fun kr => stale_cycle d kr.2 = true) (map_to_list (subs d))).
End sync.

(** ** Requests and pages of Stripe's API *)

Definition RETRY_STATUSES : list Z := [429; 500; 502; 503; 504].
Definition MAX_RETRIES : nat := 3.

(** An answer with its status and [Stripe-Should-Retry] header, or an exception, which an
    error without a JSON body is, too. *)
Inductive HttpReply := Http (status : Z) (should_retry : option ustr) (text : ustr) | NetworkError.

Inductive RequestOutcome := Text (text : ustr) | ResourceNotFound | StripeErrorStatus (status : Z) | NetworkFailure.

(** Whether an answer that is neither 200 nor 404 is tried again. *)
Definition retryable (status : Z) (should_retry : option ustr) : bool :=
  match should_retry with Some header => is_true_text header | None => bool_decide (status ∈ RETRY_STATUSES) end.

(** [reply n] answers attempt [n]; the second component counts the requests. *)
Fixpoint stripe_request (reply : nat -> HttpReply) (attempt retries : nat) : RequestOutcome * nat :=
  match reply attempt with
  | NetworkError => (NetworkFailure, S attempt)
  | Http status header text =>
      if status =? 200 then (Text text, S attempt)
      else if status =? 404 then (ResourceNotFound, S attempt)
      else
        match retries with
        | S retries => if retryable status header then stripe_request reply (S attempt) retries else (StripeErrorStatus status, S attempt)
        | O => (StripeErrorStatus status, S attempt)
        end
  end.

Definition _stripe_request (max_retries : nat) (reply : nat -> HttpReply) : RequestOutcome * nat := stripe_request reply 0 max_retries.

(** The loop over pages, [fuel] of them; [fetch] answers with a page and whether more follow. *)
Fixpoint _paginated_stripe_get {A} (id_of : A -> ustr) (fetch : option ustr -> res (list A * bool)) (fuel : nat) (starting_after : option ustr)
    : Pages A :=
  match fuel with
  | O => []
  | S fuel =>
      match fetch starting_after with
      | Raise e => [Raise e]
      | Ok (data, has_more) =>
          Ok data :: (if has_more then
                        _paginated_stripe_get id_of fetch fuel (match last data with Some x => Some (id_of x) | None => starting_after end)
                      else [])
      end
  end.

(** An attempt that leads to the next. *)
Definition tried_again (r : HttpReply) : Prop :=
  exists status header text, r = Http status header text /\ status <> 200 /\ status <> 404 /\ retryable status header = true.

Lemma stripe_request_spec reply retries attempt :
  let '(o, n) := stripe_request reply attempt retries in
  (attempt < n <= attempt + S retries)%nat /\ (forall k, (attempt <= k)%nat -> (S k < n)%nat -> tried_again (reply k)) /\
  match o with
  | Text t => exists header, reply (pred n) = Http 200 header t
  | ResourceNotFound => exists header t, reply (pred n) = Http 404 header t
  | NetworkFailure => reply (pred n) = NetworkError
  | StripeErrorStatus s => exists header t, reply (pred n) = Http s header t /\ s <> 200 /\ s <> 404 /\ (retryable s header = false \/ n = (attempt + S retries)%nat)
  end.
Proof.
  revert attempt. induction retries as [|retries IH]; intros attempt; cbn [stripe_request].
  - destruct (reply attempt) as [status header text|] eqn:E; [|split_and!; [lia|lia|intros; lia|done]].
    destruct (status =? 200) eqn:E1; bool_split; [subst; split_and!; [lia|lia|intros; lia|by eexists]|].
    destruct (status =? 404) eqn:E2; bool_split; [subst; split_and!; [lia|lia|intros; lia|by eexists _, _]|].
    split_and!; [lia|lia|intros; lia|]. exists header, text. split_and!; [done..|right; lia].
  - destruct (reply attempt) as [status header text|] eqn:E; [|split_and!; [lia|lia|intros; lia|done]].
    destruct (status =? 200) eqn:E1; bool_split; [subst; split_and!; [lia|lia|intros; lia|by eexists]|].
    destruct (status =? 404) eqn:E2; bool_split; [subst; split_and!; [lia|lia|intros; lia|by eexists _, _]|].
    destruct (retryable status header) eqn:Er.
    + specialize (IH (S attempt)). destruct (stripe_request reply (S attempt) retries) as [o n]. destruct IH as (Hn & Hk & Ho).
      split_and!; [lia|lia| |].
      * intros k H1 H2. destruct (decide (k = attempt)) as [->|]; [by exists status, header, text|apply Hk; lia].
      * destruct o; try done. destruct Ho as (h & t & ? & ? & ? & [?|?]); exists h, t; split_and!; try done; [by left|right; lia].
    + split_and!; [lia|lia|intros; lia|]. exists header, text. split_and!; [done..|by left].
Qed.

(** A request to Stripe makes at most one attempt more than the retries; it repeats only
    after answers that allow it, and its outcome is that of the last attempt: an error is
    given up on only when it must not be repeated or no retry is left. *)
Theorem requests_bounded (max_retries : nat) (reply : nat -> HttpReply) :
  let '(o, n) := _stripe_request max_retries reply in
  (0 < n <= S max_retries)%nat /\ (forall k, (S k < n)%nat -> tried_again (reply k)) /\
  match o with
  | Text t => exists header, reply (pred n) = Http 200 header t
  | ResourceNotFound => exists header t, reply (pred n) = Http 404 header t
  | NetworkFailure => reply (pred n) = NetworkError
  | StripeErrorStatus s => exists header t, reply (pred n) = Http s header t /\ s <> 200 /\ s <> 404 /\ (retryable s header = false \/ n = S max_retries)
  end.
Proof.
  unfold _stripe_request. pose proof (stripe_request_spec reply max_retries 0) as H. destruct (stripe_request reply 0 max_retries) as [o n].
  destruct H as (H1 & H2 & H3). split_and!; [lia|lia|intros; apply H2; lia|done].
Qed.

(** What Stripe documents of a list: the next 100 objects after the one named, and whether
    more follow. *)
Definition stripe_list {A} (id_of : A -> ustr) (all : list A) (fetch : option ustr -> res (list A * bool)) : Prop :=
  fetch None = Ok (take 100 all, bool_decide (100 < len all)) /\
  forall before x after, all = before ++ x :: after -> fetch (Some (id_of x)) = Ok (take 100 after, bool_decide (100 < len after)).

Lemma pages_from {A} (id_of : A -> ustr) all fetch : stripe_list id_of all fetch -> forall fuel rest before c,
  all = before ++ rest -> fetch c = Ok (take 100 rest, bool_decide (100 < len rest)) -> (length rest < 100 * fuel)%nat ->
  exists pages, _paginated_stripe_get id_of fetch fuel c = map Ok pages /\ concat pages = rest.
Proof.
  intros [_ Hnext]. induction fuel as [|fuel IH]; intros rest before c Hall Hf Hl; [lia|]. cbn [_paginated_stripe_get]. rewrite Hf.
  destruct (bool_decide (100 < len rest)) eqn:E; bool_split; unfold len in *.
  - destruct (last (take 100 rest)) as [x|] eqn:Ex.
    2: { apply last_None in Ex. apply (f_equal length) in Ex. rewrite length_take in Ex. change (length (@nil A)) with 0%nat in Ex. lia. }
    apply last_Some in Ex as [l El].
    assert (all = (before ++ l) ++ x :: drop 100 rest) as Hsplit.
    { rewrite Hall. rewrite <- (take_drop 100 rest) at 1. rewrite El. by rewrite <- !app_assoc. }
    destruct (IH (drop 100 rest) ((before ++ l) ++ [x]) (Some (id_of x))) as (pages & Hp & Hc).
    + by rewrite Hsplit, <- (app_assoc (before ++ l) [x]).
    + exact (Hnext _ _ _ Hsplit).
    + rewrite length_drop. lia.
    + exists (take 100 rest :: pages). cbn [map concat]. rewrite Hp, Hc. split; [done|apply take_drop].
  - exists [rest]. rewrite take_ge by lia. split; [done|]. cbn. apply app_nil_r.
Qed.

(** The pages that are walked through are together the whole list of Stripe, in order, when
    the walk is as long as the list needs. *)
Theorem pages_of_stripe_complete {A} (id_of : A -> ustr) all fetch fuel : stripe_list id_of all fetch -> (length all < 100 * fuel)%nat ->
  exists pages, _paginated_stripe_get id_of fetch fuel None = map Ok pages /\ concat pages = all.
Proof. intros H Hf. by apply (pages_from id_of all fetch H fuel all [] None); [done|apply H|]. Qed.

Lemma pages_of_stripe_complete_witness :
  let all := [u "a"; u "b"] in
  let fetch (c : option ustr) : res (list ustr * bool) :=
    match c with None => Ok (all, false) | Some x => if ustr_eqb x (u "a") then Ok ([u "b"], false) else Ok ([], false) end in
  exists pages, _paginated_stripe_get id fetch 1 None = map Ok pages /\ concat pages = all.
Proof.
  cbv zeta. apply pages_of_stripe_complete; [|cbn; lia]. split; [by_compute|].
  intros before x after H. destruct before as [|y before]; [injection H as <- <-; by_compute|].
  injection H as <- H. destruct before as [|z before]; [injection H as <- <-; by_compute|]. injection H as <- H. by destruct before.
Defined.
