(* ===== verification/StripeApi.v ===== *)
(** * Stripe: the billing endpoints

    [apps/stripe/api.py]: products, subscriptions, checkout, the billing portal, the free plan
    and metered overage, with the requests of [apps/stripe/client.py] they make. The usage
    endpoints are in [Usage], the prices of overage in [Billing]. *)
From S2P Require Import Prelude PyStr PyValue PyDate UrlValidation PyHash Cursor Usage Stripe StripeSync.
From S2P Require Billing.

(** ** Requests to Stripe *)

(** An answer, a [StripeError] with its type and message, or another exception. *)
Inductive StripeReply (A : Type) := Replied (a : A) | StripeError (type message : ustr) | Failed (e : exn).
Arguments Replied {A} _.
Arguments StripeError {A} _ _.
Arguments Failed {A} _.

(** Outside [configure_overage] nothing catches a [StripeError]; [OSError] stands for it. *)
Definition raised {A} (r : StripeReply A) : res A :=
  match r with Replied a => Ok a | StripeError _ _ => Raise OSError | Failed e => Raise e end.

Record ApiEnv := {
  env : Env; BILLING_ENABLED : bool; GLITCHTIP_URL : ustr; GLITCHTIP_FREE_TIER_EVENTS : Z; GLITCHTIP_OVERAGE_MAX_CAP_CENTS : Z;
  scale : Z; GLITCHTIP_OVERAGE_TIERS : Billing.tiers; usage : Usage.Tables; name_of : Z -> ustr; email_of : Z -> ustr;
  post_customer : StripeReply Customer; post_session : StripeReply ustr; post_portal : StripeReply ustr; post_subscription : StripeReply Subscription;
  fetch_subscription : ustr -> StripeReply Subscription; post_migrate : StripeReply unit; post_item : StripeReply SubscriptionItem }.

(** What a client sees. *)
Inductive ApiResponse (A : Type) := NotFound404 | Refused (status : Z) (detail : ustr) | Done (a : A).
Arguments NotFound404 {A}.
Arguments Refused {A} _ _.
Arguments Done {A} _.

(** ** Lists *)

Definition prices_list (d : DB) (product : ustr) : list (ustr * PriceRow) :=
  filter (fun kr => pc_product kr.2 = product /\ pc_public kr.2 = true) (map_to_list (prices d)).

Record ProductOut := { out_id : ustr; out_row : ProductRow; out_default : ustr * PriceRow; out_prices : list (ustr * PriceRow) }.

(** A product of the list; the schema requires a default price. *)
Definition product_out (d : DB) (kr : ustr * ProductRow) : res ProductOut :=
  match i ← pr_default_price kr.2; r ← prices d !! i; Some (i, r) with
  | Some p => Ok {| out_id := kr.1; out_row := kr.2; out_default := p; out_prices := prices_list d kr.1 |}
  | None => Raise ValueError
  end.

Definition list_stripe_products (d : DB) : res (list ProductOut) :=
  mapM_res (product_out d) (filter (fun kr => pr_public kr.2 = true /\ 0 < pr_events kr.2) (map_to_list (products d))).

(** The organization of a slug, which is unique, that satisfies [P]. *)
Definition find_org (P : OrgRow -> bool) (slug : ustr) (d : DB) : option (Z * OrgRow) :=
  find_first (fun kr => ustr_eqb (o_slug kr.2) slug && P kr.2) (map_to_list (orgs d)).

Definition is_member (user : Z) (o : OrgRow) : bool := bool_decide (user ∈ o_users o).
Definition is_owner (user : Z) (o : OrgRow) : bool := bool_decide (user ∈ o_owners o).

Definition latest (best : option (ustr * SubRow)) (kr : ustr * SubRow) : option (ustr * SubRow) :=
  match best with Some b => if s_created b.2 <? s_created kr.2 then Some kr else best | None => Some kr end.

Definition get_stripe_subscription (user : Z) (slug : ustr) (d : DB) : option (ustr * SubRow) :=
  foldl latest None
    (filter (fun kr => is_active (s_status kr.2) = true /\
                       match o ← s_org kr.2; orgs d !! o with Some o => ustr_eqb (o_slug o) slug && is_member user o | None => false end = true)
       (map_to_list (subs d))).

Section api.
Context (a : ApiEnv).

(** A request that Stripe answers. *)
Definition post {A} (endpoint : ustr) (data : list (ustr * ustr)) (r : StripeReply A) : M A :=
  let! x := lift (raised r) in
  emit (Post endpoint data) ;;;
  ret x.

(** ** Checkout *)

Definition create_customer (org : Z) (o : OrgRow) : M ustr :=
  let! c := post (u "customers")
    [(u "name", name_of a org); (u "email", email_of a org); (u "metadata[organization_id]", str_of_Z org);
     (u "metadata[organization_slug]", o_slug o); (u "metadata[region]", STRIPE_REGION (env a))] (post_customer a) in
  execute (save_customer org (customer_id c)) ;;;
  ret (customer_id c).

Definition customer_of (org : Z) (o : OrgRow) : M ustr := if truthy (o_customer o) then ret (o_customer o) else create_customer org o.

Definition settings_url (slug : ustr) : ustr := GLITCHTIP_URL a ++ u "/" ++ slug ++ u "/settings/subscription".

Definition create_session (price customer slug : ustr) : M ustr :=
  post (u "checkout/sessions")
    [(u "payment_method_types[]", u "card"); (u "line_items[][price]", price); (u "line_items[][quantity]", u "1"); (u "mode", u "subscription");
     (u "customer", customer); (u "automatic_tax[enabled]", u "True"); (u "customer_update[address]", u "auto"); (u "customer_update[name]", u "auto");
     (u "tax_id_collection[enabled]", u "True"); (u "subscription_data[billing_mode][type]", u "classic");
     (u "success_url", settings_url slug ++ u "?session_id={CHECKOUT_SESSION_ID}"); (u "cancel_url", settings_url slug)] (post_session a).

Definition create_portal_session (customer slug : ustr) : M ustr :=
  post (u "billing_portal/sessions") [(u "customer", customer); (u "return_url", settings_url slug ++ u "?billing_portal_redirect=true")] (post_portal a).

(** A price that may be sold: not the overage price. *)
Definition base_price (price : ustr) (d : DB) : option PriceRow :=
  match prices d !! price with Some r => if pc_metered r then None else Some r | None => None end.

Definition create_stripe_session (user : Z) (slug price : ustr) : M (ApiResponse ustr) :=
  let! d := get_db in
  match find_org (is_owner user) slug d with
  | None => ret NotFound404
  | Some (org, o) =>
      let! customer := customer_of org o in
      match base_price price d with
      | None => ret NotFound404
      | Some _ => let! url := create_session price customer slug in ret (Done url)
      end
  end.

Definition stripe_billing_portal_session (user : Z) (slug : ustr) : M (ApiResponse ustr) :=
  let! d := get_db in
  match find_org (is_owner user) slug d with
  | None => ret NotFound404
  | Some (org, o) =>
      let! customer := customer_of org o in
      let! url := create_portal_session customer slug in
      ret (Done url)
  end.

(** ** The free plan *)

(** [StripeSubscription.objects.acreate(...)] *)
Definition create_sub (id : ustr) (r : SubRow) (d : DB) : res DB :=
  match subs d !! id with Some _ => Raise IntegrityError | None => upsert_sub id r d end.

Definition free_sub_row (s : Subscription) (price : ustr) (org : Z) : res SubRow :=
  match items s with
  | [] => Raise IndexError
  | i :: _ =>
      let* r := sub_row (env a) s i None org in
      Ok {| s_created := s_created r; s_period_start := s_period_start r; s_period_end := s_period_end r; s_price := price; s_org := Some org;
            s_status := u "active"; s_method := s_method r; s_start := s_start r; s_cycle_start := s_cycle_start r; s_cycle_end := s_cycle_end r;
            s_metered_item := []; s_units_reported := 0; s_overage_start := None |}
  end.

Definition has_active (org : Z) (d : DB) : bool := bool_decide (active_subs d org <> []).

Definition store_free_subscription (org : Z) (id : ustr) (row : SubRow) : M (ApiResponse ustr) :=
  execute (create_sub id row) ;;;
  execute (update_org org (set_primary (Some id))) ;;;
  call (enqueue_ok (env a)) (ThrottleCheck org false) ;;;
  ret (Done id).

Definition stripe_create_subscription (user : Z) (organization price : ustr) : M (ApiResponse ustr) :=
  let! org := lift match int_text organization with Some n => Ok n | None => Raise ValueError end in
  let! d := get_db in
  match orgs d !! org with
  | None => ret NotFound404
  | Some o =>
      if negb (is_owner user o) then ret NotFound404
      else
        match base_price price d with
        | None => ret NotFound404
        | Some p =>
            if negb (pc_price p =? 0) then ret NotFound404
            else
              let! customer := customer_of org o in
              let! d := get_db in
              if has_active org d then ret (Refused 400 (u "Customer already has subscription"))
              else
                let! s := post (u "subscriptions") [(u "customer", customer); (u "items[][price]", price); (u "billing_mode[type]", u "classic")]
                            (post_subscription a) in
                let! row := lift (free_sub_row s price org) in
                store_free_subscription org (sub_id s) row
        end
  end.

(** ** Overage *)

Definition later_id (best : option ustr) (kr : ustr * PriceRow) : option ustr :=
  match best with Some b => if ustr_ltb b kr.1 then Some kr.1 else best | None => Some kr.1 end.

Definition _get_overage_price (d : DB) : option ustr :=
  foldl later_id None
    (filter (fun kr => pc_metered kr.2 = true /\ match products d !! pc_product kr.2 with Some p => pr_overage p | None => false end = true)
       (map_to_list (prices d))).

(** The primary subscription with its price and product. *)
Definition primary_plan (o : OrgRow) (d : DB) : option (ustr * SubRow * PriceRow * ProductRow) :=
  i ← o_primary o; s ← subs d !! i; p ← prices d !! s_price s; q ← products d !! pc_product p; Some (i, s, p, q).

Definition dates_of (s : SubRow) : SubscriptionDates :=
  {| current_period_start := s_period_start s; current_period_end := s_period_end s; subscription_cycle_start := s_cycle_start s;
     subscription_cycle_end := s_cycle_end s |}.

Record OverageStatus := {
  enabled : bool; eligible : bool; configured : bool; cap_cents : Z; cap_units : Z; quota : Z; used : Z; overage_units : Z;
  overage_cost_cents : Z; throttle_rate : Z }.

Definition overage_status (org : Z) (o : OrgRow) (d : DB) : OverageStatus :=
  let plan := primary_plan o d in
  let eligible := match plan with Some (_, _, p, _) => negb (pc_no_throttle p) | None => false end in
  let quota := match plan with Some (_, _, _, q) => if eligible then pr_events q else GLITCHTIP_FREE_TIER_EVENTS a | None => GLITCHTIP_FREE_TIER_EVENTS a end in
  let period := get_current_period_dates (add_months (env a)) (BILLING_ENABLED a) (now (env a)) (o_created o)
                  (match plan with Some (_, s, _, _) => Some (dates_of s) | None => None end) 0 in
  let used := match period with Some w => total_event_count (get_event_counts (usage a) org (Some w)) | None => 0 end in
  let cap_units := Billing.units_for_budget (scale a) (GLITCHTIP_OVERAGE_TIERS a) (o_cap o) in
  let overage_units := Z.max 0 (used - quota) in
  let billed_units := if o_metered o then Z.min overage_units cap_units else 0 in
  {| enabled := o_metered o; eligible := eligible; configured := bool_decide (_get_overage_price d <> None); cap_cents := o_cap o;
     cap_units := cap_units; quota := quota; used := used; overage_units := overage_units;
     overage_cost_cents := Billing.cost_cents_for_units (scale a) (GLITCHTIP_OVERAGE_TIERS a) billed_units; throttle_rate := o_rate o |}.

Definition get_overage_status (user : Z) (slug : ustr) : M (ApiResponse OverageStatus) :=
  let! d := get_db in
  match find_org (is_member user) slug d with
  | None => ret NotFound404
  | Some (org, o) => ret (Done (overage_status org o d))
  end.

Definition set_metered (on : bool) (cap : Z) (o : OrgRow) : OrgRow :=
  {| o_customer := o_customer o; o_primary := o_primary o; o_metered := on; o_cap := cap; o_created := o_created o; o_slug := o_slug o;
     o_rate := o_rate o; o_users := o_users o; o_owners := o_owners o |}.

Definition set_metered_item (item : ustr) (r : SubRow) : SubRow :=
  {| s_created := s_created r; s_period_start := s_period_start r; s_period_end := s_period_end r; s_price := s_price r; s_org := s_org r;
     s_status := s_status r; s_method := s_method r; s_start := s_start r; s_cycle_start := s_cycle_start r; s_cycle_end := s_cycle_end r;
     s_metered_item := item; s_units_reported := s_units_reported r; s_overage_start := s_overage_start r |}.

(** A [PositiveIntegerField] has 31 bits. *)
Definition save_metered (org : Z) (on : bool) (cap : Z) (d : DB) : res DB :=
  if cap <? 2 ^ 31 then update_org org (set_metered on cap) d else Raise DataError.

(** [sub.asave(update_fields=["metered_item_id"])] *)
Definition save_metered_item (sub item : ustr) (d : DB) : res DB :=
  if fits 255 item then Ok {| products := products d; prices := prices d; subs := alter (set_metered_item item) sub (subs d); orgs := orgs d |}
  else Raise DataError.

(** The requests that find or attach the metered item; a [StripeError] is an answer. *)
Definition attach_item (sub overage_price : ustr) : M (StripeReply ustr) :=
  match fetch_subscription a sub with
  | StripeError t m => ret (StripeError t m)
  | Failed e => raise e
  | Replied fetched =>
      match (select_subscription_items (items fetched)).2 with
      | Some existing => ret (Replied (item_id existing))
      | None =>
          match post_migrate a with
          | StripeError t m => ret (StripeError t m)
          | Failed e => raise e
          | Replied _ =>
              emit (Post (u "subscriptions/" ++ sub ++ u "/migrate") [(u "billing_mode[type]", u "flexible")]) ;;;
              match post_item a with
              | StripeError t m => ret (StripeError t m)
              | Failed e => raise e
              | Replied item =>
                  emit (Post (u "subscription_items") [(u "subscription", sub); (u "price", overage_price)]) ;;;
                  ret (Replied (item_id item))
              end
          end
      end
  end.

(** [None] when the metered item is there, else the answer of the refusal. *)
Definition ensure_item (sub : ustr) (r : SubRow) (overage_price : ustr) : M (option (ApiResponse OverageStatus)) :=
  if truthy (s_metered_item r) then ret None
  else
    let! item := attach_item sub overage_price in
    match item with
    | StripeError t m =>
        ret (Some (if ustr_eqb t (u "card_error") then Refused 402 m else Refused 502 (u "Could not enable overage billing. Please try again.")))
    | Failed e => raise e
    | Replied item => execute (save_metered_item sub item) ;;; ret None
    end.

(** The checks before overage is switched on: the plan and the overage price, or a refusal. *)
Definition enable_checks (o : OrgRow) (cap : Z) (d : DB) : (ustr * SubRow * ustr) + ustr :=
  match primary_plan o d with
  | Some (i, s, p, q) =>
      if pc_no_throttle p || (pr_events q <=? 0) then inr (u "An active paid plan is required for overage billing.")
      else if cap <=? 0 then inr (u "A positive spend cap is required to enable overage.")
      else if GLITCHTIP_OVERAGE_MAX_CAP_CENTS a <? cap then
        inr (u "Spend cap exceeds the maximum of " ++ str_of_Z (GLITCHTIP_OVERAGE_MAX_CAP_CENTS a) ++ u " cents.")
      else
        match _get_overage_price d with
        | None => inr (u "Overage billing is not configured on this server.")
        | Some price => inl (i, s, price)
        end
  | None => inr (u "An active paid plan is required for overage billing.")
  end.

Definition after_configure (user : Z) (slug : ustr) (org : Z) : M (ApiResponse OverageStatus) :=
  call (enqueue_ok (env a)) (ThrottleCheck org true) ;;;
  get_overage_status user slug.

Definition configure_overage (user : Z) (slug : ustr) (enable : bool) (cap : Z) : M (ApiResponse OverageStatus) :=
  let! d := get_db in
  match find_org (is_owner user) slug d with
  | None => ret NotFound404
  | Some (org, o) =>
      if enable then
        match enable_checks o cap d with
        | inr detail => ret (Refused 400 detail)
        | inl (sub, r, price) =>
            let! refusal := ensure_item sub r price in
            match refusal with
            | Some answer => ret answer
            | None =>
                execute (save_metered org true cap) ;;;
                after_configure user slug org
            end
        end
      else
        execute (update_org org (fun o => set_metered false (o_cap o) o)) ;;;
        after_configure user slug org
  end.

(** ** Cancelling *)

(** [cancel_for_organization]; [cancelled] is Stripe's answer, [Ok false] a 404. *)
Definition cancel_for_organization (cancelled : ustr -> res bool) (org : Z) : M unit :=
  let! d := get_db in
  each (fun kr => let! found := lift (cancelled kr.1) in
                  if found then emit (Delete (u "subscriptions/" ++ kr.1)) else ret tt) (active_subs d org).
End api.

(** ** The support license *)

(** [SupportLicense.resolved]: the key and e-mail, and the one row, which reading creates. *)
Definition resolved (BILLING_ENABLED : bool) (GLITCHTIP_LICENSE_KEY : ustr) (row : option (ustr * ustr)) : (ustr * ustr) * option (ustr * ustr) :=
  if BILLING_ENABLED then (([], []), row)
  else if truthy GLITCHTIP_LICENSE_KEY then ((GLITCHTIP_LICENSE_KEY, []), row)
  else (default ([], []) row, Some (default ([], []) row)).
