(* ===== verification/StripeFacts.v ===== *)
(** * Stripe: what holds

    The invariant of the tables of [Stripe], that every operation of [Stripe], [StripeSync] and
    [StripeApi] keeps it, which subscription an organization is measured by, and who may switch
    overage on. *)
From S2P Require Import Prelude PyStr PyValue PyDate UrlValidation PyHash Cursor Usage Stripe StripeSync StripeApi.
From S2P Require Billing.

(** ** The primary subscription *)

Lemma key_lt_spec a b : key_lt a b = true <-> a.1 < b.1 \/ (a.1 = b.1 /\ a.2 < b.2).
Proof. unfold key_lt. split; intros H; bool_split; [by left|right; lia|]. destruct H as [H|[? ?]]; apply orb_true_iff; [left|right; apply andb_true_iff; split]; lia. Qed.

(** [k] is active for [org], and no active subscription of it has more events, or as many and
    is younger. *)
Definition best_of (d : DB) (org : Z) (k : ustr) : Prop :=
  exists r, subs d !! k = Some r /\ s_org r = Some org /\ is_active (s_status r) = true /\
    forall k' r', subs d !! k' = Some r' -> s_org r' = Some org -> is_active (s_status r') = true ->
      key_lt (sub_key d (k, r)) (sub_key d (k', r')) = false.

Lemma active_subs_spec d org k r : (k, r) ∈ active_subs d org <-> subs d !! k = Some r /\ s_org r = Some org /\ is_active (s_status r) = true.
Proof. unfold active_subs. rewrite list_elem_of_filter, elem_of_map_to_list. cbn. tauto. Qed.

Lemma foldl_better_spec d l b : exists c, foldl (better d) (Some b) l = Some c /\ (c = b \/ c ∈ l) /\
  key_lt (sub_key d c) (sub_key d b) = false /\ forall x, x ∈ l -> key_lt (sub_key d c) (sub_key d x) = false.
Proof.
  assert (forall a b c, key_lt a b = false -> key_lt b c = false -> key_lt a c = false) as Htrans.
  { intros x y z H1 H2. apply not_true_iff_false. intros H3. apply not_true_iff_false in H1, H2. rewrite key_lt_spec in *. lia. }
  assert (forall a, key_lt a a = false) as Hrefl by (intros x; apply not_true_iff_false; rewrite key_lt_spec; lia).
  revert b. induction l as [|x l IH]; intros b; cbn [foldl].
  { exists b. split_and!; [done|by left|done|by intros ? ?%elem_of_nil]. }
  unfold better at 2. destruct (key_lt (sub_key d b) (sub_key d x)) eqn:E.
  - destruct (IH x) as (c & -> & Hc & Hx & Hl). exists c. split_and!; [done|set_solver| |].
    + apply (Htrans _ (sub_key d x)); [done|]. apply not_true_iff_false. rewrite key_lt_spec in *. lia.
    + intros y [->|Hy]%elem_of_cons; auto.
  - destruct (IH b) as (c & -> & Hc & Hx & Hl). exists c. split_and!; [done|set_solver|done|].
    intros y [->|Hy]%elem_of_cons; [by apply (Htrans _ (sub_key d b))|auto].
Qed.

Lemma get_primary_best d org k : get_primary_subscription d org = Some k -> best_of d org k.
Proof.
  unfold get_primary_subscription. destruct (active_subs d org) as [|b l] eqn:El; [done|]. cbn [foldl]. unfold better at 2.
  destruct (foldl_better_spec d l b) as ([k' r] & -> & Hin & Hb & Hl). cbn. intros [= <-].
  assert ((k', r) ∈ active_subs d org) as (H1 & H2 & H3)%active_subs_spec by (rewrite El; destruct Hin as [->|]; [left|by right]).
  exists r. split_and!; [done..|]. intros k2 r2 H4 H5 H6.
  assert ((k2, r2) ∈ active_subs d org) as Hin2 by (by apply active_subs_spec). rewrite El in Hin2. apply elem_of_cons in Hin2 as [->|?]; auto.
Qed.

Lemma best_of_with_primary d org k o p : best_of d org k -> best_of (with_primary p o d) org k.
Proof. intros H. exact H. Qed.

Lemma sub_row_fields env s base metered org r : sub_row env s base metered org = Ok r ->
  s_org r = Some org /\ s_status r = status s /\ s_price r = price_id (item_price base).
Proof.
  unfold sub_row. destruct (unix_to_datetime (item_period_start base)); [|done]. destruct (unix_to_datetime (item_period_end base)); [|done].
  cbn [res_bind]. destruct (compute_cycle _ _ _ _ _). destruct (unix_to_datetime (sub_created s)); [|done].
  destruct (unix_to_datetime (start_date s)); [|done]. by intros [= <-].
Qed.

Lemma select_items_some l base metered : base <> None \/ metered <> None \/ l <> [] ->
  (select_items base metered l).1 <> None \/ (select_items base metered l).2 <> None.
Proof.
  revert base metered. induction l as [|i l IH]; intros base metered H; cbn [select_items]; [cbn; tauto|].
  destruct (is_metered_price (item_price i)); apply IH; [destruct metered; auto|destruct base; auto].
Qed.

Lemma select_base l : l <> [] -> exists base metered, select_subscription_items l = (Some base, metered).
Proof.
  intros H. unfold select_subscription_items. destruct (select_items None None l) as [[b|] m]; [by eexists _, _|].
  destruct l as [|i l]; [done|]. by eexists _, _.
Qed.

(** C17: the plan an organization is measured by: once an event of an active subscription of one
    of this region's organizations is stored, the organization's primary subscription is
    active, its own, and none of its active ones has a larger quota, or the same and is
    younger; and its throttle is checked. *)
Theorem primary_is_best env s h w w1 org o :
  ours env s (db w) org o -> is_active (status s) = true -> items s <> [] ->
  update_subscription env s h w = (w1, Ok tt) ->
  (exists p o1, orgs (db w1) !! org = Some o1 /\ o_primary o1 = Some p /\ best_of (db w1) org p) /\
  exists r, subs (db w1) !! sub_id s = Some r /\ s_org r = Some org /\ s_status r = status s.
Proof.
  intros Hours Ha Hitems H. rewrite (update_ours _ _ _ _ _ _ Hours) in H. destruct Hours as (c & _ & _ & _ & Ho).
  destruct (select_base _ Hitems) as (base & metered & Hs).
  destruct (sub_row env s base metered org) as [r|] eqn:Er.
  2: { unfold store_subscription in H. rewrite Hs in H. unfold bindM, lift in H. by rewrite Er in H. }
  destruct (upsert_sub (sub_id s) r (db w)) as [d2|] eqn:Eu.
  2: { unfold store_subscription in H. rewrite Hs in H. unfold bindM, lift, execute in H. by rewrite Er, Eu in H. }
  destruct (sub_row_fields _ _ _ _ _ _ Er) as (Hro & Hrs & _).
  destruct (store_active env s org o w base metered r d2 Hs Er Eu Ha Hro Hrs Ho) as [Hd _]. rewrite H in Hd. cbn [fst] in Hd. rewrite Hd.
  destruct (upsert_sub_ok _ _ _ _ Eu) as (_ & _ & _ & _ & Horgs & row & Hsubs & Eo & Es & _).
  assert (subs d2 !! sub_id s = Some row) as Hrow by (rewrite Hsubs; apply lookup_insert_eq).
  split; [|exists row; split_and!; [done|congruence|congruence]].
  destruct (get_primary_subscription d2 org) as [p|] eqn:Ep.
  - exists p, (set_primary (Some p) o). split_and!; [|done|by apply best_of_with_primary, get_primary_best].
    cbn. by rewrite lookup_alter_eq, Horgs, Ho.
  - destruct (get_primary_exists d2 org (sub_id s) row); [done|congruence|congruence|done].
Qed.

(** ** The tables *)

(** Every foreign key has its row, every value fits its column. *)
Record db_ok (d : DB) : Prop := {
  price_product_ok : forall i r, prices d !! i = Some r -> is_Some (products d !! pc_product r);
  sub_price_ok : forall i r, subs d !! i = Some r -> is_Some (prices d !! s_price r);
  sub_org_ok : forall i r o, subs d !! i = Some r -> s_org r = Some o -> is_Some (orgs d !! o);
  primary_ok : forall i o p, orgs d !! i = Some o -> o_primary o = Some p -> is_Some (subs d !! p);
  default_price_ok : forall i r p, products d !! i = Some r -> pr_default_price r = Some p -> is_Some (prices d !! p);
  product_range : forall i r, products d !! i = Some r -> 0 <= pr_events r < BIGINT;
  price_range : forall i r, prices d !! i = Some r -> price_row_ok i r = true;
  sub_range : forall i r, subs d !! i = Some r -> sub_row_ok i r = true }.

(** A statement that keeps the tables well-formed when it succeeds. *)
Definition preserves (f : DB -> res DB) : Prop := forall d d', f d = Ok d' -> db_ok d -> db_ok d'.

Lemma is_Some_kept {K A} `{Countable K} (m : gmap K A) i j x : is_Some (m !! j) -> is_Some (<[i := x]> m !! j).
Proof. intros Hm. destruct (decide (i = j)) as [->|]; [by rewrite lookup_insert_eq|by rewrite lookup_insert_ne]. Qed.

Lemma is_Some_alter {K A} `{Countable K} f (m : gmap K A) i j : is_Some (m !! j) -> is_Some (alter f i m !! j).
Proof. intros Hm. destruct (decide (i = j)) as [->|]; [rewrite lookup_alter_eq; by apply fmap_is_Some|by rewrite lookup_alter_ne]. Qed.

(** The row found in an inserted or altered table. *)
Lemma insert_cases {K A} `{Countable K} (m : gmap K A) i j x y : <[i := x]> m !! j = Some y -> (j = i /\ y = x) \/ m !! j = Some y.
Proof. intros Hm. destruct (decide (i = j)) as [->|]; [rewrite lookup_insert_eq in Hm; left; by injection Hm|rewrite lookup_insert_ne in Hm by done; by right]. Qed.

Lemma alter_cases {K A} `{Countable K} f (m : gmap K A) i j y : alter f i m !! j = Some y -> (j = i /\ exists x, m !! i = Some x /\ y = f x) \/ m !! j = Some y.
Proof.
  intros Hm. destruct (decide (i = j)) as [->|]; [|rewrite lookup_alter_ne in Hm by done; by right].
  rewrite lookup_alter_eq in Hm. apply fmap_Some in Hm as (x & Hx & ->). left. split; [done|]. by exists x.
Qed.

#[export] Hint Resolve is_Some_kept is_Some_alter price_product_ok sub_price_ok sub_org_ok primary_ok default_price_ok product_range price_range sub_range : stripe.

Ltac table_cases :=
  repeat match goal with
  | H : <[_ := _]> _ !! _ = Some _ |- _ => apply insert_cases in H as [[-> ->]|H]
  | H : alter _ _ _ !! _ = Some _ |- _ => apply alter_cases in H as [[-> (? & ? & ->)]|H]
  end.

Ltac db_ok_tac := constructor; cbn [products prices subs orgs]; intros; table_cases; eauto with stripe.

Lemma preserves_upsert_product id f : preserves (upsert_product id f).
Proof.
  intros d d' H Hok. unfold upsert_product in H. destruct (f_description f) as [text|]; [|done]. unfold positive_big in H.
  destruct (BIGINT <=? f_events f) eqn:E1; [done|]. destruct (f_events f <? 0) eqn:E2; [done|]. cbn [res_bind] in H.
  destruct (negb (fits 30 id)); [done|]. injection H as <-. bool_split. db_ok_tac. cbn in H0. destruct (products d !! id) as [r0|] eqn:E; [|done]. eauto with stripe.
Qed.

Lemma preserves_upsert_price id r : preserves (upsert_price id r).
Proof.
  intros d d' H Hok. unfold upsert_price in H. destruct (price_row_ok id r) eqn:E; [|done]. cbn [negb] in H.
  destruct (products d !! pc_product r) eqn:Ep; [|done]. injection H as <-. db_ok_tac.
Qed.

Lemma preserves_upsert_sub id r : preserves (upsert_sub id r).
Proof.
  intros d d' H Hok. unfold upsert_sub in H. destruct (sub_row_ok id r) eqn:E; [|done]. destruct (sub_keys_ok r d) eqn:Ek; [|done]. cbn [negb] in H.
  unfold sub_keys_ok in Ek. injection H as <-. apply andb_true_iff in Ek as [Ep%bool_decide_eq_true Eo].
  db_ok_tac. cbn in H0. rewrite H0 in Eo. by apply bool_decide_eq_true in Eo.
Qed.

(** A change of an organization that points to no other subscription than before. *)
Lemma preserves_update_org org f : (forall o, o_primary (f o) = None \/ o_primary (f o) = o_primary o) -> preserves (update_org org f).
Proof.
  intros Hf d d' [= <-] Hok. db_ok_tac. destruct (Hf x) as [E|E]; rewrite E in H0; [done|]. eauto with stripe.
Qed.

Lemma preserves_upsert_rows {A} (up : ustr -> A -> DB -> res DB) rows : (forall i r, preserves (up i r)) -> preserves (bulk_upsert up rows).
Proof.
  intros Hup d d' H. unfold bulk_upsert in H. destruct (bool_decide _); [|done]. revert d H. induction rows as [|[i r] rows IH]; intros d H Hok; cbn in H.
  - by injection H as <-.
  - destruct (up i r d) as [d1|] eqn:E; [|done]. apply (IH d1); [done|]. by eapply Hup.
Qed.

Lemma preserves_save_sub id r : preserves (save_sub id r).
Proof.
  intros d d' H Hok. unfold save_sub in H. destruct (sub_row_ok id r) eqn:E; [|done]. injection H as <-. db_ok_tac; cbn in *; eauto with stripe.
Qed.

Lemma preserves_save_cycle id c : preserves (save_cycle id c).
Proof. intros d d' [= <-] Hok. db_ok_tac; cbn in *; eauto with stripe. exact (sub_range _ Hok _ _ H). Qed.

Lemma preserves_save_metered_item id i : preserves (save_metered_item id i).
Proof.
  intros d d' H Hok. unfold save_metered_item in H. destruct (fits 255 i) eqn:E; [|done]. injection H as <-. db_ok_tac; cbn in *; eauto with stripe.
  pose proof (sub_range _ Hok _ _ H) as Hr. unfold sub_row_ok in *. cbn [set_metered_item s_status s_method s_metered_item]. apply andb_true_iff in Hr as [Hr _]. by rewrite Hr, E.
Qed.

Lemma preserves_touch_price p : preserves (touch_price p).
Proof. intros d d'. unfold touch_price. destruct (price_ref _); [|done]. apply preserves_upsert_price. Qed.

Lemma preserves_save_customer org c : preserves (save_customer org c).
Proof. intros d d'. unfold save_customer. destruct (fits 28 c); [|done]. apply preserves_update_org. intros o. by right. Qed.

Lemma preserves_remove_inactive : preserves remove_inactive_primary_subscriptions.
Proof.
  intros d d' [= <-] Hok. constructor; cbn [products prices subs orgs]; eauto with stripe.
  - intros i r o H1 H2. rewrite lookup_fmap. apply fmap_is_Some. eauto with stripe.
  - intros i o p H1 H2. rewrite lookup_fmap in H1. apply fmap_Some in H1 as (x & Hx & ->). destruct (inactive_primary d x); [done|]. eauto with stripe.
Qed.

Lemma preserves_set_primaries ids : preserves (set_primary_subscriptions_for_organizations ids).
Proof.
  intros d d' [= <-] Hok. constructor; cbn [products prices subs orgs]; eauto with stripe.
  - intros i r o H1 H2. rewrite map_lookup_imap. destruct (sub_org_ok _ Hok _ _ _ H1 H2) as [x ->]. by eexists.
  - intros i o p H1 H2. rewrite map_lookup_imap in H1. destruct (orgs d !! i) as [x|] eqn:E; [|done]. cbn in H1. injection H1 as <-.
    destruct (bool_decide _); [|eauto with stripe]. cbn in H2. destruct (get_primary_best _ _ _ H2) as (r & Hr & _). by rewrite Hr.
Qed.

(** ** The deletion of products *)

Section fixpoint_.
Context (f : gset ustr -> gset ustr) (D : gset ustr).
Hypothesis grows : forall X, X ⊆ f X.
Hypothesis bounded : forall X, X ⊆ D -> f X ⊆ D.

Lemma iter_bounded X n : X ⊆ D -> Nat.iter n f X ⊆ D.
Proof. intros H. induction n as [|n IH]; [done|]. apply bounded, IH. Qed.

Lemma iter_grows X n : Nat.iter n f X = f (Nat.iter n f X) \/ (n <= size (Nat.iter n f X))%nat.
Proof.
  induction n as [|n IH]; [right; lia|]. change (Nat.iter (S n) f X) with (f (Nat.iter n f X)). set (Y := Nat.iter n f X) in *.
  destruct (decide (f Y = Y)) as [E|E]; [left; by rewrite E|]. right. destruct IH as [IH|IH]; [congruence|].
  assert (Y ⊂ f Y) as Hs by (split; [apply grows|intros Hs; apply E; apply set_eq; intros x; split; [apply Hs|apply grows]]).
  pose proof (subset_size _ _ Hs). lia.
Qed.

Lemma iter_fixpoint X n : X ⊆ D -> (size D <= n)%nat -> f (Nat.iter n f X) = Nat.iter n f X.
Proof.
  intros HX Hn. destruct (iter_grows X n) as [E|E]; [done|]. pose proof (iter_bounded X n HX) as Hb. set (Y := Nat.iter n f X) in *.
  assert (Y = D) as ->. { apply set_eq. intros x. split; [apply Hb|]. intros Hx. destruct (decide (x ∈ Y)) as [|Hx']; [done|].
    assert (Y ⊂ D) as Hs by (split; [done|set_solver]). pose proof (subset_size _ _ Hs). lia. }
  apply set_eq. intros x. split; [by apply bounded|apply grows].
Qed.
End fixpoint_.

Lemma cascaded_closed d gone : gone ⊆ dom (products d) -> cascade d (cascaded d gone) = cascaded d gone.
Proof.
  intros H. apply (iter_fixpoint (cascade d) (dom (products d))); [intros X; unfold cascade; apply union_subseteq_l| |done|by rewrite size_dom].
  intros X HX. unfold cascade. apply union_least; [done|]. apply dom_filter_subseteq.
Qed.

Lemma preserves_delete_stale ids : preserves (fun d => delete_products (stale_products ids d) d).
Proof.
  intros d d' H Hok. unfold delete_products in H. set (gone := cascaded d (stale_products ids d)) in *.
  assert (cascade d gone = gone) as Hclosed by (apply cascaded_closed, dom_filter_subseteq).
  destruct (bool_decide _) eqn:Ec; [|done]. apply bool_decide_eq_true in Ec. injection H as <-.
  constructor; cbn [products prices subs orgs]; eauto with stripe.
  - intros i r [H1 H2]%map_lookup_filter_Some. destruct (price_product_ok _ Hok _ _ H1) as [x Hx]. exists x. by apply map_lookup_filter_Some.
  - intros i r p [H1 H2]%map_lookup_filter_Some Hp. destruct (default_price_ok _ Hok _ _ _ H1 Hp) as [pr Hpr].
    exists pr. apply map_lookup_filter_Some. split; [done|]. cbn. intros Hg. apply H2. cbn [fst]. rewrite <- Hclosed. unfold cascade. apply elem_of_union_r, elem_of_dom.
    exists r. apply map_lookup_filter_Some. split; [done|]. cbn. unfold falls. rewrite Hp. cbn. rewrite Hpr. by apply bool_decide_eq_true.
  - intros i r [H1 _]%map_lookup_filter_Some. by apply (product_range _ Hok i).
  - intros i r [H1 _]%map_lookup_filter_Some. by apply (price_range _ Hok i).
Qed.

(** ** Operations *)

Definition keeps {A} (m : M A) : Prop := forall w, db_ok (db w) -> db_ok (db (m w).1).

Lemma keeps_same {A} (m : M A) : (forall w, db (m w).1 = db w) -> keeps m.
Proof. intros H w Hok. by rewrite H. Qed.

Lemma keeps_ret {A} (x : A) : keeps (ret x).
Proof. by apply keeps_same. Qed.

Lemma keeps_raise {A} e : keeps (@raise A e).
Proof. by apply keeps_same. Qed.

Lemma keeps_lift {A} (r : res A) : keeps (lift r).
Proof. by apply keeps_same. Qed.

Lemma keeps_get_db : keeps get_db.
Proof. by apply keeps_same. Qed.

Lemma keeps_emit e : keeps (emit e).
Proof. by apply keeps_same. Qed.

Lemma keeps_call ok e : keeps (call ok e).
Proof. destruct ok; by apply keeps_same. Qed.

Lemma keeps_execute f : preserves f -> keeps (execute f).
Proof. intros H w Hok. unfold execute. destruct (f (db w)) as [d|] eqn:E; [|done]. by apply (H (db w)). Qed.

Lemma keeps_bind {A B} (m : M A) (k : A -> M B) : keeps m -> (forall x, keeps (k x)) -> keeps (bindM m k).
Proof.
  intros Hm Hk w Hok. unfold bindM. specialize (Hm w Hok). destruct (m w) as [w1 [x|e]]; [|done]. by apply Hk.
Qed.

Lemma keeps_each {A} (f : A -> M unit) l : (forall x, keeps (f x)) -> keeps (each f l).
Proof. intros Hf. induction l as [|x l IH]; [apply keeps_ret|]. by apply keeps_bind. Qed.

Lemma keeps_on_error {A} (m : M A) h : keeps m -> keeps h -> keeps (on_error m h).
Proof.
  intros Hm Hh w Hok. unfold on_error. specialize (Hm w Hok). destruct (m w) as [w1 [x|e]]; [done|]. specialize (Hh w1 Hm).
  by destruct (h w1) as [w2 []].
Qed.

Lemma keeps_integrity_ok m : keeps m -> keeps (integrity_ok m).
Proof. intros Hm w Hok. unfold integrity_ok. specialize (Hm w Hok). by destruct (m w) as [w1 [|[]]]. Qed.

#[export] Hint Resolve keeps_ret keeps_raise keeps_lift keeps_get_db keeps_emit keeps_call keeps_execute preserves_upsert_product
  preserves_upsert_price preserves_upsert_sub preserves_save_sub preserves_save_cycle preserves_save_metered_item preserves_touch_price
  preserves_save_customer preserves_remove_inactive preserves_set_primaries preserves_delete_stale : stripe.

Ltac keeps_tac := repeat first [progress intros | case_match | solve [auto with stripe nocore] | apply keeps_on_error | apply keeps_integrity_ok | apply keeps_each | apply keeps_bind].

Lemma set_primary_row d org p d' : db_ok d -> (forall k, p = Some k -> is_Some (subs d !! k)) -> update_org org (set_primary p) d = Ok d' -> db_ok d'.
Proof. intros Hok Hp [= <-]. db_ok_tac. Qed.

Lemma keeps_set_primary_of env sid st org o : keeps (set_primary_of env sid st org o).
Proof.
  intros w Hok. unfold set_primary_of. destruct (is_active st).
  - unfold bindM at 1, get_db. cbv beta iota zeta. destruct (_ && _).
    + unfold bindM, execute. destruct (update_org _ _ _) as [d|] eqn:E; [|done].
      assert (db_ok d) as Hd.
      { apply (set_primary_row (db w) org (get_primary_subscription (db w) org)); [done| |exact E].
        intros k Hk. destruct (get_primary_best _ _ _ Hk) as (r & Hr & _). by eexists. }
      by apply keeps_call.
    + by apply keeps_call.
  - destruct (bool_decide _); [|done]. apply keeps_execute; [|done]. apply preserves_update_org. by left.
Qed.

#[export] Hint Resolve keeps_set_primary_of keeps_on_error keeps_integrity_ok keeps_each : stripe.

Lemma keeps_update_product p : keeps (update_product p).
Proof. unfold update_product. keeps_tac. Qed.

Lemma keeps_update_price p : keeps (update_price p).
Proof. unfold update_price. keeps_tac. Qed.

Lemma keeps_store_subscription env s org o : keeps (store_subscription env s org o).
Proof. unfold store_subscription. keeps_tac. Qed.

#[export] Hint Resolve keeps_update_product keeps_update_price keeps_store_subscription : stripe.

Lemma keeps_update_subscription env s h : keeps (update_subscription env s h).
Proof. unfold update_subscription, handle_support_subscription, forward. keeps_tac. Qed.

#[export] Hint Resolve keeps_update_subscription : stripe.

Lemma keeps_handle_event env ev h : keeps (handle_event env ev h).
Proof. unfold handle_event, update_no_product. keeps_tac. Qed.

Lemma keeps_cache_add env k : keeps (cache_add env k).
Proof. apply keeps_same. intros w. unfold cache_add. by destruct (cache_lookup _ _ _). Qed.

Lemma keeps_cache_get_or_set env k v : keeps (cache_get_or_set env k v).
Proof. apply keeps_same. intros w. unfold cache_get_or_set. by destruct (cache_lookup _ _ _). Qed.

Lemma keeps_cache_delete k : keeps (cache_delete k).
Proof. by apply keeps_same. Qed.

#[export] Hint Resolve keeps_handle_event keeps_cache_add keeps_cache_get_or_set keeps_cache_delete : stripe.

Lemma keeps_process_event env ev h : keeps (process_event env ev h).
Proof. unfold process_event. keeps_tac. Qed.

#[export] Hint Resolve keeps_process_event : stripe.

Lemma keeps_webhook env pe pt t h : keeps (stripe_webhook_view env pe pt t h).
Proof. unfold stripe_webhook_view, handle_meter_error_event. keeps_tac. Qed.

Lemma preserves_save_default product price : preserves (save_default_price product price).
Proof.
  intros d d' H Hok. unfold save_default_price in H. destruct (prices d !! price) as [r|] eqn:E; [|done]. injection H as <-.
  db_ok_tac; cbn in *; [by injection H0 as <-; eexists|]. exact (product_range _ Hok _ _ H).
Qed.

Lemma preserves_bulk_product rows : preserves (bulk_upsert upsert_product rows).
Proof. apply preserves_upsert_rows. auto with stripe. Qed.

Lemma preserves_bulk_price rows : preserves (bulk_upsert upsert_price rows).
Proof. apply preserves_upsert_rows. auto with stripe. Qed.

Lemma preserves_bulk_sub rows : preserves (bulk_upsert upsert_sub rows).
Proof. apply preserves_upsert_rows. auto with stripe. Qed.

#[export] Hint Resolve preserves_save_default preserves_bulk_product preserves_bulk_price preserves_bulk_sub : stripe.

Lemma keeps_products_page page : keeps (sync_products_page page).
Proof. unfold sync_products_page. keeps_tac. Qed.

#[export] Hint Resolve keeps_products_page : stripe.

Lemma keeps_sync_products pages : keeps (sync_products pages).
Proof.
  unfold sync_products. apply keeps_bind; [|intros; auto with stripe].
  generalize (@nil ustr). induction pages as [|page pages IH]; intros ids; [apply keeps_ret|]. cbn [product_pages]. keeps_tac.
Qed.

Lemma keeps_sync_prices pages : keeps (sync_prices pages).
Proof. induction pages as [|page pages IH]; [apply keeps_ret|]. cbn [sync_prices]. keeps_tac. Qed.

Lemma keeps_sync_subscription env x s : keeps (sync_subscription env x s).
Proof. unfold sync_subscription, see_organization, see_price. keeps_tac. Qed.

#[export] Hint Resolve keeps_sync_products keeps_sync_prices keeps_sync_subscription : stripe.

Lemma keeps_subscription_page env page s rows : keeps (sync_subscription_page env page s rows).
Proof. revert s rows. induction page as [|x page IH]; intros s rows; [apply keeps_ret|]. cbn [sync_subscription_page]. keeps_tac. Qed.

#[export] Hint Resolve keeps_subscription_page : stripe.

Lemma keeps_sync_subscriptions env fetch pages : keeps (sync_subscriptions env fetch pages).
Proof.
  unfold sync_subscriptions, update_outdated_subscriptions, update_outdated. apply keeps_bind; [|keeps_tac].
  generalize {| organization_ids := []; active_organization_ids := []; known_price_ids := [] |}.
  induction pages as [|page pages IH]; intros s; [apply keeps_ret|]. cbn [subscription_pages]. keeps_tac.
Qed.

#[export] Hint Resolve keeps_sync_subscriptions : stripe.

Lemma keeps_post {A} endpoint data (r : StripeReply A) : keeps (post endpoint data r).
Proof. unfold post. keeps_tac. Qed.

#[export] Hint Resolve keeps_post : stripe.

Lemma keeps_customer_of a org o : keeps (customer_of a org o).
Proof. unfold customer_of, create_customer. keeps_tac. Qed.

#[export] Hint Resolve keeps_customer_of : stripe.

Lemma keeps_create_stripe_session a user slug price : keeps (create_stripe_session a user slug price).
Proof. unfold create_stripe_session, create_session. keeps_tac. Qed.

Lemma keeps_portal a user slug : keeps (stripe_billing_portal_session a user slug).
Proof. unfold stripe_billing_portal_session, create_portal_session. keeps_tac. Qed.

(** A new subscription and the primary subscription that names it. *)
Lemma keeps_store_free a org id r : keeps (store_free_subscription a org id r).
Proof.
  intros w Hok. unfold store_free_subscription. unfold bindM at 1, execute at 1. destruct (create_sub id r (db w)) as [d1|] eqn:E; [|done].
  unfold create_sub in E. destruct (subs (db w) !! id); [done|].
  assert (db_ok d1) as H1 by by eapply preserves_upsert_sub.
  destruct (upsert_sub_ok _ _ _ _ E) as (_ & _ & _ & _ & _ & row & Hsubs & _).
  unfold bindM at 1, execute. destruct (update_org _ _ _) as [d2|] eqn:E2; [|done].
  assert (db_ok d2) as H2.
  { apply (set_primary_row d1 org (Some id)); [done| |exact E2]. intros k [= <-]. rewrite Hsubs, lookup_insert_eq. by eexists. }
  by apply (keeps_bind (call (enqueue_ok (env a)) (ThrottleCheck org false)) (fun _ => ret (Done id)) (keeps_call _ _) (fun _ => keeps_ret _)).
Qed.

#[export] Hint Resolve keeps_store_free : stripe.

Lemma keeps_create_subscription a user organization price : keeps (stripe_create_subscription a user organization price).
Proof. unfold stripe_create_subscription. keeps_tac. Qed.

Lemma preserves_save_metered org on cap : preserves (save_metered org on cap).
Proof. intros d d'. unfold save_metered. destruct (_ <? _); [|done]. apply preserves_update_org. intros o. by right. Qed.

#[export] Hint Resolve keeps_create_stripe_session keeps_portal keeps_create_subscription preserves_save_metered : stripe.

Lemma keeps_configure_overage a user slug on cap : keeps (configure_overage a user slug on cap).
Proof.
  unfold configure_overage, ensure_item, attach_item, after_configure, get_overage_status. keeps_tac.
  apply keeps_execute, preserves_update_org. intros ?. by right.
Qed.

Lemma keeps_cycles env on : keeps (update_subscription_cycles env on).
Proof. unfold update_subscription_cycles. keeps_tac. Qed.

(** Whatever changes the tables. *)
Inductive Operation :=
  | Webhook (env : Env) (parse_event : list Z -> option StripeEvent) (parse_thin : list Z -> option ThinEvent) (t : option ustr) (h : WebhookRequest)
  | Sync (env : Env) (fetch : ustr -> res (option Subscription)) (billing : bool) (products : Pages ProductExpandedPrice)
      (prices : Pages Price) (subscriptions : Pages SubscriptionExpandCustomer)
  | Cycles (env : Env) (billing : bool)
  | Checkout (a : ApiEnv) (user : Z) (slug price : ustr)
  | Portal (a : ApiEnv) (user : Z) (slug : ustr)
  | FreePlan (a : ApiEnv) (user : Z) (organization price : ustr)
  | Overage (a : ApiEnv) (user : Z) (slug : ustr) (enable : bool) (cap : Z).

Definition operate (o : Operation) (w : Backend) : Backend :=
  match o with
  | Webhook env pe pt t h => (stripe_webhook_view env pe pt t h w).1
  | Sync env fetch billing ps qs ss => (sync_stripe_models env fetch billing ps qs ss w).1
  | Cycles env billing => (update_subscription_cycles env billing w).1
  | Checkout a user slug price => (create_stripe_session a user slug price w).1
  | Portal a user slug => (stripe_billing_portal_session a user slug w).1
  | FreePlan a user organization price => (stripe_create_subscription a user organization price w).1
  | Overage a user slug enable cap => (configure_overage a user slug enable cap w).1
  end.

Lemma operate_ok o w : db_ok (db w) -> db_ok (db (operate o w)).
Proof.
  destruct o; cbn [operate]; [apply keeps_webhook| |apply keeps_cycles|apply keeps_create_stripe_session|apply keeps_portal
    |apply keeps_create_subscription|apply keeps_configure_overage].
  revert w. change (keeps (sync_stripe_models env fetch billing products prices subscriptions)). unfold sync_stripe_models. keeps_tac.
Qed.

(** Whatever webhooks, synchronisations and requests come in whatever order, and whichever
    of their outside calls fail, every subscription keeps its price and organization, every
    price its product, every primary subscription and default price its row, and every value
    fits its column. *)
Theorem tables_stay_consistent (ops : list Operation) (w : Backend) : db_ok (db w) -> db_ok (db (foldl (fun w o => operate o w) w ops)).
Proof. revert w. induction ops as [|o ops IH]; intros w H; [done|]. apply IH, operate_ok, H. Qed.

(** ** After a synchronisation *)

Lemma bind_ok {A B} (m : M A) (k : A -> M B) w w2 b : bindM m k w = (w2, Ok b) -> exists w1 a, m w = (w1, Ok a) /\ k a w1 = (w2, Ok b).
Proof. unfold bindM. destruct (m w) as [w1 [a|e]]; [|discriminate]. intros H. by exists w1, a. Qed.

Lemma execute_ok f w w1 : execute f w = (w1, Ok tt) -> f (db w) = Ok (db w1).
Proof. unfold execute. destruct (f (db w)); [by intros [= <-]|discriminate]. Qed.

(** After a synchronisation that came to its end, every primary subscription is one that is
    active, so no organization keeps a quota it no longer pays for. *)
Theorem sync_leaves_active_primaries env fetch pages w w1 :
  db_ok (db w) -> sync_subscriptions env fetch pages w = (w1, Ok tt) ->
  forall i o p, orgs (db w1) !! i = Some o -> o_primary o = Some p -> exists r, subs (db w1) !! p = Some r /\ is_active (s_status r) = true.
Proof.
  intros Hok H i o p Ho Hp. assert (db_ok (db w1)) as Hok1 by (change w1 with (w1, @Ok unit tt).1; rewrite <- H; by apply keeps_sync_subscriptions).
  destruct (primary_ok _ Hok1 _ _ _ Ho Hp) as [r Hr]. exists r. split; [done|].
  unfold sync_subscriptions in H. apply bind_ok in H as (w2 & s & _ & H). apply bind_ok in H as (w3 & [] & _ & H). apply bind_ok in H as (w4 & [] & _ & H).
  apply execute_ok in H. injection H as H. rewrite <- H in Ho, Hr. cbn in Ho, Hr. rewrite lookup_fmap in Ho. apply fmap_Some in Ho as (o0 & Ho0 & ->).
  destruct (inactive_primary (db w4) o0) eqn:E; [done|]. unfold inactive_primary in E. rewrite Hp in E. cbn in E. rewrite Hr in E.
  by apply negb_false_iff in E.
Qed.

(** ** Overage *)

Definition same_orgs {A} (m : M A) : Prop := forall w, orgs (db (m w).1) = orgs (db w).

Lemma same_orgs_bind {A B} (m : M A) (k : A -> M B) : same_orgs m -> (forall x, same_orgs (k x)) -> same_orgs (bindM m k).
Proof. intros Hm Hk w. unfold bindM. specialize (Hm w). destruct (m w) as [w1 [x|e]]; [|done]. by rewrite Hk. Qed.

Lemma same_orgs_refl {A} (m : M A) : (forall w, db (m w).1 = db w) -> same_orgs m.
Proof. intros H w. by rewrite H. Qed.

Lemma same_orgs_ensure a sub r price : same_orgs (ensure_item a sub r price).
Proof.
  unfold ensure_item. destruct (truthy _); [by apply same_orgs_refl|]. apply same_orgs_bind.
  - unfold attach_item. destruct (fetch_subscription a sub) as [f| |]; [|by apply same_orgs_refl..].
    destruct (_.2); [by apply same_orgs_refl|]. destruct (post_migrate a); [|by apply same_orgs_refl..].
    apply same_orgs_bind; [by apply same_orgs_refl|]. intros _. destruct (post_item a); [|by apply same_orgs_refl..].
    apply same_orgs_bind; [by apply same_orgs_refl|]. intros _. by apply same_orgs_refl.
  - intros [item| |]; [|by apply same_orgs_refl..]. apply same_orgs_bind; [|intros _; by apply same_orgs_refl].
    intros w. unfold execute, save_metered_item. by destruct (fits 255 item).
Qed.

Lemma find_org_Some P slug d k o : find_org P slug d = Some (k, o) -> orgs d !! k = Some o /\ o_slug o = slug /\ P o = true.
Proof.
  intros [Hin Hp]%find_first_Some. cbn in Hp. apply andb_true_iff in Hp as [H1%ustr_eqb_eq H2]. split_and!; [|done|done].
  by apply elem_of_map_to_list in Hin.
Qed.

Lemma after_configure_db a user slug org w : db (after_configure a user slug org w).1 = db w.
Proof.
  unfold after_configure, get_overage_status, bindM, call, get_db. destruct (enqueue_ok (env a)); [|done].
  cbn. by destruct (find_org _ _ _) as [[k o]|].
Qed.

(** An [UPDATE] of one organization followed by what changes no row. *)
Lemma updated_org {A} org f (m : M A) o w : (forall w, db (m w).1 = db w) -> orgs (db w) !! org = Some o ->
  forall k, orgs (db ((execute (update_org org f) ;;; m) w).1) !! k = if decide (k = org) then Some (f o) else orgs (db w) !! k.
Proof.
  intros Hm Ho k. unfold bindM, execute, update_org. rewrite Hm. cbn. destruct (decide (k = org)) as [->|]; [by rewrite lookup_alter_eq, Ho|by rewrite lookup_alter_ne].
Qed.

(** Who can make an organization pay for overage: a request changes at most one
    organization, of which the user is an owner, and only in these two fields; it is switched
    on only with a plan that has a quota and throttles, and with a positive cap within the
    maximum of the server. *)
Theorem overage_guarded a user slug enable cap w w1 r k :
  configure_overage a user slug enable cap w = (w1, r) -> orgs (db w1) !! k <> orgs (db w) !! k ->
  exists o, orgs (db w) !! k = Some o /\ o_slug o = slug /\ user ∈ o_owners o /\
    (orgs (db w1) !! k = Some (set_metered false (o_cap o) o) /\ enable = false \/
     orgs (db w1) !! k = Some (set_metered true cap o) /\ enable = true /\ 0 < cap <= GLITCHTIP_OVERAGE_MAX_CAP_CENTS a /\
     exists i s p q, primary_plan o (db w) = Some (i, s, p, q) /\ pc_no_throttle p = false /\ 0 < pr_events q).
Proof.
  intros H Hne. unfold configure_overage in H. unfold bindM at 1, get_db in H. destruct (find_org _ _ _) as [[org o]|] eqn:Ef; [|by injection H as <- _].
  destruct (find_org_Some _ _ _ _ _ Ef) as (Ho & Hslug & Hown). unfold is_owner in Hown. apply bool_decide_eq_true in Hown.
  destruct enable.
  2: { pose proof (updated_org org (fun o => set_metered false (o_cap o) o) (after_configure a user slug org) o w (after_configure_db a user slug org) Ho k) as Hu.
       rewrite H in Hu. cbn [fst] in Hu. rewrite Hu in Hne |- *. destruct (decide (k = org)) as [->|]; [|done].
       exists o. split_and!; try done. by left. }
  destruct (enable_checks a o cap (db w)) as [[[sub row] price]|] eqn:Ec; [|by injection H as <- _].
  pose proof (same_orgs_ensure a sub row price w) as Hs. unfold bindM at 1 in H.
  destruct (ensure_item a sub row price w) as [w2 [[ans|]|e]]; cbn [fst] in Hs; [injection H as <- _; by rewrite Hs in Hne| |injection H as <- _; by rewrite Hs in Hne].
  unfold enable_checks in Ec. destruct (primary_plan o (db w)) as [[[[i s] p] q]|] eqn:Ep; [|done].
  destruct (_ || _) eqn:E1 in Ec; [done|]. destruct (cap <=? 0) eqn:E2; [done|]. destruct (_ <? cap) eqn:E3 in Ec; [done|]. clear Ec. bool_split.
  destruct (cap <? 2 ^ 31) eqn:E4; [|unfold bindM, execute, save_metered in H; rewrite E4 in H; injection H as <- _; by rewrite Hs in Hne].
  assert (orgs (db w2) !! org = Some o) as Ho2 by (by rewrite Hs).
  pose proof (updated_org org (set_metered true cap) (after_configure a user slug org) o w2 (after_configure_db a user slug org) Ho2 k) as Hu.
  assert ((execute (update_org org (set_metered true cap)) ;;; after_configure a user slug org) w2 = (w1, r)) as H'.
  { rewrite <- H. unfold bindM, execute, save_metered. by rewrite E4. }
  rewrite H' in Hu. cbn [fst] in Hu. rewrite Hu in Hne |- *. destruct (decide (k = org)) as [->|]; [|by rewrite Hs in Hne].
  exists o. split_and!; try done. right. split_and!; try done. by exists i, s, p, q.
Qed.

(** ** Witnesses and findings *)

Definition sample_customer : Customer :=
  {| customer_id := u "cus_1"; email := Some (u "a@b.c"); customer_metadata := Some [(u "organization_id", u "1"); (u "region", u "eu")] |}.

Definition sample_env (time : Z) (works : bool) : Env :=
  {| now := time * 1000000; STRIPE_REGION := u "eu"; STRIPE_REGION_DOMAINS := []; EMAIL_ENABLED := true;
     webhook_secret := fun _ => u "whsec"; STRIPE_WEBHOOK_TOLERANCE := 300 * 1000000;
     get_customer := fun _ => Ok sample_customer; get_product := fun _ => Raise OSError; get_v2_event := fun _ => Raise OSError;
     add_months := calendar_add_months; forward_ok := works; email_ok := works; mark_ok := works; enqueue_ok := works |}.

Definition price_of (id product : string) (cents : Z) : Price :=
  {| price_id := u id; price_product := PId (u product); recurring := Some [(u "interval", Some (u "month"))]; unit_amount := Some cents;
     price_metadata := None; price_nickname := None |}.
Arguments price_of (id product)%_string cents.

Definition sub_of (id : string) (st : string) (price : Price) : Subscription :=
  {| sub_id := u id; items := [{| item_id := u "si_1"; item_price := price; item_period_start := 1700000000; item_period_end := 1702592000 |}];
     sub_created := 1700000000; status := u st; sub_metadata := None; start_date := 1700000000; collection_method := u "charge_automatically";
     customer := u "cus_1" |}.
Arguments sub_of (id st)%_string price.

Definition event_of (id : string) (created : Z) (s : Subscription) : StripeEvent :=
  {| event_id := u id; event_created := created; event_object := OSubscription s; event_type := u "customer.subscription.updated" |}.
Arguments event_of id%_string created s.

Definition product_row (events : Z) (overage : bool) (default_price : option ustr) : ProductRow :=
  {| pr_name := u "Plan"; pr_description := []; pr_default_price := default_price; pr_events := events; pr_public := true; pr_overage := overage; pr_features := [] |}.

Definition price_row (product : string) (cents : Z) (metered : bool) : PriceRow :=
  {| pc_price := cents; pc_nickname := []; pc_product := u product; pc_no_throttle := false; pc_public := true; pc_metered := metered;
     pc_meter := []; pc_interval := u "month" |}.
Arguments price_row product%_string cents metered.

Definition sample_org : OrgRow :=
  {| o_customer := u "cus_1"; o_primary := None; o_metered := false; o_cap := 0; o_created := 0; o_slug := u "org"; o_rate := 0; o_users := [7]; o_owners := [7] |}.

Definition sample_db : DB :=
  {| products := list_to_map [(u "prod_s", product_row 1000 false (Some (u "price_s"))); (u "prod_l", product_row 9000 false (Some (u "price_l")));
                              (u "prod_o", product_row 0 true None)];
     prices := list_to_map [(u "price_s", price_row "prod_s" 1500 false); (u "price_l", price_row "prod_l" 9900 false); (u "price_o", price_row "prod_o" 0 true)];
     subs := ∅; orgs := {[1 := sample_org]} |}.

Definition sample_world : Backend := {| db := sample_db; cache := ∅; effects := [] |}.

Definition no_headers (text : list Z) (signature : option ustr) : WebhookRequest :=
  {| from_region := None; signature_header := signature; path := u "/stripe/webhook/"; body := text |}.

Definition small_sub : Subscription := sub_of "sub_s" "active" (price_of "price_s" "prod_s" 1500).
Definition large_sub : Subscription := sub_of "sub_l" "active" (price_of "price_l" "prod_l" 9900).

(** Deliveries one after the other, a second apart. *)
Definition deliver (w : Backend) (te : Z * StripeEvent) : Backend :=
  (process_event (sample_env te.1 true) te.2 (no_headers [] None) w).1.

Definition primary_in (w : Backend) : option ustr := o ← orgs (db w) !! 1; o_primary o.

Lemma sample_db_ok : db_ok sample_db.
Proof.
  assert (forall {A} (l : list (ustr * A)) i r, (list_to_map l : gmap ustr A) !! i = Some r -> (i, r) ∈ l) as Hl
    by (intros A l i r H; by apply elem_of_list_to_map_2 in H).
  constructor; cbn [products prices subs orgs sample_db]; intros i r.
  - intros H%Hl. repeat (apply elem_of_cons in H as [[= -> ->]|H]; [vm_compute; by eexists|]). by apply elem_of_nil in H.
  - by rewrite lookup_empty.
  - intros o. by rewrite lookup_empty.
  - intros p [<- <-]%lookup_singleton_Some. done.
  - intros p H%Hl. repeat (apply elem_of_cons in H as [[= -> ->]|H]; [intros [= <-]; vm_compute; by eexists|]). by apply elem_of_nil in H.
  - intros H%Hl. repeat (apply elem_of_cons in H as [[= -> ->]|H]; [vm_compute; split; [discriminate|reflexivity]|]). by apply elem_of_nil in H.
  - intros H%Hl. repeat (apply elem_of_cons in H as [[= -> ->]|H]; [vm_compute; reflexivity|]). by apply elem_of_nil in H.
  - by rewrite lookup_empty.
Qed.

(** A webhook with the signature of its body is processed, the same with a changed byte is not. *)
Definition signed_body : list Z := u "{event}".
Definition signature_of (text : list Z) : ustr :=
  u "t=1700000000,v1=" ++ hexdigest (hmac_sha256 (u "whsec") (signed_payload 1700000000 text)).

Example signed_webhook_processed :
  let view text := stripe_webhook_view (sample_env 1700000100 true) (fun _ => Some (event_of "evt_1" 1700000000 small_sub)) (fun _ => None) None
                     (no_headers text (Some (signature_of signed_body))) sample_world in
  (view signed_body).2 = Ok 200 /\ primary_in (view signed_body).1 = Some (u "sub_s") /\
  (view (u "{evenT}")).2 = Ok 403 /\ primary_in (view (u "{evenT}")).1 = None.
Proof. cbv zeta. split_and!; by_compute. Qed.

Lemma forged_webhooks_refused_witness :
  stripe_webhook_view (sample_env 1700000100 true) (fun _ => None) (fun _ => None) None (no_headers signed_body None) sample_world = (sample_world, Ok 403).
Proof. apply forged_webhooks_refused. by intros (header & ? & ? & ? & H & _). Defined.

Lemma replayed_event_ignored_witness :
  let w1 := deliver sample_world (1700000000, event_of "evt_1" 1700000000 small_sub) in
  exists w2, process_event (sample_env 1700000005 true) (event_of "evt_1" 1700000000 small_sub) (no_headers [] None) w1 = (w2, Ok 200) /\
    db w2 = db w1 /\ effects w2 = effects w1.
Proof.
  cbv zeta. apply (replayed_event_ignored (sample_env 1700000000 true) (sample_env 1700000005 true) (event_of "evt_1" 1700000000 small_sub)
    (no_headers [] None) (no_headers [] None) sample_world).
  - by_compute.
  - right. vm_compute. discriminate.
  - split; [vm_compute; discriminate|vm_compute; reflexivity].
Defined.

Lemma failed_delivery_retried_witness :
  let w1 := (process_event (sample_env 1700000000 false) (event_of "evt_1" 1700000000 small_sub) (no_headers [] None) sample_world).1 in
  subs (db w1) !! u "sub_s" <> None /\ effects w1 = [] /\
  (process_event (sample_env 1700000005 true) (event_of "evt_1" 1700000000 small_sub) (no_headers [] None) w1).2
  = (process_event (sample_env 1700000005 true) (event_of "evt_1" 1700000000 small_sub) (no_headers [] None) sample_world).2.
Proof.
  cbv zeta. split_and!; [vm_compute; discriminate|by_compute|].
  apply (failed_delivery_retried (sample_env 1700000000 false) (sample_env 1700000005 true) (event_of "evt_1" 1700000000 small_sub) (no_headers [] None)
    sample_world _ OSError); [by_compute| |vm_compute; discriminate].
  split; [by_compute|]. intros c x H. exact H.
Defined.

Lemma primary_is_best_witness :
  let w := deliver sample_world (1700000000, event_of "evt_1" 1700000000 small_sub) in
  let r := update_subscription (sample_env 1700000010 true) large_sub (no_headers [] None) w in
  primary_in r.1 = Some (u "sub_l") /\
  exists p o1, orgs (db r.1) !! 1 = Some o1 /\ o_primary o1 = Some p /\ best_of (db r.1) 1 p.
Proof.
  cbv zeta. split; [by_compute|].
  apply (primary_is_best (sample_env 1700000010 true) large_sub (no_headers [] None)
    (deliver sample_world (1700000000, event_of "evt_1" 1700000000 small_sub)) _ 1 (set_primary (Some (u "sub_s")) sample_org)).
  - exists sample_customer. split_and!; by_compute.
  - by_compute.
  - discriminate.
  - by_compute.
Defined.

Definition sample_api (works : bool) : ApiEnv :=
  {| env := sample_env 1700000100 works; BILLING_ENABLED := true; GLITCHTIP_URL := u "https://example.com"; GLITCHTIP_FREE_TIER_EVENTS := 1000;
     GLITCHTIP_OVERAGE_MAX_CAP_CENTS := 100000; scale := 1000; GLITCHTIP_OVERAGE_TIERS := Billing.GLITCHTIP_OVERAGE_TIERS;
     usage := {| issue_hours := []; transaction_hours := []; log_hours := []; uptime_hours := []; symbol_bundles := []; info_files := [] |};
     name_of := fun _ => u "Org"; email_of := fun _ => u "a@b.c"; post_customer := Replied sample_customer; post_session := Replied (u "https://pay");
     post_portal := Replied (u "https://portal"); post_subscription := Replied small_sub; fetch_subscription := fun _ => Replied small_sub;
     post_migrate := Replied tt; post_item := Replied {| item_id := u "si_9"; item_price := price_of "price_o" "prod_o" 0; item_period_start := 0; item_period_end := 0 |} |}.

Definition paid_world : Backend := deliver sample_world (1700000000, event_of "evt_1" 1700000000 small_sub).

Lemma tables_stay_consistent_witness :
  db_ok (db (foldl (fun w o => operate o w) sample_world
    [FreePlan (sample_api true) 7 (u "1") (u "price_s"); Overage (sample_api true) 7 (u "org") true 500; Cycles (sample_env 1700000200 true) true])).
Proof. apply tables_stay_consistent, sample_db_ok. Defined.

Lemma overage_guarded_witness :
  let r := configure_overage (sample_api true) 7 (u "org") true 500 paid_world in
  (exists s, r.2 = Ok (Done s) /\ enabled s = true /\ cap_cents s = 500) /\
  exists o, orgs (db paid_world) !! 1 = Some o /\ 7 ∈ o_owners o.
Proof.
  cbv zeta. split; [eexists; split_and!; by_compute|].
  destruct (overage_guarded (sample_api true) 7 (u "org") true 500 paid_world (configure_overage (sample_api true) 7 (u "org") true 500 paid_world).1
    (configure_overage (sample_api true) 7 (u "org") true 500 paid_world).2 1) as (o & Ho & _ & Hown & _).
  - apply surjective_pairing.
  - vm_compute. discriminate.
  - exact (ex_intro _ o (conj Ho Hown)).
Defined.

(** Stripe's list of the one subscription of [paid_world], now unpaid. *)
Definition unpaid_page : Pages SubscriptionExpandCustomer :=
  [Ok [{| x_subscription := sub_of "sub_s" "unpaid" (price_of "price_s" "prod_s" 1500); x_customer := sample_customer |}]].

Lemma sync_leaves_active_primaries_witness :
  let r := sync_subscriptions (sample_env 1700000100 true) (fun _ => Ok None) unpaid_page paid_world in
  r.2 = Ok tt /\ primary_in paid_world = Some (u "sub_s") /\ primary_in r.1 = None /\
  forall i o p, orgs (db r.1) !! i = Some o -> o_primary o = Some p -> exists row, subs (db r.1) !! p = Some row /\ is_active (s_status row) = true.
Proof.
  cbv zeta. split_and!; [by_compute|by_compute|by_compute|].
  apply (sync_leaves_active_primaries (sample_env 1700000100 true) (fun _ => Ok None) unpaid_page paid_world).
  - apply keeps_process_event, sample_db_ok.
  - by_compute.
Defined.

(** The view keeps the time of the first event of an object, not of the last: an older event
    that comes after a newer one is applied, and a cancelled plan is active again. *)
Example late_event_applied :
  let first := event_of "evt_1" 1700000000 small_sub in
  let newest := event_of "evt_3" 1700000300 (sub_of "sub_s" "canceled" (price_of "price_s" "prod_s" 1500)) in
  let late := event_of "evt_2" 1700000200 small_sub in
  let w2 := foldl deliver sample_world [(1700000301, first); (1700000302, newest)] in
  let w3 := deliver w2 (1700000303, late) in
  (s_status <$> subs (db w2) !! u "sub_s") = Some (u "canceled") /\ primary_in w2 = None /\
  (s_status <$> subs (db w3) !! u "sub_s") = Some (u "active") /\ primary_in w3 = Some (u "sub_s").
Proof. cbv zeta. split_and!; by_compute. Qed.

(** When the primary subscription ends, another active one does not take its place. *)
Example other_plan_forgotten :
  let w2 := foldl deliver sample_world [(1700000001, event_of "evt_1" 1700000000 small_sub); (1700000002, event_of "evt_2" 1700000001 large_sub)] in
  let w3 := deliver w2 (1700000003, event_of "evt_3" 1700000002 (sub_of "sub_l" "canceled" (price_of "price_l" "prod_l" 9900))) in
  primary_in w2 = Some (u "sub_l") /\ primary_in w3 = None /\ (s_status <$> subs (db w3) !! u "sub_s") = Some (u "active") /\
  get_primary_subscription (db w3) 1 = Some (u "sub_s").
Proof. cbv zeta. split_and!; by_compute. Qed.

Definition hosted (description_ : option ustr) (public : string) : Product :=
  {| product_id := u "prod_n"; product_name := u "New"; description := description_; marketing_features := [];
     product_metadata := [(u "product_type", u "hosted"); (u "events", u "5000"); (u "is_public", u public)] |}.
Arguments hosted description_ public%_string.

(** A product without a description fails its webhook; the synchronisation stores it. *)
Example product_without_description :
  (update_product (hosted None "true") sample_world).2 = Raise IntegrityError /\
  (sync_products_page [{| x_product := hosted None "true"; x_default_price := None |}] sample_world).2 = Ok [u "prod_n"].
Proof. split; by_compute. Qed.

(** [True] makes a product public in the synchronisation and private in the webhook. *)
Example public_by_case :
  let public (w : Backend) := pr_public <$> products (db w) !! u "prod_n" in
  public (update_product (hosted (Some []) "True") sample_world).1 = Some false /\
  public (sync_products_page [{| x_product := hosted (Some []) "True"; x_default_price := None |}] sample_world).1 = Some true.
Proof. cbv zeta. split; by_compute. Qed.

(** The price of a free plan is 0, which the webhook takes for no price. *)
Example free_price_ignored :
  prices (db (update_price (price_of "price_f" "prod_s" 0) sample_world).1) !! u "price_f" = None /\
  (pc_price <$> prices (db (sync_prices [Ok [price_of "price_f" "prod_s" 0]] sample_world).1) !! u "price_f") = Some 0.
Proof. split; by_compute. Qed.

(** One public plan without a default price fails the list of all plans. *)
Example plans_not_listed :
  let w := (sync_products_page [{| x_product := hosted None "true"; x_default_price := None |}] sample_world).1 in
  (exists l, list_stripe_products sample_db = Ok l) /\ list_stripe_products (db w) = Raise ValueError.
Proof. cbv zeta. split; [eexists|]; by_compute. Qed.

(** Stripe's webhook of a new free subscription can come before its row is created; the request
    then fails, although the subscription was made and is stored. *)
Example webhook_before_creation :
  let row := {| s_created := 0; s_period_start := 0; s_period_end := 0; s_price := u "price_s"; s_org := Some 1; s_status := u "active";
                s_method := []; s_start := 0; s_cycle_start := None; s_cycle_end := None; s_metered_item := []; s_units_reported := 0; s_overage_start := None |} in
  (store_free_subscription (sample_api true) 1 (u "sub_s") row sample_world).2 = Ok (Done (u "sub_s")) /\
  (store_free_subscription (sample_api true) 1 (u "sub_s") row paid_world).2 = Raise IntegrityError.
Proof. cbv zeta. split; by_compute. Qed.

(** A subscription whose customer now names another organization stays the primary one of the
    first. *)
Example moved_subscription_counts_twice :
  let moved := {| customer_id := u "cus_1"; email := None; customer_metadata := Some [(u "organization_id", u "2"); (u "region", u "eu")] |} in
  let e := sample_env 1700000100 true in
  let e2 := {| now := now e; STRIPE_REGION := STRIPE_REGION e; STRIPE_REGION_DOMAINS := []; EMAIL_ENABLED := true; webhook_secret := webhook_secret e;
               STRIPE_WEBHOOK_TOLERANCE := 0; get_customer := fun _ => Ok moved; get_product := get_product e; get_v2_event := get_v2_event e;
               add_months := add_months e; forward_ok := true; email_ok := true; mark_ok := true; enqueue_ok := true |} in
  let two := {| db := {| products := products (db paid_world); prices := prices (db paid_world); subs := subs (db paid_world);
                         orgs := <[2 := sample_org]> (orgs (db paid_world)) |}; cache := ∅; effects := [] |} in
  let w := (process_event e2 (event_of "evt_9" 1700000100 small_sub) (no_headers [] None) two).1 in
  primary_in w = Some (u "sub_s") /\ (o ← orgs (db w) !! 2; o_primary o) = Some (u "sub_s") /\ (r ← subs (db w) !! u "sub_s"; s_org r) = Some 2.
Proof. cbv zeta. split_and!; by_compute. Qed.

